(* ===== verification/_CoqProject ===== *)
-Q . S2P
Prelude.v
GoText.v
Exact.v
Identity.v
Canonical.v
EditModel.v
Timeline.v
EditState.v
EditClips.v
EditNarrative.v
EditCaptions.v
EditTranscript.v
EditDerive.v
EditValidate.v
EditNormalize.v
EditEffects.v
EditJournal.v
EditJournalOps.v
EditRanges.v
EditClipInvariant.v
EditProposals.v
EditTree.v
EditCoverage.v
EditCues.v
EditRequests.v
Project.v
RenderContract.v
RenderPlan.v
RenderSchedule.v
RenderCompile.v
RenderSweep.v
RenderAccept.v
RenderSound.v
DraftOverlay.v
Release.v
ReleaseTrust.v
RuntimeState.v
Update.v
UpdateInvariant.v
UpdateLife.v
EngineLanes.v
EngineDecode.v
EngineAssign.v
EngineAudio.v
EngineMix.v
EngineDecoder.v
EngineBindings.v
EngineStream.v
EngineSound.v
Database.v
Projection.v
EditLoad.v
EditLoadState.v
EditRepository.v
RepositorySample.v
RepositoryEffects.v
RepositoryJournal.v
RepositoryReplay.v
RepositoryOnce.v
RepositoryHistory.v
NarrativeOrder.v
RepositoryFindings.v
JSONText.v
Authority.v
EditService.v
EditServiceSound.v
EditServiceCalls.v
CommandRegistry.v
GoWire.v
CliGrants.v
CliRepository.v
CliMemory.v
CliTables.v
CliHistory.v
CliService.v
CliSafety.v
UISession.v
WorkJobs.v
WorkInvariant.v
WorkStorage.v
