(* ===== verification/Prelude.v ===== *)
(** * Open Cut: a verification development

    Open Cut is a local-first video editor.  A Go product core
    (src/product) holds projects as exact, revisioned entities; every change
    goes through an edit proposal that is validated, normalized against the
    stored entities, journaled and made undoable; a sequence is then compiled
    into a render plan that an engine plays or exports; an API (src/apps/api)
    stores all of it in SQLite and authorizes the interface and command line
    clients that call it; and a launcher with a signed, crash-safe updater
    (src/internal) keeps the program current.
    This library translates those parts into Gallina, one definition per Go
    function or type, and proves what makes them correct.

    ** Conventions

    A Go call that can fail is an [outcome]: a value, an error or a panic, with
    the bind of stdpp's [mbind].  int32, int64 and uint64 values are [Z] with
    the range checks and the wrap-around of the Go operators written out;
    strings are [list byte] or [string] as the code inspects bytes or compares
    them; maps are [gmap]s, and where Go ranges over a map the model uses a
    list whose order is an argument or the theorem does not depend on it.
    Pointers that may be nil are options.  Texts that only explain an error to
    a human are dropped; which error is returned is kept.

    ** Files

    - [Prelude]: outcomes, their lemmas and tactics, list and option facts.
    - [GoText]: the pieces of Go's strings, strconv, utf8 and big packages the
      code relies on.
    - [Exact] (product/domain/exact.go, order_key.go), [Identity] (identity.go,
      language.go), [Canonical] (canonical.go, digest.go): exact times and rationals, order keys,
      UUIDv7 identities, RFC 8785 texts and digests.
    - [EditModel], [Timeline], [EditValidate], [EditRequests]
      (product/domain/edit.go, application/edits_validation*.go): the edit
      domain and the validation of requests.
    - [EditState], [EditClips], [EditNarrative], [EditCaptions],
      [EditTranscript], [EditDerive], [EditNormalize]
      (application/edit_normalize*.go): the normalizer as a state
      monad over the staged entities, one definition per operation.
    - [EditEffects], [EditJournal], [EditJournalOps],
      [EditRanges], [EditClipInvariant], [EditProposals], [EditTree],
      [EditCoverage], [EditCues], [EditRequests]: the invariants of
      the normalizer and the theorems about proposals.
    - [Project] (product/domain/project.go): project genesis.
    - [RenderContract], [RenderPlan], [RenderCompile]
      (product/rendercontract, application/render_*.go): plans, their
      validation, outputs and the compiler; [RenderSchedule], [RenderSweep],
      [RenderAccept], [RenderSound]: their theorems.
    - [DraftOverlay] (product/draftoverlay/overlay.go).
    - [Release], [ReleaseTrust] (internal/release, internal/config,
      utils/target): versions, manifests, metadata, trust roots.
    - [RuntimeState] (internal/state), [Update] (internal/update,
      internal/launcher): the cell's state file, journal and bundle cache on a
      disk whose calls may fail, a write before or after it took effect
      (utils/atomicfile), and whose process may stop between any two writes;
      [UpdateInvariant], [UpdateLife]: a Hoare logic over all the disks a run
      visits in their order, and its theorems.
    - [EngineLanes] (internal/renderengine/decode_plan.go,
      audio_decode_plan.go): decode requests, runs and lanes; [EngineAudio]
      (oracle.go, audio_evaluator.go, pipeline.go): gain, mix and the audio
      evaluator; [EngineDecoder] (raw_audio_decoder.go, stream.go): the PCM
      decoder over its child's output; [EngineDecode],
      [EngineAssign], [EngineMix], [EngineBindings],
      [EngineStream], [EngineSound]: their theorems, the
      evaluator proved against the interface [DecodesRuns] that the PCM
      decoder implements.

    - [Database], [Projection], [EditLoad], [EditLoadState], [EditRepository]
      (apps/api/repository/edit*.go, genesis.go, runs.go): the SQLite tables as
      finite maps, a transaction monad over them, what an edit loads, what it
      writes, and the five commands that propose, apply, commit and undo edits;
      [RepositoryEffects], [RepositoryJournal], [RepositoryReplay],
      [RepositoryOnce], [RepositoryHistory], [NarrativeOrder],
      [RepositoryFindings], [RepositorySample]: reasoning about transactions and
      the theorems about sequences of commands.
    - [JSONText], [Authority], [EditService] (application/authority.go,
      invocation_policy.go, edits.go, edits_allocation.go): who calls, identity
      allocation and the edit service between a request and the repository;
      [EditServiceSound], [EditServiceCalls]: its theorems.
    - [CommandRegistry] (product/command/registry.go,
      service/cli_http_binding.go): the commands and the HTTP requests they are
      bound to; [GoWire]: base64, URL queries, json.Marshal and RFC 3339.
    - [CliGrants], [CliRepository] (repository/cli_*.go, authorization.go):
      grants, scope upgrades and their tables; [CliMemory]
      (cli_authorization_memory.go): the in-memory twin; [CliTables],
      [CliHistory]: both implement one abstract book, the interface
      [AuthorizationRepository] with its laws.
    - [CliService] (apps/api/service/cli_authorization.go), [UISession]
      (ui_session.go, ui_session_binding.go): the authorization services as
      programs of atomic actions, proved against the interface of the
      repository; [CliSafety]: what holds while other requests interfere.
    - [WorkJobs] (repository/work_jobs.go, work_job_recovery.go,
      product_resource*.go, application/product_resources.go): jobs, attempts
      and leases, the acquisition of product resources and their files;
      [WorkInvariant], [WorkStorage]: their theorems.

    ** What the theorems show

    - Edits.  A proposal writes exactly its operations under revision
      preconditions and its inverse takes it back ([proposal_undo],
      [proposal_concurrency]); clips and captions of a track stay apart, clips
      play what their source covers, link groups and the narrative tree stay
      well formed ([proposal_clips_apart] and the five after it); remapping,
      splitting, rough cuts and derived captions keep or show the footage they
      promise.
    - Repository.  Whatever calls are made in whatever order, and whichever
      statements the engine refuses: a request to propose or commit happens at
      most once, its retries are answered alike and every other use of its
      identity is refused ([commits_happen_once]); the revisions of a
      project are its transactions, in order ([history_is_linear]); the index
      columns of the narrative implement lists of children
      ([narrative_order_refined], [siblings_stay_ordered]).
      [RepositoryFindings] shows three edits that go wrong.  What the edit
      service hands over the repository accepts, and a call sent twice commits
      once ([service_records_accepted], [service_commit_retried]).
    - Authorization.  Whatever other requests do meanwhile, a client is
      authorized only with an unexpired challenge and a signature for this very
      request and the grant the challenge names, once, and never after it was
      turned away ([authorization_sound],
      [challenge_serves_once], [revoked_stay_out]); grants hold the scopes the
      creator approved ([scopes_as_approved]); both repositories answer as the
      same book ([repositories_keep_the_book]); the authority of the creator
      needs a signed session that is not over ([interface_sessions_sound]).
      [expired_pairing_is_stuck] shows a client that can never pair again.
    - Work.  Leases are exclusive and jobs end once, by the holder of the lease,
      a recovery or a reconciliation ([leases_exclusive]); a ready resource is
      whole on the disk through completions and startups wherever the process
      stops ([ready_resources_on_disk]) and startup makes rows and files agree
      ([startup_agrees]).  [leases_kept_to_the_second],
      [invalid_resource_stuck] and [unreadable_resource_removed] show what goes
      wrong: leases are compared as texts, an invalid resource cannot be
      acquired again, and a startup that cannot read a directory removes it.
    - Rendering.  What the compiler assembles the contract accepts, up to the
      bounds that only the contract has; plans are complete and scheduled;
      overlays keep them valid; outputs cover the duration, previews on even
      canvases in the proportions of the sequence; a clip that edits may scale
      beyond 64 leaves its sequence without output ([editor_placement_playable]).
    - The engine.  The bytes the audio evaluator writes are, frame by frame,
      the mix of the clips audible there ([audio_stream_exact]), except where
      a run's last sample is shared by two requests, which it refuses
      ([audio_shared_tail_refused]).
    - Updates.  Whatever fails, before or after it took effect, and wherever the
      process stops, the state stays installed, signed and never goes back, and
      recovery settles it.
    - Foundations.  Exact arithmetic, total orders, injective encodings and
      round trips of texts; decision procedures terminate with the right
      answer.

    ** Hypotheses and parameters

    [Platform], [ReleasePlatform] and [BundlePlatform] are classes for the code
    outside this repository: SHA-256, Ed25519, golang.org/x/text, grapheme
    segmentation, the signed JSON encodings, archive extraction.  [SQLite] says
    which statements an engine refuses, in which case they have no effect; a
    transaction that does not commit has none; [AuthSQLite] and [WorkSQLite] do
    so for the authorization and the job tables, [WorkDisk] for the calls of the
    file system.  [EditCodec] and [RequestCodec] give the JSON of structs that
    are digested, [Schemas] the JSON schemas of commands, [Signatures] Ed25519,
    [URLParser] url.Parse, [World] the clock, identities and random bytes of the
    services and [AgentRunBinding] the agent runs they are bound to.  Elsewhere
    identities, clock readings and random bytes are arguments.  Theorems about proposals
    assume what the repository stores: [input_typed] (integers in their Go
    ranges), [input_ok] (stored entities under their own identity, live targets
    present), [timeline_ok] and [narrative_ok] (the invariant being preserved)
    and [media_ok]; each has a witness on a concrete project.

    ** Fuel

    [gcd_loop] runs on 130 steps, more than Euclid's algorithm needs on 64-bit
    operands; [decimal_fuel] is 20 digits, the length of the largest uint64;
    the ancestor walks and the reference search get two steps more than there
    are nodes, and [section_descent_decided] and [reference_cycle_decided] show
    that this is enough; text decoding gets one step per byte;
    loading a section climbs to the root on one step more than there are
    nodes.  The engine's loops
    run on the count they consume: [gain_loop] on the seventeen bits of the
    largest exponent, [fill_chunk] on the chunks left, [evaluate_chunks] on the
    chunks of the output; running out is a panic, which the exactness theorem
    excludes.

    ** Not modelled

    The texts of errors; encoding/json as such; timestamps and event payloads of
    the edit journal and its asset and version operations; the statements of the
    repository for media, runs, previews, frames, exports and most reads, and
    the claims of jobs other than those that acquire resources; HTTP
    controllers, the sidecar broker, command lines, processes and goroutines,
    which are transport and operating system around the modelled calls; pixel
    processing, video decoding and the execution manifest of the engine, whose
    meaning is in native codecs; signing on the publisher's side; corruption of
    files other than a write that did not happen or was reported to fail although
    it did, except at startup of the
    resource storage, which is proved for any disk. *)
From stdpp Require Import base list strings gmap sorting.
From Stdlib Require Import ZArith Lia.
Open Scope Z_scope.

(** ** Outcomes: a Go call returns a value, returns an error, or panics. *)

Inductive outcome (E A : Type) : Type :=
| Ok (value : A)
| Fail (error : E)
| Panic.
Arguments Ok {E A} _.
Arguments Fail {E A} _.
Arguments Panic {E A}.

#[export] Instance outcome_ret {E} : MRet (outcome E) := fun A => @Ok E A.

#[export] Instance outcome_bind {E} : MBind (outcome E) :=
  fun A B f m =>
    match m with
    | Ok a => f a
    | Fail e => Fail e
    | Panic => Panic
    end.

#[export] Instance outcome_eq_dec `{EqDecision E} `{EqDecision A} : EqDecision (outcome E A).
Proof. solve_decision. Defined.

Definition is_ok {E A} (r : outcome E A) : bool :=
  match r with Ok _ => true | _ => false end.

(** Replace whatever error a call reports, as [if err != nil { return ErrX }] does. *)
Definition or_fail {E E' A} (e : E') (r : outcome E A) : outcome E' A :=
  match r with
  | Ok a => Ok a
  | Fail _ => Fail e
  | Panic => Panic
  end.

(** [if !b { return e }] *)
Definition guard_or {E} (e : E) (b : bool) : outcome E unit :=
  if b then Ok tt else Fail e.

Lemma bind_ok {E A B} (m : outcome E A) (k : A -> outcome E B) b :
  m ≫= k = Ok b -> exists a, m = Ok a /\ k a = Ok b.
Proof. destruct m as [a| |]; try discriminate. intros H. by exists a. Qed.

Lemma bind_safe {E A B} (m : outcome E A) (k : A -> outcome E B) :
  m <> Panic -> (forall a, m = Ok a -> k a <> Panic) -> m ≫= k <> Panic.
Proof. destruct m as [a| |]; intros Hm Hk; [by apply Hk|done|done]. Qed.

Lemma guard_or_safe {E} (e : E) b : guard_or e b <> Panic.
Proof. by destruct b. Qed.

Lemma or_fail_safe {E E' A} (e : E') (r : outcome E A) : r <> Panic -> or_fail e r <> Panic.
Proof. by destruct r. Qed.

Lemma guard_or_ok {E} (e : E) b : guard_or e b = Ok tt <-> b = true.
Proof. destruct b; cbn; split; congruence. Qed.

Lemma or_fail_ok {E E' A} (e : E') (r : outcome E A) a : or_fail e r = Ok a <-> r = Ok a.
Proof. destruct r; cbn; split; congruence. Qed.

(** ** Machine integers *)

Definition MaxInt64 : Z := 9223372036854775807.
Definition MinInt64 : Z := -9223372036854775808.
Definition MaxInt32 : Z := 2147483647.
Definition MinInt32 : Z := -2147483648.

Definition is_int64 (z : Z) : bool := (MinInt64 <=? z) && (z <=? MaxInt64).
Definition is_int32 (z : Z) : bool := (MinInt32 <=? z) && (z <=? MaxInt32).
Definition is_uint64 (z : Z) : bool := (0 <=? z) && (z <? 2 ^ 64).

(** Conversions wrap: [uint64(x)], [int64(x)], [int32(x)], [uint32(x)]. *)
Definition to_uint64 (z : Z) : Z := z mod 2 ^ 64.
Definition to_uint32 (z : Z) : Z := z mod 2 ^ 32.
Definition to_int64 (z : Z) : Z := (z + 2 ^ 63) mod 2 ^ 64 - 2 ^ 63.
Definition to_int32 (z : Z) : Z := (z + 2 ^ 31) mod 2 ^ 32 - 2 ^ 31.

Definition two64 : Z := 2 ^ 64.

Lemma is_int64_spec z : is_int64 z = true <-> MinInt64 <= z <= MaxInt64.
Proof. unfold is_int64. rewrite andb_true_iff, !Z.leb_le. tauto. Qed.

Lemma is_uint64_spec z : is_uint64 z = true <-> 0 <= z < 2 ^ 64.
Proof. unfold is_uint64. rewrite andb_true_iff, Z.leb_le, Z.ltb_lt. tauto. Qed.

Lemma to_uint64_small z : 0 <= z < 2 ^ 64 -> to_uint64 z = z.
Proof. intros. unfold to_uint64. by apply Z.mod_small. Qed.

Lemma to_int64_small z : MinInt64 <= z <= MaxInt64 -> to_int64 z = z.
Proof. unfold MinInt64, MaxInt64, to_int64. intros. rewrite Z.mod_small; lia. Qed.

Lemma to_int32_small z : MinInt32 <= z <= MaxInt32 -> to_int32 z = z.
Proof. unfold MinInt32, MaxInt32, to_int32. intros. rewrite Z.mod_small; lia. Qed.

(** ** Automation *)

(** Split a successful chain of calls into its steps. *)
Ltac outcome_inv :=
  repeat match goal with
  | H : mret _ = Ok _ |- _ => injection H as H
  | H : Ok _ = Ok _ |- _ => injection H as H
  | H : Fail _ = Ok _ |- _ => discriminate H
  | H : Panic = Ok _ |- _ => discriminate H
  | H : mbind _ _ = Ok _ |- _ =>
      let a := fresh "v" in let H1 := fresh "Hs" in let H2 := fresh "Hk" in
      apply bind_ok in H as (a & H1 & H2)
  | H : guard_or _ _ = Ok ?x |- _ => destruct x; apply guard_or_ok in H
  | H : or_fail _ _ = Ok _ |- _ => apply or_fail_ok in H
  end.

(** Turn boolean guards of the code into propositions. *)
Ltac bool_prop :=
  repeat match goal with
  | H : _ && _ = true |- _ => apply andb_true_iff in H as [? ?]
  | H : _ || _ = false |- _ => apply orb_false_iff in H as [? ?]
  | H : negb _ = true |- _ => apply negb_true_iff in H
  | H : negb _ = false |- _ => apply negb_false_iff in H
  | H : Z.leb _ _ = true |- _ => apply Z.leb_le in H
  | H : Z.leb _ _ = false |- _ => apply Z.leb_gt in H
  | H : Z.ltb _ _ = true |- _ => apply Z.ltb_lt in H
  | H : Z.ltb _ _ = false |- _ => apply Z.ltb_ge in H
  | H : Z.eqb _ _ = true |- _ => apply Z.eqb_eq in H
  | H : Z.eqb _ _ = false |- _ => apply Z.eqb_neq in H
  | H : bool_decide _ = true |- _ => apply bool_decide_eq_true in H
  | H : bool_decide _ = false |- _ => apply bool_decide_eq_false in H
  end.

Create HintDb oc.
#[export] Hint Rewrite @guard_or_ok @or_fail_ok is_int64_spec is_uint64_spec : oc.
#[export] Hint Resolve guard_or_safe or_fail_safe : oc.
