(* ===== verification/GoText.v ===== *)
(** Go strings, byte slices and the parts of [strconv], [encoding/hex],
    [strings] and [unicode/utf8] that the modelled sources call.

    A Go string is a [string] (its bytes), a Go [[]byte] a [list ascii]. *)
From stdpp Require Import base list strings gmap sorting.
From Stdlib Require Import ZArith Lia Ascii.
From S2P Require Import Prelude.
Open Scope Z_scope.

Notation bytes := (list ascii).

Definition bytes_of (s : string) : bytes := String.list_ascii_of_string s.
Definition string_of (b : bytes) : string := String.string_of_list_ascii b.

Lemma bytes_of_string_of b : bytes_of (string_of b) = b.
Proof. apply String.list_ascii_of_string_of_list_ascii. Qed.

Lemma string_of_bytes_of s : string_of (bytes_of s) = s.
Proof. apply String.string_of_list_ascii_of_string. Qed.

Lemma bytes_of_inj s1 s2 : bytes_of s1 = bytes_of s2 -> s1 = s2.
Proof. intros H. by rewrite <- (string_of_bytes_of s1), H, string_of_bytes_of. Qed.

Lemma bytes_of_app s1 s2 : bytes_of (s1 +:+ s2) = bytes_of s1 ++ bytes_of s2.
Proof. unfold bytes_of. induction s1 as [|c s1 IH]; [done|]. cbn in *. by rewrite <- IH. Qed.

(** [len(s)] *)
Definition go_len (s : string) : Z := Z.of_nat (length (bytes_of s)).

(** The numeric value of a byte and back. *)
Definition byte_val (a : ascii) : Z := Z.of_N (Ascii.N_of_ascii a).
Definition byte_of (z : Z) : ascii := Ascii.ascii_of_N (Z.to_N z).

Lemma byte_val_range a : 0 <= byte_val a < 256.
Proof. unfold byte_val. pose proof (Ascii.N_ascii_bounded a). lia. Qed.

Lemma byte_of_val a : byte_of (byte_val a) = a.
Proof. unfold byte_of, byte_val. rewrite N2Z.id. apply Ascii.ascii_N_embedding. Qed.

Lemma byte_val_of z : 0 <= z < 256 -> byte_val (byte_of z) = z.
Proof.
  intros H. unfold byte_of, byte_val. rewrite Ascii.N_ascii_embedding by lia. lia.
Qed.

Lemma byte_val_inj a b : byte_val a = byte_val b -> a = b.
Proof. intros H. by rewrite <- (byte_of_val a), H, byte_of_val. Qed.

(** ** String order: Go compares strings byte by byte *)

Fixpoint bytes_ltb (l r : bytes) : bool :=
  match l, r with
  | _, [] => false
  | [], _ :: _ => true
  | a :: l', b :: r' =>
      if byte_val a <? byte_val b then true
      else if byte_val b <? byte_val a then false
      else bytes_ltb l' r'
  end.

Definition str_ltb (l r : string) : bool := bytes_ltb (bytes_of l) (bytes_of r).
Definition str_le (l r : string) : Prop := str_ltb r l = false.

Lemma bytes_ltb_irrefl l : bytes_ltb l l = false.
Proof. induction l as [|a l IH]; [done|]. cbn. by rewrite Z.ltb_irrefl. Qed.

Lemma bytes_ltb_trans l1 : forall l2 l3,
  bytes_ltb l1 l2 = true -> bytes_ltb l2 l3 = true -> bytes_ltb l1 l3 = true.
Proof.
  induction l1 as [|a l1 IH]; intros [|b l2] [|c l3]; cbn; try done.
  destruct (Z.ltb_spec (byte_val a) (byte_val b)), (Z.ltb_spec (byte_val b) (byte_val a)),
    (Z.ltb_spec (byte_val b) (byte_val c)), (Z.ltb_spec (byte_val c) (byte_val b)),
    (Z.ltb_spec (byte_val a) (byte_val c)), (Z.ltb_spec (byte_val c) (byte_val a));
    try done; try lia. apply IH.
Qed.

Lemma bytes_ltb_total l1 : forall l2,
  bytes_ltb l1 l2 = false -> bytes_ltb l2 l1 = false -> l1 = l2.
Proof.
  induction l1 as [|a l1 IH]; intros [|b l2]; cbn; try done.
  destruct (Z.ltb_spec (byte_val a) (byte_val b)), (Z.ltb_spec (byte_val b) (byte_val a));
    try done; try lia. intros H1 H2. f_equal; [apply byte_val_inj; lia | by apply IH].
Qed.

Lemma str_ltb_antisym l r : str_ltb l r = true -> str_ltb r l = false.
Proof.
  intros H. destruct (str_ltb r l) eqn:E; [|done]. unfold str_ltb in *.
  by rewrite <- (bytes_ltb_irrefl (bytes_of l)), (bytes_ltb_trans _ _ _ H E).
Qed.

#[export] Instance str_le_dec : RelDecision str_le.
Proof. intros l r. unfold str_le. apply _. Defined.

#[export] Instance str_le_total : Total str_le.
Proof.
  intros l r. unfold str_le. destruct (str_ltb r l) eqn:E; [right|by left].
  by apply str_ltb_antisym.
Qed.

#[export] Instance str_le_antisymm : AntiSymm (=) str_le.
Proof. intros l r H1 H2. apply bytes_of_inj. by apply bytes_ltb_total. Qed.

#[export] Instance str_le_trans : Transitive str_le.
Proof.
  intros x y z H1 H2. unfold str_le in *. destruct (str_ltb z x) eqn:E; [|done].
  destruct (str_ltb x y) eqn:E1.
  - unfold str_ltb in *. by rewrite (bytes_ltb_trans _ _ _ E E1) in H2.
  - assert (x = y) as -> by (apply (anti_symm str_le); done). congruence.
Qed.

(** [sort.Strings] and [sort.Slice] by a string key. *)
Definition key_le {A} (key : A -> string) (l r : A) : Prop := str_le (key l) (key r).

#[export] Instance key_le_dec {A} (key : A -> string) : RelDecision (key_le key).
Proof. intros l r. unfold key_le. apply _. Defined.

#[export] Instance key_le_total {A} (key : A -> string) : Total (key_le key).
Proof. intros l r. unfold key_le. apply (total str_le). Qed.

#[export] Instance key_le_trans {A} (key : A -> string) : Transitive (key_le key).
Proof. intros x y z. unfold key_le. apply (transitivity (R := str_le)). Qed.

Definition sort_by {A} (key : A -> string) (l : list A) : list A := merge_sort (key_le key) l.

Lemma sort_by_perm {A} (key : A -> string) (l : list A) : sort_by key l ≡ₚ l.
Proof. apply merge_sort_Permutation. Qed.

Lemma sort_by_sorted {A} (key : A -> string) (l : list A) : StronglySorted (key_le key) (sort_by key l).
Proof. apply Sorted_StronglySorted; [apply _|]. apply Sorted_merge_sort, _. Qed.

(** [sort.Slice] on two text keys, the second breaking ties of the first *)
Definition key2_le {A} (major minor : A -> string) (l r : A) : Prop :=
  str_ltb (major l) (major r) = true \/ (major l = major r /\ str_le (minor l) (minor r)).

#[export] Instance key2_le_dec {A} (major minor : A -> string) : RelDecision (key2_le major minor).
Proof. intros l r. unfold key2_le. apply _. Defined.

#[export] Instance key2_le_total {A} (major minor : A -> string) : Total (key2_le major minor).
Proof.
  intros l r. unfold key2_le. destruct (decide (major l = major r)) as [Heq|Hne].
  - destruct (str_le_total (minor l) (minor r)); [left|right]; right; auto.
  - destruct (str_le_total (major l) (major r)) as [Hle|Hle]; [left|right]; left;
      apply not_false_iff_true; intros Hf; apply Hne; by apply (anti_symm str_le).
Qed.

#[export] Instance key2_le_trans {A} (major minor : A -> string) : Transitive (key2_le major minor).
Proof.
  intros x y z [H1|[H1 H1']] [H2|[H2 H2']].
  - left. unfold str_ltb in *. eauto using bytes_ltb_trans.
  - left. by rewrite <- H2.
  - left. by rewrite H1.
  - right. split; [congruence|]. by etrans.
Qed.

Definition sort_by2 {A} (major minor : A -> string) (l : list A) : list A := merge_sort (key2_le major minor) l.

Lemma sort_by2_perm {A} (major minor : A -> string) (l : list A) : sort_by2 major minor l ≡ₚ l.
Proof. apply merge_sort_Permutation. Qed.

(** Entries with distinct keys sort to one list, whatever order they came in. *)
Lemma sort_by2_unique {A} (major minor : A -> string) (l l' : list A) :
  NoDup (map (fun a => (major a, minor a)) l) -> l ≡ₚ l' -> sort_by2 major minor l = sort_by2 major minor l'.
Proof.
  intros Hnd Hp. apply (StronglySorted_unique_strong (key2_le major minor)).
  - intros x y Hx Hy Hxy Hyx. unfold sort_by2 in *. rewrite merge_sort_Permutation in Hx, Hy.
    assert (Hk : major x = major y /\ minor x = minor y).
    { assert (Hirr : forall t, str_ltb t t = false) by (intros; apply bytes_ltb_irrefl).
      destruct Hxy as [H1|[H1 H1']], Hyx as [H2|[H2 H2']].
      - apply str_ltb_antisym in H1. congruence.
      - rewrite H2, Hirr in H1. discriminate.
      - rewrite H1, Hirr in H2. discriminate.
      - split; [done|]. by apply (anti_symm str_le). }
    rewrite <- Hp in Hy. apply list_elem_of_lookup in Hx as [i Hi], Hy as [j Hj].
    assert (i = j) as ->; [|congruence].
    eapply (NoDup_lookup _ i j (major x, minor x) Hnd); rewrite list_lookup_fmap.
    + by rewrite Hi.
    + rewrite Hj. cbn. destruct Hk as [-> ->]. done.
  - apply StronglySorted_merge_sort; apply _.
  - apply StronglySorted_merge_sort; apply _.
  - unfold sort_by2. by rewrite !merge_sort_Permutation.
Qed.

(** ** Decimal text ([strconv]) *)

Definition is_digit (a : ascii) : bool := (48 <=? byte_val a) && (byte_val a <=? 57).
Definition digit_val (a : ascii) : Z := byte_val a - 48.
Definition digit_of (d : Z) : ascii := byte_of (48 + d).

(** Twenty digits hold every unsigned 64-bit value. *)
Definition decimal_fuel : nat := 20.

Fixpoint decimal_digits (fuel : nat) (n : Z) : bytes :=
  match fuel with
  | O => []
  | S fuel' =>
      if n <? 10 then [digit_of n]
      else decimal_digits fuel' (n / 10) ++ [digit_of (n mod 10)]
  end.

(** [strconv.FormatUint(n, 10)] and [strconv.FormatInt(n, 10)] *)
Definition format_uint (n : Z) : string := string_of (decimal_digits decimal_fuel n).
Definition format_int (n : Z) : string :=
  if n <? 0 then string_of ("-"%char :: decimal_digits decimal_fuel (- n)) else format_uint n.

(** The value of a digit string. *)
Fixpoint decimal_value_from (acc : Z) (l : bytes) : Z :=
  match l with
  | [] => acc
  | a :: l' => decimal_value_from (acc * 10 + digit_val a) l'
  end.
Definition decimal_value (l : bytes) : Z := decimal_value_from 0 l.

(** [strconv.ParseUint(s, 10, 64)]: nonempty, digits only, in range. *)
Definition parse_uint (l : bytes) : option Z :=
  match l with
  | [] => None
  | _ :: _ =>
      if forallb is_digit l && (decimal_value l <? 2 ^ 64) then Some (decimal_value l) else None
  end.

(** [strconv.ParseInt(s, 10, 64)]: an optional sign, then as [ParseUint], then the signed range. *)
Definition parse_int (l : bytes) : option Z :=
  match l with
  | [] => None
  | a :: l' =>
      let negative := Ascii.eqb a "-"%char in
      let unsigned := if negative || Ascii.eqb a "+"%char then l' else l in
      match parse_uint unsigned with
      | None => None
      | Some un =>
          if negative then (if 2 ^ 63 <? un then None else Some (- un))
          else (if 2 ^ 63 <=? un then None else Some un)
      end
  end.

Lemma is_digit_spec a : is_digit a = true <-> 0 <= digit_val a <= 9.
Proof. unfold is_digit, digit_val. rewrite andb_true_iff, !Z.leb_le. lia. Qed.

Lemma digit_of_val a : digit_of (digit_val a) = a.
Proof. unfold digit_of, digit_val. replace (48 + (byte_val a - 48)) with (byte_val a) by lia. apply byte_of_val. Qed.

Lemma digit_val_of d : 0 <= d <= 9 -> digit_val (digit_of d) = d.
Proof. intros. unfold digit_val, digit_of. rewrite byte_val_of; lia. Qed.

Lemma decimal_value_from_app acc l1 l2 :
  decimal_value_from acc (l1 ++ l2) = decimal_value_from (decimal_value_from acc l1) l2.
Proof. revert acc. induction l1 as [|a l1 IH]; intros acc; [done|]. cbn. by rewrite IH. Qed.

Lemma decimal_value_snoc l a : decimal_value (l ++ [a]) = decimal_value l * 10 + digit_val a.
Proof. unfold decimal_value. by rewrite decimal_value_from_app. Qed.

Lemma decimal_value_bound l :
  forallb is_digit l = true -> 0 <= decimal_value l < 10 ^ Z.of_nat (length l).
Proof.
  induction l as [|a l IH] using rev_ind; [cbn; lia|].
  rewrite forallb_app, andb_true_iff, decimal_value_snoc, length_app. cbn.
  rewrite andb_true_r. intros [H1 H2%is_digit_spec]. specialize (IH H1).
  rewrite Nat2Z.inj_add, Z.pow_add_r by lia. lia.
Qed.

Lemma decimal_digits_digits fuel n :
  0 <= n -> forallb is_digit (decimal_digits fuel n) = true.
Proof.
  revert n. induction fuel as [|fuel IH]; intros n Hn; [done|]. cbn.
  destruct (Z.ltb_spec n 10).
  - cbn. rewrite andb_true_r. apply is_digit_spec. rewrite digit_val_of; lia.
  - rewrite forallb_app, IH by (apply Z.div_pos; lia). cbn. rewrite andb_true_r.
    apply is_digit_spec. rewrite digit_val_of; pose proof (Z.mod_pos_bound n 10); lia.
Qed.

Lemma decimal_digits_value fuel n :
  0 <= n < 10 ^ Z.of_nat fuel -> decimal_value (decimal_digits fuel n) = n.
Proof.
  revert n. induction fuel as [|fuel IH]; intros n Hn; [cbn in *; lia|].
  rewrite Nat2Z.inj_succ, Z.pow_succ_r in Hn by lia. cbn.
  destruct (Z.ltb_spec n 10).
  - unfold decimal_value. cbn. rewrite digit_val_of; lia.
  - rewrite decimal_value_snoc, IH, digit_val_of; pose proof (Z.mod_pos_bound n 10);
      pose proof (Z.div_mod n 10); lia.
Qed.

Lemma decimal_digits_cons fuel n :
  (fuel <> 0)%nat -> exists a l, decimal_digits fuel n = a :: l.
Proof.
  destruct fuel as [|fuel]; [done|]. intros _. cbn. case_match; [eauto|].
  destruct (decimal_digits fuel (n / 10)); cbn; eauto.
Qed.

Lemma decimal_digits_hd_nonzero fuel n a l :
  0 < n < 10 ^ Z.of_nat fuel -> decimal_digits fuel n = a :: l -> a <> "0"%char.
Proof.
  revert n a l. induction fuel as [|fuel IH]; intros n a l Hn; [cbn in *; lia|].
  rewrite Nat2Z.inj_succ, Z.pow_succ_r in Hn by lia. cbn.
  destruct (Z.ltb_spec n 10).
  - intros [= <- <-] H0. apply (f_equal digit_val) in H0.
    rewrite digit_val_of in H0 by lia. replace (digit_val "0"%char) with 0 in H0 by done. lia.
  - intros Hl. destruct (decimal_digits fuel (n / 10)) as [|b l'] eqn:E.
    + destruct fuel; [cbn in *; lia|].
      destruct (decimal_digits_cons (S fuel) (n / 10)) as (?&?&?); [done|congruence].
    + cbn in Hl. injection Hl as <- <-. eapply IH; [|exact E].
      split; [apply Z.div_str_pos; lia|apply Z.div_lt_upper_bound; lia].
Qed.

Lemma decimal_value_from_pos l : forall x,
  forallb is_digit l = true -> 1 <= x -> 1 <= decimal_value_from x l.
Proof.
  induction l as [|e l IH]; intros x Hl Hx; cbn in *; [done|].
  apply andb_true_iff in Hl as [He%is_digit_spec Hl]. apply IH; [done|lia].
Qed.

Lemma decimal_value_pos b l :
  forallb is_digit (b :: l) = true -> b <> "0"%char -> 1 <= decimal_value (b :: l).
Proof.
  cbn. rewrite andb_true_iff. intros [Hb%is_digit_spec Hl] Hz.
  apply decimal_value_from_pos; [done|].
  assert (digit_val b <> 0) by (intros E; apply Hz; rewrite <- (digit_of_val b), E; done). lia.
Qed.

(** A digit string with a nonzero head is at least the power of ten of its length. *)
Lemma decimal_value_lower a l : forall k,
  forallb is_digit (a :: l) = true -> a <> "0"%char -> (k <= length l)%nat ->
  10 ^ Z.of_nat k <= decimal_value (a :: l).
Proof.
  induction l as [|b l IH] using rev_ind; intros k Hd Hz Hk.
  - cbn in Hk. replace k with 0%nat by lia. by apply decimal_value_pos.
  - change (a :: l ++ [b]) with ((a :: l) ++ [b]) in *. rewrite forallb_app in Hd.
    apply andb_true_iff in Hd as [Hd Hb]. cbn in Hb. rewrite andb_true_r in Hb. apply is_digit_spec in Hb.
    rewrite decimal_value_snoc. rewrite length_app in Hk. cbn in Hk.
    destruct k as [|k]; [pose proof (decimal_value_pos a l Hd Hz); change (10 ^ Z.of_nat 0) with 1; lia|].
    rewrite Nat2Z.inj_succ, Z.pow_succ_r by lia. specialize (IH k Hd Hz ltac:(lia)). lia.
Qed.

(** A digit string without a leading zero is the text of its value. *)
Lemma decimal_digits_of_value l : forall fuel,
  forallb is_digit l = true -> (0 < length l <= fuel)%nat ->
  (length l = 1%nat \/ hd_error l <> Some "0"%char) ->
  decimal_digits fuel (decimal_value l) = l.
Proof.
  induction l as [|a l IH] using rev_ind; intros fuel Hd Hlen Hz; [cbn in *; lia|].
  rewrite forallb_app, andb_true_iff in Hd. destruct Hd as [Hd Ha]. cbn in Ha.
  rewrite andb_true_r in Ha. apply is_digit_spec in Ha. rewrite decimal_value_snoc.
  rewrite length_app in Hlen. cbn in Hlen. destruct fuel as [|fuel]; [lia|]. cbn.
  destruct l as [|b l].
  - change (decimal_value []) with 0. rewrite Z.add_0_l.
    replace (digit_val a <? 10) with true by lia. by rewrite digit_of_val.
  - assert (Hb : b <> "0"%char) by (cbn in Hz; destruct Hz as [Hz|Hz]; [rewrite length_app in Hz; cbn in Hz; lia|congruence]).
    pose proof (decimal_value_pos b l Hd Hb).
    replace (decimal_value (b :: l) * 10 + digit_val a <? 10) with false by lia.
    rewrite Z.div_add_l, (Z.div_small (digit_val a)), Z.add_0_r by lia.
    rewrite (Z.add_comm _ (digit_val a)), Z.mod_add, Z.mod_small by lia.
    rewrite digit_of_val. f_equal. apply IH; [done|cbn in *; lia|]. right. cbn. congruence.
Qed.

(** ** Hexadecimal text ([encoding/hex]) *)

Definition hex_digit (d : Z) : ascii := if d <? 10 then byte_of (48 + d) else byte_of (87 + d).

Definition is_lower_hex (a : ascii) : bool :=
  ((48 <=? byte_val a) && (byte_val a <=? 57)) || ((97 <=? byte_val a) && (byte_val a <=? 102)).

(** [hex.EncodeToString] of bytes given by value *)
Fixpoint hex_encode (l : list Z) : bytes :=
  match l with
  | [] => []
  | b :: l' => hex_digit (b / 16) :: hex_digit (b mod 16) :: hex_encode l'
  end.

Lemma hex_digit_val d : 0 <= d < 16 -> byte_val (hex_digit d) = if d <? 10 then 48 + d else 87 + d.
Proof. intros. unfold hex_digit. destruct (Z.ltb_spec d 10); apply byte_val_of; lia. Qed.

Lemma hex_digit_lower d : 0 <= d < 16 -> is_lower_hex (hex_digit d) = true.
Proof. intros. unfold is_lower_hex. rewrite hex_digit_val by done. destruct (Z.ltb_spec d 10); lia. Qed.

Lemma hex_digit_mono d e : 0 <= d < 16 -> 0 <= e < 16 ->
  byte_val (hex_digit d) < byte_val (hex_digit e) <-> d < e.
Proof. intros. rewrite !hex_digit_val by done. destruct (Z.ltb_spec d 10), (Z.ltb_spec e 10); lia. Qed.

Lemma length_hex_encode l : length (hex_encode l) = (2 * length l)%nat.
Proof. induction l as [|b l IH]; [done|]. cbn. lia. Qed.

(** Hex text of equally long byte strings sorts as the bytes do. *)
Lemma hex_encode_ltb l : forall r,
  Forall (fun b => 0 <= b < 256) l -> Forall (fun b => 0 <= b < 256) r -> length l = length r ->
  bytes_ltb (hex_encode l) (hex_encode r) =
  bytes_ltb (map byte_of l) (map byte_of r).
Proof.
  induction l as [|b l IH]; intros [|c r] Hl Hr Hlen; try done.
  inversion Hl; inversion Hr; subst. cbn in Hlen. injection Hlen as Hlen.
  cbn. rewrite !byte_val_of by done. rewrite (IH r) by done.
  assert (Hb := Z.div_mod b 16). assert (Hc := Z.div_mod c 16).
  assert (Hb' := Z.mod_pos_bound b 16). assert (Hc' := Z.mod_pos_bound c 16).
  rewrite !hex_digit_val by lia.
  destruct (Z.ltb_spec (b / 16) 10), (Z.ltb_spec (c / 16) 10),
    (Z.ltb_spec (b mod 16) 10), (Z.ltb_spec (c mod 16) 10);
  repeat match goal with
  | |- context [?x <? ?y] => destruct (Z.ltb_spec x y); try lia
  end; done.
Qed.

(** ** UTF-8 ([unicode/utf8]) *)

Definition RuneError : Z := 65533.

Definition is_cont (lo hi : Z) (a : ascii) : bool := (lo <=? byte_val a) && (byte_val a <=? hi).
Definition cont_bits (a : ascii) : Z := byte_val a mod 64.

(** The range of the second byte that the first byte of a longer sequence admits. *)
Definition accept_lo (x : Z) : Z := if x =? 224 then 160 else if x =? 240 then 144 else 128.
Definition accept_hi (x : Z) : Z := if x =? 237 then 159 else if x =? 244 then 143 else 191.

(** [utf8.DecodeRune]: the rune and its width; a malformed prefix is
    [RuneError] of width one. *)
Definition decode_rune (l : bytes) : Z * nat :=
  match l with
  | [] => (RuneError, 0%nat)
  | p0 :: t0 =>
      let x := byte_val p0 in
      if x <? 128 then (x, 1%nat)
      else if (194 <=? x) && (x <=? 223) then
        match t0 with
        | p1 :: _ => if is_cont 128 191 p1 then (x mod 32 * 64 + cont_bits p1, 2%nat) else (RuneError, 1%nat)
        | _ => (RuneError, 1%nat)
        end
      else if (224 <=? x) && (x <=? 239) then
        match t0 with
        | p1 :: p2 :: _ =>
            if is_cont (accept_lo x) (accept_hi x) p1 && is_cont 128 191 p2
            then ((x mod 16 * 64 + cont_bits p1) * 64 + cont_bits p2, 3%nat) else (RuneError, 1%nat)
        | _ => (RuneError, 1%nat)
        end
      else if (240 <=? x) && (x <=? 244) then
        match t0 with
        | p1 :: p2 :: p3 :: _ =>
            if is_cont (accept_lo x) (accept_hi x) p1 && is_cont 128 191 p2 && is_cont 128 191 p3
            then (((x mod 8 * 64 + cont_bits p1) * 64 + cont_bits p2) * 64 + cont_bits p3, 4%nat)
            else (RuneError, 1%nat)
        | _ => (RuneError, 1%nat)
        end
      else (RuneError, 1%nat)
  end.

(** [utf8.AppendRune] *)
Definition encode_rune (r : Z) : bytes :=
  let tail z := byte_of (128 + z mod 64) in
  if (0 <=? r) && (r <=? 127) then [byte_of r]
  else if (128 <=? r) && (r <=? 2047) then [byte_of (192 + r / 64); tail r]
  else if ((2048 <=? r) && (r <=? 55295)) || ((57344 <=? r) && (r <=? 65535)) then
    [byte_of (224 + r / 4096); tail (r / 64); tail r]
  else if (65536 <=? r) && (r <=? 1114111) then
    [byte_of (240 + r / 262144); tail (r / 4096); tail (r / 64); tail r]
  else [byte_of 239; byte_of 191; byte_of 189].

(** [for _, r := range s]: the runes of a string, each with its bytes. *)
Fixpoint runes_fuel (fuel : nat) (l : bytes) : list (Z * bytes) :=
  match fuel, l with
  | S fuel', _ :: _ =>
      let '(r, width) := decode_rune l in
      (r, take width l) :: runes_fuel fuel' (drop width l)
  | _, _ => []
  end.
Definition runes (l : bytes) : list (Z * bytes) := runes_fuel (length l) l.

(** A chunk is well formed unless it is a one-byte [RuneError]. *)
Definition good_rune (c : Z * bytes) : bool :=
  negb ((c.1 =? RuneError) && (length c.2 =? 1)%nat).

(** [utf8.ValidString] *)
Definition valid_utf8 (s : string) : bool := forallb good_rune (runes (bytes_of s)).
(** [utf8.RuneCountInString] *)
Definition rune_count (s : string) : Z := Z.of_nat (length (runes (bytes_of s))).

Lemma decode_rune_width l : l <> [] -> (1 <= (decode_rune l).2 <= length l)%nat.
Proof.
  destruct l as [|p0 l]; [done|]. intros _. unfold decode_rune.
  repeat (case_match; cbn; try lia).
Qed.

Lemma runes_fuel_concat fuel : forall l,
  (length l <= fuel)%nat -> concat (map snd (runes_fuel fuel l)) = l.
Proof.
  induction fuel as [|fuel IH]; intros [|p l] Hl; cbn in Hl; try done; try lia.
  cbn -[decode_rune]. pose proof (decode_rune_width (p :: l)).
  destruct (decode_rune (p :: l)) as [r w]. cbn -[take drop] in *.
  rewrite IH; [apply take_drop|]. rewrite length_drop. cbn. specialize (H ltac:(done)). lia.
Qed.

Lemma runes_concat l : concat (map snd (runes l)) = l.
Proof. by apply runes_fuel_concat. Qed.

Lemma is_cont_spec lo hi a : is_cont lo hi a = true <-> lo <= byte_val a <= hi.
Proof. unfold is_cont. rewrite andb_true_iff, !Z.leb_le. tauto. Qed.

Lemma tail_bits a : 128 <= byte_val a <= 191 -> byte_of (128 + cont_bits a) = a.
Proof.
  intros H. unfold cont_bits. replace (128 + byte_val a mod 64) with (byte_val a); [apply byte_of_val|].
  pose proof (Z.div_mod (byte_val a) 64). pose proof (Z.mod_pos_bound (byte_val a) 64). lia.
Qed.

Ltac euclid := Z.to_euclidean_division_equations; lia.

Lemma decode_encode_2 x v : 194 <= x <= 223 -> 128 <= v <= 191 ->
  let r := x mod 32 * 64 + v mod 64 in 128 <= r <= 2047 /\ r / 64 = x - 192 /\ r mod 64 = v - 128.
Proof. intros; subst r. euclid. Qed.

Lemma decode_encode_3 x v w : 224 <= x <= 239 -> accept_lo x <= v <= accept_hi x -> 128 <= w <= 191 ->
  let r := (x mod 16 * 64 + v mod 64) * 64 + w mod 64 in
  (2048 <= r <= 55295 \/ 57344 <= r <= 65535) /\
  r / 4096 = x - 224 /\ r / 64 mod 64 = v - 128 /\ r mod 64 = w - 128 /\ 128 <= v <= 191.
Proof.
  intros Hx Hv Hw r.
  assert (128 <= v <= 191) by (unfold accept_lo, accept_hi in Hv; repeat case_match; lia).
  assert (x = 224 -> 160 <= v) by (intros ->; cbn in Hv; lia).
  assert (x = 237 -> v <= 159) by (intros ->; cbn in Hv; lia).
  assert (r = (x - 224) * 4096 + (v - 128) * 64 + (w - 128)) as Hr by (subst r; euclid).
  clearbody r. subst r. repeat split; euclid.
Qed.

Lemma decode_encode_4 x v w y : 240 <= x <= 244 -> accept_lo x <= v <= accept_hi x ->
  128 <= w <= 191 -> 128 <= y <= 191 ->
  let r := ((x mod 8 * 64 + v mod 64) * 64 + w mod 64) * 64 + y mod 64 in
  65536 <= r <= 1114111 /\ r / 262144 = x - 240 /\ r / 4096 mod 64 = v - 128 /\
  r / 64 mod 64 = w - 128 /\ r mod 64 = y - 128 /\ 128 <= v <= 191.
Proof.
  intros Hx Hv Hw Hy r.
  assert (128 <= v <= 191) by (unfold accept_lo, accept_hi in Hv; repeat case_match; lia).
  assert (x = 240 -> 144 <= v) by (intros ->; cbn in Hv; lia).
  assert (x = 244 -> v <= 143) by (intros ->; cbn in Hv; lia).
  assert (r = (x - 240) * 262144 + (v - 128) * 4096 + (w - 128) * 64 + (y - 128)) as Hr by (subst r; euclid).
  clearbody r. subst r. repeat split; euclid.
Qed.

Lemma byte_of_eq z a : z = byte_val a -> byte_of z = a.
Proof. intros ->. apply byte_of_val. Qed.

(** Re-encoding a decoded rune gives back the bytes it was decoded from. *)
Lemma encode_decode_rune l r w :
  l <> [] -> decode_rune l = (r, w) -> good_rune (r, take w l) = true -> encode_rune r = take w l.
Proof.
  destruct l as [|p0 l]; [done|]. intros _. unfold decode_rune.
  pose proof (byte_val_range p0).
  destruct (Z.ltb_spec (byte_val p0) 128).
  { intros [= <- <-] _. unfold encode_rune. replace ((0 <=? byte_val p0) && (byte_val p0 <=? 127)) with true by lia.
    cbn. by rewrite byte_of_val. }
  destruct ((194 <=? byte_val p0) && (byte_val p0 <=? 223)) eqn:E2.
  { destruct l as [|p1 l]; [by intros [= <- <-]|].
    destruct (is_cont 128 191 p1) eqn:E; [|by intros [= <- <-]].
    apply is_cont_spec in E. intros [= <- <-] _. unfold cont_bits.
    destruct (decode_encode_2 (byte_val p0) (byte_val p1)) as (Hr & Hq & Hm); [lia..|].
    set (r := _ + _) in *. unfold encode_rune. cbn -[Z.mul Z.add Z.leb].
    replace ((0 <=? r) && (r <=? 127)) with false by lia.
    replace ((128 <=? r) && (r <=? 2047)) with true by lia.
    rewrite Hq, Hm. repeat f_equal; apply byte_of_eq; lia. }
  destruct ((224 <=? byte_val p0) && (byte_val p0 <=? 239)) eqn:E3.
  { destruct l as [|p1 [|p2 l]]; [by intros [= <- <-]..|].
    destruct (is_cont _ _ p1 && is_cont 128 191 p2) eqn:E; [|by intros [= <- <-]].
    apply andb_true_iff in E as [E1%is_cont_spec E4%is_cont_spec]. intros [= <- <-] _. unfold cont_bits.
    destruct (decode_encode_3 (byte_val p0) (byte_val p1) (byte_val p2)) as (Hr & Hq & Hm & Hn & Hv); [lia..|].
    set (r := _ + _) in *. unfold encode_rune. cbn -[Z.mul Z.add Z.leb].
    replace ((0 <=? r) && (r <=? 127)) with false by lia.
    replace ((128 <=? r) && (r <=? 2047)) with false by lia.
    replace (((2048 <=? r) && (r <=? 55295)) || ((57344 <=? r) && (r <=? 65535))) with true by lia.
    rewrite Hq, Hm, Hn. repeat f_equal; apply byte_of_eq; lia. }
  destruct ((240 <=? byte_val p0) && (byte_val p0 <=? 244)) eqn:E4; [|by intros [= <- <-]].
  destruct l as [|p1 [|p2 [|p3 l]]]; [by intros [= <- <-]..|].
  destruct (is_cont _ _ p1 && is_cont 128 191 p2 && is_cont 128 191 p3) eqn:E; [|by intros [= <- <-]].
  apply andb_true_iff in E as [[E1%is_cont_spec E5%is_cont_spec]%andb_true_iff E6%is_cont_spec].
  intros [= <- <-] _. unfold cont_bits.
  destruct (decode_encode_4 (byte_val p0) (byte_val p1) (byte_val p2) (byte_val p3))
    as (Hr & Hq & Hm & Hn & Ho & Hv); [lia..|].
  set (r := _ + _) in *. unfold encode_rune. cbn -[Z.mul Z.add Z.leb].
  replace ((0 <=? r) && (r <=? 127)) with false by lia.
  replace ((128 <=? r) && (r <=? 2047)) with false by lia.
  replace (((2048 <=? r) && (r <=? 55295)) || ((57344 <=? r) && (r <=? 65535))) with false by lia.
  replace ((65536 <=? r) && (r <=? 1114111)) with true by lia.
  rewrite Hq, Hm, Hn, Ho. repeat f_equal; apply byte_of_eq; lia.
Qed.

Lemma runes_fuel_encode fuel : forall l,
  (length l <= fuel)%nat -> forallb good_rune (runes_fuel fuel l) = true ->
  Forall (fun c => c.2 = encode_rune c.1) (runes_fuel fuel l).
Proof.
  induction fuel as [|fuel IH]; intros [|p l] Hl Hg; cbn in Hl; try by constructor.
  cbn -[decode_rune take drop] in *. pose proof (decode_rune_width (p :: l)) as Hw.
  destruct (decode_rune (p :: l)) as [r w] eqn:E. cbn -[take drop] in *.
  apply andb_true_iff in Hg as [Hg1 Hg2]. specialize (Hw ltac:(done)). constructor.
  - cbn -[take]. symmetry. by apply encode_decode_rune.
  - apply IH; [rewrite length_drop; cbn; lia | done].
Qed.

(** In a valid string every rune re-encodes to exactly the bytes it came from. *)
Lemma runes_encode l :
  forallb good_rune (runes l) = true -> Forall (fun c => c.2 = encode_rune c.1) (runes l).
Proof. by apply runes_fuel_encode. Qed.

(** ** White space ([unicode.IsSpace], [strings.TrimSpace]) *)

Definition is_space (r : Z) : bool :=
  ((9 <=? r) && (r <=? 13)) || (r =? 32) || (r =? 133) || (r =? 160) || (r =? 5760) ||
  ((8192 <=? r) && (r <=? 8202)) || (r =? 8232) || (r =? 8233) || (r =? 8239) || (r =? 8287) || (r =? 12288).

Fixpoint drop_space (l : list (Z * bytes)) : list (Z * bytes) :=
  match l with
  | c :: l' => if is_space c.1 then drop_space l' else l
  | [] => []
  end.

Definition trim_space (s : string) : string :=
  string_of (concat (map snd (rev (drop_space (rev (drop_space (runes (bytes_of s)))))))).

(** [strings.HasPrefix] *)
Definition has_prefix (s prefix : string) : bool := bool_decide (take (length (bytes_of prefix)) (bytes_of s) = bytes_of prefix).

Definition is_ascii (a : ascii) : bool := byte_val a <? 128.

(** A string of ASCII bytes is read one byte at a time. *)
Lemma runes_fuel_ascii fuel : forall l, (length l <= fuel)%nat -> forallb is_ascii l = true ->
  runes_fuel fuel l = map (fun a => (byte_val a, [a])) l.
Proof.
  induction fuel as [|fuel IH]; intros [|a l] Hl Ha; cbn in Hl; try done; try lia.
  cbn in Ha. apply andb_true_iff in Ha as [Ha Hr]. unfold is_ascii in Ha. cbn. rewrite Ha. cbn.
  f_equal. apply IH; [lia|done].
Qed.

Lemma runes_ascii l : forallb is_ascii l = true -> runes l = map (fun a => (byte_val a, [a])) l.
Proof. by apply runes_fuel_ascii. Qed.

(** A fact about every byte, checked on all 256. *)
Lemma ascii_forall (P : ascii -> bool) :
  forallb P (map (fun n => ascii_of_nat n) (seq 0 256)) = true -> forall a, P a = true.
Proof.
  intros H a. apply forallb_forall with (x := a) in H; [done|].
  apply in_map_iff. exists (nat_of_ascii a). split; [apply ascii_nat_embedding|].
  apply in_seq. pose proof (nat_ascii_bounded a). lia.
Qed.

Lemma decode_rune_nonneg l : 0 <= (decode_rune l).1.
Proof.
  assert (forall a, 0 <= cont_bits a) as Hc by (intros; apply Z.mod_pos_bound; lia).
  destruct l as [|p0 l]; cbn [decode_rune]; [done|]. pose proof (byte_val_range p0).
  assert (0 <= byte_val p0 mod 32 /\ 0 <= byte_val p0 mod 16 /\ 0 <= byte_val p0 mod 8)
    by (repeat split; apply Z.mod_pos_bound; lia).
  repeat (case_match; cbn [fst]; try done); repeat match goal with |- context [cont_bits ?a] =>
    lazymatch goal with H : 0 <= cont_bits a |- _ => fail | _ => pose proof (Hc a) end end; nia.
Qed.

Lemma runes_fuel_nonneg fuel : forall l, Forall (fun c => 0 <= c.1) (runes_fuel fuel l).
Proof.
  induction fuel as [|fuel IH]; intros [|p l]; try by constructor. cbn -[decode_rune].
  pose proof (decode_rune_nonneg (p :: l)). destruct (decode_rune (p :: l)). constructor; [done|apply IH].
Qed.

Lemma encode_rune_high r : 128 <= r -> Forall (fun a => 128 <= byte_val a) (encode_rune r).
Proof.
  intros Hr. unfold encode_rune. replace ((0 <=? r) && (r <=? 127)) with false by lia.
  repeat case_match; bool_prop; repeat constructor; rewrite ?byte_val_of; euclid.
Qed.

Lemma encode_rune_low r : 0 <= r < 128 -> encode_rune r = [byte_of r].
Proof. intros. unfold encode_rune. by replace ((0 <=? r) && (r <=? 127)) with true by lia. Qed.

Lemma hex_encode_lower_hex l : Forall (fun b => 0 <= b < 256) l -> forallb is_lower_hex (hex_encode l) = true.
Proof.
  induction 1 as [|b l Hb _ IH]; [done|]. cbn. rewrite IH, !hex_digit_lower; [done|euclid|euclid].
Qed.

Lemma lower_hex_ascii a : is_lower_hex a = true -> is_ascii a = true.
Proof. unfold is_lower_hex, is_ascii. lia. Qed.

Lemma forallb_lower_hex_ascii l : forallb is_lower_hex l = true -> forallb is_ascii l = true.
Proof. rewrite !forallb_forall. auto using lower_hex_ascii. Qed.

(** Membership in the lower-case hex alphabet, by rune value *)
Lemma lower_hex_member a : existsb (fun c => byte_val c =? byte_val a) (bytes_of "0123456789abcdef") = is_lower_hex a.
Proof. apply eqb_true_iff. revert a. apply (ascii_forall (fun a => Bool.eqb _ _)). vm_compute. reflexivity. Qed.
