(* ===== verification/Exact.v ===== *)
(** Exact numbers: [product/domain/exact.go] and [product/domain/order_key.go].

    [Int64], [UInt64], [Revision] and [Cursor] are integers with a canonical
    decimal text; [ExactRational] and [RationalTime] are reduced fractions of
    an [int64] over a positive [int32]; [RationalOrderKey] is the sortable text
    the repository indexes by.  A struct field of a Go integer type is a [Z];
    the [*_typed] predicates say that it lies in the range of its Go type. *)
From stdpp Require Import base list strings gmap sorting.
From Stdlib Require Import ZArith QArith Qreduction Lia Lqa Ascii.
From S2P Require Import Prelude GoText.
Open Scope Z_scope.

Inductive exact_error :=
| ErrInvalidExactInteger
| ErrInvalidExactRational
| ErrRevisionOverflow
| ErrInvalidRationalTime
| ErrTimeOverflow.

#[export] Instance exact_error_eq_dec : EqDecision exact_error.
Proof. solve_decision. Defined.

(** ** Helpers of exact.go *)

Definition absInt64 (value : Z) : Z :=
  if 0 <=? value then to_uint64 value
  else to_uint64 (to_uint64 (to_int64 (- to_int64 (value + 1))) + 1).

(** Euclid's loop needs at most two rounds per bit of its right operand. *)
Definition gcd_fuel : nat := 130.

Fixpoint gcd_loop (fuel : nat) (left right : Z) : Z :=
  match fuel with
  | O => left
  | S fuel' => if right =? 0 then left else gcd_loop fuel' right (left mod right)
  end.
Definition gcd (left right : Z) : Z := gcd_loop gcd_fuel left right.

Definition isCanonicalDecimal (value : string) (signed : bool) : bool :=
  match bytes_of value with
  | [] => false
  | a :: rest =>
      if bool_decide (value = "0") then true
      else if Ascii.eqb a "-"%char then
        match rest with
        | [] => false
        | b :: _ => if negb signed || Ascii.eqb b "0"%char then false else forallb is_digit rest
        end
      else if Ascii.eqb a "0"%char then false
      else forallb is_digit (a :: rest)
  end.

Definition parseCanonicalInt64 (value : string) : outcome exact_error Z :=
  if negb (isCanonicalDecimal value true) then Fail ErrInvalidExactInteger
  else match parse_int (bytes_of value) with
       | Some parsed => Ok parsed
       | None => Fail ErrInvalidExactInteger
       end.

Definition parseCanonicalUint64 (value : string) : outcome exact_error Z :=
  if negb (isCanonicalDecimal value false) then Fail ErrInvalidExactInteger
  else match parse_uint (bytes_of value) with
       | Some parsed => Ok parsed
       | None => Fail ErrInvalidExactInteger
       end.

(** ** Int64, UInt64, Revision, Cursor *)

Definition Int64_String (value : Z) : string := format_int value.
Definition Int64_MarshalText (value : Z) : outcome exact_error string := Ok (Int64_String value).
Definition Int64_UnmarshalText (text : string) : outcome exact_error Z := parseCanonicalInt64 text.

Definition NewUInt64 (value : Z) : outcome exact_error Z :=
  if MaxInt64 <? value then Fail ErrRevisionOverflow else Ok value.
Definition UInt64_String (value : Z) : string := format_uint value.
Definition UInt64_MarshalText (value : Z) : outcome exact_error string := Ok (UInt64_String value).
Definition UInt64_UnmarshalText (text : string) : outcome exact_error Z :=
  parsed ← parseCanonicalUint64 text; NewUInt64 parsed.

Definition NewRevision (value : Z) : outcome exact_error Z :=
  if MaxInt64 <? value then Fail ErrRevisionOverflow else Ok value.
Definition Revision_String (value : Z) : string := format_uint value.
Definition Revision_Next (value : Z) : outcome exact_error Z := NewRevision (to_uint64 (value + 1)).
Definition Revision_MarshalText (value : Z) : outcome exact_error string := Ok (Revision_String value).
Definition Revision_UnmarshalText (text : string) : outcome exact_error Z :=
  parsed ← parseCanonicalUint64 text; NewRevision parsed.

Definition NewCursor (value : Z) : outcome exact_error Z :=
  if MaxInt64 <? value then Fail ErrRevisionOverflow else Ok value.
Definition Cursor_String (value : Z) : string := format_uint value.
Definition Cursor_MarshalText (value : Z) : outcome exact_error string := Ok (Cursor_String value).
Definition Cursor_UnmarshalText (text : string) : outcome exact_error Z :=
  parsed ← parseCanonicalUint64 text; NewCursor parsed.

(** ** ExactRational *)

Record ExactRational := mkExact { er_Value : Z; er_Scale : Z }.

#[export] Instance ExactRational_eq_dec : EqDecision ExactRational.
Proof. solve_decision. Defined.

Definition er_zero_value : ExactRational := mkExact 0 0.

Definition NewExactRational (value scale : Z) : outcome exact_error ExactRational :=
  if scale <=? 0 then Fail ErrInvalidExactRational
  else if value =? 0 then Ok (mkExact 0 1)
  else
    let divisor := gcd (absInt64 value) (to_uint64 scale) in
    Ok (mkExact (Z.quot value (to_int64 divisor)) (Z.quot scale (to_int32 divisor))).

Definition ExactRational_Validate (value : ExactRational) : outcome exact_error unit :=
  if er_Scale value <=? 0 then Fail ErrInvalidExactRational
  else if er_Value value =? 0 then
    (if negb (er_Scale value =? 1) then Fail ErrInvalidExactRational else Ok tt)
  else if negb (gcd (absInt64 (er_Value value)) (to_uint64 (er_Scale value)) =? 1)
  then Fail ErrInvalidExactRational
  else Ok tt.

(** [big.Int.Cmp] *)
Definition big_cmp (left right : Z) : Z :=
  match Z.compare left right with Lt => -1 | Eq => 0 | Gt => 1 end.

Definition ExactRational_Compare (value other : ExactRational) : outcome exact_error Z :=
  _ ← ExactRational_Validate value;
  _ ← ExactRational_Validate other;
  let left := er_Value value * er_Scale other in
  let right := er_Value other * er_Scale value in
  Ok (big_cmp left right).

(** ** RationalTime *)

Record RationalTime := mkTime { rt_Value : Z; rt_Scale : Z }.

#[export] Instance RationalTime_eq_dec : EqDecision RationalTime.
Proof. solve_decision. Defined.

Definition NewRationalTime (value scale : Z) : outcome exact_error RationalTime :=
  if scale <=? 0 then Fail ErrInvalidRationalTime
  else if value =? 0 then Ok (mkTime 0 1)
  else
    let divisor := gcd (absInt64 value) (to_uint64 scale) in
    Ok (mkTime (Z.quot value (to_int64 divisor)) (Z.quot scale (to_int32 divisor))).

Definition RationalTime_Validate (value : RationalTime) : outcome exact_error unit :=
  if rt_Scale value <=? 0 then Fail ErrInvalidRationalTime
  else if rt_Value value =? 0 then
    (if negb (rt_Scale value =? 1) then Fail ErrInvalidRationalTime else Ok tt)
  else if negb (gcd (absInt64 (rt_Value value)) (to_uint64 (rt_Scale value)) =? 1)
  then Fail ErrInvalidRationalTime
  else Ok tt.

Definition IsNegative (value : RationalTime) : bool := rt_Value value <? 0.
Definition IsPositive (value : RationalTime) : bool := 0 <? rt_Value value.

Definition RationalTime_Compare (value other : RationalTime) : outcome exact_error Z :=
  _ ← RationalTime_Validate value;
  _ ← RationalTime_Validate other;
  let left := rt_Value value * rt_Scale other in
  let right := rt_Value other * rt_Scale value in
  Ok (big_cmp left right).

Definition rationalFromBig (numerator denominator : Z) : outcome exact_error RationalTime :=
  if denominator <=? 0 then Fail ErrInvalidRationalTime
  else if numerator =? 0 then Ok (mkTime 0 1)
  else
    let absNumerator := Z.abs numerator in
    let divisor := Z.gcd absNumerator denominator in
    let numerator := Z.quot numerator divisor in
    let denominator := Z.quot denominator divisor in
    if negb (is_int64 numerator) || negb (is_int64 denominator) || (MaxInt32 <? denominator)
    then Fail ErrTimeOverflow
    else NewRationalTime numerator (to_int32 denominator).

Definition Add (value other : RationalTime) : outcome exact_error RationalTime :=
  _ ← RationalTime_Validate value;
  _ ← RationalTime_Validate other;
  let left := rt_Value value * rt_Scale other in
  let right := rt_Value other * rt_Scale value in
  rationalFromBig (left + right) (rt_Scale value * rt_Scale other).

Definition Subtract (value other : RationalTime) : outcome exact_error RationalTime :=
  _ ← RationalTime_Validate value;
  _ ← RationalTime_Validate other;
  let left := rt_Value value * rt_Scale other in
  let right := rt_Value other * rt_Scale value in
  rationalFromBig (left - right) (rt_Scale value * rt_Scale other).

(** ** TimeRange *)

Record TimeRange := mkRange { tr_Start : RationalTime; tr_Duration : RationalTime }.

#[export] Instance TimeRange_eq_dec : EqDecision TimeRange.
Proof. solve_decision. Defined.

Definition NewTimeRange (start duration : RationalTime) : outcome exact_error TimeRange :=
  _ ← RationalTime_Validate start;
  if negb (is_ok (RationalTime_Validate duration)) || IsNegative duration
  then Fail ErrInvalidRationalTime
  else Ok (mkRange start duration).

Definition End (value : TimeRange) : outcome exact_error RationalTime :=
  Add (tr_Start value) (tr_Duration value).

(** ** RationalOrderKey *)

(** [big.Int.Bytes]: minimal big-endian bytes; 24 bytes hold every value the
    length check lets through. *)
Fixpoint big_bytes (fuel : nat) (n : Z) : list Z :=
  match fuel with
  | O => []
  | S fuel' => if n =? 0 then [] else big_bytes fuel' (n / 256) ++ [n mod 256]
  end.

(** [copy(fixed[len(fixed)-len(bytes):], bytes)] on a zeroed array of [size] bytes *)
Definition right_align (size : nat) (l : list Z) : list Z := replicate (size - length l) 0 ++ l.

Definition RationalOrderKey (value : RationalTime) : outcome exact_error string :=
  _ ← RationalTime_Validate value;
  let numerator := rt_Value value in
  let scaled := Z.shiftl numerator 128 in
  let scaled := Z.quot scaled (rt_Scale value) in
  let offset := Z.shiftl 1 191 in
  let scaled := scaled + offset in
  if (scaled <? 0) || (2 ^ 192 <=? scaled) then Fail ErrTimeOverflow
  else Ok (string_of (hex_encode (right_align 24 (big_bytes 24 scaled)))).

(** * Arithmetic of the helpers *)

Lemma absInt64_abs v : MinInt64 <= v <= MaxInt64 -> absInt64 v = Z.abs v.
Proof.
  intros H. unfold absInt64. destruct (Z.leb_spec 0 v).
  - rewrite to_uint64_small; unfold MinInt64, MaxInt64 in *; lia.
  - rewrite (to_int64_small (v + 1)), to_int64_small, (to_uint64_small (- (v + 1))), to_uint64_small;
      unfold MinInt64, MaxInt64 in *; lia.
Qed.

Lemma mod_mod_half b r : 0 < r < b -> 2 * (b mod r) < b.
Proof.
  intros H. pose proof (Z.div_mod b r). pose proof (Z.mod_pos_bound b r).
  assert (1 <= b / r) by (apply Z.div_le_lower_bound; lia). nia.
Qed.

(** The loop computes the greatest common divisor within its fuel. *)
Lemma gcd_loop_correct k : forall fuel a b,
  0 <= a -> 0 <= b < 2 ^ Z.of_nat k -> (2 * k + 1 <= fuel)%nat -> gcd_loop fuel a b = Z.gcd a b.
Proof.
  induction k as [|k IH]; intros fuel a b Ha Hb Hf.
  - destruct fuel as [|fuel]; [lia|]. cbn in Hb. assert (b = 0) as -> by lia. cbn.
    rewrite Z.gcd_0_r. lia.
  - rewrite Nat2Z.inj_succ, Z.pow_succ_r in Hb by lia.
    destruct fuel as [|[|fuel]]; [lia..|]. cbn.
    destruct (Z.eqb_spec b 0) as [->|Hb0]; [rewrite Z.gcd_0_r; lia|].
    pose proof (Z.mod_pos_bound a b ltac:(lia)) as Hr.
    rewrite (Z.gcd_comm a b), <- (Z.gcd_mod a b) by lia.
    destruct (Z.eqb_spec (a mod b) 0) as [->|Hr0]; [rewrite Z.gcd_0_l; lia|].
    rewrite <- (Z.gcd_mod b (a mod b)), (Z.gcd_comm (b mod _)) by lia.
    pose proof (mod_mod_half b (a mod b) ltac:(lia)).
    pose proof (Z.mod_pos_bound b (a mod b) ltac:(lia)). apply IH; lia.
Qed.

Lemma gcd_correct a b : 0 <= a -> 0 <= b < 2 ^ 64 -> gcd a b = Z.gcd a b.
Proof. intros. apply (gcd_loop_correct 64); [done|done|unfold gcd_fuel; lia]. Qed.

Lemma gcd_abs value scale :
  MinInt64 <= value <= MaxInt64 -> 0 < scale <= MaxInt32 ->
  gcd (absInt64 value) (to_uint64 scale) = Z.gcd value scale.
Proof.
  unfold MaxInt32. intros Hv Hs. rewrite absInt64_abs, to_uint64_small, gcd_correct, Z.gcd_abs_l by lia. done.
Qed.

(** ** Validity *)

Definition rt_typed (t : RationalTime) : Prop :=
  MinInt64 <= rt_Value t <= MaxInt64 /\ MinInt32 <= rt_Scale t <= MaxInt32.

(** A value of the Go type that [Validate] accepts. *)
Definition rt_valid (t : RationalTime) : Prop :=
  rt_typed t /\ RationalTime_Validate t = Ok tt.

(** The exact number of seconds a time stands for. *)
Definition rt_Q (t : RationalTime) : Q := rt_Value t # Z.to_pos (rt_Scale t).

Lemma rt_validate_reduced t : rt_typed t ->
  RationalTime_Validate t = Ok tt <-> 0 < rt_Scale t /\ Z.gcd (rt_Value t) (rt_Scale t) = 1.
Proof.
  intros [Hv Hs]. unfold RationalTime_Validate. destruct (Z.leb_spec (rt_Scale t) 0).
  - split; [done|lia].
  - destruct (Z.eqb_spec (rt_Value t) 0) as [E|E].
    + rewrite E, Z.gcd_0_l. destruct (Z.eqb_spec (rt_Scale t) 1); cbn; split; try done; lia.
    + rewrite gcd_abs by lia. destruct (Z.eqb_spec (Z.gcd (rt_Value t) (rt_Scale t)) 1); cbn; split; try done; lia.
Qed.

Lemma rt_valid_iff t :
  rt_valid t <-> rt_typed t /\ 0 < rt_Scale t /\ Z.gcd (rt_Value t) (rt_Scale t) = 1.
Proof. unfold rt_valid. split; intros [H ?]; (split; [done|]); by apply rt_validate_reduced. Qed.

Lemma rt_validate_total t : RationalTime_Validate t = Ok tt \/ RationalTime_Validate t = Fail ErrInvalidRationalTime.
Proof. unfold RationalTime_Validate. repeat case_match; auto. Qed.

Lemma quot_gcd_pos a g : 0 < g -> (g | a) -> Z.quot a g * g = a.
Proof. intros Hg [q ->]. by rewrite Z.quot_mul by lia. Qed.

Lemma gcd_quot_1 a b : 0 < b -> Z.gcd (Z.quot a (Z.gcd a b)) (Z.quot b (Z.gcd a b)) = 1.
Proof.
  intros Hb. assert (0 < Z.gcd a b) as Hg.
  { pose proof (Z.gcd_nonneg a b). assert (Z.gcd a b <> 0) by (intros E; apply Z.gcd_eq_0_r in E; lia). lia. }
  pose proof (quot_gcd_pos a _ Hg (Z.gcd_divide_l a b)) as Ha.
  pose proof (quot_gcd_pos b _ Hg (Z.gcd_divide_r a b)) as Hb'.
  set (g := Z.gcd a b) in *. set (x := Z.quot a g) in *. set (y := Z.quot b g) in *.
  assert (g = Z.gcd x y * g) as E.
  { unfold g at 1. rewrite <- Ha, <- Hb'. rewrite Z.gcd_mul_mono_r, Z.abs_eq by lia. done. }
  nia.
Qed.

Lemma gcd_pos_bound a b : 0 < b -> 0 < Z.gcd a b <= b.
Proof.
  intros Hb. pose proof (Z.gcd_nonneg a b).
  assert (Z.gcd a b <> 0) by (intros E; apply Z.gcd_eq_0_r in E; lia).
  pose proof (Z.divide_pos_le _ _ Hb (Z.gcd_divide_r a b)). lia.
Qed.

Lemma quot_bound a g lo hi : 0 < g -> lo <= 0 <= hi -> lo <= a <= hi -> lo <= Z.quot a g <= hi.
Proof. intros. Z.to_euclidean_division_equations. nia. Qed.

Lemma cross_common_factor x y g v s : x * g = v -> y * g = s -> x * s = v * y.
Proof. intros <- <-. ring. Qed.

(** ** Construction *)

Lemma rt_Q_cross v s v' s' : 0 < s -> 0 < s' ->
  (rt_Q (mkTime v s) == rt_Q (mkTime v' s'))%Q <-> v * s' = v' * s.
Proof. intros. unfold rt_Q, Qeq. cbn. rewrite !Z2Pos.id by lia. done. Qed.

Lemma NewRationalTime_spec value scale :
  MinInt64 <= value <= MaxInt64 -> 0 < scale <= MaxInt32 ->
  exists t, NewRationalTime value scale = Ok t /\ rt_valid t /\ (rt_Q t == value # Z.to_pos scale)%Q.
Proof.
  intros Hv Hs. unfold NewRationalTime. replace (scale <=? 0) with false by lia.
  destruct (Z.eqb_spec value 0) as [->|Hnz].
  { exists (mkTime 0 1). split; [done|]. split; [|done]. unfold rt_valid, rt_typed, MinInt64, MaxInt64, MinInt32, MaxInt32. cbn.
    split; [lia|done]. }
  rewrite gcd_abs by lia. pose proof (gcd_pos_bound value scale ltac:(lia)) as Hg.
  rewrite to_int64_small, to_int32_small by (unfold MinInt64, MaxInt64, MinInt32, MaxInt32 in *; lia).
  eexists. split; [done|].
  pose proof (quot_gcd_pos value _ (proj1 Hg) (Z.gcd_divide_l _ _)) as Hqv.
  pose proof (quot_gcd_pos scale _ (proj1 Hg) (Z.gcd_divide_r value _)) as Hqs.
  assert (0 < Z.quot scale (Z.gcd value scale)) by nia.
  split.
  - apply rt_valid_iff. cbn. split_and!; [|done|apply gcd_quot_1; lia].
    split; cbn; apply quot_bound; unfold MinInt64, MaxInt64, MinInt32, MaxInt32 in *; lia.
  - change (value # Z.to_pos scale)%Q with (rt_Q (mkTime value scale)). apply rt_Q_cross; [done|lia|].
    by apply (cross_common_factor _ _ (Z.gcd value scale)).
Qed.

(** Reduced fractions that are equal as numbers are equal. *)
Lemma reduced_unique v s v' s' :
  0 < s -> 0 < s' -> Z.gcd v s = 1 -> Z.gcd v' s' = 1 -> v * s' = v' * s -> v = v' /\ s = s'.
Proof.
  intros Hs Hs' G G' E. assert (s = s') as ->.
  { apply Z.divide_antisym_nonneg; [lia..| |].
    - apply (Z.gauss s v s'); [exists v'; lia | by rewrite Z.gcd_comm].
    - apply (Z.gauss s' v' s); [exists v; lia | by rewrite Z.gcd_comm]. }
  split; [nia|done].
Qed.

(** A valid time is the only valid representation of its number of seconds. *)
Lemma rt_valid_unique a b : rt_valid a -> rt_valid b -> (rt_Q a == rt_Q b)%Q -> a = b.
Proof.
  rewrite !rt_valid_iff. intros (_ & Ha & Ga) (_ & Hb & Gb) E.
  destruct a as [v s], b as [v' s']. cbn in *. rewrite rt_Q_cross in E by done.
  by destruct (reduced_unique v s v' s') as [-> ->].
Qed.

(** ** Comparison *)

Lemma rt_valid_ok t : rt_valid t -> RationalTime_Validate t = Ok tt.
Proof. by intros [_ H]. Qed.

Lemma rt_valid_pos t : rt_valid t -> 0 < rt_Scale t <= MaxInt32.
Proof. rewrite rt_valid_iff. intros ([_ ?] & ? & _). lia. Qed.
#[export] Hint Resolve rt_valid_ok rt_valid_pos : oc.

Lemma rt_Q_lt a b : 0 < rt_Scale a -> 0 < rt_Scale b ->
  (rt_Q a < rt_Q b)%Q <-> rt_Value a * rt_Scale b < rt_Value b * rt_Scale a.
Proof. intros. unfold rt_Q, Qlt. cbn. rewrite !Z2Pos.id by lia. done. Qed.

Lemma rt_Q_eq a b : 0 < rt_Scale a -> 0 < rt_Scale b ->
  (rt_Q a == rt_Q b)%Q <-> rt_Value a * rt_Scale b = rt_Value b * rt_Scale a.
Proof. intros. unfold rt_Q, Qeq. cbn. rewrite !Z2Pos.id by lia. done. Qed.

Lemma Compare_valid a b : rt_valid a -> rt_valid b ->
  exists c, RationalTime_Compare a b = Ok c /\
    (c < 0 <-> (rt_Q a < rt_Q b)%Q) /\ (c = 0 <-> a = b) /\ (0 < c <-> (rt_Q b < rt_Q a)%Q).
Proof.
  intros Ha Hb. pose proof (rt_valid_pos _ Ha). pose proof (rt_valid_pos _ Hb).
  unfold RationalTime_Compare. rewrite (rt_valid_ok _ Ha), (rt_valid_ok _ Hb). cbn.
  eexists. split; [done|]. rewrite !rt_Q_lt by lia. unfold big_cmp.
  assert (rt_Value a * rt_Scale b = rt_Value b * rt_Scale a <-> a = b) as Heq.
  { rewrite <- rt_Q_eq by lia. split; [by apply rt_valid_unique | by intros ->]. }
  destruct (Z.compare_spec (rt_Value a * rt_Scale b) (rt_Value b * rt_Scale a));
    rewrite <- Heq; repeat split; lia.
Qed.

Lemma Compare_ok a b c : rt_typed a -> rt_typed b -> RationalTime_Compare a b = Ok c ->
  rt_valid a /\ rt_valid b /\
  (c < 0 <-> (rt_Q a < rt_Q b)%Q) /\ (c = 0 <-> a = b) /\ (0 < c <-> (rt_Q b < rt_Q a)%Q).
Proof.
  intros Ta Tb H. assert (Hv : rt_valid a /\ rt_valid b).
  { unfold RationalTime_Compare in H. outcome_inv. by destruct v, v0. }
  destruct Hv as [Ha Hb]. destruct (Compare_valid a b Ha Hb) as (c' & Hc & Hs).
  rewrite H in Hc. injection Hc as ->. by destruct Hs as (? & ? & ?).
Qed.

(** ** Sums and differences *)

Definition q_of (numerator denominator : Z) : Q := numerator # Z.to_pos denominator.

(** The reduced fraction fits [int64] over [int32]. *)
Definition representable (q : Q) : Prop := exists t, rt_valid t /\ (rt_Q t == q)%Q.

Lemma rationalFromBig_spec numerator denominator : 0 < denominator ->
  match rationalFromBig numerator denominator with
  | Ok t => rt_valid t /\ (rt_Q t == q_of numerator denominator)%Q
  | Fail e => e = ErrTimeOverflow /\ ~ representable (q_of numerator denominator)
  | Panic => False
  end.
Proof.
  intros Hd. unfold rationalFromBig. replace (denominator <=? 0) with false by lia.
  destruct (Z.eqb_spec numerator 0) as [->|Hnz].
  { split; [|done]. split; [|done]. unfold rt_typed, MinInt64, MaxInt64, MinInt32, MaxInt32. cbn. lia. }
  rewrite Z.gcd_abs_l. pose proof (gcd_pos_bound numerator denominator Hd) as Hg.
  pose proof (quot_gcd_pos numerator _ (proj1 Hg) (Z.gcd_divide_l _ _)) as Hqn.
  pose proof (quot_gcd_pos denominator _ (proj1 Hg) (Z.gcd_divide_r numerator _)) as Hqd.
  pose proof (gcd_quot_1 numerator denominator Hd) as Hred.
  set (g := Z.gcd numerator denominator) in *.
  set (n := Z.quot numerator g) in *. set (d := Z.quot denominator g) in *.
  assert (0 < d) by nia.
  assert (q_of n d == q_of numerator denominator)%Q as Hq.
  { apply (rt_Q_cross n d numerator denominator); [done..|]. by apply (cross_common_factor _ _ g). }
  destruct (negb (is_int64 n) || negb (is_int64 d) || (MaxInt32 <? d)) eqn:E.
  - split; [done|]. intros (t & Ht & Hqt). rewrite <- Hq in Hqt.
    apply rt_valid_iff in Ht as ([Hv Hs] & Hp & Hgt). destruct t as [v s]. cbn in *.
    change (q_of n d) with (rt_Q (mkTime n d)) in Hqt. rewrite rt_Q_cross in Hqt by done.
    destruct (reduced_unique v s n d) as [-> ->]; [done..|].
    rewrite (proj2 (is_int64_spec n)), (proj2 (is_int64_spec d)) in E
      by (unfold MinInt64, MaxInt64, MinInt32, MaxInt32 in *; lia). cbn in E. lia.
  - bool_prop. rewrite is_int64_spec in *.
    rewrite to_int32_small by (unfold MinInt32, MaxInt32 in *; lia).
    destruct (NewRationalTime_spec n d) as (t & -> & Hv & Ht); [done|lia|].
    split; [done|]. by rewrite Ht.
Qed.

Lemma q_sum a b : 0 < rt_Scale a -> 0 < rt_Scale b ->
  (q_of (rt_Value a * rt_Scale b + rt_Value b * rt_Scale a) (rt_Scale a * rt_Scale b) == rt_Q a + rt_Q b)%Q.
Proof. intros. unfold q_of, rt_Q, Qplus, Qeq. cbn. rewrite !Pos2Z.inj_mul, !Z2Pos.id by nia. ring. Qed.

Lemma q_difference a b : 0 < rt_Scale a -> 0 < rt_Scale b ->
  (q_of (rt_Value a * rt_Scale b - rt_Value b * rt_Scale a) (rt_Scale a * rt_Scale b) == rt_Q a - rt_Q b)%Q.
Proof. intros. unfold q_of, rt_Q, Qminus, Qplus, Qopp, Qeq. cbn. rewrite !Pos2Z.inj_mul, !Z2Pos.id by nia. ring. Qed.

#[export] Instance representable_proper : Proper (Qeq ==> iff) representable.
Proof. intros p q E. unfold representable. by setoid_rewrite E. Qed.

(** Exact or refused: the result of an operation on valid times. *)
Definition exact_result (q : Q) (r : outcome exact_error RationalTime) : Prop :=
  match r with
  | Ok t => rt_valid t /\ (rt_Q t == q)%Q
  | Fail e => e = ErrTimeOverflow /\ ~ representable q
  | Panic => False
  end.

#[export] Instance exact_result_proper : Proper (Qeq ==> eq ==> iff) exact_result.
Proof.
  intros p q E r ? <-. unfold exact_result. destruct r; [by rewrite E | by rewrite E | done].
Qed.

Lemma Add_valid a b : rt_valid a -> rt_valid b -> exact_result (rt_Q a + rt_Q b) (Add a b).
Proof.
  intros Ha Hb. pose proof (rt_valid_pos _ Ha). pose proof (rt_valid_pos _ Hb).
  unfold Add. rewrite (rt_valid_ok _ Ha), (rt_valid_ok _ Hb). cbn -[rationalFromBig].
  rewrite <- q_sum by lia. apply rationalFromBig_spec. nia.
Qed.

Lemma Subtract_valid a b : rt_valid a -> rt_valid b -> exact_result (rt_Q a - rt_Q b) (Subtract a b).
Proof.
  intros Ha Hb. pose proof (rt_valid_pos _ Ha). pose proof (rt_valid_pos _ Hb).
  unfold Subtract. rewrite (rt_valid_ok _ Ha), (rt_valid_ok _ Hb). cbn -[rationalFromBig].
  rewrite <- q_difference by lia. apply rationalFromBig_spec. nia.
Qed.

Lemma Add_ok a b c : rt_typed a -> rt_typed b -> Add a b = Ok c ->
  rt_valid a /\ rt_valid b /\ rt_valid c /\ (rt_Q c == rt_Q a + rt_Q b)%Q.
Proof.
  intros Ta Tb H. assert (Hv : rt_valid a /\ rt_valid b).
  { unfold Add in H. outcome_inv. by destruct v, v0. }
  destruct Hv as [Ha Hb]. pose proof (Add_valid a b Ha Hb) as Hr. rewrite H in Hr. by destruct Hr.
Qed.

Lemma Subtract_ok a b c : rt_typed a -> rt_typed b -> Subtract a b = Ok c ->
  rt_valid a /\ rt_valid b /\ rt_valid c /\ (rt_Q c == rt_Q a - rt_Q b)%Q.
Proof.
  intros Ta Tb H. assert (Hv : rt_valid a /\ rt_valid b).
  { unfold Subtract in H. outcome_inv. by destruct v, v0. }
  destruct Hv as [Ha Hb]. pose proof (Subtract_valid a b Ha Hb) as Hr. rewrite H in Hr. by destruct Hr.
Qed.

Lemma IsPositive_Q t : rt_valid t -> IsPositive t = true <-> (0 < rt_Q t)%Q.
Proof.
  intros H. pose proof (rt_valid_pos _ H). unfold IsPositive. rewrite Z.ltb_lt. unfold Qlt, rt_Q. cbn. lia.
Qed.

Lemma IsNegative_Q t : rt_valid t -> IsNegative t = true <-> (rt_Q t < 0)%Q.
Proof.
  intros H. pose proof (rt_valid_pos _ H). unfold IsNegative. rewrite Z.ltb_lt. unfold Qlt, rt_Q. cbn. lia.
Qed.

Lemma NewTimeRange_ok start duration r : NewTimeRange start duration = Ok r ->
  RationalTime_Validate start = Ok tt /\ RationalTime_Validate duration = Ok tt /\
  IsNegative duration = false /\ r = mkRange start duration.
Proof.
  unfold NewTimeRange. intros H. outcome_inv. destruct v.
  destruct (rt_validate_total duration) as [E|E]; rewrite E in Hk; cbn in Hk; [|done].
  destruct (IsNegative duration); [done|]. by injection Hk as <-.
Qed.

(** ** The order key *)

Fixpoint be_value_from (acc : Z) (l : list Z) : Z :=
  match l with [] => acc | b :: l' => be_value_from (acc * 256 + b) l' end.
Definition be_value (l : list Z) : Z := be_value_from 0 l.

Lemma be_value_from_app l1 : forall acc l2,
  be_value_from acc (l1 ++ l2) = be_value_from (be_value_from acc l1) l2.
Proof. induction l1 as [|b l1 IH]; intros; [done|]. cbn. apply IH. Qed.

Lemma be_value_from_split l : forall acc, be_value_from acc l = acc * 256 ^ Z.of_nat (length l) + be_value l.
Proof.
  unfold be_value. induction l as [|b l IH]; intros acc; [cbn; lia|]. cbn [be_value_from length].
  rewrite IH, (IH (0 * 256 + b)), Nat2Z.inj_succ, Z.pow_succ_r by lia. lia.
Qed.

Lemma be_value_bound l : Forall (fun b => 0 <= b < 256) l -> 0 <= be_value l < 256 ^ Z.of_nat (length l).
Proof.
  induction 1 as [|b l Hb Hl IH]; [cbn; lia|]. unfold be_value. cbn [be_value_from length].
  rewrite be_value_from_split, Nat2Z.inj_succ, Z.pow_succ_r by lia. nia.
Qed.

(** Equally long byte strings sort as the numbers they spell. *)
Lemma be_value_ltb l : forall r,
  Forall (fun b => 0 <= b < 256) l -> Forall (fun b => 0 <= b < 256) r -> length l = length r ->
  bytes_ltb (map byte_of l) (map byte_of r) = (be_value l <? be_value r).
Proof.
  induction l as [|b l IH]; intros [|c r] Hl Hr Hlen; try done.
  inversion Hl; inversion Hr; subst. injection Hlen as Hlen.
  cbn [map bytes_ltb]. rewrite !byte_val_of, (IH r) by done. unfold be_value. cbn [be_value_from].
  rewrite !(be_value_from_split _ (_ + _)), <- Hlen.
  pose proof (be_value_bound l ltac:(done)). pose proof (be_value_bound r ltac:(done)). rewrite <- Hlen in *.
  fold (be_value l) (be_value r).
  destruct (Z.ltb_spec b c), (Z.ltb_spec c b), (Z.ltb_spec (be_value l) (be_value r)); try lia; symmetry;
    rewrite ?Z.ltb_lt, ?Z.ltb_ge; nia.
Qed.

Lemma big_bytes_value fuel : forall n, 0 <= n < 256 ^ Z.of_nat fuel ->
  be_value (big_bytes fuel n) = n /\ (length (big_bytes fuel n) <= fuel)%nat /\
  Forall (fun b => 0 <= b < 256) (big_bytes fuel n).
Proof.
  induction fuel as [|fuel IH]; intros n Hn; [cbn in *; split_and!; [lia|lia|constructor]|].
  cbn [big_bytes]. rewrite Nat2Z.inj_succ, Z.pow_succ_r in Hn by lia.
  destruct (Z.eqb_spec n 0) as [->|]; [split_and!; [done|cbn; lia|constructor]|].
  destruct (IH (n / 256)) as (Hv & Hlen & Hf); [split; [apply Z.div_pos; lia|apply Z.div_lt_upper_bound; lia]|].
  split_and!.
  - unfold be_value. rewrite be_value_from_app. fold (be_value (big_bytes fuel (n / 256))). rewrite Hv. cbn. euclid.
  - rewrite length_app. cbn. lia.
  - apply Forall_app. split; [done|]. constructor; [euclid|constructor].
Qed.

Lemma right_align_spec size l : (length l <= size)%nat -> Forall (fun b => 0 <= b < 256) l ->
  be_value (right_align size l) = be_value l /\ length (right_align size l) = size /\
  Forall (fun b => 0 <= b < 256) (right_align size l).
Proof.
  intros Hlen Hf. unfold right_align. split_and!.
  - unfold be_value. rewrite be_value_from_app. f_equal.
    induction (size - length l)%nat as [|k IH]; [done|apply IH].
  - rewrite length_app, length_replicate. lia.
  - apply Forall_app. split; [|done]. apply Forall_replicate. lia.
Qed.

(** The fixed-point number whose big-endian bytes make up the key. *)
Definition order_number (t : RationalTime) : Z := Z.quot (rt_Value t * 2 ^ 128) (rt_Scale t) + 2 ^ 191.

Lemma order_number_range t : rt_valid t -> 0 <= order_number t < 2 ^ 192.
Proof.
  intros H. apply rt_valid_iff in H as ([Hv _] & Hp & _). unfold order_number, MinInt64, MaxInt64 in *.
  pose proof (quot_bound (rt_Value t * 2 ^ 128) (rt_Scale t) (- 2 ^ 191) (2 ^ 191 - 2 ^ 128)). lia.
Qed.

Lemma quot_gap x y s s' :
  0 < s -> 0 < s' -> x * s' + 2 * s * s' <= y * s -> Z.quot x s < Z.quot y s'.
Proof.
  intros Hs Hs' H. assert (Z.quot x s * s < x + s) by euclid. assert (y - s' < Z.quot y s' * s') by euclid. nia.
Qed.

Lemma order_number_mono a b : rt_valid a -> rt_valid b ->
  (rt_Q a < rt_Q b)%Q -> order_number a < order_number b.
Proof.
  intros Ha Hb. pose proof (rt_valid_pos _ Ha). pose proof (rt_valid_pos _ Hb). rewrite rt_Q_lt by lia.
  intros Hlt. unfold order_number. apply Z.add_lt_mono_r, quot_gap; [lia..|].
  unfold MaxInt32 in *. assert (rt_Scale a * rt_Scale b <= 2147483647 * 2147483647) by nia. nia.
Qed.

Lemma RationalOrderKey_valid t : rt_valid t ->
  RationalOrderKey t = Ok (string_of (hex_encode (right_align 24 (big_bytes 24 (order_number t))))).
Proof.
  intros H. pose proof (order_number_range t H) as Hr. unfold RationalOrderKey.
  rewrite (rt_valid_ok _ H). cbn -[hex_encode right_align big_bytes Z.pow Z.quot Z.shiftl].
  rewrite !Z.shiftl_mul_pow2, Z.mul_1_l by lia. fold (order_number t).
  replace (order_number t <? 0) with false by lia. by replace (2 ^ 192 <=? order_number t) with false by lia.
Qed.

Lemma order_key_ltb a b : rt_valid a -> rt_valid b ->
  bytes_ltb (hex_encode (right_align 24 (big_bytes 24 (order_number a))))
            (hex_encode (right_align 24 (big_bytes 24 (order_number b)))) =
  (order_number a <? order_number b).
Proof.
  intros Ha Hb.
  assert (forall t, rt_valid t -> 0 <= order_number t < 256 ^ Z.of_nat 24) as Hr by (intros; by apply order_number_range).
  destruct (big_bytes_value 24 (order_number a) (Hr a Ha)) as (Va & La & Fa).
  destruct (big_bytes_value 24 (order_number b) (Hr b Hb)) as (Vb & Lb & Fb).
  destruct (right_align_spec 24 _ La Fa) as (Va' & La' & Fa'), (right_align_spec 24 _ Lb Fb) as (Vb' & Lb' & Fb').
  rewrite hex_encode_ltb, be_value_ltb by congruence. congruence.
Qed.

(** ** Canonical decimal text *)

Lemma decimal_digits_range n : 0 <= n < 2 ^ 64 -> 0 <= n < 10 ^ Z.of_nat decimal_fuel.
Proof. unfold decimal_fuel. cbn. lia. Qed.

Lemma digit_not_sign a : is_digit a = true -> Ascii.eqb a "-"%char = false /\ Ascii.eqb a "+"%char = false.
Proof.
  intros [H _]%is_digit_spec. split; apply Ascii.eqb_neq; intros ->; vm_compute in H; by apply H.
Qed.

Lemma format_uint_canonical n signed : 0 <= n < 2 ^ 64 -> isCanonicalDecimal (format_uint n) signed = true.
Proof.
  intros Hn. unfold isCanonicalDecimal, format_uint. rewrite bytes_of_string_of.
  destruct (decimal_digits_cons decimal_fuel n) as (a & l & E); [done|].
  pose proof (decimal_digits_digits decimal_fuel n ltac:(lia)) as Hd. rewrite E in *.
  case_bool_decide as Hz; [done|]. pose proof Hd as Ha. cbn in Ha. apply andb_true_iff in Ha as [Ha _].
  destruct (digit_not_sign a Ha) as [-> _].
  destruct (Ascii.eqb_spec a "0"%char) as [->|]; [|done].
  exfalso. destruct (Z.eq_dec n 0) as [->|Hnz].
  - cbn in E. injection E as <-. by apply Hz.
  - eapply (decimal_digits_hd_nonzero decimal_fuel n); [|exact E|done].
    pose proof (decimal_digits_range n Hn). lia.
Qed.

Lemma parse_format_uint n : 0 <= n < 2 ^ 64 -> parse_uint (bytes_of (format_uint n)) = Some n.
Proof.
  intros Hn. unfold parse_uint, format_uint. rewrite bytes_of_string_of.
  destruct (decimal_digits_cons decimal_fuel n) as (a & l & E); [done|].
  pose proof (decimal_digits_digits decimal_fuel n ltac:(lia)) as Hd.
  pose proof (decimal_digits_value decimal_fuel n (decimal_digits_range n Hn)) as Hv. rewrite E in *.
  rewrite Hd, Hv. by replace (n <? 2 ^ 64) with true by lia.
Qed.

Lemma canonical_uint_unique s n :
  isCanonicalDecimal s false = true -> parse_uint (bytes_of s) = Some n -> s = format_uint n /\ 0 <= n < 2 ^ 64.
Proof.
  unfold isCanonicalDecimal, parse_uint. destruct (bytes_of s) as [|a l] eqn:E; [done|]. intros Hc.
  destruct (forallb is_digit (a :: l)) eqn:Hd; [|done]. cbn [andb].
  pose proof (decimal_value_bound (a :: l) Hd) as Hb.
  destruct (Z.ltb_spec (decimal_value (a :: l)) (2 ^ 64)); [|done]. intros [= <-]. split; [|lia].
  apply bytes_of_inj. unfold format_uint. rewrite bytes_of_string_of, E. symmetry.
  assert (Hd' := Hd). cbn in Hd'. apply andb_true_iff in Hd' as [Ha Hl]. destruct (digit_not_sign a Ha) as [Hm _].
  rewrite Hm in Hc. case_bool_decide as Hz.
  { subst s. cbn in E. by injection E as <- <-. }
  destruct (Ascii.eqb_spec a "0"%char) as [|Hnz]; [done|].
  apply decimal_digits_of_value; [done| |right; cbn; congruence].
  split; [cbn; lia|]. destruct (decide (length (a :: l) <= decimal_fuel)%nat) as [|Hlong]; [done|exfalso].
  pose proof (decimal_value_pos a l Hd Hnz). assert (10 ^ 20 <= decimal_value (a :: l)); [|lia].
  unfold decimal_fuel in Hlong. apply (decimal_value_lower a l 20); [done..|cbn in Hlong; lia].
Qed.

Lemma canonical_int_unique s n :
  isCanonicalDecimal s true = true -> parse_int (bytes_of s) = Some n ->
  s = format_int n /\ MinInt64 <= n <= MaxInt64.
Proof.
  intros Hc Hp. unfold MinInt64, MaxInt64. destruct (bytes_of s) as [|a l] eqn:E; [done|]. unfold parse_int in Hp.
  destruct (Ascii.eqb a "-"%char) eqn:Hm; cbn [orb] in Hp.
  - destruct (parse_uint l) as [un|] eqn:Hu; [|done]. destruct (Z.ltb_spec (2 ^ 63) un); [done|]. injection Hp as <-.
    assert (isCanonicalDecimal (string_of l) false = true) as Hcl.
    { unfold isCanonicalDecimal in *. rewrite E, Hm in Hc. rewrite bytes_of_string_of.
      destruct (bool_decide_reflect (s = "0")) as [->|]; [by injection E as <- <-|].
      destruct l as [|b l]; [done|]. case_bool_decide; [done|]. cbn [negb orb] in Hc.
      destruct (Ascii.eqb b "0"%char) eqn:Hb; [done|]. cbn in Hc. apply andb_true_iff in Hc as [Hc1 Hc2].
      destruct (digit_not_sign b Hc1) as [-> _]. cbn. by rewrite Hc1. }
    destruct (canonical_uint_unique (string_of l) un Hcl) as [Hs Hr]; [by rewrite bytes_of_string_of|].
    assert (un <> 0).
    { intros ->. apply (f_equal bytes_of) in Hs. rewrite bytes_of_string_of in Hs. cbn in Hs. subst l.
      unfold isCanonicalDecimal in Hc. rewrite E, Hm in Hc. case_bool_decide; [|done]. subst. done. }
    split; [|lia]. apply bytes_of_inj. rewrite E. unfold format_int. replace (- un <? 0) with true by lia.
    rewrite bytes_of_string_of, Z.opp_involutive. apply Ascii.eqb_eq in Hm as ->. f_equal.
    apply (f_equal bytes_of) in Hs. by rewrite bytes_of_string_of in Hs; unfold format_uint in Hs; rewrite bytes_of_string_of in Hs.
  - assert (isCanonicalDecimal s false = true) as Hcs.
    { unfold isCanonicalDecimal in *. by rewrite E, Hm in *. }
    assert (Hplus : Ascii.eqb a "+"%char = false).
    { unfold isCanonicalDecimal in Hc. rewrite E, Hm in Hc. case_bool_decide as Hz.
      - subst s. by injection E as <- <-.
      - destruct (Ascii.eqb a "0"%char); [done|]. cbn in Hc. apply andb_true_iff in Hc as [Hc _].
        by destruct (digit_not_sign a Hc). }
    rewrite Hplus in Hp. destruct (parse_uint (a :: l)) as [un|] eqn:Hu; [|done].
    destruct (Z.leb_spec (2 ^ 63) un); [done|]. injection Hp as <-. rewrite <- E in Hu.
    destruct (canonical_uint_unique s un Hcs Hu) as [-> Hr]. split; [|lia].
    unfold format_int. by replace (un <? 0) with false by lia.
Qed.

Lemma format_int_parse n : MinInt64 <= n <= MaxInt64 -> parseCanonicalInt64 (format_int n) = Ok n.
Proof.
  unfold MinInt64, MaxInt64. intros Hn. unfold parseCanonicalInt64, format_int.
  destruct (Z.ltb_spec n 0).
  - pose proof (parse_format_uint (- n) ltac:(lia)) as Hu.
    pose proof (format_uint_canonical (- n) false ltac:(lia)) as Hc.
    unfold format_uint in *. rewrite bytes_of_string_of in *.
    destruct (decimal_digits_cons decimal_fuel (- n)) as (b & l & E); [done|].
    assert (b <> "0"%char) as Hb by (eapply decimal_digits_hd_nonzero; [|exact E]; pose proof (decimal_digits_range (- n)); lia).
    pose proof (decimal_digits_digits decimal_fuel (- n) ltac:(lia)) as Hd. rewrite E in *.
    replace (isCanonicalDecimal _ true) with true.
    2:{ unfold isCanonicalDecimal. rewrite bytes_of_string_of. case_bool_decide; [done|]. cbn [Ascii.eqb negb orb].
        apply Ascii.eqb_neq in Hb. rewrite Hb. by rewrite Hd. }
    cbn [negb]. unfold parse_int. rewrite Ascii.eqb_refl. cbn [orb]. rewrite Hu.
    replace (2 ^ 63 <? - n) with false by lia. f_equal. lia.
  - rewrite (format_uint_canonical n true) by lia. cbn [negb]. unfold parse_int.
    pose proof (parse_format_uint n ltac:(lia)) as Hu.
    destruct (bytes_of (format_uint n)) as [|a l] eqn:E; [done|].
    assert (Ha : is_digit a = true).
    { unfold parse_uint in Hu. destruct (forallb is_digit (a :: l)) eqn:Hd; [|done]. cbn in Hd.
      by apply andb_true_iff in Hd as [? _]. }
    destruct (digit_not_sign a Ha) as [-> ->]. cbn [orb]. rewrite Hu. by replace (2 ^ 63 <=? n) with false by lia.
Qed.

(** * Properties *)

(** C38: sums and differences of valid times are exact.  [Add] and [Subtract]
    return the reduced fraction of the true sum or difference whenever it fits an
    [int64] over an [int32], and otherwise fail with [ErrTimeOverflow]: no result
    is rounded and no representable result is refused. *)
Theorem rational_time_arithmetic_exact (a b : RationalTime) (Ha : rt_valid a) (Hb : rt_valid b) :
  exact_result (rt_Q a + rt_Q b) (Add a b) /\ exact_result (rt_Q a - rt_Q b) (Subtract a b).
Proof. split; [by apply Add_valid | by apply Subtract_valid]. Qed.

Lemma rational_time_arithmetic_exact_witness :
  exact_result (rt_Q (mkTime 1 3) + rt_Q (mkTime 1 6)) (Ok (mkTime 1 2)) /\
  Add (mkTime MaxInt64 1) (mkTime 1 2) = Fail ErrTimeOverflow.
Proof.
  split; [|vm_compute; reflexivity].
  destruct (rational_time_arithmetic_exact (mkTime 1 3) (mkTime 1 6)) as [H _];
    [split; [split; done|reflexivity]..|].
  exact H.
Defined.

(** C39: the order key sorts like time.  Every valid time has a key of 48
    characters, byte order of keys is the order of the times, and different
    times have different keys. *)
Theorem order_key_sorts_like_time (a b : RationalTime) (Ha : rt_valid a) (Hb : rt_valid b) :
  exists ka kb, RationalOrderKey a = Ok ka /\ RationalOrderKey b = Ok kb /\
    go_len ka = 48 /\
    (str_ltb ka kb = true <-> (rt_Q a < rt_Q b)%Q) /\ (ka = kb <-> a = b).
Proof.
  rewrite !RationalOrderKey_valid by done. eexists _, _. split; [done|]. split; [done|].
  assert (Hlt : forall x y, rt_valid x -> rt_valid y ->
    (str_ltb (string_of (hex_encode (right_align 24 (big_bytes 24 (order_number x)))))
             (string_of (hex_encode (right_align 24 (big_bytes 24 (order_number y))))) = true <-> (rt_Q x < rt_Q y)%Q)).
  { intros x y Hx Hy. unfold str_ltb. rewrite !bytes_of_string_of, order_key_ltb, Z.ltb_lt by done. split.
    - intros Hlt. destruct (Q_dec (rt_Q x) (rt_Q y)) as [[|Hgt]|Heq]; [done| |].
      + pose proof (order_number_mono y x Hy Hx Hgt). lia.
      + apply rt_valid_unique in Heq as ->; [lia|done..].
    - by apply order_number_mono. }
  split_and!; [|by apply Hlt|].
  - unfold go_len. rewrite bytes_of_string_of, length_hex_encode.
    destruct (big_bytes_value 24 (order_number a) (order_number_range a Ha)) as (_ & Hl & Hf).
    by destruct (right_align_spec 24 _ Hl Hf) as (_ & -> & _).
  - split; [|by intros ->]. intros E. apply rt_valid_unique; [done..|].
    destruct (Q_dec (rt_Q a) (rt_Q b)) as [[H|H]|H]; [apply (Hlt a b Ha Hb) in H | apply (Hlt b a Hb Ha) in H | done];
      rewrite E in H; unfold str_ltb in H; by rewrite bytes_ltb_irrefl in H.
Qed.

Lemma order_key_sorts_like_time_witness :
  exists ka kb, RationalOrderKey (mkTime (-1) 3) = Ok ka /\ RationalOrderKey (mkTime 1 1000) = Ok kb /\ str_ltb ka kb = true.
Proof.
  destruct (order_key_sorts_like_time (mkTime (-1) 3) (mkTime 1 1000)) as (ka & kb & H1 & H2 & _ & H3 & _);
    [split; [split; done|reflexivity]..|].
  exists ka, kb. split; [done|]. split; [done|]. apply H3. reflexivity.
Defined.

(** decimal text round trips and is canonical.  Printing an [Int64], a
    [UInt64], a [Revision] or a [Cursor] and parsing the text gives the value
    back, and a text that parses is exactly the text its value prints as, so one
    value has one text on the wire. *)
Theorem exact_integer_text_roundtrip :
  (forall v, MinInt64 <= v <= MaxInt64 -> Int64_UnmarshalText (Int64_String v) = Ok v) /\
  (forall s v, Int64_UnmarshalText s = Ok v -> s = Int64_String v /\ MinInt64 <= v <= MaxInt64) /\
  (forall v, 0 <= v <= MaxInt64 -> Revision_UnmarshalText (Revision_String v) = Ok v /\
     UInt64_UnmarshalText (UInt64_String v) = Ok v /\ Cursor_UnmarshalText (Cursor_String v) = Ok v) /\
  (forall s v, Revision_UnmarshalText s = Ok v -> s = Revision_String v /\ 0 <= v <= MaxInt64).
Proof.
  split_and!.
  - apply format_int_parse.
  - intros s v. unfold Int64_UnmarshalText, parseCanonicalInt64. destruct (isCanonicalDecimal s true) eqn:Hc; [|done].
    cbn. destruct (parse_int (bytes_of s)) eqn:Hp; [|done]. intros [= <-]. by apply canonical_int_unique.
  - intros v Hv. assert (0 <= v < 2 ^ 64) by (unfold MaxInt64 in *; lia).
    unfold Revision_UnmarshalText, UInt64_UnmarshalText, Cursor_UnmarshalText, Revision_String, UInt64_String, Cursor_String,
      parseCanonicalUint64.
    rewrite format_uint_canonical, parse_format_uint by done. cbn. unfold NewRevision, NewUInt64, NewCursor.
    by replace (MaxInt64 <? v) with false by lia.
  - intros s v. unfold Revision_UnmarshalText, parseCanonicalUint64. destruct (isCanonicalDecimal s false) eqn:Hc; [|done].
    cbn. destruct (parse_uint (bytes_of s)) eqn:Hp; [|done]. cbn. unfold NewRevision.
    destruct (Z.ltb_spec MaxInt64 z); [done|]. intros [= <-].
    destruct (canonical_uint_unique s z) as [-> ?]; [done..|]. split; [done|lia].
Qed.

(** Construction normalises.  [NewRationalTime] refuses a scale that is not
    positive; for every other [int64] and [int32] it returns the one valid time
    that equals [value / scale], whose scale never grows. *)
Theorem new_rational_time_reduces (value scale : Z)
    (Hv : MinInt64 <= value <= MaxInt64) (Hs : MinInt32 <= scale <= MaxInt32) :
  match NewRationalTime value scale with
  | Ok t => 0 < scale /\ rt_valid t /\ (rt_Q t == value # Z.to_pos scale)%Q /\ rt_Scale t <= scale /\
            forall t', rt_valid t' -> (rt_Q t' == value # Z.to_pos scale)%Q -> t' = t
  | Fail e => scale <= 0 /\ e = ErrInvalidRationalTime
  | Panic => False
  end.
Proof.
  destruct (Z.leb_spec scale 0) as [Hle|Hpos].
  - unfold NewRationalTime. by replace (scale <=? 0) with true by lia.
  - destruct (NewRationalTime_spec value scale) as (t & -> & Ht & Hq); [done|lia|].
    split_and!; [done|done|done| |].
    + pose proof (rt_valid_pos _ Ht). apply rt_valid_iff in Ht as (_ & _ & Hg).
      destruct t as [v s]. change (value # Z.to_pos scale)%Q with (rt_Q (mkTime value scale)) in Hq.
      rewrite rt_Q_cross in Hq by (cbn in *; lia). cbn in *.
      apply Z.divide_pos_le; [lia|]. apply (Z.gauss s v scale); [exists value; lia | by rewrite Z.gcd_comm].
    + intros t' Ht' Hq'. apply rt_valid_unique; [done..|]. by rewrite Hq, Hq'.
Qed.

Lemma new_rational_time_reduces_witness :
  rt_valid (mkTime MinInt64 2147483647) /\ NewRationalTime 90000 30000 = Ok (mkTime 3 1).
Proof.
  split; [|reflexivity].
  pose proof (new_rational_time_reduces MinInt64 2147483647 ltac:(done) ltac:(done)) as H.
  vm_compute (NewRationalTime _ _) in H. apply H.
Defined.

(** [Compare] decides the order of time.  It fails exactly when an operand is
    not a valid time; on valid times its sign is the order of the two numbers of
    seconds, and it is zero only for identical values. *)
Theorem rational_time_compare_total_order (a b : RationalTime) (Ha : rt_typed a) (Hb : rt_typed b) :
  match RationalTime_Compare a b with
  | Ok c => rt_valid a /\ rt_valid b /\ (c < 0 <-> (rt_Q a < rt_Q b)%Q) /\
            (c = 0 <-> a = b) /\ (0 < c <-> (rt_Q b < rt_Q a)%Q)
  | Fail e => e = ErrInvalidRationalTime /\ ~ (rt_valid a /\ rt_valid b)
  | Panic => False
  end.
Proof.
  destruct (RationalTime_Compare a b) as [c|e|] eqn:E.
  - by apply Compare_ok.
  - split.
    + unfold RationalTime_Compare in E.
      destruct (rt_validate_total a) as [Ea|Ea], (rt_validate_total b) as [Eb|Eb]; rewrite Ea, ?Eb in E; cbn in E; congruence.
    + intros [Va Vb]. destruct (Compare_valid a b Va Vb) as (c & Hc & _). congruence.
  - unfold RationalTime_Compare in E.
    destruct (rt_validate_total a) as [Ea|Ea], (rt_validate_total b) as [Eb|Eb]; rewrite Ea, ?Eb in E; cbn in E; congruence.
Qed.

Lemma rational_time_compare_total_order_witness :
  (rt_Q (mkTime 1 3) < rt_Q (mkTime 2 5))%Q /\ RationalTime_Compare (mkTime 2 4) (mkTime 1 1) = Fail ErrInvalidRationalTime.
Proof.
  split; [|reflexivity].
  pose proof (rational_time_compare_total_order (mkTime 1 3) (mkTime 2 5) ltac:(split; done) ltac:(split; done)) as H.
  vm_compute (RationalTime_Compare _ _) in H. by apply H.
Defined.
