(* ===== verification/Identity.v ===== *)
(** Durable identities: [product/domain/identity.go].

    An [ID] holds the canonical text of a UUID of version 7; [RequestID] and
    [LocalID] are caller-chosen symbols.  Generation packs a millisecond clock
    and sixteen bytes of entropy; the text form of the sixteen bytes is the
    third-party package google/uuid, a parameter of the model. *)
From stdpp Require Import base list strings gmap sorting.
From Stdlib Require Import ZArith Lia Ascii.
From S2P Require Import Prelude GoText Exact.
Open Scope Z_scope.

Inductive identity_error :=
| ErrInvalidDurableID
| ErrInvalidRequestID
| ErrInvalidLocalID
| ErrClockRange
| ErrEntropy.

#[export] Instance identity_error_eq_dec : EqDecision identity_error.
Proof. solve_decision. Defined.

(** [strings.ContainsRune] for an ASCII set *)
Definition contains_rune (set : string) (r : Z) : bool :=
  existsb (fun a => byte_val a =? r) (bytes_of set).

Definition hex_set : string := "0123456789abcdef".

(** [value[i]] for an index below the length *)
Definition byte_at (l : bytes) (i : nat) : Z := default 0 (byte_val <$> l !! i).

Definition uuid_dash (i : nat) : bool :=
  (i =? 8)%nat || (i =? 13)%nat || (i =? 18)%nat || (i =? 23)%nat.

(** The loop [for index, current := range value]: [index] is the byte offset of
    the rune [current]. *)
Fixpoint uuid_runes_ok (index : nat) (l : list (Z * bytes)) : bool :=
  match l with
  | [] => true
  | (current, chunk) :: rest =>
      if uuid_dash index then uuid_runes_ok (index + length chunk) rest
      else if negb (contains_rune hex_set current) then false
      else uuid_runes_ok (index + length chunk) rest
  end.

Definition isUUIDv7 (value : string) : bool :=
  let b := bytes_of value in
  if negb (go_len value =? 36) || negb (byte_at b 8 =? 45) || negb (byte_at b 13 =? 45) ||
     negb (byte_at b 18 =? 45) || negb (byte_at b 23 =? 45) then false
  else if negb (byte_at b 14 =? 55) || negb (contains_rune "89ab" (byte_at b 19)) then false
  else uuid_runes_ok 0 (runes b).

(** An [ID] of any kind; the empty text is the zero ID. *)
Definition ParseID (value : string) : outcome identity_error string :=
  if negb (isUUIDv7 value) then Fail ErrInvalidDurableID else Ok value.
Definition IsZero (id : string) : bool := bool_decide (id = "").
Definition ID_MarshalText (id : string) : outcome identity_error string :=
  if IsZero id || negb (isUUIDv7 id) then Fail ErrInvalidDurableID else Ok id.
Definition ID_UnmarshalText (text : string) : outcome identity_error string := ParseID text.

Definition is_lower (a : ascii) : bool := (97 <=? byte_val a) && (byte_val a <=? 122).
Definition is_upper (a : ascii) : bool := (65 <=? byte_val a) && (byte_val a <=? 90).

(** The pattern [^[A-Za-z0-9][A-Za-z0-9._:-]{0,127}$] *)
Definition request_id_matches (value : string) : bool :=
  match bytes_of value with
  | [] => false
  | a :: rest =>
      (is_lower a || is_upper a || is_digit a) &&
      forallb (fun c => is_lower c || is_upper c || is_digit c || contains_rune "._:-" (byte_val c)) rest &&
      (length rest <=? 127)%nat
  end.
Definition ParseRequestID (value : string) : outcome identity_error string :=
  if negb (request_id_matches value) then Fail ErrInvalidRequestID else Ok value.

(** The pattern [^[a-z][a-z0-9_-]{0,63}$] *)
Definition local_id_matches (value : string) : bool :=
  match bytes_of value with
  | [] => false
  | a :: rest =>
      is_lower a && forallb (fun c => is_lower c || is_digit c || contains_rune "_-" (byte_val c)) rest &&
      (length rest <=? 63)%nat
  end.
Definition ParseLocalID (value : string) : outcome identity_error string :=
  if negb (local_id_matches value) then Fail ErrInvalidLocalID else Ok value.

(** The sixteen bytes that [GenerateUUIDv7From] packs: a 48-bit big-endian
    timestamp, the version nibble, the variant bits, and entropy elsewhere. *)
Definition uuid_pack (timestamp : Z) (b : list Z) : list Z :=
  let shifted k := Z.land (Z.shiftr timestamp k) 255 in
  let b := <[0%nat := shifted 40]> b in
  let b := <[1%nat := shifted 32]> b in
  let b := <[2%nat := shifted 24]> b in
  let b := <[3%nat := shifted 16]> b in
  let b := <[4%nat := shifted 8]> b in
  let b := <[5%nat := shifted 0]> b in
  let b := <[6%nat := Z.lor 112 (Z.land (default 0 (b !! 6%nat)) 15)]> b in
  <[8%nat := Z.lor 128 (Z.land (default 0 (b !! 8%nat)) 63)]> b.

Section generate.
(** [uuid.UUID(bytes).String()] of google/uuid *)
Variable uuid_String : list Z -> string.

(** [milliseconds] is [at.UnixMilli()]; [entropy] what [io.ReadFull] delivers,
    [None] when the reader fails or ends early. *)
Definition GenerateUUIDv7From (milliseconds : Z) (entropy : option (list Z)) : outcome identity_error string :=
  if (milliseconds <? 0) || (2 ^ 48 <=? milliseconds) then Fail ErrClockRange
  else match entropy with
       | None => Fail ErrEntropy
       | Some b =>
           let value := uuid_String (uuid_pack milliseconds b) in
           if negb (isUUIDv7 value) then Fail ErrInvalidDurableID else Ok value
       end.
End generate.

(** The documented text form: lower-case hex in groups of 8, 4, 4, 4 and 12. *)
Definition uuid_text (b : list Z) : string :=
  string_of (hex_encode (take 4 b) ++ "-"%char :: hex_encode (take 2 (drop 4 b)) ++
    "-"%char :: hex_encode (take 2 (drop 6 b)) ++ "-"%char :: hex_encode (take 2 (drop 8 b)) ++
    "-"%char :: hex_encode (drop 10 b)).

(** * The text of an identity *)

Fixpoint uuid_bytes_ok (index : nat) (l : bytes) : bool :=
  match l with
  | [] => true
  | a :: rest => (uuid_dash index || is_lower_hex a) && uuid_bytes_ok (S index) rest
  end.

Lemma contains_hex a : contains_rune hex_set (byte_val a) = is_lower_hex a.
Proof. apply lower_hex_member. Qed.

Lemma uuid_runes_bytes l : forall index,
  uuid_runes_ok index (map (fun a => (byte_val a, [a])) l) = uuid_bytes_ok index l.
Proof.
  induction l as [|a l IH]; intros index; [done|]. cbn [map uuid_runes_ok uuid_bytes_ok length].
  rewrite Nat.add_1_r, IH, contains_hex. by destruct (uuid_dash index), (is_lower_hex a).
Qed.

(** Sixteen packed bytes print as a UUID of version 7. *)
Lemma uuid_text_v7 b : length b = 16%nat -> Forall (fun x => 0 <= x < 256) b ->
  112 <= default 0 (b !! 6%nat) < 128 -> 128 <= default 0 (b !! 8%nat) < 192 -> isUUIDv7 (uuid_text b) = true.
Proof.
  intros Hlen Hf H6 H8.
  do 16 (destruct b as [|? b]; [done|]). destruct b; [|done]. clear Hlen.
  repeat match goal with H : Forall _ (_ :: _) |- _ => inversion_clear H as [|?? ? H']; rename H' into Hf end.
  cbn in H6, H8. unfold isUUIDv7, uuid_text, go_len. rewrite bytes_of_string_of.
  cbn [take drop hex_encode app]. rewrite runes_ascii, uuid_runes_bytes.
  - cbn -[byte_val hex_digit contains_rune is_lower_hex Z.div Z.modulo].
    repeat (rewrite hex_digit_lower by euclid).
    rewrite (hex_digit_val (z5 / 16)), (hex_digit_val (z7 / 16)) by euclid.
    replace (z5 / 16) with 7 by euclid.
    assert (z7 / 16 = 8 \/ z7 / 16 = 9 \/ z7 / 16 = 10 \/ z7 / 16 = 11) as [-> | [-> | [-> | ->]]] by euclid;
      vm_compute; reflexivity.
  - cbn [forallb]. repeat (rewrite (lower_hex_ascii (hex_digit _)) by (apply hex_digit_lower; euclid)). reflexivity.
Qed.

(** ** Packing *)

Lemma land_255 z : Z.land z 255 = z mod 256.
Proof. exact (Z.land_ones z 8 ltac:(lia)). Qed.

(** A bound on a bounded number, checked on every value. *)
Lemma bounded_check (n : nat) (P : Z -> bool) z :
  0 <= z < Z.of_nat n -> forallb P (map Z.of_nat (seq 0 n)) = true -> P z = true.
Proof.
  intros Hz H. rewrite forallb_forall in H. apply H. apply in_map_iff. exists (Z.to_nat z).
  rewrite in_seq. lia.
Qed.

Lemma lor_112 x : 0 <= x < 256 -> 112 <= Z.lor 112 (Z.land x 15) < 128.
Proof.
  intros H. change 15 with (Z.ones 4). rewrite Z.land_ones by lia.
  pose proof (bounded_check 16 (fun n => (112 <=? Z.lor 112 n) && (Z.lor 112 n <? 128)) (x mod 2 ^ 4)
    (Z.mod_pos_bound x (2 ^ 4) ltac:(lia)) eq_refl) as Hc. cbn beta in Hc. lia.
Qed.

Lemma lor_128 x : 0 <= x < 256 -> 128 <= Z.lor 128 (Z.land x 63) < 192.
Proof.
  intros H. change 63 with (Z.ones 6). rewrite Z.land_ones by lia.
  pose proof (bounded_check 64 (fun n => (128 <=? Z.lor 128 n) && (Z.lor 128 n <? 192)) (x mod 2 ^ 6)
    (Z.mod_pos_bound x (2 ^ 6) ltac:(lia)) eq_refl) as Hc. cbn beta in Hc. lia.
Qed.

Definition ts_byte (timestamp k : Z) : Z := timestamp / 2 ^ k mod 256.

Lemma uuid_pack_shape ts b : 0 <= ts -> length b = 16%nat -> Forall (fun x => 0 <= x < 256) b ->
  exists r6 r7 r8 tail,
    uuid_pack ts b = [ts_byte ts 40; ts_byte ts 32; ts_byte ts 24; ts_byte ts 16; ts_byte ts 8; ts_byte ts 0; r6; r7; r8] ++ tail /\
    length tail = 7%nat /\ Forall (fun x => 0 <= x < 256) (r7 :: tail) /\ 112 <= r6 < 128 /\ 128 <= r8 < 192.
Proof.
  intros Hts Hlen Hf. do 16 (destruct b as [|? b]; [done|]). destruct b; [|done].
  repeat match goal with H : Forall _ (_ :: _) |- _ => inversion_clear H as [|?? ? H']; rename H' into Hf end.
  unfold uuid_pack, ts_byte. cbn -[Z.lor Z.land Z.shiftr Z.pow Z.div].
  rewrite !Z.shiftr_div_pow2, !land_255 by lia.
  eexists _, _, _, [_; _; _; _; _; _; _]. split; [reflexivity|]. split; [done|].
  split; [repeat constructor; lia|]. split; [by apply lor_112 | by apply lor_128].
Qed.

Lemma bytes_ltb_app l1 : forall l2 r1 r2, length l1 = length l2 ->
  bytes_ltb (l1 ++ r1) (l2 ++ r2) = bytes_ltb l1 l2 || (bool_decide (l1 = l2) && bytes_ltb r1 r2).
Proof.
  induction l1 as [|a l1 IH]; intros [|b l2] r1 r2 Hlen; try done.
  injection Hlen as Hlen. cbn [app bytes_ltb].
  destruct (Z.ltb_spec (byte_val a) (byte_val b)); [done|].
  destruct (Z.ltb_spec (byte_val b) (byte_val a)).
  - rewrite bool_decide_false; [done|]. intros [= -> ->]. lia.
  - assert (a = b) as -> by (apply byte_val_inj; lia). rewrite IH by done.
    f_equal. f_equal. apply bool_decide_ext. naive_solver.
Qed.

Lemma hex_prefix_ltb x y r1 r2 : length x = length y ->
  Forall (fun b => 0 <= b < 256) x -> Forall (fun b => 0 <= b < 256) y ->
  be_value x < be_value y -> bytes_ltb (hex_encode x ++ r1) (hex_encode y ++ r2) = true.
Proof.
  intros Hlen Hx Hy Hlt. rewrite bytes_ltb_app by (rewrite !length_hex_encode; lia).
  rewrite hex_encode_ltb, be_value_ltb by done. by rewrite (proj2 (Z.ltb_lt _ _) Hlt).
Qed.

Lemma ts_byte_range ts k : 0 <= ts_byte ts k < 256.
Proof. unfold ts_byte. apply Z.mod_pos_bound. lia. Qed.

Lemma ts_high ts : 0 <= ts < 2 ^ 48 ->
  be_value [ts_byte ts 40; ts_byte ts 32; ts_byte ts 24; ts_byte ts 16] = ts / 65536 /\
  be_value [ts_byte ts 8; ts_byte ts 0] = ts mod 65536.
Proof.
  intros H. unfold be_value, ts_byte. cbn [be_value_from].
  rewrite ?Z.pow_0_r, ?Z.div_1_r.
  change (2 ^ 40) with (65536 * 16777216). change (2 ^ 32) with (65536 * 65536).
  change (2 ^ 24) with (65536 * 256). change (2 ^ 16) with 65536. change (2 ^ 8) with 256.
  rewrite <- !Z.div_div by lia. set (h := ts / 65536).
  assert (0 <= h < 4294967296) by (subst h; euclid). split; [|euclid]. clearbody h. euclid.
Qed.

(** Texts of packed bytes sort by their timestamps. *)
Lemma uuid_text_time_order ts1 ts2 b1 b2 :
  0 <= ts1 < ts2 -> ts2 < 2 ^ 48 ->
  length b1 = 16%nat -> length b2 = 16%nat ->
  Forall (fun x => 0 <= x < 256) b1 -> Forall (fun x => 0 <= x < 256) b2 ->
  str_ltb (uuid_text (uuid_pack ts1 b1)) (uuid_text (uuid_pack ts2 b2)) = true.
Proof.
  intros H1 H2 L1 L2 F1 F2.
  destruct (uuid_pack_shape ts1 b1) as (? & ? & ? & t1 & -> & _); [lia|done..|].
  destruct (uuid_pack_shape ts2 b2) as (? & ? & ? & t2 & -> & _); [lia|done..|].
  unfold uuid_text, str_ltb. rewrite !bytes_of_string_of. cbn [take drop app].
  destruct (ts_high ts1 ltac:(lia)) as [A1 A2], (ts_high ts2 ltac:(lia)) as [B1 B2].
  assert (forall ts k k' k'' k''', Forall (fun b => 0 <= b < 256) [ts_byte ts k; ts_byte ts k'; ts_byte ts k''; ts_byte ts k'''])
    as F4 by (intros; repeat constructor; apply ts_byte_range).
  assert (forall ts k k', Forall (fun b => 0 <= b < 256) [ts_byte ts k; ts_byte ts k'])
    as F2' by (intros; repeat constructor; apply ts_byte_range).
  destruct (Z_lt_le_dec (ts1 / 65536) (ts2 / 65536)) as [Hlt|Hge].
  - apply hex_prefix_ltb; [done|apply F4|apply F4|lia].
  - assert (ts1 / 65536 = ts2 / 65536) as E by euclid.
    rewrite bytes_ltb_app by done. apply orb_true_iff. right. apply andb_true_iff. split.
    + apply bool_decide_eq_true_2. f_equal.
      assert (forall k, k = 40 \/ k = 32 \/ k = 24 \/ k = 16 -> ts_byte ts1 k = ts_byte ts2 k) as Hk.
      { intros k Hk. unfold ts_byte. replace (2 ^ k) with (65536 * 2 ^ (k - 16)).
        - rewrite <- !Z.div_div by (try apply Z.pow_pos_nonneg; lia). by rewrite E.
        - change 65536 with (2 ^ 16). rewrite <- Z.pow_add_r by lia. f_equal. lia. }
      by rewrite !Hk by lia.
    + cbn [bytes_ltb]. rewrite Z.ltb_irrefl. apply hex_prefix_ltb; [done|apply F2'|apply F2'|euclid].
Qed.

(** * Properties *)

Section generated_ids.
Context (uuid_String : list Z -> string).
(** google/uuid documents [String] as the lower-case 8-4-4-4-12 hex form. *)
Hypothesis uuid_String_form : forall b, length b = 16%nat -> uuid_String b = uuid_text b.

Lemma uuid_pack_length ts b : length (uuid_pack ts b) = length b.
Proof. unfold uuid_pack. by rewrite !length_insert. Qed.

Lemma generate_valid ms b : 0 <= ms < 2 ^ 48 -> length b = 16%nat -> Forall (fun x => 0 <= x < 256) b ->
  GenerateUUIDv7From uuid_String ms (Some b) = Ok (uuid_text (uuid_pack ms b)) /\
  isUUIDv7 (uuid_text (uuid_pack ms b)) = true.
Proof.
  intros Hms Hlen Hf. assert (isUUIDv7 (uuid_text (uuid_pack ms b)) = true) as Hv.
  { pose proof (uuid_pack_length ms b) as Hl. destruct (uuid_pack_shape ms b) as (r6 & r7 & r8 & t & E & Ht & Hr & H6 & H8); [lia|done..|].
    rewrite E in *. inversion_clear Hr. apply uuid_text_v7; [lia| |done|done].
    apply Forall_app. split; [|done].
    repeat (apply Forall_cons; split; [first [apply ts_byte_range | lia]|]). constructor. }
  split; [|done]. unfold GenerateUUIDv7From.
  replace ((ms <? 0) || (2 ^ 48 <=? ms)) with false by lia.
  rewrite uuid_String_form, Hv by (by rewrite uuid_pack_length). done.
Qed.

(** generated identities are valid and sort by time.  For every clock
    reading in the 48-bit range and any sixteen bytes of entropy,
    [GenerateUUIDv7From] returns an identity that [ParseID] accepts, and an
    identity minted in an earlier millisecond is a smaller string, whatever the
    entropy of the two. *)
Theorem generated_ids_valid_and_time_ordered (ms1 ms2 : Z) (b1 b2 : list Z)
    (Hms : 0 <= ms1 < ms2) (Hrange : ms2 < 2 ^ 48)
    (H1 : length b1 = 16%nat /\ Forall (fun x => 0 <= x < 256) b1)
    (H2 : length b2 = 16%nat /\ Forall (fun x => 0 <= x < 256) b2) :
  exists id1 id2,
    GenerateUUIDv7From uuid_String ms1 (Some b1) = Ok id1 /\ ParseID id1 = Ok id1 /\
    GenerateUUIDv7From uuid_String ms2 (Some b2) = Ok id2 /\ ParseID id2 = Ok id2 /\
    str_ltb id1 id2 = true.
Proof.
  destruct H1 as [L1 F1], H2 as [L2 F2].
  destruct (generate_valid ms1 b1) as [G1 V1]; [lia|done..|].
  destruct (generate_valid ms2 b2) as [G2 V2]; [lia|done..|].
  eexists _, _. split; [exact G1|]. split; [by unfold ParseID; rewrite V1|].
  split; [exact G2|]. split; [by unfold ParseID; rewrite V2|]. by apply uuid_text_time_order.
Qed.
End generated_ids.

Lemma generated_ids_valid_and_time_ordered_witness :
  exists id1 id2, GenerateUUIDv7From uuid_text 1700000000000 (Some (replicate 16 255)) = Ok id1 /\
    GenerateUUIDv7From uuid_text 1700000000001 (Some (replicate 16 0)) = Ok id2 /\ str_ltb id1 id2 = true.
Proof.
  destruct (generated_ids_valid_and_time_ordered uuid_text ltac:(done) 1700000000000 1700000000001
    (replicate 16 255) (replicate 16 0)) as (id1 & id2 & G1 & _ & G2 & _ & Hlt);
    [lia|lia|split; [done|repeat constructor; lia]..|].
  exists id1, id2. split; [exact G1|]. split; [exact G2|exact Hlt].
Defined.
