(* ===== verification/Canonical.v ===== *)
(** Canonical JSON and digests: [product/domain/canonical.go] and the string
    encoder and digest text of [product/domain/digest.go].

    A [jvalue] is what [encoding/json] decodes with [UseNumber]: numbers are
    their text, an object is a list of entries with distinct keys in no
    particular order.  SHA-256 is a parameter. *)
From stdpp Require Import base list strings gmap sorting.
From Stdlib Require Import ZArith Lia Ascii.
From S2P Require Import Prelude GoText Exact.
#[local] Set Warnings "-register-all".
Open Scope Z_scope.

Inductive canonical_error := ErrInvalidCanonicalPayload | ErrInvalidDigest.

#[export] Instance canonical_error_eq_dec : EqDecision canonical_error.
Proof. solve_decision. Defined.

Inductive jvalue :=
| JNull
| JBool (b : bool)
| JString (s : string)
| JNumber (text : string)
| JArray (items : list jvalue)
| JObject (entries : list (string * jvalue)).

(** One iteration of the rune loop of [appendJCSString] *)
Definition jcs_rune (current : Z) : bytes :=
  if current =? 8 then bytes_of "\b"
  else if current =? 9 then bytes_of "\t"
  else if current =? 10 then bytes_of "\n"
  else if current =? 12 then bytes_of "\f"
  else if current =? 13 then bytes_of "\r"
  else if current =? 34 then [byte_of 92; byte_of 34]
  else if current =? 92 then bytes_of "\\"
  else if current <? 32 then
    bytes_of "\u00" ++ [hex_digit (Z.shiftr current 4); hex_digit (Z.land current 15)]
  else encode_rune current.

Definition quote : ascii := byte_of 34.

(** [appendJCSString] panics on a string that is not UTF-8. *)
Definition appendJCSString (buffer : bytes) (value : string) : outcome canonical_error bytes :=
  if negb (valid_utf8 value) then Panic
  else Ok (buffer ++ quote :: concat (map (fun c => jcs_rune c.1) (runes (bytes_of value))) ++ [quote]).

(** The separator before every element but the first *)
Definition separator (first : bool) : bytes := if first then [] else [","%char].

Fixpoint append_items (first : bool) (items : list (outcome canonical_error bytes)) : outcome canonical_error bytes :=
  match items with
  | [] => Ok []
  | item :: rest =>
      encoded ← item;
      tail ← append_items false rest;
      Ok (separator first ++ encoded ++ tail)
  end.

Fixpoint append_entries (first : bool) (entries : list (string * outcome canonical_error bytes)) : outcome canonical_error bytes :=
  match entries with
  | [] => Ok []
  | (key, item) :: rest =>
      name ← appendJCSString [] key;
      encoded ← item;
      tail ← append_entries false rest;
      Ok (separator first ++ name ++ ":"%char :: encoded ++ tail)
  end.

(** The bytes [appendCanonicalValue] appends.  Entries are encoded where they
    stand and visited in the order of their sorted keys. *)
Fixpoint canonical_value (value : jvalue) : outcome canonical_error bytes :=
  match value with
  | JNull => Ok (bytes_of "null")
  | JBool b => Ok (bytes_of (if b then "true" else "false"))
  | JString s => if negb (valid_utf8 s) then Fail ErrInvalidCanonicalPayload else appendJCSString [] s
  | JNumber text => if negb (isCanonicalDecimal text true) then Fail ErrInvalidCanonicalPayload else Ok (bytes_of text)
  | JArray items =>
      body ← append_items true (map canonical_value items);
      Ok ("["%char :: body ++ ["]"%char])
  | JObject entries =>
      body ← append_entries true (sort_by fst (map (fun e => (e.1, canonical_value e.2)) entries));
      Ok ("{"%char :: body ++ ["}"%char])
  end.

Definition appendCanonicalValue (buffer : bytes) (value : jvalue) : outcome canonical_error bytes :=
  encoded ← canonical_value value; Ok (buffer ++ encoded).

(** [json.Marshal] of a string replaces malformed bytes by U+FFFD. *)
Definition json_text (s : string) : string :=
  string_of (concat (map (fun c => encode_rune c.1) (runes (bytes_of s)))).

(** [payload] is the tree that marshalling and decoding the typed payload gives. *)
Definition CanonicalEnvelope (domainName schema : string) (payload : jvalue) : outcome canonical_error bytes :=
  if bool_decide (domainName = "") || bool_decide (schema = "") then Fail ErrInvalidCanonicalPayload
  else appendCanonicalValue []
    (JObject [("domain", JString (json_text domainName)); ("payload", payload); ("schema", JString (json_text schema))]).

Section digest.
(** [sha256.Sum256] *)
Variable sha256 : bytes -> list Z.

Definition CanonicalDigest (domainName schema : string) (payload : jvalue) : outcome canonical_error (bytes * string) :=
  canonical ← CanonicalEnvelope domainName schema payload;
  Ok (canonical, "sha256:" +:+ string_of (hex_encode (sha256 canonical))).
End digest.

Definition ParseDigest (value : string) : outcome canonical_error string :=
  if negb (go_len value =? 71) || negb (has_prefix value "sha256:") then Fail ErrInvalidDigest
  else if forallb (fun c => existsb (fun a => byte_val a =? c.1) (bytes_of "0123456789abcdef"))
            (runes (drop 7 (bytes_of value)))
  then Ok value
  else Fail ErrInvalidDigest.

(** * Induction over values *)

Section jvalue_induction.
Variable P : jvalue -> Prop.
Hypothesis Hnull : P JNull.
Hypothesis Hbool : forall b, P (JBool b).
Hypothesis Hstring : forall s, P (JString s).
Hypothesis Hnumber : forall text, P (JNumber text).
Hypothesis Harray : forall items, Forall P items -> P (JArray items).
Hypothesis Hobject : forall entries, Forall (fun e => P e.2) entries -> P (JObject entries).

Fixpoint jvalue_nested_ind (v : jvalue) : P v :=
  match v with
  | JNull => Hnull
  | JBool b => Hbool b
  | JString s => Hstring s
  | JNumber text => Hnumber text
  | JArray items =>
      Harray items ((fix go l : Forall P l :=
        match l with [] => Forall_nil_2 P | x :: l' => Forall_cons_2 P x l' (jvalue_nested_ind x) (go l') end) items)
  | JObject entries =>
      Hobject entries ((fix go l : Forall (fun e => P e.2) l :=
        match l with [] => Forall_nil_2 _ | x :: l' => Forall_cons_2 _ x l' (jvalue_nested_ind x.2) (go l') end) entries)
  end.
End jvalue_induction.

(** Two values with the same content: objects are equal as maps. *)
Inductive same_json : jvalue -> jvalue -> Prop :=
| same_null : same_json JNull JNull
| same_bool b : same_json (JBool b) (JBool b)
| same_string s : same_json (JString s) (JString s)
| same_number text : same_json (JNumber text) (JNumber text)
| same_array items items' : Forall2 same_json items items' -> same_json (JArray items) (JArray items')
| same_object entries entries' sorted sorted' :
    entries ≡ₚ sorted -> entries' ≡ₚ sorted' ->
    Forall2 (fun e e' => e.1 = e'.1 /\ same_json e.2 e'.2) sorted sorted' ->
    same_json (JObject entries) (JObject entries').

(** Object keys are distinct, as in a Go map. *)
Inductive json_wf : jvalue -> Prop :=
| wf_null : json_wf JNull
| wf_bool b : json_wf (JBool b)
| wf_string s : json_wf (JString s)
| wf_number text : json_wf (JNumber text)
| wf_array items : Forall json_wf items -> json_wf (JArray items)
| wf_object entries : NoDup (map fst entries) -> Forall (fun e => json_wf e.2) entries -> json_wf (JObject entries).

(** * Strings *)

(** The encoder, byte by byte *)
Definition escape_byte (a : ascii) : bytes := if is_ascii a then jcs_rune (byte_val a) else [a].

Lemma escape_byte_high l : Forall (fun a => 128 <= byte_val a) l -> concat (map escape_byte l) = l.
Proof.
  induction 1 as [|a l Ha _ IH]; [done|]. cbn. rewrite IH. unfold escape_byte, is_ascii.
  by replace (byte_val a <? 128) with false by lia.
Qed.

Lemma jcs_rune_bytes r : 0 <= r -> jcs_rune r = concat (map escape_byte (encode_rune r)).
Proof.
  intros Hr. destruct (Z.ltb_spec r 128).
  - rewrite encode_rune_low by lia. cbn. rewrite app_nil_r. unfold escape_byte, is_ascii.
    rewrite byte_val_of by lia. by replace (r <? 128) with true by lia.
  - rewrite escape_byte_high by (apply encode_rune_high; lia). unfold jcs_rune.
    repeat case_match; bool_prop; lia || done.
Qed.

Lemma jcs_body_bytes s : valid_utf8 s = true ->
  concat (map (fun c => jcs_rune c.1) (runes (bytes_of s))) = concat (map escape_byte (bytes_of s)).
Proof.
  intros Hv. pose proof (runes_encode _ Hv) as He. pose proof (runes_fuel_nonneg (length (bytes_of s)) (bytes_of s)) as Hn.
  fold (runes (bytes_of s)) in Hn. rewrite <- (runes_concat (bytes_of s)) at 2.
  revert He Hn. induction (runes (bytes_of s)) as [|[r b] l IH]; intros He Hn; [done|].
  inversion_clear He; inversion_clear Hn. cbn in *. subst b.
  rewrite map_app, concat_app, <- IH, jcs_rune_bytes by done. done.
Qed.

(** Read one escaped byte back. *)
Definition unescape (l : bytes) : option (ascii * bytes) :=
  let hex c := if byte_val c <? 58 then byte_val c - 48 else byte_val c - 87 in
  match l with
  | a :: rest =>
      if byte_val a =? 92 then
        match rest with
        | b :: rest' =>
            let v := byte_val b in
            if v =? 98 then Some (byte_of 8, rest')
            else if v =? 116 then Some (byte_of 9, rest')
            else if v =? 110 then Some (byte_of 10, rest')
            else if v =? 102 then Some (byte_of 12, rest')
            else if v =? 114 then Some (byte_of 13, rest')
            else if v =? 117 then
              match rest' with _ :: _ :: c :: d :: rest'' => Some (byte_of (16 * hex c + hex d), rest'') | _ => None end
            else Some (b, rest')
        | [] => None
        end
      else Some (a, rest)
  | [] => None
  end.

Lemma unescape_escape a rest : unescape (escape_byte a ++ rest) = Some (a, rest).
Proof. destruct a as [[] [] [] [] [] [] [] []]; reflexivity. Qed.

Lemma escape_byte_head a : exists b l, escape_byte a = b :: l /\ b <> quote.
Proof.
  assert (match escape_byte a with b :: _ => negb (Ascii.eqb b quote) | [] => false end = true) as H.
  { revert a. apply ascii_forall. vm_compute. reflexivity. }
  destruct (escape_byte a) as [|b l]; [done|]. exists b, l. split; [done|].
  apply negb_true_iff, Ascii.eqb_neq in H. done.
Qed.

(** The text of a string and what follows its closing quote are determined. *)
Lemma escape_inj l1 : forall l2 r1 r2,
  concat (map escape_byte l1) ++ quote :: r1 = concat (map escape_byte l2) ++ quote :: r2 -> l1 = l2 /\ r1 = r2.
Proof.
  induction l1 as [|a l1 IH]; intros [|b l2] r1 r2; cbn [map concat app].
  - intros E%(f_equal tail). by cbn in E.
  - destruct (escape_byte_head b) as (c & l & -> & Hc). cbn [app]. intros E%(f_equal head). cbn [head] in E. congruence.
  - destruct (escape_byte_head a) as (c & l & -> & Hc). cbn [app]. intros E%(f_equal head). cbn [head] in E. congruence.
  - rewrite <- !app_assoc. intros E. pose proof (f_equal unescape E) as E'.
    rewrite !unescape_escape in E'. injection E' as -> E'. apply IH in E' as [-> ->]. done.
Qed.

Lemma jcs_string_inj s1 s2 e1 e2 r1 r2 :
  appendJCSString [] s1 = Ok e1 -> appendJCSString [] s2 = Ok e2 -> e1 ++ r1 = e2 ++ r2 -> s1 = s2 /\ r1 = r2.
Proof.
  unfold appendJCSString. destruct (valid_utf8 s1) eqn:V1, (valid_utf8 s2) eqn:V2; try done.
  rewrite !jcs_body_bytes by done. cbn [negb app]. intros [= <-] [= <-] E. cbn [app] in E.
  rewrite <- !app_assoc in E. apply (f_equal tail) in E. cbn [tail app] in E. apply escape_inj in E as [E ->]. by apply bytes_of_inj in E as ->.
Qed.

(** * Values *)

Definition number_char (a : ascii) : bool := is_digit a || Ascii.eqb a "-"%char.

(** What follows a value inside a document cannot extend a number. *)
Definition stops (r : bytes) : bool := match r with [] => true | a :: _ => negb (number_char a) end.

Lemma span_unique (P : ascii -> bool) l1 : forall l2 r1 r2,
  forallb P l1 = true -> forallb P l2 = true ->
  match r1 with [] => true | a :: _ => negb (P a) end = true ->
  match r2 with [] => true | a :: _ => negb (P a) end = true ->
  l1 ++ r1 = l2 ++ r2 -> l1 = l2 /\ r1 = r2.
Proof.
  induction l1 as [|a l1 IH]; intros [|b l2] r1 r2 H1 H2 S1 S2; cbn in *; [done| | |]; bool_prop.
  - intros ->. cbn in S1. rewrite H in S1. done.
  - intros <-. cbn in S2. rewrite H in S2. done.
  - intros E. pose proof (f_equal head E) as Ea. apply (f_equal tail) in E. cbn in Ea, E. injection Ea as ->.
    by destruct (IH l2 r1 r2) as [-> ->].
Qed.

Lemma canonical_number_chars text : isCanonicalDecimal text true = true -> forallb number_char (bytes_of text) = true.
Proof.
  unfold isCanonicalDecimal. destruct (bytes_of text) as [|a l] eqn:E; [done|].
  assert (forall l, forallb is_digit l = true -> forallb number_char l = true) as Hd.
  { intros l' H. apply forallb_forall. intros x Hx. rewrite forallb_forall in H. unfold number_char. by rewrite H. }
  case_bool_decide; [subst; by injection E as <- <-|].
  destruct (Ascii.eqb a "-"%char) eqn:Ea.
  - destruct l as [|b l]; [done|]. cbn [negb orb]. destruct (Ascii.eqb b "0"%char); [done|]. intros H'.
    change (number_char a && forallb number_char (b :: l) = true). rewrite (Hd _ H'), andb_true_r.
    unfold number_char. by rewrite Ea, orb_true_r.
  - destruct (Ascii.eqb a "0"%char); [done|]. by apply Hd.
Qed.

(** The first byte tells the kind of value. *)
Definition lead (v : jvalue) (c : ascii) : bool :=
  match v with
  | JNull => Ascii.eqb c "n"%char
  | JBool true => Ascii.eqb c "t"%char
  | JBool false => Ascii.eqb c "f"%char
  | JString _ => Ascii.eqb c quote
  | JNumber _ => number_char c
  | JArray _ => Ascii.eqb c "["%char
  | JObject _ => Ascii.eqb c "{"%char
  end.

Lemma canonical_value_lead v e : canonical_value v = Ok e -> exists c l, e = c :: l /\ lead v c = true.
Proof.
  destruct v as [|[]|s|text|items|entries]; cbn [canonical_value].
  - intros [= <-]. cbn. eauto.
  - intros [= <-]. cbn. eauto.
  - intros [= <-]. cbn. eauto.
  - unfold appendJCSString. destruct (valid_utf8 s); [|done]. cbn. intros [= <-]. eauto using Ascii.eqb_refl.
  - destruct (isCanonicalDecimal text true) eqn:Hc; [|done]. intros [= <-].
    pose proof (canonical_number_chars _ Hc) as Hn. destruct (bytes_of text) as [|c l] eqn:E.
    + unfold isCanonicalDecimal in Hc. by rewrite E in Hc.
    + cbn in Hn. apply andb_true_iff in Hn as [Hn _]. eauto.
  - intros H. outcome_inv. subst e. eauto.
  - intros H. outcome_inv. subst e. eauto.
Qed.

Lemma lead_delimiters v c : lead v c = true ->
  c <> "]"%char /\ c <> "}"%char /\ c <> ","%char.
Proof.
  intros H. repeat split; intros ->; destruct v as [|[]| | | |]; vm_compute in H; done.
Qed.

Definition value_inj (v1 : jvalue) : Prop :=
  forall v2 e1 e2 r1 r2, canonical_value v1 = Ok e1 -> canonical_value v2 = Ok e2 ->
    stops r1 = true -> stops r2 = true -> e1 ++ r1 = e2 ++ r2 -> same_json v1 v2 /\ r1 = r2.

Lemma append_items_cons item rest first b : append_items first (item :: rest) = Ok b ->
  exists e b', item = Ok e /\ append_items false rest = Ok b' /\ b = separator first ++ e ++ b'.
Proof. cbn. intros H. outcome_inv. subst. eauto. Qed.

(** After an element of an array comes a comma or the closing bracket. *)
Lemma items_tail_stops (vs : list jvalue) b r : append_items false (map canonical_value vs) = Ok b -> stops (b ++ "]"%char :: r) = true.
Proof.
  destruct vs as [|v vs]; [intros [= <-]; reflexivity|].
  intros (e & b' & _ & _ & ->)%append_items_cons. reflexivity.
Qed.

Lemma items_inj l1 : Forall value_inj l1 -> forall l2 first b1 b2 r1 r2,
  append_items first (map canonical_value l1) = Ok b1 -> append_items first (map canonical_value l2) = Ok b2 ->
  b1 ++ "]"%char :: r1 = b2 ++ "]"%char :: r2 -> Forall2 same_json l1 l2 /\ r1 = r2.
Proof.
  assert (Hclash : forall v e first b r r', canonical_value v = Ok e ->
    (separator first ++ e ++ b) ++ r = "]"%char :: r' -> False).
  { intros v e first b r r' He E%(f_equal head). destruct (canonical_value_lead v e He) as (c & l & -> & Hc).
    apply lead_delimiters in Hc as (? & _ & _). destruct first; cbn in E; congruence. }
  induction 1 as [|v1 l1 Hv Hl IH]; intros [|v2 l2] first b1 b2 r1 r2 H1 H2 E.
  - cbn in *. injection H1 as <-. injection H2 as <-. apply (f_equal tail) in E. cbn in E. split; [constructor|done].
  - apply append_items_cons in H2 as (e & b' & He & _ & ->). injection H1 as <-. symmetry in E. exfalso. by eapply Hclash.
  - apply append_items_cons in H1 as (e & b' & He & _ & ->). injection H2 as <-. exfalso. by eapply Hclash.
  - apply append_items_cons in H1 as (e1 & t1 & He1 & Ht1 & ->), H2 as (e2 & t2 & He2 & Ht2 & ->).
    rewrite <- !app_assoc in E. apply app_inv_head in E.
    destruct (Hv v2 e1 e2 (t1 ++ "]"%char :: r1) (t2 ++ "]"%char :: r2)) as [Hsame Hrest]; try done;
      [by eapply items_tail_stops..|].
    destruct (IH l2 false t1 t2 r1 r2) as [Hitems ->]; [done..|]. split; [by constructor|done].
Qed.

Lemma append_entries_cons key item rest first b : append_entries first ((key, item) :: rest) = Ok b ->
  exists k e b', appendJCSString [] key = Ok k /\ item = Ok e /\ append_entries false rest = Ok b' /\
    b = separator first ++ k ++ ":"%char :: e ++ b'.
Proof. cbn -[appendJCSString]. intros H. outcome_inv. subst. eauto 10. Qed.

Definition encode_entry (e : string * jvalue) : string * outcome canonical_error bytes := (e.1, canonical_value e.2).

Lemma entries_tail_stops es b r : append_entries false (map encode_entry es) = Ok b -> stops (b ++ "}"%char :: r) = true.
Proof.
  destruct es as [|[k v] es]; [intros [= <-]; reflexivity|].
  intros (? & ? & ? & _ & _ & _ & ->)%append_entries_cons. reflexivity.
Qed.

Lemma jcs_string_lead key k : appendJCSString [] key = Ok k -> exists l, k = quote :: l.
Proof. unfold appendJCSString. destruct (valid_utf8 key); [|done]. cbn. intros [= <-]. eauto. Qed.

Lemma entries_inj l1 : Forall (fun e => value_inj e.2) l1 -> forall l2 first b1 b2 r1 r2,
  append_entries first (map encode_entry l1) = Ok b1 -> append_entries first (map encode_entry l2) = Ok b2 ->
  b1 ++ "}"%char :: r1 = b2 ++ "}"%char :: r2 ->
  Forall2 (fun e e' => e.1 = e'.1 /\ same_json e.2 e'.2) l1 l2 /\ r1 = r2.
Proof.
  assert (Hclash : forall key k first b r r', appendJCSString [] key = Ok k ->
    (separator first ++ k ++ b) ++ r = "}"%char :: r' -> False).
  { intros key k first b r r' Hk E%(f_equal head). destruct (jcs_string_lead key k Hk) as (l & ->).
    destruct first; vm_compute in E; done. }
  induction 1 as [|[k1 v1] l1 Hv Hl IH]; intros [|[k2 v2] l2] first b1 b2 r1 r2 H1 H2 E.
  - cbn in *. injection H1 as <-. injection H2 as <-. apply (f_equal tail) in E. cbn in E. split; [constructor|done].
  - apply append_entries_cons in H2 as (k & e & b' & Hk & _ & _ & ->). injection H1 as <-. symmetry in E. exfalso. by eapply Hclash.
  - apply append_entries_cons in H1 as (k & e & b' & Hk & _ & _ & ->). injection H2 as <-. exfalso. by eapply Hclash.
  - apply append_entries_cons in H1 as (n1 & e1 & t1 & Hn1 & He1 & Ht1 & ->), H2 as (n2 & e2 & t2 & Hn2 & He2 & Ht2 & ->).
    rewrite <- !app_assoc in E. apply app_inv_head in E.
    destruct (jcs_string_inj k1 k2 n1 n2 _ _ Hn1 Hn2 E) as [-> E'].
    apply (f_equal tail) in E'. cbn [tail app] in E'. rewrite <- !app_assoc in E'.
    destruct (Hv v2 e1 e2 (t1 ++ "}"%char :: r1) (t2 ++ "}"%char :: r2)) as [Hsame Hrest]; try done;
      [by eapply entries_tail_stops..|].
    destruct (IH l2 false t1 t2 r1 r2) as [Hitems ->]; [done..|]. split; [by constructor|done].
Qed.

(** Sorting encoded entries is encoding some order of the entries. *)
Lemma sort_encoded_entries entries :
  exists sorted, entries ≡ₚ sorted /\ sort_by fst (map encode_entry entries) = map encode_entry sorted.
Proof.
  pose proof (sort_by_perm fst (map encode_entry entries)) as Hp.
  apply Permutation_map_inv in Hp as (sorted & E & Hp'). eauto.
Qed.

Lemma canonical_object entries e : canonical_value (JObject entries) = Ok e ->
  exists sorted body, entries ≡ₚ sorted /\ append_entries true (map encode_entry sorted) = Ok body /\
    e = "{"%char :: body ++ ["}"%char].
Proof.
  destruct (sort_encoded_entries entries) as (sorted & Hp & E). cbn. fold encode_entry.
  change (map (fun e => (e.1, canonical_value e.2)) entries) with (map encode_entry entries). rewrite E.
  intros H. outcome_inv. subst. eauto.
Qed.

Lemma lead_kind v1 v2 c : lead v1 c = true -> lead v2 c = true ->
  match v1, v2 with
  | JNull, JNull | JString _, JString _ | JNumber _, JNumber _ | JArray _, JArray _ | JObject _, JObject _ => True
  | JBool b, JBool b' => b = b'
  | _, _ => False
  end.
Proof.
  destruct v1 as [|[]| | | |], v2 as [|[]| | | |]; cbn; try done; intros H1 H2;
    first [apply Ascii.eqb_eq in H1; subst c; vm_compute in H2; done
          |apply Ascii.eqb_eq in H2; subst c; vm_compute in H1; done].
Qed.

Lemma canonical_value_inj v1 : value_inj v1.
Proof.
  induction v1 as [|b|s|text|items IH|entries IH] using jvalue_nested_ind; intros v2 e1 e2 r1 r2 H1 H2 S1 S2 E.
  all: destruct (canonical_value_lead _ _ H1) as (c1 & t1 & Ht1 & L1), (canonical_value_lead _ _ H2) as (c2 & t2 & Ht2 & L2).
  all: assert (c1 = c2) as -> by (rewrite Ht1, Ht2 in E; apply (f_equal head) in E; cbn in E; congruence).
  all: clear Ht1 Ht2; pose proof (lead_kind _ _ _ L1 L2) as Hk; destruct v2; try done.
  - injection H1 as <-. injection H2 as <-. apply app_inv_head in E as ->. split; [constructor|done].
  - subst b0. injection H1 as <-. injection H2 as <-. apply app_inv_head in E as ->. split; [constructor|done].
  - cbn [canonical_value] in *. destruct (valid_utf8 s); [|done]. destruct (valid_utf8 s0); [|done].
    destruct (jcs_string_inj s s0 e1 e2 r1 r2) as [-> ->]; [done..|]. split; [constructor|done].
  - cbn in *. destruct (isCanonicalDecimal text true) eqn:C1, (isCanonicalDecimal text0 true) eqn:C2; try done.
    injection H1 as <-. injection H2 as <-.
    apply (span_unique number_char) in E as [->%bytes_of_inj ->]; auto using canonical_number_chars.
    split; [constructor|done].
  - cbn in H1, H2. apply bind_ok in H1 as (b1 & Hb1 & [= <-]), H2 as (b2 & Hb2 & [= <-]).
    apply (f_equal tail) in E. cbn [tail app] in E. rewrite <- !app_assoc in E.
    destruct (items_inj items IH items0 true b1 b2 r1 r2) as [Hi ->]; [done..|]. split; [by constructor|done].
  - apply canonical_object in H1 as (s1 & b1 & P1 & Hb1 & ->), H2 as (s2 & b2 & P2 & Hb2 & ->).
    apply (f_equal tail) in E. cbn [tail app] in E. rewrite <- !app_assoc in E.
    destruct (entries_inj s1 ltac:(by rewrite <- P1) s2 true b1 b2 r1 r2) as [Hi ->]; [done..|].
    split; [by econstructor|done].
Qed.

(** ** The encoding does not depend on the order of object entries *)

Lemma nodup_fst_inj {B} (l : list (string * B)) x y :
  NoDup (map fst l) -> x ∈ l -> y ∈ l -> x.1 = y.1 -> x = y.
Proof.
  induction l as [|z l IH]; cbn; intros Hnd Hx Hy E; [by apply elem_of_nil in Hx|].
  apply NoDup_cons in Hnd as [Hz Hnd].
  apply elem_of_cons in Hx as [->|Hx], Hy as [->|Hy]; [done| | |by apply IH];
    exfalso; apply Hz; [rewrite E|rewrite <- E]; apply (list_elem_of_fmap_2 fst); done.
Qed.

Lemma sort_by_fst_unique {B} (l l' : list (string * B)) :
  NoDup (map fst l) -> l ≡ₚ l' -> sort_by fst l = sort_by fst l'.
Proof.
  intros Hnd Hp. apply (StronglySorted_unique_strong (key_le fst)).
  - intros x y Hx Hy H1 H2. rewrite sort_by_perm in Hx, Hy. rewrite <- Hp in Hy.
    apply (nodup_fst_inj l); [done..|]. by apply (anti_symm str_le).
  - apply sort_by_sorted.
  - apply sort_by_sorted.
  - by rewrite !sort_by_perm.
Qed.

Lemma map_fst_encode entries : map fst (map encode_entry entries) = map fst entries.
Proof. induction entries as [|e l IH]; [done|]. cbn. by rewrite IH. Qed.

Lemma canonical_value_same v1 : forall v2,
  same_json v1 v2 -> json_wf v1 -> json_wf v2 -> canonical_value v1 = canonical_value v2.
Proof.
  induction v1 as [|b|s|text|items IH|entries IH] using jvalue_nested_ind; intros v2 Hs Hw1 Hw2;
    inversion Hs as [| | | |? items' Hf|? entries' s1 s2 P1 P2 Hf]; subst; try done.
  - inversion Hw1 as [| | | |? W1|]; inversion Hw2 as [| | | |? W2|]; subst. cbn. do 2 f_equal.
    clear Hs Hw1 Hw2. induction Hf as [|x y l l' Hxy Hf IHf]; [done|].
    inversion IH; inversion W1; inversion W2; subst. cbn. f_equal; auto.
  - inversion Hw1 as [| | | | |? N1 W1]; inversion Hw2 as [| | | | |? N2 W2]; subst.
    assert (map encode_entry s1 = map encode_entry s2) as E.
    { rewrite P1 in IH, W1. rewrite P2 in W2. clear - Hf IH W1 W2.
      induction Hf as [|[k x] [k' y] l l' [Hk Hxy] Hf IHf]; [done|]. cbn in Hk, Hxy. subst k'.
      apply Forall_cons in IH as [Hx IH], W1 as [Wx W1], W2 as [Wy W2]. cbn in *.
      unfold encode_entry at 1 3. cbn. rewrite (Hx y), IHf by done. done. }
    cbn. change (map (fun e => (e.1, canonical_value e.2)) entries) with (map encode_entry entries).
    change (map (fun e => (e.1, canonical_value e.2)) entries') with (map encode_entry entries').
    rewrite (sort_by_fst_unique (map encode_entry entries) (map encode_entry entries')); [done| |].
    + by rewrite map_fst_encode.
    + rewrite P1, P2, E. done.
Qed.

(** Entries of one key in two objects with the same content correspond. *)
Lemma same_object_lookup entries entries' k v v' :
  same_json (JObject entries) (JObject entries') -> NoDup (map fst entries') ->
  (k, v) ∈ entries -> (k, v') ∈ entries' -> same_json v v'.
Proof.
  intros Hs Hnd Hv Hv'. inversion Hs as [| | | | |? ? s1 s2 P1 P2 Hf]; subst. rewrite P1 in Hv.
  apply list_elem_of_lookup in Hv as [i Hi]. destruct (Forall2_lookup_l _ _ _ _ _ Hf Hi) as ([k' w] & Hw & Hk & Hsame).
  cbn in *. subst k'. apply list_elem_of_lookup_2 in Hw. rewrite <- P2 in Hw.
  by pose proof (nodup_fst_inj entries' (k, w) (k, v') Hnd Hw Hv' eq_refl) as [= ->].
Qed.

(** * Properties *)

(** C40: canonical bytes identify the payload.  Two payloads of distinct-key JSON
    have the same canonical bytes under the same domain and schema exactly when
    they have the same content: the encoding neither depends on the order of
    object entries nor confuses two different payloads. *)
Theorem canonical_envelope_injective (domainName schema : string) (p1 p2 : jvalue) (b1 b2 : bytes)
    (W1 : json_wf p1) (W2 : json_wf p2)
    (H1 : CanonicalEnvelope domainName schema p1 = Ok b1) (H2 : CanonicalEnvelope domainName schema p2 = Ok b2) :
  b1 = b2 <-> same_json p1 p2.
Proof.
  unfold CanonicalEnvelope, appendCanonicalValue in H1, H2. case_match; [done|].
  apply bind_ok in H1 as (e1 & H1 & [= <-]), H2 as (e2 & H2 & [= <-]). cbn [app].
  set (env p := JObject [("domain", JString (json_text domainName)); ("payload", p); ("schema", JString (json_text schema))]) in *.
  assert (forall p : jvalue, NoDup (map fst [("domain", JString (json_text domainName)); ("payload", p); ("schema", JString (json_text schema))])) as Hnd
    by (intros p; apply (bool_decide_unpack _); vm_compute; exact I).
  assert (forall p, json_wf p -> json_wf (env p)) as Hwf.
  { intros p Hp. constructor; [apply Hnd|]. repeat (apply Forall_cons; split; [try done; constructor|]). constructor. }
  split.
  - intros ->. destruct (canonical_value_inj (env p1) (env p2) e2 e2 [] []) as [Hs _]; [done..|].
    eapply (same_object_lookup _ _ "payload"); [exact Hs|apply Hnd|set_solver..].
  - intros Hs. assert (same_json (env p1) (env p2)) as Henv.
    { econstructor; [reflexivity..|]. repeat constructor. done. }
    pose proof (canonical_value_same _ _ Henv (Hwf p1 W1) (Hwf p2 W2)) as E. unfold env in E. congruence.
Qed.

Lemma canonical_envelope_injective_witness :
  same_json (JObject [("b", JNumber "1"); ("a", JNull)]) (JObject [("a", JNull); ("b", JNumber "1")]).
Proof.
  eapply (canonical_envelope_injective "d" "s"); [| |vm_compute; reflexivity|vm_compute; reflexivity|vm_compute; reflexivity].
  - constructor; [apply (bool_decide_unpack _); vm_compute; exact I|repeat constructor].
  - constructor; [apply (bool_decide_unpack _); vm_compute; exact I|repeat constructor].
Defined.

(** A canonical digest is a well-formed digest.  Whatever the payload,
    [CanonicalDigest] either reports that the payload is not canonical or returns
    a text that [ParseDigest] accepts, given that SHA-256 sums are 32 bytes. *)
Lemma canonical_digest_parses (sha256 : bytes -> list Z) (domainName schema : string) (payload : jvalue)
    (Hsum : forall b, length (sha256 b) = 32%nat /\ Forall (fun x => 0 <= x < 256) (sha256 b))
    (canonical : bytes) (digest : string)
    (H : CanonicalDigest sha256 domainName schema payload = Ok (canonical, digest)) :
  CanonicalEnvelope domainName schema payload = Ok canonical /\ ParseDigest digest = Ok digest.
Proof.
  unfold CanonicalDigest in H. apply bind_ok in H as (c & Hc & [= <- <-]). split; [done|].
  destruct (Hsum c) as [Hlen Hr]. pose proof (hex_encode_lower_hex _ Hr) as Hhex.
  unfold ParseDigest, go_len, has_prefix. rewrite !bytes_of_app, !bytes_of_string_of, length_app, length_hex_encode, Hlen.
  rewrite take_app_length. cbn [length bytes_of Nat.add Nat.mul].
  rewrite bool_decide_eq_true_2 by done. cbn [negb orb Z.eqb].
  change (drop 7 (bytes_of "sha256:" ++ hex_encode (sha256 c))) with (hex_encode (sha256 c)).
  rewrite runes_ascii by (by apply forallb_lower_hex_ascii).
  rewrite (proj2 (forallb_forall _ _)); [done|].
  intros [r b] (a & [= <- <-] & Ha)%in_map_iff. rewrite forallb_forall in Hhex. cbn [fst].
  rewrite lower_hex_member. auto.
Qed.

