(* ===== verification/EditModel.v ===== *)
(** Editing vocabulary: the entity states of [product/domain/edit.go],
    [caption_derivation.go] and [media.go], and the request and state types of
    [product/application/edits.go] and [edit_normalize.go].

    A Go string type with a fixed set of constants is an inductive type; its
    last constructor holds a text that is none of the constants.  Identities are
    their text, the empty text being the zero identity.  A pointer is an
    [option].  [EditEntityKind] stays a string because keys and sorting use its
    text. *)
From stdpp Require Import base list strings gmap sorting.
From Stdlib Require Import ZArith Lia Ascii.
From S2P Require Import Prelude GoText Exact Identity Canonical.
Open Scope Z_scope.

(** ** Kinds *)

Definition EditEntityKind := string.
Definition EntityNarrativeDocument : EditEntityKind := "narrative-document".
Definition EntityNarrativeNode : EditEntityKind := "narrative-node".
Definition EntitySequence : EditEntityKind := "sequence".
Definition EntityTrack : EditEntityKind := "track".
Definition EntityCaption : EditEntityKind := "caption".
Definition EntityAlignment : EditEntityKind := "alignment".
Definition EntityClip : EditEntityKind := "clip".
Definition EntityLinkGroup : EditEntityKind := "link-group".
Definition EntityAsset : EditEntityKind := "asset".
Definition EntityTranscriptCorrection : EditEntityKind := "transcript-correction".

Inductive EditOperationType :=
| EditInsertSection | EditUpdateSection | EditInsertAuthoredText | EditUpdateAuthoredText
| EditInsertVisualIntent | EditUpdateVisualIntent | EditInsertNote | EditUpdateNote
| EditMoveNarrativeNode | EditRemoveNarrativeNode
| EditAddCaption | EditUpdateCaption | EditRemoveCaption
| EditBindAlignment | EditMarkAlignmentStale | EditUnbindAlignment | EditRemapAlignment
| EditAddClip | EditMoveClip | EditTrimClip | EditSplitClip | EditRemoveClip
| EditSetClipPlacement | EditLinkClips | EditUnlinkClips
| EditAddTranscriptCorrection | EditUpdateTranscriptCorrection | EditRemoveTranscriptCorrection
| EditInsertSourceExcerpt | EditDeriveCaptions | EditDeriveRoughCut
| EditOtherOperation (text : string).

#[export] Instance EditOperationType_eq_dec : EqDecision EditOperationType.
Proof. solve_decision. Defined.

Inductive TrackType := TrackVideo | TrackAudio | TrackCaption | TrackOther (text : string).
#[export] Instance TrackType_eq_dec : EqDecision TrackType.
Proof. solve_decision. Defined.

Inductive MediaType :=
| MediaVideo | MediaAudio | MediaSubtitle | MediaData | MediaAttachment | MediaOther
| MediaUnknown (text : string).
#[export] Instance MediaType_eq_dec : EqDecision MediaType.
Proof. solve_decision. Defined.

Inductive AlignmentStatus := AlignmentExact | AlignmentStale | AlignmentUnbound | AlignmentOther (text : string).
#[export] Instance AlignmentStatus_eq_dec : EqDecision AlignmentStatus.
Proof. solve_decision. Defined.

Inductive ClipMutationScope := ClipScopeLinked | ClipScopeSingle | ClipScopeOther (text : string).
#[export] Instance ClipMutationScope_eq_dec : EqDecision ClipMutationScope.
Proof. solve_decision. Defined.

Inductive AuthoredTextPurpose := AuthoredTextSpoken | AuthoredTextOnScreen | AuthoredTextOther (text : string).
#[export] Instance AuthoredTextPurpose_eq_dec : EqDecision AuthoredTextPurpose.
Proof. solve_decision. Defined.

Inductive VisualIntentPurpose :=
| VisualIntentBRoll | VisualIntentComposition | VisualIntentReplacement | VisualIntentOther (text : string).
#[export] Instance VisualIntentPurpose_eq_dec : EqDecision VisualIntentPurpose.
Proof. solve_decision. Defined.

Inductive ActorKind := ActorCreator | ActorAgent | ActorOther (text : string).
#[export] Instance ActorKind_eq_dec : EqDecision ActorKind.
Proof. solve_decision. Defined.

Record ActorRef := mkActor { actor_Kind : ActorKind; actor_CreatorID : option string; actor_AgentID : option string }.

(** ** Clips and link groups *)

Record ClipPlacement := mkPlacement {
  pl_CropX : Z; pl_CropY : Z; pl_CropWidth : Z; pl_CropHeight : Z;
  pl_ScaleX : ExactRational; pl_ScaleY : ExactRational;
  pl_TranslateX : ExactRational; pl_TranslateY : ExactRational;
  pl_Opacity : Z }.

#[export] Instance ClipPlacement_eq_dec : EqDecision ClipPlacement.
Proof. solve_decision. Defined.

Record ClipState := mkClip {
  clip_ID : string; clip_Revision : Z; clip_SequenceID : string; clip_TrackID : string;
  clip_AssetID : string; clip_SourceStreamID : string;
  clip_SourceRange : TimeRange; clip_TimelineRange : TimeRange;
  clip_Enabled : bool; clip_LinkGroupID : option string;
  clip_Placement : option ClipPlacement; clip_Tombstoned : bool }.

#[export] Instance ClipState_eq_dec : EqDecision ClipState.
Proof. solve_decision. Defined.

Record LinkGroupState := mkGroup {
  group_ID : string; group_Revision : Z; group_SequenceID : string; group_Tombstoned : bool }.

#[export] Instance LinkGroupState_eq_dec : EqDecision LinkGroupState.
Proof. solve_decision. Defined.

(** ** Captions *)

Record TranscriptCorrectionRevisionRef := mkCorrectionRef { cref_ID : string; cref_Revision : Z }.

Record CaptionDerivationPolicy := mkCaptionPolicy {
  cp_ID : string; cp_MaximumLines : Z; cp_MaximumLineGraphemes : Z;
  cp_MinimumDuration : RationalTime; cp_MaximumDuration : RationalTime; cp_MaximumGap : RationalTime;
  cp_MaximumReadingRate : Z; cp_BoundaryPolicy : string; cp_TimingPolicy : string; cp_UnicodeSegmentationID : string }.

Record CaptionDerivationProvenance := mkDerivation {
  cd_SourceExcerptID : string; cd_SourceExcerptRevision : Z; cd_AssetID : string; cd_AcceptedFingerprint : string;
  cd_ArtifactID : string; cd_SourceStreamID : string; cd_SegmentIDs : list string;
  cd_CorrectionRevisions : list TranscriptCorrectionRevisionRef; cd_ClipID : string; cd_ClipRevision : Z;
  cd_ClipSourceRange : TimeRange; cd_ClipTimelineRange : TimeRange; cd_EvidenceSourceRange : TimeRange;
  cd_Policy : CaptionDerivationPolicy; cd_DerivedRange : TimeRange; cd_DerivedLanguage : string; cd_DerivedText : string }.

Inductive CaptionProvenanceKind := ProvenanceManual | ProvenanceTranscriptDerivation | ProvenanceOther (text : string).

Record CaptionProvenance := mkProvenance {
  prov_Kind : CaptionProvenanceKind; prov_Derivation : option CaptionDerivationProvenance }.

Inductive CaptionContentStatus := CaptionContentExact | CaptionContentModified.
Inductive CaptionEvidenceStatus := CaptionEvidenceExact | CaptionEvidenceStale.
Record CaptionProvenanceStatus := mkProvenanceStatus {
  ps_Content : CaptionContentStatus; ps_Evidence : CaptionEvidenceStatus }.

Record CaptionState := mkCaption {
  caption_ID : string; caption_Revision : Z; caption_SequenceID : string; caption_TrackID : string;
  caption_Range : TimeRange; caption_Language : string; caption_Text : string;
  caption_Provenance : CaptionProvenance; caption_ProvenanceStatus : option CaptionProvenanceStatus;
  caption_Tombstoned : bool }.

(** ** Alignments *)

Record CaptionAlignmentTarget := mkCaptionTarget { ct_CaptionID : string; ct_CaptionRevision : Z; ct_LocalRange : TimeRange }.
Record ClipAlignmentTarget := mkClipTarget { kt_ClipID : string; kt_ClipRevision : Z; kt_LocalRange : TimeRange }.
Record TimelineAlignmentTarget := mkTimelineTarget { tt_SequenceRevision : Z; tt_Range : TimeRange }.

(** The Go struct is a tagged union: [Type] and the one pointer it names. *)
Inductive AlignmentTarget :=
| TargetCaption (target : CaptionAlignmentTarget)
| TargetClip (target : ClipAlignmentTarget)
| TargetTimeline (target : TimelineAlignmentTarget).

Record AlignmentState := mkAlignment {
  al_ID : string; al_Revision : Z; al_NarrativeNodeID : string; al_NarrativeNodeRevision : Z;
  al_SequenceID : string; al_Targets : list AlignmentTarget; al_Status : AlignmentStatus }.

(** ** Narrative nodes and transcript corrections *)

Record NarrativeSectionState := mkSection {
  sec_ID : string; sec_Revision : Z; sec_DocumentID : string; sec_ParentID : option string;
  sec_AfterNodeID : option string; sec_Title : string; sec_Language : string; sec_Tombstoned : bool }.

Record AuthoredTextState := mkAuthoredText {
  txt_ID : string; txt_Revision : Z; txt_DocumentID : string; txt_ParentID : string;
  txt_AfterNodeID : option string; txt_Purpose : AuthoredTextPurpose; txt_Language : string; txt_Text : string;
  txt_Tombstoned : bool }.

Record VisualIntentState := mkVisualIntent {
  vis_ID : string; vis_Revision : Z; vis_DocumentID : string; vis_ParentID : string;
  vis_AfterNodeID : option string; vis_Purpose : VisualIntentPurpose; vis_Language : string; vis_Description : string;
  vis_Tombstoned : bool }.

Record NoteState := mkNote {
  note_ID : string; note_Revision : Z; note_DocumentID : string; note_ParentID : string;
  note_AfterNodeID : option string; note_Language : string; note_Text : string; note_Tombstoned : bool }.

Record SourceExcerptTranscriptEvidence := mkEvidence {
  ev_ArtifactID : string; ev_SourceStreamID : string; ev_SegmentIDs : list string;
  ev_CorrectionRevisions : list TranscriptCorrectionRevisionRef }.

Record SourceExcerptState := mkExcerpt {
  exc_ID : string; exc_Revision : Z; exc_DocumentID : string; exc_ParentID : string; exc_AfterNodeID : option string;
  exc_AssetID : string; exc_AcceptedFingerprint : string; exc_SourceRange : TimeRange; exc_Language : string;
  exc_EffectiveText : string; exc_Evidence : SourceExcerptTranscriptEvidence; exc_Tombstoned : bool }.

(** [NarrativeNodeState]: [Kind] and the one pointer it names. *)
Inductive NarrativeNodeState :=
| NodeSection (value : NarrativeSectionState)
| NodeAuthoredText (value : AuthoredTextState)
| NodeSourceExcerpt (value : SourceExcerptState)
| NodeVisualIntent (value : VisualIntentState)
| NodeNote (value : NoteState).

Record TranscriptCorrectionState := mkCorrection {
  cor_ID : string; cor_Revision : Z; cor_AssetID : string; cor_ArtifactID : string; cor_SegmentIDs : list string;
  cor_SourceRange : TimeRange; cor_ReplacementText : string; cor_Language : string; cor_Tombstoned : bool }.

(** ** Normalized operations *)

Inductive NormalizedEditOperation :=
| PutNarrativeNode (state : NarrativeNodeState)
| PutTranscriptCorrection (state : TranscriptCorrectionState)
| PutCaption (state : CaptionState)
| PutAlignment (state : AlignmentState)
| PutClip (state : ClipState)
| PutLinkGroup (state : LinkGroupState).

Record EntityRevisionChange := mkChange {
  ch_Kind : EditEntityKind; ch_ID : string; ch_Before : option Z; ch_After : Z; ch_Tombstoned : bool }.

Record EntityPrecondition := mkPrecondition { pre_Kind : EditEntityKind; pre_ID : string; pre_Revision : Z }.
Record LocalAllocation := mkAllocation { alloc_Local : string; alloc_Kind : EditEntityKind; alloc_ID : string }.

(** ** Requests *)

Record EditReference := mkReference { ref_ID : string; ref_Local : option string }.

Inductive AlignmentTargetType :=
| AlignmentTargetCaption | AlignmentTargetClip | AlignmentTargetTimeline | AlignmentTargetOther (text : string).

Record AlignmentTargetInput := mkTargetInput {
  ti_Type : AlignmentTargetType; ti_Caption : option EditReference; ti_Clip : option EditReference;
  ti_LocalRange : option TimeRange; ti_TimelineRange : option TimeRange; ti_SequenceRevision : option Z }.

Record ClipSplitOutputInput := mkSplitOutput { so_Clip : EditReference; so_LeftAs : string; so_RightAs : string }.

Record TranscriptCorrectionReferenceInput := mkCorrectionInput {
  cri_Correction : EditReference; cri_Revision : option Z }.

Record DerivedCaptionOutputInput := mkDerivedCaption {
  dc_CaptionAs : string; dc_AlignmentAs : string; dc_SourceRange : TimeRange; dc_TimelineRange : TimeRange;
  dc_Text : string }.

Record RoughCutLaneBindingInput := mkLane { lane_TrackID : string; lane_SourceStreamID : string }.

Record RoughCutDerivationItemInput := mkRoughCutItem {
  item_SourceExcerptID : string; item_Video : option RoughCutLaneBindingInput;
  item_Audio : option RoughCutLaneBindingInput }.

Record DerivedRoughCutLaneOutputInput := mkLaneOutput {
  lo_ClipAs : string; lo_TrackID : string; lo_SourceStreamID : string }.

Record DerivedRoughCutOutputInput := mkRoughCutOutput {
  rc_SourceExcerptID : string; rc_SourceRange : TimeRange; rc_TimelineRange : TimeRange;
  rc_Video : option DerivedRoughCutLaneOutputInput; rc_Audio : option DerivedRoughCutLaneOutputInput;
  rc_LinkGroupAs : option string; rc_AlignmentAs : string }.

Record RoughCutDerivationPolicy := mkRoughCutPolicy {
  rp_ID : string; rp_Ordering : string; rp_InterExcerptGap : RationalTime; rp_SourceHandles : string;
  rp_Rate : string; rp_Overwrite : string; rp_AVGrouping : string }.

#[export] Instance RoughCutDerivationPolicy_eq_dec : EqDecision RoughCutDerivationPolicy.
Proof. solve_decision. Defined.

Record EditOperationInput := mkOperation {
  op_Type : EditOperationType;
  op_CreateAs : option string;
  op_NodeID : option string;
  op_ParentID : option string;
  op_After : option EditReference;
  op_Title : option string;
  op_Text : option string;
  op_Description : option string;
  op_AuthoredTextPurpose : option AuthoredTextPurpose;
  op_VisualIntentPurpose : option VisualIntentPurpose;
  op_CaptionID : option string;
  op_TrackID : option string;
  op_Range : option TimeRange;
  op_Language : option string;
  op_AlignmentID : option string;
  op_NarrativeNode : option EditReference;
  op_AlignmentTargets : list AlignmentTargetInput;
  op_AssetID : option string;
  op_SourceStreamID : option string;
  op_SourceRange : option TimeRange;
  op_TimelineRange : option TimeRange;
  op_Enabled : option bool;
  op_Placement : option ClipPlacement;
  op_CreateLinkGroupAs : option string;
  op_LeftLinkGroupAs : option string;
  op_RightLinkGroupAs : option string;
  op_LinkGroup : option EditReference;
  op_Clip : option EditReference;
  op_Clips : list EditReference;
  op_Scope : option ClipMutationScope;
  op_TimelineStart : option RationalTime;
  op_SplitAt : option RationalTime;
  op_SplitOutputs : list ClipSplitOutputInput;
  op_TranscriptCorrectionID : option string;
  op_TranscriptArtifactID : option string;
  op_TranscriptSegmentIDs : list string;
  op_CorrectionRevisions : list TranscriptCorrectionReferenceInput;
  op_AcceptedFingerprint : option string;
  op_CaptionPolicy : option CaptionDerivationPolicy;
  op_DerivedCaptions : list DerivedCaptionOutputInput;
  op_RoughCutPolicy : option RoughCutDerivationPolicy;
  op_RoughCutTimelineStart : option RationalTime;
  op_RoughCutLocalPrefix : option string;
  op_RoughCutItems : list RoughCutDerivationItemInput;
  op_DerivedRoughCut : list DerivedRoughCutOutputInput;
  op_RoughCutOutputDigest : option string }.

(** The zero [EditOperationInput] of a type, which composite literals start from *)
Definition empty_operation (type : EditOperationType) : EditOperationInput :=
  mkOperation type None None None None None None None None None None None None None None None []
    None None None None None None None None None None None [] None None None [] None None [] []
    None None [] None None None [] [] None.

Record EditProposeInput := mkProposeInput {
  pi_RequestID : string; pi_Intent : string; pi_BaseProjectRevision : Z;
  pi_Preconditions : list EntityPrecondition; pi_Operations : list EditOperationInput }.

(** ** Media facts and project state the normalizer reads *)

(** The fields of [SourceStreamDescriptor] that editing reads *)
Record SourceStreamDescriptor := mkDescriptor {
  sd_MediaType : MediaType; sd_StartTime : option RationalTime; sd_Duration : option RationalTime }.

Record EditTrackState := mkTrack {
  track_ID : string; track_SequenceID : string; track_Revision : Z; track_Type : TrackType }.

Record EditSourceStreamState := mkStream {
  stream_ID : string; stream_AssetID : string; stream_AssetRevision : Z; stream_Descriptor : SourceStreamDescriptor }.

(** [domain.TranscriptToken]: the fields that evidence resolution reads *)
Record TranscriptToken := mkToken { tok_SourceRange : TimeRange; tok_Text : string }.

Record EditTranscriptSegmentState := mkSegment {
  seg_ID : string; seg_Ordinal : Z; seg_SourceRange : TimeRange; seg_Text : string;
  seg_Tokens : list TranscriptToken }.

Record EditTranscriptArtifactState := mkArtifact {
  art_ID : string; art_AssetID : string; art_Fingerprint : string; art_SourceStreamID : string;
  art_Language : string; art_Segments : gmap string EditTranscriptSegmentState }.

Inductive SourceExcerptEvidenceStatus :=
| SourceExcerptEvidenceExact | SourceExcerptEvidenceStale | SourceExcerptEvidenceOther (text : string).
#[export] Instance SourceExcerptEvidenceStatus_eq_dec : EqDecision SourceExcerptEvidenceStatus.
Proof. solve_decision. Defined.

Record EditNormalizationState := mkState {
  st_ProjectID : string; st_ProjectRevision : Z;
  st_DocumentID : string; st_DocumentRevision : Z;
  st_SequenceID : string; st_SequenceRevision : Z;
  st_Sections : gmap string NarrativeSectionState;
  st_Tracks : gmap string EditTrackState;
  st_AuthoredTexts : gmap string AuthoredTextState;
  st_SourceExcerpts : gmap string SourceExcerptState;
  st_VisualIntents : gmap string VisualIntentState;
  st_Notes : gmap string NoteState;
  st_SectionChildCounts : gmap string Z;
  st_SourceExcerptEvidence : gmap string SourceExcerptEvidenceStatus;
  st_TranscriptArtifacts : gmap string EditTranscriptArtifactState;
  st_TranscriptCorrections : gmap string TranscriptCorrectionState;
  st_Captions : gmap string CaptionState;
  st_Clips : gmap string ClipState;
  st_LinkGroups : gmap string LinkGroupState;
  st_LinkGroupClips : gmap string (list string);
  st_SourceStreams : gmap string EditSourceStreamState;
  st_Alignments : gmap string AlignmentState;
  st_NodeAlignments : gmap string (list string);
  st_CaptionAlignments : gmap string (list string);
  st_ClipAlignments : gmap string (list string) }.

Record NormalizeEditInput := mkInput {
  in_ProposalID : string; in_ProjectID : string; in_SequenceID : string; in_RunID : string; in_TurnID : string;
  in_Actor : ActorRef; in_Allocation : list LocalAllocation; in_Input : EditProposeInput;
  in_CreatedAtIsZero : bool;
  in_State : EditNormalizationState }.

(** ** Third-party code the model calls

    SHA-256, the extended grapheme cluster count of rivo/uniseg, and
    [language.Parse] of golang.org/x/text: the canonical text of the tag and how
    many extensions it carries, [None] for a tag that does not parse. *)
Class Platform := {
  platform_sha256 : bytes -> list Z;
  GraphemeClusterCount : string -> Z;
  language_Parse : string -> option (string * Z) }.
