(* ===== verification/Timeline.v ===== *)
(** Intervals of exact time and clip placement: the range helpers of
    [product/application/edit_normalize_helpers.go] and
    [edit_normalize_clip_mutations.go], and [ClipPlacement] of
    [product/domain/edit.go]. *)
From stdpp Require Import base list strings gmap sorting.
From Stdlib Require Import ZArith QArith Lia Lqa Ascii.
From S2P Require Import Prelude GoText Exact Identity Canonical EditModel.
Open Scope Z_scope.

(** The errors of the edit application; [ErrDurableID] and [ErrEncoding] are
    errors of identity parsing and of canonical encoding passed through. *)
Inductive edit_error := ErrEditInvalid | ErrEditConflict | ErrDurableID | ErrEncoding.
#[export] Instance edit_error_eq_dec : EqDecision edit_error.
Proof. solve_decision. Defined.

Definition valid_time (t : RationalTime) : bool := is_ok (RationalTime_Validate t).

(** The value of a comparison whose error was already excluded; 0 otherwise, as
    Go leaves it. *)
Definition cmp_or_zero (r : outcome exact_error Z) : Z := match r with Ok c => c | _ => 0 end.

Definition rangeWithin (local : TimeRange) (duration : RationalTime) : bool :=
  if negb (valid_time (tr_Start local)) || IsNegative (tr_Start local) ||
     negb (valid_time (tr_Duration local)) || negb (IsPositive (tr_Duration local)) || negb (valid_time duration)
  then false
  else match End local with
       | Ok e => match RationalTime_Compare e duration with Ok c => c <=? 0 | _ => false end
       | _ => false
       end.

Definition sourceRangeWithin (source : TimeRange) (descriptor : SourceStreamDescriptor) : bool :=
  if negb (valid_time (tr_Start source)) || negb (valid_time (tr_Duration source)) || negb (IsPositive (tr_Duration source))
  then false
  else match End source with
  | Ok sourceEnd =>
      match NewRationalTime 0 1 with
      | Ok zero =>
          if match sd_StartTime descriptor with Some start => negb (valid_time start) | None => false end then false
          else
            let coverageStart := default zero (sd_StartTime descriptor) in
            match RationalTime_Compare (tr_Start source) coverageStart with
            | Ok startsWithin =>
                if startsWithin <? 0 then false
                else match sd_Duration descriptor with
                | None => true
                | Some duration =>
                    if negb (valid_time duration) || IsNegative duration then false
                    else match Add coverageStart duration with
                    | Ok coverageEnd =>
                        match RationalTime_Compare sourceEnd coverageEnd with Ok c => c <=? 0 | _ => false end
                    | _ => false
                    end
                end
            | _ => false
            end
      | _ => false
      end
  | _ => false
  end.

Definition rangesOverlap (left right : TimeRange) : bool :=
  match End left, End right with
  | Ok leftEnd, Ok rightEnd =>
      match RationalTime_Compare (tr_Start left) rightEnd with
      | Ok leftBeforeRightEnd =>
          match RationalTime_Compare (tr_Start right) leftEnd with
          | Ok rightBeforeLeftEnd => (leftBeforeRightEnd <? 0) && (rightBeforeLeftEnd <? 0)
          | _ => true
          end
      | _ => true
      end
  | _, _ => true
  end.

Definition rangeWithBoundaryDeltas (current : TimeRange) (left right : RationalTime) : outcome edit_error TimeRange :=
  start ← or_fail ErrEditInvalid (Add (tr_Start current) left);
  _ ← guard_or ErrEditInvalid (negb (IsNegative start));
  end_ ← or_fail ErrEditInvalid (End current);
  end_ ← or_fail ErrEditInvalid (Add end_ right);
  duration ← or_fail ErrEditInvalid (Subtract end_ start);
  _ ← guard_or ErrEditInvalid (IsPositive duration);
  or_fail ErrEditInvalid (NewTimeRange start duration).

Definition sameBoundaryDelta (current next : TimeRange) (left right : RationalTime) : bool :=
  match End current, End next with
  | Ok currentEnd, Ok nextEnd =>
      match Subtract (tr_Start next) (tr_Start current) with
      | Ok actualLeft =>
          match Subtract nextEnd currentEnd with
          | Ok actualRight =>
              match RationalTime_Compare actualLeft left, RationalTime_Compare actualRight right with
              | Ok leftComparison, Ok rightComparison => (leftComparison =? 0) && (rightComparison =? 0)
              | _, _ => false
              end
          | _ => false
          end
      | _ => false
      end
  | _, _ => false
  end.

Definition equalTimeRange (left right : TimeRange) : bool :=
  match RationalTime_Compare (tr_Start left) (tr_Start right), RationalTime_Compare (tr_Duration left) (tr_Duration right) with
  | Ok start, Ok duration => (start =? 0) && (duration =? 0)
  | _, _ => false
  end.

Definition trackAcceptsStream (track : EditTrackState) (stream : EditSourceStreamState) : bool :=
  (bool_decide (track_Type track = TrackVideo) && bool_decide (sd_MediaType (stream_Descriptor stream) = MediaVideo)) ||
  (bool_decide (track_Type track = TrackAudio) && bool_decide (sd_MediaType (stream_Descriptor stream) = MediaAudio)).

(** ** Clip placement *)

Inductive placement_error := ErrInvalidPlacement.

Definition ClipPlacementScaleLimit : Z := 100.
Definition ClipPlacementTranslateLimit : Z := 10.

Definition placement_scale_ok (scale : ExactRational) : bool :=
  negb (negb (is_ok (ExactRational_Validate scale)) || (er_Value scale <=? 0) ||
        (to_int64 (er_Scale scale * ClipPlacementScaleLimit) <? er_Value scale)).

Definition placement_translate_ok (translate : ExactRational) : bool :=
  negb (negb (is_ok (ExactRational_Validate translate)) ||
        (to_uint64 (to_uint64 (er_Scale translate) * ClipPlacementTranslateLimit) <? absInt64 (er_Value translate))).

Definition ClipPlacement_Validate (placement : ClipPlacement) : outcome placement_error unit :=
  if (pl_CropWidth placement <? 1) || (pl_CropHeight placement <? 1) ||
     (10000 <? to_uint32 (pl_CropX placement + pl_CropWidth placement)) ||
     (10000 <? to_uint32 (pl_CropY placement + pl_CropHeight placement))
  then Fail ErrInvalidPlacement
  else if 10000 <? pl_Opacity placement then Fail ErrInvalidPlacement
  else if negb (forallb placement_scale_ok [pl_ScaleX placement; pl_ScaleY placement]) then Fail ErrInvalidPlacement
  else if negb (forallb placement_translate_ok [pl_TranslateX placement; pl_TranslateY placement]) then Fail ErrInvalidPlacement
  else Ok tt.

Definition IdentityClipPlacement : ClipPlacement :=
  mkPlacement 0 0 10000 10000 (mkExact 1 1) (mkExact 1 1) (mkExact 0 1) (mkExact 0 1) 10000.

Definition IsIdentity (placement : ClipPlacement) : bool := bool_decide (placement = IdentityClipPlacement).

(** * Meaning of ranges *)

Definition range_typed (r : TimeRange) : Prop := rt_typed (tr_Start r) /\ rt_typed (tr_Duration r).

(** The half-open interval of seconds a range stands for *)
Definition start_Q (r : TimeRange) : Q := rt_Q (tr_Start r).
Definition end_Q (r : TimeRange) : Q := (rt_Q (tr_Start r) + rt_Q (tr_Duration r))%Q.

(** A range with valid endpoints and positive length *)
Definition range_ok (r : TimeRange) : Prop :=
  rt_valid (tr_Start r) /\ rt_valid (tr_Duration r) /\ (0 < rt_Q (tr_Duration r))%Q /\
  exists e, End r = Ok e /\ rt_valid e /\ (rt_Q e == end_Q r)%Q.

Lemma range_ok_intro r e :
  range_typed r -> End r = Ok e -> IsPositive (tr_Duration r) = true -> range_ok r.
Proof.
  intros [Ts Td] He Hp. destruct (Add_ok _ _ _ Ts Td He) as (Vs & Vd & Ve & Hq).
  split; [exact Vs|]. split; [exact Vd|]. split; [by apply IsPositive_Q|]. exists e. auto.
Qed.

Definition disjoint_ranges (l r : TimeRange) : Prop := (end_Q l <= start_Q r)%Q \/ (end_Q r <= start_Q l)%Q.

Lemma rangesOverlap_spec l r : range_ok l -> range_ok r -> rangesOverlap l r = false <-> disjoint_ranges l r.
Proof.
  intros (Vsl & Vdl & Pl & el & Hel & Vel & Ql) (Vsr & Vdr & Pr & er & Her & Ver & Qr).
  unfold rangesOverlap, disjoint_ranges, start_Q. rewrite Hel, Her.
  destruct (Compare_valid (tr_Start l) er Vsl Ver) as (c1 & -> & H1 & _).
  destruct (Compare_valid (tr_Start r) el Vsr Vel) as (c2 & -> & H2 & _).
  rewrite andb_false_iff, !Z.ltb_ge. split.
  - intros [H|H]; [right|left]; apply Qnot_lt_le; intros Hlt.
    + assert (c1 < 0) by (apply H1; lra). lia.
    + assert (c2 < 0) by (apply H2; lra). lia.
  - intros [H|H]; [right|left]; apply Z.nlt_ge; intros Hlt.
    + apply H2 in Hlt. lra.
    + apply H1 in Hlt. lra.
Qed.
