(* ===== verification/EditState.v ===== *)
(** The edit normalizer: its state, the effects its methods run in, and the
    helpers of [product/application/edit_normalize_helpers.go] and the head of
    [edit_normalize.go].

    [editNormalizer] is the mutable struct; a method is a computation of type
    [M A]: it reads and replaces the struct, and returns a value, an error
    (an [edit_error]: the reason text is dropped), or
    panics (a nil dereference, or [mustNext] on the largest revision).  A map
    read of a missing key gives the zero value.  The Go code copies every value
    it stores, so no two entities share storage. *)
From stdpp Require Import base list strings gmap sorting.
From Stdlib Require Import ZArith Lia Ascii.
From S2P Require Import Prelude GoText Exact Identity Canonical EditModel Timeline.
Open Scope Z_scope.

Record editNormalizer := mkNormalizer {
  n_input : NormalizeEditInput;
  n_allocations : gmap string LocalAllocation;
  n_conditions : gmap string Z;
  n_sections : gmap string NarrativeSectionState;
  n_texts : gmap string AuthoredTextState;
  n_sourceExcerpts : gmap string SourceExcerptState;
  n_visualIntents : gmap string VisualIntentState;
  n_notes : gmap string NoteState;
  n_sectionChildren : gmap string Z;
  n_corrections : gmap string TranscriptCorrectionState;
  n_captions : gmap string CaptionState;
  n_clips : gmap string ClipState;
  n_linkGroups : gmap string LinkGroupState;
  n_linkGroupClips : gmap string (list string);
  n_alignments : gmap string AlignmentState;
  n_touched : gset string;
  n_alignmentEffects : gmap string AlignmentStatus;
  n_operations : list NormalizedEditOperation;
  n_inverse : list NormalizedEditOperation;
  n_changes : list EntityRevisionChange;
  n_narrativeChanged : bool;
  n_sequenceChanged : bool;
  n_parentChanges : gmap string Z;
  n_trackChanges : gmap string Z }.

(** Assignments to one field *)
Definition on_sections (f : gmap string NarrativeSectionState -> gmap string NarrativeSectionState) (n : editNormalizer) : editNormalizer :=
  mkNormalizer (n_input n) (n_allocations n) (n_conditions n) (f (n_sections n)) (n_texts n) (n_sourceExcerpts n)
  (n_visualIntents n) (n_notes n) (n_sectionChildren n) (n_corrections n) (n_captions n) (n_clips n) (n_linkGroups n)
  (n_linkGroupClips n) (n_alignments n) (n_touched n) (n_alignmentEffects n) (n_operations n) (n_inverse n)
  (n_changes n) (n_narrativeChanged n) (n_sequenceChanged n) (n_parentChanges n) (n_trackChanges n).
Definition on_texts (f : gmap string AuthoredTextState -> gmap string AuthoredTextState) (n : editNormalizer) : editNormalizer :=
  mkNormalizer (n_input n) (n_allocations n) (n_conditions n) (n_sections n) (f (n_texts n)) (n_sourceExcerpts n)
  (n_visualIntents n) (n_notes n) (n_sectionChildren n) (n_corrections n) (n_captions n) (n_clips n) (n_linkGroups n)
  (n_linkGroupClips n) (n_alignments n) (n_touched n) (n_alignmentEffects n) (n_operations n) (n_inverse n)
  (n_changes n) (n_narrativeChanged n) (n_sequenceChanged n) (n_parentChanges n) (n_trackChanges n).
Definition on_sourceExcerpts (f : gmap string SourceExcerptState -> gmap string SourceExcerptState) (n : editNormalizer) : editNormalizer :=
  mkNormalizer (n_input n) (n_allocations n) (n_conditions n) (n_sections n) (n_texts n) (f (n_sourceExcerpts n))
  (n_visualIntents n) (n_notes n) (n_sectionChildren n) (n_corrections n) (n_captions n) (n_clips n) (n_linkGroups n)
  (n_linkGroupClips n) (n_alignments n) (n_touched n) (n_alignmentEffects n) (n_operations n) (n_inverse n)
  (n_changes n) (n_narrativeChanged n) (n_sequenceChanged n) (n_parentChanges n) (n_trackChanges n).
Definition on_visualIntents (f : gmap string VisualIntentState -> gmap string VisualIntentState) (n : editNormalizer) : editNormalizer :=
  mkNormalizer (n_input n) (n_allocations n) (n_conditions n) (n_sections n) (n_texts n) (n_sourceExcerpts n)
  (f (n_visualIntents n)) (n_notes n) (n_sectionChildren n) (n_corrections n) (n_captions n) (n_clips n)
  (n_linkGroups n) (n_linkGroupClips n) (n_alignments n) (n_touched n) (n_alignmentEffects n) (n_operations n)
  (n_inverse n) (n_changes n) (n_narrativeChanged n) (n_sequenceChanged n) (n_parentChanges n) (n_trackChanges n).
Definition on_notes (f : gmap string NoteState -> gmap string NoteState) (n : editNormalizer) : editNormalizer :=
  mkNormalizer (n_input n) (n_allocations n) (n_conditions n) (n_sections n) (n_texts n) (n_sourceExcerpts n)
  (n_visualIntents n) (f (n_notes n)) (n_sectionChildren n) (n_corrections n) (n_captions n) (n_clips n)
  (n_linkGroups n) (n_linkGroupClips n) (n_alignments n) (n_touched n) (n_alignmentEffects n) (n_operations n)
  (n_inverse n) (n_changes n) (n_narrativeChanged n) (n_sequenceChanged n) (n_parentChanges n) (n_trackChanges n).
Definition on_sectionChildren (f : gmap string Z -> gmap string Z) (n : editNormalizer) : editNormalizer :=
  mkNormalizer (n_input n) (n_allocations n) (n_conditions n) (n_sections n) (n_texts n) (n_sourceExcerpts n)
  (n_visualIntents n) (n_notes n) (f (n_sectionChildren n)) (n_corrections n) (n_captions n) (n_clips n)
  (n_linkGroups n) (n_linkGroupClips n) (n_alignments n) (n_touched n) (n_alignmentEffects n) (n_operations n)
  (n_inverse n) (n_changes n) (n_narrativeChanged n) (n_sequenceChanged n) (n_parentChanges n) (n_trackChanges n).
Definition on_corrections (f : gmap string TranscriptCorrectionState -> gmap string TranscriptCorrectionState) (n : editNormalizer) : editNormalizer :=
  mkNormalizer (n_input n) (n_allocations n) (n_conditions n) (n_sections n) (n_texts n) (n_sourceExcerpts n)
  (n_visualIntents n) (n_notes n) (n_sectionChildren n) (f (n_corrections n)) (n_captions n) (n_clips n)
  (n_linkGroups n) (n_linkGroupClips n) (n_alignments n) (n_touched n) (n_alignmentEffects n) (n_operations n)
  (n_inverse n) (n_changes n) (n_narrativeChanged n) (n_sequenceChanged n) (n_parentChanges n) (n_trackChanges n).
Definition on_captions (f : gmap string CaptionState -> gmap string CaptionState) (n : editNormalizer) : editNormalizer :=
  mkNormalizer (n_input n) (n_allocations n) (n_conditions n) (n_sections n) (n_texts n) (n_sourceExcerpts n)
  (n_visualIntents n) (n_notes n) (n_sectionChildren n) (n_corrections n) (f (n_captions n)) (n_clips n)
  (n_linkGroups n) (n_linkGroupClips n) (n_alignments n) (n_touched n) (n_alignmentEffects n) (n_operations n)
  (n_inverse n) (n_changes n) (n_narrativeChanged n) (n_sequenceChanged n) (n_parentChanges n) (n_trackChanges n).
Definition on_clips (f : gmap string ClipState -> gmap string ClipState) (n : editNormalizer) : editNormalizer :=
  mkNormalizer (n_input n) (n_allocations n) (n_conditions n) (n_sections n) (n_texts n) (n_sourceExcerpts n)
  (n_visualIntents n) (n_notes n) (n_sectionChildren n) (n_corrections n) (n_captions n) (f (n_clips n))
  (n_linkGroups n) (n_linkGroupClips n) (n_alignments n) (n_touched n) (n_alignmentEffects n) (n_operations n)
  (n_inverse n) (n_changes n) (n_narrativeChanged n) (n_sequenceChanged n) (n_parentChanges n) (n_trackChanges n).
Definition on_linkGroups (f : gmap string LinkGroupState -> gmap string LinkGroupState) (n : editNormalizer) : editNormalizer :=
  mkNormalizer (n_input n) (n_allocations n) (n_conditions n) (n_sections n) (n_texts n) (n_sourceExcerpts n)
  (n_visualIntents n) (n_notes n) (n_sectionChildren n) (n_corrections n) (n_captions n) (n_clips n)
  (f (n_linkGroups n)) (n_linkGroupClips n) (n_alignments n) (n_touched n) (n_alignmentEffects n) (n_operations n)
  (n_inverse n) (n_changes n) (n_narrativeChanged n) (n_sequenceChanged n) (n_parentChanges n) (n_trackChanges n).
Definition on_linkGroupClips (f : gmap string (list string) -> gmap string (list string)) (n : editNormalizer) : editNormalizer :=
  mkNormalizer (n_input n) (n_allocations n) (n_conditions n) (n_sections n) (n_texts n) (n_sourceExcerpts n)
  (n_visualIntents n) (n_notes n) (n_sectionChildren n) (n_corrections n) (n_captions n) (n_clips n) (n_linkGroups n)
  (f (n_linkGroupClips n)) (n_alignments n) (n_touched n) (n_alignmentEffects n) (n_operations n) (n_inverse n)
  (n_changes n) (n_narrativeChanged n) (n_sequenceChanged n) (n_parentChanges n) (n_trackChanges n).
Definition on_alignments (f : gmap string AlignmentState -> gmap string AlignmentState) (n : editNormalizer) : editNormalizer :=
  mkNormalizer (n_input n) (n_allocations n) (n_conditions n) (n_sections n) (n_texts n) (n_sourceExcerpts n)
  (n_visualIntents n) (n_notes n) (n_sectionChildren n) (n_corrections n) (n_captions n) (n_clips n) (n_linkGroups n)
  (n_linkGroupClips n) (f (n_alignments n)) (n_touched n) (n_alignmentEffects n) (n_operations n) (n_inverse n)
  (n_changes n) (n_narrativeChanged n) (n_sequenceChanged n) (n_parentChanges n) (n_trackChanges n).
Definition on_touched (f : gset string -> gset string) (n : editNormalizer) : editNormalizer :=
  mkNormalizer (n_input n) (n_allocations n) (n_conditions n) (n_sections n) (n_texts n) (n_sourceExcerpts n)
  (n_visualIntents n) (n_notes n) (n_sectionChildren n) (n_corrections n) (n_captions n) (n_clips n) (n_linkGroups n)
  (n_linkGroupClips n) (n_alignments n) (f (n_touched n)) (n_alignmentEffects n) (n_operations n) (n_inverse n)
  (n_changes n) (n_narrativeChanged n) (n_sequenceChanged n) (n_parentChanges n) (n_trackChanges n).
Definition on_alignmentEffects (f : gmap string AlignmentStatus -> gmap string AlignmentStatus) (n : editNormalizer) : editNormalizer :=
  mkNormalizer (n_input n) (n_allocations n) (n_conditions n) (n_sections n) (n_texts n) (n_sourceExcerpts n)
  (n_visualIntents n) (n_notes n) (n_sectionChildren n) (n_corrections n) (n_captions n) (n_clips n) (n_linkGroups n)
  (n_linkGroupClips n) (n_alignments n) (n_touched n) (f (n_alignmentEffects n)) (n_operations n) (n_inverse n)
  (n_changes n) (n_narrativeChanged n) (n_sequenceChanged n) (n_parentChanges n) (n_trackChanges n).
Definition on_operations (f : list NormalizedEditOperation -> list NormalizedEditOperation) (n : editNormalizer) : editNormalizer :=
  mkNormalizer (n_input n) (n_allocations n) (n_conditions n) (n_sections n) (n_texts n) (n_sourceExcerpts n)
  (n_visualIntents n) (n_notes n) (n_sectionChildren n) (n_corrections n) (n_captions n) (n_clips n) (n_linkGroups n)
  (n_linkGroupClips n) (n_alignments n) (n_touched n) (n_alignmentEffects n) (f (n_operations n)) (n_inverse n)
  (n_changes n) (n_narrativeChanged n) (n_sequenceChanged n) (n_parentChanges n) (n_trackChanges n).
Definition on_inverse (f : list NormalizedEditOperation -> list NormalizedEditOperation) (n : editNormalizer) : editNormalizer :=
  mkNormalizer (n_input n) (n_allocations n) (n_conditions n) (n_sections n) (n_texts n) (n_sourceExcerpts n)
  (n_visualIntents n) (n_notes n) (n_sectionChildren n) (n_corrections n) (n_captions n) (n_clips n) (n_linkGroups n)
  (n_linkGroupClips n) (n_alignments n) (n_touched n) (n_alignmentEffects n) (n_operations n) (f (n_inverse n))
  (n_changes n) (n_narrativeChanged n) (n_sequenceChanged n) (n_parentChanges n) (n_trackChanges n).
Definition on_changes (f : list EntityRevisionChange -> list EntityRevisionChange) (n : editNormalizer) : editNormalizer :=
  mkNormalizer (n_input n) (n_allocations n) (n_conditions n) (n_sections n) (n_texts n) (n_sourceExcerpts n)
  (n_visualIntents n) (n_notes n) (n_sectionChildren n) (n_corrections n) (n_captions n) (n_clips n) (n_linkGroups n)
  (n_linkGroupClips n) (n_alignments n) (n_touched n) (n_alignmentEffects n) (n_operations n) (n_inverse n)
  (f (n_changes n)) (n_narrativeChanged n) (n_sequenceChanged n) (n_parentChanges n) (n_trackChanges n).
Definition on_narrativeChanged (f : bool -> bool) (n : editNormalizer) : editNormalizer :=
  mkNormalizer (n_input n) (n_allocations n) (n_conditions n) (n_sections n) (n_texts n) (n_sourceExcerpts n)
  (n_visualIntents n) (n_notes n) (n_sectionChildren n) (n_corrections n) (n_captions n) (n_clips n) (n_linkGroups n)
  (n_linkGroupClips n) (n_alignments n) (n_touched n) (n_alignmentEffects n) (n_operations n) (n_inverse n)
  (n_changes n) (f (n_narrativeChanged n)) (n_sequenceChanged n) (n_parentChanges n) (n_trackChanges n).
Definition on_sequenceChanged (f : bool -> bool) (n : editNormalizer) : editNormalizer :=
  mkNormalizer (n_input n) (n_allocations n) (n_conditions n) (n_sections n) (n_texts n) (n_sourceExcerpts n)
  (n_visualIntents n) (n_notes n) (n_sectionChildren n) (n_corrections n) (n_captions n) (n_clips n) (n_linkGroups n)
  (n_linkGroupClips n) (n_alignments n) (n_touched n) (n_alignmentEffects n) (n_operations n) (n_inverse n)
  (n_changes n) (n_narrativeChanged n) (f (n_sequenceChanged n)) (n_parentChanges n) (n_trackChanges n).
Definition on_parentChanges (f : gmap string Z -> gmap string Z) (n : editNormalizer) : editNormalizer :=
  mkNormalizer (n_input n) (n_allocations n) (n_conditions n) (n_sections n) (n_texts n) (n_sourceExcerpts n)
  (n_visualIntents n) (n_notes n) (n_sectionChildren n) (n_corrections n) (n_captions n) (n_clips n) (n_linkGroups n)
  (n_linkGroupClips n) (n_alignments n) (n_touched n) (n_alignmentEffects n) (n_operations n) (n_inverse n)
  (n_changes n) (n_narrativeChanged n) (n_sequenceChanged n) (f (n_parentChanges n)) (n_trackChanges n).
Definition on_trackChanges (f : gmap string Z -> gmap string Z) (n : editNormalizer) : editNormalizer :=
  mkNormalizer (n_input n) (n_allocations n) (n_conditions n) (n_sections n) (n_texts n) (n_sourceExcerpts n)
  (n_visualIntents n) (n_notes n) (n_sectionChildren n) (n_corrections n) (n_captions n) (n_clips n) (n_linkGroups n)
  (n_linkGroupClips n) (n_alignments n) (n_touched n) (n_alignmentEffects n) (n_operations n) (n_inverse n)
  (n_changes n) (n_narrativeChanged n) (n_sequenceChanged n) (n_parentChanges n) (f (n_trackChanges n)).

(** ** Effects *)

Definition M (A : Type) : Type := editNormalizer -> outcome edit_error (A * editNormalizer).

#[export] Instance M_ret : MRet M := fun A a n => Ok (a, n).
#[export] Instance M_bind : MBind M := fun A B k m n =>
  match m n with
  | Ok (a, n') => k a n'
  | Fail e => Fail e
  | Panic => Panic
  end.

Definition reads {A} (f : editNormalizer -> A) : M A := fun n => Ok (f n, n).
Definition modify (f : editNormalizer -> editNormalizer) : M unit := fun n => Ok (tt, f n).
Definition lift {A} (r : outcome edit_error A) : M A := fun n =>
  match r with Ok a => Ok (a, n) | Fail e => Fail e | Panic => Panic end.
(** [if !b { return ErrEditInvalid }] *)
Definition check (b : bool) : M unit := lift (guard_or ErrEditInvalid b).
(** [*pointer] *)
Definition deref {A} (pointer : option A) : M A :=
  lift match pointer with Some a => Ok a | None => Panic end.
(** A call whose every error becomes [ErrEditInvalid] *)
Definition or_invalid {E A} (r : outcome E A) : M A := lift (or_fail ErrEditInvalid r).

(** A method call whose every error becomes [ErrEditInvalid] *)
Definition or_invalid_m {A} (m : M A) : M A := fun n =>
  match m n with Ok r => Ok r | Fail _ => Fail ErrEditInvalid | Panic => Panic end.

Fixpoint for_each {A} (items : list A) (body : A -> M unit) : M unit :=
  match items with
  | [] => mret tt
  | item :: rest => body item ;; for_each rest body
  end.

(** ** Zero values *)

Definition zero_time : RationalTime := mkTime 0 0.
Definition zero_range : TimeRange := mkRange zero_time zero_time.
Definition zero_allocation : LocalAllocation := mkAllocation "" "" "".
Definition zero_track : EditTrackState := mkTrack "" "" 0 (TrackOther "").
Definition zero_stream : EditSourceStreamState := mkStream "" "" 0 (mkDescriptor (MediaUnknown "") None None).
Definition zero_section : NarrativeSectionState := mkSection "" 0 "" None None "" "" false.
Definition zero_clip : ClipState := mkClip "" 0 "" "" "" "" zero_range zero_range false None None false.
Definition zero_group : LinkGroupState := mkGroup "" 0 "" false.
Definition zero_caption : CaptionState :=
  mkCaption "" 0 "" "" zero_range "" "" (mkProvenance (ProvenanceOther "") None) None false.

(** [m[key]] *)
Definition at_key {A} (zero : A) (m : gmap string A) (key : string) : A := default zero (m !! key).

(** ** Keys *)

Definition nul : string := String Ascii.zero "".
Definition entityKey (kind : EditEntityKind) (id : string) : string := kind +:+ nul +:+ id.

(** [strings.Cut(value, nul)] *)
Fixpoint splitEntityKey (value : string) : EditEntityKind * string :=
  match value with
  | EmptyString => ("", "")
  | String a rest =>
      if Ascii.eqb a Ascii.zero then ("", rest)
      else let '(kind, id) := splitEntityKey rest in (String a kind, id)
  end.

(** The identities of one kind among the touched keys *)
Definition touched_ids (kind : EditEntityKind) (touched : gset string) : list string :=
  omap (fun key => let '(k, id) := splitEntityKey key in if bool_decide (k = kind) then Some id else None)
    (elements touched).

Definition known_kind (kind : EditEntityKind) : bool :=
  bool_decide (kind ∈ [EntityNarrativeDocument; EntityNarrativeNode; EntitySequence; EntityTrack; EntityCaption;
    EntityAlignment; EntityClip; EntityLinkGroup; EntityAsset; EntityTranscriptCorrection]).

Definition validateEntityID (kind : EditEntityKind) (value : string) : outcome edit_error unit :=
  if negb (known_kind kind) then Fail ErrEditInvalid
  else or_fail ErrEditInvalid (_ ← ParseID value; Ok tt).

(** ** Helpers *)

Definition mustNext (revision : Z) : outcome edit_error Z :=
  match Revision_Next revision with Ok next => Ok next | _ => Panic end.

Definition newEntityChange (kind : EditEntityKind) (id : string) (after : Z) (tombstoned : bool) : EntityRevisionChange :=
  mkChange kind id None after tombstoned.
Definition existingEntityChange (kind : EditEntityKind) (id : string) (before after : Z) (tombstoned : bool) : EntityRevisionChange :=
  mkChange kind id (Some before) after tombstoned.

Definition appendOperation (operation inverse : NormalizedEditOperation) : M unit :=
  modify (on_operations (fun l => l ++ [operation])) ;;
  modify (on_inverse (fun l => l ++ [inverse])).

Definition appendChange (change : EntityRevisionChange) : M unit := modify (on_changes (fun l => l ++ [change])).

Definition markTouched (kind : EditEntityKind) (id : string) : M unit :=
  touched ← reads n_touched;
  check (bool_decide (entityKey kind id ∉ touched)) ;;
  modify (on_touched (fun t => {[ entityKey kind id ]} ∪ t)).

Definition require (kind : EditEntityKind) (id : string) (revision : Z) : M unit :=
  conditions ← reads n_conditions;
  match conditions !! entityKey kind id with
  | None => lift (Fail ErrEditInvalid)
  | Some provided => if provided =? revision then mret tt else lift (Fail ErrEditConflict)
  end.

Definition resolveReference (reference : EditReference) (kind : EditEntityKind) : M string :=
  if bool_decide (ref_ID reference <> "") then
    lift (validateEntityID kind (ref_ID reference)) ;; mret (ref_ID reference)
  else match ref_Local reference with
  | None => lift (Fail ErrEditInvalid)
  | Some local =>
      allocations ← reads n_allocations;
      match allocations !! local with
      | Some allocation =>
          if bool_decide (alloc_Kind allocation = kind) then mret (alloc_ID allocation) else lift (Fail ErrEditInvalid)
      | None => lift (Fail ErrEditInvalid)
      end
  end.

(** [resolveReference] followed by the parse of the kind's identity, whose error
    is returned as it is *)
Definition resolve_id (kind : EditEntityKind) (reference : EditReference) : M string :=
  value ← resolveReference reference kind;
  lift (or_fail ErrDurableID (ParseID value)).
Definition resolveNodeReference : EditReference -> M string := resolve_id EntityNarrativeNode.
Definition resolveCaptionReference : EditReference -> M string := resolve_id EntityCaption.
Definition resolveClipReference : EditReference -> M string := resolve_id EntityClip.

(** [normalizer.allocations[local]] *)
Definition allocation_of (local : string) : M LocalAllocation :=
  allocations ← reads n_allocations; mret (at_key zero_allocation allocations local).

(** [id, _ := Parse...ID(value)]: the zero identity when the text is not one *)
Definition parse_or_zero (value : string) : string := match ParseID value with Ok id => id | _ => "" end.

Definition state_of {A} (f : EditNormalizationState -> A) : M A := reads (fun n => f (in_State (n_input n))).
Definition sequence_id : M string := reads (fun n => in_SequenceID (n_input n)).
Definition track_of (id : string) : M EditTrackState := state_of (fun s => at_key zero_track (st_Tracks s) id).
Definition stream_of (id : string) : M EditSourceStreamState := state_of (fun s => at_key zero_stream (st_SourceStreams s) id).
Definition clip_of (id : string) : M ClipState := reads (fun n => at_key zero_clip (n_clips n) id).
Definition group_of (id : string) : M LinkGroupState := reads (fun n => at_key zero_group (n_linkGroups n) id).
Definition members_of (group : string) : M (list string) := reads (fun n => at_key [] (n_linkGroupClips n) group).

Definition next_of (revision : Z) : M Z := lift (mustNext revision).

(** The first revision, [NewRevision(1)] *)
Definition first_revision : Z := 1.

(** ** Construction *)

Fixpoint allocation_map (allocations : gmap string LocalAllocation) (items : list LocalAllocation)
  : outcome edit_error (gmap string LocalAllocation) :=
  match items with
  | [] => Ok allocations
  | allocation :: rest =>
      if bool_decide (is_Some (allocations !! alloc_Local allocation)) ||
         negb (is_ok (validateEntityID (alloc_Kind allocation) (alloc_ID allocation)))
      then Fail ErrEditInvalid
      else allocation_map (<[alloc_Local allocation := allocation]> allocations) rest
  end.

Definition condition_map (items : list EntityPrecondition) : gmap string Z :=
  foldl (fun conditions condition =>
    <[entityKey (pre_Kind condition) (pre_ID condition) := pre_Revision condition]> conditions) ∅ items.

Definition newEditNormalizer (input : NormalizeEditInput) : outcome edit_error editNormalizer :=
  allocations ← allocation_map ∅ (in_Allocation input);
  let s := in_State input in
  Ok (mkNormalizer input allocations (condition_map (pi_Preconditions (in_Input input)))
    (st_Sections s) (st_AuthoredTexts s) (st_SourceExcerpts s) (st_VisualIntents s) (st_Notes s)
    (st_SectionChildCounts s) (st_TranscriptCorrections s) (st_Captions s) (st_Clips s) (st_LinkGroups s)
    (st_LinkGroupClips s) (st_Alignments s) ∅ ∅ [] [] [] false false ∅ ∅).
