(* ===== verification/EditClips.v ===== *)
(** Clips and link groups: [product/application/edit_normalize_clips.go] and
    [edit_normalize_clip_mutations.go].

    Every method of the normalizer that changes clips or link groups, with the
    two passes that check the result: no two live clips of a track overlap, and
    every changed link group has two to sixty-four live members. *)
From stdpp Require Import base list strings gmap sorting.
From Stdlib Require Import ZArith Lia Ascii.
From S2P Require Import Prelude GoText Exact Identity Canonical EditModel Timeline EditState.
Open Scope Z_scope.

(** ** Assignments to a field of a copied struct *)

Definition clip_at_revision (revision : Z) (c : ClipState) : ClipState :=
  mkClip (clip_ID c) revision (clip_SequenceID c) (clip_TrackID c) (clip_AssetID c) (clip_SourceStreamID c)
    (clip_SourceRange c) (clip_TimelineRange c) (clip_Enabled c) (clip_LinkGroupID c) (clip_Placement c) (clip_Tombstoned c).
Definition clip_on_track (track : string) (c : ClipState) : ClipState :=
  mkClip (clip_ID c) (clip_Revision c) (clip_SequenceID c) track (clip_AssetID c) (clip_SourceStreamID c)
    (clip_SourceRange c) (clip_TimelineRange c) (clip_Enabled c) (clip_LinkGroupID c) (clip_Placement c) (clip_Tombstoned c).
Definition clip_over (source timeline : TimeRange) (c : ClipState) : ClipState :=
  mkClip (clip_ID c) (clip_Revision c) (clip_SequenceID c) (clip_TrackID c) (clip_AssetID c) (clip_SourceStreamID c)
    source timeline (clip_Enabled c) (clip_LinkGroupID c) (clip_Placement c) (clip_Tombstoned c).
Definition clip_in_group (group : option string) (c : ClipState) : ClipState :=
  mkClip (clip_ID c) (clip_Revision c) (clip_SequenceID c) (clip_TrackID c) (clip_AssetID c) (clip_SourceStreamID c)
    (clip_SourceRange c) (clip_TimelineRange c) (clip_Enabled c) group (clip_Placement c) (clip_Tombstoned c).
Definition clip_placed (placement : option ClipPlacement) (c : ClipState) : ClipState :=
  mkClip (clip_ID c) (clip_Revision c) (clip_SequenceID c) (clip_TrackID c) (clip_AssetID c) (clip_SourceStreamID c)
    (clip_SourceRange c) (clip_TimelineRange c) (clip_Enabled c) (clip_LinkGroupID c) placement (clip_Tombstoned c).
Definition clip_tombstoned (tombstoned : bool) (c : ClipState) : ClipState :=
  mkClip (clip_ID c) (clip_Revision c) (clip_SequenceID c) (clip_TrackID c) (clip_AssetID c) (clip_SourceStreamID c)
    (clip_SourceRange c) (clip_TimelineRange c) (clip_Enabled c) (clip_LinkGroupID c) (clip_Placement c) tombstoned.
Definition clip_named (id : string) (c : ClipState) : ClipState :=
  mkClip id (clip_Revision c) (clip_SequenceID c) (clip_TrackID c) (clip_AssetID c) (clip_SourceStreamID c)
    (clip_SourceRange c) (clip_TimelineRange c) (clip_Enabled c) (clip_LinkGroupID c) (clip_Placement c) (clip_Tombstoned c).

Definition group_at (revision : Z) (tombstoned : bool) (g : LinkGroupState) : LinkGroupState :=
  mkGroup (group_ID g) revision (group_SequenceID g) tombstoned.

Definition range_from (start : RationalTime) (r : TimeRange) : TimeRange := mkRange start (tr_Duration r).

(** ** Puts *)

(** [require] the track, and record that it changes *)
Definition change_track (trackID : string) : M unit :=
  track ← track_of trackID;
  check (negb (IsZero (track_ID track))) ;;
  require EntityTrack (track_ID track) (track_Revision track) ;;
  modify (on_trackChanges (<[track_ID track := track_Revision track]>)).

Definition putExistingClip (current next : ClipState) (trackChanged : bool) : M unit :=
  markTouched EntityClip (clip_ID current) ;;
  revision ← next_of (clip_Revision current);
  check (clip_Revision next =? revision) ;;
  inverseRevision ← next_of (clip_Revision next);
  modify (on_clips (<[clip_ID current := next]>)) ;;
  appendOperation (PutClip next) (PutClip (clip_at_revision inverseRevision current)) ;;
  appendChange (existingEntityChange EntityClip (clip_ID current) (clip_Revision current) (clip_Revision next) (clip_Tombstoned next)) ;;
  modify (on_sequenceChanged (fun _ => true)) ;;
  if trackChanged then for_each [clip_TrackID current; clip_TrackID next] change_track else mret tt.

Definition putNewClip (state : ClipState) : M unit :=
  clips ← reads n_clips;
  check (bool_decide (clips !! clip_ID state = None)) ;;
  markTouched EntityClip (clip_ID state) ;;
  modify (on_clips (<[clip_ID state := state]>)) ;;
  inverseRevision ← next_of (clip_Revision state);
  appendOperation (PutClip state) (PutClip (clip_tombstoned true (clip_at_revision inverseRevision state))) ;;
  appendChange (newEntityChange EntityClip (clip_ID state) (clip_Revision state) false) ;;
  change_track (clip_TrackID state) ;;
  modify (on_sequenceChanged (fun _ => true)).

Definition createLinkGroup (local : string) : M string :=
  allocation ← allocation_of local;
  check (bool_decide (alloc_Kind allocation = EntityLinkGroup)) ;;
  id ← or_invalid (ParseID (alloc_ID allocation));
  groups ← reads n_linkGroups;
  check (bool_decide (groups !! id = None)) ;;
  markTouched EntityLinkGroup id ;;
  sequenceID ← sequence_id;
  let state := mkGroup id first_revision sequenceID false in
  modify (on_linkGroups (<[id := state]>)) ;;
  inverseRevision ← next_of first_revision;
  appendOperation (PutLinkGroup state) (PutLinkGroup (group_at inverseRevision true state)) ;;
  appendChange (newEntityChange EntityLinkGroup id first_revision false) ;;
  modify (on_linkGroupClips (<[id := []]>)) ;;
  modify (on_sequenceChanged (fun _ => true)) ;;
  mret id.

Definition tombstoneLinkGroup (id : string) : M unit :=
  current ← group_of id;
  check (negb (IsZero (group_ID current)) && negb (group_Tombstoned current)) ;;
  markTouched EntityLinkGroup id ;;
  require EntityLinkGroup id (group_Revision current) ;;
  nextRevision ← next_of (group_Revision current);
  inverseRevision ← next_of nextRevision;
  let next := group_at nextRevision true current in
  modify (on_linkGroups (<[id := next]>)) ;;
  appendOperation (PutLinkGroup next) (PutLinkGroup (group_at inverseRevision (group_Tombstoned current) current)) ;;
  appendChange (existingEntityChange EntityLinkGroup id (group_Revision current) nextRevision true) ;;
  modify (on_sequenceChanged (fun _ => true)).

Definition advanceLinkGroup (id : string) (members : list string) : M unit :=
  current ← group_of id;
  check (negb (IsZero (group_ID current)) && negb (group_Tombstoned current)) ;;
  markTouched EntityLinkGroup id ;;
  require EntityLinkGroup id (group_Revision current) ;;
  nextRevision ← next_of (group_Revision current);
  inverseRevision ← next_of nextRevision;
  let next := group_at nextRevision (group_Tombstoned current) current in
  modify (on_linkGroups (<[id := next]>)) ;;
  modify (on_linkGroupClips (<[id := members]>)) ;;
  appendOperation (PutLinkGroup next) (PutLinkGroup (group_at inverseRevision (group_Tombstoned current) current)) ;;
  appendChange (existingEntityChange EntityLinkGroup id (group_Revision current) nextRevision false) ;;
  modify (on_sequenceChanged (fun _ => true)).

(** ** Adding a clip *)

Definition resolveClipLinkGroup (operation : EditOperationInput) : M (option string) :=
  match op_CreateLinkGroupAs operation with
  | Some local =>
      allocation ← allocation_of local;
      check (bool_decide (alloc_Kind allocation = EntityLinkGroup)) ;;
      id ← or_invalid (ParseID (alloc_ID allocation));
      base ← state_of st_LinkGroups;
      check (bool_decide (base !! id = None)) ;;
      markTouched EntityLinkGroup id ;;
      sequenceID ← sequence_id;
      let state := mkGroup id first_revision sequenceID false in
      modify (on_linkGroups (<[id := state]>)) ;;
      modify (on_linkGroupClips (<[id := []]>)) ;;
      inverseRevision ← next_of first_revision;
      appendOperation (PutLinkGroup state) (PutLinkGroup (group_at inverseRevision true state)) ;;
      appendChange (newEntityChange EntityLinkGroup id first_revision false) ;;
      mret (Some id)
  | None =>
      match op_LinkGroup operation with
      | None => mret None
      | Some reference =>
          value ← resolveReference reference EntityLinkGroup;
          id ← or_invalid (ParseID value);
          groups ← reads n_linkGroups;
          sequenceID ← sequence_id;
          match groups !! id with
          | None => lift (Fail ErrEditInvalid)
          | Some group =>
              check (negb (group_Tombstoned group) && bool_decide (group_SequenceID group = sequenceID)) ;;
              touched ← reads n_touched;
              (if bool_decide (entityKey EntityLinkGroup id ∈ touched) then mret tt
               else
                 check (bool_decide (ref_ID reference <> "")) ;;
                 require EntityLinkGroup id (group_Revision group) ;;
                 modify (on_touched (fun t => {[ entityKey EntityLinkGroup id ]} ∪ t)) ;;
                 nextRevision ← next_of (group_Revision group);
                 inverseRevision ← next_of nextRevision;
                 let next := group_at nextRevision (group_Tombstoned group) group in
                 modify (on_linkGroups (<[id := next]>)) ;;
                 appendOperation (PutLinkGroup next)
                   (PutLinkGroup (group_at inverseRevision (group_Tombstoned group) group)) ;;
                 appendChange (existingEntityChange EntityLinkGroup id (group_Revision group) nextRevision false)) ;;
              mret (Some id)
          end
      end
  end.

Definition addClip (operation : EditOperationInput) : M unit :=
  createAs ← deref (op_CreateAs operation);
  allocation ← allocation_of createAs;
  check (bool_decide (alloc_Kind allocation = EntityClip)) ;;
  clipID ← or_invalid (ParseID (alloc_ID allocation));
  base ← state_of st_Clips;
  check (bool_decide (base !! clipID = None)) ;;
  markTouched EntityClip clipID ;;
  trackID ← deref (op_TrackID operation);
  track ← track_of trackID;
  sequenceID ← sequence_id;
  check (negb (IsZero (track_ID track)) && bool_decide (track_SequenceID track = sequenceID) &&
         (bool_decide (track_Type track = TrackVideo) || bool_decide (track_Type track = TrackAudio))) ;;
  streamID ← deref (op_SourceStreamID operation);
  stream ← stream_of streamID;
  check (negb (IsZero (stream_ID stream))) ;;
  assetID ← deref (op_AssetID operation);
  let mediaType := sd_MediaType (stream_Descriptor stream) in
  check (bool_decide (stream_AssetID stream = assetID) &&
         negb (bool_decide (track_Type track = TrackVideo) && bool_decide (mediaType <> MediaVideo)) &&
         negb (bool_decide (track_Type track = TrackAudio) && bool_decide (mediaType <> MediaAudio))) ;;
  require EntityTrack (track_ID track) (track_Revision track) ;;
  require EntityAsset (stream_AssetID stream) (stream_AssetRevision stream) ;;
  sourceRange ← deref (op_SourceRange operation);
  timelineRange ← deref (op_TimelineRange operation);
  equalDuration ← or_invalid (RationalTime_Compare (tr_Duration sourceRange) (tr_Duration timelineRange));
  check (equalDuration =? 0) ;;
  check (sourceRangeWithin sourceRange (stream_Descriptor stream)) ;;
  linkGroupID ← resolveClipLinkGroup operation;
  enabled ← deref (op_Enabled operation);
  let state := mkClip clipID first_revision sequenceID (track_ID track) (stream_AssetID stream) (stream_ID stream)
                 sourceRange timelineRange enabled linkGroupID None false in
  modify (on_clips (<[clipID := state]>)) ;;
  (match linkGroupID with
   | Some group => modify (on_linkGroupClips (fun m => <[group := at_key [] m group ++ [clipID]]> m))
   | None => mret tt
   end) ;;
  inverseRevision ← next_of first_revision;
  appendOperation (PutClip state) (PutClip (clip_tombstoned true (clip_at_revision inverseRevision state))) ;;
  appendChange (newEntityChange EntityClip clipID first_revision false) ;;
  modify (on_sequenceChanged (fun _ => true)) ;;
  modify (on_trackChanges (<[track_ID track := track_Revision track]>)).

(** ** Mutating clips *)

(** [member.LinkGroupID != nil && *member.LinkGroupID == group] *)
Definition in_group (c : ClipState) (group : string) : bool := bool_decide (clip_LinkGroupID c = Some group).

(** The loop over [members]: every member is live, in the group and matches its
    precondition; the result says whether the seed was met. *)
Fixpoint require_members (seed group : string) (members : list string) : M bool :=
  match members with
  | [] => mret false
  | memberID :: rest =>
      member ← clip_of memberID;
      check (negb (IsZero (clip_ID member)) && negb (clip_Tombstoned member) && in_group member group) ;;
      require EntityClip (clip_ID member) (clip_Revision member) ;;
      found ← require_members seed group rest;
      mret (bool_decide (clip_ID member = seed) || found)
  end.

Definition clipMutationMembers (operation : EditOperationInput) (membershipChange : bool) : M (list string * ClipState) :=
  reference ← deref (op_Clip operation);
  seedID ← or_invalid (ParseID (ref_ID reference));
  seed ← clip_of seedID;
  sequenceID ← sequence_id;
  check (negb (IsZero (clip_ID seed)) && negb (clip_Tombstoned seed) && bool_decide (clip_SequenceID seed = sequenceID)) ;;
  require EntityClip (clip_ID seed) (clip_Revision seed) ;;
  scope ← deref (op_Scope operation);
  if bool_decide (scope = ClipScopeSingle) then
    (match clip_LinkGroupID seed with
     | Some groupID =>
         if membershipChange then
           group ← group_of groupID;
           check (negb (IsZero (group_ID group)) && negb (group_Tombstoned group)) ;;
           require EntityLinkGroup (group_ID group) (group_Revision group)
         else mret tt
     | None => mret tt
     end) ;;
    mret ([clip_ID seed], seed)
  else match clip_LinkGroupID seed with
  | None => lift (Fail ErrEditInvalid)
  | Some groupID =>
      group ← group_of groupID;
      members ← members_of groupID;
      check (negb (IsZero (group_ID group)) && negb (group_Tombstoned group) &&
             (2 <=? length members)%nat && (length members <=? 64)%nat) ;;
      require EntityLinkGroup (group_ID group) (group_Revision group) ;;
      found ← require_members (clip_ID seed) (group_ID group) members;
      check found ;;
      mret (sort_by id members, seed)
  end.

Definition moveClip (operation : EditOperationInput) : M unit :=
  '(members, seed) ← clipMutationMembers operation false;
  timelineStart ← deref (op_TimelineStart operation);
  delta ← or_invalid (Subtract timelineStart (tr_Start (clip_TimelineRange seed)));
  for_each members (fun memberID =>
    current ← clip_of memberID;
    revision ← next_of (clip_Revision current);
    start ← or_invalid (Add (tr_Start (clip_TimelineRange current)) delta);
    check (negb (IsNegative start)) ;;
    let next := clip_over (clip_SourceRange current) (range_from start (clip_TimelineRange current))
                  (clip_at_revision revision current) in
    next ← (if bool_decide (clip_ID current = clip_ID seed) then
              trackID ← deref (op_TrackID operation);
              track ← track_of trackID;
              stream ← stream_of (clip_SourceStreamID current);
              check (negb (IsZero (track_ID track)) && negb (IsZero (stream_ID stream)) && trackAcceptsStream track stream) ;;
              require EntityTrack (track_ID track) (track_Revision track) ;;
              modify (on_trackChanges (<[track_ID track := track_Revision track]>)) ;;
              mret (clip_on_track trackID next)
            else mret next);
    putExistingClip current next true).

Definition trimClip (operation : EditOperationInput) : M unit :=
  '(members, seed) ← clipMutationMembers operation false;
  timelineRange ← deref (op_TimelineRange operation);
  left ← or_invalid (Subtract (tr_Start timelineRange) (tr_Start (clip_TimelineRange seed)));
  seedOldEnd ← or_invalid (End (clip_TimelineRange seed));
  seedNewEnd ← or_invalid (End timelineRange);
  right ← or_invalid (Subtract seedNewEnd seedOldEnd);
  sourceRange ← deref (op_SourceRange operation);
  check (sameBoundaryDelta (clip_SourceRange seed) sourceRange left right) ;;
  for_each members (fun memberID =>
    current ← clip_of memberID;
    nextSource ← lift (rangeWithBoundaryDeltas (clip_SourceRange current) left right);
    nextTimeline ← lift (rangeWithBoundaryDeltas (clip_TimelineRange current) left right);
    check (negb (IsNegative (tr_Start nextTimeline))) ;;
    stream ← stream_of (clip_SourceStreamID current);
    check (negb (IsZero (stream_ID stream)) && sourceRangeWithin nextSource (stream_Descriptor stream)) ;;
    revision ← next_of (clip_Revision current);
    putExistingClip current (clip_over nextSource nextTimeline (clip_at_revision revision current)) true).

Definition allocatedClipID (local : string) : M string :=
  allocation ← allocation_of local;
  check (bool_decide (alloc_Kind allocation = EntityClip)) ;;
  or_invalid (ParseID (alloc_ID allocation)).

(** The four ranges of [splitClipStates]: left and right of the timeline range,
    left and right of the source range *)
Definition split_ranges (current : ClipState) (splitAt : RationalTime)
  : outcome edit_error (TimeRange * TimeRange * TimeRange * TimeRange) :=
  let timeline := clip_TimelineRange current in
  let source := clip_SourceRange current in
  offset ← or_fail ErrEditInvalid (Subtract splitAt (tr_Start timeline));
  _ ← guard_or ErrEditInvalid (IsPositive offset);
  comparison ← or_fail ErrEditInvalid (RationalTime_Compare offset (tr_Duration timeline));
  _ ← guard_or ErrEditInvalid (comparison <? 0);
  rightDuration ← or_fail ErrEditInvalid (Subtract (tr_Duration timeline) offset);
  _ ← guard_or ErrEditInvalid (IsPositive rightDuration);
  sourceSplit ← or_fail ErrEditInvalid (Add (tr_Start source) offset);
  leftRange ← or_fail ErrEditInvalid (NewTimeRange (tr_Start timeline) offset);
  rightRange ← or_fail ErrEditInvalid (NewTimeRange splitAt rightDuration);
  leftSource ← or_fail ErrEditInvalid (NewTimeRange (tr_Start source) offset);
  rightSource ← or_fail ErrEditInvalid (NewTimeRange sourceSplit rightDuration);
  Ok (leftRange, rightRange, leftSource, rightSource).

Definition splitClipStates (current : ClipState) (splitAt : RationalTime) (output : ClipSplitOutputInput)
    (leftGroupID rightGroupID : option string) : M (ClipState * ClipState) :=
  '(leftRange, rightRange, leftSource, rightSource) ← lift (split_ranges current splitAt);
  leftID ← allocatedClipID (so_LeftAs output);
  rightID ← allocatedClipID (so_RightAs output);
  let part (id : string) (source timeline : TimeRange) (group : option string) :=
    clip_tombstoned false (clip_in_group group (clip_over source timeline
      (clip_at_revision first_revision (clip_named id current)))) in
  mret (part leftID leftSource leftRange leftGroupID, part rightID rightSource rightRange rightGroupID).

Definition finishSingleMembershipRemoval (id : string) : M unit :=
  members ← members_of id;
  clips ← reads n_clips;
  let survivors := filter (fun memberID =>
    Is_true (let clip := at_key zero_clip clips memberID in negb (clip_Tombstoned clip) && in_group clip id)) members in
  if (2 <=? length survivors)%nat then advanceLinkGroup id survivors
  else
    for_each survivors (fun memberID =>
      current ← clip_of memberID;
      require EntityClip (clip_ID current) (clip_Revision current) ;;
      revision ← next_of (clip_Revision current);
      putExistingClip current (clip_in_group None (clip_at_revision revision current)) false) ;;
    modify (on_linkGroupClips (<[id := []]>)) ;;
    tombstoneLinkGroup id.

Definition split_outputs (outputs : list ClipSplitOutputInput) : gmap string ClipSplitOutputInput :=
  foldl (fun m output => <[ref_ID (so_Clip output) := output]> m) ∅ outputs.

Definition zero_split_output : ClipSplitOutputInput := mkSplitOutput (mkReference "" None) "" "".

Definition splitClip (operation : EditOperationInput) : M unit :=
  '(members, seed) ← clipMutationMembers operation true;
  let outputs := split_outputs (op_SplitOutputs operation) in
  check (size outputs =? length members)%nat ;;
  check (forallb (fun memberID => bool_decide (is_Some (outputs !! memberID))) members) ;;
  scope ← deref (op_Scope operation);
  groups ← (if bool_decide (scope = ClipScopeLinked) then
              leftAs ← deref (op_LeftLinkGroupAs operation);
              left ← createLinkGroup leftAs;
              rightAs ← deref (op_RightLinkGroupAs operation);
              right ← createLinkGroup rightAs;
              mret (Some left, Some right)
            else mret (None, None));
  for_each members (fun memberID =>
    current ← clip_of memberID;
    splitAt ← deref (op_SplitAt operation);
    '(leftState, rightState) ←
      splitClipStates current splitAt (at_key zero_split_output outputs memberID) groups.1 groups.2;
    revision ← next_of (clip_Revision current);
    putExistingClip current (clip_tombstoned true (clip_at_revision revision current)) true ;;
    putNewClip leftState ;;
    putNewClip rightState) ;;
  if bool_decide (scope = ClipScopeLinked) then
    match clip_LinkGroupID seed with
    | None => lift (Fail ErrEditInvalid)
    | Some group => tombstoneLinkGroup group
    end
  else match clip_LinkGroupID seed with
  | None => mret tt
  | Some group => finishSingleMembershipRemoval group
  end.

Definition removeClip (operation : EditOperationInput) : M unit :=
  '(members, seed) ← clipMutationMembers operation true;
  for_each members (fun memberID =>
    current ← clip_of memberID;
    revision ← next_of (clip_Revision current);
    putExistingClip current (clip_tombstoned true (clip_at_revision revision current)) true) ;;
  match clip_LinkGroupID seed with
  | None => mret tt
  | Some group =>
      scope ← deref (op_Scope operation);
      if bool_decide (scope = ClipScopeLinked) then tombstoneLinkGroup group else finishSingleMembershipRemoval group
  end.

(** The loop of [linkClips] returns the members in the order of the request. *)
Fixpoint link_members (groupID : string) (references : list EditReference) : M (list string) :=
  match references with
  | [] => mret []
  | reference :: rest =>
      id ← or_invalid (ParseID (ref_ID reference));
      current ← clip_of id;
      sequenceID ← sequence_id;
      check (negb (IsZero (clip_ID current)) && negb (clip_Tombstoned current) &&
             bool_decide (clip_SequenceID current = sequenceID) && bool_decide (clip_LinkGroupID current = None)) ;;
      require EntityClip id (clip_Revision current) ;;
      revision ← next_of (clip_Revision current);
      putExistingClip current (clip_in_group (Some groupID) (clip_at_revision revision current)) false ;;
      members ← link_members groupID rest;
      mret (id :: members)
  end.

Definition linkClips (operation : EditOperationInput) : M unit :=
  createAs ← deref (op_CreateLinkGroupAs operation);
  groupID ← createLinkGroup createAs;
  members ← link_members groupID (op_Clips operation);
  modify (on_linkGroupClips (<[groupID := members]>)).

Definition unlinkClips (operation : EditOperationInput) : M unit :=
  reference ← deref (op_LinkGroup operation);
  groupID ← or_invalid (ParseID (ref_ID reference));
  groups ← reads n_linkGroups;
  match groups !! groupID with
  | None => lift (Fail ErrEditInvalid)
  | Some group =>
      check (negb (group_Tombstoned group)) ;;
      require EntityLinkGroup groupID (group_Revision group) ;;
      members ← members_of groupID;
      for_each members (fun memberID =>
        current ← clip_of memberID;
        check (negb (clip_Tombstoned current) && in_group current groupID) ;;
        require EntityClip memberID (clip_Revision current) ;;
        revision ← next_of (clip_Revision current);
        putExistingClip current (clip_in_group None (clip_at_revision revision current)) false) ;;
      modify (on_linkGroupClips (<[groupID := []]>)) ;;
      tombstoneLinkGroup groupID
  end.

Definition setClipPlacement (operation : EditOperationInput) : M unit :=
  reference ← deref (op_Clip operation);
  clipID ← resolveClipReference reference;
  clips ← reads n_clips;
  match clips !! clipID with
  | None => lift (Fail ErrEditInvalid)
  | Some current =>
      check (negb (clip_Tombstoned current)) ;;
      require EntityClip (clip_ID current) (clip_Revision current) ;;
      track ← track_of (clip_TrackID current);
      check (negb (IsZero (track_ID track))) ;;
      check (bool_decide (track_Type track = TrackVideo)) ;;
      require EntityTrack (track_ID track) (track_Revision track) ;;
      modify (on_trackChanges (<[track_ID track := track_Revision track]>)) ;;
      revision ← next_of (clip_Revision current);
      placement ← (match op_Placement operation with
                   | None => mret None
                   | Some placement =>
                       if IsIdentity placement then mret None
                       else or_invalid (ClipPlacement_Validate placement) ;; mret (Some placement)
                   end);
      dependents ← state_of (fun s => at_key [] (st_ClipAlignments s) (clip_ID current));
      for_each dependents (fun alignmentID =>
        alignments ← state_of st_Alignments;
        match alignments !! alignmentID with
        | None => lift (Fail ErrEditInvalid)
        | Some alignment =>
            modify (on_alignmentEffects (fun effects =>
              if bool_decide (is_Some (effects !! alignmentID)) then effects
              else <[alignmentID := al_Status alignment]> effects))
        end) ;;
      putExistingClip current (clip_placed placement (clip_at_revision revision current)) false
  end.

(** ** Checks after all entity operations *)

Definition validateClipOverlaps : M unit :=
  touched ← reads n_touched;
  clips ← reads n_clips;
  check (forallb (fun clipID =>
    let clip := at_key zero_clip clips clipID in
    clip_Tombstoned clip ||
    forallb (fun '(otherID, other) =>
      bool_decide (otherID = clipID) || clip_Tombstoned other || bool_decide (clip_TrackID other <> clip_TrackID clip) ||
      negb (rangesOverlap (clip_TimelineRange clip) (clip_TimelineRange other))) (map_to_list clips))
    (touched_ids EntityClip touched)).

(** [live]: how many clips that are not tombstoned name the group *)
Definition live_members (clips : gmap string ClipState) (group : string) : nat :=
  length (filter (fun c => Is_true (negb (clip_Tombstoned c.2) && in_group c.2 group)) (map_to_list clips)).

Definition validateLinkGroups : M unit :=
  touched ← reads n_touched;
  clips ← reads n_clips;
  groups ← reads n_linkGroups;
  check (forallb (fun groupID =>
    let group := at_key zero_group groups groupID in
    let live := live_members clips groupID in
    negb ((group_Tombstoned group && negb (live =? 0)%nat) ||
          (negb (group_Tombstoned group) && ((live <? 2)%nat || (64 <? live)%nat))))
    (touched_ids EntityLinkGroup touched)).
