(* ===== verification/EditNarrative.v ===== *)
(** The narrative document: [product/application/edit_normalize_narrative.go].

    Sections form a tree; authored texts, source excerpts, visual intents and
    notes hang below a section.  Moving a section below its own descendant is
    refused by walking the parents of the new place. *)
From stdpp Require Import base list strings gmap sorting.
From Stdlib Require Import ZArith Lia Ascii.
From S2P Require Import Prelude GoText Exact Identity Canonical EditModel Timeline EditState.
Open Scope Z_scope.

(** ** Nodes of any kind *)

Definition narrativeNodeID (state : NarrativeNodeState) : string :=
  match state with
  | NodeSection v => sec_ID v | NodeAuthoredText v => txt_ID v | NodeSourceExcerpt v => exc_ID v
  | NodeVisualIntent v => vis_ID v | NodeNote v => note_ID v
  end.

Definition narrativeNodeRevision (state : NarrativeNodeState) : Z :=
  match state with
  | NodeSection v => sec_Revision v | NodeAuthoredText v => txt_Revision v | NodeSourceExcerpt v => exc_Revision v
  | NodeVisualIntent v => vis_Revision v | NodeNote v => note_Revision v
  end.

Definition narrativeNodeParentPointer (state : NarrativeNodeState) : option string :=
  match state with
  | NodeSection v => sec_ParentID v | NodeAuthoredText v => Some (txt_ParentID v)
  | NodeSourceExcerpt v => Some (exc_ParentID v) | NodeVisualIntent v => Some (vis_ParentID v)
  | NodeNote v => Some (note_ParentID v)
  end.

Definition narrativeNodeAfter (state : NarrativeNodeState) : option string :=
  match state with
  | NodeSection v => sec_AfterNodeID v | NodeAuthoredText v => txt_AfterNodeID v
  | NodeSourceExcerpt v => exc_AfterNodeID v | NodeVisualIntent v => vis_AfterNodeID v | NodeNote v => note_AfterNodeID v
  end.

Definition narrativeNodeTombstoned (state : NarrativeNodeState) : bool :=
  match state with
  | NodeSection v => sec_Tombstoned v | NodeAuthoredText v => txt_Tombstoned v
  | NodeSourceExcerpt v => exc_Tombstoned v | NodeVisualIntent v => vis_Tombstoned v | NodeNote v => note_Tombstoned v
  end.

Definition narrativeNodeWithRevisionAndTombstone (state : NarrativeNodeState) (revision : Z) (tombstoned : bool) : NarrativeNodeState :=
  match state with
  | NodeSection v => NodeSection (mkSection (sec_ID v) revision (sec_DocumentID v) (sec_ParentID v) (sec_AfterNodeID v)
      (sec_Title v) (sec_Language v) tombstoned)
  | NodeAuthoredText v => NodeAuthoredText (mkAuthoredText (txt_ID v) revision (txt_DocumentID v) (txt_ParentID v)
      (txt_AfterNodeID v) (txt_Purpose v) (txt_Language v) (txt_Text v) tombstoned)
  | NodeSourceExcerpt v => NodeSourceExcerpt (mkExcerpt (exc_ID v) revision (exc_DocumentID v) (exc_ParentID v)
      (exc_AfterNodeID v) (exc_AssetID v) (exc_AcceptedFingerprint v) (exc_SourceRange v) (exc_Language v)
      (exc_EffectiveText v) (exc_Evidence v) tombstoned)
  | NodeVisualIntent v => NodeVisualIntent (mkVisualIntent (vis_ID v) revision (vis_DocumentID v) (vis_ParentID v)
      (vis_AfterNodeID v) (vis_Purpose v) (vis_Language v) (vis_Description v) tombstoned)
  | NodeNote v => NodeNote (mkNote (note_ID v) revision (note_DocumentID v) (note_ParentID v) (note_AfterNodeID v)
      (note_Language v) (note_Text v) tombstoned)
  end.

Definition narrativeNodeMoved (state : NarrativeNodeState) (parent : string) (after : option string) (revision : Z) : NarrativeNodeState :=
  match narrativeNodeWithRevisionAndTombstone state revision false with
  | NodeSection v => NodeSection (mkSection (sec_ID v) (sec_Revision v) (sec_DocumentID v) (Some parent) after
      (sec_Title v) (sec_Language v) (sec_Tombstoned v))
  | NodeAuthoredText v => NodeAuthoredText (mkAuthoredText (txt_ID v) (txt_Revision v) (txt_DocumentID v) parent
      after (txt_Purpose v) (txt_Language v) (txt_Text v) (txt_Tombstoned v))
  | NodeSourceExcerpt v => NodeSourceExcerpt (mkExcerpt (exc_ID v) (exc_Revision v) (exc_DocumentID v) parent
      after (exc_AssetID v) (exc_AcceptedFingerprint v) (exc_SourceRange v) (exc_Language v)
      (exc_EffectiveText v) (exc_Evidence v) (exc_Tombstoned v))
  | NodeVisualIntent v => NodeVisualIntent (mkVisualIntent (vis_ID v) (vis_Revision v) (vis_DocumentID v) parent
      after (vis_Purpose v) (vis_Language v) (vis_Description v) (vis_Tombstoned v))
  | NodeNote v => NodeNote (mkNote (note_ID v) (note_Revision v) (note_DocumentID v) parent after
      (note_Language v) (note_Text v) (note_Tombstoned v))
  end.

Definition is_section (state : NarrativeNodeState) : bool := match state with NodeSection _ => true | _ => false end.

(** ** Looking up and storing *)

Definition narrativeNode (n : editNormalizer) (id : string) : option NarrativeNodeState :=
  match n_sections n !! id with Some v => Some (NodeSection v) | None =>
  match n_texts n !! id with Some v => Some (NodeAuthoredText v) | None =>
  match n_sourceExcerpts n !! id with Some v => Some (NodeSourceExcerpt v) | None =>
  match n_visualIntents n !! id with Some v => Some (NodeVisualIntent v) | None =>
  match n_notes n !! id with Some v => Some (NodeNote v) | None => None end end end end end.

Definition narrativeNodeExists (n : editNormalizer) (id : string) : bool := bool_decide (is_Some (narrativeNode n id)).

Definition setNarrativeNode (state : NarrativeNodeState) : editNormalizer -> editNormalizer :=
  match state with
  | NodeSection v => on_sections (<[sec_ID v := v]>)
  | NodeAuthoredText v => on_texts (<[txt_ID v := v]>)
  | NodeSourceExcerpt v => on_sourceExcerpts (<[exc_ID v := v]>)
  | NodeVisualIntent v => on_visualIntents (<[vis_ID v := v]>)
  | NodeNote v => on_notes (<[note_ID v := v]>)
  end.

Definition narrativeNodeParent (n : editNormalizer) (id : string) : string :=
  match narrativeNode n id with
  | Some state => default "" (narrativeNodeParentPointer state)
  | None => ""
  end.

(** The method [narrativeNodeRevision]: the revision of a live node that is not a section *)
Definition normalizer_narrativeNodeRevision (n : editNormalizer) (id : string) : option Z :=
  match narrativeNode n id with
  | Some state => if narrativeNodeTombstoned state || is_section state then None else Some (narrativeNodeRevision state)
  | None => None
  end.

Definition resolveNarrativeNodeReference (reference : option EditReference) : M (option string) :=
  match reference with
  | None => mret None
  | Some reference =>
      nodeID ← or_invalid_m (resolveNodeReference reference);
      node ← reads (fun n => narrativeNode n nodeID);
      match node with
      | Some state => check (negb (narrativeNodeTombstoned state)) ;; mret (Some nodeID)
      | None => lift (Fail ErrEditInvalid)
      end
  end.

Definition requireNarrativeParent (id : string) : M NarrativeSectionState :=
  sections ← reads n_sections;
  documentID ← state_of st_DocumentID;
  match sections !! id with
  | None => lift (Fail ErrEditInvalid)
  | Some parent =>
      check (negb (IsZero (sec_ID parent)) && negb (sec_Tombstoned parent) && bool_decide (sec_DocumentID parent = documentID)) ;;
      base ← state_of (fun s => at_key zero_section (st_Sections s) id);
      check (negb (IsZero (sec_ID base))) ;;
      require EntityNarrativeNode id (sec_Revision base) ;;
      mret parent
  end.

Definition markNarrativeParentChanged (id : string) : M unit :=
  touched ← reads n_touched;
  if bool_decide (entityKey EntityNarrativeNode id ∈ touched) then modify (on_parentChanges (delete id))
  else
    base ← state_of (fun s => at_key zero_section (st_Sections s) id);
    if IsZero (sec_ID base) then mret tt
    else modify (on_parentChanges (<[id := sec_Revision base]>)).

(** The loop of [sectionDescendsFrom]; [seen] holds the sections already met. *)
Fixpoint descends_loop (fuel : nat) (sections : gmap string NarrativeSectionState) (seen : gset string)
    (current ancestor : string) : bool :=
  match fuel with
  | O => true
  | S fuel =>
      if IsZero current then false
      else if bool_decide (current = ancestor) then true
      else if bool_decide (current ∈ seen) then true
      else match sections !! current with
           | None => false
           | Some section =>
               match sec_ParentID section with
               | None => false
               | Some parent => descends_loop fuel sections ({[ current ]} ∪ seen) parent ancestor
               end
           end
  end.

(** One step per section not yet seen, and one to notice the end: see
    [descends_loop_enough]. *)
Definition sectionDescendsFrom (sections : gmap string NarrativeSectionState) (candidate ancestor : string) : bool :=
  descends_loop (2 + size sections) sections ∅ candidate ancestor.

Definition add_children (id : string) (delta : Z) : M unit :=
  modify (on_sectionChildren (fun m => <[id := at_key 0 m id + delta]> m)).

(** ** Operations *)

(** The state that the [switch] of [insertNarrativeNode] builds *)
Definition inserted_node (operation : EditOperationInput) (nodeID : string) (parent : NarrativeSectionState)
    (after : option string) : M NarrativeNodeState :=
  match op_Type operation with
  | EditInsertSection =>
      title ← deref (op_Title operation); language ← deref (op_Language operation);
      mret (NodeSection (mkSection nodeID first_revision (sec_DocumentID parent) (Some (sec_ID parent)) after title language false))
  | EditInsertAuthoredText =>
      purpose ← deref (op_AuthoredTextPurpose operation); language ← deref (op_Language operation);
      text ← deref (op_Text operation);
      mret (NodeAuthoredText (mkAuthoredText nodeID first_revision (sec_DocumentID parent) (sec_ID parent) after purpose language text false))
  | EditInsertVisualIntent =>
      purpose ← deref (op_VisualIntentPurpose operation); language ← deref (op_Language operation);
      description ← deref (op_Description operation);
      mret (NodeVisualIntent (mkVisualIntent nodeID first_revision (sec_DocumentID parent) (sec_ID parent) after purpose language description false))
  | EditInsertNote =>
      language ← deref (op_Language operation); text ← deref (op_Text operation);
      mret (NodeNote (mkNote nodeID first_revision (sec_DocumentID parent) (sec_ID parent) after language text false))
  | _ => lift (Fail ErrEditInvalid)
  end.

Definition insertNarrativeNode (operation : EditOperationInput) : M unit :=
  createAs ← deref (op_CreateAs operation);
  allocation ← allocation_of createAs;
  check (bool_decide (alloc_Kind allocation = EntityNarrativeNode)) ;;
  nodeID ← or_invalid (ParseID (alloc_ID allocation));
  exists_ ← reads (fun n => narrativeNodeExists n nodeID);
  check (negb exists_) ;;
  markTouched EntityNarrativeNode nodeID ;;
  parentID ← deref (op_ParentID operation);
  parent ← requireNarrativeParent parentID;
  after ← or_invalid_m (resolveNarrativeNodeReference (op_After operation));
  n ← reads id;
  check (match after with Some a => bool_decide (narrativeNodeParent n a = sec_ID parent) | None => true end) ;;
  state ← inserted_node operation nodeID parent after;
  inverseRevision ← next_of first_revision;
  modify (setNarrativeNode state) ;;
  appendOperation (PutNarrativeNode state)
    (PutNarrativeNode (narrativeNodeWithRevisionAndTombstone state inverseRevision true)) ;;
  appendChange (newEntityChange EntityNarrativeNode nodeID first_revision false) ;;
  modify (on_narrativeChanged (fun _ => true)) ;;
  markNarrativeParentChanged (sec_ID parent) ;;
  add_children (sec_ID parent) 1.

(** The state after an update, when the operation is one for the node's kind;
    [operationMatchesNarrativeKind] refuses the other combinations. *)
Definition operationMatchesNarrativeKind (type : EditOperationType) (state : NarrativeNodeState) : bool :=
  match type, state with
  | EditUpdateSection, NodeSection _ | EditUpdateAuthoredText, NodeAuthoredText _
  | EditUpdateVisualIntent, NodeVisualIntent _ | EditUpdateNote, NodeNote _ => true
  | _, _ => false
  end.

Definition updated_node (operation : EditOperationInput) (current : NarrativeNodeState) (revision : Z) : M NarrativeNodeState :=
  match op_Type operation, current with
  | EditUpdateSection, NodeSection v =>
      title ← deref (op_Title operation); language ← deref (op_Language operation);
      mret (NodeSection (mkSection (sec_ID v) revision (sec_DocumentID v) (sec_ParentID v) (sec_AfterNodeID v) title language (sec_Tombstoned v)))
  | EditUpdateAuthoredText, NodeAuthoredText v =>
      purpose ← deref (op_AuthoredTextPurpose operation); language ← deref (op_Language operation);
      text ← deref (op_Text operation);
      mret (NodeAuthoredText (mkAuthoredText (txt_ID v) revision (txt_DocumentID v) (txt_ParentID v) (txt_AfterNodeID v) purpose language text (txt_Tombstoned v)))
  | EditUpdateVisualIntent, NodeVisualIntent v =>
      purpose ← deref (op_VisualIntentPurpose operation); language ← deref (op_Language operation);
      description ← deref (op_Description operation);
      mret (NodeVisualIntent (mkVisualIntent (vis_ID v) revision (vis_DocumentID v) (vis_ParentID v) (vis_AfterNodeID v) purpose language description (vis_Tombstoned v)))
  | EditUpdateNote, NodeNote v =>
      language ← deref (op_Language operation); text ← deref (op_Text operation);
      mret (NodeNote (mkNote (note_ID v) revision (note_DocumentID v) (note_ParentID v) (note_AfterNodeID v) language text (note_Tombstoned v)))
  | _, _ => lift (Fail ErrEditInvalid)
  end.

Definition updateNarrativeNode (operation : EditOperationInput) : M unit :=
  nodeID ← deref (op_NodeID operation);
  node ← reads (fun n => narrativeNode n nodeID);
  match node with
  | None => lift (Fail ErrEditInvalid)
  | Some current =>
      check (negb (narrativeNodeTombstoned current)) ;;
      markTouched EntityNarrativeNode nodeID ;;
      check (operationMatchesNarrativeKind (op_Type operation) current) ;;
      require EntityNarrativeNode nodeID (narrativeNodeRevision current) ;;
      modify (on_parentChanges (delete nodeID)) ;;
      nextRevision ← next_of (narrativeNodeRevision current);
      next ← updated_node operation current nextRevision;
      inverseRevision ← next_of nextRevision;
      modify (setNarrativeNode next) ;;
      appendOperation (PutNarrativeNode next)
        (PutNarrativeNode (narrativeNodeWithRevisionAndTombstone current inverseRevision false)) ;;
      appendChange (existingEntityChange EntityNarrativeNode nodeID (narrativeNodeRevision current) nextRevision false) ;;
      modify (on_narrativeChanged (fun _ => true))
  end.

Definition moveNarrativeNode (operation : EditOperationInput) : M unit :=
  nodeID ← deref (op_NodeID operation);
  node ← reads (fun n => narrativeNode n nodeID);
  match node with
  | None => lift (Fail ErrEditInvalid)
  | Some current =>
      check (negb (narrativeNodeTombstoned current)) ;;
      match narrativeNodeParentPointer current with
      | None => lift (Fail ErrEditInvalid)
      | Some oldParentID =>
          markTouched EntityNarrativeNode nodeID ;;
          let currentRevision := narrativeNodeRevision current in
          require EntityNarrativeNode nodeID currentRevision ;;
          modify (on_parentChanges (delete nodeID)) ;;
          oldParent ← requireNarrativeParent oldParentID;
          parentID ← deref (op_ParentID operation);
          newParent ← or_invalid_m (requireNarrativeParent parentID);
          check (bool_decide (sec_DocumentID oldParent = sec_DocumentID newParent)) ;;
          after ← or_invalid_m (resolveNarrativeNodeReference (op_After operation));
          n ← reads id;
          check (match after with
                 | Some a => negb (bool_decide (a = nodeID)) && bool_decide (narrativeNodeParent n a = sec_ID newParent)
                 | None => true end) ;;
          check (negb (is_section current && sectionDescendsFrom (n_sections n) (sec_ID newParent) nodeID)) ;;
          nextRevision ← next_of currentRevision;
          inverseRevision ← next_of nextRevision;
          let next := narrativeNodeMoved current (sec_ID newParent) after nextRevision in
          let inverse := narrativeNodeMoved current (sec_ID oldParent) (narrativeNodeAfter current) inverseRevision in
          modify (setNarrativeNode next) ;;
          appendOperation (PutNarrativeNode next) (PutNarrativeNode inverse) ;;
          appendChange (existingEntityChange EntityNarrativeNode nodeID currentRevision nextRevision false) ;;
          modify (on_narrativeChanged (fun _ => true)) ;;
          markNarrativeParentChanged (sec_ID oldParent) ;;
          markNarrativeParentChanged (sec_ID newParent) ;;
          if bool_decide (sec_ID oldParent <> sec_ID newParent) then
            add_children (sec_ID oldParent) (-1) ;; add_children (sec_ID newParent) 1
          else mret tt
      end
  end.

Definition removeNarrativeNode (operation : EditOperationInput) : M unit :=
  nodeID ← deref (op_NodeID operation);
  node ← reads (fun n => narrativeNode n nodeID);
  match node with
  | None => lift (Fail ErrEditInvalid)
  | Some current =>
      check (negb (narrativeNodeTombstoned current)) ;;
      match narrativeNodeParentPointer current with
      | None => lift (Fail ErrEditInvalid)
      | Some parentID =>
          children ← reads (fun n => at_key 0 (n_sectionChildren n) nodeID);
          check (negb (is_section current && negb (children =? 0))) ;;
          markTouched EntityNarrativeNode nodeID ;;
          let currentRevision := narrativeNodeRevision current in
          require EntityNarrativeNode nodeID currentRevision ;;
          modify (on_parentChanges (delete nodeID)) ;;
          parent ← requireNarrativeParent parentID;
          nextRevision ← next_of currentRevision;
          inverseRevision ← next_of nextRevision;
          let next := narrativeNodeWithRevisionAndTombstone current nextRevision true in
          modify (setNarrativeNode next) ;;
          appendOperation (PutNarrativeNode next)
            (PutNarrativeNode (narrativeNodeWithRevisionAndTombstone current inverseRevision false)) ;;
          appendChange (existingEntityChange EntityNarrativeNode nodeID currentRevision nextRevision true) ;;
          modify (on_narrativeChanged (fun _ => true)) ;;
          markNarrativeParentChanged (sec_ID parent) ;;
          add_children (sec_ID parent) (-1)
      end
  end.
