(* ===== verification/EditCaptions.v ===== *)
(** Captions and alignments: the caption and alignment methods of
    [product/application/edit_normalize.go] and
    [edit_normalize_alignment_remap.go].

    An alignment ties a narrative node to ranges of captions, of clips or of the
    timeline.  A remap must keep what the alignment means: the same source
    footage for clip targets, the same text for caption targets. *)
From stdpp Require Import base list strings gmap sorting.
From Stdlib Require Import ZArith Lia Ascii.
From S2P Require Import Prelude GoText Exact Identity Canonical EditModel Timeline EditState EditNarrative.
Open Scope Z_scope.

(** ** Captions *)

Definition caption_at (revision : Z) (tombstoned : bool) (c : CaptionState) : CaptionState :=
  mkCaption (caption_ID c) revision (caption_SequenceID c) (caption_TrackID c) (caption_Range c) (caption_Language c)
    (caption_Text c) (caption_Provenance c) (caption_ProvenanceStatus c) tombstoned.
Definition caption_saying (range : TimeRange) (language text : string) (c : CaptionState) : CaptionState :=
  mkCaption (caption_ID c) (caption_Revision c) (caption_SequenceID c) (caption_TrackID c) range language
    text (caption_Provenance c) (caption_ProvenanceStatus c) (caption_Tombstoned c).

Definition addCaption (operation : EditOperationInput) : M unit :=
  createAs ← deref (op_CreateAs operation);
  allocation ← allocation_of createAs;
  check (bool_decide (alloc_Kind allocation = EntityCaption)) ;;
  let captionID := parse_or_zero (alloc_ID allocation) in
  base ← state_of st_Captions;
  check (bool_decide (base !! captionID = None)) ;;
  markTouched EntityCaption captionID ;;
  trackID ← deref (op_TrackID operation);
  track ← track_of trackID;
  sequenceID ← sequence_id;
  check (negb (IsZero (track_ID track)) && bool_decide (track_SequenceID track = sequenceID) &&
         bool_decide (track_Type track = TrackCaption)) ;;
  require EntityTrack (track_ID track) (track_Revision track) ;;
  range ← deref (op_Range operation);
  language ← deref (op_Language operation);
  text ← deref (op_Text operation);
  let state := mkCaption captionID first_revision (track_SequenceID track) (track_ID track) range language text
                 (mkProvenance ProvenanceManual None) None false in
  modify (on_captions (<[captionID := state]>)) ;;
  inverseRevision ← next_of first_revision;
  appendOperation (PutCaption state) (PutCaption (caption_at inverseRevision true state)) ;;
  appendChange (newEntityChange EntityCaption captionID first_revision false) ;;
  modify (on_sequenceChanged (fun _ => true)) ;;
  modify (on_trackChanges (<[track_ID track := track_Revision track]>)).

Definition updateCaption (operation : EditOperationInput) (remove : bool) : M unit :=
  captionID ← deref (op_CaptionID operation);
  captions ← reads n_captions;
  match captions !! captionID with
  | None => lift (Fail ErrEditInvalid)
  | Some current =>
      check (negb (caption_Tombstoned current)) ;;
      markTouched EntityCaption (caption_ID current) ;;
      require EntityCaption (caption_ID current) (caption_Revision current) ;;
      track ← track_of (caption_TrackID current);
      check (negb (IsZero (track_ID track))) ;;
      require EntityTrack (track_ID track) (track_Revision track) ;;
      modify (on_trackChanges (<[track_ID track := track_Revision track]>)) ;;
      nextRevision ← next_of (caption_Revision current);
      next ← (if remove then mret (caption_at nextRevision true current)
              else
                range ← deref (op_Range operation);
                language ← deref (op_Language operation);
                text ← deref (op_Text operation);
                mret (caption_saying range language text (caption_at nextRevision (caption_Tombstoned current) current)));
      inverseRevision ← next_of (caption_Revision next);
      modify (on_captions (<[caption_ID current := next]>)) ;;
      appendOperation (PutCaption next) (PutCaption (caption_at inverseRevision (caption_Tombstoned current) current)) ;;
      appendChange (existingEntityChange EntityCaption (caption_ID current) (caption_Revision current) (caption_Revision next) remove) ;;
      modify (on_sequenceChanged (fun _ => true))
  end.

Definition validateCaptionOverlaps : M unit :=
  touched ← reads n_touched;
  captions ← reads n_captions;
  check (forallb (fun captionID =>
    let caption := at_key zero_caption captions captionID in
    caption_Tombstoned caption ||
    forallb (fun '(otherID, other) =>
      bool_decide (otherID = captionID) || caption_Tombstoned other ||
      bool_decide (caption_TrackID other <> caption_TrackID caption) ||
      negb (rangesOverlap (caption_Range caption) (caption_Range other))) (map_to_list captions))
    (touched_ids EntityCaption touched)).

(** ** Alignments *)

Definition alignment_at (revision : Z) (targets : list AlignmentTarget) (status : AlignmentStatus) (a : AlignmentState) : AlignmentState :=
  mkAlignment (al_ID a) revision (al_NarrativeNodeID a) (al_NarrativeNodeRevision a) (al_SequenceID a) targets status.

Definition range_text (r : TimeRange) : string :=
  format_int (rt_Value (tr_Start r)) +:+ "/" +:+ format_int (rt_Scale (tr_Start r)) +:+ nul +:+
  format_int (rt_Value (tr_Duration r)) +:+ "/" +:+ format_int (rt_Scale (tr_Duration r)).

Definition alignmentTargetKey (target : AlignmentTarget) : string :=
  match target with
  | TargetCaption t => "caption" +:+ nul +:+ ct_CaptionID t +:+ nul +:+ range_text (ct_LocalRange t)
  | TargetClip t => "clip" +:+ nul +:+ kt_ClipID t +:+ nul +:+ range_text (kt_LocalRange t)
  | TargetTimeline t => "timeline" +:+ nul +:+ range_text (tt_Range t)
  end.

(** The body of the loop over [inputs] *)
Definition normalizeAlignmentTarget (input : AlignmentTargetInput) (allowTouched : bool) : M AlignmentTarget :=
  match ti_Type input with
  | AlignmentTargetCaption =>
      reference ← deref (ti_Caption input);
      captionID ← resolveCaptionReference reference;
      captions ← reads n_captions;
      sequenceID ← sequence_id;
      match captions !! captionID with
      | None => lift (Fail ErrEditInvalid)
      | Some caption =>
          check (negb (caption_Tombstoned caption) && bool_decide (caption_SequenceID caption = sequenceID)) ;;
          localRange ← deref (ti_LocalRange input);
          check (rangeWithin localRange (tr_Duration (caption_Range caption))) ;;
          touched ← reads n_touched;
          (if bool_decide (ref_ID reference <> "") &&
              (negb allowTouched || bool_decide (entityKey EntityCaption captionID ∉ touched))
           then require EntityCaption captionID (caption_Revision caption) else mret tt) ;;
          mret (TargetCaption (mkCaptionTarget captionID (caption_Revision caption) localRange))
      end
  | AlignmentTargetClip =>
      reference ← deref (ti_Clip input);
      clipID ← resolveClipReference reference;
      clips ← reads n_clips;
      sequenceID ← sequence_id;
      match clips !! clipID with
      | None => lift (Fail ErrEditInvalid)
      | Some clip =>
          check (negb (clip_Tombstoned clip) && bool_decide (clip_SequenceID clip = sequenceID)) ;;
          localRange ← deref (ti_LocalRange input);
          check (rangeWithin localRange (tr_Duration (clip_TimelineRange clip))) ;;
          touched ← reads n_touched;
          (if bool_decide (ref_ID reference <> "") &&
              (negb allowTouched || bool_decide (entityKey EntityClip clipID ∉ touched))
           then require EntityClip clipID (clip_Revision clip) else mret tt) ;;
          mret (TargetClip (mkClipTarget clipID (clip_Revision clip) localRange))
      end
  | AlignmentTargetTimeline =>
      sequenceRevision ← deref (ti_SequenceRevision input);
      base ← state_of st_SequenceRevision;
      (if sequenceRevision =? base then mret tt else lift (Fail ErrEditConflict)) ;;
      sequenceID ← sequence_id;
      require EntitySequence sequenceID base ;;
      timelineRange ← deref (ti_TimelineRange input);
      mret (TargetTimeline (mkTimelineTarget sequenceRevision timelineRange))
  | AlignmentTargetOther _ => lift (Fail ErrEditInvalid)
  end.

Fixpoint map_each {A B} (f : A -> M B) (items : list A) : M (list B) :=
  match items with
  | [] => mret []
  | item :: rest => b ← f item; bs ← map_each f rest; mret (b :: bs)
  end.

(** The check that no two neighbours have the same key *)
Fixpoint distinct_neighbours (keys : list string) : bool :=
  match keys with
  | a :: ((b :: _) as rest) => negb (bool_decide (a = b)) && distinct_neighbours rest
  | _ => true
  end.

Definition normalizeAlignmentTargets (inputs : list AlignmentTargetInput) (allowTouched : bool) : M (list AlignmentTarget) :=
  targets ← map_each (fun input => normalizeAlignmentTarget input allowTouched) inputs;
  let targets := sort_by alignmentTargetKey targets in
  check (distinct_neighbours (map alignmentTargetKey targets)) ;;
  mret targets.

Definition bindAlignment (operation : EditOperationInput) : M unit :=
  createAs ← deref (op_CreateAs operation);
  allocation ← allocation_of createAs;
  check (bool_decide (alloc_Kind allocation = EntityAlignment)) ;;
  let alignmentID := parse_or_zero (alloc_ID allocation) in
  base ← state_of st_Alignments;
  check (bool_decide (base !! alignmentID = None)) ;;
  markTouched EntityAlignment alignmentID ;;
  reference ← deref (op_NarrativeNode operation);
  nodeID ← resolveNodeReference reference;
  node ← reads (fun n => normalizer_narrativeNodeRevision n nodeID);
  match node with
  | None => lift (Fail ErrEditInvalid)
  | Some nodeRevision =>
      (if bool_decide (ref_ID reference <> "") then require EntityNarrativeNode nodeID nodeRevision else mret tt) ;;
      targets ← normalizeAlignmentTargets (op_AlignmentTargets operation) false;
      sequenceID ← sequence_id;
      let state := mkAlignment alignmentID first_revision nodeID nodeRevision sequenceID targets AlignmentExact in
      modify (on_alignments (<[alignmentID := state]>)) ;;
      inverseRevision ← next_of first_revision;
      appendOperation (PutAlignment state) (PutAlignment (alignment_at inverseRevision targets AlignmentUnbound state)) ;;
      appendChange (newEntityChange EntityAlignment alignmentID first_revision false)
  end.

Definition updateAlignment (id : string) (status : AlignmentStatus) : M unit :=
  alignments ← reads n_alignments;
  match alignments !! id with
  | None => lift (Fail ErrEditInvalid)
  | Some current =>
      markTouched EntityAlignment id ;;
      require EntityAlignment (al_ID current) (al_Revision current) ;;
      nextRevision ← next_of (al_Revision current);
      inverseRevision ← next_of nextRevision;
      let next := alignment_at nextRevision (al_Targets current) status current in
      modify (on_alignments (<[id := next]>)) ;;
      modify (on_alignmentEffects (<[id := status]>)) ;;
      appendOperation (PutAlignment next)
        (PutAlignment (alignment_at inverseRevision (al_Targets current) (al_Status current) current)) ;;
      appendChange (existingEntityChange EntityAlignment (al_ID current) (al_Revision current) nextRevision false)
  end.

(** ** Remapping *)

Record alignmentCoverageSpan := mkSpan { span_start : RationalTime; span_duration : RationalTime }.

(** The order of [sort.Slice]: a span is not after another unless it compares greater. *)
Definition span_less (left right : alignmentCoverageSpan) : bool :=
  match RationalTime_Compare (span_start left) (span_start right) with Ok c => c <? 0 | _ => false end.
Definition span_le (left right : alignmentCoverageSpan) : Prop := span_less right left = false.
#[export] Instance span_le_dec : RelDecision span_le.
Proof. intros l r. unfold span_le. apply _. Defined.

Fixpoint merge_spans_from (previous : alignmentCoverageSpan) (rest : list alignmentCoverageSpan)
  : outcome edit_error (list alignmentCoverageSpan) :=
  match rest with
  | [] => Ok [previous]
  | current :: rest =>
      previousEnd ← or_fail ErrEditInvalid (Add (span_start previous) (span_duration previous));
      comparison ← or_fail ErrEditInvalid (RationalTime_Compare (span_start current) previousEnd);
      _ ← guard_or ErrEditInvalid (0 <=? comparison);
      if comparison =? 0 then
        currentEnd ← or_fail ErrEditInvalid (Add (span_start current) (span_duration current));
        duration ← or_fail ErrEditInvalid (Subtract currentEnd (span_start previous));
        merge_spans_from (mkSpan (span_start previous) duration) rest
      else
        merged ← merge_spans_from current rest;
        Ok (previous :: merged)
  end.

Definition merge_spans (spans : list alignmentCoverageSpan) : outcome edit_error (list alignmentCoverageSpan) :=
  match merge_sort span_le spans with [] => Ok [] | first :: rest => merge_spans_from first rest end.

Definition coverage_key (clip : ClipState) : string := clip_AssetID clip +:+ nul +:+ clip_SourceStreamID clip.

Fixpoint collect_spans (result : gmap string (list alignmentCoverageSpan)) (targets : list AlignmentTarget)
    (clips : gmap string ClipState) : outcome edit_error (gmap string (list alignmentCoverageSpan)) :=
  match targets with
  | [] => Ok result
  | TargetClip target :: rest =>
      let clip := at_key zero_clip clips (kt_ClipID target) in
      _ ← guard_or ErrEditInvalid (negb (IsZero (clip_ID clip)) &&
            rangeWithin (kt_LocalRange target) (tr_Duration (clip_TimelineRange clip)));
      start ← or_fail ErrEditInvalid (Add (tr_Start (clip_SourceRange clip)) (tr_Start (kt_LocalRange target)));
      let key := coverage_key clip in
      collect_spans (<[key := at_key [] result key ++ [mkSpan start (tr_Duration (kt_LocalRange target))]]> result) rest clips
  | _ => Fail ErrEditInvalid
  end.

Fixpoint merge_entries (entries : list (string * list alignmentCoverageSpan))
  : outcome edit_error (gmap string (list alignmentCoverageSpan)) :=
  match entries with
  | [] => Ok ∅
  | (key, spans) :: rest =>
      merged ← merge_spans spans;
      others ← merge_entries rest;
      Ok (<[key := merged]> others)
  end.

Definition alignmentSourceCoverage (targets : list AlignmentTarget) (clips : gmap string ClipState)
  : outcome edit_error (gmap string (list alignmentCoverageSpan)) :=
  result ← collect_spans ∅ targets clips;
  merge_entries (map_to_list result).

Fixpoint same_spans (lefts rights : list alignmentCoverageSpan) : bool :=
  match lefts, rights with
  | [], [] => true
  | l :: lefts, r :: rights =>
      match RationalTime_Compare (span_start l) (span_start r), RationalTime_Compare (span_duration l) (span_duration r) with
      | Ok s, Ok d => (s =? 0) && (d =? 0) && same_spans lefts rights
      | _, _ => false
      end
  | _, _ => false
  end.

Definition sameAlignmentCoverage (left right : gmap string (list alignmentCoverageSpan)) : bool :=
  (size left =? size right)%nat &&
  forallb (fun '(key, spans) => match right !! key with Some other => same_spans spans other | None => false end)
    (map_to_list left).

Fixpoint preserves_caption_targets (base captions : gmap string CaptionState) (current next : list AlignmentTarget) : bool :=
  match current, next with
  | [], [] => true
  | TargetCaption beforeTarget :: current, TargetCaption afterTarget :: next =>
      let before := at_key zero_caption base (ct_CaptionID beforeTarget) in
      let after := at_key zero_caption captions (ct_CaptionID afterTarget) in
      bool_decide (ct_CaptionID beforeTarget = ct_CaptionID afterTarget) &&
      equalTimeRange (ct_LocalRange beforeTarget) (ct_LocalRange afterTarget) &&
      negb (IsZero (caption_ID before)) && negb (IsZero (caption_ID after)) && negb (caption_Tombstoned after) &&
      bool_decide (caption_Text before = caption_Text after) && bool_decide (caption_Language before = caption_Language after) &&
      (ct_CaptionRevision beforeTarget =? caption_Revision before) && (ct_CaptionRevision afterTarget =? caption_Revision after) &&
      rangeWithin (ct_LocalRange afterTarget) (tr_Duration (caption_Range after)) &&
      preserves_caption_targets base captions current next
  | _, _ => false
  end.

Definition preservesCaptionAlignment (n : editNormalizer) (current next : list AlignmentTarget) : bool :=
  (length current =? length next)%nat &&
  preserves_caption_targets (st_Captions (in_State (n_input n))) (n_captions n) current next.

Definition preservesAlignmentSemantics (n : editNormalizer) (current next : list AlignmentTarget) : outcome edit_error bool :=
  match current with
  | [] => Panic
  | TargetClip _ :: _ =>
      Ok match alignmentSourceCoverage current (st_Clips (in_State (n_input n))) with
         | Ok oldCoverage =>
             match alignmentSourceCoverage next (n_clips n) with
             | Ok newCoverage => sameAlignmentCoverage oldCoverage newCoverage
             | _ => false
             end
         | _ => false
         end
  | TargetCaption _ :: _ => Ok (preservesCaptionAlignment n current next)
  | TargetTimeline _ :: _ => Ok false
  end.

Definition target_type (target : AlignmentTarget) : nat :=
  match target with TargetCaption _ => 0 | TargetClip _ => 1 | TargetTimeline _ => 2 end.

Definition remapAlignment (operation : EditOperationInput) : M unit :=
  alignmentID ← deref (op_AlignmentID operation);
  alignments ← reads n_alignments;
  match alignments !! alignmentID with
  | None => lift (Fail ErrEditInvalid)
  | Some current =>
      check (bool_decide (al_Status current = AlignmentExact)) ;;
      check (negb (length (al_Targets current) =? 0)%nat) ;;
      markTouched EntityAlignment (al_ID current) ;;
      touched ← reads n_touched;
      check (bool_decide (entityKey EntityNarrativeNode (al_NarrativeNodeID current) ∉ touched)) ;;
      require EntityAlignment (al_ID current) (al_Revision current) ;;
      targets ← or_invalid_m (normalizeAlignmentTargets (op_AlignmentTargets operation) true);
      check (bool_decide (target_type <$> head targets = target_type <$> head (al_Targets current))) ;;
      n ← reads id;
      preserved ← lift (preservesAlignmentSemantics n (al_Targets current) targets);
      check preserved ;;
      nextRevision ← next_of (al_Revision current);
      inverseRevision ← next_of nextRevision;
      let next := alignment_at nextRevision targets AlignmentExact current in
      modify (on_alignments (<[al_ID current := next]>)) ;;
      modify (on_alignmentEffects (<[al_ID current := AlignmentExact]>)) ;;
      appendOperation (PutAlignment next)
        (PutAlignment (alignment_at inverseRevision (al_Targets current) (al_Status current) current)) ;;
      appendChange (existingEntityChange EntityAlignment (al_ID current) (al_Revision current) nextRevision false)
  end.

(** ** Dependent alignments *)

Definition dependents_of (s : EditNormalizationState) (kind : EditEntityKind) (id : string) : list string :=
  if bool_decide (kind = EntityNarrativeNode) then at_key [] (st_NodeAlignments s) id
  else if bool_decide (kind = EntityCaption) then at_key [] (st_CaptionAlignments s) id
  else if bool_decide (kind = EntityClip) then at_key [] (st_ClipAlignments s) id
  else [].

Definition settled_status (status : option AlignmentStatus) : bool :=
  bool_decide (status = Some AlignmentExact) || bool_decide (status = Some AlignmentStale) ||
  bool_decide (status = Some AlignmentUnbound).

Definition validateAlignmentEffects : M unit :=
  touched ← reads n_touched;
  state ← state_of id;
  effects ← reads n_alignmentEffects;
  check (forallb (fun key =>
    let '(kind, entityID) := splitEntityKey key in
    forallb (fun alignmentID => settled_status (effects !! alignmentID)) (dependents_of state kind entityID))
    (elements touched)).
