(* ===== verification/EditTranscript.v ===== *)
(** Transcript evidence: [product/application/edit_normalize_transcript.go].

    A correction replaces the text of consecutive transcript tokens; a source
    excerpt quotes a token-aligned range with every correction inside it
    applied.  [unicode.IsPunct] is the table of Unicode 15 that Go 1.25 uses. *)
From stdpp Require Import base list strings gmap sorting.
From Stdlib Require Import ZArith Lia Ascii.
From S2P Require Import Prelude GoText Exact Identity Canonical EditModel Timeline EditState EditNarrative.
Open Scope Z_scope.

(** ** Text *)

(** The code points of the general categories P* *)
Definition punct_ranges : list (Z * Z) := [
  (33, 35); (37, 42); (44, 47); (58, 59); (63, 64); (91, 93); (95, 95); (123, 123); (125, 125); (161, 161);
  (167, 167); (171, 171); (182, 183); (187, 187); (191, 191); (894, 894); (903, 903); (1370, 1375); (1417, 1418);
  (1470, 1470); (1472, 1472); (1475, 1475); (1478, 1478); (1523, 1524); (1545, 1546); (1548, 1549); (1563, 1563);
  (1565, 1567); (1642, 1645); (1748, 1748); (1792, 1805); (2039, 2041); (2096, 2110); (2142, 2142); (2404, 2405);
  (2416, 2416); (2557, 2557); (2678, 2678); (2800, 2800); (3191, 3191); (3204, 3204); (3572, 3572); (3663, 3663);
  (3674, 3675); (3844, 3858); (3860, 3860); (3898, 3901); (3973, 3973); (4048, 4052); (4057, 4058); (4170, 4175);
  (4347, 4347); (4960, 4968); (5120, 5120); (5742, 5742); (5787, 5788); (5867, 5869); (5941, 5942); (6100, 6102);
  (6104, 6106); (6144, 6154); (6468, 6469); (6686, 6687); (6816, 6822); (6824, 6829); (7002, 7008); (7037, 7038);
  (7164, 7167); (7227, 7231); (7294, 7295); (7360, 7367); (7379, 7379); (8208, 8231); (8240, 8259); (8261, 8273);
  (8275, 8286); (8317, 8318); (8333, 8334); (8968, 8971); (9001, 9002); (10088, 10101); (10181, 10182);
  (10214, 10223); (10627, 10648); (10712, 10715); (10748, 10749); (11513, 11516); (11518, 11519); (11632, 11632);
  (11776, 11822); (11824, 11855); (11858, 11869); (12289, 12291); (12296, 12305); (12308, 12319); (12336, 12336);
  (12349, 12349); (12448, 12448); (12539, 12539); (42238, 42239); (42509, 42511); (42611, 42611); (42622, 42622);
  (42738, 42743); (43124, 43127); (43214, 43215); (43256, 43258); (43260, 43260); (43310, 43311); (43359, 43359);
  (43457, 43469); (43486, 43487); (43612, 43615); (43742, 43743); (43760, 43761); (44011, 44011); (64830, 64831);
  (65040, 65049); (65072, 65106); (65108, 65121); (65123, 65123); (65128, 65128); (65130, 65131); (65281, 65283);
  (65285, 65290); (65292, 65295); (65306, 65307); (65311, 65312); (65339, 65341); (65343, 65343); (65371, 65371);
  (65373, 65373); (65375, 65381); (65792, 65794); (66463, 66463); (66512, 66512); (66927, 66927); (67671, 67671);
  (67871, 67871); (67903, 67903); (68176, 68184); (68223, 68223); (68336, 68342); (68409, 68415); (68505, 68508);
  (69293, 69293); (69461, 69465); (69510, 69513); (69703, 69709); (69819, 69820); (69822, 69825); (69952, 69955);
  (70004, 70005); (70085, 70088); (70093, 70093); (70107, 70107); (70109, 70111); (70200, 70205); (70313, 70313);
  (70731, 70735); (70746, 70747); (70749, 70749); (70854, 70854); (71105, 71127); (71233, 71235); (71264, 71276);
  (71353, 71353); (71484, 71486); (71739, 71739); (72004, 72006); (72162, 72162); (72255, 72262); (72346, 72348);
  (72350, 72354); (72448, 72457); (72769, 72773); (72816, 72817); (73463, 73464); (73539, 73551); (73727, 73727);
  (74864, 74868); (77809, 77810); (92782, 92783); (92917, 92917); (92983, 92987); (92996, 92996); (93847, 93850);
  (94178, 94178); (113823, 113823); (121479, 121483); (125278, 125279)].

Definition IsPunct (r : Z) : bool := existsb (fun '(lo, hi) => (lo <=? r) && (r <=? hi)) punct_ranges.

(** [utf8.DecodeLastRuneInString]: step back over at most three continuation
    bytes, decode there, and require that the rune ends the text. *)
Definition RuneStart (a : ascii) : bool := negb (Z.land (byte_val a) 192 =? 128).

Definition decode_last_rune (l : bytes) : Z :=
  let n := length l in
  match last l with
  | None => RuneError
  | Some a =>
      if byte_val a <? 128 then byte_val a
      else
        let lim := (n - 4)%nat in
        let is_start (k : nat) := (lim <=? k)%nat && match l !! k with Some b => RuneStart b | None => false end in
        let start := if (2 <=? n)%nat && is_start (n - 2)%nat then (n - 2)%nat
                     else if (3 <=? n)%nat && is_start (n - 3)%nat then (n - 3)%nat
                     else if (4 <=? n)%nat && is_start (n - 4)%nat then (n - 4)%nat
                     else (lim - 1)%nat in
        let '(r, size) := decode_rune (drop start l) in
        if (start + size =? n)%nat then r else RuneError
  end.

Definition needsTranscriptSpace (existing next : string) : bool :=
  if bool_decide (existing = "") || bool_decide (next = "") then false
  else
    let left := decode_last_rune (bytes_of existing) in
    let right := (decode_rune (bytes_of next)).1 in
    negb (is_space left) && negb (is_space right) && negb (IsPunct right).

Definition appendTranscriptText (result value : string) (ensureBoundary : bool) : string :=
  (if (0 <? go_len result) && ensureBoundary && needsTranscriptSpace result value then result +:+ " " else result) +:+ value.

Definition MaximumAuthoredTextBytes : Z := 262144.

(** ** Evidence *)

Record transcriptEvidenceToken := mkEvidenceToken { et_segmentOrdinal : Z; et_token : TranscriptToken }.

(** The loop that looks the segments up: each exists once, ordinals are consecutive. *)
Fixpoint evidence_segments (segments : gmap string EditTranscriptSegmentState) (seen : gset string)
    (previous : option Z) (ids : list string) : outcome edit_error (list EditTranscriptSegmentState) :=
  match ids with
  | [] => Ok []
  | id :: rest =>
      match segments !! id with
      | None => Fail ErrEditInvalid
      | Some segment =>
          _ ← guard_or ErrEditInvalid (negb (IsZero id) && bool_decide (id ∉ seen) &&
                match previous with Some ordinal => seg_Ordinal segment =? to_uint32 (ordinal + 1) | None => true end);
          others ← evidence_segments segments ({[ id ]} ∪ seen) (Some (seg_Ordinal segment)) rest;
          Ok (segment :: others)
      end
  end.

(** One token: outside the range it is skipped, straddling a border is an error. *)
Definition evidence_token (rangeValue : TimeRange) (end_ : RationalTime) (token : TranscriptToken) : outcome edit_error bool :=
  tokenEnd ← or_fail ErrEditInvalid (End (tok_SourceRange token));
  startsBeforeEnd ← or_fail ErrEditInvalid (RationalTime_Compare (tr_Start (tok_SourceRange token)) end_);
  endsAfterStart ← or_fail ErrEditInvalid (RationalTime_Compare tokenEnd (tr_Start rangeValue));
  if (0 <=? startsBeforeEnd) || (endsAfterStart <=? 0) then Ok false
  else
    let startInside := cmp_or_zero (RationalTime_Compare (tr_Start (tok_SourceRange token)) (tr_Start rangeValue)) in
    let endInside := cmp_or_zero (RationalTime_Compare tokenEnd end_) in
    if (startInside <? 0) || (0 <? endInside) then Fail ErrEditInvalid else Ok true.

Fixpoint evidence_tokens (rangeValue : TimeRange) (end_ : RationalTime) (candidates : list transcriptEvidenceToken)
  : outcome edit_error (list transcriptEvidenceToken) :=
  match candidates with
  | [] => Ok []
  | candidate :: rest =>
      inside ← evidence_token rangeValue end_ (et_token candidate);
      others ← evidence_tokens rangeValue end_ rest;
      Ok (if inside : bool then candidate :: others else others)
  end.

Definition segment_tokens (segments : list EditTranscriptSegmentState) : list transcriptEvidenceToken :=
  concat (map (fun segment => map (mkEvidenceToken (seg_Ordinal segment)) (seg_Tokens segment)) segments).

(** [value, _ := r.End()] *)
Definition end_or_zero (r : TimeRange) : RationalTime := match End r with Ok e => e | _ => zero_time end.

Definition transcriptEvidenceSpan (artifact : EditTranscriptArtifactState) (ids : list string) (rangeValue : TimeRange)
  : outcome edit_error (list EditTranscriptSegmentState * list transcriptEvidenceToken) :=
  _ ← guard_or ErrEditInvalid (negb (length ids =? 0)%nat && (length ids <=? 256)%nat &&
        valid_time (tr_Start rangeValue) && valid_time (tr_Duration rangeValue) && IsPositive (tr_Duration rangeValue));
  segments ← evidence_segments (art_Segments artifact) ∅ None ids;
  end_ ← or_fail ErrEditInvalid (End rangeValue);
  tokens ← evidence_tokens rangeValue end_ (segment_tokens segments);
  match tokens, last tokens with
  | first :: _, Some final =>
      let firstComparison := cmp_or_zero (RationalTime_Compare (tr_Start (tok_SourceRange (et_token first))) (tr_Start rangeValue)) in
      let lastComparison := cmp_or_zero (RationalTime_Compare (end_or_zero (tok_SourceRange (et_token final))) end_) in
      _ ← guard_or ErrEditInvalid ((firstComparison =? 0) && (lastComparison =? 0));
      _ ← guard_or ErrEditInvalid (forallb (fun segment =>
            existsb (fun token => et_segmentOrdinal token =? seg_Ordinal segment) tokens) segments);
      Ok (segments, tokens)
  | _, _ => Fail ErrEditInvalid
  end.

(** The loop of [effectiveTranscriptText]; [corrections] are those still to come. *)
Fixpoint effective_text_loop (result : string) (first : bool) (skippedUntil : option RationalTime) (previousSegment : Z)
    (corrections : list TranscriptCorrectionState) (tokens : list transcriptEvidenceToken)
  : outcome edit_error (string * list TranscriptCorrectionState) :=
  match tokens with
  | [] => Ok (result, corrections)
  | current :: rest =>
      let start := tr_Start (tok_SourceRange (et_token current)) in
      let skipped := match skippedUntil with
                     | Some until => cmp_or_zero (RationalTime_Compare start until) <? 0
                     | None => false end in
      if skipped then effective_text_loop result false skippedUntil previousSegment corrections rest
      else
        let plain := effective_text_loop
          (appendTranscriptText result (tok_Text (et_token current))
             (negb first && negb (et_segmentOrdinal current =? previousSegment)))
          false None (et_segmentOrdinal current) corrections rest in
        match corrections with
        | [] => plain
        | correction :: corrections' =>
            let comparison := cmp_or_zero (RationalTime_Compare start (tr_Start (cor_SourceRange correction))) in
            if comparison =? 0 then
              effective_text_loop (appendTranscriptText result (cor_ReplacementText correction) (negb first))
                false (Some (end_or_zero (cor_SourceRange correction))) (et_segmentOrdinal current) corrections' rest
            else if 0 <? comparison then Fail ErrEditInvalid
            else plain
        end
  end.

Definition effectiveTranscriptText (tokens : list transcriptEvidenceToken) (corrections : list TranscriptCorrectionState)
  : outcome edit_error string :=
  '(result, remaining) ← effective_text_loop "" true None 0 corrections tokens;
  _ ← guard_or ErrEditInvalid (length remaining =? 0)%nat;
  let value := trim_space result in
  _ ← guard_or ErrEditInvalid (negb (bool_decide (value = "")) && (go_len value <=? MaximumAuthoredTextBytes));
  Ok value.

Definition transcriptRangeContains (parent child : TimeRange) : bool :=
  match End parent, End child with
  | Ok parentEnd, Ok childEnd =>
      match RationalTime_Compare (tr_Start child) (tr_Start parent), RationalTime_Compare childEnd parentEnd with
      | Ok startComparison, Ok endComparison => (0 <=? startComparison) && (endComparison <=? 0)
      | _, _ => false
      end
  | _, _ => false
  end.

(** A live correction of the artifact and language that overlaps the range *)
Definition correction_applies (artifactID language : string) (rangeValue : TimeRange) (correction : TranscriptCorrectionState) : bool :=
  negb (cor_Tombstoned correction) && bool_decide (cor_ArtifactID correction = artifactID) &&
  bool_decide (cor_Language correction = language) && rangesOverlap (cor_SourceRange correction) rangeValue.

Definition transcriptCorrectionOverlaps (corrections : gmap string TranscriptCorrectionState) (artifactID language : string)
    (rangeValue : TimeRange) (exclude : string) : bool :=
  existsb (fun '(correctionID, correction) =>
    negb (bool_decide (correctionID = exclude)) && correction_applies artifactID language rangeValue correction)
    (map_to_list corrections).

(** The order in which corrections are applied *)
Definition correction_before (left right : TranscriptCorrectionState) : bool :=
  cmp_or_zero (RationalTime_Compare (tr_Start (cor_SourceRange left)) (tr_Start (cor_SourceRange right))) <? 0.
Definition correction_le (left right : TranscriptCorrectionState) : Prop := correction_before right left = false.
#[export] Instance correction_le_dec : RelDecision correction_le.
Proof. intros l r. unfold correction_le. apply _. Defined.

Fixpoint no_neighbour_overlap (corrections : list TranscriptCorrectionState) : bool :=
  match corrections with
  | a :: ((b :: _) as rest) => negb (rangesOverlap (cor_SourceRange a) (cor_SourceRange b)) && no_neighbour_overlap rest
  | _ => true
  end.

Definition ResolveTranscriptEvidenceText (artifact : EditTranscriptArtifactState) (segmentIDs : list string)
    (rangeValue : TimeRange) (corrections : list TranscriptCorrectionState) : outcome edit_error string :=
  '(_, tokens) ← transcriptEvidenceSpan artifact segmentIDs rangeValue;
  effectiveTranscriptText tokens (merge_sort correction_le corrections).

(** The loop over all corrections: those that apply lie inside the range and
    were provided at their revision; they leave [provided]. *)
Fixpoint select_corrections (artifactID language : string) (rangeValue : TimeRange) (provided : gmap string Z)
    (entries : list (string * TranscriptCorrectionState)) : outcome edit_error (list TranscriptCorrectionState * gmap string Z) :=
  match entries with
  | [] => Ok ([], provided)
  | (correctionID, correction) :: rest =>
      if correction_applies artifactID language rangeValue correction then
        _ ← guard_or ErrEditInvalid (transcriptRangeContains rangeValue (cor_SourceRange correction) &&
              (at_key 0 provided correctionID =? cor_Revision correction));
        '(others, remaining) ← select_corrections artifactID language rangeValue (delete correctionID provided) rest;
        Ok (correction :: others, remaining)
      else select_corrections artifactID language rangeValue provided rest
  end.

(** What [sourceExcerptCorrections] and [captionExcerptCorrections] do with the
    corrections they were given *)
Definition applicable_corrections (artifactID language : string) (rangeValue : TimeRange) (provided : gmap string Z)
    (corrections : gmap string TranscriptCorrectionState) : outcome edit_error (list TranscriptCorrectionState) :=
  '(result, remaining) ← select_corrections artifactID language rangeValue provided (map_to_list corrections);
  _ ← guard_or ErrEditInvalid (size remaining =? 0)%nat;
  let result := merge_sort correction_le result in
  _ ← guard_or ErrEditInvalid (no_neighbour_overlap result);
  Ok result.

(** The loop over [references] *)
Fixpoint provided_corrections (provided : gmap string Z) (references : list TranscriptCorrectionReferenceInput) : M (gmap string Z) :=
  match references with
  | [] => mret provided
  | reference :: rest =>
      value ← or_invalid_m (resolveReference (cri_Correction reference) EntityTranscriptCorrection);
      corrections ← reads n_corrections;
      match corrections !! value with
      | None => lift (Fail ErrEditInvalid)
      | Some correction =>
          check (negb (cor_Tombstoned correction)) ;;
          let revision := cor_Revision correction in
          (if bool_decide (ref_ID (cri_Correction reference) <> "") then
             (if bool_decide (cri_Revision reference = Some revision) then mret tt else lift (Fail ErrEditConflict)) ;;
             require EntityTranscriptCorrection value revision
           else check (bool_decide (cri_Revision reference = None))) ;;
          check (bool_decide (provided !! value = None)) ;;
          provided_corrections (<[value := revision]> provided) rest
      end
  end.

Definition sourceExcerptCorrections (artifactID language : string) (rangeValue : TimeRange)
    (references : list TranscriptCorrectionReferenceInput) : M (list TranscriptCorrectionState) :=
  provided ← provided_corrections ∅ references;
  corrections ← reads n_corrections;
  lift (applicable_corrections artifactID language rangeValue provided corrections).

Definition transcriptSegmentIDs (segments : list EditTranscriptSegmentState) : list string := map seg_ID segments.
Definition correctionRevisionRefs (corrections : list TranscriptCorrectionState) : list TranscriptCorrectionRevisionRef :=
  map (fun c => mkCorrectionRef (cor_ID c) (cor_Revision c)) corrections.

(** ** Operations *)

Definition correction_at (revision : Z) (tombstoned : bool) (c : TranscriptCorrectionState) : TranscriptCorrectionState :=
  mkCorrection (cor_ID c) revision (cor_AssetID c) (cor_ArtifactID c) (cor_SegmentIDs c) (cor_SourceRange c)
    (cor_ReplacementText c) (cor_Language c) tombstoned.
Definition correction_saying (text language : string) (c : TranscriptCorrectionState) : TranscriptCorrectionState :=
  mkCorrection (cor_ID c) (cor_Revision c) (cor_AssetID c) (cor_ArtifactID c) (cor_SegmentIDs c) (cor_SourceRange c)
    text language (cor_Tombstoned c).
Definition excerpt_at (revision : Z) (tombstoned : bool) (v : SourceExcerptState) : SourceExcerptState :=
  mkExcerpt (exc_ID v) revision (exc_DocumentID v) (exc_ParentID v) (exc_AfterNodeID v) (exc_AssetID v)
    (exc_AcceptedFingerprint v) (exc_SourceRange v) (exc_Language v) (exc_EffectiveText v) (exc_Evidence v) tombstoned.

Definition addTranscriptCorrection (operation : EditOperationInput) : M unit :=
  createAs ← deref (op_CreateAs operation);
  allocation ← allocation_of createAs;
  check (bool_decide (alloc_Kind allocation = EntityTranscriptCorrection)) ;;
  let correctionID := parse_or_zero (alloc_ID allocation) in
  corrections ← reads n_corrections;
  check (bool_decide (corrections !! correctionID = None)) ;;
  markTouched EntityTranscriptCorrection correctionID ;;
  artifactID ← deref (op_TranscriptArtifactID operation);
  artifacts ← state_of st_TranscriptArtifacts;
  match artifacts !! artifactID with
  | None => lift (Fail ErrEditInvalid)
  | Some artifact =>
      assetID ← deref (op_AssetID operation);
      check (bool_decide (art_AssetID artifact = assetID)) ;;
      sourceRange ← deref (op_SourceRange operation);
      '(segments, _) ← or_invalid (transcriptEvidenceSpan artifact (op_TranscriptSegmentIDs operation) sourceRange);
      language ← deref (op_Language operation);
      check (negb (transcriptCorrectionOverlaps corrections (art_ID artifact) language sourceRange "")) ;;
      text ← deref (op_Text operation);
      let state := mkCorrection correctionID first_revision (art_AssetID artifact) (art_ID artifact)
                     (transcriptSegmentIDs segments) sourceRange text language false in
      modify (on_corrections (<[correctionID := state]>)) ;;
      inverseRevision ← next_of first_revision;
      appendOperation (PutTranscriptCorrection state) (PutTranscriptCorrection (correction_at inverseRevision true state)) ;;
      appendChange (newEntityChange EntityTranscriptCorrection correctionID first_revision false)
  end.

Definition updateTranscriptCorrection (operation : EditOperationInput) (remove : bool) : M unit :=
  correctionID ← deref (op_TranscriptCorrectionID operation);
  corrections ← reads n_corrections;
  match corrections !! correctionID with
  | None => lift (Fail ErrEditInvalid)
  | Some current =>
      check (negb (cor_Tombstoned current)) ;;
      markTouched EntityTranscriptCorrection (cor_ID current) ;;
      require EntityTranscriptCorrection (cor_ID current) (cor_Revision current) ;;
      nextRevision ← next_of (cor_Revision current);
      next ← (if remove then mret (correction_at nextRevision true current)
              else
                text ← deref (op_Text operation);
                language ← deref (op_Language operation);
                let next := correction_saying text language (correction_at nextRevision (cor_Tombstoned current) current) in
                check (negb (transcriptCorrectionOverlaps corrections (cor_ArtifactID next) (cor_Language next)
                               (cor_SourceRange next) (cor_ID current))) ;;
                mret next);
      inverseRevision ← next_of (cor_Revision next);
      modify (on_corrections (<[cor_ID current := next]>)) ;;
      appendOperation (PutTranscriptCorrection next)
        (PutTranscriptCorrection (correction_at inverseRevision (cor_Tombstoned current) current)) ;;
      appendChange (existingEntityChange EntityTranscriptCorrection (cor_ID current) (cor_Revision current) (cor_Revision next) remove)
  end.

Definition insertSourceExcerpt (operation : EditOperationInput) : M unit :=
  createAs ← deref (op_CreateAs operation);
  allocation ← allocation_of createAs;
  check (bool_decide (alloc_Kind allocation = EntityNarrativeNode)) ;;
  let nodeID := parse_or_zero (alloc_ID allocation) in
  exists_ ← reads (fun n => bool_decide (is_Some (n_sourceExcerpts n !! nodeID)) || narrativeNodeExists n nodeID);
  check (negb exists_) ;;
  markTouched EntityNarrativeNode nodeID ;;
  parentID ← deref (op_ParentID operation);
  parent ← requireNarrativeParent parentID;
  after ← resolveNarrativeNodeReference (op_After operation);
  n ← reads id;
  check (match after with Some a => bool_decide (narrativeNodeParent n a = sec_ID parent) | None => true end) ;;
  artifactID ← deref (op_TranscriptArtifactID operation);
  artifacts ← state_of st_TranscriptArtifacts;
  match artifacts !! artifactID with
  | None => lift (Fail ErrEditInvalid)
  | Some artifact =>
      assetID ← deref (op_AssetID operation);
      check (bool_decide (art_AssetID artifact = assetID)) ;;
      fingerprint ← deref (op_AcceptedFingerprint operation);
      check (bool_decide (art_Fingerprint artifact = fingerprint)) ;;
      sourceRange ← deref (op_SourceRange operation);
      '(segments, tokens) ← lift (transcriptEvidenceSpan artifact (op_TranscriptSegmentIDs operation) sourceRange);
      language ← deref (op_Language operation);
      corrections ← sourceExcerptCorrections (art_ID artifact) language sourceRange (op_CorrectionRevisions operation);
      effectiveText ← lift (effectiveTranscriptText tokens corrections);
      let state := mkExcerpt nodeID first_revision (sec_DocumentID parent) (sec_ID parent) after (art_AssetID artifact)
                     (art_Fingerprint artifact) sourceRange language effectiveText
                     (mkEvidence (art_ID artifact) (art_SourceStreamID artifact) (transcriptSegmentIDs segments)
                        (correctionRevisionRefs corrections)) false in
      modify (on_sourceExcerpts (<[nodeID := state]>)) ;;
      inverseRevision ← next_of first_revision;
      appendOperation (PutNarrativeNode (NodeSourceExcerpt state))
        (PutNarrativeNode (NodeSourceExcerpt (excerpt_at inverseRevision true state))) ;;
      appendChange (newEntityChange EntityNarrativeNode nodeID first_revision false) ;;
      modify (on_narrativeChanged (fun _ => true)) ;;
      markNarrativeParentChanged (sec_ID parent) ;;
      add_children (sec_ID parent) 1
  end.
