(* ===== verification/EditDerive.v ===== *)
(** Derived captions and rough cuts:
    [product/application/edit_normalize_caption_derivation.go],
    [edit_normalize_rough_cut.go], [product/domain/caption_derivation.go] and
    [rough_cut.go].

    Captions are grouped from transcript tokens under a fixed policy of line
    length, duration, gap and reading rate; a rough cut lays excerpts end to end
    on the timeline.  Both are recomputed here and compared with what the
    request proposes.  Grapheme counting and SHA-256 come from [Platform]. *)
From stdpp Require Import base list strings gmap sorting.
From Stdlib Require Import ZArith Lia Ascii.
From S2P Require Import Prelude GoText Exact Identity Canonical EditModel Timeline EditState EditClips.
From S2P Require Import EditNarrative EditCaptions EditTranscript.
Open Scope Z_scope.

(** ** Policies *)

(** [value, _ := NewRationalTime(...)] *)
Definition time_or_zero (r : outcome exact_error RationalTime) : RationalTime := match r with Ok t => t | _ => zero_time end.
Definition range_or_zero (r : outcome exact_error TimeRange) : TimeRange := match r with Ok t => t | _ => zero_range end.

Definition ReadableCaptionPolicyV1 : CaptionDerivationPolicy :=
  mkCaptionPolicy "readable-captions-v1" 2 42 (time_or_zero (NewRationalTime 1 1)) (time_or_zero (NewRationalTime 6 1))
    (time_or_zero (NewRationalTime 3 4)) 20 "terminal-punctuation-v1" "forward-pad-no-overlap-v1"
    "unicode-egc-15.0.0-uniseg-v0.4.7".

Definition CaptionDerivationPolicy_Validate (policy : CaptionDerivationPolicy) : outcome exact_error unit :=
  let expected := ReadableCaptionPolicyV1 in
  match RationalTime_Compare (cp_MinimumDuration policy) (cp_MinimumDuration expected),
        RationalTime_Compare (cp_MaximumDuration policy) (cp_MaximumDuration expected),
        RationalTime_Compare (cp_MaximumGap policy) (cp_MaximumGap expected) with
  | Ok minimum, Ok maximum, Ok gap =>
      if negb (minimum =? 0) || negb (maximum =? 0) || negb (gap =? 0) ||
         bool_decide (cp_ID policy <> cp_ID expected) || negb (cp_MaximumLines policy =? cp_MaximumLines expected) ||
         negb (cp_MaximumLineGraphemes policy =? cp_MaximumLineGraphemes expected) ||
         negb (cp_MaximumReadingRate policy =? cp_MaximumReadingRate expected) ||
         bool_decide (cp_BoundaryPolicy policy <> cp_BoundaryPolicy expected) ||
         bool_decide (cp_TimingPolicy policy <> cp_TimingPolicy expected) ||
         bool_decide (cp_UnicodeSegmentationID policy <> cp_UnicodeSegmentationID expected)
      then Fail ErrInvalidRationalTime else Ok tt
  | _, _, _ => Fail ErrInvalidRationalTime
  end.

Definition PaperEditRoughCutPolicyV1 : RoughCutDerivationPolicy :=
  mkRoughCutPolicy "paper-edit-rough-cut-v1" "request-order" (time_or_zero (NewRationalTime 0 1)) "zero" "1:1" "forbidden"
    "one-link-group-per-two-lane-excerpt".

Definition RoughCutDerivationPolicy_Validate (policy : RoughCutDerivationPolicy) : bool :=
  bool_decide (policy = PaperEditRoughCutPolicyV1).

(** ** Grouping tokens into captions *)

Record captionEvidenceUnit := mkUnit {
  unit_range : TimeRange; unit_text : string; unit_ensureBoundary : bool; unit_segmentIDs : list string;
  unit_correction : option TranscriptCorrectionRevisionRef }.

Record CaptionDerivationCue := mkCue {
  cue_SourceRange : TimeRange; cue_TimelineRange : TimeRange; cue_EvidenceSourceRange : TimeRange; cue_Text : string;
  cue_SegmentIDs : list string; cue_CorrectionRevisions : list TranscriptCorrectionRevisionRef }.

(** [segmentByOrdinal]: the last segment of an ordinal wins *)
Definition segment_by_ordinal (segments : list EditTranscriptSegmentState) (ordinal : Z) : option string :=
  seg_ID <$> last (filter (fun s => seg_Ordinal s = ordinal) segments).

Fixpoint evidence_units_loop (segments : list EditTranscriptSegmentState) (first : bool) (skippedUntil : option RationalTime)
    (previousSegment : Z) (corrections : list TranscriptCorrectionState) (tokens : list transcriptEvidenceToken)
  : outcome edit_error (list captionEvidenceUnit * list TranscriptCorrectionState) :=
  match tokens with
  | [] => Ok ([], corrections)
  | current :: rest =>
      let token := et_token current in
      let start := tr_Start (tok_SourceRange token) in
      let skipped := match skippedUntil with
                     | Some until => cmp_or_zero (RationalTime_Compare start until) <? 0
                     | None => false end in
      if skipped then evidence_units_loop segments false skippedUntil previousSegment corrections rest
      else
        let plain :=
          match segment_by_ordinal segments (et_segmentOrdinal current) with
          | None => Fail ErrEditInvalid
          | Some segmentID =>
              '(units, remaining) ← evidence_units_loop segments false None (et_segmentOrdinal current) corrections rest;
              Ok (mkUnit (tok_SourceRange token) (tok_Text token)
                    (negb first && negb (et_segmentOrdinal current =? previousSegment)) [segmentID] None :: units, remaining)
          end in
        match corrections with
        | [] => plain
        | correction :: corrections' =>
            let comparison := cmp_or_zero (RationalTime_Compare start (tr_Start (cor_SourceRange correction))) in
            if comparison =? 0 then
              '(units, remaining) ← evidence_units_loop segments false (Some (end_or_zero (cor_SourceRange correction)))
                                      (et_segmentOrdinal current) corrections' rest;
              Ok (mkUnit (cor_SourceRange correction) (cor_ReplacementText correction) (negb first) (cor_SegmentIDs correction)
                    (Some (mkCorrectionRef (cor_ID correction) (cor_Revision correction))) :: units, remaining)
            else if 0 <? comparison then Fail ErrEditInvalid
            else plain
        end
  end.

Definition captionEvidenceUnits (segments : list EditTranscriptSegmentState) (tokens : list transcriptEvidenceToken)
    (corrections : list TranscriptCorrectionState) : outcome edit_error (list captionEvidenceUnit) :=
  '(units, remaining) ← evidence_units_loop segments true None 0 corrections tokens;
  _ ← guard_or ErrEditInvalid ((length remaining =? 0)%nat && negb (length units =? 0)%nat);
  Ok units.

Definition joinCaptionUnits (units : list captionEvidenceUnit) : string :=
  trim_space (foldl (fun result unit => appendTranscriptText result (unit_text unit) (unit_ensureBoundary unit)) "" units).

(** May the second of two neighbours start a line? *)
Definition word_boundary (previous unit : captionEvidenceUnit) : bool :=
  is_space (decode_last_rune (bytes_of (unit_text previous))) || is_space (decode_rune (bytes_of (unit_text unit))).1 ||
  (unit_ensureBoundary unit && needsTranscriptSpace (unit_text previous) (unit_text unit)).

(** The largest index [0 < i <= k] with a boundary before unit [i]; 0 for none *)
Fixpoint last_boundary (units : list captionEvidenceUnit) (k : nat) : nat :=
  match k with
  | O => O
  | S k' =>
      match units !! k', units !! k with
      | Some previous, Some unit => if word_boundary previous unit then k else last_boundary units k'
      | _, _ => last_boundary units k'
      end
  end.
Definition lastCaptionWordBoundary (units : list captionEvidenceUnit) : nat := last_boundary units (length units - 1).

Definition terminal_runes : list Z := [46; 33; 63; 12290; 65281; 65311; 8230].

Definition captionUnitEndsTerminal (unit : captionEvidenceUnit) : bool :=
  let value := trim_space (unit_text unit) in
  if bool_decide (value = "") then false
  else existsb (Z.eqb (decode_last_rune (bytes_of value))) terminal_runes.

(** Keep the first occurrence of each key *)
Fixpoint first_occurrences {A} (key : A -> string) (seen : gset string) (items : list A) : list A :=
  match items with
  | [] => []
  | item :: rest =>
      if bool_decide (key item ∈ seen) then first_occurrences key seen rest
      else item :: first_occurrences key ({[ key item ]} ∪ seen) rest
  end.

Definition captionGroupEvidence (group : list captionEvidenceUnit) : list string * list TranscriptCorrectionRevisionRef :=
  (first_occurrences id ∅ (concat (map unit_segmentIDs group)),
   first_occurrences cref_ID ∅ (omap unit_correction group)).

(** [strings.Join(lines, newline)] *)
Fixpoint join_lines (lines : list string) : string :=
  match lines with
  | [] => ""
  | [line] => line
  | line :: rest => line +:+ String (byte_of 10) "" +:+ join_lines rest
  end.

(** [strings.ReplaceAll(text, newline, "")] *)
Definition without_newlines (text : string) : string :=
  string_of (filter (fun a => byte_val a <> 10) (bytes_of text)).

Definition captionExcerptCorrections (excerpt : SourceExcerptState) (state : gmap string TranscriptCorrectionState)
  : outcome edit_error (list TranscriptCorrectionState) :=
  let references := ev_CorrectionRevisions (exc_Evidence excerpt) in
  _ ← guard_or ErrEditInvalid (bool_decide (NoDup (map cref_ID references)));
  applicable_corrections (ev_ArtifactID (exc_Evidence excerpt)) (exc_Language excerpt) (exc_SourceRange excerpt)
    (list_to_map (map (fun r => (cref_ID r, cref_Revision r)) references)) state.

Section derivation.
Context `{Platform}.

(** The loop of [wrapCaptionUnits]: [lines] are complete, [current] is open. *)
Fixpoint wrap_loop (policy : CaptionDerivationPolicy) (lines : list (list captionEvidenceUnit)) (current units : list captionEvidenceUnit)
  : outcome edit_error (list (list captionEvidenceUnit) * list captionEvidenceUnit) :=
  match units with
  | [] => Ok (lines, current)
  | unit :: rest =>
      let candidate := current ++ [unit] in
      if GraphemeClusterCount (joinCaptionUnits candidate) <=? cp_MaximumLineGraphemes policy
      then wrap_loop policy lines candidate rest
      else
        let breakIndex := lastCaptionWordBoundary candidate in
        if (breakIndex =? 0)%nat then Fail ErrEditInvalid
        else
          let lines := lines ++ [take breakIndex candidate] in
          let current := drop breakIndex candidate in
          if (cp_MaximumLines policy <=? Z.of_nat (length lines)) ||
             (cp_MaximumLineGraphemes policy <? GraphemeClusterCount (joinCaptionUnits current))
          then Fail ErrEditInvalid
          else wrap_loop policy lines current rest
  end.

Definition wrapCaptionUnits (units : list captionEvidenceUnit) (policy : CaptionDerivationPolicy) : outcome edit_error string :=
  '(lines, current) ← wrap_loop policy [] [] units;
  let lines := if (length current =? 0)%nat then lines else lines ++ [current] in
  _ ← guard_or ErrEditInvalid (negb (length lines =? 0)%nat && (Z.of_nat (length lines) <=? cp_MaximumLines policy));
  let value := join_lines (map joinCaptionUnits lines) in
  _ ← guard_or ErrEditInvalid (negb (bool_decide (value = "")) && (go_len value <=? MaximumAuthoredTextBytes));
  Ok value.

(** Whether [unit] starts a new caption after the units [first :: ... :: previous] *)
Definition break_before (policy : CaptionDerivationPolicy) (current : list captionEvidenceUnit)
    (first previous unit : captionEvidenceUnit) : outcome edit_error bool :=
  let previousEnd := end_or_zero (unit_range previous) in
  gap ← or_fail ErrEditInvalid (Subtract (tr_Start (unit_range unit)) previousEnd);
  _ ← guard_or ErrEditInvalid (negb (IsNegative gap));
  let start := tr_Start (unit_range first) in
  let candidateDuration := time_or_zero (Subtract (end_or_zero (unit_range unit)) start) in
  let currentDuration := time_or_zero (Subtract previousEnd start) in
  Ok ((0 <? cmp_or_zero (RationalTime_Compare gap (cp_MaximumGap policy))) ||
      (0 <? cmp_or_zero (RationalTime_Compare candidateDuration (cp_MaximumDuration policy))) ||
      (captionUnitEndsTerminal previous && (0 <=? cmp_or_zero (RationalTime_Compare currentDuration (cp_MinimumDuration policy)))) ||
      negb (is_ok (wrapCaptionUnits (current ++ [unit]) policy))).

Fixpoint group_loop (policy : CaptionDerivationPolicy) (groups : list (list captionEvidenceUnit)) (current units : list captionEvidenceUnit)
  : outcome edit_error (list (list captionEvidenceUnit)) :=
  match units with
  | [] => Ok (if (length current =? 0)%nat then groups else groups ++ [current])
  | unit :: rest =>
      _ ← guard_or ErrEditInvalid (GraphemeClusterCount (trim_space (unit_text unit)) <=? cp_MaximumLineGraphemes policy);
      breakBefore ← (match current, last current with
                     | first :: _, Some previous => break_before policy current first previous unit
                     | _, _ => Ok false
                     end);
      let groups := if breakBefore : bool then groups ++ [current] else groups in
      let current := if breakBefore : bool then [unit] else current ++ [unit] in
      _ ← wrapCaptionUnits current policy;
      group_loop policy groups current rest
  end.

Definition groupCaptionUnits (units : list captionEvidenceUnit) (policy : CaptionDerivationPolicy)
  : outcome edit_error (list (list captionEvidenceUnit)) :=
  groups ← group_loop policy [] [] units;
  _ ← guard_or ErrEditInvalid (negb (length groups =? 0)%nat && (length groups <=? 128)%nat);
  Ok groups.

Definition later (a b : RationalTime) : RationalTime := if 0 <? cmp_or_zero (RationalTime_Compare a b) then a else b.

(** One iteration over [groups]: the cue starts with its evidence, lasts at least
    the minimum duration and the reading time, and ends by [capEnd]. *)
Definition derive_cue (clip : ClipState) (policy : CaptionDerivationPolicy) (capEnd : RationalTime) (group : list captionEvidenceUnit)
  : outcome edit_error CaptionDerivationCue :=
  text ← wrapCaptionUnits group policy;
  match group, last group with
  | first :: _, Some final =>
      let evidenceStart := tr_Start (unit_range first) in
      let evidenceEnd := end_or_zero (unit_range final) in
      minimumEnd ← or_fail ErrEditInvalid (Add evidenceStart (cp_MinimumDuration policy));
      readingDuration ← or_fail ErrEditInvalid
        (NewRationalTime (to_int64 (GraphemeClusterCount (without_newlines text))) (to_int32 (cp_MaximumReadingRate policy)));
      readingEnd ← or_fail ErrEditInvalid (Add evidenceStart readingDuration);
      let desiredEnd := later readingEnd (later minimumEnd evidenceEnd) in
      _ ← guard_or ErrEditInvalid (cmp_or_zero (RationalTime_Compare desiredEnd capEnd) <=? 0);
      duration ← or_fail ErrEditInvalid (Subtract desiredEnd evidenceStart);
      _ ← guard_or ErrEditInvalid (IsPositive duration);
      _ ← guard_or ErrEditInvalid (cmp_or_zero (RationalTime_Compare duration (cp_MaximumDuration policy)) <=? 0);
      let sourceRange := range_or_zero (NewTimeRange evidenceStart duration) in
      sourceOffset ← or_fail ErrEditInvalid (Subtract evidenceStart (tr_Start (clip_SourceRange clip)));
      timelineStart ← or_fail ErrEditInvalid (Add (tr_Start (clip_TimelineRange clip)) sourceOffset);
      timelineRange ← or_fail ErrEditInvalid (NewTimeRange timelineStart duration);
      _ ← guard_or ErrEditInvalid (transcriptRangeContains (clip_TimelineRange clip) timelineRange);
      let evidenceDuration := time_or_zero (Subtract evidenceEnd evidenceStart) in
      let evidenceRange := range_or_zero (NewTimeRange evidenceStart evidenceDuration) in
      let '(segmentIDs, correctionRefs) := captionGroupEvidence group in
      Ok (mkCue sourceRange timelineRange evidenceRange text segmentIDs correctionRefs)
  | _, _ => Panic
  end.

(** [capEnd] of a group is the start of the next one, or [finalEnd]. *)
Fixpoint derive_cues (clip : ClipState) (policy : CaptionDerivationPolicy) (finalEnd : RationalTime)
    (groups : list (list captionEvidenceUnit)) : outcome edit_error (list CaptionDerivationCue) :=
  match groups with
  | [] => Ok []
  | group :: rest =>
      let capEnd := match rest with
                    | (next :: _) :: _ => tr_Start (unit_range next)
                    | _ => finalEnd end in
      cue ← derive_cue clip policy capEnd group;
      cues ← derive_cues clip policy finalEnd rest;
      Ok (cue :: cues)
  end.

Definition DeriveCaptionCues (artifact : EditTranscriptArtifactState) (excerpt : SourceExcerptState)
    (correctionState : gmap string TranscriptCorrectionState) (clip : ClipState) (policy : CaptionDerivationPolicy)
  : outcome edit_error (list CaptionDerivationCue) :=
  let evidence := exc_Evidence excerpt in
  _ ← guard_or ErrEditInvalid (is_ok (CaptionDerivationPolicy_Validate policy) && negb (exc_Tombstoned excerpt) &&
        negb (clip_Tombstoned clip) && clip_Enabled clip && bool_decide (art_ID artifact = ev_ArtifactID evidence) &&
        bool_decide (art_AssetID artifact = exc_AssetID excerpt) &&
        bool_decide (art_Fingerprint artifact = exc_AcceptedFingerprint excerpt) &&
        bool_decide (art_SourceStreamID artifact = ev_SourceStreamID evidence) &&
        bool_decide (clip_AssetID clip = exc_AssetID excerpt) &&
        transcriptRangeContains (clip_SourceRange clip) (exc_SourceRange excerpt));
  '(segments, tokens) ← transcriptEvidenceSpan artifact (ev_SegmentIDs evidence) (exc_SourceRange excerpt);
  corrections ← captionExcerptCorrections excerpt correctionState;
  effective ← or_fail ErrEditInvalid (effectiveTranscriptText tokens corrections);
  _ ← guard_or ErrEditInvalid (bool_decide (effective = exc_EffectiveText excerpt));
  units ← captionEvidenceUnits segments tokens corrections;
  groups ← groupCaptionUnits units policy;
  let excerptEnd := end_or_zero (exc_SourceRange excerpt) in
  let clipEnd := end_or_zero (clip_SourceRange clip) in
  let finalEnd := if cmp_or_zero (RationalTime_Compare clipEnd excerptEnd) <? 0 then clipEnd else excerptEnd in
  derive_cues clip policy finalEnd groups.

(** One iteration over [cues] *)
Definition derive_caption (excerpt : SourceExcerptState) (clip : ClipState) (track : EditTrackState) (policy : CaptionDerivationPolicy)
    (cue : CaptionDerivationCue) (output : DerivedCaptionOutputInput) : M unit :=
  check (bool_decide (dc_Text output = cue_Text cue) && equalTimeRange (dc_SourceRange output) (cue_SourceRange cue) &&
         equalTimeRange (dc_TimelineRange output) (cue_TimelineRange cue)) ;;
  captionAllocation ← allocation_of (dc_CaptionAs output);
  alignmentAllocation ← allocation_of (dc_AlignmentAs output);
  check (bool_decide (alloc_Kind captionAllocation = EntityCaption) && bool_decide (alloc_Kind alignmentAllocation = EntityAlignment)) ;;
  captionID ← or_invalid (ParseID (alloc_ID captionAllocation));
  alignmentID ← or_invalid (ParseID (alloc_ID alignmentAllocation));
  markTouched EntityCaption captionID ;;
  markTouched EntityAlignment alignmentID ;;
  let provenance := mkProvenance ProvenanceTranscriptDerivation (Some (mkDerivation
    (exc_ID excerpt) (exc_Revision excerpt) (exc_AssetID excerpt) (exc_AcceptedFingerprint excerpt)
    (ev_ArtifactID (exc_Evidence excerpt)) (ev_SourceStreamID (exc_Evidence excerpt)) (cue_SegmentIDs cue)
    (cue_CorrectionRevisions cue) (clip_ID clip) (clip_Revision clip) (clip_SourceRange clip) (clip_TimelineRange clip)
    (cue_EvidenceSourceRange cue) policy (cue_TimelineRange cue) (exc_Language excerpt) (cue_Text cue))) in
  let caption := mkCaption captionID first_revision (track_SequenceID track) (track_ID track) (cue_TimelineRange cue)
    (exc_Language excerpt) (cue_Text cue) provenance None false in
  let target := TargetCaption (mkCaptionTarget captionID first_revision
    (mkRange (mkTime 0 1) (tr_Duration (cue_TimelineRange cue)))) in
  let alignment := mkAlignment alignmentID first_revision (exc_ID excerpt) (exc_Revision excerpt) (track_SequenceID track)
    [target] AlignmentExact in
  modify (on_captions (<[captionID := caption]>)) ;;
  modify (on_alignments (<[alignmentID := alignment]>)) ;;
  captionInverse ← next_of first_revision;
  alignmentInverse ← next_of first_revision;
  appendOperation (PutCaption caption) (PutCaption (caption_at captionInverse true caption)) ;;
  appendOperation (PutAlignment alignment) (PutAlignment (alignment_at alignmentInverse [target] AlignmentUnbound alignment)) ;;
  appendChange (newEntityChange EntityCaption captionID first_revision false) ;;
  appendChange (newEntityChange EntityAlignment alignmentID first_revision false).

Definition deriveCaptions (operation : EditOperationInput) : M unit :=
  node ← deref (op_NarrativeNode operation);
  nodeID ← resolveNodeReference node;
  excerpts ← reads n_sourceExcerpts;
  match excerpts !! nodeID with
  | None => lift (Fail ErrEditInvalid)
  | Some excerpt =>
  check (negb (exc_Tombstoned excerpt)) ;;
  (if bool_decide (ref_ID node <> "") then require EntityNarrativeNode nodeID (exc_Revision excerpt) else mret tt) ;;
  clipReference ← deref (op_Clip operation);
  clipID ← resolveClipReference clipReference;
  clips ← reads n_clips;
  sequenceID ← sequence_id;
  match clips !! clipID with
  | None => lift (Fail ErrEditInvalid)
  | Some clip =>
  check (negb (clip_Tombstoned clip) && bool_decide (clip_SequenceID clip = sequenceID)) ;;
  (if bool_decide (ref_ID clipReference <> "") then require EntityClip (clip_ID clip) (clip_Revision clip) else mret tt) ;;
  trackID ← deref (op_TrackID operation);
  track ← track_of trackID;
  check (negb (IsZero (track_ID track)) && bool_decide (track_SequenceID track = sequenceID) &&
         bool_decide (track_Type track = TrackCaption)) ;;
  require EntityTrack (track_ID track) (track_Revision track) ;;
  artifacts ← state_of st_TranscriptArtifacts;
  streams ← state_of st_SourceStreams;
  match artifacts !! ev_ArtifactID (exc_Evidence excerpt), streams !! ev_SourceStreamID (exc_Evidence excerpt) with
  | Some artifact, Some stream =>
  check (bool_decide (stream_AssetID stream = exc_AssetID excerpt) && (1 <=? stream_AssetRevision stream)) ;;
  require EntityAsset (exc_AssetID excerpt) (stream_AssetRevision stream) ;;
  corrections ← reads n_corrections;
  for_each (ev_CorrectionRevisions (exc_Evidence excerpt)) (fun reference =>
    match corrections !! cref_ID reference with
    | None => lift (Fail ErrEditInvalid)
    | Some correction =>
        check ((cor_Revision correction =? cref_Revision reference) && negb (cor_Tombstoned correction)) ;;
        require EntityTranscriptCorrection (cref_ID reference) (cref_Revision reference)
    end) ;;
  policy ← deref (op_CaptionPolicy operation);
  cues ← or_invalid (DeriveCaptionCues artifact excerpt corrections clip policy);
  check (length cues =? length (op_DerivedCaptions operation))%nat ;;
  for_each (zip cues (op_DerivedCaptions operation)) (fun '(cue, output) =>
    derive_caption excerpt clip track policy cue output) ;;
  modify (on_sequenceChanged (fun _ => true)) ;;
  modify (on_trackChanges (<[track_ID track := track_Revision track]>))
  | _, _ => lift (Fail ErrEditInvalid)
  end end end.
End derivation.

(** ** Rough cuts *)

Definition zero_excerpt : SourceExcerptState :=
  mkExcerpt "" 0 "" "" None "" "" zero_range "" "" (mkEvidence "" "" [] []) false.

Definition pad3 (s : string) : string :=
  string_of (replicate (3 - length (bytes_of s)) "0"%char) +:+ s.

Definition roughCutLocal (prefix kind : string) (ordinal : Z) : outcome edit_error string :=
  or_fail ErrEditInvalid (ParseLocalID (prefix +:+ "_" +:+ kind +:+ "_" +:+ pad3 (format_int ordinal))).

Definition validateRoughCutLane (state : EditNormalizationState) (excerpt : SourceExcerptState) (lane : RoughCutLaneBindingInput)
    (expectedTrack : TrackType) : outcome edit_error unit :=
  let track := at_key zero_track (st_Tracks state) (lane_TrackID lane) in
  let stream := at_key zero_stream (st_SourceStreams state) (lane_SourceStreamID lane) in
  _ ← guard_or ErrEditInvalid (negb (IsZero (track_ID track)) && bool_decide (track_SequenceID track = st_SequenceID state) &&
        bool_decide (track_Type track = expectedTrack) && negb (IsZero (stream_ID stream)) &&
        bool_decide (stream_AssetID stream = exc_AssetID excerpt) && trackAcceptsStream track stream);
  guard_or ErrEditInvalid (sourceRangeWithin (exc_SourceRange excerpt) (stream_Descriptor stream)).

Definition lane_output (prefix kind : string) (ordinal : Z) (lane : option RoughCutLaneBindingInput)
  : outcome edit_error (option DerivedRoughCutLaneOutputInput) :=
  match lane with
  | None => Ok None
  | Some lane =>
      clipAs ← roughCutLocal prefix kind ordinal;
      Ok (Some (mkLaneOutput clipAs (lane_TrackID lane) (lane_SourceStreamID lane)))
  end.

(** The loop over [items]: [cursor] is where the next excerpt starts. *)
Fixpoint rough_cut_outputs (state : EditNormalizationState) (localPrefix : string) (cursor : RationalTime) (ordinal : Z)
    (items : list RoughCutDerivationItemInput) : outcome edit_error (list DerivedRoughCutOutputInput) :=
  match items with
  | [] => Ok []
  | item :: rest =>
      let excerpt := at_key zero_excerpt (st_SourceExcerpts state) (item_SourceExcerptID item) in
      _ ← guard_or ErrEditInvalid (negb (IsZero (exc_ID excerpt)) && negb (exc_Tombstoned excerpt) &&
            bool_decide (st_SourceExcerptEvidence state !! exc_ID excerpt = Some SourceExcerptEvidenceExact) &&
            negb (match item_Video item, item_Audio item with None, None => true | _, _ => false end));
      _ ← (match item_Video item with Some lane => validateRoughCutLane state excerpt lane TrackVideo | None => Ok tt end);
      _ ← (match item_Audio item with Some lane => validateRoughCutLane state excerpt lane TrackAudio | None => Ok tt end);
      timelineRange ← or_fail ErrEditInvalid (NewTimeRange cursor (tr_Duration (exc_SourceRange excerpt)));
      alignmentAs ← roughCutLocal localPrefix "alignment" ordinal;
      video ← lane_output localPrefix "video" ordinal (item_Video item);
      audio ← lane_output localPrefix "audio" ordinal (item_Audio item);
      groupAs ← (match video, audio with
                 | Some _, Some _ => local ← roughCutLocal localPrefix "group" ordinal; Ok (Some local)
                 | _, _ => Ok None
                 end);
      cursor ← or_fail ErrEditInvalid (End timelineRange);
      outputs ← rough_cut_outputs state localPrefix cursor (ordinal + 1) rest;
      Ok (mkRoughCutOutput (exc_ID excerpt) (exc_SourceRange excerpt) timelineRange video audio groupAs alignmentAs :: outputs)
  end.

(** *** The digest of a rough cut: the JSON tree of the anonymous struct *)

Definition id_json (id : string) : outcome edit_error jvalue :=
  text ← or_fail ErrEncoding (ID_MarshalText id); Ok (JString text).
Definition text_json (s : string) : jvalue := JString (json_text s).
Definition time_json (t : RationalTime) : outcome edit_error jvalue :=
  _ ← or_fail ErrEncoding (RationalTime_Validate t);
  Ok (JObject [("value", JString (format_int (rt_Value t))); ("scale", JNumber (format_int (rt_Scale t)))]).
Definition range_json (r : TimeRange) : outcome edit_error jvalue :=
  start ← time_json (tr_Start r); duration ← time_json (tr_Duration r);
  Ok (JObject [("start", start); ("duration", duration)]).

(** A nil pointer is [null]; with [omitempty] its entry is left out. *)
Definition pointer_json {A} (f : A -> outcome edit_error jvalue) (p : option A) : outcome edit_error jvalue :=
  match p with None => Ok JNull | Some a => f a end.
Definition omitempty {A} (name : string) (f : A -> outcome edit_error jvalue) (p : option A) : outcome edit_error (list (string * jvalue)) :=
  match p with None => Ok [] | Some a => v ← f a; Ok [(name, v)] end.

Fixpoint encode_all {A} (f : A -> outcome edit_error jvalue) (l : list A) : outcome edit_error (list jvalue) :=
  match l with [] => Ok [] | a :: rest => v ← f a; vs ← encode_all f rest; Ok (v :: vs) end.
(** An absent slice is [null]. *)
Definition slice_json {A} (f : A -> outcome edit_error jvalue) (l : list A) : outcome edit_error jvalue :=
  match l with [] => Ok JNull | _ => vs ← encode_all f l; Ok (JArray vs) end.

Definition rough_cut_policy_json (p : RoughCutDerivationPolicy) : outcome edit_error jvalue :=
  gap ← time_json (rp_InterExcerptGap p);
  Ok (JObject [("id", text_json (rp_ID p)); ("ordering", text_json (rp_Ordering p)); ("interExcerptGap", gap);
    ("sourceHandles", text_json (rp_SourceHandles p)); ("rate", text_json (rp_Rate p));
    ("overwrite", text_json (rp_Overwrite p)); ("avGrouping", text_json (rp_AVGrouping p))]).
Definition lane_json (l : RoughCutLaneBindingInput) : outcome edit_error jvalue :=
  track ← id_json (lane_TrackID l); stream ← id_json (lane_SourceStreamID l);
  Ok (JObject [("trackId", track); ("sourceStreamId", stream)]).
Definition item_json (i : RoughCutDerivationItemInput) : outcome edit_error jvalue :=
  excerpt ← id_json (item_SourceExcerptID i);
  video ← omitempty "video" lane_json (item_Video i);
  audio ← omitempty "audio" lane_json (item_Audio i);
  Ok (JObject (("sourceExcerptId", excerpt) :: video ++ audio)).
Definition lane_output_json (l : DerivedRoughCutLaneOutputInput) : outcome edit_error jvalue :=
  track ← id_json (lo_TrackID l); stream ← id_json (lo_SourceStreamID l);
  Ok (JObject [("clipAs", text_json (lo_ClipAs l)); ("trackId", track); ("sourceStreamId", stream)]).
Definition output_json (o : DerivedRoughCutOutputInput) : outcome edit_error jvalue :=
  excerpt ← id_json (rc_SourceExcerptID o);
  source ← range_json (rc_SourceRange o);
  timeline ← range_json (rc_TimelineRange o);
  video ← omitempty "video" lane_output_json (rc_Video o);
  audio ← omitempty "audio" lane_output_json (rc_Audio o);
  group ← omitempty "linkGroupAs" (fun s => Ok (text_json s)) (rc_LinkGroupAs o);
  Ok (JObject (("sourceExcerptId", excerpt) :: ("sourceRange", source) :: ("timelineRange", timeline) ::
    video ++ audio ++ group ++ [("alignmentAs", text_json (rc_AlignmentAs o))])).

Definition rough_cut_payload (operation : EditOperationInput) : outcome edit_error jvalue :=
  policy ← pointer_json rough_cut_policy_json (op_RoughCutPolicy operation);
  timelineStart ← pointer_json time_json (op_RoughCutTimelineStart operation);
  localPrefix ← pointer_json (fun s => Ok (text_json s)) (op_RoughCutLocalPrefix operation);
  items ← slice_json item_json (op_RoughCutItems operation);
  outputs ← slice_json output_json (op_DerivedRoughCut operation);
  Ok (JObject [("policy", policy); ("timelineStart", timelineStart); ("localPrefix", localPrefix); ("items", items);
    ("outputs", outputs)]).

(** The operation [BuildRoughCutOperation] returns *)
Definition rough_cut_operation (timelineStart : RationalTime) (localPrefix : string) (items : list RoughCutDerivationItemInput)
    (outputs : list DerivedRoughCutOutputInput) (digest : option string) : EditOperationInput :=
     {| op_Type := EditDeriveRoughCut; op_CreateAs := None; op_NodeID := None; op_ParentID := None; op_After := None;
     op_Title := None; op_Text := None; op_Description := None; op_AuthoredTextPurpose := None;
     op_VisualIntentPurpose := None; op_CaptionID := None; op_TrackID := None; op_Range := None; op_Language := None;
     op_AlignmentID := None; op_NarrativeNode := None; op_AlignmentTargets := []; op_AssetID := None;
     op_SourceStreamID := None; op_SourceRange := None; op_TimelineRange := None; op_Enabled := None; op_Placement :=
     None; op_CreateLinkGroupAs := None; op_LeftLinkGroupAs := None; op_RightLinkGroupAs := None; op_LinkGroup :=
     None; op_Clip := None; op_Clips := []; op_Scope := None; op_TimelineStart := None; op_SplitAt := None;
     op_SplitOutputs := []; op_TranscriptCorrectionID := None; op_TranscriptArtifactID := None;
     op_TranscriptSegmentIDs := []; op_CorrectionRevisions := []; op_AcceptedFingerprint := None; op_CaptionPolicy :=
     None; op_DerivedCaptions := []; op_RoughCutPolicy := Some PaperEditRoughCutPolicyV1; op_RoughCutTimelineStart :=
     Some timelineStart; op_RoughCutLocalPrefix := Some localPrefix; op_RoughCutItems := items; op_DerivedRoughCut :=
     outputs; op_RoughCutOutputDigest := digest |}.

(** The [EditAddClip] of one lane: the first lane creates the link group. *)
Definition lane_operation (assetID : string) (output : DerivedRoughCutOutputInput) (first : bool)
    (lane : DerivedRoughCutLaneOutputInput) : EditOperationInput :=
     {| op_Type := EditAddClip; op_CreateAs := Some (lo_ClipAs lane); op_NodeID := None; op_ParentID := None;
     op_After := None; op_Title := None; op_Text := None; op_Description := None; op_AuthoredTextPurpose := None;
     op_VisualIntentPurpose := None; op_CaptionID := None; op_TrackID := Some (lo_TrackID lane); op_Range := None;
     op_Language := None; op_AlignmentID := None; op_NarrativeNode := None; op_AlignmentTargets := []; op_AssetID :=
     Some assetID; op_SourceStreamID := Some (lo_SourceStreamID lane); op_SourceRange := Some (rc_SourceRange
     output); op_TimelineRange := Some (rc_TimelineRange output); op_Enabled := Some true; op_Placement := None;
     op_CreateLinkGroupAs := if first then rc_LinkGroupAs output else None; op_LeftLinkGroupAs := None;
     op_RightLinkGroupAs := None; op_LinkGroup := if first then None else (fun local => mkReference "" (Some local))
     <$> rc_LinkGroupAs output; op_Clip := None; op_Clips := []; op_Scope := None; op_TimelineStart := None;
     op_SplitAt := None; op_SplitOutputs := []; op_TranscriptCorrectionID := None; op_TranscriptArtifactID := None;
     op_TranscriptSegmentIDs := []; op_CorrectionRevisions := []; op_AcceptedFingerprint := None; op_CaptionPolicy :=
     None; op_DerivedCaptions := []; op_RoughCutPolicy := None; op_RoughCutTimelineStart := None;
     op_RoughCutLocalPrefix := None; op_RoughCutItems := []; op_DerivedRoughCut := []; op_RoughCutOutputDigest :=
     None |}.

Definition bind_operation (output : DerivedRoughCutOutputInput) (targets : list AlignmentTargetInput) : EditOperationInput :=
     {| op_Type := EditBindAlignment; op_CreateAs := Some (rc_AlignmentAs output); op_NodeID := None; op_ParentID :=
     None; op_After := None; op_Title := None; op_Text := None; op_Description := None; op_AuthoredTextPurpose :=
     None; op_VisualIntentPurpose := None; op_CaptionID := None; op_TrackID := None; op_Range := None; op_Language :=
     None; op_AlignmentID := None; op_NarrativeNode := Some (mkReference (rc_SourceExcerptID output) None);
     op_AlignmentTargets := targets; op_AssetID := None; op_SourceStreamID := None; op_SourceRange := None;
     op_TimelineRange := None; op_Enabled := None; op_Placement := None; op_CreateLinkGroupAs := None;
     op_LeftLinkGroupAs := None; op_RightLinkGroupAs := None; op_LinkGroup := None; op_Clip := None; op_Clips := [];
     op_Scope := None; op_TimelineStart := None; op_SplitAt := None; op_SplitOutputs := []; op_TranscriptCorrectionID
     := None; op_TranscriptArtifactID := None; op_TranscriptSegmentIDs := []; op_CorrectionRevisions := [];
     op_AcceptedFingerprint := None; op_CaptionPolicy := None; op_DerivedCaptions := []; op_RoughCutPolicy := None;
     op_RoughCutTimelineStart := None; op_RoughCutLocalPrefix := None; op_RoughCutItems := []; op_DerivedRoughCut :=
     []; op_RoughCutOutputDigest := None |}.

Section rough_cut.
Context `{Platform}.

Definition roughCutOperationDigest (operation : EditOperationInput) : outcome edit_error string :=
  payload ← rough_cut_payload operation;
  '(_, digest) ← or_fail ErrEncoding
    (CanonicalDigest platform_sha256 "open-cut/rough-cut-derivation" "open-cut/rough-cut-derivation/v1" payload);
  Ok digest.

Definition BuildRoughCutOperation (state : EditNormalizationState) (timelineStart : RationalTime) (localPrefix : string)
    (items : list RoughCutDerivationItemInput) : outcome edit_error EditOperationInput :=
  _ ← guard_or ErrEditInvalid (valid_time timelineStart && negb (IsNegative timelineStart) && negb (length items =? 0)%nat &&
        (length items <=? 128)%nat && (go_len localPrefix <=? 40));
  _ ← or_fail ErrEditInvalid (ParseLocalID localPrefix);
  outputs ← rough_cut_outputs state localPrefix timelineStart 1 items;
  digest ← roughCutOperationDigest (rough_cut_operation timelineStart localPrefix items outputs None);
  Ok (rough_cut_operation timelineStart localPrefix items outputs (Some digest)).

(** The body of the loop over [expected.DerivedRoughCut] *)
Definition derive_rough_cut_output (output : DerivedRoughCutOutputInput) : M unit :=
  excerpts ← reads n_sourceExcerpts;
  let assetID := exc_AssetID (at_key zero_excerpt excerpts (rc_SourceExcerptID output)) in
  (match rc_Video output with Some lane => addClip (lane_operation assetID output true lane) | None => mret tt end) ;;
  (match rc_Audio output with Some lane => addClip (lane_operation assetID output false lane) | None => mret tt end) ;;
  targets ← map_each (fun lane =>
    localRange ← or_invalid (NewTimeRange (time_or_zero (NewRationalTime 0 1)) (tr_Duration (rc_TimelineRange output)));
    mret (mkTargetInput AlignmentTargetClip None (Some (mkReference "" (Some (lo_ClipAs lane)))) (Some localRange) None None))
    (omap id [rc_Video output; rc_Audio output]);
  bindAlignment (bind_operation output targets).

Definition deriveRoughCut (operation : EditOperationInput) : M unit :=
  state ← state_of id;
  timelineStart ← deref (op_RoughCutTimelineStart operation);
  localPrefix ← deref (op_RoughCutLocalPrefix operation);
  expected ← lift (BuildRoughCutOperation state timelineStart localPrefix (op_RoughCutItems operation));
  suppliedDigest ← or_invalid (roughCutOperationDigest operation);
  check (bool_decide (op_RoughCutOutputDigest operation = Some suppliedDigest) &&
         bool_decide (op_RoughCutOutputDigest expected = Some suppliedDigest)) ;;
  for_each (op_DerivedRoughCut expected) derive_rough_cut_output.
End rough_cut.
