(* ===== verification/EditValidate.v ===== *)
(** Request validation: [product/application/edits_validation.go],
    [edits_validation_clips.go], [edits_validation_rough_cut.go],
    [validateNormalizationInput] and [validateAllocationMatchesOperations] of
    [edit_normalize_helpers.go], and [product/domain/language.go].

    Every rejection is [ErrEditInvalid]; the reason texts are not modelled, so
    the checks are booleans.  [language.Parse] comes from [Platform]. *)
From stdpp Require Import base list strings gmap sorting.
From Stdlib Require Import ZArith Lia Ascii.
From S2P Require Import Prelude GoText Exact Identity Canonical EditModel Timeline EditState EditTranscript.
From S2P Require Import EditDerive.
Open Scope Z_scope.

(** [p == nil], [p != nil], [len(l) == 0] *)
Definition absent {A} (p : option A) : bool := match p with None => true | Some _ => false end.
Definition present {A} (p : option A) : bool := negb (absent p).
Definition empty {A} (l : list A) : bool := match l with [] => true | _ => false end.
Definition pointer_is {A} (f : A -> bool) (p : option A) : bool := match p with Some a => f a | None => false end.

Definition MaximumEditIntentBytes : Z := 4000.
Definition MaximumCaptionLanguageBytes : Z := 64.

(** ** Values *)

Definition validateEditIntent (value : string) (optional : bool) : bool :=
  if bool_decide (value = "") && optional then true
  else valid_utf8 value && (1 <=? go_len value) && (go_len value <=? MaximumEditIntentBytes).

Definition validText (value : option string) : bool :=
  pointer_is (fun s => valid_utf8 s && (0 <? go_len s) && (go_len s <=? MaximumAuthoredTextBytes)) value.
Definition validCorrectionText (value : option string) : bool :=
  validText value && pointer_is (fun s => bool_decide (trim_space s = s)) value.

Definition validSourceTimeRange (value : TimeRange) : bool :=
  valid_time (tr_Start value) && valid_time (tr_Duration value) && IsPositive (tr_Duration value) && is_ok (End value).
Definition validTimelineTimeRange (value : TimeRange) : bool :=
  negb (IsNegative (tr_Start value)) && validSourceTimeRange value.
Definition validRange (value : option TimeRange) : bool :=
  pointer_is (fun r => valid_time (tr_Start r) && negb (IsNegative (tr_Start r)) && valid_time (tr_Duration r) &&
                       IsPositive (tr_Duration r) && is_ok (End r)) value.
Definition validSourceRange (value : option TimeRange) : bool := pointer_is validSourceTimeRange value.
Definition validTime (value : option RationalTime) : bool :=
  pointer_is (fun t => valid_time t && negb (IsNegative t)) value.

Definition AuthoredTextPurpose_Validate (purpose : AuthoredTextPurpose) : bool :=
  bool_decide (purpose = AuthoredTextSpoken) || bool_decide (purpose = AuthoredTextOnScreen).
Definition VisualIntentPurpose_Validate (purpose : VisualIntentPurpose) : bool :=
  bool_decide (purpose = VisualIntentBRoll) || bool_decide (purpose = VisualIntentComposition) ||
  bool_decide (purpose = VisualIntentReplacement).

Definition ActorRef_Validate (actor : ActorRef) : bool :=
  match actor_Kind actor with
  | ActorCreator => pointer_is (fun i => negb (IsZero i)) (actor_CreatorID actor) && absent (actor_AgentID actor)
  | ActorAgent => pointer_is (fun i => negb (IsZero i)) (actor_AgentID actor) && absent (actor_CreatorID actor)
  | ActorOther _ => false
  end.

Definition validDigestPointer (value : option string) : bool := pointer_is (fun d => is_ok (ParseDigest d)) value.
Definition valid_local (value : string) : bool := is_ok (ParseLocalID value).

(** ** References *)

Definition validExistingReference (value : option EditReference) : bool :=
  pointer_is (fun r => negb (bool_decide (ref_ID r = "")) && absent (ref_Local r)) value.

(** No key occurs twice: the loops with a [seen] map *)
Definition distinct (keys : list string) : bool := bool_decide (NoDup keys).

Definition validExistingReferences (values : list EditReference) (minimum maximum : nat) : bool :=
  (minimum <=? length values)%nat && (length values <=? maximum)%nat &&
  forallb (fun r => validExistingReference (Some r)) values && distinct (map ref_ID values).

Definition validSplitOutputs (values : list ClipSplitOutputInput) : bool :=
  negb (empty values) && (length values <=? 64)%nat &&
  forallb (fun v => validExistingReference (Some (so_Clip v)) && valid_local (so_LeftAs v) && valid_local (so_RightAs v)) values &&
  distinct (map (fun v => ref_ID (so_Clip v)) values) &&
  distinct (concat (map (fun v => [so_LeftAs v; so_RightAs v]) values)).

Definition target_type_is (t u : AlignmentTargetType) : bool :=
  match t, u with
  | AlignmentTargetCaption, AlignmentTargetCaption | AlignmentTargetClip, AlignmentTargetClip
  | AlignmentTargetTimeline, AlignmentTargetTimeline => true
  | AlignmentTargetOther a, AlignmentTargetOther b => bool_decide (a = b)
  | _, _ => false
  end.

Definition valid_target_input (value : AlignmentTargetInput) : bool :=
  match ti_Type value with
  | AlignmentTargetCaption =>
      present (ti_Caption value) && absent (ti_Clip value) && validRange (ti_LocalRange value) &&
      absent (ti_TimelineRange value) && absent (ti_SequenceRevision value)
  | AlignmentTargetClip =>
      present (ti_Clip value) && absent (ti_Caption value) && validRange (ti_LocalRange value) &&
      absent (ti_TimelineRange value) && absent (ti_SequenceRevision value)
  | AlignmentTargetTimeline =>
      absent (ti_Caption value) && absent (ti_Clip value) && absent (ti_LocalRange value) &&
      validRange (ti_TimelineRange value) && pointer_is (fun r => 1 <=? r) (ti_SequenceRevision value)
  | AlignmentTargetOther _ => false
  end.

Definition validAlignmentTargetInputs (values : list AlignmentTargetInput) : bool :=
  match values with
  | [] => false
  | first :: _ =>
      (length values <=? 64)%nat &&
      forallb (fun v => target_type_is (ti_Type v) (ti_Type first) && valid_target_input v) values
  end.

Definition validDerivedCaptionOutputs (values : list DerivedCaptionOutputInput) : bool :=
  negb (empty values) && (length values <=? 128)%nat &&
  forallb (fun v => valid_local (dc_CaptionAs v) && valid_local (dc_AlignmentAs v) &&
    validSourceRange (Some (dc_SourceRange v)) && validRange (Some (dc_TimelineRange v)) &&
    validText (Some (dc_Text v)) && bool_decide (trim_space (dc_Text v) = dc_Text v)) values &&
  distinct (concat (map (fun v => [dc_CaptionAs v; dc_AlignmentAs v]) values)).

Definition validTranscriptSegmentIDs (values : list string) : bool :=
  negb (empty values) && (length values <=? 256)%nat && forallb (fun v => negb (IsZero v)) values && distinct values.

(** A reference has an identity or a local name, not both and not neither. *)
Definition one_name (r : EditReference) : bool :=
  negb (Bool.eqb (bool_decide (ref_ID r = "")) (absent (ref_Local r))).

Definition correction_ref_key (r : EditReference) : string :=
  match ref_Local r with Some local => "local:" +:+ local | None => ref_ID r end.

Definition validCorrectionRefs (values : list TranscriptCorrectionReferenceInput) : bool :=
  (length values <=? 256)%nat && forallb (fun v => one_name (cri_Correction v)) values &&
  distinct (map (fun v => correction_ref_key (cri_Correction v)) values).

(** ** Field combinations *)

Definition noRoughCutFields (o : EditOperationInput) : bool :=
  absent (op_RoughCutPolicy o) && absent (op_RoughCutTimelineStart o) && absent (op_RoughCutLocalPrefix o) &&
  empty (op_RoughCutItems o) && empty (op_DerivedRoughCut o) && absent (op_RoughCutOutputDigest o).

Definition noNewClipMutationFields (o : EditOperationInput) : bool :=
  absent (op_LeftLinkGroupAs o) && absent (op_RightLinkGroupAs o) && empty (op_Clips o) && absent (op_Scope o) &&
  absent (op_TimelineStart o) && absent (op_SplitAt o) && empty (op_SplitOutputs o).

Definition noNarrativeExternalFields (o : EditOperationInput) : bool :=
  absent (op_CaptionID o) && absent (op_TrackID o) && absent (op_Range o) && absent (op_AlignmentID o) &&
  absent (op_NarrativeNode o) && empty (op_AlignmentTargets o) && absent (op_AssetID o) && absent (op_SourceStreamID o) &&
  absent (op_SourceRange o) && absent (op_TimelineRange o) && absent (op_Enabled o) && absent (op_CreateLinkGroupAs o) &&
  absent (op_LeftLinkGroupAs o) && absent (op_RightLinkGroupAs o) && absent (op_LinkGroup o) && absent (op_Clip o) &&
  empty (op_Clips o) && absent (op_Scope o) && absent (op_TimelineStart o) && absent (op_SplitAt o) &&
  empty (op_SplitOutputs o) && absent (op_TranscriptCorrectionID o) && absent (op_TranscriptArtifactID o) &&
  empty (op_TranscriptSegmentIDs o) && empty (op_CorrectionRevisions o) && absent (op_AcceptedFingerprint o) &&
  absent (op_CaptionPolicy o) && empty (op_DerivedCaptions o) && noRoughCutFields o.

Definition noNode (o : EditOperationInput) : bool := absent (op_NodeID o) && absent (op_ParentID o) && absent (op_After o).
Definition noCaption (o : EditOperationInput) : bool :=
  absent (op_CaptionID o) && absent (op_TrackID o) && absent (op_Range o) && absent (op_Language o).
Definition noAlignment (o : EditOperationInput) : bool :=
  absent (op_AlignmentID o) && absent (op_NarrativeNode o) && empty (op_AlignmentTargets o).
Definition noClip (o : EditOperationInput) : bool :=
  absent (op_AssetID o) && absent (op_SourceStreamID o) && absent (op_SourceRange o) && absent (op_TimelineRange o) &&
  absent (op_Enabled o) && absent (op_CreateLinkGroupAs o) && absent (op_LinkGroup o).
Definition noTranscript (o : EditOperationInput) : bool :=
  absent (op_TranscriptCorrectionID o) && absent (op_TranscriptArtifactID o) && empty (op_TranscriptSegmentIDs o) &&
  empty (op_CorrectionRevisions o) && absent (op_AcceptedFingerprint o) && absent (op_Clip o) &&
  absent (op_CaptionPolicy o) && empty (op_DerivedCaptions o).
Definition noWriting (o : EditOperationInput) : bool :=
  absent (op_Title o) && absent (op_Description o) && absent (op_AuthoredTextPurpose o) && absent (op_VisualIntentPurpose o).

Definition writingOperation (t : EditOperationType) : bool :=
  match t with
  | EditInsertSection | EditUpdateSection | EditInsertAuthoredText | EditUpdateAuthoredText | EditInsertVisualIntent
  | EditUpdateVisualIntent | EditInsertNote | EditUpdateNote => true
  | _ => false
  end.

Definition isClipMutationOperation (t : EditOperationType) : bool :=
  match t with
  | EditMoveClip | EditTrimClip | EditSplitClip | EditRemoveClip | EditLinkClips | EditUnlinkClips => true
  | _ => false
  end.

Definition validScope (o : EditOperationInput) : bool :=
  pointer_is (fun s => bool_decide (s = ClipScopeLinked) || bool_decide (s = ClipScopeSingle)) (op_Scope o).

(** [baseClear] of [validateClipMutationOperation] *)
Definition clip_mutation_clear (o : EditOperationInput) : bool :=
  absent (op_CreateAs o) && absent (op_NodeID o) && absent (op_ParentID o) && absent (op_After o) && absent (op_Title o) &&
  absent (op_Text o) && absent (op_Description o) && absent (op_AuthoredTextPurpose o) && absent (op_VisualIntentPurpose o) &&
  absent (op_CaptionID o) && absent (op_Range o) && absent (op_Language o) && absent (op_AlignmentID o) &&
  absent (op_NarrativeNode o) && empty (op_AlignmentTargets o) && absent (op_AssetID o) && absent (op_SourceStreamID o) &&
  absent (op_Enabled o) && absent (op_TranscriptCorrectionID o) && absent (op_TranscriptArtifactID o) &&
  empty (op_TranscriptSegmentIDs o) && empty (op_CorrectionRevisions o) && absent (op_AcceptedFingerprint o) &&
  absent (op_CaptionPolicy o) && empty (op_DerivedCaptions o) && noRoughCutFields o.

Definition validateClipMutationOperation (o : EditOperationInput) : bool :=
  clip_mutation_clear o &&
  match op_Type o with
  | EditMoveClip =>
      validExistingReference (op_Clip o) && validScope o && present (op_TrackID o) && validTime (op_TimelineStart o) &&
      absent (op_SourceRange o) && absent (op_TimelineRange o) && absent (op_CreateLinkGroupAs o) &&
      absent (op_LeftLinkGroupAs o) && absent (op_RightLinkGroupAs o) && absent (op_LinkGroup o) && empty (op_Clips o) &&
      absent (op_SplitAt o) && empty (op_SplitOutputs o)
  | EditTrimClip =>
      validExistingReference (op_Clip o) && validScope o && validSourceRange (op_SourceRange o) &&
      validRange (op_TimelineRange o) && absent (op_TrackID o) && absent (op_TimelineStart o) &&
      absent (op_CreateLinkGroupAs o) && absent (op_LeftLinkGroupAs o) && absent (op_RightLinkGroupAs o) &&
      absent (op_LinkGroup o) && empty (op_Clips o) && absent (op_SplitAt o) && empty (op_SplitOutputs o)
  | EditSplitClip =>
      validExistingReference (op_Clip o) && validScope o && validTime (op_SplitAt o) && absent (op_TrackID o) &&
      absent (op_SourceRange o) && absent (op_TimelineRange o) && absent (op_TimelineStart o) &&
      absent (op_CreateLinkGroupAs o) && absent (op_LinkGroup o) && empty (op_Clips o) && validSplitOutputs (op_SplitOutputs o) &&
      (if bool_decide (op_Scope o = Some ClipScopeSingle) then
         (length (op_SplitOutputs o) =? 1)%nat && absent (op_LeftLinkGroupAs o) && absent (op_RightLinkGroupAs o)
       else
         (2 <=? length (op_SplitOutputs o))%nat && present (op_LeftLinkGroupAs o) && present (op_RightLinkGroupAs o) &&
         negb (bool_decide (op_LeftLinkGroupAs o = op_RightLinkGroupAs o)))
  | EditRemoveClip =>
      validExistingReference (op_Clip o) && validScope o && absent (op_TrackID o) && absent (op_SourceRange o) &&
      absent (op_TimelineRange o) && absent (op_TimelineStart o) && absent (op_SplitAt o) && empty (op_SplitOutputs o) &&
      absent (op_CreateLinkGroupAs o) && absent (op_LeftLinkGroupAs o) && absent (op_RightLinkGroupAs o) &&
      absent (op_LinkGroup o) && empty (op_Clips o)
  | EditLinkClips =>
      absent (op_Clip o) && absent (op_Scope o) && absent (op_TrackID o) && absent (op_SourceRange o) &&
      absent (op_TimelineRange o) && absent (op_TimelineStart o) && absent (op_SplitAt o) && empty (op_SplitOutputs o) &&
      present (op_CreateLinkGroupAs o) && absent (op_LeftLinkGroupAs o) && absent (op_RightLinkGroupAs o) &&
      absent (op_LinkGroup o) && validExistingReferences (op_Clips o) 2 64
  | EditUnlinkClips =>
      absent (op_Clip o) && absent (op_Scope o) && absent (op_TrackID o) && absent (op_SourceRange o) &&
      absent (op_TimelineRange o) && absent (op_TimelineStart o) && absent (op_SplitAt o) && empty (op_SplitOutputs o) &&
      absent (op_CreateLinkGroupAs o) && absent (op_LeftLinkGroupAs o) && absent (op_RightLinkGroupAs o) &&
      validExistingReference (op_LinkGroup o) && empty (op_Clips o)
  | _ => false
  end.

(** ** Rough-cut requests *)

Definition rough_cut_clear (o : EditOperationInput) : bool :=
  absent (op_CreateAs o) && absent (op_NodeID o) && absent (op_ParentID o) && absent (op_After o) && absent (op_Title o) &&
  absent (op_Text o) && absent (op_Description o) && absent (op_AuthoredTextPurpose o) && absent (op_VisualIntentPurpose o) &&
  absent (op_CaptionID o) && absent (op_TrackID o) && absent (op_Range o) && absent (op_Language o) && absent (op_AlignmentID o) &&
  absent (op_NarrativeNode o) && empty (op_AlignmentTargets o) && absent (op_AssetID o) && absent (op_SourceStreamID o) &&
  absent (op_SourceRange o) && absent (op_TimelineRange o) && absent (op_Enabled o) && absent (op_CreateLinkGroupAs o) &&
  absent (op_LeftLinkGroupAs o) && absent (op_RightLinkGroupAs o) && absent (op_LinkGroup o) && absent (op_Clip o) &&
  empty (op_Clips o) && absent (op_Scope o) && absent (op_TimelineStart o) && absent (op_SplitAt o) && empty (op_SplitOutputs o) &&
  absent (op_TranscriptCorrectionID o) && absent (op_TranscriptArtifactID o) && empty (op_TranscriptSegmentIDs o) &&
  empty (op_CorrectionRevisions o) && absent (op_AcceptedFingerprint o) && absent (op_CaptionPolicy o) && empty (op_DerivedCaptions o).

Definition validRoughCutLaneInput (l : RoughCutLaneBindingInput) : bool :=
  negb (IsZero (lane_TrackID l)) && negb (IsZero (lane_SourceStreamID l)).
Definition validRoughCutLaneOutput (l : DerivedRoughCutLaneOutputInput) : bool :=
  validRoughCutLaneInput (mkLane (lo_TrackID l) (lo_SourceStreamID l)) && valid_local (lo_ClipAs l).

(** A nil pointer, or one whose value passes *)
Definition nil_or {A} (f : A -> bool) (p : option A) : bool := match p with Some a => f a | None => true end.

Definition valid_rough_cut_item (i : RoughCutDerivationItemInput) : bool :=
  negb (IsZero (item_SourceExcerptID i)) && negb (absent (item_Video i) && absent (item_Audio i)) &&
  nil_or validRoughCutLaneInput (item_Video i) && nil_or validRoughCutLaneInput (item_Audio i).

Definition valid_rough_cut_output (o : DerivedRoughCutOutputInput) : bool :=
  negb (IsZero (rc_SourceExcerptID o)) && validSourceTimeRange (rc_SourceRange o) && validTimelineTimeRange (rc_TimelineRange o) &&
  negb (absent (rc_Video o) && absent (rc_Audio o)) && nil_or validRoughCutLaneOutput (rc_Video o) &&
  nil_or validRoughCutLaneOutput (rc_Audio o) && valid_local (rc_AlignmentAs o) &&
  Bool.eqb (present (rc_Video o) && present (rc_Audio o)) (present (rc_LinkGroupAs o)) &&
  nil_or valid_local (rc_LinkGroupAs o).

Definition validateRoughCutOperation (o : EditOperationInput) : bool :=
  rough_cut_clear o && pointer_is RoughCutDerivationPolicy_Validate (op_RoughCutPolicy o) &&
  validTime (op_RoughCutTimelineStart o) && pointer_is (fun p => go_len p <=? 40) (op_RoughCutLocalPrefix o) &&
  negb (empty (op_RoughCutItems o)) && (length (op_RoughCutItems o) <=? 128)%nat &&
  (length (op_DerivedRoughCut o) =? length (op_RoughCutItems o))%nat && present (op_RoughCutOutputDigest o) &&
  pointer_is valid_local (op_RoughCutLocalPrefix o) && validDigestPointer (op_RoughCutOutputDigest o) &&
  forallb valid_rough_cut_item (op_RoughCutItems o) && forallb valid_rough_cut_output (op_DerivedRoughCut o).

(** ** Created kinds and cycles *)

Definition createdKind (t : EditOperationType) : EditEntityKind :=
  match t with
  | EditInsertSection | EditInsertAuthoredText | EditInsertVisualIntent | EditInsertNote | EditInsertSourceExcerpt => EntityNarrativeNode
  | EditAddCaption => EntityCaption
  | EditBindAlignment => EntityAlignment
  | EditAddClip => EntityClip
  | EditAddTranscriptCorrection => EntityTranscriptCorrection
  | _ => ""
  end.

Definition createsNarrativeNode (t : EditOperationType) : bool := bool_decide (createdKind t = EntityNarrativeNode).

(** [visit] of [hasLocalReferenceCycle]: 1 marks a node being visited, 2 one that
    is done.  A node has at most one edge. *)
Fixpoint visit (fuel : nat) (edges : gmap string string) (state : gmap string Z) (node : string) : bool * gmap string Z :=
  match fuel with
  | O => (true, state)
  | S fuel =>
      if at_key 0 state node =? 1 then (true, state)
      else if at_key 0 state node =? 2 then (false, state)
      else
        let state := <[node := 1]> state in
        let next := at_key "" edges node in
        if bool_decide (next = "") then (false, <[node := 2]> state)
        else
          let '(cycle, state) := visit fuel edges state next in
          if cycle then (true, state) else (false, <[node := 2]> state)
  end.

Fixpoint visit_all (fuel : nat) (edges : gmap string string) (state : gmap string Z) (nodes : list string) : bool :=
  match nodes with
  | [] => false
  | node :: rest =>
      let '(cycle, state) := visit fuel edges state node in
      if cycle then true else visit_all fuel edges state rest
  end.

(** A path visits each node with an edge once, and one node more. *)
Definition hasLocalReferenceCycle (edges : gmap string string) : bool :=
  visit_all (2 + size edges) edges ∅ (map fst (map_to_list edges)).

(** ** Operations *)

(** [created[local] = kind] for a valid local name that is new *)
Definition create_local (checked : bool) (created : gmap string EditEntityKind) (local : string) (kind : EditEntityKind)
  : outcome edit_error (gmap string EditEntityKind) :=
  _ ← guard_or ErrEditInvalid (negb checked || valid_local local);
  _ ← guard_or ErrEditInvalid (bool_decide (created !! local = None));
  Ok (<[local := kind]> created).

Fixpoint create_locals (checked : bool) (created : gmap string EditEntityKind) (locals : list (string * EditEntityKind))
  : outcome edit_error (gmap string EditEntityKind) :=
  match locals with
  | [] => Ok created
  | (local, kind) :: rest => created ← create_local checked created local kind; create_locals checked created rest
  end.

(** A Go map literal: a later entry replaces an earlier one of the same key. *)
Definition map_literal (entries : list (string * EditEntityKind)) : list (string * EditEntityKind) :=
  map_to_list (foldl (fun m '(k, v) => <[k := v]> m) (∅ : gmap string EditEntityKind) entries).

Definition derived_caption_locals (o : DerivedCaptionOutputInput) : list (string * EditEntityKind) :=
  [(dc_CaptionAs o, EntityCaption); (dc_AlignmentAs o, EntityAlignment)].

Definition rough_cut_locals (o : DerivedRoughCutOutputInput) : list (string * EditEntityKind) :=
  (rc_AlignmentAs o, EntityAlignment) ::
  omap (fun lane => (fun l => (lo_ClipAs l, EntityClip)) <$> lane) [rc_Video o; rc_Audio o] ++
  option_list ((fun l => (l, EntityLinkGroup)) <$> rc_LinkGroupAs o).

(** The locals an operation creates, in the order they are recorded *)
Definition operation_created (o : EditOperationInput) (created : gmap string EditEntityKind) : outcome edit_error (gmap string EditEntityKind) :=
  created ← create_locals true created (option_list ((fun l => (l, createdKind (op_Type o))) <$> op_CreateAs o));
  created ← create_locals true created (option_list ((fun l => (l, EntityLinkGroup)) <$> op_CreateLinkGroupAs o));
  created ← create_locals true created (map (fun l => (l, EntityLinkGroup)) (omap id [op_LeftLinkGroupAs o; op_RightLinkGroupAs o]));
  created ← create_locals false created (concat (map (fun v => [(so_LeftAs v, EntityClip); (so_RightAs v, EntityClip)]) (op_SplitOutputs o)));
  created ← create_locals true created (concat (map (fun v => map_literal (derived_caption_locals v)) (op_DerivedCaptions o)));
  create_locals true created (concat (map (fun v => map_literal (rough_cut_locals v)) (op_DerivedRoughCut o))).

(** The edge from a created node to the local node it comes after *)
Definition after_edge (o : EditOperationInput) (edges : gmap string string) : gmap string string :=
  match op_CreateAs o, op_After o with
  | Some local, Some after =>
      match ref_Local after with
      | Some target => if createsNarrativeNode (op_Type o) then <[local := target]> edges else edges
      | None => edges
      end
  | _, _ => edges
  end.

Definition validateReference (reference : EditReference) (expected : EditEntityKind) (created : gmap string EditEntityKind) : bool :=
  one_name reference &&
  if bool_decide (ref_ID reference <> "") then is_ok (validateEntityID expected (ref_ID reference))
  else pointer_is (fun local => valid_local local && bool_decide (at_key "" created local = expected)) (ref_Local reference).

Definition validateEditReferences (o : EditOperationInput) (created : gmap string EditEntityKind) : bool :=
  let valid kind (r : EditReference) := validateReference r kind created in
  nil_or (valid EntityNarrativeNode) (op_After o) && nil_or (valid EntityNarrativeNode) (op_NarrativeNode o) &&
  forallb (fun t => nil_or (valid EntityCaption) (ti_Caption t) && nil_or (valid EntityClip) (ti_Clip t)) (op_AlignmentTargets o) &&
  nil_or (valid EntityLinkGroup) (op_LinkGroup o) && nil_or (valid EntityClip) (op_Clip o) &&
  forallb (valid EntityClip) (op_Clips o) && forallb (fun v => valid EntityClip (so_Clip v)) (op_SplitOutputs o) &&
  forallb (fun v =>
    let r := cri_Correction v in
    valid EntityTranscriptCorrection r &&
    negb ((bool_decide (ref_ID r <> "") && negb (pointer_is (fun n => 1 <=? n) (cri_Revision v))) ||
          (present (ref_Local r) && present (cri_Revision v)))) (op_CorrectionRevisions o).

Section validation.
Context `{Platform}.

Definition ParseCaptionLanguage (value : string) : option string :=
  if bool_decide (value = "") || (MaximumCaptionLanguageBytes <? go_len value) || negb (bool_decide (trim_space value = value))
  then None
  else match language_Parse value with
       | Some (text, extensions) => if bool_decide (text = value) && (extensions =? 0) then Some value else None
       | None => None
       end.
Definition validLanguage (value : option string) : bool := pointer_is (fun l => present (ParseCaptionLanguage l)) value.

Definition validateEditOperation (o : EditOperationInput) : bool :=
  let noCreate := absent (op_CreateAs o) in
  (absent (op_Placement o) || bool_decide (op_Type o = EditSetClipPlacement)) &&
  if bool_decide (op_Type o = EditDeriveRoughCut) then validateRoughCutOperation o
  else noRoughCutFields o &&
  if isClipMutationOperation (op_Type o) then validateClipMutationOperation o
  else noNewClipMutationFields o && (writingOperation (op_Type o) || noWriting o) &&
  match op_Type o with
  | EditInsertSection =>
      present (op_CreateAs o) && present (op_ParentID o) && absent (op_NodeID o) && validText (op_Title o) &&
      validLanguage (op_Language o) && absent (op_Text o) && absent (op_Description o) && absent (op_AuthoredTextPurpose o) &&
      absent (op_VisualIntentPurpose o) && noNarrativeExternalFields o
  | EditUpdateSection =>
      noCreate && present (op_NodeID o) && absent (op_ParentID o) && absent (op_After o) && validText (op_Title o) &&
      validLanguage (op_Language o) && absent (op_Text o) && absent (op_Description o) && absent (op_AuthoredTextPurpose o) &&
      absent (op_VisualIntentPurpose o) && noNarrativeExternalFields o
  | EditInsertAuthoredText =>
      present (op_CreateAs o) && present (op_ParentID o) && validText (op_Text o) && validLanguage (op_Language o) &&
      pointer_is AuthoredTextPurpose_Validate (op_AuthoredTextPurpose o) && absent (op_NodeID o) && absent (op_Title o) &&
      absent (op_Description o) && absent (op_VisualIntentPurpose o) && noNarrativeExternalFields o
  | EditUpdateAuthoredText =>
      noCreate && present (op_NodeID o) && validText (op_Text o) && absent (op_ParentID o) && absent (op_After o) &&
      validLanguage (op_Language o) && pointer_is AuthoredTextPurpose_Validate (op_AuthoredTextPurpose o) &&
      absent (op_Title o) && absent (op_Description o) && absent (op_VisualIntentPurpose o) && noNarrativeExternalFields o
  | EditInsertVisualIntent =>
      present (op_CreateAs o) && present (op_ParentID o) && absent (op_NodeID o) && validText (op_Description o) &&
      validLanguage (op_Language o) && pointer_is VisualIntentPurpose_Validate (op_VisualIntentPurpose o) &&
      absent (op_Title o) && absent (op_Text o) && absent (op_AuthoredTextPurpose o) && noNarrativeExternalFields o
  | EditUpdateVisualIntent =>
      noCreate && present (op_NodeID o) && absent (op_ParentID o) && absent (op_After o) && validText (op_Description o) &&
      validLanguage (op_Language o) && pointer_is VisualIntentPurpose_Validate (op_VisualIntentPurpose o) &&
      absent (op_Title o) && absent (op_Text o) && absent (op_AuthoredTextPurpose o) && noNarrativeExternalFields o
  | EditInsertNote =>
      present (op_CreateAs o) && present (op_ParentID o) && absent (op_NodeID o) && validText (op_Text o) &&
      validLanguage (op_Language o) && absent (op_Title o) && absent (op_Description o) && absent (op_AuthoredTextPurpose o) &&
      absent (op_VisualIntentPurpose o) && noNarrativeExternalFields o
  | EditUpdateNote =>
      noCreate && present (op_NodeID o) && absent (op_ParentID o) && absent (op_After o) && validText (op_Text o) &&
      validLanguage (op_Language o) && absent (op_Title o) && absent (op_Description o) && absent (op_AuthoredTextPurpose o) &&
      absent (op_VisualIntentPurpose o) && noNarrativeExternalFields o
  | EditMoveNarrativeNode =>
      noCreate && present (op_NodeID o) && present (op_ParentID o) && absent (op_Title o) && absent (op_Text o) &&
      absent (op_Description o) && absent (op_AuthoredTextPurpose o) && absent (op_VisualIntentPurpose o) &&
      absent (op_Language o) && noNarrativeExternalFields o
  | EditRemoveNarrativeNode =>
      noCreate && present (op_NodeID o) && absent (op_ParentID o) && absent (op_After o) && absent (op_Title o) &&
      absent (op_Text o) && absent (op_Description o) && absent (op_AuthoredTextPurpose o) && absent (op_VisualIntentPurpose o) &&
      absent (op_Language o) && noNarrativeExternalFields o
  | EditAddCaption =>
      present (op_CreateAs o) && present (op_TrackID o) && validRange (op_Range o) && validLanguage (op_Language o) &&
      validText (op_Text o) && absent (op_CaptionID o) && noNode o && noAlignment o && noClip o && noTranscript o
  | EditUpdateCaption =>
      noCreate && present (op_CaptionID o) && absent (op_TrackID o) && validRange (op_Range o) && validLanguage (op_Language o) &&
      validText (op_Text o) && noNode o && noAlignment o && noClip o && noTranscript o
  | EditRemoveCaption =>
      noCreate && present (op_CaptionID o) && absent (op_TrackID o) && absent (op_Range o) && absent (op_Language o) &&
      absent (op_Text o) && noNode o && noAlignment o && noClip o && noTranscript o
  | EditSetClipPlacement =>
      noCreate && validExistingReference (op_Clip o) && nil_or (fun p => is_ok (ClipPlacement_Validate p)) (op_Placement o) &&
      noNode o && absent (op_CaptionID o) && absent (op_TrackID o) && absent (op_Range o) && absent (op_Language o) &&
      noAlignment o && absent (op_Text o) && absent (op_AssetID o) && absent (op_SourceStreamID o) && absent (op_SourceRange o) &&
      absent (op_TimelineRange o) && absent (op_Enabled o) && absent (op_CreateLinkGroupAs o) && absent (op_LinkGroup o) &&
      absent (op_TranscriptCorrectionID o) && absent (op_TranscriptArtifactID o) && empty (op_TranscriptSegmentIDs o) &&
      empty (op_CorrectionRevisions o) && absent (op_AcceptedFingerprint o) && absent (op_CaptionPolicy o) && empty (op_DerivedCaptions o)
  | EditBindAlignment =>
      present (op_CreateAs o) && present (op_NarrativeNode o) && validAlignmentTargetInputs (op_AlignmentTargets o) &&
      noNode o && noCaption o && absent (op_AlignmentID o) && absent (op_Text o) && noClip o && noTranscript o
  | EditRemapAlignment =>
      noCreate && present (op_AlignmentID o) && validAlignmentTargetInputs (op_AlignmentTargets o) && noNode o && noCaption o &&
      absent (op_NarrativeNode o) && absent (op_Text o) && noClip o && noTranscript o
  | EditMarkAlignmentStale | EditUnbindAlignment =>
      noCreate && present (op_AlignmentID o) && noNode o && noCaption o && absent (op_NarrativeNode o) &&
      empty (op_AlignmentTargets o) && absent (op_Text o) && noClip o && noTranscript o
  | EditAddClip =>
      present (op_CreateAs o) && present (op_TrackID o) && present (op_AssetID o) && present (op_SourceStreamID o) &&
      validSourceRange (op_SourceRange o) && validRange (op_TimelineRange o) && present (op_Enabled o) && absent (op_CaptionID o) &&
      absent (op_Range o) && absent (op_Language o) && absent (op_Text o) && noNode o && noAlignment o &&
      negb (present (op_CreateLinkGroupAs o) && present (op_LinkGroup o)) && noTranscript o
  | EditAddTranscriptCorrection =>
      present (op_CreateAs o) && absent (op_TranscriptCorrectionID o) && present (op_TranscriptArtifactID o) &&
      present (op_AssetID o) && validSourceRange (op_SourceRange o) && validTranscriptSegmentIDs (op_TranscriptSegmentIDs o) &&
      validLanguage (op_Language o) && validCorrectionText (op_Text o) && absent (op_AcceptedFingerprint o) &&
      empty (op_CorrectionRevisions o) && noNode o && absent (op_CaptionID o) && absent (op_TrackID o) && absent (op_Range o) &&
      noAlignment o && absent (op_SourceStreamID o) && absent (op_TimelineRange o) && absent (op_Enabled o) &&
      absent (op_CreateLinkGroupAs o) && absent (op_LinkGroup o) && absent (op_Clip o) && absent (op_CaptionPolicy o) &&
      empty (op_DerivedCaptions o)
  | EditUpdateTranscriptCorrection =>
      noCreate && present (op_TranscriptCorrectionID o) && validLanguage (op_Language o) && validCorrectionText (op_Text o) &&
      absent (op_TranscriptArtifactID o) && empty (op_TranscriptSegmentIDs o) && empty (op_CorrectionRevisions o) &&
      absent (op_AcceptedFingerprint o) && absent (op_Clip o) && absent (op_CaptionPolicy o) && empty (op_DerivedCaptions o) &&
      noNode o && noCaption o && noAlignment o && noClip o
  | EditRemoveTranscriptCorrection =>
      noCreate && present (op_TranscriptCorrectionID o) && absent (op_TranscriptArtifactID o) && empty (op_TranscriptSegmentIDs o) &&
      empty (op_CorrectionRevisions o) && absent (op_AcceptedFingerprint o) && absent (op_Clip o) && absent (op_CaptionPolicy o) &&
      empty (op_DerivedCaptions o) && absent (op_Text o) && absent (op_Language o) && noNode o && noCaption o && noAlignment o && noClip o
  | EditInsertSourceExcerpt =>
      present (op_CreateAs o) && absent (op_NodeID o) && present (op_ParentID o) && present (op_AssetID o) &&
      present (op_AcceptedFingerprint o) && present (op_TranscriptArtifactID o) && validTranscriptSegmentIDs (op_TranscriptSegmentIDs o) &&
      validCorrectionRefs (op_CorrectionRevisions o) && validSourceRange (op_SourceRange o) && validLanguage (op_Language o) &&
      absent (op_Text o) && absent (op_TranscriptCorrectionID o) && absent (op_CaptionID o) && absent (op_TrackID o) &&
      absent (op_Range o) && noAlignment o && absent (op_SourceStreamID o) && absent (op_TimelineRange o) && absent (op_Enabled o) &&
      absent (op_CreateLinkGroupAs o) && absent (op_LinkGroup o) && absent (op_Clip o) && absent (op_CaptionPolicy o) &&
      empty (op_DerivedCaptions o) && validDigestPointer (op_AcceptedFingerprint o)
  | EditDeriveCaptions =>
      noCreate && pointer_is (fun r => negb (bool_decide (ref_ID r = ""))) (op_NarrativeNode o) &&
      pointer_is (fun r => negb (bool_decide (ref_ID r = ""))) (op_Clip o) && present (op_TrackID o) &&
      pointer_is (fun p => is_ok (CaptionDerivationPolicy_Validate p)) (op_CaptionPolicy o) &&
      validDerivedCaptionOutputs (op_DerivedCaptions o) && absent (op_NodeID o) && absent (op_ParentID o) && absent (op_After o) &&
      absent (op_Text o) && absent (op_CaptionID o) && absent (op_Range o) && absent (op_Language o) && absent (op_AlignmentID o) &&
      empty (op_AlignmentTargets o) && absent (op_AssetID o) && absent (op_SourceStreamID o) && absent (op_SourceRange o) &&
      absent (op_TimelineRange o) && absent (op_Enabled o) && absent (op_CreateLinkGroupAs o) && absent (op_LinkGroup o) &&
      absent (op_TranscriptCorrectionID o) && absent (op_TranscriptArtifactID o) && empty (op_TranscriptSegmentIDs o) &&
      empty (op_CorrectionRevisions o) && absent (op_AcceptedFingerprint o)
  | _ => false
  end.

(** ** The request *)

Fixpoint valid_preconditions (seen : gset string) (items : list EntityPrecondition) : bool :=
  match items with
  | [] => true
  | p :: rest =>
      (1 <=? pre_Revision p) && is_ok (validateEntityID (pre_Kind p) (pre_ID p)) &&
      bool_decide (entityKey (pre_Kind p) (pre_ID p) ∉ seen) &&
      valid_preconditions ({[ entityKey (pre_Kind p) (pre_ID p) ]} ∪ seen) rest
  end.

(** The first loop over the operations *)
Fixpoint collect_created (created : gmap string EditEntityKind) (edges : gmap string string) (operations : list EditOperationInput)
  : outcome edit_error (gmap string EditEntityKind * gmap string string) :=
  match operations with
  | [] => Ok (created, edges)
  | operation :: rest =>
      _ ← guard_or ErrEditInvalid (validateEditOperation operation);
      created ← operation_created operation created;
      collect_created created (after_edge operation edges) rest
  end.

Definition validateEditProposeInput (input : EditProposeInput) : outcome edit_error unit :=
  _ ← guard_or ErrEditInvalid (is_ok (ParseRequestID (pi_RequestID input)) && validateEditIntent (pi_Intent input) false &&
        (1 <=? pi_BaseProjectRevision input) && negb (empty (pi_Operations input)) &&
        (length (pi_Operations input) <=? 512)%nat && (length (pi_Preconditions input) <=? 2048)%nat);
  _ ← guard_or ErrEditInvalid (valid_preconditions ∅ (pi_Preconditions input));
  '(created, afterGraph) ← collect_created ∅ ∅ (pi_Operations input);
  _ ← guard_or ErrEditInvalid (size created <=? 1024)%nat;
  _ ← guard_or ErrEditInvalid (forallb (fun o => validateEditReferences o created) (pi_Operations input));
  guard_or ErrEditInvalid (negb (hasLocalReferenceCycle afterGraph)).

(** The locals and kinds that [validateAllocationMatchesOperations] expects *)
Definition expected_locals (o : EditOperationInput) : list (string * EditEntityKind) :=
  option_list ((fun l => (l, createdKind (op_Type o))) <$> op_CreateAs o) ++
  option_list ((fun l => (l, EntityLinkGroup)) <$> op_CreateLinkGroupAs o) ++
  map (fun l => (l, EntityLinkGroup)) (omap id [op_LeftLinkGroupAs o; op_RightLinkGroupAs o]) ++
  concat (map (fun v => [(so_LeftAs v, EntityClip); (so_RightAs v, EntityClip)]) (op_SplitOutputs o)) ++
  concat (map derived_caption_locals (op_DerivedCaptions o)) ++
  concat (map rough_cut_locals (op_DerivedRoughCut o)).

Definition validateAllocationMatchesOperations (allocation : list LocalAllocation) (operations : list EditOperationInput) : bool :=
  let expected := foldl (fun m '(k, v) => <[k := v]> m) (∅ : gmap string EditEntityKind) (concat (map expected_locals operations)) in
  (size expected =? length allocation)%nat &&
  forallb (fun a => bool_decide (at_key "" expected (alloc_Local a) = alloc_Kind a) &&
                    is_ok (validateEntityID (alloc_Kind a) (alloc_ID a))) allocation.

Definition validateNormalizationInput (input : NormalizeEditInput) : outcome edit_error unit :=
  let s := in_State input in
  _ ← guard_or ErrEditInvalid (negb (IsZero (in_ProposalID input)) && negb (IsZero (in_ProjectID input)) &&
        negb (IsZero (in_SequenceID input)) && ActorRef_Validate (in_Actor input) && negb (in_CreatedAtIsZero input) &&
        bool_decide (st_ProjectID s = in_ProjectID input) && bool_decide (st_SequenceID s = in_SequenceID input) &&
        (1 <=? st_ProjectRevision s) && (1 <=? st_DocumentRevision s) && (1 <=? st_SequenceRevision s));
  _ ← (match actor_Kind (in_Actor input) with
       | ActorAgent => guard_or ErrEditInvalid (negb (IsZero (in_RunID input)) && negb (IsZero (in_TurnID input)))
       | ActorCreator => guard_or ErrEditInvalid (IsZero (in_RunID input) && IsZero (in_TurnID input))
       | ActorOther _ => Fail ErrEditInvalid
       end);
  _ ← validateEditProposeInput (in_Input input);
  guard_or ErrEditInvalid (validateAllocationMatchesOperations (in_Allocation input) (pi_Operations (in_Input input))).
End validation.
