(* ===== verification/EditNormalize.v ===== *)
(** Normalizing a proposal: the dispatch, the final passes and
    [NormalizeEditProposal] of [product/application/edit_normalize.go].

    The proposal holds the normalized operations, the operations that undo
    them, and every entity revision that changes. *)
From stdpp Require Import base list strings gmap sorting.
From Stdlib Require Import ZArith Lia Ascii.
From S2P Require Import Prelude GoText Exact Identity Canonical EditModel Timeline EditState EditClips EditNarrative EditCaptions EditTranscript EditDerive EditValidate.
Open Scope Z_scope.

(** The fields of [EditProposal] that normalization decides; status, impact and
    timestamps are constants of the call. *)
Record EditProposal := mkProposal {
  p_ID : string; p_ProjectID : string; p_SequenceID : string; p_RunID : option string; p_TurnID : option string;
  p_RequestID : string; p_Actor : ActorRef; p_Intent : string; p_BaseProjectRevision : Z;
  p_Preconditions : list EntityPrecondition; p_Allocation : list LocalAllocation;
  p_Operations : list NormalizedEditOperation; p_InversePreview : list NormalizedEditOperation;
  p_Changes : list EntityRevisionChange }.

(** Changes to entities whose revision advances because a child changed *)
Fixpoint aggregate_changes (kind : EditEntityKind) (entries : list (string * Z)) : outcome edit_error (list EntityRevisionChange) :=
  match entries with
  | [] => Ok []
  | (id, before) :: rest =>
      after ← mustNext before;
      others ← aggregate_changes kind rest;
      Ok (existingEntityChange kind id before after false :: others)
  end.

(** Sections not touched themselves *)
Definition parent_entries (n : editNormalizer) : list (string * Z) :=
  filter (fun e => entityKey EntityNarrativeNode e.1 ∉ n_touched n) (map_to_list (n_parentChanges n)).

Definition appendAggregateChanges : M unit :=
  n ← reads id;
  parents ← lift (aggregate_changes EntityNarrativeNode (parent_entries n));
  tracks ← lift (aggregate_changes EntityTrack (map_to_list (n_trackChanges n)));
  modify (on_changes (fun changes => sort_by2 ch_Kind ch_ID (changes ++ parents ++ tracks))) ;;
  modify (on_inverse (@rev _)).

Section normalize.
Context `{Platform}.

Definition normalizeEntityOperation (operation : EditOperationInput) : M unit :=
  match op_Type operation with
  | EditInsertSection | EditInsertAuthoredText | EditInsertVisualIntent | EditInsertNote => insertNarrativeNode operation
  | EditUpdateSection | EditUpdateAuthoredText | EditUpdateVisualIntent | EditUpdateNote => updateNarrativeNode operation
  | EditMoveNarrativeNode => moveNarrativeNode operation
  | EditRemoveNarrativeNode => removeNarrativeNode operation
  | EditAddCaption => addCaption operation
  | EditUpdateCaption => updateCaption operation false
  | EditRemoveCaption => updateCaption operation true
  | EditAddClip => addClip operation
  | EditMoveClip => moveClip operation
  | EditTrimClip => trimClip operation
  | EditSplitClip => splitClip operation
  | EditSetClipPlacement => setClipPlacement operation
  | EditRemoveClip => removeClip operation
  | EditLinkClips => linkClips operation
  | EditUnlinkClips => unlinkClips operation
  | EditAddTranscriptCorrection => addTranscriptCorrection operation
  | EditUpdateTranscriptCorrection => updateTranscriptCorrection operation false
  | EditRemoveTranscriptCorrection => updateTranscriptCorrection operation true
  | EditInsertSourceExcerpt => insertSourceExcerpt operation
  | EditDeriveCaptions => deriveCaptions operation
  | EditDeriveRoughCut => deriveRoughCut operation
  | EditBindAlignment | EditRemapAlignment | EditMarkAlignmentStale | EditUnbindAlignment | EditOtherOperation _ => mret tt
  end.

Definition proposed_operations : M (list EditOperationInput) := reads (fun n => pi_Operations (in_Input (n_input n))).

Definition normalizeEntityOperations : M unit :=
  operations ← proposed_operations; for_each operations normalizeEntityOperation.

Definition normalizeAlignmentOperation (operation : EditOperationInput) : M unit :=
  match op_Type operation with
  | EditBindAlignment => bindAlignment operation
  | EditRemapAlignment => remapAlignment operation
  | EditMarkAlignmentStale => alignmentID ← deref (op_AlignmentID operation); updateAlignment alignmentID AlignmentStale
  | EditUnbindAlignment => alignmentID ← deref (op_AlignmentID operation); updateAlignment alignmentID AlignmentUnbound
  | _ => mret tt
  end.

Definition normalizeAlignmentOperations : M unit :=
  operations ← proposed_operations; for_each operations normalizeAlignmentOperation.

(** The passes of [NormalizeEditProposal] over the normalizer *)
Definition normalize : M unit :=
  normalizeEntityOperations ;;
  validateLinkGroups ;;
  validateCaptionOverlaps ;;
  validateClipOverlaps ;;
  normalizeAlignmentOperations ;;
  n ← reads id;
  check ((length (n_operations n) <=? 512)%nat && (length (n_inverse n) <=? 512)%nat) ;;
  validateAlignmentEffects ;;
  appendAggregateChanges.

Definition nonzero_id (id : string) : option string := if IsZero id then None else Some id.

(** Up to the digest of the proposal, which adds no field of the record *)
Definition NormalizeEditProposal (input : NormalizeEditInput) : outcome edit_error EditProposal :=
  _ ← validateNormalizationInput input;
  normalizer ← newEditNormalizer input;
  '(_, normalizer) ← normalize normalizer;
  Ok (mkProposal (in_ProposalID input) (in_ProjectID input) (in_SequenceID input) (nonzero_id (in_RunID input))
        (nonzero_id (in_TurnID input)) (pi_RequestID (in_Input input)) (in_Actor input) (pi_Intent (in_Input input))
        (pi_BaseProjectRevision (in_Input input))
        (sort_by2 pre_Kind pre_ID (pi_Preconditions (in_Input input)))
        (in_Allocation input) (n_operations normalizer) (n_inverse normalizer) (n_changes normalizer)).
End normalize.

(** * A small project and a request on it, for evaluating the normalizer. *)


(** Third-party code: a digest of 32 zero bytes, one cluster per byte, and every
    tag in its canonical form. *)
Definition sample_platform : Platform := {|
  platform_sha256 := fun _ => replicate 32 0;
  GraphemeClusterCount := go_len;
  language_Parse := fun tag => Some (tag, 0) |}.

(** The identity that ends in [tail], two hexadecimal digits *)
Definition sample_id (tail : string) : string := "00000000-0000-7000-8000-0000000000" +:+ tail.

Definition seconds (start duration : Z) : TimeRange := mkRange (mkTime start 1) (mkTime duration 1).

Definition sample_track : EditTrackState := mkTrack (sample_id "10") (sample_id "03") 4 TrackVideo.
Definition sample_caption_track : EditTrackState := mkTrack (sample_id "11") (sample_id "03") 2 TrackCaption.
Definition sample_stream : EditSourceStreamState :=
  mkStream (sample_id "20") (sample_id "21") 1 (mkDescriptor MediaVideo None (Some (mkTime 60 1))).

(** A clip of the sample stream, [start] to [start + duration] on track and source *)
Definition sample_clip (tail : string) (start duration : Z) : ClipState :=
  mkClip (sample_id tail) 1 (sample_id "03") (sample_id "10") (sample_id "21") (sample_id "20")
    (seconds start duration) (seconds start duration) true None None false.

Definition sample_state : EditNormalizationState := {|
  st_ProjectID := sample_id "01"; st_ProjectRevision := 7; st_DocumentID := sample_id "02"; st_DocumentRevision := 3;
  st_SequenceID := sample_id "03"; st_SequenceRevision := 5;
  st_Sections := {[ sample_id "04" := mkSection (sample_id "04") 1 (sample_id "02") None None "Opening" "en" false ]};
  st_Tracks := {[ sample_id "10" := sample_track; sample_id "11" := sample_caption_track ]};
  st_AuthoredTexts := ∅; st_SourceExcerpts := ∅; st_VisualIntents := ∅; st_Notes := ∅;
  st_SectionChildCounts := {[ sample_id "04" := 0 ]}; st_SourceExcerptEvidence := ∅; st_TranscriptArtifacts := ∅;
  st_TranscriptCorrections := ∅; st_Captions := ∅;
  st_Clips := {[ sample_id "30" := sample_clip "30" 0 10; sample_id "31" := sample_clip "31" 10 5;
                 sample_id "32" := sample_clip "32" 15 5 ]};
  st_LinkGroups := ∅; st_LinkGroupClips := ∅;
  st_SourceStreams := {[ sample_id "20" := sample_stream ]};
  st_Alignments := ∅; st_NodeAlignments := ∅; st_CaptionAlignments := ∅; st_ClipAlignments := ∅ |}.

Definition reference_to (tail : string) : EditReference := mkReference (sample_id tail) None.

(** Split the first clip at four seconds. *)
Definition sample_split : EditOperationInput :=
  mkOperation EditSplitClip None None None None None None None None None None None None None None None []
    None None None None None None None None None None (Some (reference_to "30")) [] (Some ClipScopeSingle) None
    (Some (mkTime 4 1)) [mkSplitOutput (reference_to "30") "left" "right"] None None [] [] None None [] None None None [] [] None.
(** Link the other two. *)
Definition sample_link : EditOperationInput :=
  mkOperation EditLinkClips None None None None None None None None None None None None None None None []
    None None None None None None (Some "group") None None None None [reference_to "31"; reference_to "32"] None None
    None [] None None [] [] None None [] None None None [] [] None.
(** Add a caption over the first five seconds. *)
Definition sample_caption : EditOperationInput :=
  mkOperation EditAddCaption (Some "line") None None None None (Some "Hello") None None None None (Some (sample_id "11"))
    (Some (seconds 0 5)) (Some "en") None None []
    None None None None None None None None None None None [] None None None [] None None [] []
    None None [] None None None [] [] None.

Definition sample_input : NormalizeEditInput := {|
  in_ProposalID := sample_id "05"; in_ProjectID := sample_id "01"; in_SequenceID := sample_id "03"; in_RunID := "";
  in_TurnID := ""; in_Actor := mkActor ActorCreator (Some (sample_id "06")) None;
  in_Allocation := [ mkAllocation "left" EntityClip (sample_id "40"); mkAllocation "right" EntityClip (sample_id "41");
                     mkAllocation "group" EntityLinkGroup (sample_id "42"); mkAllocation "line" EntityCaption (sample_id "43") ];
  in_Input := mkProposeInput "request-1" "Split, link and caption" 7
    [ mkPrecondition EntityClip (sample_id "30") 1; mkPrecondition EntityClip (sample_id "31") 1;
      mkPrecondition EntityClip (sample_id "32") 1; mkPrecondition EntityTrack (sample_id "10") 4;
      mkPrecondition EntityTrack (sample_id "11") 2 ]
    [ sample_split; sample_link; sample_caption ];
  in_CreatedAtIsZero := false; in_State := sample_state |}.

(** What normalization makes of the request *)
Definition sample_proposal : EditProposal :=
  match @NormalizeEditProposal sample_platform sample_input with
  | Ok p => p
  | _ => mkProposal "" "" "" None None "" (mkActor ActorCreator None None) "" 0 [] [] [] [] []
  end.

Lemma sample_normalizes : @NormalizeEditProposal sample_platform sample_input = Ok sample_proposal.
Proof. vm_compute. reflexivity. Qed.
