(* ===== verification/EditEffects.v ===== *)
(** Reasoning about normalizer methods: what a successful run of each effect
    tells, the tactic [mrun] that takes a successful method apart, and rules for
    relations that every step of a method respects. *)
From stdpp Require Import base list strings gmap sorting.
From Stdlib Require Import ZArith Lia Ascii.
From S2P Require Import Prelude GoText Exact Identity Canonical EditModel Timeline EditState.
Open Scope Z_scope.

Section runs.
Context {A B : Type}.
Implicit Types (m : M A) (n : editNormalizer) (a : A) (b : B).

Lemma mbind_run m (k : A -> M B) n b n' :
  (m ≫= k) n = Ok (b, n') -> exists a n1, m n = Ok (a, n1) /\ k a n1 = Ok (b, n').
Proof.
  unfold mbind, M_bind. destruct (m n) as [[a n1]| |] eqn:E; [|discriminate|discriminate].
  intros H. by exists a, n1.
Qed.

Lemma mret_run a n a' n' : (mret a : M A) n = Ok (a', n') -> a' = a /\ n' = n.
Proof. intros [= -> ->]. done. Qed.

Lemma reads_run (f : editNormalizer -> A) n a n' : reads f n = Ok (a, n') -> a = f n /\ n' = n.
Proof. intros [= <- <-]. done. Qed.

Lemma lift_run (r : outcome edit_error A) n a n' : lift r n = Ok (a, n') -> r = Ok a /\ n' = n.
Proof. unfold lift. destruct r; [|discriminate|discriminate]. intros [= -> ->]. done. Qed.

Lemma deref_run (p : option A) n a n' : deref p n = Ok (a, n') -> p = Some a /\ n' = n.
Proof. intros [H ->]%lift_run. destruct p; [|discriminate]. by injection H as ->. Qed.

Lemma or_invalid_run {E} (r : outcome E A) n a n' : or_invalid r n = Ok (a, n') -> r = Ok a /\ n' = n.
Proof. intros [H ->]%lift_run. apply or_fail_ok in H. done. Qed.

Lemma or_invalid_m_run m n a n' : or_invalid_m m n = Ok (a, n') -> m n = Ok (a, n').
Proof. unfold or_invalid_m. destruct (m n); congruence. Qed.
End runs.

Lemma modify_run f n u n' : modify f n = Ok (u, n') -> n' = f n.
Proof. intros [= _ <-]. done. Qed.

Lemma check_run b n u n' : check b n = Ok (u, n') -> b = true /\ n' = n.
Proof. intros [H ->]%lift_run. destruct u. by apply guard_or_ok in H. Qed.

Lemma next_of_run r n r' n' : next_of r n = Ok (r', n') -> mustNext r = Ok r' /\ n' = n.
Proof. apply lift_run. Qed.

Lemma markTouched_run kind id n u n' : markTouched kind id n = Ok (u, n') ->
  entityKey kind id ∉ n_touched n /\ n' = on_touched (fun t => {[ entityKey kind id ]} ∪ t) n.
Proof.
  intros H. apply mbind_run in H as (t & n1 & [-> ->]%reads_run & H).
  apply mbind_run in H as (? & n1 & [Hc ->]%check_run & ->%modify_run).
  split; [by apply bool_decide_eq_true in Hc|done].
Qed.

Lemma require_run kind id revision n u n' : require kind id revision n = Ok (u, n') ->
  n_conditions n !! entityKey kind id = Some revision /\ n' = n.
Proof.
  intros H. apply mbind_run in H as (t & n1 & [-> ->]%reads_run & H).
  destruct (n_conditions n !! entityKey kind id) as [p|]; [|by apply lift_run in H as [? _]].
  destruct (p =? revision) eqn:E; [|by apply lift_run in H as [? _]].
  apply mret_run in H as [_ ->]. apply Z.eqb_eq in E. by subst.
Qed.

Lemma appendOperation_run o i n u n' : appendOperation o i n = Ok (u, n') ->
  n' = on_inverse (fun l => l ++ [i]) (on_operations (fun l => l ++ [o]) n).
Proof. intros H. apply mbind_run in H as (? & n1 & ->%modify_run & ->%modify_run). done. Qed.

Lemma appendChange_run c n u n' : appendChange c n = Ok (u, n') -> n' = on_changes (fun l => l ++ [c]) n.
Proof. apply modify_run. Qed.

(** A revision as [NewRevision] accepts it *)
Definition revision_ok (r : Z) : Prop := 0 <= r <= MaxInt64.

Lemma mustNext_ok r r' : revision_ok r -> mustNext r = Ok r' -> r' = r + 1 /\ revision_ok r'.
Proof.
  unfold mustNext, Revision_Next, NewRevision, revision_ok, MaxInt64. intros Hr H. rewrite to_uint64_small in H by lia.
  destruct (_ <? _) eqn:E; [discriminate|]. injection H as <-. apply Z.ltb_ge in E. lia.
Qed.

Lemma allocation_of_run local n a n' : allocation_of local n = Ok (a, n') ->
  a = at_key zero_allocation (n_allocations n) local /\ n' = n.
Proof. intros H. apply mbind_run in H as (t & n1 & [-> ->]%reads_run & [-> ->]%mret_run). done. Qed.

Lemma resolveReference_run r kind n v n' : resolveReference r kind n = Ok (v, n') -> n' = n.
Proof.
  unfold resolveReference. case_bool_decide.
  - intros H1. apply mbind_run in H1 as (? & n1 & [_ ->]%lift_run & [_ ->]%mret_run). done.
  - destruct (ref_Local r); [|by intros [_ ->]%lift_run].
    intros H1. apply mbind_run in H1 as (t & n1 & [-> ->]%reads_run & H1).
    destruct (n_allocations n !! s); [case_bool_decide|]; [by apply mret_run in H1 as [_ ->]|..]; by apply lift_run in H1 as [_ ->].
Qed.

Lemma resolve_id_run kind r n v n' : resolve_id kind r n = Ok (v, n') -> ParseID v = Ok v /\ n' = n.
Proof.
  intros H. apply mbind_run in H as (t & n1 & ->%resolveReference_run & [H ->]%lift_run).
  apply or_fail_ok in H. unfold ParseID in *. destruct (isUUIDv7 t) eqn:E; [|discriminate].
  injection H as <-. by rewrite E.
Qed.

(** Take a successful method apart, one effect at a time. *)
Ltac mrun1 :=
  match goal with
  | H : mbind _ _ _ = Ok (_, _) |- _ =>
      let x := fresh "v" in let m := fresh "n" in let H1 := fresh "Hrun" in
      apply mbind_run in H as (x & m & H1 & H);
      try match type of x with prod _ _ => destruct x | unit => destruct x end
  | H : mret _ _ = Ok (_, _) |- _ => apply mret_run in H as [? ?]; subst
  | H : reads _ _ = Ok (_, _) |- _ => apply reads_run in H as [? ?]; subst
  | H : state_of _ _ = Ok (_, _) |- _ => apply reads_run in H as [? ?]; subst
  | H : sequence_id _ = Ok (_, _) |- _ => apply reads_run in H as [? ?]; subst
  | H : track_of _ _ = Ok (_, _) |- _ => apply reads_run in H as [? ?]; subst
  | H : stream_of _ _ = Ok (_, _) |- _ => apply reads_run in H as [? ?]; subst
  | H : clip_of _ _ = Ok (_, _) |- _ => apply reads_run in H as [? ?]; subst
  | H : group_of _ _ = Ok (_, _) |- _ => apply reads_run in H as [? ?]; subst
  | H : members_of _ _ = Ok (_, _) |- _ => apply reads_run in H as [? ?]; subst
  | H : allocation_of _ _ = Ok (_, _) |- _ => apply allocation_of_run in H as [? ?]; subst
  | H : modify _ _ = Ok (_, _) |- _ => apply modify_run in H; subst
  | H : appendChange _ _ = Ok (_, _) |- _ => apply appendChange_run in H; subst
  | H : appendOperation _ _ _ = Ok (_, _) |- _ => apply appendOperation_run in H; subst
  | H : check _ _ = Ok (_, _) |- _ => apply check_run in H as [H ?]; subst
  | H : deref _ _ = Ok (_, _) |- _ => apply deref_run in H as [H ?]; subst
  | H : next_of _ _ = Ok (_, _) |- _ => apply next_of_run in H as [H ?]; subst
  | H : require _ _ _ _ = Ok (_, _) |- _ => apply require_run in H as [H ?]; subst
  | H : markTouched _ _ _ = Ok (_, _) |- _ => apply markTouched_run in H as [H ?]; subst
  | H : lift _ _ = Ok (_, _) |- _ => apply lift_run in H as [H ?]; subst; try discriminate H
  | H : or_invalid _ _ = Ok (_, _) |- _ => apply or_invalid_run in H as [H ?]; subst
  | H : or_invalid_m _ _ = Ok (_, _) |- _ => apply or_invalid_m_run in H
  | H : resolveReference _ _ _ = Ok (_, _) |- _ => apply resolveReference_run in H; subst
  | H : resolve_id _ _ _ = Ok (_, _) |- _ => apply resolve_id_run in H as [H ?]; subst
  | H : resolveNodeReference _ _ = Ok (_, _) |- _ => apply resolve_id_run in H as [H ?]; subst
  | H : resolveCaptionReference _ _ = Ok (_, _) |- _ => apply resolve_id_run in H as [H ?]; subst
  | H : resolveClipReference _ _ = Ok (_, _) |- _ => apply resolve_id_run in H as [H ?]; subst
  | H : match ?x with Some _ => _ | None => lift (Fail _) end _ = Ok (_, _) |- _ => destruct x eqn:?
  end.
Ltac mrun := repeat mrun1.

(** The same, splitting on the branches the method takes *)
Ltac mcase := match goal with H : (if ?x then _ else _) _ = Ok (_, _) |- _ => destruct x eqn:? end.
Ltac mruns := repeat (mrun1 || mcase).

(** A loop respects every preorder its body respects; each turn may rely on the
    relation between the start of the loop and the turn. *)
Lemma for_each_rel (R : relation editNormalizer) `{!PreOrder R} {A} (P : A -> Prop) (items : list A) (body : A -> M unit) n0 :
  Forall P items ->
  (forall item n u n', P item -> R n0 n -> body item n = Ok (u, n') -> R n n') ->
  forall n u n', R n0 n -> for_each items body n = Ok (u, n') -> R n n'.
Proof.
  intros Hall Hbody. induction Hall as [|item rest Hitem Hrest IH]; intros n u n' Hr Hrun; cbn in Hrun; mrun; [done|].
  match goal with Hx : body item n = Ok (_, ?m) |- _ => assert (Hs : R n m) by (by eapply Hbody); clear Hx end.
  etrans; [exact Hs|]. eapply IH; [|done]. by etrans.
Qed.

(** The same when a turn needs nothing of the loop so far *)
Lemma for_each_steps (R : relation editNormalizer) `{!PreOrder R} {A} (items : list A) (body : A -> M unit) :
  (forall item n u n', item ∈ items -> body item n = Ok (u, n') -> R n n') ->
  forall n u n', for_each items body n = Ok (u, n') -> R n n'.
Proof.
  intros Hbody n u n'. apply (for_each_rel R (fun item => item ∈ items) items body n); [by apply Forall_forall| |done].
  intros. by eapply Hbody.
Qed.

(** ** Relations that every step respects *)

(** Whatever a method returns, it moves the normalizer along [R]. *)
Definition respects (R : relation editNormalizer) {A} (m : M A) : Prop := forall n a n', m n = Ok (a, n') -> R n n'.

Section respects.
Context (R : relation editNormalizer) `{!PreOrder R}.

Lemma respects_bind {A B} (m : M A) (k : A -> M B) : respects R m -> (forall a, respects R (k a)) -> respects R (m ≫= k).
Proof. intros Hm Hk n b n' (a & n1 & H1 & H2)%mbind_run. etrans; [by eapply Hm|by eapply Hk]. Qed.
Lemma respects_ret {A} (a : A) : respects R (mret a).
Proof. by intros n a' n' [_ ->]%mret_run. Qed.
Lemma respects_reads {A} (f : editNormalizer -> A) : respects R (reads f).
Proof. by intros n a n' [_ ->]%reads_run. Qed.
Lemma respects_lift {A} (r : outcome edit_error A) : respects R (lift r).
Proof. by intros n a n' [_ ->]%lift_run. Qed.
Lemma respects_modify f : (forall n, R n (f n)) -> respects R (modify f).
Proof. by intros Hf n a n' ->%modify_run. Qed.
Lemma respects_or_invalid_m {A} (m : M A) : respects R m -> respects R (or_invalid_m m).
Proof. intros Hm n a n' H%or_invalid_m_run. by eapply Hm. Qed.
Lemma respects_require kind id r : respects R (require kind id r).
Proof. by intros n a n' [_ ->]%require_run. Qed.
Lemma respects_resolveReference r kind : respects R (resolveReference r kind).
Proof. by intros n a n' ->%resolveReference_run. Qed.
Lemma respects_for_each {A} (items : list A) (body : A -> M unit) :
  (forall item, respects R (body item)) -> respects R (for_each items body).
Proof. intros Hbody n u n'. apply (for_each_steps R). intros. by eapply Hbody. Qed.
End respects.

(** Reduce projections of assigned normalizers. *)
Ltac msimpl_in_all :=
  cbn [n_input n_allocations n_conditions n_sections n_texts n_sourceExcerpts n_visualIntents n_notes n_sectionChildren n_corrections n_captions n_clips n_linkGroups n_linkGroupClips n_alignments n_touched n_alignmentEffects n_operations n_inverse n_changes n_narrativeChanged n_sequenceChanged n_parentChanges n_trackChanges
    on_sections on_texts on_sourceExcerpts on_visualIntents on_notes on_sectionChildren on_corrections on_captions on_clips on_linkGroups on_linkGroupClips on_alignments on_touched on_alignmentEffects on_operations on_inverse on_changes on_narrativeChanged on_sequenceChanged on_parentChanges on_trackChanges] in *.

(** Show that a method respects [R] step by step: [known] closes the calls of
    other methods, [assign] the assignments. *)
Ltac respect known assign :=
  repeat match goal with
  | |- respects _ (mbind _ _) => apply respects_bind; [typeclasses eauto| |intros ?]
  | |- respects _ (mret _) => apply respects_ret; typeclasses eauto
  | |- respects _ (reads _) => apply respects_reads; typeclasses eauto
  | |- respects _ (state_of _) => apply respects_reads; typeclasses eauto
  | |- respects _ sequence_id => apply respects_reads; typeclasses eauto
  | |- respects _ (track_of _) => apply respects_reads; typeclasses eauto
  | |- respects _ (stream_of _) => apply respects_reads; typeclasses eauto
  | |- respects _ (clip_of _) => apply respects_reads; typeclasses eauto
  | |- respects _ (group_of _) => apply respects_reads; typeclasses eauto
  | |- respects _ (members_of _) => apply respects_reads; typeclasses eauto
  | |- respects _ (lift _) => apply respects_lift; typeclasses eauto
  | |- respects _ (check _) => apply respects_lift; typeclasses eauto
  | |- respects _ (deref _) => apply respects_lift; typeclasses eauto
  | |- respects _ (or_invalid _) => apply respects_lift; typeclasses eauto
  | |- respects _ (next_of _) => apply respects_lift; typeclasses eauto
  | |- respects _ (or_invalid_m _) => apply respects_or_invalid_m
  | |- respects _ (require _ _ _) => apply respects_require; typeclasses eauto
  | |- respects _ (resolveReference _ _) => apply respects_resolveReference; typeclasses eauto
  | |- respects _ (resolve_id _ _) => unfold resolve_id
  | |- respects _ (resolveNodeReference _) => unfold resolveNodeReference
  | |- respects _ (resolveCaptionReference _) => unfold resolveCaptionReference
  | |- respects _ (resolveClipReference _) => unfold resolveClipReference
  | |- respects _ (allocation_of _) => unfold allocation_of
  | |- respects _ (markTouched _ _) => unfold markTouched
  | |- respects _ (appendOperation _ _) => unfold appendOperation
  | |- respects _ (appendChange _) => unfold appendChange
  | |- respects _ (for_each _ _) => apply respects_for_each; [typeclasses eauto|intros ?]
  | |- respects _ (modify _) => apply respects_modify; intros ?; assign
  | |- respects _ (match ?x with _ => _ end) => destruct x
  | |- respects _ (let _ := _ in _) => cbv zeta
  | |- respects _ _ => known
  end.
