(* ===== verification/EditJournal.v ===== *)
(** The journal of a normalization: every operation the normalizer records is
    paired with the operation that undoes it and the revision change it makes,
    and the recorded operations are exactly the difference between the
    normalizer's entities and those it started from. *)
From stdpp Require Import base list strings gmap sorting.
From Stdlib Require Import ZArith Lia Ascii.
From S2P Require Import Prelude GoText Exact Identity Canonical EditModel Timeline EditState EditClips.
From S2P Require Import EditNarrative EditCaptions EditTranscript EditDerive EditValidate EditNormalize.
From S2P Require Import EditEffects.
Open Scope Z_scope.

(** ** Operations as entities *)

Definition op_kind (o : NormalizedEditOperation) : EditEntityKind :=
  match o with
  | PutNarrativeNode _ => EntityNarrativeNode
  | PutTranscriptCorrection _ => EntityTranscriptCorrection
  | PutCaption _ => EntityCaption
  | PutAlignment _ => EntityAlignment
  | PutClip _ => EntityClip
  | PutLinkGroup _ => EntityLinkGroup
  end.
Definition op_id (o : NormalizedEditOperation) : string :=
  match o with
  | PutNarrativeNode v => narrativeNodeID v | PutTranscriptCorrection v => cor_ID v | PutCaption v => caption_ID v
  | PutAlignment v => al_ID v | PutClip v => clip_ID v | PutLinkGroup v => group_ID v
  end.
Definition op_key (o : NormalizedEditOperation) : EditEntityKind * string := (op_kind o, op_id o).
Definition op_revision (o : NormalizedEditOperation) : Z :=
  match o with
  | PutNarrativeNode v => narrativeNodeRevision v | PutTranscriptCorrection v => cor_Revision v | PutCaption v => caption_Revision v
  | PutAlignment v => al_Revision v | PutClip v => clip_Revision v | PutLinkGroup v => group_Revision v
  end.
(** Alignments are unbound rather than tombstoned. *)
Definition op_tombstoned (o : NormalizedEditOperation) : bool :=
  match o with
  | PutNarrativeNode v => narrativeNodeTombstoned v | PutTranscriptCorrection v => cor_Tombstoned v
  | PutCaption v => caption_Tombstoned v | PutAlignment _ => false
  | PutClip v => clip_Tombstoned v | PutLinkGroup v => group_Tombstoned v
  end.

(** The same entity at another revision *)
Definition at_revision (r : Z) (o : NormalizedEditOperation) : NormalizedEditOperation :=
  match o with
  | PutNarrativeNode v => PutNarrativeNode (narrativeNodeWithRevisionAndTombstone v r (narrativeNodeTombstoned v))
  | PutTranscriptCorrection v => PutTranscriptCorrection (correction_at r (cor_Tombstoned v) v)
  | PutCaption v => PutCaption (caption_at r (caption_Tombstoned v) v)
  | PutAlignment v => PutAlignment (alignment_at r (al_Targets v) (al_Status v) v)
  | PutClip v => PutClip (clip_at_revision r v)
  | PutLinkGroup v => PutLinkGroup (group_at r (group_Tombstoned v) v)
  end.
(** The entity withdrawn: tombstoned, or unbound for an alignment *)
Definition retired (r : Z) (o : NormalizedEditOperation) : NormalizedEditOperation :=
  match o with
  | PutNarrativeNode v => PutNarrativeNode (narrativeNodeWithRevisionAndTombstone v r true)
  | PutTranscriptCorrection v => PutTranscriptCorrection (correction_at r true v)
  | PutCaption v => PutCaption (caption_at r true v)
  | PutAlignment v => PutAlignment (alignment_at r (al_Targets v) AlignmentUnbound v)
  | PutClip v => PutClip (clip_tombstoned true (clip_at_revision r v))
  | PutLinkGroup v => PutLinkGroup (group_at r true v)
  end.

(** ** Entities of a normalizer *)

Definition ekey : Type := EditEntityKind * string.

Definition entity (n : editNormalizer) (k : ekey) : option NormalizedEditOperation :=
  if decide (k.1 = EntityNarrativeNode) then PutNarrativeNode <$> narrativeNode n k.2
  else if decide (k.1 = EntityTranscriptCorrection) then PutTranscriptCorrection <$> n_corrections n !! k.2
  else if decide (k.1 = EntityCaption) then PutCaption <$> n_captions n !! k.2
  else if decide (k.1 = EntityAlignment) then PutAlignment <$> n_alignments n !! k.2
  else if decide (k.1 = EntityClip) then PutClip <$> n_clips n !! k.2
  else if decide (k.1 = EntityLinkGroup) then PutLinkGroup <$> n_linkGroups n !! k.2
  else None.

Definition key_text (k : ekey) : string := entityKey k.1 k.2.

(** The last operation recorded for a key *)
Definition find_op (k : ekey) (ops : list NormalizedEditOperation) : option NormalizedEditOperation :=
  last (filter (fun o => op_key o = k) ops).

Lemma entity_node n id : entity n (EntityNarrativeNode, id) = PutNarrativeNode <$> narrativeNode n id.
Proof. done. Qed.
Lemma entity_correction n id : entity n (EntityTranscriptCorrection, id) = PutTranscriptCorrection <$> n_corrections n !! id.
Proof. done. Qed.
Lemma entity_caption n id : entity n (EntityCaption, id) = PutCaption <$> n_captions n !! id.
Proof. done. Qed.
Lemma entity_alignment n id : entity n (EntityAlignment, id) = PutAlignment <$> n_alignments n !! id.
Proof. done. Qed.
Lemma entity_clip n id : entity n (EntityClip, id) = PutClip <$> n_clips n !! id.
Proof. done. Qed.
Lemma entity_group n id : entity n (EntityLinkGroup, id) = PutLinkGroup <$> n_linkGroups n !! id.
Proof. done. Qed.
#[export] Hint Rewrite entity_node entity_correction entity_caption entity_alignment entity_clip entity_group : oc.

(** [n'] holds the entity [o] at its key and is otherwise [n]. *)
Definition puts (n n' : editNormalizer) (o : NormalizedEditOperation) : Prop :=
  forall k, entity n' k = if decide (k = op_key o) then Some o else entity n k.

Ltac solve_puts :=
  intros [kind key]; unfold entity, op_key; cbn;
  repeat (case_decide; simplify_eq; try done);
  rewrite ?lookup_insert_eq, ?lookup_insert_ne by congruence; try done; try congruence.

Lemma puts_clip n id c : clip_ID c = id -> puts n (on_clips (<[id := c]>) n) (PutClip c).
Proof. intros <-. solve_puts. Qed.
Lemma puts_group n id g : group_ID g = id -> puts n (on_linkGroups (<[id := g]>) n) (PutLinkGroup g).
Proof. intros <-. solve_puts. Qed.
Lemma puts_caption n id c : caption_ID c = id -> puts n (on_captions (<[id := c]>) n) (PutCaption c).
Proof. intros <-. solve_puts. Qed.
Lemma puts_alignment n id a : al_ID a = id -> puts n (on_alignments (<[id := a]>) n) (PutAlignment a).
Proof. intros <-. solve_puts. Qed.
Lemma puts_correction n id c : cor_ID c = id -> puts n (on_corrections (<[id := c]>) n) (PutTranscriptCorrection c).
Proof. intros <-. solve_puts. Qed.

(** Two node states of one kind *)
Definition same_kind (a b : NarrativeNodeState) : bool :=
  match a, b with
  | NodeSection _, NodeSection _ | NodeAuthoredText _, NodeAuthoredText _ | NodeSourceExcerpt _, NodeSourceExcerpt _
  | NodeVisualIntent _, NodeVisualIntent _ | NodeNote _, NodeNote _ => true
  | _, _ => false
  end.

Lemma narrativeNode_set n s id :
  match narrativeNode n (narrativeNodeID s) with Some old => same_kind old s = true | None => True end ->
  narrativeNode (setNarrativeNode s n) id = if decide (id = narrativeNodeID s) then Some s else narrativeNode n id.
Proof.
  unfold narrativeNode. destruct s as [v|v|v|v|v]; cbn;
    (destruct (decide (id = _)) as [->|Hne]; [rewrite lookup_insert_eq|by rewrite lookup_insert_ne by congruence]);
    repeat (case_match; simplify_eq; try done).
Qed.

Lemma puts_node n s :
  match narrativeNode n (narrativeNodeID s) with Some old => same_kind old s = true | None => True end ->
  puts n (setNarrativeNode s n) (PutNarrativeNode s).
Proof.
  intros Hk [kind key]. unfold entity, op_key. cbn.
  destruct (decide (kind = EntityNarrativeNode)) as [->|Hne].
  - rewrite narrativeNode_set by done. destruct (decide (key = _)) as [->|Hk'].
    + by rewrite decide_True.
    + by rewrite decide_False by congruence.
  - rewrite (decide_False (P := (kind, key) = _)) by congruence. destruct s; done.
Qed.

(** ** One entry of the journal *)

(** What an operation, its inverse and its change say, against the entities [b]
    that normalization started from: an existing entity was at the revision the
    request named and moves one up, and the inverse restores it two up; a new
    entity starts at revision one, and the inverse withdraws it. *)
Definition entry_ok (b : editNormalizer) (o i : NormalizedEditOperation) (c : EntityRevisionChange) : Prop :=
  op_key i = op_key o /\ ch_Kind c = op_kind o /\ ch_ID c = op_id o /\ ch_After c = op_revision o /\
  ch_Tombstoned c = op_tombstoned o /\
  match entity b (op_key o) with
  | Some old =>
      ch_Before c = Some (op_revision old) /\ op_revision o = op_revision old + 1 /\
      i = at_revision (op_revision old + 2) old /\
      n_conditions b !! key_text (op_key o) = Some (op_revision old)
  | None => ch_Before c = None /\ op_revision o = 1 /\ i = retired 2 o
  end.

(** The parts of a normalizer that no method assigns *)
Definition same_request (b n : editNormalizer) : Prop :=
  n_input n = n_input b /\ n_allocations n = n_allocations b /\ n_conditions n = n_conditions b.

Record journal (b n : editNormalizer) : Prop := mkJournal {
  j_request : same_request b n;
  j_entries : Forall3 (entry_ok b) (n_operations n) (n_inverse n) (n_changes n);
  j_once : NoDup (op_key <$> n_operations n);
  j_touched : Forall (fun o => key_text (op_key o) ∈ n_touched n) (n_operations n);
  j_entity : forall k, entity n k = match find_op k (n_operations n) with Some o => Some o | None => entity b k end }.

(** The starting entities are stored under their own identities, at revisions in range. *)
Definition entities_ok (b : editNormalizer) : Prop :=
  forall k o, entity b k = Some o -> op_key o = k /\ revision_ok (op_revision o).

Lemma find_op_app k ops o : find_op k (ops ++ [o]) = if decide (k = op_key o) then Some o else find_op k ops.
Proof.
  unfold find_op. rewrite filter_app, filter_cons, filter_nil.
  destruct (decide (op_key o = k)) as [<-|Hne].
  - rewrite decide_True by done. by rewrite last_snoc.
  - by rewrite decide_False, app_nil_r by congruence.
Qed.

Lemma find_op_key k ops o : find_op k ops = Some o -> op_key o = k /\ o ∈ ops.
Proof.
  unfold find_op. intros H. apply last_Some_elem_of in H. by apply list_elem_of_filter in H.
Qed.

Lemma find_op_None k ops : k ∉ op_key <$> ops -> find_op k ops = None.
Proof.
  intros Hk. destruct (find_op k ops) as [o|] eqn:E; [|done].
  apply find_op_key in E as [<- Ho]. exfalso. apply Hk. by apply list_elem_of_fmap_2.
Qed.

(** A step that records nothing and touches no entity *)
Definition quiet (n n' : editNormalizer) : Prop :=
  same_request n n' /\ (forall k, entity n' k = entity n k) /\ n_operations n' = n_operations n /\
  n_inverse n' = n_inverse n /\ n_changes n' = n_changes n /\ n_touched n ⊆ n_touched n'.

(** A step that records one entry *)
Definition records (n n' : editNormalizer) (o i : NormalizedEditOperation) (c : EntityRevisionChange) : Prop :=
  same_request n n' /\ puts n n' o /\ n_operations n' = n_operations n ++ [o] /\
  n_inverse n' = n_inverse n ++ [i] /\ n_changes n' = n_changes n ++ [c] /\ n_touched n ⊆ n_touched n'.

Lemma same_request_trans b n n' : same_request b n -> same_request n n' -> same_request b n'.
Proof. unfold same_request. intuition congruence. Qed.

Lemma journal_quiet b n n' : journal b n -> quiet n n' -> journal b n'.
Proof.
  intros [Hr He Ho Ht Hn] (Qr & Qe & Qo & Qi & Qc & Qt). split.
  - by eapply same_request_trans.
  - by rewrite Qo, Qi, Qc.
  - by rewrite Qo.
  - rewrite Qo. eapply Forall_impl; [done|]. set_solver.
  - intros k. by rewrite Qe, Qo, Hn.
Qed.

Lemma journal_records b n n' o i c :
  journal b n -> records n n' o i c -> key_text (op_key o) ∈ n_touched n' -> op_key o ∉ op_key <$> n_operations n ->
  entry_ok b o i c -> journal b n'.
Proof.
  intros [Hr He Ho Ht Hn] (Qr & Qe & Qo & Qi & Qc & Qt) Hk Hnew Hok. split.
  - by eapply same_request_trans.
  - rewrite Qo, Qi, Qc. apply Forall3_app; [done|]. constructor; [exact Hok|constructor].
  - rewrite Qo, fmap_app. apply NoDup_app. cbn. split; [done|]. split; [|apply NoDup_singleton].
    intros k Hin ->%list_elem_of_singleton. done.
  - rewrite Qo. apply Forall_app. split; [eapply Forall_impl; [done|]; set_solver|]. by constructor.
  - intros k. rewrite Qe, Qo, find_op_app, Hn. by case_decide.
Qed.

(** ** Keys as text *)

Definition nul_free (s : string) : bool := forallb (fun a => negb (Ascii.eqb a Ascii.zero)) (bytes_of s).

Lemma splitEntityKey_key kind id : nul_free kind = true -> splitEntityKey (entityKey kind id) = (kind, id).
Proof.
  unfold entityKey. induction kind as [|a kind IH]; [done|]. intros H.
  change (nul_free (String a kind)) with (negb (Ascii.eqb a Ascii.zero) && nul_free kind) in H.
  apply andb_true_iff in H as [Ha%negb_true_iff Hk].
  change (splitEntityKey (String a kind +:+ nul +:+ id)) with
    (if Ascii.eqb a Ascii.zero then ("", kind +:+ nul +:+ id)
     else let '(k, i) := splitEntityKey (kind +:+ nul +:+ id) in (String a k, i)).
  by rewrite Ha, IH.
Qed.

Lemma key_text_inj k k' : nul_free k.1 = true -> nul_free k'.1 = true -> key_text k = key_text k' -> k = k'.
Proof.
  destruct k as [a x], k' as [b y]. unfold key_text. cbn. intros H1 H2 H.
  apply (f_equal splitEntityKey) in H. by rewrite !splitEntityKey_key in H by done.
Qed.

Lemma op_kind_nul_free o : nul_free (op_kind o) = true.
Proof. by destruct o. Qed.

(** ** Extending a journal *)

(** What a method does to a normalizer with a journal over [b]: it keeps the
    journal, and records nothing for keys that were touched before. *)
Definition extends (b n n' : editNormalizer) : Prop :=
  journal b n ->
  journal b n' /\ n_touched n ⊆ n_touched n' /\
  (forall k, nul_free k.1 = true -> key_text k ∈ n_touched n -> find_op k (n_operations n') = find_op k (n_operations n)).

#[export] Instance extends_preorder b : PreOrder (extends b).
Proof.
  split.
  - intros n Hj. done.
  - intros n1 n2 n3 H1 H2 Hj. destruct (H1 Hj) as (Hj2 & Ht & Hf). destruct (H2 Hj2) as (Hj3 & Ht' & Hf').
    split; [done|]. split; [set_solver|]. intros k Hk Hin. rewrite Hf' by set_solver. by apply Hf.
Qed.

Lemma extends_quiet b n n' : quiet n n' -> extends b n n'.
Proof.
  intros Hq Hj. split; [by eapply journal_quiet|]. destruct Hq as (_ & _ & Qo & _ & _ & Qt).
  split; [done|]. intros. by rewrite Qo.
Qed.

Lemma journal_untouched b n k : journal b n -> nul_free k.1 = true -> key_text k ∉ n_touched n ->
  find_op k (n_operations n) = None /\ entity n k = entity b k.
Proof.
  intros Hj Hk Hin. assert (Hf : find_op k (n_operations n) = None).
  { destruct (find_op k _) as [o|] eqn:E; [|done]. apply find_op_key in E as [<- Ho].
    exfalso. apply Hin. by apply (proj1 (Forall_forall _ _) (j_touched _ _ Hj)). }
  split; [done|]. by rewrite (j_entity _ _ Hj), Hf.
Qed.

(** Finish a method: [n] is where it started, [n2] where the entry is recorded. *)
Lemma extends_records b n n2 n' o i c :
  extends b n n2 -> records n2 n' o i c ->
  key_text (op_key o) ∉ n_touched n -> key_text (op_key o) ∈ n_touched n' ->
  (journal b n -> find_op (op_key o) (n_operations n2) = None) -> (journal b n -> journal b n2 -> entry_ok b o i c) -> extends b n n'.
Proof.
  intros He Hrec Hfresh Htouched Hfind Hok Hj. destruct (He Hj) as (Hj2 & Ht & Hf).
  pose proof Hrec as (_ & _ & Ro & _ & _ & Rt). split; [|split].
  - eapply journal_records; eauto. intros Hin. apply list_elem_of_fmap_1 in Hin as (o' & Ho & Hin).
    specialize (Hfind Hj). unfold find_op in Hfind. rewrite Ho in Hfind.
    apply last_None in Hfind. assert (o' ∈ filter (fun o => op_key o = op_key o') (n_operations n2)) as Hx
      by (by apply list_elem_of_filter). rewrite Hfind in Hx. by apply elem_of_nil in Hx.
  - set_solver.
  - intros k Hk Hin. rewrite Ro, find_op_app. rewrite decide_False; [by apply Hf|]. intros ->. done.
Qed.

(** The common case: nothing else is recorded in between. *)
Lemma extends_records_quiet b n n2 n' o i c :
  quiet n n2 -> records n2 n' o i c -> key_text (op_key o) ∉ n_touched n -> key_text (op_key o) ∈ n_touched n' ->
  (journal b n -> entry_ok b o i c) -> extends b n n'.
Proof.
  intros Hq Hrec Hfresh Ht Hok. eapply extends_records; [by apply extends_quiet|done|done|done| |by intros; apply Hok].
  intros Hj. destruct Hq as (_ & _ & -> & _). apply (journal_untouched b n); [done| |done]. apply op_kind_nul_free.
Qed.

(** ** The starting normalizer *)

Record base_ok (b : editNormalizer) : Prop := mkBase {
  base_new : newEditNormalizer (n_input b) = Ok b;
  base_entities : entities_ok b;
  base_fresh : forall local a, n_allocations b !! local = Some a -> entity b (alloc_Kind a, alloc_ID a) = None }.

Lemma base_maps b : base_ok b ->
  n_captions b = st_Captions (in_State (n_input b)) /\ n_clips b = st_Clips (in_State (n_input b)) /\
  n_linkGroups b = st_LinkGroups (in_State (n_input b)) /\ n_alignments b = st_Alignments (in_State (n_input b)) /\
  n_sections b = st_Sections (in_State (n_input b)).
Proof.
  intros [H _ _]. unfold newEditNormalizer in H. apply bind_ok in H as (m & _ & H).
  injection H as H. rewrite <- H. done.
Qed.

Lemma keyed b n k old : base_ok b -> journal b n -> entity n k = Some old -> op_key old = k.
Proof.
  intros Hb Hj He. rewrite (j_entity _ _ Hj) in He. destruct (find_op k (n_operations n)) as [o|] eqn:E.
  - injection He as <-. by apply find_op_key in E as [-> _].
  - by apply (base_entities _ Hb).
Qed.

(** The journal may be assumed, and with it that entities are stored under their keys. *)
Lemma extends_intro {b n n'} : base_ok b ->
  (journal b n -> (forall k old, entity n k = Some old -> op_key old = k) -> extends b n n') ->
  extends b n n'.
Proof. intros Hb H Hj. apply H; [done| |done]. intros. by eapply keyed. Qed.

(** ** Building entries *)

Lemma entry_existing b n k old o i c r1 r2 tombstoned :
  base_ok b -> journal b n -> entity n k = Some old -> nul_free k.1 = true -> key_text k ∉ n_touched n ->
  n_conditions n !! key_text k = Some (op_revision old) ->
  mustNext (op_revision old) = Ok r1 -> mustNext r1 = Ok r2 ->
  op_key o = k -> op_revision o = r1 -> op_tombstoned o = tombstoned -> i = at_revision r2 old ->
  c = existingEntityChange k.1 k.2 (op_revision old) r1 tombstoned ->
  entry_ok b o i c.
Proof.
  intros Hb Hj Hold Hk Hin Hcond H1 H2 <- Hro <- -> ->.
  destruct (journal_untouched _ _ _ Hj Hk Hin) as [_ He]. rewrite He in Hold.
  destruct (base_entities _ Hb _ _ Hold) as [Hok Hrev].
  destruct (mustNext_ok _ _ Hrev H1) as [-> Hrev1]. destruct (mustNext_ok _ _ Hrev1 H2) as [-> _].
  unfold entry_ok. rewrite Hold, Hro.
  split; [rewrite <- Hok; by destruct old as [[]| | | | |]|]. cbn. repeat (split; [done|]).
  split; [f_equal; lia|]. destruct (j_request _ _ Hj) as (_ & _ & <-). done.
Qed.

Lemma entry_new b n o i c r :
  journal b n -> key_text (op_key o) ∉ n_touched n -> entity b (op_key o) = None \/ entity n (op_key o) = None ->
  mustNext first_revision = Ok r -> op_revision o = first_revision -> op_tombstoned o = false -> i = retired r o ->
  c = newEntityChange (op_kind o) (op_id o) first_revision false ->
  entry_ok b o i c.
Proof.
  intros Hj Hin Hnew Hr Hro Ht -> ->.
  destruct (journal_untouched _ _ (op_key o) Hj (op_kind_nul_free o) Hin) as [_ He].
  assert (entity b (op_key o) = None) as Hb by (destruct Hnew; congruence).
  injection Hr as <-. unfold entry_ok. rewrite Hb.
  split; [by destruct o as [[]| | | | |]|]. cbn. rewrite Hro, Ht. done.
Qed.

(** Solve [quiet n n'] and [records n n' o i c] for a run that is a chain of assignments. *)
Ltac solve_request := unfold same_request; cbn; tauto.
Ltac solve_quiet :=
  unfold quiet; split; [solve_request|]; split; [intros; reflexivity|]; cbn; repeat (split; [done|]); set_solver.
Ltac solve_records puts :=
  unfold records; split; [solve_request|]; split; [puts|]; cbn; repeat (split; [done|]); set_solver.

Lemma quiet_refl n : quiet n n.
Proof. solve_quiet. Qed.

Lemma quiet_trans n1 n2 n3 : quiet n1 n2 -> quiet n2 n3 -> quiet n1 n3.
Proof.
  intros (R1 & E1 & O1 & I1 & C1 & T1) (R2 & E2 & O2 & I2 & C2 & T2). unfold quiet.
  split; [by eapply same_request_trans|]. split; [intros; by rewrite E2|].
  rewrite O2, I2, C2. repeat (split; [done|]). set_solver.
Qed.

(** An entity the request creates: not in the starting state, recorded once. *)
Ltac journal_new puts :=
  eapply extends_records_quiet;
    [solve_quiet|solve_records puts|eassumption|cbn; set_solver|
     let Hj := fresh "Hj" in intros Hj; eapply entry_new; [exact Hj|eassumption| |eassumption|reflexivity|reflexivity|reflexivity|reflexivity]].

(** An entity that is there already, at the revision the request names *)
Ltac journal_existing Hb Hold puts :=
  eapply extends_records_quiet;
    [solve_quiet|solve_records puts|eassumption|cbn; set_solver|
     intros _; eapply entry_existing; [exact Hb|eassumption|exact Hold|..];
       cbn [op_revision op_tombstoned] in *; try eassumption; try reflexivity; try congruence].
