(* ===== verification/EditJournalOps.v ===== *)
(** Every operation of the normalizer keeps the journal. *)
From stdpp Require Import base list strings gmap sorting.
From Stdlib Require Import ZArith Lia Ascii.
From S2P Require Import Prelude GoText Exact Identity Canonical EditModel Timeline EditState EditClips EditNarrative EditCaptions EditTranscript EditDerive EditValidate.
From S2P Require Import EditNormalize EditEffects EditJournal.
Open Scope Z_scope.

Section journal_ops.
Context `{Platform} (b : editNormalizer) (Hb : base_ok b).

(** An identity that the project state lacks names no starting entity. *)
Lemma base_absent n id : journal b n ->
  (st_Captions (in_State (n_input n)) !! id = None -> entity b (EntityCaption, id) = None) /\
  (st_Clips (in_State (n_input n)) !! id = None -> entity b (EntityClip, id) = None) /\
  (st_LinkGroups (in_State (n_input n)) !! id = None -> entity b (EntityLinkGroup, id) = None) /\
  (st_Alignments (in_State (n_input n)) !! id = None -> entity b (EntityAlignment, id) = None).
Proof.
  intros Hj. destruct (base_maps _ Hb) as (Hc & Hk & Hg & Ha & _), (j_request _ _ Hj) as (Hi & _).
  autorewrite with oc. rewrite Hc, Hk, Hg, Ha, Hi. repeat split; by intros ->.
Qed.

(** ** Captions *)

Lemma addCaption_extends o n u n' : addCaption o n = Ok (u, n') -> extends b n n'.
Proof.
  intros Hr. unfold addCaption in Hr. mrun. bool_prop. msimpl_in_all.
  journal_new ltac:(apply (puts_caption n); reflexivity). left. by apply (base_absent n).
Qed.

Lemma updateCaption_extends o remove n u n' : updateCaption o remove n = Ok (u, n') -> extends b n n'.
Proof.
  intros Hr. apply (extends_intro Hb). intros Hj Hkey.
  unfold updateCaption in Hr. destruct remove; mrun; bool_prop; msimpl_in_all;
    (assert (Hc : entity n (EntityCaption, v) = Some (PutCaption c)) by (by rewrite entity_caption, Heqo0));
    pose proof (Hkey _ _ Hc) as [= Hid]; rewrite <- Hid in Hc;
    journal_existing Hb Hc ltac:(apply (puts_caption n); reflexivity).
Qed.

(** ** Alignments *)

Lemma map_each_pure {A B} (f : A -> M B) : (forall a n r n', f a n = Ok (r, n') -> n' = n) ->
  forall items n r n', map_each f items n = Ok (r, n') -> n' = n.
Proof.
  intros Hf items. induction items as [|item rest IH]; intros n r n' Hr; cbn in Hr; mrun; [done|].
  apply IH in Hrun0. apply Hf in Hrun. congruence.
Qed.

Lemma normalizeAlignmentTarget_run i allow n t n' : normalizeAlignmentTarget i allow n = Ok (t, n') -> n' = n.
Proof.
  intros Hr. unfold normalizeAlignmentTarget in Hr.
  destruct (ti_Type i); mruns; done.
Qed.

Lemma normalizeAlignmentTargets_run items allow n t n' : normalizeAlignmentTargets items allow n = Ok (t, n') -> n' = n.
Proof.
  intros Hr. unfold normalizeAlignmentTargets in Hr. mrun.
  eapply (map_each_pure (fun i => normalizeAlignmentTarget i allow)); [|done]. intros. by eapply normalizeAlignmentTarget_run.
Qed.

Lemma bindAlignment_extends o n u n' : bindAlignment o n = Ok (u, n') -> extends b n n'.
Proof.
  intros Hr. unfold bindAlignment in Hr. mrun.
  match goal with Hx : normalizeAlignmentTargets _ _ _ = _ |- _ => apply normalizeAlignmentTargets_run in Hx; subst end.
  mruns; bool_prop; msimpl_in_all;
    journal_new ltac:(apply (puts_alignment n); reflexivity); left; by apply (base_absent n).
Qed.

Lemma updateAlignment_extends id status n u n' : updateAlignment id status n = Ok (u, n') -> extends b n n'.
Proof.
  intros Hr. apply (extends_intro Hb). intros Hj Hkey. unfold updateAlignment in Hr. mrun. msimpl_in_all.
  assert (Hc : entity n (EntityAlignment, id) = Some (PutAlignment a)) by (by rewrite entity_alignment, Heqo).
  pose proof (Hkey _ _ Hc) as [= Hid]. subst id.
  journal_existing Hb Hc ltac:(apply (puts_alignment n); reflexivity).
Qed.

Lemma remapAlignment_extends o n u n' : remapAlignment o n = Ok (u, n') -> extends b n n'.
Proof.
  intros Hr. apply (extends_intro Hb). intros Hj Hkey. unfold remapAlignment in Hr. mrun.
  match goal with Hx : normalizeAlignmentTargets _ _ _ = _ |- _ => apply normalizeAlignmentTargets_run in Hx; subst end.
  msimpl_in_all.
  assert (Hc : entity n (EntityAlignment, v) = Some (PutAlignment a)) by (by rewrite entity_alignment, Heqo0).
  pose proof (Hkey _ _ Hc) as [= Hid]. subst v.
  journal_existing Hb Hc ltac:(apply (puts_alignment n); reflexivity).
Qed.

(** ** Transcript corrections *)

Lemma addTranscriptCorrection_extends o n u n' : addTranscriptCorrection o n = Ok (u, n') -> extends b n n'.
Proof.
  intros Hr. unfold addTranscriptCorrection in Hr. mrun. bool_prop. msimpl_in_all.
  journal_new ltac:(apply (puts_correction n); reflexivity). right. unfold op_key, op_kind, op_id.
  rewrite entity_correction. cbn [cor_ID]. by rewrite Hrun3.
Qed.

Lemma updateTranscriptCorrection_extends o remove n u n' : updateTranscriptCorrection o remove n = Ok (u, n') -> extends b n n'.
Proof.
  intros Hr. apply (extends_intro Hb). intros Hj Hkey. unfold updateTranscriptCorrection in Hr.
  destruct remove; mrun; bool_prop; msimpl_in_all;
    (assert (Hc : entity n (EntityTranscriptCorrection, v) = Some (PutTranscriptCorrection t))
      by (by rewrite entity_correction, Heqo0));
    pose proof (Hkey _ _ Hc) as [= Hid]; subst v;
    journal_existing Hb Hc ltac:(apply (puts_correction n); reflexivity).
Qed.

(** ** Narrative nodes *)

Lemma requireNarrativeParent_run id n s n' : requireNarrativeParent id n = Ok (s, n') ->
  n_sections n !! id = Some s /\ n' = n.
Proof. intros Hr. unfold requireNarrativeParent in Hr. mrun. done. Qed.

Lemma resolveNarrativeNodeReference_run r n a n' : resolveNarrativeNodeReference r n = Ok (a, n') -> n' = n.
Proof. intros Hr. destruct r; cbn in Hr; mrun; done. Qed.

Lemma markNarrativeParentChanged_quiet id n u n' : markNarrativeParentChanged id n = Ok (u, n') -> quiet n n'.
Proof. intros Hr. unfold markNarrativeParentChanged in Hr. mruns; solve_quiet. Qed.

Lemma add_children_quiet id d n u n' : add_children id d n = Ok (u, n') -> quiet n n'.
Proof. intros Hr. unfold add_children in Hr. mrun. solve_quiet. Qed.

Ltac narrative_runs :=
  repeat match goal with
  | Hx : requireNarrativeParent _ _ = Ok _ |- _ => apply requireNarrativeParent_run in Hx as [Hx ?]; subst
  | Hx : resolveNarrativeNodeReference _ _ = Ok _ |- _ => apply resolveNarrativeNodeReference_run in Hx; subst
  | Hx : markNarrativeParentChanged _ _ = Ok _ |- _ => apply markNarrativeParentChanged_quiet in Hx
  | Hx : add_children _ _ _ = Ok _ |- _ => apply add_children_quiet in Hx
  end.

Lemma inserted_node_run o id p a n s n' : inserted_node o id p a n = Ok (s, n') ->
  narrativeNodeID s = id /\ narrativeNodeRevision s = first_revision /\ narrativeNodeTombstoned s = false /\ n' = n.
Proof. intros Hr. unfold inserted_node in Hr. destruct (op_Type o); mrun; done. Qed.

Lemma updated_node_run o c r n s n' : updated_node o c r n = Ok (s, n') ->
  narrativeNodeID s = narrativeNodeID c /\ narrativeNodeRevision s = r /\
  narrativeNodeTombstoned s = narrativeNodeTombstoned c /\ same_kind c s = true /\ n' = n.
Proof. intros Hr. unfold updated_node in Hr. destruct (op_Type o), c; mrun; done. Qed.

(** Storing a node and recording it *)
Definition put_node (s i : NarrativeNodeState) (c : EntityRevisionChange) (n : editNormalizer) : editNormalizer :=
  on_narrativeChanged (fun _ => true) (on_changes (fun l => l ++ [c])
    (on_inverse (fun l => l ++ [PutNarrativeNode i]) (on_operations (fun l => l ++ [PutNarrativeNode s])
      (setNarrativeNode s n)))).

Lemma extends_put_node n n1 n' s i c :
  quiet n n1 -> quiet (put_node s i c n1) n' ->
  entityKey EntityNarrativeNode (narrativeNodeID s) ∉ n_touched n ->
  entityKey EntityNarrativeNode (narrativeNodeID s) ∈ n_touched n1 ->
  match narrativeNode n (narrativeNodeID s) with Some old => same_kind old s = true | None => True end ->
  (journal b n -> entry_ok b (PutNarrativeNode s) (PutNarrativeNode i) c) -> extends b n n'.
Proof.
  intros Hq1 Hq2 Hfresh Hin Hkind Hok. etrans; [|by apply extends_quiet].
  assert (Hnode : narrativeNode n1 (narrativeNodeID s) = narrativeNode n (narrativeNodeID s)).
  { destruct Hq1 as (_ & He & _). specialize (He (EntityNarrativeNode, narrativeNodeID s)).
    rewrite !entity_node in He. destruct (narrativeNode n1 _), (narrativeNode n _); cbn in He; congruence. }
  apply (extends_records_quiet b n n1 _ (PutNarrativeNode s) (PutNarrativeNode i) c); [exact Hq1| |exact Hfresh| |exact Hok].
  - unfold records, put_node. split; [destruct s; solve_request|].
    split; [apply (puts_node n1); by rewrite Hnode|]. destruct s; cbn; repeat (split; [done|]); done.
  - destruct s; exact Hin.
Qed.

Lemma insertNarrativeNode_extends o n u n' : insertNarrativeNode o n = Ok (u, n') -> extends b n n'.
Proof.
  intros Hr. unfold insertNarrativeNode in Hr. mrun. narrative_runs.
  apply inserted_node_run in Hrun11 as (Hid & Hrev & Hto & ->). rewrite <- Hid in *.
  apply negb_true_iff, bool_decide_eq_false in Hrun4.
  eapply extends_put_node; [|eapply quiet_trans; eassumption|done|cbn; set_solver| |].
  - solve_quiet.
  - destruct (narrativeNode n _) eqn:E; [|done]. exfalso. eauto.
  - intros Hj. eapply entry_new; try done. right. unfold op_key. cbn [op_kind op_id].
    rewrite entity_node. destruct (narrativeNode n _) eqn:E; [|done]. exfalso. eauto.
Qed.

Lemma extends_existing_node n n1 n' id current next i r1 r2 :
  journal b n -> narrativeNode n id = Some current -> narrativeNodeTombstoned current = false ->
  quiet n n1 ->
  quiet (put_node next i (existingEntityChange EntityNarrativeNode id (narrativeNodeRevision current) r1
                            (narrativeNodeTombstoned next)) n1) n' ->
  entityKey EntityNarrativeNode id ∉ n_touched n -> entityKey EntityNarrativeNode id ∈ n_touched n1 ->
  n_conditions n !! entityKey EntityNarrativeNode id = Some (narrativeNodeRevision current) ->
  mustNext (narrativeNodeRevision current) = Ok r1 -> mustNext r1 = Ok r2 ->
  same_kind current next = true -> narrativeNodeID next = narrativeNodeID current -> narrativeNodeRevision next = r1 ->
  i = narrativeNodeWithRevisionAndTombstone current r2 false -> extends b n n'.
Proof.
  intros Hj Hcur Hlive Hq1 Hq2 Hfresh Hin Hcond Hr1 Hr2 Hkind Hid Hrev ->.
  assert (Hc : entity n (EntityNarrativeNode, id) = Some (PutNarrativeNode current)) by (by rewrite entity_node, Hcur).
  pose proof (keyed _ _ _ _ Hb Hj Hc) as [= Hcid]. subst id.
  eapply extends_put_node; [exact Hq1|exact Hq2|by rewrite Hid|by rewrite Hid|by rewrite Hid, Hcur|].
  intros _. eapply entry_existing; [done|exact Hj|exact Hc|done|exact Hfresh|exact Hcond|exact Hr1|exact Hr2|..]; try done.
  - unfold op_key. cbn. by rewrite Hid.
  - cbn. by rewrite Hlive.
Qed.

Lemma updateNarrativeNode_extends o n u n' : updateNarrativeNode o n = Ok (u, n') -> extends b n n'.
Proof.
  intros Hr. apply (extends_intro Hb). intros Hj _. unfold updateNarrativeNode in Hr. mrun. bool_prop. narrative_runs.
  match goal with Hx : updated_node _ _ _ _ = _ |- _ => apply updated_node_run in Hx as (Hid & Hrev & Hto & Hkind & ->) end.
  msimpl_in_all. eapply (extends_existing_node n _ _ v n0 v1); try eassumption; [| | |reflexivity].
  2: { rewrite Hto, Hrun0. apply quiet_refl. }
  - solve_quiet.
  - cbn. set_solver.
Qed.

Lemma narrativeNodeMoved_facts s p a r :
  same_kind s (narrativeNodeMoved s p a r) = true /\ narrativeNodeID (narrativeNodeMoved s p a r) = narrativeNodeID s /\
  narrativeNodeRevision (narrativeNodeMoved s p a r) = r /\ narrativeNodeTombstoned (narrativeNodeMoved s p a r) = false.
Proof. by destruct s. Qed.

Lemma narrativeNodeMoved_back s p r : narrativeNodeParentPointer s = Some p ->
  narrativeNodeMoved s p (narrativeNodeAfter s) r = narrativeNodeWithRevisionAndTombstone s r false.
Proof. destruct s as [v|v|v|v|v]; cbn; intros Hp; [by rewrite Hp|..]; by injection Hp as <-. Qed.

Lemma withRevision_facts s r t :
  same_kind s (narrativeNodeWithRevisionAndTombstone s r t) = true /\
  narrativeNodeID (narrativeNodeWithRevisionAndTombstone s r t) = narrativeNodeID s /\
  narrativeNodeRevision (narrativeNodeWithRevisionAndTombstone s r t) = r /\
  narrativeNodeTombstoned (narrativeNodeWithRevisionAndTombstone s r t) = t.
Proof. by destruct s. Qed.

Lemma section_keyed n id v : journal b n -> n_sections n !! id = Some v -> sec_ID v = id.
Proof.
  intros Hj Hv. assert (Hc : entity n (EntityNarrativeNode, id) = Some (PutNarrativeNode (NodeSection v))).
  { rewrite entity_node. unfold narrativeNode. by rewrite Hv. }
  by pose proof (keyed _ _ _ _ Hb Hj Hc) as [= Hid].
Qed.

Lemma moveNarrativeNode_extends o n u n' : moveNarrativeNode o n = Ok (u, n') -> extends b n n'.
Proof.
  intros Hr. apply (extends_intro Hb). intros Hj _. unfold moveNarrativeNode in Hr. mrun. bool_prop.
  match goal with Hx : (if _ then _ else _) _ = _ |- _ =>
    assert (Hq : exists m, quiet m n' /\ m = n19) by (eexists; split; [|reflexivity]; mruns; narrative_runs;
      eauto using quiet_trans, quiet_refl) end.
  destruct Hq as (? & Hq & ->). narrative_runs. clear Hr. msimpl_in_all.
  pose proof (section_keyed _ _ _ Hj Hrun4) as Hs. rewrite Hs, (narrativeNodeMoved_back _ _ _ Heqo1) in Hrun18.
  destruct (narrativeNodeMoved_facts n0 (sec_ID v2) v3 v5) as (Hkind & Hid & Hrev & Hto).
  eapply (extends_existing_node n _ _ v n0 (narrativeNodeMoved n0 (sec_ID v2) v3 v5)); try eassumption; [| | |reflexivity].
  2: { rewrite Hto. eapply quiet_trans; [exact Hrun18|]. by eapply quiet_trans. }
  - solve_quiet.
  - cbn. set_solver.
Qed.

Lemma removeNarrativeNode_extends o n u n' : removeNarrativeNode o n = Ok (u, n') -> extends b n n'.
Proof.
  intros Hr. apply (extends_intro Hb). intros Hj _. unfold removeNarrativeNode in Hr. mrun. bool_prop. narrative_runs.
  msimpl_in_all.
  match goal with Hx : mustNext (narrativeNodeRevision n0) = Ok ?r |- _ =>
    destruct (withRevision_facts n0 r true) as (Hkind & Hid & Hrev & Hto);
    eapply (extends_existing_node n _ _ v n0 (narrativeNodeWithRevisionAndTombstone n0 r true)) end;
    try eassumption; [| | |reflexivity].
  2: { rewrite Hto. eapply quiet_trans; eassumption. }
  - solve_quiet.
  - cbn. set_solver.
Qed.

Lemma provided_corrections_run refs : forall p n r n', provided_corrections p refs n = Ok (r, n') -> n' = n.
Proof.
  induction refs as [|ref rest IH]; intros p n r n' Hr; cbn in Hr; mrun; [done|].
  apply IH in Hr. subst. mruns; done.
Qed.

Lemma insertSourceExcerpt_extends o n u n' : insertSourceExcerpt o n = Ok (u, n') -> extends b n n'.
Proof.
  intros Hr. unfold insertSourceExcerpt, sourceExcerptCorrections in Hr. mrun. narrative_runs.
  match goal with Hx : provided_corrections _ _ _ = _ |- _ => apply provided_corrections_run in Hx; subst end.
  match goal with Hx : negb (_ || narrativeNodeExists _ _) = true |- _ =>
    apply negb_true_iff, orb_false_iff in Hx as [_ Hx%bool_decide_eq_false]; rename Hx into Hnone end.
  assert (Hnode : narrativeNode n (parse_or_zero (alloc_ID (at_key zero_allocation (n_allocations n) v))) = None)
    by (destruct (narrativeNode n _) eqn:E; [exfalso; eauto|done]).
  eapply (extends_put_node n _ _ (NodeSourceExcerpt _) (NodeSourceExcerpt _)).
  2: { eapply quiet_trans; [exact Hrun22|exact Hr]. }
  - solve_quiet.
  - done.
  - cbn. set_solver.
  - cbn [narrativeNodeID exc_ID]. by rewrite Hnode.
  - intros Hj. eapply entry_new; try done. right. unfold op_key. cbn [op_kind op_id narrativeNodeID exc_ID].
    by rewrite entity_node, Hnode.
Qed.
End journal_ops.

(** * The clip, link-group and derivation operations keep the journal, and so does
    normalization as a whole. *)


(** ** Runs of the clip primitives *)

Lemma change_track_run id n u n' : change_track id n = Ok (u, n') -> exists m, n' = on_trackChanges (fun _ => m) n.
Proof. intros Hr. unfold change_track in Hr. mrun. by eexists. Qed.

Lemma on_trackChanges_twice (x y : gmap string Z) n :
  on_trackChanges (fun _ => x) (on_trackChanges (fun _ => y) n) = on_trackChanges (fun _ => x) n.
Proof. by destruct n. Qed.
Lemma on_trackChanges_self n : n = on_trackChanges (fun _ => n_trackChanges n) n.
Proof. by destruct n. Qed.

Lemma change_tracks_run ids n u n' :
  for_each ids change_track n = Ok (u, n') -> exists m, n' = on_trackChanges (fun _ => m) n.
Proof.
  revert n. induction ids as [|id ids IH]; intros n Hr; cbn in Hr; mrun; [eexists; apply on_trackChanges_self|].
  apply change_track_run in Hrun as [m ->]. apply IH in Hr as [m' ->]. exists m'. apply on_trackChanges_twice.
Qed.

(** What [putExistingClip] does when it succeeds *)
Lemma putExistingClip_run current next tracks n u n' : putExistingClip current next tracks n = Ok (u, n') ->
  entityKey EntityClip (clip_ID current) ∉ n_touched n /\
  mustNext (clip_Revision current) = Ok (clip_Revision next) /\
  exists r m, mustNext (clip_Revision next) = Ok r /\
  n' = on_trackChanges (fun _ => m) (on_sequenceChanged (fun _ => true)
    (on_changes (fun l => l ++ [existingEntityChange EntityClip (clip_ID current) (clip_Revision current) (clip_Revision next) (clip_Tombstoned next)])
    (on_inverse (fun l => l ++ [PutClip (clip_at_revision r current)])
    (on_operations (fun l => l ++ [PutClip next])
    (on_clips (<[clip_ID current := next]>) (on_touched (fun t => {[ entityKey EntityClip (clip_ID current) ]} ∪ t) n)))))).
Proof.
  intros Hr. unfold putExistingClip in Hr. mrun.
  match goal with Hx : (_ =? _) = true |- _ => apply Z.eqb_eq in Hx; subst end.
  split; [assumption|]. split; [assumption|]. eexists. destruct tracks.
  - apply change_tracks_run in Hr as [m ->]. exists m. split; [eassumption|]. reflexivity.
  - mrun. eexists. split; [eassumption|]. apply on_trackChanges_self.
Qed.

Section journal_clips.
Context `{Platform} (b : editNormalizer) (Hb : base_ok b).

(** ** Entities seen from an earlier normalizer *)

Lemma extends_entity n0 n k : journal b n0 -> extends b n0 n -> nul_free k.1 = true ->
  (is_Some (entity n0 k) -> is_Some (entity n k)) /\ (key_text k ∉ n_touched n -> entity n k = entity n0 k).
Proof.
  intros Hj0 He Hk. destruct (He Hj0) as (Hj & Ht & Hf). split.
  - rewrite (j_entity _ _ Hj0), (j_entity _ _ Hj). destruct (find_op k (n_operations n0)) as [o|] eqn:E.
    + rewrite Hf; [by rewrite E|done|]. apply find_op_key in E as [<- Ho].
      by apply (proj1 (Forall_forall _ _) (j_touched _ _ Hj0)).
    + intros Hs. by destruct (find_op k (n_operations n)).
  - intros Hin. destruct (journal_untouched _ _ _ Hj Hk Hin) as [_ ->].
    destruct (journal_untouched _ _ k Hj0 Hk ltac:(set_solver)) as [_ ->]. done.
Qed.

(** A clip that was there at the start and is not yet touched is unchanged. *)
Lemma member_current n0 n id c :
  journal b n0 -> extends b n0 n -> n_clips n0 !! id = Some c ->
  entityKey EntityClip (clip_ID (at_key zero_clip (n_clips n) id)) ∉ n_touched n ->
  at_key zero_clip (n_clips n) id = c /\ n_clips n !! id = Some c /\ clip_ID c = id.
Proof.
  intros Hj0 He Hc Hin. destruct (extends_entity n0 n (EntityClip, id) Hj0 He eq_refl) as [Hsome Hsame].
  rewrite !entity_clip, Hc in *. destruct (n_clips n !! id) as [c'|] eqn:E; [|by destruct Hsome].
  destruct (He Hj0) as (Hj & _ & _).
  assert (Hid : op_key (PutClip c') = (EntityClip, id)) by (eapply (keyed b n); [done|done|by rewrite entity_clip, E]).
  injection Hid as Hid. unfold at_key in *. rewrite E in *. cbn in *.
  rewrite Hid in Hin. specialize (Hsame Hin). injection Hsame as ->. done.
Qed.

Lemma putExistingClip_extends current next tracks n u n' :
  putExistingClip current next tracks n = Ok (u, n') ->
  n_clips n !! clip_ID current = Some current -> clip_ID next = clip_ID current ->
  n_conditions n !! entityKey EntityClip (clip_ID current) = Some (clip_Revision current) ->
  extends b n n'.
Proof.
  intros Hr Hcur Hid Hcond. apply (extends_intro Hb). intros Hj _.
  apply putExistingClip_run in Hr as (Hfresh & Hnext & r & m & Hr2 & ->).
  assert (Hc : entity n (EntityClip, clip_ID current) = Some (PutClip current)) by (by rewrite entity_clip, Hcur).
  eapply (extends_records_quiet b n n _ (PutClip next)).
  - solve_quiet.
  - solve_records ltac:(apply (puts_clip n); exact Hid).
  - unfold op_key. cbn. by rewrite Hid.
  - unfold op_key. cbn. rewrite Hid. set_solver.
  - intros _. eapply entry_existing; [done|exact Hj|exact Hc|done|done|done|done|done|..]; try done.
    unfold op_key. cbn. by rewrite Hid.
Qed.

Lemma putNewClip_extends c n u n' : putNewClip c n = Ok (u, n') -> clip_Revision c = first_revision -> clip_Tombstoned c = false ->
  extends b n n'.
Proof.
  intros Hr Hrev Hto. unfold putNewClip in Hr. mrun. bool_prop.
  match goal with Hx : change_track _ _ = _ |- _ => apply change_track_run in Hx as [m ->] end. msimpl_in_all.
  eapply (extends_records_quiet b n n _ (PutClip c)).
  - solve_quiet.
  - solve_records ltac:(apply (puts_clip n); reflexivity).
  - done.
  - cbn. set_solver.
  - intros Hj. rewrite Hrev in *. eapply entry_new; try done. right. unfold op_key. cbn [op_kind op_id].
    by rewrite entity_clip, Hrun0.
Qed.

Lemma createLinkGroup_extends local n id n' : createLinkGroup local n = Ok (id, n') -> extends b n n'.
Proof.
  intros Hr. unfold createLinkGroup in Hr. mrun. bool_prop. msimpl_in_all.
  eapply extends_records_quiet;
    [solve_quiet|solve_records ltac:(apply (puts_group n); reflexivity)|eassumption|cbn; set_solver|].
  intros Hj. eapply entry_new; try done. right. unfold op_key. cbn [op_kind op_id group_ID].
  match goal with Hx : n_linkGroups n !! _ = None |- _ => by rewrite entity_group, Hx end.
Qed.

(** ** Link groups *)

Lemma present_group n id : journal b n -> IsZero (group_ID (at_key zero_group (n_linkGroups n) id)) = false ->
  let g := at_key zero_group (n_linkGroups n) id in
  n_linkGroups n !! id = Some g /\ group_ID g = id /\ entity n (EntityLinkGroup, id) = Some (PutLinkGroup g).
Proof.
  unfold at_key. intros Hj Hz. destruct (n_linkGroups n !! id) as [g|] eqn:E; [|discriminate]. cbn.
  assert (Hc : entity n (EntityLinkGroup, id) = Some (PutLinkGroup g)) by (by rewrite entity_group, E).
  by pose proof (keyed _ _ _ _ Hb Hj Hc) as [= Hid].
Qed.

Lemma tombstoneLinkGroup_extends id n u n' : tombstoneLinkGroup id n = Ok (u, n') -> extends b n n'.
Proof.
  intros Hr. apply (extends_intro Hb). intros Hj _. unfold tombstoneLinkGroup in Hr. mrun. bool_prop. msimpl_in_all.
  destruct (present_group n id Hj) as (_ & Hid & Hc); [done|].
  set (g := at_key zero_group (n_linkGroups n) id) in *. clearbody g. subst id.
  journal_existing Hb Hc ltac:(apply (puts_group n); reflexivity).
Qed.

Lemma advanceLinkGroup_extends id members n u n' : advanceLinkGroup id members n = Ok (u, n') -> extends b n n'.
Proof.
  intros Hr. apply (extends_intro Hb). intros Hj _. unfold advanceLinkGroup in Hr. mrun. bool_prop. msimpl_in_all.
  destruct (present_group n id Hj) as (_ & Hid & Hc); [done|].
  set (g := at_key zero_group (n_linkGroups n) id) in *. clearbody g. subst id.
  journal_existing Hb Hc ltac:(apply (puts_group n); reflexivity).
Qed.

Lemma resolveClipLinkGroup_extends o n r n' : resolveClipLinkGroup o n = Ok (r, n') -> extends b n n'.
Proof.
  intros Hr. apply (extends_intro Hb). intros Hj Hkey. unfold resolveClipLinkGroup in Hr.
  destruct (op_CreateLinkGroupAs o); [|destruct (op_LinkGroup o); [|by mrun]].
  - mrun. bool_prop. msimpl_in_all.
    journal_new ltac:(apply (puts_group n); reflexivity). left. by apply (base_absent b Hb n).
  - mruns; bool_prop; msimpl_in_all; [done|].
    match goal with Hx : n_linkGroups n !! ?k = Some ?g |- _ =>
      assert (Hc : entity n (EntityLinkGroup, k) = Some (PutLinkGroup g)) by (by rewrite entity_group, Hx) end.
    pose proof (Hkey _ _ Hc) as [= Hid]. rewrite <- Hid in *.
    journal_existing Hb Hc ltac:(apply (puts_group n); reflexivity).
Qed.

(** A method that marks its key first, then runs another method, then records. *)
Lemma extends_nested n n1 n2 n' o i c :
  quiet n n1 -> extends b n1 n2 -> records n2 n' o i c ->
  key_text (op_key o) ∉ n_touched n -> key_text (op_key o) ∈ n_touched n1 ->
  (journal b n -> entry_ok b o i c) -> extends b n n'.
Proof.
  intros Hq He Hrec Hfresh Hin Hok Hj. pose proof Hrec as (_ & _ & _ & _ & _ & Ht).
  destruct (He (journal_quiet _ _ _ Hj Hq)) as (_ & Ht1 & Hf).
  eapply (extends_records b n n2 n' o i c); [|exact Hrec|exact Hfresh|set_solver| |by intros; apply Hok|exact Hj].
  - etrans; [by apply extends_quiet|done].
  - intros _. rewrite (Hf (op_key o) (op_kind_nul_free o) Hin). destruct Hq as (_ & _ & -> & _).
    by apply (journal_untouched b n); [|apply op_kind_nul_free|].
Qed.

Lemma addClip_extends o n u n' : addClip o n = Ok (u, n') -> extends b n n'.
Proof.
  intros Hr. unfold addClip in Hr. mrun. bool_prop.
  match goal with Hx : resolveClipLinkGroup _ _ = _ |- _ => apply resolveClipLinkGroup_extends in Hx; rename Hx into He end.
  msimpl_in_all.
  match goal with He : extends b _ ?m, Hx : (match ?g with Some _ => _ | None => _ end) _ = _ |- _ =>
    destruct g; mrun; (eapply extends_nested; [|exact He|solve_records ltac:(apply (puts_clip m); reflexivity)|eassumption|cbn; set_solver|]) end.
  all: try solve_quiet.
  all: intros Hj; eapply entry_new; [exact Hj|eassumption| |eassumption|reflexivity..]; left; by apply (base_absent b Hb n).
Qed.

(** ** Mutating clips *)

(** A clip the request may change: it is there, at the revision the request names. *)
Definition member_ok (n : editNormalizer) (id : string) : Prop :=
  exists c, n_clips n !! id = Some c /\ clip_ID c = id /\ n_conditions n !! entityKey EntityClip id = Some (clip_Revision c).

Lemma present_clip n id : journal b n -> IsZero (clip_ID (at_key zero_clip (n_clips n) id)) = false ->
  let c := at_key zero_clip (n_clips n) id in n_clips n !! id = Some c /\ clip_ID c = id.
Proof.
  unfold at_key. intros Hj Hz. destruct (n_clips n !! id) as [c|] eqn:E; [|discriminate]. cbn.
  assert (Hc : entity n (EntityClip, id) = Some (PutClip c)) by (by rewrite entity_clip, E).
  by pose proof (keyed _ _ _ _ Hb Hj Hc) as [= Hid].
Qed.

Lemma member_required n id : journal b n -> IsZero (clip_ID (at_key zero_clip (n_clips n) id)) = false ->
  n_conditions n !! entityKey EntityClip (clip_ID (at_key zero_clip (n_clips n) id)) =
    Some (clip_Revision (at_key zero_clip (n_clips n) id)) -> member_ok n id.
Proof.
  intros Hj Hz Hc. destruct (present_clip n id Hj Hz) as [Hin Hid]. exists (at_key zero_clip (n_clips n) id).
  rewrite Hid in Hc. done.
Qed.

Lemma require_members_run seed group members : forall n found n',
  require_members seed group members n = Ok (found, n') -> n' = n /\ (journal b n -> Forall (member_ok n) members).
Proof.
  induction members as [|id rest IH]; intros n found n' Hr; cbn in Hr; mrun; [done|]. bool_prop.
  match goal with Hx : require_members _ _ _ _ = _ |- _ => apply IH in Hx as [-> Hrest] end.
  split; [done|]. intros Hj. constructor; [|by apply Hrest]. by apply member_required.
Qed.

Lemma clipMutationMembers_run o change n members seed n' :
  clipMutationMembers o change n = Ok ((members, seed), n') ->
  n' = n /\ (journal b n -> Forall (member_ok n) members).
Proof.
  intros Hr. unfold clipMutationMembers in Hr. mrun. bool_prop. destruct (bool_decide (_ = ClipScopeSingle)).
  - assert (n' = n /\ members = [clip_ID (at_key zero_clip (n_clips n) v0)]) as [-> ->].
    { mrun. destruct (clip_LinkGroupID _); mruns; by simplify_eq. }
    split; [done|]. intros Hj. destruct (present_clip n v0 Hj) as [Hin Hid]; [done|].
    constructor; [|done]. rewrite Hid. by apply member_required.
  - mrun. match goal with Hx : require_members _ _ _ _ = _ |- _ => apply require_members_run in Hx as [-> Hm] end.
    simplify_eq. split; [done|]. intros Hj. specialize (Hm Hj). by rewrite sort_by_perm.
Qed.

Lemma put_member n0 n id next tracks u n' :
  journal b n0 -> member_ok n0 id -> extends b n0 n ->
  putExistingClip (at_key zero_clip (n_clips n) id) next tracks n = Ok (u, n') ->
  clip_ID next = clip_ID (at_key zero_clip (n_clips n) id) -> extends b n n'.
Proof.
  intros Hj0 (c & Hc & Hid & Hcond) He Hr Hnext. pose proof (putExistingClip_run _ _ _ _ _ _ Hr) as (Hfresh & _).
  destruct (member_current n0 n id c Hj0 He Hc Hfresh) as (Hcur & Hin & _). rewrite Hcur in *. subst id.
  eapply putExistingClip_extends; [exact Hr|exact Hin|exact Hnext|].
  destruct (He Hj0) as (Hj & _ & _), (j_request _ _ Hj0) as (_ & _ & Hc0), (j_request _ _ Hj) as (_ & _ & ->).
  by rewrite <- Hc0.
Qed.

(** A clip that was there at the start is there still, under its own identity. *)
Lemma clip_remains n0 n id : journal b n0 -> extends b n0 n -> is_Some (n_clips n0 !! id) ->
  n_clips n !! id = Some (at_key zero_clip (n_clips n) id) /\ clip_ID (at_key zero_clip (n_clips n) id) = id.
Proof.
  intros Hj0 He Hin. destruct (extends_entity n0 n (EntityClip, id) Hj0 He eq_refl) as [Hsome _].
  rewrite !entity_clip in Hsome. destruct (He Hj0) as (Hj & _). unfold at_key.
  destruct (n_clips n !! id) as [c|] eqn:E; [|destruct Hin as [c Hin]; rewrite Hin in Hsome; by destruct Hsome].
  cbn. assert (Hc : entity n (EntityClip, id) = Some (PutClip c)) by (by rewrite entity_clip, E).
  by pose proof (keyed _ _ _ _ Hb Hj Hc) as [= Hid].
Qed.

(** Start on a method that runs [clipMutationMembers]. *)
Ltac mutation Hj Hm :=
  match goal with Hx : clipMutationMembers _ _ _ = _ |- _ =>
    apply clipMutationMembers_run in Hx as [-> Hm]; specialize (Hm Hj) end.

Lemma moveClip_extends o n u n' : moveClip o n = Ok (u, n') -> extends b n n'.
Proof.
  intros Hr. apply (extends_intro Hb). intros Hj _. unfold moveClip in Hr. mrun. mutation Hj Hm.
  eapply (for_each_rel (extends b)); [exact Hm| |reflexivity|exact Hr].
  intros id m u1 m' Hid He Hbody. cbn beta in Hbody. mrun. mruns; bool_prop; msimpl_in_all.
  - match goal with Hx : putExistingClip _ _ _ ?m1 = _ |- _ =>
      assert (Hq : extends b m m1) by (apply extends_quiet; solve_quiet);
      etrans; [exact Hq|]; refine (put_member n m1 id _ _ _ _ Hj Hid _ Hx eq_refl) end. by etrans.
  - eapply (put_member n); [done|exact Hid|exact He|eassumption|done].
Qed.

Lemma trimClip_extends o n u n' : trimClip o n = Ok (u, n') -> extends b n n'.
Proof.
  intros Hr. apply (extends_intro Hb). intros Hj _. unfold trimClip in Hr. mrun. mutation Hj Hm.
  eapply (for_each_rel (extends b)); [exact Hm| |reflexivity|exact Hr].
  intros id m u1 m' Hid He Hbody. cbn beta in Hbody. mrun.
  eapply (put_member n); [done|exact Hid|exact He|eassumption|done].
Qed.

Lemma finishSingleMembershipRemoval_extends id n u n' :
  finishSingleMembershipRemoval id n = Ok (u, n') -> extends b n n'.
Proof.
  intros Hr. apply (extends_intro Hb). intros Hj _. unfold finishSingleMembershipRemoval in Hr. mrun.
  mcase; [by eapply advanceLinkGroup_extends|]. mrun.
  etrans; [|eapply tombstoneLinkGroup_extends; exact Hr]. etrans; [|apply extends_quiet; solve_quiet].
  eapply (for_each_rel (extends b) (fun m => is_Some (n_clips n !! m)) _ _ n); [| |reflexivity|exact Hrun].
  - apply Forall_forall. intros m [Hm%Is_true_true _]%list_elem_of_filter. unfold at_key in Hm.
    destruct (n_clips n !! m); [done|]. discriminate.
  - intros m n1 u1 n2 Hm He Hbody. cbn beta in Hbody. mrun.
    destruct (clip_remains n n1 m Hj He Hm) as [Hin Hid].
    eapply putExistingClip_extends; [eassumption|by rewrite Hid|done|done].
Qed.

Lemma splitClipStates_run c at_ o g1 g2 n l r n' : splitClipStates c at_ o g1 g2 n = Ok ((l, r), n') ->
  n' = n /\ exists lt rt ls rs lid rid, split_ranges c at_ = Ok (lt, rt, ls, rs) /\
    l = clip_tombstoned false (clip_in_group g1 (clip_over ls lt (clip_at_revision first_revision (clip_named lid c)))) /\
    r = clip_tombstoned false (clip_in_group g2 (clip_over rs rt (clip_at_revision first_revision (clip_named rid c)))).
Proof.
  intros Hr. unfold splitClipStates, allocatedClipID in Hr. mrun. destruct p as [[lt rt] ls]. mrun. simplify_eq.
  split; [done|]. by repeat eexists.
Qed.

Lemma split_member n0 n id splitAt output g1 g2 u n' :
  journal b n0 -> member_ok n0 id -> extends b n0 n ->
  (current ← clip_of id;
   '(leftState, rightState) ← splitClipStates current splitAt output g1 g2;
   revision ← next_of (clip_Revision current);
   putExistingClip current (clip_tombstoned true (clip_at_revision revision current)) true ;;
   putNewClip leftState ;;
   putNewClip rightState) n = Ok (u, n') -> extends b n n'.
Proof.
  intros Hj Hid He Hr. mrun.
  match goal with Hx : splitClipStates _ _ _ _ _ _ = _ |- _ =>
    apply splitClipStates_run in Hx as (-> & lt & rt & ls & rs & lid & rid & _ & -> & ->) end. mrun.
  etrans; [eapply (put_member n0); [done|exact Hid|exact He|eassumption|done]|].
  etrans; eapply putNewClip_extends; (eassumption || done).
Qed.

Lemma removal_extends scope (group : option string) n u n' :
  (if bool_decide (scope = ClipScopeLinked) then
    match group with None => lift (Fail ErrEditInvalid) | Some g => tombstoneLinkGroup g end
  else match group with None => mret tt | Some g => finishSingleMembershipRemoval g end) n = Ok (u, n') -> extends b n n'.
Proof.
  intros Hr. mcase; destruct group; mrun;
    [by eapply tombstoneLinkGroup_extends|by eapply finishSingleMembershipRemoval_extends|done].
Qed.

Lemma splitClip_extends o n u n' : splitClip o n = Ok (u, n') -> extends b n n'.
Proof.
  intros Hr. apply (extends_intro Hb). intros Hj _. unfold splitClip in Hr. mrun. mutation Hj Hm.
  apply removal_extends in Hr. etrans; [|exact Hr]. clear Hr.
  match goal with Hx : (if _ then _ else _) _ = Ok (?g, ?n1) |- _ => assert (He1 : extends b n n1) end.
  { mruns; [|done]. etrans; eapply createLinkGroup_extends; eassumption. }
  etrans; [exact He1|]. eapply (for_each_rel (extends b)); [exact Hm| |exact He1|eassumption].
  intros id m u1 m' Hid He Hbody. cbn beta in Hbody.
  apply mbind_run in Hbody as (cur & m1 & [-> ->]%reads_run & Hbody).
  apply mbind_run in Hbody as (at_ & m1 & [_ ->]%deref_run & Hbody).
  by eapply (split_member n); [| | |exact Hbody].
Qed.

Lemma removeClip_extends o n u n' : removeClip o n = Ok (u, n') -> extends b n n'.
Proof.
  intros Hr. apply (extends_intro Hb). intros Hj _. unfold removeClip in Hr. mrun. mutation Hj Hm.
  match goal with Hx : for_each _ _ n = Ok (_, ?n1) |- _ => transitivity n1 end.
  - eapply (for_each_rel (extends b)); [exact Hm| |reflexivity|eassumption].
    intros id m u1 m' Hid He Hbody. cbn beta in Hbody. mrun.
    eapply (put_member n); [done|exact Hid|exact He|eassumption|done].
  - destruct (clip_LinkGroupID _); mruns; [by eapply tombstoneLinkGroup_extends|by eapply finishSingleMembershipRemoval_extends|done].
Qed.

Lemma link_members_extends group refs : forall n ids n', link_members group refs n = Ok (ids, n') -> extends b n n'.
Proof.
  induction refs as [|r rest IH]; intros n ids n' Hr; cbn in Hr; mrun; [done|].
  apply (extends_intro Hb). intros Hj _. bool_prop.
  match goal with Hx : link_members _ _ _ = _ |- _ => apply IH in Hx; etrans; [|exact Hx] end.
  match goal with Hx : IsZero (clip_ID (at_key zero_clip (n_clips n) ?k)) = false |- _ =>
    destruct (present_clip n k Hj Hx) as [Hin Hid] end.
  eapply putExistingClip_extends; [eassumption|by rewrite Hid|done|by rewrite Hid].
Qed.

Lemma linkClips_extends o n u n' : linkClips o n = Ok (u, n') -> extends b n n'.
Proof.
  intros Hr. unfold linkClips in Hr. mrun.
  etrans; [by eapply createLinkGroup_extends|]. etrans; [by eapply link_members_extends|]. apply extends_quiet. solve_quiet.
Qed.

Lemma unlinkClips_extends o n u n' : unlinkClips o n = Ok (u, n') -> extends b n n'.
Proof.
  intros Hr. unfold unlinkClips in Hr. mrun.
  etrans; [|eapply tombstoneLinkGroup_extends; exact Hr]. etrans; [|apply extends_quiet; solve_quiet].
  match goal with Hx : for_each _ _ n = _ |- _ => revert Hx end. apply (for_each_steps (extends b)).
  intros id m u1 m' _ Hbody. apply (extends_intro Hb). intros Hj Hkey. cbn beta in Hbody. mrun. bool_prop.
  assert (Hin : n_clips m !! id = Some (at_key zero_clip (n_clips m) id)).
  { unfold at_key in *. by destruct (n_clips m !! id). }
  assert (Hc : entity m (EntityClip, id) = Some (PutClip (at_key zero_clip (n_clips m) id))) by (by rewrite entity_clip, Hin).
  pose proof (Hkey _ _ Hc) as [= Hid].
  eapply putExistingClip_extends; [eassumption|by rewrite Hid|done|by rewrite Hid].
Qed.

Lemma alignment_effects_quiet (ids : list string) n u n' :
  for_each ids (fun alignmentID =>
    alignments ← state_of st_Alignments;
    match alignments !! alignmentID with
    | None => lift (Fail ErrEditInvalid)
    | Some alignment =>
        modify (on_alignmentEffects (fun effects =>
          if bool_decide (is_Some (effects !! alignmentID)) then effects
          else <[alignmentID := al_Status alignment]> effects))
    end) n = Ok (u, n') -> quiet n n' /\ n_clips n' = n_clips n.
Proof.
  revert n. induction ids as [|id ids IH]; intros n Hr; cbn in Hr; mrun; [by split; [apply quiet_refl|]|].
  apply IH in Hr as [Hq Hc]. split; [|done]. eapply quiet_trans; [|exact Hq]. solve_quiet.
Qed.

Lemma setClipPlacement_extends o n u n' : setClipPlacement o n = Ok (u, n') -> extends b n n'.
Proof.
  intros Hr. apply (extends_intro Hb). intros Hj Hkey. unfold setClipPlacement in Hr. mrun.
  match goal with Hx : for_each _ _ ?m = Ok (_, ?m') |- _ =>
    apply alignment_effects_quiet in Hx as [Hq Hclips];
    assert (quiet n m) as Hq0 by (destruct (op_Placement o); mruns; solve_quiet) end.
  pose proof (quiet_trans _ _ _ Hq0 Hq) as Hq1.
  match goal with Hx : n_clips n !! ?k = Some ?c |- _ =>
    assert (Hc : entity n (EntityClip, k) = Some (PutClip c)) by (by rewrite entity_clip, Hx);
    pose proof (Hkey _ _ Hc) as [= Hid]; rewrite <- Hid in Hc end.
  etrans; [by apply extends_quiet|].
  destruct Hq1 as ((_ & _ & Hcond) & Hent & _). rewrite <- Hent, entity_clip in Hc.
  eapply putExistingClip_extends; [exact Hr| |done|by rewrite Hcond].
  by apply fmap_Some in Hc as (c' & -> & [= ->]).
Qed.

(** ** Derivations *)

Lemma allocated_absent n local kind id : journal b n -> kind <> "" ->
  alloc_Kind (at_key zero_allocation (n_allocations n) local) = kind ->
  ParseID (alloc_ID (at_key zero_allocation (n_allocations n) local)) = Ok id -> entity b (kind, id) = None.
Proof.
  intros Hj Hne Hkind Hid. destruct (j_request _ _ Hj) as (_ & Ha & _). rewrite Ha in *. unfold at_key in *.
  destruct (n_allocations b !! local) as [a|] eqn:E; cbn in *; [|congruence].
  pose proof (base_fresh _ Hb _ _ E) as Hf. unfold ParseID in Hid. destruct (isUUIDv7 _); [|discriminate].
  injection Hid as <-. by subst kind.
Qed.

Lemma derive_caption_extends excerpt clip track policy cue output n u n' :
  derive_caption excerpt clip track policy cue output n = Ok (u, n') -> extends b n n'.
Proof.
  intros Hr. apply (extends_intro Hb). intros Hj _. unfold derive_caption in Hr. mrun. bool_prop. msimpl_in_all.
  match goal with H1 : mustNext first_revision = Ok ?x, H2 : mustNext first_revision = Ok ?y |- _ =>
    assert_fails (constr_eq x y); assert (x = y) by congruence; subst end.
  match goal with |- extends b n (on_changes _ (on_changes ?c (on_inverse _ (on_operations (fun l => l ++ [?a])
      (on_inverse ?i (on_operations ?o (on_alignments _ ?m))))))) =>
    set (mid := on_changes c (on_inverse i (on_operations o m))) end.
  match goal with Hx : _ ∉ {[ _ ]} ∪ n_touched n |- _ => apply not_elem_of_union in Hx as [Hne Hfresh] end.
  assert (Hmid : extends b n mid).
  { eapply extends_records_quiet;
      [solve_quiet|solve_records ltac:(apply (puts_caption n); reflexivity)|eassumption|cbn; set_solver|].
    intros _. eapply entry_new; [exact Hj|eassumption| |eassumption|reflexivity..]. left.
    eapply allocated_absent; [exact Hj|done|eassumption|eassumption]. }
  eapply extends_records; [exact Hmid|solve_records ltac:(apply (puts_alignment mid); reflexivity)|eassumption|cbn; set_solver| |].
  - intros _. unfold mid. cbn [n_operations on_changes on_inverse on_operations]. rewrite find_op_app.
    rewrite decide_False by (intros Hk; by apply (f_equal fst) in Hk). by apply (journal_untouched b n).
  - intros _ _. eapply entry_new; [exact Hj|eassumption| |eassumption|reflexivity..]. left.
    eapply allocated_absent; [exact Hj|done|eassumption|eassumption].
Qed.

Lemma for_each_pure {A} (items : list A) (body : A -> M unit) :
  (forall item n u n', body item n = Ok (u, n') -> n' = n) ->
  forall n u n', for_each items body n = Ok (u, n') -> n' = n.
Proof.
  intros Hbody. induction items as [|item rest IH]; intros n u n' Hr; cbn in Hr; mrun; [done|].
  apply IH in Hr as ->. by eapply Hbody.
Qed.

Lemma deriveCaptions_extends o n u n' : deriveCaptions o n = Ok (u, n') -> extends b n n'.
Proof.
  intros Hr. unfold deriveCaptions in Hr. mruns;
    match goal with Hx : for_each _ _ ?m = Ok (_, ?m'), Hy : for_each _ _ ?m' = Ok (_, ?m2) |- _ =>
      apply for_each_pure in Hx; [subst m'|intros ? ? ? ? ?; by mrun];
      transitivity m2; [revert Hy; apply (for_each_steps (extends b)); intros [] ? ? ? _ ?; by eapply derive_caption_extends|]
    end; apply extends_quiet; solve_quiet.
Qed.

Lemma derive_rough_cut_output_extends o n u n' : derive_rough_cut_output o n = Ok (u, n') -> extends b n n'.
Proof.
  intros Hr. unfold derive_rough_cut_output in Hr. mrun.
  match goal with Hx : map_each _ _ _ = _ |- _ => apply map_each_pure in Hx; [|intros ? ? ? ? ?; by mrun] end. subst.
  etrans; [|by eapply bindAlignment_extends].
  match goal with Hx : (match rc_Audio o with _ => _ end) ?m = _ |- _ => transitivity m end.
  - destruct (rc_Video o); [by eapply addClip_extends|by mrun].
  - destruct (rc_Audio o); [by eapply addClip_extends|by mrun].
Qed.

Lemma deriveRoughCut_extends o n u n' : deriveRoughCut o n = Ok (u, n') -> extends b n n'.
Proof.
  intros Hr. unfold deriveRoughCut in Hr. mrun. revert Hr. apply (for_each_steps (extends b)). intros. by eapply derive_rough_cut_output_extends.
Qed.
End journal_clips.
