(* ===== verification/EditRanges.v ===== *)
(** The arithmetic of clip ranges, over the rationals: what the range helpers and
    [split_ranges] compute, and the invariant of a clip. *)
From stdpp Require Import base list strings gmap sorting.
From Stdlib Require Import ZArith QArith Lia Lqa Ascii.
From S2P Require Import Prelude GoText Exact Identity Canonical EditModel Timeline EditState EditClips.
Open Scope Z_scope.

(** A range with valid endpoints and positive length; unlike [range_ok] its end
    need not be representable. *)
Definition span_ok (r : TimeRange) : Prop :=
  rt_valid (tr_Start r) /\ rt_valid (tr_Duration r) /\ (0 < rt_Q (tr_Duration r))%Q.

Lemma range_span r : range_ok r -> span_ok r.
Proof. intros (Vs & Vd & Hp & _). exact (conj Vs (conj Vd Hp)). Qed.

Lemma valid_time_ok t : rt_typed t -> valid_time t = true -> rt_valid t.
Proof. unfold valid_time, is_ok. intros Ht H. split; [done|]. by destruct (RationalTime_Validate t) as [[]| |]. Qed.

Lemma nonnegative_Q t : rt_valid t -> IsNegative t = false -> (0 <= rt_Q t)%Q.
Proof. intros Hv Hn. apply Qnot_lt_le. intros Hlt. apply (IsNegative_Q _ Hv) in Hlt. congruence. Qed.

(** The end of a span is computed exactly when it is representable. *)
Lemma span_range r q : span_ok r -> representable q -> (q == end_Q r)%Q -> range_ok r.
Proof.
  intros (Vs & Vd & Hp) (t & Vt & Ht) Hq. split; [exact Vs|]. split; [exact Vd|]. split; [exact Hp|].
  pose proof (Add_valid _ _ Vs Vd) as Hadd. unfold End. destruct (Add _ _) as [e|e|] eqn:E; [| |by destruct Hadd].
  - destruct Hadd as [Ve Qe]. exists e. auto.
  - destruct Hadd as [_ Hno]. exfalso. apply Hno. exists t. split; [exact Vt|]. by rewrite Ht.
Qed.

Lemma rangesOverlap_disjoint l r : span_ok l -> span_ok r -> rangesOverlap l r = false ->
  range_ok l /\ range_ok r /\ disjoint_ranges l r.
Proof.
  intros Hl Hr Ho. assert (range_ok l /\ range_ok r) as [Rl Rr].
  { unfold rangesOverlap in Ho. destruct (End l) as [el| |] eqn:El; try discriminate.
    destruct (End r) as [er| |] eqn:Er; try discriminate.
    destruct Hl as (Vl & Wl & Pl), Hr as (Vr & Wr & Pr).
    split; (eapply range_ok_intro; [|eassumption|apply IsPositive_Q; assumption]); split;
      [apply Vl|apply Wl|apply Vr|apply Wr]. }
  split; [exact Rl|]. split; [exact Rr|]. apply rangesOverlap_spec; assumption.
Qed.

(** ** Trimming *)

Lemma rangeWithBoundaryDeltas_ok current l r next : span_ok current -> rt_typed l -> rt_typed r ->
  rangeWithBoundaryDeltas current l r = Ok next ->
  range_ok next /\ (0 <= start_Q next)%Q /\ (start_Q next == start_Q current + rt_Q l)%Q /\
  (end_Q next == end_Q current + rt_Q r)%Q.
Proof.
  intros ((Ts & Vs) & (Td & Vd) & Hp) Hl Hr H. unfold rangeWithBoundaryDeltas, End in H. outcome_inv.
  destruct (Add_ok _ _ _ Ts Hl Hs) as (_ & _ & Va & Qa).
  destruct (Add_ok _ _ _ Ts Td Hs1) as (_ & _ & Ve & Qe).
  destruct (Add_ok _ _ _ (proj1 Ve) Hr Hs2) as (_ & _ & Vf & Qf).
  destruct (Subtract_ok _ _ _ (proj1 Vf) (proj1 Va) Hs3) as (_ & _ & Vg & Qg).
  match goal with Hx : NewTimeRange _ _ = Ok _ |- _ => apply NewTimeRange_ok in Hx as (_ & _ & _ & ->) end.
  unfold start_Q, end_Q. cbn. bool_prop.
  match goal with Hx : IsPositive _ = true |- _ => apply (IsPositive_Q _ Vg) in Hx end.
  split; [|split; [apply nonnegative_Q; assumption|split; [exact Qa|]]].
  - eapply (span_range _ (rt_Q v2)); [split; [exact Va|split; [exact Vg|assumption]]|exists v2; split; [exact Vf|reflexivity]|]. unfold end_Q. cbn. rewrite Qg. ring.
  - rewrite Qg, Qf, Qe. ring.
Qed.

(** ** Source coverage *)

Definition coverage_start (d : SourceStreamDescriptor) : Q :=
  match sd_StartTime d with Some t => rt_Q t | None => 0 end.
Definition covered (r : TimeRange) (d : SourceStreamDescriptor) : Prop :=
  (coverage_start d <= start_Q r)%Q /\
  match sd_Duration d with Some t => (end_Q r <= coverage_start d + rt_Q t)%Q | None => True end.

Definition option_typed (t : option RationalTime) : Prop := match t with Some t => rt_typed t | None => True end.
Definition descriptor_typed (d : SourceStreamDescriptor) : Prop := option_typed (sd_StartTime d) /\ option_typed (sd_Duration d).

Lemma compare_at_least a b c : rt_typed a -> rt_typed b -> RationalTime_Compare a b = Ok c ->
  ((c <? 0) = false -> (rt_Q b <= rt_Q a)%Q) /\ ((c <=? 0) = true -> (rt_Q a <= rt_Q b)%Q).
Proof.
  intros Ta Tb Hc. destruct (Compare_ok _ _ _ Ta Tb Hc) as (_ & _ & Hl & _ & Hg).
  split; intros H; apply Qnot_lt_le; intros Hlt; [apply Hl in Hlt|apply Hg in Hlt]; lia.
Qed.

Lemma sourceRangeWithin_ok r d : range_typed r -> descriptor_typed d -> sourceRangeWithin r d = true ->
  range_ok r /\ covered r d.
Proof.
  intros [Ts Td] [Dt Dd] H. unfold sourceRangeWithin in H.
  destruct (_ || _ || _) eqn:E; [discriminate|]. bool_prop.
  destruct (End r) as [e| |] eqn:He; try discriminate.
  assert (Hr : range_ok r) by (eapply range_ok_intro; [split; assumption|exact He|assumption]).
  split; [exact Hr|]. destruct Hr as (_ & _ & _ & e' & He' & Ve & Qe). rewrite He in He'. injection He' as <-.
  change (NewRationalTime 0 1) with (Ok (E := exact_error) (mkTime 0 1)) in H. cbn iota in H.
  set (start := default (mkTime 0 1) (sd_StartTime d)) in *.
  assert (Tc : rt_typed start) by (unfold start; destruct (sd_StartTime d); [exact Dt|split; cbn; unfold MinInt64, MaxInt64, MinInt32, MaxInt32; lia]).
  assert (Qc : (rt_Q start == coverage_start d)%Q) by (unfold start, coverage_start; destruct (sd_StartTime d); reflexivity).
  destruct (match sd_StartTime d with Some _ => _ | None => _ end); [discriminate|].
  destruct (RationalTime_Compare (tr_Start r) start) as [c| |] eqn:Hc; try discriminate.
  destruct (c <? 0) eqn:Hlt; [discriminate|]. destruct (compare_at_least _ _ _ Ts Tc Hc) as [Hge _].
  split; [unfold start_Q; rewrite <- Qc; exact (Hge Hlt)|].
  destruct (sd_Duration d) as [t|]; [|exact I]. destruct (_ || _); [discriminate|].
  destruct (Add start t) as [f| |] eqn:Hf; try discriminate. destruct (Add_ok _ _ _ Tc Dd Hf) as (_ & _ & Vf & Qf).
  destruct (RationalTime_Compare e f) as [c2| |] eqn:Hc2; try discriminate.
  destruct (compare_at_least _ _ _ (proj1 Ve) (proj1 Vf) Hc2) as [_ Hle].
  specialize (Hle H). lra.
Qed.

(** ** Splitting *)

(** [l] and [r] are the two halves of [whole] around [at_]. *)
Definition halves (whole l r : TimeRange) (at_ : Q) : Prop :=
  (start_Q l == start_Q whole)%Q /\ (end_Q l == at_)%Q /\ (start_Q r == at_)%Q /\ (end_Q r == end_Q whole)%Q.

Lemma split_ranges_run c at_ lt rt ls rs : span_ok (clip_TimelineRange c) -> span_ok (clip_SourceRange c) -> rt_typed at_ ->
  split_ranges c at_ = Ok (lt, rt, ls, rs) ->
  exists offset rest source,
    rt_valid at_ /\ rt_valid offset /\ rt_valid rest /\ rt_valid source /\ (0 < rt_Q offset)%Q /\ (0 < rt_Q rest)%Q /\
    (rt_Q offset == rt_Q at_ - start_Q (clip_TimelineRange c))%Q /\
    (rt_Q rest == rt_Q (tr_Duration (clip_TimelineRange c)) - rt_Q offset)%Q /\
    (rt_Q source == start_Q (clip_SourceRange c) + rt_Q offset)%Q /\
    lt = mkRange (tr_Start (clip_TimelineRange c)) offset /\ rt = mkRange at_ rest /\
    ls = mkRange (tr_Start (clip_SourceRange c)) offset /\ rs = mkRange source rest.
Proof.
  intros (Vs & Vd & Hp) (Ws & Wd & Hq) Ta H. unfold split_ranges in H. outcome_inv.
  repeat match goal with Hx : NewTimeRange _ _ = Ok _ |- _ => apply NewTimeRange_ok in Hx as (_ & _ & _ & ->) end.
  destruct (Subtract_ok _ _ _ Ta (proj1 Vs) Hs) as (Va & _ & Vo & Qo).
  destruct (Subtract_ok _ _ _ (proj1 Vd) (proj1 Vo) Hs3) as (_ & _ & Vr & Qr).
  destruct (Add_ok _ _ _ (proj1 Ws) (proj1 Vo) Hs5) as (_ & _ & Vc & Qc).
  repeat match goal with Hx : IsPositive _ = true |- _ => apply IsPositive_Q in Hx; [|assumption] end.
  simplify_eq. eexists _, _, _.
  split; [exact Va|]. split; [exact Vo|]. split; [exact Vr|]. split; [exact Vc|].
  repeat (split; [assumption|]). auto.
Qed.

(** What [split_ranges] returns: the halves of both ranges, around the split on
    the timeline and the same distance into the source. *)
Lemma split_ranges_parts c at_ lt rt ls rs :
  span_ok (clip_TimelineRange c) -> range_ok (clip_SourceRange c) ->
  tr_Duration (clip_SourceRange c) = tr_Duration (clip_TimelineRange c) -> rt_typed at_ ->
  split_ranges c at_ = Ok (lt, rt, ls, rs) ->
  (start_Q (clip_TimelineRange c) < rt_Q at_ < end_Q (clip_TimelineRange c))%Q /\
  halves (clip_TimelineRange c) lt rt (rt_Q at_) /\
  halves (clip_SourceRange c) ls rs (start_Q (clip_SourceRange c) + (rt_Q at_ - start_Q (clip_TimelineRange c)))%Q /\
  span_ok lt /\ span_ok rt /\ range_ok ls /\ range_ok rs /\
  tr_Duration ls = tr_Duration lt /\ tr_Duration rs = tr_Duration rt.
Proof.
  intros Ht Hs Hd Ta H. pose proof Hs as (Vss & _ & _ & e & _ & Ve & Qe).
  destruct (split_ranges_run _ _ _ _ _ _ Ht (range_span _ Hs) Ta H) as
    (offset & rest & source & Va & Vo & Vr & Vc & Po & Pr & Qo & Qr & Qc & -> & -> & -> & ->).
  destruct Ht as (Vts & Vtd & _). unfold halves, start_Q, end_Q in *. cbn. rewrite Hd in Qe.
  split; [split; lra|]. split; [split; [reflexivity|split; [lra|split; [reflexivity|lra]]]|].
  split; [split; [reflexivity|split; [lra|split; [lra|rewrite Hd; lra]]]|].
  split; [split; [exact Vts|split; [exact Vo|exact Po]]|]. split; [split; [exact Va|split; [exact Vr|exact Pr]]|].
  split; [|split; [|split; reflexivity]].
  - apply (span_range _ (rt_Q source)); [split; [exact Vss|split; [exact Vo|exact Po]]|exists source; split; [exact Vc|reflexivity]|].
    unfold end_Q. cbn. exact Qc.
  - apply (span_range _ (rt_Q e)); [split; [exact Vc|split; [exact Vr|exact Pr]]|exists e; split; [exact Ve|reflexivity]|].
    unfold end_Q. cbn. rewrite Qe. lra.
Qed.

Lemma halves_covered whole l r at_ d : halves whole l r at_ -> (start_Q whole <= at_ <= end_Q whole)%Q -> covered whole d ->
  covered l d /\ covered r d.
Proof.
  intros (H1 & H2 & H3 & H4) [Ha Hb] [Hs He]. unfold covered. split; (split; [lra|]); destruct (sd_Duration d); try exact I; lra.
Qed.
