(* ===== verification/EditClipInvariant.v ===== *)
(** The invariant of clips: every clip plays a stretch of its source stream that
    the stream covers, for exactly as long as it occupies its track, and never
    starts before time zero.  Every method of the normalizer keeps it. *)
From stdpp Require Import base list strings gmap sorting.
From Stdlib Require Import ZArith QArith Lia Lqa Ascii.
From S2P Require Import Prelude GoText Exact Identity Canonical EditModel Timeline EditState EditClips.
From S2P Require Import EditNarrative EditCaptions EditTranscript EditDerive EditValidate EditNormalize.
From S2P Require Import EditEffects EditRanges EditJournal EditJournalOps.
Open Scope Z_scope.

Record clip_wf (s : EditNormalizationState) (c : ClipState) : Prop := mkClipWf {
  wf_source : range_ok (clip_SourceRange c);
  wf_timeline : span_ok (clip_TimelineRange c);
  wf_duration : tr_Duration (clip_SourceRange c) = tr_Duration (clip_TimelineRange c);
  wf_start : (0 <= start_Q (clip_TimelineRange c))%Q;
  wf_media : exists track stream,
    st_Tracks s !! clip_TrackID c = Some track /\ st_SourceStreams s !! clip_SourceStreamID c = Some stream /\
    trackAcceptsStream track stream = true /\ covered (clip_SourceRange c) (stream_Descriptor stream) }.

(** Tracks and streams are stored under their identities; times fit their types. *)
Record media_ok (s : EditNormalizationState) : Prop := mkMediaOk {
  media_tracks : forall id t, st_Tracks s !! id = Some t -> track_ID t = id;
  media_streams : forall id t, st_SourceStreams s !! id = Some t -> stream_ID t = id /\ descriptor_typed (stream_Descriptor t);
  media_excerpts : forall id e, st_SourceExcerpts s !! id = Some e -> range_typed (exc_SourceRange e) }.

Definition clips_wf (n : editNormalizer) : Prop :=
  forall id c, n_clips n !! id = Some c -> clip_ID c = id /\ clip_wf (in_State (n_input n)) c.

(** A step from clips that satisfy the invariant keeps the request, the clips
    there are, and the invariant. *)
Definition keeps (n n' : editNormalizer) : Prop :=
  clips_wf n ->
  n_input n' = n_input n /\ (forall id, is_Some (n_clips n !! id) -> is_Some (n_clips n' !! id)) /\ clips_wf n'.

#[export] Instance keeps_preorder : PreOrder keeps.
Proof.
  split; [intros n Hw; auto|]. intros n1 n2 n3 H1 H2 Hw. destruct (H1 Hw) as (I1 & S1 & W1), (H2 W1) as (I2 & S2 & W2).
  split; [congruence|]. auto.
Qed.

Lemma keeps_intro n n' : (clips_wf n -> keeps n n') -> keeps n n'.
Proof. intros H Hw. by apply H. Qed.

(** A step that leaves the clips alone *)
Definition same_clips (n n' : editNormalizer) : Prop := n_input n' = n_input n /\ n_clips n' = n_clips n.

#[export] Instance same_clips_preorder : PreOrder same_clips.
Proof. split; [done|]. unfold same_clips. intros n1 n2 n3 [H1 H2] [H3 H4]. split; congruence. Qed.

Lemma same_clips_keeps n n' : same_clips n n' -> keeps n n'.
Proof. intros [Hi Hc] Hw. unfold clips_wf. rewrite Hi, Hc. auto. Qed.

(** A step that stores one clip *)
Lemma keeps_put n n' id c : n_input n' = n_input n -> n_clips n' = <[id := c]> (n_clips n) -> clip_ID c = id ->
  (clips_wf n -> clip_wf (in_State (n_input n)) c) -> keeps n n'.
Proof.
  intros Hi Hc <- Hw Hwf. split; [done|]. split.
  - intros id Hs. rewrite Hc. destruct (decide (id = clip_ID c)) as [->|Hne]; [rewrite lookup_insert_eq; eauto|].
    by rewrite lookup_insert_ne by congruence.
  - intros id d. rewrite Hc, Hi. destruct (decide (id = clip_ID c)) as [->|Hne].
    + rewrite lookup_insert_eq. intros [= <-]. auto.
    + rewrite lookup_insert_ne by congruence. apply Hwf.
Qed.

Lemma putExistingClip_keeps current next tracks n u n' : putExistingClip current next tracks n = Ok (u, n') ->
  clip_ID next = clip_ID current -> (clips_wf n -> clip_wf (in_State (n_input n)) next) -> keeps n n'.
Proof.
  intros Hr Hid Hw. apply putExistingClip_run in Hr as (_ & _ & r & m & _ & ->).
  eapply (keeps_put _ _ _ next); [done|reflexivity|done|done].
Qed.

Lemma putNewClip_keeps c n u n' : putNewClip c n = Ok (u, n') ->
  (clips_wf n -> clip_wf (in_State (n_input n)) c) -> keeps n n'.
Proof.
  intros Hr Hw. unfold putNewClip in Hr. mrun.
  match goal with Hx : change_track _ _ = _ |- _ => apply change_track_run in Hx as [m ->] end.
  by eapply (keeps_put _ _ _ c).
Qed.

Ltac solve_same := unfold same_clips; cbn; done.

Lemma createLinkGroup_same local n id n' : createLinkGroup local n = Ok (id, n') -> same_clips n n'.
Proof. intros Hr. unfold createLinkGroup in Hr. mrun. solve_same. Qed.
Lemma tombstoneLinkGroup_same id n u n' : tombstoneLinkGroup id n = Ok (u, n') -> same_clips n n'.
Proof. intros Hr. unfold tombstoneLinkGroup in Hr. mrun. solve_same. Qed.
Lemma advanceLinkGroup_same id members n u n' : advanceLinkGroup id members n = Ok (u, n') -> same_clips n n'.
Proof. intros Hr. unfold advanceLinkGroup in Hr. mrun. solve_same. Qed.
Lemma resolveClipLinkGroup_same o n r n' : resolveClipLinkGroup o n = Ok (r, n') -> same_clips n n'.
Proof.
  intros Hr. unfold resolveClipLinkGroup in Hr.
  destruct (op_CreateLinkGroupAs o); [|destruct (op_LinkGroup o)]; mruns; solve_same.
Qed.

(** ** Mutations *)

Lemma nonzero_clip n id : clips_wf n -> IsZero (clip_ID (at_key zero_clip (n_clips n) id)) = false ->
  n_clips n !! id = Some (at_key zero_clip (n_clips n) id) /\ clip_ID (at_key zero_clip (n_clips n) id) = id.
Proof.
  unfold at_key. intros Hw Hz. destruct (n_clips n !! id) as [c|] eqn:E; [|discriminate]. cbn.
  by destruct (Hw _ _ E) as [-> _].
Qed.

(** A clip there at the start of a loop is there in each turn. *)
Lemma current_clip n0 n id : clips_wf n0 -> keeps n0 n -> is_Some (n_clips n0 !! id) ->
  let c := at_key zero_clip (n_clips n) id in
  n_input n = n_input n0 /\ n_clips n !! id = Some c /\ clip_ID c = id /\ clip_wf (in_State (n_input n)) c.
Proof.
  intros Hw Hk Hs. destruct (Hk Hw) as (Hi & Hin & Hw'). specialize (Hin _ Hs). destruct Hin as [c Hc].
  unfold at_key. rewrite Hc. cbn. split; [done|]. split; [done|]. by apply Hw'.
Qed.

Lemma require_members_present seed group members : forall n found n', clips_wf n ->
  require_members seed group members n = Ok (found, n') -> n' = n /\ Forall (fun id => is_Some (n_clips n !! id)) members.
Proof.
  induction members as [|id rest IH]; intros n found n' Hw Hr; cbn in Hr; mrun; [done|]. bool_prop.
  match goal with Hx : require_members _ _ _ _ = _ |- _ => apply IH in Hx as [-> Hrest]; [|done] end.
  split; [done|]. constructor; [|done]. destruct (nonzero_clip n id Hw) as [-> _]; eauto.
Qed.

Lemma clipMutationMembers_present o change n members seed n' : clips_wf n ->
  clipMutationMembers o change n = Ok ((members, seed), n') ->
  n' = n /\ Forall (fun id => is_Some (n_clips n !! id)) members /\ n_clips n !! clip_ID seed = Some seed.
Proof.
  intros Hw Hr. unfold clipMutationMembers in Hr. mrun. bool_prop.
  match goal with Hx : IsZero (clip_ID (at_key zero_clip (n_clips n) ?k)) = false |- _ =>
    destruct (nonzero_clip n k Hw Hx) as [Hin Hid] end.
  destruct (bool_decide (_ = ClipScopeSingle)).
  - assert (n' = n /\ (members, seed) = ([clip_ID (at_key zero_clip (n_clips n) v0)], at_key zero_clip (n_clips n) v0)) as [-> [= -> ->]].
    { mrun. destruct (clip_LinkGroupID _); mruns; done. }
    split; [done|]. rewrite Hid. split; [constructor; [eauto|done]|done].
  - mrun. match goal with Hx : require_members _ _ _ _ = _ |- _ => apply require_members_present in Hx as [-> Hm]; [|done] end.
    simplify_eq. split; [done|]. rewrite Hid, sort_by_perm. done.
Qed.

Ltac mutation Hw Hm Hseed :=
  match goal with Hx : clipMutationMembers _ _ _ = _ |- _ =>
    apply clipMutationMembers_present in Hx as (-> & Hm & Hseed); [|exact Hw] end.

(** The same clip moved in time and to a track that accepts its stream *)
Lemma clip_wf_moved s c start track :
  clip_wf s c -> rt_valid start -> IsNegative start = false ->
  (exists t stream, st_Tracks s !! track = Some t /\ st_SourceStreams s !! clip_SourceStreamID c = Some stream /\
    trackAcceptsStream t stream = true) ->
  forall revision, clip_wf s (clip_on_track track (clip_over (clip_SourceRange c) (range_from start (clip_TimelineRange c))
                     (clip_at_revision revision c))).
Proof.
  intros [Hs (_ & Vd & Hp) Hd H0 (t0 & st0 & Ht0 & Hst0 & _ & Hcov)] Hv Hn (t & stream & Ht & Hst & Hacc) revision. split; cbn.
  - exact Hs.
  - split; [exact Hv|]. split; [exact Vd|exact Hp].
  - exact Hd.
  - unfold start_Q. cbn. apply nonnegative_Q; assumption.
  - exists t, stream. split; [exact Ht|]. split; [exact Hst|]. split; [exact Hacc|].
    rewrite Hst0 in Hst. injection Hst as <-. exact Hcov.
Qed.

Lemma span_typed r : span_ok r -> rt_typed (tr_Start r).
Proof. intros ((Ht & _) & _). exact Ht. Qed.

(** A track or stream with an identity is in the state. *)
Lemma nonzero_track (m : gmap string EditTrackState) id : IsZero (track_ID (at_key zero_track m id)) = false ->
  m !! id = Some (at_key zero_track m id).
Proof. unfold at_key. by destruct (m !! id). Qed.
Lemma nonzero_stream (m : gmap string EditSourceStreamState) id : IsZero (stream_ID (at_key zero_stream m id)) = false ->
  m !! id = Some (at_key zero_stream m id).
Proof. unfold at_key. by destruct (m !! id). Qed.

Lemma moveClip_keeps o n u n' : option_typed (op_TimelineStart o) -> moveClip o n = Ok (u, n') -> keeps n n'.
Proof.
  intros Ht Hr. apply keeps_intro. intros Hw. unfold moveClip in Hr. mrun. mutation Hw Hm Hseed.
  match goal with Hx : op_TimelineStart o = Some _ |- _ => rewrite Hx in Ht end.
  destruct (Hw _ _ Hseed) as [_ Wseed].
  match goal with Hx : Subtract _ _ = Ok ?d |- _ =>
    destruct (Subtract_ok _ _ _ Ht (span_typed _ (wf_timeline _ _ Wseed)) Hx) as (_ & _ & Vd & _) end.
  eapply (for_each_rel keeps); [exact Hm| |reflexivity|exact Hr].
  intros id m u1 m' Hid He Hbody. destruct (current_clip n m id Hw He Hid) as (Hi & Hin & Hcid & Wc).
  cbn beta in Hbody. mrun.
  match goal with Hx : Add _ _ = Ok ?s, Hneg : negb (IsNegative ?s) = true |- _ =>
    destruct (Add_ok _ _ _ (span_typed _ (wf_timeline _ _ Wc)) (proj1 Vd) Hx) as (_ & _ & Vs & _);
    apply negb_true_iff in Hneg; rename Hneg into Hns end.
  set (cur := at_key zero_clip (n_clips m) id) in *. clearbody cur. mruns.
  - bool_prop. match goal with Hx : putExistingClip _ _ _ ?m1 = _ |- _ =>
      transitivity m1; [apply same_clips_keeps; solve_same|]; eapply putExistingClip_keeps; [exact Hx|reflexivity|] end.
    intros _. apply clip_wf_moved; try assumption. cbn [n_input on_trackChanges].
    eexists _, _. split; [by apply nonzero_track|]. split; [by apply nonzero_stream|]. assumption.
  - eapply putExistingClip_keeps; [eassumption|reflexivity|]. intros _.
    apply (clip_wf_moved _ cur _ (clip_TrackID cur)); try assumption.
    destruct (wf_media _ _ Wc) as (t & s & ? & ? & ? & _). eauto.
Qed.

Definition option_range_typed (r : option TimeRange) : Prop := match r with Some r => range_typed r | None => True end.

Lemma clip_wf_same s c c' : clip_wf s c ->
  clip_SourceRange c' = clip_SourceRange c -> clip_TimelineRange c' = clip_TimelineRange c ->
  clip_TrackID c' = clip_TrackID c -> clip_SourceStreamID c' = clip_SourceStreamID c -> clip_wf s c'.
Proof. intros [H1 H2 H3 H4 H5] E1 E2 E3 E4. split; rewrite ?E1, ?E2, ?E3, ?E4; assumption. Qed.

(** A clip over another stretch of its source, of the same length on the timeline *)
Lemma clip_wf_over s c source timeline revision stream :
  clip_wf s c -> st_SourceStreams s !! clip_SourceStreamID c = Some stream ->
  range_ok source -> span_ok timeline -> tr_Duration source = tr_Duration timeline -> (0 <= start_Q timeline)%Q ->
  covered source (stream_Descriptor stream) -> clip_wf s (clip_over source timeline (clip_at_revision revision c)).
Proof.
  intros [_ _ _ _ (t & st & Ht & Hst & Hacc & _)] Hs H1 H2 H3 H4 Hc. split; [exact H1|exact H2|exact H3|exact H4|].
  exists t, stream. rewrite Hs in Hst. injection Hst as <-. auto.
Qed.

Lemma range_typed_ok r : range_ok r -> range_typed r.
Proof. intros ((Hs & _) & (Hd & _) & _). split; assumption. Qed.

Lemma trim_durations source timeline source' timeline' l r :
  span_ok source -> span_ok timeline -> tr_Duration source = tr_Duration timeline -> rt_typed l -> rt_typed r ->
  rangeWithBoundaryDeltas source l r = Ok source' -> rangeWithBoundaryDeltas timeline l r = Ok timeline' ->
  tr_Duration source' = tr_Duration timeline'.
Proof.
  intros Hs Ht Hd Hl Hr Es Et.
  destruct (rangeWithBoundaryDeltas_ok _ _ _ _ Hs Hl Hr Es) as ((_ & Vs & _) & _ & Ss & Ends).
  destruct (rangeWithBoundaryDeltas_ok _ _ _ _ Ht Hl Hr Et) as ((_ & Vt & _) & _ & St & Endt).
  apply rt_valid_unique; [exact Vs|exact Vt|]. unfold end_Q, start_Q in *. rewrite Hd in Ends. lra.
Qed.

(** The stretch of a stream that passes [sourceRangeWithin] *)
Lemma stream_covers s id source : media_ok s -> IsZero (stream_ID (at_key zero_stream (st_SourceStreams s) id)) = false -> range_typed source ->
  sourceRangeWithin source (stream_Descriptor (at_key zero_stream (st_SourceStreams s) id)) = true ->
  exists stream, st_SourceStreams s !! id = Some stream /\ stream_ID stream = id /\ range_ok source /\
    covered source (stream_Descriptor stream) /\ at_key zero_stream (st_SourceStreams s) id = stream.
Proof.
  intros Hmedia Hz Ht Hw. pose proof (nonzero_stream _ _ Hz) as Hin. eexists. split; [exact Hin|].
  destruct (media_streams _ Hmedia _ _ Hin) as [Hid Hd]. split; [exact Hid|].
  destruct (sourceRangeWithin_ok _ _ Ht Hd Hw). auto.
Qed.

Lemma trimClip_keeps o n u n' : media_ok (in_State (n_input n)) ->
  option_range_typed (op_TimelineRange o) -> trimClip o n = Ok (u, n') -> keeps n n'.
Proof.
  intros Hmedia Htr Hr. apply keeps_intro. intros Hw. unfold trimClip in Hr. mrun. mutation Hw Hm Hseed.
  match goal with Hx : op_TimelineRange o = Some _ |- _ => rewrite Hx in Htr; destruct Htr as [Ts Td] end.
  destruct (Hw _ _ Hseed) as [_ Wseed]. pose proof (wf_timeline _ _ Wseed) as (Vts & Vtd & _). unfold End in *.
  destruct (Subtract_ok _ _ _ Ts (proj1 Vts) Hrun1) as (_ & _ & Vl & _).
  destruct (Add_ok _ _ _ (proj1 Vts) (proj1 Vtd) Hrun2) as (_ & _ & Vold & _).
  destruct (Add_ok _ _ _ Ts Td Hrun3) as (_ & _ & Vnew & _).
  destruct (Subtract_ok _ _ _ (proj1 Vnew) (proj1 Vold) Hrun4) as (_ & _ & Vr & _).
  eapply (for_each_rel keeps); [exact Hm| |reflexivity|exact Hr].
  intros id m u1 m' Hid He Hbody. destruct (current_clip n m id Hw He Hid) as (Hi & Hin & Hcid & Wc).
  cbn beta in Hbody. mrun. bool_prop. rewrite Hi in *.
  pose proof (range_span _ (wf_source _ _ Wc)) as Ss. pose proof (wf_timeline _ _ Wc) as St.
  match goal with Hs : rangeWithBoundaryDeltas (clip_SourceRange _) _ _ = Ok _,
                  Ht : rangeWithBoundaryDeltas (clip_TimelineRange _) _ _ = Ok _ |- _ =>
    destruct (rangeWithBoundaryDeltas_ok _ _ _ _ Ss (proj1 Vl) (proj1 Vr) Hs) as (Rs & _);
    destruct (rangeWithBoundaryDeltas_ok _ _ _ _ St (proj1 Vl) (proj1 Vr) Ht) as (Rt & Hge & _);
    pose proof (trim_durations _ _ _ _ _ _ Ss St (wf_duration _ _ Wc) (proj1 Vl) (proj1 Vr) Hs Ht) as Hdur end.
  match goal with Hz : IsZero (stream_ID _) = false, Hx : sourceRangeWithin _ _ = true |- _ =>
    destruct (stream_covers _ _ _ Hmedia Hz (range_typed_ok _ Rs) Hx) as (stream & Hstream & _ & _ & Hcov & _) end.
  eapply putExistingClip_keeps; [eassumption|reflexivity|]. intros _. rewrite Hi.
  eapply clip_wf_over; [exact Wc|exact Hstream|exact Rs|exact (range_span _ Rt)|exact Hdur|exact Hge|exact Hcov].
Qed.

Lemma split_parts_wf s c at_ lt rt ls rs : clip_wf s c -> rt_typed at_ -> split_ranges c at_ = Ok (lt, rt, ls, rs) ->
  clip_wf s (clip_over ls lt c) /\ clip_wf s (clip_over rs rt c).
Proof.
  intros [Hs Ht Hd H0 (t & st & Hin & Hst & Hacc & Hcov)] Ta H.
  destruct (split_ranges_parts _ _ _ _ _ _ Ht Hs Hd Ta H) as (Hat & Hht & Hhs & Slt & Srt & Rls & Rrs & Dl & Dr).
  destruct (halves_covered _ _ _ _ (stream_Descriptor st) Hhs) as [Cl Cr]; [|exact Hcov|].
  { pose proof Ht as (_ & _ & Hp). unfold start_Q, end_Q in *. rewrite Hd. lra. }
  destruct Hht as (Hl & _ & Hr & _). split; (split; cbn; [assumption|assumption|assumption|rewrite ?Hl, ?Hr; lra|]); exists t, st; auto.
Qed.

(** A clip there already, stored again over the same stretch of the same track *)
Lemma put_same n id next tracks u n' : putExistingClip (at_key zero_clip (n_clips n) id) next tracks n = Ok (u, n') ->
  is_Some (n_clips n !! id) ->
  clip_ID next = clip_ID (at_key zero_clip (n_clips n) id) ->
  clip_SourceRange next = clip_SourceRange (at_key zero_clip (n_clips n) id) ->
  clip_TimelineRange next = clip_TimelineRange (at_key zero_clip (n_clips n) id) ->
  clip_TrackID next = clip_TrackID (at_key zero_clip (n_clips n) id) ->
  clip_SourceStreamID next = clip_SourceStreamID (at_key zero_clip (n_clips n) id) -> keeps n n'.
Proof.
  intros Hr [c Hc] E1 E2 E3 E4 E5. eapply putExistingClip_keeps; [exact Hr|exact E1|]. intros Hw.
  unfold at_key in *. rewrite Hc in *. destruct (Hw _ _ Hc) as [_ W]. eapply clip_wf_same; eassumption.
Qed.

Lemma keeps_present n0 n id : clips_wf n0 -> keeps n0 n -> is_Some (n_clips n0 !! id) -> is_Some (n_clips n !! id).
Proof. intros Hw Hk Hin. destruct (Hk Hw) as (_ & Hs & _). by apply Hs. Qed.

Lemma finishSingleMembershipRemoval_keeps id n u n' : finishSingleMembershipRemoval id n = Ok (u, n') -> keeps n n'.
Proof.
  intros Hr. apply keeps_intro. intros Hw. unfold finishSingleMembershipRemoval in Hr. mrun.
  mcase; [by eapply same_clips_keeps, advanceLinkGroup_same|]. mrun.
  etrans; [|eapply same_clips_keeps, tombstoneLinkGroup_same; exact Hr]. etrans; [|apply same_clips_keeps; solve_same].
  eapply (for_each_rel keeps (fun m => is_Some (n_clips n !! m)) _ _ n); [| |reflexivity|exact Hrun].
  - apply Forall_forall. intros m [Hm%Is_true_true _]%list_elem_of_filter. unfold at_key in Hm.
    destruct (n_clips n !! m); [done|]. discriminate.
  - intros m n1 u1 n2 Hm He Hbody. cbn beta in Hbody. mrun.
    eapply put_same; [eassumption|by eapply keeps_present|reflexivity..].
Qed.

Lemma splitClip_keeps o n u n' : option_typed (op_SplitAt o) -> splitClip o n = Ok (u, n') -> keeps n n'.
Proof.
  intros Hat Hr. apply keeps_intro. intros Hw. unfold splitClip in Hr. mrun. mutation Hw Hm Hseed.
  match goal with Hx : for_each _ _ _ = Ok (_, ?n2) |- _ => transitivity n2 end.
  2: { mcase; destruct (clip_LinkGroupID c); mrun;
       [by eapply same_clips_keeps, tombstoneLinkGroup_same|by eapply finishSingleMembershipRemoval_keeps|reflexivity]. }
  clear Hr.
  match goal with Hx : (if _ then _ else _) _ = Ok (?g, ?n1) |- _ => assert (Hk1 : keeps n n1) end.
  { mruns; [|reflexivity]. etrans; eapply same_clips_keeps, createLinkGroup_same; eassumption. }
  etrans; [exact Hk1|]. eapply (for_each_rel keeps); [exact Hm| |exact Hk1|eassumption].
  intros id m u1 m' Hid He Hbody. destruct (current_clip n m id Hw He Hid) as (Hi & Hin & Hcid & Wc).
  cbn beta in Hbody. mrun.
  match goal with Hx : op_SplitAt o = Some _ |- _ => rewrite Hx in Hat end.
  match goal with Hx : splitClipStates _ _ _ _ _ _ = _ |- _ =>
    apply splitClipStates_run in Hx as (-> & lt & rt & ls & rs & lid & rid & Hsplit & -> & ->) end. mrun.
  destruct (split_parts_wf _ _ _ _ _ _ _ Wc Hat Hsplit) as [Wl Wr].
  pose proof (proj2 (proj2 (He Hw))) as Hwm.
  match goal with Hx : putExistingClip _ _ _ m = Ok (_, ?m1) |- _ =>
    assert (K1 : keeps m m1) by (eapply put_same; [exact Hx|by eexists|reflexivity..]) end.
  etrans; [exact K1|]. destruct (K1 Hwm) as (E1 & _ & Hw1).
  match goal with Hy : putNewClip _ ?m1 = Ok (_, ?m2), Hz : putNewClip _ ?m2 = _ |- _ => assert (K2 : keeps m1 m2) end.
  { eapply putNewClip_keeps; [eassumption|]. intros _. rewrite E1. eapply clip_wf_same; [exact Wl|reflexivity..]. }
  etrans; [exact K2|]. destruct (K2 Hw1) as (E2 & _).
  eapply putNewClip_keeps; [eassumption|]. intros _. rewrite E2, E1. eapply clip_wf_same; [exact Wr|reflexivity..].
Qed.

Lemma removeClip_keeps o n u n' : removeClip o n = Ok (u, n') -> keeps n n'.
Proof.
  intros Hr. apply keeps_intro. intros Hw. unfold removeClip in Hr. mrun. mutation Hw Hm Hseed.
  match goal with Hx : for_each _ _ n = Ok (_, ?n1) |- _ => transitivity n1 end.
  - eapply (for_each_rel keeps); [exact Hm| |reflexivity|eassumption].
    intros id m u1 m' Hid He Hbody. cbn beta in Hbody. mrun.
    eapply put_same; [eassumption|by eapply keeps_present|reflexivity..].
  - destruct (clip_LinkGroupID _); mruns;
      [by eapply same_clips_keeps, tombstoneLinkGroup_same|by eapply finishSingleMembershipRemoval_keeps|reflexivity].
Qed.

Lemma link_members_keeps group refs : forall n ids n', link_members group refs n = Ok (ids, n') -> keeps n n'.
Proof.
  induction refs as [|r rest IH]; intros n ids n' Hr; cbn in Hr; mrun; [reflexivity|].
  apply keeps_intro. intros Hw. bool_prop.
  match goal with Hx : link_members _ _ _ = _ |- _ => apply IH in Hx; etrans; [|exact Hx] end.
  match goal with Hx : IsZero (clip_ID (at_key zero_clip (n_clips n) ?k)) = false |- _ =>
    destruct (nonzero_clip n k Hw Hx) as [Hin _] end.
  eapply put_same; [eassumption|by eexists|reflexivity..].
Qed.

Lemma linkClips_keeps o n u n' : linkClips o n = Ok (u, n') -> keeps n n'.
Proof.
  intros Hr. unfold linkClips in Hr. mrun.
  etrans; [by eapply same_clips_keeps, createLinkGroup_same|]. etrans; [by eapply link_members_keeps|].
  apply same_clips_keeps. solve_same.
Qed.

Lemma unlinkClips_keeps o n u n' : unlinkClips o n = Ok (u, n') -> keeps n n'.
Proof.
  intros Hr. unfold unlinkClips in Hr. mrun.
  etrans; [|eapply same_clips_keeps, tombstoneLinkGroup_same; exact Hr]. etrans; [|apply same_clips_keeps; solve_same].
  match goal with Hx : for_each _ _ n = _ |- _ => revert Hx end. apply (for_each_steps keeps).
  intros id m u1 m' _ Hbody. cbn beta in Hbody. mrun. bool_prop.
  eapply put_same; [eassumption| |reflexivity..]. unfold at_key in *. by destruct (n_clips m !! id).
Qed.

Lemma alignment_effects_same (ids : list string) n u n' :
  for_each ids (fun alignmentID =>
    alignments ← state_of st_Alignments;
    match alignments !! alignmentID with
    | None => lift (Fail ErrEditInvalid)
    | Some alignment =>
        modify (on_alignmentEffects (fun effects =>
          if bool_decide (is_Some (effects !! alignmentID)) then effects
          else <[alignmentID := al_Status alignment]> effects))
    end) n = Ok (u, n') -> same_clips n n'.
Proof. apply (for_each_steps same_clips). intros id m u1 m' _ Hbody. cbn beta in Hbody. mrun. solve_same. Qed.

Lemma setClipPlacement_keeps o n u n' : setClipPlacement o n = Ok (u, n') -> keeps n n'.
Proof.
  intros Hr. apply keeps_intro. intros Hw. unfold setClipPlacement in Hr. mrun.
  match goal with Hx : for_each _ _ ?m = Ok (_, ?m') |- _ =>
    apply alignment_effects_same in Hx;
    assert (Hs0 : same_clips n m) by (destruct (op_Placement o); mruns; solve_same);
    assert (Hs : same_clips n m') by (by etrans) end.
  etrans; [by apply same_clips_keeps|].
  match goal with Hx : n_clips n !! _ = Some _ |- _ => destruct (Hw _ _ Hx) as [_ Wc] end.
  eapply putExistingClip_keeps; [exact Hr|reflexivity|]. intros _. destruct Hs as [-> _].
  eapply clip_wf_same; [exact Wc|reflexivity..].
Qed.

(** The request of a new clip: times fit their types, and the place on the
    timeline is valid. *)
Definition new_clip_ok (o : EditOperationInput) : Prop :=
  option_range_typed (op_SourceRange o) /\
  match op_TimelineRange o with Some r => span_ok r /\ (0 <= start_Q r)%Q | None => True end.

(** The track checks of [addClip] *)
Lemma checked_accepts track stream :
  bool_decide (track_Type track = TrackVideo) || bool_decide (track_Type track = TrackAudio) = true ->
  bool_decide (track_Type track = TrackVideo) && bool_decide (sd_MediaType (stream_Descriptor stream) <> MediaVideo) = false ->
  bool_decide (track_Type track = TrackAudio) && bool_decide (sd_MediaType (stream_Descriptor stream) <> MediaAudio) = false ->
  trackAcceptsStream track stream = true.
Proof. unfold trackAcceptsStream. repeat case_bool_decide; try done; congruence. Qed.

Lemma addClip_keeps o n u n' : media_ok (in_State (n_input n)) -> new_clip_ok o -> addClip o n = Ok (u, n') -> keeps n n'.
Proof.
  intros Hmedia [Hs Ht] Hr. unfold addClip in Hr. mrun. bool_prop.
  match goal with Hx : resolveClipLinkGroup _ _ = _ |- _ => apply resolveClipLinkGroup_same in Hx as [Hi Hc] end.
  cbn [n_input n_clips on_touched] in Hi, Hc.
  match goal with Hx : op_SourceRange o = Some _, Hy : op_TimelineRange o = Some _ |- _ => rewrite Hx in Hs; rewrite Hy in Ht end.
  destruct Ht as [St Hge].
  match goal with Hz : IsZero (track_ID _) = false |- _ => pose proof (nonzero_track _ _ Hz) as Htrack end.
  match goal with Hz : IsZero (stream_ID _) = false, Hx : sourceRangeWithin _ _ = true |- _ =>
    destruct (stream_covers _ _ _ Hmedia Hz Hs Hx) as (stream & Hstream & Hsid & Rs & Hcov & Heq) end.
  subst stream. pose proof (media_tracks _ Hmedia _ _ Htrack) as Htid.
  match goal with Hx : RationalTime_Compare _ _ = Ok _ |- _ =>
    destruct (Compare_ok _ _ _ (proj2 Hs) (proj1 (proj1 (proj2 St))) Hx) as (_ & _ & _ & Hdur & _) end.
  msimpl_in_all.
  match goal with Hx : (match ?g with Some _ => _ | None => _ end) _ = _ |- _ => destruct g; mrun end;
    (eapply keeps_put; [exact Hi|cbn; by rewrite Hc|reflexivity|]); intros _;
    (split; cbn; [exact Rs|exact St|by apply Hdur|exact Hge|]); rewrite Htid, Hsid;
    eexists _, _; (split; [exact Htrack|]); (split; [exact Hstream|]); (split; [|exact Hcov]).
  all: by apply checked_accepts.
Qed.

(** ** Rough cuts *)

Lemma validateRoughCutLane_ok s excerpt lane type : media_ok s -> range_typed (exc_SourceRange excerpt) ->
  validateRoughCutLane s excerpt lane type = Ok tt -> range_ok (exc_SourceRange excerpt).
Proof.
  intros Hm Ht H. unfold validateRoughCutLane in H. outcome_inv. bool_prop.
  match goal with Hz : IsZero (stream_ID _) = false, Hx : sourceRangeWithin _ _ = true |- _ =>
    destruct (stream_covers _ _ _ Hm Hz Ht Hx) as (_ & _ & _ & R & _) end. exact R.
Qed.

(** One output of a rough cut: a live excerpt whose evidence is exact, played in
    full from [cursor]. *)
Definition output_ok (s : EditNormalizationState) (cursor : Q) (item : RoughCutDerivationItemInput) (o : DerivedRoughCutOutputInput) : Prop :=
  exists excerpt, st_SourceExcerpts s !! item_SourceExcerptID item = Some excerpt /\ exc_Tombstoned excerpt = false /\
    st_SourceExcerptEvidence s !! exc_ID excerpt = Some SourceExcerptEvidenceExact /\
    rc_SourceExcerptID o = exc_ID excerpt /\ rc_SourceRange o = exc_SourceRange excerpt /\
    range_ok (rc_SourceRange o) /\ range_ok (rc_TimelineRange o) /\
    tr_Duration (rc_TimelineRange o) = tr_Duration (rc_SourceRange o) /\ (start_Q (rc_TimelineRange o) == cursor)%Q.

(** Outputs laid end to end from [cursor], in the order of the items *)
Inductive end_to_end (s : EditNormalizationState) : Q -> list RoughCutDerivationItemInput -> list DerivedRoughCutOutputInput -> Prop :=
| ete_nil cursor : end_to_end s cursor [] []
| ete_cons cursor item items o outputs :
    output_ok s cursor item o -> end_to_end s (end_Q (rc_TimelineRange o)) items outputs ->
    end_to_end s cursor (item :: items) (o :: outputs).

Lemma end_to_end_proper s c c' items outputs : (c == c')%Q -> end_to_end s c items outputs -> end_to_end s c' items outputs.
Proof.
  intros Hc H. destruct H as [|cursor item items o outputs (e & H1 & H2 & H3 & H4 & H5 & H6 & H7 & H8 & H9) Hrest]; [constructor|].
  constructor; [|exact Hrest]. exists e. repeat (split; [assumption|]). rewrite H9. exact Hc.
Qed.

Lemma rough_cut_outputs_end_to_end s prefix items : media_ok s -> forall cursor ordinal outputs,
  rt_valid cursor -> rough_cut_outputs s prefix cursor ordinal items = Ok outputs -> end_to_end s (rt_Q cursor) items outputs.
Proof.
  intros Hm. induction items as [|item items IH]; intros cursor ordinal outputs Hv H; [injection H as <-; constructor|].
  cbn [rough_cut_outputs] in H. outcome_inv. bool_prop. subst outputs.
  set (excerpt := at_key zero_excerpt (st_SourceExcerpts s) (item_SourceExcerptID item)) in *.
  assert (Hin : st_SourceExcerpts s !! item_SourceExcerptID item = Some excerpt).
  { unfold excerpt, at_key in *. by destruct (st_SourceExcerpts s !! item_SourceExcerptID item). }
  pose proof (media_excerpts _ Hm _ _ Hin) as Ht. clearbody excerpt.
  assert (Rs : range_ok (exc_SourceRange excerpt)).
  { destruct v0, v1, (item_Video item) as [l1|], (item_Audio item) as [l2|]; try discriminate;
      eapply validateRoughCutLane_ok; eassumption. }
  match goal with Hx : NewTimeRange _ _ = Ok ?r |- _ => apply NewTimeRange_ok in Hx as (_ & _ & _ & ->) end.
  match goal with Hx : End _ = Ok ?e |- _ => rename Hx into Hend;
    destruct (Add_ok _ _ _ (proj1 Hv) (proj2 Ht) Hend) as (_ & _ & Ve & Qe) end.
  pose proof Rs as (_ & Vd & Pd & _).
  econstructor; [|].
  - exists excerpt. split; [exact Hin|]. do 2 (split; [assumption|]). do 2 (split; [reflexivity|]). split; [exact Rs|].
    split; [|split; reflexivity]. split; [exact Hv|]. split; [exact Vd|]. split; [exact Pd|]. eexists. split; [exact Hend|].
    split; [exact Ve|]. exact Qe.
  - eapply end_to_end_proper; [|eapply IH; [exact Ve|eassumption]]. exact Qe.
Qed.

Lemma end_to_end_all s c items outputs : (0 <= c)%Q -> end_to_end s c items outputs ->
  Forall (fun o => range_ok (rc_SourceRange o) /\ span_ok (rc_TimelineRange o) /\ (0 <= start_Q (rc_TimelineRange o))%Q) outputs.
Proof.
  intros Hc H. revert Hc.
  induction H as [|cursor item items o outputs (e & _ & _ & _ & _ & _ & Rs & Rt & _ & Hs) _ IH]; intros Hc; [constructor|].
  constructor.
  - split; [exact Rs|]. split; [exact (range_span _ Rt)|]. rewrite Hs. exact Hc.
  - apply IH. destruct Rt as (_ & _ & Hp & _). unfold start_Q, end_Q in *. lra.
Qed.

(** ** Methods that leave the clips alone *)

Lemma map_each_respects R `{!PreOrder R} {A B} (f : A -> M B) items : (forall a, respects R (f a)) -> respects R (map_each f items).
Proof. intros Hf. induction items as [|a items IH]; cbn; respect ltac:(first [apply Hf|exact IH]) idtac. Qed.

Ltac same_assign :=
  first [ solve_same | match goal with |- same_clips _ (setNarrativeNode ?s _) => destruct s; solve_same end ].
Ltac same_known :=
  first [ apply map_each_respects; [typeclasses eauto|intros ?]
        | match goal with |- respects _ ?m => let f := get_head m in unfold f end ].

Lemma provided_corrections_same p refs : respects same_clips (provided_corrections p refs).
Proof. intros n a n' H%provided_corrections_run. by subst. Qed.

Lemma insertNarrativeNode_same o : respects same_clips (insertNarrativeNode o).
Proof. unfold insertNarrativeNode. respect same_known same_assign. Qed.
Lemma updateNarrativeNode_same o : respects same_clips (updateNarrativeNode o).
Proof. unfold updateNarrativeNode. respect same_known same_assign. Qed.
Lemma moveNarrativeNode_same o : respects same_clips (moveNarrativeNode o).
Proof. unfold moveNarrativeNode. respect same_known same_assign. Qed.
Lemma removeNarrativeNode_same o : respects same_clips (removeNarrativeNode o).
Proof. unfold removeNarrativeNode. respect same_known same_assign. Qed.
Lemma insertSourceExcerpt_same o : respects same_clips (insertSourceExcerpt o).
Proof. unfold insertSourceExcerpt. respect ltac:(first [apply provided_corrections_same|same_known]) same_assign. Qed.
Lemma addTranscriptCorrection_same o : respects same_clips (addTranscriptCorrection o).
Proof. unfold addTranscriptCorrection. respect same_known same_assign. Qed.
Lemma updateTranscriptCorrection_same o remove : respects same_clips (updateTranscriptCorrection o remove).
Proof. unfold updateTranscriptCorrection. respect same_known same_assign. Qed.
Lemma addCaption_same `{Platform} o : respects same_clips (addCaption o).
Proof. unfold addCaption. respect same_known same_assign. Qed.
Lemma updateCaption_same `{Platform} o remove : respects same_clips (updateCaption o remove).
Proof. unfold updateCaption. respect same_known same_assign. Qed.
Lemma bindAlignment_same o : respects same_clips (bindAlignment o).
Proof. unfold bindAlignment. respect same_known same_assign. Qed.
Lemma deriveCaptions_same `{Platform} o : respects same_clips (deriveCaptions o).
Proof. unfold deriveCaptions, derive_caption. respect same_known same_assign. Qed.

(** ** All operations *)

(** The times of a request fit their Go types. *)
Definition times_typed (o : EditOperationInput) : Prop :=
  option_typed (op_TimelineStart o) /\ option_typed (op_SplitAt o) /\ option_typed (op_RoughCutTimelineStart o) /\
  option_range_typed (op_TimelineRange o) /\ option_range_typed (op_SourceRange o).

Section operations.
Context `{Platform}.

Lemma derive_rough_cut_output_keeps o n u n' : media_ok (in_State (n_input n)) ->
  range_ok (rc_SourceRange o) /\ span_ok (rc_TimelineRange o) /\ (0 <= start_Q (rc_TimelineRange o))%Q ->
  derive_rough_cut_output o n = Ok (u, n') -> keeps n n'.
Proof.
  intros Hm (Rs & St & Hge) Hr. apply keeps_intro. intros Hw. unfold derive_rough_cut_output in Hr. mrun.
  match goal with Hx : map_each _ _ _ = _ |- _ => apply map_each_pure in Hx; [|intros ? ? ? ? ?; by mrun] end. subst.
  etrans; [|by eapply same_clips_keeps, bindAlignment_same].
  assert (Hok : forall asset first lane, new_clip_ok (lane_operation asset o first lane))
    by (intros; split; [exact (range_typed_ok _ Rs)|split; [exact St|exact Hge]]).
  match goal with Hx : (match rc_Audio o with _ => _ end) ?m = _ |- _ => assert (K : keeps n m) end.
  { destruct (rc_Video o); [|mrun; reflexivity]. eapply addClip_keeps; [exact Hm|apply Hok|eassumption]. }
  etrans; [exact K|]. destruct (K Hw) as (Hi & _). rewrite <- Hi in Hm.
  destruct (rc_Audio o); [|mrun; reflexivity]. eapply addClip_keeps; [exact Hm|apply Hok|eassumption].
Qed.

Lemma BuildRoughCutOperation_run s start prefix items op : BuildRoughCutOperation s start prefix items = Ok op ->
  exists outputs digest, rough_cut_outputs s prefix start 1 items = Ok outputs /\
    op = rough_cut_operation start prefix items outputs (Some digest) /\ valid_time start = true /\ IsNegative start = false.
Proof.
  intros H0. unfold BuildRoughCutOperation in H0. outcome_inv. bool_prop. subst op.
  eexists _, _. split; [eassumption|]. auto.
Qed.

Lemma deriveRoughCut_keeps o n u n' : media_ok (in_State (n_input n)) -> option_typed (op_RoughCutTimelineStart o) ->
  deriveRoughCut o n = Ok (u, n') -> keeps n n'.
Proof.
  intros Hm Ht Hr. apply keeps_intro. intros Hw. unfold deriveRoughCut in Hr. mrun.
  match goal with Hx : op_RoughCutTimelineStart o = Some _ |- _ => rewrite Hx in Ht end.
  match goal with Hx : BuildRoughCutOperation _ _ _ _ = Ok _ |- _ =>
    apply BuildRoughCutOperation_run in Hx as (outputs & digest & Hout & -> & Hv & Hn) end.
  pose proof (valid_time_ok _ Ht Hv) as Vs.
  pose proof (end_to_end_all _ _ _ _ (nonnegative_Q _ Vs Hn) (rough_cut_outputs_end_to_end _ _ _ Hm _ _ _ Vs Hout)) as Hall.
  eapply (for_each_rel keeps); [exact Hall| |reflexivity|exact Hr].
  intros out m u1 m' Hok He Hbody. destruct (He Hw) as (Hi & _).
  eapply derive_rough_cut_output_keeps; [by rewrite Hi|exact Hok|exact Hbody].
Qed.

Lemma validated_new_clip o : times_typed o -> validateEditOperation o = true -> op_Type o = EditAddClip -> new_clip_ok o.
Proof.
  intros (_ & _ & _ & Ht & Hs) Hv Htype. split; [exact Hs|].
  unfold validateEditOperation in Hv. rewrite Htype in Hv.
  change (bool_decide (EditAddClip = EditDeriveRoughCut)) with false in Hv.
  change (isClipMutationOperation EditAddClip) with false in Hv. bool_prop.
  unfold validRange, pointer_is in *. destruct (op_TimelineRange o) as [r|]; [|exact I]. destruct Ht as [Ts Td]. bool_prop.
  assert (Vs : rt_valid (tr_Start r)) by (apply valid_time_ok; assumption).
  assert (Vd : rt_valid (tr_Duration r)) by (apply valid_time_ok; assumption).
  split; [|apply nonnegative_Q; assumption]. split; [exact Vs|]. split; [exact Vd|]. apply IsPositive_Q; assumption.
Qed.

Lemma normalizeEntityOperation_keeps o n u n' : media_ok (in_State (n_input n)) -> times_typed o -> validateEditOperation o = true ->
  normalizeEntityOperation o n = Ok (u, n') -> keeps n n'.
Proof.
  intros Hm Ht Hv. pose proof (validated_new_clip o Ht Hv) as Hnew. destruct Ht as (T1 & T2 & T3 & T4 & T5). clear Hv.
  unfold normalizeEntityOperation. destruct (op_Type o); intros Hr;
    first [ by eapply same_clips_keeps, insertNarrativeNode_same | by eapply same_clips_keeps, updateNarrativeNode_same
    | by eapply same_clips_keeps, moveNarrativeNode_same | by eapply same_clips_keeps, removeNarrativeNode_same
    | by eapply same_clips_keeps, addCaption_same | by eapply same_clips_keeps, updateCaption_same
    | eapply moveClip_keeps; [exact T1|exact Hr] | eapply trimClip_keeps; [exact Hm|exact T4|exact Hr]
    | eapply splitClip_keeps; [exact T2|exact Hr] | by eapply setClipPlacement_keeps | by eapply removeClip_keeps
    | by eapply linkClips_keeps | by eapply unlinkClips_keeps | by eapply same_clips_keeps, addTranscriptCorrection_same
    | by eapply same_clips_keeps, updateTranscriptCorrection_same | by eapply same_clips_keeps, insertSourceExcerpt_same
    | by eapply same_clips_keeps, deriveCaptions_same | eapply deriveRoughCut_keeps; [exact Hm|exact T3|exact Hr]
    | eapply addClip_keeps; [exact Hm|by apply Hnew|exact Hr] | mrun; reflexivity ].
Qed.

Lemma normalizeEntityOperations_keeps n u n' : media_ok (in_State (n_input n)) ->
  Forall (fun o => times_typed o /\ validateEditOperation o = true) (pi_Operations (in_Input (n_input n))) ->
  clips_wf n -> normalizeEntityOperations n = Ok (u, n') -> clips_wf n'.
Proof.
  intros Hm Hall Hw Hr. unfold normalizeEntityOperations, proposed_operations in Hr. mrun.
  assert (K : keeps n n'); [|by destruct (K Hw) as (_ & _ & ?)].
  eapply (for_each_rel keeps); [exact Hall| |reflexivity|exact Hr].
  intros o m u1 m' [Ht Hv] He Hbody. destruct (He Hw) as (Hi & _).
  eapply normalizeEntityOperation_keeps; [by rewrite Hi|exact Ht|exact Hv|exact Hbody].
Qed.
End operations.

Lemma collect_created_valid `{Platform} operations : forall created edges r,
  collect_created created edges operations = Ok r -> Forall (fun o => validateEditOperation o = true) operations.
Proof.
  induction operations as [|o rest IH]; intros created edges r Hr; [constructor|]. cbn in Hr. outcome_inv.
  constructor; [done|]. by eapply IH.
Qed.

Lemma validated_operations `{Platform} input : validateNormalizationInput input = Ok tt ->
  Forall (fun o => validateEditOperation o = true) (pi_Operations (in_Input input)).
Proof.
  intros Hv. unfold validateNormalizationInput, validateEditProposeInput in Hv. outcome_inv.
  by eapply collect_created_valid.
Qed.
