(* ===== verification/EditProposals.v ===== *)
(** What a normalized proposal promises.

    A proposal is a list of puts: applied in order to the entities the request
    was checked against, it gives the edited project; its inverse preview,
    applied after it, gives the project back.  The theorems here are about
    [NormalizeEditProposal] as a whole. *)
From stdpp Require Import base list strings gmap sorting.
From Stdlib Require Import ZArith Lia Ascii.
From S2P Require Import Prelude GoText Exact Identity Canonical EditModel Timeline EditState EditClips.
From S2P Require Import EditNarrative EditCaptions EditTranscript EditDerive EditValidate EditNormalize.
From S2P Require Import EditNormalize EditEffects EditRanges EditJournal EditJournalOps.
From S2P Require Import EditClipInvariant.
Open Scope Z_scope.

(** ** The abstract store *)

(** The entities of a project: at most one per key *)
Definition store : Type := ekey -> option NormalizedEditOperation.

Definition put (s : store) (o : NormalizedEditOperation) : store :=
  fun k => if decide (k = op_key o) then Some o else s k.
Definition replay (s : store) (ops : list NormalizedEditOperation) : store := foldl put s ops.

(** The normalizer of a request before its allocations are read *)
Definition opening (input : NormalizeEditInput) : editNormalizer :=
  let s := in_State input in
  mkNormalizer input ∅ (condition_map (pi_Preconditions (in_Input input)))
    (st_Sections s) (st_AuthoredTexts s) (st_SourceExcerpts s) (st_VisualIntents s) (st_Notes s)
    (st_SectionChildCounts s) (st_TranscriptCorrections s) (st_Captions s) (st_Clips s) (st_LinkGroups s)
    (st_LinkGroupClips s) (st_Alignments s) ∅ ∅ [] [] [] false false ∅ ∅.

(** The entities a request is checked against *)
Definition stored (input : NormalizeEditInput) : store := entity (opening input).

(** What the caller of [NormalizeEditProposal] guarantees: the state it loads
    holds every entity under its own identity, and allocates identities that are
    not in use. *)
Record input_ok (input : NormalizeEditInput) : Prop := mkInputOk {
  input_keyed : forall k o, stored input k = Some o -> op_key o = k /\ revision_ok (op_revision o);
  input_fresh : Forall (fun a => stored input (alloc_Kind a, alloc_ID a) = None) (in_Allocation input) }.

Lemma replay_find s ops k : replay s ops k = match find_op k ops with Some o => Some o | None => s k end.
Proof.
  induction ops as [|o ops IH] using rev_ind; [done|]. unfold replay in *. rewrite foldl_app, find_op_app. cbn. unfold put.
  by case_decide.
Qed.

Lemma find_op_in ops o : NoDup (op_key <$> ops) -> o ∈ ops -> find_op (op_key o) ops = Some o.
Proof.
  intros Hnd Hin. destruct (find_op (op_key o) ops) as [o'|] eqn:E.
  - apply find_op_key in E as [Hk Hin']. apply list_elem_of_lookup in Hin as [i Hi], Hin' as [j Hj].
    assert (i = j) as ->; [|congruence].
    eapply NoDup_lookup; [exact Hnd| |]; rewrite list_lookup_fmap, ?Hi, ?Hj; cbn; by rewrite ?Hk.
  - unfold find_op in E. apply last_None in E.
    assert (o ∈ filter (fun x => op_key x = op_key o) ops) as Hx by (by apply list_elem_of_filter).
    rewrite E in Hx. by apply elem_of_nil in Hx.
Qed.

Lemma replay_absent s ops k : k ∉ op_key <$> ops -> replay s ops k = s k.
Proof. intros Hk. by rewrite replay_find, find_op_None. Qed.

Lemma replay_present s ops o : NoDup (op_key <$> ops) -> o ∈ ops -> replay s ops (op_key o) = Some o.
Proof. intros Hnd Hin. by rewrite replay_find, find_op_in. Qed.

(** ** Checking what the caller guarantees *)

(** Every entry of a map is stored under its own identity, at a revision in range. *)
Definition keyed_map {A} (name : A -> string) (revision : A -> Z) (m : gmap string A) : Prop :=
  map_Forall (fun key v => name v = key /\ 0 <= revision v <= MaxInt64) m.

Definition state_keyed (s : EditNormalizationState) : Prop :=
  keyed_map sec_ID sec_Revision (st_Sections s) /\ keyed_map txt_ID txt_Revision (st_AuthoredTexts s) /\
  keyed_map exc_ID exc_Revision (st_SourceExcerpts s) /\ keyed_map vis_ID vis_Revision (st_VisualIntents s) /\
  keyed_map note_ID note_Revision (st_Notes s) /\ keyed_map cor_ID cor_Revision (st_TranscriptCorrections s) /\
  keyed_map caption_ID caption_Revision (st_Captions s) /\ keyed_map al_ID al_Revision (st_Alignments s) /\
  keyed_map clip_ID clip_Revision (st_Clips s) /\ keyed_map group_ID group_Revision (st_LinkGroups s).

#[export] Instance keyed_map_dec {A} (name : A -> string) revision m : Decision (keyed_map name revision m).
Proof. unfold keyed_map. apply _. Defined.
#[export] Instance state_keyed_dec s : Decision (state_keyed s).
Proof. unfold state_keyed. apply _. Defined.

Lemma keyed_entity {A} (name : A -> string) revision (m : gmap string A) (put : A -> NormalizedEditOperation) kind key o :
  keyed_map name revision m -> (forall v, op_key (put v) = (kind, name v) /\ op_revision (put v) = revision v) ->
  put <$> m !! key = Some o -> op_key o = (kind, key) /\ revision_ok (op_revision o).
Proof.
  intros Hm Hput Ho. apply fmap_Some in Ho as (v & Hv & ->). destruct (Hm _ _ Hv) as [Hn Hr].
  destruct (Hput v) as [-> ->]. by rewrite Hn.
Qed.

Lemma input_ok_intro input : state_keyed (in_State input) ->
  Forall (fun a => stored input (alloc_Kind a, alloc_ID a) = None) (in_Allocation input) -> input_ok input.
Proof.
  intros (K1 & K2 & K3 & K4 & K5 & K6 & K7 & K8 & K9 & K10) Hf. split; [|exact Hf].
  intros [kind key] o Ho. unfold stored, entity in Ho. cbn in Ho.
  repeat case_decide; try discriminate; subst kind.
  - unfold narrativeNode in Ho. cbn in Ho.
    destruct (st_Sections (in_State input) !! key) as [v|] eqn:E1; [by injection Ho as <-; destruct (K1 _ _ E1) as [<- ?]|].
    destruct (st_AuthoredTexts (in_State input) !! key) as [v|] eqn:E2; [by injection Ho as <-; destruct (K2 _ _ E2) as [<- ?]|].
    destruct (st_SourceExcerpts (in_State input) !! key) as [v|] eqn:E3; [by injection Ho as <-; destruct (K3 _ _ E3) as [<- ?]|].
    destruct (st_VisualIntents (in_State input) !! key) as [v|] eqn:E4; [by injection Ho as <-; destruct (K4 _ _ E4) as [<- ?]|].
    destruct (st_Notes (in_State input) !! key) as [v|] eqn:E5; [by injection Ho as <-; destruct (K5 _ _ E5) as [<- ?]|discriminate].
  - eapply (keyed_entity cor_ID); [exact K6| |exact Ho]; done.
  - eapply (keyed_entity caption_ID); [exact K7| |exact Ho]; done.
  - eapply (keyed_entity al_ID); [exact K8| |exact Ho]; done.
  - eapply (keyed_entity clip_ID); [exact K9| |exact Ho]; done.
  - eapply (keyed_entity group_ID); [exact K10| |exact Ho]; done.
Qed.

Lemma sample_input_ok : input_ok sample_input.
Proof.
  apply input_ok_intro.
  - apply (bool_decide_unpack _). vm_compute. exact I.
  - repeat constructor.
Qed.

(** ** The journal of a whole normalization *)

Lemma allocation_map_elem items : forall m m' local a,
  allocation_map m items = Ok m' -> m' !! local = Some a -> m !! local = Some a \/ a ∈ items.
Proof.
  induction items as [|x rest IH]; intros m m' local a Hm Ha; cbn in Hm; [by injection Hm as ->; left|].
  destruct (_ || _); [discriminate|]. destruct (IH _ _ _ _ Hm Ha) as [Hl|Hr]; [|by right; right].
  destruct (decide (local = alloc_Local x)) as [->|Hne].
  - rewrite lookup_insert_eq in Hl. injection Hl as <-. right. left.
  - rewrite lookup_insert_ne in Hl by congruence. by left.
Qed.

Lemma newEditNormalizer_run input b : newEditNormalizer input = Ok b ->
  n_input b = input /\ n_conditions b = condition_map (pi_Preconditions (in_Input input)) /\
  (forall k, entity b k = stored input k) /\ n_operations b = [] /\ n_inverse b = [] /\ n_changes b = [] /\
  n_clips b = st_Clips (in_State input) /\ n_captions b = st_Captions (in_State input) /\
  n_linkGroups b = st_LinkGroups (in_State input) /\ n_touched b = ∅.
Proof. intros H. unfold newEditNormalizer in H. apply bind_ok in H as (m & _ & [= <-]). done. Qed.

Lemma input_base input b : input_ok input -> newEditNormalizer input = Ok b -> base_ok b.
Proof.
  intros [Hk Hf] H. pose proof (newEditNormalizer_run _ _ H) as (Hi & _ & He & _). split.
  - by rewrite Hi.
  - intros k o Ho. rewrite He in Ho. by apply Hk.
  - intros local a Ha. rewrite He. unfold newEditNormalizer in H. apply bind_ok in H as (m & Hm & [= <-]).
    cbn in Ha. destruct (allocation_map_elem _ _ _ _ _ Hm Ha) as [Hx|Hx]; [by rewrite lookup_empty in Hx|].
    by apply (proj1 (Forall_forall _ _) Hf).
Qed.

Lemma journal_start b : newEditNormalizer (n_input b) = Ok b -> journal b b.
Proof.
  intros (_ & _ & _ & Ho & Hi & Hc & _)%newEditNormalizer_run. split.
  - done.
  - rewrite Ho, Hi, Hc. constructor.
  - rewrite Ho. constructor.
  - rewrite Ho. constructor.
  - intros k. by rewrite Ho.
Qed.

Section proposal_journal.
Context `{Platform} (b : editNormalizer) (Hb : base_ok b).

Lemma normalizeEntityOperation_extends o n u n' : normalizeEntityOperation o n = Ok (u, n') -> extends b n n'.
Proof.
  unfold normalizeEntityOperation. destruct (op_Type o); intros Hr;
    first [ by eapply insertNarrativeNode_extends | by eapply updateNarrativeNode_extends | by eapply moveNarrativeNode_extends
    | by eapply removeNarrativeNode_extends | by eapply addCaption_extends | by eapply updateCaption_extends
    | by eapply addClip_extends | by eapply moveClip_extends | by eapply trimClip_extends | by eapply splitClip_extends
    | by eapply setClipPlacement_extends | by eapply removeClip_extends | by eapply linkClips_extends
    | by eapply unlinkClips_extends | by eapply addTranscriptCorrection_extends
    | by eapply updateTranscriptCorrection_extends | by eapply insertSourceExcerpt_extends
    | by eapply deriveCaptions_extends | by eapply deriveRoughCut_extends | by mrun ].
Qed.

Lemma normalizeAlignmentOperation_extends o n u n' : normalizeAlignmentOperation o n = Ok (u, n') -> extends b n n'.
Proof.
  unfold normalizeAlignmentOperation. destruct (op_Type o); intros Hr;
    first [ by eapply bindAlignment_extends | by eapply remapAlignment_extends
    | by mrun | mrun; by eapply updateAlignment_extends ].
Qed.

(** The alignment pass changes no clip, caption or link group. *)
Definition same_timeline (n n' : editNormalizer) : Prop :=
  n_clips n' = n_clips n /\ n_captions n' = n_captions n /\ n_linkGroups n' = n_linkGroups n.

Lemma normalizeAlignmentOperation_timeline o n u n' :
  normalizeAlignmentOperation o n = Ok (u, n') -> same_timeline n n'.
Proof.
  unfold normalizeAlignmentOperation. destruct (op_Type o); intros Hr; try (mrun; done);
    unfold bindAlignment, remapAlignment, updateAlignment in Hr; mrun;
    try match goal with Hx : normalizeAlignmentTargets _ _ _ = _ |- _ => apply normalizeAlignmentTargets_run in Hx; subst end;
    mruns; done.
Qed.

Lemma normalizeAlignmentOperations_timeline n u n' :
  normalizeAlignmentOperations n = Ok (u, n') -> same_timeline n n'.
Proof.
  intros Hr. unfold normalizeAlignmentOperations, proposed_operations in Hr. mrun. revert Hr.
  generalize (pi_Operations (in_Input (n_input n))). intros ops. revert n.
  induction ops as [|o ops IH]; intros n Hr; cbn in Hr; mrun; [done|].
  apply IH in Hr as (E1 & E2 & E3). apply normalizeAlignmentOperation_timeline in Hrun as (F1 & F2 & F3).
  unfold same_timeline. by rewrite E1, E2, E3.
Qed.

Lemma validators_pure n u n' :
  validateLinkGroups n = Ok (u, n') \/ validateCaptionOverlaps n = Ok (u, n') \/
  validateClipOverlaps n = Ok (u, n') \/ validateAlignmentEffects n = Ok (u, n') -> n' = n.
Proof.
  unfold validateLinkGroups, validateCaptionOverlaps, validateClipOverlaps, validateAlignmentEffects.
  intros [Hr|[Hr|[Hr|Hr]]]; by mrun.
Qed.

(** What a successful normalization did: [m] is the normalizer after the entity
    operations, [n] after the alignment operations. *)
Lemma normalize_run u r : normalize b = Ok (u, r) -> exists m n parents tracks,
  normalizeEntityOperations b = Ok (tt, m) /\ extends b b m /\ extends b m n /\ same_timeline m n /\
  validateLinkGroups m = Ok (tt, m) /\ validateCaptionOverlaps m = Ok (tt, m) /\ validateClipOverlaps m = Ok (tt, m) /\
  validateAlignmentEffects n = Ok (tt, n) /\
  aggregate_changes EntityNarrativeNode (parent_entries n) = Ok parents /\
  aggregate_changes EntityTrack (map_to_list (n_trackChanges n)) = Ok tracks /\
  normalizeAlignmentOperations m = Ok (tt, n) /\
  r = on_inverse (@rev _) (on_changes (fun changes => sort_by2 ch_Kind ch_ID (changes ++ parents ++ tracks)) n).
Proof.
  intros Hr. unfold normalize, appendAggregateChanges in Hr. mrun.
  match goal with
  | H1 : validateLinkGroups ?m = Ok (_, ?m1), H2 : validateCaptionOverlaps ?m1 = Ok (_, ?m2),
    H3 : validateClipOverlaps ?m2 = Ok (_, ?m3), H4 : validateAlignmentEffects ?n = Ok (_, ?n1) |- _ =>
      assert (m1 = m) by eauto using validators_pure; subst m1;
      assert (m2 = m) by eauto using validators_pure; subst m2;
      assert (m3 = m) by eauto using validators_pure; subst m3;
      assert (n1 = n) by eauto using validators_pure; subst n1;
      exists m, n, v1, v2
  end.
  match goal with Hx : normalizeAlignmentOperations _ = _ |- _ => pose proof (normalizeAlignmentOperations_timeline _ _ _ Hx) end.
  split; [assumption|].
  unfold normalizeEntityOperations, normalizeAlignmentOperations, proposed_operations in *. mrun.
  split; [revert Hrun; apply (for_each_steps (extends b)); intros; by eapply normalizeEntityOperation_extends|].
  split; [revert Hrun3; apply (for_each_steps (extends b)); intros; by eapply normalizeAlignmentOperation_extends|].
  repeat (split; [assumption|]). done.
Qed.
End proposal_journal.

Lemma NormalizeEditProposal_run `{Platform} input p : input_ok input -> NormalizeEditProposal input = Ok p ->
  exists b m n parents tracks,
  validateNormalizationInput input = Ok tt /\ newEditNormalizer input = Ok b /\ base_ok b /\
  normalizeEntityOperations b = Ok (tt, m) /\ journal b m /\ journal b n /\ n_touched m ⊆ n_touched n /\ same_timeline m n /\
  validateLinkGroups m = Ok (tt, m) /\ validateCaptionOverlaps m = Ok (tt, m) /\ validateClipOverlaps m = Ok (tt, m) /\
  validateAlignmentEffects n = Ok (tt, n) /\
  aggregate_changes EntityNarrativeNode (parent_entries n) = Ok parents /\
  aggregate_changes EntityTrack (map_to_list (n_trackChanges n)) = Ok tracks /\
  p_Operations p = n_operations n /\ p_InversePreview p = rev (n_inverse n) /\
  p_Changes p = sort_by2 ch_Kind ch_ID (n_changes n ++ parents ++ tracks) /\
  normalizeAlignmentOperations m = Ok (tt, n).
Proof.
  intros Hin Hp. unfold NormalizeEditProposal in Hp. outcome_inv. destruct v1 as [u r]. simplify_eq.
  assert (Hb : base_ok v0) by (by eapply input_base).
  pose proof (newEditNormalizer_run _ _ Hs0) as (Hi & _).
  destruct (normalize_run v0 Hb u r Hs1) as (m & n & parents & tracks & Hent & He1 & He2 & Ht & G & C & K & A & P & T & N & ->).
  assert (Hj : journal v0 v0) by (apply journal_start; by rewrite Hi).
  destruct (He1 Hj) as (Hjm & _ & _). destruct (He2 Hjm) as (Hjn & Htn & _).
  exists v0, m, n, parents, tracks. destruct v. repeat (split; [assumption|]). done.
Qed.

(** ** Every change can be undone *)

Lemma Forall3_elem_l {A B C} (P : A -> B -> C -> Prop) la lb lc a : Forall3 P la lb lc -> a ∈ la ->
  exists x y, x ∈ lb /\ y ∈ lc /\ P a x y.
Proof.
  induction 1 as [|a' x y la lb lc Hp Hl IH]; [by intros ?%elem_of_nil|].
  intros [->|Hin]%elem_of_cons.
  - exists x, y. split; [left|]. split; [left|done].
  - destruct (IH Hin) as (x' & y' & ? & ? & ?). exists x', y'. split; [by right|]. split; [by right|done].
Qed.

Lemma journal_inverse_keys b ops inverse changes : Forall3 (entry_ok b) ops inverse changes -> op_key <$> inverse = op_key <$> ops.
Proof. induction 1 as [|o i c ops inverse changes Hok _ IH]; [done|]. cbn. rewrite IH. f_equal. apply Hok. Qed.

(** C1: A normalized proposal records the whole edit and how to take it back.
    Applying its operations to the stored entities writes each operation's
    entity and leaves every other entity alone; applying the inverse preview
    after it restores each entity that existed, with only its revision advanced
    by two, and withdraws each entity that was created. *)
Theorem proposal_undo `{Platform} input p : input_ok input -> NormalizeEditProposal input = Ok p ->
  let edited := replay (stored input) (p_Operations p) in
  let undone := replay edited (p_InversePreview p) in
  NoDup (op_key <$> p_Operations p) /\
  (forall k, k ∉ op_key <$> p_Operations p -> edited k = stored input k /\ undone k = stored input k) /\
  (forall o, o ∈ p_Operations p ->
    edited (op_key o) = Some o /\
    undone (op_key o) =
      match stored input (op_key o) with
      | Some old => Some (at_revision (op_revision old + 2) old)
      | None => Some (retired 2 o)
      end).
Proof.
  intros Hin Hp. destruct (NormalizeEditProposal_run _ _ Hin Hp) as
    (b & m & n & parents & tracks & _ & Hb & _ & _ & _ & Hj & _ & _ & _ & _ & _ & _ & _ & _ & -> & -> & _).
  pose proof (newEditNormalizer_run _ _ Hb) as (_ & _ & He & _).
  pose proof (j_entries _ _ Hj) as Hall. pose proof (j_once _ _ Hj) as Hnd.
  pose proof (journal_inverse_keys _ _ _ _ Hall) as Hkeys. cbn.
  assert (Hperm : rev (n_inverse n) ≡ₚ n_inverse n) by (symmetry; apply Permutation_rev).
  split; [done|]. split.
  - intros k Hk. rewrite !replay_absent; [done|done|by rewrite Hperm, Hkeys|done].
  - intros o Ho. split; [by apply replay_present|].
    destruct (Forall3_elem_l _ _ _ _ _ Hall Ho) as (i & c & Hi & _ & Hok).
    destruct Hok as (Hki & _ & _ & _ & _ & Hrest). rewrite <- Hki. rewrite He, <- Hki in Hrest.
    rewrite replay_present; [|by rewrite Hperm, Hkeys|by rewrite Hperm].
    destruct (stored input (op_key i)); [by destruct Hrest as (_ & _ & -> & _)|by destruct Hrest as (_ & _ & ->)].
Qed.

(** The first operation of the sample withdraws the clip that is split. *)
Definition sample_split_clip : NormalizedEditOperation :=
  PutClip (clip_tombstoned true (clip_at_revision 2 (sample_clip "30" 0 10))).

Lemma sample_split_recorded : sample_split_clip ∈ p_Operations sample_proposal.
Proof. apply list_elem_of_lookup. exists 0%nat. vm_compute. reflexivity. Qed.

Lemma sample_split_stored : stored sample_input (op_key sample_split_clip) = Some (PutClip (sample_clip "30" 0 10)).
Proof. vm_compute. reflexivity. Qed.

Lemma proposal_undo_witness :
  replay (replay (stored sample_input) (p_Operations sample_proposal)) (p_InversePreview sample_proposal) (op_key sample_split_clip) =
    Some (PutClip (clip_at_revision 3 (sample_clip "30" 0 10))).
Proof.
  destruct (@proposal_undo sample_platform _ _ sample_input_ok sample_normalizes) as (_ & _ & H).
  destruct (H _ sample_split_recorded) as [_ ->]. rewrite sample_split_stored. reflexivity.
Defined.

(** ** Optimistic concurrency *)

Lemma condition_map_elem items key r : condition_map items !! key = Some r ->
  exists p, p ∈ items /\ entityKey (pre_Kind p) (pre_ID p) = key /\ pre_Revision p = r.
Proof.
  unfold condition_map. induction items as [|p items IH] using rev_ind; [cbn; by rewrite lookup_empty|].
  rewrite foldl_app. cbn. destruct (decide (key = entityKey (pre_Kind p) (pre_ID p))) as [->|Hne].
  - rewrite lookup_insert_eq. intros [= <-]. exists p. split; [set_solver|done].
  - rewrite lookup_insert_ne by congruence. intros (q & Hq & Hrest)%IH. exists q. split; [apply elem_of_app; by left|exact Hrest].
Qed.

Lemma valid_preconditions_kind seen items p : valid_preconditions seen items = true -> p ∈ items ->
  nul_free (pre_Kind p) = true /\ 1 <= pre_Revision p.
Proof.
  revert seen. induction items as [|q items IH]; intros seen Hv Hin; [by apply elem_of_nil in Hin|].
  cbn in Hv. bool_prop. apply elem_of_cons in Hin as [->|Hin]; [|by eapply IH]. split; [|done].
  unfold validateEntityID in *. destruct (known_kind (pre_Kind q)) eqn:E; [|discriminate].
  unfold known_kind in E. apply bool_decide_eq_true in E.
  repeat (apply elem_of_cons in E as [->|E]; [done|]). by apply elem_of_nil in E.
Qed.

Lemma validateNormalizationInput_preconditions `{Platform} input : validateNormalizationInput input = Ok tt ->
  valid_preconditions ∅ (pi_Preconditions (in_Input input)) = true.
Proof.
  intros Hv. unfold validateNormalizationInput, validateEditProposeInput in Hv. outcome_inv. done.
Qed.

(** C2: Optimistic concurrency.  An entity that
    exists is written only when the request names, as a precondition, exactly
    the revision it is stored at, and it is written at the next revision; an
    entity that does not exist is written at revision one.  The recorded change
    says the same. *)
Theorem proposal_concurrency `{Platform} input p o : input_ok input -> NormalizeEditProposal input = Ok p -> o ∈ p_Operations p ->
  match stored input (op_key o) with
  | Some old =>
      mkPrecondition (op_kind o) (op_id o) (op_revision old) ∈ p_Preconditions p /\
      op_revision o = op_revision old + 1 /\
      mkChange (op_kind o) (op_id o) (Some (op_revision old)) (op_revision o) (op_tombstoned o) ∈ p_Changes p
  | None =>
      op_revision o = 1 /\ mkChange (op_kind o) (op_id o) None 1 (op_tombstoned o) ∈ p_Changes p
  end.
Proof.
  intros Hin Hp Ho. destruct (NormalizeEditProposal_run _ _ Hin Hp) as
    (b & m & n & parents & tracks & Hv & Hb & _ & _ & _ & Hj & _ & _ & _ & _ & _ & _ & _ & _ & Hops & _ & Hch & _).
  pose proof (newEditNormalizer_run _ _ Hb) as (_ & Hcond & He & _). rewrite Hops in Ho.
  destruct (Forall3_elem_l _ _ _ _ _ (j_entries _ _ Hj) Ho) as (i & c & _ & Hc & _ & Hkind & Hid & Hafter & Hto & Hrest).
  assert (Hcin : c ∈ p_Changes p) by (rewrite Hch, sort_by2_perm; set_solver).
  destruct c as [kind id before after dead]. cbn in *. subst kind id after dead. rewrite He in Hrest.
  destruct (stored input (op_key o)) as [old|].
  - destruct Hrest as (-> & Hrev & _ & Hpre). split; [|done].
    rewrite Hcond in Hpre. apply condition_map_elem in Hpre as (q & Hq & Hkey & Hqr).
    destruct (valid_preconditions_kind _ _ _ (validateNormalizationInput_preconditions _ Hv) Hq) as [Hnul _].
    apply (key_text_inj (pre_Kind q, pre_ID q) (op_key o)) in Hkey as [= <- <-]; [|done|apply op_kind_nul_free].
    assert (Hpp : p_Preconditions p = sort_by2 pre_Kind pre_ID (pi_Preconditions (in_Input input))).
    { unfold NormalizeEditProposal in Hp. outcome_inv. destruct v1. by simplify_eq. }
    rewrite Hpp, sort_by2_perm, <- Hqr. by destruct q.
  - destruct Hrest as (-> & Hrev & _). rewrite Hrev in *. done.
Qed.

Lemma proposal_concurrency_witness :
  mkPrecondition EntityClip (sample_id "30") 1 ∈ p_Preconditions sample_proposal.
Proof.
  pose proof (@proposal_concurrency sample_platform _ _ _ sample_input_ok sample_normalizes sample_split_recorded) as H.
  rewrite sample_split_stored in H. exact (proj1 H).
Defined.

(** ** The edited timeline *)

(** The edited store is the last normalizer's entities. *)
Lemma replay_journal b n input : journal b n -> (forall k, entity b k = stored input k) ->
  forall k, replay (stored input) (n_operations n) k = entity n k.
Proof. intros Hj He k. by rewrite replay_find, (j_entity _ _ Hj), He. Qed.

Definition edited (input : NormalizeEditInput) (p : EditProposal) : store := replay (stored input) (p_Operations p).

(** The stored timeline the caller loads is sound, and the request's times fit
    their types. *)
Record timeline_ok (input : NormalizeEditInput) : Prop := mkTimelineOk {
  timeline_media : media_ok (in_State input);
  timeline_times : Forall times_typed (pi_Operations (in_Input input));
  timeline_clips : forall id c, st_Clips (in_State input) !! id = Some c -> clip_wf (in_State input) c }.

(** The clips of the edited project, as a map *)
Lemma edited_clips `{Platform} input p : input_ok input -> timeline_ok input -> NormalizeEditProposal input = Ok p ->
  exists b m n, newEditNormalizer input = Ok b /\ journal b m /\ journal b n /\ same_timeline m n /\
    n_input m = input /\ clips_wf m /\ p_Operations p = n_operations n /\
    validateClipOverlaps m = Ok (tt, m) /\ validateLinkGroups m = Ok (tt, m) /\ validateCaptionOverlaps m = Ok (tt, m) /\
    (forall k, edited input p k = entity n k).
Proof.
  intros Hin [Hmedia Htimes Hclips] Hp. destruct (NormalizeEditProposal_run _ _ Hin Hp) as
    (b & m & n & parents & tracks & Hv & Hb & Hok & Hent & Hjm & Hj & _ & Hsame & HG & HC & HK & _ & _ & _ & Hops & _).
  pose proof (newEditNormalizer_run _ _ Hb) as (Hi & _ & He & _ & _ & _ & Hc & _).
  exists b, m, n. split; [done|]. do 3 (split; [done|]). destruct (j_request _ _ Hjm) as (Him & _).
  split; [congruence|]. split.
  - eapply normalizeEntityOperations_keeps; [| | |exact Hent]; rewrite ?Hi; [done| |].
    + apply Forall_and. split; [done|by apply validated_operations].
    + intros id c Hcl. rewrite Hc in Hcl. rewrite Hi. split; [|by eapply Hclips].
      assert (stored input (EntityClip, id) = Some (PutClip c)) as Hs by (rewrite <- He, entity_clip, Hc, Hcl; done).
      by destruct (input_keyed _ Hin _ _ Hs) as [[= Hid] _].
  - do 4 (split; [done|]). intros k. unfold edited. rewrite Hops. by eapply replay_journal.
Qed.

(** C4: Every clip of the edited project is sound when every stored clip is: it
    plays a stretch that its source stream covers, at the same duration on its
    track, on a track of the stream's kind, from a start that is not negative. *)
Theorem proposal_clips_sound `{Platform} input p id c : input_ok input -> timeline_ok input ->
  NormalizeEditProposal input = Ok p -> edited input p (EntityClip, id) = Some (PutClip c) ->
  clip_ID c = id /\ clip_wf (in_State input) c.
Proof.
  intros Hin Ht Hp Hc. destruct (edited_clips _ _ Hin Ht Hp) as
    (b & m & n & _ & _ & _ & (Hclips & _) & Hi & Hw & _ & _ & _ & _ & Hed).
  rewrite Hed, entity_clip, Hclips in Hc. apply fmap_Some in Hc as (c' & Hc & [= <-]). rewrite <- Hi. by apply Hw.
Qed.

Lemma small_range start duration : 0 <= start <= 1000 -> 1 <= duration <= 1000 -> range_typed (seconds start duration).
Proof. intros. split; split; cbn; unfold MinInt64, MaxInt64, MinInt32, MaxInt32; lia. Qed.

(** A clip whose ranges pass the checks of the normalizer *)
Lemma clip_wf_intro s c track stream :
  range_typed (clip_SourceRange c) -> range_typed (clip_TimelineRange c) -> descriptor_typed (stream_Descriptor stream) ->
  st_Tracks s !! clip_TrackID c = Some track -> st_SourceStreams s !! clip_SourceStreamID c = Some stream ->
  trackAcceptsStream track stream = true -> sourceRangeWithin (clip_SourceRange c) (stream_Descriptor stream) = true ->
  tr_Duration (clip_SourceRange c) = tr_Duration (clip_TimelineRange c) ->
  valid_time (tr_Start (clip_TimelineRange c)) = true -> IsNegative (tr_Start (clip_TimelineRange c)) = false -> clip_wf s c.
Proof.
  intros Ts [Tt _] Td Ht Hs Ha Hw Hd Hv Hn. destruct (sourceRangeWithin_ok _ _ Ts Td Hw) as [R C].
  pose proof (valid_time_ok _ Tt Hv) as V. destruct (range_span _ R) as (_ & Vd & P). rewrite Hd in Vd, P.
  split; [exact R|split; [exact V|split; [exact Vd|exact P]]|exact Hd|apply nonnegative_Q; assumption|]. exists track, stream. auto.
Qed.

Lemma sample_descriptor_typed : descriptor_typed (stream_Descriptor sample_stream).
Proof. split; [exact I|]. split; cbn; unfold MinInt64, MaxInt64, MinInt32, MaxInt32; lia. Qed.

Lemma sample_clip_wf tail start duration : 0 <= start <= 1000 -> 1 <= duration <= 1000 ->
  sourceRangeWithin (seconds start duration) (stream_Descriptor sample_stream) = true -> valid_time (mkTime start 1) = true ->
  clip_wf sample_state (sample_clip tail start duration).
Proof.
  intros Hs Hd Hw Hv. apply (clip_wf_intro _ _ sample_track sample_stream);
    [by apply small_range|by apply small_range|apply sample_descriptor_typed|vm_compute; reflexivity..|exact Hw|reflexivity|exact Hv|].
  cbn. unfold IsNegative. cbn. apply Z.ltb_ge. lia.
Qed.

Lemma sample_clips id c : st_Clips sample_state !! id = Some c ->
  c = sample_clip "30" 0 10 \/ c = sample_clip "31" 10 5 \/ c = sample_clip "32" 15 5.
Proof.
  cbn [sample_state st_Clips]. intros Hc. apply lookup_insert_Some in Hc as [[_ <-]|[_ Hc]]; [by left|].
  apply lookup_insert_Some in Hc as [[_ <-]|[_ Hc]]; [by right; left|]. apply lookup_singleton_Some in Hc as [_ <-]. by right; right.
Qed.

Lemma sample_timeline_ok : timeline_ok sample_input.
Proof.
  split; [split|..].
  - cbn [sample_input in_State sample_state st_Tracks]. intros id t Ht. apply lookup_insert_Some in Ht as [[<- <-]|[_ Ht]]; [done|].
    by apply lookup_singleton_Some in Ht as [<- <-].
  - cbn [sample_input in_State sample_state st_SourceStreams]. intros id t Ht. apply lookup_singleton_Some in Ht as [<- <-].
    split; [done|apply sample_descriptor_typed].
  - cbn [sample_input in_State sample_state st_SourceExcerpts]. intros id e He. by rewrite lookup_empty in He.
  - repeat constructor; cbn; unfold MinInt64, MaxInt64, MinInt32, MaxInt32; lia.
  - intros id c Hc. destruct (sample_clips _ _ Hc) as [->|[->| ->]]; apply sample_clip_wf; (lia || (vm_compute; reflexivity)).
Qed.

(** The left half of the clip that is split *)
Definition sample_left : ClipState :=
  mkClip (sample_id "40") 1 (sample_id "03") (sample_id "10") (sample_id "21") (sample_id "20")
    (seconds 0 4) (seconds 0 4) true None None false.

Lemma proposal_clips_sound_witness : clip_wf sample_state sample_left.
Proof.
  refine (proj2 (@proposal_clips_sound sample_platform sample_input sample_proposal (sample_id "40") sample_left
    sample_input_ok sample_timeline_ok sample_normalizes _)). vm_compute. reflexivity.
Defined.

(** ** Nothing overlaps *)

Lemma touched_ids_elem kind id touched : nul_free kind = true -> entityKey kind id ∈ touched -> id ∈ touched_ids kind touched.
Proof.
  intros Hk Hin. unfold touched_ids. apply list_elem_of_omap. exists (entityKey kind id).
  split; [by apply elem_of_elements|]. rewrite splitEntityKey_key by done. by rewrite bool_decide_eq_true_2.
Qed.

(** An entity that a normalizer changed was touched. *)
Lemma changed_touched b n k : journal b n -> nul_free k.1 = true -> entity n k <> entity b k -> key_text k ∈ n_touched n.
Proof.
  intros Hj Hk Hne. destruct (decide (key_text k ∈ n_touched n)) as [|Hno]; [done|].
  by destruct (journal_untouched _ _ _ Hj Hk Hno) as [_ ?].
Qed.

Lemma rangesOverlap_sym l r : rangesOverlap l r = rangesOverlap r l.
Proof.
  unfold rangesOverlap. destruct (End l), (End r); try done.
  repeat case_match; try done; simplify_eq; apply andb_comm.
Qed.

(** No two live clips of a track share an instant. *)
Definition clips_apart (s : store) : Prop :=
  forall id1 id2 c1 c2, id1 <> id2 -> s (EntityClip, id1) = Some (PutClip c1) -> s (EntityClip, id2) = Some (PutClip c2) ->
  clip_Tombstoned c1 = false -> clip_Tombstoned c2 = false -> clip_TrackID c1 = clip_TrackID c2 ->
  disjoint_ranges (clip_TimelineRange c1) (clip_TimelineRange c2).

Lemma validateClipOverlaps_touched n id1 id2 c1 c2 : validateClipOverlaps n = Ok (tt, n) ->
  entityKey EntityClip id1 ∈ n_touched n -> id1 <> id2 -> n_clips n !! id1 = Some c1 -> n_clips n !! id2 = Some c2 ->
  clip_Tombstoned c1 = false -> clip_Tombstoned c2 = false -> clip_TrackID c1 = clip_TrackID c2 ->
  rangesOverlap (clip_TimelineRange c1) (clip_TimelineRange c2) = false.
Proof.
  intros Hr Ht Hne H1 H2 L1 L2 Htrack. unfold validateClipOverlaps in Hr. mrun.
  rewrite forallb_forall in Hr.
  assert (Hin : In id1 (touched_ids EntityClip (n_touched n))) by (apply list_elem_of_In, touched_ids_elem; [done|exact Ht]).
  specialize (Hr _ Hin). cbn in Hr. unfold at_key in Hr. rewrite H1 in Hr. cbn in Hr. rewrite L1 in Hr. cbn in Hr.
  rewrite forallb_forall in Hr. specialize (Hr (id2, c2)). cbn beta iota in Hr.
  rewrite L2, (bool_decide_eq_false_2 (id2 = id1)), (bool_decide_eq_false_2 (clip_TrackID c2 <> clip_TrackID c1)) in Hr by congruence.
  cbn in Hr. apply negb_true_iff, Hr, list_elem_of_In. by apply elem_of_map_to_list.
Qed.

Lemma disjoint_sym l r : disjoint_ranges l r -> disjoint_ranges r l.
Proof. unfold disjoint_ranges. tauto. Qed.

(** C3: If no two live clips of a track overlap before a proposal, none do
    after it: whatever clips the request adds, moves, trims, splits, removes or
    links, two live clips of one track never share an instant. *)
Theorem proposal_clips_apart `{Platform} input p : input_ok input -> timeline_ok input ->
  NormalizeEditProposal input = Ok p -> clips_apart (stored input) -> clips_apart (edited input p).
Proof.
  intros Hin Ht Hp Hbefore id1 id2 c1 c2 Hne H1 H2 L1 L2 Htrack.
  destruct (edited_clips _ _ Hin Ht Hp) as (b & m & n & Hb & Hj & _ & (Hclips & _) & Hi & Hw & _ & HK & _ & _ & Hed).
  pose proof (newEditNormalizer_run _ _ Hb) as (_ & _ & He & _).
  assert (Hm : forall id c, edited input p (EntityClip, id) = Some (PutClip c) ->
    n_clips m !! id = Some c /\ entity m (EntityClip, id) = Some (PutClip c)).
  { intros id c Hc. rewrite Hed, !entity_clip, Hclips in Hc. apply fmap_Some in Hc as (c' & Hc & [= <-]).
    split; [exact Hc|]. by rewrite entity_clip, Hc. }
  destruct (Hm _ _ H1) as [M1 E1], (Hm _ _ H2) as [M2 E2].
  pose proof (wf_timeline _ _ (proj2 (Hw _ _ M1))) as S1. pose proof (wf_timeline _ _ (proj2 (Hw _ _ M2))) as S2.
  destruct (decide (entityKey EntityClip id1 ∈ n_touched m)) as [T1|T1].
  { apply (rangesOverlap_disjoint _ _ S1 S2). by eapply validateClipOverlaps_touched. }
  destruct (decide (entityKey EntityClip id2 ∈ n_touched m)) as [T2|T2].
  { apply disjoint_sym, (rangesOverlap_disjoint _ _ S2 S1). by eapply validateClipOverlaps_touched; [..|symmetry]. }
  destruct (journal_untouched _ _ (EntityClip, id1) Hj eq_refl T1) as [_ B1].
  destruct (journal_untouched _ _ (EntityClip, id2) Hj eq_refl T2) as [_ B2].
  eapply (Hbefore id1 id2); [exact Hne|rewrite <- He, <- B1; exact E1|rewrite <- He, <- B2; exact E2|done|done|done].
Qed.

(** A stored clip of the sample *)
Lemma sample_stored_clip id c : stored sample_input (EntityClip, id) = Some (PutClip c) ->
  clip_ID c = id /\ (c = sample_clip "30" 0 10 \/ c = sample_clip "31" 10 5 \/ c = sample_clip "32" 15 5).
Proof.
  intros Hc. split; [by destruct (input_keyed _ sample_input_ok _ _ Hc) as [[= Hid] _]|].
  unfold stored in Hc. rewrite entity_clip in Hc. apply fmap_Some in Hc as (c' & Hc & [= <-]). by eapply sample_clips.
Qed.

Lemma sample_clips_apart : clips_apart (stored sample_input).
Proof.
  intros id1 id2 c1 c2 Hne H1 H2 _ _ _.
  destruct (sample_stored_clip _ _ H1) as [<- C1], (sample_stored_clip _ _ H2) as [<- C2].
  clear H1 H2. unfold disjoint_ranges, start_Q, end_Q.
  destruct C1 as [->|[->| ->]], C2 as [->|[->| ->]];
    first [ left; vm_compute; discriminate | right; vm_compute; discriminate | exfalso; apply Hne; reflexivity ].
Qed.

(** The halves of the split clip, side by side *)
Lemma proposal_clips_apart_witness :
  disjoint_ranges (clip_TimelineRange sample_left) (seconds 4 6).
Proof.
  refine (@proposal_clips_apart sample_platform sample_input sample_proposal sample_input_ok sample_timeline_ok sample_normalizes
    sample_clips_apart (sample_id "40") (sample_id "41") sample_left
    (clip_over (seconds 4 6) (seconds 4 6) (clip_named (sample_id "41") sample_left)) _ _ _ _ _ _);
    (vm_compute; reflexivity) || done.
Defined.

(** No two live captions of a track overlap. *)
Definition captions_apart (s : store) : Prop :=
  forall id1 id2 c1 c2, id1 <> id2 -> s (EntityCaption, id1) = Some (PutCaption c1) -> s (EntityCaption, id2) = Some (PutCaption c2) ->
  caption_Tombstoned c1 = false -> caption_Tombstoned c2 = false -> caption_TrackID c1 = caption_TrackID c2 ->
  rangesOverlap (caption_Range c1) (caption_Range c2) = false.

Lemma validateCaptionOverlaps_touched n id1 id2 c1 c2 : validateCaptionOverlaps n = Ok (tt, n) ->
  entityKey EntityCaption id1 ∈ n_touched n -> id1 <> id2 -> n_captions n !! id1 = Some c1 -> n_captions n !! id2 = Some c2 ->
  caption_Tombstoned c1 = false -> caption_Tombstoned c2 = false -> caption_TrackID c1 = caption_TrackID c2 ->
  rangesOverlap (caption_Range c1) (caption_Range c2) = false.
Proof.
  intros Hr Ht Hne H1 H2 L1 L2 Htrack. unfold validateCaptionOverlaps in Hr. mrun.
  rewrite forallb_forall in Hr.
  assert (Hin : In id1 (touched_ids EntityCaption (n_touched n))) by (apply list_elem_of_In, touched_ids_elem; [done|exact Ht]).
  specialize (Hr _ Hin). cbn in Hr. unfold at_key in Hr. rewrite H1 in Hr. cbn in Hr. rewrite L1 in Hr. cbn in Hr.
  rewrite forallb_forall in Hr. specialize (Hr (id2, c2)). cbn beta iota in Hr.
  rewrite L2, (bool_decide_eq_false_2 (id2 = id1)), (bool_decide_eq_false_2 (caption_TrackID c2 <> caption_TrackID c1)) in Hr by congruence.
  cbn in Hr. apply negb_true_iff, Hr, list_elem_of_In. by apply elem_of_map_to_list.
Qed.

(** If no two live captions of a track overlap before a proposal, none do
    after it, whether captions are added, moved in time, removed or derived from
    a transcript. *)
Theorem proposal_captions_apart `{Platform} input p : input_ok input ->
  NormalizeEditProposal input = Ok p -> captions_apart (stored input) -> captions_apart (edited input p).
Proof.
  intros Hin Hp Hbefore id1 id2 c1 c2 Hne H1 H2 L1 L2 Htrack.
  destruct (NormalizeEditProposal_run _ _ Hin Hp) as
    (b & m & n & parents & tracks & _ & Hb & _ & _ & Hj & Hjn & _ & (_ & Hcaps & _) & _ & HC & _ & _ & _ & _ & Hops & _).
  pose proof (newEditNormalizer_run _ _ Hb) as (_ & _ & He & _).
  assert (Hm : forall id c, edited input p (EntityCaption, id) = Some (PutCaption c) ->
    n_captions m !! id = Some c /\ entity m (EntityCaption, id) = Some (PutCaption c)).
  { intros id c Hc. unfold edited in Hc. rewrite Hops, (replay_journal b n input Hjn He), !entity_caption, Hcaps in Hc.
    apply fmap_Some in Hc as (c' & Hc & [= <-]). split; [exact Hc|]. by rewrite entity_caption, Hc. }
  destruct (Hm _ _ H1) as [M1 E1], (Hm _ _ H2) as [M2 E2].
  destruct (decide (entityKey EntityCaption id1 ∈ n_touched m)) as [T1|T1]; [by eapply validateCaptionOverlaps_touched|].
  destruct (decide (entityKey EntityCaption id2 ∈ n_touched m)) as [T2|T2].
  { rewrite rangesOverlap_sym. by eapply validateCaptionOverlaps_touched; [..|symmetry]. }
  destruct (journal_untouched _ _ (EntityCaption, id1) Hj eq_refl T1) as [_ B1].
  destruct (journal_untouched _ _ (EntityCaption, id2) Hj eq_refl T2) as [_ B2].
  eapply (Hbefore id1 id2); [exact Hne|rewrite <- He, <- B1; exact E1|rewrite <- He, <- B2; exact E2|done|done|done].
Qed.

Lemma proposal_captions_apart_witness : captions_apart (edited sample_input sample_proposal).
Proof.
  apply (@proposal_captions_apart sample_platform sample_input sample_proposal sample_input_ok sample_normalizes).
  intros id1 id2 c1 c2 _ H1. unfold stored in H1. rewrite entity_caption in H1.
  change (n_captions (opening sample_input)) with (∅ : gmap string CaptionState) in H1. by rewrite lookup_empty in H1.
Defined.

(** ** Link groups *)

(** C5: Every link group a proposal writes is consistent with the edited clips:
    a live group links two to sixty-four live clips, and no live clip names a
    group that is withdrawn. *)
Theorem proposal_link_groups `{Platform} input p : input_ok input -> NormalizeEditProposal input = Ok p ->
  exists clips : gmap string ClipState,
    (forall id, edited input p (EntityClip, id) = PutClip <$> clips !! id) /\
    (forall g, PutLinkGroup g ∈ p_Operations p ->
      if group_Tombstoned g then live_members clips (group_ID g) = 0%nat
      else (2 <= live_members clips (group_ID g) <= 64)%nat).
Proof.
  intros Hin Hp. destruct (NormalizeEditProposal_run _ _ Hin Hp) as
    (b & m & n & parents & tracks & _ & Hb & _ & _ & Hj & Hjn & _ & (Hclips & _ & Hgroups) & HG & _ & _ & _ & _ & _ & Hops & _).
  pose proof (newEditNormalizer_run _ _ Hb) as (_ & _ & He & _).
  exists (n_clips m). split.
  { intros id. unfold edited. by rewrite Hops, (replay_journal b n input Hjn He), entity_clip, Hclips. }
  intros g Hg. rewrite Hops in Hg.
  assert (Hent : entity n (EntityLinkGroup, group_ID g) = Some (PutLinkGroup g)).
  { pose proof (find_op_in _ (PutLinkGroup g) (j_once _ _ Hjn) Hg) as Hf. unfold op_key in Hf. cbn in Hf.
    by rewrite (j_entity _ _ Hjn), Hf. }
  rewrite entity_group, Hgroups in Hent. apply fmap_Some in Hent as (g' & Hm & [= <-]).
  destruct (decide (entityKey EntityLinkGroup (group_ID g) ∈ n_touched m)) as [Ht|Ht].
  - unfold validateLinkGroups in HG. mrun. rewrite forallb_forall in HG.
    specialize (HG (group_ID g)). unfold at_key in HG. rewrite Hm in HG. cbn [default from_option] in HG.
    assert (Hin' : In (group_ID g) (touched_ids EntityLinkGroup (n_touched m))) by (apply list_elem_of_In, touched_ids_elem; [done|exact Ht]).
    specialize (HG Hin'). unfold id in HG. destruct (group_Tombstoned g); cbn [andb orb negb] in HG; bool_prop.
    + by apply Nat.eqb_eq.
    + repeat match goal with Hx : (_ <? _)%nat = false |- _ => apply Nat.ltb_ge in Hx end. lia.
  - destruct (journal_untouched _ _ (EntityLinkGroup, group_ID g) Hj eq_refl Ht) as [_ B].
    rewrite entity_group, Hm in B. cbn in B.
    destruct (Forall3_elem_l _ _ _ _ _ (j_entries _ _ Hjn) Hg) as (i & c & _ & _ & _ & _ & _ & _ & _ & Hrest).
    unfold op_key in Hrest. cbn [op_kind op_id] in Hrest. rewrite <- B in Hrest. destruct Hrest as (_ & Hrev & _). cbn in Hrev. lia.
Qed.

Lemma proposal_link_groups_witness :
  exists clips : gmap string ClipState,
    (forall id, edited sample_input sample_proposal (EntityClip, id) = PutClip <$> clips !! id) /\
    (2 <= live_members clips (sample_id "42") <= 64)%nat.
Proof.
  destruct (@proposal_link_groups sample_platform _ _ sample_input_ok sample_normalizes) as (clips & Hc & Hg).
  exists clips. split; [exact Hc|].
  apply (Hg (mkGroup (sample_id "42") 1 (sample_id "03") false)).
  apply list_elem_of_lookup. exists 3%nat. vm_compute. reflexivity.
Defined.
