(* ===== verification/EditTree.v ===== *)
(** The narrative tree.

    Sections form a forest under their parents, every live node hangs below a
    live section, and the child counts that guard removals stay exact.  The walk
    of [sectionDescendsFrom] decides descent, and a normalized proposal keeps
    the whole shape. *)
From stdpp Require Import base list strings gmap sorting relations.
From Stdlib Require Import ZArith Lia Ascii.
From S2P Require Import Prelude GoText Exact Identity Canonical EditModel Timeline EditState EditClips.
From S2P Require Import EditNarrative EditCaptions EditTranscript EditDerive EditValidate EditNormalize.
From S2P Require Import EditEffects EditJournal EditJournalOps EditClipInvariant EditProposals.
Open Scope Z_scope.

(** ** Descent *)

Abbreviation section_map := (gmap string NarrativeSectionState).

(** [child] is a section whose parent is [parent]. *)
Definition parent_of (m : section_map) (child parent : string) : Prop :=
  exists s, m !! child = Some s /\ sec_ParentID s = Some parent.
(** The ancestors of a section, itself included *)
Definition descends (m : section_map) : relation string := rtc (parent_of m).

(** Following parents from a section ends at a section without one. *)
Inductive rooted (m : section_map) : string -> Prop :=
| rooted_top id s : m !! id = Some s -> sec_ParentID s = None -> rooted m id
| rooted_below id parent : parent_of m id parent -> rooted m parent -> rooted m id.

Lemma parent_of_unique m x y z : parent_of m x y -> parent_of m x z -> y = z.
Proof. intros (s & H1 & H2) (t & H3 & H4). congruence. Qed.

Lemma rooted_descends m x y : rooted m x -> descends m x y -> rooted m y.
Proof.
  intros Hr Hd. induction Hd as [|x z y Hxz _ IH]; [done|]. apply IH. destruct Hr as [x s Hs Hp|x p Hp Hr].
  - destruct Hxz as (s' & ? & ?). congruence.
  - by rewrite (parent_of_unique _ _ _ _ Hxz Hp).
Qed.

Lemma tc_first {A} (R : relation A) x z : tc R x z -> exists y, R x y /\ rtc R y z.
Proof. destruct 1 as [x z H|x y z H1 H2]; [exists z|exists y]; (split; [done|]); [constructor|by apply tc_rtc]. Qed.

(** No section is its own proper ancestor. *)
Lemma rooted_acyclic m x : rooted m x -> ~ tc (parent_of m) x x.
Proof.
  induction 1 as [id s Hs Hp|id p Hp Hr IH]; intros (y & Hy & Hd)%tc_first.
  - destruct Hy as (s' & ? & ?). congruence.
  - apply IH. rewrite (parent_of_unique _ _ _ _ Hy Hp) in Hd. eapply tc_rtc_l; [exact Hd|by apply tc_once].
Qed.

(** The walk stops at the ancestor it looks for, at a section it met before, or
    at the top; one step per section is enough to stop. *)
Lemma descends_loop_enough m ancestor : forall fuel seen current,
  seen ⊆ dom m -> (1 + size m <= fuel + size seen)%nat -> (1 <= fuel)%nat ->
  descends_loop fuel m seen current ancestor = true ->
  descends m current ancestor \/ (exists x, x ∈ seen /\ descends m current x) \/
  (exists x, descends m current x /\ tc (parent_of m) x x).
Proof.
  induction fuel as [|fuel IH]; intros seen current Hsub Hsize Hf Hrun; [lia|]. cbn in Hrun.
  destruct (IsZero current); [discriminate|]. destruct (bool_decide (current = ancestor)) eqn:Ha; [apply bool_decide_eq_true in Ha as ->; left; constructor|].
  destruct (bool_decide (current ∈ seen)) eqn:Hs; [apply bool_decide_eq_true in Hs|apply bool_decide_eq_false in Hs];
    [right; left; exists current; split; [done|constructor]|].
  destruct (m !! current) as [s|] eqn:E; [|discriminate]. destruct (sec_ParentID s) as [p|] eqn:Ep; [|discriminate].
  assert (Hp : parent_of m current p) by (by exists s).
  assert (Hin : current ∈ dom m) by (apply elem_of_dom; eauto).
  assert (Hsub' : {[ current ]} ∪ seen ⊆ dom m) by set_solver.
  assert (Hcard : size ({[ current ]} ∪ seen) = S (size seen)) by (rewrite size_union, size_singleton by set_solver; lia).
  pose proof (subseteq_size _ _ Hsub') as Hle. rewrite Hcard, size_dom in Hle.
  destruct (IH _ _ Hsub' ltac:(lia) ltac:(lia) Hrun) as [H|[(x & Hx & H)|(x & H & Hc)]].
  - left. by eapply rtc_l.
  - apply elem_of_union in Hx as [->%elem_of_singleton|Hx].
    + right; right. exists current. split; [constructor|]. eapply tc_rtc_r; [by apply tc_once|exact H].
    + right; left. exists x. split; [done|]. by eapply rtc_l.
  - right; right. exists x. split; [by eapply rtc_l|done].
Qed.

Lemma descends_loop_finds m ancestor current : m !! "" = None -> rooted m current -> descends m current ancestor ->
  forall fuel seen, descends_loop fuel m seen current ancestor = true.
Proof.
  intros Hz Hr Hd. revert Hr. induction Hd as [x|x y z Hxy Hd IH]; intros Hr [|fuel] seen; try done; cbn.
  - assert (IsZero x = false) as ->; [|by rewrite bool_decide_eq_true_2].
    apply bool_decide_eq_false. intros ->. by destruct Hr as [? s Hs _|? p (s & Hs & _) _]; rewrite Hz in Hs.
  - destruct Hxy as (s & Hs & Hp). assert (IsZero x = false) as ->.
    { apply bool_decide_eq_false. intros ->. by rewrite Hz in Hs. }
    case_bool_decide; [done|]. case_bool_decide; [done|]. rewrite Hs, Hp. apply IH.
    eapply rooted_descends; [exact Hr|]. apply rtc_once. by exists s.
Qed.

Lemma descends_loop_rooted m ancestor fuel candidate : (1 + size m <= fuel)%nat -> rooted m candidate ->
  descends_loop fuel m ∅ candidate ancestor = true -> descends m candidate ancestor.
Proof.
  intros Hf Hr H. destruct (descends_loop_enough m ancestor fuel ∅ candidate ltac:(set_solver) ltac:(rewrite size_empty; lia) ltac:(lia) H)
    as [?|[(x & Hx & _)|(x & Hd & Hc)]]; [done|set_solver|].
  destruct (rooted_acyclic m x); [by eapply rooted_descends|done].
Qed.

Lemma sectionDescendsFrom_spec m candidate ancestor : m !! "" = None -> rooted m candidate ->
  sectionDescendsFrom m candidate ancestor = true <-> descends m candidate ancestor.
Proof.
  intros Hz Hr. split; [apply descends_loop_rooted; [lia|done]|intros; by apply descends_loop_finds].
Qed.

(** ** Changing one section *)

Lemma rooted_agree m m' : (forall id, sec_ParentID <$> m' !! id = sec_ParentID <$> m !! id) -> forall x, rooted m x -> rooted m' x.
Proof.
  intros Heq x. induction 1 as [id s Hs Hp|id p (s & Hs & Hp) _ IH]; specialize (Heq id); rewrite Hs in Heq;
    apply fmap_Some in Heq as (s' & Hs' & Hp'); rewrite Hp in Hp'.
  - by apply (rooted_top _ _ s').
  - apply (rooted_below _ _ p); [by exists s'|exact IH].
Qed.

(** A section placed below one that does not descend from it *)
Lemma rooted_place m id s p : sec_ParentID s = Some p -> rooted m p -> ~ descends m p id ->
  forall x, x = id \/ rooted m x -> rooted (<[id := s]> m) x.
Proof.
  intros Hp Hr Hno. assert (Hparent : rooted (<[id := s]> m) p).
  { clear Hp. induction Hr as [y t Ht Htop|y q (t & Ht & Hq) _ IH].
    - assert (id <> y) by (intros ->; apply Hno; constructor). apply (rooted_top _ _ t); [by rewrite lookup_insert_ne|done].
    - assert (id <> y) by (intros ->; apply Hno; constructor). apply (rooted_below _ _ q).
      + exists t. by rewrite lookup_insert_ne.
      + apply IH. intros Hd. apply Hno. eapply rtc_l; [by exists t|exact Hd]. }
  assert (Hid : rooted (<[id := s]> m) id).
  { apply (rooted_below _ _ p); [exists s; by rewrite lookup_insert_eq|exact Hparent]. }
  intros x [->|Hx]; [exact Hid|]. induction Hx as [y t Ht Htop|y q (t & Ht & Hq) _ IH];
    (destruct (decide (id = y)) as [->|Hne]; [exact Hid|]).
  - apply (rooted_top _ _ t); [by rewrite lookup_insert_ne|done].
  - apply (rooted_below _ _ q); [exists t; by rewrite lookup_insert_ne|exact IH].
Qed.

(** ** Counting live children *)

(** The entries of [m] that satisfy [f] *)
Definition count {A} (f : A -> bool) (m : gmap string A) : Z := Z.of_nat (size (filter (fun kv => f kv.2 = true) m)).

Definition weight {A} (f : A -> bool) (v : option A) : Z := match v with Some v => if f v then 1 else 0 | None => 0 end.

Lemma count_insert {A} (f : A -> bool) (m : gmap string A) k v :
  count f (<[k := v]> m) = count f m - weight f (m !! k) + weight f (Some v).
Proof.
  assert (Hdel : count f (delete k m) = count f m - weight f (m !! k)).
  { unfold count, weight. rewrite map_filter_delete. destruct (m !! k) as [w|] eqn:E.
    - destruct (f w) eqn:Ef.
      + assert (Hin : filter (fun kv => f kv.2 = true) m !! k = Some w) by (by apply map_lookup_filter_Some).
        rewrite map_size_delete, Hin. apply elem_of_dom_2 in Hin. pose proof (size_dom (filter (fun kv => f kv.2 = true) m)) as Hd.
        assert (1 <= size (dom (filter (fun kv : string * A => f kv.2 = true) m)))%nat; [|lia].
        rewrite <- (size_singleton (C := gset string) k). apply subseteq_size. set_solver.
      + rewrite delete_id; [lia|]. apply map_lookup_filter_None. right. intros x Hx. rewrite E in Hx. injection Hx as <-. cbn. congruence.
    - rewrite delete_id; [lia|]. apply map_lookup_filter_None. by left. }
  rewrite <- Hdel. rewrite <- insert_delete_eq. unfold count, weight.
  destruct (f v) eqn:Ef.
  - rewrite map_filter_insert_True by done. rewrite map_size_insert_None; [lia|]. apply map_lookup_filter_None. left. apply lookup_delete_eq.
  - rewrite map_filter_insert_False by (cbn; congruence). rewrite delete_delete_eq. lia.
Qed.

Lemma count_zero {A} (f : A -> bool) (m : gmap string A) k v : count f m = 0 -> m !! k = Some v -> f v = false.
Proof.
  unfold count. intros Hc Hk. destruct (f v) eqn:E; [|done].
  assert (Hin : filter (fun kv => f kv.2 = true) m !! k = Some v) by (by apply map_lookup_filter_Some).
  assert (filter (fun kv => f kv.2 = true) m = ∅) as He by (apply map_size_empty_inv; lia). by rewrite He in Hin.
Qed.

(** [node] is a live child of the section [id]. *)
Definition child_of (id : string) (node : NarrativeNodeState) : bool :=
  negb (narrativeNodeTombstoned node) && bool_decide (narrativeNodeParentPointer node = Some id).

Definition live_children (n : editNormalizer) (id : string) : Z :=
  count (fun v => child_of id (NodeSection v)) (n_sections n) + count (fun v => child_of id (NodeAuthoredText v)) (n_texts n) +
  count (fun v => child_of id (NodeSourceExcerpt v)) (n_sourceExcerpts n) +
  count (fun v => child_of id (NodeVisualIntent v)) (n_visualIntents n) + count (fun v => child_of id (NodeNote v)) (n_notes n).

(** Storing [s] replaces a node of the same kind, or a new one. *)
Definition replaces (n : editNormalizer) (s : NarrativeNodeState) : Prop :=
  match narrativeNode n (narrativeNodeID s) with Some old => same_kind old s = true | None => True end.

Lemma live_children_set n s id : replaces n s ->
  live_children (setNarrativeNode s n) id =
    live_children n id - weight (child_of id) (narrativeNode n (narrativeNodeID s)) + weight (child_of id) (Some s).
Proof.
  unfold replaces, live_children, narrativeNode.
  destruct s as [v|v|v|v|v]; cbn; rewrite count_insert;
    repeat (case_match; simplify_eq; try done); cbn;
    repeat match goal with |- context [if ?x then _ else _] => destruct x end; lia.
Qed.

Lemma live_children_none n id k node : live_children n id = 0 -> narrativeNode n k = Some node -> child_of id node = false.
Proof.
  unfold live_children, narrativeNode. intros Hz Hk.
  assert (forall A (f : A -> bool) m, 0 <= count f m) as Hnn by (intros; unfold count; lia).
  pose proof (Hnn _ (fun v => child_of id (NodeSection v)) (n_sections n)).
  pose proof (Hnn _ (fun v => child_of id (NodeAuthoredText v)) (n_texts n)).
  pose proof (Hnn _ (fun v => child_of id (NodeSourceExcerpt v)) (n_sourceExcerpts n)).
  pose proof (Hnn _ (fun v => child_of id (NodeVisualIntent v)) (n_visualIntents n)).
  pose proof (Hnn _ (fun v => child_of id (NodeNote v)) (n_notes n)).
  repeat (case_match; simplify_eq; try done).
  - eapply (count_zero (fun v => child_of id (NodeSection v))); [|eassumption]. lia.
  - eapply (count_zero (fun v => child_of id (NodeAuthoredText v))); [|eassumption]. lia.
  - eapply (count_zero (fun v => child_of id (NodeSourceExcerpt v))); [|eassumption]. lia.
  - eapply (count_zero (fun v => child_of id (NodeVisualIntent v))); [|eassumption]. lia.
  - eapply (count_zero (fun v => child_of id (NodeNote v))); [|eassumption]. lia.
Qed.

(** ** The invariant *)

Lemma section_node n id v : n_sections n !! id = Some v <-> narrativeNode n id = Some (NodeSection v).
Proof. unfold narrativeNode. destruct (n_sections n !! id); repeat case_match; split; congruence. Qed.

(** [hidden id] children of a section are not among the loaded nodes: the counts
    the normalizer is given are those of the whole project. *)
Record tree (hidden : string -> Z) (n : editNormalizer) : Prop := mkTree {
  tree_keyed : forall id node, narrativeNode n id = Some node -> narrativeNodeID node = id;
  tree_named : n_sections n !! "" = None;
  tree_rooted : forall id, is_Some (n_sections n !! id) -> rooted (n_sections n) id;
  tree_parents : forall id node parent, narrativeNode n id = Some node -> narrativeNodeTombstoned node = false ->
    narrativeNodeParentPointer node = Some parent ->
    exists s, n_sections n !! parent = Some s /\ sec_Tombstoned s = false;
  tree_counts : forall id, at_key 0 (n_sectionChildren n) id = hidden id + live_children n id }.

Definition same_nodes (n n' : editNormalizer) : Prop :=
  n_sections n' = n_sections n /\ n_texts n' = n_texts n /\ n_sourceExcerpts n' = n_sourceExcerpts n /\
  n_visualIntents n' = n_visualIntents n /\ n_notes n' = n_notes n.
Definition same_narrative (n n' : editNormalizer) : Prop := same_nodes n n' /\ n_sectionChildren n' = n_sectionChildren n.

#[export] Instance same_nodes_preorder : PreOrder same_nodes.
Proof.
  split; [done|]. intros n1 n2 n3 (A1 & A2 & A3 & A4 & A5) (B1 & B2 & B3 & B4 & B5). repeat split; congruence.
Qed.
#[export] Instance same_narrative_preorder : PreOrder same_narrative.
Proof. split; [done|]. intros n1 n2 n3 [A1 A2] [B1 B2]. split; [by etrans|congruence]. Qed.

Lemma same_nodes_node n n' : same_nodes n n' -> forall id, narrativeNode n' id = narrativeNode n id.
Proof. intros (H1 & H2 & H3 & H4 & H5) id. unfold narrativeNode. by rewrite H1, H2, H3, H4, H5. Qed.
Lemma same_nodes_children n n' : same_nodes n n' -> forall id, live_children n' id = live_children n id.
Proof. intros (H1 & H2 & H3 & H4 & H5) id. unfold live_children. by rewrite H1, H2, H3, H4, H5. Qed.

Section tree.
Context (hidden : string -> Z) (Hhidden : forall id, 0 <= hidden id).

Definition keeps_tree (n n' : editNormalizer) : Prop := tree hidden n -> tree hidden n'.
#[export] Instance keeps_tree_preorder : PreOrder keeps_tree.
Proof. split; [by intros n H|]. intros n1 n2 n3 H1 H2 H. by apply H2, H1. Qed.

Lemma same_narrative_keeps n n' : same_narrative n n' -> keeps_tree n n'.
Proof.
  intros [Hs Hc] [T1 T2 T3 T4 T5]. pose proof (same_nodes_node _ _ Hs) as Hn. pose proof (same_nodes_children _ _ Hs) as Hl.
  destruct Hs as (Hsec & _). split; rewrite ?Hsec; [intros ? ?; rewrite Hn; apply T1|done|done|intros ? ? ?; rewrite Hn; apply T4|].
  intros id. rewrite Hc, Hl. apply T5.
Qed.

(** Storing a node: its parent is a live section, a section that is withdrawn has
    no children, and a section is placed below a root. *)
Lemma tree_put n n' s : tree hidden n -> replaces n s -> same_nodes (setNarrativeNode s n) n' ->
  (forall id, at_key 0 (n_sectionChildren n') id = at_key 0 (n_sectionChildren n) id -
     weight (child_of id) (narrativeNode n (narrativeNodeID s)) + weight (child_of id) (Some s)) ->
  (narrativeNodeTombstoned s = false -> forall parent, narrativeNodeParentPointer s = Some parent ->
     parent <> narrativeNodeID s /\ exists p, n_sections n !! parent = Some p /\ sec_Tombstoned p = false) ->
  (forall v, s = NodeSection v -> sec_ID v <> "" /\
     (forall id, id = sec_ID v \/ rooted (n_sections n) id -> rooted (<[sec_ID v := v]> (n_sections n)) id) /\
     (sec_Tombstoned v = true -> live_children n (sec_ID v) = 0)) ->
  tree hidden n'.
Proof.
  intros [T1 T2 T3 T4 T5] Hrep Hsame Hcount Hparent Hsec.
  pose proof (same_nodes_node _ _ Hsame) as Hn. pose proof (same_nodes_children _ _ Hsame) as Hl.
  assert (Hs : n_sections n' = match s with NodeSection v => <[sec_ID v := v]> (n_sections n) | _ => n_sections n end)
    by (destruct Hsame as (-> & _); by destruct s).
  assert (Hnode : forall id, narrativeNode n' id = if decide (id = narrativeNodeID s) then Some s else narrativeNode n id)
    by (intros id; rewrite Hn; by apply narrativeNode_set).
  split.
  - intros id node. rewrite Hnode. case_decide; [by intros [= <-]|apply T1].
  - rewrite Hs. destruct s as [v|v|v|v|v]; try done. destruct (Hsec _ eq_refl) as (Hz & _). by rewrite lookup_insert_ne.
  - rewrite Hs. destruct s as [v|v|v|v|v]; try done. destruct (Hsec _ eq_refl) as (_ & Hr & _). intros id Hin. apply Hr.
    destruct (decide (id = sec_ID v)) as [->|Hne]; [by left|]. rewrite lookup_insert_ne in Hin by congruence. right. by apply T3.
  - intros id node p Hnd Hlive Hp.
    assert (exists q, n_sections n !! p = Some q /\ sec_Tombstoned q = false /\ (p = narrativeNodeID s -> id <> narrativeNodeID s)) as (q & Hq & Hql & Hne).
    { rewrite Hnode in Hnd. case_decide as Hid.
      - injection Hnd as <-. destruct (Hparent Hlive _ Hp) as (Hpn & q & Hq & Hql). by exists q.
      - destruct (T4 _ _ _ Hnd Hlive Hp) as (q & Hq & Hql). by exists q. }
    rewrite Hs. destruct s as [v|v|v|v|v]; eauto. destruct (Hsec _ eq_refl) as (_ & _ & Hdead).
    destruct (decide (p = sec_ID v)) as [->|Hpv]; [|rewrite lookup_insert_ne by congruence; eauto].
    exists v. rewrite lookup_insert_eq. split; [done|]. destruct (sec_Tombstoned v) eqn:E; [|done].
    rewrite Hnode, decide_False in Hnd by (by apply Hne).
    pose proof (live_children_none n _ _ _ (Hdead eq_refl) Hnd) as Hc. unfold child_of in Hc.
    rewrite Hlive, Hp, bool_decide_eq_true_2 in Hc; done.
  - intros id. rewrite Hcount, Hl, live_children_set by done. rewrite T5. lia.
Qed.

(** *** Operations *)

Lemma markNarrativeParentChanged_same id n u n' : markNarrativeParentChanged id n = Ok (u, n') -> same_narrative n n'.
Proof. intros Hr. unfold markNarrativeParentChanged in Hr. mruns; done. Qed.

Lemma add_children_run id d n u n' : add_children id d n = Ok (u, n') ->
  same_nodes n n' /\ forall k, at_key 0 (n_sectionChildren n') k = at_key 0 (n_sectionChildren n) k + (if decide (k = id) then d else 0).
Proof.
  intros Hr. unfold add_children in Hr. mrun. split; [done|]. intros k. cbn. unfold at_key.
  case_decide as Hk; [subst; rewrite lookup_insert_eq|rewrite lookup_insert_ne by congruence]; cbn; lia.
Qed.

(** The section a node is placed below is live. *)
Lemma parent_live id n s n' : requireNarrativeParent id n = Ok (s, n') ->
  n' = n /\ n_sections n !! id = Some s /\ sec_Tombstoned s = false.
Proof. intros Hr. unfold requireNarrativeParent in Hr. mrun. bool_prop. auto. Qed.

(** A live node is not its own parent. *)
Lemma tree_parent_other n id node p : tree hidden n -> narrativeNode n id = Some node -> narrativeNodeTombstoned node = false ->
  narrativeNodeParentPointer node = Some p -> p <> id.
Proof.
  intros [T1 T2 T3 T4 _] Hn Hl Hp ->. destruct (T4 _ _ _ Hn Hl Hp) as (s & Hs & _).
  pose proof (proj1 (section_node _ _ _) Hs) as Hs'. rewrite Hn in Hs'. injection Hs' as ->. cbn in Hp.
  eapply (rooted_acyclic (n_sections n) id); [apply T3; eauto|]. apply tc_once. by exists s.
Qed.

(** A new node below a live section *)
Lemma tree_insert n m s parent : tree hidden n -> narrativeNode n (narrativeNodeID s) = None ->
  (is_section s = true -> narrativeNodeID s <> "") -> narrativeNodeParentPointer s = Some (sec_ID parent) -> narrativeNodeTombstoned s = false ->
  n_sections n !! sec_ID parent = Some parent -> sec_Tombstoned parent = false ->
  same_nodes (setNarrativeNode s n) m ->
  (forall k, at_key 0 (n_sectionChildren m) k = at_key 0 (n_sectionChildren n) k + (if decide (k = sec_ID parent) then 1 else 0)) ->
  tree hidden m.
Proof.
  intros Ht Hnew Hz Hp Hl Hpar Hplive Hsame Hc.
  assert (Hne : sec_ID parent <> narrativeNodeID s) by (intros E; apply section_node in Hpar; congruence).
  eapply (tree_put n m s); [done|by unfold replaces; rewrite Hnew|done| | |].
  - intros k. rewrite Hc, Hnew. unfold weight, child_of. rewrite Hl, Hp. cbn [negb andb].
    case_decide; [rewrite bool_decide_eq_true_2 by congruence|rewrite bool_decide_eq_false_2 by congruence]; lia.
  - intros _ q Hq. rewrite Hp in Hq. injection Hq as <-. eauto.
  - intros v ->. cbn in *. split; [by apply Hz|]. split; [|congruence].
    apply (rooted_place _ _ _ (sec_ID parent)); [done|apply (tree_rooted _ _ Ht); eauto|].
    intros Hd. apply rtc_inv_r in Hd. destruct Hd as [E|(y & Hd & s & Hs & Hsp)]; [congruence|].
    assert (Hy : rooted (n_sections n) (sec_ID v)).
    { eapply rooted_descends; [apply (tree_rooted _ _ Ht (sec_ID parent)); eauto|]. eapply rtc_r; [exact Hd|by exists s]. }
    assert (n_sections n !! sec_ID v = None) as Hx.
    { destruct (n_sections n !! sec_ID v) eqn:E; [|done]. apply section_node in E. congruence. }
    by destruct Hy as [? ? Hy _|? ? (? & Hy & _) _]; rewrite Hx in Hy.
Qed.

Lemma inserted_node_below o id p a n s n' : inserted_node o id p a n = Ok (s, n') ->
  narrativeNodeParentPointer s = Some (sec_ID p).
Proof. intros Hr. unfold inserted_node in Hr. destruct (op_Type o); mrun; done. Qed.

Lemma ParseID_nonzero v v' : ParseID v = Ok v' -> v' <> "".
Proof. unfold ParseID. intros H ->. destruct (isUUIDv7 v) eqn:E; [|discriminate]. injection H as ->. discriminate E. Qed.

Lemma absent_node n id : narrativeNodeExists n id = false -> narrativeNode n id = None.
Proof. intros H%bool_decide_eq_false. destruct (narrativeNode n id); [by destruct H|done]. Qed.

Lemma insertNarrativeNode_tree o n u n' : insertNarrativeNode o n = Ok (u, n') -> keeps_tree n n'.
Proof.
  intros Hr Ht. unfold insertNarrativeNode in Hr. mrun.
  match goal with Hx : inserted_node _ _ _ _ _ = _ |- _ => pose proof (inserted_node_below _ _ _ _ _ _ _ Hx);
    apply inserted_node_run in Hx as (Hid & _ & Hlive & ->) end.
  match goal with Hx : resolveNarrativeNodeReference _ _ = _ |- _ => apply resolveNarrativeNodeReference_run in Hx; subst end.
  match goal with Hx : requireNarrativeParent _ _ = _ |- _ => apply parent_live in Hx as (-> & Hpar & Hpl) end.
  match goal with Hx : markNarrativeParentChanged _ _ = _ |- _ => apply markNarrativeParentChanged_same in Hx as [Hs Hc] end.
  apply add_children_run in Hr as [Hs' Hc']. bool_prop. msimpl_in_all.
  match goal with Hx : ParseID _ = Ok _ |- _ => pose proof (ParseID_nonzero _ _ Hx) end.
  match goal with Hx : narrativeNodeExists _ _ = false |- _ => apply absent_node in Hx end.
  pose proof (tree_keyed _ _ Ht _ _ (proj1 (section_node _ _ _) Hpar)) as E. cbn in E. subst.
  eapply tree_insert; [exact Ht|eassumption|done|eassumption|done|eassumption|done| |].
  - etrans; [etrans; [|exact Hs]|exact Hs']. by destruct v7.
  - intros k. rewrite Hc', Hc. by destruct v7.
Qed.

Lemma insertSourceExcerpt_tree o n u n' : insertSourceExcerpt o n = Ok (u, n') -> keeps_tree n n'.
Proof.
  intros Hr Ht. unfold insertSourceExcerpt, sourceExcerptCorrections in Hr. mrun.
  match goal with Hx : provided_corrections _ _ _ = _ |- _ => apply provided_corrections_run in Hx; subst end.
  match goal with Hx : resolveNarrativeNodeReference _ _ = _ |- _ => apply resolveNarrativeNodeReference_run in Hx; subst end.
  match goal with Hx : requireNarrativeParent _ _ = _ |- _ => apply parent_live in Hx as (-> & Hpar & Hpl) end.
  match goal with Hx : markNarrativeParentChanged _ _ = _ |- _ => apply markNarrativeParentChanged_same in Hx as [Hs Hc] end.
  apply add_children_run in Hr as [Hs' Hc']. bool_prop. msimpl_in_all.
  match goal with Hx : narrativeNodeExists _ _ = false |- _ => apply absent_node in Hx end.
  pose proof (tree_keyed _ _ Ht _ _ (proj1 (section_node _ _ _) Hpar)) as E. cbn in E. subst.
  match type of Hs with context [on_sourceExcerpts (<[_ := ?x]>)] =>
    eapply (tree_insert n _ (NodeSourceExcerpt x)) end; [exact Ht|eassumption|done|reflexivity|done|eassumption|done| |].
  - etrans; [etrans; [|exact Hs]|exact Hs']. done.
  - intros k. rewrite Hc', Hc. done.
Qed.

(** Storing a node again with the same parent *)
Lemma tree_update n m id old s : tree hidden n -> narrativeNode n id = Some old -> narrativeNodeTombstoned old = false ->
  narrativeNodeID s = id -> same_kind old s = true -> narrativeNodeParentPointer s = narrativeNodeParentPointer old ->
  same_nodes (setNarrativeNode s n) m ->
  (forall k, at_key 0 (n_sectionChildren m) k = at_key 0 (n_sectionChildren n) k +
     (if narrativeNodeTombstoned s && bool_decide (narrativeNodeParentPointer old = Some k) then -1 else 0)) ->
  (narrativeNodeTombstoned s = true -> is_section s = true -> at_key 0 (n_sectionChildren n) id = 0) -> tree hidden m.
Proof.
  intros Ht Hold Hlive Hid Hkind Hp Hsame Hc Hdead. subst id.
  eapply (tree_put n m s); [done|by unfold replaces; rewrite Hold|done| | |].
  - intros k. rewrite Hc, Hold. unfold weight, child_of. rewrite Hlive, Hp. cbn [negb andb].
    destruct (narrativeNodeTombstoned s), (bool_decide (_ = Some k)); cbn; lia.
  - intros _ p Hsp. rewrite Hp in Hsp. split; [by eapply tree_parent_other|]. by eapply (tree_parents _ _ Ht).
  - intros v ->. destruct old as [old|old|old|old|old]; try discriminate. cbn in *.
    pose proof (proj2 (section_node _ _ _) Hold) as Hs.
    split; [intros E; rewrite E, (tree_named _ _ Ht) in Hs; discriminate|]. split.
    + intros x Hx. assert (Hr : rooted (n_sections n) x) by (destruct Hx as [->|Hx]; [apply (tree_rooted _ _ Ht); eauto|done]).
      clear Hx. revert x Hr. apply rooted_agree. intros x. destruct (decide (x = sec_ID v)) as [->|Hne].
      * rewrite lookup_insert_eq, Hs. cbn. by rewrite Hp.
      * by rewrite lookup_insert_ne.
    + intros Hd. specialize (Hdead Hd eq_refl). rewrite (tree_counts _ _ Ht) in Hdead.
      assert (0 <= live_children n (sec_ID v)) by (unfold live_children, count; lia).
      specialize (Hhidden (sec_ID v)). lia.
Qed.

Lemma updated_node_parent o c r n s n' : updated_node o c r n = Ok (s, n') -> narrativeNodeParentPointer s = narrativeNodeParentPointer c.
Proof. intros Hr. unfold updated_node in Hr. destruct (op_Type o), c; mrun; done. Qed.

Lemma updateNarrativeNode_tree o n u n' : updateNarrativeNode o n = Ok (u, n') -> keeps_tree n n'.
Proof.
  intros Hr Ht. unfold updateNarrativeNode in Hr. mrun. bool_prop.
  match goal with Hx : narrativeNode n _ = Some ?c |- _ => rename c into current; pose proof (tree_keyed _ _ Ht _ _ Hx) end.
  match goal with Hx : updated_node _ _ _ _ = _ |- _ => pose proof (updated_node_parent _ _ _ _ _ _ Hx);
    apply updated_node_run in Hx as (Hid & _ & Hto & Hkind & ->) end. msimpl_in_all.
  eapply (tree_update n _ v current v1); [done|done|done|congruence|done|done| | |congruence].
  - by destruct v1.
  - intros k. rewrite Hto, Hrun0. cbn. destruct v1; cbn; lia.
Qed.

Lemma withRevision_parent s r t : narrativeNodeParentPointer (narrativeNodeWithRevisionAndTombstone s r t) = narrativeNodeParentPointer s.
Proof. by destruct s. Qed.

Lemma removeNarrativeNode_tree o n u n' : removeNarrativeNode o n = Ok (u, n') -> keeps_tree n n'.
Proof.
  intros Hr Ht. unfold removeNarrativeNode in Hr. mrun. bool_prop.
  match goal with Hx : requireNarrativeParent _ _ = _ |- _ => apply parent_live in Hx as (-> & Hpar & Hpl) end.
  match goal with Hx : markNarrativeParentChanged _ _ = _ |- _ => apply markNarrativeParentChanged_same in Hx as [Hs Hc] end.
  apply add_children_run in Hr as [Hs' Hc']. msimpl_in_all.
  pose proof (tree_keyed _ _ Ht _ _ (proj1 (section_node _ _ _) Hpar)) as E. cbn in E. subst.
  match goal with Hx : narrativeNode n _ = Some ?c |- _ => rename c into current; pose proof (tree_keyed _ _ Ht _ _ Hx) end.
  match type of Hs with context [setNarrativeNode ?x] => set (next := x) in * end.
  match goal with Hx : mustNext (narrativeNodeRevision current) = Ok ?r |- _ =>
    destruct (withRevision_facts current r true) as (Hkind & Hid & _ & Hto); pose proof (withRevision_parent current r true) as Hp end.
  fold next in Hkind, Hid, Hto, Hp.
  eapply (tree_update n _ v current next); [done|done|done|congruence|done|done| | |].
  - etrans; [etrans; [|exact Hs]|exact Hs']. by destruct next.
  - intros k. rewrite Hc', Hc, Hto. cbn [andb]. match goal with Hx : narrativeNodeParentPointer current = _ |- _ => rewrite Hx end.
    case_decide; [rewrite bool_decide_eq_true_2 by congruence|rewrite bool_decide_eq_false_2 by congruence]; by destruct next.
  - intros _ Hsec. assert (is_section current = true) as Hsc by (destruct current, next; done).
    match goal with Hx : is_section current && _ = false |- _ => rewrite Hsc in Hx; cbn in Hx; bool_prop end. lia.
Qed.

Lemma narrativeNodeMoved_parent s p a r : narrativeNodeParentPointer (narrativeNodeMoved s p a r) = Some p.
Proof. by destruct s. Qed.

(** A live node placed below another live section that does not descend from it *)
Lemma tree_move n m id old s from to : tree hidden n -> narrativeNode n id = Some old -> narrativeNodeTombstoned old = false ->
  narrativeNodeParentPointer old = Some from -> narrativeNodeID s = id -> same_kind old s = true ->
  narrativeNodeTombstoned s = false -> narrativeNodeParentPointer s = Some (sec_ID to) ->
  n_sections n !! sec_ID to = Some to -> sec_Tombstoned to = false ->
  (is_section old = true -> sectionDescendsFrom (n_sections n) (sec_ID to) id = false) ->
  same_nodes (setNarrativeNode s n) m ->
  (forall k, at_key 0 (n_sectionChildren m) k = at_key 0 (n_sectionChildren n) k -
     (if decide (k = from) then 1 else 0) + (if decide (k = sec_ID to) then 1 else 0)) -> tree hidden m.
Proof.
  intros Ht Hold Hlive Hfrom Hid Hkind Hsl Hsp Hto Htl Hdesc Hsame Hc. subst id.
  assert (Hno : is_section old = true -> ~ descends (n_sections n) (sec_ID to) (narrativeNodeID s)).
  { intros Hsec Hd. apply sectionDescendsFrom_spec in Hd; [|by apply (tree_named _ _ Ht)|apply (tree_rooted _ _ Ht); eauto].
    rewrite (Hdesc Hsec) in Hd. discriminate. }
  eapply (tree_put n m s); [done|by unfold replaces; rewrite Hold|done| | |].
  - intros k. rewrite Hc, Hold. unfold weight, child_of. rewrite Hlive, Hfrom, Hsl, Hsp. cbn [negb andb].
    repeat case_decide; repeat case_bool_decide; simplify_eq; try congruence; lia.
  - intros _ p Hp. rewrite Hsp in Hp. injection Hp as <-. split; [|eauto]. intros E.
    destruct old as [old|old|old|old|old]; [by apply Hno; [|rewrite E; constructor]|..];
      rewrite E in Hto; apply section_node in Hto; congruence.
  - intros v ->. destruct old as [old|old|old|old|old]; try discriminate. cbn in *.
    pose proof (proj2 (section_node _ _ _) Hold) as Hs.
    split; [intros E; rewrite E, (tree_named _ _ Ht) in Hs; discriminate|]. split; [|congruence].
    apply (rooted_place _ _ _ (sec_ID to)); [done|apply (tree_rooted _ _ Ht); eauto|by apply Hno].
Qed.

Lemma moveNarrativeNode_tree o n u n' : moveNarrativeNode o n = Ok (u, n') -> keeps_tree n n'.
Proof.
  intros Hr Ht. unfold moveNarrativeNode in Hr. mrun. bool_prop.
  match goal with Hx : resolveNarrativeNodeReference _ _ = _ |- _ => apply resolveNarrativeNodeReference_run in Hx; subst end.
  apply parent_live in Hrun4 as (-> & Hfrom & _), Hrun6 as (-> & Hto & Htl).
  apply markNarrativeParentChanged_same in Hrun18 as [Hs1 Hc1], Hrun19 as [Hs2 Hc2].
  match type of Hr with _ ?m = _ => assert (same_nodes m n' /\ forall k, at_key 0 (n_sectionChildren n') k =
    at_key 0 (n_sectionChildren m) k - (if decide (k = sec_ID v0) then 1 else 0) + (if decide (k = sec_ID v2) then 1 else 0)) as [Hs3 Hc3] end.
  { case_bool_decide as E; mrun.
    - apply add_children_run in Hrun3 as [S1 C1], Hr as [S2 C2]. split; [by etrans|]. intros k. rewrite C2, C1. repeat case_decide; lia.
    - assert (sec_ID v0 = sec_ID v2) as -> by (by destruct (decide (sec_ID v0 = sec_ID v2))). split; [done|]. intros k. lia. }
  msimpl_in_all. pose proof (tree_keyed _ _ Ht) as Hkey.
  pose proof (Hkey _ _ (proj1 (section_node _ _ _) Hfrom)) as E1. pose proof (Hkey _ _ (proj1 (section_node _ _ _) Hto)) as E2.
  cbn in E1, E2. subst. destruct (narrativeNodeMoved_facts n0 (sec_ID v2) v3 v5) as (Hkind & Hid & _ & Hlive).
  pose proof (narrativeNodeMoved_parent n0 (sec_ID v2) v3 v5) as Hp. set (next := narrativeNodeMoved n0 (sec_ID v2) v3 v5) in *.
  eapply (tree_move n _ v n0 next (sec_ID v0) v2); try done.
  - rewrite Hid. by apply Hkey.
  - intros Hsec. rewrite Hsec in Hrun11. exact Hrun11.
  - etrans; [etrans; [etrans; [|exact Hs1]|exact Hs2]|exact Hs3]. by destruct next.
  - intros k. rewrite Hc3, Hc2, Hc1. by destruct next.
Qed.
End tree.

(** ** Operations that leave the narrative alone *)

Ltac narrative_assign := done.
Ltac narrative_known :=
  first [ apply map_each_respects; [typeclasses eauto|intros ?]
        | match goal with |- respects _ ?m => let f := get_head m in unfold f end ].

Lemma require_members_narrative seed group members : respects same_narrative (require_members seed group members).
Proof. induction members as [|id rest IH]; cbn; respect ltac:(exact IH) narrative_assign. Qed.
Lemma link_members_narrative group refs : respects same_narrative (link_members group refs).
Proof. induction refs as [|r rest IH]; cbn; respect ltac:(first [exact IH|narrative_known]) narrative_assign. Qed.

Ltac narrative_known ::=
  first [ apply map_each_respects; [typeclasses eauto|intros ?] | apply require_members_narrative | apply link_members_narrative
        | match goal with |- respects _ ?m => let f := get_head m in unfold f end ].

Section quiet_operations.
Context `{Platform}.

(** Every operation on captions, clips, link groups, corrections and alignments *)
Lemma normalizeEntityOperation_tree hidden o n u n' : (forall id, 0 <= hidden id) ->
  normalizeEntityOperation o n = Ok (u, n') -> keeps_tree hidden n n'.
Proof.
  intros Hh Hr. unfold normalizeEntityOperation in Hr. destruct (op_Type o);
    first [ by eapply insertNarrativeNode_tree | by eapply updateNarrativeNode_tree | by eapply moveNarrativeNode_tree
    | by eapply removeNarrativeNode_tree | by eapply insertSourceExcerpt_tree
    | apply same_narrative_keeps; revert n u n' Hr;
      match goal with |- forall n u n', ?m n = Ok (u, n') -> _ => change (respects same_narrative m) end;
      respect narrative_known narrative_assign ].
Qed.

Lemma normalizeAlignmentOperation_narrative o : respects same_narrative (normalizeAlignmentOperation o).
Proof. unfold normalizeAlignmentOperation. respect narrative_known narrative_assign. Qed.
End quiet_operations.

(** ** The edited narrative *)

(** Sections of a store *)
Definition sections_of (s : store) (m : section_map) : Prop :=
  forall id v, m !! id = Some v <-> s (EntityNarrativeNode, id) = Some (PutNarrativeNode (NodeSection v)).

(** Sections form a forest, and every live node hangs below a live section. *)
Definition narrative_shape (s : store) : Prop :=
  exists m, sections_of s m /\ (forall id, is_Some (m !! id) -> rooted m id) /\
    forall id node parent, s (EntityNarrativeNode, id) = Some (PutNarrativeNode node) -> narrativeNodeTombstoned node = false ->
      narrativeNodeParentPointer node = Some parent -> exists v, m !! parent = Some v /\ sec_Tombstoned v = false.

(** The narrative that is loaded with a request: well shaped, with child counts
    that include the loaded live children. *)
Record narrative_ok (input : NormalizeEditInput) : Prop := mkNarrativeOk {
  narrative_loaded : narrative_shape (stored input);
  narrative_named : st_Sections (in_State input) !! "" = None;
  narrative_counts : forall id, live_children (opening input) id <= at_key 0 (st_SectionChildCounts (in_State input)) id }.

Lemma sections_of_entity n (s : store) : (forall k, s k = entity n k) -> sections_of s (n_sections n).
Proof.
  intros Hs id v. rewrite Hs, entity_node, section_node. destruct (narrativeNode n id); cbn; [|done]. split; congruence.
Qed.

Lemma sections_of_unique s m m' : sections_of s m -> sections_of s m' -> m = m'.
Proof.
  intros H H'. apply map_eq. intros id. apply option_eq. intros v. by rewrite (H id v), (H' id v).
Qed.

Lemma tree_shape hidden n (s : store) : (forall k, s k = entity n k) -> tree hidden n -> narrative_shape s.
Proof.
  intros Hs [_ _ T3 T4 _]. exists (n_sections n). split; [by apply sections_of_entity|]. split; [done|].
  intros id node p Hn. rewrite Hs, entity_node in Hn. destruct (narrativeNode n id) as [v|] eqn:E; [|done].
  injection Hn as <-. by apply T4 with id.
Qed.

Definition hidden_children (input : NormalizeEditInput) (id : string) : Z :=
  at_key 0 (st_SectionChildCounts (in_State input)) id - live_children (opening input) id.

Lemma opening_tree input : input_ok input -> narrative_ok input -> tree (hidden_children input) (opening input).
Proof.
  intros [Hk _] [(m & Hm & Hr & Hp) Hz Hc].
  assert (m = n_sections (opening input)) as -> by (eapply sections_of_unique; [exact Hm|by apply sections_of_entity]).
  assert (Hs : forall id node, narrativeNode (opening input) id = Some node -> stored input (EntityNarrativeNode, id) = Some (PutNarrativeNode node))
    by (intros id node Hn; unfold stored; by rewrite entity_node, Hn).
  split; [|exact Hz|exact Hr| |].
  - intros id node Hn%Hs. by destruct (Hk _ _ Hn) as [[= Hid] _].
  - intros id node p Hn%Hs. by apply Hp with id.
  - intros id. unfold hidden_children. cbn [opening n_sectionChildren]. lia.
Qed.

Lemma start_narrative input b : newEditNormalizer input = Ok b -> same_narrative (opening input) b.
Proof. intros H. unfold newEditNormalizer in H. apply bind_ok in H as (m & _ & [= <-]). done. Qed.

(** C6: A proposal keeps the shape of the narrative.  When the stored sections form
    a forest and every stored live node hangs below a live section, the same
    holds of the edited narrative: no move makes a section its own ancestor, no
    removal leaves a live node below a removed section, and nothing is inserted
    below one. *)
Theorem proposal_narrative_tree `{Platform} input p : input_ok input -> narrative_ok input -> NormalizeEditProposal input = Ok p ->
  narrative_shape (edited input p).
Proof.
  intros Hin Hok Hp. pose proof (opening_tree _ Hin Hok) as Ht.
  assert (Hh : forall id, 0 <= hidden_children input id) by (intros id; unfold hidden_children; pose proof (narrative_counts _ Hok id); lia).
  destruct (NormalizeEditProposal_run _ _ Hin Hp) as
    (b & m & n & parents & tracks & _ & Hb & _ & Hent & _ & Hj & _ & _ & _ & _ & _ & _ & _ & _ & Hops & _ & _ & Hal).
  pose proof (newEditNormalizer_run _ _ Hb) as (_ & _ & He & _).
  assert (Hm : keeps_tree (hidden_children input) b m).
  { unfold normalizeEntityOperations, proposed_operations in Hent. mrun. revert Hent.
    apply (for_each_steps (keeps_tree (hidden_children input))). intros. by eapply normalizeEntityOperation_tree. }
  assert (Hn : same_narrative m n).
  { unfold normalizeAlignmentOperations, proposed_operations in Hal. mrun. revert Hal.
    apply (for_each_steps same_narrative). intros. by eapply normalizeAlignmentOperation_narrative. }
  apply (tree_shape (hidden_children input) n).
  - intros k. unfold edited. rewrite Hops. by eapply replay_journal.
  - apply (same_narrative_keeps _ m n Hn), Hm, (same_narrative_keeps _ (opening input) b), Ht. by apply start_narrative.
Qed.

(** A story: the text of the opening section moves to the section below it, and
    the opening gets a note. *)
Definition story_opening : NarrativeSectionState := mkSection (sample_id "04") 1 (sample_id "02") None None "Opening" "en" false.
Definition story_middle : NarrativeSectionState :=
  mkSection (sample_id "07") 1 (sample_id "02") (Some (sample_id "04")) None "Middle" "en" false.
Definition story_text : AuthoredTextState :=
  mkAuthoredText (sample_id "50") 1 (sample_id "02") (sample_id "04") None AuthoredTextSpoken "en" "Once" false.

Definition story_state : EditNormalizationState := {|
  st_ProjectID := sample_id "01"; st_ProjectRevision := 7; st_DocumentID := sample_id "02"; st_DocumentRevision := 3;
  st_SequenceID := sample_id "03"; st_SequenceRevision := 5;
  st_Sections := <[sample_id "04" := story_opening]> (<[sample_id "07" := story_middle]> ∅);
  st_Tracks := ∅; st_AuthoredTexts := <[sample_id "50" := story_text]> ∅; st_SourceExcerpts := ∅; st_VisualIntents := ∅; st_Notes := ∅;
  st_SectionChildCounts := <[sample_id "04" := 2]> ∅; st_SourceExcerptEvidence := ∅; st_TranscriptArtifacts := ∅;
  st_TranscriptCorrections := ∅; st_Captions := ∅; st_Clips := ∅; st_LinkGroups := ∅; st_LinkGroupClips := ∅;
  st_SourceStreams := ∅; st_Alignments := ∅; st_NodeAlignments := ∅; st_CaptionAlignments := ∅; st_ClipAlignments := ∅ |}.

Definition story_move : EditOperationInput :=
  mkOperation EditMoveNarrativeNode None (Some (sample_id "50")) (Some (sample_id "07")) None None None None None None None None None None
    None None [] None None None None None None None None None None None [] None None None [] None None [] []
    None None [] None None None [] [] None.
Definition story_note : EditOperationInput :=
  mkOperation EditInsertNote (Some "note") None (Some (sample_id "04")) None None (Some "Check the ending") None None None None None None
    (Some "en") None None [] None None None None None None None None None None None [] None None None [] None None [] []
    None None [] None None None [] [] None.

Definition story_input : NormalizeEditInput := {|
  in_ProposalID := sample_id "05"; in_ProjectID := sample_id "01"; in_SequenceID := sample_id "03"; in_RunID := "";
  in_TurnID := ""; in_Actor := mkActor ActorCreator (Some (sample_id "06")) None;
  in_Allocation := [ mkAllocation "note" EntityNarrativeNode (sample_id "51") ];
  in_Input := mkProposeInput "request-2" "Move the text" 7
    [ mkPrecondition EntityNarrativeNode (sample_id "50") 1; mkPrecondition EntityNarrativeNode (sample_id "04") 1;
      mkPrecondition EntityNarrativeNode (sample_id "07") 1 ] [ story_move; story_note ];
  in_CreatedAtIsZero := false; in_State := story_state |}.

Definition story_proposal : EditProposal :=
  match @NormalizeEditProposal sample_platform story_input with
  | Ok p => p
  | _ => mkProposal "" "" "" None None "" (mkActor ActorCreator None None) "" 0 [] [] [] [] []
  end.

Lemma story_normalizes : @NormalizeEditProposal sample_platform story_input = Ok story_proposal.
Proof. vm_compute. reflexivity. Qed.

Lemma story_input_ok : input_ok story_input.
Proof. apply input_ok_intro; [apply (bool_decide_unpack _); vm_compute; exact I|repeat constructor]. Qed.

Lemma story_sections id v : st_Sections story_state !! id = Some v ->
  (id = sample_id "04" /\ v = story_opening) \/ (id = sample_id "07" /\ v = story_middle).
Proof.
  cbn [story_state st_Sections]. intros H. apply lookup_insert_Some in H as [[<- <-]|[_ H]]; [by left|].
  apply lookup_insert_Some in H as [[<- <-]|[_ H]]; [by right|]. by rewrite lookup_empty in H.
Qed.

Lemma story_narrative_ok : narrative_ok story_input.
Proof.
  assert (Htop : rooted (st_Sections story_state) (sample_id "04")) by (by apply (rooted_top _ _ story_opening)).
  split; [|done|].
  - exists (st_Sections story_state). split; [by apply (sections_of_entity (opening story_input))|]. split.
    + intros id [v Hv]. destruct (story_sections _ _ Hv) as [[-> _]|[-> _]]; [exact Htop|].
      apply (rooted_below _ _ (sample_id "04")); [by exists story_middle|exact Htop].
    + intros id node p Hn _ Hp. unfold stored in Hn. rewrite entity_node in Hn.
      destruct (narrativeNode (opening story_input) id) as [w|] eqn:E; [|done]. injection Hn as ->.
      assert (p = sample_id "04") as ->; [|by exists story_opening].
      unfold narrativeNode in E. cbn [opening n_sections n_texts n_sourceExcerpts n_visualIntents n_notes story_input in_State] in E.
      destruct (st_Sections story_state !! id) as [v|] eqn:E1.
      { injection E as <-. destruct (story_sections _ _ E1) as [[_ ->]|[_ ->]]; [done|by injection Hp as <-]. }
      destruct (st_AuthoredTexts story_state !! id) as [v|] eqn:E2; [|done]. injection E as <-.
      cbn [story_state st_AuthoredTexts] in E2. apply lookup_insert_Some in E2 as [[_ <-]|[_ E2]]; [by injection Hp as <-|done].
  - intros id. unfold live_children. cbn [opening n_sections n_texts n_sourceExcerpts n_visualIntents n_notes story_input in_State
      story_state st_Sections st_AuthoredTexts st_SourceExcerpts st_VisualIntents st_Notes st_SectionChildCounts].
    rewrite !count_insert. change (count _ ∅) with 0. unfold at_key.
    destruct (decide (id = sample_id "04")) as [->|Hne]; [vm_compute; discriminate|].
    rewrite (lookup_insert_ne _ (sample_id "04") id) by congruence.
    change ((<[sample_id "07" := story_middle]> (∅ : section_map)) !! sample_id "04") with (None : option NarrativeSectionState).
    rewrite !lookup_empty. unfold story_opening, story_middle, story_text.
    assert (Hno : bool_decide (Some (sample_id "04") = Some id) = false) by (apply bool_decide_eq_false; congruence).
    revert Hno. generalize (sample_id "04"). intros k Hno. unfold weight, child_of. cbn. rewrite !Hno.
    by rewrite bool_decide_eq_false_2.
Qed.

(** The moved text ends up below a live section. *)
Lemma proposal_narrative_tree_witness : narrative_shape (edited story_input story_proposal).
Proof. exact (@proposal_narrative_tree sample_platform _ _ story_input_ok story_narrative_ok story_normalizes). Defined.

(** [sectionDescendsFrom] decides descent.  In a document whose sections form a
    forest, it answers true exactly when following parents from the candidate
    meets the ancestor (the candidate itself included); the walk always ends,
    after at most one step per section. *)
Theorem section_descent_decided (m : section_map) (candidate ancestor : string) :
  m !! "" = None -> (forall id, is_Some (m !! id) -> rooted m id) -> is_Some (m !! candidate) ->
  (sectionDescendsFrom m candidate ancestor = true <-> descends m candidate ancestor) /\
  (forall more, descends_loop (2 + size m + more) m ∅ candidate ancestor = sectionDescendsFrom m candidate ancestor).
Proof.
  intros Hz Hr Hc. split; [apply sectionDescendsFrom_spec; auto|]. intros more.
  assert (Hd : descends_loop (2 + size m + more) m ∅ candidate ancestor = true <-> descends m candidate ancestor).
  { split; [|intros; apply descends_loop_finds; auto]. intros H.
    by apply (descends_loop_rooted m ancestor (2 + size m + more) candidate ltac:(lia) (Hr _ Hc)). }
  pose proof (sectionDescendsFrom_spec m candidate ancestor Hz (Hr _ Hc)) as Hs.
  destruct (descends_loop _ _ _ _ _), (sectionDescendsFrom _ _ _); intuition congruence.
Qed.

Lemma section_descent_decided_witness : descends (st_Sections story_state) (sample_id "07") (sample_id "04").
Proof.
  apply (section_descent_decided (st_Sections story_state) (sample_id "07") (sample_id "04")); [reflexivity| |eexists; reflexivity|vm_compute; reflexivity].
  destruct story_narrative_ok as [(m & Hm & Hr & _) _ _].
  rewrite (sections_of_unique _ _ _ Hm (sections_of_entity (opening story_input) _ (fun _ => eq_refl))) in Hr. exact Hr.
Defined.
