(* ===== verification/EditCoverage.v ===== *)
(** Remapped alignments: what [preservesAlignmentSemantics] accepts covers the same
    footage.

    The coverage of an alignment to clips is a set of instants of each source
    stream; the merged spans of [alignmentSourceCoverage] stand for exactly that
    set. *)
From stdpp Require Import base list strings gmap sorting.
From Stdlib Require Import ZArith QArith Lia Lqa Ascii.
From S2P Require Import Prelude GoText Exact Identity Canonical EditModel Timeline EditState EditClips.
From S2P Require Import EditNarrative EditCaptions EditTranscript EditDerive EditValidate EditNormalize.
From S2P Require Import EditEffects EditRanges EditJournal.
Open Scope Z_scope.

(** ** Spans as sets of instants *)

Definition span_valid (s : alignmentCoverageSpan) : Prop :=
  rt_valid (span_start s) /\ rt_valid (span_duration s) /\ (0 < rt_Q (span_duration s))%Q.
Definition span_covers (s : alignmentCoverageSpan) (q : Q) : Prop :=
  (rt_Q (span_start s) <= q /\ q < rt_Q (span_start s) + rt_Q (span_duration s))%Q.
Definition spans_cover (spans : list alignmentCoverageSpan) (q : Q) : Prop := Exists (fun s => span_covers s q) spans.

Lemma spans_cover_cons s spans q : spans_cover (s :: spans) q <-> span_covers s q \/ spans_cover spans q.
Proof. apply Exists_cons. Qed.

(** Two adjacent spans as one *)
Lemma span_join a b c q : (0 < rt_Q (span_duration a))%Q -> (0 < rt_Q (span_duration b))%Q ->
  (rt_Q (span_start b) == rt_Q (span_start a) + rt_Q (span_duration a))%Q -> span_start c = span_start a ->
  (rt_Q (span_duration c) == rt_Q (span_duration a) + rt_Q (span_duration b))%Q ->
  span_covers c q <-> span_covers a q \/ span_covers b q.
Proof.
  unfold span_covers. intros Ha Hb Hs -> Hd. split.
  - intros [H1 H2]. destruct (Qlt_le_dec q (rt_Q (span_start b))); [left|right]; split; lra.
  - intros [[H1 H2]|[H1 H2]]; split; lra.
Qed.

Lemma merge_spans_from_ok rest : forall previous merged, span_valid previous -> Forall span_valid rest ->
  merge_spans_from previous rest = Ok merged ->
  Forall span_valid merged /\ forall q, spans_cover merged q <-> spans_cover (previous :: rest) q.
Proof.
  induction rest as [|current rest IH]; intros previous merged Vp Hall Hm; cbn [merge_spans_from] in Hm.
  { injection Hm as <-. split; [by constructor|done]. }
  apply Forall_cons in Hall as [Vc Hrest]. destruct Vp as (V1 & V2 & P1), (Vc) as (W1 & W2 & P2). outcome_inv.
  destruct (Add_ok _ _ _ (proj1 V1) (proj1 V2) Hs) as (_ & _ & Ve & Qe).
  destruct (Compare_ok _ _ _ (proj1 W1) (proj1 Ve) Hs0) as (_ & _ & Hlt & Heq & Hgt).
  destruct (_ =? 0) eqn:E; outcome_inv.
  - apply Z.eqb_eq in E. apply Heq in E.
    match goal with Hx : Add (span_start current) _ = Ok _ |- _ => destruct (Add_ok _ _ _ (proj1 W1) (proj1 W2) Hx) as (_ & _ & Vf & Qf) end.
    match goal with Hx : Subtract _ _ = Ok _ |- _ => destruct (Subtract_ok _ _ _ (proj1 Vf) (proj1 V1) Hx) as (_ & _ & Vg & Qg) end.
    set (joined := mkSpan (span_start previous) _) in *.
    assert (Hj : forall q, span_covers joined q <-> span_covers previous q \/ span_covers current q).
    { intros q. apply span_join; [exact P1|exact P2| |reflexivity|].
      - rewrite E, Qe. reflexivity.
      - cbn [joined span_duration]. rewrite Qg, Qf, E, Qe. ring. }
    assert (Vj : span_valid joined).
    { split; [exact V1|]. split; [exact Vg|]. cbn [joined span_duration]. rewrite Qg, Qf, E, Qe. lra. }
    clearbody joined.
    match goal with Hx : merge_spans_from joined rest = Ok _ |- _ => destruct (IH _ _ Vj Hrest Hx) as [Vm Hq] end. split; [exact Vm|]. intros q.
    rewrite Hq, !spans_cover_cons, Hj. tauto.
  - subst merged. match goal with Hx : merge_spans_from current rest = Ok _ |- _ => destruct (IH _ _ Vc Hrest Hx) as [Vm Hq] end.
    split; [constructor; [split; [exact V1|split; [exact V2|exact P1]]|exact Vm]|]. intros q.
    rewrite !spans_cover_cons, Hq, spans_cover_cons. tauto.
Qed.

Lemma merge_spans_ok spans merged : Forall span_valid spans -> merge_spans spans = Ok merged ->
  Forall span_valid merged /\ forall q, spans_cover merged q <-> spans_cover spans q.
Proof.
  intros Hall Hm. unfold merge_spans in Hm. pose proof (merge_sort_Permutation span_le spans) as Hp.
  assert (Hs : forall q, spans_cover (merge_sort span_le spans) q <-> spans_cover spans q).
  { intros q. unfold spans_cover. by rewrite !Exists_exists; setoid_rewrite Hp. }
  rewrite <- Hp in Hall. destruct (merge_sort span_le spans) as [|first rest].
  - injection Hm as <-. split; [done|exact Hs].
  - apply Forall_cons in Hall as [Hf Hr]. destruct (merge_spans_from_ok _ _ _ Hf Hr Hm) as [V Hq].
    split; [exact V|]. intros q. rewrite Hq. apply Hs.
Qed.

(** ** The coverage of targets *)

(** The footage a target stands for: a stretch of its clip, as instants of the
    clip's source stream *)
Definition target_covers (clips : gmap string ClipState) (target : AlignmentTarget) (asset stream : string) (q : Q) : Prop :=
  match target with
  | TargetClip t => exists clip, clips !! kt_ClipID t = Some clip /\ clip_AssetID clip = asset /\ clip_SourceStreamID clip = stream /\
      (start_Q (clip_SourceRange clip) + start_Q (kt_LocalRange t) <= q /\
       q < start_Q (clip_SourceRange clip) + end_Q (kt_LocalRange t))%Q
  | _ => False
  end.
Definition targets_cover (clips : gmap string ClipState) (targets : list AlignmentTarget) (asset stream : string) (q : Q) : Prop :=
  Exists (fun t => target_covers clips t asset stream q) targets.

(** Clips have identities without NUL, and source starts that are valid times. *)
Definition clips_named (clips : gmap string ClipState) : Prop :=
  forall id c, clips !! id = Some c -> nul_free (clip_AssetID c) = true /\ rt_valid (tr_Start (clip_SourceRange c)).
Definition target_typed (t : AlignmentTarget) : Prop :=
  match t with TargetClip t => range_typed (kt_LocalRange t) | _ => True end.

Definition coverage_ok (result : gmap string (list alignmentCoverageSpan)) : Prop :=
  forall key spans, result !! key = Some spans -> Forall span_valid spans.

Lemma rangeWithin_valid r d : range_typed r -> rangeWithin r d = true ->
  rt_valid (tr_Start r) /\ rt_valid (tr_Duration r) /\ (0 < rt_Q (tr_Duration r))%Q.
Proof.
  intros [Ts Td] H. unfold rangeWithin in H. destruct (_ || _ || _ || _ || _) eqn:E; [discriminate|]. bool_prop.
  assert (Vd : rt_valid (tr_Duration r)) by (apply valid_time_ok; assumption).
  split; [apply valid_time_ok; assumption|]. split; [exact Vd|]. apply IsPositive_Q; assumption.
Qed.

Lemma collect_spans_ok clips targets asset stream : clips_named clips -> nul_free asset = true ->
  forall result result', Forall target_typed targets -> coverage_ok result -> collect_spans result targets clips = Ok result' ->
  coverage_ok result' /\
  forall q, spans_cover (at_key [] result' (entityKey asset stream)) q <->
    spans_cover (at_key [] result (entityKey asset stream)) q \/ targets_cover clips targets asset stream q.
Proof.
  intros Hn Ha. induction targets as [|target targets IH]; intros result result' Ht Hok Hr; cbn [collect_spans] in Hr.
  { injection Hr as <-. split; [done|]. intros q. unfold targets_cover. rewrite Exists_nil. tauto. }
  apply Forall_cons in Ht as [Htt Hts]. destruct target as [t|t|t]; [discriminate| |discriminate]. outcome_inv. bool_prop.
  set (clip := at_key zero_clip clips (kt_ClipID t)) in *.
  assert (Hin : clips !! kt_ClipID t = Some clip) by (unfold clip, at_key in *; by destruct (clips !! kt_ClipID t)).
  clearbody clip. destruct (Hn _ _ Hin) as [Hnul Vs].
  match goal with Hx : rangeWithin _ _ = true |- _ => destruct (rangeWithin_valid _ _ Htt Hx) as (Vl & Vd & Pd) end.
  match goal with Hx : Add _ _ = Ok _ |- _ => destruct (Add_ok _ _ _ (proj1 Vs) (proj1 Vl) Hx) as (_ & _ & Vv & Qv) end.
  match goal with Hx : collect_spans ?m _ _ = Ok _ |- _ => assert (Hok' : coverage_ok m) end.
  { intros key spans. destruct (decide (key = coverage_key clip)) as [->|Hne].
    - rewrite lookup_insert_eq. intros [= <-]. apply Forall_app. split.
      + unfold at_key. destruct (result !! coverage_key clip) eqn:E; [by eapply Hok|constructor].
      + constructor; [|constructor]. split; [exact Vv|]. split; [exact Vd|exact Pd].
    - rewrite lookup_insert_ne by congruence. apply Hok. }
  match goal with Hx : collect_spans _ _ _ = Ok _ |- _ => destruct (IH _ _ Hts Hok' Hx) as [Hfinal Hq] end.
  split; [exact Hfinal|]. intros q. rewrite Hq. unfold targets_cover. rewrite Exists_cons. cbn [target_covers].
  change (coverage_key clip) with (entityKey (clip_AssetID clip) (clip_SourceStreamID clip)).
  unfold at_key. destruct (decide (entityKey asset stream = entityKey (clip_AssetID clip) (clip_SourceStreamID clip))) as [E|Hne].
  - pose proof (key_text_inj (asset, stream) (clip_AssetID clip, clip_SourceStreamID clip) Ha Hnul E) as [= -> ->].
    rewrite lookup_insert_eq. cbn [default from_option]. unfold id, spans_cover. rewrite Exists_app, Exists_cons, Exists_nil.
    unfold span_covers at 1. cbn [span_start span_duration]. unfold end_Q, start_Q in *. split.
    + intros [[K|[[K1 K2]|[]]]|K]; [by left| |by right; right]. cbn in K1, K2. right; left. exists clip.
      do 3 (split; [done|]). split; lra.
    + intros [K|[(c & Hc & _ & _ & K1 & K2)|K]]; [by left; left| |by right].
      rewrite Hin in Hc. injection Hc as <-. left; right; left. split; cbn; lra.
  - rewrite lookup_insert_ne by congruence. split.
    + intros [K|K]; [by left|by right; right].
    + intros [K|[(c & Hc & <- & <- & _)|K]]; [by left| |by right]. rewrite Hin in Hc. by injection Hc as <-.
Qed.

Lemma merge_entries_ok entries : NoDup (fst <$> entries) -> forall result, merge_entries entries = Ok result ->
  (forall key spans, (key, spans) ∈ entries -> exists merged, merge_spans spans = Ok merged /\ result !! key = Some merged) /\
  (forall key, key ∉ fst <$> entries -> result !! key = None).
Proof.
  induction entries as [|[k l] rest IH]; intros Hnd result Hr; cbn [merge_entries] in Hr.
  { injection Hr as <-. split; [by intros ? ? ?%elem_of_nil|]. intros. apply lookup_empty. }
  apply NoDup_cons in Hnd as [Hk Hnd]. outcome_inv. subst result.
  match goal with Hx : merge_entries rest = Ok _ |- _ => destruct (IH Hnd _ Hx) as [H1 H2] end. split.
  - intros key spans [[= -> ->]|Hin]%elem_of_cons; [eexists; split; [eassumption|apply lookup_insert_eq]|].
    destruct (H1 _ _ Hin) as (m & Hm & Hl). exists m. split; [done|]. rewrite lookup_insert_ne; [done|].
    intros ->. apply Hk. by apply (list_elem_of_fmap_2' fst _ (key, spans)).
  - intros key Hno. cbn in Hno. rewrite lookup_insert_ne by set_solver. apply H2. set_solver.
Qed.

Lemma alignmentSourceCoverage_ok targets clips asset stream coverage : clips_named clips -> nul_free asset = true ->
  Forall target_typed targets -> alignmentSourceCoverage targets clips = Ok coverage ->
  coverage_ok coverage /\
  forall q, spans_cover (at_key [] coverage (entityKey asset stream)) q <-> targets_cover clips targets asset stream q.
Proof.
  intros Hn Ha Ht Hr. unfold alignmentSourceCoverage in Hr. outcome_inv.
  match goal with Hx : collect_spans ∅ _ _ = Ok ?m |- _ =>
    destruct (collect_spans_ok clips targets asset stream Hn Ha ∅ m Ht) as [Hok Hq]; [by intros ? ?; rewrite lookup_empty|exact Hx|];
    rename m into result end.
  match goal with Hx : merge_entries _ = Ok _ |- _ =>
    destruct (merge_entries_ok _ (NoDup_fst_map_to_list result) _ Hx) as [Hin Hout] end.
  assert (Hmerged : forall key spans, result !! key = Some spans -> exists merged, merge_spans spans = Ok merged /\ coverage !! key = Some merged)
    by (intros key spans H; by apply Hin, elem_of_map_to_list).
  assert (Hnone : forall key, result !! key = None -> coverage !! key = None).
  { intros key H. apply Hout. intros ([k l] & -> & Hx)%list_elem_of_fmap. apply elem_of_map_to_list in Hx. cbn in H. congruence. }
  split.
  - intros key spans Hspans. destruct (result !! key) as [l|] eqn:E; [|rewrite (Hnone _ E) in Hspans; discriminate].
    destruct (Hmerged _ _ E) as (m & Hm & Hc). rewrite Hspans in Hc. injection Hc as <-.
    by destruct (merge_spans_ok _ _ (Hok _ _ E) Hm).
  - intros q. specialize (Hq q). unfold at_key in *. rewrite lookup_empty in Hq. cbn in Hq. unfold spans_cover at 2 in Hq.
    rewrite Exists_nil in Hq. transitivity (spans_cover (default [] (result !! entityKey asset stream)) q); [|rewrite Hq; tauto].
    destruct (result !! entityKey asset stream) as [l|] eqn:E; [|by rewrite (Hnone _ E)].
    destruct (Hmerged _ _ E) as (m & Hm & ->). cbn. by apply (merge_spans_ok _ _ (Hok _ _ E)).
Qed.

(** ** Comparing coverages *)

Lemma same_spans_eq lefts : forall rights, Forall span_valid lefts -> Forall span_valid rights ->
  same_spans lefts rights = true -> lefts = rights.
Proof.
  induction lefts as [|l lefts IH]; intros [|r rights] Hl Hr H; try discriminate; [done|]. cbn in H.
  apply Forall_cons in Hl as [(V1 & V2 & _) Hl], Hr as [(W1 & W2 & _) Hr].
  destruct (RationalTime_Compare (span_start l) _) as [c| |] eqn:E1; try discriminate.
  destruct (RationalTime_Compare (span_duration l) _) as [d| |] eqn:E2; try discriminate. bool_prop.
  destruct (Compare_ok _ _ _ (proj1 V1) (proj1 W1) E1) as (_ & _ & _ & K1 & _).
  destruct (Compare_ok _ _ _ (proj1 V2) (proj1 W2) E2) as (_ & _ & _ & K2 & _).
  rewrite (IH rights Hl Hr) by assumption. destruct l, r; cbn in *. rewrite (proj1 K1), (proj1 K2) by lia. reflexivity.
Qed.

Lemma sameAlignmentCoverage_eq l r : coverage_ok l -> coverage_ok r -> sameAlignmentCoverage l r = true -> l = r.
Proof.
  intros Hl Hr H. unfold sameAlignmentCoverage in H. bool_prop. apply Nat.eqb_eq in H.
  match goal with Hx : forallb _ _ = true |- _ => rewrite forallb_forall in Hx; rename Hx into Hall end.
  assert (Hsub : forall key spans, l !! key = Some spans -> r !! key = Some spans).
  { intros key spans Hk. specialize (Hall (key, spans)). cbn in Hall. rewrite <- list_elem_of_In in Hall.
    specialize (Hall (proj2 (elem_of_map_to_list _ _ _) Hk)). destruct (r !! key) as [other|] eqn:E; [|discriminate].
    f_equal. symmetry. eapply same_spans_eq; [by eapply Hl|by eapply Hr|exact Hall]. }
  apply map_subseteq_size_eq; [apply map_subseteq_spec; exact Hsub|lia].
Qed.

(** C7: A remapped alignment keeps its footage.  When
    [preservesAlignmentSemantics] accepts new clip targets for an alignment to
    clips, the new targets, over the edited clips, cover exactly the instants of
    exactly the source streams that the old targets covered over the stored
    clips: nothing is gained or lost by splitting, moving or trimming. *)
Theorem remap_keeps_footage (n : editNormalizer) (t : ClipAlignmentTarget) (current next : list AlignmentTarget) :
  clips_named (st_Clips (in_State (n_input n))) -> clips_named (n_clips n) ->
  Forall target_typed (TargetClip t :: current) -> Forall target_typed next ->
  preservesAlignmentSemantics n (TargetClip t :: current) next = Ok true ->
  forall asset stream q, nul_free asset = true ->
  targets_cover (st_Clips (in_State (n_input n))) (TargetClip t :: current) asset stream q <->
  targets_cover (n_clips n) next asset stream q.
Proof.
  intros N1 N2 T1 T2 H asset stream q Ha. cbn [preservesAlignmentSemantics] in H. injection H as H.
  destruct (alignmentSourceCoverage (TargetClip t :: current) _) as [old| |] eqn:E1; try discriminate.
  destruct (alignmentSourceCoverage next _) as [new| |] eqn:E2; try discriminate.
  destruct (alignmentSourceCoverage_ok _ _ asset stream _ N1 Ha T1 E1) as [O1 Q1].
  destruct (alignmentSourceCoverage_ok _ _ asset stream _ N2 Ha T2 E2) as [O2 Q2].
  rewrite <- Q1, <- Q2. by rewrite (sameAlignmentCoverage_eq _ _ O1 O2 H).
Qed.

#[export] Instance rt_valid_dec t : Decision (rt_valid t).
Proof. unfold rt_valid, rt_typed. apply _. Defined.

Lemma clips_named_intro (clips : gmap string ClipState) :
  map_Forall (fun _ c => nul_free (clip_AssetID c) = true /\ rt_valid (tr_Start (clip_SourceRange c))) clips -> clips_named clips.
Proof. intros H id c Hc. exact (H id c Hc). Qed.

(** The clips of the sample after its entity operations: clip 30 is split at four
    seconds into clips 40 and 41. *)
Definition sample_split_state : editNormalizer :=
  match newEditNormalizer sample_input with
  | Ok b => match @normalizeEntityOperations sample_platform b with Ok (_, m) => m | _ => b end
  | _ => mkNormalizer sample_input ∅ ∅ ∅ ∅ ∅ ∅ ∅ ∅ ∅ ∅ ∅ ∅ ∅ ∅ ∅ ∅ [] [] [] false false ∅ ∅
  end.

(** An alignment to seconds 2 to 6 of the clip continues on both halves. *)
Lemma remap_keeps_footage_witness :
  targets_cover (n_clips sample_split_state)
    [TargetClip (mkClipTarget (sample_id "40") 1 (seconds 2 2)); TargetClip (mkClipTarget (sample_id "41") 1 (seconds 0 2))]
    (sample_id "21") (sample_id "20") 5.
Proof.
  apply (remap_keeps_footage sample_split_state (mkClipTarget (sample_id "30") 1 (seconds 2 4)) []
    [TargetClip (mkClipTarget (sample_id "40") 1 (seconds 2 2)); TargetClip (mkClipTarget (sample_id "41") 1 (seconds 0 2))]);
    [apply clips_named_intro, (bool_decide_unpack _); vm_compute; exact I|apply clips_named_intro, (bool_decide_unpack _); vm_compute; exact I
    | | |vm_compute; reflexivity|reflexivity|].
  - repeat constructor; cbn; unfold MinInt64, MaxInt64, MinInt32, MaxInt32; lia.
  - repeat constructor; cbn; unfold MinInt64, MaxInt64, MinInt32, MaxInt32; lia.
  - apply Exists_cons_hd. exists (sample_clip "30" 0 10). split; [vm_compute; reflexivity|]. split; [reflexivity|]. split; [reflexivity|].
    split; vm_compute; [discriminate|reflexivity].
Defined.
