(* ===== verification/EditCues.v ===== *)
(** Derived captions are readable: what [wrapCaptionUnits], [groupCaptionUnits]
    and [DeriveCaptionCues] guarantee about line length, line count, reading time
    and overlap, and that no word is lost or reordered. *)
From stdpp Require Import base list strings gmap sorting.
From Stdlib Require Import ZArith QArith Lia Lqa Ascii.
From S2P Require Import Prelude GoText Exact Identity Canonical EditModel Timeline EditState EditClips.
From S2P Require Import EditNarrative EditCaptions EditTranscript EditDerive EditNormalize EditEffects EditRanges.
Open Scope Z_scope.

(** ** Lines *)

Section lines.
Context `{Platform}.

(** A list of units that fits one line *)
Definition fits (policy : CaptionDerivationPolicy) (units : list captionEvidenceUnit) : Prop :=
  GraphemeClusterCount (joinCaptionUnits units) <= cp_MaximumLineGraphemes policy.

(** Every prefix fits: the open line before any break *)
Definition prefixes_fit (policy : CaptionDerivationPolicy) (units : list captionEvidenceUnit) : Prop :=
  forall k, (0 < k <= length units)%nat -> fits policy (take k units).

Lemma last_boundary_bound units k : (last_boundary units k <= k)%nat.
Proof. induction k as [|k IH]; cbn; [lia|]. repeat case_match; lia. Qed.

(** At most one complete line: the second break is refused under a limit of two. *)
Lemma wrap_loop_ok policy units : cp_MaximumLines policy <= 2 -> forall lines current lines' current',
  (lines = [] /\ prefixes_fit policy current \/ (exists l, lines = [l] /\ l <> [] /\ fits policy l) /\ (current <> [] -> fits policy current)) ->
  wrap_loop policy lines current units = Ok (lines', current') ->
  concat lines' ++ current' = concat lines ++ current ++ units /\
  Forall (fun l => l <> [] /\ fits policy l) lines' /\ (current' <> [] -> fits policy current').
Proof.
  intros Hmax. induction units as [|unit rest IH]; intros lines current lines' current' Hinv Hr; cbn [wrap_loop] in Hr.
  { injection Hr as <- <-. split; [by rewrite app_nil_r|]. destruct Hinv as [[-> Hp]|[(l & -> & Hl & Hf) Hc]].
    - split; [constructor|]. intros Hne. rewrite <- (firstn_all current). apply Hp. destruct current; [done|cbn; lia].
    - split; [by repeat constructor|exact Hc]. }
  destruct (_ <=? _) eqn:E.
  { apply Z.leb_le in E. destruct (IH lines (current ++ [unit]) lines' current') as (G1 & G2 & G3); [|exact Hr|].
    - destruct Hinv as [[-> Hp]|[Hl _]]; [left|right; split; [exact Hl|by intros _]]. split; [done|].
      intros k Hk. destruct (decide (k = length (current ++ [unit]))) as [->|Hne]; [by rewrite firstn_all|].
      rewrite length_app in *. cbn in *. rewrite take_app_le by lia. apply Hp. lia.
    - split; [|done]. rewrite G1. by rewrite <- !app_assoc. }
  destruct (_ =? 0)%nat eqn:E0; [discriminate|]. apply Nat.eqb_neq in E0.
  destruct (_ || _) eqn:Eo; [discriminate|]. bool_prop.
  destruct Hinv as [[-> Hp]|[(l & -> & _) _]]; [|cbn in *; lia].
  set (candidate := current ++ [unit]) in *. set (k := lastCaptionWordBoundary candidate) in *.
  assert (Hk : (0 < k <= length current)%nat).
  { split; [lia|]. unfold k, lastCaptionWordBoundary. pose proof (last_boundary_bound candidate (length candidate - 1)).
    unfold candidate in *. rewrite length_app in *. cbn in *. lia. }
  assert (Htake : take k candidate = take k current) by (unfold candidate; by rewrite take_app_le by lia).
  destruct (IH ([] ++ [take k candidate]) (drop k candidate) lines' current') as (G1 & G2 & G3); [|exact Hr|].
  - right. split; [|by intros _; unfold fits]. exists (take k candidate). split; [done|]. rewrite Htake. split; [|by apply Hp].
    intros Hnil. apply (f_equal length) in Hnil. rewrite length_take in Hnil. cbn in Hnil. lia.
  - split; [|done]. rewrite G1. cbn. rewrite app_nil_r, app_assoc, take_drop. unfold candidate. by rewrite <- app_assoc.
Qed.

(** What an accepted text is: the units in order, on lines that fit *)
Lemma wrapCaptionUnits_ok policy units text : cp_MaximumLines policy <= 2 -> wrapCaptionUnits units policy = Ok text ->
  exists lines, concat lines = units /\ Forall (fun l => l <> [] /\ fits policy l) lines /\
    1 <= Z.of_nat (length lines) <= cp_MaximumLines policy /\ text = join_lines (map joinCaptionUnits lines) /\
    text <> "" /\ go_len text <= MaximumAuthoredTextBytes.
Proof.
  intros Hmax Hr. unfold wrapCaptionUnits in Hr. outcome_inv. destruct v as [lines current].
  destruct (wrap_loop_ok policy units Hmax [] [] lines current) as (G1 & G2 & G3);
    [left; split; [done|intros k Hlt; cbn in Hlt; lia]|exact Hs|].
  outcome_inv. bool_prop. subst text. cbn in G1. eexists. split; [|split; [|split; [|split; [reflexivity|]]]].
  - destruct current as [|u current]; cbn [length Nat.eqb]; [by rewrite <- G1, app_nil_r|]. rewrite concat_app. cbn. by rewrite app_nil_r.
  - destruct current as [|u current]; cbn [length Nat.eqb]; [done|]. apply Forall_app. split; [done|]. repeat constructor; [done|by apply G3].
  - split; [|lia]. match goal with Hx : negb (length ?l =? 0)%nat = true |- _ => destruct l; [discriminate|cbn; lia] | Hx : (length ?l =? 0)%nat = false |- _ => destruct l; [discriminate|cbn; lia] end.
  - split; [assumption|lia].
Qed.

(** ** Groups *)

Lemma group_loop_ok policy units : forall groups current groups',
  Forall (fun g => is_ok (wrapCaptionUnits g policy) = true) groups -> (current <> [] -> is_ok (wrapCaptionUnits current policy) = true) ->
  group_loop policy groups current units = Ok groups' ->
  concat groups' = concat groups ++ current ++ units /\ Forall (fun g => is_ok (wrapCaptionUnits g policy) = true) groups'.
Proof.
  induction units as [|unit rest IH]; intros groups current groups' Hg Hc Hr; cbn [group_loop] in Hr.
  { injection Hr as <-. destruct current as [|u current]; cbn [length Nat.eqb].
    - by rewrite !app_nil_r.
    - rewrite concat_app. cbn. rewrite !app_nil_r. split; [done|]. apply Forall_app. split; [done|].
      constructor; [by apply Hc|constructor]. }
  outcome_inv. match goal with Hx : wrapCaptionUnits ?c _ = Ok _ |- _ => rename Hx into Hwrap end.
  match goal with Hx : group_loop _ ?g ?c rest = Ok _ |- _ => destruct (IH g c groups') as [G1 G2]; [| |exact Hx|] end.
  - destruct v0; [|done]. apply Forall_app. split; [done|]. constructor; [|constructor]. apply Hc. intros ->.
    match goal with Hx : _ = Ok true |- _ => discriminate Hx end.
  - intros _. by rewrite Hwrap.
  - split; [|done]. rewrite G1. destruct v0; [rewrite concat_app; cbn|]; by rewrite ?app_nil_r, <- !app_assoc.
Qed.

Lemma groupCaptionUnits_ok policy units groups : groupCaptionUnits units policy = Ok groups ->
  concat groups = units /\ Forall (fun g => is_ok (wrapCaptionUnits g policy) = true) groups /\ (1 <= length groups <= 128)%nat.
Proof.
  intros Hr. unfold groupCaptionUnits in Hr. outcome_inv. bool_prop. subst.
  match goal with Hx : group_loop _ _ _ _ = Ok _ |- _ => destruct (group_loop_ok _ _ _ _ _ (Forall_nil_2 _) ltac:(done) Hx) as [G1 G2] end.
  split; [exact G1|]. split; [exact G2|].
  repeat match goal with Hx : (_ =? _)%nat = false |- _ => apply Nat.eqb_neq in Hx | Hx : (_ <=? _)%nat = true |- _ => apply Nat.leb_le in Hx end. lia.
Qed.

(** C9: Derived caption text is readable and complete.  Grouping splits the
    evidence into at least one and at most 128 captions without losing,
    repeating or reordering a unit; the text of each caption puts its units, in
    order, on one to [MaximumLines] lines, each of at most
    [MaximumLineGraphemes] clusters, and is neither empty nor over the byte
    limit. *)
Theorem caption_text_fits (policy : CaptionDerivationPolicy) (units : list captionEvidenceUnit) (groups : list (list captionEvidenceUnit)) :
  cp_MaximumLines policy <= 2 -> groupCaptionUnits units policy = Ok groups ->
  concat groups = units /\ (1 <= length groups <= 128)%nat /\
  Forall (fun group => exists text lines, wrapCaptionUnits group policy = Ok text /\ concat lines = group /\
    Forall (fun line => line <> [] /\ GraphemeClusterCount (joinCaptionUnits line) <= cp_MaximumLineGraphemes policy) lines /\
    1 <= Z.of_nat (length lines) <= cp_MaximumLines policy /\ text = join_lines (map joinCaptionUnits lines) /\
    text <> "" /\ go_len text <= MaximumAuthoredTextBytes) groups.
Proof.
  intros Hmax Hr. destruct (groupCaptionUnits_ok _ _ _ Hr) as (G1 & G2 & G3). split; [exact G1|]. split; [exact G3|].
  eapply Forall_impl; [exact G2|]. intros group Hok. cbn in Hok. destruct (wrapCaptionUnits group policy) as [text| |] eqn:E; try discriminate.
  destruct (wrapCaptionUnits_ok _ _ _ Hmax E) as (lines & ? & ? & ? & ? & ?). exists text, lines. split; [done|].
  repeat (split; [assumption|]). assumption.
Qed.
End lines.

(** Three words of half a second each, with a pause of two seconds before the last *)
Definition sample_units : list captionEvidenceUnit :=
  [ mkUnit (mkRange (mkTime 0 1) (mkTime 1 2)) "Open " false ["a"] None;
    mkUnit (mkRange (mkTime 1 2) (mkTime 1 2)) "Cut" false ["a"] None;
    mkUnit (mkRange (mkTime 3 1) (mkTime 1 2)) "works" true ["b"] None ].

Lemma caption_text_fits_witness : exists groups,
  @groupCaptionUnits sample_platform sample_units ReadableCaptionPolicyV1 = Ok groups /\ concat groups = sample_units /\ length groups = 2%nat.
Proof.
  eexists. split; [vm_compute; reflexivity|]. split; [|reflexivity].
  eapply (@caption_text_fits sample_platform ReadableCaptionPolicyV1 sample_units); [cbn; lia|vm_compute; reflexivity].
Defined.

(** ** Cues *)

Lemma NewTimeRange_intro s d : rt_valid s -> rt_valid d -> (0 < rt_Q d)%Q -> NewTimeRange s d = Ok (mkRange s d).
Proof.
  intros [_ Hs] Vd Pd. unfold NewTimeRange. rewrite Hs, (proj2 Vd). cbn.
  destruct (IsNegative d) eqn:E; [|reflexivity]. apply (IsNegative_Q _ Vd) in E. lra.
Qed.

(** [later] is the greater of two times, and invalid when its second argument is. *)
Lemma later_valid a b : rt_valid a -> rt_typed b -> rt_valid (later a b) ->
  rt_valid b /\ (rt_Q a <= rt_Q (later a b))%Q /\ (rt_Q b <= rt_Q (later a b))%Q.
Proof.
  intros Va Tb Vl. unfold later in *. destruct (RationalTime_Compare a b) as [c| |] eqn:E; cbn [cmp_or_zero] in *.
  - destruct (Compare_ok _ _ _ (proj1 Va) Tb E) as (_ & Vb & _ & _ & Hg). split; [exact Vb|].
    destruct (0 <? c) eqn:Ec.
    + apply Z.ltb_lt, Hg in Ec. split; lra.
    + apply Z.ltb_ge in Ec. split; [|lra]. apply Qnot_lt_le. intros Hlt. apply Hg in Hlt. lia.
  - cbn in Vl. exfalso. destruct (Compare_valid a b Va Vl) as (c & Hc & _). rewrite E in Hc. discriminate.
  - cbn in Vl. exfalso. destruct (Compare_valid a b Va Vl) as (c & Hc & _). rewrite E in Hc. discriminate.
Qed.

Lemma compare_at_most a b : rt_valid a -> rt_valid b -> (cmp_or_zero (RationalTime_Compare a b) <=? 0) = true -> (rt_Q a <= rt_Q b)%Q.
Proof.
  intros Va Vb H. destruct (Compare_valid a b Va Vb) as (c & E & Hc). rewrite E in H. cbn in H.
  destruct (compare_at_least _ _ _ (proj1 Va) (proj1 Vb) E) as [_ Hle]. exact (Hle H).
Qed.

Lemma end_or_zero_typed r : range_typed r -> rt_typed (end_or_zero r).
Proof.
  intros [Ts Td]. unfold end_or_zero, End. destruct (Add _ _) as [e| |] eqn:E.
  - destruct (Add_ok _ _ _ Ts Td E) as (_ & _ & [T _] & _). exact T.
  - split; cbn; unfold MinInt64, MaxInt64, MinInt32, MaxInt32; lia.
  - split; cbn; unfold MinInt64, MaxInt64, MinInt32, MaxInt32; lia.
Qed.

Lemma end_or_zero_Q r : range_typed r -> rt_valid (end_or_zero r) -> (rt_Q (end_or_zero r) == end_Q r)%Q.
Proof.
  intros [Ts Td] V. unfold end_or_zero, End in *. destruct (Add _ _) as [e| |] eqn:E.
  - destruct (Add_ok _ _ _ Ts Td E) as (_ & _ & _ & Q). exact Q.
  - destruct V as [_ V]. discriminate V.
  - destruct V as [_ V]. discriminate V.
Qed.

(** A caption cue of a group of units against its clip: it shows the text of the
    group from its first word to its last, for between the minimum and the maximum duration and long enough to read, at
    the place of the timeline where the clip plays that stretch. *)
Record cue_readable `{Platform} (policy : CaptionDerivationPolicy) (clip : ClipState)
    (group : list captionEvidenceUnit) (cue : CaptionDerivationCue) : Prop := mkReadable {
  readable_text : wrapCaptionUnits group policy = Ok (cue_Text cue);
  readable_source : span_ok (cue_SourceRange cue);
  readable_timeline : span_ok (cue_TimelineRange cue);
  readable_length : tr_Duration (cue_TimelineRange cue) = tr_Duration (cue_SourceRange cue);
  readable_minimum : (rt_Q (cp_MinimumDuration policy) <= rt_Q (tr_Duration (cue_SourceRange cue)))%Q;
  readable_maximum : (rt_Q (tr_Duration (cue_SourceRange cue)) <= rt_Q (cp_MaximumDuration policy))%Q;
  readable_rate : (GraphemeClusterCount (without_newlines (cue_Text cue)) # Z.to_pos (cp_MaximumReadingRate policy)
                     <= rt_Q (tr_Duration (cue_SourceRange cue)))%Q;
  readable_evidence : exists first final, head group = Some first /\ last group = Some final /\
    tr_Start (cue_SourceRange cue) = tr_Start (unit_range first) /\ (end_Q (unit_range final) <= end_Q (cue_SourceRange cue))%Q;
  readable_place : (start_Q (cue_TimelineRange cue) - start_Q (clip_TimelineRange clip) ==
                    start_Q (cue_SourceRange cue) - start_Q (clip_SourceRange clip))%Q;
  readable_inside : (start_Q (clip_TimelineRange clip) <= start_Q (cue_TimelineRange cue))%Q /\
                    (end_Q (cue_TimelineRange cue) <= end_Q (clip_TimelineRange clip))%Q }.

(** What the policy and the platform guarantee *)
Record policy_sane (policy : CaptionDerivationPolicy) : Prop := mkPolicySane {
  sane_minimum : rt_valid (cp_MinimumDuration policy) /\ (0 < rt_Q (cp_MinimumDuration policy))%Q;
  sane_maximum : rt_valid (cp_MaximumDuration policy);
  sane_rate : 0 < cp_MaximumReadingRate policy <= MaxInt32;
  sane_lines : cp_MaximumLines policy <= 2 }.

(** Extended grapheme clusters are at least one byte each. *)
Definition counts_clusters `{Platform} : Prop := forall text, 0 <= GraphemeClusterCount text <= go_len text.

Lemma go_len_without_newlines text : go_len (without_newlines text) <= go_len text.
Proof.
  unfold go_len, without_newlines. rewrite bytes_of_string_of. apply inj_le. apply length_filter.
Qed.

Lemma transcriptRangeContains_ok parent child : range_typed parent -> range_typed child -> transcriptRangeContains parent child = true ->
  (start_Q parent <= start_Q child)%Q /\ (end_Q child <= end_Q parent)%Q.
Proof.
  intros [Tp Dp] [Tc Dc] H. unfold transcriptRangeContains, End in H.
  destruct (Add (tr_Start parent) _) as [pe| |] eqn:E1; try discriminate.
  destruct (Add (tr_Start child) _) as [ce| |] eqn:E2; try discriminate.
  destruct (Add_ok _ _ _ Tp Dp E1) as (Vp & _ & Vpe & Q1). destruct (Add_ok _ _ _ Tc Dc E2) as (Vc & _ & Vce & Q2).
  destruct (RationalTime_Compare (tr_Start child) _) as [s| |] eqn:E3; try discriminate.
  destruct (RationalTime_Compare ce pe) as [e| |] eqn:E4; try discriminate. bool_prop.
  destruct (compare_at_least _ _ _ Tc Tp E3) as [Hs _]. destruct (compare_at_least _ _ _ (proj1 Vce) (proj1 Vpe) E4) as [_ He].
  unfold start_Q, end_Q. split; [apply Hs; lia|]. rewrite <- Q1, <- Q2. apply He. lia.
Qed.

Lemma derive_cue_ok `{Platform} policy clip capEnd group cue : counts_clusters -> policy_sane policy ->
  range_typed (clip_SourceRange clip) -> range_typed (clip_TimelineRange clip) -> rt_valid capEnd ->
  Forall (fun u => range_typed (unit_range u)) group -> derive_cue clip policy capEnd group = Ok cue ->
  cue_readable policy clip group cue /\ (end_Q (cue_SourceRange cue) <= rt_Q capEnd)%Q.
Proof.
  intros Hcount [[Vmin Pmin] Vmax Hrate Hlines] [Tcs Tcd] [Tts Ttd] Vcap Hgroup Hr. unfold derive_cue in Hr. outcome_inv.
  destruct group as [|first rest]; [discriminate|]. destruct (last (first :: rest)) as [final|] eqn:Elast; [|discriminate].
  apply Forall_cons in Hgroup as [[Tfs Tfd] Hrest].
  assert (Tfin : range_typed (unit_range final)).
  { apply last_Some in Elast as [l' Hl']. assert (final ∈ first :: rest) as Hin by (rewrite Hl'; apply elem_of_app; right; left).
    apply elem_of_cons in Hin as [->|Hin]; [split; assumption|]. exact (proj1 (Forall_forall _ _) Hrest _ Hin). }
  rename v into text. match goal with Hx : wrapCaptionUnits _ _ = _ |- _ => rename Hx into Hwrap end.
  destruct (wrapCaptionUnits_ok _ _ _ Hlines Hwrap) as (_ & _ & _ & _ & _ & _ & Hbytes).
  destruct (Hcount (without_newlines text)) as [Hc0 Hc1]. pose proof (go_len_without_newlines text) as Hc2.
  unfold MaximumAuthoredTextBytes in Hbytes. destruct (captionGroupEvidence _) as [ids refs]. outcome_inv. subst cue.
  destruct (Add_ok _ _ _ Tfs (proj1 Vmin) Hs) as (Vf & _ & Vm & Qm).
  rewrite to_int64_small in Hs0 by (unfold MinInt64, MaxInt64; lia). rewrite to_int32_small in Hs0 by (unfold MinInt32; lia).
  destruct (NewRationalTime_spec (GraphemeClusterCount (without_newlines text)) (cp_MaximumReadingRate policy)) as (rd & Erd & Vrd & Qrd);
    [unfold MinInt64, MaxInt64; lia|exact Hrate|]. rewrite Erd in Hs0. injection Hs0 as <-.
  destruct (Add_ok _ _ _ Tfs (proj1 Vrd) Hs1) as (_ & _ & Vr & Qr).
  set (evidenceEnd := end_or_zero (unit_range final)) in *. pose proof (end_or_zero_typed _ Tfin) as Te. fold evidenceEnd in Te.
  assert (Tl : rt_typed (later v evidenceEnd)) by (unfold later; destruct (0 <? _); [exact (proj1 Vm)|exact Te]).
  assert (Tl2 : rt_typed (later v1 (later v evidenceEnd))) by (unfold later at 1; destruct (0 <? _); [exact (proj1 Vr)|exact Tl]).
  destruct (Subtract_ok _ _ _ Tl2 Tfs Hs3) as (Vd & _ & Vdur & Qdur).
  destruct (later_valid _ _ Vr Tl Vd) as (Vl & L1 & L2). destruct (later_valid _ _ Vm Te Vl) as (Ve & L3 & L4).
  pose proof (compare_at_most _ _ Vd Vcap Hs2) as Lcap. apply (IsPositive_Q _ Vdur) in Hs4.
  pose proof (compare_at_most _ _ Vdur Vmax Hs5) as Lmax.
  destruct (Subtract_ok _ _ _ Tfs Tcs Hs6) as (_ & _ & Voff & Qoff). destruct (Add_ok _ _ _ Tts (proj1 Voff) Hs7) as (_ & _ & Vts & Qts).
  apply NewTimeRange_ok in Hs8 as (_ & _ & _ & ->). rewrite (NewTimeRange_intro _ _ Vf Vdur Hs4). cbn [range_or_zero].
  pose proof (end_or_zero_Q _ Tfin Ve) as Qe. fold evidenceEnd in Qe.
  destruct (transcriptRangeContains_ok (clip_TimelineRange clip) (mkRange v7 v3) (conj Tts Ttd) (conj (proj1 Vts) (proj1 Vdur)) Hs9) as [I1 I2].
  unfold start_Q, end_Q in *. cbn [tr_Start tr_Duration] in *. split; [|cbn; lra].
  split; cbn [cue_SourceRange cue_TimelineRange cue_Text tr_Start tr_Duration]; unfold start_Q, end_Q; cbn [tr_Start tr_Duration].
  - exact Hwrap.
  - split; [exact Vf|]. split; [exact Vdur|exact Hs4].
  - split; [exact Vts|]. split; [exact Vdur|exact Hs4].
  - reflexivity.
  - lra.
  - exact Lmax.
  - rewrite <- Qrd. lra.
  - exists first, final. split; [reflexivity|]. split; [exact Elast|]. split; [reflexivity|]. lra.
  - lra.
  - split; lra.
Qed.

(** Cues in order: each ends before the next one starts. *)
Definition cue_before (a b : CaptionDerivationCue) : Prop :=
  (end_Q (cue_SourceRange a) <= start_Q (cue_SourceRange b) /\ end_Q (cue_TimelineRange a) <= start_Q (cue_TimelineRange b) /\
   start_Q (cue_SourceRange b) < end_Q (cue_SourceRange b) /\ start_Q (cue_TimelineRange b) < end_Q (cue_TimelineRange b))%Q.

#[export] Instance cue_before_transitive : Transitive cue_before.
Proof. intros a b c (A1 & A2 & A3 & A4) (B1 & B2 & B3 & B4). unfold cue_before. repeat split; lra. Qed.

Lemma readable_before `{Platform} policy clip ga gb a b : cue_readable policy clip ga a -> cue_readable policy clip gb b ->
  (end_Q (cue_SourceRange a) <= start_Q (cue_SourceRange b))%Q -> cue_before a b.
Proof.
  intros Ra Rb Hle. destruct (readable_source _ _ _ _ Rb) as (_ & _ & Pb). pose proof (readable_length _ _ _ _ Ra) as La.
  pose proof (readable_length _ _ _ _ Rb) as Lb. pose proof (readable_place _ _ _ _ Ra) as Pla. pose proof (readable_place _ _ _ _ Rb) as Plb.
  unfold cue_before, end_Q, start_Q in *. rewrite La, Lb. repeat split; lra.
Qed.

Lemma derive_cues_ok `{Platform} policy clip finalEnd groups : counts_clusters -> policy_sane policy ->
  range_typed (clip_SourceRange clip) -> range_typed (clip_TimelineRange clip) -> rt_valid finalEnd ->
  Forall (Forall (fun u => range_typed (unit_range u))) groups -> forall cues, derive_cues clip policy finalEnd groups = Ok cues ->
  Forall2 (cue_readable policy clip) groups cues /\ StronglySorted cue_before cues /\
  Forall (fun cue => (end_Q (cue_SourceRange cue) <= rt_Q finalEnd)%Q) cues.
Proof.
  intros Hcount Hsane Ts Tt Vfin. induction groups as [|group rest IH]; intros Hty cues Hr; cbn [derive_cues] in Hr.
  { injection Hr as <-. repeat constructor. }
  apply Forall_cons in Hty as [Hg Hty]. outcome_inv. subst cues.
  match goal with Hx : derive_cues _ _ _ _ = Ok ?l |- _ => destruct (IH Hty _ Hx) as (F & S & E); rename l into cues end.
  inversion F as [|next cue rest' cues' Rc F' Er Ec]; subst rest cues.
  { destruct (derive_cue_ok _ _ _ _ _ Hcount Hsane Ts Tt Vfin Hg Hs) as [R L].
    split; [constructor; [exact R|constructor]|]. split; [constructor; constructor|constructor; [exact L|constructor]]. }
  destruct (readable_evidence _ _ _ _ Rc) as (first & _ & Hhead & _ & Hstart & _). destruct next as [|u next]; [discriminate|].
  injection Hhead as ->. rewrite <- Hstart in Hs. pose proof (readable_source _ _ _ _ Rc) as (Vstart & _ & Pc).
  destruct (derive_cue_ok _ _ _ _ _ Hcount Hsane Ts Tt Vstart Hg Hs) as [R L].
  pose proof (readable_before _ _ _ _ _ _ R Rc L) as Hb. apply Forall_cons in E as [Ecue E'].
  split; [constructor; assumption|]. split.
  - constructor; [exact S|]. constructor; [exact Hb|]. apply StronglySorted_inv in S as [_ Hall].
    eapply Forall_impl; [exact Hall|]. intros later Hlater. exact (transitivity Hb Hlater).
  - constructor; [|constructor; assumption]. unfold start_Q, end_Q in *. lra.
Qed.

(** ** The evidence *)

Definition tokens_typed (tokens : list transcriptEvidenceToken) : Prop :=
  Forall (fun t => range_typed (tok_SourceRange (et_token t))) tokens.
Definition artifact_typed (artifact : EditTranscriptArtifactState) : Prop :=
  forall id segment, art_Segments artifact !! id = Some segment -> Forall (fun t => range_typed (tok_SourceRange t)) (seg_Tokens segment).

Lemma evidence_segments_typed segments ids : (forall id s, segments !! id = Some s -> Forall (fun t => range_typed (tok_SourceRange t)) (seg_Tokens s)) ->
  forall seen previous result, evidence_segments segments seen previous ids = Ok result ->
  Forall (fun s => Forall (fun t => range_typed (tok_SourceRange t)) (seg_Tokens s)) result.
Proof.
  intros Hty. induction ids as [|id ids IH]; intros seen previous result Hr; cbn in Hr; [injection Hr as <-; constructor|].
  destruct (segments !! id) as [s|] eqn:E; [|discriminate]. outcome_inv. subst result. constructor; [by eapply Hty|by eapply IH].
Qed.

Lemma evidence_tokens_sub r e candidates : forall tokens, evidence_tokens r e candidates = Ok tokens -> tokens_typed candidates -> tokens_typed tokens.
Proof.
  induction candidates as [|c rest IH]; intros tokens Hr Hty; cbn in Hr; [injection Hr as <-; constructor|]. outcome_inv. subst tokens.
  apply Forall_cons in Hty as [Hc Hrest]. destruct v; [constructor; [exact Hc|]|]; by eapply IH.
Qed.

Lemma transcriptEvidenceSpan_typed artifact ids r segments tokens : artifact_typed artifact ->
  transcriptEvidenceSpan artifact ids r = Ok (segments, tokens) -> tokens_typed tokens.
Proof.
  intros Hty Hr. unfold transcriptEvidenceSpan in Hr. outcome_inv.
  match goal with Hx : evidence_segments _ _ _ _ = Ok ?l |- _ => pose proof (evidence_segments_typed _ _ Hty _ _ _ Hx) as Hsegs; rename l into segs end.
  match goal with Hx : evidence_tokens _ _ _ = Ok ?l |- _ => pose proof (evidence_tokens_sub _ _ _ _ Hx) as Hsub; rename l into found end.
  assert (Hfound : tokens_typed found).
  { apply Hsub. unfold tokens_typed, segment_tokens. clear -Hsegs. induction Hsegs as [|s l Hs Hl IH]; [constructor|]. cbn. apply Forall_app. split; [|exact IH].
    apply Forall_map. eapply Forall_impl; [exact Hs|]. intros t Ht. exact Ht. }
  destruct found as [|f l] eqn:E; [discriminate|]. destruct (last (f :: l)); [|discriminate]. outcome_inv. by simplify_eq.
Qed.

Lemma select_corrections_sub a lang r entries : forall provided result remaining,
  select_corrections a lang r provided entries = Ok (result, remaining) -> forall c, c ∈ result -> c ∈ map snd entries.
Proof.
  induction entries as [|[k c] rest IH]; intros provided result remaining Hr x Hx; cbn in Hr; [injection Hr as <- <-; by apply elem_of_nil in Hx|].
  cbn. destruct (correction_applies a lang r c).
  - outcome_inv. destruct v0 as [others rem]. outcome_inv. simplify_eq. apply elem_of_cons in Hx as [->|Hx]; [left|right; by eapply IH].
  - right. by eapply IH.
Qed.

Lemma evidence_units_typed segments tokens : forall first skipped previous corrections units remaining,
  tokens_typed tokens -> Forall (fun c => range_typed (cor_SourceRange c)) corrections ->
  evidence_units_loop segments first skipped previous corrections tokens = Ok (units, remaining) ->
  Forall (fun u => range_typed (unit_range u)) units.
Proof.
  induction tokens as [|token rest IH]; intros first skipped previous corrections units remaining Hty Hc Hr; cbn [evidence_units_loop] in Hr.
  { injection Hr as <- _. constructor. }
  apply Forall_cons in Hty as [Ht Hrest].
  match type of Hr with (if ?b then _ else _) = _ => destruct b; [by eapply IH|] end.
  assert (Hplain : match segment_by_ordinal segments (et_segmentOrdinal token) with
     | None => Fail ErrEditInvalid
     | Some segmentID =>
         '(units, remaining) ← evidence_units_loop segments false None (et_segmentOrdinal token) corrections rest;
         Ok (mkUnit (tok_SourceRange (et_token token)) (tok_Text (et_token token))
               (negb first && negb (et_segmentOrdinal token =? previous)) [segmentID] None :: units, remaining)
     end = Ok (units, remaining) -> Forall (fun u => range_typed (unit_range u)) units).
  { intros Hp. destruct (segment_by_ordinal _ _); [|discriminate]. outcome_inv. destruct v as [us rem]. outcome_inv. simplify_eq.
    constructor; [exact Ht|by eapply IH]. }
  destruct corrections as [|c corrections]; [by apply Hplain|]. apply Forall_cons in Hc as [Hc Hcs].
  destruct (_ =? 0).
  - outcome_inv. destruct v as [us rem]. outcome_inv. simplify_eq. constructor; [exact Hc|by eapply IH].
  - destruct (0 <? _); [discriminate|]. by apply Hplain.
Qed.

Lemma captionExcerptCorrections_typed excerpt (state : gmap string TranscriptCorrectionState) result :
  (forall id c, state !! id = Some c -> range_typed (cor_SourceRange c)) ->
  captionExcerptCorrections excerpt state = Ok result -> Forall (fun c => range_typed (cor_SourceRange c)) result.
Proof.
  intros Hty Hr. unfold captionExcerptCorrections, applicable_corrections in Hr. outcome_inv. destruct v0 as [found remaining]. outcome_inv.
  subst result. rewrite merge_sort_Permutation. apply Forall_forall. intros c Hc.
  match goal with Hx : select_corrections _ _ _ _ _ = Ok _ |- _ => pose proof (select_corrections_sub _ _ _ _ _ _ _ Hx _ Hc) as Hin end.
  apply list_elem_of_fmap in Hin as ([k x] & -> & Hk). apply elem_of_map_to_list in Hk. by eapply Hty.
Qed.

Lemma valid_seconds v : 0 < v < 1000 -> rt_valid (mkTime v 1).
Proof.
  intros Hv. apply rt_valid_iff. cbn [rt_Value rt_Scale]. split; [split; cbn [rt_Value rt_Scale]; unfold MinInt64, MaxInt64, MinInt32, MaxInt32; lia|].
  split; [lia|]. apply Z.gcd_1_r.
Qed.

Lemma readable_policy_sane policy : rt_typed (cp_MinimumDuration policy) -> rt_typed (cp_MaximumDuration policy) ->
  is_ok (CaptionDerivationPolicy_Validate policy) = true -> policy_sane policy.
Proof.
  intros Tmin Tmax Hv. unfold CaptionDerivationPolicy_Validate in Hv. cbn zeta in Hv.
  set (expected := ReadableCaptionPolicyV1) in *.
  assert (X1 : cp_MinimumDuration expected = mkTime 1 1) by (vm_compute; reflexivity).
  assert (X2 : cp_MaximumDuration expected = mkTime 6 1) by (vm_compute; reflexivity).
  assert (X3 : cp_MaximumReadingRate expected = 20) by reflexivity. assert (X4 : cp_MaximumLines expected = 2) by reflexivity. clearbody expected.
  pose proof (valid_seconds 1 ltac:(lia)) as V1. pose proof (valid_seconds 6 ltac:(lia)) as V2. rewrite <- X1 in V1. rewrite <- X2 in V2.
  destruct (RationalTime_Compare (cp_MinimumDuration policy) _) as [a| |] eqn:Ea; try discriminate.
  destruct (RationalTime_Compare (cp_MaximumDuration policy) _) as [b| |] eqn:Eb; try discriminate.
  destruct (RationalTime_Compare (cp_MaximumGap policy) _) as [c| |] eqn:Ec; try discriminate.
  match type of Hv with is_ok (if ?x then _ else _) = _ => destruct x eqn:E; [discriminate|] end. bool_prop.
  destruct (Compare_ok _ _ _ Tmin (proj1 V1) Ea) as (_ & _ & _ & Ha & _). destruct (Compare_ok _ _ _ Tmax (proj1 V2) Eb) as (_ & _ & _ & Hb & _).
  assert (E1 : cp_MinimumDuration policy = cp_MinimumDuration expected) by (apply Ha; lia).
  assert (E2 : cp_MaximumDuration policy = cp_MaximumDuration expected) by (apply Hb; lia).
  split.
  - rewrite E1. split; [exact V1|]. rewrite X1. reflexivity.
  - rewrite E2. exact V2.
  - unfold MaxInt32. lia.
  - lia.
Qed.

Lemma range_ok_typed r : range_ok r -> range_typed r.
Proof. intros ([T _] & [D _] & _). split; assumption. Qed.

Lemma range_ok_end r : range_ok r -> rt_valid (end_or_zero r) /\ (rt_Q (end_or_zero r) == end_Q r)%Q.
Proof. intros (_ & _ & _ & e & He & Ve & Qe). unfold end_or_zero. rewrite He. split; assumption. Qed.

(** The end of the last caption: of the clip or of the excerpt *)
Lemma final_end clip excerpt : range_ok clip -> range_ok excerpt ->
  let final := if cmp_or_zero (RationalTime_Compare (end_or_zero clip) (end_or_zero excerpt)) <? 0 then end_or_zero clip else end_or_zero excerpt in
  rt_valid final /\ (rt_Q final <= end_Q excerpt)%Q.
Proof.
  intros Rc Re. destruct (range_ok_end _ Rc) as [Vc Qc], (range_ok_end _ Re) as [Ve Qe].
  destruct (Compare_valid _ _ Vc Ve) as (c & -> & Hlt & _). cbn [cmp_or_zero]. destruct (c <? 0) eqn:E; cbn zeta.
  - apply Z.ltb_lt, Hlt in E. split; [exact Vc|lra].
  - split; [exact Ve|lra].
Qed.

(** C8: Derived captions can be read and never collide.  Each caption that
    [DeriveCaptionCues] places shows its words from the first to the last, for at
    least a second and at most six, at no more than the reading rate, inside its
    clip and in step with it; every caption ends before the next one starts, in
    the source and on the timeline; and together the captions show all the
    evidence of the excerpt, in order. *)
Theorem caption_cues_readable `{Platform} artifact excerpt corrections clip policy cues : counts_clusters -> artifact_typed artifact ->
  (forall id c, corrections !! id = Some c -> range_typed (cor_SourceRange c)) ->
  rt_typed (cp_MinimumDuration policy) -> rt_typed (cp_MaximumDuration policy) ->
  range_ok (clip_SourceRange clip) -> range_typed (clip_TimelineRange clip) -> range_ok (exc_SourceRange excerpt) ->
  DeriveCaptionCues artifact excerpt corrections clip policy = Ok cues ->
  StronglySorted cue_before cues /\
  Forall (fun cue => (end_Q (cue_SourceRange cue) <= end_Q (exc_SourceRange excerpt))%Q) cues /\
  exists segments tokens applied units groups,
    transcriptEvidenceSpan artifact (ev_SegmentIDs (exc_Evidence excerpt)) (exc_SourceRange excerpt) = Ok (segments, tokens) /\
    captionExcerptCorrections excerpt corrections = Ok applied /\ captionEvidenceUnits segments tokens applied = Ok units /\
    concat groups = units /\ Forall2 (cue_readable policy clip) groups cues.
Proof.
  intros Hcount Hart Hcor Tmin Tmax Rs Tt Re Hr. unfold DeriveCaptionCues in Hr. outcome_inv. bool_prop.
  match goal with Hx : transcriptEvidenceSpan _ _ _ = Ok ?p |- _ => destruct p as [segments tokens]; rename Hx into Hspan end. outcome_inv.
  match goal with Hx : captionExcerptCorrections _ _ = Ok ?l |- _ => rename Hx into Happ; rename l into applied end.
  match goal with Hx : captionEvidenceUnits _ _ _ = Ok ?l |- _ => rename Hx into Hunits; rename l into units end.
  match goal with Hx : groupCaptionUnits _ _ = Ok ?l |- _ => rename Hx into Hgroups; rename l into groups end.
  match goal with Hx : derive_cues _ _ ?e _ = Ok _ |- _ => rename Hx into Hcues; set (finalEnd := e) in * end.
  assert (Hsane : policy_sane policy) by (apply readable_policy_sane; assumption).
  destruct (groupCaptionUnits_ok _ _ _ Hgroups) as (Hconcat & _ & _).
  assert (Hty : Forall (Forall (fun u => range_typed (unit_range u))) groups).
  { apply Forall_concat. rewrite Hconcat. unfold captionEvidenceUnits in Hunits. outcome_inv.
    match goal with Hx : evidence_units_loop _ _ _ _ _ _ = Ok ?p |- _ => destruct p as [us rem]; rename Hx into Hloop end. outcome_inv. subst us.
    eapply evidence_units_typed; [eapply transcriptEvidenceSpan_typed; [exact Hart|exact Hspan]| |exact Hloop].
    by eapply captionExcerptCorrections_typed. }
  destruct (final_end (clip_SourceRange clip) (exc_SourceRange excerpt) Rs Re) as [Vfin Lfin]. fold finalEnd in Vfin, Lfin. clearbody finalEnd.
  destruct (derive_cues_ok policy clip finalEnd groups Hcount Hsane (range_ok_typed _ Rs) Tt Vfin Hty cues Hcues) as (F & S & E).
  split; [exact S|]. split; [|exists segments, tokens, applied, units, groups; auto].
  eapply Forall_impl; [exact E|]. intros cue Hle. cbn in Hle. lra.
Qed.

(** Two words of a second each, quoted by an excerpt and shown on a clip *)
Definition cue_artifact : EditTranscriptArtifactState :=
  mkArtifact (sample_id "60") (sample_id "21") "fingerprint" (sample_id "20") "en"
    {[ sample_id "61" := mkSegment (sample_id "61") 0 (seconds 0 2) "Open Cut" [mkToken (seconds 0 1) "Open "; mkToken (seconds 1 1) "Cut"] ]}.
Definition cue_excerpt : SourceExcerptState :=
  mkExcerpt (sample_id "62") 1 (sample_id "02") (sample_id "04") None (sample_id "21") "fingerprint" (seconds 0 2) "en" "Open Cut"
    (mkEvidence (sample_id "60") (sample_id "20") [sample_id "61"] []) false.

Lemma seconds_ok start duration : 0 < start + duration < 1000 -> 0 <= start -> 0 < duration -> rt_valid (mkTime start 1) -> range_ok (seconds start duration).
Proof.
  intros Hs H0 Hd V. assert (Vd : rt_valid (mkTime duration 1)) by (apply valid_seconds; lia).
  apply (span_range _ (rt_Q (mkTime (start + duration) 1))).
  - split; [exact V|]. split; [exact Vd|]. unfold rt_Q, Qlt. cbn. lia.
  - exists (mkTime (start + duration) 1). split; [apply valid_seconds; lia|reflexivity].
  - unfold end_Q, rt_Q, Qeq. cbn. lia.
Qed.

Lemma valid_zero : rt_valid (mkTime 0 1).
Proof. split; [split; cbn; unfold MinInt64, MaxInt64, MinInt32, MaxInt32; lia|reflexivity]. Qed.

Lemma caption_cues_readable_witness : exists cues,
  @DeriveCaptionCues sample_platform cue_artifact cue_excerpt ∅ (sample_clip "30" 0 10) ReadableCaptionPolicyV1 = Ok cues /\
  length cues = 1%nat /\ StronglySorted cue_before cues.
Proof.
  eexists. split; [vm_compute; reflexivity|]. split; [reflexivity|].
  eapply (@caption_cues_readable sample_platform cue_artifact cue_excerpt ∅ (sample_clip "30" 0 10) ReadableCaptionPolicyV1).
  - intros text. cbn. unfold go_len. lia.
  - intros id s Hs. cbn in Hs. apply lookup_singleton_Some in Hs as [_ <-]. repeat constructor; cbn; unfold MinInt64, MaxInt64, MinInt32, MaxInt32; lia.
  - intros id c Hc. by rewrite lookup_empty in Hc.
  - exact (proj1 (valid_seconds 1 ltac:(lia))).
  - exact (proj1 (valid_seconds 6 ltac:(lia))).
  - apply seconds_ok; [lia..|exact valid_zero].
  - apply range_ok_typed, seconds_ok; [lia..|exact valid_zero].
  - apply seconds_ok; [lia..|exact valid_zero].
  - vm_compute. reflexivity.
Defined.
