(* ===== verification/EditRequests.v ===== *)
(** Splits, rough cuts and moves: what a split does to a clip, how a rough cut
    lies on the timeline, and a move that leaves the representable times. *)
From stdpp Require Import base list strings gmap sorting relations.
From Stdlib Require Import ZArith QArith Lia Lqa Ascii Qabs.
From S2P Require Import Prelude GoText Exact Identity Canonical EditModel Timeline EditState EditClips EditNarrative EditCaptions EditTranscript EditDerive EditValidate.
From S2P Require Import EditNormalize EditEffects EditJournal EditJournalOps EditRanges EditClipInvariant EditProposals EditCues.
Open Scope Z_scope.

(** ** Splitting *)

(** C10: A split is exact.  When the split point is inside a sound clip,
    [splitClipStates] makes two live clips of revision one with the requested
    identities: side by side they play what the clip played, at the same place
    of the timeline, and keep its track, source, switch and placement. *)
Theorem split_clip_exact (s : EditNormalizationState) (c : ClipState) (at_ : RationalTime) output gl gr n l r n' :
  clip_wf s c -> rt_typed at_ -> splitClipStates c at_ output gl gr n = Ok ((l, r), n') ->
  (start_Q (clip_TimelineRange c) < rt_Q at_ < end_Q (clip_TimelineRange c))%Q /\
  halves (clip_TimelineRange c) (clip_TimelineRange l) (clip_TimelineRange r) (rt_Q at_) /\
  halves (clip_SourceRange c) (clip_SourceRange l) (clip_SourceRange r)
    (start_Q (clip_SourceRange c) + (rt_Q at_ - start_Q (clip_TimelineRange c)))%Q /\
  clip_wf s l /\ clip_wf s r /\
  Forall (fun part => clip_Revision part = 1 /\ clip_Tombstoned part = false /\ clip_TrackID part = clip_TrackID c /\
    clip_AssetID part = clip_AssetID c /\ clip_SourceStreamID part = clip_SourceStreamID c /\
    clip_SequenceID part = clip_SequenceID c /\ clip_Enabled part = clip_Enabled c /\ clip_Placement part = clip_Placement c) [l; r] /\
  clip_LinkGroupID l = gl /\ clip_LinkGroupID r = gr /\ n' = n.
Proof.
  intros Hw Ta Hr. apply splitClipStates_run in Hr as (-> & lt & rt & ls & rs & lid & rid & Hsplit & -> & ->).
  destruct (split_parts_wf _ _ _ _ _ _ _ Hw Ta Hsplit) as [Wl Wr].
  destruct (split_ranges_parts _ _ _ _ _ _ (wf_timeline _ _ Hw) (wf_source _ _ Hw) (wf_duration _ _ Hw) Ta Hsplit)
    as (Hat & Ht & Hs & _).
  split; [exact Hat|]. split; [exact Ht|]. split; [exact Hs|].
  split; [eapply clip_wf_same; [exact Wl|reflexivity..]|]. split; [eapply clip_wf_same; [exact Wr|reflexivity..]|].
  split; [repeat constructor|]. auto.
Qed.

(** The first sample clip, split at four seconds *)
Lemma split_clip_exact_witness : exists l r,
  (exists n n', splitClipStates (sample_clip "30" 0 10) (mkTime 4 1) (mkSplitOutput (reference_to "30") "left" "right") None None n = Ok ((l, r), n')) /\
  halves (seconds 0 10) (clip_TimelineRange l) (clip_TimelineRange r) (rt_Q (mkTime 4 1)).
Proof.
  eexists _, _. split.
  - exists (mkNormalizer sample_input (list_to_map (map (fun a => (alloc_Local a, a)) (in_Allocation sample_input)))
      ∅ ∅ ∅ ∅ ∅ ∅ ∅ ∅ ∅ ∅ ∅ ∅ ∅ ∅ ∅ [] [] [] false false ∅ ∅). eexists. vm_compute. reflexivity.
  - eapply (split_clip_exact sample_state (sample_clip "30" 0 10) (mkTime 4 1) (mkSplitOutput (reference_to "30") "left" "right") None None
      (mkNormalizer sample_input (list_to_map (map (fun a => (alloc_Local a, a)) (in_Allocation sample_input)))
      ∅ ∅ ∅ ∅ ∅ ∅ ∅ ∅ ∅ ∅ ∅ ∅ ∅ ∅ ∅ [] [] [] false false ∅ ∅)).
    + apply sample_clip_wf; [lia|lia|vm_compute; reflexivity|reflexivity].
    + split; cbn; unfold MinInt64, MaxInt64, MinInt32, MaxInt32; lia.
    + vm_compute. reflexivity.
Defined.

(** ** Rough cuts *)

(** C11: A rough cut lies end to end.  The outputs that [BuildRoughCutOperation]
    derives are the requested excerpts in the requested order, each live, with
    exact evidence, played in full at its own speed; the first starts at the
    requested time and each other one where the one before it ends. *)
Theorem rough_cut_end_to_end `{Platform} (s : EditNormalizationState) start prefix items op :
  media_ok s -> rt_typed start -> BuildRoughCutOperation s start prefix items = Ok op ->
  end_to_end s (rt_Q start) items (op_DerivedRoughCut op) /\ (0 <= rt_Q start)%Q /\
  op_RoughCutItems op = items /\ op_RoughCutTimelineStart op = Some start.
Proof.
  intros Hm Ht Hb. apply BuildRoughCutOperation_run in Hb as (outputs & digest & Hout & -> & Hv & Hn).
  pose proof (valid_time_ok _ Ht Hv) as V. split; [by eapply rough_cut_outputs_end_to_end|].
  split; [by apply nonnegative_Q|]. split; reflexivity.
Qed.

(** The sample project with an excerpt of its stream, cut twice *)
Definition cut_state : EditNormalizationState := {|
  st_ProjectID := sample_id "01"; st_ProjectRevision := 7; st_DocumentID := sample_id "02"; st_DocumentRevision := 3;
  st_SequenceID := sample_id "03"; st_SequenceRevision := 5; st_Sections := ∅; st_Tracks := {[ sample_id "10" := sample_track ]};
  st_AuthoredTexts := ∅; st_SourceExcerpts := {[ sample_id "62" := cue_excerpt ]}; st_VisualIntents := ∅; st_Notes := ∅;
  st_SectionChildCounts := ∅; st_SourceExcerptEvidence := {[ sample_id "62" := SourceExcerptEvidenceExact ]}; st_TranscriptArtifacts := ∅;
  st_TranscriptCorrections := ∅; st_Captions := ∅; st_Clips := {[ sample_id "30" := sample_clip "30" 0 10 ]};
  st_LinkGroups := ∅; st_LinkGroupClips := ∅; st_SourceStreams := {[ sample_id "20" := sample_stream ]};
  st_Alignments := ∅; st_NodeAlignments := ∅; st_CaptionAlignments := ∅; st_ClipAlignments := ∅ |}.

Lemma cut_state_media : media_ok cut_state.
Proof.
  split.
  - cbn [cut_state st_Tracks]. intros id t Ht. by apply lookup_singleton_Some in Ht as [<- <-].
  - cbn [cut_state st_SourceStreams]. intros id t Ht. apply lookup_singleton_Some in Ht as [<- <-]. split; [done|apply sample_descriptor_typed].
  - cbn [cut_state st_SourceExcerpts]. intros id e He. apply lookup_singleton_Some in He as [_ <-]. by apply small_range.
Qed.

Definition cut_item : RoughCutDerivationItemInput :=
  mkRoughCutItem (sample_id "62") (Some (mkLane (sample_id "10") (sample_id "20"))) None.

Lemma rough_cut_end_to_end_witness : exists op,
  @BuildRoughCutOperation sample_platform cut_state (mkTime 1 1) "cut" [cut_item; cut_item] = Ok op /\
  end_to_end cut_state (rt_Q (mkTime 1 1)) [cut_item; cut_item] (op_DerivedRoughCut op).
Proof.
  eexists. split; [vm_compute; reflexivity|].
  eapply (@rough_cut_end_to_end sample_platform cut_state (mkTime 1 1) "cut" [cut_item; cut_item]);
    [apply cut_state_media|exact (proj1 (valid_seconds 1 ltac:(lia)))|vm_compute; reflexivity].
Defined.

(** ** A move past the end of time *)

(** Move the only clip of a track to the last second that is representable. *)
Definition late_move : EditOperationInput :=
  mkOperation EditMoveClip None None None None None None None None None None (Some (sample_id "10")) None None None None []
    None None None None None None None None None None (Some (reference_to "30")) [] (Some ClipScopeSingle) (Some (mkTime MaxInt64 1))
    None [] None None [] [] None None [] None None None [] [] None.

Definition late_input : NormalizeEditInput := {|
  in_ProposalID := sample_id "05"; in_ProjectID := sample_id "01"; in_SequenceID := sample_id "03"; in_RunID := "";
  in_TurnID := ""; in_Actor := mkActor ActorCreator (Some (sample_id "06")) None; in_Allocation := [];
  in_Input := mkProposeInput "request-3" "Move far" 7
    [ mkPrecondition EntityClip (sample_id "30") 1; mkPrecondition EntityTrack (sample_id "10") 4 ] [ late_move ];
  in_CreatedAtIsZero := false; in_State := cut_state |}.

Definition late_clip : ClipState :=
  clip_over (seconds 0 10) (mkRange (mkTime MaxInt64 1) (mkTime 10 1)) (clip_at_revision 2 (sample_clip "30" 0 10)).

(** A move checks the new start of a clip and not its end.  A request that
    moves the only clip of a track to the last representable second is
    normalized, and the clip it stores has a timeline range whose [End] is an
    overflow, a range that request validation refuses for a clip that is added. *)
Theorem move_end_unchecked :
  (exists p, @NormalizeEditProposal sample_platform late_input = Ok p /\ p_Operations p = [PutClip late_clip]) /\
  End (clip_TimelineRange late_clip) = Fail ErrTimeOverflow /\ validRange (Some (clip_TimelineRange late_clip)) = false.
Proof.
  split; [|split; vm_compute; reflexivity]. eexists. split; [vm_compute; reflexivity|]. reflexivity.
Qed.

(** * What request validation decides: the search for cycles among the local names
    of inserted nodes, and the shape that an accepted placement has. *)


(** ** Cycles *)

(** A local node is inserted after another; an empty name is no edge. *)
Definition edge (edges : gmap string string) (node next : string) : Prop := edges !! node = Some next /\ next <> "".

(** Following edges from a node comes to an end. *)
Inductive ends (edges : gmap string string) : string -> Prop :=
| ends_here node : (forall next, ~ edge edges node next) -> ends edges node
| ends_next node next : edge edges node next -> ends edges next -> ends edges node.

Lemma ends_acyclic edges node : ends edges node -> ~ tc (edge edges) node node.
Proof.
  assert (forall x z, tc (edge edges) x z -> exists y, edge edges x y /\ rtc (edge edges) y z) as Hfirst.
  { destruct 1 as [x z H|x y z H1 H2]; [exists z|exists y]; (split; [done|]); [constructor|by apply tc_rtc]. }
  induction 1 as [node Hno|node next He _ IH]; intros (y & Hy & Hr)%Hfirst; [by eapply Hno|].
  destruct He as [He _], Hy as [Hy Hz]. rewrite He in Hy. injection Hy as <-.
  apply IH. eapply tc_rtc_l; [exact Hr|]. by apply tc_once.
Qed.

(** The marks of a search that is at the end of [path] *)
Record marks (edges : gmap string string) (state : gmap string Z) (path : list string) : Prop := mkMarks {
  marks_visiting : forall x, state !! x = Some 1 <-> x ∈ path;
  marks_visited : forall x, state !! x = Some 2 -> ends edges x;
  marks_known : forall x v, state !! x = Some v -> v = 1 \/ v = 2;
  marks_path : NoDup path /\ forall x, x ∈ path -> is_Some (edges !! x) }.

Lemma path_length edges state path : marks edges state path -> (length path <= size edges)%nat.
Proof.
  intros [_ _ _ [Hnd Hin]]. rewrite <- (size_list_to_set (C := gset string)) by done. rewrite <- size_dom.
  apply subseteq_size. intros x Hx%elem_of_list_to_set. apply elem_of_dom. by apply Hin.
Qed.

Lemma marks_done edges state path node : ~ node ∈ path -> (forall x, state !! x = Some 1 <-> x ∈ path \/ x = node) ->
  (forall x, state !! x = Some 2 -> ends edges x) -> (forall x v, state !! x = Some v -> v = 1 \/ v = 2) ->
  (NoDup path /\ forall x, x ∈ path -> is_Some (edges !! x)) -> ends edges node -> marks edges (<[node := 2]> state) path.
Proof.
  intros Hno H1 H2 H3 H4 He. split; [| | |exact H4]; intros x; destruct (decide (x = node)) as [->|Hne];
    rewrite ?lookup_insert_eq, ?(lookup_insert_ne _ node x) by congruence.
  - split; [discriminate|done].
  - rewrite H1. tauto.
  - done.
  - apply H2.
  - intros v [= <-]. by right.
  - apply H3.
Qed.

Lemma visit_spec edges : forall fuel state path node, marks edges state path ->
  (forall x, x ∈ path -> tc (edge edges) x node) -> (size edges + 2 <= fuel + length path)%nat ->
  match visit fuel edges state node with
  | (true, _) => exists x, tc (edge edges) x x
  | (false, state') => marks edges state' path /\ ends edges node
  end.
Proof.
  induction fuel as [|fuel IH]; intros state path node Hm Hpath Hfuel; [pose proof (path_length _ _ _ Hm); lia|].
  cbn [visit]. destruct (at_key 0 state node =? 1) eqn:E1.
  { exists node. apply Hpath, (marks_visiting _ _ _ Hm). unfold at_key in E1. destruct (state !! node); cbn in E1; [|lia].
    apply Z.eqb_eq in E1. by rewrite E1. }
  destruct (at_key 0 state node =? 2) eqn:E2.
  { split; [done|]. apply (marks_visited _ _ _ Hm). unfold at_key in E2. destruct (state !! node); cbn in E2; [|lia].
    apply Z.eqb_eq in E2. by rewrite E2. }
  assert (Hnew : state !! node = None).
  { unfold at_key in *. destruct (state !! node) as [v|] eqn:E; [|done]. cbn in *.
    destruct (marks_known _ _ _ Hm _ _ E) as [->| ->]; discriminate. }
  destruct Hm as [M1 M2 M3 [M4 M5]].
  assert (Hno : ~ node ∈ path) by (intros Hx%M1; congruence).
  assert (Hmarked : forall x, <[node := 1]> state !! x = Some 1 <-> x ∈ path \/ x = node).
  { intros x. destruct (decide (x = node)) as [->|Hne]; [rewrite lookup_insert_eq; tauto|].
    rewrite lookup_insert_ne by congruence. rewrite M1. tauto. }
  assert (Hvisited : forall x, <[node := 1]> state !! x = Some 2 -> ends edges x).
  { intros x. destruct (decide (x = node)) as [->|Hne]; [by rewrite lookup_insert_eq|].
    rewrite lookup_insert_ne by congruence. apply M2. }
  assert (Hknown : forall x v, <[node := 1]> state !! x = Some v -> v = 1 \/ v = 2).
  { intros x v. destruct (decide (x = node)) as [->|Hne]; [rewrite lookup_insert_eq; intros [= <-]; by left|].
    rewrite lookup_insert_ne by congruence. apply M3. }
  case_bool_decide as Hempty.
  - assert (He : ends edges node).
    { apply ends_here. intros next [Hx Hz]. unfold at_key in Hempty. rewrite Hx in Hempty. by apply Hz. }
    split; [by apply marks_done|exact He].
  - assert (Hedge : edge edges node (at_key "" edges node)).
    { split; [|done]. unfold at_key in *. by destruct (edges !! node). }
    specialize (IH (<[node := 1]> state) (node :: path) (at_key "" edges node)).
    destruct (visit fuel edges _ _) as [[] state'].
    + apply IH; [|intros x [->|Hx]%elem_of_cons; [by apply tc_once|eapply tc_r; [by apply Hpath|exact Hedge]]|cbn; lia].
      split; [intros x; rewrite Hmarked, elem_of_cons; tauto|exact Hvisited|exact Hknown|].
      split; [by constructor|]. intros x [->|Hx]%elem_of_cons; [by eexists; apply Hedge|by apply M5].
    + destruct IH as [[N1 N2 N3 [N4 N5]] Hn].
      * split; [intros x; rewrite Hmarked, elem_of_cons; tauto|exact Hvisited|exact Hknown|].
        split; [by constructor|]. intros x [->|Hx]%elem_of_cons; [by eexists; apply Hedge|by apply M5].
      * intros x [->|Hx]%elem_of_cons; [by apply tc_once|eapply tc_r; [by apply Hpath|exact Hedge]].
      * cbn. lia.
      * assert (He : ends edges node) by (by eapply ends_next). split; [|exact He]. apply marks_done; try done.
        intros x. rewrite N1, elem_of_cons. tauto.
Qed.

Lemma visit_all_spec edges nodes : forall state, marks edges state [] ->
  if visit_all (2 + size edges) edges state nodes then exists x, tc (edge edges) x x
  else forall node, node ∈ nodes -> ends edges node.
Proof.
  induction nodes as [|node rest IH]; intros state Hm; cbn [visit_all]; [by intros node ?%elem_of_nil|].
  pose proof (visit_spec edges (2 + size edges) state [] node Hm ltac:(by intros x ?%elem_of_nil) ltac:(cbn; lia)) as Hv.
  destruct (visit _ edges state node) as [[] state']; [done|]. destruct Hv as [Hm' He].
  specialize (IH state' Hm'). destruct (visit_all _ edges state' rest); [done|].
  intros x [->|Hx]%elem_of_cons; [done|by apply IH].
Qed.

(** C37: [hasLocalReferenceCycle] finds cycles.  It answers true exactly when some
    local node comes, through one or more insertions, after itself; the search
    visits each node once and always ends. *)
Theorem reference_cycle_decided (edges : gmap string string) :
  hasLocalReferenceCycle edges = true <-> exists node, tc (edge edges) node node.
Proof.
  unfold hasLocalReferenceCycle.
  assert (Hm : marks edges ∅ []).
  { split; [intros x; rewrite lookup_empty, elem_of_nil; done|done|done|]. split; [constructor|]. by intros x ?%elem_of_nil. }
  pose proof (visit_all_spec edges (map fst (map_to_list edges)) ∅ Hm) as Hv.
  destruct (visit_all _ _ _ _); [done|]. split; [done|]. intros (x & Hx). exfalso.
  eapply ends_acyclic; [|exact Hx]. apply Hv.
  assert (is_Some (edges !! x)) as [next Hnext] by (inversion Hx as [? ? [E _]|? ? ? [E _]]; subst; rewrite E; eauto).
  apply (list_elem_of_fmap_2' fst _ (x, next)); [by apply elem_of_map_to_list|done].
Qed.

(** ** Clip placement *)

Definition er_typed (e : ExactRational) : Prop := MinInt64 <= er_Value e <= MaxInt64 /\ MinInt32 <= er_Scale e <= MaxInt32.
Definition er_reduced (e : ExactRational) : Prop := 0 < er_Scale e /\ Z.gcd (er_Value e) (er_Scale e) = 1.
Definition er_Q (e : ExactRational) : Q := er_Value e # Z.to_pos (er_Scale e).

Lemma er_validate_reduced e : er_typed e -> is_ok (ExactRational_Validate e) = true <-> er_reduced e.
Proof.
  destruct e as [v s]. intros Ht. pose proof (rt_validate_reduced (mkTime v s) Ht) as Hr.
  unfold er_reduced, RationalTime_Validate, ExactRational_Validate in *. cbn [rt_Value rt_Scale er_Value er_Scale] in *.
  rewrite <- Hr. clear Hr. repeat match goal with |- context [if ?b then _ else _] => destruct b end; cbn [is_ok]; split; (reflexivity || discriminate).
Qed.

Lemma placement_scale_spec e : er_typed e ->
  placement_scale_ok e = true <-> er_reduced e /\ (0 < er_Q e)%Q /\ (er_Q e <= 100)%Q.
Proof.
  intros Ht. unfold placement_scale_ok, ClipPlacementScaleLimit. rewrite negb_true_iff, !orb_false_iff, negb_false_iff, er_validate_reduced by done.
  destruct Ht as [_ Hs]. unfold MinInt32, MaxInt32 in Hs. rewrite to_int64_small by (unfold MinInt64, MaxInt64; lia).
  unfold er_Q, Qlt, Qle. cbn. split.
  - intros [[[Hp Hg] H1] H2]. rewrite Z2Pos.id by done. split; [done|]. lia.
  - intros [[Hp Hg] [H1 H2]]. rewrite Z2Pos.id in H2 by done. split; [split; [done|]|]; lia.
Qed.

Lemma placement_translate_spec e : er_typed e ->
  placement_translate_ok e = true <-> er_reduced e /\ (-10 <= er_Q e)%Q /\ (er_Q e <= 10)%Q.
Proof.
  intros Ht. unfold placement_translate_ok, ClipPlacementTranslateLimit. rewrite negb_true_iff, !orb_false_iff, negb_false_iff, er_validate_reduced by done.
  destruct Ht as [Hv Hs]. rewrite absInt64_abs by done. unfold er_Q, Qle. cbn.
  assert (0 < er_Scale e -> to_uint64 (to_uint64 (er_Scale e) * 10) = er_Scale e * 10) as Hw.
  { intros Hp. unfold MinInt32, MaxInt32 in Hs. rewrite (to_uint64_small (er_Scale e)), to_uint64_small by lia. done. }
  split.
  - intros [[Hp Hg] H1]. rewrite Hw in H1 by done. rewrite Z2Pos.id by done. split; [done|]. lia.
  - intros [[Hp Hg] [H1 H2]]. rewrite Z2Pos.id in H1, H2 by done. split; [done|]. rewrite Hw by done. lia.
Qed.

(** The fields of a placement fit their Go types. *)
Definition placement_typed (p : ClipPlacement) : Prop :=
  0 <= pl_CropX p < 2 ^ 16 /\ 0 <= pl_CropY p < 2 ^ 16 /\ 0 <= pl_CropWidth p < 2 ^ 16 /\ 0 <= pl_CropHeight p < 2 ^ 16 /\
  0 <= pl_Opacity p < 2 ^ 16 /\
  er_typed (pl_ScaleX p) /\ er_typed (pl_ScaleY p) /\ er_typed (pl_TranslateX p) /\ er_typed (pl_TranslateY p).

(** [ClipPlacement.Validate] accepts exactly the sane placements: a non-empty
    crop window inside the frame, an opacity of at most one, both scales reduced
    fractions in (0, 100], both translations reduced fractions in [-10, 10].  No
    sum or product of the checks wraps around. *)
Theorem clip_placement_validated (p : ClipPlacement) : placement_typed p ->
  ClipPlacement_Validate p = Ok tt <->
  (1 <= pl_CropWidth p /\ pl_CropX p + pl_CropWidth p <= 10000) /\ (1 <= pl_CropHeight p /\ pl_CropY p + pl_CropHeight p <= 10000) /\
  pl_Opacity p <= 10000 /\
  Forall (fun e => er_reduced e /\ (0 < er_Q e)%Q /\ (er_Q e <= 100)%Q) [pl_ScaleX p; pl_ScaleY p] /\
  Forall (fun e => er_reduced e /\ (-10 <= er_Q e)%Q /\ (er_Q e <= 10)%Q) [pl_TranslateX p; pl_TranslateY p].
Proof.
  intros (Hx & Hy & Hw & Hh & Ho & S1 & S2 & T1 & T2). unfold ClipPlacement_Validate, to_uint32. rewrite !Z.mod_small by lia.
  rewrite !Forall_cons, !Forall_nil, <- !placement_scale_spec, <- !placement_translate_spec by done. cbn [forallb].
  destruct (_ || _) eqn:E1.
  { split; [done|]. rewrite !orb_true_iff, !Z.ltb_lt in E1. lia. }
  destruct (10000 <? pl_Opacity p) eqn:E2; [split; [done|lia]|].
  rewrite !orb_false_iff, !Z.ltb_ge in E1. apply Z.ltb_ge in E2.
  destruct (placement_scale_ok (pl_ScaleX p)), (placement_scale_ok (pl_ScaleY p)); cbn; try (split; [done|by intros (_ & _ & _ & (? & ? & _) & _)]).
  destruct (placement_translate_ok (pl_TranslateX p)), (placement_translate_ok (pl_TranslateY p)); cbn;
    try (split; [done|by intros (_ & _ & _ & _ & (? & ? & _))]).
  split; [|done]. intros _. repeat split; lia.
Qed.

Lemma clip_placement_validated_witness : ClipPlacement_Validate IdentityClipPlacement = Ok tt.
Proof.
  apply clip_placement_validated.
  - repeat split; cbn; unfold MinInt64, MaxInt64, MinInt32, MaxInt32; lia.
  - cbn. repeat split; try lia; repeat (constructor; cbn); try discriminate; reflexivity.
Defined.
