(* ===== verification/Project.v ===== *)
(** Projects and their genesis: [product/domain/project.go] and the genesis
    encoders of [product/domain/digest.go].

    An instant is a number of nanoseconds, 0 being Go's zero [time.Time].  A raw
    Go string literal is [lit] of the text with every double quote written as
    an apostrophe.  SHA-256 and language parsing come from [Platform]. *)
From stdpp Require Import base list strings gmap sorting.
From Stdlib Require Import ZArith Lia Ascii.
From S2P Require Import Prelude GoText Exact Identity Canonical EditModel Timeline EditState EditValidate EditDerive.
From S2P Require Import EditNormalize.
Open Scope Z_scope.

Inductive project_error :=
| ErrInvalidProjectName | ErrInvalidSequenceFormat | ErrInvalidGenesisIDs | ErrInvalidCreativeActor
| ErrGenesisRequest | ErrGenesisInstant | ErrGenesisProject.
#[export] Instance project_error_eq_dec : EqDecision project_error.
Proof. solve_decision. Defined.

Definition DefaultCanvasWidth : Z := 1920.
Definition DefaultCanvasHeight : Z := 1080.
Definition DefaultAudioSampleRate : Z := 48000.
Definition AudioStereo : string := "stereo".
Definition ColorSDRRec709 : string := "sdr-rec709".

Inductive ProjectStatus := ProjectActive | ProjectArchived | ProjectTombstoned | ProjectPurged.

Record SequenceFormat := mkFormat {
  sf_CanvasWidth : Z; sf_CanvasHeight : Z; sf_PixelAspect : RationalTime; sf_FrameRate : RationalTime;
  sf_AudioSampleRate : Z; sf_AudioLayout : string; sf_ColorPolicy : string }.

#[export] Instance SequenceFormat_eq_dec : EqDecision SequenceFormat.
Proof. solve_decision. Defined.

Definition DefaultSequenceFormat : SequenceFormat :=
  mkFormat DefaultCanvasWidth DefaultCanvasHeight (time_or_zero (NewRationalTime 1 1)) (time_or_zero (NewRationalTime 30 1))
    DefaultAudioSampleRate AudioStereo ColorSDRRec709.

Definition SequenceFormat_Validate (format : SequenceFormat) : outcome project_error unit :=
  _ ← guard_or ErrInvalidSequenceFormat (negb ((sf_CanvasWidth format <? 16) || (16384 <? sf_CanvasWidth format) ||
    (sf_CanvasHeight format <? 16) || (16384 <? sf_CanvasHeight format)));
  _ ← guard_or ErrInvalidSequenceFormat (valid_time (sf_PixelAspect format) && IsPositive (sf_PixelAspect format));
  _ ← guard_or ErrInvalidSequenceFormat (valid_time (sf_FrameRate format) && IsPositive (sf_FrameRate format));
  comparison ← or_fail ErrInvalidSequenceFormat (RationalTime_Compare (sf_FrameRate format) (time_or_zero (NewRationalTime 240 1)));
  _ ← guard_or ErrInvalidSequenceFormat (comparison <=? 0);
  guard_or ErrInvalidSequenceFormat (negb ((sf_AudioSampleRate format <? 8000) || (384000 <? sf_AudioSampleRate format) ||
    negb (bool_decide (sf_AudioLayout format = AudioStereo)) || negb (bool_decide (sf_ColorPolicy format = ColorSDRRec709)))).

Record Track := mkProjectTrack {
  pt_ID : string; pt_Revision : Z; pt_Type : TrackType; pt_Label : string; pt_OrderKey : string }.

Record Sequence := mkSequence {
  seq_ID : string; seq_Revision : Z; seq_Name : string; seq_Role : string; seq_Format : SequenceFormat;
  seq_Tracks : list Track }.

(** [domain.NarrativeNode], the flat form a project snapshot carries *)
Record NarrativeNode := mkNode {
  nn_ID : string; nn_Revision : Z; nn_Kind : string; nn_ParentID : option string; nn_Title : string;
  nn_Language : string; nn_Text : string; nn_Tombstoned : bool; nn_OrderKey : string }.

Record NarrativeDocument := mkDocument {
  doc_ID : string; doc_Revision : Z; doc_Kind : string; doc_RootNodeID : string; doc_Nodes : list NarrativeNode }.

Record Project := mkProject {
  prj_ID : string; prj_Revision : Z; prj_LifecycleRevision : Z; prj_Name : string; prj_Status : ProjectStatus;
  prj_NarrativeDocuments : list NarrativeDocument; prj_Sequences : list Sequence }.

Record GenesisIDs := mkGenesisIDs {
  gi_Project : string; gi_ProjectVersion : string; gi_NarrativeDocument : string; gi_RootSection : string;
  gi_MainSequence : string; gi_VideoTrack : string; gi_AudioTrack : string; gi_CaptionTrack : string;
  gi_Proposal : string; gi_Transaction : string; gi_ActivityEvent : string }.

Record ProjectGenesisInput := mkGenesisInput {
  gn_Name : string; gn_Format : SequenceFormat; gn_RequestID : string; gn_Actor : ActorRef; gn_CreatedAt : Z }.

Record GenesisRecord := mkGenesisRecord {
  gr_ProjectVersionID : string; gr_ProposalID : string; gr_TransactionID : string; gr_RequestID : string;
  gr_Actor : ActorRef; gr_CommittedProjectRevision : Z; gr_ProposalDigest : string; gr_ActivityEventID : string;
  gr_CreatedAt : Z }.

Record ProjectGenesis := mkGenesis { pg_Project : Project; pg_Record : GenesisRecord }.

Definition validateProjectName (name : string) : outcome project_error unit :=
  guard_or ErrInvalidProjectName
    (negb (negb (valid_utf8 name) || bool_decide (trim_space name = "") || (200 <? rune_count name))).

Definition genesis_values (ids : GenesisIDs) : list string :=
  [gi_Project ids; gi_ProjectVersion ids; gi_NarrativeDocument ids; gi_RootSection ids; gi_MainSequence ids;
   gi_VideoTrack ids; gi_AudioTrack ids; gi_CaptionTrack ids; gi_Proposal ids; gi_Transaction ids; gi_ActivityEvent ids].

(** The loop with its [seen] set *)
Fixpoint check_ids (seen : gset string) (values : list string) : outcome project_error unit :=
  match values with
  | [] => Ok tt
  | value :: rest =>
      if negb (isUUIDv7 value) then Fail ErrInvalidGenesisIDs
      else if bool_decide (value ∈ seen) then Fail ErrInvalidGenesisIDs
      else check_ids ({[value]} ∪ seen) rest
  end.

Definition validateGenesisIDs (ids : GenesisIDs) : outcome project_error unit := check_ids ∅ (genesis_values ids).

(** ** Canonical genesis texts *)

Definition ProjectGenesisDigestDomain : string := "open-cut/project-genesis".
Definition ProjectGenesisSchema : string := "open-cut/project-genesis/v1".
Definition ProjectGenesisProposalSchema : string := "open-cut/edit-proposal/project-genesis/v1".
Definition ProjectGenesisInverseSchema : string := "open-cut/inverse-operations/project-genesis/v1".

Definition lit (s : string) : bytes := map (fun a => if Ascii.eqb a "'"%char then quote else a) (bytes_of s).

(** [appendJCSString] panics or appends. *)
Definition append_jcs (buffer : bytes) (value : string) : outcome project_error bytes :=
  match appendJCSString buffer value with Ok b => Ok b | _ => Panic end.

Definition appendCanonicalRational (buffer : bytes) (value : RationalTime) : outcome project_error bytes :=
  buffer ← append_jcs (buffer ++ lit "{'scale':" ++ bytes_of (format_int (rt_Scale value)) ++ lit ",'value':")
             (Int64_String (rt_Value value));
  Ok (buffer ++ lit "}").

Definition appendCanonicalSequenceFormat (buffer : bytes) (format : SequenceFormat) : outcome project_error bytes :=
  buffer ← append_jcs (buffer ++ lit "{'audioLayout':") (sf_AudioLayout format);
  let buffer := buffer ++ lit ",'audioSampleRate':" ++ bytes_of (format_uint (sf_AudioSampleRate format)) in
  let buffer := buffer ++ lit ",'canvasHeight':" ++ bytes_of (format_uint (sf_CanvasHeight format)) in
  let buffer := buffer ++ lit ",'canvasWidth':" ++ bytes_of (format_uint (sf_CanvasWidth format)) in
  buffer ← append_jcs (buffer ++ lit ",'colorPolicy':") (sf_ColorPolicy format);
  buffer ← appendCanonicalRational (buffer ++ lit ",'frameRate':") (sf_FrameRate format);
  buffer ← appendCanonicalRational (buffer ++ lit ",'pixelAspect':") (sf_PixelAspect format);
  Ok (buffer ++ lit "}").

Definition ProjectGenesisCanonical (name : string) (format : SequenceFormat) : outcome project_error bytes :=
  _ ← validateProjectName name;
  _ ← SequenceFormat_Validate format;
  buffer ← append_jcs (lit "{'domain':") ProjectGenesisDigestDomain;
  buffer ← appendCanonicalSequenceFormat (buffer ++ lit ",'payload':{'format':") format;
  buffer ← append_jcs (buffer ++ lit ",'name':") name;
  buffer ← append_jcs (buffer ++ lit "},'schema':") ProjectGenesisSchema;
  Ok (buffer ++ lit "}").

(** The track a map filled from the list would hold under a type: the last one *)
Definition track_of_type (type : TrackType) (tracks : list Track) : option Track :=
  last (filter (fun t => pt_Type t = type) tracks).

Definition ProjectGenesisProposalCanonical (genesis : ProjectGenesis) : outcome project_error bytes :=
  let project := pg_Project genesis in
  match prj_NarrativeDocuments project, prj_Sequences project with
  | [document], [sequence] =>
      if negb (length (seq_Tracks sequence) =? 3)%nat then Fail ErrInvalidGenesisIDs
      else match track_of_type TrackVideo (seq_Tracks sequence), track_of_type TrackAudio (seq_Tracks sequence),
                 track_of_type TrackCaption (seq_Tracks sequence) with
      | Some video, Some audio, Some caption =>
          buffer ← append_jcs (lit "{'domain':'open-cut/edit-proposal','payload':{'allocation':{" ++ lit "'audioTrack':") (pt_ID audio);
          buffer ← append_jcs (buffer ++ lit ",'captionTrack':") (pt_ID caption);
          buffer ← append_jcs (buffer ++ lit ",'mainSequence':") (seq_ID sequence);
          buffer ← append_jcs (buffer ++ lit ",'narrativeDocument':") (doc_ID document);
          buffer ← append_jcs (buffer ++ lit ",'project':") (prj_ID project);
          buffer ← append_jcs (buffer ++ lit ",'rootSection':") (doc_RootNodeID document);
          buffer ← append_jcs (buffer ++ lit ",'videoTrack':") (pt_ID video);
          buffer ← appendCanonicalSequenceFormat
            (buffer ++ lit "},'baseProjectRevision':'0','intent':'create-project','operations':[{'format':") (seq_Format sequence);
          buffer ← append_jcs (buffer ++ lit ",'name':") (prj_Name project);
          buffer ← append_jcs (buffer ++ lit ",'type':'create-project-genesis'}],'preconditions':[]},'schema':") ProjectGenesisProposalSchema;
          Ok (buffer ++ lit "}")
      | _, _, _ => Fail ErrInvalidGenesisIDs
      end
  | _, _ => Fail ErrInvalidGenesisIDs
  end.

Definition ProjectGenesisInverseCanonical (projectID : string) : outcome project_error bytes :=
  if IsZero projectID then Fail ErrGenesisProject
  else
    buffer ← append_jcs (lit "{'domain':'open-cut/inverse-operations','payload':{'operations':[{'projectId':") projectID;
    buffer ← append_jcs (buffer ++ lit ",'type':'tombstone-project'}]},'schema':") ProjectGenesisInverseSchema;
    Ok (buffer ++ lit "}").

Section genesis.
Context `{Platform}.

Definition sha256_text (canonical : bytes) : string := "sha256:" +:+ string_of (hex_encode (platform_sha256 canonical)).

Definition ProjectGenesisDigest (name : string) (format : SequenceFormat) : outcome project_error string :=
  canonical ← ProjectGenesisCanonical name format; Ok (sha256_text canonical).

Definition ProjectGenesisProposalDigest (genesis : ProjectGenesis) : outcome project_error string :=
  canonical ← ProjectGenesisProposalCanonical genesis; Ok (sha256_text canonical).

(** [rootLanguage, _ := ParseCaptionLanguage(...)]: empty when it does not parse *)
Definition genesis_project (input : ProjectGenesisInput) (ids : GenesisIDs) : Project :=
  let revision := 1 in
  let rootLanguage := default "" (ParseCaptionLanguage "und") in
  let root := mkNode (gi_RootSection ids) revision "section" None "" rootLanguage "" false "" in
  let document := mkDocument (gi_NarrativeDocument ids) revision "paper-edit" (gi_RootSection ids) [root] in
  let sequence := mkSequence (gi_MainSequence ids) revision "main" "main" (gn_Format input)
    [mkProjectTrack (gi_VideoTrack ids) revision TrackVideo "V1" "a0";
     mkProjectTrack (gi_AudioTrack ids) revision TrackAudio "A1" "a1";
     mkProjectTrack (gi_CaptionTrack ids) revision TrackCaption "C1" "a2"] in
  mkProject (gi_Project ids) revision revision (gn_Name input) ProjectActive [document] [sequence].

Definition genesis_record (input : ProjectGenesisInput) (ids : GenesisIDs) (digest : string) : GenesisRecord :=
  mkGenesisRecord (gi_ProjectVersion ids) (gi_Proposal ids) (gi_Transaction ids) (gn_RequestID input) (gn_Actor input)
    1 digest (gi_ActivityEvent ids) (gn_CreatedAt input).

Definition NewProjectGenesis (input : ProjectGenesisInput) (ids : GenesisIDs) : outcome project_error ProjectGenesis :=
  _ ← validateProjectName (gn_Name input);
  _ ← SequenceFormat_Validate (gn_Format input);
  _ ← or_fail ErrGenesisRequest (ParseRequestID (gn_RequestID input));
  _ ← guard_or ErrInvalidCreativeActor (ActorRef_Validate (gn_Actor input) && bool_decide (actor_Kind (gn_Actor input) = ActorCreator));
  _ ← guard_or ErrGenesisInstant (negb (gn_CreatedAt input =? 0));
  _ ← validateGenesisIDs ids;
  let genesis := mkGenesis (genesis_project input ids) (genesis_record input ids "") in
  proposalDigest ← ProjectGenesisProposalDigest genesis;
  Ok (mkGenesis (genesis_project input ids) (genesis_record input ids proposalDigest)).
End genesis.

(** * Valid text *)

Lemma contains_hex_small r : contains_rune hex_set r = true -> r < 128.
Proof.
  unfold contains_rune. intros (a & Ha & Hr)%existsb_exists. apply Z.eqb_eq in Hr. subst r.
  assert (forallb (fun c => byte_val c <? 128) (bytes_of hex_set) = true) as Hall by (vm_compute; reflexivity).
  rewrite forallb_forall in Hall. by apply Z.ltb_lt, Hall.
Qed.

Lemma dash_rune l : byte_at l 0 = 45 -> exists rest, l = "-"%char :: rest /\ decode_rune l = (45, 1%nat).
Proof.
  unfold byte_at. destruct l as [|a rest]; [done|]. cbn. intros Ha.
  assert (a = "-"%char) as -> by (apply byte_val_inj; rewrite Ha; reflexivity). eexists; split; [done|]. reflexivity.
Qed.

Lemma uuid_runes_good fuel : forall index l,
  (forall i, uuid_dash (index + i) = true -> (i < length l)%nat -> byte_at l i = 45) ->
  uuid_runes_ok index (runes_fuel fuel l) = true -> forallb good_rune (runes_fuel fuel l) = true.
Proof.
  induction fuel as [|fuel IH]; intros index l Hdash Hok; [done|]. destruct l as [|a l]; [done|].
  cbn [runes_fuel] in *. pose proof (decode_rune_width (a :: l) ltac:(done)) as Hw.
  destruct (decode_rune (a :: l)) as [r w] eqn:E. cbn [uuid_runes_ok forallb] in *.
  assert (uuid_runes_ok (index + length (take w (a :: l))) (runes_fuel fuel (drop w (a :: l))) = true /\
                  good_rune (r, take w (a :: l)) = true) as [Hrest Hgood].
  { destruct (uuid_dash index) eqn:D.
    - split; [done|]. specialize (Hdash 0%nat). rewrite Nat.add_0_r in Hdash.
      destruct (dash_rune (a :: l)) as (rest & El & Er); [apply Hdash; [done|cbn; lia]|].
      rewrite Er in E. injection E as <- <-. done.
    - destruct (contains_rune hex_set r) eqn:C; [|done]. split; [done|]. apply contains_hex_small in C.
      unfold good_rune, RuneError. cbn [fst]. by rewrite (proj2 (Z.eqb_neq _ _)) by lia. }
  rewrite Hgood. cbn. eapply IH; [|exact Hrest]. intros i Hi Hlen. cbn [snd] in Hw. rewrite length_take, Nat.min_l in Hi by lia.
  rewrite length_drop in Hlen. unfold byte_at. rewrite lookup_drop. apply Hdash; [by rewrite Nat.add_assoc|lia].
Qed.

Lemma isUUIDv7_utf8 value : isUUIDv7 value = true -> valid_utf8 value = true.
Proof.
  unfold isUUIDv7. case_match; [done|]. case_match; [done|]. intros Hok. bool_prop.
  eapply uuid_runes_good; [|exact Hok]. intros i Hi _. cbn in Hi.
  assert (i = 8%nat \/ i = 13%nat \/ i = 18%nat \/ i = 23%nat) as [-> | [-> | [-> | ->]]]; [|done..].
  unfold uuid_dash in Hi. rewrite !orb_true_iff, !Nat.eqb_eq in Hi. tauto.
Qed.

(** * The typed encoder against the generic one *)

(** The text of a string value *)
Definition jcs_text (s : string) : bytes := quote :: concat (map (fun c => jcs_rune c.1) (runes (bytes_of s))) ++ [quote].

Lemma append_jcs_valid buffer s : valid_utf8 s = true -> append_jcs buffer s = Ok (buffer ++ jcs_text s).
Proof. intros Hv. unfold append_jcs, appendJCSString. by rewrite Hv. Qed.

Lemma jcs_valid s : valid_utf8 s = true -> appendJCSString [] s = Ok (jcs_text s).
Proof. intros Hv. unfold appendJCSString. by rewrite Hv. Qed.

Lemma canonical_text s : valid_utf8 s = true -> canonical_value (JString s) = Ok (jcs_text s).
Proof. intros Hv. cbn [canonical_value]. by rewrite Hv, jcs_valid. Qed.

Lemma canonical_int n : MinInt64 <= n <= MaxInt64 -> canonical_value (JNumber (format_int n)) = Ok (bytes_of (format_int n)).
Proof.
  intros Hn. cbn [canonical_value]. pose proof (format_int_parse n Hn) as Hp. unfold parseCanonicalInt64 in Hp.
  destruct (isCanonicalDecimal (format_int n) true); [done|]. done.
Qed.

Lemma canonical_uint n : 0 <= n < 2 ^ 64 -> canonical_value (JNumber (format_uint n)) = Ok (bytes_of (format_uint n)).
Proof. intros Hn. cbn [canonical_value]. by rewrite format_uint_canonical. Qed.

Lemma utf8_bytes s : forallb is_ascii (bytes_of s) = true -> valid_utf8 s = true.
Proof.
  intros Ha. unfold valid_utf8. rewrite runes_ascii by done. induction (bytes_of s) as [|a l IH]; [done|].
  cbn [forallb map] in *. bool_prop. rewrite IH by done. unfold good_rune, RuneError, is_ascii in *. cbn [fst snd]. bool_prop.
  by rewrite (proj2 (Z.eqb_neq _ _)) by lia.
Qed.

Lemma digit_ascii a : is_digit a = true -> is_ascii a = true.
Proof. unfold is_digit, is_ascii. intros Hd. bool_prop. apply Z.ltb_lt. lia. Qed.

Lemma decimal_ascii fuel n : 0 <= n -> forallb is_ascii (decimal_digits fuel n) = true.
Proof.
  intros Hn. pose proof (decimal_digits_digits fuel n Hn) as Hd. rewrite forallb_forall in *. intros a Ha. by apply digit_ascii, Hd.
Qed.

Lemma int_text_utf8 n : valid_utf8 (Int64_String n) = true.
Proof.
  apply utf8_bytes. unfold Int64_String, format_int. case_match; bool_prop.
  - rewrite bytes_of_string_of. cbn [forallb]. by rewrite decimal_ascii by lia.
  - unfold format_uint. rewrite bytes_of_string_of. apply decimal_ascii. lia.
Qed.

(** The JSON trees of the types, in the order of their struct fields *)
Definition rational_value (t : RationalTime) : jvalue :=
  JObject [("value", JString (Int64_String (rt_Value t))); ("scale", JNumber (format_int (rt_Scale t)))].

Definition format_value (f : SequenceFormat) : jvalue :=
  JObject [("canvasWidth", JNumber (format_uint (sf_CanvasWidth f))); ("canvasHeight", JNumber (format_uint (sf_CanvasHeight f)));
    ("pixelAspect", rational_value (sf_PixelAspect f)); ("frameRate", rational_value (sf_FrameRate f));
    ("audioSampleRate", JNumber (format_uint (sf_AudioSampleRate f))); ("audioLayout", JString (sf_AudioLayout f));
    ("colorPolicy", JString (sf_ColorPolicy f))].

(** The fields of a format fit their Go types. *)
Definition format_typed (f : SequenceFormat) : Prop :=
  0 <= sf_CanvasWidth f < 2 ^ 32 /\ 0 <= sf_CanvasHeight f < 2 ^ 32 /\ 0 <= sf_AudioSampleRate f < 2 ^ 32 /\
  rt_typed (sf_PixelAspect f) /\ rt_typed (sf_FrameRate f).

(** A hand-written encoder appends what the generic encoder yields. *)
Definition encodes (write : bytes -> outcome project_error bytes) (v : jvalue) : Prop :=
  exists e, canonical_value v = Ok e /\ forall buffer, write buffer = Ok (buffer ++ e).

(** Evaluate literal texts and associate to the right. *)
Ltac literal_bytes :=
  repeat match goal with
  | |- context [lit ?s] => let v := eval vm_compute in (lit s) in change (lit s) with v
  | |- context [jcs_text (String ?a ?s)] => let v := eval vm_compute in (jcs_text (String a s)) in change (jcs_text (String a s)) with v
  end;
  cbn [separator app]; repeat (rewrite <- ?app_assoc, ?app_nil_r; cbn [app]).

Fixpoint members (first : bool) (l : list (string * bytes)) : bytes :=
  match l with [] => [] | (k, e) :: rest => separator first ++ jcs_text k ++ ":"%char :: e ++ members false rest end.

Lemma append_members l : forall first, forallb (fun m => valid_utf8 m.1) l = true ->
  append_entries first (map (fun m => (m.1, Ok m.2)) l) = Ok (members first l).
Proof.
  induction l as [|[k e] l IH]; intros first Hv; [done|]. cbn [forallb map append_entries members fst snd] in *. bool_prop.
  rewrite jcs_valid by done. cbn. by rewrite IH.
Qed.

(** An object whose members encode, given in the order of their keys *)
Lemma canonical_members entries sorted :
  sort_by fst (map (fun e => (e.1, canonical_value e.2)) entries) = map (fun m => (m.1, Ok m.2)) sorted ->
  forallb (fun m => valid_utf8 m.1) sorted = true ->
  canonical_value (JObject entries) = Ok ("{"%char :: members true sorted ++ ["}"%char]).
Proof. intros Hs Hv. cbn [canonical_value]. by rewrite Hs, append_members. Qed.

Lemma canonical_singleton v e : canonical_value v = Ok e -> canonical_value (JArray [v]) = Ok ("["%char :: e ++ ["]"%char]).
Proof. intros He. cbn [canonical_value map append_items]. rewrite He. cbn. by rewrite app_nil_r. Qed.

Lemma rational_encodes t : rt_typed t -> encodes (fun buffer => appendCanonicalRational buffer t) (rational_value t).
Proof.
  intros [Hv Hs]. unfold encodes, rational_value. eexists. split.
  - apply (canonical_members _ [("scale", bytes_of (format_int (rt_Scale t))); ("value", jcs_text (Int64_String (rt_Value t)))]);
      [|reflexivity]. cbn [map fst snd]. rewrite canonical_text by apply int_text_utf8.
    rewrite canonical_int by (unfold MinInt64, MaxInt64, MinInt32, MaxInt32 in *; lia). reflexivity.
  - intros buffer. unfold appendCanonicalRational. rewrite append_jcs_valid by apply int_text_utf8. cbn [mbind outcome_bind members].
    by literal_bytes.
Qed.

Lemma format_encodes f : format_typed f -> valid_utf8 (sf_AudioLayout f) = true -> valid_utf8 (sf_ColorPolicy f) = true ->
  encodes (fun buffer => appendCanonicalSequenceFormat buffer f) (format_value f).
Proof.
  intros (Hw & Hh & Ha & Hp & Hf) Hl Hc. unfold encodes, format_value.
  destruct (rational_encodes _ Hp) as (ep & Ep & Wp), (rational_encodes _ Hf) as (ef & Ef & Wf). eexists. split.
  - apply (canonical_members _ [("audioLayout", jcs_text (sf_AudioLayout f)); ("audioSampleRate", bytes_of (format_uint (sf_AudioSampleRate f)));
      ("canvasHeight", bytes_of (format_uint (sf_CanvasHeight f))); ("canvasWidth", bytes_of (format_uint (sf_CanvasWidth f)));
      ("colorPolicy", jcs_text (sf_ColorPolicy f)); ("frameRate", ef); ("pixelAspect", ep)]); [|reflexivity].
    cbn [map fst snd]. rewrite !canonical_text, !canonical_uint, Ep, Ef by (done || lia). reflexivity.
  - intros buffer. unfold appendCanonicalSequenceFormat. rewrite append_jcs_valid by done. cbn [mbind outcome_bind].
    rewrite append_jcs_valid by done. cbn [mbind outcome_bind]. rewrite Wf. cbn [mbind outcome_bind]. rewrite Wp.
    cbn [mbind outcome_bind members]. by literal_bytes.
Qed.

(** * Properties *)

Definition genesis_payload (name : string) (format : SequenceFormat) : jvalue :=
  JObject [("name", JString name); ("format", format_value format)].

(** The proposal that creates a project, as the payload of an edit proposal *)
Definition genesis_proposal_payload (input : ProjectGenesisInput) (ids : GenesisIDs) : jvalue :=
  JObject [
    ("baseProjectRevision", JString "0"); ("intent", JString "create-project"); ("preconditions", JArray []);
    ("operations", JArray [JObject [("type", JString "create-project-genesis"); ("name", JString (gn_Name input));
       ("format", format_value (gn_Format input))]]);
    ("allocation", JObject [("project", JString (gi_Project ids)); ("narrativeDocument", JString (gi_NarrativeDocument ids));
       ("rootSection", JString (gi_RootSection ids)); ("mainSequence", JString (gi_MainSequence ids));
       ("videoTrack", JString (gi_VideoTrack ids)); ("audioTrack", JString (gi_AudioTrack ids));
       ("captionTrack", JString (gi_CaptionTrack ids))])].

Definition genesis_inverse_payload (projectID : string) : jvalue :=
  JObject [("operations", JArray [JObject [("type", JString "tombstone-project"); ("projectId", JString projectID)]])].

Lemma check_ids_ok values : forall seen, check_ids seen values = Ok tt <->
  Forall (fun v => isUUIDv7 v = true) values /\ NoDup values /\ Forall (fun v => ~ v ∈ seen) values.
Proof.
  induction values as [|v l IH]; intros seen; cbn [check_ids]; [by repeat constructor|].
  rewrite !Forall_cons, NoDup_cons. destruct (isUUIDv7 v); cbn; [|split; [done|by intros ((? & _) & _)]].
  case_bool_decide as Hv; [split; [done|by intros (_ & _ & ? & _)]|]. rewrite IH. setoid_rewrite elem_of_union.
  setoid_rewrite elem_of_singleton. rewrite !Forall_forall. split.
  - intros (H1 & H2 & H3). repeat split; try done; [intros Hin; apply (H3 v Hin); by left|intros x Hx Hs; apply (H3 x Hx); by right].
  - intros ((_ & H1) & (H2 & H3) & _ & H4). repeat split; try done. intros x Hx [->|Hs]; [done|by apply (H4 x Hx)].
Qed.

Lemma validateGenesisIDs_ok ids : validateGenesisIDs ids = Ok tt <->
  Forall (fun v => isUUIDv7 v = true) (genesis_values ids) /\ NoDup (genesis_values ids).
Proof.
  unfold validateGenesisIDs. rewrite check_ids_ok. split; [by intros (? & ? & _)|]. intros [H1 H2]. repeat split; try done.
  apply Forall_forall. intros x _. apply not_elem_of_empty.
Qed.

Lemma format_validated f : SequenceFormat_Validate f = Ok tt -> sf_AudioLayout f = AudioStereo /\ sf_ColorPolicy f = ColorSDRRec709.
Proof. unfold SequenceFormat_Validate. intros Hf. outcome_inv. bool_prop. done. Qed.

Lemma format_encodes_valid f : format_typed f -> SequenceFormat_Validate f = Ok tt ->
  encodes (fun buffer => appendCanonicalSequenceFormat buffer f) (format_value f).
Proof. intros Ht [Hl Hc]%format_validated. apply format_encodes; [done|by rewrite Hl|by rewrite Hc]. Qed.

Lemma name_utf8 name : validateProjectName name = Ok tt -> valid_utf8 name = true.
Proof. unfold validateProjectName. rewrite guard_or_ok. intros Hn. bool_prop. done. Qed.

Lemma genesis_canonical name format : format_typed format -> validateProjectName name = Ok tt -> SequenceFormat_Validate format = Ok tt ->
  exists b, ProjectGenesisCanonical name format = Ok b /\
    CanonicalEnvelope ProjectGenesisDigestDomain ProjectGenesisSchema (genesis_payload name format) = Ok b.
Proof.
  intros Ht Hn Hf. destruct (format_encodes_valid _ Ht Hf) as (e & Ee & We). pose proof (name_utf8 _ Hn) as Hu.
  assert (Hp : canonical_value (genesis_payload name format) = Ok ("{"%char :: members true [("format", e); ("name", jcs_text name)] ++ ["}"%char])).
  { apply canonical_members; [|reflexivity]. cbn [map fst snd]. rewrite canonical_text, Ee by done. reflexivity. }
  eexists. split.
  - unfold ProjectGenesisCanonical. rewrite Hn, Hf. cbn [mbind outcome_bind]. rewrite append_jcs_valid by reflexivity.
    cbn [mbind outcome_bind]. rewrite We. cbn [mbind outcome_bind]. rewrite append_jcs_valid by done. cbn [mbind outcome_bind].
    rewrite append_jcs_valid by reflexivity. reflexivity.
  - unfold CanonicalEnvelope. rewrite !bool_decide_eq_false_2 by done. cbn [orb]. unfold appendCanonicalValue.
    erewrite (canonical_members _ [("domain", _); ("payload", _); ("schema", _)]); [| |reflexivity].
    2:{ cbn [map fst snd]. rewrite Hp, !canonical_text by (vm_compute; reflexivity). reflexivity. }
    cbn [mbind outcome_bind members]. unfold ProjectGenesisDigestDomain, ProjectGenesisSchema.
    change (json_text ?s) with s. f_equal. by literal_bytes.
Qed.

(** An envelope around an encoded payload *)
Lemma canonical_envelope domainName schema payload e : domainName <> "" -> schema <> "" ->
  json_text domainName = domainName -> json_text schema = schema -> valid_utf8 domainName = true -> valid_utf8 schema = true ->
  canonical_value payload = Ok e ->
  CanonicalEnvelope domainName schema payload =
    Ok ("{"%char :: members true [("domain", jcs_text domainName); ("payload", e); ("schema", jcs_text schema)] ++ ["}"%char]).
Proof.
  intros Hd Hs Jd Js Vd Vs He. unfold CanonicalEnvelope, appendCanonicalValue. rewrite !bool_decide_eq_false_2, Jd, Js by done. cbn [orb].
  rewrite (canonical_members _ [("domain", jcs_text domainName); ("payload", e); ("schema", jcs_text schema)]); [reflexivity| |reflexivity].
  cbn [map fst snd]. rewrite He, !canonical_text by done. reflexivity.
Qed.

Ltac write_jcs := repeat (rewrite append_jcs_valid by (done || reflexivity); cbn [mbind outcome_bind]).

Lemma genesis_proposal_canonical `{Platform} input ids digest : format_typed (gn_Format input) ->
  validateProjectName (gn_Name input) = Ok tt -> SequenceFormat_Validate (gn_Format input) = Ok tt ->
  validateGenesisIDs ids = Ok tt ->
  exists b, ProjectGenesisProposalCanonical (mkGenesis (genesis_project input ids) (genesis_record input ids digest)) = Ok b /\
    CanonicalEnvelope "open-cut/edit-proposal" ProjectGenesisProposalSchema (genesis_proposal_payload input ids) = Ok b.
Proof.
  intros Ht Hn Hf [Hids _]%validateGenesisIDs_ok. destruct (format_encodes_valid _ Ht Hf) as (e & Ee & We).
  pose proof (name_utf8 _ Hn) as Hu. unfold genesis_values in Hids. rewrite !Forall_cons in Hids.
  destruct Hids as (I1 & _ & I3 & I4 & I5 & I6 & I7 & I8 & _). apply isUUIDv7_utf8 in I1, I3, I4, I5, I6, I7, I8.
  pose (operation := "{"%char :: members true [("format", e); ("name", jcs_text (gn_Name input)); ("type", jcs_text "create-project-genesis")] ++ ["}"%char]).
  assert (Ho : canonical_value (JObject [("type", JString "create-project-genesis"); ("name", JString (gn_Name input)); ("format", format_value (gn_Format input))]) = Ok operation).
  { apply canonical_members; [|reflexivity]. cbn [map fst snd]. rewrite !canonical_text, Ee by done. reflexivity. }
  pose (allocation := "{"%char :: members true [("audioTrack", jcs_text (gi_AudioTrack ids)); ("captionTrack", jcs_text (gi_CaptionTrack ids));
    ("mainSequence", jcs_text (gi_MainSequence ids)); ("narrativeDocument", jcs_text (gi_NarrativeDocument ids));
    ("project", jcs_text (gi_Project ids)); ("rootSection", jcs_text (gi_RootSection ids)); ("videoTrack", jcs_text (gi_VideoTrack ids))] ++ ["}"%char]).
  assert (Ha : canonical_value (JObject [("project", JString (gi_Project ids)); ("narrativeDocument", JString (gi_NarrativeDocument ids));
    ("rootSection", JString (gi_RootSection ids)); ("mainSequence", JString (gi_MainSequence ids)); ("videoTrack", JString (gi_VideoTrack ids));
    ("audioTrack", JString (gi_AudioTrack ids)); ("captionTrack", JString (gi_CaptionTrack ids))]) = Ok allocation).
  { apply canonical_members; [|reflexivity]. cbn [map fst snd]. rewrite !canonical_text by done. reflexivity. }
  eexists. split.
  - unfold ProjectGenesisProposalCanonical. cbn -[append_jcs appendCanonicalSequenceFormat lit app jcs_text track_of_type].
    change (track_of_type TrackVideo [?v; ?a; ?c]) with (Some v). change (track_of_type TrackAudio [?v; ?a; ?c]) with (Some a).
    change (track_of_type TrackCaption [?v; ?a; ?c]) with (Some c). cbn iota beta. cbn [pt_ID]. write_jcs. rewrite We. cbn [mbind outcome_bind]. write_jcs. reflexivity.
  - erewrite canonical_envelope; [|done|done|reflexivity|reflexivity|reflexivity|reflexivity|].
    2:{ apply (canonical_members _ [("allocation", allocation); ("baseProjectRevision", jcs_text "0"); ("intent", jcs_text "create-project");
          ("operations", "["%char :: operation ++ ["]"%char]); ("preconditions", bytes_of "[]")]); [|reflexivity].
        cbn [map fst snd]. rewrite (canonical_text "0"), (canonical_text "create-project"), Ha by reflexivity.
        rewrite (canonical_singleton _ _ Ho). reflexivity. }
    unfold allocation.
    unfold operation, ProjectGenesisProposalSchema. f_equal. cbn [members]. change (jcs_text "0") with (lit "'0'"). by literal_bytes.
Qed.

Lemma genesis_inverse_canonical projectID : isUUIDv7 projectID = true ->
  exists b, ProjectGenesisInverseCanonical projectID = Ok b /\
    CanonicalEnvelope "open-cut/inverse-operations" ProjectGenesisInverseSchema (genesis_inverse_payload projectID) = Ok b.
Proof.
  intros Hid. pose proof (isUUIDv7_utf8 _ Hid) as Hu.
  assert (Hz : IsZero projectID = false) by (unfold IsZero; apply bool_decide_eq_false; intros ->; done).
  pose (operation := "{"%char :: members true [("projectId", jcs_text projectID); ("type", jcs_text "tombstone-project")] ++ ["}"%char]).
  assert (Ho : canonical_value (JObject [("type", JString "tombstone-project"); ("projectId", JString projectID)]) = Ok operation).
  { apply canonical_members; [|reflexivity]. cbn [map fst snd]. rewrite !canonical_text by done. reflexivity. }
  eexists. split.
  - unfold ProjectGenesisInverseCanonical. rewrite Hz. write_jcs. reflexivity.
  - erewrite canonical_envelope; [|done|done|reflexivity|reflexivity|reflexivity|reflexivity|].
    2:{ apply (canonical_members _ [("operations", "["%char :: operation ++ ["]"%char])]); [|reflexivity].
        cbn [map fst snd]. rewrite (canonical_singleton _ _ Ho). reflexivity. }
    unfold operation, ProjectGenesisInverseSchema. f_equal. cbn [members]. by literal_bytes.
Qed.

(** What [NewProjectGenesis] asks of its input *)
Definition genesis_acceptable (input : ProjectGenesisInput) (ids : GenesisIDs) : Prop :=
  validateProjectName (gn_Name input) = Ok tt /\ SequenceFormat_Validate (gn_Format input) = Ok tt /\
  ParseRequestID (gn_RequestID input) = Ok (gn_RequestID input) /\
  (exists id, gn_Actor input = mkActor ActorCreator (Some id) None /\ id <> "") /\ gn_CreatedAt input <> 0 /\
  Forall (fun v => isUUIDv7 v = true) (genesis_values ids) /\ NoDup (genesis_values ids).

Lemma creator_actor actor : ActorRef_Validate actor && bool_decide (actor_Kind actor = ActorCreator) = true <->
  exists id, actor = mkActor ActorCreator (Some id) None /\ id <> "".
Proof.
  destruct actor as [kind creator agent]. unfold ActorRef_Validate, pointer_is, IsZero. cbn. split.
  - intros Hv. bool_prop. subst kind. bool_prop. destruct creator as [c|], agent; try done. exists c. bool_prop. done.
  - intros (id & [= -> -> ->] & Hid). by rewrite bool_decide_eq_false_2.
Qed.

Lemma ParseRequestID_same value v : ParseRequestID value = Ok v -> v = value.
Proof. unfold ParseRequestID. case_match; [done|]. by intros [= ->]. Qed.

Section genesis_steps.
Context `{Platform}.

Lemma genesis_requires input ids g : NewProjectGenesis input ids = Ok g -> genesis_acceptable input ids.
Proof.
  unfold NewProjectGenesis, genesis_acceptable. intros Hg. outcome_inv.
  repeat match goal with u : unit |- _ => destruct u end. rewrite creator_actor in *. rewrite validateGenesisIDs_ok in *.
  match goal with HR : ParseRequestID _ = Ok _ |- _ => rewrite HR; apply ParseRequestID_same in HR; subst end.
  bool_prop. repeat split; try done; by destruct Hs4.
Qed.

Lemma genesis_accepted input ids : format_typed (gn_Format input) -> genesis_acceptable input ids ->
  exists b, CanonicalEnvelope "open-cut/edit-proposal" ProjectGenesisProposalSchema (genesis_proposal_payload input ids) = Ok b /\
    NewProjectGenesis input ids = Ok (mkGenesis (genesis_project input ids) (genesis_record input ids (sha256_text b))).
Proof.
  intros Ht (Hn & Hf & Hr & Ha & Hc & Hi). apply creator_actor in Ha. apply validateGenesisIDs_ok in Hi.
  destruct (genesis_proposal_canonical input ids "" Ht Hn Hf Hi) as (b & Hb & He). exists b. split; [done|].
  unfold NewProjectGenesis, ProjectGenesisProposalDigest. rewrite Hn, Hf, Hr, Ha, Hi. cbn [mbind outcome_bind or_fail guard_or].
  rewrite (proj2 (Z.eqb_neq _ _) Hc). cbn [negb guard_or mbind outcome_bind]. by rewrite Hb.
Qed.

Lemma SequenceFormat_safe f : SequenceFormat_Validate f <> Panic.
Proof.
  unfold SequenceFormat_Validate. repeat (apply bind_safe; [auto with oc|intros ? _]); auto with oc.
  apply or_fail_safe. unfold RationalTime_Compare.
  by destruct (rt_validate_total (sf_FrameRate f)) as [-> | ->], (rt_validate_total (time_or_zero (NewRationalTime 240 1))) as [-> | ->].
Qed.

Lemma check_ids_safe values : forall seen, check_ids seen values <> Panic.
Proof. induction values as [|v l IH]; intros seen; cbn [check_ids]; [done|]. by repeat case_match. Qed.

Lemma genesis_safe input ids : format_typed (gn_Format input) -> NewProjectGenesis input ids <> Panic.
Proof.
  intros Ht. unfold NewProjectGenesis. apply bind_safe; [apply guard_or_safe|intros [] Hn].
  apply bind_safe; [apply SequenceFormat_safe|intros [] Hf].
  apply bind_safe; [apply or_fail_safe; unfold ParseRequestID; by case_match|intros r _].
  apply bind_safe; [apply guard_or_safe|intros _ _]. apply bind_safe; [apply guard_or_safe|intros _ _].
  apply bind_safe; [apply check_ids_safe|intros [] Hi].
  destruct (genesis_proposal_canonical input ids "" Ht Hn Hf Hi) as (b & Hb & _).
  unfold ProjectGenesisProposalDigest. by rewrite Hb.
Qed.
End genesis_steps.

(** [NewProjectGenesis] creates a project exactly when its request is in order.
    It never panics; it answers with a value exactly for a valid name and format, a
    request identity, a creator as actor, a real instant and eleven distinct
    identities.  The project is then active at revision one with an empty root
    section and one video, one audio and one caption track, and its record carries
    the digest of the canonical edit proposal that creates it. *)
Theorem project_genesis_complete `{Platform} (input : ProjectGenesisInput) (ids : GenesisIDs) :
  format_typed (gn_Format input) ->
  NewProjectGenesis input ids <> Panic /\
  forall g, NewProjectGenesis input ids = Ok g <->
    genesis_acceptable input ids /\
    exists b, CanonicalEnvelope "open-cut/edit-proposal" ProjectGenesisProposalSchema (genesis_proposal_payload input ids) = Ok b /\
      g = mkGenesis (genesis_project input ids) (genesis_record input ids (sha256_text b)).
Proof.
  intros Ht. split; [by apply genesis_safe|]. intros g. split.
  - intros Hg. pose proof (genesis_requires _ _ _ Hg) as Ha. split; [done|].
    destruct (genesis_accepted _ _ Ht Ha) as (b & Hb & Hg'). exists b. split; [done|congruence].
  - intros (Ha & b & Hb & ->). destruct (genesis_accepted _ _ Ht Ha) as (b' & Hb' & Hg'). congruence.
Qed.

Definition genesis_sample_id (n : Z) : string :=
  uuid_text (uuid_pack 1700000000000 (replicate 15 0 ++ [n])).

Definition genesis_sample_ids : GenesisIDs :=
  mkGenesisIDs (genesis_sample_id 1) (genesis_sample_id 2) (genesis_sample_id 3) (genesis_sample_id 4) (genesis_sample_id 5)
    (genesis_sample_id 6) (genesis_sample_id 7) (genesis_sample_id 8) (genesis_sample_id 9) (genesis_sample_id 10) (genesis_sample_id 11).

Definition genesis_sample_input : ProjectGenesisInput :=
  mkGenesisInput "Interview" DefaultSequenceFormat "request-1" (mkActor ActorCreator (Some (genesis_sample_id 12)) None) 1700000000000000000.

Lemma default_format_typed : format_typed DefaultSequenceFormat.
Proof. unfold format_typed, rt_typed. repeat split; vm_compute; first [reflexivity | discriminate]. Qed.

Lemma genesis_sample_acceptable : genesis_acceptable genesis_sample_input genesis_sample_ids.
Proof.
  repeat split; try reflexivity; try discriminate.
  - eexists. split; [reflexivity|discriminate].
  - repeat constructor.
  - apply (bool_decide_unpack _). vm_compute. exact I.
Qed.

Lemma project_genesis_complete_witness :
  exists g, @NewProjectGenesis sample_platform genesis_sample_input genesis_sample_ids = Ok g.
Proof.
  destruct (@genesis_proposal_canonical sample_platform genesis_sample_input genesis_sample_ids "" default_format_typed) as (b & _ & Hb); [reflexivity..|].
  eexists. apply (@project_genesis_complete sample_platform genesis_sample_input genesis_sample_ids default_format_typed).
  split; [exact genesis_sample_acceptable|]. exists b. split; [exact Hb|reflexivity].
Defined.

(** the hand-written genesis encoders are canonical JSON.  For every valid name
    and format, and every project identity, the bytes of [ProjectGenesisCanonical]
    and [ProjectGenesisInverseCanonical] are those the generic RFC 8785 encoder
    gives for the same content: the digest that detects a repeated request does
    not depend on which encoder computed it. *)
Theorem genesis_texts_canonical (name : string) (format : SequenceFormat) (projectID : string)
    (Ht : format_typed format) (Hn : validateProjectName name = Ok tt) (Hf : SequenceFormat_Validate format = Ok tt)
    (Hid : isUUIDv7 projectID = true) :
  (exists b, ProjectGenesisCanonical name format = Ok b /\
    CanonicalEnvelope ProjectGenesisDigestDomain ProjectGenesisSchema (genesis_payload name format) = Ok b) /\
  (exists b, ProjectGenesisInverseCanonical projectID = Ok b /\
    CanonicalEnvelope "open-cut/inverse-operations" ProjectGenesisInverseSchema (genesis_inverse_payload projectID) = Ok b).
Proof. split; [by apply genesis_canonical|by apply genesis_inverse_canonical]. Qed.

Lemma genesis_texts_canonical_witness :
  exists b, ProjectGenesisCanonical "Interview" DefaultSequenceFormat = Ok b.
Proof.
  destruct (genesis_texts_canonical "Interview" DefaultSequenceFormat (genesis_sample_id 1)) as [(b & Hb & _) _];
    [exact default_format_typed|reflexivity|reflexivity|reflexivity|]. exists b. exact Hb.
Defined.
