(* ===== verification/RenderContract.v ===== *)
(** Render plans and their contract: the plan types of
    [product/domain/render.go] and the output derivation and validation of
    [product/rendercontract].

    Every validator of the contract reports the one error [ErrRenderPlanInvalid].
    The three loops over instructions have the same body but for the checks on
    one instruction: [publish_loop] is that body. *)
From stdpp Require Import base list strings gmap sorting.
From Stdlib Require Import ZArith QArith Lia Ascii.
From S2P Require Import Prelude GoText Exact Identity Canonical EditModel Timeline EditState.
From S2P Require Import EditNarrative EditCaptions EditTranscript EditDerive EditValidate Project.
Open Scope Z_scope.

(** The errors of the contract and of the compiler; [ErrRenderEncoding] is a
    failure to encode the compiled plan. *)
Inductive render_error :=
| ErrRenderPlanInvalid | ErrRenderSequenceEmpty | ErrRenderInputRequired | ErrRenderFontRequired | ErrRenderEncoding.
#[export] Instance render_error_eq_dec : EqDecision render_error.
Proof. solve_decision. Defined.

Definition RenderPlanSchema : string := "open-cut/render-plan/v4".
Definition RenderPlanCompilerV4 : string := "sequence-render-plan-v4".
Definition SequencePreviewProfileV1 : string := "webm-vp9-opus-sequence-preview-v1".
Definition SequenceExportProfileV1 : string := "webm-vp9-opus-v1".
Definition SequencePreviewMaximumLongEdge : Z := 1280.
Definition SequencePreviewAudioSampleRate : Z := 48000.
Definition SequencePreviewOpacityBasisPoint : Z := 10000.
Definition RenderGainMinimumMilliDB : Z := -96000.
Definition RenderGainMaximumMilliDB : Z := 24000.

Definition SourceProxyProfile : string := "webm-vp9-opus-source-v1".
Definition RenderInputProfile : string := "matroska-ffv1-pcm-render-input-v1".
Definition MaximumRenderPlanItems : nat := Z.to_nat 65536.
Definition MaximumSourceProxySamples : Z := 8000000000.
Definition MaximumRenderDimension : Z := 16384.
Definition MaximumPreviewVideoFrames : Z := 10000000.
Definition MaximumPreviewAudioSamples : Z := 2000000000.

Inductive RenderPlanPurpose := RenderPurposeSequencePreview | RenderPurposeExport | RenderPurposeOther (text : string).
#[export] Instance RenderPlanPurpose_eq_dec : EqDecision RenderPlanPurpose.
Proof. solve_decision. Defined.

(** ** Plan types *)

Record RenderVideoInput := mkVideoInput {
  vi_SourceStreamID : string; vi_SourceStart : RationalTime; vi_MaterialStart : RationalTime;
  vi_SourceTimeBase : RationalTime; vi_MaterialTimeBase : RationalTime; vi_TimeMapDigest : string;
  vi_Width : Z; vi_Height : Z }.
#[export] Instance RenderVideoInput_eq_dec : EqDecision RenderVideoInput.
Proof. solve_decision. Defined.

Record RenderAudioInput := mkAudioInput {
  ai_SourceStreamID : string; ai_SourceStart : RationalTime; ai_MaterialStart : RationalTime;
  ai_SourceTimeBase : RationalTime; ai_MaterialTimeBase : RationalTime; ai_SampleRate : Z;
  ai_ChannelLayout : string; ai_DecodedSampleCount : Z }.
#[export] Instance RenderAudioInput_eq_dec : EqDecision RenderAudioInput.
Proof. solve_decision. Defined.

Record RenderPlanInput := mkPlanInput {
  in_ArtifactID : string; in_ArtifactDigest : string; in_ProducerVersion : string; in_Profile : string;
  in_AssetID : string; in_AssetRevision : Z; in_Fingerprint : string; in_SourceEpoch : RationalTime;
  in_MediaDigest : string; in_Video : option RenderVideoInput; in_Audio : option RenderAudioInput }.
#[export] Instance RenderPlanInput_eq_dec : EqDecision RenderPlanInput.
Proof. solve_decision. Defined.

Record RenderPlacement := mkRenderPlacement {
  rp_CropX : Z; rp_CropY : Z; rp_CropWidth : Z; rp_CropHeight : Z;
  rp_ScaleX : ExactRational; rp_ScaleY : ExactRational; rp_TranslateX : ExactRational; rp_TranslateY : ExactRational;
  rp_AnchorX : Z; rp_AnchorY : Z; rp_Opacity : Z; rp_FitPolicy : string }.
#[export] Instance RenderPlacement_eq_dec : EqDecision RenderPlacement.
Proof. solve_decision. Defined.

Record RenderVideoInstruction := mkVideoInstruction {
  rv_ClipID : string; rv_ClipRevision : Z; rv_TrackID : string; rv_TrackRevision : Z; rv_Layer : Z;
  rv_InputArtifactID : string; rv_SourceStreamID : string; rv_SourceRange : TimeRange; rv_TimelineRange : TimeRange;
  rv_Orientation : string; rv_Placement : RenderPlacement }.

Record RenderAudioInstruction := mkAudioInstruction {
  ra_ClipID : string; ra_ClipRevision : Z; ra_TrackID : string; ra_TrackRevision : Z; ra_Layer : Z;
  ra_InputArtifactID : string; ra_SourceStreamID : string; ra_SourceRange : TimeRange; ra_TimelineRange : TimeRange;
  ra_ChannelMapping : string; ra_GainMilliDB : Z }.

Record RenderFontResource := mkFont { font_ResourceID : string; font_Version : string; font_SHA256 : string }.

Record RenderCaptionStyle := mkCaptionStyle {
  cs_FontResourceID : string; cs_FontSize : Z; cs_TextColorRGBA : string; cs_OutlineColorRGBA : string;
  cs_Outline : Z; cs_LineHeight : Z; cs_Alignment : string; cs_PositionY : Z; cs_SafeWidth : Z; cs_WrapPolicy : string }.

Record RenderCaptionInstruction := mkCaptionInstruction {
  rc_CaptionID : string; rc_CaptionRevision : Z; rc_TrackID : string; rc_TrackRevision : Z; rc_Layer : Z;
  rc_Range : TimeRange; rc_Language : string; rc_Text : string; rc_Style : RenderCaptionStyle }.

Record RenderEvaluationPolicy := mkEvaluation {
  ev_Coordinate : string; ev_ColorPipeline : string; ev_Scale : string; ev_Blend : string; ev_AudioGain : string;
  ev_AudioMix : string; ev_CaptionLayout : string; ev_CaptionRaster : string; ev_Determinism : string }.
#[export] Instance RenderEvaluationPolicy_eq_dec : EqDecision RenderEvaluationPolicy.
Proof. solve_decision. Defined.

Record RenderMuxPolicy := mkMux { mux_Mux : string; mux_Keyframe : string; mux_OpusTrim : string }.
#[export] Instance RenderMuxPolicy_eq_dec : EqDecision RenderMuxPolicy.
Proof. solve_decision. Defined.

Record RenderVideoOutputPolicy := mkVideoOutput {
  vo_Codec : string; vo_Encoder : string; vo_EncoderProfile : Z; vo_PixelFormat : string; vo_ColorRange : string;
  vo_ColorSpace : string; vo_ColorTransfer : string; vo_ColorPrimaries : string; vo_ChromaLocation : string;
  vo_RateControl : string; vo_CRF : Z; vo_Deadline : string; vo_CPUUsed : Z; vo_ThreadCount : Z }.
#[export] Instance RenderVideoOutputPolicy_eq_dec : EqDecision RenderVideoOutputPolicy.
Proof. solve_decision. Defined.

Record RenderAudioOutputPolicy := mkAudioOutput {
  ao_Codec : string; ao_Encoder : string; ao_SampleRate : Z; ao_ChannelLayout : string; ao_BitRate : Z;
  ao_VariableBitRate : bool; ao_FrameDurationMS : Z; ao_CompressionLevel : Z; ao_ClippingPolicy : string;
  ao_PCMFormat : string; ao_DitherPolicy : string }.
#[export] Instance RenderAudioOutputPolicy_eq_dec : EqDecision RenderAudioOutputPolicy.
Proof. solve_decision. Defined.

Record RenderOutputPolicy := mkOutput {
  out_Profile : string; out_Container : string; out_CanvasWidth : Z; out_CanvasHeight : Z;
  out_PixelAspect : RationalTime; out_FrameRate : RationalTime; out_VideoFrameCount : Z; out_AudioSampleCount : Z;
  out_StreamPolicy : string; out_VideoSamplingPolicy : string; out_AudioSamplingPolicy : string; out_TailPolicy : string;
  out_BackgroundRGBA : string; out_Evaluation : RenderEvaluationPolicy; out_Mux : RenderMuxPolicy;
  out_Video : RenderVideoOutputPolicy; out_Audio : RenderAudioOutputPolicy }.
#[export] Instance RenderOutputPolicy_eq_dec : EqDecision RenderOutputPolicy.
Proof. solve_decision. Defined.

Record RenderPlanPayload := mkPlan {
  pp_CompilerVersion : string; pp_Purpose : RenderPlanPurpose; pp_ProjectID : string; pp_SequenceID : string;
  pp_SequenceRevision : Z; pp_SequenceFormat : SequenceFormat; pp_Duration : RationalTime;
  pp_Inputs : list RenderPlanInput; pp_Video : list RenderVideoInstruction; pp_Audio : list RenderAudioInstruction;
  pp_Captions : list RenderCaptionInstruction; pp_FontResources : list RenderFontResource; pp_Output : RenderOutputPolicy }.

(** ** Output policy *)

(** [QuoRem] of positive numbers, rounded up; a result beyond [uint64] is refused. *)
Definition ceilRenderCount (duration rate : RationalTime) : outcome render_error Z :=
  if negb (valid_time duration) || negb (IsPositive duration) || negb (valid_time rate) || negb (IsPositive rate)
  then Fail ErrRenderPlanInvalid
  else
    let numerator := rt_Value duration * rt_Value rate in
    let denominator := rt_Scale duration * rt_Scale rate in
    let quotient := Z.quot numerator denominator in
    let quotient := if negb (Z.rem numerator denominator =? 0) then quotient + 1 else quotient in
    if negb (is_uint64 quotient) then Fail ErrRenderPlanInvalid
    else match NewUInt64 quotient with
         | Ok result => if result =? 0 then Fail ErrRenderPlanInvalid else Ok result
         | _ => Fail ErrRenderPlanInvalid
         end.

Definition floorBigRatio (numerator denominator : Z) : Z :=
  if (numerator <=? 0) || (denominator <=? 0) then 0
  else let result := Z.quot numerator denominator in if negb (is_int64 result) then 0 else result.

Definition minimumInt64 (left right : Z) : Z := if left <? right then left else right.

Definition evenFloor (value : Z) : Z := value - Z.rem value 2.

Definition sequencePreviewDimensions (format : SequenceFormat) : outcome render_error (Z * Z) :=
  if negb (is_ok (SequenceFormat_Validate format)) || negb (IsPositive (sf_PixelAspect format)) then Fail ErrRenderPlanInvalid
  else
    let displayWidth := sf_CanvasWidth format * rt_Value (sf_PixelAspect format) in
    let displayScale := rt_Scale (sf_PixelAspect format) in
    let heightScaled := sf_CanvasHeight format * displayScale in
    if heightScaled <=? displayWidth then
      let widthLimit := floorBigRatio displayWidth displayScale in
      let width := evenFloor (minimumInt64 widthLimit SequencePreviewMaximumLongEdge) in
      let height := evenFloor (floorBigRatio (width * heightScaled) displayWidth) in
      if (width <? 2) || (height <? 2) then Fail ErrRenderPlanInvalid else Ok (to_uint32 width, to_uint32 height)
    else
      let height := evenFloor (minimumInt64 (sf_CanvasHeight format) SequencePreviewMaximumLongEdge) in
      let width := evenFloor (floorBigRatio (height * displayWidth) heightScaled) in
      if (width <? 2) || (height <? 2) then Fail ErrRenderPlanInvalid else Ok (to_uint32 width, to_uint32 height).

Definition evaluation_policy : RenderEvaluationPolicy :=
  mkEvaluation "oriented-crop-fit-anchor-canvas-v1" "rec709-left-linear-rgba16-integer-v1" "pixel-center-mitchell-fixed-v1"
    "source-over-half-even-v1" "millidb-q31-integer-v1" "int64-sum-final-s16-hard-limit-v1" "explicit-lines-bottom-box-v1"
    "harfbuzz-freetype-fribidi-gray-v1" "same-build-target-byte-stable-v1".

Definition mux_policy : RenderMuxPolicy :=
  mkMux "webm-bitexact-no-segmentuid-v1" "frame-zero-two-second-grid-v1" "exact-sample-count-discard-padding-v1".

Definition one_time : RationalTime := time_or_zero (NewRationalTime 1 1).

(** The composite literal that both output functions return but for the profile,
    the canvas and the encoder settings *)
Definition output_policy (profile : string) (width height : Z) (frameRate : RationalTime) (frames samples crf cpuUsed bitRate : Z)
    : RenderOutputPolicy :=
  mkOutput profile "webm" width height one_time frameRate frames samples
    "single-video-single-audio-v1" "source-map-floor-first-fallback-v1" "render-material-sample-floor-silence-v1"
    "ceil-pad-black-silence-v1" "#000000ff" evaluation_policy mux_policy
    (mkVideoOutput "vp9" "libvpx-vp9" 0 "yuv420p" "tv" "bt709" "bt709" "bt709" "left" "constant-quality" crf "good" cpuUsed 1)
    (mkAudioOutput "opus" "libopus" SequencePreviewAudioSampleRate "stereo" bitRate false 20 10 "hard-limit-v1" "s16" "none-v1").

Definition SequencePreviewOutput (format : SequenceFormat) (duration : RationalTime) : outcome render_error RenderOutputPolicy :=
  '(width, height) ← sequencePreviewDimensions format;
  videoFrameCount ← ceilRenderCount duration (sf_FrameRate format);
  audioSampleCount ← ceilRenderCount duration (time_or_zero (NewRationalTime SequencePreviewAudioSampleRate 1));
  if (MaximumPreviewVideoFrames <? videoFrameCount) || (MaximumPreviewAudioSamples <? audioSampleCount)
  then Fail ErrRenderPlanInvalid
  else Ok (output_policy SequencePreviewProfileV1 width height (sf_FrameRate format) videoFrameCount audioSampleCount 34 4 128000).

Definition SequenceExportOutput (format : SequenceFormat) (duration : RationalTime) : outcome render_error RenderOutputPolicy :=
  _ ← guard_or ErrRenderPlanInvalid (negb (negb (is_ok (SequenceFormat_Validate format)) ||
    negb (Z.rem (sf_CanvasWidth format) 2 =? 0) || negb (Z.rem (sf_CanvasHeight format) 2 =? 0)));
  equal ← or_fail ErrRenderPlanInvalid (RationalTime_Compare (sf_PixelAspect format) one_time);
  _ ← guard_or ErrRenderPlanInvalid (equal =? 0);
  videoFrameCount ← ceilRenderCount duration (sf_FrameRate format);
  audioSampleCount ← or_fail ErrRenderPlanInvalid (ceilRenderCount duration (time_or_zero (NewRationalTime SequencePreviewAudioSampleRate 1)));
  if (MaximumPreviewVideoFrames <? videoFrameCount) || (MaximumPreviewAudioSamples <? audioSampleCount)
  then Fail ErrRenderPlanInvalid
  else Ok (output_policy SequenceExportProfileV1 (sf_CanvasWidth format) (sf_CanvasHeight format) (sf_FrameRate format)
    videoFrameCount audioSampleCount 24 2 192000).

(** ** Validation *)

Definition validRenderDigest (value : string) : bool := is_ok (ParseDigest value).

Definition ValidFontResource (font : RenderFontResource) : bool :=
  if bool_decide (font_ResourceID font = "") || (256 <? go_len (font_ResourceID font)) ||
     bool_decide (font_Version font = "") || (128 <? go_len (font_Version font)) then false
  else is_ok (ParseDigest (font_SHA256 font)).

(** [unicode.IsControl] and the categories Cf, Zl and Zp of Unicode 15 *)
Definition is_control (r : Z) : bool := ((0 <=? r) && (r <=? 31)) || ((127 <=? r) && (r <=? 159)).

Definition format_ranges : list (Z * Z) :=
  [(173, 173); (1536, 1541); (1564, 1564); (1757, 1757); (1807, 1807); (2192, 2193); (2274, 2274); (6158, 6158);
   (8203, 8207); (8234, 8238); (8288, 8292); (8294, 8303); (65279, 65279); (65529, 65531); (69821, 69821); (69837, 69837);
   (78896, 78911); (113824, 113827); (119155, 119162); (917505, 917505); (917536, 917631)].

Definition in_ranges (ranges : list (Z * Z)) (r : Z) : bool := existsb (fun p => (p.1 <=? r) && (r <=? p.2)) ranges.

Definition IsRenderCaptionRune (value : Z) : bool :=
  if (value =? 10) || (value =? 9) || (value =? 8204) || (value =? 8205) then true
  else negb (is_control value) && negb (in_ranges format_ranges value || (value =? 8232) || (value =? 8233)).

Definition ValidCaptionText (value : string) : bool :=
  if bool_decide (value = "") || negb (valid_utf8 value) || (MaximumAuthoredTextBytes <? go_len value) then false
  else forallb (fun c => IsRenderCaptionRune c.1) (runes (bytes_of value)).

(** [value[1:]] is scanned by rune. *)
Definition validRenderRGBA (value : string) : bool :=
  if negb (go_len value =? 9) || negb (byte_at (bytes_of value) 0 =? 35) then false
  else forallb (fun c => negb (((c.1 <? 48) || (57 <? c.1)) && ((c.1 <? 97) || (102 <? c.1)))) (runes (drop 1 (bytes_of value))).

Definition validatePositiveRange (value : TimeRange) (nonnegativeStart : bool) : outcome render_error unit :=
  if negb (valid_time (tr_Start value)) || negb (valid_time (tr_Duration value)) || negb (IsPositive (tr_Duration value)) ||
     (nonnegativeStart && IsNegative (tr_Start value)) then Fail ErrRenderPlanInvalid
  else match End value with Ok _ => Ok tt | _ => Fail ErrRenderPlanInvalid end.

Definition laterRenderTime (left right : RationalTime) : RationalTime :=
  if cmp_or_zero (RationalTime_Compare left right) <? 0 then right else left.

Definition er_IsPositive (value : ExactRational) : bool := 0 <? er_Value value.

Definition exact_or_zero (r : outcome exact_error ExactRational) : ExactRational :=
  match r with Ok e => e | _ => er_zero_value end.

Definition render_scale_ok (scale : ExactRational) : bool :=
  match ExactRational_Compare scale (exact_or_zero (NewExactRational 64 1)) with
  | Ok comparison => negb ((0 <? comparison) || negb (er_IsPositive scale))
  | _ => false
  end.

Definition render_translation_ok (translation : ExactRational) : bool :=
  match ExactRational_Compare translation (exact_or_zero (NewExactRational (-16) 1)),
        ExactRational_Compare translation (exact_or_zero (NewExactRational 16 1)) with
  | Ok lower, Ok upper => negb (lower <? 0) && negb (0 <? upper)
  | _, _ => false
  end.

Definition validateRenderPlacement (value : RenderPlacement) : outcome render_error unit :=
  if (rp_CropWidth value =? 0) || (rp_CropHeight value =? 0) ||
     (10000 <? to_uint32 (rp_CropX value + rp_CropWidth value)) || (10000 <? to_uint32 (rp_CropY value + rp_CropHeight value)) ||
     (10000 <? rp_AnchorX value) || (10000 <? rp_AnchorY value) || (10000 <? rp_Opacity value) ||
     negb (is_ok (ExactRational_Validate (rp_ScaleX value))) || negb (is_ok (ExactRational_Validate (rp_ScaleY value))) ||
     negb (is_ok (ExactRational_Validate (rp_TranslateX value))) || negb (is_ok (ExactRational_Validate (rp_TranslateY value))) ||
     (negb (bool_decide (rp_FitPolicy value = "contain")) && negb (bool_decide (rp_FitPolicy value = "cover")))
  then Fail ErrRenderPlanInvalid
  else if negb (forallb render_scale_ok [rp_ScaleX value; rp_ScaleY value]) then Fail ErrRenderPlanInvalid
  else if negb (forallb render_translation_ok [rp_TranslateX value; rp_TranslateY value]) then Fail ErrRenderPlanInvalid
  else Ok tt.
Definition ValidateRenderPlacement (value : RenderPlacement) : outcome render_error unit := validateRenderPlacement value.

Definition validateRenderCaptionStyle (style : RenderCaptionStyle) (fonts : gmap string RenderFontResource) : outcome render_error unit :=
  guard_or ErrRenderPlanInvalid (negb (negb (bool_decide (is_Some (fonts !! cs_FontResourceID style))) || (cs_FontSize style =? 0) ||
    (10000 <? cs_FontSize style) || (10000 <? cs_Outline style) || (cs_LineHeight style <? 10000) || (30000 <? cs_LineHeight style) ||
    (10000 <? cs_PositionY style) || (cs_SafeWidth style =? 0) || (10000 <? cs_SafeWidth style) ||
    negb (bool_decide (cs_Alignment style = "bottom-center")) || negb (bool_decide (cs_WrapPolicy style = "explicit-lines-clip-v1")) ||
    negb (validRenderRGBA (cs_TextColorRGBA style)) || negb (validRenderRGBA (cs_OutlineColorRGBA style)))).

Definition validatePublishedRenderVideoInput (input : RenderVideoInput) : outcome render_error unit :=
  guard_or ErrRenderPlanInvalid (negb (IsZero (vi_SourceStreamID input) || negb (valid_time (vi_SourceStart input)) ||
    negb (valid_time (vi_MaterialStart input)) || negb (valid_time (vi_SourceTimeBase input)) ||
    negb (IsPositive (vi_SourceTimeBase input)) || negb (valid_time (vi_MaterialTimeBase input)) ||
    negb (IsPositive (vi_MaterialTimeBase input)) || negb (validRenderDigest (vi_TimeMapDigest input)) ||
    (vi_Width input =? 0) || (vi_Height input =? 0) || (MaximumRenderDimension <? vi_Width input) ||
    (MaximumRenderDimension <? vi_Height input))).

Definition validatePublishedRenderAudioInput (input : RenderAudioInput) : outcome render_error unit :=
  guard_or ErrRenderPlanInvalid (negb (IsZero (ai_SourceStreamID input) || negb (valid_time (ai_SourceStart input)) ||
    negb (valid_time (ai_MaterialStart input)) || negb (valid_time (ai_SourceTimeBase input)) ||
    negb (IsPositive (ai_SourceTimeBase input)) || negb (valid_time (ai_MaterialTimeBase input)) ||
    negb (IsPositive (ai_MaterialTimeBase input)) || negb (ai_SampleRate input =? SequencePreviewAudioSampleRate) ||
    negb (bool_decide (ai_ChannelLayout input = "stereo")) || (ai_DecodedSampleCount input =? 0) ||
    (MaximumSourceProxySamples <? ai_DecodedSampleCount input))).

(** The conditions of one turn of the loop but the order of the keys *)
Definition published_input_ok (requiredProfile : string) (input : RenderPlanInput) : bool :=
  negb (IsZero (in_ArtifactID input) || IsZero (in_AssetID input) || (in_AssetRevision input =? 0) ||
    negb (bool_decide (in_Profile input = requiredProfile)) || bool_decide (in_ProducerVersion input = "") ||
    (256 <? go_len (in_ProducerVersion input)) || negb (valid_time (in_SourceEpoch input)) ||
    negb (validRenderDigest (in_ArtifactDigest input)) || negb (validRenderDigest (in_Fingerprint input)) ||
    negb (validRenderDigest (in_MediaDigest input)) || (absent (in_Video input) && absent (in_Audio input))) &&
  nil_or (fun v => is_ok (validatePublishedRenderVideoInput v)) (in_Video input) &&
  nil_or (fun a => is_ok (validatePublishedRenderAudioInput a)) (in_Audio input).

Fixpoint published_inputs (requiredProfile : string) (source : list RenderPlanInput) (previous : string)
    (result : gmap string RenderPlanInput) : outcome render_error (gmap string RenderPlanInput) :=
  match source with
  | [] => Ok result
  | input :: rest =>
      let key := in_ArtifactID input in
      if negb (str_ltb previous key) || negb (published_input_ok requiredProfile input) then Fail ErrRenderPlanInvalid
      else published_inputs requiredProfile rest key (<[key := input]> result)
  end.
Definition validatePublishedRenderInputs (source : list RenderPlanInput) (requiredProfile : string)
    : outcome render_error (gmap string RenderPlanInput) := published_inputs requiredProfile source "" ∅.

Fixpoint published_fonts (source : list RenderFontResource) (previous : string) (result : gmap string RenderFontResource)
    : outcome render_error (gmap string RenderFontResource) :=
  match source with
  | [] => Ok result
  | font :: rest =>
      if negb (ValidFontResource font) || negb (str_ltb previous (font_ResourceID font)) then Fail ErrRenderPlanInvalid
      else published_fonts rest (font_ResourceID font) (<[font_ResourceID font := font]> result)
  end.
Definition validatePublishedRenderFonts (source : list RenderFontResource) : outcome render_error (gmap string RenderFontResource) :=
  published_fonts source "" ∅.

(** ** The instructions of a lane *)

(** [layeredRenderInstruction]: the layer, the start and the identity that order
    the instructions of a lane, with the track and range they occupy *)
Class LayeredInstruction (T : Type) := {
  renderInstructionOrder : T -> Z * RationalTime * string;
  instruction_track : T -> string;
  instruction_range : T -> TimeRange }.

#[export] Instance video_layered : LayeredInstruction RenderVideoInstruction := {|
  renderInstructionOrder v := (rv_Layer v, tr_Start (rv_TimelineRange v), rv_ClipID v);
  instruction_track := rv_TrackID; instruction_range := rv_TimelineRange |}.
#[export] Instance audio_layered : LayeredInstruction RenderAudioInstruction := {|
  renderInstructionOrder a := (ra_Layer a, tr_Start (ra_TimelineRange a), ra_ClipID a);
  instruction_track := ra_TrackID; instruction_range := ra_TimelineRange |}.
#[export] Instance caption_layered : LayeredInstruction RenderCaptionInstruction := {|
  renderInstructionOrder c := (rc_Layer c, tr_Start (rc_Range c), rc_CaptionID c);
  instruction_track := rc_TrackID; instruction_range := rc_Range |}.

Section lanes.
Context {T : Type} `{LayeredInstruction T}.

Definition renderInstructionOrdered (previous : option T) (current : T) : bool :=
  match previous with
  | None => true
  | Some previous =>
      let '(previousLayer, previousStart, previousID) := renderInstructionOrder previous in
      let '(currentLayer, currentStart, currentID) := renderInstructionOrder current in
      if negb (previousLayer =? currentLayer) then previousLayer <? currentLayer
      else match RationalTime_Compare previousStart currentStart with
           | Ok comparison => (comparison <? 0) || ((comparison =? 0) && str_ltb previousID currentID)
           | _ => false
           end
  end.

(** An instruction may start when the last one of its track has ended. *)
Definition starts_after (lastByTrack : gmap string RationalTime) (track : string) (start : RationalTime) : bool :=
  match lastByTrack !! track with
  | None => true
  | Some last => match RationalTime_Compare start last with Ok comparison => negb (comparison <? 0) | _ => false end
  end.

Context (check : T -> bool) (uses : T -> gset string).

Fixpoint publish_loop (source : list T) (previous : option T) (lastByTrack : gmap string RationalTime)
    (duration : RationalTime) (used : gset string) : outcome render_error (RationalTime * gset string) :=
  match source with
  | [] => Ok (duration, used)
  | instruction :: rest =>
      if negb (check instruction) || negb (renderInstructionOrdered previous instruction) then Fail ErrRenderPlanInvalid
      else
        let end_ := time_or_zero (End (instruction_range instruction)) in
        if negb (starts_after lastByTrack (instruction_track instruction) (tr_Start (instruction_range instruction)))
        then Fail ErrRenderPlanInvalid
        else publish_loop rest (Some instruction) (<[instruction_track instruction := end_]> lastByTrack)
               (laterRenderTime duration end_) (uses instruction ∪ used)
  end.
End lanes.

Definition zero_start : RationalTime := time_or_zero (NewRationalTime 0 1).

Definition same_length (source timeline : TimeRange) : bool :=
  match RationalTime_Compare (tr_Duration source) (tr_Duration timeline) with Ok equal => equal =? 0 | _ => false end.

Definition published_video_ok (inputs : gmap string RenderPlanInput) (v : RenderVideoInstruction) : bool :=
  match inputs !! rv_InputArtifactID v with
  | Some input =>
      match in_Video input with
      | Some video =>
          negb (IsZero (rv_ClipID v) || (rv_ClipRevision v =? 0) || IsZero (rv_TrackID v) || (rv_TrackRevision v =? 0) ||
            negb (bool_decide (rv_SourceStreamID v = vi_SourceStreamID video)) ||
            negb (is_ok (validatePositiveRange (rv_SourceRange v) false)) || negb (is_ok (validatePositiveRange (rv_TimelineRange v) true)) ||
            negb (bool_decide (rv_Orientation v = "normalized-by-render-material-v1")) ||
            negb (is_ok (validateRenderPlacement (rv_Placement v)))) &&
          same_length (rv_SourceRange v) (rv_TimelineRange v)
      | None => false
      end
  | None => false
  end.

Definition published_audio_ok (inputs : gmap string RenderPlanInput) (a : RenderAudioInstruction) : bool :=
  match inputs !! ra_InputArtifactID a with
  | Some input =>
      match in_Audio input with
      | Some audio =>
          negb (IsZero (ra_ClipID a) || (ra_ClipRevision a =? 0) || IsZero (ra_TrackID a) || (ra_TrackRevision a =? 0) ||
            negb (bool_decide (ra_SourceStreamID a = ai_SourceStreamID audio)) ||
            negb (is_ok (validatePositiveRange (ra_SourceRange a) false)) || negb (is_ok (validatePositiveRange (ra_TimelineRange a) true)) ||
            negb (bool_decide (ra_ChannelMapping a = "render-material-stereo-v1")) ||
            (ra_GainMilliDB a <? RenderGainMinimumMilliDB) || (RenderGainMaximumMilliDB <? ra_GainMilliDB a)) &&
          same_length (ra_SourceRange a) (ra_TimelineRange a)
      | None => false
      end
  | None => false
  end.

Definition validatePublishedRenderVideo (source : list RenderVideoInstruction) (inputs : gmap string RenderPlanInput)
    (used : gset string) : outcome render_error (RationalTime * gset string) :=
  publish_loop (published_video_ok inputs) (fun v => {[rv_InputArtifactID v]}) source None ∅ zero_start used.

Definition validatePublishedRenderAudio (source : list RenderAudioInstruction) (inputs : gmap string RenderPlanInput)
    (used : gset string) : outcome render_error (RationalTime * gset string) :=
  publish_loop (published_audio_ok inputs) (fun a => {[ra_InputArtifactID a]}) source None ∅ zero_start used.

Section contract.
Context `{Platform}.

Definition published_caption_ok (fonts : gmap string RenderFontResource) (c : RenderCaptionInstruction) : bool :=
  negb (IsZero (rc_CaptionID c) || (rc_CaptionRevision c =? 0) || IsZero (rc_TrackID c) || (rc_TrackRevision c =? 0) ||
    negb (is_ok (validatePositiveRange (rc_Range c) true)) || absent (ParseCaptionLanguage (rc_Language c)) ||
    negb (ValidCaptionText (rc_Text c)) || negb (is_ok (validateRenderCaptionStyle (rc_Style c) fonts))).

Definition validatePublishedRenderCaptions (source : list RenderCaptionInstruction) (fonts : gmap string RenderFontResource)
    : outcome render_error RationalTime :=
  '(duration, _) ← publish_loop (published_caption_ok fonts) (fun _ => ∅) source None ∅ zero_start ∅;
  Ok duration.

Definition validateRenderPlanPayload (plan : RenderPlanPayload) (requiredProfile : string)
    (output : SequenceFormat -> RationalTime -> outcome render_error RenderOutputPolicy) : outcome render_error unit :=
  _ ← guard_or ErrRenderPlanInvalid (negb (negb (bool_decide (pp_CompilerVersion plan = RenderPlanCompilerV4)) ||
    IsZero (pp_ProjectID plan) || IsZero (pp_SequenceID plan) || (pp_SequenceRevision plan =? 0) ||
    negb (is_ok (SequenceFormat_Validate (pp_SequenceFormat plan))) || negb (valid_time (pp_Duration plan)) ||
    negb (IsPositive (pp_Duration plan)) || (MaximumRenderPlanItems <? length (pp_Inputs plan))%nat ||
    (MaximumRenderPlanItems <? length (pp_Video plan))%nat || (MaximumRenderPlanItems <? length (pp_Audio plan))%nat ||
    (MaximumRenderPlanItems <? length (pp_Captions plan))%nat || (MaximumRenderPlanItems <? length (pp_FontResources plan))%nat));
  expectedOutput ← or_fail ErrRenderPlanInvalid (output (pp_SequenceFormat plan) (pp_Duration plan));
  _ ← guard_or ErrRenderPlanInvalid (bool_decide (pp_Output plan = expectedOutput));
  inputs ← validatePublishedRenderInputs (pp_Inputs plan) requiredProfile;
  fonts ← validatePublishedRenderFonts (pp_FontResources plan);
  '(duration, used) ← validatePublishedRenderVideo (pp_Video plan) inputs ∅;
  '(audioDuration, used) ← validatePublishedRenderAudio (pp_Audio plan) inputs used;
  let duration := laterRenderTime duration audioDuration in
  captionDuration ← validatePublishedRenderCaptions (pp_Captions plan) fonts;
  let usedFonts : gset string := list_to_set (map (fun c => cs_FontResourceID (rc_Style c)) (pp_Captions plan)) in
  let duration := laterRenderTime duration captionDuration in
  comparison ← or_fail ErrRenderPlanInvalid (RationalTime_Compare duration (pp_Duration plan));
  guard_or ErrRenderPlanInvalid ((comparison =? 0) && (size used =? size inputs)%nat && (size usedFonts =? size fonts)%nat).

Definition ValidateSequencePreviewRenderPlanPayload (plan : RenderPlanPayload) : outcome render_error unit :=
  if negb (bool_decide (pp_Purpose plan = RenderPurposeSequencePreview)) then Fail ErrRenderPlanInvalid
  else validateRenderPlanPayload plan SourceProxyProfile SequencePreviewOutput.

Definition ValidateSequenceExportRenderPlanPayload (plan : RenderPlanPayload) : outcome render_error unit :=
  if negb (bool_decide (pp_Purpose plan = RenderPurposeExport)) then Fail ErrRenderPlanInvalid
  else validateRenderPlanPayload plan RenderInputProfile SequenceExportOutput.

Definition ValidateRenderPlanPayload (plan : RenderPlanPayload) : outcome render_error unit :=
  match pp_Purpose plan with
  | RenderPurposeSequencePreview => ValidateSequencePreviewRenderPlanPayload plan
  | RenderPurposeExport => ValidateSequenceExportRenderPlanPayload plan
  | RenderPurposeOther _ => Fail ErrRenderPlanInvalid
  end.
End contract.
