(* ===== verification/RenderPlan.v ===== *)
(** Compilation of a sequence to a render plan:
    [product/application/render_plan.go] and [RenderMaterial] of
    [render_material.go].

    Sorting is by merge sort: where the comparison is a strict total order on the
    elements, as it is on tracks and clips of distinct identity, every correct
    sort gives the same list.  Go ranges over a map in any order; the loops that
    do are insensitive to it. *)
From stdpp Require Import base list strings gmap sorting.
From Stdlib Require Import ZArith QArith Lia Ascii.
From S2P Require Import Prelude GoText Exact Identity Canonical EditModel Timeline EditState.
From S2P Require Import EditNarrative EditCaptions EditTranscript EditDerive EditValidate Project RenderContract.
Open Scope Z_scope.

Inductive ArtifactKind :=
| ArtifactMediaFacts | ArtifactFrameSet | ArtifactProxy | ArtifactRenderInput | ArtifactWaveform | ArtifactTranscript
| ArtifactKindOther (text : string).
#[export] Instance ArtifactKind_eq_dec : EqDecision ArtifactKind.
Proof. solve_decision. Defined.

Inductive ArtifactState := ArtifactReady | ArtifactEvicted | ArtifactStateOther (text : string).
#[export] Instance ArtifactState_eq_dec : EqDecision ArtifactState.
Proof. solve_decision. Defined.

(** The creation instant is not modelled. *)
Record ArtifactSummary := mkArtifactSummary {
  as_ID : string; as_Kind : ArtifactKind; as_ProducerVersion : string; as_InputFingerprint : string;
  as_State : ArtifactState; as_ByteSize : Z; as_ContentDigest : string }.

Record RenderMaterial := mkMaterial {
  mat_kind : ArtifactKind; mat_assetID : string; mat_fingerprint : string; mat_producer : string; mat_profile : string;
  mat_sourceEpoch : RationalTime; mat_mediaDigest : string; mat_manifestDigest : string; mat_byteSize : Z;
  mat_video : option RenderVideoInput; mat_audio : option RenderAudioInput }.

Record RenderAssetSnapshot := mkAssetSnapshot {
  sn_ID : string; sn_Revision : Z; sn_AcceptedFingerprint : string; sn_Availability : string }.

Record RenderClipInputBinding := mkBinding { bd_ClipID : string; bd_Artifact : ArtifactSummary; bd_Material : RenderMaterial }.

(** A nil [Assets] map is [None]. *)
Record CompileRenderPlanInput := mkCompileInput {
  ci_ProjectID : string; ci_ObservedProjectRevision : Z; ci_Sequence : Sequence; ci_Clips : list ClipState;
  ci_Captions : list CaptionState; ci_Assets : option (gmap string RenderAssetSnapshot);
  ci_Bindings : list RenderClipInputBinding; ci_FontResource : option RenderFontResource }.

Record RenderPlan := mkRenderPlan { plan_Payload : RenderPlanPayload; plan_Digest : string; plan_ObservedProjectRevision : Z }.
Record CompiledRenderPlan := mkCompiled { cp_Plan : RenderPlan; cp_Canonical : bytes }.

Record renderTrack := mkRenderTrack { rk_state : Track; rk_layer : Z }.
Definition zero_track : renderTrack := mkRenderTrack (mkProjectTrack "" 0 (TrackOther "") "" "") 0.

Record validatedRenderBinding := mkValidated { vb_binding : RenderClipInputBinding; vb_input : RenderPlanInput }.

(** ** Material *)

Definition ContainsStream (material : RenderMaterial) (streamID : string) : bool :=
  pointer_is (fun v => bool_decide (vi_SourceStreamID v = streamID)) (mat_video material) ||
  pointer_is (fun a => bool_decide (ai_SourceStreamID a = streamID)) (mat_audio material).

Definition planInput (material : RenderMaterial) (artifact : ArtifactSummary) (asset : RenderAssetSnapshot)
    : outcome render_error RenderPlanInput :=
  if IsZero (as_ID artifact) || negb (bool_decide (as_Kind artifact = mat_kind material)) ||
     negb (bool_decide (as_State artifact = ArtifactReady)) ||
     negb (bool_decide (as_InputFingerprint artifact = sn_AcceptedFingerprint asset)) ||
     negb (bool_decide (mat_assetID material = sn_ID asset)) ||
     negb (bool_decide (mat_fingerprint material = sn_AcceptedFingerprint asset)) ||
     negb (bool_decide (mat_producer material = as_ProducerVersion artifact)) ||
     negb (bool_decide (mat_manifestDigest material = as_ContentDigest artifact)) ||
     negb (mat_byteSize material =? as_ByteSize artifact)
  then Fail ErrRenderPlanInvalid
  else Ok (mkPlanInput (as_ID artifact) (as_ContentDigest artifact) (as_ProducerVersion artifact) (mat_profile material)
             (sn_ID asset) (sn_Revision asset) (sn_AcceptedFingerprint asset) (mat_sourceEpoch material) (mat_mediaDigest material)
             (mat_video material) (mat_audio material)).

(** ** Head and tracks *)

Definition validateRenderPlanHead (input : CompileRenderPlanInput) : outcome render_error unit :=
  let sequence := ci_Sequence input in
  guard_or ErrRenderPlanInvalid (negb (IsZero (ci_ProjectID input) || (ci_ObservedProjectRevision input =? 0) ||
    IsZero (seq_ID sequence) || (seq_Revision sequence =? 0) || negb (is_ok (SequenceFormat_Validate (seq_Format sequence))) ||
    empty (seq_Tracks sequence) || (MaximumRenderPlanItems <? length (seq_Tracks sequence))%nat ||
    (MaximumRenderPlanItems <? length (ci_Clips input))%nat || (MaximumRenderPlanItems <? length (ci_Captions input))%nat ||
    (MaximumRenderPlanItems <? length (ci_Bindings input))%nat || absent (ci_Assets input))).

Definition known_track_type (type : TrackType) : bool :=
  bool_decide (type = TrackVideo) || bool_decide (type = TrackAudio) || bool_decide (type = TrackCaption).

(** [^uint16(0)] *)
Definition MaxUint16 : Z := 65535.

Fixpoint place_tracks (ordered : list Track) (result : gmap string renderTrack) (layers : TrackType -> Z) (previousOrder : string)
    : outcome render_error (gmap string renderTrack) :=
  match ordered with
  | [] => Ok result
  | track :: rest =>
      if IsZero (pt_ID track) || (pt_Revision track =? 0) || bool_decide (pt_OrderKey track = "") ||
         bool_decide (pt_OrderKey track = previousOrder) || negb (known_track_type (pt_Type track))
      then Fail ErrRenderPlanInvalid
      else if bool_decide (is_Some (result !! pt_ID track)) then Fail ErrRenderPlanInvalid
      else
        let layer := layers (pt_Type track) in
        if layer =? MaxUint16 then Fail ErrRenderPlanInvalid
        else place_tracks rest (<[pt_ID track := mkRenderTrack track layer]> result)
               (fun type => if decide (type = pt_Type track) then layer + 1 else layers type) (pt_OrderKey track)
  end.

Definition normalizeRenderTracks (source : list Track) : outcome render_error (gmap string renderTrack) :=
  place_tracks (sort_by2 pt_OrderKey pt_ID source) ∅ (fun _ => 0) "".

Definition track_at (tracks : gmap string renderTrack) (id : string) : renderTrack := default zero_track (tracks !! id).

(** ** Bindings *)

Definition validateRenderClipHead (clip : ClipState) (sequenceID : string) (tracks : gmap string renderTrack) : outcome render_error unit :=
  let track := track_at tracks (clip_TrackID clip) in
  _ ← guard_or ErrRenderPlanInvalid (negb (IsZero (clip_ID clip) || (clip_Revision clip =? 0) ||
    negb (bool_decide (clip_SequenceID clip = sequenceID)) || negb (bool_decide (is_Some (tracks !! clip_TrackID clip))) ||
    IsZero (clip_AssetID clip) || IsZero (clip_SourceStreamID clip) ||
    negb (is_ok (validatePositiveRange (clip_SourceRange clip) false)) ||
    negb (is_ok (validatePositiveRange (clip_TimelineRange clip) true))));
  equal ← or_fail ErrRenderPlanInvalid (RationalTime_Compare (tr_Duration (clip_SourceRange clip)) (tr_Duration (clip_TimelineRange clip)));
  guard_or ErrRenderPlanInvalid (negb (negb (equal =? 0) ||
    (negb (bool_decide (pt_Type (rk_state track) = TrackVideo)) && negb (bool_decide (pt_Type (rk_state track) = TrackAudio))))).

Fixpoint collect_clips (clips : list ClipState) (sequenceID : string) (tracks : gmap string renderTrack) (result : gmap string ClipState)
    : outcome render_error (gmap string ClipState) :=
  match clips with
  | [] => Ok result
  | clip :: rest =>
      if bool_decide (is_Some (result !! clip_ID clip)) || negb (is_ok (validateRenderClipHead clip sequenceID tracks))
      then Fail ErrRenderPlanInvalid
      else collect_clips rest sequenceID tracks (<[clip_ID clip := clip]> result)
  end.

Definition validateRenderBinding (binding : RenderClipInputBinding) (clip : ClipState) (trackType : TrackType)
    (asset : RenderAssetSnapshot) (requiredProfile : string) : outcome render_error RenderPlanInput :=
  if bool_decide (requiredProfile = "") || negb (bool_decide (mat_profile (bd_Material binding) = requiredProfile))
  then Fail ErrRenderInputRequired
  else
    result ← planInput (bd_Material binding) (bd_Artifact binding) asset;
    if (bool_decide (trackType = TrackVideo) &&
        negb (pointer_is (fun v => bool_decide (vi_SourceStreamID v = clip_SourceStreamID clip)) (in_Video result))) ||
       (bool_decide (trackType = TrackAudio) &&
        negb (pointer_is (fun a => bool_decide (ai_SourceStreamID a = clip_SourceStreamID clip)) (in_Audio result)))
    then Fail ErrRenderInputRequired
    else Ok result.

(** [clip.Tombstoned || !clip.Enabled] *)
Definition skipped (clip : ClipState) : bool := clip_Tombstoned clip || negb (clip_Enabled clip).

Section bindings.
Context (assets : gmap string RenderAssetSnapshot) (tracks : gmap string renderTrack) (requiredProfile : string)
  (clips : gmap string ClipState).

Definition bind_clip (binding : RenderClipInputBinding) (result : gmap string validatedRenderBinding)
    : outcome render_error (gmap string validatedRenderBinding) :=
  match clips !! bd_ClipID binding with
  | None => Fail ErrRenderPlanInvalid
  | Some clip =>
      if skipped clip then Fail ErrRenderPlanInvalid
      else if bool_decide (is_Some (result !! bd_ClipID binding)) then Fail ErrRenderPlanInvalid
      else match assets !! clip_AssetID clip with
      | None => Fail ErrRenderPlanInvalid
      | Some asset =>
          if negb (bool_decide (sn_ID asset = clip_AssetID clip)) || (sn_Revision asset =? 0) then Fail ErrRenderPlanInvalid
          else
            input ← validateRenderBinding binding clip (pt_Type (rk_state (track_at tracks (clip_TrackID clip)))) asset requiredProfile;
            Ok (<[bd_ClipID binding := mkValidated binding input]> result)
      end
  end.

Fixpoint bind_clips (bindings : list RenderClipInputBinding) (result : gmap string validatedRenderBinding)
    : outcome render_error (gmap string validatedRenderBinding) :=
  match bindings with
  | [] => Ok result
  | binding :: rest => result ← bind_clip binding result; bind_clips rest result
  end.
End bindings.

Definition normalizeRenderBindings (input : CompileRenderPlanInput) (tracks : gmap string renderTrack) (requiredProfile : string)
    : outcome render_error (gmap string validatedRenderBinding) :=
  clips ← collect_clips (ci_Clips input) (seq_ID (ci_Sequence input)) tracks ∅;
  result ← bind_clips (default ∅ (ci_Assets input)) tracks requiredProfile clips (ci_Bindings input) ∅;
  if forallb (fun clip => skipped clip || bool_decide (is_Some (result !! clip_ID clip))) (ci_Clips input)
  then Ok result else Fail ErrRenderInputRequired.

(** ** Instructions *)

Definition defaultRenderPlacement : RenderPlacement :=
  let one := exact_or_zero (NewExactRational 1 1) in
  let zero := exact_or_zero (NewExactRational 0 1) in
  mkRenderPlacement 0 0 SequencePreviewOpacityBasisPoint SequencePreviewOpacityBasisPoint one one zero zero 5000 5000
    SequencePreviewOpacityBasisPoint "contain".

Definition renderPlacementForClip (clip : ClipState) : RenderPlacement :=
  let placement := defaultRenderPlacement in
  match clip_Placement clip with
  | None => placement
  | Some stored =>
      mkRenderPlacement (pl_CropX stored) (pl_CropY stored) (pl_CropWidth stored) (pl_CropHeight stored) (pl_ScaleX stored) (pl_ScaleY stored)
        (pl_TranslateX stored) (pl_TranslateY stored) (rp_AnchorX placement) (rp_AnchorY placement) (pl_Opacity stored) (rp_FitPolicy placement)
  end.

Definition defaultRenderCaptionStyle (resourceID : string) : RenderCaptionStyle :=
  mkCaptionStyle resourceID 550 "#ffffffff" "#000000ff" 35 12000 "bottom-center" 8800 9000 "explicit-lines-clip-v1".

(** The order of instructions: by track, by start, by identity *)
Definition render_less (tracks : gmap string renderTrack) (leftTrack rightTrack : string) (leftStart rightStart : RationalTime)
    (leftID rightID : string) : bool :=
  let leftKey := pt_OrderKey (rk_state (track_at tracks leftTrack)) in
  let rightKey := pt_OrderKey (rk_state (track_at tracks rightTrack)) in
  if negb (bool_decide (leftKey = rightKey)) then str_ltb leftKey rightKey
  else
    let comparison := cmp_or_zero (RationalTime_Compare leftStart rightStart) in
    if negb (comparison =? 0) then comparison <? 0 else str_ltb leftID rightID.

Definition renderClipLess (tracks : gmap string renderTrack) (left right : ClipState) : bool :=
  render_less tracks (clip_TrackID left) (clip_TrackID right) (tr_Start (clip_TimelineRange left)) (tr_Start (clip_TimelineRange right))
    (clip_ID left) (clip_ID right).

Definition renderCaptionLess (tracks : gmap string renderTrack) (left right : CaptionState) : bool :=
  render_less tracks (caption_TrackID left) (caption_TrackID right) (tr_Start (caption_Range left)) (tr_Start (caption_Range right))
    (caption_ID left) (caption_ID right).

(** [sort.Slice] with a strict comparison *)
Definition not_after {A} (less : A -> A -> bool) (left right : A) : Prop := less right left = false.
#[export] Instance not_after_dec {A} (less : A -> A -> bool) : RelDecision (not_after less).
Proof. intros l r. unfold not_after. apply _. Defined.
Definition sort_slice {A} (less : A -> A -> bool) (l : list A) : list A := merge_sort (not_after less) l.

Definition video_instruction (clip : ClipState) (track : renderTrack) (artifactID : string) : RenderVideoInstruction :=
  mkVideoInstruction (clip_ID clip) (clip_Revision clip) (clip_TrackID clip) (pt_Revision (rk_state track)) (rk_layer track) artifactID
    (clip_SourceStreamID clip) (clip_SourceRange clip) (clip_TimelineRange clip) "normalized-by-render-material-v1" (renderPlacementForClip clip).

Definition audio_instruction (clip : ClipState) (track : renderTrack) (artifactID : string) : RenderAudioInstruction :=
  mkAudioInstruction (clip_ID clip) (clip_Revision clip) (clip_TrackID clip) (pt_Revision (rk_state track)) (rk_layer track) artifactID
    (clip_SourceStreamID clip) (clip_SourceRange clip) (clip_TimelineRange clip) "render-material-stereo-v1" 0.

Definition caption_instruction (caption : CaptionState) (track : renderTrack) (fontID : string) : RenderCaptionInstruction :=
  mkCaptionInstruction (caption_ID caption) (caption_Revision caption) (caption_TrackID caption) (pt_Revision (rk_state track)) (rk_layer track)
    (caption_Range caption) (caption_Language caption) (caption_Text caption) (defaultRenderCaptionStyle fontID).

Section instructions.
Context (tracks : gmap string renderTrack).

(** [bindings[clip.ID.String()].input.ArtifactID] *)
Definition bound_artifact (bindings : gmap string validatedRenderBinding) (clipID : string) : string :=
  default "" ((fun b => in_ArtifactID (vb_input b)) <$> bindings !! clipID).

Fixpoint compile_clips (bindings : gmap string validatedRenderBinding) (clips : list ClipState) (lastClipByTrack : gmap string RationalTime)
    (duration : RationalTime) (video : list RenderVideoInstruction) (audio : list RenderAudioInstruction)
    : outcome render_error (RationalTime * list RenderVideoInstruction * list RenderAudioInstruction) :=
  match clips with
  | [] => Ok (duration, video, audio)
  | clip :: rest =>
      if skipped clip then compile_clips bindings rest lastClipByTrack duration video audio
      else
        let track := track_at tracks (clip_TrackID clip) in
        end_ ← or_fail ErrRenderPlanInvalid (End (clip_TimelineRange clip));
        if negb (starts_after lastClipByTrack (clip_TrackID clip) (tr_Start (clip_TimelineRange clip))) then Fail ErrRenderPlanInvalid
        else
          let lastClipByTrack := <[clip_TrackID clip := end_]> lastClipByTrack in
          let duration := laterRenderTime duration end_ in
          let artifactID := bound_artifact bindings (clip_ID clip) in
          match pt_Type (rk_state track) with
          | TrackVideo => compile_clips bindings rest lastClipByTrack duration (video ++ [video_instruction clip track artifactID]) audio
          | TrackAudio => compile_clips bindings rest lastClipByTrack duration video (audio ++ [audio_instruction clip track artifactID])
          | _ => Fail ErrRenderPlanInvalid
          end
  end.

Context `{Platform}.

Definition caption_ready (sequenceID : string) (caption : CaptionState) : bool :=
  negb (IsZero (caption_ID caption) || (caption_Revision caption =? 0) || negb (bool_decide (caption_SequenceID caption = sequenceID)) ||
    negb (bool_decide (is_Some (tracks !! caption_TrackID caption))) ||
    negb (bool_decide (pt_Type (rk_state (track_at tracks (caption_TrackID caption))) = TrackCaption)) ||
    negb (is_ok (validatePositiveRange (caption_Range caption) true)) || absent (ParseCaptionLanguage (caption_Language caption)) ||
    negb (ValidCaptionText (caption_Text caption))).

(** The first loop over the captions: the duration, and whether a font is needed *)
Fixpoint check_captions (sequenceID : string) (captions : list CaptionState) (lastByTrack : gmap string RationalTime)
    (duration : RationalTime) (fontRequired : bool) : outcome render_error (RationalTime * bool) :=
  match captions with
  | [] => Ok (duration, fontRequired)
  | caption :: rest =>
      if caption_Tombstoned caption then check_captions sequenceID rest lastByTrack duration fontRequired
      else if negb (caption_ready sequenceID caption) then Fail ErrRenderPlanInvalid
      else
        end_ ← or_fail ErrRenderPlanInvalid (End (caption_Range caption));
        if negb (starts_after lastByTrack (caption_TrackID caption) (tr_Start (caption_Range caption))) then Fail ErrRenderPlanInvalid
        else check_captions sequenceID rest (<[caption_TrackID caption := end_]> lastByTrack) (laterRenderTime duration end_) true
  end.

(** The duration, the instructions and the fonts; [input.FontResource] is read
    only when a caption is live, and is not nil then. *)
Definition compileRenderCaptions (input : CompileRenderPlanInput)
    : outcome render_error (RationalTime * list RenderCaptionInstruction * list RenderFontResource) :=
  let captions := sort_slice (renderCaptionLess tracks) (ci_Captions input) in
  '(duration, fontRequired) ← check_captions (seq_ID (ci_Sequence input)) captions ∅ zero_start false;
  fonts ← (if (fontRequired : bool)
           then match ci_FontResource input with
                | Some font => if ValidFontResource font then Ok [font] else Fail ErrRenderFontRequired
                | None => Fail ErrRenderFontRequired
                end
           else Ok []);
  let live := filter (fun c => caption_Tombstoned c = false) captions in
  match live, ci_FontResource input with
  | [], _ => Ok (duration, [], fonts)
  | _, Some font => Ok (duration, map (fun c => caption_instruction c (track_at tracks (caption_TrackID c)) (font_ResourceID font)) live, fonts)
  | _, None => Panic
  end.

Definition compileRenderInstructions (input : CompileRenderPlanInput) (bindings : gmap string validatedRenderBinding)
    : outcome render_error (RationalTime * list RenderVideoInstruction * list RenderAudioInstruction * list RenderCaptionInstruction *
                            list RenderFontResource) :=
  let clips := sort_slice (renderClipLess tracks) (ci_Clips input) in
  '(duration, video, audio) ← compile_clips bindings clips ∅ zero_start [] [];
  '(captionDuration, captions, fonts) ← compileRenderCaptions input;
  Ok (laterRenderTime duration captionDuration, video, audio, captions, fonts).
End instructions.

(** ** Inputs *)

Fixpoint merge_inputs (bindings : list (string * validatedRenderBinding)) (byArtifact : gmap string RenderPlanInput)
    : outcome render_error (gmap string RenderPlanInput) :=
  match bindings with
  | [] => Ok byArtifact
  | (_, binding) :: rest =>
      let key := in_ArtifactID (vb_input binding) in
      match byArtifact !! key with
      | Some previous => if bool_decide (previous = vb_input binding) then merge_inputs rest (<[key := vb_input binding]> byArtifact)
                         else Fail ErrRenderPlanInvalid
      | None => merge_inputs rest (<[key := vb_input binding]> byArtifact)
      end
  end.

Definition uniqueRenderInputs (bindings : gmap string validatedRenderBinding) : outcome render_error (list RenderPlanInput) :=
  byArtifact ← merge_inputs (map_to_list bindings) ∅;
  Ok (sort_by in_ArtifactID (map snd (map_to_list byArtifact))).

(** ** The JSON tree of a plan *)

Definition number_json (n : Z) : jvalue := JNumber (format_int n).
Definition uint_text_json (n : Z) : jvalue := JString (format_uint n).
Definition digest_json (d : string) : outcome edit_error jvalue := text ← or_fail ErrEncoding (ParseDigest d); Ok (JString text).
Definition exact_json (e : ExactRational) : outcome edit_error jvalue :=
  _ ← or_fail ErrEncoding (ExactRational_Validate e);
  Ok (JObject [("value", JString (format_int (er_Value e))); ("scale", number_json (er_Scale e))]).
Definition array_json {A} (f : A -> outcome edit_error jvalue) (l : list A) : outcome edit_error jvalue :=
  vs ← encode_all f l; Ok (JArray vs).

Definition format_json (f : SequenceFormat) : outcome edit_error jvalue :=
  pixelAspect ← time_json (sf_PixelAspect f); frameRate ← time_json (sf_FrameRate f);
  Ok (JObject [("canvasWidth", number_json (sf_CanvasWidth f)); ("canvasHeight", number_json (sf_CanvasHeight f)); ("pixelAspect", pixelAspect);
    ("frameRate", frameRate); ("audioSampleRate", number_json (sf_AudioSampleRate f)); ("audioLayout", text_json (sf_AudioLayout f));
    ("colorPolicy", text_json (sf_ColorPolicy f))]).

Definition video_input_json (v : RenderVideoInput) : outcome edit_error jvalue :=
  stream ← id_json (vi_SourceStreamID v); sourceStart ← time_json (vi_SourceStart v); materialStart ← time_json (vi_MaterialStart v);
  sourceTimeBase ← time_json (vi_SourceTimeBase v); materialTimeBase ← time_json (vi_MaterialTimeBase v); timeMap ← digest_json (vi_TimeMapDigest v);
  Ok (JObject [("sourceStreamId", stream); ("sourceStart", sourceStart); ("materialStart", materialStart); ("sourceTimeBase", sourceTimeBase);
    ("materialTimeBase", materialTimeBase); ("timeMapDigest", timeMap); ("width", number_json (vi_Width v)); ("height", number_json (vi_Height v))]).

Definition audio_input_json (a : RenderAudioInput) : outcome edit_error jvalue :=
  stream ← id_json (ai_SourceStreamID a); sourceStart ← time_json (ai_SourceStart a); materialStart ← time_json (ai_MaterialStart a);
  sourceTimeBase ← time_json (ai_SourceTimeBase a); materialTimeBase ← time_json (ai_MaterialTimeBase a);
  Ok (JObject [("sourceStreamId", stream); ("sourceStart", sourceStart); ("materialStart", materialStart); ("sourceTimeBase", sourceTimeBase);
    ("materialTimeBase", materialTimeBase); ("sampleRate", number_json (ai_SampleRate a)); ("channelLayout", text_json (ai_ChannelLayout a));
    ("decodedSampleCount", uint_text_json (ai_DecodedSampleCount a))]).

Definition plan_input_json (i : RenderPlanInput) : outcome edit_error jvalue :=
  artifact ← id_json (in_ArtifactID i); artifactDigest ← digest_json (in_ArtifactDigest i); asset ← id_json (in_AssetID i);
  fingerprint ← digest_json (in_Fingerprint i); epoch ← time_json (in_SourceEpoch i); media ← digest_json (in_MediaDigest i);
  video ← omitempty "video" video_input_json (in_Video i); audio ← omitempty "audio" audio_input_json (in_Audio i);
  Ok (JObject ([("artifactId", artifact); ("artifactDigest", artifactDigest); ("producerVersion", text_json (in_ProducerVersion i));
    ("profile", text_json (in_Profile i)); ("assetId", asset); ("assetRevision", uint_text_json (in_AssetRevision i));
    ("fingerprint", fingerprint); ("sourceEpoch", epoch); ("mediaDigest", media)] ++ video ++ audio)).

Definition placement_json (p : RenderPlacement) : outcome edit_error jvalue :=
  scaleX ← exact_json (rp_ScaleX p); scaleY ← exact_json (rp_ScaleY p); translateX ← exact_json (rp_TranslateX p); translateY ← exact_json (rp_TranslateY p);
  Ok (JObject [("cropXBasisPoints", number_json (rp_CropX p)); ("cropYBasisPoints", number_json (rp_CropY p));
    ("cropWidthBasisPoints", number_json (rp_CropWidth p)); ("cropHeightBasisPoints", number_json (rp_CropHeight p)); ("scaleX", scaleX);
    ("scaleY", scaleY); ("translateX", translateX); ("translateY", translateY); ("anchorXBasisPoints", number_json (rp_AnchorX p));
    ("anchorYBasisPoints", number_json (rp_AnchorY p)); ("opacityBasisPoints", number_json (rp_Opacity p)); ("fitPolicy", text_json (rp_FitPolicy p))]).

Definition video_instruction_json (v : RenderVideoInstruction) : outcome edit_error jvalue :=
  clip ← id_json (rv_ClipID v); track ← id_json (rv_TrackID v); artifact ← id_json (rv_InputArtifactID v); stream ← id_json (rv_SourceStreamID v);
  source ← range_json (rv_SourceRange v); timeline ← range_json (rv_TimelineRange v); placement ← placement_json (rv_Placement v);
  Ok (JObject [("clipId", clip); ("clipRevision", uint_text_json (rv_ClipRevision v)); ("trackId", track);
    ("trackRevision", uint_text_json (rv_TrackRevision v)); ("layer", number_json (rv_Layer v)); ("inputArtifactId", artifact);
    ("sourceStreamId", stream); ("sourceRange", source); ("timelineRange", timeline); ("orientation", text_json (rv_Orientation v));
    ("placement", placement)]).

Definition audio_instruction_json (a : RenderAudioInstruction) : outcome edit_error jvalue :=
  clip ← id_json (ra_ClipID a); track ← id_json (ra_TrackID a); artifact ← id_json (ra_InputArtifactID a); stream ← id_json (ra_SourceStreamID a);
  source ← range_json (ra_SourceRange a); timeline ← range_json (ra_TimelineRange a);
  Ok (JObject [("clipId", clip); ("clipRevision", uint_text_json (ra_ClipRevision a)); ("trackId", track);
    ("trackRevision", uint_text_json (ra_TrackRevision a)); ("layer", number_json (ra_Layer a)); ("inputArtifactId", artifact);
    ("sourceStreamId", stream); ("sourceRange", source); ("timelineRange", timeline); ("channelMapping", text_json (ra_ChannelMapping a));
    ("gainMilliDb", number_json (ra_GainMilliDB a))]).

Definition style_json (s : RenderCaptionStyle) : jvalue :=
  JObject [("fontResourceId", text_json (cs_FontResourceID s)); ("fontSizeBasisPoints", number_json (cs_FontSize s));
    ("textColorRgba", text_json (cs_TextColorRGBA s)); ("outlineColorRgba", text_json (cs_OutlineColorRGBA s));
    ("outlineBasisPoints", number_json (cs_Outline s)); ("lineHeightBasisPoints", number_json (cs_LineHeight s));
    ("alignment", text_json (cs_Alignment s)); ("positionYBasisPoints", number_json (cs_PositionY s));
    ("safeWidthBasisPoints", number_json (cs_SafeWidth s)); ("wrapPolicy", text_json (cs_WrapPolicy s))].

Definition caption_instruction_json (c : RenderCaptionInstruction) : outcome edit_error jvalue :=
  caption ← id_json (rc_CaptionID c); track ← id_json (rc_TrackID c); range ← range_json (rc_Range c);
  Ok (JObject [("captionId", caption); ("captionRevision", uint_text_json (rc_CaptionRevision c)); ("trackId", track);
    ("trackRevision", uint_text_json (rc_TrackRevision c)); ("layer", number_json (rc_Layer c)); ("range", range);
    ("language", text_json (rc_Language c)); ("text", text_json (rc_Text c)); ("style", style_json (rc_Style c))]).

Definition font_json (f : RenderFontResource) : outcome edit_error jvalue :=
  digest ← digest_json (font_SHA256 f);
  Ok (JObject [("resourceId", text_json (font_ResourceID f)); ("version", text_json (font_Version f)); ("sha256", digest)]).

Definition evaluation_json (e : RenderEvaluationPolicy) : jvalue :=
  JObject [("coordinatePolicy", text_json (ev_Coordinate e)); ("colorPipeline", text_json (ev_ColorPipeline e)); ("scalePolicy", text_json (ev_Scale e));
    ("blendPolicy", text_json (ev_Blend e)); ("audioGainPolicy", text_json (ev_AudioGain e)); ("audioMixPolicy", text_json (ev_AudioMix e));
    ("captionLayoutPolicy", text_json (ev_CaptionLayout e)); ("captionRasterPolicy", text_json (ev_CaptionRaster e));
    ("determinismPolicy", text_json (ev_Determinism e))].

Definition mux_json (m : RenderMuxPolicy) : jvalue :=
  JObject [("muxPolicy", text_json (mux_Mux m)); ("keyframePolicy", text_json (mux_Keyframe m)); ("opusTrimPolicy", text_json (mux_OpusTrim m))].

Definition video_output_json (v : RenderVideoOutputPolicy) : jvalue :=
  JObject [("codec", text_json (vo_Codec v)); ("encoder", text_json (vo_Encoder v)); ("encoderProfile", number_json (vo_EncoderProfile v));
    ("pixelFormat", text_json (vo_PixelFormat v)); ("colorRange", text_json (vo_ColorRange v)); ("colorSpace", text_json (vo_ColorSpace v));
    ("colorTransfer", text_json (vo_ColorTransfer v)); ("colorPrimaries", text_json (vo_ColorPrimaries v));
    ("chromaLocation", text_json (vo_ChromaLocation v)); ("rateControl", text_json (vo_RateControl v)); ("crf", number_json (vo_CRF v));
    ("deadline", text_json (vo_Deadline v)); ("cpuUsed", number_json (vo_CPUUsed v)); ("threadCount", number_json (vo_ThreadCount v))].

Definition audio_output_json (a : RenderAudioOutputPolicy) : jvalue :=
  JObject [("codec", text_json (ao_Codec a)); ("encoder", text_json (ao_Encoder a)); ("sampleRate", number_json (ao_SampleRate a));
    ("channelLayout", text_json (ao_ChannelLayout a)); ("bitRate", number_json (ao_BitRate a)); ("variableBitRate", JBool (ao_VariableBitRate a));
    ("frameDurationMs", number_json (ao_FrameDurationMS a)); ("compressionLevel", number_json (ao_CompressionLevel a));
    ("clippingPolicy", text_json (ao_ClippingPolicy a)); ("pcmFormat", text_json (ao_PCMFormat a)); ("ditherPolicy", text_json (ao_DitherPolicy a))].

Definition output_policy_json (o : RenderOutputPolicy) : outcome edit_error jvalue :=
  pixelAspect ← time_json (out_PixelAspect o); frameRate ← time_json (out_FrameRate o);
  Ok (JObject [("profile", text_json (out_Profile o)); ("container", text_json (out_Container o)); ("canvasWidth", number_json (out_CanvasWidth o));
    ("canvasHeight", number_json (out_CanvasHeight o)); ("pixelAspect", pixelAspect); ("frameRate", frameRate);
    ("videoFrameCount", uint_text_json (out_VideoFrameCount o)); ("audioSampleCount", uint_text_json (out_AudioSampleCount o));
    ("streamPolicy", text_json (out_StreamPolicy o)); ("videoSamplingPolicy", text_json (out_VideoSamplingPolicy o));
    ("audioSamplingPolicy", text_json (out_AudioSamplingPolicy o)); ("tailPolicy", text_json (out_TailPolicy o));
    ("backgroundRgba", text_json (out_BackgroundRGBA o)); ("evaluation", evaluation_json (out_Evaluation o)); ("mux", mux_json (out_Mux o));
    ("video", video_output_json (out_Video o)); ("audio", audio_output_json (out_Audio o))]).

Definition purpose_text (p : RenderPlanPurpose) : string :=
  match p with RenderPurposeSequencePreview => "sequence-preview" | RenderPurposeExport => "export" | RenderPurposeOther text => text end.

Definition plan_json (p : RenderPlanPayload) : outcome edit_error jvalue :=
  project ← id_json (pp_ProjectID p); sequence ← id_json (pp_SequenceID p); format ← format_json (pp_SequenceFormat p);
  duration ← time_json (pp_Duration p); inputs ← array_json plan_input_json (pp_Inputs p);
  video ← array_json video_instruction_json (pp_Video p); audio ← array_json audio_instruction_json (pp_Audio p);
  captions ← array_json caption_instruction_json (pp_Captions p); fonts ← array_json font_json (pp_FontResources p);
  output ← output_policy_json (pp_Output p);
  Ok (JObject [("compilerVersion", text_json (pp_CompilerVersion p)); ("purpose", text_json (purpose_text (pp_Purpose p))); ("projectId", project);
    ("sequenceId", sequence); ("sequenceRevision", uint_text_json (pp_SequenceRevision p)); ("sequenceFormat", format); ("duration", duration);
    ("inputs", inputs); ("video", video); ("audio", audio); ("captions", captions); ("fontResources", fonts); ("output", output)]).

(** ** The compiler *)

Section compiler.
Context `{Platform}.

Definition compileSequenceRenderPlan (input : CompileRenderPlanInput) (purpose : RenderPlanPurpose) (requiredProfile : string)
    (output : SequenceFormat -> RationalTime -> outcome render_error RenderOutputPolicy)
    (validate : RenderPlanPayload -> outcome render_error unit) : outcome render_error CompiledRenderPlan :=
  _ ← validateRenderPlanHead input;
  tracks ← normalizeRenderTracks (seq_Tracks (ci_Sequence input));
  bindings ← normalizeRenderBindings input tracks requiredProfile;
  '(duration, video, audio, captions, fonts) ← compileRenderInstructions tracks input bindings;
  _ ← guard_or ErrRenderSequenceEmpty (IsPositive duration);
  inputs ← uniqueRenderInputs bindings;
  out ← output (seq_Format (ci_Sequence input)) duration;
  let plan := mkPlan RenderPlanCompilerV4 purpose (ci_ProjectID input) (seq_ID (ci_Sequence input)) (seq_Revision (ci_Sequence input))
    (seq_Format (ci_Sequence input)) duration inputs video audio captions fonts out in
  _ ← validate plan;
  payload ← or_fail ErrRenderEncoding (plan_json plan);
  '(canonical, digest) ← or_fail ErrRenderEncoding (CanonicalDigest platform_sha256 "open-cut/render-plan" RenderPlanSchema payload);
  Ok (mkCompiled (mkRenderPlan plan digest (ci_ObservedProjectRevision input)) canonical).

Definition CompileSequencePreviewPlan (input : CompileRenderPlanInput) : outcome render_error CompiledRenderPlan :=
  compileSequenceRenderPlan input RenderPurposeSequencePreview SourceProxyProfile SequencePreviewOutput ValidateSequencePreviewRenderPlanPayload.

Definition CompileSequenceExportPlan (input : CompileRenderPlanInput) : outcome render_error CompiledRenderPlan :=
  compileSequenceRenderPlan input RenderPurposeExport RenderInputProfile SequenceExportOutput ValidateSequenceExportRenderPlanPayload.
End compiler.

Definition EqualCompiledRenderPlans (left right : CompiledRenderPlan) : bool :=
  bool_decide (plan_Digest (cp_Plan left) = plan_Digest (cp_Plan right)) && bool_decide (cp_Canonical left = cp_Canonical right).
