(* ===== verification/RenderSchedule.v ===== *)
(** What a valid render plan promises the renderer: lanes in order, no two
    instructions of a track at once, a duration that is the last end, and no
    input or font that nothing uses. *)
From stdpp Require Import base list strings gmap sorting.
From Stdlib Require Import ZArith QArith Lia Lqa Ascii.
From S2P Require Import Prelude GoText Exact Identity Canonical EditModel Timeline EditState.
From S2P Require Import EditNarrative EditCaptions EditTranscript EditDerive EditValidate EditRanges Project RenderContract.
Open Scope Z_scope.

(** ** Ranges and times of the contract *)

Lemma validatePositiveRange_ok r b : range_typed r -> validatePositiveRange r b = Ok tt ->
  range_ok r /\ (b = true -> (0 <= start_Q r)%Q).
Proof.
  intros Ht. unfold validatePositiveRange. case_match eqn:E; [done|]. bool_prop.
  destruct (End r) as [e| |] eqn:He; [|done|done]. intros _.
  assert (Hok : range_ok r) by (by eapply range_ok_intro). split; [exact Hok|]. intros ->.
  apply nonnegative_Q; [exact (proj1 Hok)|]. match goal with Hn : true && _ = false |- _ => exact Hn end.
Qed.

Lemma range_ok_stop r : range_ok r -> rt_valid (time_or_zero (End r)) /\ (rt_Q (time_or_zero (End r)) == end_Q r)%Q.
Proof. intros (_ & _ & _ & e & -> & He & Hq). done. Qed.

Lemma laterRenderTime_max a b : rt_valid a -> rt_valid b ->
  rt_valid (laterRenderTime a b) /\ (rt_Q a <= rt_Q (laterRenderTime a b))%Q /\ (rt_Q b <= rt_Q (laterRenderTime a b))%Q /\
  (laterRenderTime a b = a \/ laterRenderTime a b = b).
Proof.
  intros Ha Hb. unfold laterRenderTime. destruct (Compare_valid a b Ha Hb) as (c & -> & Hl & _ & _). cbn.
  destruct (Z.ltb_spec c 0) as [Hc|Hc].
  - apply Hl in Hc. split; [exact Hb|]. split; [lra|]. split; [lra|]. by right.
  - assert (~ (rt_Q a < rt_Q b)%Q) by (intros Hx%Hl; lia). split; [exact Ha|]. split; [lra|]. split; [lra|]. by left.
Qed.

Lemma zero_start_valid : rt_valid zero_start.
Proof. split; [repeat split; vm_compute; discriminate|vm_compute; reflexivity]. Qed.

Lemma union_step (a u : gset string) (l : list (gset string)) : (a ∪ u) ∪ ⋃ l = u ∪ ⋃ (a :: l).
Proof. rewrite union_list_cons, (comm_L (∪) a u), (assoc_L (∪)). done. Qed.

(** ** Lanes *)

Section lane.
Context {T : Type} `{LayeredInstruction T}.

(** Two instructions of a track follow each other. *)
Definition plays_before (x y : T) : Prop :=
  instruction_track x = instruction_track y -> (end_Q (instruction_range x) <= start_Q (instruction_range y))%Q.

(** The order of a lane: by layer, then by start, then by identity *)
Definition ordered_before (x y : T) : Prop :=
  let '(l1, s1, i1) := renderInstructionOrder x in
  let '(l2, s2, i2) := renderInstructionOrder y in
  l1 < l2 \/ (l1 = l2 /\ ((rt_Q s1 < rt_Q s2)%Q \/ (s1 = s2 /\ str_ltb i1 i2 = true))).

#[export] Instance ordered_before_trans : Transitive ordered_before.
Proof.
  intros x y z. unfold ordered_before. destruct (renderInstructionOrder x) as [[l1 s1] i1], (renderInstructionOrder y) as [[l2 s2] i2],
    (renderInstructionOrder z) as [[l3 s3] i3].
  intros [H1|[-> [H1|[-> H1]]]] [H2|[-> [H2|[-> H2]]]]; first [by left; lia | right; split; [done|]].
  - left. lra.
  - by left.
  - by left.
  - right. split; [done|]. unfold str_ltb in *. by eapply bytes_ltb_trans.
Qed.

Definition range_played (x : T) : Prop := range_ok (instruction_range x) /\ (0 <= start_Q (instruction_range x))%Q.

Record lane_scheduled (l : list T) : Prop := mkScheduled {
  lane_ranges : Forall range_played l;
  lane_apart : StronglySorted plays_before l;
  lane_sorted : StronglySorted ordered_before l }.

(** A time that no instruction of the lane outlasts and that some instruction reaches, if it is not the given start *)
Record lane_ends (l : list T) (from until : RationalTime) : Prop := mkEnds {
  ends_valid : rt_valid until;
  ends_from : (rt_Q from <= rt_Q until)%Q;
  ends_covers : Forall (fun x => (end_Q (instruction_range x) <= rt_Q until)%Q) l;
  ends_reached : until = from \/ Exists (fun x => (end_Q (instruction_range x) == rt_Q until)%Q) l }.

Context (check : T -> bool) (uses : T -> gset string).
Hypothesis order_start : forall x, (renderInstructionOrder x).1.2 = tr_Start (instruction_range x).
Hypothesis check_range : forall x, range_typed (instruction_range x) -> check x = true -> range_played x.

Lemma renderInstructionOrdered_spec x y : rt_valid (tr_Start (instruction_range x)) -> rt_valid (tr_Start (instruction_range y)) ->
  renderInstructionOrdered (Some x) y = true -> ordered_before x y.
Proof.
  intros Vx Vy. unfold renderInstructionOrdered, ordered_before. pose proof (order_start x) as Sx. pose proof (order_start y) as Sy.
  destruct (renderInstructionOrder x) as [[l1 s1] i1], (renderInstructionOrder y) as [[l2 s2] i2]. cbn in Sx, Sy. subst s1 s2.
  destruct (Z.eqb_spec l1 l2) as [->|Hne]; cbn [negb]; [|rewrite Z.ltb_lt; by left].
  destruct (Compare_valid _ _ Vx Vy) as (c & -> & Hl & He & _). rewrite orb_true_iff, andb_true_iff, Z.ltb_lt, Z.eqb_eq.
  intros [Hc|[Hc Hi]]; right; (split; [done|]); [left; by apply Hl|right; split; [by apply He|done]].
Qed.

Lemma publish_loop_scheduled source : forall previous lastByTrack duration used duration' used',
  Forall (fun x => range_typed (instruction_range x)) source -> rt_valid duration ->
  (forall track e, lastByTrack !! track = Some e -> rt_valid e) ->
  (forall p, previous = Some p -> rt_valid (tr_Start (instruction_range p))) ->
  publish_loop check uses source previous lastByTrack duration used = Ok (duration', used') ->
  Forall (fun x => check x = true) source /\ lane_scheduled source /\ lane_ends source duration duration' /\
  Forall (fun x => forall e, lastByTrack !! instruction_track x = Some e -> (rt_Q e <= start_Q (instruction_range x))%Q) source /\
  (forall p, previous = Some p -> Forall (ordered_before p) source) /\
  used' = used ∪ ⋃ (map uses source).
Proof.
  induction source as [|x rest IH]; intros previous lastByTrack duration used duration' used' Ht Vd Vl Vp Hrun; cbn [publish_loop] in Hrun.
  - injection Hrun as <- <-. split; [constructor|]. split; [repeat constructor|]. split; [split; [exact Vd|lra|constructor|by left]|].
    split; [constructor|]. split; [intros; constructor|]. cbn. by rewrite (right_id_L ∅ (∪)).
  - apply Forall_cons in Ht as [Tx Trest].
    destruct (check x) eqn:Hc; [|done]. destruct (renderInstructionOrdered previous x) eqn:Ho; [|done]. cbn [negb orb] in Hrun.
    destruct (starts_after _ _ _) eqn:Hs; [|done]. cbn [negb] in Hrun.
    pose proof (check_range x Tx Hc) as [Hr H0]. destruct (range_ok_stop _ Hr) as [Ve Qe].
    set (e := time_or_zero (End (instruction_range x))) in *.
    destruct (laterRenderTime_max duration e Vd Ve) as (Vm & M1 & M2 & M3).
    assert (Hfirst : forall e', lastByTrack !! instruction_track x = Some e' -> (rt_Q e' <= start_Q (instruction_range x))%Q).
    { intros e' He'. unfold starts_after in Hs. rewrite He' in Hs.
      destruct (Compare_valid (tr_Start (instruction_range x)) e' (proj1 Hr) (Vl _ _ He')) as (c & Ec & Hlt & _). rewrite Ec in Hs. bool_prop.
      apply Qnot_lt_le. intros Hx%Hlt. lia. }
    apply IH in Hrun as (Hchk & [R1 R2 R3] & [E1 E2 E3 E4] & Hlast & Hprev & ->); [|exact Trest|exact Vm| |].
    2:{ intros track e' He'. destruct (decide (track = instruction_track x)) as [->|Hne];
        [rewrite lookup_insert_eq in He'; injection He' as <-; exact Ve|rewrite lookup_insert_ne in He' by congruence; by eapply Vl]. }
    2:{ intros p [= <-]. exact (proj1 Hr). }
    assert (Hpos : (start_Q (instruction_range x) <= end_Q (instruction_range x))%Q).
    { destruct Hr as (_ & _ & Hp & _). unfold start_Q, end_Q. lra. }
    split; [by constructor|]. split.
    { split; [constructor; [done|exact R1]|constructor; [exact R2|]|constructor; [exact R3|by apply Hprev]].
      eapply Forall_impl; [exact Hlast|]. intros y Hy Htrack. rewrite <- Qe. apply Hy. by rewrite <- Htrack, lookup_insert_eq. }
    split.
    { split; [exact E1|lra|constructor; [lra|exact E3]|].
      destruct E4 as [->|E4]; [|right; by constructor 2]. destruct M3 as [->| ->]; [by left|right; constructor; by rewrite Qe]. }
    split.
    { constructor; [exact Hfirst|]. rewrite Forall_forall in *. intros y Hy e' He'.
      destruct (decide (instruction_track y = instruction_track x)) as [Heq|Hne].
      - rewrite Heq in He'. specialize (Hlast y Hy e). rewrite Heq, lookup_insert_eq in Hlast. specialize (Hlast eq_refl).
        specialize (Hfirst _ He'). lra.
      - apply Hlast; [done|]. by rewrite lookup_insert_ne by congruence. }
    split; [|apply union_step].
    intros p ->. assert (ordered_before p x) as Hpx by (apply renderInstructionOrdered_spec; [by apply Vp|exact (proj1 Hr)|exact Ho]).
    constructor; [exact Hpx|]. specialize (Hprev x eq_refl). rewrite Forall_forall in *. intros y Hy. by transitivity x; [|apply Hprev].
Qed.
End lane.

(** ** Plans *)

Lemma video_range_played inputs v : range_typed (rv_TimelineRange v) -> published_video_ok inputs v = true -> range_played v.
Proof.
  intros Ht. unfold published_video_ok. repeat case_match; try done. intros Hv. bool_prop.
  destruct (validatePositiveRange (rv_TimelineRange v) true) as [[]| |] eqn:E; try done.
  destruct (validatePositiveRange_ok _ _ Ht E) as [Hr Hn]. split; [exact Hr|by apply Hn].
Qed.

Lemma audio_range_played inputs a : range_typed (ra_TimelineRange a) -> published_audio_ok inputs a = true -> range_played a.
Proof.
  intros Ht. unfold published_audio_ok. repeat case_match; try done. intros Hv. bool_prop.
  destruct (validatePositiveRange (ra_TimelineRange a) true) as [[]| |] eqn:E; try done.
  destruct (validatePositiveRange_ok _ _ Ht E) as [Hr Hn]. split; [exact Hr|by apply Hn].
Qed.

Lemma caption_range_played `{Platform} fonts c : range_typed (rc_Range c) -> published_caption_ok fonts c = true -> range_played c.
Proof.
  intros Ht. unfold published_caption_ok. intros Hv. bool_prop.
  destruct (validatePositiveRange (rc_Range c) true) as [[]| |] eqn:E; try done.
  destruct (validatePositiveRange_ok _ _ Ht E) as [Hr Hn]. split; [exact Hr|by apply Hn].
Qed.

(** The times of a plan fit their Go types. *)
Definition plan_typed (plan : RenderPlanPayload) : Prop :=
  rt_typed (pp_Duration plan) /\ Forall (fun v => range_typed (rv_TimelineRange v)) (pp_Video plan) /\
  Forall (fun a => range_typed (ra_TimelineRange a)) (pp_Audio plan) /\ Forall (fun c => range_typed (rc_Range c)) (pp_Captions plan).

Lemma published_inputs_keys profile source : forall previous result inputs, published_inputs profile source previous result = Ok inputs ->
  dom inputs = dom result ∪ list_to_set (map in_ArtifactID source) /\
  forall k i, inputs !! k = Some i -> result !! k = Some i \/ (i ∈ source /\ in_ArtifactID i = k /\ published_input_ok profile i = true).
Proof.
  induction source as [|input rest IH]; intros previous result inputs Hrun; cbn [published_inputs] in Hrun.
  - injection Hrun as <-. split; [|by left]. cbn. by rewrite (right_id_L ∅ (∪)).
  - case_match eqn:E; [done|]. bool_prop. apply IH in Hrun as [Hd Hf]. split; [rewrite Hd, dom_insert_L; cbn; set_solver|].
    intros k i Hi. destruct (Hf k i Hi) as [Hk|(Hin & Hk & Hok)]; [|right; split; [by apply list_elem_of_further|done]].
    destruct (decide (k = in_ArtifactID input)) as [->|Hne]; [|rewrite lookup_insert_ne in Hk by congruence; by left].
    rewrite lookup_insert_eq in Hk. injection Hk as <-. right. split; [apply list_elem_of_here|done].
Qed.

Lemma published_fonts_keys source : forall previous result fonts, published_fonts source previous result = Ok fonts ->
  dom fonts = dom result ∪ list_to_set (map font_ResourceID source).
Proof.
  induction source as [|font rest IH]; intros previous result fonts Hrun; cbn [published_fonts] in Hrun.
  - injection Hrun as <-. cbn. by rewrite (right_id_L ∅ (∪)).
  - case_match eqn:E; [done|]. apply IH in Hrun as ->. rewrite dom_insert_L. cbn. set_solver.
Qed.

(** Everything a valid plan promises *)
Record plan_schedule (plan : RenderPlanPayload) : Prop := mkSchedule {
  plan_video : lane_scheduled (pp_Video plan);
  plan_audio : lane_scheduled (pp_Audio plan);
  plan_captions : lane_scheduled (pp_Captions plan);
  plan_covers :
    Forall (fun v => (end_Q (rv_TimelineRange v) <= rt_Q (pp_Duration plan))%Q) (pp_Video plan) /\
    Forall (fun a => (end_Q (ra_TimelineRange a) <= rt_Q (pp_Duration plan))%Q) (pp_Audio plan) /\
    Forall (fun c => (end_Q (rc_Range c) <= rt_Q (pp_Duration plan))%Q) (pp_Captions plan);
  plan_reached :
    Exists (fun v => (end_Q (rv_TimelineRange v) == rt_Q (pp_Duration plan))%Q) (pp_Video plan) \/
    Exists (fun a => (end_Q (ra_TimelineRange a) == rt_Q (pp_Duration plan))%Q) (pp_Audio plan) \/
    Exists (fun c => (end_Q (rc_Range c) == rt_Q (pp_Duration plan))%Q) (pp_Captions plan);
  plan_video_inputs : forall v, v ∈ pp_Video plan -> exists i video, i ∈ pp_Inputs plan /\ in_ArtifactID i = rv_InputArtifactID v /\
    in_Video i = Some video /\ vi_SourceStreamID video = rv_SourceStreamID v;
  plan_audio_inputs : forall a, a ∈ pp_Audio plan -> exists i audio, i ∈ pp_Inputs plan /\ in_ArtifactID i = ra_InputArtifactID a /\
    in_Audio i = Some audio /\ ai_SourceStreamID audio = ra_SourceStreamID a;
  plan_inputs_used : forall i, i ∈ pp_Inputs plan ->
    (exists v, v ∈ pp_Video plan /\ rv_InputArtifactID v = in_ArtifactID i) \/
    (exists a, a ∈ pp_Audio plan /\ ra_InputArtifactID a = in_ArtifactID i);
  plan_fonts_used : forall id, id ∈ map font_ResourceID (pp_FontResources plan) <->
    exists c, c ∈ pp_Captions plan /\ cs_FontResourceID (rc_Style c) = id }.

Lemma used_all {T} (key : T -> string) (l : list T) id :
  id ∈ ⋃ (map (fun x => ({[key x]} : gset string)) l) <-> exists x, x ∈ l /\ key x = id.
Proof.
  induction l as [|x l IH]; cbn; [split; [by intros ?%not_elem_of_empty|by intros (? & ?%not_elem_of_nil & _)]|].
  rewrite elem_of_union, elem_of_singleton, IH. setoid_rewrite elem_of_cons. split.
  - intros [->|(y & Hy & Hk)]; [by exists x; auto|by exists y; auto].
  - intros (y & [->|Hy] & Hk); [by left|right; by exists y].
Qed.

Lemma video_input profile source inputs v : validatePublishedRenderInputs source profile = Ok inputs -> published_video_ok inputs v = true ->
  exists i video, i ∈ source /\ in_ArtifactID i = rv_InputArtifactID v /\ in_Video i = Some video /\ vi_SourceStreamID video = rv_SourceStreamID v.
Proof.
  intros [_ Li]%published_inputs_keys. unfold published_video_ok.
  destruct (inputs !! rv_InputArtifactID v) as [i|] eqn:Ei; [|done]. destruct (in_Video i) as [video|] eqn:Ev; [|done]. intros Hv. bool_prop.
  destruct (Li _ _ Ei) as [?%lookup_empty_Some|(Hin' & Hk & _)]; [done|]. by exists i, video.
Qed.

Lemma audio_input profile source inputs a : validatePublishedRenderInputs source profile = Ok inputs -> published_audio_ok inputs a = true ->
  exists i audio, i ∈ source /\ in_ArtifactID i = ra_InputArtifactID a /\ in_Audio i = Some audio /\ ai_SourceStreamID audio = ra_SourceStreamID a.
Proof.
  intros [_ Li]%published_inputs_keys. unfold published_audio_ok.
  destruct (inputs !! ra_InputArtifactID a) as [i|] eqn:Ei; [|done]. destruct (in_Audio i) as [audio|] eqn:Ev; [|done]. intros Hv. bool_prop.
  destruct (Li _ _ Ei) as [?%lookup_empty_Some|(Hin' & Hk & _)]; [done|]. by exists i, audio.
Qed.

Lemma caption_font `{Platform} fonts c : published_caption_ok fonts c = true -> is_Some (fonts !! cs_FontResourceID (rc_Style c)).
Proof.
  unfold published_caption_ok. intros Hc. bool_prop. destruct (validateRenderCaptionStyle _ _) as [[]| |] eqn:E; [|done|done].
  unfold validateRenderCaptionStyle in E. apply guard_or_ok in E. bool_prop. done.
Qed.

Lemma inputs_all_used profile plan_inputs inputs (video : list RenderVideoInstruction) (audio : list RenderAudioInstruction) (u1 u2 : gset string) :
  validatePublishedRenderInputs plan_inputs profile = Ok inputs ->
  (forall v, v ∈ video -> published_video_ok inputs v = true) -> (forall a, a ∈ audio -> published_audio_ok inputs a = true) ->
  u1 = ∅ ∪ ⋃ (map (fun v => {[rv_InputArtifactID v]}) video) -> u2 = u1 ∪ ⋃ (map (fun a => {[ra_InputArtifactID a]}) audio) ->
  size u2 = size inputs -> u2 = dom inputs.
Proof.
  intros Hi C1 C2 U1 U2 Hs. apply set_subseteq_size_eq; [|by rewrite size_dom, Hs].
  assert (Hk : forall i, i ∈ plan_inputs -> in_ArtifactID i ∈ dom inputs).
  { intros i Hin. destruct (published_inputs_keys _ _ _ _ _ Hi) as [-> _]. apply elem_of_union_r, elem_of_list_to_set.
    apply list_elem_of_In, in_map, list_elem_of_In, Hin. }
  intros id. rewrite U2, U1, !elem_of_union, !used_all, elem_of_empty. intros [[[]|(v & Hin & <-)]|(a & Hin & <-)].
  - destruct (video_input _ _ _ v Hi (C1 v Hin)) as (i & _ & Hi' & <- & _). by apply Hk.
  - destruct (audio_input _ _ _ a Hi (C2 a Hin)) as (i & _ & Hi' & <- & _). by apply Hk.
Qed.

Lemma fonts_all_used `{Platform} plan_fonts fonts (captions : list RenderCaptionInstruction) :
  validatePublishedRenderFonts plan_fonts = Ok fonts -> (forall c, c ∈ captions -> published_caption_ok fonts c = true) ->
  size (list_to_set (map (fun c => cs_FontResourceID (rc_Style c)) captions) : gset string) = size fonts ->
  forall id, id ∈ map font_ResourceID plan_fonts <-> exists c, c ∈ captions /\ cs_FontResourceID (rc_Style c) = id.
Proof.
  intros Kf%published_fonts_keys C3 Sf id. rewrite dom_empty_L, (left_id_L ∅ (∪)) in Kf.
  assert (Hfonts : list_to_set (map (fun c => cs_FontResourceID (rc_Style c)) captions) = dom fonts).
  { apply set_subseteq_size_eq; [|by rewrite size_dom, Sf]. intros x. rewrite elem_of_list_to_set, list_elem_of_In, in_map_iff.
    intros (c & <- & Hin%list_elem_of_In). by apply elem_of_dom, caption_font, C3. }
  rewrite <- (elem_of_list_to_set (C := gset string)), <- Kf, <- Hfonts, elem_of_list_to_set, list_elem_of_In, in_map_iff.
  setoid_rewrite <- list_elem_of_In. split; intros (c & Hx & Hy); by exists c.
Qed.

Lemma lane_reaches {T} `{LayeredInstruction T} (l : list T) d until : lane_ends l zero_start d -> d = until -> (0 < rt_Q until)%Q ->
  Exists (fun x => (end_Q (instruction_range x) == rt_Q until)%Q) l.
Proof. intros [_ _ _ [Hz|Hx]] <- Hp; [|exact Hx]. rewrite Hz in Hp. vm_compute in Hp. discriminate Hp. Qed.

Lemma lane_within {T} `{LayeredInstruction T} (l : list T) from d until : lane_ends l from d -> (rt_Q d <= rt_Q until)%Q ->
  Forall (fun x => (end_Q (instruction_range x) <= rt_Q until)%Q) l.
Proof. intros [_ _ E _] Hd. eapply Forall_impl; [exact E|]. cbn. intros x Hx. lra. Qed.

(** The duration that the lanes reach together is the duration of the plan. *)
Lemma durations_meet (plan : RenderPlanPayload) d1 d2 d3 (duration := pp_Duration plan) :
  lane_ends (pp_Video plan) zero_start d1 -> lane_ends (pp_Audio plan) zero_start d2 -> lane_ends (pp_Captions plan) zero_start d3 ->
  rt_valid duration -> (0 < rt_Q duration)%Q ->
  RationalTime_Compare (laterRenderTime (laterRenderTime d1 d2) d3) duration = Ok 0 ->
  (Forall (fun v => (end_Q (rv_TimelineRange v) <= rt_Q duration)%Q) (pp_Video plan) /\
   Forall (fun a => (end_Q (ra_TimelineRange a) <= rt_Q duration)%Q) (pp_Audio plan) /\
   Forall (fun c => (end_Q (rc_Range c) <= rt_Q duration)%Q) (pp_Captions plan)) /\
  (Exists (fun v => (end_Q (rv_TimelineRange v) == rt_Q duration)%Q) (pp_Video plan) \/
   Exists (fun a => (end_Q (ra_TimelineRange a) == rt_Q duration)%Q) (pp_Audio plan) \/
   Exists (fun c => (end_Q (rc_Range c) == rt_Q duration)%Q) (pp_Captions plan)).
Proof.
  intros E1 E2 E3 Vd Pd Hd.
  destruct (laterRenderTime_max d1 d2 (ends_valid _ _ _ E1) (ends_valid _ _ _ E2)) as (V12 & M1 & M2 & M12).
  destruct (laterRenderTime_max _ d3 V12 (ends_valid _ _ _ E3)) as (V123 & M3 & M4 & M123).
  destruct (Compare_valid _ duration V123 Vd) as (c & Hc & _ & Heq & _). rewrite Hd in Hc. injection Hc as <-.
  pose proof (proj1 Heq eq_refl) as HD. rewrite HD in M3, M4, M123. split.
  - split; [|split]; [eapply (lane_within _ _ _ _ E1)|eapply (lane_within _ _ _ _ E2)|eapply (lane_within _ _ _ _ E3)]; lra.
  - destruct M123 as [M|M]; [destruct M12 as [M'|M']|].
    + left. eapply (lane_reaches _ _ _ E1); [by rewrite M, M'|exact Pd].
    + right. left. eapply (lane_reaches _ _ _ E2); [by rewrite M, M'|exact Pd].
    + right. right. by eapply (lane_reaches _ _ _ E3).
Qed.

Section plan.
Context `{Platform} (plan : RenderPlanPayload) (profile : string)
  (output : SequenceFormat -> RationalTime -> outcome render_error RenderOutputPolicy).
Hypothesis Ht : plan_typed plan.
Hypothesis Hv : validateRenderPlanPayload plan profile output = Ok tt.

(** The intermediate results of a successful validation *)
Lemma validated_parts : exists inputs fonts d1 u1 d2 u2 d3,
  validatePublishedRenderInputs (pp_Inputs plan) profile = Ok inputs /\
  validatePublishedRenderFonts (pp_FontResources plan) = Ok fonts /\
  validatePublishedRenderVideo (pp_Video plan) inputs ∅ = Ok (d1, u1) /\
  validatePublishedRenderAudio (pp_Audio plan) inputs u1 = Ok (d2, u2) /\
  validatePublishedRenderCaptions (pp_Captions plan) fonts = Ok d3 /\
  RationalTime_Compare (laterRenderTime (laterRenderTime d1 d2) d3) (pp_Duration plan) = Ok 0 /\
  size u2 = size inputs /\
  size (list_to_set (map (fun c => cs_FontResourceID (rc_Style c)) (pp_Captions plan)) : gset string) = size fonts /\
  rt_valid (pp_Duration plan) /\ (0 < rt_Q (pp_Duration plan))%Q.
Proof.
  unfold validateRenderPlanPayload in Hv. outcome_inv.
  match goal with x : RationalTime * gset string |- _ => destruct x as [? ?] end. outcome_inv.
  match goal with x : RationalTime * gset string |- _ => destruct x as [? ?] end. outcome_inv. bool_prop.
  match goal with HV : valid_time (pp_Duration plan) = true |- _ => pose proof (valid_time_ok _ (proj1 Ht) HV) as Vd end.
  match goal with HC : RationalTime_Compare _ _ = Ok ?c, HZ : ?c = 0 |- _ => rewrite HZ in HC end.
  do 7 eexists. do 5 (split; [eassumption|]). split; [eassumption|]. split; [by apply Nat.eqb_eq|]. split; [by apply Nat.eqb_eq|].
  split; [exact Vd|by apply IsPositive_Q].
Qed.

Lemma validated_schedule : plan_schedule plan.
Proof.
  destruct validated_parts as (inputs & fonts & d1 & u1 & d2 & u2 & d3 & Hi & Hf & H1 & H2 & H3 & Hd & Su & Sf & Vd & Pd).
  destruct Ht as (Td & Tv & Ta & Tc).
  unfold validatePublishedRenderVideo in H1. unfold validatePublishedRenderAudio in H2.
  apply publish_loop_scheduled in H1 as (C1 & L1 & E1 & _ & _ & U1);
    [|reflexivity|apply video_range_played|exact Tv|exact zero_start_valid|by intros ? ? ?%lookup_empty_Some|done].
  apply publish_loop_scheduled in H2 as (C2 & L2 & E2 & _ & _ & U2);
    [|reflexivity|apply audio_range_played|exact Ta|exact zero_start_valid|by intros ? ? ?%lookup_empty_Some|done].
  unfold validatePublishedRenderCaptions in H3. apply bind_ok in H3 as ([d3' u3] & H3 & [= <-]).
  apply publish_loop_scheduled in H3 as (C3 & L3 & E3 & _ & _ & _);
    [|reflexivity|apply caption_range_played|exact Tc|exact zero_start_valid|by intros ? ? ?%lookup_empty_Some|done].
  rewrite Forall_forall in C1. rewrite Forall_forall in C2. rewrite Forall_forall in C3.
  destruct (durations_meet _ _ _ _ E1 E2 E3 Vd Pd Hd) as [Hcover Hreach].
  assert (Hused : u2 = dom inputs) by (by eapply inputs_all_used).
  destruct (published_inputs_keys _ _ _ _ _ Hi) as [Ki _]. rewrite dom_empty_L, (left_id_L ∅ (∪)) in Ki.
  split; [exact L1|exact L2|exact L3|exact Hcover|exact Hreach| | | |].
  - intros v Hin. by eapply video_input; [|apply C1].
  - intros a Hin. by eapply audio_input; [|apply C2].
  - intros i Hin. rewrite U1, (left_id_L ∅ (∪)) in U2. rewrite <- !used_all, <- elem_of_union, <- U2, Hused, Ki, elem_of_list_to_set.
    apply list_elem_of_In, in_map, list_elem_of_In, Hin.
  - by eapply fonts_all_used.
Qed.
End plan.
