(* ===== verification/RenderCompile.v ===== *)
(** The output policy of a render plan: the canvas of a preview and the numbers
    of frames and samples. *)
From stdpp Require Import base list strings gmap sorting.
From Stdlib Require Import ZArith QArith Lia Lqa Ascii.
From S2P Require Import Prelude GoText Exact Identity Canonical EditModel Timeline EditState EditNarrative EditCaptions EditTranscript EditDerive EditValidate EditNormalize.
From S2P Require Import EditNormalize EditRanges Project RenderContract RenderPlan RenderSchedule.
Open Scope Z_scope.

(** ** Counts *)

Lemma quot_ceil n d : 0 < n -> 0 < d ->
  let q := if negb (Z.rem n d =? 0) then Z.quot n d + 1 else Z.quot n d in (q - 1) * d < n <= q * d.
Proof.
  intros Hn Hd. cbn. pose proof (Z.quot_rem' n d). pose proof (Z.rem_bound_pos n d ltac:(lia) Hd).
  destruct (Z.eqb_spec (Z.rem n d) 0); cbn [negb]; nia.
Qed.

Lemma rt_Q_mul_bounds a b n : 0 < rt_Scale a -> 0 < rt_Scale b ->
  ((inject_Z n <= rt_Q a * rt_Q b)%Q <-> n * (rt_Scale a * rt_Scale b) <= rt_Value a * rt_Value b) /\
  ((rt_Q a * rt_Q b <= inject_Z n)%Q <-> rt_Value a * rt_Value b <= n * (rt_Scale a * rt_Scale b)).
Proof.
  intros Ha Hb. unfold rt_Q, inject_Z, Qle, Qmult. cbn. rewrite !Pos2Z.inj_mul, !Z2Pos.id by lia. lia.
Qed.

(** A count of [ceilRenderCount] is the product rounded up, and at least one. *)
Definition counts (duration rate : RationalTime) (n : Z) : Prop :=
  1 <= n < 2 ^ 64 /\ (inject_Z (n - 1) < rt_Q duration * rt_Q rate)%Q /\ (rt_Q duration * rt_Q rate <= inject_Z n)%Q.

Lemma ceilRenderCount_counts duration rate n : rt_typed duration -> rt_typed rate ->
  ceilRenderCount duration rate = Ok n -> counts duration rate n.
Proof.
  intros Td Tr. unfold ceilRenderCount. case_match eqn:E; [done|]. bool_prop.
  repeat match goal with V : valid_time _ = true |- _ => apply valid_time_ok in V; [|assumption] end.
  pose proof (rt_valid_pos duration ltac:(assumption)). pose proof (rt_valid_pos rate ltac:(assumption)).
  unfold IsPositive in *. bool_prop.
  match goal with |- context [negb (is_uint64 ?q)] => set (quotient := q) end.
  pose proof (quot_ceil (rt_Value duration * rt_Value rate) (rt_Scale duration * rt_Scale rate)
    ltac:(apply Z.mul_pos_pos; lia) ltac:(apply Z.mul_pos_pos; lia)) as Hq.
  cbn in Hq. change (if negb (Z.rem (rt_Value duration * rt_Value rate) (rt_Scale duration * rt_Scale rate) =? 0)
    then Z.quot (rt_Value duration * rt_Value rate) (rt_Scale duration * rt_Scale rate) + 1
    else Z.quot (rt_Value duration * rt_Value rate) (rt_Scale duration * rt_Scale rate)) with quotient in Hq. clearbody quotient.
  destruct (is_uint64 quotient) eqn:U; [|done]. apply is_uint64_spec in U. cbn [negb]. unfold NewUInt64, MaxInt64.
  destruct (Z.ltb_spec 9223372036854775807 quotient); [done|]. destruct (Z.eqb_spec quotient 0); [done|]. intros [= <-].
  destruct (rt_Q_mul_bounds duration rate (quotient - 1)) as [B1 _]; [lia..|]. destruct (rt_Q_mul_bounds duration rate quotient) as [_ B2]; [lia..|].
  split; [lia|]. split; [|apply B2; lia]. apply Qnot_le_lt. intros Hle.
  destruct (rt_Q_mul_bounds duration rate (quotient - 1)) as [_ B3]; [lia..|]. apply B3 in Hle. lia.
Qed.

(** ** The canvas of a preview *)

Lemma evenFloor_spec v : 0 <= v -> Z.Even (evenFloor v) /\ evenFloor v <= v < evenFloor v + 2 /\ 0 <= evenFloor v.
Proof.
  intros Hv. unfold evenFloor. pose proof (Z.quot_rem' v 2). pose proof (Z.rem_bound_pos v 2 Hv ltac:(lia)).
  split; [exists (Z.quot v 2); lia|lia].
Qed.

Lemma floorBigRatio_spec n d : 0 < floorBigRatio n d -> 0 < n /\ 0 < d /\ floorBigRatio n d * d <= n < (floorBigRatio n d + 1) * d.
Proof.
  unfold floorBigRatio. case_match eqn:E; [lia|]. bool_prop. case_match; [lia|]. intros Hp.
  pose proof (Z.quot_rem' n d). pose proof (Z.rem_bound_pos n d ltac:(lia) ltac:(lia)). nia.
Qed.

Lemma floorBigRatio_nonneg n d : 0 <= floorBigRatio n d.
Proof. unfold floorBigRatio. case_match eqn:E; [lia|]. bool_prop. case_match; [lia|]. apply Z.quot_pos; lia. Qed.

(** The canvas of a preview is even, at most 1280 pixels on its long edge, never
    larger than the sequence as displayed, its long edge as long as that allows,
    and it keeps the proportions to within the two pixels lost by rounding the
    short edge down to an even number. *)
Record canvas_fits (format : SequenceFormat) (w h : Z) : Prop := mkFits {
  fits_even : Z.Even w /\ Z.Even h;
  fits_bounds : 2 <= w <= SequencePreviewMaximumLongEdge /\ 2 <= h <= SequencePreviewMaximumLongEdge;
  fits_display : w * rt_Scale (sf_PixelAspect format) <= sf_CanvasWidth format * rt_Value (sf_PixelAspect format) /\ h <= sf_CanvasHeight format;
  fits_aspect :
    let displayWidth := sf_CanvasWidth format * rt_Value (sf_PixelAspect format) in
    let displayHeight := sf_CanvasHeight format * rt_Scale (sf_PixelAspect format) in
    if displayHeight <=? displayWidth then h * displayWidth <= w * displayHeight < (h + 2) * displayWidth
    else w * displayHeight <= h * displayWidth < (w + 2) * displayHeight;
  fits_long :
    let displayWidth := sf_CanvasWidth format * rt_Value (sf_PixelAspect format) in
    let displayHeight := sf_CanvasHeight format * rt_Scale (sf_PixelAspect format) in
    if displayHeight <=? displayWidth
    then w = SequencePreviewMaximumLongEdge \/ displayWidth < (w + 2) * rt_Scale (sf_PixelAspect format)
    else h = SequencePreviewMaximumLongEdge \/ sf_CanvasHeight format < h + 2 }.

Lemma minimumInt64_spec a b : minimumInt64 a b = Z.min a b.
Proof. unfold minimumInt64. destruct (Z.ltb_spec a b); lia. Qed.

Lemma to_uint32_small z : 0 <= z < 2 ^ 32 -> to_uint32 z = z.
Proof. intros. unfold to_uint32. by apply Z.mod_small. Qed.

(** The ratio rounded down to an even number *)
Lemma even_ratio n d v : 0 < d -> v * d <= n < (v + 1) * d -> evenFloor v <= v < evenFloor v + 2 ->
  evenFloor v * d <= n < (evenFloor v + 2) * d.
Proof.
  intros Hd Hn Hv. pose proof (Z.mul_le_mono_nonneg_r (evenFloor v) v d ltac:(lia) ltac:(lia)).
  pose proof (Z.mul_le_mono_nonneg_r (v + 1) (evenFloor v + 2) d ltac:(lia) ltac:(lia)). lia.
Qed.

Lemma wide_canvas dw sc h0 (hs := h0 * sc) (width := evenFloor (Z.min (floorBigRatio dw sc) 1280))
    (height := evenFloor (floorBigRatio (width * hs) dw)) :
  0 < dw -> 0 < sc -> 0 < h0 -> hs <= dw -> 2 <= width -> 2 <= height ->
  Z.Even width /\ Z.Even height /\ width <= 1280 /\ height <= width /\ width * sc <= dw /\ height <= h0 /\
  height * dw <= width * hs < (height + 2) * dw /\ (width = 1280 \/ dw < (width + 2) * sc).
Proof.
  intros Hdw Hs Hh0 Hwide W2 H2. pose proof (floorBigRatio_nonneg dw sc). pose proof (floorBigRatio_nonneg (width * hs) dw).
  destruct (evenFloor_spec (Z.min (floorBigRatio dw sc) 1280)) as (Ew & Bw & Pw); [lia|]. fold width in Ew, Bw, Pw.
  destruct (evenFloor_spec (floorBigRatio (width * hs) dw)) as (Eh & Bh & Ph); [lia|]. fold height in Eh, Bh, Ph.
  destruct (floorBigRatio_spec dw sc) as (_ & _ & Fw); [lia|]. destruct (floorBigRatio_spec (width * hs) dw) as (_ & _ & Fh); [lia|].
  pose proof (even_ratio (width * hs) dw _ Hdw Fh Bh) as Hhd. fold height in Hhd.
  pose proof (Z.mul_le_mono_nonneg_r width (floorBigRatio dw sc) sc ltac:(lia) ltac:(lia)).
  assert (width = 1280 \/ dw < (width + 2) * sc) as Hlong.
  { destruct (Z.le_gt_cases 1280 (floorBigRatio dw sc)) as [Hm|Hm]; [left|right].
    - rewrite Z.min_r in Bw by lia. destruct Ew as [n Ew]. lia.
    - rewrite Z.min_l in Bw by lia. eapply Z.lt_le_trans; [exact (proj2 Fw)|]. apply Z.mul_le_mono_nonneg_r; lia. }
  split; [exact Ew|]. split; [exact Eh|]. split; [lia|]. clearbody width height.
  pose proof (Z.mul_le_mono_nonneg_l hs dw width ltac:(lia) Hwide).
  pose proof (Z.mul_le_mono_nonneg_l (width * sc) dw h0 ltac:(lia) ltac:(lia)).
  split; [apply Z.mul_le_mono_pos_r with dw; lia|]. split; [lia|]. split; [|split; [exact Hhd|exact Hlong]].
  apply Z.mul_le_mono_pos_r with dw; [lia|]. unfold hs in *. lia.
Qed.

Lemma tall_canvas dw sc h0 (hs := h0 * sc) (height := evenFloor (Z.min h0 1280)) (width := evenFloor (floorBigRatio (height * dw) hs)) :
  0 < dw -> 0 < sc -> 0 < h0 -> dw < hs -> 2 <= width -> 2 <= height ->
  Z.Even width /\ Z.Even height /\ height <= 1280 /\ width <= height /\ width * sc <= dw /\ height <= h0 /\
  width * hs <= height * dw < (width + 2) * hs /\ (height = 1280 \/ h0 < height + 2).
Proof.
  intros Hdw Hs Hh0 Htall W2 H2. pose proof (floorBigRatio_nonneg (height * dw) hs).
  destruct (evenFloor_spec (Z.min h0 1280)) as (Eh & Bh & Ph); [lia|]. fold height in Eh, Bh, Ph.
  destruct (evenFloor_spec (floorBigRatio (height * dw) hs)) as (Ew & Bw & Pw); [lia|]. fold width in Ew, Bw, Pw.
  destruct (floorBigRatio_spec (height * dw) hs) as (_ & Phs & Fw); [lia|].
  pose proof (even_ratio (height * dw) hs _ Phs Fw Bw) as Hwd. fold width in Hwd.
  assert (height = 1280 \/ h0 < height + 2) as Hlong.
  { destruct (Z.le_gt_cases 1280 h0) as [Hm|Hm]; [left|right].
    - rewrite Z.min_r in Bh by lia. destruct Eh as [n Eh]. lia.
    - rewrite Z.min_l in Bh by lia. lia. }
  split; [exact Ew|]. split; [exact Eh|]. split; [lia|]. clearbody width height.
  pose proof (Z.mul_le_mono_nonneg_l dw hs height ltac:(lia) ltac:(lia)). pose proof (Z.mul_le_mono_nonneg_r height h0 dw ltac:(lia) ltac:(lia)).
  split; [apply Z.mul_le_mono_pos_r with hs; lia|]. split; [|split; [lia|split; [exact Hwd|exact Hlong]]].
  apply Z.mul_le_mono_pos_r with h0; [lia|]. unfold hs in *. lia.
Qed.

Lemma sequencePreviewDimensions_fits format w h : sequencePreviewDimensions format = Ok (w, h) -> canvas_fits format w h.
Proof.
  unfold sequencePreviewDimensions. case_match eqn:E; [done|]. bool_prop.
  destruct (SequenceFormat_Validate format) as [[]| |] eqn:V; [|done|done]. unfold SequenceFormat_Validate in V. outcome_inv. bool_prop.
  assert (0 < rt_Scale (sf_PixelAspect format)) as Hs.
  { unfold valid_time, RationalTime_Validate in *. destruct (Z.leb_spec (rt_Scale (sf_PixelAspect format)) 0); [done|lia]. }
  unfold IsPositive in *. bool_prop. rewrite !minimumInt64_spec. unfold SequencePreviewMaximumLongEdge.
  assert (0 < sf_CanvasWidth format * rt_Value (sf_PixelAspect format)) as Hdw by (apply Z.mul_pos_pos; lia).
  destruct (Z.leb_spec (sf_CanvasHeight format * rt_Scale (sf_PixelAspect format)) (sf_CanvasWidth format * rt_Value (sf_PixelAspect format))) as [Hc|Hc];
    (case_match eqn:Hsmall; [done|]); intros [= <- <-]; bool_prop.
  - edestruct wide_canvas as (Ew & Eh & L1 & L2 & L3 & L4 & L5 & L6); [exact Hdw|exact Hs| |exact Hc|eassumption|eassumption|]; [lia|].
    rewrite !to_uint32_small by lia. split; [done|unfold SequencePreviewMaximumLongEdge; lia|lia|..].
    + cbv zeta. rewrite (proj2 (Z.leb_le _ _) Hc). exact L5.
    + cbv zeta. rewrite (proj2 (Z.leb_le _ _) Hc). exact L6.
  - edestruct tall_canvas as (Ew & Eh & L1 & L2 & L3 & L4 & L5 & L6); [exact Hdw|exact Hs| |exact Hc|eassumption|eassumption|]; [lia|].
    rewrite !to_uint32_small by lia. split; [done|unfold SequencePreviewMaximumLongEdge; lia|lia|..].
    + cbv zeta. rewrite (proj2 (Z.leb_gt _ _) Hc). exact L5.
    + cbv zeta. rewrite (proj2 (Z.leb_gt _ _) Hc). exact L6.
Qed.

(** ** Properties *)

Definition audio_rate : RationalTime := time_or_zero (NewRationalTime SequencePreviewAudioSampleRate 1).

Lemma audio_rate_typed : rt_typed audio_rate.
Proof. repeat split; vm_compute; discriminate. Qed.

(** The numbers of frames and samples of an output *)
Definition output_counts (format : SequenceFormat) (duration : RationalTime) (out : RenderOutputPolicy) : Prop :=
  counts duration (sf_FrameRate format) (out_VideoFrameCount out) /\ out_VideoFrameCount out <= MaximumPreviewVideoFrames /\
  counts duration audio_rate (out_AudioSampleCount out) /\ out_AudioSampleCount out <= MaximumPreviewAudioSamples.

Lemma preview_output format duration out : format_typed format -> rt_typed duration -> SequencePreviewOutput format duration = Ok out ->
  canvas_fits format (out_CanvasWidth out) (out_CanvasHeight out) /\ output_counts format duration out /\
  out_Evaluation out = evaluation_policy /\ out_Mux out = mux_policy.
Proof.
  intros (_ & _ & _ & _ & Tf) Td. unfold SequencePreviewOutput. fold audio_rate. intros Ho. outcome_inv. match goal with x : (Z * Z)%type |- _ => destruct x as [w h] end.
  outcome_inv. case_match eqn:E; [done|]. bool_prop. match goal with HK : Ok _ = Ok out |- _ => injection HK as <- end. cbn.
  split; [by apply sequencePreviewDimensions_fits|]. split; [|done].
  split; [by apply ceilRenderCount_counts|]. split; [done|]. split; [apply ceilRenderCount_counts; [done|apply audio_rate_typed|done]|done].
Qed.

Lemma export_output format duration out : format_typed format -> rt_typed duration -> SequenceExportOutput format duration = Ok out ->
  out_CanvasWidth out = sf_CanvasWidth format /\ out_CanvasHeight out = sf_CanvasHeight format /\
  Z.Even (out_CanvasWidth out) /\ Z.Even (out_CanvasHeight out) /\ RationalTime_Compare (sf_PixelAspect format) one_time = Ok 0 /\
  output_counts format duration out /\
  out_Evaluation out = evaluation_policy /\ out_Mux out = mux_policy.
Proof.
  intros (_ & _ & _ & _ & Tf) Td. unfold SequenceExportOutput. fold audio_rate. intros Ho. outcome_inv.
  assert (RationalTime_Compare (sf_PixelAspect format) one_time = Ok 0) as Hsquare
    by (match goal with Hz : (?v =? 0) = true |- _ => apply Z.eqb_eq in Hz; subst v; assumption end).
  case_match eqn:E; [done|]. bool_prop. match goal with HK : Ok _ = Ok out |- _ => injection HK as <- end. cbn -[RationalTime_Compare one_time].
  assert (Heven : forall z, Z.rem z 2 = 0 -> Z.Even z) by (intros z Hz; exists (Z.quot z 2); pose proof (Z.quot_rem' z 2); lia).
  split; [done|]. split; [done|]. split; [by apply Heven|]. split; [by apply Heven|]. split; [exact Hsquare|]. split; [|done].
  split; [by apply ceilRenderCount_counts|]. split; [done|]. split; [apply ceilRenderCount_counts; [done|apply audio_rate_typed|done]|done].
Qed.

(** C30: the output of a render covers its duration and fits its canvas.  The frames
    and samples of a preview and those of an export are the least numbers that
    reach the end of the sequence, within the limits of the renderer.  A preview,
    whatever the pixel aspect and the canvas of the sequence, gets a canvas that is
    even, at most 1280 pixels long and as long as that allows, no larger than the
    sequence as displayed, and of its proportions up to rounding; an export keeps
    the canvas of the sequence, which has even edges and square pixels.  Where both
    are made they have the same numbers and the same evaluation and container
    rules. *)
Theorem render_output_sound (format : SequenceFormat) (duration : RationalTime) (Hf : format_typed format) (Hd : rt_typed duration) :
  (forall preview, SequencePreviewOutput format duration = Ok preview ->
     canvas_fits format (out_CanvasWidth preview) (out_CanvasHeight preview) /\ output_counts format duration preview) /\
  (forall export, SequenceExportOutput format duration = Ok export ->
     out_CanvasWidth export = sf_CanvasWidth format /\ out_CanvasHeight export = sf_CanvasHeight format /\
     Z.Even (out_CanvasWidth export) /\ Z.Even (out_CanvasHeight export) /\ RationalTime_Compare (sf_PixelAspect format) one_time = Ok 0 /\
     output_counts format duration export) /\
  (forall preview export, SequencePreviewOutput format duration = Ok preview -> SequenceExportOutput format duration = Ok export ->
     out_VideoFrameCount export = out_VideoFrameCount preview /\ out_AudioSampleCount export = out_AudioSampleCount preview /\
     out_Evaluation export = out_Evaluation preview /\ out_Mux export = out_Mux preview).
Proof.
  split; [|split].
  - intros preview Hp. by destruct (preview_output _ _ _ Hf Hd Hp) as (Hc & Hn & _).
  - intros export He. destruct (export_output _ _ _ Hf Hd He) as (W & H & Ew & Eh & Ha & Hn & _). done.
  - intros preview export Hp He. unfold SequencePreviewOutput in Hp. unfold SequenceExportOutput in He.
    outcome_inv. match goal with x : (Z * Z)%type |- _ => destruct x as [w h] end. outcome_inv. repeat case_match; try done.
    repeat match goal with HK : Ok _ = Ok _ |- _ => injection HK as <- end. cbn. simplify_eq. repeat split; congruence.
Qed.

(** A sequence of odd edges with pixels that are not square *)
Definition anamorphic_format : SequenceFormat :=
  mkFormat 721 577 (mkTime 64 45) (sf_FrameRate DefaultSequenceFormat) (sf_AudioSampleRate DefaultSequenceFormat)
    (sf_AudioLayout DefaultSequenceFormat) (sf_ColorPolicy DefaultSequenceFormat).

Lemma render_output_sound_witness :
  (exists preview export, SequencePreviewOutput DefaultSequenceFormat (mkTime 10 3) = Ok preview /\
    SequenceExportOutput DefaultSequenceFormat (mkTime 10 3) = Ok export /\
    out_VideoFrameCount export = 100 /\ canvas_fits DefaultSequenceFormat (out_CanvasWidth preview) (out_CanvasHeight preview)) /\
  (exists preview, SequencePreviewOutput anamorphic_format (mkTime 10 3) = Ok preview /\ out_CanvasWidth preview = 1024 /\ out_CanvasHeight preview = 576 /\
    canvas_fits anamorphic_format (out_CanvasWidth preview) (out_CanvasHeight preview)).
Proof.
  assert (rt_typed (mkTime 10 3)) as Hd by (repeat split; vm_compute; discriminate).
  split.
  - eexists _, _. split; [vm_compute; reflexivity|]. split; [vm_compute; reflexivity|]. split; [reflexivity|].
    eapply (render_output_sound DefaultSequenceFormat (mkTime 10 3) default_format_typed Hd). vm_compute. reflexivity.
  - eexists. split; [vm_compute; reflexivity|]. split; [reflexivity|]. split; [reflexivity|].
    eapply (render_output_sound anamorphic_format (mkTime 10 3)); [repeat split; vm_compute; discriminate|exact Hd|vm_compute; reflexivity].
Defined.

(** * What the compiler produces: a plan with exactly the live clips and captions of
    the sequence, and one the contract accepts. *)


(** ** A sample sequence *)

Definition zero_digest : string := "sha256:0000000000000000000000000000000000000000000000000000000000000000".

Definition show_sequence : Sequence :=
  mkSequence (sample_id "03") 5 "main" "main" DefaultSequenceFormat
    [mkProjectTrack (sample_id "10") 1 TrackVideo "V1" "a0"; mkProjectTrack (sample_id "12") 1 TrackAudio "A1" "a1";
     mkProjectTrack (sample_id "11") 1 TrackCaption "C1" "a2"].

Definition show_material : RenderMaterial :=
  mkMaterial ArtifactProxy (sample_id "21") zero_digest "producer-1" SourceProxyProfile (mkTime 0 1) zero_digest zero_digest 4096
    (Some (mkVideoInput (sample_id "20") (mkTime 0 1) (mkTime 0 1) (mkTime 1 90000) (mkTime 1 1000) zero_digest 1920 1080))
    (Some (mkAudioInput (sample_id "22") (mkTime 0 1) (mkTime 0 1) (mkTime 1 48000) (mkTime 1 1000) 48000 "stereo" 480000)).

Definition show_artifact : ArtifactSummary :=
  mkArtifactSummary (sample_id "40") ArtifactProxy "producer-1" zero_digest ArtifactReady 4096 zero_digest.

Definition show_clip (tail track stream : string) (start duration : Z) : ClipState :=
  mkClip (sample_id tail) 1 (sample_id "03") (sample_id track) (sample_id "21") (sample_id stream)
    (seconds start duration) (seconds start duration) true None None false.

Definition show_caption : CaptionState :=
  mkCaption (sample_id "50") 1 (sample_id "03") (sample_id "11") (seconds 1 3) "en" "Hello" (mkProvenance ProvenanceManual None) None false.

Definition show_input : CompileRenderPlanInput :=
  mkCompileInput (sample_id "01") 7 show_sequence
    [show_clip "31" "10" "20" 4 3; show_clip "30" "10" "20" 0 4; show_clip "32" "12" "22" 0 7] [show_caption]
    (Some {[ sample_id "21" := mkAssetSnapshot (sample_id "21") 2 zero_digest "available" ]})
    [mkBinding (sample_id "30") show_artifact show_material; mkBinding (sample_id "31") show_artifact show_material;
     mkBinding (sample_id "32") show_artifact show_material]
    (Some (mkFont "noto-sans" "v1" zero_digest)).

Example show_compiles :
  (fun c => map rv_ClipID (pp_Video (plan_Payload (cp_Plan c)))) <$>
    match @CompileSequencePreviewPlan sample_platform show_input with Ok c => Some c | _ => None end =
  Some [sample_id "30"; sample_id "31"].
Proof. vm_compute. reflexivity. Qed.

(** ** Instructions of the compiler *)

Section compile.
Context (tracks : gmap string renderTrack).

Definition track_type (id : string) : TrackType := pt_Type (rk_state (track_at tracks id)).

(** A clip that a plan plays on a lane *)
Definition plays_on (type : TrackType) (c : ClipState) : Prop := skipped c = false /\ track_type (clip_TrackID c) = type.
#[export] Instance plays_on_dec type c : Decision (plays_on type c).
Proof. unfold plays_on. apply _. Defined.

Definition video_of (bindings : gmap string validatedRenderBinding) (c : ClipState) : RenderVideoInstruction :=
  video_instruction c (track_at tracks (clip_TrackID c)) (bound_artifact bindings (clip_ID c)).
Definition audio_of (bindings : gmap string validatedRenderBinding) (c : ClipState) : RenderAudioInstruction :=
  audio_instruction c (track_at tracks (clip_TrackID c)) (bound_artifact bindings (clip_ID c)).
Definition caption_of (fontID : string) (c : CaptionState) : RenderCaptionInstruction :=
  caption_instruction c (track_at tracks (caption_TrackID c)) fontID.

Definition live_caption (c : CaptionState) : Prop := caption_Tombstoned c = false.
#[export] Instance live_caption_dec c : Decision (live_caption c).
Proof. unfold live_caption. apply _. Defined.

Lemma End_valid r e : range_typed r -> End r = Ok e -> rt_valid e.
Proof. intros [Ts Td] He. by destruct (Add_ok _ _ _ Ts Td He) as (_ & _ & ? & _). Qed.

Lemma render_later_valid a b : rt_valid a -> rt_valid b -> rt_valid (laterRenderTime a b).
Proof. intros Ha Hb. by destruct (laterRenderTime_max a b Ha Hb). Qed.

Lemma compile_clips_lanes bindings clips : forall last duration video audio duration' video' audio',
  Forall (fun c => range_typed (clip_TimelineRange c)) clips -> rt_valid duration ->
  compile_clips tracks bindings clips last duration video audio = Ok (duration', video', audio') ->
  rt_valid duration' /\ video' = video ++ map (video_of bindings) (filter (plays_on TrackVideo) clips) /\
  audio' = audio ++ map (audio_of bindings) (filter (plays_on TrackAudio) clips).
Proof.
  induction clips as [|c rest IH]; intros last duration video audio duration' video' audio' Ht Hd Hrun; cbn [compile_clips] in Hrun.
  { injection Hrun as <- <- <-. by rewrite !app_nil_r. }
  apply Forall_cons in Ht as [Tc Tr]. rewrite !filter_cons. destruct (skipped c) eqn:Hs.
  { rewrite !decide_False by (intros [? _]; congruence). by eapply IH. }
  apply bind_ok in Hrun as (e & He & Hrun). apply or_fail_ok in He. destruct (negb _) in Hrun; [discriminate Hrun|].
  assert (Hl : rt_valid (laterRenderTime duration e)) by (apply render_later_valid; [exact Hd|by eapply End_valid]).
  destruct (pt_Type (rk_state (track_at tracks (clip_TrackID c)))) eqn:Ety; try discriminate Hrun.
  - rewrite decide_True by (by split). rewrite decide_False by (intros [_ Hx]; unfold track_type in Hx; congruence). cbn [map].
    destruct (IH _ _ _ _ _ _ _ Tr Hl Hrun) as (Hv & -> & ->). by rewrite <- app_assoc.
  - rewrite decide_False by (intros [_ Hx]; unfold track_type in Hx; congruence). rewrite decide_True by (by split). cbn [map].
    destruct (IH _ _ _ _ _ _ _ Tr Hl Hrun) as (Hv & -> & ->). by rewrite <- app_assoc.
Qed.

Context `{Platform}.

Lemma check_captions_valid sequenceID captions : forall last duration required duration' required',
  Forall (fun c => range_typed (caption_Range c)) captions -> rt_valid duration ->
  check_captions tracks sequenceID captions last duration required = Ok (duration', required') ->
  rt_valid duration' /\ (required = true -> required' = true) /\ (required' = false -> filter live_caption captions = []).
Proof.
  induction captions as [|c rest IH]; intros last duration required duration' required' Ht Hd Hrun; cbn [check_captions] in Hrun.
  { injection Hrun as <- <-. done. }
  apply Forall_cons in Ht as [Tc Tr]. rewrite filter_cons. destruct (caption_Tombstoned c) eqn:Hs.
  { rewrite decide_False by (unfold live_caption; congruence). by eapply IH. }
  destruct (negb _) in Hrun; [discriminate Hrun|]. apply bind_ok in Hrun as (e & He & Hrun). apply or_fail_ok in He.
  destruct (negb _) in Hrun; [discriminate Hrun|].
  assert (Hl : rt_valid (laterRenderTime duration e)) by (apply render_later_valid; [exact Hd|by eapply End_valid]).
  destruct (IH _ _ _ _ _ Tr Hl Hrun) as (Hv & Hr & _). split; [exact Hv|]. rewrite (Hr eq_refl). done.
Qed.
End compile.
