(* ===== verification/RenderSweep.v ===== *)
(** The compiler and the contract walk over instructions in the same way: each
    must start when the last one of its track has ended, and the latest end is
    the duration.  [sweep] is that walk alone. *)
From stdpp Require Import base list strings gmap sorting.
From Stdlib Require Import ZArith QArith Lia Lqa Ascii.
From S2P Require Import Prelude GoText Exact Identity Canonical EditModel Timeline EditState.
From S2P Require Import EditNarrative EditCaptions EditTranscript EditDerive EditValidate EditRanges.
From S2P Require Import Project RenderContract RenderPlan RenderSchedule RenderCompile.
Open Scope Z_scope.

(** A track and the range occupied on it *)
Definition place : Type := string * TimeRange.

Fixpoint sweep (places : list place) (last : gmap string RationalTime) (duration : RationalTime) : option RationalTime :=
  match places with
  | [] => Some duration
  | (track, range) :: rest =>
      if starts_after last track (tr_Start range)
      then let e := time_or_zero (End range) in sweep rest (<[track := e]> last) (laterRenderTime duration e)
      else None
  end.

Definition clip_place (c : ClipState) : place := (clip_TrackID c, clip_TimelineRange c).
Definition caption_place (c : CaptionState) : place := (caption_TrackID c, caption_Range c).
Definition instruction_place {T} `{LayeredInstruction T} (x : T) : place := (instruction_track x, instruction_range x).

(** ** The walks *)

Lemma compile_clips_sweep tracks bindings clips : forall last duration video audio duration' video' audio',
  compile_clips tracks bindings clips last duration video audio = Ok (duration', video', audio') ->
  sweep (map clip_place (filter (fun c => skipped c = false) clips)) last duration = Some duration'.
Proof.
  induction clips as [|c rest IH]; intros last duration video audio duration' video' audio' Hrun; cbn [compile_clips] in Hrun.
  { by injection Hrun as <- <- <-. }
  rewrite filter_cons. destruct (skipped c) eqn:Hs; [rewrite decide_False by done; by eapply IH|]. rewrite decide_True by done.
  apply bind_ok in Hrun as (e & He & Hrun). apply or_fail_ok in He. cbn [map sweep clip_place].
  destruct (starts_after last (clip_TrackID c) (tr_Start (clip_TimelineRange c))); [|discriminate Hrun]. cbn [negb] in Hrun. rewrite He. cbn [time_or_zero].
  destruct (pt_Type _); try discriminate Hrun; by eapply IH.
Qed.

Lemma check_captions_sweep `{Platform} tracks sequenceID captions : forall last duration required duration' required',
  check_captions tracks sequenceID captions last duration required = Ok (duration', required') ->
  sweep (map caption_place (filter live_caption captions)) last duration = Some duration' /\
  Forall (fun c => caption_ready tracks sequenceID c = true) (filter live_caption captions) /\
  required' = required || negb (bool_decide (filter live_caption captions = [])).
Proof.
  induction captions as [|c rest IH]; intros last duration required duration' required' Hrun; cbn [check_captions] in Hrun.
  { injection Hrun as <- <-. split; [done|]. split; [constructor|]. by rewrite orb_false_r. }
  rewrite filter_cons. destruct (caption_Tombstoned c) eqn:Hs;
    [rewrite decide_False by (unfold live_caption; congruence); by eapply IH|]. rewrite decide_True by done.
  destruct (caption_ready tracks sequenceID c) eqn:Hr; [|discriminate Hrun]. cbn [negb] in Hrun.
  apply bind_ok in Hrun as (e & He & Hrun). apply or_fail_ok in He. cbn [map sweep caption_place].
  destruct (starts_after last (caption_TrackID c) (tr_Start (caption_Range c))); [|discriminate Hrun]. cbn [negb] in Hrun. rewrite He. cbn [time_or_zero].
  destruct (IH _ _ _ _ _ Hrun) as (H1 & H2 & ->). split; [exact H1|]. split; [by constructor|].
  rewrite (bool_decide_eq_false_2 (c :: _ = [])) by done. by rewrite orb_true_r.
Qed.

(** Every instruction follows the one before it. *)
Fixpoint chained {T} `{LayeredInstruction T} (previous : option T) (l : list T) : bool :=
  match l with [] => true | x :: rest => renderInstructionOrdered previous x && chained (Some x) rest end.

Lemma publish_loop_sweep {T} `{LayeredInstruction T} check uses (l : list T) : forall previous last duration used,
  Forall (fun x => check x = true) l -> chained previous l = true ->
  publish_loop check uses l previous last duration used =
    match sweep (map instruction_place l) last duration with
    | Some duration' => Ok (duration', used ∪ ⋃ (map uses l))
    | None => Fail ErrRenderPlanInvalid
    end.
Proof.
  induction l as [|x rest IH]; intros previous last duration used Hc Ho; cbn [publish_loop map sweep].
  { cbn. by rewrite (right_id_L ∅ (∪)). }
  apply Forall_cons in Hc as [Hx Hc]. cbn [chained] in Ho. apply andb_true_iff in Ho as [Ho Hch]. rewrite Hx, Ho. cbn [negb orb].
  unfold instruction_place at 1. destruct (starts_after _ _ _); [|done]. cbn [negb]. rewrite IH by done. by rewrite union_step.
Qed.

(** ** Two lanes out of one walk *)

Lemma later_unique a b m : rt_valid a -> rt_valid b -> (rt_Q a <= rt_Q m)%Q -> (rt_Q b <= rt_Q m)%Q -> m = a \/ m = b ->
  laterRenderTime a b = m.
Proof.
  intros Va Vb Ha Hb Hm. destruct (laterRenderTime_max a b Va Vb) as (Vl & L1 & L2 & L3).
  assert (Vm : rt_valid m) by (destruct Hm as [->| ->]; assumption). apply rt_valid_unique; [exact Vl|exact Vm|].
  apply Qle_antisym; [destruct L3 as [->| ->]; assumption|destruct Hm as [->| ->]; assumption].
Qed.

Lemma later_comm a b : rt_valid a -> rt_valid b -> laterRenderTime a b = laterRenderTime b a.
Proof. intros Va Vb. destruct (laterRenderTime_max b a Vb Va) as (_ & L1 & L2 & L3). apply later_unique; [exact Va|exact Vb|exact L2|exact L1|destruct L3; auto]. Qed.

Lemma later_assoc a b c : rt_valid a -> rt_valid b -> rt_valid c ->
  laterRenderTime (laterRenderTime a b) c = laterRenderTime a (laterRenderTime b c).
Proof.
  intros Va Vb Vc. destruct (laterRenderTime_max a b Va Vb) as (Vab & A1 & A2 & A3), (laterRenderTime_max b c Vb Vc) as (Vbc & B1 & B2 & B3).
  destruct (laterRenderTime_max a _ Va Vbc) as (Vm & M1 & M2 & M3). apply later_unique; [exact Vab|exact Vc| | |].
  - destruct A3 as [->| ->]; lra.
  - lra.
  - destruct M3 as [M|M]; [left|destruct B3 as [B|B]; [left|right]].
    + rewrite M. rewrite M in M2. symmetry. apply later_unique; [exact Va|exact Vb|lra|lra|left; reflexivity].
    + rewrite M, B. rewrite M, B in M1. symmetry. apply later_unique; [exact Va|exact Vb|lra|lra|right; reflexivity].
    + rewrite M. exact B.
Qed.

Lemma sweep_split (P : string -> bool) places : forall last last1 last2 d1 d2 dc,
  Forall (fun p => rt_valid (time_or_zero (End p.2))) places -> rt_valid d1 -> rt_valid d2 ->
  (forall track, P track = true -> last1 !! track = last !! track) -> (forall track, P track = false -> last2 !! track = last !! track) ->
  sweep places last (laterRenderTime d1 d2) = Some dc ->
  exists dv da, sweep (filter (fun p => P p.1 = true) places) last1 d1 = Some dv /\
    sweep (filter (fun p => P p.1 = false) places) last2 d2 = Some da /\ dc = laterRenderTime dv da.
Proof.
  induction places as [|[track range] rest IH]; intros last last1 last2 d1 d2 dc Hv V1 V2 A1 A2 Hrun; cbn [sweep] in Hrun.
  { injection Hrun as <-. by exists d1, d2. }
  apply Forall_cons in Hv as [Ve Hv]. cbn [snd] in Ve. destruct (starts_after last track (tr_Start range)) eqn:Hs; [|done].
  set (e := time_or_zero (End range)) in *. rewrite !filter_cons. cbn [fst].
  assert (Hstart : forall l, l !! track = last !! track -> starts_after l track (tr_Start range) = true)
    by (intros l El; unfold starts_after in *; by rewrite El).
  assert (Hins : forall (l : gmap string RationalTime) x, l !! x = last !! x -> <[track := e]> l !! x = <[track := e]> last !! x).
  { intros l x El. destruct (decide (x = track)) as [->|Hne]; [by rewrite !lookup_insert_eq|by rewrite !lookup_insert_ne by congruence]. }
  assert (Hout : forall (l : gmap string RationalTime) x, x <> track -> l !! x = last !! x -> l !! x = <[track := e]> last !! x)
    by (intros l x Hne El; by rewrite lookup_insert_ne by congruence).
  destruct (P track) eqn:HP.
  - rewrite decide_True, decide_False by done. cbn [sweep]. rewrite Hstart by (by apply A1).
    apply (IH (<[track := e]> last) (<[track := e]> last1) last2 (laterRenderTime d1 e) d2 dc); [exact Hv|apply render_later_valid; assumption|exact V2|..].
    + intros x Hx. by apply Hins, A1.
    + intros x Hx. apply Hout; [congruence|by apply A2].
    + rewrite later_assoc, (later_comm e d2), <- later_assoc by assumption. exact Hrun.
  - rewrite decide_False, decide_True by done. cbn [sweep]. rewrite Hstart by (by apply A2).
    apply (IH (<[track := e]> last) last1 (<[track := e]> last2) d1 (laterRenderTime d2 e) dc); [exact Hv|exact V1|apply render_later_valid; assumption|..].
    + intros x Hx. apply Hout; [congruence|by apply A1].
    + intros x Hx. by apply Hins, A2.
    + rewrite <- later_assoc by assumption. exact Hrun.
Qed.
