(* ===== verification/RenderAccept.v ===== *)
(** The compiler against the contract: whatever the compiler assembles, the
    contract accepts, but for what only the contract checks: the bounds of
    placements and the facts about input artifacts. *)
From stdpp Require Import base list strings gmap sorting.
From Stdlib Require Import ZArith QArith Lia Lqa Ascii.
From S2P Require Import Prelude GoText Exact Identity Canonical EditModel Timeline EditState.
From S2P Require Import EditNarrative EditCaptions EditTranscript EditDerive EditValidate EditNormalize EditRanges.
From S2P Require Import Project RenderContract RenderPlan RenderSchedule RenderCompile RenderSweep.
Open Scope Z_scope.

(** ** Tracks *)

Definition track_key (rk : renderTrack) : string := pt_OrderKey (rk_state rk).

(** The tracks of a plan: named, of a known type, and layered in the order of their keys *)
Record tracks_layered (tracks : gmap string renderTrack) : Prop := mkLayered {
  layered_named : forall id rk, tracks !! id = Some rk -> pt_ID (rk_state rk) = id /\ id <> "" /\ pt_Revision (rk_state rk) <> 0;
  layered_order : forall id1 id2 rk1 rk2, tracks !! id1 = Some rk1 -> tracks !! id2 = Some rk2 ->
    pt_Type (rk_state rk1) = pt_Type (rk_state rk2) -> str_ltb (track_key rk1) (track_key rk2) = true -> rk_layer rk1 < rk_layer rk2;
  layered_keys : forall id1 id2 rk1 rk2, tracks !! id1 = Some rk1 -> tracks !! id2 = Some rk2 -> track_key rk1 = track_key rk2 -> id1 = id2 }.

Lemma str_lt_of_le x y : str_le x y -> x <> y -> str_ltb x y = true.
Proof. intros Hle Hne. apply not_false_iff_true. intros Hf. apply Hne. by apply (anti_symm str_le). Qed.

Lemma str_le_lt_trans x y z : str_le x y -> str_ltb y z = true -> str_ltb x z = true.
Proof.
  intros Hle Hlt. destruct (decide (x = y)) as [->|Hne]; [done|]. unfold str_ltb in *.
  eapply bytes_ltb_trans; [|exact Hlt]. by apply str_lt_of_le.
Qed.

Lemma key2_le_major {A} (major minor : A -> string) x y : key2_le major minor x y -> str_le (major x) (major y).
Proof. intros [Hlt|[-> _]]; unfold str_le; [by apply str_ltb_antisym|apply bytes_ltb_irrefl]. Qed.

Lemma place_tracks_layered ordered : forall result layers previous tracks,
  StronglySorted (key2_le pt_OrderKey pt_ID) ordered -> Forall (fun t => str_le previous (pt_OrderKey t)) ordered ->
  tracks_layered result ->
  (forall id rk, result !! id = Some rk -> rk_layer rk < layers (pt_Type (rk_state rk)) /\ str_le (track_key rk) previous) ->
  place_tracks ordered result layers previous = Ok tracks -> tracks_layered tracks.
Proof.
  induction ordered as [|t rest IH]; intros result layers previous tracks Hs Hp [N O K] Hl Hrun; cbn [place_tracks] in Hrun.
  { by injection Hrun as <-. }
  destruct (_ || _) eqn:Hg in Hrun; [discriminate Hrun|]. case_bool_decide as Hdup; [discriminate Hrun|].
  destruct (_ =? _) in Hrun; [discriminate Hrun|]. bool_prop. apply StronglySorted_inv in Hs as [Hs Hle]. apply Forall_cons in Hp as [Hpt Hp].
  assert (Hlt : str_ltb previous (pt_OrderKey t) = true) by (apply str_lt_of_le; [done|congruence]).
  assert (Hnew : forall id rk, result !! id = Some rk -> str_ltb (track_key rk) (pt_OrderKey t) = true /\ pt_OrderKey t <> track_key rk).
  { intros id rk Hrk. destruct (Hl _ _ Hrk) as [_ Hk]. pose proof (str_le_lt_trans _ _ _ Hk Hlt) as Hx. split; [done|].
    intros Heq. rewrite Heq in Hx. unfold str_ltb in Hx. by rewrite bytes_ltb_irrefl in Hx. }
  eapply IH; [exact Hs|eapply Forall_impl; [exact Hle|]; intros x Hx; by eapply key2_le_major| | |exact Hrun].
  - split.
    + intros id rk [[<- <-]|[Hne Hrk]]%lookup_insert_Some; [|by eapply N]. split; [done|]. unfold IsZero in *. bool_prop. done.
    + intros id1 id2 rk1 rk2 [[<- <-]|[Hn1 G1]]%lookup_insert_Some [[<- <-]|[Hn2 G2]]%lookup_insert_Some Hty Hk.
      * unfold str_ltb in Hk. by rewrite bytes_ltb_irrefl in Hk.
      * destruct (Hnew _ _ G2) as [Hx _]. apply str_ltb_antisym in Hx. unfold track_key in *. cbn in *. congruence.
      * cbn. destruct (Hl _ _ G1) as [Hx _]. by rewrite Hty in Hx.
      * by eapply O.
    + intros id1 id2 rk1 rk2 [[<- <-]|[Hn1 G1]]%lookup_insert_Some [[<- <-]|[Hn2 G2]]%lookup_insert_Some Hk; [done|..|by eapply K].
      * destruct (Hnew _ _ G2) as [_ Hx]. done.
      * destruct (Hnew _ _ G1) as [_ Hx]. by symmetry in Hk.
  - intros id rk [[<- <-]|[Hne Hrk]]%lookup_insert_Some; cbn.
    + rewrite decide_True by done. split; [lia|]. unfold str_le. apply bytes_ltb_irrefl.
    + destruct (Hl _ _ Hrk) as [Hx Hk]. split; [|unfold str_le; by apply str_ltb_antisym, Hnew with id].
      case_decide as Hty; [|done]. rewrite <- Hty. lia.
Qed.

Lemma normalizeRenderTracks_layered source tracks : normalizeRenderTracks source = Ok tracks -> tracks_layered tracks.
Proof.
  unfold normalizeRenderTracks. apply place_tracks_layered.
  - apply StronglySorted_merge_sort; apply _.
  - apply Forall_forall. intros t _. unfold str_le, str_ltb. by destruct (bytes_of (pt_OrderKey t)).
  - by split; intros; exfalso; match goal with H : ∅ !! _ = Some _ |- _ => by apply lookup_empty_Some in H end.
  - by intros id rk ?%lookup_empty_Some.
Qed.

(** ** The order of instructions *)

(** By key, then by start, then by identity *)
Definition order3 (x y : string * RationalTime * string) : Prop :=
  let '(k1, s1, i1) := x in let '(k2, s2, i2) := y in
  str_ltb k1 k2 = true \/ (k1 = k2 /\ ((rt_Q s1 < rt_Q s2)%Q \/ (s1 = s2 /\ str_le i1 i2))).

#[export] Instance order3_trans : Transitive order3.
Proof.
  intros [[k1 s1] i1] [[k2 s2] i2] [[k3 s3] i3]. unfold order3.
  intros [G1|[-> G1]] [G2|[<- G2]]; [left; unfold str_ltb in *; by eapply bytes_ltb_trans|by left|by left|].
  right. split; [reflexivity|]. destruct G1 as [G1|[-> G1]], G2 as [G2|[<- G2]]; [left; lra|left; exact G1|left; exact G2|].
  right. split; [reflexivity|]. by etrans.
Qed.

Lemma compare_antisym a b : cmp_or_zero (RationalTime_Compare a b) = - cmp_or_zero (RationalTime_Compare b a).
Proof.
  unfold RationalTime_Compare. destruct (rt_validate_total a) as [-> | ->], (rt_validate_total b) as [-> | ->]; cbn; try reflexivity.
  unfold big_cmp. rewrite (Z.compare_antisym (rt_Value b * rt_Scale a)). by destruct (_ ?= _).
Qed.

Lemma render_less_asym tracks t1 t2 s1 s2 i1 i2 :
  render_less tracks t1 t2 s1 s2 i1 i2 = true -> render_less tracks t2 t1 s2 s1 i2 i1 = false.
Proof.
  unfold render_less. rewrite (compare_antisym s2 s1). set (c := cmp_or_zero _).
  set (k1 := pt_OrderKey _). set (k2 := pt_OrderKey _). case_bool_decide as Hk; case_bool_decide as Hk'; try congruence; cbn [negb].
  - destruct (Z.eqb_spec c 0), (Z.eqb_spec (- c) 0); cbn [negb]; try lia. apply str_ltb_antisym.
  - apply str_ltb_antisym.
Qed.

Lemma render_less_order tracks t1 t2 s1 s2 i1 i2 : rt_valid s1 -> rt_valid s2 -> render_less tracks t2 t1 s2 s1 i2 i1 = false ->
  order3 (track_key (track_at tracks t1), s1, i1) (track_key (track_at tracks t2), s2, i2).
Proof.
  intros V1 V2. unfold render_less, order3, track_key. case_bool_decide as Hk; cbn [negb].
  - rewrite Hk. destruct (Compare_valid s2 s1 V2 V1) as (c & -> & _ & He & Hg). cbn [cmp_or_zero].
    destruct (Z.eqb_spec c 0) as [Hc|Hc]; cbn [negb].
    + intros Hi. right. split; [done|]. right. split; [symmetry; by apply He|exact Hi].
    + rewrite Z.ltb_ge. intros Hle. right. split; [done|]. left. apply Hg. lia.
  - intros Hf. left. apply str_lt_of_le; [exact Hf|congruence].
Qed.

Lemma sorted_impl {A} (R S : A -> A -> Prop) (P : A -> Prop) l :
  Sorted R l -> Forall P l -> (forall x y, P x -> P y -> R x y -> S x y) -> Sorted S l.
Proof.
  intros Hs Hp Himp. induction Hs as [|x l Hs IH Hd]; [constructor|]. apply Forall_cons in Hp as [Px Pl]. constructor; [by apply IH|].
  destruct Hd as [|y l Hxy]; constructor. apply Forall_cons in Pl as [Py _]. by apply Himp.
Qed.

Lemma strongly_filter {A} (R : A -> A -> Prop) (P : A -> Prop) `{forall x, Decision (P x)} l :
  StronglySorted R l -> StronglySorted R (filter P l).
Proof.
  induction 1 as [|x l Hs IH Hf]; [constructor|]. rewrite filter_cons. case_decide; [|exact IH]. constructor; [exact IH|].
  rewrite Forall_forall in *. intros y [_ Hy]%list_elem_of_filter. by apply Hf.
Qed.

Lemma strongly_impl {A} (R S : A -> A -> Prop) (P : A -> Prop) l :
  StronglySorted R l -> Forall P l -> NoDup l -> (forall x y, P x -> P y -> x <> y -> R x y -> S x y) -> StronglySorted S l.
Proof.
  intros Hs. induction Hs as [|x l Hs IH Hf]; intros Hp Hn Himp; [constructor|]. apply Forall_cons in Hp as [Px Pl].
  apply NoDup_cons in Hn as [Hx Hn]. constructor; [by apply IH|]. rewrite Forall_forall in *. intros y Hy.
  apply Himp; [done|by apply Pl| |by apply Hf]. intros ->. done.
Qed.

(** Sorting by the order of the compiler *)
Lemma sort_slice_order {A} (less : A -> A -> bool) (f : A -> string * RationalTime * string) (P : A -> Prop) l :
  (forall x y, less x y = true -> less y x = false) -> (forall x y, P x -> P y -> less y x = false -> order3 (f x) (f y)) ->
  Forall P l -> StronglySorted (fun x y => order3 (f x) (f y)) (sort_slice less l).
Proof.
  intros Hasym Hord Hp. apply Sorted_StronglySorted; [intros x y z; apply transitivity|].
  eapply (sorted_impl (not_after less) _ P).
  - apply Sorted_merge_sort. intros x y. unfold not_after. destruct (less y x) eqn:E; [right; by apply Hasym|by left].
  - unfold sort_slice. by rewrite merge_sort_Permutation.
  - intros x y Px Py Hr. by apply Hord.
Qed.

Lemma sort_slice_perm {A} (less : A -> A -> bool) (l : list A) : sort_slice less l ≡ₚ l.
Proof. apply merge_sort_Permutation. Qed.

(** Two instructions of a lane are in the order of the contract. *)
Lemma order3_instruction {T} `{LayeredInstruction T} tracks (x y : T) t1 t2 rk1 rk2 s1 s2 i1 i2 : tracks_layered tracks ->
  tracks !! t1 = Some rk1 -> tracks !! t2 = Some rk2 -> pt_Type (rk_state rk1) = pt_Type (rk_state rk2) ->
  rt_valid s1 -> rt_valid s2 -> i1 <> i2 ->
  renderInstructionOrder x = (rk_layer rk1, s1, i1) -> renderInstructionOrder y = (rk_layer rk2, s2, i2) ->
  order3 (track_key rk1, s1, i1) (track_key rk2, s2, i2) -> renderInstructionOrdered (Some x) y = true.
Proof.
  intros [_ O K] H1 H2 Hty V1 V2 Hne Ex Ey. unfold renderInstructionOrdered. rewrite Ex, Ey. intros [Hk|[Hk Hs]].
  - pose proof (O _ _ _ _ H1 H2 Hty Hk). destruct (Z.eqb_spec (rk_layer rk1) (rk_layer rk2)); [lia|]. cbn. lia.
  - pose proof (K _ _ _ _ H1 H2 Hk) as ->. rewrite H1 in H2. injection H2 as <-. rewrite Z.eqb_refl. cbn [negb].
    destruct (Compare_valid s1 s2 V1 V2) as (c & -> & Hl & He & _). destruct Hs as [Hs|[Hs Hi]].
    + apply Hl in Hs. apply orb_true_iff. left. by apply Z.ltb_lt.
    + apply He in Hs as ->. cbn. by apply str_lt_of_le.
Qed.

Lemma chained_sorted {A T} `{LayeredInstruction T} (f : A -> T) l : forall previous,
  StronglySorted (fun x y => renderInstructionOrdered (Some (f x)) (f y) = true) l ->
  (forall p x, previous = Some p -> x ∈ l -> renderInstructionOrdered (Some p) (f x) = true) -> chained previous (map f l) = true.
Proof.
  induction l as [|x l IH]; intros previous Hs Hp; [done|]. cbn. apply StronglySorted_inv in Hs as [Hs Hf]. apply andb_true_iff. split.
  - destruct previous as [p|]; [|done]. apply Hp; [done|apply list_elem_of_here].
  - apply IH; [done|]. intros p y [= <-] Hy. rewrite Forall_forall in Hf. by apply Hf.
Qed.

(** ** Clips and bindings *)

Lemma collect_clips_ok clips sequenceID tracks : forall result found, collect_clips clips sequenceID tracks result = Ok found ->
  Forall (fun c => validateRenderClipHead c sequenceID tracks = Ok tt) clips /\ NoDup (map clip_ID clips) /\
  Forall (fun c => result !! clip_ID c = None) clips /\
  (forall id c, found !! id = Some c -> result !! id = Some c \/ (c ∈ clips /\ clip_ID c = id)).
Proof.
  induction clips as [|c rest IH]; intros result found Hrun; cbn [collect_clips] in Hrun.
  { injection Hrun as <-. do 3 (split; [constructor|]). by left. }
  case_bool_decide as Hdup; [discriminate Hrun|]. cbn [orb] in Hrun.
  destruct (validateRenderClipHead c sequenceID tracks) as [[]| |] eqn:Hc; [|discriminate Hrun..]. cbn [is_ok negb] in Hrun.
  assert (Hnone : result !! clip_ID c = None) by (apply eq_None_not_Some; exact Hdup).
  destruct (IH _ _ Hrun) as (H1 & H2 & H3 & H4). rewrite Forall_forall in H3. split; [by constructor|]. split.
  { cbn. constructor; [|done]. rewrite list_elem_of_In, in_map_iff. intros (x & Hx & Hin%list_elem_of_In).
    specialize (H3 x Hin). by rewrite Hx, lookup_insert_eq in H3. }
  split.
  { constructor; [exact Hnone|]. apply Forall_forall. intros x Hx. specialize (H3 x Hx). by apply lookup_insert_None in H3 as [? _]. }
  intros id x Hx. destruct (H4 id x Hx) as [[[<- <-]|[_ Hr]]%lookup_insert_Some|[Hin Hid]]; [right; split; [apply list_elem_of_here|done]|by left|].
  right. split; [by apply list_elem_of_further|done].
Qed.

(** A binding that was validated for a live clip *)
Definition bound_clip (assets : gmap string RenderAssetSnapshot) (tracks : gmap string renderTrack) (profile : string)
    (clips : gmap string ClipState) (id : string) (vb : validatedRenderBinding) : Prop :=
  exists clip asset, clips !! id = Some clip /\ skipped clip = false /\ sn_ID asset = clip_AssetID clip /\ sn_Revision asset <> 0 /\
    validateRenderBinding (vb_binding vb) clip (track_type tracks (clip_TrackID clip)) asset profile = Ok (vb_input vb).

Lemma bind_clips_ok assets tracks profile clips bindings : forall result found,
  (forall id vb, result !! id = Some vb -> bound_clip assets tracks profile clips id vb) ->
  bind_clips assets tracks profile clips bindings result = Ok found ->
  (forall id vb, found !! id = Some vb -> bound_clip assets tracks profile clips id vb) /\ (size found <= size result + length bindings)%nat.
Proof.
  induction bindings as [|b rest IH]; intros result found Hres Hrun; cbn [bind_clips] in Hrun.
  { injection Hrun as <-. split; [exact Hres|lia]. }
  apply bind_ok in Hrun as (next & Hb & Hrun). unfold bind_clip in Hb.
  destruct (clips !! bd_ClipID b) as [clip|] eqn:Hclip; [|discriminate Hb]. destruct (skipped clip) eqn:Hs; [discriminate Hb|].
  case_bool_decide; [discriminate Hb|]. destruct (assets !! clip_AssetID clip) as [asset|] eqn:Ha; [|discriminate Hb].
  destruct (_ || _) eqn:Hg in Hb; [discriminate Hb|]. apply bind_ok in Hb as (i & Hi & [= <-]). bool_prop.
  destruct (IH (<[bd_ClipID b := mkValidated b i]> result) found) as [G1 G2]; [|exact Hrun|].
  - intros id vb [[<- <-]|[Hne Hvb]]%lookup_insert_Some; [|by apply Hres]. by exists clip, asset.
  - split; [exact G1|]. cbn [length]. rewrite map_size_insert in G2. destruct (_ !! _) in G2; unfold Datatypes.id in G2; lia.
Qed.

Lemma merge_inputs_ok bindings : forall byArtifact found, merge_inputs bindings byArtifact = Ok found ->
  (forall k i, byArtifact !! k = Some i -> found !! k = Some i) /\
  (forall k b, (k, b) ∈ bindings -> found !! in_ArtifactID (vb_input b) = Some (vb_input b)) /\
  (forall k i, found !! k = Some i -> byArtifact !! k = Some i \/ (k = in_ArtifactID i /\ exists id b, (id, b) ∈ bindings /\ i = vb_input b)) /\
  (size found <= size byArtifact + length bindings)%nat.
Proof.
  induction bindings as [|[id b] rest IH]; intros byArtifact found Hrun; cbn [merge_inputs] in Hrun.
  { injection Hrun as <-. split; [done|]. split; [by intros k b ?%not_elem_of_nil|]. split; [by left|lia]. }
  set (key := in_ArtifactID (vb_input b)) in *.
  assert (Hins : merge_inputs rest (<[key := vb_input b]> byArtifact) = Ok found /\ (forall i, byArtifact !! key = Some i -> i = vb_input b)).
  { destruct (byArtifact !! key) as [previous|] eqn:Hp; [|by split]. case_bool_decide as He; [|discriminate Hrun]. split; [done|]. congruence. }
  destruct Hins as [Hrun' Hold]. destruct (IH _ _ Hrun') as (H1 & H2 & H3 & H4). split; [|split; [|split]].
  - intros k i Hi. apply H1. destruct (decide (k = key)) as [->|Hne]; [rewrite (Hold _ Hi); by rewrite lookup_insert_eq|by rewrite lookup_insert_ne by congruence].
  - intros k x [[= -> ->]|Hx]%elem_of_cons; [|by eapply H2]. apply H1. by rewrite lookup_insert_eq.
  - intros k i Hi. destruct (H3 k i Hi) as [[[<- <-]|[_ Hr]]%lookup_insert_Some|(Hk & x & y & Hin & Hy)]; [right|by left|right].
    + split; [done|]. exists id, b. split; [apply list_elem_of_here|done].
    + split; [done|]. exists x, y. split; [by apply list_elem_of_further|done].
  - cbn [length]. rewrite map_size_insert in H4. destruct (_ !! _) in H4; unfold Datatypes.id in H4; lia.
Qed.

(** ** Published inputs *)

Definition put_input (m : gmap string RenderPlanInput) (i : RenderPlanInput) : gmap string RenderPlanInput := <[in_ArtifactID i := i]> m.

Lemma published_inputs_complete profile l : forall previous result, Forall (fun i => published_input_ok profile i = true) l ->
  StronglySorted (fun x y => str_ltb (in_ArtifactID x) (in_ArtifactID y) = true) l ->
  Forall (fun i => str_ltb previous (in_ArtifactID i) = true) l ->
  published_inputs profile l previous result = Ok (fold_left put_input l result).
Proof.
  induction l as [|i l IH]; intros previous result Hok Hs Hp; [done|]. apply Forall_cons in Hok as [Hi Hok], Hp as [Hpi Hp].
  apply StronglySorted_inv in Hs as [Hs Hle]. cbn [published_inputs fold_left]. rewrite Hpi, Hi. cbn [negb orb]. by apply IH.
Qed.

Lemma fold_put_lookup l : NoDup (map in_ArtifactID l) -> forall m,
  (forall i, i ∈ l -> fold_left put_input l m !! in_ArtifactID i = Some i) /\
  (forall k, ~ k ∈ map in_ArtifactID l -> fold_left put_input l m !! k = m !! k).
Proof.
  induction l as [|i l IH]; intros Hn m; cbn [fold_left map].
  { split; [by intros i ?%not_elem_of_nil|done]. }
  cbn in Hn. apply NoDup_cons in Hn as [Hi Hn]. destruct (IH Hn (put_input m i)) as [H1 H2]. split.
  - intros x [->|Hx]%elem_of_cons; [|by apply H1]. rewrite H2 by done. unfold put_input. by rewrite lookup_insert_eq.
  - intros k Hk. rewrite not_elem_of_cons in Hk. destruct Hk as [Hki Hk]. rewrite H2 by done. unfold put_input. by rewrite lookup_insert_ne by congruence.
Qed.

Lemma strict_keys {A} (key : A -> string) l : StronglySorted (key_le key) l -> NoDup (map key l) ->
  StronglySorted (fun x y => str_ltb (key x) (key y) = true) l.
Proof.
  intros Hs. induction Hs as [|x l Hs IH Hf]; intros Hn; [constructor|]. cbn in Hn. apply NoDup_cons in Hn as [Hx Hn].
  constructor; [by apply IH|]. rewrite Forall_forall in *. intros y Hy. apply str_lt_of_le; [by apply Hf|]. intros Heq.
  apply Hx. rewrite Heq. apply list_elem_of_In, in_map, list_elem_of_In, Hy.
Qed.

Lemma empty_before s : s <> "" -> str_ltb "" s = true.
Proof. intros Hs. unfold str_ltb. cbn. destruct (bytes_of s) as [|a b] eqn:E; [|done]. exfalso. apply Hs. by apply bytes_of_inj. Qed.

(** Inputs that are sorted out of a map by artifact pass, and give that map again. *)
Lemma unique_inputs_published profile (byArtifact : gmap string RenderPlanInput) (l := sort_by in_ArtifactID (map snd (map_to_list byArtifact))) :
  (forall k i, byArtifact !! k = Some i -> k = in_ArtifactID i /\ published_input_ok profile i = true) ->
  validatePublishedRenderInputs l profile = Ok byArtifact.
Proof.
  intros Hmap. assert (Hin : forall i, i ∈ l <-> byArtifact !! in_ArtifactID i = Some i).
  { intros i. unfold l. rewrite sort_by_perm, list_elem_of_In, in_map_iff. split.
    - intros ([k x] & <- & Hx%list_elem_of_In). apply elem_of_map_to_list in Hx. by destruct (Hmap _ _ Hx) as [-> _].
    - intros Hi. exists (in_ArtifactID i, i). split; [done|]. by apply list_elem_of_In, elem_of_map_to_list. }
  assert (Hkeys : NoDup (map in_ArtifactID l)).
  { unfold l. rewrite (sort_by_perm in_ArtifactID). rewrite map_map.
    replace (map (fun x : string * RenderPlanInput => in_ArtifactID x.2) (map_to_list byArtifact)) with (map fst (map_to_list byArtifact)).
    - apply NoDup_fst_map_to_list.
    - apply map_ext_in. intros [k x] Hx%list_elem_of_In%elem_of_map_to_list. by destruct (Hmap _ _ Hx) as [-> _]. }
  assert (Hok : Forall (fun i => published_input_ok profile i = true) l)
    by (apply Forall_forall; intros i Hi%Hin; by destruct (Hmap _ _ Hi)).
  unfold validatePublishedRenderInputs. rewrite published_inputs_complete; [|exact Hok|apply strict_keys; [apply sort_by_sorted|exact Hkeys]|].
  2:{ eapply Forall_impl; [exact Hok|]. intros i Hi. apply empty_before. unfold published_input_ok, IsZero in Hi. bool_prop. done. }
  f_equal. apply map_eq. intros k. destruct (fold_put_lookup l Hkeys ∅) as [H1 H2]. destruct (decide (k ∈ map in_ArtifactID l)) as [Hk|Hk].
  - rewrite list_elem_of_In, in_map_iff in Hk. destruct Hk as (i & <- & Hi%list_elem_of_In). rewrite (H1 i Hi). symmetry. by apply Hin.
  - rewrite H2 by done. rewrite lookup_empty. destruct (byArtifact !! k) as [i|] eqn:Hi; [|done]. exfalso. apply Hk.
    destruct (Hmap _ _ Hi) as [-> _]. apply list_elem_of_In, in_map, list_elem_of_In, Hin, Hi.
Qed.

(** ** Lanes of the compiler *)

(** The times of an input fit their Go types; removed captions have a start too. *)
Record input_typed (input : CompileRenderPlanInput) : Prop := mkInputTyped {
  typed_clips : Forall (fun c => range_typed (clip_SourceRange c) /\ range_typed (clip_TimelineRange c)) (ci_Clips input);
  typed_captions : Forall (fun c => range_typed (caption_Range c) /\ rt_valid (tr_Start (caption_Range c))) (ci_Captions input);
  typed_caption_ids : NoDup (map caption_ID (ci_Captions input)) }.

Section lanes.
Context (input : CompileRenderPlanInput) (profile : string) (tracks : gmap string renderTrack) (bindings : gmap string validatedRenderBinding)
  (byArtifact : gmap string RenderPlanInput).
Hypothesis Htyped : input_typed input.
Hypothesis Htracks : tracks_layered tracks.
Hypothesis Hbind : normalizeRenderBindings input tracks profile = Ok bindings.
Hypothesis Hmerge : merge_inputs (map_to_list bindings) ∅ = Ok byArtifact.

(** A clip whose head was validated *)
Record clip_ready (c : ClipState) : Prop := mkReady {
  ready_ids : clip_ID c <> "" /\ clip_Revision c <> 0;
  ready_track : exists rk, tracks !! clip_TrackID c = Some rk;
  ready_type : track_type tracks (clip_TrackID c) = TrackVideo \/ track_type tracks (clip_TrackID c) = TrackAudio;
  ready_source : validatePositiveRange (clip_SourceRange c) false = Ok tt;
  ready_timeline : validatePositiveRange (clip_TimelineRange c) true = Ok tt;
  ready_length : same_length (clip_SourceRange c) (clip_TimelineRange c) = true }.

Lemma clip_head_ready c sequenceID : validateRenderClipHead c sequenceID tracks = Ok tt -> clip_ready c.
Proof.
  unfold validateRenderClipHead. intros Hc. outcome_inv. bool_prop. unfold IsZero in *. bool_prop.
  destruct (validatePositiveRange (clip_SourceRange c) false) as [[]| |] eqn:E1; [|discriminate..].
  destruct (validatePositiveRange (clip_TimelineRange c) true) as [[]| |] eqn:E2; [|discriminate..].
  split; [split; assumption|assumption| |exact E1|exact E2|].
  - unfold track_type. match goal with HT : _ && _ = false |- _ => apply andb_false_iff in HT as [HT|HT]; bool_prop; auto end.
  - unfold same_length. match goal with HC : RationalTime_Compare _ _ = Ok _ |- _ => rewrite HC end. by apply Z.eqb_eq.
Qed.

Lemma clips_ready : Forall clip_ready (ci_Clips input) /\ NoDup (map clip_ID (ci_Clips input)).
Proof.
  unfold normalizeRenderBindings in Hbind. apply bind_ok in Hbind as (clips & Hc & _).
  destruct (collect_clips_ok _ _ _ _ _ Hc) as (H1 & H2 & _). split; [|exact H2].
  eapply Forall_impl; [exact H1|]. intros c Hx. exact (clip_head_ready _ _ Hx).
Qed.

Lemma clip_same_id c d : c ∈ ci_Clips input -> d ∈ ci_Clips input -> clip_ID c = clip_ID d -> c = d.
Proof.
  intros Hc Hd He. destruct clips_ready as [_ Hn]. apply list_elem_of_lookup in Hc as [i Hi], Hd as [j Hj].
  assert (i = j) as ->; [|congruence]. eapply (NoDup_lookup _ i j (clip_ID c) Hn); rewrite list_lookup_fmap; [by rewrite Hi|by rewrite Hj, He].
Qed.

(** Every live clip is bound to an input that carries its stream. *)
Lemma clip_bound c : c ∈ ci_Clips input -> skipped c = false -> exists vb,
  bindings !! clip_ID c = Some vb /\ bound_artifact bindings (clip_ID c) = in_ArtifactID (vb_input vb) /\
  byArtifact !! in_ArtifactID (vb_input vb) = Some (vb_input vb) /\
  (track_type tracks (clip_TrackID c) = TrackVideo -> exists v, in_Video (vb_input vb) = Some v /\ vi_SourceStreamID v = clip_SourceStreamID c) /\
  (track_type tracks (clip_TrackID c) = TrackAudio -> exists a, in_Audio (vb_input vb) = Some a /\ ai_SourceStreamID a = clip_SourceStreamID c).
Proof.
  intros Hin Hs. pose proof Hbind as HB. unfold normalizeRenderBindings in HB. apply bind_ok in HB as (clips & Hc & Hb). apply bind_ok in Hb as (found & Hf & Hall).
  destruct (forallb _ _) eqn:Hforall in Hall; [|discriminate Hall]. injection Hall as ->.
  rewrite forallb_forall in Hforall. specialize (Hforall c (proj1 (list_elem_of_In _ _) Hin)). rewrite Hs in Hforall. cbn [orb] in Hforall.
  bool_prop. destruct Hforall as [vb Hvb]. exists vb. split; [exact Hvb|]. split; [unfold bound_artifact; by rewrite Hvb|].
  destruct (merge_inputs_ok _ _ _ Hmerge) as (_ & M & _). split; [by eapply M, elem_of_map_to_list|].
  destruct (bind_clips_ok _ _ _ _ _ _ _ ltac:(by intros ? ? ?%lookup_empty_Some) Hf) as [B _].
  destruct (B _ _ Hvb) as (clip & asset & Hclip & _ & _ & _ & Hv).
  destruct (collect_clips_ok _ _ _ _ _ Hc) as (_ & _ & _ & C). destruct (C _ _ Hclip) as [?%lookup_empty_Some|[Hin' Hid]]; [done|].
  pose proof (clip_same_id _ _ Hin' Hin Hid) as ->. unfold validateRenderBinding in Hv. destruct (_ || _) in Hv; [discriminate Hv|].
  apply bind_ok in Hv as (i & _ & Hv). destruct (_ || _) eqn:Hg in Hv; [discriminate Hv|]. injection Hv as ->.
  apply orb_false_iff in Hg as [Gv Ga]. split; intros Hty; rewrite Hty in *.
  - rewrite bool_decide_eq_true_2 in Gv by done. cbn [andb] in Gv. apply negb_false_iff in Gv. unfold pointer_is in Gv.
    destruct (in_Video (vb_input vb)) as [v|]; [|done]. exists v. by bool_prop.
  - rewrite (bool_decide_eq_true_2 (TrackAudio = TrackAudio)) in Ga by done. cbn [andb] in Ga. apply negb_false_iff in Ga. unfold pointer_is in Ga.
    destruct (in_Audio (vb_input vb)) as [a|]; [|done]. exists a. by bool_prop.
Qed.

(** The clips in the order of the compiler *)
Definition ordered_clips : list ClipState := sort_slice (renderClipLess tracks) (ci_Clips input).

Lemma ordered_in c : c ∈ ordered_clips <-> c ∈ ci_Clips input.
Proof. unfold ordered_clips. by rewrite sort_slice_perm. Qed.

Lemma clip_times c : c ∈ ci_Clips input -> range_ok (clip_TimelineRange c) /\ rt_valid (tr_Start (clip_TimelineRange c)).
Proof.
  intros Hin. destruct clips_ready as [Hr _]. rewrite Forall_forall in Hr. pose proof (ready_timeline _ (Hr c Hin)) as Ht.
  destruct Htyped as [Hc _ _]. rewrite Forall_forall in Hc. destruct (Hc c Hin) as [_ Tt].
  destruct (validatePositiveRange_ok _ _ Tt Ht) as [Hok _]. split; [exact Hok|exact (proj1 Hok)].
Qed.

Lemma ordered_sorted : StronglySorted (fun c d =>
  order3 (track_key (track_at tracks (clip_TrackID c)), tr_Start (clip_TimelineRange c), clip_ID c)
         (track_key (track_at tracks (clip_TrackID d)), tr_Start (clip_TimelineRange d), clip_ID d)) ordered_clips.
Proof.
  apply (sort_slice_order _ (fun c => (track_key (track_at tracks (clip_TrackID c)), tr_Start (clip_TimelineRange c), clip_ID c))
           (fun c => rt_valid (tr_Start (clip_TimelineRange c)))).
  - intros c d. apply render_less_asym.
  - intros c d Vc Vd. unfold renderClipLess. by apply render_less_order.
  - apply Forall_forall. intros c Hc. exact (proj2 (clip_times c Hc)).
Qed.

(** Clips of one type are in the order of the contract, whatever instruction they become. *)
Lemma lane_chained {T} `{LayeredInstruction T} (f : ClipState -> T) (type : TrackType) :
  (forall c, renderInstructionOrder (f c) = (rk_layer (track_at tracks (clip_TrackID c)), tr_Start (clip_TimelineRange c), clip_ID c)) ->
  chained None (map f (filter (plays_on tracks type) ordered_clips)) = true.
Proof.
  intros Hf. apply chained_sorted; [|done].
  eapply (strongly_impl _ _ (fun c => c ∈ ci_Clips input /\ plays_on tracks type c)); [apply strongly_filter, ordered_sorted| | |].
  - apply Forall_forall. intros c [Hp Hc]%list_elem_of_filter. split; [by apply ordered_in|exact Hp].
  - apply NoDup_filter. unfold ordered_clips. rewrite sort_slice_perm. destruct clips_ready as [_ Hn]. by eapply NoDup_fmap_1.
  - intros c d [Hc [_ Pc]] [Hd [_ Pd]] Hne Ho. destruct clips_ready as [Hr _]. rewrite Forall_forall in Hr.
    destruct (ready_track _ (Hr c Hc)) as [rc Erc], (ready_track _ (Hr d Hd)) as [rd Erd].
    unfold track_type, track_at in Pc, Pd. rewrite Erc in Pc. rewrite Erd in Pd. cbn in Pc, Pd.
    eapply (order3_instruction tracks (f c) (f d) _ _ rc rd (tr_Start (clip_TimelineRange c)) (tr_Start (clip_TimelineRange d)) (clip_ID c) (clip_ID d));
      [exact Htracks|exact Erc|exact Erd|congruence|exact (proj2 (clip_times c Hc))|exact (proj2 (clip_times d Hd))| | | |].
    + intros He. apply Hne. by apply clip_same_id.
    + rewrite Hf. unfold track_at. by rewrite Erc.
    + rewrite Hf. unfold track_at. by rewrite Erd.
    + unfold track_at in Ho. rewrite Erc, Erd in Ho. exact Ho.
Qed.

Lemma clip_track c : c ∈ ci_Clips input -> clip_TrackID c <> "" /\ pt_Revision (rk_state (track_at tracks (clip_TrackID c))) <> 0.
Proof.
  intros Hc. destruct clips_ready as [Hr _]. rewrite Forall_forall in Hr. destruct (ready_track _ (Hr c Hc)) as [rk Erk].
  destruct (layered_named _ Htracks _ _ Erk) as (_ & Hn & Hv). split; [exact Hn|]. unfold track_at. by rewrite Erk.
Qed.

Hypothesis Hplacements : forall c, c ∈ ci_Clips input -> plays_on tracks TrackVideo c -> validateRenderPlacement (renderPlacementForClip c) = Ok tt.

Lemma video_accepted : Forall (fun v => published_video_ok byArtifact v = true)
  (map (video_of tracks bindings) (filter (plays_on tracks TrackVideo) ordered_clips)).
Proof.
  apply Forall_forall. intros v (c & -> & [Hp Hin]%list_elem_of_filter)%list_elem_of_fmap. apply ordered_in in Hin.
  destruct (clip_bound c Hin (proj1 Hp)) as (vb & _ & Ha & Hi & Hv & _). destruct (Hv (proj2 Hp)) as (video & Ev & Es).
  destruct clips_ready as [Hr _]. rewrite Forall_forall in Hr. destruct (Hr c Hin) as [[R1 R2] _ _ R4 R5 R6]. destruct (clip_track c Hin) as [T1 T2].
  unfold published_video_ok, video_of, IsZero. cbn. rewrite Ha, Hi, Ev, R4, R5, R6, (Hplacements c Hin Hp).
  rewrite !bool_decide_eq_false_2, (proj2 (Z.eqb_neq _ _) R2), (proj2 (Z.eqb_neq _ _) T2), !bool_decide_eq_true_2 by done. done.
Qed.

Lemma audio_accepted : Forall (fun a => published_audio_ok byArtifact a = true)
  (map (audio_of tracks bindings) (filter (plays_on tracks TrackAudio) ordered_clips)).
Proof.
  apply Forall_forall. intros v (c & -> & [Hp Hin]%list_elem_of_filter)%list_elem_of_fmap. apply ordered_in in Hin.
  destruct (clip_bound c Hin (proj1 Hp)) as (vb & _ & Ha & Hi & _ & Hv). destruct (Hv (proj2 Hp)) as (audio & Ev & Es).
  destruct clips_ready as [Hr _]. rewrite Forall_forall in Hr. destruct (Hr c Hin) as [[R1 R2] _ _ R4 R5 R6]. destruct (clip_track c Hin) as [T1 T2].
  unfold published_audio_ok, audio_of, IsZero. cbn. rewrite Ha, Hi, Ev, R4, R5, R6.
  rewrite !bool_decide_eq_false_2, (proj2 (Z.eqb_neq _ _) R2), (proj2 (Z.eqb_neq _ _) T2), !bool_decide_eq_true_2 by done. done.
Qed.

Lemma sweep_valid places : forall last duration duration', Forall (fun p : place => rt_valid (time_or_zero (End p.2))) places -> rt_valid duration ->
  sweep places last duration = Some duration' -> rt_valid duration'.
Proof.
  induction places as [|[track range] rest IH]; intros last duration duration' Hv Vd Hrun; cbn [sweep] in Hrun; [by injection Hrun as <-|].
  apply Forall_cons in Hv as [Ve Hv]. destruct (starts_after _ _ _); [|discriminate Hrun].
  eapply IH; [exact Hv| |exact Hrun]. apply render_later_valid; assumption.
Qed.

Lemma lane_places (type : TrackType) (P : string -> bool) (b : bool) l : (forall c, c ∈ l -> P (clip_TrackID c) = b <-> track_type tracks (clip_TrackID c) = type) ->
  filter (fun p : place => P p.1 = b) (map clip_place (filter (fun c => skipped c = false) l)) = map clip_place (filter (plays_on tracks type) l).
Proof.
  induction l as [|c l IH]; intros Hp; [done|]. specialize (IH (fun x Hx => Hp x (list_elem_of_further _ _ _ Hx))).
  specialize (Hp c (list_elem_of_here _ _)). rewrite !filter_cons. destruct (skipped c) eqn:Hs.
  - rewrite decide_False by done. rewrite decide_False by (intros [? _]; congruence). exact IH.
  - rewrite decide_True by done. cbn [map]. rewrite filter_cons. cbn [fst clip_place]. destruct (decide (P (clip_TrackID c) = b)) as [HP|HP].
    + rewrite decide_True by (split; [done|by apply Hp]). cbn [map]. by rewrite IH.
    + rewrite decide_False by (intros [_ Hx]; by apply HP, Hp). exact IH.
Qed.

Lemma lanes_swept dc video audio : compile_clips tracks bindings ordered_clips ∅ zero_start [] [] = Ok (dc, video, audio) ->
  exists dv da,
    sweep (map instruction_place (map (video_of tracks bindings) (filter (plays_on tracks TrackVideo) ordered_clips))) ∅ zero_start = Some dv /\
    sweep (map instruction_place (map (audio_of tracks bindings) (filter (plays_on tracks TrackAudio) ordered_clips))) ∅ zero_start = Some da /\
    dc = laterRenderTime dv da /\ rt_valid dv /\ rt_valid da.
Proof.
  intros Hrun%compile_clips_sweep. rewrite !map_map.
  change (map (fun c => instruction_place (video_of tracks bindings c))) with (map clip_place).
  change (map (fun c => instruction_place (audio_of tracks bindings c))) with (map clip_place).
  pose (P := fun id => bool_decide (track_type tracks id = TrackVideo)).
  destruct clips_ready as [Hready _]. rewrite Forall_forall in Hready.
  assert (Hends : forall l, (forall c, c ∈ l -> c ∈ ci_Clips input) -> Forall (fun p : place => rt_valid (time_or_zero (End p.2))) (map clip_place l)).
  { intros l Hl. apply Forall_forall. intros p (c & -> & Hc)%list_elem_of_fmap. apply range_ok_stop, clip_times, Hl, Hc. }
  change zero_start with (laterRenderTime zero_start zero_start) in Hrun.
  edestruct (sweep_split P) as (dv & da & Hv & Ha & Hd); [|exact zero_start_valid|exact zero_start_valid| | |exact Hrun|];
    [|intros; reflexivity|intros; reflexivity|].
  { apply Hends. intros c [_ Hc]%list_elem_of_filter. by apply ordered_in. }
  rewrite (lane_places TrackVideo P true) in Hv by (intros c _; unfold P; by rewrite bool_decide_eq_true).
  rewrite (lane_places TrackAudio P false) in Ha.
  2:{ intros c Hc%ordered_in. unfold P. rewrite bool_decide_eq_false. destruct (ready_type _ (Hready c Hc)) as [->| ->]; split; congruence. }
  exists dv, da. split; [exact Hv|]. split; [exact Ha|]. split; [exact Hd|].
  split; (eapply sweep_valid; [|exact zero_start_valid|eassumption]); apply Hends; intros c [_ Hc]%list_elem_of_filter; by apply ordered_in.
Qed.

Lemma binding_clip id vb : bindings !! id = Some vb -> exists c, c ∈ ci_Clips input /\ clip_ID c = id /\ skipped c = false.
Proof.
  intros Hvb. pose proof Hbind as HB. unfold normalizeRenderBindings in HB. apply bind_ok in HB as (clips & Hc & Hb).
  apply bind_ok in Hb as (found & Hf & Hall). destruct (forallb _ _) in Hall; [|discriminate Hall]. injection Hall as ->.
  destruct (bind_clips_ok _ _ _ _ _ _ _ ltac:(by intros ? ? ?%lookup_empty_Some) Hf) as [B _].
  destruct (B _ _ Hvb) as (c & asset & Hclip & Hs & _). destruct (collect_clips_ok _ _ _ _ _ Hc) as (_ & _ & _ & C).
  destruct (C _ _ Hclip) as [?%lookup_empty_Some|[Hin Hid]]; [done|]. by exists c.
Qed.

(** The lanes use every input, and no other. *)
Lemma inputs_used :
  (∅ ∪ ⋃ (map (fun v => {[rv_InputArtifactID v]}) (map (video_of tracks bindings) (filter (plays_on tracks TrackVideo) ordered_clips)))) ∪
  ⋃ (map (fun a => {[ra_InputArtifactID a]}) (map (audio_of tracks bindings) (filter (plays_on tracks TrackAudio) ordered_clips)))
  = (dom byArtifact : gset string).
Proof.
  rewrite (left_id_L ∅ (∪)). apply set_eq. intros k. rewrite elem_of_union, !used_all, elem_of_dom.
  setoid_rewrite list_elem_of_fmap. split.
  - intros [(x & (c & -> & [Hp Hc]%list_elem_of_filter) & <-)|(x & (c & -> & [Hp Hc]%list_elem_of_filter) & <-)]; apply ordered_in in Hc;
      destruct (clip_bound c Hc (proj1 Hp)) as (vb & _ & Ha & Hi & _); cbn; rewrite Ha; by eexists.
  - intros [i Hi]. destruct (merge_inputs_ok _ _ _ Hmerge) as (_ & _ & M & _).
    destruct (M _ _ Hi) as [?%lookup_empty_Some|(-> & id & vb & Hvb%elem_of_map_to_list & ->)]; [done|].
    destruct (binding_clip _ _ Hvb) as (c & Hc & <- & Hs). destruct clips_ready as [Hr _]. rewrite Forall_forall in Hr.
    assert (Ha : bound_artifact bindings (clip_ID c) = in_ArtifactID (vb_input vb)) by (unfold bound_artifact; by rewrite Hvb).
    destruct (ready_type _ (Hr c Hc)) as [Hty|Hty]; [left|right]; eexists; (split; [exists c; split; [reflexivity|]|exact Ha]);
      apply list_elem_of_filter; (split; [by split|by apply ordered_in]).
Qed.
End lanes.

(** ** Captions *)

Lemma constant_set_size {A} (x : string) (a : A) (l : list A) : size (list_to_set (map (fun _ => x) (a :: l)) : gset string) = 1%nat.
Proof.
  replace (list_to_set (map (fun _ => x) (a :: l))) with ({[x]} : gset string); [apply size_singleton|].
  apply set_eq. intros y. rewrite elem_of_singleton, elem_of_list_to_set, list_elem_of_In, in_map_iff. split.
  - intros ->. exists a. split; [done|by left].
  - by intros (_ & <- & _).
Qed.

Section caption_lane.
Context `{Platform} (input : CompileRenderPlanInput) (tracks : gmap string renderTrack).
Hypothesis Htyped : input_typed input.
Hypothesis Htracks : tracks_layered tracks.

Definition ordered_captions : list CaptionState := sort_slice (renderCaptionLess tracks) (ci_Captions input).

Lemma caption_in c : c ∈ ordered_captions <-> c ∈ ci_Captions input.
Proof. unfold ordered_captions. by rewrite sort_slice_perm. Qed.

Lemma caption_times c : c ∈ ci_Captions input -> range_typed (caption_Range c) /\ rt_valid (tr_Start (caption_Range c)).
Proof. destruct Htyped as [_ Hc _]. rewrite Forall_forall in Hc. apply Hc. Qed.

Lemma caption_same_id c d : c ∈ ci_Captions input -> d ∈ ci_Captions input -> caption_ID c = caption_ID d -> c = d.
Proof.
  intros Hc Hd He. destruct Htyped as [_ _ Hn]. apply list_elem_of_lookup in Hc as [i Hi], Hd as [j Hj].
  assert (i = j) as ->; [|congruence]. eapply (NoDup_lookup _ i j (caption_ID c) Hn); rewrite list_lookup_fmap; [by rewrite Hi|by rewrite Hj, He].
Qed.

Lemma captions_sorted : StronglySorted (fun c d =>
  order3 (track_key (track_at tracks (caption_TrackID c)), tr_Start (caption_Range c), caption_ID c)
         (track_key (track_at tracks (caption_TrackID d)), tr_Start (caption_Range d), caption_ID d)) ordered_captions.
Proof.
  apply (sort_slice_order _ (fun c => (track_key (track_at tracks (caption_TrackID c)), tr_Start (caption_Range c), caption_ID c))
           (fun c => rt_valid (tr_Start (caption_Range c)))).
  - intros c d. apply render_less_asym.
  - intros c d Vc Vd. unfold renderCaptionLess. by apply render_less_order.
  - apply Forall_forall. intros c Hc. exact (proj2 (caption_times c Hc)).
Qed.

(** A caption that the compiler checked *)
Record caption_checked (c : CaptionState) : Prop := mkChecked {
  checked_ids : caption_ID c <> "" /\ caption_Revision c <> 0;
  checked_track : exists rk, tracks !! caption_TrackID c = Some rk /\ pt_Type (rk_state rk) = TrackCaption;
  checked_range : validatePositiveRange (caption_Range c) true = Ok tt;
  checked_text : absent (ParseCaptionLanguage (caption_Language c)) = false /\ ValidCaptionText (caption_Text c) = true }.

Lemma caption_ready_checked sequenceID c : caption_ready tracks sequenceID c = true -> caption_checked c.
Proof.
  unfold caption_ready, IsZero. intros Hc. bool_prop.
  destruct (validatePositiveRange (caption_Range c) true) as [[]| |] eqn:E; [|discriminate..].
  match goal with HS : is_Some _ |- _ => destruct HS as [rk Erk] end. unfold track_at in *. rewrite Erk in *. cbn [default] in *.
  split; [split; assumption| |exact E|split; assumption]. exists rk. split; [exact Erk|assumption].
Qed.

Lemma caption_lane_chained fontID : Forall caption_checked (filter live_caption ordered_captions) ->
  chained None (map (caption_of tracks fontID) (filter live_caption ordered_captions)) = true.
Proof.
  intros Hc. apply chained_sorted; [|done].
  eapply (strongly_impl _ _ (fun c => c ∈ ci_Captions input /\ caption_checked c)); [apply strongly_filter, captions_sorted| | |].
  - rewrite Forall_forall in Hc. apply Forall_forall. intros c Hin. split; [|by apply Hc]. apply list_elem_of_filter in Hin as [_ Hin]. by apply caption_in.
  - apply NoDup_filter. unfold ordered_captions. rewrite sort_slice_perm. destruct Htyped as [_ _ Hn]. by eapply NoDup_fmap_1.
  - intros c d [Ic Cc] [Id Cd] Hne Ho. destruct (checked_track _ Cc) as (rc & Erc & Tc), (checked_track _ Cd) as (rd & Erd & Td).
    eapply (order3_instruction tracks _ _ _ _ rc rd (tr_Start (caption_Range c)) (tr_Start (caption_Range d)) (caption_ID c) (caption_ID d));
      [exact Htracks|exact Erc|exact Erd|congruence|exact (proj2 (caption_times c Ic))|exact (proj2 (caption_times d Id))| | | |].
    + intros He. apply Hne. by apply caption_same_id.
    + cbn. unfold track_at. by rewrite Erc.
    + cbn. unfold track_at. by rewrite Erd.
    + unfold track_at in Ho. rewrite Erc, Erd in Ho. exact Ho.
Qed.

Lemma default_style_ok fontID font : validateRenderCaptionStyle (defaultRenderCaptionStyle fontID) {[fontID := font]} = Ok tt.
Proof.
  unfold validateRenderCaptionStyle. cbn [cs_FontResourceID defaultRenderCaptionStyle]. rewrite lookup_singleton_eq. reflexivity.
Qed.

Lemma caption_accepted font c : caption_checked c -> published_caption_ok {[font_ResourceID font := font]} (caption_of tracks (font_ResourceID font) c) = true.
Proof.
  intros [[I1 I2] (rk & Erk & Hty) Hr [Hl Htx]]. destruct (layered_named _ Htracks _ _ Erk) as (_ & Hn & Hrev).
  unfold published_caption_ok, caption_of, IsZero. cbn [caption_instruction rc_CaptionID rc_CaptionRevision rc_TrackID rc_TrackRevision rc_Range rc_Language rc_Text rc_Style].
  rewrite Hr, Hl, Htx, default_style_ok. unfold track_at. rewrite Erk. cbn.
  by rewrite !bool_decide_eq_false_2, (proj2 (Z.eqb_neq _ _) I2), (proj2 (Z.eqb_neq _ _) Hrev) by done.
Qed.

Lemma compiled_captions duration captions fonts : compileRenderCaptions tracks input = Ok (duration, captions, fonts) ->
  exists fontMap, validatePublishedRenderFonts fonts = Ok fontMap /\ validatePublishedRenderCaptions captions fontMap = Ok duration /\
    size (list_to_set (map (fun c => cs_FontResourceID (rc_Style c)) captions) : gset string) = size fontMap /\
    (length fonts <= 1)%nat /\ (length captions <= length (ci_Captions input))%nat /\ rt_valid duration.
Proof.
  unfold compileRenderCaptions. fold ordered_captions. intros Hrun. apply bind_ok in Hrun as ([d required] & Hc & Hrun).
  pose proof Hc as Hc'. apply check_captions_valid in Hc' as (Vd & _ & _);
    [|apply Forall_forall; intros c Hin%caption_in; exact (proj1 (caption_times c Hin))|exact zero_start_valid].
  apply check_captions_sweep in Hc as (Hs & Hr & Hreq). cbn [orb] in Hreq. apply bind_ok in Hrun as (fs & Hf & Hrun).
  assert (Hlen : (length (filter live_caption ordered_captions) <= length (ci_Captions input))%nat).
  { rewrite <- (Permutation_length (sort_slice_perm (renderCaptionLess tracks) (ci_Captions input))). apply length_filter. }
  change (filter (fun c => caption_Tombstoned c = false) ordered_captions) with (filter live_caption ordered_captions) in Hrun.
  destruct (filter live_caption ordered_captions) as [|c rest] eqn:El.
  - injection Hrun as <- <- <-. rewrite Hreq in Hf. injection Hf as <-. exists ∅. cbn in Hs. injection Hs as <-.
    split; [reflexivity|]. split; [reflexivity|]. split; [by rewrite map_size_empty|]. split; [cbn; lia|]. split; [cbn; lia|exact Vd].
  - rewrite Hreq in Hf. cbn [negb] in Hf. rewrite bool_decide_eq_false_2 in Hf by done. cbn [negb] in Hf.
    destruct (ci_FontResource input) as [font|]; [|discriminate Hf]. destruct (ValidFontResource font) eqn:Hv; [|discriminate Hf].
    injection Hf as <-.
    assert (Hres : (d, map (caption_of tracks (font_ResourceID font)) (c :: rest), [font]) = (duration, captions, fonts))
      by (injection Hrun as <- <- <-; reflexivity).
    rewrite <- El in *. injection Hres as <- <- <-. exists {[font_ResourceID font := font]}.
    assert (Hch : Forall caption_checked (filter live_caption ordered_captions))
      by (eapply Forall_impl; [exact Hr|]; intros x Hx; exact (caption_ready_checked _ _ Hx)).
    assert (Hid : font_ResourceID font <> "") by (unfold ValidFontResource in Hv; intros He; by rewrite He in Hv).
    split; [|split; [|split; [|split; [cbn; lia|split; [by rewrite length_map|exact Vd]]]]].
    + unfold validatePublishedRenderFonts. cbn [published_fonts]. rewrite Hv, empty_before by done. reflexivity.
    + unfold validatePublishedRenderCaptions. rewrite publish_loop_sweep; [|rewrite Forall_map; eapply Forall_impl; [exact Hch|];
        intros x Hx; exact (caption_accepted font x Hx)|by apply caption_lane_chained].
      rewrite map_map. change (map (fun x => instruction_place (caption_of tracks (font_ResourceID font) x))) with (map caption_place).
      by rewrite Hs.
    + rewrite map_size_singleton, map_map. cbn [caption_of caption_instruction rc_Style defaultRenderCaptionStyle cs_FontResourceID].
      rewrite El. apply constant_set_size.
Qed.
End caption_lane.
