(* ===== verification/RenderSound.v ===== *)
(** The compiler as a whole: the plans it publishes are complete and scheduled,
    and the contract refuses none that the compiler can assemble from published
    inputs and bounded placements. *)
From stdpp Require Import base list strings gmap sorting.
From Stdlib Require Import ZArith QArith Lia Lqa Ascii.
From S2P Require Import Prelude GoText Exact Identity Canonical EditModel Timeline EditState EditNarrative EditCaptions EditTranscript EditDerive EditValidate EditNormalize.
From S2P Require Import EditNormalize EditRanges EditRequests Project RenderContract RenderPlan RenderSchedule RenderCompile RenderSweep RenderAccept.
Open Scope Z_scope.

Lemma Compare_same t : rt_valid t -> RationalTime_Compare t t = Ok 0.
Proof. intros V. destruct (Compare_valid t t V V) as (c & Hc & _ & He & _). rewrite Hc. f_equal. by apply He. Qed.

Section assembly.
Context `{Platform}.

(** The steps of [compileSequenceRenderPlan] before the plan is validated *)
Record assembly (input : CompileRenderPlanInput) (purpose : RenderPlanPurpose) (profile : string)
    (output : SequenceFormat -> RationalTime -> outcome render_error RenderOutputPolicy) (plan : RenderPlanPayload)
    (tracks : gmap string renderTrack) (bindings : gmap string validatedRenderBinding) : Prop := mkAssembly {
  asm_head : validateRenderPlanHead input = Ok tt;
  asm_tracks : normalizeRenderTracks (seq_Tracks (ci_Sequence input)) = Ok tracks;
  asm_bindings : normalizeRenderBindings input tracks profile = Ok bindings;
  asm_instructions : compileRenderInstructions tracks input bindings =
    Ok (pp_Duration plan, pp_Video plan, pp_Audio plan, pp_Captions plan, pp_FontResources plan);
  asm_positive : IsPositive (pp_Duration plan) = true;
  asm_inputs : uniqueRenderInputs bindings = Ok (pp_Inputs plan);
  asm_output : output (seq_Format (ci_Sequence input)) (pp_Duration plan) = Ok (pp_Output plan);
  asm_fields : plan = mkPlan RenderPlanCompilerV4 purpose (ci_ProjectID input) (seq_ID (ci_Sequence input)) (seq_Revision (ci_Sequence input))
    (seq_Format (ci_Sequence input)) (pp_Duration plan) (pp_Inputs plan) (pp_Video plan) (pp_Audio plan) (pp_Captions plan)
    (pp_FontResources plan) (pp_Output plan) }.

Lemma compile_assembles input purpose profile output validate compiled :
  compileSequenceRenderPlan input purpose profile output validate = Ok compiled ->
  let plan := plan_Payload (cp_Plan compiled) in
  validate plan = Ok tt /\ exists tracks bindings, assembly input purpose profile output plan tracks bindings.
Proof.
  unfold compileSequenceRenderPlan. intros Hc. apply bind_ok in Hc as ([] & Hhead & Hc). apply bind_ok in Hc as (tracks & Ht & Hc).
  apply bind_ok in Hc as (bindings & Hb & Hc). apply bind_ok in Hc as ([[[[d video] audio] captions] fonts] & Hi & Hc).
  apply bind_ok in Hc as ([] & Hp & Hc). apply guard_or_ok in Hp. apply bind_ok in Hc as (inputs & Hin & Hc).
  apply bind_ok in Hc as (out & Ho & Hc). apply bind_ok in Hc as ([] & Hv & Hc). apply bind_ok in Hc as (payload & _ & Hc).
  apply bind_ok in Hc as ([canonical digest] & _ & [= <-]). cbn. split; [exact Hv|]. exists tracks, bindings. by split.
Qed.

Section accepted.
Context (input : CompileRenderPlanInput) (purpose : RenderPlanPurpose) (profile : string)
  (output : SequenceFormat -> RationalTime -> outcome render_error RenderOutputPolicy) (plan : RenderPlanPayload)
  (tracks : gmap string renderTrack) (bindings : gmap string validatedRenderBinding).
Hypothesis Htyped : input_typed input.
Hypothesis Hasm : assembly input purpose profile output plan tracks bindings.

(** The lanes are the live clips and captions, in order. *)
Lemma assembled_lanes : exists byArtifact dc d3 fontMap dv da,
  merge_inputs (map_to_list bindings) ∅ = Ok byArtifact /\ pp_Inputs plan = sort_by in_ArtifactID (map snd (map_to_list byArtifact)) /\
  pp_Video plan = map (video_of tracks bindings) (filter (plays_on tracks TrackVideo) (ordered_clips input tracks)) /\
  pp_Audio plan = map (audio_of tracks bindings) (filter (plays_on tracks TrackAudio) (ordered_clips input tracks)) /\
  compileRenderCaptions tracks input = Ok (d3, pp_Captions plan, pp_FontResources plan) /\
  sweep (map instruction_place (pp_Video plan)) ∅ zero_start = Some dv /\ sweep (map instruction_place (pp_Audio plan)) ∅ zero_start = Some da /\
  dc = laterRenderTime dv da /\ rt_valid dv /\ rt_valid da /\ rt_valid d3 /\ pp_Duration plan = laterRenderTime dc d3 /\
  validatePublishedRenderFonts (pp_FontResources plan) = Ok fontMap /\ validatePublishedRenderCaptions (pp_Captions plan) fontMap = Ok d3 /\
  size (list_to_set (map (fun c => cs_FontResourceID (rc_Style c)) (pp_Captions plan)) : gset string) = size fontMap /\
  (length (pp_FontResources plan) <= 1)%nat /\ (length (pp_Captions plan) <= length (ci_Captions input))%nat.
Proof.
  destruct Hasm as [Hhead Ht Hb Hi Hp Hin Ho _]. pose proof (normalizeRenderTracks_layered _ _ Ht) as Hl.
  unfold compileRenderInstructions in Hi. fold (ordered_clips input tracks) in Hi.
  apply bind_ok in Hi as ([[dc video] audio] & Hcl & Hi). apply bind_ok in Hi as ([[d3 captions] fonts] & Hcap & Hi).
  injection Hi as Ed Ev Ea Ec Ef. subst video audio captions fonts.
  unfold uniqueRenderInputs in Hin. apply bind_ok in Hin as (byArtifact & Hm & [= Hin]).
  destruct (lanes_swept input profile tracks bindings Htyped Hb dc _ _ Hcl) as (dv & da & Hv & Ha & Hd & Vv & Va).
  destruct (compiled_captions input tracks Htyped Hl _ _ _ Hcap) as (fontMap & F1 & F2 & F3 & F4 & F5 & V3).
  apply compile_clips_lanes in Hcl as (_ & Hvideo & Haudio);
    [|apply Forall_forall; intros c Hc%ordered_in; destruct Htyped as [Hx _ _]; rewrite Forall_forall in Hx; exact (proj2 (Hx c Hc))|exact zero_start_valid].
  exists byArtifact, dc, d3, fontMap, dv, da. cbn in Hvideo, Haudio. rewrite Hvideo, Haudio.
  repeat (split; [first [exact Hm | symmetry; exact Hin | reflexivity | exact Hcap | exact Hv | exact Ha | exact Hd | exact Vv | exact Va | exact V3
    | symmetry; exact Ed | exact F1 | exact F2 | exact F3 | exact F4]|]). exact F5.
Qed.

Lemma bindings_size : (size bindings <= length (ci_Bindings input))%nat.
Proof.
  destruct Hasm as [_ _ Hb _ _ _ _ _]. unfold normalizeRenderBindings in Hb. apply bind_ok in Hb as (clips & _ & Hb).
  apply bind_ok in Hb as (found & Hf & Hall). destruct (forallb _ _) in Hall; [|discriminate Hall]. injection Hall as <-.
  destruct (bind_clips_ok _ _ _ _ _ _ _ ltac:(by intros ? ? ?%lookup_empty_Some) Hf) as [_ Hs]. by rewrite map_size_empty in Hs.
Qed.

(** What the compiler does not check and the contract does *)
Hypothesis Hplacements : forall c, c ∈ ci_Clips input -> plays_on tracks TrackVideo c -> validateRenderPlacement (renderPlacementForClip c) = Ok tt.
Hypothesis Hinputs : Forall (fun i => published_input_ok profile i = true) (pp_Inputs plan).

Lemma plan_fields : pp_CompilerVersion plan = RenderPlanCompilerV4 /\ pp_ProjectID plan = ci_ProjectID input /\
  pp_SequenceID plan = seq_ID (ci_Sequence input) /\ pp_SequenceRevision plan = seq_Revision (ci_Sequence input) /\
  pp_SequenceFormat plan = seq_Format (ci_Sequence input).
Proof. destruct Hasm as [_ _ _ _ _ _ _ Hf]. rewrite Hf. done. Qed.

Lemma plan_sizes : (length (pp_Inputs plan) <= length (ci_Bindings input))%nat /\ (length (pp_Video plan) <= length (ci_Clips input))%nat /\
  (length (pp_Audio plan) <= length (ci_Clips input))%nat /\ (length (pp_Captions plan) <= length (ci_Captions input))%nat /\
  (length (pp_FontResources plan) <= 1)%nat.
Proof.
  destruct assembled_lanes as (byArtifact & dc & d3 & fontMap & dv & da & Hm & Ein & Ev & Ea & _ & _ & _ & _ & _ & _ & _ & _ & _ & _ & _ & F4 & F5).
  assert (Hlane : forall type, (length (filter (plays_on tracks type) (ordered_clips input tracks)) <= length (ci_Clips input))%nat).
  { intros type. rewrite <- (Permutation_length (sort_slice_perm (renderClipLess tracks) (ci_Clips input))). apply length_filter. }
  rewrite Ev, Ea, !length_map. split; [|split; [apply Hlane|split; [apply Hlane|done]]].
  rewrite Ein, (Permutation_length (sort_by_perm in_ArtifactID _)), length_map, length_map_to_list.
  destruct (merge_inputs_ok _ _ _ Hm) as (_ & _ & _ & Hs). rewrite map_size_empty, length_map_to_list in Hs. pose proof bindings_size. lia.
Qed.

(** The first check of the contract repeats those of the compiler. *)
Lemma plan_head : negb (negb (bool_decide (pp_CompilerVersion plan = RenderPlanCompilerV4)) ||
    IsZero (pp_ProjectID plan) || IsZero (pp_SequenceID plan) || (pp_SequenceRevision plan =? 0) ||
    negb (is_ok (SequenceFormat_Validate (pp_SequenceFormat plan))) || negb (valid_time (pp_Duration plan)) ||
    negb (IsPositive (pp_Duration plan)) || (MaximumRenderPlanItems <? length (pp_Inputs plan))%nat ||
    (MaximumRenderPlanItems <? length (pp_Video plan))%nat || (MaximumRenderPlanItems <? length (pp_Audio plan))%nat ||
    (MaximumRenderPlanItems <? length (pp_Captions plan))%nat || (MaximumRenderPlanItems <? length (pp_FontResources plan))%nat) = true.
Proof.
  destruct assembled_lanes as (byArtifact & dc & d3 & fontMap & dv & da & _ & _ & _ & _ & _ & _ & _ & -> & Vv & Va & V3 & Ed & _).
  destruct plan_fields as (-> & -> & -> & -> & ->). destruct plan_sizes as (S1 & S2 & S3 & S4 & S5). destruct Hasm as [Hh _ _ _ Hp _ _ _].
  unfold validateRenderPlanHead in Hh. apply guard_or_ok in Hh. bool_prop. rewrite !Nat.ltb_ge in *.
  assert (Hv : valid_time (pp_Duration plan) = true).
  { rewrite Ed. pose proof (render_later_valid _ _ (render_later_valid _ _ Vv Va) V3) as [_ Hx]. unfold valid_time. by rewrite Hx. }
  assert (Hone : (1 <= MaximumRenderPlanItems)%nat) by (apply Nat.leb_le; vm_compute; reflexivity).
  rewrite bool_decide_eq_true_2, Hv, Hp by done. repeat match goal with HX : ?b = _ |- context [?b] => rewrite HX end.
  rewrite (proj2 (Z.eqb_neq _ _)) by assumption.
  rewrite !(proj2 (Nat.ltb_ge _ _)) by lia. done.
Qed.

Lemma assembled_valid : validateRenderPlanPayload plan profile output = Ok tt.
Proof.
  pose proof plan_head as Hhead. destruct plan_fields as (_ & _ & _ & _ & Ef).
  destruct assembled_lanes as (byArtifact & dc & d3 & fontMap & dv & da & Hm & Ein & Ev & Ea & _ & Sv & Sa & -> & Vv & Va & V3 & Ed & F1 & F2 & F3 & _).
  destruct Hasm as [_ Ht Hb _ _ _ Ho _]. pose proof (normalizeRenderTracks_layered _ _ Ht) as Hl.
  unfold validateRenderPlanPayload. rewrite Hhead. cbn [guard_or mbind outcome_bind]. rewrite Ef, Ho. cbn [or_fail mbind outcome_bind].
  rewrite bool_decide_eq_true_2 by done. cbn [guard_or mbind outcome_bind]. rewrite Ein, unique_inputs_published.
  2:{ intros k i Hi. destruct (merge_inputs_ok _ _ _ Hm) as (_ & _ & M & _). destruct (M _ _ Hi) as [?%lookup_empty_Some|[Hk _]]; [done|].
      split; [exact Hk|]. rewrite Forall_forall in Hinputs. apply Hinputs. rewrite Ein, sort_by_perm. apply list_elem_of_In, in_map_iff.
      exists (k, i). split; [done|]. by apply list_elem_of_In, elem_of_map_to_list. }
  cbn [mbind outcome_bind]. rewrite F1. cbn [mbind outcome_bind].
  unfold validatePublishedRenderVideo. rewrite publish_loop_sweep;
    [|rewrite Ev; eapply video_accepted; eassumption|rewrite Ev; eapply lane_chained; eauto]. rewrite Sv. cbn [mbind outcome_bind].
  unfold validatePublishedRenderAudio. rewrite publish_loop_sweep;
    [|rewrite Ea; eapply audio_accepted; eassumption|rewrite Ea; eapply lane_chained; eauto]. rewrite Sa. cbn [mbind outcome_bind].
  rewrite F2. cbn [mbind outcome_bind]. rewrite <- Ed, Compare_same by (rewrite Ed; apply render_later_valid; [apply render_later_valid|]; assumption).
  cbn [or_fail mbind outcome_bind]. rewrite F3, Ev, Ea, (inputs_used input profile tracks bindings byArtifact Hb Hm), size_dom, !Nat.eqb_refl. done.
Qed.
End accepted.
End assembly.

(** * The theorems on render plans: what the compiler publishes, when the contract
    accepts what the compiler assembles, and which placements of the editor the
    renderer can play. *)


(** ** The two kinds of plan *)

Definition plan_kind (purpose : RenderPlanPurpose) (profile : string)
    (output : SequenceFormat -> RationalTime -> outcome render_error RenderOutputPolicy) : Prop :=
  (purpose = RenderPurposeSequencePreview /\ profile = SourceProxyProfile /\ output = SequencePreviewOutput) \/
  (purpose = RenderPurposeExport /\ profile = RenderInputProfile /\ output = SequenceExportOutput).

Section sound.
Context `{Platform}.

Lemma validate_kind plan profile output : plan_kind (pp_Purpose plan) profile output ->
  ValidateRenderPlanPayload plan = validateRenderPlanPayload plan profile output.
Proof.
  unfold ValidateRenderPlanPayload, ValidateSequencePreviewRenderPlanPayload, ValidateSequenceExportRenderPlanPayload.
  by intros [(Hp & -> & ->)|(Hp & -> & ->)]; rewrite Hp; rewrite bool_decide_eq_true_2 by reflexivity.
Qed.

Lemma compile_kind input compiled : CompileSequencePreviewPlan input = Ok compiled \/ CompileSequenceExportPlan input = Ok compiled ->
  let plan := plan_Payload (cp_Plan compiled) in
  exists profile output tracks bindings, plan_kind (pp_Purpose plan) profile output /\ validateRenderPlanPayload plan profile output = Ok tt /\
    assembly input (pp_Purpose plan) profile output plan tracks bindings.
Proof.
  intros [Hc|Hc]; apply compile_assembles in Hc as (Hv & tracks & bindings & Ha); cbn zeta.
  - exists SourceProxyProfile, SequencePreviewOutput, tracks, bindings. unfold ValidateSequencePreviewRenderPlanPayload in Hv.
    destruct (negb _) eqn:E in Hv; [discriminate Hv|]. apply negb_false_iff, bool_decide_eq_true_1 in E. rewrite E. split; [by left|by split].
  - exists RenderInputProfile, SequenceExportOutput, tracks, bindings. unfold ValidateSequenceExportRenderPlanPayload in Hv.
    destruct (negb _) eqn:E in Hv; [discriminate Hv|]. apply negb_false_iff, bool_decide_eq_true_1 in E. rewrite E. split; [by right|by split].
Qed.

(** The captions of a compiled plan *)
Lemma compiled_caption_lane input tracks d captions fonts : compileRenderCaptions tracks input = Ok (d, captions, fonts) ->
  exists fontID, captions = map (caption_of tracks fontID) (filter live_caption (sort_slice (renderCaptionLess tracks) (ci_Captions input))) /\
    (captions <> [] -> exists font, ci_FontResource input = Some font /\ font_ResourceID font = fontID).
Proof.
  unfold compileRenderCaptions. intros Hrun. apply bind_ok in Hrun as ([d' required] & _ & Hrun). apply bind_ok in Hrun as (fs & _ & Hrun).
  change (filter (fun c => caption_Tombstoned c = false) (sort_slice (renderCaptionLess tracks) (ci_Captions input)))
    with (filter live_caption (sort_slice (renderCaptionLess tracks) (ci_Captions input))) in Hrun.
  destruct (filter live_caption _) as [|c rest]; [exists ""; by injection Hrun as _ <- _|].
  destruct (ci_FontResource input) as [font|]; [|discriminate Hrun]. injection Hrun as _ <- _. exists (font_ResourceID font). split; [done|].
  intros _. by exists font.
Qed.

Section kind.
Context (input : CompileRenderPlanInput) (profile : string)
  (output : SequenceFormat -> RationalTime -> outcome render_error RenderOutputPolicy) (plan : RenderPlanPayload)
  (tracks : gmap string renderTrack) (bindings : gmap string validatedRenderBinding).
Hypothesis Htyped : input_typed input.
Hypothesis Hasm : assembly input (pp_Purpose plan) profile output plan tracks bindings.

Lemma assembled_typed : plan_typed plan.
Proof.
  destruct (assembled_lanes _ _ _ _ _ _ _ Htyped Hasm) as
    (byArtifact & dc & d3 & fontMap & dv & da & _ & _ & Ev & Ea & Hcap & _ & _ & -> & Vv & Va & V3 & Ed & _).
  destruct Htyped as [Tc Ts _]. rewrite Forall_forall in Tc. rewrite Forall_forall in Ts. split.
  { rewrite Ed. exact (proj1 (render_later_valid _ _ (render_later_valid _ _ Vv Va) V3)). }
  rewrite Ev, Ea. destruct (compiled_caption_lane _ _ _ _ _ Hcap) as (fontID & -> & _).
  rewrite !Forall_map, !Forall_forall. cbn. split; [|split]; intros c [_ Hc]%list_elem_of_filter.
  - apply ordered_in in Hc. exact (proj2 (Tc c Hc)).
  - apply ordered_in in Hc. exact (proj2 (Tc c Hc)).
  - rewrite sort_slice_perm in Hc. exact (proj1 (Ts c Hc)).
Qed.

(** The lanes as multisets *)
Lemma assembled_permutation : exists fontID,
  pp_Video plan ≡ₚ map (video_of tracks bindings) (filter (plays_on tracks TrackVideo) (ci_Clips input)) /\
  pp_Audio plan ≡ₚ map (audio_of tracks bindings) (filter (plays_on tracks TrackAudio) (ci_Clips input)) /\
  pp_Captions plan ≡ₚ map (caption_of tracks fontID) (filter live_caption (ci_Captions input)) /\
  (pp_Captions plan <> [] -> exists font, ci_FontResource input = Some font /\ font_ResourceID font = fontID).
Proof.
  destruct (assembled_lanes _ _ _ _ _ _ _ Htyped Hasm) as (byArtifact & dc & d3 & fontMap & dv & da & _ & _ & Ev & Ea & Hcap & _).
  destruct (compiled_caption_lane _ _ _ _ _ Hcap) as (fontID & Ec & Hfont). exists fontID.
  rewrite Ev, Ea, Ec. unfold ordered_clips. split; [|split; [|split; [|by rewrite <- Ec]]]; by rewrite sort_slice_perm.
Qed.

(** A plan that is valid has bounded placements and published inputs. *)
Lemma valid_checks : validateRenderPlanPayload plan profile output = Ok tt ->
  (forall c, c ∈ ci_Clips input -> plays_on tracks TrackVideo c -> validateRenderPlacement (renderPlacementForClip c) = Ok tt) /\
  Forall (fun i => published_input_ok profile i = true) (pp_Inputs plan).
Proof.
  intros Hv. pose proof assembled_typed as Ht.
  destruct (validated_parts plan profile output Ht Hv) as (inputs & fonts & d1 & u1 & d2 & u2 & d3 & Hi & _ & H1 & _).
  destruct Ht as (_ & Tv & _). unfold validatePublishedRenderVideo in H1.
  apply publish_loop_scheduled in H1 as (C1 & _);
    [|reflexivity|apply video_range_played|exact Tv|exact zero_start_valid|by intros ? ? ?%lookup_empty_Some|done].
  split.
  - intros c Hc Hp. rewrite Forall_forall in C1. destruct assembled_permutation as (fontID & Pv & _).
    assert (Hin : video_of tracks bindings c ∈ pp_Video plan).
    { rewrite Pv. apply list_elem_of_In, in_map, list_elem_of_In, list_elem_of_filter. by split. }
    specialize (C1 _ Hin). unfold published_video_ok in C1. cbn in C1. repeat case_match; try discriminate C1. bool_prop.
    by destruct (validateRenderPlacement (renderPlacementForClip c)) as [[]| |].
  - clear -Hi. revert Hi. unfold validatePublishedRenderInputs. generalize (∅ : gmap string RenderPlanInput).
    generalize ("" : string). induction (pp_Inputs plan) as [|i rest IH]; intros previous result Hrun; cbn [published_inputs] in Hrun; [constructor|].
    case_match eqn:E; [done|]. bool_prop. constructor; [assumption|]. by eapply IH.
Qed.
End kind.
End sound.

(** ** The sample sequence *)

Lemma show_input_typed : input_typed show_input.
Proof.
  split; [repeat constructor; vm_compute; discriminate|repeat constructor; vm_compute; (discriminate || reflexivity)|].
  vm_compute. repeat constructor. intros Hx. by apply not_elem_of_nil in Hx.
Qed.

(** a valid plan is a schedule the renderer can play.  On every lane the
    instructions are in order of layer, start and identity and no two of a track
    overlap; every instruction ends within the duration and one ends at it; every
    instruction reads a stream of a listed input, every input and every font is
    used. *)
Theorem valid_plan_schedule `{Platform} (plan : RenderPlanPayload) (Ht : plan_typed plan) (Hv : ValidateRenderPlanPayload plan = Ok tt) :
  plan_schedule plan.
Proof.
  unfold ValidateRenderPlanPayload, ValidateSequencePreviewRenderPlanPayload, ValidateSequenceExportRenderPlanPayload in Hv.
  destruct (pp_Purpose plan); [destruct (negb _) in Hv; [discriminate Hv|]..|discriminate Hv]; exact (validated_schedule _ _ _ Ht Hv).
Qed.

Lemma valid_plan_schedule_witness : exists compiled, @CompileSequencePreviewPlan sample_platform show_input = Ok compiled /\
  length (pp_Video (plan_Payload (cp_Plan compiled))) = 2%nat /\ plan_schedule (plan_Payload (cp_Plan compiled)).
Proof.
  eexists. split; [vm_compute; reflexivity|]. split; [reflexivity|].
  apply (@valid_plan_schedule sample_platform); [|vm_compute; reflexivity]. repeat constructor; vm_compute; discriminate.
Defined.

(** C29: the compiler publishes the whole sequence and nothing else.  A preview or
    export that compiles has the project, the revision and the format of its
    sequence, exactly one instruction for every clip and caption that is live, on
    the lane of its track, and a plan that satisfies the render contract, whatever
    the order in which the clips and captions are listed. *)
Theorem compiled_plan_complete `{Platform} (input : CompileRenderPlanInput) (compiled : CompiledRenderPlan) (Ht : input_typed input)
    (Hc : CompileSequencePreviewPlan input = Ok compiled \/ CompileSequenceExportPlan input = Ok compiled) :
  let plan := plan_Payload (cp_Plan compiled) in
  ValidateRenderPlanPayload plan = Ok tt /\ plan_schedule plan /\
  pp_ProjectID plan = ci_ProjectID input /\ pp_SequenceID plan = seq_ID (ci_Sequence input) /\
  pp_SequenceRevision plan = seq_Revision (ci_Sequence input) /\ pp_SequenceFormat plan = seq_Format (ci_Sequence input) /\
  exists tracks bindings fontID, normalizeRenderTracks (seq_Tracks (ci_Sequence input)) = Ok tracks /\
    pp_Video plan ≡ₚ map (video_of tracks bindings) (filter (plays_on tracks TrackVideo) (ci_Clips input)) /\
    pp_Audio plan ≡ₚ map (audio_of tracks bindings) (filter (plays_on tracks TrackAudio) (ci_Clips input)) /\
    pp_Captions plan ≡ₚ map (caption_of tracks fontID) (filter live_caption (ci_Captions input)).
Proof.
  apply compile_kind in Hc as (profile & output & tracks & bindings & Hk & Hv & Ha). intros plan. fold plan in Hk, Hv, Ha.
  destruct (plan_fields _ _ _ _ _ _ _ Ha) as (_ & F1 & F2 & F3 & F4). destruct (assembled_permutation _ _ _ _ _ _ Ht Ha) as (fontID & P1 & P2 & P3 & _).
  split; [by rewrite (validate_kind _ _ _ Hk)|]. split; [exact (validated_schedule _ _ _ (assembled_typed _ _ _ _ _ _ Ht Ha) Hv)|].
  do 4 (split; [assumption|]). exists tracks, bindings, fontID. split; [exact (asm_tracks _ _ _ _ _ _ _ Ha)|]. done.
Qed.

Lemma compiled_plan_complete_witness : exists compiled, @CompileSequencePreviewPlan sample_platform show_input = Ok compiled /\
  @ValidateRenderPlanPayload sample_platform (plan_Payload (cp_Plan compiled)) = Ok tt.
Proof.
  eexists. split; [vm_compute; reflexivity|].
  eapply (@compiled_plan_complete sample_platform show_input); [exact show_input_typed|left; vm_compute; reflexivity].
Defined.

(** C28: the contract refuses no plan of the compiler but for two reasons.  What the
    compiler assembles from a sequence is accepted exactly when every placement it
    plays is within the renderer's bounds and every input is a published artifact
    of the profile: order, overlaps, sizes, durations, output, use of inputs and
    fonts, and the fields of every instruction never fail. *)
Theorem contract_accepts_assembled `{Platform} (input : CompileRenderPlanInput) (profile : string)
    (output : SequenceFormat -> RationalTime -> outcome render_error RenderOutputPolicy) (plan : RenderPlanPayload)
    (tracks : gmap string renderTrack) (bindings : gmap string validatedRenderBinding)
    (Ht : input_typed input) (Hk : plan_kind (pp_Purpose plan) profile output)
    (Ha : assembly input (pp_Purpose plan) profile output plan tracks bindings) :
  ValidateRenderPlanPayload plan = Ok tt <->
  (forall c, c ∈ ci_Clips input -> plays_on tracks TrackVideo c -> validateRenderPlacement (renderPlacementForClip c) = Ok tt) /\
  Forall (fun i => published_input_ok profile i = true) (pp_Inputs plan).
Proof.
  rewrite (validate_kind _ _ _ Hk). split; [exact (valid_checks _ _ _ _ _ _ Ht Ha)|].
  intros [Hp Hi]. by eapply assembled_valid.
Qed.

Lemma contract_accepts_assembled_witness : exists compiled tracks bindings, @CompileSequencePreviewPlan sample_platform show_input = Ok compiled /\
  assembly (H := sample_platform) show_input RenderPurposeSequencePreview SourceProxyProfile SequencePreviewOutput (plan_Payload (cp_Plan compiled)) tracks bindings /\
  Forall (fun i => published_input_ok SourceProxyProfile i = true) (pp_Inputs (plan_Payload (cp_Plan compiled))).
Proof.
  destruct (@CompileSequencePreviewPlan sample_platform show_input) as [compiled| |] eqn:E; [|vm_compute in E; discriminate E..].
  pose proof E as E'. apply (@compile_assembles sample_platform) in E as (Hv & tracks & bindings & Ha). exists compiled, tracks, bindings.
  assert (Hp : pp_Purpose (plan_Payload (cp_Plan compiled)) = RenderPurposeSequencePreview) by (rewrite (asm_fields _ _ _ _ _ _ _ Ha); reflexivity).
  split; [reflexivity|]. split; [exact Ha|].
  eapply (@contract_accepts_assembled sample_platform show_input SourceProxyProfile SequencePreviewOutput); [exact show_input_typed| | |].
  - left. exact (conj Hp (conj eq_refl eq_refl)).
  - rewrite Hp. exact Ha.
  - unfold ValidateRenderPlanPayload. rewrite Hp. exact Hv.
Defined.

(** ** Placements *)

(** The comparisons of the contract, with the bounds it computes *)
Lemma compare_whole e n : er_typed e -> er_reduced e -> is_ok (ExactRational_Validate (mkExact n 1)) = true ->
  exists c, ExactRational_Compare e (mkExact n 1) = Ok c /\ (c < 0 <-> (er_Q e < inject_Z n)%Q) /\ (0 < c <-> (inject_Z n < er_Q e)%Q).
Proof.
  intros Ht Hr Hn. pose proof (proj2 (er_validate_reduced e Ht) Hr) as He. unfold ExactRational_Compare.
  destruct (ExactRational_Validate e) as [[]| |]; try discriminate He. destruct (ExactRational_Validate (mkExact n 1)) as [[]| |]; try discriminate Hn.
  cbn [mbind outcome_bind er_Scale er_Value]. eexists. split; [reflexivity|]. destruct Hr as [Hp _]. unfold big_cmp, er_Q, inject_Z, Qlt. cbn.
  rewrite Z2Pos.id by exact Hp. destruct (Z.compare_spec (er_Value e * 1) (n * er_Scale e)); lia.
Qed.

Lemma render_scale_spec e : er_typed e -> placement_scale_ok e = true -> (render_scale_ok e = true <-> (er_Q e <= 64)%Q).
Proof.
  intros Ht Hs. apply placement_scale_spec in Hs as (Hr & Hp & _); [|exact Ht]. unfold render_scale_ok.
  replace (exact_or_zero (NewExactRational 64 1)) with (mkExact 64 1) by (vm_compute; reflexivity).
  destruct (compare_whole e 64 Ht Hr ltac:(vm_compute; reflexivity)) as (c & -> & _ & Hg).
  assert (Hpos : er_IsPositive e = true).
  { unfold er_IsPositive, er_Q, Qlt in *. cbn in Hp. apply Z.ltb_lt. lia. }
  rewrite Hpos, orb_false_r, negb_true_iff, Z.ltb_ge. change (inject_Z 64) with (64 # 1)%Q in Hg.
  destruct (Qlt_le_dec (64 # 1) (er_Q e)) as [Hx|Hx]; [apply Hg in Hx as Hc; split; [lia|intros Hy; lra]|].
  split; [done|]. intros _. destruct (Z.lt_ge_cases 0 c) as [Hc|Hc]; [apply Hg in Hc; lra|exact Hc].
Qed.

Lemma render_translation_spec e : er_typed e -> placement_translate_ok e = true -> render_translation_ok e = true.
Proof.
  intros Ht Hs. apply placement_translate_spec in Hs as (Hr & Hl & Hu); [|exact Ht]. unfold render_translation_ok.
  replace (exact_or_zero (NewExactRational (-16) 1)) with (mkExact (-16) 1) by (vm_compute; reflexivity).
  replace (exact_or_zero (NewExactRational 16 1)) with (mkExact 16 1) by (vm_compute; reflexivity).
  destruct (compare_whole e (-16) Ht Hr ltac:(vm_compute; reflexivity)) as (c & -> & Hc & _).
  destruct (compare_whole e 16 Ht Hr ltac:(vm_compute; reflexivity)) as (c' & -> & _ & Hc').
  rewrite andb_true_iff, !negb_true_iff, !Z.ltb_ge. change (inject_Z (-16)) with ((-16) # 1)%Q in Hc. change (inject_Z 16) with (16 # 1)%Q in Hc'.
  split; apply Z.nlt_ge; intros Hx; [apply Hc in Hx|apply Hc' in Hx]; lra.
Qed.

(** The track of a sequence is found under its identity. *)
Lemma place_tracks_found ordered : forall result layers previous tracks, place_tracks ordered result layers previous = Ok tracks ->
  (forall id rk, result !! id = Some rk -> tracks !! id = Some rk) /\
  (forall t, t ∈ ordered -> exists rk, tracks !! pt_ID t = Some rk /\ rk_state rk = t).
Proof.
  induction ordered as [|t rest IH]; intros result layers previous tracks Hrun; cbn [place_tracks] in Hrun.
  { injection Hrun as <-. split; [done|]. by intros t ?%elem_of_nil. }
  destruct (_ || _) in Hrun; [discriminate Hrun|]. case_bool_decide as Hdup; [discriminate Hrun|]. destruct (_ =? _) in Hrun; [discriminate Hrun|].
  apply IH in Hrun as [Hkeep Hfound]. split.
  - intros id rk Hr. apply Hkeep. rewrite lookup_insert_ne; [done|]. intros <-. apply Hdup. by exists rk.
  - intros x [->|Hx]%elem_of_cons; [|by apply Hfound]. eexists. split; [apply Hkeep, lookup_insert_eq|done].
Qed.

Lemma normalized_track source tracks t : normalizeRenderTracks source = Ok tracks -> t ∈ source -> rk_state (track_at tracks (pt_ID t)) = t.
Proof.
  intros [_ Hf]%place_tracks_found Ht. destruct (Hf t) as (rk & Hrk & Hs); [unfold sort_by2; by rewrite merge_sort_Permutation|].
  unfold track_at. by rewrite Hrk.
Qed.

Lemma accepted_placement_plays (clip : ClipState) (p : ClipPlacement) : clip_Placement clip = Some p -> placement_typed p -> ClipPlacement_Validate p = Ok tt ->
  validateRenderPlacement (renderPlacementForClip clip) = Ok tt <-> (er_Q (pl_ScaleX p) <= 64)%Q /\ (er_Q (pl_ScaleY p) <= 64)%Q.
Proof.
  intros Hp Ht Ha.
  destruct Ht as (Hx & Hy & Hw & Hh & Ho & S1 & S2 & T1 & T2). unfold ClipPlacement_Validate in Ha.
  destruct (_ || _) eqn:E1 in Ha; [discriminate Ha|]. destruct (10000 <? pl_Opacity p) eqn:E2 in Ha; [discriminate Ha|].
  destruct (negb (forallb placement_scale_ok _)) eqn:E3 in Ha; [discriminate Ha|].
  destruct (negb (forallb placement_translate_ok _)) eqn:E4 in Ha; [discriminate Ha|]. clear Ha.
  cbn [forallb] in E3, E4. rewrite andb_true_r in E3, E4. apply negb_false_iff, andb_true_iff in E3 as [X1 X2].
  apply negb_false_iff, andb_true_iff in E4 as [X3 X4].
  rewrite <- (render_scale_spec _ S1 X1), <- (render_scale_spec _ S2 X2), <- andb_true_iff.
  pose proof (render_translation_spec _ T1 X3) as Y1. pose proof (render_translation_spec _ T2 X4) as Y2.
  apply placement_scale_spec in X1 as [R1%(er_validate_reduced _ S1) _]; [|exact S1]. apply placement_scale_spec in X2 as [R2%(er_validate_reduced _ S2) _]; [|exact S2].
  apply placement_translate_spec in X3 as [R3%(er_validate_reduced _ T1) _]; [|exact T1]. apply placement_translate_spec in X4 as [R4%(er_validate_reduced _ T2) _]; [|exact T2].
  unfold validateRenderPlacement, renderPlacementForClip. rewrite Hp. cbn [rp_CropX rp_CropY rp_CropWidth rp_CropHeight rp_ScaleX rp_ScaleY
    rp_TranslateX rp_TranslateY rp_AnchorX rp_AnchorY rp_Opacity rp_FitPolicy defaultRenderPlacement forallb].
  apply orb_false_iff in E1 as [[[W1 W2]%orb_false_iff W3]%orb_false_iff W4]. apply Z.ltb_ge in W1, W2.
  rewrite (proj2 (Z.eqb_neq (pl_CropWidth p) 0)), (proj2 (Z.eqb_neq (pl_CropHeight p) 0)), W3, W4, E2, R1, R2, R3, R4, Y1, Y2, !andb_true_r by lia.
  cbn. destruct (render_scale_ok (pl_ScaleX p) && render_scale_ok (pl_ScaleY p)); cbn; split; (reflexivity || discriminate).
Qed.


(** C32: the editor admits placements that the renderer refuses.  A placement that
    an edit accepts can be played exactly when both its scales are at most 64;
    edits accept scales up to 100, and one enabled clip of a video track beyond 64
    leaves its whole sequence without a preview and without an export. *)
Theorem editor_placement_playable `{Platform} (clip : ClipState) (p : ClipPlacement) (Hp : clip_Placement clip = Some p) (Ht : placement_typed p)
    (Ha : ClipPlacement_Validate p = Ok tt) :
  (validateRenderPlacement (renderPlacementForClip clip) = Ok tt <-> (er_Q (pl_ScaleX p) <= 64)%Q /\ (er_Q (pl_ScaleY p) <= 64)%Q) /\
  forall input track, input_typed input -> clip ∈ ci_Clips input -> clip_Tombstoned clip = false -> clip_Enabled clip = true ->
    track ∈ seq_Tracks (ci_Sequence input) -> pt_ID track = clip_TrackID clip -> pt_Type track = TrackVideo ->
    (64 < er_Q (pl_ScaleX p) \/ 64 < er_Q (pl_ScaleY p))%Q ->
    is_ok (CompileSequencePreviewPlan input) = false /\ is_ok (CompileSequenceExportPlan input) = false.
Proof.
  split; [by apply accepted_placement_plays|]. intros input track Htyped Hin Hlive Hon Htrack Hid Htype Hscale.
  assert (forall compiled, ~ (CompileSequencePreviewPlan input = Ok compiled \/ CompileSequenceExportPlan input = Ok compiled)) as Hno.
  { intros compiled Hc. apply compile_kind in Hc as (profile & output & tracks & bindings & _ & Hv & Hasm).
    destruct (valid_checks _ _ _ _ _ _ Htyped Hasm Hv) as [Hplace _].
    assert (plays_on tracks TrackVideo clip) as Hplays.
    { split; [unfold skipped; by rewrite Hlive, Hon|]. unfold track_type. rewrite <- Hid, (normalized_track _ _ _ (asm_tracks _ _ _ _ _ _ _ Hasm) Htrack). done. }
    apply (accepted_placement_plays clip p Hp Ht Ha) in Hplace as [Hx Hy]; [|done..]. destruct Hscale; lra. }
  split.
  - destruct (CompileSequencePreviewPlan input) as [c| |]; [|done..]. by destruct (Hno c); left.
  - destruct (CompileSequenceExportPlan input) as [c| |]; [|done..]. by destruct (Hno c); right.
Qed.

(** Scale 80 on one clip: the edit is accepted, the sequence no longer compiles. *)
Definition wide_placement : ClipPlacement := mkPlacement 0 0 10000 10000 (mkExact 80 1) (mkExact 80 1) (mkExact 0 1) (mkExact 0 1) 10000.

Definition wide_clip : ClipState :=
  mkClip (sample_id "30") 1 (sample_id "03") (sample_id "10") (sample_id "21") (sample_id "20") (seconds 0 4) (seconds 0 4) true None
    (Some wide_placement) false.

Definition wide_input : CompileRenderPlanInput :=
  mkCompileInput (ci_ProjectID show_input) (ci_ObservedProjectRevision show_input) (ci_Sequence show_input)
    [show_clip "31" "10" "20" 4 3; wide_clip; show_clip "32" "12" "22" 0 7] (ci_Captions show_input) (ci_Assets show_input)
    (ci_Bindings show_input) (ci_FontResource show_input).

Lemma wide_input_typed : input_typed wide_input.
Proof.
  split; [repeat constructor; vm_compute; discriminate|repeat constructor; vm_compute; (discriminate || reflexivity)|].
  vm_compute. repeat constructor. intros Hx. by apply not_elem_of_nil in Hx.
Qed.

Lemma editor_placement_playable_witness :
  ClipPlacement_Validate wide_placement = Ok tt /\ validateRenderPlacement (renderPlacementForClip wide_clip) <> Ok tt /\
  is_ok (@CompileSequencePreviewPlan sample_platform wide_input) = false.
Proof.
  assert (placement_typed wide_placement) as Ht by (repeat split; vm_compute; (discriminate || reflexivity)).
  split; [vm_compute; reflexivity|].
  destruct (@editor_placement_playable sample_platform wide_clip wide_placement eq_refl Ht) as [Hplay Hcompile]; [vm_compute; reflexivity|]. split.
  - intros [Hx _]%Hplay. vm_compute in Hx. by apply Hx.
  - refine (proj1 (Hcompile wide_input (mkProjectTrack (sample_id "10") 1 TrackVideo "V1" "a0") wide_input_typed _ eq_refl eq_refl _ eq_refl eq_refl _)).
    + right. left.
    + left.
    + left. vm_compute. reflexivity.
Defined.
