(* ===== verification/DraftOverlay.v ===== *)
(** Draft overlays: [product/draftoverlay/overlay.go].  An overlay substitutes
    placements in a pinned render plan while a gesture is under way. *)
From stdpp Require Import base list strings gmap sorting.
From Stdlib Require Import ZArith QArith Lia Ascii.
From S2P Require Import Prelude GoText Exact Identity Canonical EditModel Timeline EditState.
From S2P Require Import EditNarrative EditCaptions EditTranscript EditDerive EditValidate EditNormalize Project RenderContract RenderPlan RenderCompile.
Open Scope Z_scope.

Inductive overlay_error := ErrOverlayInvalid | ErrOverlayStale.
#[export] Instance overlay_error_eq_dec : EqDecision overlay_error.
Proof. solve_decision. Defined.

Definition MaximumOverlayOperations : nat := 256.

Record ClipPlacementOperation := mkPlacementOperation { po_ClipID : string; po_ClipRevision : Z; po_Placement : RenderPlacement }.

Record Overlay := mkOverlay { ov_SequenceRevision : Z; ov_Placements : list ClipPlacementOperation }.

Definition IsEmpty (overlay : Overlay) : bool := empty (ov_Placements overlay).

(** The loop with its [seen] set *)
Fixpoint check_operations (seen : gset string) (operations : list ClipPlacementOperation) : outcome overlay_error unit :=
  match operations with
  | [] => Ok tt
  | operation :: rest =>
      if IsZero (po_ClipID operation) then Fail ErrOverlayInvalid
      else if bool_decide (po_ClipID operation ∈ seen) then Fail ErrOverlayInvalid
      else if negb (is_ok (ValidateRenderPlacement (po_Placement operation))) then Fail ErrOverlayInvalid
      else check_operations ({[po_ClipID operation]} ∪ seen) rest
  end.

Definition validateOverlay (overlay : Overlay) : outcome overlay_error unit :=
  if (MaximumOverlayOperations <? length (ov_Placements overlay))%nat then Fail ErrOverlayInvalid
  else check_operations ∅ (ov_Placements overlay).

(** [targets]: the index of the last instruction of every clip *)
Fixpoint index_clips (index : nat) (video : list RenderVideoInstruction) (targets : gmap string nat) : gmap string nat :=
  match video with
  | [] => targets
  | instruction :: rest => index_clips (S index) rest (<[rv_ClipID instruction := index]> targets)
  end.

Definition operation_current (video : list RenderVideoInstruction) (targets : gmap string nat) (operation : ClipPlacementOperation) : bool :=
  match targets !! po_ClipID operation with
  | Some index => match video !! index with Some instruction => rv_ClipRevision instruction =? po_ClipRevision operation | None => false end
  | None => false
  end.

Definition with_placement (placement : RenderPlacement) (v : RenderVideoInstruction) : RenderVideoInstruction :=
  mkVideoInstruction (rv_ClipID v) (rv_ClipRevision v) (rv_TrackID v) (rv_TrackRevision v) (rv_Layer v) (rv_InputArtifactID v)
    (rv_SourceStreamID v) (rv_SourceRange v) (rv_TimelineRange v) (rv_Orientation v) placement.

(** [applied.Video[targets[...]].Placement = ...]; a missing key would read index 0 *)
Definition place_operation (targets : gmap string nat) (video : list RenderVideoInstruction) (operation : ClipPlacementOperation)
    : list RenderVideoInstruction :=
  alter (with_placement (po_Placement operation)) (default 0%nat (targets !! po_ClipID operation)) video.

Definition with_video (plan : RenderPlanPayload) (video : list RenderVideoInstruction) : RenderPlanPayload :=
  mkPlan (pp_CompilerVersion plan) (pp_Purpose plan) (pp_ProjectID plan) (pp_SequenceID plan) (pp_SequenceRevision plan)
    (pp_SequenceFormat plan) (pp_Duration plan) (pp_Inputs plan) video (pp_Audio plan) (pp_Captions plan)
    (pp_FontResources plan) (pp_Output plan).

Definition Apply (plan : RenderPlanPayload) (overlay : Overlay) : outcome overlay_error RenderPlanPayload :=
  _ ← validateOverlay overlay;
  if IsEmpty overlay then Ok plan
  else if negb (ov_SequenceRevision overlay =? pp_SequenceRevision plan) then Fail ErrOverlayStale
  else
    let targets := index_clips 0 (pp_Video plan) ∅ in
    if negb (forallb (operation_current (pp_Video plan) targets) (ov_Placements overlay)) then Fail ErrOverlayStale
    else Ok (with_video plan (fold_left (place_operation targets) (ov_Placements overlay) (pp_Video plan))).

(** * Proofs *)

(** An instruction and what an overlay makes of it *)
Definition replaced (v v' : RenderVideoInstruction) : Prop :=
  v' = v \/ exists placement, validateRenderPlacement placement = Ok tt /\ v' = with_placement placement v.

#[export] Instance replaced_trans : Transitive replaced.
Proof. intros x y z [->|(p & Hp & ->)] [->|(q & Hq & ->)]; [by left|by right; exists q|by right; exists p|by right; exists q]. Qed.

Lemma replaced_ok inputs v v' : replaced v v' -> published_video_ok inputs v = true -> published_video_ok inputs v' = true.
Proof.
  intros [->|(p & Hp & ->)]; [done|]. unfold published_video_ok. cbn. repeat case_match; try done.
  rewrite Hp. cbn. rewrite !andb_true_iff, !negb_true_iff, !orb_false_iff. tauto.
Qed.

Lemma replaced_order v v' : replaced v v' -> renderInstructionOrder v' = renderInstructionOrder v /\
  rv_TrackID v' = rv_TrackID v /\ rv_TimelineRange v' = rv_TimelineRange v /\ rv_InputArtifactID v' = rv_InputArtifactID v.
Proof. by intros [->|(p & _ & ->)]. Qed.

Lemma publish_loop_replaced inputs l l' : Forall2 replaced l l' -> forall previous previous' lastByTrack duration used r,
  option_Forall2 replaced previous previous' ->
  publish_loop (published_video_ok inputs) (fun v => {[rv_InputArtifactID v]}) l previous lastByTrack duration used = Ok r ->
  publish_loop (published_video_ok inputs) (fun v => {[rv_InputArtifactID v]}) l' previous' lastByTrack duration used = Ok r.
Proof.
  induction 1 as [|v v' l l' Hv Hl IH]; intros previous previous' lastByTrack duration used r Hp; cbn [publish_loop]; [done|].
  destruct (published_video_ok inputs v) eqn:Hok; [|done]. rewrite (replaced_ok _ _ _ Hv Hok).
  assert (Hord : renderInstructionOrdered previous' v' = renderInstructionOrdered previous v).
  { unfold renderInstructionOrdered. destruct Hp as [p p' Hp|]; [|done].
    by rewrite (proj1 (replaced_order _ _ Hv)), (proj1 (replaced_order _ _ Hp)). }
  rewrite Hord. cbn [instruction_track instruction_range video_layered].
  destruct (replaced_order _ _ Hv) as (_ & -> & -> & ->). repeat case_match; try done. apply IH. by constructor.
Qed.

Lemma alter_replaced placement index video : validateRenderPlacement placement = Ok tt ->
  Forall2 replaced video (alter (with_placement placement) index video).
Proof.
  intros Hp. apply Forall2_same_length_lookup_2; [by rewrite length_alter|]. intros i v v' Hv.
  destruct (decide (i = index)) as [->|Hne].
  - rewrite list_lookup_alter_eq, Hv. intros [= <-]. right. by exists placement.
  - rewrite list_lookup_alter_ne, Hv by congruence. intros [= <-]. by left.
Qed.

Lemma place_operations_replaced targets operations : Forall (fun o => validateRenderPlacement (po_Placement o) = Ok tt) operations ->
  forall video, Forall2 replaced video (fold_left (place_operation targets) operations video).
Proof.
  induction 1 as [|o l Ho _ IH]; intros video; cbn [fold_left].
  - apply Forall2_same_length_lookup_2; [done|]. intros i v v' Hv Hv'. left. congruence.
  - etransitivity; [|apply IH]. by apply alter_replaced.
Qed.

Lemma check_operations_ok operations : forall seen, check_operations seen operations = Ok tt ->
  Forall (fun o => validateRenderPlacement (po_Placement o) = Ok tt) operations /\ NoDup (map po_ClipID operations) /\
  Forall (fun o => ~ po_ClipID o ∈ seen) operations.
Proof.
  induction operations as [|o l IH]; intros seen; cbn [check_operations]; [by repeat constructor|].
  case_match; [done|]. case_bool_decide as Hseen; [done|]. case_match eqn:Hp; [done|]. intros (H1 & H2 & H3)%IH. unfold ValidateRenderPlacement in Hp.
  destruct (validateRenderPlacement (po_Placement o)) as [[]| |] eqn:E; [|done|done]. split; [by constructor|]. split.
  - cbn. constructor; [|done]. rewrite list_elem_of_In, in_map_iff. intros (x & Hx & Hin%list_elem_of_In).
    rewrite Forall_forall in H3. apply (H3 x Hin). rewrite Hx. set_solver.
  - constructor; [done|]. eapply Forall_impl; [exact H3|]. cbn. set_solver.
Qed.

Section overlay.
Context `{Platform}.

(** Replacing placements by valid ones keeps a plan valid. *)
Lemma with_video_valid plan profile output video : Forall2 replaced (pp_Video plan) video ->
  validateRenderPlanPayload plan profile output = Ok tt -> validateRenderPlanPayload (with_video plan video) profile output = Ok tt.
Proof.
  intros Hr. unfold validateRenderPlanPayload. cbn [pp_CompilerVersion pp_Purpose pp_ProjectID pp_SequenceID pp_SequenceRevision pp_SequenceFormat
    pp_Duration pp_Inputs pp_Video pp_Audio pp_Captions pp_FontResources pp_Output with_video].
  rewrite <- (Forall2_length _ _ _ Hr). intros Hv. outcome_inv.
  rewrite Hs, Hs0. cbn [guard_or mbind outcome_bind or_fail]. rewrite Hs1. cbn [guard_or mbind outcome_bind]. rewrite Hs2, Hs3.
  cbn [mbind outcome_bind]. unfold validatePublishedRenderVideo in *.
  erewrite publish_loop_replaced; [exact Hk0|exact Hr|constructor|exact Hs4].
Qed.

Lemma ValidateRenderPlanPayload_with_video plan video : Forall2 replaced (pp_Video plan) video ->
  ValidateRenderPlanPayload plan = Ok tt -> ValidateRenderPlanPayload (with_video plan video) = Ok tt.
Proof.
  intros Hr. unfold ValidateRenderPlanPayload, ValidateSequencePreviewRenderPlanPayload, ValidateSequenceExportRenderPlanPayload.
  cbn [pp_Purpose with_video]. destruct (pp_Purpose plan); [| |done]; cbn [negb]; rewrite bool_decide_eq_true_2 by done; cbn [negb];
    by apply with_video_valid.
Qed.
End overlay.

(** The targets of a list of instructions *)
Lemma index_clips_sound video : forall index targets id i, index_clips index video targets !! id = Some i ->
  targets !! id = Some i \/ exists v, (index <= i)%nat /\ video !! (i - index)%nat = Some v /\ rv_ClipID v = id.
Proof.
  induction video as [|v rest IH]; intros index targets id i Hi; cbn [index_clips] in Hi; [by left|].
  destruct (IH _ _ _ _ Hi) as [Ht|(w & Hle & Hw & Hid)].
  - destruct (decide (id = rv_ClipID v)) as [->|Hne]; [|rewrite lookup_insert_ne in Ht by congruence; by left].
    rewrite lookup_insert_eq in Ht. injection Ht as <-. right. exists v. by rewrite Nat.sub_diag.
  - right. exists w. split; [lia|]. replace (i - index)%nat with (S (i - S index)) by lia. done.
Qed.

Definition targets_sound (targets : gmap string nat) (video : list RenderVideoInstruction) : Prop :=
  forall id i, targets !! id = Some i -> exists v, video !! i = Some v /\ rv_ClipID v = id.

Lemma place_operation_lookup targets video o index : targets !! po_ClipID o = Some index ->
  place_operation targets video o = alter (with_placement (po_Placement o)) index video.
Proof. unfold place_operation. by intros ->. Qed.

Lemma place_sound targets video o : targets_sound targets video -> targets_sound targets (place_operation targets video o).
Proof.
  intros Ht id i Hi. destruct (Ht id i Hi) as (v & Hv & Hid). unfold place_operation.
  destruct (decide (i = default 0%nat (targets !! po_ClipID o))) as [->|Hne].
  - exists (with_placement (po_Placement o) v). by rewrite list_lookup_alter_eq, Hv.
  - exists v. by rewrite list_lookup_alter_ne.
Qed.

(** An instruction that no operation names keeps its placement. *)
Lemma place_others targets operations i : forall video,
  (forall o, o ∈ operations -> default 0%nat (targets !! po_ClipID o) <> i) ->
  fold_left (place_operation targets) operations video !! i = video !! i.
Proof.
  induction operations as [|o l IH]; intros video Hno; cbn [fold_left]; [done|]. rewrite IH by (intros x Hx; by apply Hno, list_elem_of_further).
  unfold place_operation. apply list_lookup_alter_ne, Hno, list_elem_of_here.
Qed.

(** Every operation places its clip. *)
Lemma place_each targets operations : NoDup (map po_ClipID operations) -> forall video, targets_sound targets video ->
  Forall (fun o => is_Some (targets !! po_ClipID o)) operations ->
  forall o, o ∈ operations -> exists i v, targets !! po_ClipID o = Some i /\ video !! i = Some v /\ rv_ClipID v = po_ClipID o /\
    fold_left (place_operation targets) operations video !! i = Some (with_placement (po_Placement o) v).
Proof.
  induction operations as [|o l IH]; intros Hnd video Ht Hin x Hx; [by apply not_elem_of_nil in Hx|].
  cbn in Hnd. apply NoDup_cons in Hnd as [Hno Hnd]. apply Forall_cons in Hin as [[io Hio] Hin]. cbn [fold_left].
  assert (Hsep : forall y i, y ∈ l -> targets !! po_ClipID y = Some i -> i <> io).
  { intros y i Hy Hi ->. destruct (Ht _ _ Hi) as (v & Hv & Hid), (Ht _ _ Hio) as (w & Hw & Hid'). rewrite Hv in Hw. injection Hw as <-.
    apply Hno. rewrite <- Hid', Hid. apply list_elem_of_In, in_map, list_elem_of_In, Hy. }
  apply elem_of_cons in Hx as [->|Hx].
  - destruct (Ht _ _ Hio) as (v & Hv & Hid). exists io, v. do 3 (split; [done|]). rewrite place_others.
    + by rewrite (place_operation_lookup _ _ _ _ Hio), list_lookup_alter_eq, Hv.
    + intros y Hy. rewrite Forall_forall in Hin. destruct (Hin y Hy) as [iy Hiy]. rewrite Hiy. cbn. by eapply Hsep.
  - destruct (IH Hnd _ (place_sound _ _ o Ht) Hin x Hx) as (i & v & Hi & Hv & Hid & Hr). exists i.
    rewrite (place_operation_lookup _ _ _ _ Hio), list_lookup_alter_ne in Hv by (intros <-; by eapply (Hsep x)). by exists v.
Qed.

Lemma operations_current plan operations : forallb (operation_current (pp_Video plan) (index_clips 0 (pp_Video plan) ∅)) operations = true ->
  targets_sound (index_clips 0 (pp_Video plan) ∅) (pp_Video plan) /\
  Forall (fun o => is_Some (index_clips 0 (pp_Video plan) ∅ !! po_ClipID o)) operations.
Proof.
  intros Hc. split.
  - intros id i [?%lookup_empty_Some|(v & _ & Hv & Hid)]%index_clips_sound; [done|]. exists v. by rewrite Nat.sub_0_r in Hv.
  - rewrite forallb_forall in Hc. apply Forall_forall. intros o Ho%list_elem_of_In. specialize (Hc o Ho). unfold operation_current in Hc.
    by destruct (index_clips _ _ _ !! po_ClipID o).
Qed.

(** a draft overlay never spoils a plan.  Applying an overlay to a valid plan
    gives a valid plan that differs from it only in placements: every operation of
    the overlay places its clip, at the revision it was drafted on, and every
    instruction keeps its own placement or takes that of an operation on its clip. *)
Theorem overlay_keeps_plans_valid `{Platform} (plan plan' : RenderPlanPayload) (overlay : Overlay)
    (Hv : ValidateRenderPlanPayload plan = Ok tt) (Ha : Apply plan overlay = Ok plan') :
  ValidateRenderPlanPayload plan' = Ok tt /\ plan' = with_video plan (pp_Video plan') /\
  Forall2 replaced (pp_Video plan) (pp_Video plan') /\
  (forall o, o ∈ ov_Placements overlay -> exists i v, pp_Video plan !! i = Some v /\ rv_ClipID v = po_ClipID o /\
     rv_ClipRevision v = po_ClipRevision o /\ pp_Video plan' !! i = Some (with_placement (po_Placement o) v)) /\
  (forall i v, pp_Video plan !! i = Some v -> ~ rv_ClipID v ∈ map po_ClipID (ov_Placements overlay) -> pp_Video plan' !! i = Some v).
Proof.
  unfold Apply in Ha. apply bind_ok in Ha as ([] & Hval & Ha). unfold validateOverlay in Hval. destruct (_ <? _)%nat in Hval; [discriminate Hval|].
  apply check_operations_ok in Hval as (Hp & Hnd & _).
  assert (Hrefl : forall l, Forall2 replaced l l) by (intros l; apply Forall2_same_length_lookup_2; [done|]; intros; left; congruence).
  destruct (IsEmpty overlay) eqn:He.
  { injection Ha as <-. unfold IsEmpty in He. destruct (ov_Placements overlay); [|done].
    split; [done|]. split; [by destruct plan|]. split; [apply Hrefl|]. split; [by intros o ?%not_elem_of_nil|done]. }
  destruct (negb _) in Ha; [discriminate Ha|]. destruct (negb _) eqn:Hc in Ha; [discriminate Ha|]. injection Ha as <-. apply negb_false_iff in Hc.
  destruct (operations_current _ _ Hc) as [Ht Hin]. set (targets := index_clips 0 (pp_Video plan) ∅) in *.
  pose proof (place_operations_replaced targets _ Hp (pp_Video plan)) as Hr.
  split; [by apply ValidateRenderPlanPayload_with_video|]. split; [done|]. split; [exact Hr|]. cbn [pp_Video with_video]. split.
  - intros o Ho. destruct (place_each targets _ Hnd _ Ht Hin o Ho) as (i & v & Hi & Hvi & Hid & Hres). exists i, v.
    do 2 (split; [done|]). split; [|done]. rewrite forallb_forall in Hc. specialize (Hc o (proj1 (list_elem_of_In _ _) Ho)).
    unfold operation_current in Hc. rewrite Hi, Hvi in Hc. by apply Z.eqb_eq.
  - intros i v Hi Hno. rewrite place_others; [done|]. intros o Ho Heq. rewrite Forall_forall in Hin. destruct (Hin o Ho) as [io Hio].
    rewrite Hio in Heq. cbn in Heq. subst io. destruct (Ht _ _ Hio) as (w & Hw & Hid). rewrite Hi in Hw. injection Hw as <-.
    apply Hno. rewrite Hid. apply list_elem_of_In, in_map, list_elem_of_In, Ho.
Qed.

Definition show_draft : Overlay := mkOverlay 5 [mkPlacementOperation (sample_id "31") 1 defaultRenderPlacement].

Lemma overlay_keeps_plans_valid_witness : exists compiled plan', @CompileSequencePreviewPlan sample_platform show_input = Ok compiled /\
  Apply (plan_Payload (cp_Plan compiled)) show_draft = Ok plan' /\ @ValidateRenderPlanPayload sample_platform plan' = Ok tt.
Proof.
  destruct (@CompileSequencePreviewPlan sample_platform show_input) as [compiled| |] eqn:E; [|vm_compute in E; discriminate E..].
  vm_compute in E. injection E as E. exists compiled. eexists. split; [reflexivity|]. rewrite <- E. split; [vm_compute; reflexivity|].
  refine (proj1 (@overlay_keeps_plans_valid sample_platform (plan_Payload (cp_Plan compiled)) _ show_draft _ _));
    rewrite <- E; vm_compute; reflexivity.
Defined.
