(* ===== verification/Release.v ===== *)
(** Release versions: [internal/release/version.go].  A version is the text
    [X.Y.Z-<channel>.N]; error texts are dropped. *)
From stdpp Require Import base list strings gmap.
From Stdlib Require Import ZArith Lia Ascii.
From S2P Require Import Prelude GoText Exact Identity.
Open Scope Z_scope.

Inductive release_error := ErrInvalidVersion | ErrVersionChannel.
#[export] Instance release_error_eq_dec : EqDecision release_error.
Proof. solve_decision. Defined.

Record Version := mkVersion { v_Major : Z; v_Minor : Z; v_Patch : Z; v_Channel : string; v_Number : Z; v_raw : string }.
#[export] Instance Version_eq_dec : EqDecision Version.
Proof. solve_decision. Defined.

(** ** The pattern of a version *)

(** [0], or digits that do not start with zero *)
Definition number_matches (l : bytes) : bool :=
  match l with
  | [] => false
  | a :: rest => (Ascii.eqb a "0"%char && (length rest =? 0)%nat) || (is_digit a && negb (Ascii.eqb a "0"%char) && forallb is_digit rest)
  end.

(** [[a-z0-9](?:[a-z0-9-]*[a-z0-9])?] *)
Definition channel_rune (a : ascii) : bool := is_lower a || is_digit a.
Definition channel_matches (l : bytes) : bool :=
  match l with
  | [] => false
  | a :: rest => channel_rune a && forallb (fun c => channel_rune c || Ascii.eqb c "-"%char) rest &&
                 match last rest with Some z => channel_rune z | None => true end
  end.

(** The text up to the first separator, and the rest *)
Fixpoint break_at (sep : ascii) (l : bytes) : option (bytes * bytes) :=
  match l with
  | [] => None
  | a :: rest => if Ascii.eqb a sep then Some ([], rest)
                 else match break_at sep rest with Some (x, y) => Some (a :: x, y) | None => None end
  end.

(** The submatches of [canonicalVersionPattern]: numbers hold no dot and no
    hyphen, channels hold no dot, so each group ends at the first separator. *)
Definition version_groups (value : bytes) : option (bytes * bytes * bytes * bytes * bytes) :=
  '(major, rest) ← break_at "."%char value;
  '(minor, rest) ← break_at "."%char rest;
  '(patch, rest) ← break_at "-"%char rest;
  '(channel, number) ← break_at "."%char rest;
  if number_matches major && number_matches minor && number_matches patch && channel_matches channel && number_matches number
  then Some (major, minor, patch, channel, number) else None.

Definition parse_part (source : bytes) : outcome release_error Z :=
  match parse_uint source with Some parsed => Ok parsed | None => Fail ErrInvalidVersion end.

Definition ParseVersion (value : string) : outcome release_error Version :=
  match version_groups (bytes_of value) with
  | None => Fail ErrInvalidVersion
  | Some (g1, g2, g3, g4, g5) =>
      major ← parse_part g1; minor ← parse_part g2; patch ← parse_part g3; number ← parse_part g5;
      Ok (mkVersion major minor patch (string_of g4) number value)
  end.

Definition ParseVersionForChannel (value channel : string) : outcome release_error Version :=
  version ← ParseVersion value;
  if negb (bool_decide (v_Channel version = channel)) then Fail ErrVersionChannel else Ok version.

Definition Version_String (v : Version) : string := v_raw v.

(** The loop over the four numbers *)
Fixpoint compare_parts (ls rs : list Z) : Z :=
  match ls, rs with
  | l :: ls, r :: rs => if l <? r then -1 else if r <? l then 1 else compare_parts ls rs
  | _, _ => 0
  end.

Definition version_parts (v : Version) : list Z := [v_Major v; v_Minor v; v_Patch v; v_Number v].

Definition Version_Compare (v other : Version) : Z :=
  let parts := compare_parts (version_parts v) (version_parts other) in
  if negb (parts =? 0) then parts
  else if str_ltb (v_Channel v) (v_Channel other) then -1
  else if str_ltb (v_Channel other) (v_Channel v) then 1 else 0.

(** [fmt.Sprintf("%d.%d.%d", ...)] for the stable channel *)
Definition Display (v : Version) : string :=
  if bool_decide (v_Channel v = "stable") then format_uint (v_Major v) +:+ "." +:+ format_uint (v_Minor v) +:+ "." +:+ format_uint (v_Patch v)
  else v_raw v.

(** * Proofs *)

(** ** Texts *)

Definition version_text (v : Version) : bytes :=
  bytes_of (format_uint (v_Major v)) ++ "."%char :: bytes_of (format_uint (v_Minor v)) ++ "."%char :: bytes_of (format_uint (v_Patch v)) ++
  "-"%char :: bytes_of (v_Channel v) ++ "."%char :: bytes_of (format_uint (v_Number v)).

(** A version that [ParseVersion] can return *)
Definition version_wf (v : Version) : Prop :=
  Forall (fun n => 0 <= n < 2 ^ 64) (version_parts v) /\ channel_matches (bytes_of (v_Channel v)) = true /\ bytes_of (v_raw v) = version_text v.

Lemma break_at_spec sep l x y : break_at sep l = Some (x, y) -> l = x ++ sep :: y /\ sep ∉ x.
Proof.
  revert x y. induction l as [|a l IH]; intros x y; cbn [break_at]; [done|]. destruct (Ascii.eqb_spec a sep) as [->|Hne].
  - intros [= <- <-]. split; [done|apply not_elem_of_nil].
  - destruct (break_at sep l) as [[x' y']|]; [|done]. intros [= <- <-]. destruct (IH x' y' eq_refl) as [-> Hn]. split; [done|].
    rewrite not_elem_of_cons. by split; [congruence|].
Qed.

Lemma break_at_app sep x y : sep ∉ x -> break_at sep (x ++ sep :: y) = Some (x, y).
Proof.
  induction x as [|a x IH]; cbn [break_at app]; [by rewrite Ascii.eqb_refl|]. rewrite not_elem_of_cons. intros [Hne Hn].
  destruct (Ascii.eqb_spec a sep); [congruence|]. by rewrite IH.
Qed.

Lemma number_matches_canonical l : number_matches l = isCanonicalDecimal (string_of l) false.
Proof.
  unfold number_matches, isCanonicalDecimal. rewrite bytes_of_string_of. destruct l as [|a rest]; [done|].
  case_bool_decide as Hz.
  { apply (f_equal bytes_of) in Hz. rewrite bytes_of_string_of in Hz. cbn in Hz. by injection Hz as -> ->. }
  destruct (Ascii.eqb_spec a "0"%char) as [->|Hne].
  - destruct rest; [done|]. cbn. done.
  - cbn [andb orb negb]. rewrite andb_true_r. destruct (Ascii.eqb_spec a "-"%char) as [->|]; [by destruct rest|]. done.
Qed.

Lemma number_groups l n : number_matches l = true -> parse_uint l = Some n -> l = bytes_of (format_uint n) /\ 0 <= n < 2 ^ 64.
Proof.
  rewrite number_matches_canonical. intros Hc Hp. rewrite <- (bytes_of_string_of l) in Hp.
  destruct (canonical_uint_unique _ _ Hc Hp) as [Hs Hr]. split; [|exact Hr]. by rewrite <- Hs, bytes_of_string_of.
Qed.

Lemma number_format n : 0 <= n < 2 ^ 64 -> number_matches (bytes_of (format_uint n)) = true.
Proof. intros Hn. rewrite number_matches_canonical, string_of_bytes_of. by apply format_uint_canonical. Qed.

Lemma number_runes l a : number_matches l = true -> a ∈ l -> is_digit a = true.
Proof.
  unfold number_matches. destruct l as [|b rest]; [done|]. rewrite orb_true_iff, !andb_true_iff.
  intros [[Hb%Ascii.eqb_eq Hr]|[[Hb _] Hr]] [->|Hin]%elem_of_cons.
  - by rewrite Hb.
  - destruct rest; [by apply not_elem_of_nil in Hin|done].
  - done.
  - rewrite forallb_forall in Hr. by apply Hr, list_elem_of_In.
Qed.

Lemma channel_runes l a : channel_matches l = true -> a ∈ l -> channel_rune a || Ascii.eqb a "-"%char = true.
Proof.
  unfold channel_matches. destruct l as [|b rest]; [done|]. rewrite !andb_true_iff. intros [[Hb Hr] _] [->|Hin]%elem_of_cons; [by rewrite Hb|].
  rewrite forallb_forall in Hr. by apply Hr, list_elem_of_In.
Qed.

(** Numbers hold no separator, channels no dot. *)
Lemma number_no_sep l : number_matches l = true -> "."%char ∉ l /\ "-"%char ∉ l.
Proof. intros Hl. split; intros Hin; apply (number_runes _ _ Hl) in Hin; discriminate Hin. Qed.

Lemma channel_no_dot l : channel_matches l = true -> "."%char ∉ l.
Proof. intros Hl Hin. apply (channel_runes _ _ Hl) in Hin. discriminate Hin. Qed.

Lemma version_groups_spec value m1 m2 m3 c n : version_groups value = Some (m1, m2, m3, c, n) <->
  value = m1 ++ "."%char :: m2 ++ "."%char :: m3 ++ "-"%char :: c ++ "."%char :: n /\
  number_matches m1 = true /\ number_matches m2 = true /\ number_matches m3 = true /\ channel_matches c = true /\ number_matches n = true.
Proof.
  unfold version_groups. split.
  - intros Hv. destruct (break_at _ value) as [[x1 r1]|] eqn:E1; [|done]. cbn [mbind option_bind] in Hv.
    destruct (break_at _ r1) as [[x2 r2]|] eqn:E2; [|done]. cbn [mbind option_bind] in Hv.
    destruct (break_at _ r2) as [[x3 r3]|] eqn:E3; [|done]. cbn [mbind option_bind] in Hv.
    destruct (break_at _ r3) as [[x4 r4]|] eqn:E4; [|done]. cbn [mbind option_bind] in Hv.
    destruct (_ && _) eqn:G in Hv; [|done]. injection Hv as <- <- <- <- <-. bool_prop.
    apply break_at_spec in E1 as [-> _]. apply break_at_spec in E2 as [-> _]. apply break_at_spec in E3 as [-> _].
    apply break_at_spec in E4 as [-> _]. done.
  - intros (-> & G1 & G2 & G3 & G4 & G5).
    rewrite break_at_app by apply number_no_sep, G1. cbn [mbind option_bind]. rewrite break_at_app by apply number_no_sep, G2. cbn [mbind option_bind].
    rewrite break_at_app by apply number_no_sep, G3. cbn [mbind option_bind]. rewrite break_at_app by apply channel_no_dot, G4.
    cbn [mbind option_bind]. by rewrite G1, G2, G3, G4, G5.
Qed.

Lemma ParseVersion_wf s v : ParseVersion s = Ok v -> version_wf v /\ v_raw v = s.
Proof.
  unfold ParseVersion. destruct (version_groups (bytes_of s)) as [[[[[g1 g2] g3] g4] g5]|] eqn:E; [|done].
  apply version_groups_spec in E as (Hs & G1 & G2 & G3 & G4 & G5). unfold parse_part.
  destruct (parse_uint g1) as [n1|] eqn:P1; [|done]. destruct (parse_uint g2) as [n2|] eqn:P2; [|done].
  destruct (parse_uint g3) as [n3|] eqn:P3; [|done]. destruct (parse_uint g5) as [n5|] eqn:P5; [|done]. intros [= <-].
  destruct (number_groups _ _ G1 P1) as [-> R1], (number_groups _ _ G2 P2) as [-> R2], (number_groups _ _ G3 P3) as [-> R3],
    (number_groups _ _ G5 P5) as [-> R5]. split; [|done]. unfold version_wf, version_text, version_parts.
  cbn [v_Major v_Minor v_Patch v_Channel v_Number v_raw]. rewrite bytes_of_string_of, Hs.
  split; [do 4 (constructor; [assumption|]); constructor|]. by split.
Qed.

Lemma ParseVersion_text v : version_wf v -> ParseVersion (v_raw v) = Ok v.
Proof.
  intros (Hn & Hc & Hr). unfold version_parts in Hn. rewrite !Forall_cons in Hn. destruct Hn as (R1 & R2 & R3 & R5 & _).
  unfold ParseVersion. rewrite Hr. rewrite (proj2 (version_groups_spec _ _ _ _ _ _)) by
    (split; [reflexivity|]; repeat (split; [by first [apply number_format|exact Hc]|]); by apply number_format).
  unfold parse_part. rewrite !parse_format_uint by assumption. cbn. rewrite string_of_bytes_of. by destruct v.
Qed.

(** ** Order *)

Lemma compare_parts_spec l : forall r, length l = length r ->
  (compare_parts l r = 0 <-> l = r) /\ compare_parts r l = - compare_parts l r /\ -1 <= compare_parts l r <= 1.
Proof.
  induction l as [|x l IH]; intros [|y r] Hlen; try discriminate Hlen; cbn [compare_parts]; [done|]. injection Hlen as Hlen.
  destruct (IH r Hlen) as (H1 & H2 & H3). destruct (Z.ltb_spec x y), (Z.ltb_spec y x); try lia.
  - split; [|lia]. split; [lia|]. intros [= -> _]. lia.
  - split; [|lia]. split; [lia|]. intros [= -> _]. lia.
  - replace y with x by lia. split; [|done]. rewrite H1. split; congruence.
Qed.

Lemma compare_parts_trans l : forall r t, length l = length r -> length r = length t ->
  compare_parts l r <= 0 -> compare_parts r t <= 0 -> compare_parts l t <= 0 /\ (compare_parts l t = 0 -> compare_parts l r = 0 /\ compare_parts r t = 0).
Proof.
  induction l as [|x l IH]; intros [|y r] [|z t] H1 H2; try discriminate; cbn [compare_parts]; [done|]. injection H1 as H1. injection H2 as H2.
  specialize (IH r t H1 H2). destruct (Z.ltb_spec x y), (Z.ltb_spec y x), (Z.ltb_spec y z), (Z.ltb_spec z y), (Z.ltb_spec x z), (Z.ltb_spec z x);
    try lia; intros; try (split; lia); by apply IH.
Qed.

Lemma Version_Compare_opposite v w : Version_Compare w v = - Version_Compare v w.
Proof.
  unfold Version_Compare. destruct (compare_parts_spec (version_parts v) (version_parts w) eq_refl) as (_ & -> & _).
  destruct (Z.eqb_spec (compare_parts (version_parts v) (version_parts w)) 0) as [->|Hne]; cbn [negb].
  - rewrite Z.eqb_refl. cbn [negb]. destruct (str_ltb (v_Channel v) (v_Channel w)) eqn:E1; [by rewrite (str_ltb_antisym _ _ E1)|].
    by destruct (str_ltb (v_Channel w) (v_Channel v)).
  - rewrite (proj2 (Z.eqb_neq _ _)) by lia. done.
Qed.

Lemma version_unique v w : version_wf v -> version_wf w -> version_parts v = version_parts w -> v_Channel v = v_Channel w -> v = w.
Proof.
  intros (_ & _ & Rv) (_ & _ & Rw). destruct v, w. unfold version_parts, version_text in *.
  cbn [v_Major v_Minor v_Patch v_Channel v_Number v_raw] in *. intros [= -> -> -> ->] ->. f_equal. apply bytes_of_inj. by rewrite Rv, Rw.
Qed.

Lemma Version_Compare_zero v w : version_wf v -> version_wf w -> (Version_Compare v w = 0 <-> v = w).
Proof.
  intros Hv Hw. unfold Version_Compare. destruct (compare_parts_spec (version_parts v) (version_parts w) eq_refl) as (H0 & _ & _).
  destruct (Z.eqb_spec (compare_parts (version_parts v) (version_parts w)) 0) as [He|Hne]; cbn [negb].
  - apply H0 in He. split.
    + destruct (str_ltb (v_Channel v) (v_Channel w)) eqn:E1; [done|]. destruct (str_ltb (v_Channel w) (v_Channel v)) eqn:E2; [done|]. intros _.
      apply version_unique; [done..|]. apply bytes_of_inj. unfold str_ltb in *. by apply bytes_ltb_total.
    + intros ->. unfold str_ltb. by rewrite bytes_ltb_irrefl.
  - split; [congruence|]. intros ->. exfalso. by apply Hne, H0.
Qed.

Lemma channel_order c d : (if str_ltb c d then -1 else if str_ltb d c then 1 else 0) <= 0 <-> str_le c d.
Proof.
  unfold str_le. destruct (str_ltb c d) eqn:E; [by rewrite (str_ltb_antisym _ _ E)|]. destruct (str_ltb d c); split; intros; (done || lia).
Qed.

Lemma Version_Compare_trans v w u : Version_Compare v w <= 0 -> Version_Compare w u <= 0 -> Version_Compare v u <= 0.
Proof.
  unfold Version_Compare. intros H1 H2.
  pose proof (compare_parts_trans (version_parts v) (version_parts w) (version_parts u) eq_refl eq_refl) as Ht.
  destruct (compare_parts_spec (version_parts v) (version_parts w) eq_refl) as (Z1 & _ & _), (compare_parts_spec (version_parts w) (version_parts u) eq_refl) as (Z2 & _ & _).
  destruct (Z.eqb_spec (compare_parts (version_parts v) (version_parts w)) 0) as [E1|E1],
    (Z.eqb_spec (compare_parts (version_parts w) (version_parts u)) 0) as [E2|E2]; cbn [negb] in *.
  - rewrite E1, E2 in Ht. apply Z1 in E1. rewrite E1, (proj2 (Z.eqb_eq _ _) E2). cbn [negb].
    apply channel_order in H1, H2. apply channel_order. by transitivity (v_Channel w).
  - apply Z1 in E1. rewrite E1. rewrite (proj2 (Z.eqb_neq _ _) E2). exact H2.
  - apply Z2 in E2. rewrite <- E2. rewrite (proj2 (Z.eqb_neq _ _) E1). exact H1.
  - destruct (Ht H1 H2) as [Hle Hz]. rewrite (proj2 (Z.eqb_neq _ _)); [exact Hle|]. intros Hx. by destruct (Hz Hx).
Qed.

(** release versions have one text each and a total order.  A text that parses
    is the canonical text of the version's numbers and channel, each number below
    2^64, and that text parses back to the version; comparison is antisymmetric
    and transitive, and is zero only for the same text. *)
Theorem version_texts_ordered (s t r : string) (v w u : Version)
    (Hs : ParseVersion s = Ok v) (Ht : ParseVersion t = Ok w) (Hr : ParseVersion r = Ok u) :
  (version_wf v /\ bytes_of s = version_text v) /\ (forall v', version_wf v' -> ParseVersion (v_raw v') = Ok v') /\
  (Version_Compare v w = 0 <-> s = t) /\ Version_Compare w v = - Version_Compare v w /\
  (Version_Compare v w <= 0 -> Version_Compare w u <= 0 -> Version_Compare v u <= 0).
Proof.
  destruct (ParseVersion_wf _ _ Hs) as [Wv Rv], (ParseVersion_wf _ _ Ht) as [Ww Rw]. rewrite <- Rv, <- Rw.
  split; [by split; [|apply Wv]|]. split; [exact ParseVersion_text|]. split.
  - rewrite (Version_Compare_zero v w Wv Ww). split; [by intros ->|]. intros Hx. rewrite Rv, Rw in Hx. congruence.
  - split; [apply Version_Compare_opposite|apply Version_Compare_trans].
Qed.

Lemma version_texts_ordered_witness : exists v w u, ParseVersion "1.9.0-beta.2" = Ok v /\ ParseVersion "1.10.0-beta.1" = Ok w /\
  ParseVersion "1.10.0-beta.3" = Ok u /\ Version_Compare v w = -1 /\ Version_Compare v u <= 0.
Proof.
  eexists _, _, _. do 4 (split; [vm_compute; reflexivity|]).
  eapply (version_texts_ordered "1.9.0-beta.2" "1.10.0-beta.1" "1.10.0-beta.3"); vm_compute; (reflexivity || discriminate).
Defined.
