(* ===== verification/ReleaseTrust.v ===== *)
(** Signed releases: [internal/release/manifest.go], [metadata.go] and [trust.go],
    [TrustConfig] of [internal/config/config.go] and [utils/target/target.go].

    An instant is a number of nanoseconds since the zero [time.Time].  Ed25519
    verification and the JSON encodings that are signed are parameters. *)
From stdpp Require Import base list strings gmap.
From Stdlib Require Import ZArith Lia Ascii.
From S2P Require Import Prelude GoText Exact Identity Release.
Open Scope Z_scope.

Inductive trust_error := ErrTarget | ErrManifest | ErrManifestHost | ErrMetadata | ErrTrustConfig | ErrSignatures | ErrTrustRoot | ErrEncode.
#[export] Instance trust_error_eq_dec : EqDecision trust_error.
Proof. solve_decision. Defined.

(** ** Targets *)

Record Target := mkTarget { t_Platform : string; t_Arch : string }.
#[export] Instance Target_eq_dec : EqDecision Target.
Proof. solve_decision. Defined.

Definition Target_Validate (value : Target) : outcome trust_error unit :=
  if negb (bool_decide (t_Platform value = "mac")) && negb (bool_decide (t_Platform value = "win")) && negb (bool_decide (t_Platform value = "linux"))
  then Fail ErrTarget
  else if negb (bool_decide (t_Arch value = "arm64")) && negb (bool_decide (t_Arch value = "x64")) then Fail ErrTarget
  else Ok tt.

Definition ExecutableName (value : Target) (base : string) : string :=
  if bool_decide (t_Platform value = "win") then base +:+ ".exe" else base.

(** ** Paths *)

Fixpoint split_on (sep : ascii) (l : bytes) : list bytes :=
  match l with
  | [] => [[]]
  | a :: rest => if Ascii.eqb a sep then [] :: split_on sep rest
                 else match split_on sep rest with x :: xs => (a :: x) :: xs | [] => [[a]] end
  end.

Fixpoint join_with (sep : ascii) (l : list bytes) : bytes :=
  match l with [] => [] | [x] => x | x :: rest => x ++ sep :: join_with sep rest end.

(** The elements that [path.Clean] keeps, last first *)
Fixpoint clean_elements (rooted : bool) (kept : list bytes) (elements : list bytes) : list bytes :=
  match elements with
  | [] => kept
  | x :: rest =>
      if bool_decide (x = []) || bool_decide (x = bytes_of ".") then clean_elements rooted kept rest
      else if bool_decide (x = bytes_of "..") then
        match kept with
        | y :: kept' => if bool_decide (y = bytes_of "..") then clean_elements rooted (x :: kept) rest else clean_elements rooted kept' rest
        | [] => clean_elements rooted (if rooted then [] else [x]) rest
        end
      else clean_elements rooted (x :: kept) rest
  end.

(** [path.IsAbs] and [path.Clean] *)
Definition path_IsAbs (path : string) : bool := has_prefix path "/".
Definition path_Clean (path : string) : string :=
  let rooted := path_IsAbs path in
  let kept := join_with "/"%char (rev (clean_elements rooted [] (split_on "/"%char (bytes_of path)))) in
  if rooted then string_of ("/"%char :: kept) else if bool_decide (kept = []) then "." else string_of kept.

Definition contains_backslash (s : string) : bool := existsb (fun a => Ascii.eqb a "\"%char) (bytes_of s).

(** ** Manifests *)

Record Manifest := mkManifest {
  mf_Schema : Z; mf_Channel : string; mf_Version : string; mf_Platform : string; mf_Arch : string;
  mf_Launcher : string; mf_Payload : string; mf_MinimumBootstrapProtocol : string; mf_PublishedAt : Z }.
#[export] Instance Manifest_eq_dec : EqDecision Manifest.
Proof. solve_decision. Defined.

Definition ManifestSchema : Z := 1.
Definition CLIBaseName : string := "open-cut".

Definition validateEntry (entry kind : string) : outcome trust_error string :=
  if bool_decide (entry = "") || contains_backslash entry || path_IsAbs entry then Fail ErrManifest
  else
    let clean := path_Clean entry in
    if negb (bool_decide (clean = entry)) || negb (has_prefix clean (kind +:+ "/")) || bool_decide (clean = kind +:+ "/") then Fail ErrManifest
    else Ok clean.

Definition Manifest_Validate (manifest : Manifest) : outcome trust_error unit :=
  if negb (mf_Schema manifest =? ManifestSchema) then Fail ErrManifest
  else
    _ ← or_fail ErrManifest (ParseVersionForChannel (mf_Version manifest) (mf_Channel manifest));
    _ ← guard_or ErrManifest (negb (bool_decide (mf_Platform manifest = "") || bool_decide (mf_Arch manifest = "") ||
          bool_decide (mf_MinimumBootstrapProtocol manifest = "") || (mf_PublishedAt manifest =? 0)));
    _ ← or_fail ErrManifest (Target_Validate (mkTarget (mf_Platform manifest) (mf_Arch manifest)));
    _ ← validateEntry (mf_Launcher manifest) "launcher";
    _ ← validateEntry (mf_Payload manifest) "payload";
    Ok tt.

(** ** Release metadata *)

Record BundleDescriptor := mkBundle { bn_Path : string; bn_Size : Z; bn_SHA256 : string }.
#[export] Instance BundleDescriptor_eq_dec : EqDecision BundleDescriptor.
Proof. solve_decision. Defined.

Record Descriptor := mkDescriptor {
  ds_Schema : Z; ds_Channel : string; ds_Version : string; ds_Platform : string; ds_Arch : string; ds_Bundle : BundleDescriptor;
  ds_MinimumBootstrapProtocol : string; ds_PublishedAt : Z; ds_ExpiresAt : Z }.
#[export] Instance Descriptor_eq_dec : EqDecision Descriptor.
Proof. solve_decision. Defined.

Record Signature := mkSignature { sg_KeyID : string; sg_Signature : string }.
Record Envelope := mkEnvelope { env_Signed : Descriptor; env_Signatures : list Signature }.

Definition ReleaseMetadataSchema : Z := 1.

(** [5*time.Minute] *)
Definition five_minutes : Z := 300 * 10 ^ 9.

(** [hex.DecodeString] succeeds with 32 bytes *)
Definition is_hex (a : ascii) : bool := is_digit a || ((97 <=? byte_val a) && (byte_val a <=? 102)) || ((65 <=? byte_val a) && (byte_val a <=? 70)).
Definition hex_digest (s : string) : bool := forallb is_hex (bytes_of s) && (length (bytes_of s) =? 64)%nat.

(** [strings.ToLower(s) == s] on hexadecimal text *)
Definition lower_case (s : string) : bool := negb (existsb is_upper (bytes_of s)).

Definition Descriptor_Validate (d : Descriptor) (channel protocolFloor : string) (now : Z) : outcome trust_error unit :=
  if negb (ds_Schema d =? ReleaseMetadataSchema) then Fail ErrMetadata
  else
    _ ← or_fail ErrMetadata (ParseVersionForChannel (ds_Version d) channel);
    _ ← guard_or ErrMetadata (bool_decide (ds_Channel d = channel));
    _ ← or_fail ErrMetadata (Target_Validate (mkTarget (ds_Platform d) (ds_Arch d)));
    _ ← guard_or ErrMetadata (bool_decide (ds_MinimumBootstrapProtocol d = protocolFloor));
    _ ← guard_or ErrMetadata (negb ((ds_PublishedAt d =? 0) || (ds_ExpiresAt d =? 0) || negb (now <? ds_ExpiresAt d) ||
          (now + five_minutes <? ds_PublishedAt d)));
    _ ← guard_or ErrMetadata (negb ((bn_Size (ds_Bundle d) <=? 0) || (2 ^ 34 <? bn_Size (ds_Bundle d))));
    _ ← guard_or ErrMetadata (hex_digest (bn_SHA256 (ds_Bundle d)) && lower_case (bn_SHA256 (ds_Bundle d)));
    let path := bn_Path (ds_Bundle d) in
    _ ← guard_or ErrMetadata (negb (bool_decide (path = "") || contains_backslash path || path_IsAbs path));
    let clean := path_Clean path in
    guard_or ErrMetadata (negb (negb (bool_decide (clean = path)) || bool_decide (clean = ".") || has_prefix clean "../" ||
      negb (has_prefix clean "releases/"))).

(** ** Keys and signatures *)

Record TrustKey := mkTrustKey { key_ID : string; key_PublicKey : string }.
#[export] Instance TrustKey_eq_dec : EqDecision TrustKey.
Proof. solve_decision. Defined.

Record TrustConfig := mkTrustConfig { tc_Threshold : Z; tc_Keys : list TrustKey }.
Record TrustRoot := mkTrustRoot { root_Schema : Z; root_Version : Z; root_Threshold : Z; root_Keys : list TrustKey }.
#[export] Instance TrustRoot_eq_dec : EqDecision TrustRoot.
Proof. solve_decision. Defined.
Record TrustRootEnvelope := mkRootEnvelope { renv_Signed : TrustRoot; renv_Signatures : list Signature }.

Definition PublicKeySize : nat := 32.

(** [base64.StdEncoding.DecodeString]: line breaks are skipped, padding is
    required, and the unused bits of the last group are not inspected. *)
Definition b64_value (a : ascii) : option Z :=
  if is_upper a then Some (byte_val a - 65) else if is_lower a then Some (byte_val a - 71) else if is_digit a then Some (byte_val a + 4)
  else if Ascii.eqb a "+"%char then Some 62 else if Ascii.eqb a "/"%char then Some 63 else None.

Definition b64_bytes (values : list Z) : bytes :=
  let n := fold_left (fun acc v => acc * 64 + v) values 0 in
  let bits := 6 * Z.of_nat (length values) in
  map (fun k => byte_of (Z.shiftr n (bits - 8 * (Z.of_nat k + 1)) mod 256)) (seq 0 (length values - 1)).

Fixpoint b64_groups (l : bytes) : option bytes :=
  match l with
  | [] => Some []
  | a :: b :: c :: d :: rest =>
      x ← b64_value a; y ← b64_value b;
      if Ascii.eqb d "="%char && (length rest =? 0)%nat then
        if Ascii.eqb c "="%char then Some (b64_bytes [x; y]) else z ← b64_value c; Some (b64_bytes [x; y; z])
      else z ← b64_value c; w ← b64_value d; tail ← b64_groups rest; Some (b64_bytes [x; y; z; w] ++ tail)
  | _ => None
  end.

Definition line_break (a : ascii) : bool := (byte_val a =? 10) || (byte_val a =? 13).
Definition base64_decode (s : string) : option bytes := b64_groups (List.filter (fun a => negb (line_break a)) (bytes_of s)).

Fixpoint check_keys (seen : gset string) (keys : list TrustKey) : outcome trust_error unit :=
  match keys with
  | [] => Ok tt
  | key :: rest =>
      if bool_decide (key_ID key = "") || bool_decide (key_PublicKey key = "") || bool_decide (key_ID key ∈ seen) then Fail ErrTrustConfig
      else match base64_decode (key_PublicKey key) with
           | Some decoded => if (length decoded =? PublicKeySize)%nat then check_keys ({[key_ID key]} ∪ seen) rest else Fail ErrTrustConfig
           | None => Fail ErrTrustConfig
           end
  end.

Definition TrustConfig_Validate (trust : TrustConfig) : outcome trust_error unit :=
  if (tc_Threshold trust <? 1) || (Z.of_nat (length (tc_Keys trust)) <? tc_Threshold trust) then Fail ErrTrustConfig
  else check_keys ∅ (tc_Keys trust).

Definition TrustRootSchema : Z := 1.
Definition Config (root : TrustRoot) : TrustConfig := mkTrustConfig (root_Threshold root) (root_Keys root).

Definition TrustRoot_Validate (root : TrustRoot) : outcome trust_error unit :=
  if negb (root_Schema root =? TrustRootSchema) || (root_Version root =? 0) then Fail ErrTrustRoot
  else TrustConfig_Validate (Config root).

Definition InitialTrustRoot (trust : TrustConfig) : outcome trust_error TrustRoot :=
  _ ← TrustConfig_Validate trust;
  Ok (mkTrustRoot TrustRootSchema 1 (tc_Threshold trust) (tc_Keys trust)).

Class ReleasePlatform := {
  ed25519_Verify : bytes -> bytes -> bytes -> bool;
  marshal_descriptor : Descriptor -> option bytes;
  marshal_trust_root : TrustRoot -> option bytes }.

Section trust.
Context `{ReleasePlatform}.

(** The public keys by identity *)
Fixpoint decode_keys (keys : list TrustKey) (decoded : gmap string bytes) : outcome trust_error (gmap string bytes) :=
  match keys with
  | [] => Ok decoded
  | key :: rest =>
      match base64_decode (key_PublicKey key) with
      | Some public => if (length public =? PublicKeySize)%nat then decode_keys rest (<[key_ID key := public]> decoded) else Fail ErrTrustConfig
      | None => Fail ErrTrustConfig
      end
  end.

(** The loop over the signatures: [valid] gathers the keys that signed *)
Fixpoint valid_signers (keys : gmap string bytes) (payload : bytes) (signatures : list Signature) (valid : gset string) : gset string :=
  match signatures with
  | [] => valid
  | signature :: rest =>
      if bool_decide (sg_KeyID signature ∈ valid) then valid_signers keys payload rest valid
      else match keys !! sg_KeyID signature with
           | None => valid_signers keys payload rest valid
           | Some public =>
               match base64_decode (sg_Signature signature) with
               | Some decoded =>
                   if ed25519_Verify public payload decoded then valid_signers keys payload rest ({[sg_KeyID signature]} ∪ valid)
                   else valid_signers keys payload rest valid
               | None => valid_signers keys payload rest valid
               end
           end
  end.

Definition VerifyEnvelopeTarget (envelope : Envelope) (trust : TrustConfig) (channel protocolFloor : string) (expected : Target) (now : Z)
    : outcome trust_error unit :=
  let signed := env_Signed envelope in
  _ ← Descriptor_Validate signed channel protocolFloor now;
  _ ← guard_or ErrMetadata (bool_decide (ds_Platform signed = t_Platform expected) && bool_decide (ds_Arch signed = t_Arch expected));
  payload ← match marshal_descriptor signed with Some payload => Ok payload | None => Fail ErrEncode end;
  keys ← decode_keys (tc_Keys trust) ∅;
  let valid := valid_signers keys payload (env_Signatures envelope) ∅ in
  guard_or ErrSignatures (negb (Z.of_nat (size valid) <? tc_Threshold trust)).

(** [base64] decoding of a validated root cannot fail; the error is dropped *)
Definition root_keys (keys : list TrustKey) : gmap string bytes :=
  fold_left (fun decoded key => <[key_ID key := default [] (base64_decode (key_PublicKey key))]> decoded) keys ∅.

Definition VerifyTrustRoot (envelope : TrustRootEnvelope) (current : TrustRoot) : outcome trust_error unit :=
  let signed := renv_Signed envelope in
  _ ← TrustRoot_Validate current;
  _ ← TrustRoot_Validate signed;
  _ ← guard_or ErrTrustRoot (root_Version signed =? to_uint64 (root_Version current + 1));
  payload ← match marshal_trust_root signed with Some payload => Ok payload | None => Fail ErrEncode end;
  let valid := valid_signers (root_keys (root_Keys current)) payload (renv_Signatures envelope) ∅ in
  guard_or ErrSignatures (negb (Z.of_nat (size valid) <? root_Threshold current)).

(** [ValidateHost]; the host's target is an argument *)
Definition Manifest_ValidateHost (host : Target) (manifest : Manifest) (channel protocolFloor : string) : outcome trust_error unit :=
  _ ← Manifest_Validate manifest;
  _ ← guard_or ErrManifestHost (bool_decide (mf_Channel manifest = channel));
  _ ← guard_or ErrManifestHost (bool_decide (mf_Platform manifest = t_Platform host) && bool_decide (mf_Arch manifest = t_Arch host));
  guard_or ErrManifestHost (bool_decide (mf_MinimumBootstrapProtocol manifest = protocolFloor)).
End trust.

(** * Proofs *)

Section proofs.
Context `{ReleasePlatform}.

(** A trusted key of that identity made one of the signatures. *)
Definition signed_by (keys : list TrustKey) (payload : bytes) (signatures : list Signature) (id : string) : Prop :=
  exists key public signature decoded, key ∈ keys /\ key_ID key = id /\ base64_decode (key_PublicKey key) = Some public /\
    signature ∈ signatures /\ sg_KeyID signature = id /\ base64_decode (sg_Signature signature) = Some decoded /\
    ed25519_Verify public payload decoded = true.

(** At least as many distinct trusted identities signed as the threshold asks for. *)
Definition threshold_met (threshold : Z) (keys : list TrustKey) (payload : bytes) (signatures : list Signature) : Prop :=
  exists signers : gset string, threshold <= Z.of_nat (size signers) /\ forall id, id ∈ signers -> signed_by keys payload signatures id.

Lemma valid_signers_spec keys payload signatures : forall valid id,
  id ∈ valid_signers keys payload signatures valid <->
  id ∈ valid \/ exists public signature decoded, keys !! id = Some public /\ signature ∈ signatures /\ sg_KeyID signature = id /\
    base64_decode (sg_Signature signature) = Some decoded /\ ed25519_Verify public payload decoded = true.
Proof.
  induction signatures as [|s rest IH]; intros valid id; cbn [valid_signers].
  { split; [by left|]. intros [?|(? & ? & ? & _ & Hin & _)]; [done|by apply not_elem_of_nil in Hin]. }
  assert (Hskip : (forall public decoded, id = sg_KeyID s -> keys !! id = Some public -> base64_decode (sg_Signature s) = Some decoded ->
      ed25519_Verify public payload decoded = true -> id ∈ valid) ->
    id ∈ valid_signers keys payload rest valid <-> id ∈ valid \/ exists public signature decoded, keys !! id = Some public /\
      signature ∈ s :: rest /\ sg_KeyID signature = id /\ base64_decode (sg_Signature signature) = Some decoded /\
      ed25519_Verify public payload decoded = true).
  { intros Hs. rewrite IH. split.
    - intros [?|(p & x & d & ? & ? & ?)]; [by left|right]. exists p, x, d. split; [done|]. split; [by apply list_elem_of_further|done].
    - intros [?|(p & x & d & Hk & Hin & Hid & Hd & Hv)]; [by left|]. apply elem_of_cons in Hin as [->|Hin]; [left; eauto|right].
      by exists p, x, d. }
  case_bool_decide as Hin; [by apply Hskip; intros ? ? -> _ _ _|].
  destruct (keys !! sg_KeyID s) as [public|] eqn:Ek; [|apply Hskip; intros ? ? -> Hk; congruence].
  destruct (base64_decode (sg_Signature s)) as [decoded|] eqn:Ed; [|apply Hskip; intros; congruence].
  destruct (ed25519_Verify public payload decoded) eqn:Ev; [|apply Hskip; intros ? ? -> Hk Hd Hv; congruence].
  rewrite IH, elem_of_union, elem_of_singleton. clear Hskip. split.
  - intros [[->|?]|(p & x & d & ? & ? & ?)]; [right; exists public, s, decoded; by rewrite elem_of_cons; auto|by left|right].
    exists p, x, d. split; [done|]. split; [by apply list_elem_of_further|done].
  - intros [?|(p & x & d & Hk & Hx & Hid & Hd & Hv)]; [by left; right|]. apply elem_of_cons in Hx as [->|Hx]; [by left; left|right].
    by exists p, x, d.
Qed.

(** Counting the gathered signers is the threshold. *)
Lemma threshold_counted threshold (keys : list TrustKey) decoded payload signatures :
  (forall id public, decoded !! id = Some public <-> exists key, key ∈ keys /\ key_ID key = id /\ base64_decode (key_PublicKey key) = Some public) ->
  negb (Z.of_nat (size (valid_signers decoded payload signatures ∅)) <? threshold) = true <-> threshold_met threshold keys payload signatures.
Proof.
  intros Hk. rewrite negb_true_iff, Z.ltb_ge.
  assert (Hs : forall id, id ∈ valid_signers decoded payload signatures ∅ <-> signed_by keys payload signatures id).
  { intros id. rewrite valid_signers_spec. split.
    - intros [?%not_elem_of_empty|(p & s & d & (key & ? & ? & ?)%Hk & ? & ? & ? & ?)]; [done|]. by exists key, p, s, d.
    - intros (key & p & s & d & ? & ? & ? & ? & ? & ? & ?). right. exists p, s, d. split; [apply Hk; by exists key|done]. }
  split.
  - intros Hle. exists (valid_signers decoded payload signatures ∅). split; [exact Hle|]. intros id. apply Hs.
  - intros (signers & Hle & Hall). etransitivity; [exact Hle|]. apply inj_le, subseteq_size. intros id Hid. by apply Hs, Hall.
Qed.

Lemma check_keys_ok keys : forall seen, check_keys seen keys = Ok tt ->
  NoDup (map key_ID keys) /\ (forall key, key ∈ keys -> key_ID key ∉ seen /\ exists public, base64_decode (key_PublicKey key) = Some public /\
    length public = PublicKeySize).
Proof.
  induction keys as [|key rest IH]; intros seen Hc; cbn [check_keys] in Hc; [split; [constructor|by intros ? ?%not_elem_of_nil]|].
  destruct (_ || _) eqn:E in Hc; [discriminate Hc|]. apply orb_false_iff in E as [_ Hseen]. apply bool_decide_eq_false_1 in Hseen.
  destruct (base64_decode (key_PublicKey key)) as [public|] eqn:Ed; [|discriminate Hc]. destruct (_ =? _)%nat eqn:El in Hc; [|discriminate Hc].
  apply Nat.eqb_eq in El. destruct (IH _ Hc) as [Hnd Hin]. split.
  - cbn. constructor; [|done]. rewrite list_elem_of_In, in_map_iff. intros (k & Hk & Hki%list_elem_of_In). destruct (Hin k Hki) as [Hn _].
    rewrite Hk in Hn. set_solver.
  - intros k [->|Hk]%elem_of_cons; [split; [done|by exists public]|]. destruct (Hin k Hk) as [Hn Hp]. split; [set_solver|done].
Qed.

Lemma decode_keys_ok keys : NoDup (map key_ID keys) ->
  (forall key, key ∈ keys -> exists public, base64_decode (key_PublicKey key) = Some public /\ length public = PublicKeySize) ->
  forall decoded, exists result, decode_keys keys decoded = Ok result /\
    forall id public, result !! id = Some public <->
      (exists key, key ∈ keys /\ key_ID key = id /\ base64_decode (key_PublicKey key) = Some public) \/
      (id ∉ map key_ID keys /\ decoded !! id = Some public).
Proof.
  induction keys as [|key rest IH]; intros Hnd Hall decoded; cbn [decode_keys].
  { exists decoded. split; [done|]. intros id public. split; [right; split; [apply not_elem_of_nil|done]|].
    intros [(? & ?%not_elem_of_nil & _)|[_ ?]]; done. }
  cbn in Hnd. apply NoDup_cons in Hnd as [Hno Hnd]. destruct (Hall key (list_elem_of_here _ _)) as (public & Hp & Hl).
  rewrite Hp, Hl, Nat.eqb_refl. destruct (IH Hnd (fun k Hk => Hall k (list_elem_of_further _ _ _ Hk)) (<[key_ID key := public]> decoded)) as (result & Hr & Hs).
  exists result. split; [exact Hr|]. intros id p. rewrite Hs. cbn [map]. rewrite not_elem_of_cons. setoid_rewrite elem_of_cons. split.
  - intros [(k & ? & ? & ?)|[Hn Hi]]; [left; exists k; auto|]. destruct (decide (id = key_ID key)) as [->|Hne].
    + rewrite lookup_insert_eq in Hi. injection Hi as <-. left. exists key. auto.
    + rewrite lookup_insert_ne in Hi by congruence. right. auto.
  - intros [(k & [->|Hk] & <- & Hd)|[[Hne Hn] Hd]].
    + right. split; [exact Hno|]. rewrite lookup_insert_eq. congruence.
    + left. by exists k.
    + right. split; [done|]. by rewrite lookup_insert_ne by congruence.
Qed.

Lemma root_keys_decoded keys : NoDup (map key_ID keys) ->
  (forall key, key ∈ keys -> exists public, base64_decode (key_PublicKey key) = Some public /\ length public = PublicKeySize) ->
  decode_keys keys ∅ = Ok (root_keys keys).
Proof.
  unfold root_keys. generalize (∅ : gmap string bytes). induction keys as [|key rest IH]; intros decoded Hnd Hall; cbn [decode_keys fold_left]; [done|].
  cbn in Hnd. apply NoDup_cons in Hnd as [_ Hnd]. destruct (Hall key (list_elem_of_here _ _)) as (public & Hp & Hl).
  rewrite Hp, Hl, Nat.eqb_refl. cbn [default from_option id]. apply IH; [done|]. intros k Hk. apply Hall. by apply list_elem_of_further.
Qed.

Lemma config_keys trust : TrustConfig_Validate trust = Ok tt -> exists decoded, decode_keys (tc_Keys trust) ∅ = Ok decoded /\
  root_keys (tc_Keys trust) = decoded /\ forall id public, decoded !! id = Some public <->
    exists key, key ∈ tc_Keys trust /\ key_ID key = id /\ base64_decode (key_PublicKey key) = Some public.
Proof.
  unfold TrustConfig_Validate. destruct (_ || _); [done|]. intros [Hnd Hin]%check_keys_ok.
  assert (Hall : forall key, key ∈ tc_Keys trust -> exists public, base64_decode (key_PublicKey key) = Some public /\ length public = PublicKeySize)
    by (intros key Hk; exact (proj2 (Hin key Hk))).
  destruct (decode_keys_ok _ Hnd Hall ∅) as (decoded & Hd & Hs). exists decoded. split; [exact Hd|].
  rewrite (root_keys_decoded _ Hnd Hall) in Hd. injection Hd as ->. split; [done|]. intros id public. rewrite Hs. split; [|by left].
  intros [?|[_ ?%lookup_empty_Some]]; done.
Qed.

Lemma VerifyEnvelopeTarget_spec envelope trust channel floor expected now : TrustConfig_Validate trust = Ok tt ->
  VerifyEnvelopeTarget envelope trust channel floor expected now = Ok tt <->
  Descriptor_Validate (env_Signed envelope) channel floor now = Ok tt /\
  mkTarget (ds_Platform (env_Signed envelope)) (ds_Arch (env_Signed envelope)) = expected /\
  exists payload, marshal_descriptor (env_Signed envelope) = Some payload /\
    threshold_met (tc_Threshold trust) (tc_Keys trust) payload (env_Signatures envelope).
Proof.
  intros (decoded & Hd & _ & Hs)%config_keys. unfold VerifyEnvelopeTarget. rewrite Hd. split.
  - intros Hv. apply bind_ok in Hv as ([] & Hval & Hv). apply bind_ok in Hv as ([] & Ht%guard_or_ok & Hv). bool_prop.
    destruct (marshal_descriptor (env_Signed envelope)) as [payload|]; [|discriminate Hv]. cbn [mbind outcome_bind] in Hv.
    apply guard_or_ok, (threshold_counted _ (tc_Keys trust)) in Hv; [|exact Hs]. split; [exact Hval|]. split; [by destruct expected; cbn in *; subst|].
    by exists payload.
  - intros (Hval & <- & payload & Hp & Hv). rewrite Hval. cbn [mbind outcome_bind t_Platform t_Arch]. rewrite !bool_decide_eq_true_2 by done.
    cbn [andb guard_or mbind outcome_bind]. rewrite Hp. cbn [mbind outcome_bind]. by apply guard_or_ok, (threshold_counted _ (tc_Keys trust)).
Qed.

Lemma VerifyTrustRoot_spec envelope current : 0 <= root_Version current < 2 ^ 64 ->
  VerifyTrustRoot envelope current = Ok tt <->
  TrustRoot_Validate current = Ok tt /\ TrustRoot_Validate (renv_Signed envelope) = Ok tt /\
  root_Version (renv_Signed envelope) = root_Version current + 1 /\ root_Version current + 1 < 2 ^ 64 /\
  exists payload, marshal_trust_root (renv_Signed envelope) = Some payload /\
    threshold_met (root_Threshold current) (root_Keys current) payload (renv_Signatures envelope).
Proof.
  intros Hr. unfold VerifyTrustRoot. split.
  - intros Hv. apply bind_ok in Hv as ([] & Hc & Hv). apply bind_ok in Hv as ([] & Hs & Hv). apply bind_ok in Hv as ([] & Hver%guard_or_ok & Hv).
    apply Z.eqb_eq in Hver. pose proof Hc as Hc'. pose proof Hs as Hs'. unfold TrustRoot_Validate in Hc', Hs'.
    destruct (_ || _) eqn:Ec in Hc'; [discriminate Hc'|]. destruct (_ || _) eqn:Es in Hs'; [discriminate Hs'|].
    apply orb_false_iff in Es as [_ Es]. apply Z.eqb_neq in Es.
    apply config_keys in Hc' as (decoded & _ & Hk & Hspec). cbn [Config tc_Keys] in Hk, Hspec.
    destruct (marshal_trust_root (renv_Signed envelope)) as [payload|]; [|discriminate Hv]. cbn [mbind outcome_bind] in Hv.
    apply guard_or_ok in Hv. rewrite Hk in Hv. apply (threshold_counted _ (root_Keys current)) in Hv; [|exact Hspec].
    assert (Hlt : root_Version current + 1 < 2 ^ 64).
    { destruct (Z.eq_dec (root_Version current) (2 ^ 64 - 1)) as [Hx|]; [|lia]. exfalso. apply Es. rewrite Hver, Hx. vm_compute. reflexivity. }
    rewrite to_uint64_small in Hver by lia. do 4 (split; [assumption|]). by exists payload.
  - intros (Hc & Hs & Hver & Hlt & payload & Hp & Hv). rewrite Hc, Hs, Hver, Hp. cbn [mbind outcome_bind].
    rewrite to_uint64_small, Z.eqb_refl by lia. cbn [guard_or mbind outcome_bind]. apply guard_or_ok.
    pose proof Hc as Hc'. unfold TrustRoot_Validate in Hc'. destruct (_ || _) eqn:Ec in Hc'; [discriminate Hc'|].
    apply config_keys in Hc' as (decoded & _ & Hk & Hspec). cbn [Config tc_Keys] in Hk, Hspec. rewrite Hk.
    by apply (threshold_counted _ (root_Keys current)).
Qed.
End proofs.

(** C36: a release or a new trust root is accepted exactly on a quorum.  Metadata is
    accepted when it is valid for the channel, the host and the hour and as many
    distinct trusted identities as the threshold signed exactly its bytes; a trust
    root, when it is valid, follows the current one by one version, and the quorum
    of the current root signed it.  Repeated, unknown or malformed signatures
    never count. *)
Theorem release_quorum `{ReleasePlatform} (envelope : Envelope) (trust : TrustConfig) (channel floor : string) (expected : Target) (now : Z)
    (rootEnvelope : TrustRootEnvelope) (current : TrustRoot)
    (Ht : TrustConfig_Validate trust = Ok tt) (Hc : 0 <= root_Version current < 2 ^ 64) :
  (VerifyEnvelopeTarget envelope trust channel floor expected now = Ok tt <->
   Descriptor_Validate (env_Signed envelope) channel floor now = Ok tt /\
   mkTarget (ds_Platform (env_Signed envelope)) (ds_Arch (env_Signed envelope)) = expected /\
   exists payload, marshal_descriptor (env_Signed envelope) = Some payload /\
     threshold_met (tc_Threshold trust) (tc_Keys trust) payload (env_Signatures envelope)) /\
  (VerifyTrustRoot rootEnvelope current = Ok tt <->
   TrustRoot_Validate current = Ok tt /\ TrustRoot_Validate (renv_Signed rootEnvelope) = Ok tt /\
   root_Version (renv_Signed rootEnvelope) = root_Version current + 1 /\ root_Version current + 1 < 2 ^ 64 /\
   exists payload, marshal_trust_root (renv_Signed rootEnvelope) = Some payload /\
     threshold_met (root_Threshold current) (root_Keys current) payload (renv_Signatures rootEnvelope)).
Proof. split; [by apply VerifyEnvelopeTarget_spec|by apply VerifyTrustRoot_spec]. Qed.

(** A platform whose signatures are the public keys themselves *)
Definition toy_platform : ReleasePlatform := {|
  ed25519_Verify := fun public _ signature => bool_decide (public = signature);
  marshal_descriptor := fun d => Some (bytes_of (ds_Version d));
  marshal_trust_root := fun r => Some (bytes_of (format_uint (root_Version r))) |}.

Definition toy_key (id fill : string) : TrustKey := mkTrustKey id (fill +:+ "AAAAAAAAAAAAAAAAAAAAAAAAAAAAAAAAAAAAAAAAA=").
Definition toy_trust : TrustConfig := mkTrustConfig 2 [toy_key "k1" "QU"; toy_key "k2" "Qk"; toy_key "k3" "Q0"].
Definition toy_signature (id fill : string) : Signature := mkSignature id (key_PublicKey (toy_key id fill)).
Definition toy_host : Target := mkTarget "linux" "x64".

Definition toy_descriptor : Descriptor :=
  mkDescriptor 1 "beta" "1.2.0-beta.3" "linux" "x64"
    (mkBundle "releases/beta/a.tar.zst" 5 "00000000000000000000000000000000000000000000000000000000000000ab") "p1" 10 1000.

Definition toy_envelope : Envelope := mkEnvelope toy_descriptor [toy_signature "k1" "QU"; toy_signature "k1" "QU"; toy_signature "k3" "Q0"].
Definition toy_root : TrustRoot := mkTrustRoot 1 1 2 (tc_Keys toy_trust).
Definition toy_rotation : TrustRootEnvelope :=
  mkRootEnvelope (mkTrustRoot 1 2 1 [toy_key "k9" "QU"]) [toy_signature "k2" "Qk"; toy_signature "k3" "Q0"].

Lemma release_quorum_witness :
  @VerifyEnvelopeTarget toy_platform toy_envelope toy_trust "beta" "p1" toy_host 500 = Ok tt /\
  @threshold_met toy_platform 2 (tc_Keys toy_trust) (bytes_of "2") (renv_Signatures toy_rotation).
Proof.
  split; [vm_compute; reflexivity|].
  destruct (@release_quorum toy_platform toy_envelope toy_trust "beta" "p1" toy_host 500 toy_rotation toy_root) as [_ Hr];
    [vm_compute; reflexivity|cbn; lia|].
  destruct Hr as [Hr _]. destruct (Hr ltac:(vm_compute; reflexivity)) as (_ & _ & _ & _ & payload & [= <-] & Hm). exact Hm.
Defined.
