(* ===== verification/RuntimeState.v ===== *)
(** The release state of a cell: [internal/state/state.go].  A candidate is
    prepared, then confirmed or rolled back. *)
From stdpp Require Import base list strings gmap.
From Stdlib Require Import ZArith Lia Ascii.
From S2P Require Import Prelude GoText Exact Identity Release.
Open Scope Z_scope.

Inductive state_error := ErrRuntimeState | ErrCandidatePending | ErrConfirmMismatch | ErrNoCandidate.
#[export] Instance state_error_eq_dec : EqDecision state_error.
Proof. solve_decision. Defined.

Record Runtime := mkRuntime { rs_Schema : Z; rs_Generation : Z; rs_Active : string; rs_Candidate : string; rs_LastGood : string; rs_Attempt : Z }.
#[export] Instance Runtime_eq_dec : EqDecision Runtime.
Proof. solve_decision. Defined.

Definition RuntimeSchema : Z := 1.
Definition EmptyRuntime : Runtime := mkRuntime RuntimeSchema 0 "" "" "" 0.

Definition version_or_empty (channel value : string) : bool := bool_decide (value = "") || is_ok (ParseVersionForChannel value channel).

(** Go ranges over the three names in any order; every error is the same here. *)
Definition Runtime_Validate (runtime : Runtime) (channel : string) : outcome state_error unit :=
  if negb (rs_Schema runtime =? RuntimeSchema) then Fail ErrRuntimeState
  else if negb (forallb (version_or_empty channel) [rs_Active runtime; rs_Candidate runtime; rs_LastGood runtime]) then Fail ErrRuntimeState
  else if bool_decide (rs_Candidate runtime = "") && negb (bool_decide (rs_Active runtime = rs_LastGood runtime)) then Fail ErrRuntimeState
  else Ok tt.

Definition Prepare (current : Runtime) (channel candidate : string) : outcome state_error Runtime :=
  _ ← Runtime_Validate current channel;
  if negb (bool_decide (rs_Candidate current = "")) then Fail ErrCandidatePending
  else
    _ ← or_fail ErrRuntimeState (ParseVersionForChannel candidate channel);
    Ok (mkRuntime (rs_Schema current) (to_uint64 (rs_Generation current + 1)) (rs_Active current) candidate (rs_LastGood current)
          (to_uint64 (rs_Attempt current + 1))).

Definition Confirm (current : Runtime) (channel candidate : string) : outcome state_error Runtime :=
  _ ← Runtime_Validate current channel;
  if bool_decide (candidate = "") || negb (bool_decide (rs_Candidate current = candidate)) then Fail ErrConfirmMismatch
  else Ok (mkRuntime (rs_Schema current) (to_uint64 (rs_Generation current + 1)) candidate "" candidate (rs_Attempt current)).

Definition Rollback (current : Runtime) (channel : string) : outcome state_error Runtime :=
  _ ← Runtime_Validate current channel;
  if bool_decide (rs_Candidate current = "") then Fail ErrNoCandidate
  else Ok (mkRuntime (rs_Schema current) (to_uint64 (rs_Generation current + 1)) (rs_LastGood current) "" (rs_LastGood current) (rs_Attempt current)).

(** * Proofs *)

Lemma EmptyRuntime_valid channel : Runtime_Validate EmptyRuntime channel = Ok tt.
Proof. reflexivity. Qed.

Lemma Runtime_Validate_spec r channel : Runtime_Validate r channel = Ok tt <->
  rs_Schema r = RuntimeSchema /\ Forall (fun v => v <> "" -> is_ok (ParseVersionForChannel v channel) = true) [rs_Active r; rs_Candidate r; rs_LastGood r] /\
  (rs_Candidate r = "" -> rs_Active r = rs_LastGood r).
Proof.
  unfold Runtime_Validate. destruct (Z.eqb_spec (rs_Schema r) RuntimeSchema) as [Hs|Hs]; cbn [negb]; [|split; [done|by intros [? _]]].
  destruct (forallb _ _) eqn:Hf; cbn [negb].
  - assert (Hall : Forall (fun v => v <> "" -> is_ok (ParseVersionForChannel v channel) = true) [rs_Active r; rs_Candidate r; rs_LastGood r]).
    { rewrite forallb_forall in Hf. apply Forall_forall. intros v Hv%list_elem_of_In Hne. specialize (Hf v Hv). unfold version_or_empty in Hf.
      rewrite bool_decide_eq_false_2 in Hf by done. exact Hf. }
    destruct (bool_decide_reflect (rs_Candidate r = "")) as [Hc|Hc]; cbn [andb]; [|split; [intros _|done]; split; [done|split; [exact Hall|done]]].
    case_bool_decide as Ha; cbn [negb]; [split; [done|done]|]. split; [done|]. intros (_ & _ & Hx). by destruct Ha; apply Hx.
  - split; [done|]. intros (_ & Hall & _). exfalso. apply not_true_iff_false in Hf. apply Hf. rewrite forallb_forall. intros v Hv%list_elem_of_In.
    rewrite Forall_forall in Hall. unfold version_or_empty. case_bool_decide as He; [done|]. by apply Hall.
Qed.

Lemma Prepare_ok r channel candidate r' : Prepare r channel candidate = Ok r' ->
  Runtime_Validate r channel = Ok tt /\ Runtime_Validate r' channel = Ok tt /\ rs_Candidate r = "" /\ rs_Candidate r' = candidate /\
  rs_Active r' = rs_Active r /\ rs_LastGood r' = rs_LastGood r /\ is_ok (ParseVersionForChannel candidate channel) = true.
Proof.
  unfold Prepare. intros Hp. apply bind_ok in Hp as ([] & Hv & Hp). destruct (negb _) eqn:Hc in Hp; [discriminate Hp|].
  apply negb_false_iff, bool_decide_eq_true_1 in Hc. apply bind_ok in Hp as (v & Hpv%or_fail_ok & [= <-]). cbn. split; [exact Hv|].
  assert (Hk : is_ok (ParseVersionForChannel candidate channel) = true) by (by rewrite Hpv). split; [|done].
  apply Runtime_Validate_spec in Hv as (Hs & Hall & Hx). apply Runtime_Validate_spec. cbn. split; [exact Hs|]. split.
  - rewrite !Forall_cons in *. destruct Hall as (Ha & _ & Hl & Hn). done.
  - intros _. by apply Hx.
Qed.

Lemma Confirm_ok r channel candidate r' : Confirm r channel candidate = Ok r' ->
  Runtime_Validate r channel = Ok tt /\ Runtime_Validate r' channel = Ok tt /\ candidate <> "" /\ rs_Candidate r = candidate /\
  rs_Candidate r' = "" /\ rs_Active r' = candidate /\ rs_LastGood r' = candidate.
Proof.
  unfold Confirm. intros Hp. apply bind_ok in Hp as ([] & Hv & Hp). destruct (_ || _) eqn:Hc in Hp; [discriminate Hp|]. injection Hp as <-.
  bool_prop. cbn. split; [exact Hv|]. split; [|done].
  apply Runtime_Validate_spec in Hv as (Hs & Hall & _). apply Runtime_Validate_spec. cbn. split; [exact Hs|].
  rewrite !Forall_cons in *. destruct Hall as (_ & Hcand & _ & Hn). subst candidate. by repeat split.
Qed.

Lemma Rollback_ok r channel r' : Rollback r channel = Ok r' ->
  Runtime_Validate r channel = Ok tt /\ Runtime_Validate r' channel = Ok tt /\ rs_Candidate r <> "" /\
  rs_Candidate r' = "" /\ rs_Active r' = rs_LastGood r /\ rs_LastGood r' = rs_LastGood r.
Proof.
  unfold Rollback. intros Hp. apply bind_ok in Hp as ([] & Hv & Hp). destruct (bool_decide _) eqn:Hc in Hp; [discriminate Hp|]. injection Hp as <-.
  apply bool_decide_eq_false_1 in Hc. cbn. split; [exact Hv|]. split; [|done].
  apply Runtime_Validate_spec in Hv as (Hs & Hall & _). apply Runtime_Validate_spec. cbn. split; [exact Hs|].
  rewrite !Forall_cons in *. destruct Hall as (_ & _ & Hl & Hn). by repeat split.
Qed.
