(* ===== verification/Update.v ===== *)
(** Updates of a cell: [internal/update/journal.go], [genesis.go] and [trust.go],
    and the launcher loop of [internal/launcher/launcher.go].

    The files of a cell are a disk: a file holds the value last written to it, since
    every write is a rename of a complete file.  Every read and write may fail, as a
    schedule of faults says, and a write may fail before it took effect or after:
    [atomicfile.Write] reports an error of the last [syncParent] although the rename
    is done.  The process may stop at any disk it passes through.  What the network answers, the identity drawn for a transaction, the
    clock and how a started release behaves are arguments. *)
From stdpp Require Import base list strings gmap.
From Stdlib Require Import ZArith Lia Ascii.
From S2P Require Import Prelude GoText Exact Identity Release ReleaseTrust RuntimeState.
Open Scope Z_scope.

Inductive update_error := ErrIO | ErrJournal | ErrState | ErrTrust | ErrNetwork | ErrBundle | ErrManifestMismatch | ErrEntry | ErrPending
  | ErrDowngrade | ErrNoOrigins | ErrRecoveryRequired | ErrProcess.
#[export] Instance update_error_eq_dec : EqDecision update_error.
Proof. solve_decision. Defined.

(** An extracted release: its decoded manifest, its regular files, and whether the
    topology document at its payload entry resolves *)
Record tree := mkTree { tr_manifest : option Manifest; tr_files : gset string; tr_topology : bool }.

Record journal := mkJournal {
  jn_Schema : Z; jn_TransactionID : string; jn_Channel : string; jn_Version : string; jn_SHA256 : string; jn_Phase : string }.

Record disk := mkDisk {
  dk_state : option Runtime; dk_journal : option journal; dk_incoming : gset string; dk_downloads : gmap string bytes;
  dk_versions : gmap string tree; dk_trust : option TrustRoot }.

Definition empty_disk : disk := mkDisk None None ∅ ∅ ∅ None.

Definition set_state (r : Runtime) (d : disk) : disk :=
  mkDisk (Some r) (dk_journal d) (dk_incoming d) (dk_downloads d) (dk_versions d) (dk_trust d).
Definition set_journal (j : option journal) (d : disk) : disk :=
  mkDisk (dk_state d) j (dk_incoming d) (dk_downloads d) (dk_versions d) (dk_trust d).
Definition set_incoming (i : gset string) (d : disk) : disk :=
  mkDisk (dk_state d) (dk_journal d) i (dk_downloads d) (dk_versions d) (dk_trust d).
Definition set_download (name : string) (content : bytes) (d : disk) : disk :=
  mkDisk (dk_state d) (dk_journal d) (dk_incoming d) (<[name := content]> (dk_downloads d)) (dk_versions d) (dk_trust d).
Definition set_version (name : string) (t : tree) (d : disk) : disk :=
  mkDisk (dk_state d) (dk_journal d) (dk_incoming d) (dk_downloads d) (<[name := t]> (dk_versions d)) (dk_trust d).
Definition set_trust (r : TrustRoot) (d : disk) : disk :=
  mkDisk (dk_state d) (dk_journal d) (dk_incoming d) (dk_downloads d) (dk_versions d) (Some r).

(** ** Effects *)

(** How a call on the disk fails: not at all, with nothing done, or with its effect
    in place *)
Inductive fault := NoFault | FailsBefore | FailsAfter.

(** The disk, every disk it was before, and how the next calls fail *)
Record world := mkWorld { w_disk : disk; w_visited : list disk; w_faults : list fault }.

Definition io (A : Type) : Type := world -> outcome update_error A * world.

#[export] Instance io_ret : MRet io := fun A a w => (Ok a, w).
#[export] Instance io_bind : MBind io := fun A B k m w =>
  match m w with
  | (Ok a, w') => k a w'
  | (Fail e, w') => (Fail e, w')
  | (Panic, w') => (Panic, w')
  end.

Definition next_fault (w : world) : fault * world :=
  match w_faults w with
  | [] => (NoFault, w)
  | fault :: rest => (fault, mkWorld (w_disk w) (w_visited w) rest)
  end.

Definition read {A} (f : disk -> A) : io A := fun w =>
  let '(fault, w) := next_fault w in
  match fault with NoFault => (Ok (f (w_disk w)), w) | FailsBefore | FailsAfter => (Fail ErrIO, w) end.

(** [atomicfile.Write]: every error before [os.Rename] leaves the file as it was, an
    error of [syncParent] comes after the file was replaced.  Removals and the rename
    of a release into place fail in one of these ways, too. *)
Definition write (f : disk -> disk) : io unit := fun w =>
  let '(fault, w) := next_fault w in
  let done := mkWorld (f (w_disk w)) (w_disk w :: w_visited w) (w_faults w) in
  match fault with NoFault => (Ok tt, done) | FailsBefore => (Fail ErrIO, w) | FailsAfter => (Fail ErrIO, done) end.

Definition lift {E A} (e : update_error) (r : outcome E A) : io A := fun w => (or_fail e r, w).
Definition need {A} (e : update_error) (r : option A) : io A := fun w => (match r with Some a => Ok a | None => Fail e end, w).
Definition check (e : update_error) (b : bool) : io unit := fun w => (guard_or e b, w).
Definition fail {A} (e : update_error) : io A := fun w => (Fail e, w).

(** A call whose error is only inspected *)
Definition attempt {A} (m : io A) : io (option A) := fun w =>
  match m w with (Ok a, w') => (Ok (Some a), w') | (_, w') => (Ok None, w') end.

(** [_ = call()] *)
Definition ignore (m : io unit) : io unit := fun w => (Ok tt, (m w).2).

(** [defer func() { if !succeeded { cleanup } }()] *)
Definition unless_succeeded {A} (cleanup : io unit) (body : io A) : io A := fun w =>
  match body w with
  | (Ok a, w') => (Ok a, w')
  | (Fail e, w') => (Fail e, (cleanup w').2)
  | (Panic, w') => (Panic, (cleanup w').2)
  end.

(** ** Release trees *)

Definition LoadManifest (t : tree) : io Manifest :=
  manifest ← need ErrManifestMismatch (tr_manifest t);
  _ ← lift ErrManifestMismatch (Manifest_Validate manifest);
  mret manifest.

(** The check that the joined path stays below the root cannot fail: the entry is a
    clean relative path with a named first element. *)
Definition ResolveEntry (t : tree) (entry kind : string) : io string :=
  clean ← lift ErrEntry (validateEntry entry kind);
  _ ← check ErrEntry (bool_decide (clean ∈ tr_files t));
  mret clean.

Definition CLIEntry (target : Target) : outcome trust_error string :=
  _ ← Target_Validate target;
  Ok ("payload/bin/" +:+ ExecutableName target CLIBaseName).

Definition ResolveCLI (t : tree) (manifest : Manifest) : io string :=
  entry ← lift ErrEntry (CLIEntry (mkTarget (mf_Platform manifest) (mf_Arch manifest)));
  ResolveEntry t entry "payload".

(** [runtimetopology.Resolve] *)
Definition ResolveTopology (t : tree) : io unit := check ErrEntry (tr_topology t).

(** ** State and journal files *)

Definition state_Load (channel : string) : io Runtime :=
  runtime ← read dk_state;
  match runtime with
  | None => mret EmptyRuntime
  | Some runtime => _ ← lift ErrState (Runtime_Validate runtime channel); mret runtime
  end.

Definition state_Save (channel : string) (runtime : Runtime) : io unit :=
  _ ← lift ErrState (Runtime_Validate runtime channel);
  write (set_state runtime).

Definition journalSchema : Z := 1.

Definition saveJournal (value : journal) : io unit :=
  write (set_journal (Some (mkJournal journalSchema (jn_TransactionID value) (jn_Channel value) (jn_Version value) (jn_SHA256 value) (jn_Phase value)))).

Definition has_separator (s : string) : bool := existsb (fun a => Ascii.eqb a "/"%char || Ascii.eqb a "\"%char) (bytes_of s).

Definition journal_valid (value : journal) : bool :=
  negb (negb (jn_Schema value =? journalSchema) || bool_decide (jn_TransactionID value = "") || has_separator (jn_TransactionID value) ||
        bool_decide (jn_SHA256 value = "")) && is_ok (ParseVersionForChannel (jn_Version value) (jn_Channel value)).

(** A missing journal is [None]. *)
Definition loadJournal : io (option journal) :=
  value ← read dk_journal;
  match value with
  | None => mret None
  | Some value => _ ← check ErrJournal (journal_valid value); mret (Some value)
  end.

Definition finishRecovery (transaction : string) : io unit :=
  _ ← write (fun d => set_incoming (dk_incoming d ∖ {[transaction]}) d);
  write (set_journal None).

(** ** The installer *)

Record origin := mkOrigin {
  og_root : outcome unit (option TrustRootEnvelope);   (** [metadata/root.json]: an error, absent, or found *)
  og_metadata : option Envelope;                       (** [latest.json] of the channel and target *)
  og_bundle : option bytes;                            (** the body at the bundle's path *)
  og_transaction : string }.                           (** the identity drawn for this attempt *)

Record Bootstrap := mkBootstrap {
  bs_Channel : string; bs_ProtocolFloor : string; bs_InitialTrustRoot : TrustConfig; bs_Host : Target }.

Class BundlePlatform := { bundle_SHA256 : bytes -> string; bundle_Extract : bytes -> option tree }.

Section installer.
Context `{ReleasePlatform} `{BundlePlatform} (bootstrap : Bootstrap).

Definition Recover : io unit :=
  entry ← loadJournal;
  match entry with
  | None => mret tt
  | Some entry =>
      _ ← check ErrJournal (bool_decide (jn_Channel entry = bs_Channel bootstrap));
      runtimeState ← state_Load (bs_Channel bootstrap);
      if bool_decide (rs_Active runtimeState = jn_Version entry) || bool_decide (rs_Candidate runtimeState = jn_Version entry)
      then finishRecovery (jn_TransactionID entry)
      else
        _ ← check ErrPending (bool_decide (rs_Candidate runtimeState = ""));
        installed ← read (fun d => dk_versions d !! jn_Version entry);
        match installed with
        | None => finishRecovery (jn_TransactionID entry)
        | Some installedRoot =>
            manifest ← LoadManifest installedRoot;
            _ ← check ErrManifestMismatch (bool_decide (mf_Version manifest = jn_Version entry));
            _ ← lift ErrManifestMismatch (Manifest_ValidateHost (bs_Host bootstrap) manifest (bs_Channel bootstrap) (bs_ProtocolFloor bootstrap));
            _ ← ResolveEntry installedRoot (mf_Payload manifest) "payload";
            _ ← ResolveTopology installedRoot;
            _ ← ResolveCLI installedRoot manifest;
            prepared ← lift ErrState (Prepare runtimeState (bs_Channel bootstrap) (jn_Version entry));
            _ ← state_Save (bs_Channel bootstrap) prepared;
            finishRecovery (jn_TransactionID entry)
        end
  end.

Definition ensureTrustRoot : io TrustRoot :=
  stored ← read dk_trust;
  match stored with
  | None =>
      initial ← lift ErrTrust (InitialTrustRoot (bs_InitialTrustRoot bootstrap));
      _ ← write (set_trust initial);
      mret initial
  | Some root => _ ← lift ErrTrust (TrustRoot_Validate root); mret root
  end.

Definition rotateTrustRoot (from : origin) (current : TrustRoot) : io TrustRoot :=
  found ← lift ErrNetwork (og_root from);
  match found with
  | None => mret current
  | Some envelope =>
      let signed := renv_Signed envelope in
      if root_Version signed =? root_Version current then mret current
      else if root_Version signed <? root_Version current then fail ErrTrust
      else
        _ ← lift ErrTrust (VerifyTrustRoot envelope current);
        _ ← write (set_trust signed);
        mret signed
  end.

Definition bundle_matches (descriptor : BundleDescriptor) (content : bytes) : bool :=
  bool_decide (bundle_SHA256 content = bn_SHA256 descriptor) && (Z.of_nat (length content) =? bn_Size descriptor).

(** A download is kept up to one byte more than announced, checked, then renamed. *)
Definition fetch_bundle (from : origin) (descriptor : BundleDescriptor) (name : string) : io bytes :=
  body ← need ErrNetwork (og_bundle from);
  let content := take (Z.to_nat (bn_Size descriptor + 1)) body in
  _ ← check ErrBundle (bundle_matches descriptor content);
  _ ← write (set_download name content);
  mret content.

Definition ensureBundle (from : origin) (descriptor : BundleDescriptor) (name : string) : io bytes :=
  cached ← attempt (read (fun d => dk_downloads d !! name));
  match mjoin cached with
  | Some content => if bundle_matches descriptor content then mret content else fetch_bundle from descriptor name
  | None => fetch_bundle from descriptor name
  end.

(** The part of an installation that a transaction covers *)
Definition install_transaction (from : origin) (runtimeState : Runtime) (descriptor : Descriptor) (entry : journal) : io string :=
  content ← ensureBundle from (ds_Bundle descriptor) (bn_SHA256 (ds_Bundle descriptor) +:+ ".tar.zst");
  _ ← saveJournal (mkJournal (jn_Schema entry) (jn_TransactionID entry) (jn_Channel entry) (jn_Version entry) (jn_SHA256 entry) "downloaded");
  _ ← write (fun d => set_incoming (dk_incoming d ∪ {[jn_TransactionID entry]}) d);
  extracted ← need ErrBundle (bundle_Extract content);
  _ ← saveJournal (mkJournal (jn_Schema entry) (jn_TransactionID entry) (jn_Channel entry) (jn_Version entry) (jn_SHA256 entry) "extracted");
  manifest ← LoadManifest extracted;
  _ ← check ErrManifestMismatch (bool_decide (mf_Version manifest = ds_Version descriptor) && bool_decide (mf_Channel manifest = ds_Channel descriptor) &&
        bool_decide (mf_Platform manifest = ds_Platform descriptor) && bool_decide (mf_Arch manifest = ds_Arch descriptor));
  _ ← lift ErrManifestMismatch (Manifest_ValidateHost (bs_Host bootstrap) manifest (bs_Channel bootstrap) (bs_ProtocolFloor bootstrap));
  _ ← ResolveEntry extracted (mf_Launcher manifest) "launcher";
  _ ← ResolveEntry extracted (mf_Payload manifest) "payload";
  _ ← ResolveTopology extracted;
  _ ← ResolveCLI extracted manifest;
  destination ← read (fun d => dk_versions d !! ds_Version descriptor);
  _ ← match destination with
      | None => write (set_version (ds_Version descriptor) extracted)
      | Some existing =>
          found ← LoadManifest existing;
          check ErrManifestMismatch (bool_decide (mf_Version found = ds_Version descriptor))
      end;
  _ ← saveJournal (mkJournal (jn_Schema entry) (jn_TransactionID entry) (jn_Channel entry) (jn_Version entry) (jn_SHA256 entry) "promoted");
  prepared ← lift ErrState (Prepare runtimeState (bs_Channel bootstrap) (ds_Version descriptor));
  _ ← state_Save (bs_Channel bootstrap) prepared;
  _ ← finishRecovery (jn_TransactionID entry);
  mret (ds_Version descriptor).

(** A parse error leaves the zero version. *)
Definition version_of (value channel : string) : Version :=
  match ParseVersionForChannel value channel with Ok v => v | _ => mkVersion 0 0 0 "" 0 "" end.

Definition installFromOrigin (now : Z) (from : origin) : io string :=
  trustRoot ← ensureTrustRoot;
  trustRoot ← rotateTrustRoot from trustRoot;
  envelope ← need ErrNetwork (og_metadata from);
  _ ← lift ErrTrust (VerifyEnvelopeTarget envelope (Config trustRoot) (bs_Channel bootstrap) (bs_ProtocolFloor bootstrap) (bs_Host bootstrap) now);
  let descriptor := env_Signed envelope in
  runtimeState ← state_Load (bs_Channel bootstrap);
  if negb (bool_decide (rs_Candidate runtimeState = "")) then
    if bool_decide (rs_Candidate runtimeState = ds_Version descriptor) then mret (ds_Version descriptor) else fail ErrPending
  else if bool_decide (rs_Active runtimeState = ds_Version descriptor) then mret (ds_Version descriptor)
  else
    let active := version_of (rs_Active runtimeState) (bs_Channel bootstrap) in
    let candidate := version_of (ds_Version descriptor) (bs_Channel bootstrap) in
    _ ← check ErrDowngrade (bool_decide (rs_Active runtimeState = "") || (0 <? Version_Compare candidate active));
    let entry := mkJournal journalSchema (og_transaction from) (bs_Channel bootstrap) (ds_Version descriptor) (bn_SHA256 (ds_Bundle descriptor))
                   "metadata-verified" in
    _ ← saveJournal entry;
    unless_succeeded
      (_ ← ignore (write (fun d => set_incoming (dk_incoming d ∖ {[og_transaction from]}) d)); ignore (write (set_journal None)))
      (install_transaction from runtimeState descriptor entry).

(** The first origin that succeeds *)
Fixpoint try_origins (now : Z) (origins : list origin) : io string :=
  match origins with
  | [] => fail ErrNetwork
  | from :: rest => fun w =>
      match installFromOrigin now from w with
      | (Ok version, w') => (Ok version, w')
      | (_, w') => try_origins now rest w'
      end
  end.

Definition InstallLatest (now : Z) (origins : list origin) : io string :=
  _ ← Recover;
  _ ← check ErrNoOrigins (negb (bool_decide (length origins = 0%nat)));
  _ ← ensureTrustRoot;
  try_origins now origins.

(** ** The launcher *)

(** What became of a started release: it stayed up for the hold, or it did not *)
Inductive run := RunStable | RunFailed.

Definition failCandidate (runtimeState : Runtime) (isCandidate : bool) (cause : update_error) : io unit :=
  if negb isCandidate then fail cause
  else
    rolledBack ← lift ErrState (Rollback runtimeState (bs_Channel bootstrap));
    _ ← state_Save (bs_Channel bootstrap) rolledBack;
    fail cause.

(** [if err != nil { return failCandidate(...) }] around the checks of a release *)
Definition or_failCandidate {A} (runtimeState : Runtime) (isCandidate : bool) (m : io A) (k : A -> io unit) : io unit := fun w =>
  match m w with
  | (Ok a, w') => k a w'
  | (Fail e, w') => failCandidate runtimeState isCandidate e w'
  | (Panic, w') => (Panic, w')
  end.

Definition runManagedRelease (outcome_of_run : run) (runtimeState : Runtime) (selected : string) (isCandidate : bool) : io unit :=
  or_failCandidate runtimeState isCandidate
    (versionRoot ← read (fun d => dk_versions d !! selected);
     versionRoot ← need ErrIO versionRoot;
     manifest ← LoadManifest versionRoot;
     _ ← check ErrManifestMismatch (bool_decide (mf_Version manifest = selected));
     _ ← lift ErrManifestMismatch (Manifest_ValidateHost (bs_Host bootstrap) manifest (bs_Channel bootstrap) (bs_ProtocolFloor bootstrap));
     _ ← ResolveEntry versionRoot (mf_Launcher manifest) "launcher";
     match outcome_of_run with RunStable => mret tt | RunFailed => fail ErrProcess end)
    (fun _ =>
       if isCandidate then
         confirmed ← lift ErrState (Confirm runtimeState (bs_Channel bootstrap) selected);
         state_Save (bs_Channel bootstrap) confirmed
       else mret tt).

(** One round of the loop of [RunB0] *)
Definition launch (outcome_of_run : run) (now : Z) (origins : list origin) : io unit :=
  runtimeState ← state_Load (bs_Channel bootstrap);
  let isCandidate := negb (bool_decide (rs_Candidate runtimeState = "")) in
  let selected := if isCandidate then rs_Candidate runtimeState else rs_Active runtimeState in
  if bool_decide (selected = "") then _ ← InstallLatest now origins; mret tt
  else runManagedRelease outcome_of_run runtimeState selected isCandidate.
End installer.
