(* ===== verification/UpdateInvariant.v ===== *)
(** What holds of the files of a cell at every moment of its life: through updates,
    launches, failing calls and stops at any point. *)
From stdpp Require Import base list strings gmap.
From Stdlib Require Import ZArith Lia Ascii Sorted.
From S2P Require Import Prelude GoText Exact Identity Release ReleaseTrust RuntimeState Update.
Open Scope Z_scope.

(** ** A logic of effects: an invariant of every disk a call passes through *)

Lemma io_bind_run {A B} (m : io A) (k : A -> io B) w :
  (m ≫= k) w = match m w with (Ok a, w') => k a w' | (Fail e, w') => (Fail e, w') | (Panic, w') => (Panic, w') end.
Proof. reflexivity. Qed.

(** The disks of a world, the present one first *)
Definition history (w : world) : list disk := w_disk w :: w_visited w.

Section logic.
Context (ok : disk -> Prop) (onward : disk -> disk -> Prop) (start : disk).

(** Every disk since the start is sound, and each came from the one before by a step
    onward. *)
Definition sound_history (w : world) : Prop := Forall ok (history w) /\ Sorted (flip onward) (history w) /\ last (history w) = Some start.

Definition sound_step (d d' : disk) : Prop := ok d' /\ onward d d'.

Definition triple {A} (R : disk -> Prop) (m : io A) (Q : A -> disk -> Prop) : Prop :=
  forall w, sound_history w -> R (w_disk w) ->
    sound_history (m w).2 /\ (forall a, (m w).1 = Ok a -> Q a (w_disk (m w).2)).

Lemma sound_present w : sound_history w -> ok (w_disk w).
Proof. intros [Hok _]. by apply Forall_cons in Hok as [Hok _]. Qed.

Lemma sound_same w w' : history w' = history w -> sound_history w -> sound_history w'.
Proof. unfold sound_history. by intros ->. Qed.

Lemma sound_extended w d faults : sound_history w -> sound_step (w_disk w) d -> sound_history (mkWorld d (history w) faults).
Proof. intros (Hok & Hs & Hl) [Hd Hle]. split; [by constructor|]. split; [|exact Hl]. constructor; [exact Hs|by constructor]. Qed.

Lemma triple_ret {A} R (a : A) Q : (forall d, ok d -> R d -> Q a d) -> triple R (mret a) Q.
Proof. intros HQ w Hw HR. split; [done|]. intros b [= <-]. apply HQ; [by apply sound_present|done]. Qed.

Lemma triple_bind {A B} R (m : io A) (k : A -> io B) M Q : triple R m M -> (forall a, triple (M a) (k a) Q) -> triple R (m ≫= k) Q.
Proof.
  intros Hm Hk w Hw HR. destruct (Hm w Hw HR) as [Hw' HM]. rewrite io_bind_run. destruct (m w) as [[a|e|] w'] eqn:E; cbn in *; [|done..].
  exact (Hk a w' Hw' (HM a eq_refl)).
Qed.

Lemma triple_weaken {A} R R' (m : io A) Q Q' : triple R m Q -> (forall d, ok d -> R' d -> R d) -> (forall a d, ok d -> Q a d -> Q' a d) -> triple R' m Q'.
Proof.
  intros Hm HR HQ w Hw H'. destruct (Hm w Hw (HR _ (sound_present w Hw) H')) as [Hw' HM]. split; [done|].
  intros a Ha. by apply HQ; [apply sound_present|apply HM].
Qed.

Lemma triple_pure {A} (P : Prop) R (m : io A) Q : (P -> triple R m Q) -> triple (fun d => P /\ R d) m Q.
Proof. intros Hm w Hw [HP HR]. by apply Hm. Qed.

Lemma next_fault_same w : w_disk (next_fault w).2 = w_disk w /\ w_visited (next_fault w).2 = w_visited w.
Proof. unfold next_fault. by destruct (w_faults w). Qed.

Lemma triple_read {A} R (f : disk -> A) : triple R (read f) (fun a d => a = f d /\ R d).
Proof.
  intros w Hw HR. unfold read. destruct (next_fault_same w) as [E1 E2].
  assert (Hn : sound_history (next_fault w).2) by (apply (sound_same w); [unfold history; congruence|done]).
  destruct (next_fault w) as [[] w'] eqn:E; cbn in *; [|by split..]. split; [done|]. intros a [= <-]. by rewrite E1.
Qed.

(** A write that fails is a write that took effect, or did not. *)
Lemma triple_write R (f : disk -> disk) Q : (forall d, ok d -> R d -> sound_step d (f d) /\ Q tt (f d)) -> triple R (write f) Q.
Proof.
  intros Hf w Hw HR. unfold write. destruct (next_fault_same w) as [E1 E2].
  assert (Hn : sound_history (next_fault w).2) by (apply (sound_same w); [unfold history; congruence|done]).
  destruct (Hf _ (sound_present w Hw) HR) as [Hstep HQ]. destruct (next_fault w) as [[] w'] eqn:E; cbn [fst snd] in *; rewrite <- E1 in Hstep, HQ.
  - split; [by apply (sound_extended w')|]. by intros [] _.
  - by split.
  - split; [by apply (sound_extended w')|done].
Qed.

Lemma triple_lift {E A} R e (r : outcome E A) : triple R (lift e r) (fun a d => r = Ok a /\ R d).
Proof. intros w Hw HR. split; [done|]. by intros a ->%or_fail_ok. Qed.

Lemma triple_need {A} R e (r : option A) : triple R (need e r) (fun a d => r = Some a /\ R d).
Proof. intros w Hw HR. split; [done|]. destruct r as [x|]; by intros a [= <-]. Qed.

Lemma triple_check R e b : triple R (check e b) (fun _ d => b = true /\ R d).
Proof. intros w Hw HR. split; [done|]. by intros [] ?%guard_or_ok. Qed.

Lemma triple_fail {A} R e (Q : A -> disk -> Prop) : triple R (fail e) Q.
Proof. intros w Hw HR. by split. Qed.

Lemma triple_ignore R (m : io unit) : triple R m (fun _ _ => True) -> triple R (ignore m) (fun _ _ => True).
Proof. intros Hm w Hw HR. destruct (Hm w Hw HR) as [Hw' _]. by split. Qed.

Lemma triple_attempt_read {A} R (f : disk -> A) : triple R (attempt (read f)) (fun _ => R).
Proof.
  intros w Hw HR. destruct (next_fault_same w) as [E1 E2]. destruct (triple_read R f w Hw HR) as [Hr _]. unfold attempt, read in *.
  destruct (next_fault w) as [[] w'] eqn:E; cbn in *; (split; [exact Hr|]); intros a _; by rewrite E1.
Qed.

Lemma triple_unless {A} R (cleanup : io unit) (body : io A) Q : triple R body Q -> triple (fun _ => True) cleanup (fun _ _ => True) ->
  triple R (unless_succeeded cleanup body) Q.
Proof.
  intros Hb Hc w Hw HR. destruct (Hb w Hw HR) as [Hw' HQ]. unfold unless_succeeded. destruct (body w) as [[a|e|] w'] eqn:E; cbn in *.
  - by split.
  - by destruct (Hc w' Hw' I).
  - by destruct (Hc w' Hw' I).
Qed.
End logic.

(** ** The files of a cell *)

Section cell.
Context `{ReleasePlatform} `{BundlePlatform} (bootstrap : Bootstrap).
Notation channel := (bs_Channel bootstrap).
Notation floor := (bs_ProtocolFloor bootstrap).
Notation host := (bs_Host bootstrap).

Definition runtime_of (d : disk) : Runtime := default EmptyRuntime (dk_state d).

(** [a] is the version [b], or an earlier one, or none. *)
Definition version_le (a b : string) : Prop := a = "" \/ (b <> "" /\ Version_Compare (version_of a channel) (version_of b channel) <= 0).
Definition version_lt (a b : string) : Prop := a = "" \/ 0 < Version_Compare (version_of b channel) (version_of a channel).

(** A root that descends from the initial one by accepted rotations *)
Inductive trusted_root : TrustRoot -> Prop :=
| trusted_initial r : InitialTrustRoot (bs_InitialTrustRoot bootstrap) = Ok r -> trusted_root r
| trusted_rotation r envelope : trusted_root r -> VerifyTrustRoot envelope r = Ok tt -> trusted_root (renv_Signed envelope).

Definition entry_present (t : tree) (entry kind : string) : Prop := exists clean, validateEntry entry kind = Ok clean /\ clean ∈ tr_files t.

(** A release that can be launched as version [v] *)
Definition tree_ok (v : string) (t : tree) : Prop := exists manifest, tr_manifest t = Some manifest /\ mf_Version manifest = v /\
  Manifest_ValidateHost host manifest channel floor = Ok tt /\ entry_present t (mf_Launcher manifest) "launcher" /\
  entry_present t (mf_Payload manifest) "payload" /\ tr_topology t = true /\
  exists entry, CLIEntry (mkTarget (mf_Platform manifest) (mf_Arch manifest)) = Ok entry /\ entry_present t entry "payload".

(** A release that is the content of a bundle whose digest and size a quorum of a
    trusted root signed for version [v] *)
Definition signed_release (v : string) (t : tree) : Prop := exists root envelope now content, trusted_root root /\
  VerifyEnvelopeTarget envelope (Config root) channel floor host now = Ok tt /\ ds_Version (env_Signed envelope) = v /\
  bundle_SHA256 content = bn_SHA256 (ds_Bundle (env_Signed envelope)) /\
  Z.of_nat (length content) = bn_Size (ds_Bundle (env_Signed envelope)) /\ bundle_Extract content = Some t.

Record runtime_ok (d : disk) (r : Runtime) : Prop := mkRuntimeOk {
  run_valid : Runtime_Validate r channel = Ok tt;
  run_good : rs_Active r = rs_LastGood r;
  run_active : rs_Active r <> "" -> is_Some (dk_versions d !! rs_Active r);
  run_candidate : rs_Candidate r <> "" -> is_Some (dk_versions d !! rs_Candidate r) /\ version_lt (rs_Active r) (rs_Candidate r) }.

Record journal_ok (r : Runtime) (j : journal) : Prop := mkJournalOk {
  jok_valid : journal_valid j = true;
  jok_channel : jn_Channel j = channel;
  jok_candidate : rs_Candidate r = "" \/ rs_Candidate r = jn_Version j;
  jok_newer : rs_Active r = jn_Version j \/ version_lt (rs_Active r) (jn_Version j) }.

Record disk_ok (d : disk) : Prop := mkDiskOk {
  ok_versions : forall v t, dk_versions d !! v = Some t -> tree_ok v t /\ signed_release v t;
  ok_trust : forall r, dk_trust d = Some r -> trusted_root r;
  ok_state : runtime_ok d (runtime_of d);
  ok_journal : forall j, dk_journal d = Some j -> journal_ok (runtime_of d) j }.

(** The active version does not go back. *)
Definition onward (d d' : disk) : Prop := version_le (rs_Active (runtime_of d)) (rs_Active (runtime_of d')).

(** ** Versions *)

Lemma Version_Compare_self v : Version_Compare v v = 0.
Proof. pose proof (Version_Compare_opposite v v). lia. Qed.

Lemma version_le_refl a : version_le a a.
Proof. destruct (decide (a = "")) as [->|Hne]; [by left|right]. split; [done|]. by rewrite Version_Compare_self. Qed.

Lemma version_lt_le a b : b <> "" -> version_lt a b -> version_le a b.
Proof. intros Hb [->|Hlt]; [by left|right]. split; [done|]. rewrite Version_Compare_opposite. lia. Qed.

Lemma version_le_trans a b c : version_le a b -> version_le b c -> version_le a c.
Proof.
  intros [->|[Hb H1]]; [by left|]. intros [->|[Hc H2]]; [done|]. right. split; [done|]. by eapply Version_Compare_trans.
Qed.

(** ** Writes that keep the invariant *)

Section writes.
Notation ok := disk_ok.
Notation step := (sound_step disk_ok onward).

Lemma ok_set_journal j d : ok d -> (forall x, j = Some x -> journal_ok (runtime_of d) x) -> step d (set_journal j d).
Proof. intros [V T S J] Hj. split; [|apply version_le_refl]. split; [exact V|exact T| |exact Hj]. destruct S. by split. Qed.

Lemma ok_set_incoming i d : ok d -> step d (set_incoming i d).
Proof. intros [V T S J]. split; [|apply version_le_refl]. split; [exact V|exact T| |exact J]. destruct S. by split. Qed.

Lemma ok_set_download name content d : ok d -> step d (set_download name content d).
Proof. intros [V T S J]. split; [|apply version_le_refl]. split; [exact V|exact T| |exact J]. destruct S. by split. Qed.

Lemma ok_set_trust r d : ok d -> trusted_root r -> step d (set_trust r d).
Proof. intros [V T S J] Hr. split; [|apply version_le_refl]. split; [exact V|by intros x [= <-]| |exact J]. destruct S. by split. Qed.

Lemma ok_set_version v t d : ok d -> tree_ok v t -> signed_release v t -> step d (set_version v t d).
Proof.
  intros [V T S J] Ht Hs. split; [|apply version_le_refl]. split; [|exact T| |exact J].
  - intros v' t'. cbn. destruct (decide (v = v')) as [->|Hne]; [rewrite lookup_insert_eq; by intros [= <-]|].
    rewrite lookup_insert_ne by done. apply V.
  - assert (Hin : forall x, is_Some (dk_versions d !! x) -> is_Some (<[v := t]> (dk_versions d) !! x)).
    { intros x Hx. destruct (decide (v = x)) as [->|Hne]; [rewrite lookup_insert_eq; by eexists|by rewrite lookup_insert_ne]. }
    destruct S as [Sv Sg Sa Sc]. split; cbn; [exact Sv|exact Sg|intros Hx; by apply Hin, Sa|].
    intros Hx. destruct (Sc Hx) as [H1 H2]. split; [by apply Hin|exact H2].
Qed.

Lemma ok_set_state r d : ok d -> runtime_ok d r -> (forall j, dk_journal d = Some j -> journal_ok r j) -> version_le (rs_Active (runtime_of d)) (rs_Active r) -> step d (set_state r d).
Proof. intros [V T S J] Hr Hj Hb. split; [|exact Hb]. split; [exact V|exact T| |exact Hj]. destruct Hr. by split. Qed.
End writes.
End cell.

(** * Every call of the installer and the launcher keeps the files of a cell sound,
    at every disk it passes through. *)


Ltac seq := eapply triple_bind.
Ltac pure := apply triple_pure; intros.

Section operations.
Context `{ReleasePlatform} `{BundlePlatform} (bootstrap : Bootstrap) (start : disk).
Notation channel := (bs_Channel bootstrap).
Notation floor := (bs_ProtocolFloor bootstrap).
Notation host := (bs_Host bootstrap).
Notation ok := (disk_ok bootstrap).
Notation step := (sound_step ok (onward bootstrap)).
Notation htriple := (triple ok (onward bootstrap) start).

(** ** Files *)

Lemma state_Load_spec R : htriple R (state_Load channel) (fun r d => r = runtime_of d /\ R d).
Proof.
  unfold state_Load. seq; [apply triple_read|]. intros r. destruct r as [r|].
  - seq; [apply triple_lift|]. intros []. apply triple_ret. intros d _ (_ & Hr & HR). unfold runtime_of. by rewrite <- Hr.
  - apply triple_ret. intros d _ [Hr HR]. unfold runtime_of. by rewrite <- Hr.
Qed.

Lemma state_Save_spec r R Q : (forall d, ok d -> R d -> step d (set_state r d) /\ Q (set_state r d)) ->
  htriple R (state_Save channel r) (fun _ => Q).
Proof. intros Hs. unfold state_Save. seq; [apply triple_lift|]. intros []. apply triple_write. intros d Hd [_ HR]. by apply Hs. Qed.

Lemma loadJournal_spec R : htriple R loadJournal (fun j d => dk_journal d = j /\ R d).
Proof.
  unfold loadJournal. seq; [apply triple_read|]. intros j. destruct j as [j|].
  - seq; [apply triple_check|]. intros ?. apply triple_ret. intros d _ (_ & Hj & HR). by split.
  - apply triple_ret. intros d _ [Hj HR]. by split.
Qed.

Lemma finishRecovery_spec transaction (R : disk -> Prop) :
  (forall d i, R d -> R (set_incoming i d)) -> (forall d, R d -> R (set_journal None d)) ->
  htriple R (finishRecovery transaction) (fun _ d => dk_journal d = None /\ R d).
Proof.
  intros H1 H2. unfold finishRecovery. seq; [apply (triple_write _ _ _ _ _ (fun _ => R))|].
  - intros d Hd HR. split; [by apply ok_set_incoming|by apply H1].
  - intros ?. apply triple_write. intros d Hd HR. split; [|by split; [|apply H2]]. by apply ok_set_journal.
Qed.

Lemma LoadManifest_spec t R : htriple R (LoadManifest t) (fun m d => tr_manifest t = Some m /\ R d).
Proof.
  unfold LoadManifest. seq; [apply triple_need|]. intros m. pure. seq; [apply triple_lift|]. intros []. apply triple_ret. by intros d _ [_ HR].
Qed.

Lemma ResolveEntry_spec t entry kind R : htriple R (ResolveEntry t entry kind) (fun _ d => entry_present t entry kind /\ R d).
Proof.
  unfold ResolveEntry. seq; [apply triple_lift|]. intros clean. pure. seq; [apply triple_check|]. intros ?. pure. apply triple_ret.
  intros d _ HR. split; [|exact HR]. exists clean. split; [assumption|].
  match goal with HX : bool_decide _ = true |- _ => exact (bool_decide_eq_true_1 _ HX) end.
Qed.

Lemma ResolveCLI_spec t manifest R : htriple R (ResolveCLI t manifest)
  (fun _ d => (exists entry, CLIEntry (mkTarget (mf_Platform manifest) (mf_Arch manifest)) = Ok entry /\ entry_present t entry "payload") /\ R d).
Proof.
  unfold ResolveCLI. seq; [apply triple_lift|]. intros entry. pure. eapply triple_weaken; [apply ResolveEntry_spec|by intros d _ HR; exact HR|].
  intros _ d _ [He HR]. split; [by exists entry|exact HR].
Qed.

(** ** Recovery *)

(** Preparing a newer installed version keeps the files sound. *)
Lemma ok_prepare d r v : ok d -> Prepare (runtime_of d) channel v = Ok r -> is_Some (dk_versions d !! v) ->
  version_lt bootstrap (rs_Active (runtime_of d)) v -> (forall j, dk_journal d = Some j -> jn_Version j = v) ->
  step d (set_state r d) /\ rs_Candidate r = v.
Proof.
  intros Hd (Hv & Hv' & Hc & Hc' & Ha & Hl & _)%Prepare_ok Hin Hlt Hj. split; [|exact Hc']. destruct Hd as [V T S J]. apply ok_set_state; [by split| | |].
  - destruct S as [Sv Sg Sa Sc]. split; [exact Hv'|congruence|rewrite Ha; exact Sa|]. intros ?. rewrite Hc', Ha. by split.
  - intros j Hx. specialize (Hj j Hx). destruct (J j Hx) as [J1 J2 J3 J4]. split; [exact J1|exact J2|right; congruence|rewrite Ha; exact J4].
  - rewrite Ha. apply version_le_refl.
Qed.

Lemma Recover_spec R : (forall d i, R d -> R (set_incoming i d)) -> (forall d j, R d -> R (set_journal j d)) ->
  (forall d r, R d -> R (set_state r d)) -> htriple R (Recover bootstrap) (fun _ d => dk_journal d = None /\ R d).
Proof.
  intros R1 R2 R3. unfold Recover. seq; [apply loadJournal_spec|]. intros [entry|]; [|apply triple_ret; by intros d _ [? ?]].
  seq; [apply triple_check|]. intros ?. pure. seq; [apply state_Load_spec|]. intros r.
  assert (Hfin : forall P : disk -> Prop, (forall d, P d -> R d) -> htriple P (finishRecovery (jn_TransactionID entry)) (fun _ d => dk_journal d = None /\ R d)).
  { intros P HP. eapply triple_weaken; [apply (finishRecovery_spec _ R); [exact R1|by intros; apply R2]|intros d _ Hx; by apply HP|by intros ? d _ Hx]. }
  destruct (_ || _) eqn:E; [apply Hfin; by intros d (_ & _ & HR)|]. apply orb_false_iff in E as [E1%bool_decide_eq_false_1 E2%bool_decide_eq_false_1].
  seq; [apply triple_check|]. intros ?. pure. seq; [apply triple_read|]. intros installed. destruct installed as [t|]; [|apply Hfin; by intros d (_ & _ & _ & HR)].
  seq; [apply LoadManifest_spec|]. intros m. pure. seq; [apply triple_check|]. intros ?. pure. seq; [apply triple_lift|]. intros []. pure.
  seq; [apply ResolveEntry_spec|]. intros ?. pure. seq; [apply triple_check|]. intros ?. pure. seq; [apply ResolveCLI_spec|]. intros ?. pure.
  seq; [apply triple_lift|]. intros prepared. pure. seq; [apply (state_Save_spec prepared _ R)|].
  - intros d Hd (Hin & -> & Hj & HR). split; [|by apply R3]. eapply ok_prepare; [exact Hd|eassumption|by rewrite <- Hin; eexists| |].
    + destruct Hd as [_ _ _ J]. destruct (J _ Hj) as [_ _ _ [Hx|Hx]]; [congruence|exact Hx].
    + intros j Hx. congruence.
  - intros ?. by apply Hfin.
Qed.

(** ** Trust and bundles *)

Lemma ensureTrustRoot_spec (R : disk -> Prop) : (forall d r, R d -> R (set_trust r d)) ->
  htriple R (ensureTrustRoot bootstrap) (fun root d => trusted_root bootstrap root /\ R d).
Proof.
  intros HR. unfold ensureTrustRoot. seq; [apply triple_read|]. intros stored. destruct stored as [root|].
  - seq; [apply triple_lift|]. intros []. pure. apply triple_ret. intros d [_ T _ _] [Hs Hx]. split; [by apply T|exact Hx].
  - seq; [apply triple_lift|]. intros initial. apply triple_pure. intros Hi. seq; [apply (triple_write _ _ _ _ _ (fun _ => R))|].
    + intros d Hd [_ Hx]. split; [|by apply HR]. apply ok_set_trust; [exact Hd|by constructor].
    + intros ?. apply triple_ret. intros d _ Hx. split; [by constructor|exact Hx].
Qed.

Lemma rotateTrustRoot_spec (R : disk -> Prop) from current : (forall d r, R d -> R (set_trust r d)) -> trusted_root bootstrap current ->
  htriple R (rotateTrustRoot from current) (fun root d => trusted_root bootstrap root /\ R d).
Proof.
  intros HR Hc. unfold rotateTrustRoot. seq; [apply triple_lift|]. intros found. pure. destruct found as [envelope|]; [|by apply triple_ret].
  cbn zeta. destruct (_ =? _); [by apply triple_ret|]. destruct (_ <? _); [apply triple_fail|]. seq; [apply triple_lift|]. intros [].
  apply triple_pure. intros Hv. assert (Ht : trusted_root bootstrap (renv_Signed envelope)) by (by eapply trusted_rotation).
  seq; [apply (triple_write _ _ _ _ _ (fun _ => R))|].
  - intros d Hd Hx. split; [by apply ok_set_trust|by apply HR].
  - intros ?. by apply triple_ret.
Qed.

Lemma bundle_matches_ok descriptor content : bundle_matches descriptor content = true ->
  bundle_SHA256 content = bn_SHA256 descriptor /\ Z.of_nat (length content) = bn_Size descriptor.
Proof. unfold bundle_matches. intros Hm. bool_prop. done. Qed.

Lemma ensureBundle_spec (R : disk -> Prop) from descriptor name : (forall d n c, R d -> R (set_download n c d)) ->
  htriple R (ensureBundle from descriptor name)
    (fun content d => (bundle_SHA256 content = bn_SHA256 descriptor /\ Z.of_nat (length content) = bn_Size descriptor) /\ R d).
Proof.
  intros HR.
  assert (Hf : htriple R (fetch_bundle from descriptor name)
    (fun content d => (bundle_SHA256 content = bn_SHA256 descriptor /\ Z.of_nat (length content) = bn_Size descriptor) /\ R d)).
  { unfold fetch_bundle. seq; [apply triple_need|]. intros body. pure. cbn zeta. seq; [apply triple_check|]. intros ?. apply triple_pure. intros Hm.
    seq; [apply (triple_write _ _ _ _ _ (fun _ => R))|].
    - intros d Hd Hx. split; [by apply ok_set_download|by apply HR].
    - intros ?. apply triple_ret. intros d _ Hx. split; [by apply bundle_matches_ok|exact Hx]. }
  unfold ensureBundle. seq; [apply triple_attempt_read|]. intros cached. destruct (mjoin cached) as [content|]; [|exact Hf].
  destruct (bundle_matches descriptor content) eqn:Hm; [|exact Hf]. apply triple_ret. intros d _ Hx. split; [by apply bundle_matches_ok|exact Hx].
Qed.

(** ** Installation *)

Lemma LoadManifest_same t R : htriple R (LoadManifest t) (fun _ => R).
Proof. eapply triple_weaken; [apply (LoadManifest_spec t R)|done|]. by intros m d _ [_ HR]. Qed.

Section transaction.
Context (from : origin) (r : Runtime) (root : TrustRoot) (envelope : Envelope) (now : Z) (entry : journal).
Notation descriptor := (env_Signed envelope).
Hypothesis Hroot : trusted_root bootstrap root.
Hypothesis Henv : VerifyEnvelopeTarget envelope (Config root) channel floor host now = Ok tt.
Hypothesis Hlt : version_lt bootstrap (rs_Active r) (ds_Version descriptor).
Hypothesis Hentry : jn_Version entry = ds_Version descriptor.
Hypothesis Hphase : forall phase, journal_ok bootstrap r
  (mkJournal journalSchema (jn_TransactionID entry) (jn_Channel entry) (jn_Version entry) (jn_SHA256 entry) phase).

(** While the transaction runs: the state is as loaded, the journal is its own *)
Definition under_way (d : disk) : Prop := runtime_of d = r /\ forall j, dk_journal d = Some j -> jn_Version j = ds_Version descriptor.

Lemma save_phase phase (R : disk -> Prop) : (forall d, R d -> under_way d) -> (forall d j, R d -> jn_Version j = ds_Version descriptor -> R (set_journal (Some j) d)) ->
  htriple R (saveJournal (mkJournal (jn_Schema entry) (jn_TransactionID entry) (jn_Channel entry) (jn_Version entry) (jn_SHA256 entry) phase)) (fun _ => R).
Proof.
  intros Hu Hj. unfold saveJournal. apply triple_write. intros d Hd HR. cbn. split; [|by apply Hj]. apply ok_set_journal; [exact Hd|].
  intros x [= <-]. destruct (Hu d HR) as [-> _]. apply Hphase.
Qed.

Lemma under_way_journal d j : under_way d -> jn_Version j = ds_Version descriptor -> under_way (set_journal (Some j) d).
Proof. intros [Hr _] Hj. split; [exact Hr|]. cbn. by intros x [= <-]. Qed.

Lemma install_transaction_spec : htriple under_way (install_transaction bootstrap from r descriptor entry)
  (fun v d => v = ds_Version descriptor /\ rs_Candidate (runtime_of d) = v).
Proof.
  unfold install_transaction. seq; [by apply ensureBundle_spec; intros d n c [? ?]|]. intros content. apply triple_pure. intros [Hsha Hsize].
  seq; [by apply save_phase; [|apply under_way_journal]|]. intros ?.
  seq; [apply (triple_write _ _ _ _ _ (fun _ => under_way)); intros d Hd Hu; split; [by apply ok_set_incoming|exact Hu]|]. intros ?.
  seq; [apply triple_need|]. intros extracted. apply triple_pure. intros Hextract. seq; [by apply save_phase; [|apply under_way_journal]|]. intros ?.
  seq; [apply LoadManifest_spec|]. intros manifest. apply triple_pure. intros Hmanifest. seq; [apply triple_check|]. intros ?. apply triple_pure. intros Hsame.
  seq; [apply triple_lift|]. intros []. apply triple_pure. intros Hhost. seq; [apply ResolveEntry_spec|]. intros ?. apply triple_pure. intros Hlauncher.
  seq; [apply ResolveEntry_spec|]. intros ?. apply triple_pure. intros Hpayload. seq; [apply triple_check|]. intros ?. apply triple_pure. intros Htopology.
  seq; [apply ResolveCLI_spec|]. intros ?. apply triple_pure. intros Hcli.
  assert (Htree : tree_ok bootstrap (ds_Version descriptor) extracted).
  { exists manifest. bool_prop. do 5 (split; [assumption|]). by split. }
  seq; [apply triple_read|]. intros destination. set (installed d := is_Some (dk_versions d !! ds_Version descriptor) /\ under_way d).
  seq; [|intros ?; seq; [apply (save_phase _ installed)|]].
  - destruct destination as [existing|].
    + seq; [apply LoadManifest_same|]. intros found. eapply triple_weaken; [apply triple_check|intros d _ Hx; exact Hx|].
      intros ? d _ (_ & Hd & Hu). split; [by rewrite <- Hd; eexists|exact Hu].
    + apply triple_write. intros d Hd [Hnone Hu]. split.
      * apply ok_set_version; [exact Hd|exact Htree|]. by exists root, envelope, now, content.
      * split; [cbn; rewrite lookup_insert_eq; by eexists|exact Hu].
  - by intros d [_ Hu].
  - intros d j [Hi Hu] Hj. split; [exact Hi|by apply under_way_journal].
  - intros ?. seq; [apply triple_lift|]. intros prepared. apply triple_pure. intros Hprepared.
    seq; [apply (state_Save_spec prepared _ (fun d => rs_Candidate (runtime_of d) = ds_Version descriptor))|].
    + intros d Hd (Hi & Hr & Hj). rewrite <- Hr in Hprepared, Hlt. by apply ok_prepare.
    + intros ?. seq; [apply (finishRecovery_spec _ (fun d => rs_Candidate (runtime_of d) = ds_Version descriptor)); by intros|].
      intros ?. apply triple_ret. by intros d _ [_ Hc].
Qed.
End transaction.

(** An identity as [randomID] draws it *)
Definition drawn (id : string) : Prop := id <> "" /\ has_separator id = false.

Lemma verified_descriptor envelope trust now : VerifyEnvelopeTarget envelope trust channel floor host now = Ok tt ->
  is_ok (ParseVersionForChannel (ds_Version (env_Signed envelope)) channel) = true /\ bn_SHA256 (ds_Bundle (env_Signed envelope)) <> "".
Proof.
  unfold VerifyEnvelopeTarget. intros Hv. apply bind_ok in Hv as ([] & Hd & _). unfold Descriptor_Validate in Hd.
  destruct (negb _) in Hd; [discriminate Hd|]. apply bind_ok in Hd as (v & Hv%or_fail_ok & Hd). do 4 (apply bind_ok in Hd as ([] & _ & Hd)).
  apply bind_ok in Hd as ([] & _ & Hd). apply bind_ok in Hd as ([] & Hs%guard_or_ok & _). rewrite Hv. split; [done|].
  intros Hx. rewrite Hx in Hs. discriminate Hs.
Qed.

Lemma ParseVersion_nonempty v : is_ok (ParseVersionForChannel v channel) = true -> v <> "".
Proof. intros Hv ->. discriminate Hv. Qed.

Lemma entry_ok r from envelope trust now phase : VerifyEnvelopeTarget envelope trust channel floor host now = Ok tt -> drawn (og_transaction from) ->
  rs_Candidate r = "" -> version_lt bootstrap (rs_Active r) (ds_Version (env_Signed envelope)) ->
  journal_ok bootstrap r (mkJournal journalSchema (og_transaction from) channel (ds_Version (env_Signed envelope))
    (bn_SHA256 (ds_Bundle (env_Signed envelope))) phase).
Proof.
  intros [Hp Hs]%verified_descriptor [Hid Hsep] Hc Hlt. split; [|done|by left|by right]. unfold journal_valid.
  cbn [jn_Schema jn_TransactionID jn_Channel jn_Version jn_SHA256]. rewrite Hp, Hsep, !bool_decide_eq_false_2, Z.eqb_refl by done. done.
Qed.

(** A version is pending or active. *)
Definition in_use (v : string) (d : disk) : Prop := rs_Candidate (runtime_of d) = v \/ rs_Active (runtime_of d) = v.

Lemma cleanup_spec transaction : htriple (fun _ => True)
  (_ ← ignore (write (fun d => set_incoming (dk_incoming d ∖ {[transaction]}) d)); ignore (write (set_journal None))) (fun _ _ => True).
Proof.
  seq; [apply triple_ignore, triple_write; intros d Hd _; split; [by apply ok_set_incoming|done]|]. intros ?.
  apply triple_ignore, triple_write. intros d Hd _. split; [by apply ok_set_journal|done].
Qed.

Lemma installFromOrigin_spec now from : drawn (og_transaction from) ->
  htriple (fun _ => True) (installFromOrigin bootstrap now from) in_use.
Proof.
  intros Hid. unfold installFromOrigin. seq; [by apply (ensureTrustRoot_spec (fun _ => True))|]. intros root0. apply triple_pure. intros Hroot0.
  seq; [by apply (rotateTrustRoot_spec (fun _ => True))|]. intros root. apply triple_pure. intros Hroot.
  seq; [apply triple_need|]. intros envelope. pure. seq; [apply triple_lift|]. intros []. apply triple_pure. intros Henv. cbn zeta.
  seq; [apply state_Load_spec|]. intros r. destruct (negb _) eqn:Ec.
  { destruct (bool_decide (rs_Candidate r = ds_Version (env_Signed envelope))) eqn:Hx; [|apply triple_fail]. apply bool_decide_eq_true_1 in Hx.
    apply triple_ret. intros d _ [-> _]. by left. }
  apply negb_false_iff, bool_decide_eq_true_1 in Ec.
  destruct (bool_decide (rs_Active r = ds_Version (env_Signed envelope))) eqn:Hx;
    [apply bool_decide_eq_true_1 in Hx; apply triple_ret; intros d _ [-> _]; by right|].
  seq; [apply triple_check|]. intros ?. apply triple_pure. intros Hlt.
  assert (Hv : version_lt bootstrap (rs_Active r) (ds_Version (env_Signed envelope))).
  { apply orb_true_iff in Hlt as [Hlt|Hlt]; [left; by apply bool_decide_eq_true_1 in Hlt|right; by apply Z.ltb_lt]. }
  seq; [apply (triple_write _ _ _ _ _ (fun _ => under_way r envelope))|].
  - intros d Hd [Hr _]. cbn [jn_TransactionID jn_Channel jn_Version jn_SHA256 jn_Phase]. split; [|by split; [|intros j [= <-]]].
    apply ok_set_journal; [exact Hd|]. intros x [= <-]. rewrite <- Hr. by eapply entry_ok.
  - intros ?. apply triple_unless; [|apply cleanup_spec].
    eapply triple_weaken; [apply (install_transaction_spec from r root envelope now); [exact Hroot|exact Henv|exact Hv|done|]|done|].
    + intros phase. by eapply entry_ok.
    + intros v d _ [-> Hc]. by left.
Qed.

Lemma try_origins_spec now origins : Forall (fun from => drawn (og_transaction from)) origins ->
  htriple (fun _ => True) (try_origins bootstrap now origins) in_use.
Proof.
  induction 1 as [|from rest Hid _ IH]; cbn [try_origins]; [apply triple_fail|]. intros w Hw _.
  destruct (installFromOrigin_spec now from Hid w Hw I) as [Hw' HQ].
  destruct (installFromOrigin bootstrap now from w) as [[v|e|] w'] eqn:E; cbn in *; [by split|exact (IH w' Hw' I)|exact (IH w' Hw' I)].
Qed.

Lemma InstallLatest_spec now origins : Forall (fun from => drawn (og_transaction from)) origins ->
  htriple (fun _ => True) (InstallLatest bootstrap now origins) in_use.
Proof.
  intros Hids. unfold InstallLatest. seq; [by apply (Recover_spec (fun _ => True))|]. intros ?. seq; [apply triple_check|]. intros ?. pure.
  seq; [apply (ensureTrustRoot_spec (fun d => dk_journal d = None /\ True)); by intros|]. intros root.
  eapply triple_weaken; [by apply try_origins_spec|done|done].
Qed.

(** ** Launches *)

Lemma ok_confirm d r v : ok d -> Confirm (runtime_of d) channel v = Ok r -> step d (set_state r d) /\ rs_Candidate r = "".
Proof.
  intros Hd (Hv & Hv' & Hne & Hc & Hc' & Ha & Hl)%Confirm_ok. split; [|exact Hc']. pose proof Hd as Hd0. destruct Hd as [V T S J]. destruct S as [Sv Sg Sa Sc].
  rewrite Hc in Sc. destruct (Sc Hne) as [Hin Hlt]. apply ok_set_state; [exact Hd0| | |].
  - split; [exact Hv'|congruence|by rewrite Ha|]. intros Hx. congruence.
  - intros j Hj. destruct (J j Hj) as [J1 J2 J3 J4]. split; [exact J1|exact J2|by left|left]. destruct J3 as [Hx|Hx]; congruence.
  - rewrite Ha. by apply version_lt_le.
Qed.

Lemma ok_rollback d r : ok d -> Rollback (runtime_of d) channel = Ok r -> step d (set_state r d) /\ rs_Candidate r = "".
Proof.
  intros Hd (Hv & Hv' & Hne & Hc' & Ha & Hl)%Rollback_ok. split; [|exact Hc']. pose proof Hd as Hd0. destruct Hd as [V T S J]. destruct S as [Sv Sg Sa Sc].
  rewrite <- Sg in Ha. apply ok_set_state; [exact Hd0| | |].
  - split; [exact Hv'|congruence|by rewrite Ha|]. intros Hx. congruence.
  - intros j Hj. destruct (J j Hj) as [J1 J2 J3 J4]. split; [exact J1|exact J2|by left|by rewrite Ha].
  - rewrite Ha. apply version_le_refl.
Qed.

Lemma failCandidate_spec r isCandidate cause : htriple (fun d => runtime_of d = r) (failCandidate bootstrap r isCandidate cause) (fun _ _ => True).
Proof.
  unfold failCandidate. destruct (negb isCandidate); [apply triple_fail|]. seq; [apply triple_lift|]. intros rolled. apply triple_pure. intros Hr.
  seq; [apply (state_Save_spec rolled _ (fun _ => True))|intros ?; apply triple_fail].
  intros d Hd Hx. rewrite <- Hx in Hr. split; [exact (proj1 (ok_rollback d rolled Hd Hr))|done].
Qed.

(** The checks of a release only read. *)
Definition reads {A} (m : io A) : Prop := forall w, w_disk (m w).2 = w_disk w /\ w_visited (m w).2 = w_visited w.

Lemma reads_bind {A B} (m : io A) (k : A -> io B) : reads m -> (forall a, reads (k a)) -> reads (m ≫= k).
Proof.
  intros Hm Hk w. rewrite io_bind_run. destruct (Hm w) as [H1 H2]. destruct (m w) as [[a|e|] w'] eqn:E; cbn in *; [|done|done].
  destruct (Hk a w') as [K1 K2]. by rewrite K1, K2.
Qed.

Lemma reads_read {A} (f : disk -> A) : reads (read f).
Proof. intros w. unfold read. destruct (next_fault_same w) as [E1 E2]. destruct (next_fault w) as [[] w'] eqn:E; by cbn in *. Qed.

Lemma reads_checks t manifest v : reads (LoadManifest t) /\ reads (ResolveEntry t (mf_Launcher manifest) "launcher") /\
  reads (lift ErrManifestMismatch (Manifest_ValidateHost host manifest channel floor)) /\ reads (check ErrManifestMismatch v).
Proof.
  split; [by apply reads_bind; [|intros ?; apply reads_bind]|]. split; [by apply reads_bind; [|intros ?; apply reads_bind]|]. done.
Qed.

Lemma or_failCandidate_spec {A} r isCandidate (m : io A) k (Q : disk -> Prop) : reads m ->
  (forall a, htriple (fun d => runtime_of d = r) (k a) (fun _ _ => True)) ->
  htriple (fun d => runtime_of d = r) (or_failCandidate bootstrap r isCandidate m k) (fun _ _ => True).
Proof.
  intros Hm Hk w Hw Hr. destruct (Hm w) as [H1 H2]. unfold or_failCandidate.
  assert (Hn : sound_history ok (onward bootstrap) start (m w).2) by (apply (sound_same _ _ _ w); [unfold history; congruence|done]).
  destruct (m w) as [[a|e|] w'] eqn:E; cbn [fst snd] in *.
  - apply Hk; [done|congruence].
  - apply failCandidate_spec; [done|congruence].
  - by split.
Qed.

Lemma runManagedRelease_spec result r selected isCandidate :
  htriple (fun d => runtime_of d = r) (runManagedRelease bootstrap result r selected isCandidate) (fun _ _ => True).
Proof.
  unfold runManagedRelease. apply (or_failCandidate_spec r isCandidate _ _ (fun _ => True)).
  - apply reads_bind; [apply reads_read|]. intros root. apply reads_bind; [done|]. intros t.
    apply reads_bind; [by apply (reads_checks t (mkManifest 0 "" "" "" "" "" "" "" 0) true)|]. intros manifest.
    apply reads_bind; [done|]. intros []. apply reads_bind; [done|]. intros []. apply reads_bind; [by apply (reads_checks t manifest true)|]. intros ?.
    by destruct result.
  - intros _. destruct isCandidate; [|by apply triple_ret]. seq; [apply triple_lift|]. intros confirmed. apply triple_pure. intros Hc.
    apply (state_Save_spec confirmed _ (fun _ => True)). intros d Hd Hx. rewrite <- Hx in Hc. split; [exact (proj1 (ok_confirm d confirmed selected Hd Hc))|done].
Qed.

Lemma launch_spec result now origins : Forall (fun from => drawn (og_transaction from)) origins ->
  htriple (fun _ => True) (launch bootstrap result now origins) (fun _ _ => True).
Proof.
  intros Hids. unfold launch. seq; [apply state_Load_spec|]. intros r. cbn zeta. destruct (bool_decide _).
  - seq; [eapply triple_weaken; [by apply InstallLatest_spec|done|by intros v d _ Hu; exact Hu]|]. intros v. by apply triple_ret.
  - eapply triple_weaken; [apply runManagedRelease_spec|by intros d _ [-> _]|done].
Qed.
End operations.
