(* ===== verification/UpdateLife.v ===== *)
(** The life of a cell: what updates, launches and stops at any point can and
    cannot do to its files. *)
From stdpp Require Import base list strings gmap relations sorting.
From Stdlib Require Import ZArith Lia Ascii Sorted.
From S2P Require Import Prelude GoText Exact Identity Release ReleaseTrust RuntimeState Update UpdateInvariant.
Open Scope Z_scope.

(** The disks that a call passes through in order, from the one it starts on to the
    one it leaves: those at which the process may stop *)
Definition disks_of {A} (m : io A) (faults : list fault) (d : disk) : list disk := reverse (history (m (mkWorld d [] faults)).2).

Lemma sorted_reverse {A} (R : A -> A -> Prop) `{!Transitive R} l : Sorted (flip R) l -> StronglySorted R (reverse l).
Proof.
  intros Hs%(Sorted_StronglySorted (R := flip R)); [|intros x y z Hxy Hyz; exact (transitivity (R := R) Hyz Hxy)].
  induction Hs as [|x l _ IH Hx]; [constructor|]. rewrite reverse_cons. apply StronglySorted_app_2; [|exact IH|by repeat constructor].
  intros y z Hy ->%list_elem_of_singleton. rewrite elem_of_reverse in Hy. rewrite Forall_forall in Hx. exact (Hx y Hy).
Qed.

Section life.
Context `{ReleasePlatform} `{BundlePlatform} (bootstrap : Bootstrap).
Notation channel := (bs_Channel bootstrap).

(** One thing that happens to a cell, with the disks it passes through: a start of
    the launcher, an update, or a round of the launcher's loop, under any faults *)
Inductive cell_run (d : disk) : list disk -> Prop :=
| run_start faults : cell_run d (disks_of (Recover bootstrap) faults d)
| run_update now origins faults : Forall (fun from => drawn (og_transaction from)) origins ->
    cell_run d (disks_of (InstallLatest bootstrap now origins) faults d)
| run_launch result now origins faults : Forall (fun from => drawn (og_transaction from)) origins ->
    cell_run d (disks_of (launch bootstrap result now origins) faults d).

(** It runs to its end or is cut short. *)
Definition cell_step (d d' : disk) : Prop := exists passed, cell_run d passed /\ d' ∈ passed.

Definition reachable (d : disk) : Prop := rtc cell_step empty_disk d.

#[local] Instance onward_trans : Transitive (onward bootstrap).
Proof. intros x y z. apply version_le_trans. Qed.

Definition sound_run (d : disk) (passed : list disk) : Prop :=
  Forall (disk_ok bootstrap) passed /\ head passed = Some d /\ StronglySorted (onward bootstrap) passed.

Lemma disks_sound {A} (m : io A) Q faults d : triple (disk_ok bootstrap) (onward bootstrap) d (fun _ => True) m Q -> disk_ok bootstrap d ->
  sound_run d (disks_of m faults d).
Proof.
  intros Hm Hd. destruct (Hm (mkWorld d [] faults)) as [(Hok & Hs & Hl) _]; [|done|].
  - split; [by apply Forall_singleton|]. split; [by repeat constructor|done].
  - unfold sound_run, disks_of. split; [by apply Forall_reverse|]. split; [by rewrite head_reverse|by apply sorted_reverse; [apply _|]].
Qed.

Lemma run_ok d passed : cell_run d passed -> disk_ok bootstrap d -> sound_run d passed.
Proof.
  intros [faults|now origins faults Hids|result now origins faults Hids] Hd.
  - eapply disks_sound; [by apply (Recover_spec bootstrap d (fun _ => True))|exact Hd].
  - eapply disks_sound; [by apply InstallLatest_spec|exact Hd].
  - eapply disks_sound; [by apply launch_spec|exact Hd].
Qed.

Lemma step_ok d d' : cell_step d d' -> disk_ok bootstrap d -> disk_ok bootstrap d'.
Proof. intros (passed & Hr & Hin) Hd. destruct (run_ok d passed Hr Hd) as [Hok _]. rewrite Forall_forall in Hok. by apply Hok. Qed.

(** The last disk is among those passed. *)
Lemma disks_last {A} (m : io A) faults d : w_disk (m (mkWorld d [] faults)).2 ∈ disks_of m faults d.
Proof. unfold disks_of. apply elem_of_reverse. by left. Qed.

Lemma empty_ok : disk_ok bootstrap empty_disk.
Proof. split; [intros v t Ht; cbn in Ht; rewrite lookup_empty in Ht; discriminate Ht|done| |done]. split; [reflexivity|reflexivity|done|done]. Qed.

Lemma reachable_ok d : reachable d -> disk_ok bootstrap d.
Proof.
  unfold reachable. intros Hr. pose proof empty_ok as Hd. revert Hd. induction Hr as [|x y z Hxy _ IH]; [done|]. intros Hd. by eapply IH, step_ok.
Qed.
End life.

(** ** Calls that meet no fault *)

Definition ends {A} (m : io A) (d : disk) (r : outcome update_error A) (d' : disk) : Prop :=
  forall visited, exists visited', m (mkWorld d visited []) = (r, mkWorld d' visited' []).

Lemma ends_ret {A} (a : A) d : ends (mret a) d (Ok a) d.
Proof. intros visited. by exists visited. Qed.

Lemma ends_bind {A B} (m : io A) (k : A -> io B) d a d1 r d2 : ends m d (Ok a) d1 -> ends (k a) d1 r d2 -> ends (m ≫= k) d r d2.
Proof. intros Hm Hk visited. destruct (Hm visited) as (v1 & E1). destruct (Hk v1) as (v2 & E2). exists v2. by rewrite io_bind_run, E1. Qed.

(** The same, under the existential of what follows *)
Lemma ends_first {A B} (m : io A) (k : A -> io B) d a d1 (P : disk -> Prop) r : ends m d (Ok a) d1 ->
  (exists d2, ends (k a) d1 r d2 /\ P d2) -> exists d2, ends (m ≫= k) d r d2 /\ P d2.
Proof. intros Hm (d2 & Hk & HP). exists d2. split; [|exact HP]. by eapply ends_bind. Qed.

Lemma ends_read {A} (f : disk -> A) d : ends (read f) d (Ok (f d)) d.
Proof. intros visited. by exists visited. Qed.

Lemma ends_write f d : ends (write f) d (Ok tt) (f d).
Proof. intros visited. by exists (d :: visited). Qed.

Lemma ends_lift {E A} e (r : outcome E A) a d : r = Ok a -> ends (lift e r) d (Ok a) d.
Proof. intros -> visited. by exists visited. Qed.

Lemma ends_need {A} e (r : option A) a d : r = Some a -> ends (need e r) d (Ok a) d.
Proof. intros -> visited. by exists visited. Qed.

Lemma ends_check e b d : b = true -> ends (check e b) d (Ok tt) d.
Proof. intros -> visited. by exists visited. Qed.

Lemma ends_fail {A} e d : ends (fail e : io A) d (Fail e) d.
Proof. intros visited. by exists visited. Qed.

Section settle.
Context `{ReleasePlatform} `{BundlePlatform} (bootstrap : Bootstrap).
Notation channel := (bs_Channel bootstrap).

Lemma ends_Load d : runtime_ok bootstrap d (runtime_of d) -> ends (state_Load channel) d (Ok (runtime_of d)) d.
Proof.
  intros [Hv _ _ _]. unfold state_Load. eapply ends_bind; [apply ends_read|]. unfold runtime_of in *. destruct (dk_state d) as [r|]; [|apply ends_ret].
  eapply ends_bind; [by apply (ends_lift _ _ tt)|apply ends_ret].
Qed.

Lemma ends_Save r d : Runtime_Validate r channel = Ok tt -> ends (state_Save channel r) d (Ok tt) (set_state r d).
Proof. intros Hv. unfold state_Save. eapply ends_bind; [by apply (ends_lift _ _ tt)|apply ends_write]. Qed.

Lemma ends_finish transaction d : exists d', ends (finishRecovery transaction) d (Ok tt) d' /\ dk_journal d' = None /\ runtime_of d' = runtime_of d /\
  dk_versions d' = dk_versions d.
Proof. eexists. split; [eapply ends_bind; [apply ends_write|apply ends_write]|]. done. Qed.

Lemma ends_LoadManifest t m : tr_manifest t = Some m -> Manifest_Validate m = Ok tt -> forall d, ends (LoadManifest t) d (Ok m) d.
Proof. intros Hm Hv d. unfold LoadManifest. eapply ends_bind; [by apply ends_need|]. eapply ends_bind; [by apply (ends_lift _ _ tt)|apply ends_ret]. Qed.

Lemma ends_Resolve t entry kind d : entry_present t entry kind -> exists clean, ends (ResolveEntry t entry kind) d (Ok clean) d.
Proof.
  intros (clean & Hv & Hin). exists clean. unfold ResolveEntry. eapply ends_bind; [by apply ends_lift|].
  eapply ends_bind; [by apply ends_check, bool_decide_eq_true_2|apply ends_ret].
Qed.

Lemma ends_CLI t manifest d : (exists entry, CLIEntry (mkTarget (mf_Platform manifest) (mf_Arch manifest)) = Ok entry /\ entry_present t entry "payload") ->
  exists clean, ends (ResolveCLI t manifest) d (Ok clean) d.
Proof.
  intros (entry & He & Hp). destruct (ends_Resolve t entry "payload" d Hp) as (clean & Hc). exists clean. unfold ResolveCLI.
  eapply ends_bind; [by apply ends_lift|exact Hc].
Qed.

Lemma host_valid manifest : Manifest_ValidateHost (bs_Host bootstrap) manifest channel (bs_ProtocolFloor bootstrap) = Ok tt -> Manifest_Validate manifest = Ok tt.
Proof. unfold Manifest_ValidateHost. intros Hv. by apply bind_ok in Hv as ([] & Hm & _). Qed.

Lemma Prepare_succeeds r v : Runtime_Validate r channel = Ok tt -> rs_Candidate r = "" -> is_ok (ParseVersionForChannel v channel) = true ->
  exists r', Prepare r channel v = Ok r'.
Proof.
  intros Hv Hc Hp. unfold Prepare. rewrite Hv, bool_decide_eq_true_2 by done. cbn [mbind outcome_bind negb].
  destruct (ParseVersionForChannel v channel); [|done..]. by eexists.
Qed.

(** Recovery always succeeds and clears the journal. *)
Lemma Recover_ends d : disk_ok bootstrap d -> exists d', ends (Recover bootstrap) d (Ok tt) d' /\ dk_journal d' = None /\
  rs_Active (runtime_of d') = rs_Active (runtime_of d).
Proof.
  intros Hd. pose proof Hd as [V _ S J]. unfold Recover.
  destruct (dk_journal d) as [entry|] eqn:Ej.
  2:{ exists d. split; [|done]. apply (ends_bind _ _ _ None d); [|apply ends_ret]. unfold loadJournal. eapply ends_bind; [apply ends_read|].
      rewrite Ej. apply ends_ret. }
  destruct (J entry eq_refl) as [J1 J2 J3 J4].
  assert (Hload : ends loadJournal d (Ok (Some entry)) d).
  { unfold loadJournal. eapply ends_bind; [apply ends_read|]. rewrite Ej. eapply ends_bind; [by apply ends_check|apply ends_ret]. }
  destruct (ends_finish (jn_TransactionID entry) d) as (df & Hf & Fj & Fr & _).
  eapply ends_first; [exact Hload|]. eapply ends_first; [by apply ends_check, bool_decide_eq_true_2|]. eapply ends_first; [by apply ends_Load|].
  destruct (bool_decide _ || bool_decide _) eqn:Eu; [exists df; split; [exact Hf|]; by rewrite Fr|].
  apply orb_false_iff in Eu as [Ea%bool_decide_eq_false_1 Ec%bool_decide_eq_false_1].
  assert (Hnone : rs_Candidate (runtime_of d) = "") by (destruct J3; congruence).
  destruct (dk_versions d !! jn_Version entry) as [t|] eqn:Ev.
  2:{ exists df. split; [|by rewrite Fr]. eapply ends_bind; [by apply ends_check, bool_decide_eq_true_2|].
      eapply ends_bind; [apply ends_read|]. rewrite Ev. exact Hf. }
  destruct (V _ _ Ev) as [(manifest & Hm & Hver & Hh & _ & Hp & Ht & Hc) _].
  destruct (Prepare_succeeds (runtime_of d) (jn_Version entry)) as (prepared & Hprep); [apply S|exact Hnone| |].
  { unfold journal_valid in J1. apply andb_true_iff in J1 as [_ J1]. by rewrite J2 in J1. }
  destruct (Prepare_ok _ _ _ _ Hprep) as (_ & Pv & _ & _ & Pa & _).
  destruct (ends_finish (jn_TransactionID entry) (set_state prepared d)) as (dp & Hfp & Pj & Pr & _).
  exists dp. split; [|rewrite Pr; by split].
  destruct (ends_Resolve t (mf_Payload manifest) "payload" d Hp) as (c1 & He1), (ends_CLI t manifest d Hc) as (c2 & He2).
  eapply ends_bind; [by apply ends_check, bool_decide_eq_true_2|]. eapply ends_bind; [apply ends_read|]. rewrite Ev.
  eapply ends_bind; [by apply ends_LoadManifest, host_valid|]. eapply ends_bind; [by apply ends_check, bool_decide_eq_true_2|].
  eapply ends_bind; [by apply (ends_lift _ _ tt)|]. eapply ends_bind; [exact He1|]. eapply ends_bind; [by apply ends_check|].
  eapply ends_bind; [exact He2|]. eapply ends_bind; [by apply ends_lift|]. eapply ends_bind; [by apply ends_Save|]. exact Hfp.
Qed.

(** The version that a round of the launcher starts *)
Definition selected (d : disk) : string :=
  let r := runtime_of d in if negb (bool_decide (rs_Candidate r = "")) then rs_Candidate r else rs_Active r.

Lemma selected_installed d : disk_ok bootstrap d -> selected d <> "" -> exists t, dk_versions d !! selected d = Some t /\ tree_ok bootstrap (selected d) t.
Proof.
  intros [V _ [_ _ Sa Sc] _]. unfold selected. case_bool_decide as Hc; cbn [negb]; intros Hne.
  - destruct (Sa Hne) as [t Ht]. exists t. split; [exact Ht|]. exact (proj1 (V _ _ Ht)).
  - destruct (Sc Hc) as [[t Ht] _]. exists t. split; [exact Ht|]. exact (proj1 (V _ _ Ht)).
Qed.

(** The checks of an installed release pass; only the process decides. *)
Lemma checks_end result d t v : dk_versions d !! v = Some t -> tree_ok bootstrap v t ->
  ends (versionRoot ← read (fun d => dk_versions d !! v); versionRoot ← need ErrIO versionRoot; manifest ← LoadManifest versionRoot;
        _ ← check ErrManifestMismatch (bool_decide (mf_Version manifest = v));
        _ ← lift ErrManifestMismatch (Manifest_ValidateHost (bs_Host bootstrap) manifest channel (bs_ProtocolFloor bootstrap));
        _ ← ResolveEntry versionRoot (mf_Launcher manifest) "launcher";
        match result with RunStable => mret tt | RunFailed => fail ErrProcess end)
    d (match result with RunStable => Ok tt | RunFailed => Fail ErrProcess end) d.
Proof.
  intros Ht (manifest & Hm & Hver & Hh & Hl & _). destruct (ends_Resolve t (mf_Launcher manifest) "launcher" d Hl) as (c & He).
  eapply ends_bind; [apply ends_read|]. eapply ends_bind; [by apply ends_need|]. eapply ends_bind; [by apply ends_LoadManifest, host_valid|].
  eapply ends_bind; [by apply ends_check, bool_decide_eq_true_2|]. eapply ends_bind; [by apply (ends_lift _ _ tt)|].
  eapply ends_bind; [exact He|]. destruct result; [apply ends_ret|apply ends_fail].
Qed.

Lemma ends_failCandidate d cause : disk_ok bootstrap d -> rs_Candidate (runtime_of d) <> "" ->
  exists r, ends (failCandidate bootstrap (runtime_of d) true cause) d (Fail cause) (set_state r d) /\ rs_Candidate r = "" /\
    rs_Active r = rs_Active (runtime_of d).
Proof.
  intros [_ _ [Sv Sg _ _] _] Hc. unfold failCandidate. cbn [negb].
  destruct (Rollback (runtime_of d) channel) as [r|e|] eqn:E;
    [|unfold Rollback in E; rewrite Sv, bool_decide_eq_false_2 in E by done; discriminate E..].
  destruct (Rollback_ok _ _ _ E) as (_ & Rv & _ & Rc & Ra & _). exists r. split; [|split; [exact Rc|congruence]].
  eapply ends_bind; [by apply ends_lift|]. eapply ends_bind; [by apply ends_Save|apply ends_fail].
Qed.

Lemma ends_or_fail {A} r isCandidate (m : io A) k d a res d' : ends m d (Ok a) d -> ends (k a) d res d' ->
  ends (or_failCandidate bootstrap r isCandidate m k) d res d'.
Proof. intros Hm Hk visited. destruct (Hm visited) as (v1 & E1). unfold or_failCandidate. rewrite E1. apply Hk. Qed.

Lemma ends_or_fail_failed {A} r isCandidate (m : io A) k d e res d' : ends m d (Fail e) d -> ends (failCandidate bootstrap r isCandidate e) d res d' ->
  ends (or_failCandidate bootstrap r isCandidate m k) d res d'.
Proof. intros Hm Hk visited. destruct (Hm visited) as (v1 & E1). unfold or_failCandidate. rewrite E1. apply Hk. Qed.

(** One round of the launcher decides a candidate. *)
Lemma launch_ends result now origins d : disk_ok bootstrap d -> selected d <> "" ->
  exists r d', ends (launch bootstrap result now origins) d r d' /\ rs_Candidate (runtime_of d') = "" /\
    rs_Active (runtime_of d') = match result with RunStable => selected d | RunFailed => rs_Active (runtime_of d) end.
Proof.
  intros Hd Hne. destruct (selected_installed d Hd Hne) as (t & Ht & Hok). pose proof Hd as [_ _ S _].
  pose proof (checks_end result d t (selected d) Ht Hok) as Hchecks.
  assert (Hstart : forall r d', ends (runManagedRelease bootstrap result (runtime_of d) (selected d) (negb (bool_decide (rs_Candidate (runtime_of d) = "")))) d r d' ->
    ends (launch bootstrap result now origins) d r d').
  { intros r d' Hx. unfold launch. eapply ends_bind; [by apply ends_Load|]. cbn zeta. fold (selected d). rewrite bool_decide_eq_false_2 by done. exact Hx. }
  unfold selected in *. destruct (bool_decide (rs_Candidate (runtime_of d) = "")) eqn:Hc; cbn [negb] in *.
  - apply bool_decide_eq_true_1 in Hc. destruct result.
    + exists (Ok tt), d. split; [|by split]. apply Hstart. unfold runManagedRelease. eapply ends_or_fail; [exact Hchecks|apply ends_ret].
    + exists (Fail ErrProcess), d. split; [|by split]. apply Hstart. unfold runManagedRelease. eapply ends_or_fail_failed; [exact Hchecks|apply ends_fail].
  - apply bool_decide_eq_false_1 in Hc. destruct result.
    + destruct (Confirm (runtime_of d) channel (rs_Candidate (runtime_of d))) as [r|e|] eqn:E;
        [|unfold Confirm in E; rewrite (run_valid _ _ _ S), bool_decide_eq_false_2, bool_decide_eq_true_2 in E by done; discriminate E..].
      destruct (Confirm_ok _ _ _ _ E) as (_ & Cv & _ & _ & Cc & Ca & _). exists (Ok tt), (set_state r d). split; [|by split].
      apply Hstart. unfold runManagedRelease. eapply ends_or_fail; [exact Hchecks|]. eapply ends_bind; [by apply ends_lift|by apply ends_Save].
    + destruct (ends_failCandidate d ErrProcess Hd Hc) as (r & Hf & Fc & Fa). exists (Fail ErrProcess), (set_state r d). split; [|by split].
      apply Hstart. unfold runManagedRelease. eapply ends_or_fail_failed; [exact Hchecks|exact Hf].
Qed.
End settle.

(** ** A sample update *)

Definition toy_manifest : Manifest := mkManifest 1 "beta" "1.2.0-beta.3" "linux" "x64" "launcher/run" "payload/topology.json" "p1" 10.
Definition toy_tree : tree := mkTree (Some toy_manifest) {["launcher/run"; "payload/topology.json"; "payload/bin/open-cut"]} true.

Definition toy_bundles : BundlePlatform := {|
  bundle_SHA256 := fun content => if bool_decide (content = bytes_of "hello") then bn_SHA256 (ds_Bundle toy_descriptor) else "";
  bundle_Extract := fun _ => Some toy_tree |}.

Definition toy_bootstrap : Bootstrap := mkBootstrap "beta" "p1" toy_trust toy_host.
Definition toy_origin : origin := mkOrigin (Ok None) (Some toy_envelope) (Some (bytes_of "hello")) "00ff".

(** The disk after the installation, without faults *)
Definition toy_disk : disk := w_disk ((@InstallLatest toy_platform toy_bundles toy_bootstrap 500 [toy_origin]) (mkWorld empty_disk [] [])).2.

Example toy_installs : rs_Candidate (runtime_of toy_disk) = "1.2.0-beta.3" /\ dk_journal toy_disk = None /\ dk_incoming toy_disk = ∅.
Proof. vm_compute. done. Qed.

Lemma toy_step : @cell_step toy_platform toy_bundles toy_bootstrap empty_disk toy_disk.
Proof.
  eexists. split; [|apply disks_last]. apply (run_update _ _ 500 [toy_origin] []). constructor; [|constructor]. split; [discriminate|reflexivity].
Qed.

Lemma toy_reachable : @reachable toy_platform toy_bundles toy_bootstrap toy_disk.
Proof. eapply rtc_l; [exact toy_step|apply rtc_refl]. Qed.

(** C33: an update can be interrupted anywhere.  Whatever reads and writes fail, a
    failing write having taken effect or not, and wherever the process stops, every
    disk passed is sound: the state file is valid, the active version is the last good
    one and is installed, a candidate is installed and newer than the active version,
    every installed version can be launched, and a journal names the candidate or a
    newer version.  Along the disks passed, in their order, the active version never
    goes back. *)
Theorem update_interruptible `{ReleasePlatform} `{BundlePlatform} (bootstrap : Bootstrap) (d : disk) (passed : list disk)
    (Hr : reachable bootstrap d) (Hp : cell_run bootstrap d passed) :
  Forall (fun d' => runtime_ok bootstrap d' (runtime_of d') /\ (forall v t, dk_versions d' !! v = Some t -> tree_ok bootstrap v t) /\
    (forall j, dk_journal d' = Some j -> journal_ok bootstrap (runtime_of d') j)) passed /\
  head passed = Some d /\
  StronglySorted (fun d1 d2 => version_le bootstrap (rs_Active (runtime_of d1)) (rs_Active (runtime_of d2))) passed.
Proof.
  destruct (run_ok bootstrap d passed Hp (reachable_ok bootstrap d Hr)) as (Hok & Hh & Hs). split; [|by split].
  eapply Forall_impl; [exact Hok|]. intros d' [V _ S J]. split; [exact S|]. split; [intros v t Ht; exact (proj1 (V v t Ht))|exact J].
Qed.

(** The confirmation of the sample's candidate fails after it took effect. *)
Lemma update_interruptible_witness : exists passed d', @cell_run toy_platform toy_bundles toy_bootstrap toy_disk passed /\
  passed = [toy_disk; d'] /\ rs_Active (runtime_of toy_disk) = "" /\ rs_Active (runtime_of d') = "1.2.0-beta.3" /\
  runtime_ok toy_bootstrap d' (runtime_of d').
Proof.
  set (faults := [NoFault; NoFault; FailsAfter]).
  set (d' := w_disk ((@launch toy_platform toy_bundles toy_bootstrap RunStable 500 []) (mkWorld toy_disk [] faults)).2).
  assert (Hp : @cell_run toy_platform toy_bundles toy_bootstrap toy_disk [toy_disk; d']).
  { assert (E : disks_of (@launch toy_platform toy_bundles toy_bootstrap RunStable 500 []) faults toy_disk = [toy_disk; d']) by (vm_compute; reflexivity).
    rewrite <- E. by apply run_launch. }
  exists [toy_disk; d'], d'. split; [exact Hp|]. split; [reflexivity|]. split; [vm_compute; reflexivity|]. split; [vm_compute; reflexivity|].
  destruct (@update_interruptible toy_platform toy_bundles toy_bootstrap toy_disk [toy_disk; d'] toy_reachable Hp) as [Hok _].
  apply Forall_cons in Hok as [_ Hok]. by apply Forall_cons in Hok as [(Hd' & _) _].
Defined.

(** C35: only signed releases are ever installed.  Every installed version is the
    content of a bundle whose digest and size were signed, for that version, this
    channel and this host, by a quorum of a trust root that descends from the
    built-in one through rotations each accepted by the quorum of the root before. *)
Theorem installed_releases_signed `{ReleasePlatform} `{BundlePlatform} (bootstrap : Bootstrap) (d : disk) (v : string) (t : tree)
    (Hr : reachable bootstrap d) (Ht : dk_versions d !! v = Some t) :
  signed_release bootstrap v t /\ (forall root, dk_trust d = Some root -> trusted_root bootstrap root).
Proof. destruct (reachable_ok bootstrap d Hr) as [V T _ _]. split; [exact (proj2 (V v t Ht))|exact T]. Qed.

Lemma installed_releases_signed_witness : exists t, dk_versions toy_disk !! "1.2.0-beta.3" = Some t /\
  @signed_release toy_platform toy_bundles toy_bootstrap "1.2.0-beta.3" t.
Proof.
  assert (Ht : dk_versions toy_disk !! "1.2.0-beta.3" = Some toy_tree) by (vm_compute; reflexivity).
  exists toy_tree. split; [exact Ht|].
  apply (@installed_releases_signed toy_platform toy_bundles toy_bootstrap toy_disk "1.2.0-beta.3" toy_tree toy_reachable Ht).
Defined.

(** C34: an update always comes to a decision.  From every state a cell can be in,
    recovery without faults succeeds and clears the journal without changing the
    active version; one round of the launcher then leaves no candidate: a release
    that stays up becomes the active version, one that fails leaves the active
    version as it was. *)
Theorem update_settles `{ReleasePlatform} `{BundlePlatform} (bootstrap : Bootstrap) (d : disk) (Hr : reachable bootstrap d) :
  exists d1, ends (Recover bootstrap) d (Ok tt) d1 /\ dk_journal d1 = None /\ rs_Active (runtime_of d1) = rs_Active (runtime_of d) /\
  forall result now origins, selected d1 <> "" ->
    exists r d2, ends (launch bootstrap result now origins) d1 r d2 /\ rs_Candidate (runtime_of d2) = "" /\
      rs_Active (runtime_of d2) = match result with RunStable => selected d1 | RunFailed => rs_Active (runtime_of d1) end.
Proof.
  pose proof (reachable_ok bootstrap d Hr) as Hd. destruct (Recover_ends bootstrap d Hd) as (d1 & He & Hj & Ha).
  exists d1. do 3 (split; [assumption|]). intros result now origins Hne. apply launch_ends; [|exact Hne].
  eapply (step_ok bootstrap); [|exact Hd]. eexists. split; [apply (run_start bootstrap d [])|]. destruct (He []) as (visited & E).
  pose proof (disks_last (Recover bootstrap) [] d) as Hl. by rewrite E in Hl.
Qed.

Lemma update_settles_witness : exists d1, ends (@Recover toy_bootstrap) toy_disk (Ok tt) d1 /\ dk_journal d1 = None.
Proof.
  destruct (@update_settles toy_platform toy_bundles toy_bootstrap toy_disk toy_reachable) as (d1 & He & Hj & _). by exists d1.
Defined.
