(* ===== verification/EngineLanes.v ===== *)
(** Decode planning of the render engine: the output frames and samples an
    instruction covers, the source sample it plays at each of them, and the
    assignment of the requests to lanes of monotonic decoder runs
    ([internal/renderengine/decode_plan.go], [audio_decode_plan.go] and the
    traversal tracker and source times of [source_map.go]).

    The Go code has the planning types and functions twice, for video and for
    audio, with the same bodies: they are one type and one function here. *)
From stdpp Require Import base list strings gmap sorting.
From Stdlib Require Import ZArith QArith Qround Lia Lqa.
From S2P Require Import Prelude GoText Exact EditModel Timeline RenderContract.
Open Scope Z_scope.

(** A failure of the engine: a message of [fmt.Errorf], a resource limit with
    its subject, a source range outside the decoded proxy, or an error of the
    exact arithmetic passed on. *)
Inductive engine_error :=
| EngineInvalid | ResourceLimitError (subject : string) | ErrAudioSourceRangeInvalid | EngineTime (e : exact_error).
#[export] Instance engine_error_eq_dec : EqDecision engine_error.
Proof. solve_decision. Defined.

Definition from_exact {A} (r : outcome exact_error A) : outcome engine_error A :=
  match r with Ok a => Ok a | Fail e => Fail (EngineTime e) | Panic => Panic end.

Definition MaximumActiveVideoLayers : nat := 32.
Definition MaximumActiveAudioLayers : nat := 32.
Definition MaximumDecodedVideoFrames : Z := 40000000.
Definition MaximumDecodedAudioSamples : Z := 8000000000.
Definition MaximumSourceProxyFrames : Z := 10000000.
Definition MaxUint32 : Z := 4294967295.
Definition VideoDecodePlanPolicyV1 : string := "monotonic-lanes-ordinal-zero-v1".
Definition AudioDecodePlanPolicyV1 : string := "monotonic-s16-lanes-ordinal-zero-v1".

(** ** Plans *)

(** [First] and [End] of a request are output frames or output samples. *)
Record DecodeRequest := mkRequest {
  dq_InstructionIndex : Z; dq_First : Z; dq_End : Z; dq_FirstOrdinal : Z; dq_LastOrdinal : Z }.
#[export] Instance DecodeRequest_eq_dec : EqDecision DecodeRequest.
Proof. solve_decision. Defined.

Record DecodeRun := mkRun {
  dr_InputIndex : Z; dr_InputArtifactID : string; dr_SourceStreamID : string; dr_Requests : list DecodeRequest;
  dr_LastOrdinal : Z; dr_Traversal : Z }.

Record DecodeLane := mkLane { dl_Index : Z; dl_Runs : list DecodeRun }.

Record DecodePlan := mkDecodePlan { dp_Policy : string; dp_Lanes : list DecodeLane; dp_Traversal : Z }.

Record decodeCandidate := mkCandidate {
  dc_request : DecodeRequest; dc_inputIndex : Z; dc_artifactID : string; dc_streamID : string; dc_layer : Z; dc_clipID : string }.

Definition VideoDecodeRequest : Type := DecodeRequest.
Definition AudioDecodeRequest : Type := DecodeRequest.
Definition VideoDecodeRun : Type := DecodeRun.
Definition AudioDecodeRun : Type := DecodeRun.
Definition VideoDecodeLane : Type := DecodeLane.
Definition AudioDecodeLane : Type := DecodeLane.
Definition VideoDecodePlan : Type := DecodePlan.
Definition AudioDecodePlan : Type := DecodePlan.
Definition videoDecodeCandidate : Type := decodeCandidate.
Definition audioDecodeCandidate : Type := decodeCandidate.

(** ** Output positions of a timeline range *)

(** [QuoRem] of a numerator that is not negative, rounded up *)
Definition ceil_quotient (numerator denominator : Z) : Z :=
  let quotient := Z.quot numerator denominator in
  if 0 <? Z.rem numerator denominator then quotient + 1 else quotient.

Definition ceilFrameIndex (value frameRate : RationalTime) : outcome engine_error Z :=
  if negb (valid_time value) || IsNegative value || negb (valid_time frameRate) || negb (IsPositive frameRate)
  then Fail EngineInvalid
  else
    let quotient := ceil_quotient (rt_Value value * rt_Value frameRate) (rt_Scale value * rt_Scale frameRate) in
    if negb (is_uint64 quotient) then Fail (ResourceLimitError "output-frame-time") else Ok quotient.

Definition ceilAudioSampleIndex (value : RationalTime) : outcome engine_error Z :=
  if negb (valid_time value) || IsNegative value then Fail EngineInvalid
  else
    let quotient := ceil_quotient (rt_Value value * SequencePreviewAudioSampleRate) (rt_Scale value) in
    if negb (is_uint64 quotient) then Fail (ResourceLimitError "audio-sample-time") else Ok quotient.

(** The end of both range functions: both positions clamped to the output *)
Definition clamp_positions (outputCount first after : Z) : outcome engine_error (Z * Z) :=
  let first := if outputCount <? first then outputCount else first in
  let after := if outputCount <? after then outputCount else after in
  if after <? first then Fail EngineInvalid else Ok (first, after).

Definition outputFrameRange (value : TimeRange) (frameRate : RationalTime) (outputCount : Z) : outcome engine_error (Z * Z) :=
  if negb (valid_time (tr_Start value)) || IsNegative (tr_Start value) || negb (valid_time (tr_Duration value)) ||
     negb (IsPositive (tr_Duration value)) || negb (valid_time frameRate) || negb (IsPositive frameRate)
  then Fail EngineInvalid
  else
    end_ ← from_exact (End value);
    first ← ceilFrameIndex (tr_Start value) frameRate;
    after ← ceilFrameIndex end_ frameRate;
    clamp_positions outputCount first after.

Definition outputSampleRange (value : TimeRange) (outputCount : Z) : outcome engine_error (Z * Z) :=
  if negb (valid_time (tr_Start value)) || IsNegative (tr_Start value) || negb (valid_time (tr_Duration value)) ||
     negb (IsPositive (tr_Duration value)) || (outputCount =? 0)
  then Fail EngineInvalid
  else
    end_ ← from_exact (End value);
    first ← ceilAudioSampleIndex (tr_Start value);
    after ← ceilAudioSampleIndex end_;
    clamp_positions outputCount first after.

(** ** Source times *)

(** The guard on the two ranges of an instruction, then the comparison of their durations *)
Definition source_ranges_ok (source timeline : TimeRange) : bool :=
  valid_time (tr_Start source) && valid_time (tr_Duration source) && valid_time (tr_Start timeline) &&
  valid_time (tr_Duration timeline) && IsPositive (tr_Duration source) && IsPositive (tr_Duration timeline) &&
  negb (IsNegative (tr_Start timeline)).

(** From [outputTime] on, the two source time functions agree: [None] is an
    output position at which the instruction is not active. *)
Definition source_time_at (source timeline : TimeRange) (outputTime : RationalTime) : outcome engine_error (option RationalTime) :=
  end_ ← from_exact (End timeline);
  startComparison ← from_exact (RationalTime_Compare outputTime (tr_Start timeline));
  endComparison ← from_exact (RationalTime_Compare outputTime end_);
  if (startComparison <? 0) || (0 <=? endComparison) then Ok None
  else
    negativeStart ← from_exact (NewRationalTime (to_int64 (- rt_Value (tr_Start timeline))) (rt_Scale (tr_Start timeline)));
    offset ← from_exact (Add outputTime negativeStart);
    sourceTime ← from_exact (Add (tr_Start source) offset);
    Ok (Some sourceTime).

Definition AudioInstructionSourceTime (instruction : RenderAudioInstruction) (outputSample : Z)
    : outcome engine_error (option RationalTime) :=
  if (MaxInt64 <? outputSample) || negb (source_ranges_ok (ra_SourceRange instruction) (ra_TimelineRange instruction))
  then Fail EngineInvalid
  else if negb (same_length (ra_SourceRange instruction) (ra_TimelineRange instruction)) then Fail EngineInvalid
  else
    outputTime ← from_exact (NewRationalTime (to_int64 outputSample) SequencePreviewAudioSampleRate);
    source_time_at (ra_SourceRange instruction) (ra_TimelineRange instruction) outputTime.

Definition multiplyUint64 (left right : Z) : Z * bool :=
  if negb (left =? 0) && (Z.quot (2 ^ 64 - 1) left <? right) then (0, true) else (to_uint64 (left * right), false).

Definition VideoInstructionSourceTime (instruction : RenderVideoInstruction) (outputFrame : Z) (frameRate : RationalTime)
    : outcome engine_error (option RationalTime) :=
  if negb (valid_time frameRate) || negb (IsPositive frameRate) || (MaxInt64 <? outputFrame) || (MaxInt32 <? rt_Value frameRate) ||
     negb (source_ranges_ok (rv_SourceRange instruction) (rv_TimelineRange instruction))
  then Fail EngineInvalid
  else if negb (same_length (rv_SourceRange instruction) (rv_TimelineRange instruction)) then Fail EngineInvalid
  else
    let '(numerator, overflow) := multiplyUint64 outputFrame (to_uint64 (rt_Scale frameRate)) in
    if overflow || (MaxInt64 <? numerator) then Fail (ResourceLimitError "output-frame-time")
    else
      outputTime ← from_exact (NewRationalTime (to_int64 numerator) (to_int32 (rt_Value frameRate)));
      source_time_at (rv_SourceRange instruction) (rv_TimelineRange instruction) outputTime.

(** The floor of an exact quotient: [QuoRem] truncates. *)
Definition audioTrackFloorOrdinal (sourceTime sourceStart : RationalTime) : outcome engine_error Z :=
  if negb (valid_time sourceTime) || negb (valid_time sourceStart) then Fail EngineInvalid
  else
    let numerator := (rt_Value sourceTime * rt_Scale sourceStart - rt_Value sourceStart * rt_Scale sourceTime) *
      SequencePreviewAudioSampleRate in
    let denominator := rt_Scale sourceTime * rt_Scale sourceStart in
    let quotient := Z.quot numerator denominator in
    Ok (if (numerator <? 0) && negb (Z.rem numerator denominator =? 0) then quotient - 1 else quotient).

(** [None] is an instruction that plays no sample of its proxy. *)
Definition audioDecodeRequest (index : Z) (instruction : RenderAudioInstruction) (input : RenderAudioInput) (outputCount : Z)
    : outcome engine_error (option DecodeRequest) :=
  '(first, after) ← outputSampleRange (ra_TimelineRange instruction) outputCount;
  if first =? after then Ok None
  else
    sourceTime ← or_fail EngineInvalid (AudioInstructionSourceTime instruction first);
    match sourceTime with
    | None => Fail EngineInvalid
    | Some sourceTime =>
        firstOrdinal ← audioTrackFloorOrdinal sourceTime (ai_SourceStart input);
        let decode decodeFirst firstOrdinal :=
          if negb (is_uint64 firstOrdinal) then Fail (ResourceLimitError "audio-sample-time")
          else
            let length := to_uint64 (after - decodeFirst) in
            if (length =? 0) || (2 ^ 64 - 1 - (length - 1) <? firstOrdinal) then Fail (ResourceLimitError "audio-sample-time")
            else
              let last := to_uint64 (firstOrdinal + length - 1) in
              if (ai_DecodedSampleCount input =? 0) || (ai_DecodedSampleCount input <=? last) then Fail ErrAudioSourceRangeInvalid
              else Ok (Some (mkRequest index decodeFirst after firstOrdinal last)) in
        if firstOrdinal <? 0 then
          let silence := - firstOrdinal in
          if to_uint64 (after - first) <=? silence then Ok None
          else if negb (is_uint64 silence) then Fail (ResourceLimitError "audio-sample-time")
          else decode (to_uint64 (first + silence)) 0
        else decode first firstOrdinal
    end.

(** ** Lanes *)

Definition decodeCandidateLess (left right : decodeCandidate) : bool :=
  if negb (dq_First (dc_request left) =? dq_First (dc_request right)) then dq_First (dc_request left) <? dq_First (dc_request right)
  else if negb (dc_layer left =? dc_layer right) then dc_layer left <? dc_layer right
  else if negb (bool_decide (dc_clipID left = dc_clipID right)) then str_ltb (dc_clipID left) (dc_clipID right)
  else dq_InstructionIndex (dc_request left) <? dq_InstructionIndex (dc_request right).

Definition candidate_le (left right : decodeCandidate) : Prop := decodeCandidateLess right left = false.
#[export] Instance candidate_le_dec : RelDecision candidate_le.
Proof. intros l r. unfold candidate_le. apply _. Defined.

(** A candidate can be appended to a run of its own stream that has not passed its first ordinal. *)
Definition continues (run : DecodeRun) (candidate : decodeCandidate) : bool :=
  negb (negb (bool_decide (dr_InputArtifactID run = dc_artifactID candidate)) ||
    negb (bool_decide (dr_SourceStreamID run = dc_streamID candidate)) ||
    (dq_FirstOrdinal (dc_request candidate) <? dr_LastOrdinal run)).

Definition lane_end (ends : list Z) (index : nat) : Z := default 0 (ends !! index).

Definition last_run (lanes : list DecodeLane) (index : nat) : option DecodeRun :=
  lane ← lanes !! index; last (dl_Runs lane).

(** One turn of the selection: the preferred lane and the fallback so far *)
Definition select_step (lanes : list DecodeLane) (ends : list Z) (candidate : decodeCandidate)
    (best : option nat * option nat) (index : nat) : option nat * option nat :=
  let '(preferred, fallback) := best in
  if dq_First (dc_request candidate) <? lane_end ends index then (preferred, fallback)
  else
    let fallback :=
      match fallback with
      | None => Some index
      | Some chosen => if lane_end ends chosen <? lane_end ends index then Some index else fallback
      end in
    match last_run lanes index with
    | None => (preferred, fallback)
    | Some run =>
        if negb (continues run candidate) then (preferred, fallback)
        else match preferred with
             | None => (Some index, fallback)
             | Some chosen =>
                 match last_run lanes chosen with
                 | Some selected => if dr_LastOrdinal selected <? dr_LastOrdinal run then (Some index, fallback) else (preferred, fallback)
                 | None => (preferred, fallback)
                 end
             end
    end.

Definition selectDecodeLane (lanes : list DecodeLane) (ends : list Z) (candidate : decodeCandidate) : nat :=
  let '(preferred, fallback) := foldl (select_step lanes ends candidate) (None, None) (seq 0 (length lanes)) in
  match preferred, fallback with
  | Some index, _ => index
  | None, Some index => index
  | None, None => length lanes
  end.

Definition append_request (request : DecodeRequest) (run : DecodeRun) : DecodeRun :=
  mkRun (dr_InputIndex run) (dr_InputArtifactID run) (dr_SourceStreamID run) (dr_Requests run ++ [request])
    (dq_LastOrdinal request) (dr_Traversal run).

Definition appendDecodeCandidate (candidate : decodeCandidate) (lane : DecodeLane) : DecodeLane :=
  let newRun := match last (dl_Runs lane) with None => true | Some run => negb (continues run candidate) end in
  let runs :=
    if newRun then dl_Runs lane ++ [mkRun (dc_inputIndex candidate) (dc_artifactID candidate) (dc_streamID candidate) [] 0 0]
    else dl_Runs lane in
  mkLane (dl_Index lane) (alter (append_request (dc_request candidate)) (pred (length runs)) runs).

Definition selectVideoDecodeLane := selectDecodeLane.
Definition selectAudioDecodeLane := selectDecodeLane.
Definition appendVideoDecodeCandidate := appendDecodeCandidate.
Definition appendAudioDecodeCandidate := appendDecodeCandidate.
Definition videoDecodeCandidateLess := decodeCandidateLess.
Definition audioDecodeCandidateLess := decodeCandidateLess.

(** The loop that gives each candidate its lane, opening one when none is free *)
Fixpoint assign_lanes (maximum : nat) (subject : string) (candidates : list decodeCandidate)
    (lanes : list DecodeLane) (ends : list Z) : outcome engine_error (list DecodeLane) :=
  match candidates with
  | [] => Ok lanes
  | candidate :: rest =>
      let lane := selectDecodeLane lanes ends candidate in
      '(lanes, ends) ←
        (if (lane =? length lanes)%nat then
           if (maximum <=? lane)%nat then Fail (ResourceLimitError subject)
           else Ok (lanes ++ [mkLane (Z.of_nat lane) []], ends ++ [0])
         else Ok (lanes, ends));
      assign_lanes maximum subject rest (alter (appendDecodeCandidate candidate) lane lanes)
        (<[lane := dq_End (dc_request candidate)]> ends)
  end.

(** ** Audio plans *)

Record audioDecodeSource := mkAudioSource { as_inputIndex : Z; as_input : RenderAudioInput }.

Fixpoint audio_sources (inputs : list RenderPlanInput) (index : Z) (sources : gmap string audioDecodeSource)
    : gmap string audioDecodeSource :=
  match inputs with
  | [] => sources
  | input :: rest =>
      audio_sources rest (index + 1)
        (match in_Audio input with
         | None => sources
         | Some audio => <[in_ArtifactID input := mkAudioSource (to_uint32 index) audio]> sources
         end)
  end.

Fixpoint audio_candidates (sources : gmap string audioDecodeSource) (outputCount : Z) (source : list RenderAudioInstruction)
    (index : Z) : outcome engine_error (list decodeCandidate) :=
  match source with
  | [] => Ok []
  | instruction :: rest =>
      match sources !! ra_InputArtifactID instruction with
      | None => Fail EngineInvalid
      | Some source =>
          if negb (bool_decide (ai_SourceStreamID (as_input source) = ra_SourceStreamID instruction)) || (MaxUint32 <? index)
          then Fail EngineInvalid
          else
            request ← audioDecodeRequest (to_uint32 index) instruction (as_input source) outputCount;
            candidates ← audio_candidates sources outputCount rest (index + 1);
            Ok (match request with
                | None => candidates
                | Some request =>
                    mkCandidate request (as_inputIndex source) (ra_InputArtifactID instruction) (ra_SourceStreamID instruction)
                      (ra_Layer instruction) (ra_ClipID instruction) :: candidates
                end)
      end
  end.

(** The runs of a lane, each charged its traversal, and the total so far *)
Fixpoint charge_audio_runs (sampleLimit : Z) (runs : list DecodeRun) (total : Z) : outcome engine_error (list DecodeRun * Z) :=
  match runs with
  | [] => Ok ([], total)
  | run :: rest =>
      let traversal := to_uint64 (dr_LastOrdinal run + 1) in
      if sampleLimit - total <? traversal then Fail (ResourceLimitError "decoded-audio-samples")
      else
        '(rest, total) ← charge_audio_runs sampleLimit rest (total + traversal);
        Ok (mkRun (dr_InputIndex run) (dr_InputArtifactID run) (dr_SourceStreamID run) (dr_Requests run) (dr_LastOrdinal run)
              traversal :: rest, total)
  end.

Fixpoint charge_audio_lanes (sampleLimit : Z) (lanes : list DecodeLane) (total : Z) : outcome engine_error (list DecodeLane * Z) :=
  match lanes with
  | [] => Ok ([], total)
  | lane :: rest =>
      '(runs, total) ← charge_audio_runs sampleLimit (dl_Runs lane) total;
      '(rest, total) ← charge_audio_lanes sampleLimit rest total;
      Ok (mkLane (dl_Index lane) runs :: rest, total)
  end.

Definition planAudioDecodeLanes (plan : RenderPlanPayload) (sources : gmap string audioDecodeSource) (sampleLimit : Z)
    : outcome engine_error DecodePlan :=
  if negb (ao_SampleRate (out_Audio (pp_Output plan)) =? SequencePreviewAudioSampleRate) ||
     (out_AudioSampleCount (pp_Output plan) =? 0) || (sampleLimit =? 0) || (MaximumDecodedAudioSamples <? sampleLimit)
  then Fail EngineInvalid
  else
    candidates ← audio_candidates sources (out_AudioSampleCount (pp_Output plan)) (pp_Audio plan) 0;
    lanes ← assign_lanes MaximumActiveAudioLayers "audio-decode-lanes" (merge_sort candidate_le candidates) [] [];
    '(lanes, total) ← charge_audio_lanes sampleLimit lanes 0;
    Ok (mkDecodePlan AudioDecodePlanPolicyV1 lanes total).

(** The decode plan of the sources of a plan, which [CompileAudioDecodePlan]
    makes of a manifest that has been validated *)
Definition CompileAudioDecodePlan (plan : RenderPlanPayload) (sampleLimit : Z) : outcome engine_error DecodePlan :=
  planAudioDecodeLanes plan (audio_sources (pp_Inputs plan) 0 ∅) sampleLimit.

(** One turn of the loop over the requests of a run *)
Definition audio_request_ok (plan : RenderPlanPayload) (run : DecodeRun) (input : RenderAudioInput)
    (previous : option (Z * Z)) (request : DecodeRequest) : bool :=
  negb ((Z.of_nat (length (pp_Audio plan)) <=? dq_InstructionIndex request) || (dq_End request <=? dq_First request) ||
    (out_AudioSampleCount (pp_Output plan) <? dq_End request) || (dq_LastOrdinal request <? dq_FirstOrdinal request) ||
    (dr_LastOrdinal run <? dq_LastOrdinal request) ||
    match previous with
    | None => false
    | Some (previousEnd, previousLast) => (dq_First request <? previousEnd) || (dq_FirstOrdinal request <? previousLast)
    end) &&
  match pp_Audio plan !! Z.to_nat (dq_InstructionIndex request) with
  | None => false
  | Some instruction =>
      bool_decide (ra_InputArtifactID instruction = dr_InputArtifactID run) &&
      bool_decide (ra_SourceStreamID instruction = dr_SourceStreamID run) &&
      bool_decide (audioDecodeRequest (dq_InstructionIndex request) instruction input (out_AudioSampleCount (pp_Output plan)) =
        Ok (Some request))
  end.

Fixpoint audio_requests_ok (plan : RenderPlanPayload) (run : DecodeRun) (input : RenderAudioInput)
    (previous : option (Z * Z)) (requests : list DecodeRequest) : bool :=
  match requests with
  | [] => bool_decide ((default (0, 0) previous).2 = dr_LastOrdinal run)
  | request :: rest =>
      audio_request_ok plan run input previous request &&
      audio_requests_ok plan run input (Some (dq_End request, dq_LastOrdinal request)) rest
  end.

Definition validateAudioDecodeRun (plan : RenderPlanPayload) (run : DecodeRun) : outcome engine_error unit :=
  guard_or EngineInvalid
    (negb ((Z.of_nat (length (pp_Inputs plan)) <=? dr_InputIndex run) || bool_decide (dr_Requests run = []) ||
       negb (dr_Traversal run =? to_uint64 (dr_LastOrdinal run + 1)) || (MaximumDecodedAudioSamples <=? dr_LastOrdinal run)) &&
     match pp_Inputs plan !! Z.to_nat (dr_InputIndex run) with
     | None => false
     | Some input =>
         bool_decide (in_ArtifactID input = dr_InputArtifactID run) &&
         match in_Audio input with
         | None => false
         | Some audio =>
             bool_decide (ai_SourceStreamID audio = dr_SourceStreamID run) &&
             audio_requests_ok plan run audio None (dr_Requests run)
         end
     end).
