(* ===== verification/EngineDecode.v ===== *)
(** What a decode plan means: the requests of an instruction cover the output
    positions at which it plays, with the source ordinals exact time gives, and
    the lanes of a plan hold every request once, in monotonic runs. *)
From stdpp Require Import base list strings gmap sorting.
From Stdlib Require Import ZArith QArith Qround Lia Lqa.
From S2P Require Import Prelude GoText Exact EditModel Timeline EditRanges RenderContract RenderCompile EngineLanes.
Open Scope Z_scope.

(** ** Positions *)

Lemma ceil_quotient_spec n d : 0 <= n -> 0 < d -> forall k, ceil_quotient n d <= k <-> n <= k * d.
Proof.
  intros Hn Hd k. unfold ceil_quotient. pose proof (Z.quot_rem' n d). pose proof (Z.rem_bound_pos n d Hn Hd).
  destruct (Z.ltb_spec 0 (Z.rem n d)); nia.
Qed.

(** The time of an output sample, and whether a timeline range covers it *)
Definition sample_Q (k : Z) : Q := k # 48000.
Definition covers (range : TimeRange) (q : Q) : Prop := (start_Q range <= q < end_Q range)%Q.

Lemma rt_Q_sample t k : 0 < rt_Scale t -> (rt_Q t <= sample_Q k)%Q <-> rt_Value t * 48000 <= k * rt_Scale t.
Proof. intros Hs. unfold rt_Q, sample_Q, Qle. cbn. rewrite Z2Pos.id by lia. lia. Qed.

Lemma ceilAudioSampleIndex_spec t n : rt_typed t -> ceilAudioSampleIndex t = Ok n ->
  rt_valid t /\ 0 <= n < 2 ^ 64 /\ forall k, n <= k <-> (rt_Q t <= sample_Q k)%Q.
Proof.
  intros Ht. unfold ceilAudioSampleIndex. case_match eqn:E; [done|]. bool_prop.
  assert (V : rt_valid t) by (apply valid_time_ok; done). pose proof (rt_valid_pos t V).
  unfold IsNegative in *. bool_prop. case_match eqn:U; [done|]. bool_prop. intros [= <-].
  apply is_uint64_spec in U. split; [done|]. split; [done|]. intros k.
  rewrite rt_Q_sample by lia. apply ceil_quotient_spec; unfold SequencePreviewAudioSampleRate; lia.
Qed.

Lemma clamp_positions_spec count first after f a : 0 <= first -> 0 <= after -> 0 <= count ->
  clamp_positions count first after = Ok (f, a) ->
  0 <= f <= a /\ a <= count /\ forall k, 0 <= k < count -> (f <= k < a <-> first <= k < after).
Proof.
  intros Hf Ha Hc. unfold clamp_positions.
  destruct (Z.ltb_spec count first), (Z.ltb_spec count after);
    (match goal with |- context [?x <? ?y] => destruct (Z.ltb_spec x y) end); try done; intros [= <- <-]; repeat split; lia.
Qed.

Lemma outputSampleRange_spec range count f a : range_typed range -> 0 <= count ->
  outputSampleRange range count = Ok (f, a) ->
  0 <= f <= a /\ a <= count /\ forall k, 0 <= k < count -> (f <= k < a <-> covers range (sample_Q k)).
Proof.
  intros [Ts Td] Hc. unfold outputSampleRange. case_match eqn:E; [done|]. bool_prop. intros Hr.
  apply bind_ok in Hr as (e & He & Hr). apply bind_ok in Hr as (first & Hf & Hr). apply bind_ok in Hr as (after & Ha & Hr).
  destruct (End range) as [e'| |] eqn:Ee; cbn in He; simplify_eq.
  apply Add_ok in Ee as (Vs & Vd & Ve & Qe); [|done..].
  apply ceilAudioSampleIndex_spec in Hf as (_ & F0 & F); [|done]. apply ceilAudioSampleIndex_spec in Ha as (_ & A0 & A); [|apply Ve].
  apply clamp_positions_spec in Hr as (B1 & B2 & B3); [|lia..]. split; [done|]. split; [done|]. intros k Hk.
  rewrite B3 by done. unfold covers, start_Q, end_Q. rewrite F, <- Qe.
  assert (k < after <-> (sample_Q k < rt_Q e)%Q) as ->; [|done].
  pose proof (A k) as Ak. split; intros Hl.
  - apply Qnot_le_lt. intros Hle. apply Ak in Hle. lia.
  - destruct (Z.lt_ge_cases k after) as [|Hge]; [done|]. apply Ak in Hge. lra.
Qed.

(** ** Source ordinals *)

(** The source time an instruction shows at a timeline instant, and the sample
    of the proxy that sounds at an output sample: the last one at or before it,
    negative before the proxy starts *)
Definition source_Q (source timeline : TimeRange) (q : Q) : Q := (start_Q source + (q - start_Q timeline))%Q.
Definition source_ordinal (instruction : RenderAudioInstruction) (input : RenderAudioInput) (k : Z) : Z :=
  Qfloor ((source_Q (ra_SourceRange instruction) (ra_TimelineRange instruction) (sample_Q k) - rt_Q (ai_SourceStart input)) * 48000).
Definition plays (instruction : RenderAudioInstruction) (input : RenderAudioInput) (k : Z) : Prop :=
  covers (ra_TimelineRange instruction) (sample_Q k) /\ 0 <= source_ordinal instruction input k.

Lemma Qfloor_unique x n : (inject_Z n <= x)%Q -> (x < inject_Z (n + 1))%Q -> Qfloor x = n.
Proof.
  intros H1 H2. pose proof (Qfloor_le x). pose proof (Qlt_floor x).
  assert (inject_Z n < inject_Z (Qfloor x + 1))%Q by lra. assert (inject_Z (Qfloor x) < inject_Z (n + 1))%Q by lra.
  rewrite <- Zlt_Qlt in *. lia.
Qed.

Lemma Qfloor_plus_Z x n : Qfloor (x + inject_Z n) = Qfloor x + n.
Proof.
  pose proof (Qfloor_le x). pose proof (Qlt_floor x). apply Qfloor_unique; rewrite ?inject_Z_plus in *; lra.
Qed.

Lemma source_ordinal_shift i input k d : source_ordinal i input (k + d) = source_ordinal i input k + d.
Proof.
  unfold source_ordinal. rewrite <- Qfloor_plus_Z. apply Qfloor_comp. unfold source_Q, sample_Q.
  assert ((k + d # 48000) == (k # 48000) + (d # 48000))%Q as -> by (unfold Qeq; cbn; lia).
  assert (inject_Z d == (d # 48000) * 48000)%Q as -> by (unfold Qeq; cbn; lia). ring.
Qed.

Lemma audioTrackFloorOrdinal_spec t s n : rt_typed t -> rt_typed s -> audioTrackFloorOrdinal t s = Ok n ->
  n = Qfloor ((rt_Q t - rt_Q s) * 48000).
Proof.
  intros Tt Ts. unfold audioTrackFloorOrdinal. case_match eqn:E; [done|]. bool_prop.
  assert (Vt : rt_valid t) by (apply valid_time_ok; done). assert (Vs : rt_valid s) by (apply valid_time_ok; done).
  pose proof (rt_valid_pos t Vt). pose proof (rt_valid_pos s Vs). intros [= <-]. unfold SequencePreviewAudioSampleRate.
  set (num := (rt_Value t * rt_Scale s - rt_Value s * rt_Scale t) * 48000). set (den := rt_Scale t * rt_Scale s).
  assert (Hd : 0 < den) by (subst den; apply Z.mul_pos_pos; lia).
  transitivity (Qfloor (num # Z.to_pos den)).
  - cbn [Qfloor]. rewrite Z2Pos.id by lia. pose proof (Z.quot_rem' num den).
    destruct (Z.ltb_spec num 0); cbn [andb]; [|apply Z.quot_div_nonneg; lia].
    pose proof (Z.rem_bound_pos_neg num den Hd ltac:(lia)).
    destruct (Z.eqb_spec (Z.rem num den) 0); cbn [negb]; [apply Z.div_unique with 0|apply Z.div_unique with (Z.rem num den + den)]; lia.
  - apply Qfloor_comp. unfold rt_Q, Qeq, num, den. cbn. rewrite !Pos2Z.inj_mul, !Z2Pos.id by lia. nia.
Qed.

Lemma source_ranges_ok_spec source timeline : range_typed source -> range_typed timeline -> source_ranges_ok source timeline = true ->
  rt_valid (tr_Start source) /\ rt_valid (tr_Duration source) /\ rt_valid (tr_Start timeline) /\ rt_valid (tr_Duration timeline) /\
  0 <= rt_Value (tr_Start timeline).
Proof.
  intros [T1 T2] [T3 T4]. unfold source_ranges_ok, IsNegative. intros H. bool_prop.
  refine (conj _ (conj _ (conj _ (conj _ _)))); [apply valid_time_ok; assumption..|assumption].
Qed.

Lemma source_time_at_spec source timeline out t : range_typed source -> range_typed timeline ->
  source_ranges_ok source timeline = true -> rt_valid out -> source_time_at source timeline out = Ok (Some t) ->
  covers timeline (rt_Q out) /\ rt_valid t /\ (rt_Q t == source_Q source timeline (rt_Q out))%Q.
Proof.
  intros Hs Ht Hok Vo Hr. pose proof (source_ranges_ok_spec _ _ Hs Ht Hok) as (V1 & V2 & V3 & V4 & Hpos).
  unfold source_time_at in Hr. apply bind_ok in Hr as (e & He & Hr). apply bind_ok in Hr as (sc & Hsc & Hr).
  apply bind_ok in Hr as (ec & Hec & Hr). case_match eqn:E; [done|]. bool_prop.
  apply bind_ok in Hr as (ng & Hng & Hr). apply bind_ok in Hr as (off & Hoff & Hr). apply bind_ok in Hr as (t' & Ht' & Hr). simplify_eq.
  destruct (End timeline) as [e'| |] eqn:Ee; cbn in He; simplify_eq. apply Add_ok in Ee as (_ & _ & Ve & Qe); [|apply V3|apply V4].
  destruct (RationalTime_Compare out (tr_Start timeline)) as [c1| |] eqn:C1; cbn in Hsc; simplify_eq.
  destruct (RationalTime_Compare out e) as [c2| |] eqn:C2; cbn in Hec; simplify_eq.
  apply Compare_ok in C1 as (_ & _ & L1 & _ & _); [|apply Vo|apply V3]. apply Compare_ok in C2 as (_ & _ & L2 & _ & _); [|apply Vo|apply Ve].
  pose proof (rt_valid_pos _ V3). destruct V3 as [[W1 W2] W3]. rewrite to_int64_small in Hng by (unfold MinInt64, MaxInt64 in *; lia).
  destruct (NewRationalTime_spec (- rt_Value (tr_Start timeline)) (rt_Scale (tr_Start timeline))) as (n & Hn & Vn & Qn);
    [unfold MinInt64, MaxInt64 in *; lia|lia|]. rewrite Hn in Hng. cbn in Hng. simplify_eq.
  destruct (Add out ng) as [o'| |] eqn:A1; cbn in Hoff; simplify_eq. apply Add_ok in A1 as (_ & _ & Vf & Qf); [|apply Vo|apply Vn].
  destruct (Add (tr_Start source) off) as [o'| |] eqn:A2; cbn in Ht'; simplify_eq.
  apply Add_ok in A2 as (_ & _ & Vt & Qt); [|apply V1|apply Vf].
  unfold covers, source_Q, start_Q, end_Q. rewrite <- Qe. split; [|split; [done|]].
  - split; [|apply L2; lia]. apply Qnot_lt_le. intros Hl. apply L1 in Hl. lia.
  - rewrite Qt, Qf, Qn. assert ((- rt_Value (tr_Start timeline) # Z.to_pos (rt_Scale (tr_Start timeline))) == - rt_Q (tr_Start timeline))%Q as -> by done.
    ring.
Qed.

(** ** The request of an audio instruction *)

Definition audio_instruction_typed (i : RenderAudioInstruction) : Prop := range_typed (ra_SourceRange i) /\ range_typed (ra_TimelineRange i).

(** A request covers the output samples at which the instruction plays, and its
    ordinals are those that exact time gives. *)
Record request_plays (i : RenderAudioInstruction) (input : RenderAudioInput) (count : Z) (r : DecodeRequest) : Prop := {
  rp_bounds : 0 <= dq_First r < dq_End r /\ dq_End r <= count;
  rp_covers : forall k, 0 <= k < count -> (dq_First r <= k < dq_End r <-> plays i input k);
  rp_ordinal : forall k, source_ordinal i input k = dq_FirstOrdinal r + (k - dq_First r);
  rp_ordinals : 0 <= dq_FirstOrdinal r /\ dq_LastOrdinal r = dq_FirstOrdinal r + (dq_End r - dq_First r - 1) /\
    dq_LastOrdinal r < ai_DecodedSampleCount input }.

Lemma audio_source_time i k t : audio_instruction_typed i -> 0 <= k -> AudioInstructionSourceTime i k = Ok (Some t) ->
  covers (ra_TimelineRange i) (sample_Q k) /\ rt_valid t /\ (rt_Q t == source_Q (ra_SourceRange i) (ra_TimelineRange i) (sample_Q k))%Q.
Proof.
  intros [Ts Tt] Hk. unfold AudioInstructionSourceTime. case_match eqn:E; [done|]. apply orb_false_iff in E as [E1 E2].
  apply Z.ltb_ge in E1. apply negb_false_iff in E2. case_match; [done|]. intros Hr. apply bind_ok in Hr as (out & Ho & Hr).
  rewrite to_int64_small in Ho by (unfold MinInt64, MaxInt64 in *; lia).
  destruct (NewRationalTime_spec k SequencePreviewAudioSampleRate) as (o & Hn & Vo & Qo);
    [unfold MinInt64, MaxInt64 in *; lia|unfold SequencePreviewAudioSampleRate, MaxInt32; lia|].
  rewrite Hn in Ho. cbn in Ho. injection Ho as <-. apply source_time_at_spec in Hr as (C & V & Q); [|assumption..].
  unfold covers, source_Q in *. change (k # Z.to_pos SequencePreviewAudioSampleRate) with (sample_Q k) in Qo. by rewrite Qo in C, Q.
Qed.

Lemma audioDecodeRequest_spec index i input count res : audio_instruction_typed i -> rt_typed (ai_SourceStart input) -> 0 <= count < 2 ^ 63 ->
  audioDecodeRequest index i input count = Ok res ->
  match res with
  | Some r => dq_InstructionIndex r = index /\ request_plays i input count r
  | None => forall k, 0 <= k < count -> ~ plays i input k
  end.
Proof.
  intros Ti Tin Hcount. unfold audioDecodeRequest. intros Hr. apply bind_ok in Hr as ([f a] & Hf & Hr).
  apply outputSampleRange_spec in Hf as (F1 & F2 & F3); [|apply Ti|lia].
  destruct (Z.eqb_spec f a) as [->|Hne].
  { injection Hr as <-. intros k Hk [Hc _]. apply F3 in Hc; lia. }
  apply bind_ok in Hr as ([t|] & Ht & Hr); [|done]. apply or_fail_ok in Ht.
  apply audio_source_time in Ht as (Cf & Vt & Qt); [|done|lia]. apply bind_ok in Hr as (o & Ho & Hr).
  apply audioTrackFloorOrdinal_spec in Ho; [|apply Vt|done].
  assert (So : source_ordinal i input f = o).
  { subst o. apply Qfloor_comp. by rewrite Qt. }
  assert (Sk : forall k, source_ordinal i input k = o + (k - f)).
  { intros k. replace k with (f + (k - f)) at 1 by lia. by rewrite source_ordinal_shift, So. }
  clear Ho Qt So.
  assert (Hdec : forall d n, f <= d < a -> 0 <= n -> n = o + (d - f) -> (forall k, f <= k < d -> o + (k - f) < 0) ->
    (if negb (is_uint64 n) then Fail (ResourceLimitError "audio-sample-time")
     else if (to_uint64 (a - d) =? 0) || (2 ^ 64 - 1 - (to_uint64 (a - d) - 1) <? n) then Fail (ResourceLimitError "audio-sample-time")
     else if (ai_DecodedSampleCount input =? 0) || (ai_DecodedSampleCount input <=? to_uint64 (n + to_uint64 (a - d) - 1))
     then Fail ErrAudioSourceRangeInvalid
     else Ok (Some (mkRequest index d a n (to_uint64 (n + to_uint64 (a - d) - 1))))) = Ok res ->
    match res with Some r => dq_InstructionIndex r = index /\ request_plays i input count r | None => forall k, 0 <= k < count -> ~ plays i input k end).
  { intros d n Hd Hn Hno Hsilent. rewrite (to_uint64_small (a - d)) by lia.
    destruct (is_uint64 n) eqn:E1; cbn [negb]; [|done]. apply is_uint64_spec in E1.
    match goal with |- (if ?b then _ else _) = _ -> _ => destruct b eqn:E2 end; [done|].
    match goal with |- (if ?b then _ else _) = _ -> _ => destruct b eqn:E3 end; [done|]. bool_prop.
    rewrite to_uint64_small in * by lia. intros [= <-]. split; [done|]. split; cbn [dq_First dq_End dq_FirstOrdinal dq_LastOrdinal]; [lia| | |lia].
    - intros k Hk. unfold plays. rewrite <- (F3 k Hk), Sk. split; [lia|]. intros [? ?].
      destruct (Z.lt_ge_cases k d) as [Hlt|]; [|lia]. specialize (Hsilent k). lia.
    - intros k. rewrite Sk. lia. }
  destruct (Z.ltb_spec o 0) as [Hneg|Hpos].
  - assert (U : to_uint64 (a - f) = a - f) by (apply to_uint64_small; lia).
    destruct (Z.leb_spec (to_uint64 (a - f)) (- o)); [|destruct (negb (is_uint64 (- o))); [done|]].
    + injection Hr as <-. intros k Hk [Hc Hs]. rewrite Sk in Hs. apply F3 in Hc; lia.
    + rewrite (to_uint64_small (f + - o)) in Hr by lia. apply (Hdec (f + - o) 0); [lia|lia|lia|intros; lia|exact Hr].
  - apply (Hdec f o); [lia|lia|lia|intros; lia|exact Hr].
Qed.

(** ** The order of candidates *)

#[export] Instance candidate_le_total : Total candidate_le.
Proof.
  intros l r. unfold candidate_le, decodeCandidateLess.
  destruct (Z.eqb_spec (dq_First (dc_request l)) (dq_First (dc_request r))) as [E1|E1],
    (Z.eqb_spec (dq_First (dc_request r)) (dq_First (dc_request l))) as [F1|F1]; try lia; cbn [negb]; [|lia].
  destruct (Z.eqb_spec (dc_layer l) (dc_layer r)) as [E2|E2], (Z.eqb_spec (dc_layer r) (dc_layer l)) as [F2|F2]; try lia; cbn [negb]; [|lia].
  rewrite (bool_decide_ext (dc_clipID l = dc_clipID r) (dc_clipID r = dc_clipID l)) by done.
  case_bool_decide; cbn [negb]; [lia|]. destruct (str_ltb (dc_clipID r) (dc_clipID l)) eqn:E; [|by left].
  right. by apply str_ltb_antisym.
Qed.

(** Lexicographic order as nested implications: [candidate_le] is one *)
Lemma candidate_le_lex l r : candidate_le l r <->
  dq_First (dc_request l) < dq_First (dc_request r) \/
  dq_First (dc_request l) = dq_First (dc_request r) /\
    (dc_layer l < dc_layer r \/
     dc_layer l = dc_layer r /\
       (dc_clipID l <> dc_clipID r /\ str_le (dc_clipID l) (dc_clipID r) \/
        dc_clipID l = dc_clipID r /\ dq_InstructionIndex (dc_request l) <= dq_InstructionIndex (dc_request r))).
Proof.
  unfold candidate_le, decodeCandidateLess, str_le.
  destruct (Z.eqb_spec (dq_First (dc_request r)) (dq_First (dc_request l))); cbn [negb]; [|rewrite Z.ltb_ge; lia].
  destruct (Z.eqb_spec (dc_layer r) (dc_layer l)); cbn [negb]; [|rewrite Z.ltb_ge; lia].
  case_bool_decide as E; cbn [negb]; rewrite ?Z.ltb_ge.
  - split; [intros; right; split; [done|]; right; split; [done|]; right; done|].
    intros [?|[_ [?|[_ [[? _]|[_ ?]]]]]]; [lia..|congruence|done].
  - split; [intros; right; split; [done|]; right; split; [done|]; left; split; [congruence|done]|].
    intros [?|[_ [?|[_ [[_ ?]|[? _]]]]]]; [lia..|done|congruence].
Qed.

#[export] Instance candidate_le_trans : Transitive candidate_le.
Proof.
  intros a b c. rewrite !candidate_le_lex.
  intros [?|[? [?|[? [[? L1]|[? ?]]]]]] [?|[? [?|[? [[? L2]|[? ?]]]]]]; try lia; right; (split; [lia|]); try lia;
    try (right; split; [lia|]); try (left; split; congruence); try (right; split; [congruence|lia]).
  left. split; [|by etransitivity]. intros Heq. assert (dc_clipID a = dc_clipID b); [|done].
  apply (anti_symm str_le); [done|]. by rewrite Heq.
Qed.

(** ** Selecting a lane *)

Lemma select_fold lanes ends c (free := fun i => lane_end ends i <= dq_First (dc_request c)) l : forall p f,
  (forall i, p = Some i -> free i) -> (forall i, f = Some i -> free i) -> (f = None -> p = None) ->
  let '(p', f') := foldl (select_step lanes ends c) (p, f) l in
  (forall i, p' = Some i -> free i /\ (p = Some i \/ i ∈ l)) /\ (forall i, f' = Some i -> free i /\ (f = Some i \/ i ∈ l)) /\
  (f' = None -> p' = None /\ f = None /\ forall i, i ∈ l -> ~ free i).
Proof.
  induction l as [|i l IH]; intros p f Hp Hf Hn; cbn [foldl].
  { split; [eauto|]. split; [eauto|]. intros ->. split; [auto|]. split; [done|]. intros j Hj. by apply not_elem_of_nil in Hj. }
  assert (Hs : exists p1 f1, select_step lanes ends c (p, f) i = (p1, f1) /\
    (forall j, p1 = Some j -> free j /\ (p = Some j \/ j = i)) /\ (forall j, f1 = Some j -> free j /\ (f = Some j \/ j = i)) /\
    (f1 = None -> p1 = None /\ f = None /\ ~ free i)).
  { unfold select_step. destruct (Z.ltb_spec (dq_First (dc_request c)) (lane_end ends i)) as [Hl|Hl].
    { exists p, f. split; [done|]. split; [eauto|]. split; [eauto|]. intros ->. split; [auto|]. split; [done|]. unfold free. lia. }
    assert (Fi : free i) by (unfold free; lia).
    set (f1 := match f with None => Some i | Some chosen => if lane_end ends chosen <? lane_end ends i then Some i else f end).
    assert (Hf1 : (forall j, f1 = Some j -> free j /\ (f = Some j \/ j = i)) /\ f1 <> None).
    { subst f1. destruct f as [chosen|]; [case_match|]; split; try done; intros j [= <-]; eauto. }
    destruct Hf1 as [Hf1 Hf2]. clearbody f1.
    assert (Hkeep : exists p1 f1', (p, f1) = (p1, f1') /\ (forall j, p1 = Some j -> free j /\ (p = Some j \/ j = i)) /\
      (forall j, f1' = Some j -> free j /\ (f = Some j \/ j = i)) /\ (f1' = None -> p1 = None /\ f = None /\ ~ free i)).
    { exists p, f1. split; [done|]. split; [|done]. intros j Hj. auto. }
    assert (Htake : exists p1 f1', (Some i, f1) = (p1, f1') /\ (forall j, p1 = Some j -> free j /\ (p = Some j \/ j = i)) /\
      (forall j, f1' = Some j -> free j /\ (f = Some j \/ j = i)) /\ (f1' = None -> p1 = None /\ f = None /\ ~ free i)).
    { exists (Some i), f1. split; [done|]. split; [|done]. intros j [= <-]. auto. }
    repeat case_match; assumption. }
  destruct Hs as (p1 & f1 & -> & Sp & Sf & Sn).
  specialize (IH p1 f1). destruct (foldl _ _ l) as [p' f']. destruct IH as (I1 & I2 & I3).
  - intros j Hj. by apply Sp.
  - intros j Hj. by apply Sf.
  - intros E. by apply Sn.
  - split; [|split].
    + intros j Hj. destruct (I1 j Hj) as [? [E|E]]; [destruct (Sp j E) as [? [?| ->]]|]; set_solver.
    + intros j Hj. destruct (I2 j Hj) as [? [E|E]]; [destruct (Sf j E) as [? [?| ->]]|]; set_solver.
    + intros E. destruct (I3 E) as (-> & E1 & E2). destruct (Sn E1) as (_ & -> & E3). split; [done|]. split; [done|].
      intros j [->|Hj]%elem_of_cons; [done|by apply E2].
Qed.

Lemma selectDecodeLane_spec lanes ends c :
  (selectDecodeLane lanes ends c < length lanes)%nat /\ lane_end ends (selectDecodeLane lanes ends c) <= dq_First (dc_request c) \/
  selectDecodeLane lanes ends c = length lanes /\ forall i, (i < length lanes)%nat -> dq_First (dc_request c) < lane_end ends i.
Proof.
  pose proof (select_fold lanes ends c (seq 0 (length lanes)) None None) as H. unfold selectDecodeLane.
  destruct (foldl _ _ _) as [[p|] [f|]]; destruct H as (H1 & H2 & H3); try done.
  - left. destruct (H1 p eq_refl) as [? [|E]]; [done|]. apply elem_of_seq in E. split; [lia|done].
  - left. destruct (H1 p eq_refl) as [? [|E]]; [done|]. apply elem_of_seq in E. split; [lia|done].
  - left. destruct (H2 f eq_refl) as [? [|E]]; [done|]. apply elem_of_seq in E. split; [lia|done].
  - right. split; [done|]. intros i Hi. destruct (H3 eq_refl) as (_ & _ & Hn). specialize (Hn i). rewrite elem_of_seq in Hn. lia.
Qed.
