(* ===== verification/EngineAssign.v ===== *)
(** The lanes that [assign_lanes] builds: every candidate is in exactly one run,
    the requests of a lane follow each other in the output, those of a run
    follow each other in the source, and lanes are opened only when that many
    requests sound at once. *)
From stdpp Require Import base list strings gmap sorting.
From Stdlib Require Import ZArith Lia.
From S2P Require Import Prelude GoText EngineLanes EngineDecode.
Open Scope Z_scope.

Definition entry : Type := string * string * DecodeRequest.
Definition candidate_entry (c : decodeCandidate) : entry := (dc_artifactID c, dc_streamID c, dc_request c).
Definition run_entries (run : DecodeRun) : list entry := (fun r => (dr_InputArtifactID run, dr_SourceStreamID run, r)) <$> dr_Requests run.
Definition lane_entries (lane : DecodeLane) : list entry := dl_Runs lane ≫= run_entries.

(** The requests that are under way at an output position *)
Definition under_way (k : Z) (r : DecodeRequest) : Prop := dq_First r <= k < dq_End r.
#[export] Instance under_way_dec k r : Decision (under_way k r).
Proof. unfold under_way. apply _. Defined.
Definition overlap_at (k : Z) (requests : list DecodeRequest) : nat := length (filter (under_way k) requests).

Definition request_ok (r : DecodeRequest) : Prop := 0 <= dq_First r < dq_End r /\ dq_FirstOrdinal r <= dq_LastOrdinal r.

Definition before (a b : DecodeRequest) : Prop := dq_End a <= dq_First b.
Definition monotonic (a b : DecodeRequest) : Prop := dq_LastOrdinal a <= dq_FirstOrdinal b.

Record run_ok (inputOf : string -> Z) (run : DecodeRun) : Prop := mkRunOk {
  ro_last : exists rs r, dr_Requests run = rs ++ [r] /\ dq_LastOrdinal r = dr_LastOrdinal run;
  ro_mono : StronglySorted monotonic (dr_Requests run);
  ro_requests : Forall request_ok (dr_Requests run);
  ro_input : dr_InputIndex run = inputOf (dr_InputArtifactID run) }.

Record lane_ok (inputOf : string -> Z) (lane : DecodeLane) (e : Z) : Prop := mkLaneOk {
  lo_runs : Forall (run_ok inputOf) (dl_Runs lane);
  lo_before : StronglySorted before (lane_entries lane).*2;
  lo_ended : Forall (fun x => dq_End x.2 <= e) (lane_entries lane) }.

Definition lane_busy (lane : DecodeLane) (e : Z) : Prop := exists x, x ∈ lane_entries lane /\ dq_End x.2 = e.

Lemma alter_last {A} (f : A -> A) l x : alter f (pred (length (l ++ [x]))) (l ++ [x]) = l ++ [f x].
Proof. rewrite length_app. cbn [length]. rewrite alter_app_r_alt by lia. replace (pred (length l + 1) - length l)%nat with 0%nat by lia. done. Qed.

Lemma last_split {A} (l : list A) x : last l = Some x -> exists l', l = l' ++ [x].
Proof. intros H. destruct l as [|y l _] using rev_ind; [done|]. rewrite last_snoc in H. injection H as ->. eauto. Qed.

Lemma run_entries_append r run : run_entries (append_request r run) = run_entries run ++ [(dr_InputArtifactID run, dr_SourceStreamID run, r)].
Proof. unfold run_entries. cbn. by rewrite fmap_app. Qed.

Lemma append_request_ok inputOf run r : run_ok inputOf run -> request_ok r -> dr_LastOrdinal run <= dq_FirstOrdinal r ->
  run_ok inputOf (append_request r run).
Proof.
  intros [(rs & r0 & El & Er) Hm Hr Hi] Hok Hle. split; cbn; [eauto| | |done].
  - apply StronglySorted_app_2; [|done|by repeat constructor]. intros x y Hx ->%list_elem_of_singleton. unfold monotonic.
    rewrite El in *. apply elem_of_app in Hx as [Hx| ->%list_elem_of_singleton]; [|lia].
    pose proof (StronglySorted_app_1_elem_of _ _ _ x r0 Hm Hx ltac:(by apply list_elem_of_singleton)) as Hx0.
    unfold monotonic in Hx0. apply Forall_app in Hr as [_ [[_ Hr0] _]%Forall_cons]. lia.
  - apply Forall_app. split; [done|]. by constructor.
Qed.

Lemma run_ok_fresh inputOf c : request_ok (dc_request c) -> dc_inputIndex c = inputOf (dc_artifactID c) ->
  run_ok inputOf (append_request (dc_request c) (mkRun (dc_inputIndex c) (dc_artifactID c) (dc_streamID c) [] 0 0)).
Proof.
  intros Hr Hi. split; cbn; [by exists [], (dc_request c)| | |done].
  - by repeat constructor.
  - by constructor.
Qed.

Lemma append_lane_runs inputOf c lane : Forall (run_ok inputOf) (dl_Runs lane) -> request_ok (dc_request c) ->
  dc_inputIndex c = inputOf (dc_artifactID c) ->
  Forall (run_ok inputOf) (dl_Runs (appendDecodeCandidate c lane)) /\
  lane_entries (appendDecodeCandidate c lane) = lane_entries lane ++ [candidate_entry c].
Proof.
  intros Hruns Hr Hi. unfold appendDecodeCandidate, lane_entries.
  assert (Hnew : forall runs, Forall (run_ok inputOf) runs ->
    let runs' := runs ++ [append_request (dc_request c) (mkRun (dc_inputIndex c) (dc_artifactID c) (dc_streamID c) [] 0 0)] in
    Forall (run_ok inputOf) runs' /\ runs' ≫= run_entries = (runs ≫= run_entries) ++ [candidate_entry c]).
  { intros runs H. cbn. split; [apply Forall_app; split; [done|]; constructor; [by apply run_ok_fresh|done]|].
    by rewrite bind_app. }
  destruct (last (dl_Runs lane)) as [run|] eqn:El; [destruct (continues run c) eqn:Ec|]; cbn [negb]; cbn [dl_Runs];
    [|rewrite alter_last; by apply Hnew..].
  apply last_split in El as (runs & El). rewrite El in *. rewrite alter_last, !bind_app. apply Forall_app in Hruns as [H1 [H2 _]%Forall_cons].
  unfold continues in Ec. apply negb_true_iff in Ec. apply orb_false_iff in Ec as [[E1 E2]%orb_false_iff E3].
  apply negb_false_iff, bool_decide_eq_true in E1, E2. apply Z.ltb_ge in E3. split.
  - apply Forall_app. split; [done|]. constructor; [|done]. by apply append_request_ok.
  - rewrite <- app_assoc. f_equal. cbn [mbind list_bind]. rewrite !app_nil_r, run_entries_append. unfold candidate_entry. by rewrite E1, E2.
Qed.

Lemma append_lane_ok inputOf c lane e : lane_ok inputOf lane e -> e <= dq_First (dc_request c) -> request_ok (dc_request c) ->
  dc_inputIndex c = inputOf (dc_artifactID c) ->
  lane_ok inputOf (appendDecodeCandidate c lane) (dq_End (dc_request c)) /\ lane_busy (appendDecodeCandidate c lane) (dq_End (dc_request c)) /\
  lane_entries (appendDecodeCandidate c lane) = lane_entries lane ++ [candidate_entry c].
Proof.
  intros [Hruns Hb He] Hle Hr Hi. destruct (append_lane_runs inputOf c lane Hruns Hr Hi) as [R1 R2].
  assert (Hends : Forall (fun x : entry => dq_End x.2 <= dq_End (dc_request c)) (lane_entries lane)).
  { eapply Forall_impl; [exact He|]. intros x Hx. cbn in *. destruct Hr as [? _]. lia. }
  split; [|split]; [split; [done| |]| |done]; rewrite ?R2.
  - rewrite fmap_app. apply StronglySorted_app_2; [|done|by repeat constructor].
    intros x y Hx ->%list_elem_of_singleton. apply list_elem_of_fmap in Hx as (z & -> & Hz). unfold before. cbn.
    rewrite Forall_forall in He. specialize (He z Hz). cbn in He. lia.
  - apply Forall_app. split; [done|]. constructor; [done|constructor].
  - exists (candidate_entry c). rewrite R2. split; [set_solver|done].
Qed.

(** ** The whole assignment *)

Record lanes_ok (inputOf : string -> Z) (lanes : list DecodeLane) (ends : list Z) (placed : list decodeCandidate) : Prop := mkLanesOk {
  lk_length : length ends = length lanes;
  lk_index : forall i lane, lanes !! i = Some lane -> dl_Index lane = Z.of_nat i;
  lk_lane : forall i lane, lanes !! i = Some lane -> lane_ok inputOf lane (lane_end ends i);
  lk_perm : lanes ≫= lane_entries ≡ₚ candidate_entry <$> placed }.

Definition lanes_busy (lanes : list DecodeLane) (ends : list Z) : Prop :=
  forall i lane, lanes !! i = Some lane -> lane_busy lane (lane_end ends i).

Definition candidate_ok (inputOf : string -> Z) (c : decodeCandidate) : Prop :=
  request_ok (dc_request c) /\ dc_inputIndex c = inputOf (dc_artifactID c).

Lemma bind_alter_perm {A B} (g : A -> list B) (f : A -> A) l i x extra : l !! i = Some x -> g (f x) = g x ++ extra ->
  alter f i l ≫= g ≡ₚ (l ≫= g) ++ extra.
Proof.
  intros Hi Hg. rewrite <- (take_drop_middle l i x Hi) at 2. pose proof (lookup_lt_Some _ _ _ Hi) as Hlt.
  rewrite <- (take_drop_middle l i x Hi) at 1. rewrite alter_app_r_alt by (rewrite length_take; lia).
  rewrite length_take, (Nat.min_l i) by lia. rewrite Nat.sub_diag. cbn [alter list_alter]. rewrite !bind_app. cbn [mbind list_bind].
  rewrite Hg, <- !app_assoc. by rewrite (Permutation_app_comm extra).
Qed.

Lemma open_lane inputOf lanes ends placed : lanes_ok inputOf lanes ends placed ->
  lanes_ok inputOf (lanes ++ [mkLane (Z.of_nat (length lanes)) []]) (ends ++ [0]) placed.
Proof.
  intros [Hl Hi Hk Hp]. split.
  - rewrite !length_app. cbn. lia.
  - intros i lane [H|[Hge H]]%lookup_app_Some; [by apply Hi|]. apply list_lookup_singleton_Some in H as [? <-]. cbn. f_equal. lia.
  - intros i lane [H|[Hge H]]%lookup_app_Some.
    + replace (lane_end (ends ++ [0]) i) with (lane_end ends i); [by apply Hk|].
      unfold lane_end. apply lookup_lt_Some in H. by rewrite lookup_app_l by lia.
    + apply list_lookup_singleton_Some in H as [? <-]. split; constructor.
  - rewrite bind_app. cbn. by rewrite app_nil_r.
Qed.

Lemma place_candidate inputOf lanes ends placed c i : lanes_ok inputOf lanes ends placed -> candidate_ok inputOf c ->
  (i < length lanes)%nat -> lane_end ends i <= dq_First (dc_request c) ->
  (forall j lane, j <> i -> lanes !! j = Some lane -> lane_busy lane (lane_end ends j)) ->
  let lanes' := alter (appendDecodeCandidate c) i lanes in let ends' := <[i := dq_End (dc_request c)]> ends in
  lanes_ok inputOf lanes' ends' (placed ++ [c]) /\ lanes_busy lanes' ends'.
Proof.
  intros [Hl Hi Hk Hp] [Hr Hin] Hlt Hfree Hbusy. cbn. apply lookup_lt_is_Some_2 in Hlt as Hx. destruct Hx as [lane0 H0].
  destruct (append_lane_ok inputOf c lane0 _ (Hk i lane0 H0) Hfree Hr Hin) as (N1 & N2 & N3).
  assert (He : lane_end (<[i:=dq_End (dc_request c)]> ends) i = dq_End (dc_request c)).
  { unfold lane_end. by rewrite list_lookup_insert_eq by lia. }
  assert (Hne : forall j, j <> i -> lane_end (<[i:=dq_End (dc_request c)]> ends) j = lane_end ends j).
  { intros j Hj. unfold lane_end. by rewrite list_lookup_insert_ne by done. }
  assert (Hcase : forall j lane, alter (appendDecodeCandidate c) i lanes !! j = Some lane ->
    j = i /\ lane = appendDecodeCandidate c lane0 \/ j <> i /\ lanes !! j = Some lane).
  { intros j lane H. destruct (decide (j = i)) as [->|Hj]; [left|right].
    - rewrite list_lookup_alter_eq, H0 in H. by injection H as <-.
    - by rewrite list_lookup_alter_ne in H. }
  split; [split|].
  - by rewrite length_insert, length_alter.
  - intros j lane [[-> ->]|[Hj H]]%Hcase; [|by apply Hi]. cbn. by apply Hi.
  - intros j lane [[-> ->]|[Hj H]]%Hcase; [by rewrite He|]. rewrite Hne by done. by apply Hk.
  - rewrite (bind_alter_perm _ _ _ _ _ [candidate_entry c] H0 N3), fmap_app, Hp. done.
  - intros j lane [[-> ->]|[Hj H]]%Hcase; [by rewrite He|]. rewrite Hne by done. by apply Hbusy.
Qed.

Lemma count_witnesses {A B} (g : A -> list B) (P : B -> Prop) `{!forall x, Decision (P x)} l :
  Forall (fun x => exists y, y ∈ g x /\ P y) l -> (length l <= length (filter P (l ≫= g)))%nat.
Proof.
  induction 1 as [|x l (y & Hy & HP) _ IH]; [done|]. change ((x :: l) ≫= g) with (g x ++ (l ≫= g)).
  rewrite filter_app, length_app. cbn [length].
  assert (Hin : y ∈ filter P (g x)) by by apply list_elem_of_filter. destruct (filter P (g x)); [by apply not_elem_of_nil in Hin|].
  cbn [length]. lia.
Qed.

Lemma sorted_first placed c rest p : StronglySorted candidate_le (placed ++ c :: rest) -> p ∈ placed ->
  dq_First (dc_request p) <= dq_First (dc_request c).
Proof.
  intros Hs Hp. pose proof (StronglySorted_app_1_elem_of _ _ _ p c Hs Hp ltac:(set_solver)) as H.
  rewrite candidate_le_lex in H. lia.
Qed.

(** When every lane is busy past the start of a candidate, that many requests and the candidate are under way there. *)
Lemma busy_overlap inputOf lanes ends placed c rest : lanes_ok inputOf lanes ends placed -> lanes_busy lanes ends ->
  StronglySorted candidate_le (placed ++ c :: rest) -> request_ok (dc_request c) ->
  (forall i, (i < length lanes)%nat -> dq_First (dc_request c) < lane_end ends i) ->
  (length lanes < overlap_at (dq_First (dc_request c)) (dc_request <$> placed ++ c :: rest))%nat.
Proof.
  intros [Hl Hi Hk Hp] Hb Hs [Hr _] Hall. unfold overlap_at. rewrite fmap_app, filter_app, length_app.
  assert (H1 : (length lanes <= length (filter (under_way (dq_First (dc_request c))) (dc_request <$> placed)))%nat).
  { transitivity (length (filter (fun x : entry => under_way (dq_First (dc_request c)) x.2) (lanes ≫= lane_entries))).
    - apply count_witnesses. apply Forall_lookup. intros i lane H. destruct (Hb i lane H) as (x & Hx & Ex). exists x. split; [done|].
      assert (Hin : x ∈ candidate_entry <$> placed).
      { rewrite <- Hp. apply list_elem_of_bind. exists lane. split; [done|]. by apply list_elem_of_lookup_2 with i. }
      apply list_elem_of_fmap in Hin as (p & -> & Hpl). pose proof (sorted_first _ _ _ _ Hs Hpl).
      specialize (Hall i (lookup_lt_Some _ _ _ H)). unfold under_way. cbn in *. lia.
    - rewrite Hp. clear. induction placed as [|p l IH]; [done|]. rewrite !fmap_cons, !filter_cons. cbn [candidate_entry snd].
      repeat case_decide; try done; cbn [length]; lia. }
  rewrite fmap_cons, filter_cons. case_decide as Hu; [cbn [length]; lia|]. unfold under_way in Hu. lia.
Qed.

Lemma assign_lanes_spec inputOf maximum subject candidates : forall lanes ends placed,
  lanes_ok inputOf lanes ends placed -> lanes_busy lanes ends -> (length lanes <= maximum)%nat ->
  StronglySorted candidate_le (placed ++ candidates) -> Forall (candidate_ok inputOf) candidates ->
  match assign_lanes maximum subject candidates lanes ends with
  | Ok lanes' => (length lanes' <= maximum)%nat /\ exists ends', lanes_ok inputOf lanes' ends' (placed ++ candidates)
  | Fail e => e = ResourceLimitError subject /\ exists k, (maximum < overlap_at k (dc_request <$> placed ++ candidates))%nat
  | Panic => False
  end.
Proof.
  induction candidates as [|c rest IH]; intros lanes ends placed Hk Hb Hm Hs Hc; cbn [assign_lanes].
  { split; [done|]. exists ends. by rewrite app_nil_r. }
  apply Forall_cons in Hc as [Hc Hrest].
  assert (Hstep : forall lanes1 ends1 i, lanes_ok inputOf lanes1 ends1 placed -> (i < length lanes1 <= maximum)%nat ->
    lane_end ends1 i <= dq_First (dc_request c) ->
    (forall j lane, j <> i -> lanes1 !! j = Some lane -> lane_busy lane (lane_end ends1 j)) ->
    match assign_lanes maximum subject rest (alter (appendDecodeCandidate c) i lanes1) (<[i:=dq_End (dc_request c)]> ends1) with
    | Ok lanes' => (length lanes' <= maximum)%nat /\ exists ends', lanes_ok inputOf lanes' ends' (placed ++ c :: rest)
    | Fail e => e = ResourceLimitError subject /\ exists k, (maximum < overlap_at k (dc_request <$> placed ++ c :: rest))%nat
    | Panic => False
    end).
  { intros lanes1 ends1 i Hk1 Hi Hf Hb1.
    destruct (place_candidate _ _ _ _ c i Hk1 Hc ltac:(lia) Hf Hb1) as [P1 P2]. cbn in P1, P2.
    specialize (IH _ _ (placed ++ [c]) P1 P2). rewrite length_alter, <- app_assoc in IH. apply IH; [lia|done|done]. }
  destruct (selectDecodeLane_spec lanes ends c) as [[Hlt Hf]|[E Hall]].
  - destruct (Nat.eqb_spec (selectDecodeLane lanes ends c) (length lanes)); [lia|]. cbn [mbind outcome_bind].
    apply Hstep; [done|lia|done|]. intros j lane _. by apply Hb.
  - rewrite E, Nat.eqb_refl. destruct (Nat.leb_spec maximum (length lanes)); cbn [mbind outcome_bind].
    + split; [done|]. exists (dq_First (dc_request c)).
      pose proof (busy_overlap _ _ _ _ _ _ Hk Hb Hs (proj1 Hc) Hall). lia.
    + apply Hstep; [by apply open_lane|rewrite length_app; cbn; lia| |].
      * unfold lane_end. rewrite lookup_app_r by (rewrite (lk_length _ _ _ _ Hk); lia).
        rewrite (lk_length _ _ _ _ Hk), Nat.sub_diag. cbn. destruct Hc as [[? _] _]. lia.
      * intros j lane Hj Hl. apply lookup_app_Some in Hl as [Hl|[? Hl]];
          [|apply list_lookup_singleton_Some in Hl as [? _]; lia].
        replace (lane_end (ends ++ [0]) j) with (lane_end ends j); [by apply Hb|]. unfold lane_end. apply lookup_lt_Some in Hl.
        rewrite lookup_app_l; [done|]. rewrite (lk_length _ _ _ _ Hk). lia.
Qed.
