(* ===== verification/EngineAudio.v ===== *)
(** Samples of the render engine: the integer gain and mix of [oracle.go], the
    decoder of one run over the bytes of its child process
    ([raw_audio_decoder.go]) and the bounded writer of [stream.go].

    [RunDecoder] is the interface [audioRunDecoder]: what the evaluator asks of
    a decoder; [DecodesRuns] is what a decoder promises about the content of an
    artifact. *)
From stdpp Require Import base list strings gmap sorting.
From Stdlib Require Import ZArith Lia.
From S2P Require Import Prelude GoText Exact EditModel Timeline EditValidate RenderContract EngineLanes.
Open Scope Z_scope.

Definition to_int16 (z : Z) : Z := (z + 2 ^ 15) mod 2 ^ 16 - 2 ^ 15.
Definition to_uint16 (z : Z) : Z := z mod 2 ^ 16.

(** ** Rounding, gain and mix *)

Definition roundHalfEvenSigned (numerator denominator : Z) : Z :=
  let quotient := Z.quot numerator denominator in
  let remainder := Z.rem numerator denominator in
  let remainder := if remainder <? 0 then - remainder else remainder in
  let comparison := to_int64 (remainder * 2) in
  if (denominator <? comparison) || ((comparison =? denominator) && negb (Z.land quotient 1 =? 0))
  then if numerator <? 0 then quotient - 1 else quotient + 1
  else quotient.

Definition gainFractionBits : Z := 56.
Definition gainOneFixed : Z := Z.shiftl 1 gainFractionBits.
Definition gainStepFixed : Z := 72065890452592228.
Definition gainInverseFixed : Z := 72049298578368699.
Definition maximumGainQ31 : Z := 34035322146.

Definition multiplyGainFixedHalfEven (left right : Z) : Z :=
  let high := Z.shiftr (left * right) 64 in
  let low := Z.land (left * right) (2 ^ 64 - 1) in
  let quotient := Z.lor (to_uint64 (Z.shiftl high (64 - gainFractionBits))) (Z.shiftr low gainFractionBits) in
  let remainder := Z.land low (Z.shiftl 1 gainFractionBits - 1) in
  let half := Z.shiftl 1 (gainFractionBits - 1) in
  if (half <? remainder) || ((remainder =? half) && negb (Z.land quotient 1 =? 0)) then to_uint64 (quotient + 1) else quotient.

Definition roundShiftHalfEven (value shift : Z) : Z :=
  let quotient := Z.shiftr value shift in
  let remainder := Z.land value (Z.shiftl 1 shift - 1) in
  let half := Z.shiftl 1 (shift - 1) in
  if (half <? remainder) || ((remainder =? half) && negb (Z.land quotient 1 =? 0)) then to_uint64 (quotient + 1) else quotient.

(** The exponent has at most seventeen bits. *)
Definition gain_fuel : nat := 17.
Fixpoint gain_loop (fuel : nat) (exponent value factor : Z) : Z :=
  match fuel with
  | O => value
  | S fuel =>
      if exponent <=? 0 then value
      else
        let value := if negb (Z.land exponent 1 =? 0) then multiplyGainFixedHalfEven value factor else value in
        let exponent := Z.shiftr exponent 1 in
        let factor := if 0 <? exponent then multiplyGainFixedHalfEven factor factor else factor in
        gain_loop fuel exponent value factor
  end.

Definition GainCoefficientQ31 (milliDB : Z) : outcome engine_error Z :=
  if (milliDB <? -96000) || (24000 <? milliDB) then Fail EngineInvalid
  else if milliDB =? 0 then Ok (Z.shiftl 1 31)
  else
    let '(exponent, factor) := if milliDB <? 0 then (- milliDB, gainInverseFixed) else (milliDB, gainStepFixed) in
    Ok (roundShiftHalfEven (gain_loop gain_fuel exponent gainOneFixed factor) (gainFractionBits - 31)).

Fixpoint mix_sum (pairs : list (Z * Z)) (sum : Z) : outcome engine_error Z :=
  match pairs with
  | [] => Ok sum
  | (sample, gain) :: rest =>
      if (gain <? 0) || (maximumGainQ31 <? gain) then Fail EngineInvalid
      else
        let product := to_int64 (sample * gain) in
        if ((0 <? product) && (MaxInt64 - product <? sum)) || ((product <? 0) && (sum <? to_int64 (- MaxInt64 - 1 - product)))
        then Fail EngineInvalid
        else mix_sum rest (to_int64 (sum + product))
  end.

Definition MixPCM16 (samples gainQ31 : list Z) : outcome engine_error Z :=
  if negb (length samples =? length gainQ31)%nat || (MaximumActiveAudioLayers <? length samples)%nat then Fail EngineInvalid
  else
    sum ← mix_sum (zip samples gainQ31) 0;
    let mixed := roundHalfEvenSigned sum (Z.shiftl 1 31) in
    Ok (if 32767 <? mixed then 32767 else if mixed <? -32768 then -32768 else to_int16 mixed).

(** ** Decoders *)

Record StereoPCM16 := mkStereo { st_Left : Z; st_Right : Z }.

(** What an evaluator asks of the decoder of a run: to start it, to read up to
    an ordinal, and to finish it. *)
Class RunDecoder (S : Type) := {
  decoder : Type;
  decoder_open : DecodeRun -> outcome engine_error decoder;
  decoder_ReadTo : decoder -> Z -> outcome engine_error (decoder * S);
  decoder_Finish : decoder -> outcome engine_error unit }.
Arguments decoder S {_}.

(** A decoder of content: a run that may be opened is read at ordinals that do
    not go back, each read gives the content of the artifact there, and the run
    can be finished at its last ordinal. *)
Class DecodesRuns (S : Type) `{RunDecoder S} (content : string -> Z -> S) (decodable : DecodeRun -> Prop) := {
  decoder_at : DecodeRun -> option Z -> decoder S -> Prop;
  open_at : forall run, decodable run -> exists d, decoder_open run = Ok d /\ decoder_at run None d;
  read_at : forall run p d o, decodable run -> decoder_at run p d -> default 0 p <= o <= dr_LastOrdinal run -> 0 <= o ->
    exists d', decoder_ReadTo d o = Ok (d', content (dr_InputArtifactID run) o) /\ decoder_at run (Some o) d';
  finish_at : forall run d, decodable run -> decoder_at run (Some (dr_LastOrdinal run)) d -> decoder_Finish d = Ok tt }.

Definition rawPCMFrameBytes : Z := 4.
Definition rawPCMChunkSamples : Z := 4800.

(** [reader] holds the bytes the child has still to write; [childFails] says
    whether a child that ends by itself reports a failure; [finished] holds
    what finishing gave. *)
Record RawPCMDecoder := mkPCM {
  pd_reader : list Z; pd_childFails : bool; pd_chunk : list Z; pd_chunkStart : Z; pd_chunkSamples : Z; pd_nextOrdinal : Z;
  pd_expectedSamples : Z; pd_lastRequested : Z; pd_hasRequested : bool;
  pd_finished : option (outcome engine_error unit) }.

Definition StartRawPCMDecoder (reader : list Z) (childFails : bool) (lastOrdinal : Z) : outcome engine_error RawPCMDecoder :=
  if MaximumDecodedAudioSamples <=? lastOrdinal then Fail EngineInvalid
  else
    let expected := to_uint64 (lastOrdinal + 1) in
    if (multiplyUint64 expected rawPCMFrameBytes).2 then Fail (ResourceLimitError "decoded-audio-bytes")
    else Ok (mkPCM reader childFails (replicate (Z.to_nat (rawPCMChunkSamples * rawPCMFrameBytes)) 0) 0 0 0 expected 0 false None).

(** The loop over chunks: each turn reads at least one sample. *)
Fixpoint fill_chunk (fuel : nat) (d : RawPCMDecoder) (ordinal : Z) : outcome engine_error RawPCMDecoder :=
  match fuel with
  | O => Panic
  | S fuel =>
      if (pd_chunkSamples d =? 0) || (to_uint64 (pd_chunkStart d + pd_chunkSamples d) <=? ordinal) then
        if pd_expectedSamples d <=? pd_nextOrdinal d then Fail EngineInvalid
        else
          let remaining := pd_expectedSamples d - pd_nextOrdinal d in
          let samples := if remaining <? rawPCMChunkSamples then remaining else rawPCMChunkSamples in
          let bytes := Z.to_nat (samples * rawPCMFrameBytes) in
          if (length (pd_reader d) <? bytes)%nat then Fail EngineInvalid
          else fill_chunk fuel
                 (mkPCM (drop bytes (pd_reader d)) (pd_childFails d) (take bytes (pd_reader d) ++ drop bytes (pd_chunk d))
                    (pd_nextOrdinal d) samples (to_uint64 (pd_nextOrdinal d + samples)) (pd_expectedSamples d) (pd_lastRequested d)
                    (pd_hasRequested d) (pd_finished d)) ordinal
      else Ok d
  end.

Definition le_uint16 (chunk : list Z) (offset : nat) : outcome engine_error Z :=
  match chunk !! offset, chunk !! Datatypes.S offset with
  | Some low, Some high => Ok (low + 256 * high)
  | _, _ => Panic
  end.

Definition chunk_fuel (d : RawPCMDecoder) : nat := Z.to_nat (pd_expectedSamples d / rawPCMChunkSamples + 2).

Definition RawPCMDecoder_ReadTo (d : RawPCMDecoder) (ordinal : Z) : outcome engine_error (RawPCMDecoder * StereoPCM16) :=
  if negb (absent (pd_finished d)) || (pd_expectedSamples d <=? ordinal) then Fail EngineInvalid
  else if pd_hasRequested d && (ordinal <? pd_lastRequested d) then Fail EngineInvalid
  else
    d ← fill_chunk (chunk_fuel d) d ordinal;
    let offset := Z.to_nat ((ordinal - pd_chunkStart d) * rawPCMFrameBytes) in
    left ← le_uint16 (pd_chunk d) offset;
    right ← le_uint16 (pd_chunk d) (offset + 2)%nat;
    Ok (mkPCM (pd_reader d) (pd_childFails d) (pd_chunk d) (pd_chunkStart d) (pd_chunkSamples d) (pd_nextOrdinal d)
          (pd_expectedSamples d) ordinal true (pd_finished d), mkStereo (to_int16 left) (to_int16 right)).

Definition RawPCMDecoder_Finish (d : RawPCMDecoder) : outcome engine_error unit :=
  match pd_finished d with
  | Some finishErr => finishErr
  | None =>
  if negb (pd_hasRequested d) || negb (to_uint64 (pd_lastRequested d + 1) =? pd_expectedSamples d) ||
          negb (pd_nextOrdinal d =? pd_expectedSamples d) then Fail EngineInvalid
  else if pd_childFails d then Fail EngineInvalid else Ok tt
  end.

(** ** Writers *)

Record streamWriter := mkWriter { sw_limit : Z; sw_written : Z; sw_bytes : list Z }.

(** [boundedStreamWriter.Write] over a pipe that takes every byte *)
Definition stream_Write (w : streamWriter) (value : list Z) : outcome engine_error streamWriter :=
  if sw_limit w - sw_written w <? Z.of_nat (length value) then Fail (ResourceLimitError "raw-stream-bytes")
  else Ok (mkWriter (sw_limit w) (to_uint64 (sw_written w + Z.of_nat (length value))) (sw_bytes w ++ value)).

Definition put_int16 (v : Z) : list Z := let u := to_uint16 v in [Z.land u 255; Z.shiftr u 8].

(** * The audio evaluator of the render engine ([audio_evaluator.go]): one mix
    binding per request of the decode plan, advanced sample by sample over the
    output, each read from the decoder of its lane and mixed into interleaved
    16-bit samples that are written in chunks.

    A cancelled context and the closing of decoders after a failure are not
    modelled; after a success no decoder is open. *)


Definition AudioChunkSamples : Z := 4800.

Record audioMixBinding := mkBinding {
  mb_instructionIndex : Z; mb_laneIndex : nat; mb_runIndex : nat; mb_request : DecodeRequest; mb_gainQ31 : Z }.

(** ** Compiling the bindings *)

Section bindings.
Context (plan : RenderPlanPayload).

Fixpoint bind_requests (laneIndex runIndex : nat) (requests : list DecodeRequest) (seen : gset Z)
    : outcome engine_error (list audioMixBinding * gset Z) :=
  match requests with
  | [] => Ok ([], seen)
  | request :: rest =>
      if bool_decide (dq_InstructionIndex request ∈ seen) then Fail EngineInvalid
      else match pp_Audio plan !! Z.to_nat (dq_InstructionIndex request) with
           | None => Panic
           | Some instruction =>
               gain ← GainCoefficientQ31 (ra_GainMilliDB instruction);
               '(bindings, seen) ← bind_requests laneIndex runIndex rest ({[dq_InstructionIndex request]} ∪ seen);
               Ok (mkBinding (dq_InstructionIndex request) laneIndex runIndex request gain :: bindings, seen)
           end
  end.

Fixpoint bind_runs (laneIndex runIndex : nat) (runs : list DecodeRun) (seen : gset Z)
    : outcome engine_error (list audioMixBinding * gset Z) :=
  match runs with
  | [] => Ok ([], seen)
  | run :: rest =>
      _ ← validateAudioDecodeRun plan run;
      '(bindings, seen) ← bind_requests laneIndex runIndex (dr_Requests run) seen;
      '(others, seen) ← bind_runs laneIndex (S runIndex) rest seen;
      Ok (bindings ++ others, seen)
  end.

Fixpoint bind_lanes (laneIndex : nat) (lanes : list DecodeLane) (seen : gset Z)
    : outcome engine_error (list audioMixBinding * gset Z) :=
  match lanes with
  | [] => Ok ([], seen)
  | lane :: rest =>
      if negb (dl_Index lane =? Z.of_nat laneIndex) || (MaximumActiveAudioLayers <=? laneIndex)%nat then Fail EngineInvalid
      else
        '(bindings, seen) ← bind_runs laneIndex 0 (dl_Runs lane) seen;
        '(others, seen) ← bind_lanes (S laneIndex) rest seen;
        Ok (bindings ++ others, seen)
  end.

(** The audio input of each artifact, the last one of an identity winning *)
Fixpoint audio_inputs (inputs : list RenderPlanInput) (found : gmap string RenderAudioInput) : gmap string RenderAudioInput :=
  match inputs with
  | [] => found
  | input :: rest =>
      audio_inputs rest (match in_Audio input with None => found | Some audio => <[in_ArtifactID input := audio]> found end)
  end.

(** Every instruction that plays a sample is bound, and no other. *)
Fixpoint bindings_complete (inputs : gmap string RenderAudioInput) (seen : gset Z) (index : Z) (source : list RenderAudioInstruction) : bool :=
  match source with
  | [] => true
  | instruction :: rest =>
      match inputs !! ra_InputArtifactID instruction with
      | None => false
      | Some input =>
          match audioDecodeRequest (to_uint32 index) instruction input (out_AudioSampleCount (pp_Output plan)) with
          | Ok request => Bool.eqb (negb (absent request)) (bool_decide (to_uint32 index ∈ seen))
          | _ => false
          end && bindings_complete inputs seen (index + 1) rest
      end
  end.

Definition binding_le (left right : audioMixBinding) : Prop :=
  dq_First (mb_request left) < dq_First (mb_request right) \/
  dq_First (mb_request left) = dq_First (mb_request right) /\ mb_instructionIndex left <= mb_instructionIndex right.
#[export] Instance binding_le_dec : RelDecision binding_le.
Proof. intros l r. unfold binding_le. apply _. Defined.

Definition compileAudioMixBindings (decodePlan : DecodePlan) : outcome engine_error (list audioMixBinding) :=
  '(bindings, seen) ← bind_lanes 0 (dp_Lanes decodePlan) ∅;
  _ ← guard_or EngineInvalid (bindings_complete (audio_inputs (pp_Inputs plan) ∅) seen 0 (pp_Audio plan));
  Ok (merge_sort binding_le bindings).
End bindings.

(** ** Bindings that sound *)

(** The requests at [next] that start at the ordinal *)
Fixpoint starting (bindings : list audioMixBinding) (next : nat) (ordinal : Z) : list nat :=
  match bindings with
  | binding :: rest => if dq_First (mb_request binding) =? ordinal then next :: starting rest (S next) ordinal else []
  | [] => []
  end.

Definition still_sounding (bindings : list audioMixBinding) (ordinal : Z) (index : nat) : bool :=
  match bindings !! index with Some binding => ordinal <? dq_End (mb_request binding) | None => false end.

Definition instruction_at (bindings : list audioMixBinding) (index : nat) : Z :=
  match bindings !! index with Some binding => mb_instructionIndex binding | None => 0 end.

Definition instruction_le (bindings : list audioMixBinding) (left right : nat) : Prop :=
  instruction_at bindings left <= instruction_at bindings right.
#[export] Instance instruction_le_dec bindings : RelDecision (instruction_le bindings).
Proof. intros l r. unfold instruction_le. apply _. Defined.

Definition advanceAudioBindings (active : list nat) (bindings : list audioMixBinding) (next : nat) (ordinal : Z) : list nat * nat :=
  let kept := filter (fun index => still_sounding bindings ordinal index = true) active in
  let started := starting (drop next bindings) next ordinal in
  let changed := negb (length kept =? length active)%nat || negb (bool_decide (started = [])) in
  let active := kept ++ started in
  (if changed then merge_sort (instruction_le bindings) active else active, (next + length started)%nat).

(** ** Evaluation *)

Section evaluation.
Context `{RunDecoder StereoPCM16}.

Record audioLaneEvaluator := mkEvaluator {
  le_lane : DecodeLane; le_nextRun : nat; le_decoder : option (decoder StereoPCM16) }.

Definition lane_read (lane : audioLaneEvaluator) (binding : audioMixBinding) (outputOrdinal : Z)
    : outcome engine_error (audioLaneEvaluator * StereoPCM16) :=
  if negb (mb_runIndex binding =? le_nextRun lane)%nat || (outputOrdinal <? dq_First (mb_request binding)) ||
     (dq_End (mb_request binding) <=? outputOrdinal) || (length (dl_Runs (le_lane lane)) <=? mb_runIndex binding)%nat
  then Fail EngineInvalid
  else
    match dl_Runs (le_lane lane) !! mb_runIndex binding with
    | None => Panic
    | Some run =>
        d ← match le_decoder lane with Some d => Ok d | None => decoder_open run end;
        let ordinal := to_uint64 (dq_FirstOrdinal (mb_request binding) + outputOrdinal - dq_First (mb_request binding)) in
        '(d, sample) ← decoder_ReadTo d ordinal;
        if ordinal =? dr_LastOrdinal run then
          _ ← decoder_Finish d;
          Ok (mkEvaluator (le_lane lane) (S (le_nextRun lane)) None, sample)
        else Ok (mkEvaluator (le_lane lane) (le_nextRun lane) (Some d), sample)
    end.

(** The samples of the active bindings with their gains, in the order of [active] *)
Fixpoint read_active (bindings : list audioMixBinding) (outputOrdinal : Z) (active : list nat) (lanes : list audioLaneEvaluator)
    : outcome engine_error (list (StereoPCM16 * Z) * list audioLaneEvaluator) :=
  match active with
  | [] => Ok ([], lanes)
  | index :: rest =>
      match bindings !! index with
      | None => Panic
      | Some binding =>
          match lanes !! mb_laneIndex binding with
          | None => Panic
          | Some lane =>
              '(lane, sample) ← lane_read lane binding outputOrdinal;
              '(samples, lanes) ← read_active bindings outputOrdinal rest (<[mb_laneIndex binding := lane]> lanes);
              Ok ((sample, mb_gainQ31 binding) :: samples, lanes)
          end
      end
  end.

Record audioState := mkAudioState { au_active : list nat; au_next : nat; au_lanes : list audioLaneEvaluator }.

Definition mix_samples (samples : list (StereoPCM16 * Z)) : outcome engine_error (list Z) :=
  left ← MixPCM16 (st_Left ∘ fst <$> samples) samples.*2;
  right ← MixPCM16 (st_Right ∘ fst <$> samples) samples.*2;
  Ok (put_int16 left ++ put_int16 right).

Definition evaluate_sample (bindings : list audioMixBinding) (ordinal : Z) (state : audioState)
    : outcome engine_error (list Z * audioState) :=
  let '(active, next) := advanceAudioBindings (au_active state) bindings (au_next state) ordinal in
  if (MaximumActiveAudioLayers <? length active)%nat then Fail (ResourceLimitError "active-audio-layers")
  else
    '(samples, lanes) ← read_active bindings ordinal active (au_lanes state);
    bytes ← mix_samples samples;
    Ok (bytes, mkAudioState active next lanes).

(** The loop over the offsets of a chunk *)
Fixpoint evaluate_chunk (bindings : list audioMixBinding) (samples : nat) (ordinal : Z) (state : audioState)
    : outcome engine_error (list Z * audioState) :=
  match samples with
  | O => Ok ([], state)
  | S samples =>
      '(bytes, state) ← evaluate_sample bindings ordinal state;
      '(rest, state) ← evaluate_chunk bindings samples (ordinal + 1) state;
      Ok (bytes ++ rest, state)
  end.

(** The loop over chunks, each of at least one sample *)
Fixpoint evaluate_chunks (fuel : nat) (bindings : list audioMixBinding) (chunkSize outputCount chunkStart : Z) (state : audioState)
    (w : streamWriter) : outcome engine_error (audioState * streamWriter) :=
  match fuel with
  | O => Panic
  | S fuel =>
      if outputCount <=? chunkStart then Ok (state, w)
      else
        let remaining := outputCount - chunkStart in
        let chunkSamples := if remaining <? chunkSize then remaining else chunkSize in
        '(bytes, state) ← evaluate_chunk bindings (Z.to_nat chunkSamples) chunkStart state;
        w ← stream_Write w bytes;
        evaluate_chunks fuel bindings chunkSize outputCount (chunkStart + chunkSamples) state w
  end.

Definition lane_idle (lane : audioLaneEvaluator) : bool :=
  absent (le_decoder lane) && (le_nextRun lane =? length (dl_Runs (le_lane lane)))%nat.

Definition evaluateAudioStream (plan : RenderPlanPayload) (chunkSize : Z) (decodePlan : DecodePlan) (bindings : list audioMixBinding)
    (w : streamWriter) : outcome engine_error streamWriter :=
  let lanes := (fun lane => mkEvaluator lane 0 None) <$> dp_Lanes decodePlan in
  let outputCount := out_AudioSampleCount (pp_Output plan) in
  '(state, w) ← evaluate_chunks (Z.to_nat (outputCount / chunkSize + 2)) bindings chunkSize outputCount 0 (mkAudioState [] 0 lanes) w;
  _ ← guard_or EngineInvalid (negb (negb (au_next state =? length bindings)%nat ||
    negb (bool_decide ((advanceAudioBindings (au_active state) bindings (au_next state) outputCount).1 = []))));
  _ ← guard_or EngineInvalid (forallb lane_idle (au_lanes state));
  Ok w.

(** [expectedAudioStreamBytes] and [exactStreamProducer] of [pipeline.go]
    around the evaluator: the bytes given to the encoder *)
Definition expectedAudioStreamBytes (plan : RenderPlanPayload) : outcome engine_error Z :=
  let '(value, overflow) := multiplyUint64 (out_AudioSampleCount (pp_Output plan)) 4 in
  if overflow || (value =? 0) then Fail (ResourceLimitError "raw-audio-bytes") else Ok value.

Definition audio_stream (plan : RenderPlanPayload) (decodePlan : DecodePlan) : outcome engine_error (list Z) :=
  bindings ← compileAudioMixBindings plan decodePlan;
  expected ← expectedAudioStreamBytes plan;
  w ← evaluateAudioStream plan AudioChunkSamples decodePlan bindings (mkWriter expected 0 []);
  if negb (sw_written w =? expected) then Fail EngineInvalid else Ok (sw_bytes w).
End evaluation.
