(* ===== verification/EngineMix.v ===== *)
(** Gains and mixes: every gain of the contract has a coefficient within the
    mixer's bound, and a mix of at most 32 layers is the exact sum of its
    products, rounded half to even and limited to 16 bits. *)
From stdpp Require Import base list strings.
From Stdlib Require Import ZArith Lia.
From S2P Require Import Prelude EditValidate RenderContract EngineLanes EngineAudio.
Open Scope Z_scope.

(** ** Rounding half to even *)

Definition nearest_even (n d q : Z) : Prop := 2 * Z.abs (n - q * d) <= d /\ (2 * Z.abs (n - q * d) = d -> Z.Even q).

Lemma nearest_even_unique n d q q' : 0 < d -> nearest_even n d q -> nearest_even n d q' -> q = q'.
Proof.
  intros Hd [H1 E1] [H2 E2]. destruct (Z.eq_dec q q') as [|Hne]; [done|].
  assert (Hq : q = q' + 1 \/ q' = q + 1) by nia.
  destruct Hq; subst.
  - destruct E1 as [a Ha]; [nia|]. destruct E2 as [b Hb]; [nia|]. lia.
  - destruct E1 as [a Ha]; [nia|]. destruct E2 as [b Hb]; [nia|]. lia.
Qed.

Lemma nearest_even_mono n m d q q' : 0 < d -> n <= m -> nearest_even n d q -> nearest_even m d q' -> q <= q'.
Proof.
  intros Hd Hle H1 H2. destruct (Z.le_gt_cases q q') as [|Hgt]; [done|].
  assert (n = m) as -> by (destruct H1, H2; nia). rewrite (nearest_even_unique _ _ _ _ Hd H1 H2). lia.
Qed.

Lemma land_1 q : (Z.land q 1 =? 0) = Z.even q.
Proof. change 1 with (Z.ones 1). rewrite Z.land_ones by lia. change (2 ^ 1) with 2. rewrite Zmod_even. by destruct (Z.even q). Qed.

(** The rounding step all four functions share *)
Lemma round_up_nearest n d q r : 0 < d -> n = q * d + r -> 0 <= r < d ->
  nearest_even n d (if (d <? 2 * r) || ((2 * r =? d) && negb (Z.even q)) then q + 1 else q).
Proof.
  intros Hd -> Hr. unfold nearest_even.
  destruct (Z.ltb_spec d (2 * r)); cbn [orb].
  { split; [nia|]. intros; nia. }
  destruct (Z.eqb_spec (2 * r) d); cbn [andb].
  - destruct (Z.even q) eqn:E; cbn [negb]; split; try nia; intros _; [by apply Z.even_spec|].
    apply Z.even_spec. by rewrite Z.even_add, E.
  - split; [nia|]. intros; nia.
Qed.

Lemma roundHalfEvenSigned_nearest n d : 0 < d < 2 ^ 62 -> nearest_even n d (roundHalfEvenSigned n d).
Proof.
  intros Hd. unfold roundHalfEvenSigned. pose proof (Z.quot_rem' n d). pose proof (Z.rem_bound_abs n d ltac:(lia)) as Hb.
  rewrite land_1. set (q := Z.quot n d) in *. set (r := Z.rem n d) in *.
  destruct (Z.ltb_spec n 0) as [Hn|Hn].
  - assert (Hr : - d < r <= 0) by (apply Z.rem_bound_pos_neg; lia).
    replace (if r <? 0 then - r else r) with (- r) by (destruct (Z.ltb_spec r 0); lia).
    rewrite to_int64_small by (unfold MinInt64, MaxInt64; lia).
    assert (Hround : nearest_even (- n) d (if (d <? 2 * - r) || ((2 * - r =? d) && negb (Z.even (- q))) then - q + 1 else - q)).
    { apply (round_up_nearest (- n) d (- q) (- r)); lia. }
    rewrite Z.even_opp in Hround. replace (2 * - r) with (- r * 2) in Hround by lia. unfold nearest_even in *.
    destruct (_ || _); split; try lia.
    + intros E. destruct Hround as [_ [x Hx]]; [lia|]. exists (- x). lia.
    + intros E. destruct Hround as [_ [x Hx]]; [lia|]. exists (- x). lia.
  - assert (Hr : 0 <= r < d) by (apply Z.rem_bound_pos; lia).
    replace (if r <? 0 then - r else r) with r by (destruct (Z.ltb_spec r 0); lia).
    rewrite to_int64_small by (unfold MinInt64, MaxInt64; lia). replace (r * 2) with (2 * r) by lia.
    apply round_up_nearest; lia.
Qed.

Lemma shift_round_nearest n s (q := Z.shiftr n s) (r := Z.land n (Z.shiftl 1 s - 1)) : 1 <= s ->
  nearest_even n (2 ^ s) (if (Z.shiftl 1 (s - 1) <? r) || ((r =? Z.shiftl 1 (s - 1)) && negb (Z.land q 1 =? 0)) then q + 1 else q).
Proof.
  intros Hs. subst q r. rewrite land_1, !Z.shiftl_1_l, Z.shiftr_div_pow2 by lia.
  replace (2 ^ s - 1) with (Z.ones s) by (rewrite Z.ones_equiv; lia). rewrite Z.land_ones by lia.
  pose proof (Z.pow_pos_nonneg 2 s ltac:(lia) ltac:(lia)). pose proof (Z.mod_pos_bound n (2 ^ s) ltac:(lia)).
  assert (Hh : 2 ^ s = 2 * 2 ^ (s - 1)) by (rewrite <- Z.pow_succ_r by lia; f_equal; lia).
  replace (2 ^ (s - 1) <? n mod 2 ^ s) with (2 ^ s <? 2 * (n mod 2 ^ s)) by
    (destruct (Z.ltb_spec (2 ^ s) (2 * (n mod 2 ^ s))), (Z.ltb_spec (2 ^ (s - 1)) (n mod 2 ^ s)); lia || done).
  replace (n mod 2 ^ s =? 2 ^ (s - 1)) with (2 * (n mod 2 ^ s) =? 2 ^ s) by
    (destruct (Z.eqb_spec (2 * (n mod 2 ^ s)) (2 ^ s)), (Z.eqb_spec (n mod 2 ^ s) (2 ^ (s - 1))); lia || done).
  apply round_up_nearest; [lia| |lia]. pose proof (Z.div_mod n (2 ^ s) ltac:(lia)). lia.
Qed.

Lemma roundShiftHalfEven_nearest v s : 0 <= v < 2 ^ 62 -> 1 <= s -> nearest_even v (2 ^ s) (roundShiftHalfEven v s).
Proof.
  intros Hv Hs. pose proof (shift_round_nearest v s Hs) as H. unfold roundShiftHalfEven.
  rewrite (to_uint64_small (Z.shiftr v s + 1)); [done|]. rewrite Z.shiftr_div_pow2 by lia.
  pose proof (Z.pow_pos_nonneg 2 s ltac:(lia) ltac:(lia)).
  pose proof (Z.div_pos v (2 ^ s) ltac:(lia) ltac:(lia)). pose proof (Z.div_le_upper_bound v (2 ^ s) (2 ^ 62) ltac:(lia) ltac:(nia)). lia.
Qed.

(** The high and low words of a product give its quotient by [2 ^ 56]. *)
Lemma product_quotient p : 0 <= p < 2 ^ 118 ->
  Z.lor (to_uint64 (Z.shiftl (Z.shiftr p 64) (64 - gainFractionBits))) (Z.shiftr (Z.land p (2 ^ 64 - 1)) gainFractionBits) =
  Z.shiftr p gainFractionBits.
Proof.
  intros Hp. unfold gainFractionBits, to_uint64. change (64 - 56) with 8. change (2 ^ 64 - 1) with (Z.ones 64).
  apply Z.bits_inj'. intros n Hn. rewrite Z.lor_spec, !Z.shiftr_spec, Z.land_spec by lia.
  destruct (Z.lt_ge_cases n 64) as [H1|H1].
  - rewrite Z.mod_pow2_bits_low, Z.shiftl_spec by lia. destruct (Z.lt_ge_cases n 8) as [H2|H2].
    + rewrite (Z.testbit_neg_r _ (n - 8)) by lia. rewrite Z.ones_spec_low by lia. by rewrite andb_true_r.
    + rewrite Z.shiftr_spec, Z.ones_spec_high by lia. rewrite andb_false_r, orb_false_r. f_equal. lia.
  - rewrite Z.mod_pow2_bits_high, Z.ones_spec_high by lia. rewrite andb_false_r. cbn. symmetry.
    destruct (Z.eq_dec p 0) as [->|Hnz]; [apply Z.bits_0|]. apply Z.bits_above_log2; [lia|].
    apply Z.lt_le_trans with 118; [|lia]. apply Z.log2_lt_pow2; lia.
Qed.

Lemma multiplyGain_nearest l r : 0 <= l -> 0 <= r -> l * r < 2 ^ 118 ->
  nearest_even (l * r) (2 ^ 56) (multiplyGainFixedHalfEven l r) /\ 0 <= multiplyGainFixedHalfEven l r.
Proof.
  intros Hl Hr Hp. assert (H0 : 0 <= l * r) by (apply Z.mul_nonneg_nonneg; done).
  pose proof (shift_round_nearest (l * r) 56 ltac:(lia)) as H. unfold multiplyGainFixedHalfEven.
  rewrite product_quotient by lia. unfold gainFractionBits in *.
  replace (Z.land (Z.land (l * r) (2 ^ 64 - 1)) (Z.shiftl 1 56 - 1)) with (Z.land (l * r) (Z.shiftl 1 56 - 1)).
  2: { rewrite <- Z.land_assoc. f_equal. }
  assert (B : 0 <= Z.shiftr (l * r) 56 < 2 ^ 62).
  { rewrite Z.shiftr_div_pow2 by lia. split; [apply Z.div_pos; lia|]. apply Z.div_lt_upper_bound; lia. }
  rewrite (to_uint64_small (Z.shiftr (l * r) 56 + 1)) by lia. split; [exact H|]. destruct (_ || _); lia.
Qed.

(** ** Gain coefficients *)

Lemma multiplyGain_mono l l' r : 0 <= l <= l' -> 0 <= r -> l' * r < 2 ^ 118 ->
  multiplyGainFixedHalfEven l r <= multiplyGainFixedHalfEven l' r.
Proof.
  intros Hl Hr Hp. apply (nearest_even_mono (l * r) (l' * r) (2 ^ 56)); [lia|nia| |]; apply multiplyGain_nearest; nia.
Qed.

Lemma gain_loop_zero fuel v f : gain_loop fuel 0 v f = v.
Proof. by destruct fuel. Qed.

Lemma gain_loop_step fuel e v f : 0 <= e ->
  gain_loop (S fuel) e v f =
  gain_loop fuel (Z.shiftr e 1) (if Z.even e then v else multiplyGainFixedHalfEven v f) (multiplyGainFixedHalfEven f f).
Proof.
  intros He. cbn [gain_loop]. rewrite land_1. destruct (Z.leb_spec e 0).
  - replace e with 0 by lia. cbn [Z.even]. change (Z.shiftr 0 1) with 0. by rewrite gain_loop_zero.
  - rewrite if_negb. destruct (Z.ltb_spec 0 (Z.shiftr e 1)) as [|H0]; [done|].
    assert (Z.shiftr e 1 = 0) as -> by (pose proof (proj2 (Z.shiftr_nonneg e 1)); lia). by rewrite !gain_loop_zero.
Qed.

(** A bound on every exponent up to [limit]: [veq] bounds the value while the
    bits still to come equal those of the limit, [vlt] while they are below. *)
Fixpoint gain_checked (fuel : nat) (limit veq vlt factor top : Z) : bool :=
  if limit <=? 0 then (veq <=? top) && (limit =? 0)
  else match fuel with
  | O => false
  | S fuel =>
      (0 <=? factor) && (veq * factor <? 2 ^ 118) && (vlt * factor <? 2 ^ 118) && (vlt <=? multiplyGainFixedHalfEven vlt factor) &&
      gain_checked fuel (Z.shiftr limit 1)
        (if Z.even limit then veq else Z.max (multiplyGainFixedHalfEven veq factor) vlt)
        (multiplyGainFixedHalfEven vlt factor) (multiplyGainFixedHalfEven factor factor) top
  end.

Lemma gain_loop_checked fuel : forall limit veq vlt f top e v, gain_checked fuel limit veq vlt f top = true ->
  0 <= e <= limit -> 0 <= v -> (e = limit -> v <= veq) -> (e < limit -> v <= vlt) -> 0 <= gain_loop fuel e v f <= top.
Proof.
  induction fuel as [|fuel IH]; intros limit veq vlt f top e v Hc He Hv Heq Hlt; cbn [gain_checked] in Hc;
    destruct (Z.leb_spec limit 0) as [Hl|Hl]; try done.
  1,2: bool_prop; replace e with 0 by lia; rewrite gain_loop_zero; specialize (Heq ltac:(lia)); lia.
  bool_prop. rewrite gain_loop_step by lia. eapply IH; [eassumption| | | |].
  all: rewrite ?Z.shiftr_div_pow2 by lia; change (2 ^ 1) with 2;
    pose proof (Z.div_mod e 2 ltac:(lia)) as De; pose proof (Z.div_mod limit 2 ltac:(lia)) as Dl; rewrite !Zmod_even in *.
  - split; [apply Z.div_pos; lia|]. apply Z.div_le_mono; lia.
  - destruct (Z.even e); [done|]. apply multiplyGain_nearest; [lia..|]. destruct (Z.eq_dec e limit); [specialize (Heq ltac:(lia))|specialize (Hlt ltac:(lia))]; nia.
  - intros E. destruct (Z.even e), (Z.even limit); try lia.
    specialize (Heq ltac:(lia)). etransitivity; [|apply Z.le_max_l]. apply multiplyGain_mono; lia.
  - intros E. assert (e < limit) by (destruct (Z.even e), (Z.even limit); lia). specialize (Hlt ltac:(lia)).
    destruct (Z.even e); [lia|]. apply multiplyGain_mono; lia.
Qed.

Lemma gain_loop_small fuel : forall e v f, 0 <= e -> 0 <= v <= 2 ^ 56 -> 0 <= f <= 2 ^ 56 -> 0 <= gain_loop fuel e v f <= 2 ^ 56.
Proof.
  assert (Hm : forall l r, 0 <= l <= 2 ^ 56 -> 0 <= r <= 2 ^ 56 -> 0 <= multiplyGainFixedHalfEven l r <= 2 ^ 56).
  { intros l r Hl Hr. assert (l * r <= 2 ^ 56 * 2 ^ 56) by (apply Z.mul_le_mono_nonneg; lia).
    destruct (multiplyGain_nearest l r) as [Hn ?]; [lia..|]. split; [done|].
    apply (nearest_even_mono (l * r) (2 ^ 56 * 2 ^ 56) (2 ^ 56)); [lia..|done|]. split; [lia|]. intros. by exists (2 ^ 55). }
  induction fuel as [|fuel IH]; intros e v f He Hv Hf; [done|]. rewrite gain_loop_step by done.
  apply IH; [by apply Z.shiftr_nonneg| |by apply Hm]. destruct (Z.even e); [done|by apply Hm].
Qed.

Lemma gain_coefficient_total m : RenderGainMinimumMilliDB <= m <= RenderGainMaximumMilliDB ->
  exists g, GainCoefficientQ31 m = Ok g /\ 0 <= g <= maximumGainQ31.
Proof.
  unfold RenderGainMinimumMilliDB, RenderGainMaximumMilliDB. intros Hm. unfold GainCoefficientQ31.
  destruct (Z.ltb_spec m (-96000)); [lia|]. destruct (Z.ltb_spec 24000 m); [lia|]. cbn [orb].
  destruct (Z.eqb_spec m 0); [exists (Z.shiftl 1 31); split; [done|]; change (Z.shiftl 1 31) with 2147483648; unfold maximumGainQ31; lia|].
  assert (Hround : forall v top, 0 <= v <= top -> top < 2 ^ 62 -> 0 <= roundShiftHalfEven v 25 <= roundShiftHalfEven top 25).
  { intros v top Hv Ht. split.
    - apply (nearest_even_mono 0 v (2 ^ 25)); [lia..| |apply roundShiftHalfEven_nearest; lia]. split; [done|by exists 0].
    - apply (nearest_even_mono v top (2 ^ 25)); [lia..| |]; apply roundShiftHalfEven_nearest; lia. }
  change (gainFractionBits - 31) with 25.
  destruct (Z.ltb_spec m 0); eexists; (split; [reflexivity|]).
  - destruct (Hround (gain_loop gain_fuel (- m) gainOneFixed gainInverseFixed) (2 ^ 56)) as [R1 R2].
    + apply gain_loop_small; [lia|done|done].
    + done.
    + split; [done|]. etransitivity; [exact R2|]. vm_compute. congruence.
  - destruct (Hround (gain_loop gain_fuel m gainOneFixed gainStepFixed) 1142035902558407516) as [R1 R2].
    + apply (gain_loop_checked gain_fuel 24000 gainOneFixed gainOneFixed); [vm_compute; reflexivity|lia|done|done|done].
    + done.
    + split; [done|]. etransitivity; [exact R2|]. vm_compute. congruence.
Qed.

(** ** Mixes *)

Definition dot (pairs : list (Z * Z)) : Z := foldr (fun p sum => p.1 * p.2 + sum) 0 pairs.
Definition saturate (v : Z) : Z := Z.max (-32768) (Z.min 32767 v).
Definition int16_ok (s : Z) : Prop := -32768 <= s <= 32767.
Definition layer_ok (p : Z * Z) : Prop := int16_ok p.1 /\ 0 <= p.2 <= maximumGainQ31.

(** The largest product of a sample and a gain *)
Definition layer_limit : Z := 32768 * maximumGainQ31.

Lemma mix_sum_exact pairs : forall sum, Forall layer_ok pairs -> Z.abs sum + Z.of_nat (length pairs) * layer_limit <= 32 * layer_limit ->
  mix_sum pairs sum = Ok (sum + dot pairs).
Proof.
  induction pairs as [|[s g] rest IH]; intros sum Hall Hb; [cbn; f_equal; lia|].
  apply Forall_cons in Hall as [[Hs Hg] Hrest]. cbn [fst snd] in *. cbn [length] in Hb. unfold int16_ok, layer_limit, maximumGainQ31 in *.
  assert (Hp : Z.abs (s * g) <= 32768 * 34035322146) by nia.
  cbn [mix_sum dot foldr fst snd]. unfold maximumGainQ31, MaxInt64, MinInt64 in *.
  rewrite (to_int64_small (s * g)) by (unfold MinInt64, MaxInt64; lia).
  destruct (Z.ltb_spec g 0); [lia|]. destruct (Z.ltb_spec 34035322146 g); [lia|]. cbn [orb].
  replace ((0 <? s * g) && (9223372036854775807 - s * g <? sum)) with false
    by (destruct (Z.ltb_spec 0 (s * g)), (Z.ltb_spec (9223372036854775807 - s * g) sum); lia || done).
  cbn [orb]. destruct (Z.ltb_spec (s * g) 0); cbn [andb].
  1: rewrite to_int64_small by (unfold MinInt64, MaxInt64; lia); destruct (Z.ltb_spec sum (- (9223372036854775807) - 1 - s * g)); [lia|].
  all: rewrite (to_int64_small (sum + s * g)) by (unfold MinInt64, MaxInt64; lia); rewrite IH; [|done|lia];
    unfold dot; f_equal; lia.
Qed.

Lemma MixPCM16_exact samples gains : length samples = length gains -> (length samples <= 32)%nat -> Forall layer_ok (zip samples gains) ->
  exists v, MixPCM16 samples gains = Ok (saturate v) /\ nearest_even (dot (zip samples gains)) (2 ^ 31) v.
Proof.
  intros Hl Hm Hall. exists (roundHalfEvenSigned (dot (zip samples gains)) (2 ^ 31)).
  split; [|apply roundHalfEvenSigned_nearest; lia]. unfold MixPCM16. rewrite Hl, Nat.eqb_refl. cbn [negb orb].
  unfold MaximumActiveAudioLayers. destruct (Nat.ltb_spec 32 (length gains)); [lia|].
  rewrite mix_sum_exact; [|done|rewrite length_zip; unfold layer_limit, maximumGainQ31; lia]. cbn [mbind outcome_bind].
  rewrite Z.add_0_l. change (Z.shiftl 1 31) with (2 ^ 31). set (v := roundHalfEvenSigned _ _). clearbody v. f_equal. unfold saturate.
  destruct (Z.ltb_spec 32767 v); [lia|]. destruct (Z.ltb_spec v (-32768)); [lia|]. unfold to_int16. rewrite Z.mod_small by lia. lia.
Qed.
