(* ===== verification/EngineDecoder.v ===== *)
(** The decoder of an audio run ([StartAudioDecodeRun] and [RawPCMDecoder] of
    [raw_audio_decoder.go]) keeps the promise of [DecodesRuns]: reading its
    child's output in chunks gives, at every ordinal, the sample that lies there
    in the decoded artifact. *)
From stdpp Require Import base list strings gmap sorting.
From Stdlib Require Import ZArith Lia.
From S2P Require Import Prelude GoText Exact EditModel Timeline EditValidate RenderContract EngineLanes EngineAudio.
Open Scope Z_scope.

(** What the media tools do: the raw bytes the decoding of an artifact's audio
    writes, and whether its process ends with a failure. *)
Class MediaChild := { child_stdout : string -> list Z; child_fails : string -> bool }.

Section decoder.
Context `{MediaChild} (plan : RenderPlanPayload).

Definition rawPCMInputCodec (profile : string) : outcome engine_error string :=
  if bool_decide (profile = SourceProxyProfile) then Ok "libopus"
  else if bool_decide (profile = RenderInputProfile) then Ok "pcm_s16le"
  else Fail EngineInvalid.

Definition StartAudioDecodeRun (run : DecodeRun) : outcome engine_error RawPCMDecoder :=
  _ ← or_fail EngineInvalid (validateAudioDecodeRun plan run);
  match pp_Inputs plan !! Z.to_nat (dr_InputIndex run) with
  | None => Fail EngineInvalid
  | Some input =>
      _ ← rawPCMInputCodec (in_Profile input);
      match in_Audio input with
      | None => Fail EngineInvalid
      | Some audio =>
          if negb (bool_decide (in_ArtifactID input = dr_InputArtifactID run)) ||
             negb (bool_decide (ai_SourceStreamID audio = dr_SourceStreamID run)) || (ai_DecodedSampleCount audio <=? dr_LastOrdinal run)
          then Fail EngineInvalid
          else StartRawPCMDecoder (child_stdout (dr_InputArtifactID run)) (child_fails (dr_InputArtifactID run)) (dr_LastOrdinal run)
      end
  end.

#[export] Instance pcm_decoder : RunDecoder StereoPCM16 := {|
  decoder := RawPCMDecoder; decoder_open := StartAudioDecodeRun; decoder_ReadTo := RawPCMDecoder_ReadTo;
  decoder_Finish := RawPCMDecoder_Finish |}.

(** The sample at an ordinal of the decoded artifact *)
Definition byte_of_child (artifact : string) (offset : Z) : Z := default 0 (child_stdout artifact !! Z.to_nat offset).
Definition child_sample (artifact : string) (o : Z) : StereoPCM16 :=
  mkStereo (to_int16 (byte_of_child artifact (4 * o) + 256 * byte_of_child artifact (4 * o + 1)))
           (to_int16 (byte_of_child artifact (4 * o + 2) + 256 * byte_of_child artifact (4 * o + 3))).

(** An artifact decodes to at least its declared samples, and without failure. *)
Definition artifact_decodes (artifact : string) (samples : Z) : Prop :=
  child_fails artifact = false /\ 4 * samples <= Z.of_nat (length (child_stdout artifact)).

Definition run_decodable (run : DecodeRun) : Prop :=
  validateAudioDecodeRun plan run = Ok tt /\ 0 <= dr_LastOrdinal run /\
  exists input audio, pp_Inputs plan !! Z.to_nat (dr_InputIndex run) = Some input /\ in_Audio input = Some audio /\
    (in_Profile input = SourceProxyProfile \/ in_Profile input = RenderInputProfile) /\
    dr_LastOrdinal run < ai_DecodedSampleCount audio /\ artifact_decodes (dr_InputArtifactID run) (ai_DecodedSampleCount audio).

Section run.
Context (run : DecodeRun) (out := child_stdout (dr_InputArtifactID run)).

(** The chunk in memory is the part of the output it claims to be, and the reader stands behind it. *)
Record chunk_ok (d : RawPCMDecoder) : Prop := mkChunkOk {
  ck_expected : pd_expectedSamples d = dr_LastOrdinal run + 1;
  ck_open : pd_finished d = None;
  ck_child : pd_childFails d = child_fails (dr_InputArtifactID run);
  ck_next : 0 <= pd_nextOrdinal d <= dr_LastOrdinal run + 1;
  ck_reader : pd_reader d = drop (Z.to_nat (4 * pd_nextOrdinal d)) out;
  ck_loaded : pd_chunkSamples d = 0 /\ pd_nextOrdinal d = 0 \/
    0 < pd_chunkSamples d /\ 0 <= pd_chunkStart d /\ pd_chunkStart d + pd_chunkSamples d = pd_nextOrdinal d /\
    take (Z.to_nat (4 * pd_chunkSamples d)) (pd_chunk d) =
      take (Z.to_nat (4 * pd_chunkSamples d)) (drop (Z.to_nat (4 * pd_chunkStart d)) out) }.

Definition pcm_at (p : option Z) (d : RawPCMDecoder) : Prop :=
  chunk_ok d /\
  match p with
  | None => pd_hasRequested d = false /\ pd_chunkSamples d = 0
  | Some o => pd_hasRequested d = true /\ pd_lastRequested d = o /\ 0 < pd_chunkSamples d /\ pd_chunkStart d <= o < pd_nextOrdinal d
  end.

Hypothesis Hlast : 0 <= dr_LastOrdinal run < MaximumDecodedAudioSamples.
Hypothesis Hout : 4 * (dr_LastOrdinal run + 1) <= Z.of_nat (length out).

Lemma fill_chunk_ok fuel : forall d o, chunk_ok d -> 0 <= o <= dr_LastOrdinal run ->
  (0 < pd_chunkSamples d -> pd_chunkStart d <= o) ->
  (pd_expectedSamples d - pd_nextOrdinal d + 4799) / 4800 < Z.of_nat fuel ->
  exists d', fill_chunk fuel d o = Ok d' /\ chunk_ok d' /\ 0 < pd_chunkSamples d' /\ pd_chunkStart d' <= o < pd_nextOrdinal d'.
Proof using Hlast Hout.
  unfold MaximumDecodedAudioSamples in Hlast.
  induction fuel as [|fuel IH]; intros d o Hk Ho Hs Hf.
  { destruct Hk. pose proof (Z.div_pos (pd_expectedSamples d - pd_nextOrdinal d + 4799) 4800 ltac:(lia) ltac:(lia)). lia. }
  cbn [fill_chunk]. pose proof Hk as [He Hfin Hch Hn Hr Hl].
  assert (Hcond : (pd_chunkSamples d =? 0) || (to_uint64 (pd_chunkStart d + pd_chunkSamples d) <=? o) = true /\ pd_nextOrdinal d <= o \/
    (pd_chunkSamples d =? 0) || (to_uint64 (pd_chunkStart d + pd_chunkSamples d) <=? o) = false /\ 0 < pd_chunkSamples d /\ o < pd_nextOrdinal d).
  { destruct Hl as [[-> Hz]|(Hp & Hst & Hsum & _)]; [left; split; [done|lia]|].
    rewrite to_uint64_small by lia. destruct (Z.eqb_spec (pd_chunkSamples d) 0); [lia|]. cbn [orb].
    destruct (Z.leb_spec (pd_chunkStart d + pd_chunkSamples d) o); [left|right]; split; try done; lia. }
  destruct Hcond as [[-> Hle]|(-> & Hp & Hlt)]; [|exists d; split; [done|]; split; [done|]; split; [done|]; auto].
  destruct (Z.leb_spec (pd_expectedSamples d) (pd_nextOrdinal d)); [lia|].
  set (samples := if pd_expectedSamples d - pd_nextOrdinal d <? rawPCMChunkSamples then pd_expectedSamples d - pd_nextOrdinal d else rawPCMChunkSamples).
  assert (Hsam : samples = Z.min 4800 (pd_expectedSamples d - pd_nextOrdinal d)).
  { subst samples. unfold rawPCMChunkSamples. destruct (Z.ltb_spec (pd_expectedSamples d - pd_nextOrdinal d) 4800); lia. }
  clearbody samples. unfold rawPCMFrameBytes.
  destruct (Nat.ltb_spec (length (pd_reader d)) (Z.to_nat (samples * 4))) as [Hshort|Hlen].
  { rewrite Hr, length_drop in Hshort. lia. }
  apply IH; [|done| |]; cbn [pd_chunkStart pd_chunkSamples pd_nextOrdinal pd_expectedSamples]; rewrite ?to_uint64_small by lia.
  - split; cbn [pd_chunkStart pd_chunkSamples pd_nextOrdinal pd_expectedSamples pd_finished pd_childFails pd_reader pd_chunk];
      rewrite ?to_uint64_small by lia; try done; [lia| |].
    + rewrite Hr, drop_drop. f_equal. lia.
    + right. split; [lia|]. split; [lia|]. split; [done|]. replace (4 * samples) with (samples * 4) by lia.
      rewrite take_app_le by (rewrite length_take; lia). rewrite take_take, Nat.min_id. by rewrite Hr.
  - lia.
  - apply Z.lt_le_trans with (Z.of_nat fuel + 0); [|lia]. rewrite Z.add_0_r. destruct (Z.min_spec 4800 (pd_expectedSamples d - pd_nextOrdinal d)) as [[? E]|[? E]].
    + replace (pd_expectedSamples d - pd_nextOrdinal d + 4799) with (pd_expectedSamples d - (pd_nextOrdinal d + samples) + 4799 + 1 * 4800) in Hf by lia.
      rewrite Z.div_add in Hf by lia. lia.
    + replace (pd_expectedSamples d - (pd_nextOrdinal d + samples) + 4799) with 4799 by lia. change (4799 / 4800) with 0.
      assert (1 <= (pd_expectedSamples d - pd_nextOrdinal d + 4799) / 4800) by (apply Z.div_le_lower_bound; lia). lia.
Qed.

Lemma chunk_byte d k : chunk_ok d -> 0 < pd_chunkSamples d -> 0 <= k < 4 * pd_chunkSamples d ->
  pd_chunk d !! Z.to_nat k = Some (byte_of_child (dr_InputArtifactID run) (4 * pd_chunkStart d + k)).
Proof using Hlast Hout.
  intros [_ _ _ Hn _ Hl] Hp Hk. destruct Hl as [[? _]|(_ & Hs & Hsum & Ht)]; [lia|].
  assert (E : pd_chunk d !! Z.to_nat k = out !! (Z.to_nat (4 * pd_chunkStart d) + Z.to_nat k)%nat).
  { rewrite <- lookup_drop, <- (lookup_take_lt (pd_chunk d) (Z.to_nat (4 * pd_chunkSamples d))) by lia.
    rewrite Ht. by rewrite lookup_take_lt by lia. }
  unfold byte_of_child. fold out. replace (Z.to_nat (4 * pd_chunkStart d + k)) with (Z.to_nat (4 * pd_chunkStart d) + Z.to_nat k)%nat by lia.
  rewrite E. destruct (lookup_lt_is_Some_2 out (Z.to_nat (4 * pd_chunkStart d) + Z.to_nat k)) as [b Hb]; [lia|]. by rewrite Hb.
Qed.

Lemma le_uint16_chunk d k : chunk_ok d -> 0 < pd_chunkSamples d -> 0 <= k -> k + 1 < 4 * pd_chunkSamples d ->
  le_uint16 (pd_chunk d) (Z.to_nat k) =
  Ok (byte_of_child (dr_InputArtifactID run) (4 * pd_chunkStart d + k) + 256 * byte_of_child (dr_InputArtifactID run) (4 * pd_chunkStart d + k + 1)).
Proof using Hlast Hout.
  intros Hk Hp H0 H1. unfold le_uint16. rewrite chunk_byte by (done || lia).
  replace (S (Z.to_nat k)) with (Z.to_nat (k + 1)) by lia. rewrite chunk_byte by (done || lia). do 4 f_equal. lia.
Qed.

Lemma ReadTo_at p d o : pcm_at p d -> default 0 p <= o <= dr_LastOrdinal run -> 0 <= o ->
  exists d', RawPCMDecoder_ReadTo d o = Ok (d', child_sample (dr_InputArtifactID run) o) /\ pcm_at (Some o) d'.
Proof using Hlast Hout.
  intros [Hk Hp] Ho H0. pose proof Hk as [He Hfin _ Hn _ _]. unfold RawPCMDecoder_ReadTo. rewrite Hfin. cbn [absent negb orb].
  destruct (Z.leb_spec (pd_expectedSamples d) o); [lia|].
  replace (pd_hasRequested d && (o <? pd_lastRequested d)) with false.
  2: { destruct p as [q|]; [destruct Hp as (-> & -> & _); cbn in *; destruct (Z.ltb_spec o q); lia || done|by destruct Hp as [-> _]]. }
  destruct (fill_chunk_ok (chunk_fuel d) d o Hk) as (d1 & -> & K1 & S1 & R1).
  - lia.
  - intros Hpos. destruct p as [q|]; [|lia]. destruct Hp as (_ & _ & _ & ?). cbn in *. lia.
  - unfold chunk_fuel, rawPCMChunkSamples. unfold MaximumDecodedAudioSamples in *.
    pose proof (Z.div_pos (pd_expectedSamples d) 4800 ltac:(lia) ltac:(lia)). rewrite Z2Nat.id by lia.
    assert ((pd_expectedSamples d - pd_nextOrdinal d + 4799) / 4800 <= pd_expectedSamples d / 4800 + 1); [|lia].
    replace (pd_expectedSamples d / 4800 + 1) with ((pd_expectedSamples d + 1 * 4800) / 4800) by (rewrite Z.div_add; lia).
    apply Z.div_le_mono; lia.
  - cbn [mbind outcome_bind]. pose proof K1 as [_ _ _ N1 _ L1]. assert (L : pd_chunkStart d1 + pd_chunkSamples d1 = pd_nextOrdinal d1 /\ 0 <= pd_chunkStart d1) by (destruct L1 as [[? _]|(_ & ? & ? & _)]; lia).
    unfold rawPCMFrameBytes. replace (Z.to_nat ((o - pd_chunkStart d1) * 4) + 2)%nat with (Z.to_nat ((o - pd_chunkStart d1) * 4 + 2)) by lia.
    rewrite !le_uint16_chunk by (done || lia). cbn [mbind outcome_bind]. eexists. split.
    + f_equal. f_equal. unfold child_sample. do 2 f_equal; do 2 (f_equal; try lia); f_equal; lia.
    + split; [|cbn; auto]. destruct K1. split; done.
Qed.

Lemma Finish_at d : child_fails (dr_InputArtifactID run) = false -> pcm_at (Some (dr_LastOrdinal run)) d -> RawPCMDecoder_Finish d = Ok tt.
Proof using Hlast Hout.
  intros Hc [[He Hfin Hch Hn _ _] (Hr & Hlq & Hp & Hs)]. unfold RawPCMDecoder_Finish. rewrite Hfin, Hr, Hlq, Hch, Hc, He.
  unfold MaximumDecodedAudioSamples in *. rewrite to_uint64_small, Z.eqb_refl by lia.
  replace (pd_nextOrdinal d) with (dr_LastOrdinal run + 1) by lia. by rewrite Z.eqb_refl.
Qed.
End run.

Lemma run_decodable_bounds run : run_decodable run -> 0 <= dr_LastOrdinal run < MaximumDecodedAudioSamples.
Proof.
  intros (Hv & H0 & _). split; [done|]. unfold validateAudioDecodeRun in Hv. apply guard_or_ok in Hv. apply andb_true_iff in Hv as [Hv _].
  apply negb_true_iff in Hv. repeat apply orb_false_iff in Hv as [Hv ?]. lia.
Qed.

Lemma run_decodable_output run : run_decodable run ->
  4 * (dr_LastOrdinal run + 1) <= Z.of_nat (length (child_stdout (dr_InputArtifactID run))).
Proof. intros (_ & _ & input & audio & _ & _ & _ & Hl & _ & Hd). lia. Qed.

Lemma StartAudioDecodeRun_at run : run_decodable run -> exists d, StartAudioDecodeRun run = Ok d /\ pcm_at run None d.
Proof.
  intros Hrun. pose proof (run_decodable_bounds run Hrun) as Hb. destruct Hrun as (Hv & H0 & input & audio & Hi & Ha & Hprof & Hl & Hd & _).
  unfold StartAudioDecodeRun. rewrite Hv, Hi, Ha. cbn [or_fail mbind outcome_bind].
  assert (Hc : exists codec, rawPCMInputCodec (in_Profile input) = Ok codec).
  { unfold rawPCMInputCodec. destruct Hprof as [-> | ->]; eauto. }
  destruct Hc as [codec ->]. cbn [mbind outcome_bind].
  unfold validateAudioDecodeRun in Hv. apply guard_or_ok in Hv. rewrite Hi, Ha in Hv.
  apply andb_true_iff in Hv as [_ [E1 [E2 _]%andb_true_iff]%andb_true_iff]. rewrite E1, E2. cbn [negb orb].
  destruct (Z.leb_spec (ai_DecodedSampleCount audio) (dr_LastOrdinal run)); [lia|].
  unfold StartRawPCMDecoder, MaximumDecodedAudioSamples in *. destruct (Z.leb_spec 8000000000 (dr_LastOrdinal run)); [lia|].
  rewrite to_uint64_small by lia. unfold multiplyUint64, rawPCMFrameBytes. destruct (Z.eqb_spec (dr_LastOrdinal run + 1) 0); [lia|]. cbn [negb andb].
  destruct (Z.ltb_spec ((2 ^ 64 - 1) ÷ (dr_LastOrdinal run + 1)) 4) as [Ho|_].
  { assert (4 <= (2 ^ 64 - 1) ÷ (dr_LastOrdinal run + 1)) by (apply Z.quot_le_lower_bound; lia). lia. }
  cbn [snd]. eexists. split; [reflexivity|]. split; [|done]. split; cbn; try done; [lia|by left].
Qed.

#[export] Instance pcm_decodes : DecodesRuns StereoPCM16 child_sample run_decodable.
Proof.
  refine {| decoder_at := pcm_at : DecodeRun -> option Z -> decoder StereoPCM16 -> Prop |}.
  - exact StartAudioDecodeRun_at.
  - intros run p d o Hr Hp Ho H0. exact (ReadTo_at run (run_decodable_bounds run Hr) (run_decodable_output run Hr) p d o Hp Ho H0).
  - intros run d Hr Hp. pose proof (run_decodable_output run Hr) as Ho. pose proof (run_decodable_bounds run Hr) as Hb.
    destruct Hr as (_ & _ & ? & ? & _ & _ & _ & _ & Hc & _). exact (Finish_at run Hb Ho d Hc Hp).
Qed.
End decoder.
