(* ===== verification/EngineBindings.v ===== *)
(** From an accepted audio decode plan to its mix bindings: the candidates of
    the instructions, the runs that pass [validateAudioDecodeRun], and the
    bindings [compileAudioMixBindings] makes of them. *)
From stdpp Require Import base list strings gmap sorting.
From Stdlib Require Import ZArith Lia.
From S2P Require Import Prelude GoText Exact EditModel Timeline EditValidate EditRanges RenderContract EngineLanes EngineDecode EngineAssign EngineAudio EngineMix.
Open Scope Z_scope.

(** ** Sources *)

Lemma audio_sources_spec inputs : forall index sources a src, 0 <= index -> index + Z.of_nat (length inputs) < 2 ^ 32 ->
  audio_sources inputs index sources !! a = Some src ->
  sources !! a = Some src \/ exists n input, inputs !! n = Some input /\ in_ArtifactID input = a /\
    in_Audio input = Some (as_input src) /\ as_inputIndex src = index + Z.of_nat n.
Proof.
  induction inputs as [|input rest IH]; intros index sources a src H0 Hlt Hs; cbn [audio_sources length] in *; [by left|].
  apply IH in Hs; [|lia..]. destruct Hs as [Hs|(n & i & Hn & Hrest & Ha & Hx)].
  - destruct (in_Audio input) as [audio|] eqn:Ea; [|by left].
    destruct (decide (a = in_ArtifactID input)) as [->|Hne].
    + rewrite lookup_insert_eq in Hs. injection Hs as <-. right. exists 0%nat, input. cbn. unfold to_uint32.
      rewrite Z.mod_small by lia. split; [done|]. split; [done|]. split; [done|lia].
    + rewrite lookup_insert_ne in Hs by congruence. by left.
  - right. exists (S n), i. split; [done|]. split; [done|]. split; [done|lia].
Qed.

Lemma audio_inputs_sources inputs : forall index found sources, found = as_input <$> sources ->
  audio_inputs inputs found = as_input <$> audio_sources inputs index sources.
Proof.
  induction inputs as [|input rest IH]; intros index found sources ->; cbn [audio_inputs audio_sources]; [done|].
  apply IH. destruct (in_Audio input); [|done]. by rewrite fmap_insert.
Qed.

(** What the evaluation of a plan relies on; a valid plan has it. *)
Record audio_plan_ok (plan : RenderPlanPayload) : Prop := mkAudioPlanOk {
  ap_count : 0 < out_AudioSampleCount (pp_Output plan) < 2 ^ 61;
  ap_inputs : Z.of_nat (length (pp_Inputs plan)) <= 65536;
  ap_audio : Z.of_nat (length (pp_Audio plan)) <= 65536;
  ap_typed : Forall audio_instruction_typed (pp_Audio plan);
  ap_starts : forall input audio, input ∈ pp_Inputs plan -> in_Audio input = Some audio ->
    rt_typed (ai_SourceStart audio) /\ ai_DecodedSampleCount audio <= MaximumSourceProxySamples;
  ap_gain : Forall (fun i => RenderGainMinimumMilliDB <= ra_GainMilliDB i <= RenderGainMaximumMilliDB) (pp_Audio plan) }.

Section planned.
Context (plan : RenderPlanPayload).
Hypothesis Hplan : audio_plan_ok plan.
Notation sources := (audio_sources (pp_Inputs plan) 0 ∅).
Notation count := (out_AudioSampleCount (pp_Output plan)).

Definition inputOf (a : string) : Z := match sources !! a with Some src => as_inputIndex src | None => 0 end.

Lemma source_input a src : sources !! a = Some src ->
  exists n input, pp_Inputs plan !! n = Some input /\ in_ArtifactID input = a /\ in_Audio input = Some (as_input src) /\
    as_inputIndex src = Z.of_nat n /\ Z.of_nat n < 65536 /\
    rt_typed (ai_SourceStart (as_input src)) /\ ai_DecodedSampleCount (as_input src) <= MaximumSourceProxySamples.
Proof using Hplan.
  intros Hs. destruct Hplan as [_ Hi _ _ Hst _]. apply audio_sources_spec in Hs as [Hs|(n & input & Hn & Ha & Hau & Hx)]; [by rewrite lookup_empty in Hs| |lia|lia].
  exists n, input. split; [done|]. split; [done|]. split; [done|]. split; [lia|]. split; [apply lookup_lt_Some in Hn; lia|].
  eapply Hst; [|done]. by apply list_elem_of_lookup_2 with n.
Qed.

(** An instruction with its source, and the candidate of the instruction at an index *)
Definition sourced (n : nat) (i : RenderAudioInstruction) (src : audioDecodeSource) : Prop :=
  pp_Audio plan !! n = Some i /\ sources !! ra_InputArtifactID i = Some src /\ ai_SourceStreamID (as_input src) = ra_SourceStreamID i.

Definition bound_to (n : nat) (c : decodeCandidate) : Prop :=
  exists i src r, sourced n i src /\ audioDecodeRequest (Z.of_nat n) i (as_input src) count = Ok (Some r) /\
    c = mkCandidate r (as_inputIndex src) (ra_InputArtifactID i) (ra_SourceStreamID i) (ra_Layer i) (ra_ClipID i).

Lemma sourced_request n i src res : sourced n i src -> audioDecodeRequest (Z.of_nat n) i (as_input src) count = Ok res ->
  match res with
  | Some r => dq_InstructionIndex r = Z.of_nat n /\ request_plays i (as_input src) count r
  | None => forall k, 0 <= k < count -> ~ plays i (as_input src) k
  end.
Proof using Hplan.
  intros (Hn & Hs & _) Hr. apply source_input in Hs as (m & input & _ & _ & _ & _ & _ & Ht & _).
  destruct Hplan as [Hc _ _ Hty _ _]. rewrite Forall_lookup in Hty.
  eapply audioDecodeRequest_spec; [by eapply Hty|done|lia|done].
Qed.

Lemma bound_request n c : bound_to n c -> dq_InstructionIndex (dc_request c) = Z.of_nat n /\ request_ok (dc_request c) /\
  candidate_ok inputOf c /\ dq_End (dc_request c) <= count /\ Z.of_nat n < 65536.
Proof using Hplan.
  intros (i & src & r & Hs & Hr & ->). pose proof (sourced_request _ _ _ _ Hs Hr) as [Hi [Hb _ _ Ho]]. cbn.
  assert (request_ok r) by (unfold request_ok; lia). split; [done|]. split; [done|]. destruct Hs as (Hn & Hs & _).
  split; [split; [done|]|split; [lia|]]; [cbn; unfold inputOf; by rewrite Hs|].
  apply lookup_lt_Some in Hn. pose proof (ap_audio _ Hplan). lia.
Qed.

Lemma audio_candidates_spec source : forall index cs, (forall n i, source !! n = Some i -> pp_Audio plan !! (index + n)%nat = Some i) ->
  audio_candidates sources count source (Z.of_nat index) = Ok cs ->
  (forall n i, source !! n = Some i -> exists src res, sourced (index + n) i src /\
     audioDecodeRequest (Z.of_nat (index + n)) i (as_input src) count = Ok res) /\
  (forall n c, bound_to n c -> (index <= n < index + length source)%nat -> c ∈ cs) /\
  Forall (fun c => exists n, (index <= n)%nat /\ bound_to n c) cs /\ NoDup ((dq_InstructionIndex ∘ dc_request) <$> cs).
Proof using Hplan.
  induction source as [|i rest IH]; intros index cs Hat Hc; cbn [audio_candidates] in Hc.
  { injection Hc as <-. split; [done|]. split; [|split; constructor]. intros. cbn in *. lia. }
  destruct (sources !! ra_InputArtifactID i) as [src|] eqn:Es; [|done].
  destruct (negb _ || _) eqn:E; [done|]. apply orb_false_iff in E as [E1 E2]. apply negb_false_iff, bool_decide_eq_true in E1.
  apply Z.ltb_ge in E2. unfold to_uint32 in Hc. rewrite Z.mod_small in Hc by (unfold MaxUint32 in *; lia).
  apply bind_ok in Hc as (res & Hr & Hc). apply bind_ok in Hc as (others & Ho & Hc). injection Hc as <-.
  replace (Z.of_nat index + 1) with (Z.of_nat (S index)) in Ho by lia.
  apply IH in Ho as (O1 & O2 & O3 & O4); [|intros n j Hn; rewrite Nat.add_succ_comm; by apply Hat].
  assert (Hs : sourced index i src) by (split; [specialize (Hat 0%nat i eq_refl); by rewrite Nat.add_0_r in Hat|done]).
  split; [|split; [|split]].
  - intros [|n] j Hj; [|rewrite <- Nat.add_succ_comm; by apply O1]. rewrite Nat.add_0_r. injection Hj as <-. eauto.
  - intros n c Hn Hle. destruct (decide (n = index)) as [->|Hne].
    + destruct Hn as (i' & src' & r & (P1 & P2 & P3) & Hr' & ->). destruct Hs as (Q1 & Q2 & Q3). rewrite P1 in Q1. injection Q1 as ->.
      rewrite P2 in Q2. injection Q2 as ->. rewrite Hr in Hr'. injection Hr' as ->. apply list_elem_of_here.
    + cbn [length] in Hle. assert (c ∈ others) by (apply (O2 n); [done|lia]). destruct res; [by apply list_elem_of_further|done].
  - assert (Hrest : Forall (fun c => exists n, (index <= n)%nat /\ bound_to n c) others).
    { eapply Forall_impl; [exact O3|]. intros c (n & ? & ?). exists n. split; [lia|done]. }
    destruct res as [r|]; [|done]. constructor; [|done]. exists index. split; [done|]. by exists i, src, r.
  - destruct res as [r|]; [|done]. rewrite fmap_cons. constructor; [|done]. cbn. intros Hin.
    destruct (sourced_request _ _ _ _ Hs Hr) as [Hi _]. rewrite Hi in Hin.
    apply list_elem_of_fmap in Hin as (c & Hc & Hin). rewrite Forall_forall in O3. destruct (O3 c Hin) as (n & Hle & Hn).
    apply bound_request in Hn as [Hn _]. cbn in Hc. lia.
Qed.

(** ** Charged lanes *)

Definition charge (run : DecodeRun) : DecodeRun :=
  mkRun (dr_InputIndex run) (dr_InputArtifactID run) (dr_SourceStreamID run) (dr_Requests run) (dr_LastOrdinal run)
    (to_uint64 (dr_LastOrdinal run + 1)).
Definition charge_lane (lane : DecodeLane) : DecodeLane := mkLane (dl_Index lane) (charge <$> dl_Runs lane).

(** A run whose traversal has been charged and is within the limit *)
Definition charged (limit : Z) (run : DecodeRun) : Prop :=
  dr_Traversal run = to_uint64 (dr_LastOrdinal run + 1) /\ to_uint64 (dr_LastOrdinal run + 1) <= limit.

Lemma charge_runs_spec limit runs : forall total runs' total', 0 <= total -> charge_audio_runs limit runs total = Ok (runs', total') ->
  runs' = charge <$> runs /\ Forall (charged limit) runs' /\ 0 <= total'.
Proof.
  induction runs as [|run rest IH]; intros total runs' total' H0 Hc; cbn [charge_audio_runs] in Hc.
  { injection Hc as <- <-. done. }
  destruct (Z.ltb_spec (limit - total) (to_uint64 (dr_LastOrdinal run + 1))); [done|].
  assert (0 <= to_uint64 (dr_LastOrdinal run + 1)) by (unfold to_uint64; apply Z.mod_pos_bound; lia).
  apply bind_ok in Hc as ([rest' t] & Hr & Hc). injection Hc as <- <-. apply IH in Hr as (-> & Hf & Ht); [|lia].
  split; [done|]. split; [|done]. constructor; [|done]. split; [done|]. cbn [dr_LastOrdinal charge]. lia.
Qed.

Lemma charge_lanes_spec limit lanes : forall total lanes' total', 0 <= total -> charge_audio_lanes limit lanes total = Ok (lanes', total') ->
  lanes' = charge_lane <$> lanes /\ Forall (fun lane => Forall (charged limit) (dl_Runs lane)) lanes'.
Proof.
  induction lanes as [|lane rest IH]; intros total lanes' total' H0 Hc; cbn [charge_audio_lanes] in Hc.
  { injection Hc as <- <-. done. }
  apply bind_ok in Hc as ([runs t] & Hr & Hc). apply bind_ok in Hc as ([rest' t'] & Hs & Hc). injection Hc as <- <-.
  apply charge_runs_spec in Hr as (-> & Hf & Ht); [|done]. apply IH in Hs as (-> & Hg); [|done]. split; [done|]. by constructor.
Qed.

Lemma charge_lane_entries lane : lane_entries (charge_lane lane) = lane_entries lane.
Proof. unfold lane_entries. cbn. induction (dl_Runs lane) as [|run rest IH]; [done|]. cbn. f_equal. apply IH. Qed.

Lemma lanes_ok_charged f lanes ends placed : lanes_ok f lanes ends placed -> lanes_ok f (charge_lane <$> lanes) ends placed.
Proof.
  intros [Hl Hi Hk Hp]. split.
  - by rewrite length_fmap.
  - intros i lane H. apply list_lookup_fmap_Some in H as (l0 & -> & H). exact (Hi i l0 H).
  - intros i lane H. apply list_lookup_fmap_Some in H as (l0 & -> & H). destruct (Hk i l0 H) as [H1 H2 H3].
    split; rewrite ?charge_lane_entries; [|done..]. cbn. apply Forall_fmap. eapply Forall_impl; [exact H1|]. intros run [A B C D]. split; done.
  - rewrite <- Hp. clear. induction lanes as [|lane rest IH]; [done|]. rewrite fmap_cons. cbn [mbind list_bind].
    rewrite charge_lane_entries. by apply Permutation_app_head.
Qed.

(** ** Accepted plans *)

(** What the lanes of an accepted plan hold *)
Record lanes_planned (lanes : list DecodeLane) : Prop := mkLanesPlanned {
  pl_max : (length lanes <= MaximumActiveAudioLayers)%nat;
  pl_charged : Forall (fun lane => Forall (charged MaximumDecodedAudioSamples) (dl_Runs lane)) lanes;
  pl_instructions : forall n i, pp_Audio plan !! n = Some i -> exists src res, sourced n i src /\
    audioDecodeRequest (Z.of_nat n) i (as_input src) count = Ok res;
  pl_lanes : exists ends cs, lanes_ok inputOf lanes ends cs /\ Forall (fun c => exists n, bound_to n c) cs /\
    (forall n c, bound_to n c -> c ∈ cs) /\ NoDup ((dq_InstructionIndex ∘ dc_request) <$> cs) }.

Lemma plan_lanes_planned limit dp : planAudioDecodeLanes plan sources limit = Ok dp -> lanes_planned (dp_Lanes dp).
Proof using Hplan.
  unfold planAudioDecodeLanes. destruct (_ || _) eqn:E; [done|]. apply orb_false_iff in E as [_ E]. apply Z.ltb_ge in E. intros Hp.
  apply bind_ok in Hp as (cs & Hc & Hp). apply bind_ok in Hp as (lanes & Hl & Hp). apply bind_ok in Hp as ([lanes' t] & Hg & Hp).
  injection Hp as <-. cbn [dp_Lanes]. apply (audio_candidates_spec _ 0) in Hc as (C1 & C2 & C3 & C4); [|done].
  pose proof (merge_sort_Permutation candidate_le cs) as Hperm.
  assert (Hok : Forall (candidate_ok inputOf) (merge_sort candidate_le cs)).
  { rewrite Hperm. eapply Forall_impl; [exact C3|]. intros c (n & _ & Hn). by apply (bound_request n). }
  pose proof (assign_lanes_spec inputOf MaximumActiveAudioLayers "audio-decode-lanes" (merge_sort candidate_le cs) [] [] []) as Ha.
  rewrite Hl in Ha. destruct Ha as [Hm [ends Ha]].
  { split; [done|by intros [|?] ?|by intros [|?] ?|constructor]. }
  { by intros [|?] ?. }
  { cbn. lia. }
  { apply StronglySorted_merge_sort; apply _. }
  { done. }
  apply charge_lanes_spec in Hg as [-> Hf]; [|done]. split.
  - by rewrite length_fmap.
  - eapply Forall_impl; [exact Hf|]. intros lane Hlane. eapply Forall_impl; [exact Hlane|]. intros run [? ?]. split; [done|lia].
  - intros n i Hn. by apply C1 in Hn.
  - exists ends, (merge_sort candidate_le cs). split; [by apply lanes_ok_charged|]. split; [|split].
    + rewrite Hperm. eapply Forall_impl; [exact C3|]. intros c (n & _ & ?). eauto.
    + intros n c Hn. rewrite Hperm. apply (C2 n c Hn). destruct Hn as (i & src & r & (Hn & _) & _). apply lookup_lt_Some in Hn. lia.
    + by rewrite Hperm.
Qed.

(** ** The bindings *)

Definition gain_of (i : RenderAudioInstruction) : Z := match GainCoefficientQ31 (ra_GainMilliDB i) with Ok g => g | _ => 0 end.
Definition gain_at (index : Z) : Z := match pp_Audio plan !! Z.to_nat index with Some i => gain_of i | None => 0 end.
Definition binding_of (li ri : nat) (r : DecodeRequest) : audioMixBinding :=
  mkBinding (dq_InstructionIndex r) li ri r (gain_at (dq_InstructionIndex r)).

Fixpoint runs_bindings (li ri : nat) (runs : list DecodeRun) : list audioMixBinding :=
  match runs with [] => [] | run :: rest => (binding_of li ri <$> dr_Requests run) ++ runs_bindings li (S ri) rest end.
Fixpoint lanes_bindings (li : nat) (ls : list DecodeLane) : list audioMixBinding :=
  match ls with [] => [] | lane :: rest => runs_bindings li 0 (dl_Runs lane) ++ lanes_bindings (S li) rest end.

Notation indexes bs := (mb_instructionIndex <$> bs).

Lemma gain_at_ok n i : pp_Audio plan !! n = Some i -> GainCoefficientQ31 (ra_GainMilliDB i) = Ok (gain_of i) /\ 0 <= gain_of i <= maximumGainQ31.
Proof using Hplan.
  intros Hn. pose proof (ap_gain _ Hplan) as Hg. rewrite Forall_lookup in Hg. destruct (gain_coefficient_total _ (Hg n i Hn)) as (g & E & Hb).
  unfold gain_of. by rewrite E.
Qed.

Lemma bind_requests_ok li ri requests : forall seen : gset Z, (forall r, r ∈ requests -> is_Some (pp_Audio plan !! Z.to_nat (dq_InstructionIndex r))) ->
  NoDup (indexes (binding_of li ri <$> requests)) -> (forall z, z ∈ indexes (binding_of li ri <$> requests) -> z ∉ seen) ->
  bind_requests plan li ri requests seen = Ok (binding_of li ri <$> requests, list_to_set (indexes (binding_of li ri <$> requests)) ∪ seen).
Proof using Hplan.
  induction requests as [|r rest IH]; intros seen Hex Hnd Hdis; cbn [bind_requests].
  { cbn. by rewrite (left_id_L ∅ (∪)). }
  rewrite !fmap_cons in *. apply NoDup_cons in Hnd as [Hni Hnd]. rewrite bool_decide_eq_false_2 by (apply Hdis; set_solver).
  destruct (Hex r ltac:(set_solver)) as [i Hi]. rewrite Hi. destruct (gain_at_ok _ _ Hi) as [-> _]. cbn [mbind outcome_bind].
  rewrite IH; [|set_solver|done|].
  - cbn [mbind outcome_bind]. f_equal. f_equal; [unfold binding_of, gain_at; by rewrite Hi|]. cbn. set_solver.
  - intros z Hz. cbn in Hni. pose proof (Hdis z ltac:(set_solver)). set_solver.
Qed.

Lemma bind_runs_ok li runs : forall ri (seen : gset Z), Forall (fun run => validateAudioDecodeRun plan run = Ok tt /\
    forall r, r ∈ dr_Requests run -> is_Some (pp_Audio plan !! Z.to_nat (dq_InstructionIndex r))) runs ->
  NoDup (indexes (runs_bindings li ri runs)) -> (forall z, z ∈ indexes (runs_bindings li ri runs) -> z ∉ seen) ->
  bind_runs plan li ri runs seen = Ok (runs_bindings li ri runs, list_to_set (indexes (runs_bindings li ri runs)) ∪ seen).
Proof using Hplan.
  induction runs as [|run rest IH]; intros ri seen Hall Hnd Hdis; cbn [bind_runs runs_bindings].
  { cbn. by rewrite (left_id_L ∅ (∪)). }
  apply Forall_cons in Hall as [[Hv Hex] Hall]. cbn [runs_bindings] in Hnd, Hdis. rewrite fmap_app in Hnd, Hdis.
  apply NoDup_app in Hnd as (N1 & N2 & N3). rewrite Hv. cbn [mbind outcome_bind].
  rewrite bind_requests_ok; [|done|done|set_solver]. cbn [mbind outcome_bind].
  rewrite IH; [|done|done|set_solver]. cbn [mbind outcome_bind]. do 2 f_equal. rewrite fmap_app, list_to_set_app_L. set_solver.
Qed.

Lemma bind_lanes_ok ls : forall li (seen : gset Z), (li + length ls <= MaximumActiveAudioLayers)%nat ->
  (forall j lane, ls !! j = Some lane -> dl_Index lane = Z.of_nat (li + j)) ->
  Forall (fun lane => Forall (fun run => validateAudioDecodeRun plan run = Ok tt /\
    forall r, r ∈ dr_Requests run -> is_Some (pp_Audio plan !! Z.to_nat (dq_InstructionIndex r))) (dl_Runs lane)) ls ->
  NoDup (indexes (lanes_bindings li ls)) -> (forall z, z ∈ indexes (lanes_bindings li ls) -> z ∉ seen) ->
  bind_lanes plan li ls seen = Ok (lanes_bindings li ls, list_to_set (indexes (lanes_bindings li ls)) ∪ seen).
Proof using Hplan.
  induction ls as [|lane rest IH]; intros li seen Hm Hi Hall Hnd Hdis; cbn [bind_lanes lanes_bindings].
  { cbn. by rewrite (left_id_L ∅ (∪)). }
  apply Forall_cons in Hall as [Hv Hall]. cbn [lanes_bindings] in Hnd, Hdis. rewrite fmap_app in Hnd, Hdis.
  apply NoDup_app in Hnd as (N1 & N2 & N3). rewrite (Hi 0%nat lane eq_refl), Nat.add_0_r, Z.eqb_refl. cbn [length] in Hm. cbn [negb orb].
  destruct (Nat.leb_spec MaximumActiveAudioLayers li); [lia|].
  rewrite bind_runs_ok; [|done|done|set_solver]. cbn [mbind outcome_bind].
  rewrite IH; [|lia|intros j l Hj; rewrite Nat.add_succ_comm; by apply Hi|done|done|set_solver].
  cbn [mbind outcome_bind]. do 2 f_equal. rewrite fmap_app, list_to_set_app_L. set_solver.
Qed.

Lemma elem_of_runs_bindings li runs b : forall ri, b ∈ runs_bindings li ri runs <->
  exists j run r, runs !! j = Some run /\ r ∈ dr_Requests run /\ b = binding_of li (ri + j) r.
Proof.
  induction runs as [|run rest IH]; intros ri; cbn [runs_bindings].
  { split; [by intros ?%not_elem_of_nil|]. by intros (j & run & r & ? & _). }
  rewrite elem_of_app, list_elem_of_fmap, IH. split.
  - intros [(r & -> & Hr)|(j & run' & r & Hj & Hr & ->)]; [exists 0%nat, run, r; by rewrite Nat.add_0_r|].
    exists (S j), run', r. by rewrite <- Nat.add_succ_comm.
  - intros ([|j] & run' & r & Hj & Hr & ->); [left; injection Hj as ->; exists r; by rewrite Nat.add_0_r|].
    right. exists j, run', r. by rewrite Nat.add_succ_comm.
Qed.

Lemma elem_of_lanes_bindings b ls : forall li, b ∈ lanes_bindings li ls <->
  exists i lane j run r, ls !! i = Some lane /\ dl_Runs lane !! j = Some run /\ r ∈ dr_Requests run /\ b = binding_of (li + i) j r.
Proof.
  induction ls as [|lane rest IH]; intros li; cbn [lanes_bindings].
  { split; [by intros ?%not_elem_of_nil|]. by intros (i & lane & j & run & r & ? & _). }
  rewrite elem_of_app, elem_of_runs_bindings, IH. split.
  - intros [(j & run & r & Hj & Hr & ->)|(i & lane' & j & run & r & Hi & Hrest & Hr & ->)].
    + exists 0%nat, lane, j, run, r. by rewrite Nat.add_0_r.
    + exists (S i), lane', j, run, r. by rewrite <- Nat.add_succ_comm.
  - intros ([|i] & lane' & j & run & r & Hi & Hj & Hr & ->).
    + left. injection Hi as ->. exists j, run, r. by rewrite Nat.add_0_r.
    + right. exists i, lane', j, run, r. by rewrite Nat.add_succ_comm.
Qed.

Lemma lanes_bindings_indexes ls : forall li, indexes (lanes_bindings li ls) = (dq_InstructionIndex ∘ snd) <$> (ls ≫= lane_entries).
Proof.
  induction ls as [|lane rest IH]; intros li; [done|]. cbn [lanes_bindings mbind list_bind]. rewrite fmap_app, IH.
  change (list_bind entry lane_entries rest) with (rest ≫= lane_entries) || idtac.
  rewrite fmap_app. f_equal. unfold lane_entries. generalize 0%nat. induction (dl_Runs lane) as [|run runs IHr]; intros ri; [done|].
  cbn [runs_bindings mbind list_bind]. rewrite !fmap_app, IHr. f_equal. unfold run_entries. rewrite <- !list_fmap_compose. done.
Qed.

(** ** The runs of an accepted plan *)

Section lanes.
Context (lanes : list DecodeLane).
Hypothesis Hlanes : lanes_planned lanes.

Definition run_at (li ri : nat) (run : DecodeRun) : Prop := exists lane, lanes !! li = Some lane /\ dl_Runs lane !! ri = Some run.

Lemma run_at_entries li ri run r : run_at li ri run -> r ∈ dr_Requests run ->
  (dr_InputArtifactID run, dr_SourceStreamID run, r) ∈ lanes ≫= lane_entries.
Proof.
  intros (lane & Hl & Hr) Hin. apply list_elem_of_bind. exists lane. split; [|by apply list_elem_of_lookup_2 with li].
  apply list_elem_of_bind. exists run. split; [|by apply list_elem_of_lookup_2 with ri]. apply list_elem_of_fmap. by exists r.
Qed.

Lemma request_bound li ri run r : run_at li ri run -> r ∈ dr_Requests run ->
  exists n c, bound_to n c /\ dc_request c = r /\ dc_artifactID c = dr_InputArtifactID run /\ dc_streamID c = dr_SourceStreamID run.
Proof using Hlanes.
  intros Hr Hin. destruct Hlanes as [_ _ _ (ends & cs & [_ _ _ Hp] & Hb & _)]. pose proof (run_at_entries _ _ _ _ Hr Hin) as He.
  rewrite Hp in He. apply list_elem_of_fmap in He as (c & Ec & Hc). rewrite Forall_forall in Hb. destruct (Hb c Hc) as [n Hn].
  unfold candidate_entry in Ec. exists n, c. split; [done|]. by injection Ec as -> -> ->.
Qed.

Lemma bound_run n c : bound_to n c ->
  exists li ri run, run_at li ri run /\ dc_request c ∈ dr_Requests run /\ dr_InputArtifactID run = dc_artifactID c.
Proof using Hlanes.
  intros Hn. destruct Hlanes as [_ _ _ (ends & cs & [_ _ _ Hp] & _ & Hb & _)].
  assert (He : candidate_entry c ∈ lanes ≫= lane_entries) by (rewrite Hp; apply list_elem_of_fmap; eauto).
  apply list_elem_of_bind in He as (lane & He & Hl). apply list_elem_of_lookup_1 in Hl as [li Hl].
  apply list_elem_of_bind in He as (run & He & Hr). apply list_elem_of_lookup_1 in Hr as [ri Hr].
  apply list_elem_of_fmap in He as (r & Er & Hin). unfold candidate_entry in Er. injection Er as -> _ ->. exists li, ri, run.
  split; [by exists lane|done].
Qed.

Lemma run_at_ok li ri run : run_at li ri run -> run_ok inputOf run /\ charged MaximumDecodedAudioSamples run.
Proof using Hlanes.
  intros (lane & Hl & Hr). destruct Hlanes as [_ Hc _ (ends & cs & [_ _ Hk _] & _)]. split.
  - destruct (Hk li lane Hl) as [Hruns _ _]. rewrite Forall_lookup in Hruns. by eapply Hruns.
  - rewrite Forall_lookup in Hc. specialize (Hc li lane Hl). cbn in Hc. rewrite Forall_lookup in Hc. by eapply Hc.
Qed.

Lemma runs_split lane ri run : dl_Runs lane !! ri = Some run ->
  lane_entries lane = (take ri (dl_Runs lane) ≫= run_entries) ++ run_entries run ++ (drop (S ri) (dl_Runs lane) ≫= run_entries).
Proof. intros H. unfold lane_entries. rewrite <- (take_drop_middle _ _ _ H) at 1. by rewrite bind_app. Qed.

Lemma run_at_before li ri run : run_at li ri run -> StronglySorted before (dr_Requests run).
Proof using Hlanes.
  intros (lane & Hl & Hr). destruct Hlanes as [_ _ _ (ends & cs & [_ _ Hk _] & _)]. destruct (Hk li lane Hl) as [_ Hb _].
  rewrite (runs_split _ _ _ Hr), !fmap_app in Hb. apply StronglySorted_app_1_r, StronglySorted_app_1_l in Hb.
  unfold run_entries in Hb. rewrite <- list_fmap_compose in Hb. by rewrite list_fmap_id in Hb.
Qed.

(** Requests of an earlier run of a lane end before those of a later one start. *)
Lemma runs_before li ri rj run run' r r' : run_at li ri run -> run_at li rj run' -> (ri < rj)%nat ->
  r ∈ dr_Requests run -> r' ∈ dr_Requests run' -> before r r'.
Proof using Hlanes.
  intros (lane & Hl & Hr) (lane' & Hl' & Hr') Hlt Hin Hin'. rewrite Hl in Hl'. injection Hl' as <-.
  destruct Hlanes as [_ _ _ (ends & cs & [_ _ Hk _] & _)]. destruct (Hk li lane Hl) as [_ Hb _].
  rewrite (runs_split _ _ _ Hr), fmap_app, fmap_app in Hb. apply StronglySorted_app_1_r in Hb.
  apply (StronglySorted_app_1_elem_of _ _ _ r r' Hb).
  - apply list_elem_of_fmap. exists (dr_InputArtifactID run, dr_SourceStreamID run, r). split; [done|]. apply list_elem_of_fmap. eauto.
  - apply list_elem_of_fmap. exists (dr_InputArtifactID run', dr_SourceStreamID run', r'). split; [done|]. apply list_elem_of_bind.
    exists run'. split; [apply list_elem_of_fmap; eauto|]. apply list_elem_of_lookup_2 with (rj - S ri)%nat. rewrite lookup_drop.
    by replace (S ri + (rj - S ri))%nat with rj by lia.
Qed.

Lemma run_last_max li ri run r : run_at li ri run -> r ∈ dr_Requests run -> dq_LastOrdinal r <= dr_LastOrdinal run.
Proof using Hlanes.
  intros Hr Hin. destruct (run_at_ok _ _ _ Hr) as [[(rs & r0 & E & <-) Hm Hok _] _]. rewrite E in *.
  apply elem_of_app in Hin as [Hin| ->%list_elem_of_singleton]; [|done].
  pose proof (StronglySorted_app_1_elem_of _ _ _ r r0 Hm Hin ltac:(by apply list_elem_of_singleton)) as H. unfold monotonic in H.
  apply Forall_app in Hok as [_ [[_ ?] _]%Forall_cons]. lia.
Qed.

(** The source of a run and what the validation of its requests needs *)
Lemma run_source li ri run : run_at li ri run -> exists input src, pp_Inputs plan !! Z.to_nat (dr_InputIndex run) = Some input /\
  0 <= dr_InputIndex run < Z.of_nat (length (pp_Inputs plan)) /\ in_ArtifactID input = dr_InputArtifactID run /\
  sources !! dr_InputArtifactID run = Some src /\ in_Audio input = Some (as_input src) /\
  ai_SourceStreamID (as_input src) = dr_SourceStreamID run.
Proof using Hlanes Hplan.
  intros Hr. destruct (run_at_ok _ _ _ Hr) as [[(rs & r & E & _) _ _ Hi] _].
  destruct (request_bound li ri run r Hr) as (n & c & (i & src & r' & (_ & Hs & Hst) & _ & ->) & _ & Ea & Est);
    [rewrite E; set_solver|]. cbn in Ea, Est. rewrite Ea in Hs. rewrite Est in Hst.
  rewrite Hi. unfold inputOf. rewrite Hs. destruct (source_input _ _ Hs) as (m & input & Hm & Hart & Hau & -> & _ & _).
  exists input, src. rewrite Nat2Z.id. split; [done|]. split; [apply lookup_lt_Some in Hm; lia|]. done.
Qed.

Lemma audio_requests_valid li ri run src (requests : list DecodeRequest) : forall previous, run_at li ri run ->
  sources !! dr_InputArtifactID run = Some src -> (forall r, r ∈ requests -> r ∈ dr_Requests run) ->
  StronglySorted before requests -> StronglySorted monotonic requests ->
  (forall r e o, r ∈ requests -> previous = Some (e, o) -> e <= dq_First r /\ o <= dq_FirstOrdinal r) ->
  (default 0 ((dq_LastOrdinal <$> last requests) ∪ (snd <$> previous)) = dr_LastOrdinal run) ->
  audio_requests_ok plan run (as_input src) previous requests = true.
Proof using Hlanes Hplan.
  induction requests as [|r rest IH]; intros previous Hr Hs Hin Hb Hm Hp Hlast; cbn [audio_requests_ok].
  { apply bool_decide_eq_true. rewrite <- Hlast. by destruct previous as [[? ?]|]. }
  inversion Hb as [|? ? Hb' Hbf]; subst. inversion Hm as [|? ? Hm' Hmf]; subst.
  assert (Hir : r ∈ dr_Requests run) by (apply Hin; set_solver).
  apply andb_true_iff. split; [|apply IH; try done].
  - destruct (request_bound li ri run r Hr Hir) as (n & c & Hn & Er & Ea & Est). pose proof (bound_request _ _ Hn) as (B1 & [B2 B3] & _ & B4 & B5).
    pose proof (run_last_max _ _ _ _ Hr Hir). destruct Hn as (i & src' & r' & (N1 & N2 & N3) & Nr & ->). cbn in *. subst r'.
    pose proof (lookup_lt_Some _ _ _ N1). unfold audio_request_ok. rewrite B1, Nat2Z.id, N1, Ea, Est.
    rewrite Ea, Hs in N2. injection N2 as <-. rewrite !bool_decide_eq_true_2 by done.
    rewrite !andb_true_r. apply negb_true_iff.
    destruct (Z.leb_spec (Z.of_nat (length (pp_Audio plan))) (Z.of_nat n)); [lia|].
    destruct (Z.leb_spec (dq_End r) (dq_First r)); [lia|]. destruct (Z.ltb_spec count (dq_End r)); [lia|].
    destruct (Z.ltb_spec (dq_LastOrdinal r) (dq_FirstOrdinal r)); [lia|]. destruct (Z.ltb_spec (dr_LastOrdinal run) (dq_LastOrdinal r)); [lia|].
    cbn [orb]. destruct previous as [[e o]|]; [|done]. destruct (Hp r e o ltac:(set_solver) eq_refl).
    destruct (Z.ltb_spec (dq_First r) e); [lia|]. destruct (Z.ltb_spec (dq_FirstOrdinal r) o); [lia|done].
  - intros x Hx. apply Hin. set_solver.
  - intros x e o Hx [= <- <-]. rewrite Forall_forall in Hbf, Hmf. split; [by apply Hbf|by apply Hmf].
  - rewrite <- Hlast. destruct rest as [|y rest]; [cbn; by destruct previous as [[? ?]|]|].
    change (last (r :: y :: rest)) with (last (y :: rest)). destruct (last (y :: rest)) eqn:El; [by destruct previous|]. by apply last_None in El.
Qed.

Lemma run_validated li ri run : run_at li ri run -> validateAudioDecodeRun plan run = Ok tt.
Proof using Hlanes Hplan.
  intros Hr. destruct (run_source _ _ _ Hr) as (input & src & Hi & Hb & Ha & Hs & Hau & Hst).
  destruct (run_at_ok _ _ _ Hr) as [[(rs & r & E & Hl) Hm Hok _] [Ht Hlim]].
  unfold validateAudioDecodeRun. apply guard_or_ok. rewrite Hi, Hau, Ha, Hst, Ht. rewrite (bool_decide_eq_true_2 (dr_InputArtifactID run = _) eq_refl), (bool_decide_eq_true_2 (dr_SourceStreamID run = _) eq_refl). cbn [andb].
  apply andb_true_iff. split.
  - apply negb_true_iff. rewrite Z.eqb_refl. destruct (Z.leb_spec (Z.of_nat (length (pp_Inputs plan))) (dr_InputIndex run)); [lia|].
    rewrite bool_decide_eq_false_2 by (rewrite E; by destruct rs). cbn [orb negb].
    assert (Hin : r ∈ dr_Requests run) by (rewrite E; set_solver).
    destruct (request_bound li ri run r Hr Hin) as (n & c & (i & src' & r' & Hsd & Hreq & ->) & Er & _). cbn in Er. subst r'.
    destruct (sourced_request _ _ _ _ Hsd Hreq) as [_ [Hbd _ _ Ho]]. destruct Hsd as (_ & Hs' & _).
    destruct (source_input _ _ Hs') as (_ & _ & _ & _ & _ & _ & _ & _ & Hd). unfold MaximumSourceProxySamples in Hd.
    apply Z.leb_gt. rewrite to_uint64_small in Hlim by lia. lia.
  - apply (audio_requests_valid li ri run src); try done.
    + by apply (run_at_before li ri).
    + rewrite E, last_snoc. cbn. done.
Qed.

Lemma bindings_indexes_distinct : NoDup (indexes (lanes_bindings 0 lanes)).
Proof using Hlanes.
  rewrite lanes_bindings_indexes. destruct Hlanes as [_ _ _ (ends & cs & [_ _ _ Hp] & _ & _ & Hnd)]. rewrite Hp.
  by rewrite <- list_fmap_compose.
Qed.

Lemma elem_of_bindings b : b ∈ lanes_bindings 0 lanes <-> exists li ri run r, run_at li ri run /\ r ∈ dr_Requests run /\ b = binding_of li ri r.
Proof.
  rewrite elem_of_lanes_bindings. split.
  - intros (i & lane & j & run & r & Hi & Hj & Hr & ->). exists i, j, run, r. split; [by exists lane|done].
  - intros (li & ri & run & r & (lane & Hl & Hr) & Hin & ->). by exists li, lane, ri, run, r.
Qed.

Lemma bound_index_unique n m c c' : bound_to n c -> bound_to m c' -> dq_InstructionIndex (dc_request c) = dq_InstructionIndex (dc_request c') ->
  n = m /\ c = c'.
Proof using Hplan.
  intros H1 H2 E. destruct (bound_request _ _ H1) as (B1 & _). destruct (bound_request _ _ H2) as (B2 & _).
  assert (n = m) as <- by lia. split; [done|]. destruct H1 as (i & src & r & (A1 & A2 & _) & Ar & ->). destruct H2 as (i' & src' & r' & (C1 & C2 & _) & Cr & ->).
  congruence.
Qed.

Lemma bindings_complete_ok (seen : gset Z) source : forall index, (forall n i, source !! n = Some i -> pp_Audio plan !! (index + n)%nat = Some i) ->
  (forall z, z ∈ seen <-> z ∈ indexes (lanes_bindings 0 lanes)) ->
  bindings_complete plan (audio_inputs (pp_Inputs plan) ∅) seen (Z.of_nat index) source = true.
Proof using Hlanes Hplan.
  induction source as [|i rest IH]; intros index Hat Hseen; cbn [bindings_complete]; [done|].
  specialize (Hat 0%nat i eq_refl) as Hi. rewrite Nat.add_0_r in Hi.
  destruct (pl_instructions _ Hlanes index i Hi) as (src & res & Hsd & Hres). pose proof Hsd as (_ & Hs & _).
  assert (Hau : audio_inputs (pp_Inputs plan) ∅ !! ra_InputArtifactID i = Some (as_input src)).
  { rewrite (audio_inputs_sources _ 0 ∅ ∅) by (by rewrite fmap_empty). by rewrite lookup_fmap, Hs. }
  rewrite Hau.
  pose proof (ap_audio _ Hplan). pose proof (lookup_lt_Some _ _ _ Hi). unfold to_uint32. rewrite Z.mod_small by lia. rewrite Hres.
  apply andb_true_iff. split.
  - apply eqb_true_iff. symmetry. destruct res as [r|]; cbn [absent negb].
    + apply bool_decide_eq_true. apply Hseen. destruct (sourced_request _ _ _ _ Hsd Hres) as [Er _].
      assert (Hb : bound_to index (mkCandidate r (as_inputIndex src) (ra_InputArtifactID i) (ra_SourceStreamID i) (ra_Layer i) (ra_ClipID i))) by (by exists i, src, r).
      destruct (bound_run _ _ Hb) as (li & ri & run & Hrun & Hin & _). apply list_elem_of_fmap. exists (binding_of li ri r).
      split; [done|]. apply elem_of_bindings. by exists li, ri, run, r.
    + apply bool_decide_eq_false. intros Hin. apply Hseen, list_elem_of_fmap in Hin as (b & Eb & Hb).
      apply elem_of_bindings in Hb as (li & ri & run & r & Hrun & Hin & ->). cbn in Eb.
      destruct (request_bound _ _ _ _ Hrun Hin) as (n & c & Hn & Er & _). pose proof (bound_request _ _ Hn) as [Hx _].
      rewrite Er, <- Eb in Hx. assert (n = index) as -> by lia. destruct Hn as (i' & src' & r' & (A1 & A2 & _) & Ar & _). congruence.
  - replace (Z.of_nat index + 1) with (Z.of_nat (S index)) by lia. apply IH; [|done].
    intros n j Hj. rewrite Nat.add_succ_comm. by apply Hat.
Qed.

Lemma compile_bindings dp : dp_Lanes dp = lanes -> compileAudioMixBindings plan dp = Ok (merge_sort binding_le (lanes_bindings 0 lanes)).
Proof using Hlanes Hplan.
  intros E. unfold compileAudioMixBindings. rewrite E. rewrite bind_lanes_ok.
  - cbn [mbind outcome_bind]. rewrite (bindings_complete_ok _ (pp_Audio plan) 0); [done|done|]. intros z. set_solver.
  - apply Hlanes.
  - destruct Hlanes as [_ _ _ (ends & cs & [_ Hi _ _] & _)]. intros j lane Hj. by apply Hi.
  - apply Forall_lookup. intros li lane Hl. apply Forall_lookup. intros ri run Hr.
    assert (Hrun : run_at li ri run) by by exists lane. split; [by apply (run_validated li ri)|].
    intros r Hin. destruct (request_bound _ _ _ _ Hrun Hin) as (n & c & Hn & Er & _). pose proof (bound_request _ _ Hn) as [Hx _].
    rewrite <- Er, Hx, Nat2Z.id. destruct Hn as (i & src & r' & (A1 & _) & _). eauto.
  - exact bindings_indexes_distinct.
  - set_solver.
Qed.
End lanes.
End planned.

(** * The bindings that sound: [advanceAudioBindings], called once per output
    sample, keeps exactly the bindings whose request is under way, in the order
    of their instructions. *)


Lemma filter_same_length {A} (P : A -> Prop) `{!forall x, Decision (P x)} (l : list A) : length (filter P l) = length l -> filter P l = l.
Proof.
  induction l as [|x l IH]; [done|]. rewrite filter_cons. pose proof (length_filter P l). case_decide; cbn [length]; [intros [= E]; by rewrite IH|lia].
Qed.

Section active.
Context (bs : list audioMixBinding).
Hypothesis Hsorted : StronglySorted (fun a b => dq_First (mb_request a) <= dq_First (mb_request b)) bs.
Hypothesis Hrequests : Forall (fun b => 0 <= dq_First (mb_request b) < dq_End (mb_request b)) bs.

#[export] Instance instruction_le_total : Total (instruction_le bs).
Proof. intros x y. unfold instruction_le. lia. Qed.
#[export] Instance instruction_le_trans : Transitive (instruction_le bs).
Proof. intros x y z. unfold instruction_le. lia. Qed.

Lemma sorted_lookup i j a b : (i <= j)%nat -> bs !! i = Some a -> bs !! j = Some b -> dq_First (mb_request a) <= dq_First (mb_request b).
Proof using Hsorted.
  intros Hle Ha Hb. destruct (decide (i = j)) as [->|Hne]; [rewrite Ha in Hb; injection Hb as ->; lia|].
  rewrite <- (take_drop (S i) bs) in Hsorted. eapply (StronglySorted_app_1_elem_of _ _ _ a b Hsorted).
  - apply list_elem_of_lookup_2 with i. by rewrite lookup_take_lt by lia.
  - apply list_elem_of_lookup_2 with (j - S i)%nat. rewrite lookup_drop. by replace (S i + (j - S i))%nat with j by lia.
Qed.

(** The bindings before [next] started before the sample, the others did not;
    the active ones are those that were under way at the sample before. *)
Record positioned (k : Z) (active : list nat) (next : nat) : Prop := mkPositioned {
  po_next : (next <= length bs)%nat;
  po_started : forall i b, bs !! i = Some b -> ((i < next)%nat <-> dq_First (mb_request b) < k);
  po_distinct : NoDup active;
  po_active : forall i, i ∈ active <-> exists b, bs !! i = Some b /\ under_way (k - 1) (mb_request b);
  po_sorted : StronglySorted (instruction_le bs) active }.

Lemma positioned_start : positioned 0 [] 0.
Proof using Hrequests.
  rewrite Forall_lookup in Hrequests. split; [lia| |constructor| |constructor].
  - intros i b Hb. specialize (Hrequests i b Hb). lia.
  - intros i. split; [by intros ?%not_elem_of_nil|]. intros (b & Hb & Hu). specialize (Hrequests i b Hb). unfold under_way in Hu. lia.
Qed.

Lemma starting_spec k : forall rest next, (forall j b, rest !! j = Some b -> bs !! (next + j)%nat = Some b) ->
  (forall j b, rest !! j = Some b -> k <= dq_First (mb_request b)) ->
  exists m, starting rest next k = seq next m /\ (m <= length rest)%nat /\
    forall j b, rest !! j = Some b -> ((j < m)%nat <-> dq_First (mb_request b) = k).
Proof using Hsorted.
  induction rest as [|b rest IH]; intros next Hat Hge; cbn [starting].
  { exists 0%nat. split; [done|]. split; [done|]. by intros j b. }
  destruct (Z.eqb_spec (dq_First (mb_request b)) k) as [E|E].
  - destruct (IH (S next)) as (m & -> & Hm & Hj).
    { intros j b' Hb'. rewrite Nat.add_succ_comm. by apply Hat. }
    { intros j b' Hb'. by apply (Hge (S j)). }
    exists (S m). split; [done|]. split; [cbn; lia|]. intros [|j] b' Hb'; [injection Hb' as <-; split; [done|]; intros _; apply Nat.lt_0_succ|].
    rewrite <- (Hj j b' Hb'). lia.
  - exists 0%nat. split; [done|]. split; [cbn; lia|]. intros j b' Hb'. split; [lia|]. intros E'.
    specialize (Hge 0%nat b eq_refl). pose proof (Hat 0%nat b eq_refl) as H0. pose proof (Hat j b' Hb') as Hj.
    pose proof (sorted_lookup (next + 0) (next + j) b b' ltac:(lia) H0 Hj). lia.
Qed.

Lemma advance_spec k active next : positioned k active next ->
  let '(active', next') := advanceAudioBindings active bs next k in positioned (k + 1) active' next'.
Proof using Hsorted Hrequests.
  intros [Hn Hs Hd Ha Hso]. unfold advanceAudioBindings.
  destruct (starting_spec k (drop next bs) next) as (m & -> & Hm & Hj).
  { intros j b Hb. by rewrite lookup_drop in Hb. }
  { intros j b Hb. rewrite lookup_drop in Hb. pose proof (Hs _ _ Hb). lia. }
  rewrite length_drop in Hm. rewrite length_seq.
  assert (Hj' : forall i b, bs !! i = Some b -> (next <= i)%nat -> ((i < next + m)%nat <-> dq_First (mb_request b) = k)).
  { intros i b Hb Hle. rewrite <- (Hj (i - next)%nat b); [lia|]. rewrite lookup_drop. by replace (next + (i - next))%nat with i by lia. }
  set (kept := filter (fun i => still_sounding bs k i = true) active).
  assert (Hkept : forall i, i ∈ kept <-> i ∈ active /\ exists b, bs !! i = Some b /\ k < dq_End (mb_request b)).
  { intros i. unfold kept. rewrite list_elem_of_filter. unfold still_sounding. split.
    - intros [H1 H2]. split; [done|]. destruct (bs !! i) as [b|]; [|done]. exists b. split; [done|lia].
    - intros [H1 (b & -> & Hb)]. split; [lia|done]. }
  assert (Hel : forall i, i ∈ kept ++ seq next m <-> exists b, bs !! i = Some b /\ under_way k (mb_request b)).
  { intros i. rewrite elem_of_app, elem_of_seq, Hkept, Ha. unfold under_way. rewrite Forall_lookup in Hrequests. split.
    - intros [[(b & Hb & Hu) (b' & Hb' & He)]|Hi].
      + rewrite Hb in Hb'. injection Hb' as <-. exists b. split; [done|lia].
      + destruct (lookup_lt_is_Some_2 bs i) as [b Hb]; [lia|]. exists b. split; [done|]. specialize (Hrequests i b Hb).
        pose proof (Hj' i b Hb ltac:(lia)). lia.
    - intros (b & Hb & Hu). destruct (Z.eq_dec (dq_First (mb_request b)) k) as [E|E].
      + right. pose proof (Hs i b Hb). pose proof (Hj' i b Hb ltac:(lia)). lia.
      + left. split; exists b; (split; [done|lia]). }
  assert (Hnd : NoDup (kept ++ seq next m)).
  { apply NoDup_app. split; [by apply NoDup_filter|]. split; [|apply NoDup_seq]. intros i Hi Hq. apply Hkept in Hi as [Hi _].
    apply Ha in Hi as (b & Hb & Hu). unfold under_way in Hu. rewrite elem_of_seq in Hq. pose proof (Hs i b Hb). lia. }
  assert (Hst : forall i b, bs !! i = Some b -> ((i < next + m)%nat <-> dq_First (mb_request b) < k + 1)).
  { intros i b Hb. pose proof (Hs i b Hb). destruct (Nat.lt_ge_cases i next); [lia|]. pose proof (Hj' i b Hb ltac:(lia)). lia. }
  destruct (negb (length kept =? length active)%nat || negb (bool_decide (seq next m = []))) eqn:Echg; split; try done; try lia.
  - by rewrite merge_sort_Permutation.
  - intros i. rewrite merge_sort_Permutation, Hel. by replace (k + 1 - 1) with k by lia.
  - apply StronglySorted_merge_sort; apply _.
  - intros i. rewrite Hel. by replace (k + 1 - 1) with k by lia.
  - apply orb_false_iff in Echg as [E1 E2]. apply negb_false_iff in E1, E2. apply bool_decide_eq_true in E2. apply Nat.eqb_eq in E1.
    rewrite E2, app_nil_r. assert (kept = active) as ->; [|done].
    by apply filter_same_length.
Qed.
End active.
