(* ===== verification/EngineStream.v ===== *)
(** The audio stream of an accepted plan: the lanes are read in step with the
    output, every sample of the output mixes the sources that exact time puts
    there, and the stream is complete. *)
From stdpp Require Import base list strings gmap sorting.
From Stdlib Require Import ZArith QArith Lia.
From S2P Require Import Prelude GoText Exact EditModel Timeline EditRanges EditValidate RenderContract.
From S2P Require Import EngineLanes EngineDecode EngineAssign EngineAudio EngineMix EngineBindings.
Open Scope Z_scope.

(** A run in which only the last request reaches the last ordinal *)
Definition tail_unshared (run : DecodeRun) : Prop :=
  forall rs r r' rs', dr_Requests run = rs ++ r :: r' :: rs' -> dq_LastOrdinal r < dr_LastOrdinal run.

#[export] Instance plays_dec i input k : Decision (plays i input k).
Proof.
  unfold plays, covers. apply and_dec; [|apply _]. apply and_dec.
  - destruct (Qlt_le_dec (sample_Q k) (start_Q (ra_TimelineRange i))) as [Hl|Hl]; [right; by apply Qlt_not_le|by left].
  - destruct (Qlt_le_dec (sample_Q k) (end_Q (ra_TimelineRange i))) as [Hl|Hl]; [by left|right; by apply Qle_not_lt].
Defined.

(** Selecting by increasing positions is selecting from the whole list. *)
Lemma omap_positions {A B} (f : A -> option B) (l : list A) : forall start js,
  StronglySorted Nat.lt js -> (forall n x, l !! n = Some x -> (start + n)%nat ∈ js <-> is_Some (f x)) ->
  (forall j, j ∈ js -> (start <= j < start + length l)%nat) -> omap (fun j => l !! (j - start)%nat ≫= f) js = omap f l.
Proof.
  induction l as [|x l IH]; intros start js Hs Hiff Hb.
  { destruct js as [|j js]; [done|]. specialize (Hb j (list_elem_of_here _ _)). cbn in Hb. lia. }
  assert (Htail : forall js', StronglySorted Nat.lt js' -> (forall j, j ∈ js' <-> j ∈ js /\ j <> start) ->
    omap (fun j => (x :: l) !! (j - start)%nat ≫= f) js' = omap f l).
  { intros js' Hs' Hel. rewrite <- (IH (S start) js' Hs').
    - assert (Hge : forall j, j ∈ js' -> (S start <= j)%nat) by (intros j [Hj ?]%Hel; specialize (Hb j Hj); lia).
      clear Hs' Hel. induction js' as [|j js' IHj]; [done|]. cbn. specialize (Hge j (list_elem_of_here _ _)) as Hj.
      replace (j - start)%nat with (S (j - S start)) by lia. cbn. rewrite IHj; [done|]. intros j' Hj'. apply Hge. by apply list_elem_of_further.
    - intros n y Hn. rewrite Hel, <- (Hiff (S n) y Hn). rewrite Nat.add_succ_r. cbn. split; [by intros [? _]|]. intros ?. split; [done|lia].
    - intros j [Hj Hne]%Hel. specialize (Hb j Hj). cbn in Hb. lia. }
  specialize (Hiff 0%nat x eq_refl) as H0. rewrite Nat.add_0_r in H0. cbn [omap list_omap]. destruct (f x) as [y|] eqn:Ef.
  - assert (Hin : start ∈ js) by (apply H0; eauto). destruct js as [|j js]; [by apply not_elem_of_nil in Hin|].
    inversion Hs as [|? ? Hs' Hf]; subst. rewrite Forall_forall in Hf.
    assert (j = start) as ->.
    { apply elem_of_cons in Hin as [->|Hin]; [done|]. specialize (Hf start Hin). specialize (Hb j (list_elem_of_here _ _)). lia. }
    cbn. rewrite Nat.sub_diag. cbn. rewrite Ef. f_equal. apply Htail; [done|]. intros j. rewrite elem_of_cons. split.
    + intros Hj. specialize (Hf j Hj). split; [by right|lia].
    + by intros [[->|?] ?].
  - apply Htail; [done|]. intros j. split; [|by intros [? _]]. intros Hj. split; [done|]. intros ->. apply H0 in Hj as [? ?]. done.
Qed.

(** One stereo frame of the output: each channel is the exact sum of the
    samples times their gains, rounded half to even and limited to 16 bits. *)
Definition mix_frame (layers : list (StereoPCM16 * Z)) (frame : list Z) : Prop :=
  exists l r, nearest_even (dot ((fun x => (st_Left x.1, x.2)) <$> layers)) (2 ^ 31) l /\
    nearest_even (dot ((fun x => (st_Right x.1, x.2)) <$> layers)) (2 ^ 31) r /\
    frame = put_int16 (saturate l) ++ put_int16 (saturate r).

Definition stereo_ok (s : StereoPCM16) : Prop := int16_ok (st_Left s) /\ int16_ok (st_Right s).

Lemma zip_layers (f : StereoPCM16 -> Z) (layers : list (StereoPCM16 * Z)) : zip (f ∘ fst <$> layers) layers.*2 = (fun x => (f x.1, x.2)) <$> layers.
Proof. induction layers as [|x l IH]; [done|]. cbn. f_equal. apply IH. Qed.

Lemma mix_samples_ok layers : (length layers <= 32)%nat -> Forall (fun x => stereo_ok x.1 /\ 0 <= x.2 <= maximumGainQ31) layers ->
  exists frame, mix_samples layers = Ok frame /\ mix_frame layers frame.
Proof.
  intros Hl Hall. unfold mix_samples.
  destruct (MixPCM16_exact (st_Left ∘ fst <$> layers) layers.*2) as (l & -> & El).
  { by rewrite !length_fmap. } { by rewrite length_fmap. }
  { rewrite zip_layers. apply Forall_fmap. eapply Forall_impl; [exact Hall|]. intros x [[? ?] ?]. split; done. }
  destruct (MixPCM16_exact (st_Right ∘ fst <$> layers) layers.*2) as (r & -> & Er).
  { by rewrite !length_fmap. } { by rewrite length_fmap. }
  { rewrite zip_layers. apply Forall_fmap. eapply Forall_impl; [exact Hall|]. intros x [[? ?] ?]. split; done. }
  rewrite zip_layers in El, Er. cbn [mbind outcome_bind]. eexists. split; [reflexivity|]. by exists l, r.
Qed.

Lemma mix_frame_length layers frame : mix_frame layers frame -> length frame = 4%nat.
Proof. by intros (l & r & _ & _ & ->). Qed.

Section stream.
Context (plan : RenderPlanPayload) (lanes : list DecodeLane).
Hypothesis Hplan : audio_plan_ok plan.
Hypothesis Hlanes : lanes_planned plan lanes.
Context (content : string -> Z -> StereoPCM16) (decodable : DecodeRun -> Prop) {RD : RunDecoder StereoPCM16}
  {DR : DecodesRuns StereoPCM16 content decodable}.
Hypothesis Hdecodable : forall li ri run, run_at lanes li ri run -> decodable run.
Notation count := (out_AudioSampleCount (pp_Output plan)).

Lemma request_shape li ri run r : run_at lanes li ri run -> r ∈ dr_Requests run ->
  0 <= dq_First r < dq_End r /\ dq_End r <= count /\ 0 <= dq_FirstOrdinal r /\
  dq_LastOrdinal r = dq_FirstOrdinal r + (dq_End r - dq_First r - 1) /\ dq_LastOrdinal r < 2 ^ 62.
Proof using Hplan Hlanes.
  intros Hr Hin. destruct (request_bound plan lanes Hlanes _ _ _ _ Hr Hin) as (n & c & (i & src & r' & Hs & Hreq & ->) & Er & _). cbn in Er. subst r'.
  destruct (sourced_request plan Hplan _ _ _ _ Hs Hreq) as [_ [Hb _ _ Ho]]. destruct Hs as (_ & Hs & _).
  destruct (source_input plan Hplan _ _ Hs) as (_ & _ & _ & _ & _ & _ & _ & _ & Hd). unfold MaximumSourceProxySamples in Hd. lia.
Qed.

(** Within a run, a request under way comes after those that have ended. *)
Lemma run_order li ri run r r' k k' : run_at lanes li ri run -> r ∈ dr_Requests run -> r' ∈ dr_Requests run ->
  under_way k r -> under_way k' r' -> k < k' -> r = r' \/ dq_LastOrdinal r <= dq_FirstOrdinal r'.
Proof using Hplan Hlanes.
  intros Hr Hin Hin' Hu Hu' Hlt. pose proof (run_at_before plan lanes Hlanes _ _ _ Hr) as Hb.
  destruct (run_at_ok plan lanes Hlanes _ _ _ Hr) as [[_ Hm _ _] _]. apply list_elem_of_split in Hin as (l1 & l2 & E). rewrite E in *.
  apply elem_of_app in Hin' as [Hin'|[->|Hin']%elem_of_cons]; [|by left|].
  - pose proof (StronglySorted_app_1_elem_of _ _ _ r' r Hb Hin' (list_elem_of_here _ _)) as Hbef. unfold before, under_way in *. lia.
  - right. apply StronglySorted_app_1_r in Hm. inversion Hm as [|? ? _ Hf]; subst. rewrite Forall_forall in Hf. by apply Hf.
Qed.

(** ** The state of a lane *)

Record lane_at (k : Z) (li : nat) (ev : audioLaneEvaluator) : Prop := mkLaneAt {
  la_lane : lanes !! li = Some (le_lane ev);
  la_next : (le_nextRun ev <= length (dl_Runs (le_lane ev)))%nat;
  la_past : forall j run r, (j < le_nextRun ev)%nat -> run_at lanes li j run -> r ∈ dr_Requests run -> dq_End r <= k;
  la_future : forall j run r, (le_nextRun ev < j)%nat -> run_at lanes li j run -> r ∈ dr_Requests run -> k <= dq_First r;
  la_now : match le_decoder ev with
    | None => forall run r, run_at lanes li (le_nextRun ev) run -> r ∈ dr_Requests run -> k <= dq_First r
    | Some d => exists run o, run_at lanes li (le_nextRun ev) run /\ decoder_at run (Some o) d /\ 0 <= o /\
        (forall r k', r ∈ dr_Requests run -> k <= k' -> under_way k' r -> o <= dq_FirstOrdinal r + (k' - dq_First r)) /\
        exists r, r ∈ dr_Requests run /\ k < dq_End r
    end }.

Definition lane_quiet (k : Z) (li : nat) : Prop := forall j run r, run_at lanes li j run -> r ∈ dr_Requests run -> ~ under_way k r.

Lemma lane_skip k li ev : lane_at k li ev -> lane_quiet k li -> lane_at (k + 1) li ev.
Proof using Hplan Hlanes.
  intros [Hl Hn Hp Hf Hnow] Hq.
  assert (Hstep : forall j run r, run_at lanes li j run -> r ∈ dr_Requests run -> k <= dq_First r -> k + 1 <= dq_First r).
  { intros j run r Hr Hin Hle. specialize (Hq j run r Hr Hin). destruct (request_shape _ _ _ _ Hr Hin). unfold under_way in Hq. lia. }
  split; [done|done| | |].
  - intros j run r Hj Hr Hin. specialize (Hp j run r Hj Hr Hin). lia.
  - intros j run r Hj Hr Hin. eapply Hstep; eauto.
  - destruct (le_decoder ev) as [d|]; [|intros run r Hr Hin; eapply Hstep; eauto].
    destruct Hnow as (run & o & Hr & Hd & Hpos & Hmono & (r & Hin & Hlt)). exists run, o. split; [done|]. split; [done|]. split; [done|]. split.
    + intros r' k' Hin' Hle Hu. apply Hmono; [done|lia|done].
    + exists r. split; [done|]. destruct (Z.le_gt_cases (dq_End r) (k + 1)); [|lia]. exfalso. apply (Hq _ _ _ Hr Hin).
      destruct (request_shape _ _ _ _ Hr Hin). unfold under_way. specialize (Hq _ _ _ Hr Hin). unfold under_way in Hq. lia.
Qed.

(** The run a request under way belongs to is the one the lane stands at. *)
Lemma lane_at_run k li ev j run r : lane_at k li ev -> run_at lanes li j run -> r ∈ dr_Requests run -> under_way k r -> j = le_nextRun ev.
Proof using Hplan Hlanes.
  intros [Hl Hn Hp Hf Hnow] Hr Hin Hu. destruct (Nat.lt_trichotomy j (le_nextRun ev)) as [Hlt|[E|Hgt]]; [|done|]; exfalso; unfold under_way in Hu.
  - specialize (Hp j run r Hlt Hr Hin). lia.
  - assert (Hex : exists run0, run_at lanes li (le_nextRun ev) run0).
    { destruct Hr as (lane & El & Er). rewrite Hl in El. injection El as <-. apply lookup_lt_Some in Er.
      destruct (lookup_lt_is_Some_2 (dl_Runs (le_lane ev)) (le_nextRun ev)) as [run0 E0]; [lia|]. exists run0, (le_lane ev). done. }
    destruct Hex as [run0 Hr0].
    assert (Hsome : exists r0, r0 ∈ dr_Requests run0 /\ k < dq_End r0).
    { destruct (le_decoder ev) as [d|].
      - destruct Hnow as (run1 & o & (l1 & E1 & E1') & _ & _ & _ & Hsome). destruct Hr0 as (l2 & E2 & E2'). rewrite E1 in E2. injection E2 as ->.
        rewrite E1' in E2'. injection E2' as ->. done.
      - destruct (run_at_ok plan lanes Hlanes _ _ _ Hr0) as [[(rs & r0 & E & _) _ _ _] _]. exists r0.
        assert (Hin0 : r0 ∈ dr_Requests run0) by (rewrite E; apply elem_of_app; right; apply list_elem_of_here). split; [done|].
        specialize (Hnow run0 r0 Hr0 Hin0). destruct (request_shape _ _ _ _ Hr0 Hin0). lia. }
    destruct Hsome as (r0 & Hin0 & Hlt0).
    pose proof (runs_before plan lanes Hlanes _ _ _ _ _ _ _ Hr0 Hr Hgt Hin0 Hin) as Hb. unfold before in Hb. specialize (Hf j run r Hgt Hr Hin). lia.
Qed.

Lemma last_request li ri run : run_at lanes li ri run -> exists rs r, dr_Requests run = rs ++ [r] /\ dq_LastOrdinal r = dr_LastOrdinal run.
Proof using Hlanes. intros Hr. by destruct (run_at_ok plan lanes Hlanes _ _ _ Hr) as [[Hl _ _ _] _]. Qed.

(** When the last ordinal of a run is read, its requests are all at an end. *)
Lemma run_finished li ri run r k : run_at lanes li ri run -> tail_unshared run -> r ∈ dr_Requests run -> under_way k r ->
  dq_FirstOrdinal r + (k - dq_First r) = dr_LastOrdinal run -> forall r', r' ∈ dr_Requests run -> dq_End r' <= k + 1.
Proof using Hplan Hlanes.
  intros Hr Htail Hin Hu E r' Hin'. pose proof (request_shape _ _ _ _ Hr Hin) as (S1 & _ & _ & S2 & _).
  pose proof (run_last_max plan lanes Hlanes _ _ _ _ Hr Hin) as Hmax. unfold under_way in Hu.
  assert (Hk : k + 1 = dq_End r) by lia. pose proof (run_at_before plan lanes Hlanes _ _ _ Hr) as Hb.
  apply list_elem_of_split in Hin as (l1 & l2 & El). destruct l2 as [|x l2]; [|specialize (Htail l1 r x l2 El); lia].
  rewrite El in Hin', Hb. apply elem_of_app in Hin' as [Hin'| ->%list_elem_of_singleton]; [|lia].
  pose proof (StronglySorted_app_1_elem_of _ _ _ r' r Hb Hin' (list_elem_of_here _ _)) as Hbef. unfold before in Hbef. lia.
Qed.

(** A request that has not reached the end of its run leaves something to read. *)
Lemma run_unfinished li ri run r k : run_at lanes li ri run -> r ∈ dr_Requests run -> under_way k r ->
  dq_FirstOrdinal r + (k - dq_First r) <> dr_LastOrdinal run -> exists r', r' ∈ dr_Requests run /\ k + 1 < dq_End r'.
Proof using Hplan Hlanes.
  intros Hr Hin Hu Hne. pose proof (request_shape _ _ _ _ Hr Hin) as (S1 & _ & _ & S2 & _). unfold under_way in Hu.
  destruct (Z.eq_dec (k + 1) (dq_End r)) as [E|E]; [|exists r; split; [done|lia]].
  destruct (last_request _ _ _ Hr) as (rs & r0 & El & E0). exists r0.
  assert (Hin0 : r0 ∈ dr_Requests run) by (rewrite El; apply elem_of_app; right; apply list_elem_of_here). split; [done|].
  pose proof (run_at_before plan lanes Hlanes _ _ _ Hr) as Hb. rewrite El in Hin, Hb.
  apply elem_of_app in Hin as [Hin| ->%list_elem_of_singleton]; [|lia].
  pose proof (StronglySorted_app_1_elem_of _ _ _ r r0 Hb Hin (list_elem_of_here _ _)) as Hbef. unfold before in Hbef.
  pose proof (request_shape _ _ _ _ Hr Hin0). lia.
Qed.

Lemma lane_read_ok k li ev j run r : lane_at k li ev -> run_at lanes li j run -> tail_unshared run -> r ∈ dr_Requests run -> under_way k r ->
  exists ev', lane_read ev (binding_of plan li j r) k = Ok (ev', content (dr_InputArtifactID run) (dq_FirstOrdinal r + (k - dq_First r))) /\
    lane_at (k + 1) li ev'.
Proof using Hplan Hlanes Hdecodable.
  intros Hat Hr Htail Hin Hu. pose proof (lane_at_run _ _ _ _ _ _ Hat Hr Hin Hu) as ->. pose proof Hat as [Hl Hn Hp Hf Hnow].
  pose proof (request_shape _ _ _ _ Hr Hin) as (S1 & S2 & S3 & S4 & S5). pose proof (run_last_max plan lanes Hlanes _ _ _ _ Hr Hin) as Hmax.
  pose proof (Hdecodable _ _ _ Hr) as Hdec. unfold under_way in Hu. set (o := dq_FirstOrdinal r + (k - dq_First r)).
  assert (Hrun : dl_Runs (le_lane ev) !! le_nextRun ev = Some run).
  { destruct Hr as (lane & E1 & E2). rewrite Hl in E1. by injection E1 as <-. }
  unfold lane_read, binding_of. cbn [mb_runIndex mb_request]. rewrite Nat.eqb_refl, Hrun.
  destruct (Z.ltb_spec k (dq_First r)); [lia|]. destruct (Z.leb_spec (dq_End r) k); [lia|].
  destruct (Nat.leb_spec (length (dl_Runs (le_lane ev))) (le_nextRun ev)); [apply lookup_lt_Some in Hrun; lia|]. cbn [negb orb].
  rewrite to_uint64_small by lia. replace (dq_FirstOrdinal r + k - dq_First r) with o by (subst o; lia).
  assert (Hopen : exists d p, match le_decoder ev with Some d => Ok d | None => decoder_open run end = Ok d /\ decoder_at run p d /\ default 0 p <= o).
  { destruct (le_decoder ev) as [d|].
    - destruct Hnow as (run1 & p & Hr1 & Hd & _ & Hmono & _). exists d, (Some p). split; [done|].
      assert (run1 = run) as -> by (destruct Hr1 as (l1 & A1 & A2); rewrite Hl in A1; injection A1 as <-; congruence).
      split; [done|]. subst o. apply Hmono; [done|lia|unfold under_way; lia].
    - destruct (open_at run Hdec) as (d & E & Hd). exists d, None. split; [done|]. split; [done|]. subst o. cbn. lia. }
  destruct Hopen as (d & p & -> & Hd & Hpo). cbn [mbind outcome_bind].
  destruct (read_at run p d o Hdec Hd) as (d' & -> & Hd'); [subst o; lia..|]. cbn [mbind outcome_bind].
  assert (Hfuture : forall j run' r', (le_nextRun ev < j)%nat -> run_at lanes li j run' -> r' ∈ dr_Requests run' -> k + 1 <= dq_First r').
  { intros j run' r' Hj Hr' Hin'. pose proof (runs_before plan lanes Hlanes _ _ _ _ _ _ _ Hr Hr' Hj Hin Hin') as Hb. unfold before in Hb. lia. }
  destruct (Z.eqb_spec o (dr_LastOrdinal run)) as [E|E].
  - rewrite E in Hd'. rewrite (finish_at run d' Hdec Hd'). cbn [mbind outcome_bind]. eexists. split; [reflexivity|].
    split; cbn [le_lane le_nextRun le_decoder]; [done|apply lookup_lt_Some in Hrun; lia| | |].
    + intros j run' r' Hj Hr' Hin'. destruct (decide (j = le_nextRun ev)) as [->|Hne].
      * assert (run' = run) as -> by (destruct Hr' as (l1 & A1 & A2); rewrite Hl in A1; injection A1 as <-; congruence).
        exact (run_finished li (le_nextRun ev) run r k Hr Htail Hin Hu E r' Hin').
      * specialize (Hp j run' r' ltac:(lia) Hr' Hin'). lia.
    + intros j run' r' Hj Hr' Hin'. apply (Hfuture j run' r'); [lia|done|done].
    + intros run' r' Hr' Hin'. by apply (Hfuture (S (le_nextRun ev)) run' r'); [lia| |].
  - eexists. split; [reflexivity|]. split; cbn [le_lane le_nextRun le_decoder]; [done|done| |done|].
    + intros j run' r' Hj Hr' Hin'. specialize (Hp j run' r' Hj Hr' Hin'). lia.
    + exists run, o. split; [done|]. split; [done|]. split; [subst o; lia|]. split.
      * intros r' k' Hin' Hle Hu'. destruct (run_order _ _ _ _ _ k k' Hr Hin Hin') as [<-|Hle']; [done|done|lia| |]; subst o; [lia|].
        unfold under_way in Hu'. lia.
      * exact (run_unfinished li (le_nextRun ev) run r k Hr Hin Hu E).
Qed.

(** ** Reading the active bindings *)

Hypothesis Htails : forall li ri run, run_at lanes li ri run -> tail_unshared run.
Notation bs := (merge_sort binding_le (lanes_bindings plan 0 lanes)).

Lemma binding_lookup i b : bs !! i = Some b ->
  exists run, run_at lanes (mb_laneIndex b) (mb_runIndex b) run /\ mb_request b ∈ dr_Requests run /\
    b = binding_of plan (mb_laneIndex b) (mb_runIndex b) (mb_request b).
Proof using Type.
  intros Hb. apply list_elem_of_lookup_2 in Hb. rewrite merge_sort_Permutation in Hb.
  apply elem_of_bindings in Hb as (li & ri & run & r & Hr & Hin & ->). by exists run.
Qed.

Lemma lane_unique li j j' run run' r r' k : run_at lanes li j run -> run_at lanes li j' run' -> r ∈ dr_Requests run -> r' ∈ dr_Requests run' ->
  under_way k r -> under_way k r' -> j = j' /\ r = r'.
Proof using Hlanes.
  intros Hr Hr' Hin Hin' Hu Hu'. unfold under_way in *. destruct (Nat.lt_trichotomy j j') as [Hlt|[<-|Hgt]].
  - pose proof (runs_before plan lanes Hlanes _ _ _ _ _ _ _ Hr Hr' Hlt Hin Hin') as Hb. unfold before in Hb. lia.
  - split; [done|]. assert (run' = run) as ->.
    { destruct Hr as (l1 & A1 & A2), Hr' as (l2 & B1 & B2). rewrite A1 in B1. injection B1 as <-. congruence. }
    pose proof (run_at_before plan lanes Hlanes _ _ _ Hr) as Hb. apply list_elem_of_split in Hin as (l1 & l2 & E). rewrite E in *.
    apply elem_of_app in Hin' as [Hin'|[->|Hin']%elem_of_cons]; [|done|].
    + pose proof (StronglySorted_app_1_elem_of _ _ _ r' r Hb Hin' (list_elem_of_here _ _)) as Hbef. unfold before in Hbef. lia.
    + apply StronglySorted_app_1_r in Hb. inversion Hb as [|? ? _ Hf]; subst. rewrite Forall_forall in Hf. specialize (Hf r' Hin'). unfold before in Hf. lia.
  - pose proof (runs_before plan lanes Hlanes _ _ _ _ _ _ _ Hr' Hr Hgt Hin' Hin) as Hb. unfold before in Hb. lia.
Qed.

Lemma binding_unique i i' b b' k : bs !! i = Some b -> bs !! i' = Some b' -> mb_laneIndex b = mb_laneIndex b' ->
  under_way k (mb_request b) -> under_way k (mb_request b') -> i = i'.
Proof using Hlanes Hplan.
  intros Hb Hb' El Hu Hu'. destruct (binding_lookup _ _ Hb) as (run & Hr & Hin & Eb). destruct (binding_lookup _ _ Hb') as (run' & Hr' & Hin' & Eb').
  rewrite <- El in Hr'. destruct (lane_unique _ _ _ _ _ _ _ k Hr Hr' Hin Hin' Hu Hu') as [_ Er].
  assert (Hnd : NoDup (mb_instructionIndex <$> bs)) by (rewrite merge_sort_Permutation; exact (bindings_indexes_distinct plan lanes Hlanes)).
  apply (NoDup_lookup _ i i' (mb_instructionIndex b) Hnd); rewrite list_lookup_fmap; [by rewrite Hb|]. rewrite Hb'. cbn.
  rewrite Eb, Eb'. cbn. by rewrite Er.
Qed.

(** The sample a binding contributes at an output position *)
Definition contribution (k : Z) (i : nat) : StereoPCM16 * Z :=
  match bs !! i with
  | Some b => (content (match pp_Audio plan !! Z.to_nat (mb_instructionIndex b) with Some ins => ra_InputArtifactID ins | None => "" end)
                 (dq_FirstOrdinal (mb_request b) + (k - dq_First (mb_request b))), mb_gainQ31 b)
  | None => (content "" 0, 0)
  end.

Definition pending_lane (pending : list nat) (li : nat) : Prop := exists i b, i ∈ pending /\ bs !! i = Some b /\ mb_laneIndex b = li.

(** While a position is read, the lanes still to be read stand at it, the others behind it. *)
Definition lanes_at (k : Z) (pending : list nat) (evs : list audioLaneEvaluator) : Prop :=
  length evs = length lanes /\
  forall li ev, evs !! li = Some ev -> pending_lane pending li /\ lane_at k li ev \/ ~ pending_lane pending li /\ lane_at (k + 1) li ev.

Lemma read_active_ok k active : forall evs, NoDup active ->
  (forall i, i ∈ active -> exists b, bs !! i = Some b /\ under_way k (mb_request b)) -> lanes_at k active evs ->
  exists evs', read_active bs k active evs = Ok (contribution k <$> active, evs') /\ lanes_at k [] evs'.
Proof using Hplan Hlanes Hdecodable Htails.
  induction active as [|i rest IH]; intros evs Hnd Hall [Hlen Hst]; cbn [read_active]; [by exists evs|].
  apply NoDup_cons in Hnd as [Hni Hnd]. destruct (Hall i (list_elem_of_here _ _)) as (b & Hb & Hu). rewrite Hb.
  destruct (binding_lookup _ _ Hb) as (run & Hr & Hin & Eb).
  assert (Hlt : (mb_laneIndex b < length evs)%nat) by (rewrite Hlen; destruct Hr as (lane & Hl & _); by apply lookup_lt_Some in Hl).
  destruct (lookup_lt_is_Some_2 _ _ Hlt) as [ev Hev]. rewrite Hev.
  assert (Hpend : pending_lane (i :: rest) (mb_laneIndex b)) by (exists i, b; split; [apply list_elem_of_here|done]).
  destruct (Hst _ _ Hev) as [[_ Hat]|[? _]]; [|done].
  destruct (lane_read_ok k _ ev _ run (mb_request b) Hat Hr (Htails _ _ _ Hr) Hin Hu) as (ev' & Hread & Hat').
  rewrite <- Eb in Hread. rewrite Hread. cbn [mbind outcome_bind].
  assert (Hnone : ~ pending_lane rest (mb_laneIndex b)).
  { intros (i' & b' & Hi' & Hb' & El). destruct (Hall i' (list_elem_of_further _ _ _ Hi')) as (b2 & Hb2 & Hu2). rewrite Hb' in Hb2. injection Hb2 as <-.
    apply Hni. by rewrite (binding_unique i i' b b' k). }
  destruct (IH (<[mb_laneIndex b := ev']> evs)) as (evs' & -> & Hdone); [done| | |].
  - intros i' Hi'. apply Hall. by apply list_elem_of_further.
  - split; [by rewrite length_insert|]. intros li e He. destruct (decide (li = mb_laneIndex b)) as [->|Hne].
    + rewrite list_lookup_insert_eq in He by done. injection He as <-. by right.
    + rewrite list_lookup_insert_ne in He by done. destruct (Hst li e He) as [[(i' & b' & Hi' & Hb' & El) Ha]|[Hn Ha]].
      * left. split; [|done]. apply elem_of_cons in Hi' as [->|Hi']; [congruence|]. by exists i', b'.
      * right. split; [|done]. intros (i' & b' & Hi' & Hb' & El). apply Hn. exists i', b'. split; [by apply list_elem_of_further|done].
  - exists evs'. cbn [mbind outcome_bind]. split; [|done]. rewrite fmap_cons. do 2 f_equal. f_equal. unfold contribution. rewrite Hb.
    destruct (request_bound plan lanes Hlanes _ _ _ _ Hr Hin) as (n & c & Hn & Er & Ea & _). pose proof (bound_request plan Hplan _ _ Hn) as [Hx _].
    assert (Eidx : mb_instructionIndex b = dq_InstructionIndex (mb_request b)) by (by rewrite Eb). rewrite Eidx.
    rewrite <- Er in *. rewrite Hx, Nat2Z.id. destruct Hn as (ins & src & r' & (A1 & _) & _ & ->). rewrite A1. cbn in Ea. by rewrite <- Ea.
Qed.

(** ** What is heard *)

(** The reference: at an output sample, each instruction whose timeline range
    covers it contributes the sample of its source that exact time gives, unless
    the proxy starts later, in the order of the plan. *)
Definition heard (k : Z) (i : RenderAudioInstruction) : option (StereoPCM16 * Z) :=
  match audio_inputs (pp_Inputs plan) ∅ !! ra_InputArtifactID i with
  | Some input =>
      if decide (plays i input k) then Some (content (ra_InputArtifactID i) (source_ordinal i input k), gain_of i) else None
  | None => None
  end.
Definition audible (k : Z) : list (StereoPCM16 * Z) := omap (heard k) (pp_Audio plan).

Lemma heard_binding i b k : bs !! i = Some b -> 0 <= k < count -> under_way k (mb_request b) ->
  exists ins, pp_Audio plan !! Z.to_nat (mb_instructionIndex b) = Some ins /\ heard k ins = Some (contribution k i).
Proof using Hplan Hlanes.
  intros Hb Hk Hu. destruct (binding_lookup _ _ Hb) as (run & Hr & Hin & Eb).
  destruct (request_bound plan lanes Hlanes _ _ _ _ Hr Hin) as (n & c & Hn & Er & Ea & _). pose proof (bound_request plan Hplan _ _ Hn) as [Hx _].
  destruct Hn as (ins & src & r' & Hsd & Hreq & ->). pose proof Hsd as (A1 & A2 & _). cbn in Er, Ea, Hx. subst r'.
  assert (Eidx : mb_instructionIndex b = Z.of_nat n) by (rewrite Eb; cbn; done). exists ins. rewrite Eidx, Nat2Z.id. split; [done|].
  destruct (sourced_request plan Hplan _ _ _ _ Hsd Hreq) as [_ [_ Hcov Hord _]]. unfold heard, contribution. rewrite Hb, Eidx, Nat2Z.id, A1.
  rewrite (audio_inputs_sources _ 0 ∅ ∅) by (by rewrite fmap_empty). rewrite lookup_fmap, A2. cbn [fmap option_fmap option_map].
  rewrite decide_True by (by apply Hcov). rewrite Hord. do 3 f_equal. rewrite Eb. cbn. rewrite Hx. unfold gain_at. by rewrite Nat2Z.id, A1.
Qed.

Lemma heard_bound n ins k x : pp_Audio plan !! n = Some ins -> 0 <= k < count -> heard k ins = Some x ->
  exists i b, bs !! i = Some b /\ under_way k (mb_request b) /\ mb_instructionIndex b = Z.of_nat n.
Proof using Hplan Hlanes.
  intros Hn Hk Hh. destruct (pl_instructions _ _ Hlanes n ins Hn) as (src & res & Hsd & Hreq). pose proof Hsd as (_ & A2 & _).
  unfold heard in Hh. rewrite (audio_inputs_sources _ 0 ∅ ∅) in Hh by (by rewrite fmap_empty). rewrite lookup_fmap, A2 in Hh. cbn in Hh.
  case_decide as Hpl; [|done]. pose proof (sourced_request plan Hplan _ _ _ _ Hsd Hreq) as Hres.
  destruct res as [r|]; [|by destruct (Hres k Hk)]. destruct Hres as [Ei [_ Hcov _ _]].
  assert (Hb : bound_to plan n (mkCandidate r (as_inputIndex src) (ra_InputArtifactID ins) (ra_SourceStreamID ins) (ra_Layer ins) (ra_ClipID ins))) by (by exists ins, src, r).
  destruct (bound_run plan lanes Hlanes _ _ Hb) as (li & ri & run & Hrun & Hin & _).
  assert (Hel : binding_of plan li ri r ∈ bs) by (rewrite merge_sort_Permutation; apply elem_of_bindings; by exists li, ri, run, r).
  apply list_elem_of_lookup_1 in Hel as [i Hi]. exists i, (binding_of plan li ri r). split; [done|]. split; [|done]. by apply Hcov.
Qed.

Lemma instruction_at_lookup i b : bs !! i = Some b -> instruction_at bs i = mb_instructionIndex b.
Proof using Type. intros Hb. unfold instruction_at. by rewrite Hb. Qed.

Lemma instruction_at_inj i i' b b' : bs !! i = Some b -> bs !! i' = Some b' -> mb_instructionIndex b = mb_instructionIndex b' -> i = i'.
Proof using Hlanes.
  intros Hb Hb' E. assert (Hnd : NoDup (mb_instructionIndex <$> bs)).
  { rewrite merge_sort_Permutation. exact (bindings_indexes_distinct plan lanes Hlanes). }
  apply (NoDup_lookup _ i i' (mb_instructionIndex b) Hnd); rewrite list_lookup_fmap, ?Hb, ?Hb'; cbn; by rewrite ?E.
Qed.

Lemma positions_sorted active : (forall i, i ∈ active -> exists b, bs !! i = Some b /\ 0 <= mb_instructionIndex b) -> NoDup active ->
  StronglySorted (instruction_le bs) active -> StronglySorted Nat.lt ((fun i => Z.to_nat (instruction_at bs i)) <$> active).
Proof using Hlanes.
  induction active as [|i rest IH]; intros Hall Hnd Hs; [constructor|]. apply NoDup_cons in Hnd as [Hni Hnd].
  inversion Hs as [|? ? Hs' Hf]; subst. rewrite fmap_cons. constructor.
  - apply IH; [|done|done]. intros j Hj. apply Hall. by apply list_elem_of_further.
  - apply Forall_fmap, Forall_forall. intros j Hj. cbn. rewrite Forall_forall in Hf. specialize (Hf j Hj). unfold instruction_le in Hf.
    destruct (Hall i (list_elem_of_here _ _)) as (b & Hb & P0). destruct (Hall j (list_elem_of_further _ _ _ Hj)) as (b' & Hb' & P1).
    rewrite (instruction_at_lookup i b Hb) in *. rewrite (instruction_at_lookup j b' Hb') in *.
    assert (mb_instructionIndex b <> mb_instructionIndex b'); [|lia]. intros E. apply Hni.
    by rewrite (instruction_at_inj i j b b' Hb Hb' E).
Qed.

Lemma binding_index_nonneg i b : bs !! i = Some b -> 0 <= mb_instructionIndex b.
Proof using Hplan Hlanes.
  intros Hb. destruct (binding_lookup _ _ Hb) as (run & Hr & Hin & Eb).
  destruct (request_bound plan lanes Hlanes _ _ _ _ Hr Hin) as (n & c & Hn & Er & _). pose proof (bound_request plan Hplan _ _ Hn) as [Hx _].
  rewrite Eb. cbn. rewrite <- Er, Hx. lia.
Qed.

Lemma active_heard k active next : positioned bs (k + 1) active next -> 0 <= k < count -> contribution k <$> active = audible k.
Proof using Hplan Hlanes.
  intros [_ _ Hd Ha Hs] Hk. replace (k + 1 - 1) with k in Ha by lia. unfold audible.
  rewrite <- (omap_positions (heard k) (pp_Audio plan) 0 ((fun i => Z.to_nat (instruction_at bs i)) <$> active)).
  - assert (Hall : forall i, i ∈ active -> exists b, bs !! i = Some b /\ under_way k (mb_request b)) by (intros i Hi; by apply Ha).
    clear Hd Ha Hs. induction active as [|i rest IH]; [done|]. rewrite !fmap_cons. cbn [omap list_omap].
    destruct (Hall i (list_elem_of_here _ _)) as (b & Hb & Hu). destruct (heard_binding i b k Hb Hk Hu) as (ins & A1 & A2).
    rewrite (instruction_at_lookup i b Hb), Nat.sub_0_r, A1. cbn [mbind option_bind]. rewrite A2. f_equal. apply IH.
    intros j Hj. apply Hall. by apply list_elem_of_further.
  - apply positions_sorted; [|done|done]. intros i Hi. apply Ha in Hi as (b & Hb & _). exists b. split; [done|]. by eapply binding_index_nonneg.
  - intros n ins Hn. cbn. rewrite list_elem_of_fmap. split.
    + intros (i & E & Hi). apply Ha in Hi as (b & Hb & Hu). destruct (heard_binding i b k Hb Hk Hu) as (ins' & A1 & A2).
      rewrite (instruction_at_lookup i b Hb) in E. rewrite <- E, Hn in A1. injection A1 as <-. eauto.
    + intros [x Hx]. destruct (heard_bound n ins k x Hn Hk Hx) as (i & b & Hb & Hu & E). exists i.
      rewrite (instruction_at_lookup i b Hb), E. split; [lia|]. apply Ha. eauto.
  - intros j Hj. apply list_elem_of_fmap in Hj as (i & -> & Hi). apply Ha in Hi as (b & Hb & Hu).
    destruct (heard_binding i b k Hb Hk Hu) as (ins' & A1 & _). apply lookup_lt_Some in A1. rewrite (instruction_at_lookup i b Hb). lia.
Qed.

Lemma bindings_sorted : StronglySorted (fun a b => dq_First (mb_request a) <= dq_First (mb_request b)) bs.
Proof using Type.
  assert (Ht : Transitive binding_le) by (intros x y z; unfold binding_le; lia).
  assert (Hto : Total binding_le) by (intros x y; unfold binding_le; lia).
  pose proof (StronglySorted_merge_sort binding_le (lanes_bindings plan 0 lanes)) as Hs. generalize dependent bs. clear.
  intros l Hs. induction Hs as [|b l Hs IH Hf]; constructor; [done|]. eapply Forall_impl; [exact Hf|]. unfold binding_le. cbn. lia.
Qed.

Lemma bindings_requests : Forall (fun b => 0 <= dq_First (mb_request b) < dq_End (mb_request b)) bs.
Proof using Hplan Hlanes.
  apply Forall_lookup. intros i b Hb. destruct (binding_lookup _ _ Hb) as (run & Hr & Hin & _). apply (request_shape _ _ _ _ Hr Hin).
Qed.

(** At most one binding of a lane sounds at a time. *)
Lemma active_count k active next : positioned bs (k + 1) active next -> (length active <= length lanes)%nat.
Proof using Hplan Hlanes.
  intros [_ _ Hd Ha _]. replace (k + 1 - 1) with k in Ha by lia.
  set (lane_of := fun i => match bs !! i with Some b => mb_laneIndex b | None => 0%nat end).
  rewrite <- (length_fmap lane_of active), <- (length_seq (length lanes) 0). apply submseteq_length, NoDup_submseteq.
  - apply NoDup_fmap_2_strong; [|done]. intros i i' Hi Hi' E. apply Ha in Hi as (b & Hb & Hu). apply Ha in Hi' as (b' & Hb' & Hu').
    unfold lane_of in E. rewrite Hb, Hb' in E. by apply (binding_unique i i' b b' k).
  - intros li Hli. apply list_elem_of_fmap in Hli as (i & -> & Hi). apply Ha in Hi as (b & Hb & _). apply elem_of_seq. unfold lane_of. rewrite Hb.
    destruct (binding_lookup _ _ Hb) as (run & (lane & Hl & _) & _). apply lookup_lt_Some in Hl. lia.
Qed.

(** ** The stream *)

Hypothesis Hcontent : forall a o, stereo_ok (content a o).

Definition state_at (k : Z) (st : audioState) : Prop :=
  positioned bs k (au_active st) (au_next st) /\ length (au_lanes st) = length lanes /\
  forall li ev, au_lanes st !! li = Some ev -> lane_at k li ev.

Lemma state_at_start : state_at 0 (mkAudioState [] 0 ((fun lane => mkEvaluator lane 0 None) <$> lanes)).
Proof using Hplan Hlanes.
  split; [|split]; cbn [au_active au_next au_lanes].
  - apply positioned_start, bindings_requests.
  - by rewrite length_fmap.
  - intros li ev Hev. apply list_lookup_fmap_Some in Hev as (lane & -> & Hl). split; cbn [le_lane le_nextRun le_decoder]; [done|lia|lia| |].
    + intros j run r _ Hr Hin. apply (request_shape _ _ _ _ Hr Hin).
    + intros run r Hr Hin. apply (request_shape _ _ _ _ Hr Hin).
Qed.

Lemma evaluate_sample_ok k st : state_at k st -> 0 <= k < count ->
  exists frame st', evaluate_sample bs k st = Ok (frame, st') /\ mix_frame (audible k) frame /\ state_at (k + 1) st'.
Proof using Hplan Hlanes Hdecodable Htails Hcontent.
  intros (Hpos & Hlen & Hat) Hk. unfold evaluate_sample.
  pose proof (advance_spec bs bindings_sorted bindings_requests k _ _ Hpos) as Hadv.
  destruct (advanceAudioBindings (au_active st) bs (au_next st) k) as [active next].
  pose proof (active_count _ _ _ Hadv) as Hcnt. pose proof (pl_max _ _ Hlanes) as Hmax.
  destruct (Nat.ltb_spec MaximumActiveAudioLayers (length active)); [lia|].
  assert (Hunder : forall i, i ∈ active <-> exists b, bs !! i = Some b /\ under_way k (mb_request b)).
  { intros i. rewrite (po_active _ _ _ _ Hadv). by replace (k + 1 - 1) with k by lia. }
  destruct (read_active_ok k active (au_lanes st)) as (evs & -> & [Hl2 Hdone]); [apply Hadv|intros i Hi; by apply Hunder| |].
  { split; [done|]. intros li ev Hev. specialize (Hat li ev Hev). 
    assert (Hdec : pending_lane active li \/ ~ pending_lane active li).
    { destruct (decide (Exists (fun i => mb_laneIndex <$> bs !! i = Some li) active)) as [He|He].
      - left. apply Exists_exists in He as (i & Hi & Hb). apply fmap_Some in Hb as (b & Hb & ->). by exists i, b.
      - right. intros (i & b & Hi & Hb & El). apply He, Exists_exists. exists i. rewrite Hb. cbn. split; [done|congruence]. }
    destruct Hdec as [Hp|Hp]; [by left|]. right. split; [done|]. apply lane_skip; [done|]. intros j run r Hr Hin Hu. apply Hp.
    assert (Hel : binding_of plan li j r ∈ bs) by (rewrite merge_sort_Permutation; apply elem_of_bindings; by exists li, j, run, r).
    apply list_elem_of_lookup_1 in Hel as [i Hi]. exists i, (binding_of plan li j r). split; [|done]. apply Hunder. eauto. }
  cbn [mbind outcome_bind].
  destruct (mix_samples_ok (contribution k <$> active)) as (frame & -> & Hframe).
  - rewrite length_fmap. unfold MaximumActiveAudioLayers in Hmax. lia.
  - apply Forall_fmap, Forall_forall. intros i Hi. apply Hunder in Hi as (b & Hb & Hu). destruct (heard_binding i b k Hb Hk Hu) as (ins & A1 & A2).
    unfold compose, contribution. cbn beta. rewrite Hb. cbn [fst snd]. split; [apply Hcontent|].
    destruct (binding_lookup _ _ Hb) as (run & _ & _ & ->). cbn. unfold gain_at. case_match eqn:E; [|unfold maximumGainQ31; lia].
    by apply (gain_at_ok plan Hplan _ _ E).
  - cbn [mbind outcome_bind]. eexists _, _. split; [reflexivity|]. rewrite (active_heard k active next Hadv Hk) in Hframe. split; [done|].
    split; [done|]. split; [done|]. intros li ev Hev. cbn in Hev. destruct (Hdone li ev Hev) as [[(i & b & Hi & _) _]|[_ ?]]; [by apply not_elem_of_nil in Hi|done].
Qed.

Lemma evaluate_chunk_ok n : forall k st, state_at k st -> 0 <= k -> k + Z.of_nat n <= count ->
  exists frames st', evaluate_chunk bs n k st = Ok (concat frames, st') /\ length frames = n /\
    (forall j frame, frames !! j = Some frame -> mix_frame (audible (k + Z.of_nat j)) frame) /\ state_at (k + Z.of_nat n) st'.
Proof using Hplan Hlanes Hdecodable Htails Hcontent.
  induction n as [|n IH]; intros k st Hst Hk Hn; cbn [evaluate_chunk].
  { exists [], st. split; [done|]. split; [done|]. split; [by intros j f|]. by replace (k + Z.of_nat 0) with k by lia. }
  destruct (evaluate_sample_ok k st Hst) as (frame & st1 & -> & Hf & Hst1); [lia|]. cbn [mbind outcome_bind].
  destruct (IH (k + 1) st1 Hst1) as (frames & st2 & -> & Hl & Hfs & Hst2); [lia..|]. cbn [mbind outcome_bind].
  exists (frame :: frames), st2. split; [done|]. split; [cbn; lia|]. split.
  - intros [|j] f Hj; [injection Hj as <-; by replace (k + Z.of_nat 0) with k by lia|]. replace (k + Z.of_nat (S j)) with (k + 1 + Z.of_nat j) by lia. by apply Hfs.
  - by replace (k + Z.of_nat (S n)) with (k + 1 + Z.of_nat n) by lia.
Qed.

Definition frames_ok (frames : list (list Z)) : Prop := forall j frame, frames !! j = Some frame -> mix_frame (audible (Z.of_nat j)) frame.

Lemma frames_length frames : frames_ok frames -> length (concat frames) = (4 * length frames)%nat.
Proof using Type.
  intros Hf. assert (Hall : Forall (fun f => length f = 4%nat) frames) by (apply Forall_lookup; intros j f Hj; exact (mix_frame_length _ _ (Hf j f Hj))).
  clear Hf. induction Hall as [|f l Hf _ IH]; [done|]. cbn. rewrite length_app, IH. lia.
Qed.

Lemma evaluate_chunks_ok fuel : forall k st w frames, state_at k st -> 0 <= k <= count -> count < Z.of_nat fuel * 4800 + k - 4800 + 1 ->
  frames_ok frames -> Z.of_nat (length frames) = k -> sw_bytes w = concat frames -> sw_written w = 4 * k -> sw_limit w = 4 * count ->
  exists frames' st' w', evaluate_chunks fuel bs AudioChunkSamples count k st w = Ok (st', w') /\ state_at count st' /\
    frames_ok frames' /\ Z.of_nat (length frames') = count /\ sw_bytes w' = concat frames' /\ sw_written w' = 4 * count.
Proof using Hplan Hlanes Hdecodable Htails Hcontent.
  pose proof (ap_count _ Hplan) as Hcount. unfold AudioChunkSamples.
  induction fuel as [|fuel IH]; intros k st w frames Hst Hk Hfuel Hf Hlen Hb Hw Hlim; [lia|]. cbn [evaluate_chunks].
  destruct (Z.leb_spec count k) as [Hend|Hgo].
  { assert (k = count) as -> by lia. exists frames, st, w. done. }
  set (n := if count - k <? 4800 then count - k else 4800).
  assert (Hn : n = Z.min 4800 (count - k)) by (subst n; destruct (Z.ltb_spec (count - k) 4800); lia). clearbody n.
  destruct (evaluate_chunk_ok (Z.to_nat n) k st Hst) as (more & st1 & -> & Hl & Hfs & Hst1); [lia..|]. cbn [mbind outcome_bind].
  rewrite Z2Nat.id in Hst1 by lia.
  assert (Hf' : frames_ok (frames ++ more)).
  { intros j f [Hj|[Hge Hj]]%lookup_app_Some; [by apply Hf|]. apply Hfs in Hj. by replace (Z.of_nat j) with (k + Z.of_nat (j - length frames)) by lia. }
  assert (Hlm : Z.of_nat (length (concat more)) = 4 * n).
  { pose proof (frames_length _ Hf') as H1. pose proof (frames_length _ Hf) as H2. rewrite concat_app, !length_app in H1. lia. }
  unfold stream_Write. rewrite Hlim, Hw, Hlm. destruct (Z.ltb_spec (4 * count - 4 * k) (4 * n)); [lia|]. cbn [mbind outcome_bind].
  apply (IH (k + n) st1 _ (frames ++ more)); cbn [sw_limit sw_written sw_bytes]; try done; try lia.
  - rewrite length_app. lia.
  - rewrite concat_app. by rewrite Hb.
  - rewrite to_uint64_small by lia. lia.
Qed.

(** At the end of the output no lane has anything left. *)
Lemma state_at_end st : state_at count st -> au_next st = length bs /\ (advanceAudioBindings (au_active st) bs (au_next st) count).1 = [] /\
  forallb lane_idle (au_lanes st) = true.
Proof using Hplan Hlanes.
  intros (Hpos & Hlen & Hat). split; [|split].
  - destruct Hpos as [Hn Hs _ _ _]. destruct (Nat.lt_ge_cases (au_next st) (length bs)) as [Hlt|]; [|lia].
    destruct (lookup_lt_is_Some_2 _ _ Hlt) as [b Hb]. pose proof (Hs _ _ Hb). destruct (binding_lookup _ _ Hb) as (run & Hr & Hin & _).
    pose proof (request_shape _ _ _ _ Hr Hin). lia.
  - pose proof (advance_spec bs bindings_sorted bindings_requests count _ _ Hpos) as Hadv.
    destruct (advanceAudioBindings (au_active st) bs (au_next st) count) as [active next]. cbn.
    destruct active as [|i rest]; [done|]. destruct (proj1 (po_active _ _ _ _ Hadv i) (list_elem_of_here _ _)) as (b & Hb & Hu).
    destruct (binding_lookup _ _ Hb) as (run & Hr & Hin & _). pose proof (request_shape _ _ _ _ Hr Hin). unfold under_way in Hu. lia.
  - apply forallb_forall. intros ev Hin. apply list_elem_of_In, list_elem_of_lookup_1 in Hin as [li Hev]. destruct (Hat li ev Hev) as [Hl Hn _ _ Hnow].
    unfold lane_idle. destruct (le_decoder ev) as [d|].
    { destruct Hnow as (run & o & Hr & _ & _ & _ & (r & Hin & Hlt)). pose proof (request_shape _ _ _ _ Hr Hin). lia. }
    cbn [absent andb]. apply Nat.eqb_eq. destruct (Nat.lt_ge_cases (le_nextRun ev) (length (dl_Runs (le_lane ev)))) as [Hlt|]; [|lia].
    destruct (lookup_lt_is_Some_2 _ _ Hlt) as [run Hrun]. assert (Hr : run_at lanes li (le_nextRun ev) run) by (by exists (le_lane ev)).
    destruct (last_request _ _ _ Hr) as (rs & r & E & _). assert (Hin : r ∈ dr_Requests run) by (rewrite E; apply elem_of_app; right; apply list_elem_of_here).
    pose proof (request_shape _ _ _ _ Hr Hin). specialize (Hnow run r Hr Hin). lia.
Qed.

Lemma stream_exact dp : dp_Lanes dp = lanes ->
  exists frames, audio_stream plan dp = Ok (concat frames) /\ Z.of_nat (length frames) = count /\ frames_ok frames.
Proof using Hplan Hlanes DR Hdecodable Htails Hcontent.
  intros E. pose proof (ap_count _ Hplan) as Hcount. unfold audio_stream. rewrite (compile_bindings plan Hplan lanes Hlanes dp E). cbn [mbind outcome_bind].
  assert (Hexp : expectedAudioStreamBytes plan = Ok (4 * count)).
  { unfold expectedAudioStreamBytes, multiplyUint64. destruct (Z.eqb_spec count 0); [lia|]. cbn [negb andb].
    destruct (Z.ltb_spec ((2 ^ 64 - 1) ÷ count) 4) as [Hq|_].
    { assert (4 <= (2 ^ 64 - 1) ÷ count) by (apply Z.quot_le_lower_bound; lia). lia. }
    rewrite to_uint64_small by lia. cbn [orb]. destruct (Z.eqb_spec (count * 4) 0); [lia|]. f_equal. lia. }
  rewrite Hexp. cbn [mbind outcome_bind]. unfold evaluateAudioStream. rewrite E.
  destruct (evaluate_chunks_ok (Z.to_nat (count / AudioChunkSamples + 2)) 0 (mkAudioState [] 0 ((fun lane => mkEvaluator lane 0 None) <$> lanes))
    (mkWriter (4 * count) 0 []) []) as (frames & st & w & -> & Hst & Hf & Hl & Hb & Hw); try done; [exact state_at_start|lia| |].
  { unfold AudioChunkSamples. pose proof (Z.div_pos count 4800 ltac:(lia) ltac:(lia)). rewrite Z2Nat.id by lia.
    pose proof (Z.div_mod count 4800 ltac:(lia)). pose proof (Z.mod_pos_bound count 4800 ltac:(lia)). lia. }
  cbn [mbind outcome_bind]. destruct (state_at_end st Hst) as (-> & -> & ->). rewrite Nat.eqb_refl. cbn [negb orb guard_or mbind outcome_bind].
  rewrite bool_decide_eq_true_2 by done. cbn [negb guard_or mbind outcome_bind]. rewrite Hw, Z.eqb_refl. cbn [negb]. exists frames. by rewrite Hb.
Qed.
End stream.
