(* ===== verification/EngineSound.v ===== *)
(** The audio the engine writes for an accepted plan: what a run with a shared
    tail does to the evaluator, and, when no run has one, that the stream is
    the mix the plan describes. *)
From stdpp Require Import base list strings gmap sorting.
From Stdlib Require Import ZArith Lia QArith.
From S2P Require Import Prelude GoText Exact Identity Canonical EditModel Timeline EditState EditValidate EditNormalize EditRanges Project RenderContract RenderPlan.
From S2P Require Import RenderSchedule RenderCompile RenderAccept RenderSound EngineLanes EngineDecode EngineAssign EngineAudio EngineMix EngineDecoder EngineBindings EngineStream.
Open Scope Z_scope.

(** * Runs with a shared tail: when a request that is not the last of its run
    reaches the last ordinal of the run, the evaluator finishes the run there,
    and the request after it is refused, whatever the decoders do. *)

Section tails.
Context (plan : RenderPlanPayload) (lanes : list DecodeLane) `{RunDecoder StereoPCM16}.
Hypothesis Hplan : audio_plan_ok plan.
Hypothesis Hlanes : lanes_planned plan lanes.
Notation count := (out_AudioSampleCount (pp_Output plan)).
Notation bs := (merge_sort binding_le (lanes_bindings plan 0 lanes)).

(** Every run whose last ordinal has been read by a request that ended is behind the lane. *)
Definition lane_passed (k : Z) (li : nat) (ev : audioLaneEvaluator) : Prop :=
  lanes !! li = Some (le_lane ev) /\
  forall j run r, run_at lanes li j run -> r ∈ dr_Requests run -> dq_LastOrdinal r = dr_LastOrdinal run -> dq_End r <= k -> (j < le_nextRun ev)%nat.

Definition lanes_passed (k : Z) (evs : list audioLaneEvaluator) : Prop := forall li ev, evs !! li = Some ev -> lane_passed k li ev.

(** What a successful reading of the active bindings does to the lanes *)
Record lanes_advance (k : Z) (active : list nat) (evs evs' : list audioLaneEvaluator) : Prop := mkAdvance {
  ad_length : length evs' = length evs;
  ad_lane : forall li ev ev', evs !! li = Some ev -> evs' !! li = Some ev' -> le_lane ev' = le_lane ev /\ (le_nextRun ev <= le_nextRun ev')%nat;
  ad_ready : forall i b ev, i ∈ active -> bs !! i = Some b -> evs !! mb_laneIndex b = Some ev -> (le_nextRun ev <= mb_runIndex b)%nat;
  ad_tail : forall i b run ev', i ∈ active -> bs !! i = Some b -> run_at lanes (mb_laneIndex b) (mb_runIndex b) run ->
    mb_request b ∈ dr_Requests run -> dq_End (mb_request b) = k + 1 -> dq_LastOrdinal (mb_request b) = dr_LastOrdinal run ->
    evs' !! mb_laneIndex b = Some ev' -> (mb_runIndex b < le_nextRun ev')%nat }.

Lemma lane_read_advances ev b k ev' sample : lane_read ev b k = Ok (ev', sample) ->
  le_lane ev' = le_lane ev /\ mb_runIndex b = le_nextRun ev /\
  exists run, dl_Runs (le_lane ev) !! mb_runIndex b = Some run /\
    (to_uint64 (dq_FirstOrdinal (mb_request b) + k - dq_First (mb_request b)) = dr_LastOrdinal run /\ le_nextRun ev' = S (le_nextRun ev) \/
     to_uint64 (dq_FirstOrdinal (mb_request b) + k - dq_First (mb_request b)) <> dr_LastOrdinal run /\ le_nextRun ev' = le_nextRun ev).
Proof.
  unfold lane_read. destruct (_ || _) eqn:E; [done|]. repeat apply orb_false_iff in E as [E ?]. apply negb_false_iff, Nat.eqb_eq in E.
  destruct (dl_Runs (le_lane ev) !! mb_runIndex b) as [run|]; [|done]. intros Hr.
  apply bind_ok in Hr as (d & _ & Hr). apply bind_ok in Hr as ([d' s] & _ & Hr).
  destruct (Z.eqb_spec (to_uint64 (dq_FirstOrdinal (mb_request b) + k - dq_First (mb_request b))) (dr_LastOrdinal run)).
  - apply bind_ok in Hr as (u & _ & Hr). injection Hr as <- <-. cbn. split; [done|]. split; [done|]. exists run. split; [done|]. by left.
  - injection Hr as <- <-. cbn. split; [done|]. split; [done|]. exists run. split; [done|]. by right.
Qed.

Lemma read_active_advances k active : forall evs samples evs', lanes_passed k evs ->
  read_active bs k active evs = Ok (samples, evs') -> lanes_advance k active evs evs'.
Proof using Hplan Hlanes.
  induction active as [|i rest IH]; intros evs samples evs' Hpass Hr; cbn [read_active] in Hr.
  { injection Hr as <- <-. split; [done| | |].
    - intros li ev ev' H1 H2. rewrite H1 in H2. injection H2 as <-. done.
    - intros i b ev Hi. by apply not_elem_of_nil in Hi.
    - intros i b run ev' Hi. by apply not_elem_of_nil in Hi. }
  destruct (bs !! i) as [b|] eqn:Hb; [|done]. destruct (evs !! mb_laneIndex b) as [ev|] eqn:Hev; [|done].
  apply bind_ok in Hr as ([ev1 s] & Hread & Hr). apply bind_ok in Hr as ([ss evs2] & Hrest & Hr). injection Hr as <- <-.
  apply lane_read_advances in Hread as (E1 & E2 & run & Hrun & E3).
  assert (Hle : (le_nextRun ev <= le_nextRun ev1)%nat) by (destruct E3 as [[_ ->]|[_ ->]]; lia).
  assert (Hpass1 : lanes_passed k (<[mb_laneIndex b := ev1]> evs)).
  { intros li e He. destruct (decide (li = mb_laneIndex b)) as [->|Hne].
    - rewrite list_lookup_insert_eq in He by (by eapply lookup_lt_Some). injection He as <-. destruct (Hpass _ _ Hev) as [P1 P2].
      split; [by rewrite E1|]. intros j run' r Hr Hin Hl He. specialize (P2 j run' r Hr Hin Hl He). lia.
    - rewrite list_lookup_insert_ne in He by done. by apply Hpass. }
  destruct (IH _ _ _ Hpass1 Hrest) as [L A B C]. rewrite length_insert in L.
  assert (Hlook : forall li e, evs !! li = Some e -> exists e1, <[mb_laneIndex b := ev1]> evs !! li = Some e1 /\ le_lane e1 = le_lane e /\
    (le_nextRun e <= le_nextRun e1)%nat).
  { intros li e He. destruct (decide (li = mb_laneIndex b)) as [->|Hne].
    - exists ev1. rewrite list_lookup_insert_eq by (by eapply lookup_lt_Some). rewrite Hev in He. by injection He as <-.
    - exists e. by rewrite list_lookup_insert_ne by done. }
  split; [done| | |].
  - intros li e e' He He'. destruct (Hlook li e He) as (e1 & He1 & F1 & F2). destruct (A li e1 e' He1 He') as [F3 F4]. split; [congruence|lia].
  - intros i' b' e [->|Hi]%elem_of_cons Hb' He.
    + rewrite Hb in Hb'. injection Hb' as <-. rewrite Hev in He. injection He as <-. lia.
    + destruct (Hlook _ e He) as (e1 & He1 & _ & F2). specialize (B i' b' e1 Hi Hb' He1). lia.
  - intros i' b' run' e' [->|Hi]%elem_of_cons Hb' Hr' Hin Hend Hl He'; [|by eapply C].
    rewrite Hb in Hb'. injection Hb' as <-. destruct (Hlook _ ev Hev) as (e1 & He1 & _ & _).
    destruct (Hpass _ _ Hev) as [P1 _]. destruct Hr' as (lane & Q1 & Q2). rewrite P1 in Q1. injection Q1 as <-. rewrite Hrun in Q2. injection Q2 as ->.
    assert (Hr : run_at lanes (mb_laneIndex b) (mb_runIndex b) run') by (by exists (le_lane ev)).
    pose proof (request_shape plan lanes Hplan Hlanes _ _ _ _ Hr Hin) as (S1 & _ & S3 & S4 & S5).
    rewrite list_lookup_insert_eq in He1 by (by eapply lookup_lt_Some). injection He1 as <-.
    rewrite to_uint64_small in E3 by lia. destruct E3 as [[_ E3]|[E3 _]]; [|exfalso; apply E3; lia].
    destruct (A (mb_laneIndex b) ev1 e') as [_ F]; [by rewrite list_lookup_insert_eq by (by eapply lookup_lt_Some)|done|lia].
Qed.

(** A request after one that shared the tail of its run *)
Definition refused (r' : DecodeRequest) : Prop :=
  exists li j run r, run_at lanes li j run /\ r ∈ dr_Requests run /\ r' ∈ dr_Requests run /\ dq_LastOrdinal r = dr_LastOrdinal run /\
    dq_End r <= dq_First r'.

Definition passed_at (k : Z) (st : audioState) : Prop :=
  positioned bs k (au_active st) (au_next st) /\ length (au_lanes st) = length lanes /\ lanes_passed k (au_lanes st).

Lemma evaluate_sample_passes k st frame st' : passed_at k st -> evaluate_sample bs k st = Ok (frame, st') ->
  passed_at (k + 1) st' /\ forall r', refused r' -> dq_First r' <> k.
Proof using Hplan Hlanes.
  intros (Hpos & Hlen & Hpass) He. unfold evaluate_sample in He.
  pose proof (advance_spec bs (bindings_sorted plan lanes) (bindings_requests plan lanes Hplan Hlanes) k _ _ Hpos) as Hadv.
  destruct (advanceAudioBindings (au_active st) bs (au_next st) k) as [active next].
  destruct (MaximumActiveAudioLayers <? length active)%nat; [done|]. apply bind_ok in He as ([ss evs] & Hread & He).
  apply bind_ok in He as (bytes & _ & He). injection He as <- <-.
  assert (Hunder : forall i, i ∈ active <-> exists b, bs !! i = Some b /\ under_way k (mb_request b)).
  { intros i. rewrite (po_active _ _ _ _ Hadv). by replace (k + 1 - 1) with k by lia. }
  destruct (read_active_advances k active _ _ _ Hpass Hread) as [L A B C].
  assert (Hel : forall li j run r, run_at lanes li j run -> r ∈ dr_Requests run -> under_way k r ->
    exists i, i ∈ active /\ bs !! i = Some (binding_of plan li j r)).
  { intros li j run r Hr Hin Hu. assert (Hel : binding_of plan li j r ∈ bs) by (rewrite merge_sort_Permutation; apply elem_of_bindings; by exists li, j, run, r).
    apply list_elem_of_lookup_1 in Hel as [i Hi]. exists i. split; [|done]. apply Hunder. eauto. }
  assert (Hev : forall li, (li < length lanes)%nat -> exists ev, au_lanes st !! li = Some ev) by (intros li Hli; apply lookup_lt_is_Some_2; lia).
  split.
  - split; [done|]. split; [cbn; lia|]. intros li ev' Hev'. cbn in Hev'. destruct (Hev li) as [ev Hev0]; [apply lookup_lt_Some in Hev'; lia|].
    destruct (A li ev ev' Hev0 Hev') as [F1 F2]. destruct (Hpass li ev Hev0) as [P1 P2]. split; [by rewrite F1|].
    intros j run r Hr Hin Hl Hend. destruct (Z.eq_dec (dq_End r) (k + 1)) as [Ee|Ne]; [|specialize (P2 j run r Hr Hin Hl ltac:(lia)); lia].
    pose proof (request_shape plan lanes Hplan Hlanes _ _ _ _ Hr Hin). destruct (Hel li j run r Hr Hin) as (i & Hi & Hb); [unfold under_way; lia|].
    exact (C i _ run ev' Hi Hb Hr Hin Ee Hl Hev').
  - intros r' (li & j & run & r & Hr & Hin & Hin' & Hl & Hle) Ek.
    pose proof (request_shape plan lanes Hplan Hlanes _ _ _ _ Hr Hin'). destruct (Hel li j run r' Hr Hin') as (i & Hi & Hb); [unfold under_way; lia|].
    destruct (Hev li) as [ev Hev0]; [destruct Hr as (lane & Hx & _); by apply lookup_lt_Some in Hx|].
    specialize (B i _ ev Hi Hb Hev0). cbn in B. destruct (Hpass li ev Hev0) as [_ P2]. specialize (P2 j run r Hr Hin Hl ltac:(lia)). lia.
Qed.

Lemma evaluate_chunk_passes n : forall k st bytes st', passed_at k st -> evaluate_chunk bs n k st = Ok (bytes, st') ->
  passed_at (k + Z.of_nat n) st' /\ forall r', refused r' -> ~ k <= dq_First r' < k + Z.of_nat n.
Proof using Hplan Hlanes.
  induction n as [|n IH]; intros k st bytes st' Hst He; cbn [evaluate_chunk] in He.
  { injection He as <- <-. split; [by replace (k + Z.of_nat 0) with k by lia|]. intros. lia. }
  apply bind_ok in He as ([b1 st1] & H1 & He). apply bind_ok in He as ([b2 st2] & H2 & He). injection He as <- <-.
  apply evaluate_sample_passes in H1 as [P1 R1]; [|done]. apply IH in H2 as [P2 R2]; [|done].
  split; [by replace (k + Z.of_nat (S n)) with (k + 1 + Z.of_nat n) by lia|]. intros r' Hr. specialize (R1 r' Hr). specialize (R2 r' Hr). lia.
Qed.

Lemma evaluate_chunks_pass fuel : forall k st w st' w', passed_at k st -> 0 <= k ->
  evaluate_chunks fuel bs AudioChunkSamples count k st w = Ok (st', w') -> forall r', refused r' -> ~ k <= dq_First r' < count.
Proof using Hplan Hlanes.
  unfold AudioChunkSamples. induction fuel as [|fuel IH]; intros k st w st' w' Hst Hk He r' Hr; cbn [evaluate_chunks] in He; [done|].
  destruct (Z.leb_spec count k); [lia|]. set (n := if count - k <? 4800 then count - k else 4800) in He.
  assert (Hn : 0 < n) by (subst n; destruct (Z.ltb_spec (count - k) 4800); lia). clearbody n.
  apply bind_ok in He as ([b1 st1] & H1 & He). apply bind_ok in He as (w1 & _ & He).
  apply evaluate_chunk_passes in H1 as [P1 R1]; [|done]. rewrite Z2Nat.id in P1, R1 by lia.
  pose proof (IH _ _ _ _ _ P1 ltac:(lia) He r' Hr). specialize (R1 r' Hr). lia.
Qed.

(** A shared tail leaves a request that is refused. *)
Lemma shared_tail_refused li j run rs r r' rs' : run_at lanes li j run -> dr_Requests run = rs ++ r :: r' :: rs' ->
  dq_LastOrdinal r = dr_LastOrdinal run -> refused r'.
Proof using Hlanes.
  intros Hr E Hl. exists li, j, run, r. split; [done|]. rewrite E.
  split; [apply elem_of_app; right; apply list_elem_of_here|].
  split; [apply elem_of_app; right; apply list_elem_of_further, list_elem_of_here|]. split; [done|].
  pose proof (run_at_before plan lanes Hlanes _ _ _ Hr) as Hb. rewrite E in Hb. apply StronglySorted_app_1_r in Hb.
  inversion Hb as [|? ? _ Hf]; subst. apply Forall_cons in Hf as [Hf _]. exact Hf.
Qed.

Lemma stream_refused dp r' : dp_Lanes dp = lanes -> refused r' -> is_ok (audio_stream plan dp) = false.
Proof using Hplan Hlanes.
  intros E Hr. destruct (audio_stream plan dp) as [bytes| |] eqn:Hs; [exfalso|done|done].
  unfold audio_stream in Hs. rewrite (compile_bindings plan Hplan lanes Hlanes dp E) in Hs. cbn [mbind outcome_bind] in Hs.
  apply bind_ok in Hs as (expected & _ & Hs). apply bind_ok in Hs as (w & Hs & _). unfold evaluateAudioStream in Hs. rewrite E in Hs.
  apply bind_ok in Hs as ([st w1] & Hs & _).
  eapply evaluate_chunks_pass in Hs; [|split; [exact (positioned_start bs (bindings_requests plan lanes Hplan Hlanes))|split; cbn [au_lanes]; [by rewrite length_fmap|]]|lia|exact Hr].
  - apply Hs. destruct Hr as (li & j & run & r & Hrun & _ & Hin & _). pose proof (request_shape plan lanes Hplan Hlanes _ _ _ _ Hrun Hin). lia.
  - intros li ev Hev. apply list_lookup_fmap_Some in Hev as (lane & -> & Hl). split; [done|]. intros j run r0 Hrun Hin _ Hend.
    pose proof (request_shape plan lanes Hplan Hlanes _ _ _ _ Hrun Hin). lia.
Qed.
End tails.

(** * The audio of a valid plan: what the engine writes is what the plan says, and
    the one case in which the evaluator refuses an accepted plan. *)


(** The integers of the times of a plan are in their ranges. *)
Record engine_typed (plan : RenderPlanPayload) : Prop := mkEngineTyped {
  et_plan : plan_typed plan;
  et_audio : Forall audio_instruction_typed (pp_Audio plan);
  et_inputs : Forall (fun i => match in_Audio i with Some a => rt_typed (ai_SourceStart a) | None => True end) (pp_Inputs plan) }.

Lemma published_inputs_all profile source : forall previous result inputs, published_inputs profile source previous result = Ok inputs ->
  Forall (fun i => published_input_ok profile i = true) source.
Proof.
  induction source as [|i rest IH]; intros previous result inputs Hr; cbn [published_inputs] in Hr; [constructor|].
  destruct (negb _ || _) eqn:E; [done|]. apply orb_false_iff in E as [_ E]. apply negb_false_iff in E. constructor; [done|by eapply IH].
Qed.

Lemma ceilRenderCount_pos d r n : ceilRenderCount d r = Ok n -> 0 < n.
Proof.
  unfold ceilRenderCount. destruct (_ || _); [done|]. cbv zeta.
  match goal with |- context [is_uint64 ?q] => destruct (is_uint64 q) eqn:U; [|done]; set (quotient := q) in * end. cbn [negb].
  apply is_uint64_spec in U. unfold NewUInt64. destruct (_ <? _); [done|]. destruct (Z.eqb_spec quotient 0); [done|]. intros [= <-]. lia.
Qed.

Lemma output_sample_count plan profile output : plan_kind (pp_Purpose plan) profile output -> forall out,
  output (pp_SequenceFormat plan) (pp_Duration plan) = Ok out -> 0 < out_AudioSampleCount out <= MaximumPreviewAudioSamples.
Proof.
  intros [(_ & _ & ->)|(_ & _ & ->)] out Ho.
  - unfold SequencePreviewOutput in Ho. apply bind_ok in Ho as ([w h] & _ & Ho). apply bind_ok in Ho as (v & _ & Ho).
    apply bind_ok in Ho as (a & Ha & Ho). destruct (_ || _) eqn:E; [done|]. apply orb_false_iff in E as [_ E]. injection Ho as <-. cbn.
    apply ceilRenderCount_pos in Ha. lia.
  - unfold SequenceExportOutput in Ho. apply bind_ok in Ho as (u & _ & Ho). apply bind_ok in Ho as (c & _ & Ho).
    apply bind_ok in Ho as (u' & _ & Ho). apply bind_ok in Ho as (v & _ & Ho).
    apply bind_ok in Ho as (a & Ha & Ho). apply or_fail_ok in Ha. destruct (_ || _) eqn:E; [done|]. apply orb_false_iff in E as [_ E].
    injection Ho as <-. cbn. apply ceilRenderCount_pos in Ha. lia.
Qed.

Section valid.
Context `{Platform} (plan : RenderPlanPayload).
Hypothesis Ht : engine_typed plan.
Hypothesis Hv : ValidateRenderPlanPayload plan = Ok tt.

Lemma valid_kind : exists profile output, plan_kind (pp_Purpose plan) profile output /\ validateRenderPlanPayload plan profile output = Ok tt /\
  (profile = SourceProxyProfile \/ profile = RenderInputProfile).
Proof using Hv.
  destruct (pp_Purpose plan) eqn:E.
  - exists SourceProxyProfile, SequencePreviewOutput. assert (K : plan_kind (pp_Purpose plan) SourceProxyProfile SequencePreviewOutput) by (left; by rewrite E).
    rewrite <- E. split; [done|]. split; [|by left]. by rewrite <- (validate_kind plan _ _ K).
  - exists RenderInputProfile, SequenceExportOutput. assert (K : plan_kind (pp_Purpose plan) RenderInputProfile SequenceExportOutput) by (right; by rewrite E).
    rewrite <- E. split; [done|]. split; [|by right]. by rewrite <- (validate_kind plan _ _ K).
  - unfold ValidateRenderPlanPayload in Hv. by rewrite E in Hv.
Qed.

Lemma valid_inputs : exists profile, (profile = SourceProxyProfile \/ profile = RenderInputProfile) /\
  Forall (fun i => published_input_ok profile i = true) (pp_Inputs plan).
Proof using Hv Ht.
  destruct valid_kind as (profile & output & _ & Hval & Hp). exists profile. split; [done|].
  destruct (validated_parts plan profile output (et_plan _ Ht) Hval) as (inputs & fonts & d1 & u1 & d2 & u2 & d3 & Hi & _).
  by eapply published_inputs_all.
Qed.

Lemma valid_audio_plan : audio_plan_ok plan.
Proof using Hv Ht.
  destruct valid_kind as (profile & output & Hk & Hval & _).
  destruct (validated_parts plan profile output (et_plan _ Ht) Hval) as (inputs & fonts & d1 & u1 & d2 & u2 & d3 & Hi & _ & _ & H2 & _).
  unfold validatePublishedRenderAudio in H2.
  apply publish_loop_scheduled in H2 as (C2 & _); [|reflexivity|apply audio_range_played|apply (et_plan _ Ht)|exact zero_start_valid|by intros ? ? ?%lookup_empty_Some|done].
  unfold validateRenderPlanPayload in Hval. apply bind_ok in Hval as ([] & Hg & Hval). apply guard_or_ok in Hg. apply negb_true_iff in Hg.
  apply bind_ok in Hval as (out & Ho & Hval). apply or_fail_ok in Ho. apply bind_ok in Hval as ([] & Hout & _). apply guard_or_ok, bool_decide_eq_true in Hout.
  repeat apply orb_false_iff in Hg as [Hg ?].
  assert (Hlen : forall n, (MaximumRenderPlanItems <? n)%nat = false -> Z.of_nat n <= 65536).
  { intros n Hn. apply Nat.ltb_ge in Hn. unfold MaximumRenderPlanItems in Hn. lia. }
  split.
  - rewrite Hout. pose proof (output_sample_count plan profile output Hk out Ho). unfold MaximumPreviewAudioSamples in *. lia.
  - by apply Hlen.
  - by apply Hlen.
  - apply Ht.
  - intros input audio Hin Ha. pose proof (et_inputs _ Ht) as Hs. rewrite Forall_forall in Hs. specialize (Hs input Hin). cbn in Hs. rewrite Ha in Hs.
    split; [done|]. apply published_inputs_all in Hi. rewrite Forall_forall in Hi. specialize (Hi input Hin). unfold published_input_ok in Hi.
    rewrite Ha in Hi. cbn [nil_or] in Hi. apply andb_true_iff in Hi as [_ Hi]. unfold validatePublishedRenderAudioInput in Hi.
    match type of Hi with is_ok (guard_or _ ?b) = true => destruct b eqn:E; [|done] end. apply negb_true_iff in E.
    apply orb_false_iff in E as [_ E]. by apply Z.ltb_ge in E.
  - eapply Forall_impl; [exact C2|]. intros i Hok. unfold published_audio_ok in Hok.
    destruct (inputs !! ra_InputArtifactID i) as [input|]; [|done]. destruct (in_Audio input); [|done].
    apply andb_true_iff in Hok as [Hok _]. apply negb_true_iff in Hok. repeat apply orb_false_iff in Hok as [Hok ?]. lia.
Qed.
End valid.

(** ** Samples of accepted plans *)

(** Two audio tracks over one proxy of ten seconds: a clip of a hundredth of a
    second on each, the second one half over *)
Definition hundredth (tail track : string) (start timeline length : RationalTime) : ClipState :=
  mkClip (sample_id tail) 1 (sample_id "03") (sample_id track) (sample_id "21") (sample_id "22")
    (mkRange start length) (mkRange timeline length) true None None false.

Definition duet_sequence : Sequence :=
  mkSequence (sample_id "03") 5 "main" "main" DefaultSequenceFormat
    [mkProjectTrack (sample_id "12") 1 TrackAudio "A1" "a1"; mkProjectTrack (sample_id "13") 1 TrackAudio "A2" "a2"].

Definition audio_input_of (clips : list ClipState) : CompileRenderPlanInput :=
  mkCompileInput (sample_id "01") 7 duet_sequence clips []
    (Some {[ sample_id "21" := mkAssetSnapshot (sample_id "21") 2 zero_digest "available" ]})
    ((fun c => RenderPlan.mkBinding (clip_ID c) show_artifact show_material) <$> clips) None.

Definition duet_clips : list ClipState :=
  [hundredth "30" "12" (mkTime 0 1) (mkTime 0 1) (mkTime 1 100); hundredth "31" "13" (mkTime 1 50) (mkTime 1 200) (mkTime 1 100)].

(** A clip followed by a clip of one sample that repeats its last one *)
Definition echo_clips : list ClipState :=
  [hundredth "30" "12" (mkTime 0 1) (mkTime 0 1) (mkTime 1 100);
   hundredth "31" "12" (mkTime 479 48000) (mkTime 1 100) (mkTime 1 48000)].

Definition compiled_payload (input : CompileRenderPlanInput) : option RenderPlanPayload :=
  match @CompileSequencePreviewPlan sample_platform input with Ok c => Some (plan_Payload (cp_Plan c)) | _ => None end.

Lemma lanes_run dp lane run : lane ∈ dp_Lanes dp -> run ∈ dl_Runs lane -> exists li ri, run_at (dp_Lanes dp) li ri run.
Proof.
  intros Hl Hr. apply list_elem_of_lookup_1 in Hl as [li Hl]. apply list_elem_of_lookup_1 in Hr as [ri Hr]. exists li, ri. by exists lane.
Qed.

Lemma tail_unshared_check run : forallb (fun r => dq_LastOrdinal r <? dr_LastOrdinal run) (removelast (dr_Requests run)) = true -> tail_unshared run.
Proof.
  intros Hf rs r r' rs' E. rewrite E in Hf. rewrite removelast_app in Hf by done. rewrite forallb_app in Hf. apply andb_true_iff in Hf as [_ Hf].
  change (removelast (r :: r' :: rs')) with (r :: removelast (r' :: rs')) in Hf. cbn [forallb] in Hf. apply andb_true_iff in Hf as [Hf _]. lia.
Qed.

(** The artifacts of a plan decode to the samples the plan declares for them. *)
Definition media_decodes `{MediaChild} (plan : RenderPlanPayload) : Prop :=
  forall input audio, input ∈ pp_Inputs plan -> in_Audio input = Some audio -> artifact_decodes (in_ArtifactID input) (ai_DecodedSampleCount audio).

Lemma to_int16_ok z : int16_ok (to_int16 z).
Proof. unfold int16_ok, to_int16. pose proof (Z.mod_pos_bound (z + 2 ^ 15) (2 ^ 16) ltac:(lia)). lia. Qed.

Lemma planned_runs_decodable `{Platform} `{MediaChild} plan lanes : engine_typed plan -> ValidateRenderPlanPayload plan = Ok tt -> media_decodes plan ->
  lanes_planned plan lanes -> forall li ri run, run_at lanes li ri run -> run_decodable plan run.
Proof.
  intros Ht Hv Hd Hl li ri run Hr. pose proof (valid_audio_plan plan Ht Hv) as Hp.
  split; [exact (run_validated plan Hp lanes Hl li ri run Hr)|].
  destruct (run_source plan Hp lanes Hl _ _ _ Hr) as (input & src & Hi & _ & Ha & Hs & Hau & Hst).
  destruct (last_request plan lanes Hl _ _ _ Hr) as (rs & r & E & El).
  assert (Hin : r ∈ dr_Requests run) by (rewrite E; apply elem_of_app; right; apply list_elem_of_here).
  pose proof (request_shape plan lanes Hp Hl _ _ _ _ Hr Hin) as (S1 & S2 & S3 & S4 & _). split; [lia|].
  exists input, (as_input src). split; [done|]. split; [done|].
  assert (Hel : input ∈ pp_Inputs plan) by (by apply list_elem_of_lookup_2 with (Z.to_nat (dr_InputIndex run))). split; [|split].
  - destruct (valid_inputs plan Ht Hv) as (profile & Hprof & Hall). rewrite Forall_forall in Hall. specialize (Hall input Hel). unfold published_input_ok in Hall.
    apply andb_true_iff in Hall as [Hall _]. apply andb_true_iff in Hall as [Hall _]. apply negb_true_iff in Hall.
    repeat apply orb_false_iff in Hall as [Hall ?].
    match goal with HP : negb (bool_decide (in_Profile input = profile)) = false |- _ => apply negb_false_iff, bool_decide_eq_true in HP; by rewrite HP end.
  - destruct (request_bound plan lanes Hl _ _ _ _ Hr Hin) as (n & c & (i & src' & r' & Hsd & Hreq & ->) & Er & Ea & _). cbn in Er, Ea. subst r'.
    destruct (sourced_request plan Hp _ _ _ _ Hsd Hreq) as [_ [_ _ _ Ho]]. destruct Hsd as (_ & Hs' & _). rewrite Ea, Hs in Hs'. injection Hs' as <-. lia.
  - rewrite <- Ha. exact (Hd input (as_input src) Hel Hau).
Qed.

(** What the evaluator writes when no run has a shared tail *)
Lemma unshared_stream `{Platform} `{MediaChild} (plan : RenderPlanPayload) (limit : Z) (dp : DecodePlan)
    (Ht : engine_typed plan) (Hv : ValidateRenderPlanPayload plan = Ok tt) (Hd : media_decodes plan)
    (Hp : CompileAudioDecodePlan plan limit = Ok dp)
    (Hu : forall lane run, lane ∈ dp_Lanes dp -> run ∈ dl_Runs lane -> tail_unshared run) :
  exists frames, audio_stream (H := pcm_decoder plan) plan dp = Ok (concat frames) /\
    Z.of_nat (length frames) = out_AudioSampleCount (pp_Output plan) /\
    forall k frame, frames !! k = Some frame -> mix_frame (audible plan child_sample (Z.of_nat k)) frame.
Proof.
  pose proof (valid_audio_plan plan Ht Hv) as Hplan. pose proof (plan_lanes_planned plan Hplan limit dp Hp) as Hl.
  apply (stream_exact plan (dp_Lanes dp) Hplan Hl child_sample (run_decodable plan) (RD := pcm_decoder plan)).
  - by apply planned_runs_decodable.
  - intros li ri run (lane & El & Er). apply (Hu lane); [by apply list_elem_of_lookup_2 with li|by apply list_elem_of_lookup_2 with ri].
  - intros a o. split; apply to_int16_ok.
  - done.
Qed.

(** Whether a run has a shared tail can be seen. *)
#[export] Instance tail_unshared_dec run : Decision (tail_unshared run).
Proof.
  destruct (forallb (fun r => dq_LastOrdinal r <? dr_LastOrdinal run) (removelast (dr_Requests run))) eqn:E; [left; by apply tail_unshared_check|right].
  intros Hu. assert (forallb (fun r => dq_LastOrdinal r <? dr_LastOrdinal run) (removelast (dr_Requests run)) = true) as Ht; [|congruence].
  apply forallb_forall. intros r (rs & rest & Hs)%in_split. apply Z.ltb_lt.
  destruct (dr_Requests run) as [|x0 l0] eqn:El; [by destruct rs|].
  pose proof (app_removelast_last x0 (l := x0 :: l0) ltac:(done)) as Hl. rewrite Hs, <- app_assoc in Hl. unfold tail_unshared in Hu. rewrite El in Hu.
  destruct rest as [|r' rest]; cbn in Hl; [by eapply (Hu rs r (List.last (x0 :: l0) x0) [])|by eapply (Hu rs r r' (rest ++ [List.last (x0 :: l0) x0]))].
Defined.

(** A shared tail stops the audio.  If in a run of an accepted decode plan a
    request that is not the last reaches the last ordinal of the run, the
    evaluator fails on the plan, whatever the decoders do: it finishes a run when
    its last ordinal is read, and the requests that repeat that ordinal are then
    refused. *)
Theorem audio_shared_tail_refused `{Platform} `{RunDecoder StereoPCM16} (plan : RenderPlanPayload) (limit : Z) (dp : DecodePlan)
    (lane : DecodeLane) (run : DecodeRun) (rs rs' : list DecodeRequest) (r r' : DecodeRequest)
    (Ht : engine_typed plan) (Hv : ValidateRenderPlanPayload plan = Ok tt) (Hp : CompileAudioDecodePlan plan limit = Ok dp)
    (Hl : lane ∈ dp_Lanes dp) (Hr : run ∈ dl_Runs lane) (Hs : dr_Requests run = rs ++ r :: r' :: rs')
    (Htail : dq_LastOrdinal r = dr_LastOrdinal run) :
  is_ok (audio_stream plan dp) = false.
Proof.
  pose proof (valid_audio_plan plan Ht Hv) as Hplan. pose proof (plan_lanes_planned plan Hplan limit dp Hp) as Hpl.
  destruct (lanes_run dp lane run Hl Hr) as (li & ri & Hrun).
  apply (stream_refused plan (dp_Lanes dp) Hplan Hpl dp r' eq_refl). by apply (shared_tail_refused plan (dp_Lanes dp) Hpl li ri run rs r r' rs').
Qed.

Lemma shared_tail_exists run : (forall r, r ∈ dr_Requests run -> dq_LastOrdinal r <= dr_LastOrdinal run) -> ~ tail_unshared run ->
  exists rs r r' rs', dr_Requests run = rs ++ r :: r' :: rs' /\ dq_LastOrdinal r = dr_LastOrdinal run.
Proof.
  intros Hmax Hno. destruct (forallb (fun r => dq_LastOrdinal r <? dr_LastOrdinal run) (removelast (dr_Requests run))) eqn:E;
    [by apply tail_unshared_check in E|].
  assert (exists r, In r (removelast (dr_Requests run)) /\ (dq_LastOrdinal r <? dr_LastOrdinal run) = false) as (r & Hin & Hr).
  { clear -E. induction (removelast (dr_Requests run)) as [|x l IH]; [discriminate|]. cbn in E. apply andb_false_iff in E as [E|E]; [exists x; by split; [left|]|].
    destruct (IH E) as (r & Hin & Hr). exists r. by split; [right|]. }
  apply in_split in Hin as (rs & rest & Hs).
  destruct (dr_Requests run) as [|x0 l0] eqn:El; [by destruct rs|]. rewrite (app_removelast_last x0 (l := x0 :: l0)) in Hmax |- * by done. rewrite Hs in *.
  exists rs, r. destruct rest as [|r' rest]; [exists (List.last (x0 :: l0) x0), []|exists r', (rest ++ [List.last (x0 :: l0) x0])];
    (split; [by rewrite <- app_assoc|]); apply Z.ltb_ge in Hr; (assert (dq_LastOrdinal r <= dr_LastOrdinal run) by (apply Hmax; set_solver)); lia.
Qed.

(** C31: The audio of a valid plan is rendered exactly.  Let the decode plan of a
    valid plan be accepted, and let its artifacts decode to the samples they
    declare.  The evaluator succeeds exactly when no run has a shared tail, and
    then it writes one stereo frame for every output sample: the frame at sample k
    is the sum, rounded half to even and limited to 16 bits, of the source samples
    that exact time assigns to k, times the gains of their clips, over precisely
    the audio clips whose timeline range covers k and whose proxy has started. *)
Theorem audio_stream_exact `{Platform} `{MediaChild} (plan : RenderPlanPayload) (limit : Z) (dp : DecodePlan)
    (Ht : engine_typed plan) (Hv : ValidateRenderPlanPayload plan = Ok tt) (Hd : media_decodes plan)
    (Hp : CompileAudioDecodePlan plan limit = Ok dp) :
  (is_ok (audio_stream (H := pcm_decoder plan) plan dp) = true <-> forall lane run, lane ∈ dp_Lanes dp -> run ∈ dl_Runs lane -> tail_unshared run) /\
  forall bytes, audio_stream (H := pcm_decoder plan) plan dp = Ok bytes -> exists frames, bytes = concat frames /\
    Z.of_nat (length frames) = out_AudioSampleCount (pp_Output plan) /\
    forall k frame, frames !! k = Some frame -> mix_frame (audible plan child_sample (Z.of_nat k)) frame.
Proof.
  assert (is_ok (audio_stream (H := pcm_decoder plan) plan dp) = true -> forall lane run, lane ∈ dp_Lanes dp -> run ∈ dl_Runs lane -> tail_unshared run) as Hno.
  { intros Hok lane run Hl Hr. destruct (tail_unshared_dec run) as [Hu|Hu]; [done|]. apply shared_tail_exists in Hu as (rs & r & r' & rs' & Es & Etail).
    - by rewrite (audio_shared_tail_refused plan limit dp lane run rs rs' r r' Ht Hv Hp Hl Hr Es Etail) in Hok.
    - destruct (lanes_run dp lane run Hl Hr) as (li & ri & Hrun). intros x Hx.
      pose proof (valid_audio_plan plan Ht Hv) as Hplan. exact (run_last_max plan (dp_Lanes dp) (plan_lanes_planned plan Hplan limit dp Hp) li ri run x Hrun Hx). }
  split; [split; [exact Hno|]|].
  - intros Hu. by destruct (unshared_stream plan limit dp Ht Hv Hd Hp Hu) as (frames & -> & _).
  - intros bytes Hb. assert (is_ok (audio_stream (H := pcm_decoder plan) plan dp) = true) as Hok by (by rewrite Hb).
    destruct (unshared_stream plan limit dp Ht Hv Hd Hp (Hno Hok)) as (frames & Hf & Hl & Hm). rewrite Hb in Hf. injection Hf as ->. by exists frames.
Qed.

(** Media that decode to silence, of the length the sample artifact declares *)
Definition silent_media : MediaChild := {| child_stdout := fun _ => replicate (Z.to_nat 1920000) 0; child_fails := fun _ => false |}.

Ltac solve_typed := repeat constructor; vm_compute; congruence.

Definition duet_plan : RenderPlanPayload.
Proof. let x := eval vm_compute in (compiled_payload (audio_input_of duet_clips)) in match x with Some ?p => exact p end. Defined.
Definition duet_decode : DecodePlan.
Proof. let x := eval vm_compute in (CompileAudioDecodePlan duet_plan MaximumDecodedAudioSamples) in match x with Ok ?p => exact p end. Defined.
Definition echo_plan : RenderPlanPayload.
Proof. let x := eval vm_compute in (compiled_payload (audio_input_of echo_clips)) in match x with Some ?p => exact p end. Defined.
Definition echo_decode : DecodePlan.
Proof. let x := eval vm_compute in (CompileAudioDecodePlan echo_plan MaximumDecodedAudioSamples) in match x with Ok ?p => exact p end. Defined.

Lemma silent_decodes : @media_decodes silent_media duet_plan.
Proof.
  intros input audio Hin Ha. apply list_elem_of_singleton in Hin as ->. injection Ha as <-. split; [reflexivity|].
  unfold silent_media. cbn [child_stdout]. rewrite length_replicate. cbn [ai_DecodedSampleCount]. lia.
Qed.

Lemma duet_unshared lane run : lane ∈ dp_Lanes duet_decode -> run ∈ dl_Runs lane -> tail_unshared run.
Proof.
  intros Hl Hr. apply tail_unshared_check.
  assert (Hall : forallb (fun lane => forallb (fun run => forallb (fun r => dq_LastOrdinal r <? dr_LastOrdinal run) (removelast (dr_Requests run))) (dl_Runs lane))
    (dp_Lanes duet_decode) = true) by (vm_compute; reflexivity).
  rewrite forallb_forall in Hall. specialize (Hall lane (proj1 (list_elem_of_In _ _) Hl)). rewrite forallb_forall in Hall.
  exact (Hall run (proj1 (list_elem_of_In _ _) Hr)).
Qed.

Lemma duet_typed : engine_typed duet_plan.
Proof. split; [solve_typed|solve_typed|solve_typed]. Qed.
Lemma echo_typed : engine_typed echo_plan.
Proof. split; [solve_typed|solve_typed|solve_typed]. Qed.

Lemma audio_stream_exact_witness : compiled_payload (audio_input_of duet_clips) = Some duet_plan /\
  exists frames, @audio_stream (@pcm_decoder silent_media duet_plan) duet_plan duet_decode = Ok (concat frames) /\ Z.of_nat (length frames) = 720.
Proof.
  split; [vm_compute; reflexivity|].
  destruct (@audio_stream_exact sample_platform silent_media duet_plan MaximumDecodedAudioSamples duet_decode duet_typed
    ltac:(vm_compute; reflexivity) silent_decodes ltac:(vm_compute; reflexivity)) as [[_ Hok] Hexact].
  specialize (Hok duet_unshared). destruct (@audio_stream (@pcm_decoder silent_media duet_plan) duet_plan duet_decode) as [bytes| |]; [|discriminate Hok..].
  destruct (Hexact bytes eq_refl) as (frames & Hf & Hl & _). exists frames. split; [by rewrite Hf|exact Hl].
Defined.

Lemma audio_shared_tail_refused_witness : compiled_payload (audio_input_of echo_clips) = Some echo_plan /\
  is_ok (@audio_stream (@pcm_decoder silent_media echo_plan) echo_plan echo_decode) = false.
Proof.
  split; [vm_compute; reflexivity|].
  eapply (@audio_shared_tail_refused sample_platform (@pcm_decoder silent_media echo_plan) echo_plan MaximumDecodedAudioSamples echo_decode) with (rs := []).
  - exact echo_typed.
  - vm_compute. reflexivity.
  - vm_compute. reflexivity.
  - apply list_elem_of_here.
  - apply list_elem_of_here.
  - reflexivity.
  - reflexivity.
Defined.
