(* ===== verification/Database.v ===== *)
(** The database of the API ([apps/api/repository] and its migrations): the
    tables that editing reads and writes, SQL statements as operations on them,
    and transactions.

    A table is a map from primary keys to rows; a row holds the columns that the
    modelled code reads or writes.  Columns of JSON text hold the value they
    were marshalled from.  Rows of a dependent table that belong to one parent
    (targets of an alignment, segments of a correction, the derivation of a
    caption) are one value under the parent's key, in the order of their
    ordinals.  A write fails when its primary key is taken, and whenever
    [refuses] says so: [SQLite] stands for the foreign keys, checks and unique
    indexes of the schema and for failures of the engine, of which nothing is
    assumed.  Reads do not fail.  Times at which rows were written, and the
    command receipts derived from activity, are left out. *)
From stdpp Require Import base list strings gmap sorting.
From Stdlib Require Import ZArith Lia.
From S2P Require Import Prelude GoText Exact Identity Canonical EditModel Timeline EditState EditNormalize.
Open Scope Z_scope.

(** ** Errors *)

(** [ErrNoRows] is [sql.ErrNoRows] passed on; [ErrStored] an error made by
    parsing a stored value; [ErrStatement] a statement or commit the engine
    refuses. *)
Inductive repo_error :=
| RepoEdit (e : edit_error) | ErrEditRequestReused | ErrEditStaleTurn | ErrProposalNotFound | ErrProposalStale
| ErrProposalTerminal | ErrTransactionNotFound | ErrProjectNotFound | ErrProjectNotActive | ErrRunNotFound
| ErrNoRows | ErrStored | ErrStatement.
#[export] Instance repo_error_eq_dec : EqDecision repo_error.
Proof. solve_decision. Defined.

Definition repo_invalid : repo_error := RepoEdit ErrEditInvalid.
Definition repo_conflict : repo_error := RepoEdit ErrEditConflict.

Definition from_edit {A} (r : outcome edit_error A) : outcome repo_error A :=
  match r with Ok a => Ok a | Fail e => Fail (RepoEdit e) | Panic => Panic end.

(** ** Rows *)

Record project_row := mkProjectRow { pr_revision : Z; pr_status : string; pr_narrative_document_id : string; pr_main_sequence_id : string }.

(** A row of [narrative_documents] or [sequences] *)
Record head_row := mkHeadRow { hd_project_id : string; hd_revision : Z }.

Record track_row := mkTrackRow { tk_project_id : string; tk_sequence_id : string; tk_revision : Z; tk_type : TrackType }.

Record asset_row := mkAssetRow {
  asr_project_id : string; asr_revision : Z; asr_accepted_fingerprint : option string; asr_tombstoned : bool }.

(** [descriptor_json] is [None] where its text is not a valid descriptor. *)
Record stream_row := mkStreamRow { sm_asset_id : string; sm_fingerprint : string; sm_descriptor : option SourceStreamDescriptor }.

(** [media_artifacts] of kind transcript joined with [transcript_artifacts] *)
Record transcript_row := mkTranscriptRow {
  ts_project_id : string; ts_asset_id : string; ts_ready : bool; ts_input_fingerprint : string; ts_source_stream_id : string;
  ts_detected_language : string }.

(** [transcript_segments] with the rows of [transcript_tokens] below it *)
Record segment_row := mkSegmentRow {
  sg_artifact_id : string; sg_ordinal : Z; sg_range : TimeRange; sg_text : string; sg_tokens : list TranscriptToken }.

Inductive NarrativeNodeKind :=
| NarrativeNodeSection | NarrativeNodeAuthoredText | NarrativeNodeSourceExcerpt | NarrativeNodeVisualIntent | NarrativeNodeNote.
#[export] Instance NarrativeNodeKind_eq_dec : EqDecision NarrativeNodeKind.
Proof. solve_decision. Defined.

Record node_row := mkNodeRow {
  nr_project_id : string; nr_document_id : string; nr_parent_id : option string; nr_revision : Z; nr_kind : NarrativeNodeKind;
  nr_order_index : Z; nr_tombstoned : bool; nr_last_transaction_id : string }.

Record section_value := mkSectionValue { sv_title : string; sv_language : string }.
Record authored_text_value := mkTextValue { tv_purpose : AuthoredTextPurpose; tv_language : string; tv_text : string }.
Record visual_intent_value := mkIntentValue { iv_purpose : VisualIntentPurpose; iv_language : string; iv_description : string }.
Record note_value := mkNoteValue { nv_language : string; nv_text : string }.
Record source_excerpt_value := mkExcerptValue {
  ev_asset_id : string; ev_accepted_fingerprint : string; ev_source_range : TimeRange; ev_language : string; ev_effective_text : string;
  ev_transcript_artifact_id : string; ev_source_stream_id : string; ev_segments : list string;
  ev_corrections : list TranscriptCorrectionRevisionRef }.

Record correction_row := mkCorrectionRow {
  co_project_id : string; co_asset_id : string; co_artifact_id : string; co_revision : Z; co_source_range : TimeRange;
  co_start_key : string; co_end_key : string; co_replacement_text : string; co_language : string; co_tombstoned : bool;
  co_last_transaction_id : string }.

Record caption_row := mkCaptionRow {
  ca_project_id : string; ca_sequence_id : string; ca_track_id : string; ca_revision : Z; ca_range : TimeRange;
  ca_start_key : string; ca_end_key : string; ca_language : string; ca_text : string; ca_tombstoned : bool;
  ca_last_transaction_id : string }.

Record alignment_row := mkAlignmentRow {
  ag_project_id : string; ag_narrative_node_id : string; ag_narrative_node_revision : Z; ag_sequence_id : string; ag_revision : Z;
  ag_status : AlignmentStatus; ag_last_transaction_id : string }.

Record clip_row := mkClipRow {
  cl_project_id : string; cl_sequence_id : string; cl_track_id : string; cl_asset_id : string; cl_source_stream_id : string;
  cl_revision : Z; cl_source_range : TimeRange; cl_timeline_range : TimeRange; cl_start_key : string; cl_end_key : string;
  cl_enabled : bool; cl_link_group_id : option string; cl_placement : option ClipPlacement; cl_tombstoned : bool;
  cl_last_transaction_id : string }.

Record group_row := mkGroupRow {
  lg_project_id : string; lg_sequence_id : string; lg_revision : Z; lg_tombstoned : bool; lg_last_transaction_id : string }.

(** [agent_runs] joined with its current turn *)
Record run_row := mkRunRow {
  rn_project_id : string; rn_actor_id : option string; rn_status : string; rn_current_turn_id : string; rn_turn_status : string }.

(** ** The journal *)

Record EditTransaction := mkTransaction {
  tx_ID : string; tx_ProposalID : string; tx_ProjectID : string; tx_Actor : ActorRef; tx_Intent : string;
  tx_Operations : list NormalizedEditOperation; tx_InverseOperations : list NormalizedEditOperation;
  tx_Changes : list EntityRevisionChange; tx_CommittedProjectRevision : Z; tx_Digest : string; tx_UndoesTransactionID : option string }.

(** The texts of [edit_proposals.status] *)
Inductive proposal_status := StatusPending | StatusApprovalPending | StatusApplied | StatusCancelled | StatusStale.
#[export] Instance proposal_status_eq_dec : EqDecision proposal_status.
Proof. solve_decision. Defined.

Record proposal_row := mkProposalRow {
  po_proposal : EditProposal; po_digest : string; po_canonical : bytes; po_status : proposal_status; po_applied_transaction_id : option string }.

Record application_row := mkApplicationRow {
  ap_project_id : string; ap_proposal_id : string; ap_actor : ActorRef; ap_request_id : string; ap_input_digest : string;
  ap_transaction_id : string }.

Record storedEditRequest := mkStoredRequest {
  sq_Command : string; sq_InputDigest : string; sq_ProjectID : string; sq_ProposalID : string; sq_ApplicationID : option string;
  sq_TransactionID : option string; sq_ActivityEventID : string }.

(** The primary key of [edit_request_identities]: actor kind, actor and request *)
Definition request_key : Type := string * string * string.

Record activity_row := mkActivityRow {
  ac_scope_id : string; ac_cursor : Z; ac_kind : string; ac_actor : ActorRef; ac_project_revision : Z; ac_outcome_id : string }.

(** ** Tables *)

Record database := mkDatabase {
  db_projects : gmap string project_row;
  db_narrative_documents : gmap string head_row;
  db_sequences : gmap string head_row;
  db_tracks : gmap string track_row;
  db_assets : gmap string asset_row;
  db_source_streams : gmap string stream_row;
  db_transcripts : gmap string transcript_row;
  db_transcript_segments : gmap string segment_row;
  db_narrative_nodes : gmap string node_row;
  db_section_values : gmap string section_value;
  db_authored_text_values : gmap string authored_text_value;
  db_source_excerpt_values : gmap string source_excerpt_value;
  db_visual_intent_values : gmap string visual_intent_value;
  db_note_values : gmap string note_value;
  db_transcript_corrections : gmap string correction_row;
  db_correction_segments : gmap string (list string);
  db_captions : gmap string caption_row;
  db_caption_provenance : gmap string CaptionProvenance;
  db_alignments : gmap string alignment_row;
  db_alignment_targets : gmap string (list AlignmentTarget);
  db_clips : gmap string clip_row;
  db_clip_link_groups : gmap string group_row;
  db_agent_runs : gmap string run_row;
  db_edit_proposals : gmap string proposal_row;
  db_edit_transactions : gmap string EditTransaction;
  db_proposal_applications : gmap string application_row;
  db_edit_request_identities : gmap request_key storedEditRequest;
  db_agent_run_transactions : gmap string string;
  db_activity_heads : gmap string Z;
  db_activity_outbox : gmap string activity_row }.

Definition set_projects (f : gmap string project_row -> gmap string project_row) (d : database) : database :=
  mkDatabase (f (db_projects d)) (db_narrative_documents d) (db_sequences d) (db_tracks d) (db_assets d)
    (db_source_streams d) (db_transcripts d) (db_transcript_segments d) (db_narrative_nodes d) (db_section_values d)
    (db_authored_text_values d) (db_source_excerpt_values d) (db_visual_intent_values d) (db_note_values d)
    (db_transcript_corrections d) (db_correction_segments d) (db_captions d) (db_caption_provenance d) (db_alignments d)
    (db_alignment_targets d) (db_clips d) (db_clip_link_groups d) (db_agent_runs d) (db_edit_proposals d)
    (db_edit_transactions d) (db_proposal_applications d) (db_edit_request_identities d) (db_agent_run_transactions d)
    (db_activity_heads d) (db_activity_outbox d).
Definition set_narrative_documents (f : gmap string head_row -> gmap string head_row) (d : database) : database :=
  mkDatabase (db_projects d) (f (db_narrative_documents d)) (db_sequences d) (db_tracks d) (db_assets d)
    (db_source_streams d) (db_transcripts d) (db_transcript_segments d) (db_narrative_nodes d) (db_section_values d)
    (db_authored_text_values d) (db_source_excerpt_values d) (db_visual_intent_values d) (db_note_values d)
    (db_transcript_corrections d) (db_correction_segments d) (db_captions d) (db_caption_provenance d) (db_alignments d)
    (db_alignment_targets d) (db_clips d) (db_clip_link_groups d) (db_agent_runs d) (db_edit_proposals d)
    (db_edit_transactions d) (db_proposal_applications d) (db_edit_request_identities d) (db_agent_run_transactions d)
    (db_activity_heads d) (db_activity_outbox d).
Definition set_sequences (f : gmap string head_row -> gmap string head_row) (d : database) : database :=
  mkDatabase (db_projects d) (db_narrative_documents d) (f (db_sequences d)) (db_tracks d) (db_assets d)
    (db_source_streams d) (db_transcripts d) (db_transcript_segments d) (db_narrative_nodes d) (db_section_values d)
    (db_authored_text_values d) (db_source_excerpt_values d) (db_visual_intent_values d) (db_note_values d)
    (db_transcript_corrections d) (db_correction_segments d) (db_captions d) (db_caption_provenance d) (db_alignments d)
    (db_alignment_targets d) (db_clips d) (db_clip_link_groups d) (db_agent_runs d) (db_edit_proposals d)
    (db_edit_transactions d) (db_proposal_applications d) (db_edit_request_identities d) (db_agent_run_transactions d)
    (db_activity_heads d) (db_activity_outbox d).
Definition set_tracks (f : gmap string track_row -> gmap string track_row) (d : database) : database :=
  mkDatabase (db_projects d) (db_narrative_documents d) (db_sequences d) (f (db_tracks d)) (db_assets d)
    (db_source_streams d) (db_transcripts d) (db_transcript_segments d) (db_narrative_nodes d) (db_section_values d)
    (db_authored_text_values d) (db_source_excerpt_values d) (db_visual_intent_values d) (db_note_values d)
    (db_transcript_corrections d) (db_correction_segments d) (db_captions d) (db_caption_provenance d) (db_alignments d)
    (db_alignment_targets d) (db_clips d) (db_clip_link_groups d) (db_agent_runs d) (db_edit_proposals d)
    (db_edit_transactions d) (db_proposal_applications d) (db_edit_request_identities d) (db_agent_run_transactions d)
    (db_activity_heads d) (db_activity_outbox d).
Definition set_narrative_nodes (f : gmap string node_row -> gmap string node_row) (d : database) : database :=
  mkDatabase (db_projects d) (db_narrative_documents d) (db_sequences d) (db_tracks d) (db_assets d)
    (db_source_streams d) (db_transcripts d) (db_transcript_segments d) (f (db_narrative_nodes d)) (db_section_values d)
    (db_authored_text_values d) (db_source_excerpt_values d) (db_visual_intent_values d) (db_note_values d)
    (db_transcript_corrections d) (db_correction_segments d) (db_captions d) (db_caption_provenance d) (db_alignments d)
    (db_alignment_targets d) (db_clips d) (db_clip_link_groups d) (db_agent_runs d) (db_edit_proposals d)
    (db_edit_transactions d) (db_proposal_applications d) (db_edit_request_identities d) (db_agent_run_transactions d)
    (db_activity_heads d) (db_activity_outbox d).
Definition set_section_values (f : gmap string section_value -> gmap string section_value) (d : database) : database :=
  mkDatabase (db_projects d) (db_narrative_documents d) (db_sequences d) (db_tracks d) (db_assets d)
    (db_source_streams d) (db_transcripts d) (db_transcript_segments d) (db_narrative_nodes d) (f (db_section_values d))
    (db_authored_text_values d) (db_source_excerpt_values d) (db_visual_intent_values d) (db_note_values d)
    (db_transcript_corrections d) (db_correction_segments d) (db_captions d) (db_caption_provenance d) (db_alignments d)
    (db_alignment_targets d) (db_clips d) (db_clip_link_groups d) (db_agent_runs d) (db_edit_proposals d)
    (db_edit_transactions d) (db_proposal_applications d) (db_edit_request_identities d) (db_agent_run_transactions d)
    (db_activity_heads d) (db_activity_outbox d).
Definition set_authored_text_values (f : gmap string authored_text_value -> gmap string authored_text_value) (d : database) : database :=
  mkDatabase (db_projects d) (db_narrative_documents d) (db_sequences d) (db_tracks d) (db_assets d)
    (db_source_streams d) (db_transcripts d) (db_transcript_segments d) (db_narrative_nodes d) (db_section_values d)
    (f (db_authored_text_values d)) (db_source_excerpt_values d) (db_visual_intent_values d) (db_note_values d)
    (db_transcript_corrections d) (db_correction_segments d) (db_captions d) (db_caption_provenance d) (db_alignments d)
    (db_alignment_targets d) (db_clips d) (db_clip_link_groups d) (db_agent_runs d) (db_edit_proposals d)
    (db_edit_transactions d) (db_proposal_applications d) (db_edit_request_identities d) (db_agent_run_transactions d)
    (db_activity_heads d) (db_activity_outbox d).
Definition set_source_excerpt_values (f : gmap string source_excerpt_value -> gmap string source_excerpt_value) (d : database) : database :=
  mkDatabase (db_projects d) (db_narrative_documents d) (db_sequences d) (db_tracks d) (db_assets d)
    (db_source_streams d) (db_transcripts d) (db_transcript_segments d) (db_narrative_nodes d) (db_section_values d)
    (db_authored_text_values d) (f (db_source_excerpt_values d)) (db_visual_intent_values d) (db_note_values d)
    (db_transcript_corrections d) (db_correction_segments d) (db_captions d) (db_caption_provenance d) (db_alignments d)
    (db_alignment_targets d) (db_clips d) (db_clip_link_groups d) (db_agent_runs d) (db_edit_proposals d)
    (db_edit_transactions d) (db_proposal_applications d) (db_edit_request_identities d) (db_agent_run_transactions d)
    (db_activity_heads d) (db_activity_outbox d).
Definition set_visual_intent_values (f : gmap string visual_intent_value -> gmap string visual_intent_value) (d : database) : database :=
  mkDatabase (db_projects d) (db_narrative_documents d) (db_sequences d) (db_tracks d) (db_assets d)
    (db_source_streams d) (db_transcripts d) (db_transcript_segments d) (db_narrative_nodes d) (db_section_values d)
    (db_authored_text_values d) (db_source_excerpt_values d) (f (db_visual_intent_values d)) (db_note_values d)
    (db_transcript_corrections d) (db_correction_segments d) (db_captions d) (db_caption_provenance d) (db_alignments d)
    (db_alignment_targets d) (db_clips d) (db_clip_link_groups d) (db_agent_runs d) (db_edit_proposals d)
    (db_edit_transactions d) (db_proposal_applications d) (db_edit_request_identities d) (db_agent_run_transactions d)
    (db_activity_heads d) (db_activity_outbox d).
Definition set_note_values (f : gmap string note_value -> gmap string note_value) (d : database) : database :=
  mkDatabase (db_projects d) (db_narrative_documents d) (db_sequences d) (db_tracks d) (db_assets d)
    (db_source_streams d) (db_transcripts d) (db_transcript_segments d) (db_narrative_nodes d) (db_section_values d)
    (db_authored_text_values d) (db_source_excerpt_values d) (db_visual_intent_values d) (f (db_note_values d))
    (db_transcript_corrections d) (db_correction_segments d) (db_captions d) (db_caption_provenance d) (db_alignments d)
    (db_alignment_targets d) (db_clips d) (db_clip_link_groups d) (db_agent_runs d) (db_edit_proposals d)
    (db_edit_transactions d) (db_proposal_applications d) (db_edit_request_identities d) (db_agent_run_transactions d)
    (db_activity_heads d) (db_activity_outbox d).
Definition set_transcript_corrections (f : gmap string correction_row -> gmap string correction_row) (d : database) : database :=
  mkDatabase (db_projects d) (db_narrative_documents d) (db_sequences d) (db_tracks d) (db_assets d)
    (db_source_streams d) (db_transcripts d) (db_transcript_segments d) (db_narrative_nodes d) (db_section_values d)
    (db_authored_text_values d) (db_source_excerpt_values d) (db_visual_intent_values d) (db_note_values d)
    (f (db_transcript_corrections d)) (db_correction_segments d) (db_captions d) (db_caption_provenance d)
    (db_alignments d) (db_alignment_targets d) (db_clips d) (db_clip_link_groups d) (db_agent_runs d)
    (db_edit_proposals d) (db_edit_transactions d) (db_proposal_applications d) (db_edit_request_identities d)
    (db_agent_run_transactions d) (db_activity_heads d) (db_activity_outbox d).
Definition set_correction_segments (f : gmap string (list string) -> gmap string (list string)) (d : database) : database :=
  mkDatabase (db_projects d) (db_narrative_documents d) (db_sequences d) (db_tracks d) (db_assets d)
    (db_source_streams d) (db_transcripts d) (db_transcript_segments d) (db_narrative_nodes d) (db_section_values d)
    (db_authored_text_values d) (db_source_excerpt_values d) (db_visual_intent_values d) (db_note_values d)
    (db_transcript_corrections d) (f (db_correction_segments d)) (db_captions d) (db_caption_provenance d)
    (db_alignments d) (db_alignment_targets d) (db_clips d) (db_clip_link_groups d) (db_agent_runs d)
    (db_edit_proposals d) (db_edit_transactions d) (db_proposal_applications d) (db_edit_request_identities d)
    (db_agent_run_transactions d) (db_activity_heads d) (db_activity_outbox d).
Definition set_captions (f : gmap string caption_row -> gmap string caption_row) (d : database) : database :=
  mkDatabase (db_projects d) (db_narrative_documents d) (db_sequences d) (db_tracks d) (db_assets d)
    (db_source_streams d) (db_transcripts d) (db_transcript_segments d) (db_narrative_nodes d) (db_section_values d)
    (db_authored_text_values d) (db_source_excerpt_values d) (db_visual_intent_values d) (db_note_values d)
    (db_transcript_corrections d) (db_correction_segments d) (f (db_captions d)) (db_caption_provenance d)
    (db_alignments d) (db_alignment_targets d) (db_clips d) (db_clip_link_groups d) (db_agent_runs d)
    (db_edit_proposals d) (db_edit_transactions d) (db_proposal_applications d) (db_edit_request_identities d)
    (db_agent_run_transactions d) (db_activity_heads d) (db_activity_outbox d).
Definition set_caption_provenance (f : gmap string CaptionProvenance -> gmap string CaptionProvenance) (d : database) : database :=
  mkDatabase (db_projects d) (db_narrative_documents d) (db_sequences d) (db_tracks d) (db_assets d)
    (db_source_streams d) (db_transcripts d) (db_transcript_segments d) (db_narrative_nodes d) (db_section_values d)
    (db_authored_text_values d) (db_source_excerpt_values d) (db_visual_intent_values d) (db_note_values d)
    (db_transcript_corrections d) (db_correction_segments d) (db_captions d) (f (db_caption_provenance d))
    (db_alignments d) (db_alignment_targets d) (db_clips d) (db_clip_link_groups d) (db_agent_runs d)
    (db_edit_proposals d) (db_edit_transactions d) (db_proposal_applications d) (db_edit_request_identities d)
    (db_agent_run_transactions d) (db_activity_heads d) (db_activity_outbox d).
Definition set_alignments (f : gmap string alignment_row -> gmap string alignment_row) (d : database) : database :=
  mkDatabase (db_projects d) (db_narrative_documents d) (db_sequences d) (db_tracks d) (db_assets d)
    (db_source_streams d) (db_transcripts d) (db_transcript_segments d) (db_narrative_nodes d) (db_section_values d)
    (db_authored_text_values d) (db_source_excerpt_values d) (db_visual_intent_values d) (db_note_values d)
    (db_transcript_corrections d) (db_correction_segments d) (db_captions d) (db_caption_provenance d)
    (f (db_alignments d)) (db_alignment_targets d) (db_clips d) (db_clip_link_groups d) (db_agent_runs d)
    (db_edit_proposals d) (db_edit_transactions d) (db_proposal_applications d) (db_edit_request_identities d)
    (db_agent_run_transactions d) (db_activity_heads d) (db_activity_outbox d).
Definition set_alignment_targets (f : gmap string (list AlignmentTarget) -> gmap string (list AlignmentTarget)) (d : database) : database :=
  mkDatabase (db_projects d) (db_narrative_documents d) (db_sequences d) (db_tracks d) (db_assets d)
    (db_source_streams d) (db_transcripts d) (db_transcript_segments d) (db_narrative_nodes d) (db_section_values d)
    (db_authored_text_values d) (db_source_excerpt_values d) (db_visual_intent_values d) (db_note_values d)
    (db_transcript_corrections d) (db_correction_segments d) (db_captions d) (db_caption_provenance d) (db_alignments d)
    (f (db_alignment_targets d)) (db_clips d) (db_clip_link_groups d) (db_agent_runs d) (db_edit_proposals d)
    (db_edit_transactions d) (db_proposal_applications d) (db_edit_request_identities d) (db_agent_run_transactions d)
    (db_activity_heads d) (db_activity_outbox d).
Definition set_clips (f : gmap string clip_row -> gmap string clip_row) (d : database) : database :=
  mkDatabase (db_projects d) (db_narrative_documents d) (db_sequences d) (db_tracks d) (db_assets d)
    (db_source_streams d) (db_transcripts d) (db_transcript_segments d) (db_narrative_nodes d) (db_section_values d)
    (db_authored_text_values d) (db_source_excerpt_values d) (db_visual_intent_values d) (db_note_values d)
    (db_transcript_corrections d) (db_correction_segments d) (db_captions d) (db_caption_provenance d) (db_alignments d)
    (db_alignment_targets d) (f (db_clips d)) (db_clip_link_groups d) (db_agent_runs d) (db_edit_proposals d)
    (db_edit_transactions d) (db_proposal_applications d) (db_edit_request_identities d) (db_agent_run_transactions d)
    (db_activity_heads d) (db_activity_outbox d).
Definition set_clip_link_groups (f : gmap string group_row -> gmap string group_row) (d : database) : database :=
  mkDatabase (db_projects d) (db_narrative_documents d) (db_sequences d) (db_tracks d) (db_assets d)
    (db_source_streams d) (db_transcripts d) (db_transcript_segments d) (db_narrative_nodes d) (db_section_values d)
    (db_authored_text_values d) (db_source_excerpt_values d) (db_visual_intent_values d) (db_note_values d)
    (db_transcript_corrections d) (db_correction_segments d) (db_captions d) (db_caption_provenance d) (db_alignments d)
    (db_alignment_targets d) (db_clips d) (f (db_clip_link_groups d)) (db_agent_runs d) (db_edit_proposals d)
    (db_edit_transactions d) (db_proposal_applications d) (db_edit_request_identities d) (db_agent_run_transactions d)
    (db_activity_heads d) (db_activity_outbox d).
Definition set_edit_proposals (f : gmap string proposal_row -> gmap string proposal_row) (d : database) : database :=
  mkDatabase (db_projects d) (db_narrative_documents d) (db_sequences d) (db_tracks d) (db_assets d)
    (db_source_streams d) (db_transcripts d) (db_transcript_segments d) (db_narrative_nodes d) (db_section_values d)
    (db_authored_text_values d) (db_source_excerpt_values d) (db_visual_intent_values d) (db_note_values d)
    (db_transcript_corrections d) (db_correction_segments d) (db_captions d) (db_caption_provenance d) (db_alignments d)
    (db_alignment_targets d) (db_clips d) (db_clip_link_groups d) (db_agent_runs d) (f (db_edit_proposals d))
    (db_edit_transactions d) (db_proposal_applications d) (db_edit_request_identities d) (db_agent_run_transactions d)
    (db_activity_heads d) (db_activity_outbox d).
Definition set_edit_transactions (f : gmap string EditTransaction -> gmap string EditTransaction) (d : database) : database :=
  mkDatabase (db_projects d) (db_narrative_documents d) (db_sequences d) (db_tracks d) (db_assets d)
    (db_source_streams d) (db_transcripts d) (db_transcript_segments d) (db_narrative_nodes d) (db_section_values d)
    (db_authored_text_values d) (db_source_excerpt_values d) (db_visual_intent_values d) (db_note_values d)
    (db_transcript_corrections d) (db_correction_segments d) (db_captions d) (db_caption_provenance d) (db_alignments d)
    (db_alignment_targets d) (db_clips d) (db_clip_link_groups d) (db_agent_runs d) (db_edit_proposals d)
    (f (db_edit_transactions d)) (db_proposal_applications d) (db_edit_request_identities d)
    (db_agent_run_transactions d) (db_activity_heads d) (db_activity_outbox d).
Definition set_proposal_applications (f : gmap string application_row -> gmap string application_row) (d : database) : database :=
  mkDatabase (db_projects d) (db_narrative_documents d) (db_sequences d) (db_tracks d) (db_assets d)
    (db_source_streams d) (db_transcripts d) (db_transcript_segments d) (db_narrative_nodes d) (db_section_values d)
    (db_authored_text_values d) (db_source_excerpt_values d) (db_visual_intent_values d) (db_note_values d)
    (db_transcript_corrections d) (db_correction_segments d) (db_captions d) (db_caption_provenance d) (db_alignments d)
    (db_alignment_targets d) (db_clips d) (db_clip_link_groups d) (db_agent_runs d) (db_edit_proposals d)
    (db_edit_transactions d) (f (db_proposal_applications d)) (db_edit_request_identities d)
    (db_agent_run_transactions d) (db_activity_heads d) (db_activity_outbox d).
Definition set_edit_request_identities (f : gmap request_key storedEditRequest -> gmap request_key storedEditRequest) (d : database) : database :=
  mkDatabase (db_projects d) (db_narrative_documents d) (db_sequences d) (db_tracks d) (db_assets d)
    (db_source_streams d) (db_transcripts d) (db_transcript_segments d) (db_narrative_nodes d) (db_section_values d)
    (db_authored_text_values d) (db_source_excerpt_values d) (db_visual_intent_values d) (db_note_values d)
    (db_transcript_corrections d) (db_correction_segments d) (db_captions d) (db_caption_provenance d) (db_alignments d)
    (db_alignment_targets d) (db_clips d) (db_clip_link_groups d) (db_agent_runs d) (db_edit_proposals d)
    (db_edit_transactions d) (db_proposal_applications d) (f (db_edit_request_identities d))
    (db_agent_run_transactions d) (db_activity_heads d) (db_activity_outbox d).
Definition set_agent_run_transactions (f : gmap string string -> gmap string string) (d : database) : database :=
  mkDatabase (db_projects d) (db_narrative_documents d) (db_sequences d) (db_tracks d) (db_assets d)
    (db_source_streams d) (db_transcripts d) (db_transcript_segments d) (db_narrative_nodes d) (db_section_values d)
    (db_authored_text_values d) (db_source_excerpt_values d) (db_visual_intent_values d) (db_note_values d)
    (db_transcript_corrections d) (db_correction_segments d) (db_captions d) (db_caption_provenance d) (db_alignments d)
    (db_alignment_targets d) (db_clips d) (db_clip_link_groups d) (db_agent_runs d) (db_edit_proposals d)
    (db_edit_transactions d) (db_proposal_applications d) (db_edit_request_identities d)
    (f (db_agent_run_transactions d)) (db_activity_heads d) (db_activity_outbox d).
Definition set_activity_heads (f : gmap string Z -> gmap string Z) (d : database) : database :=
  mkDatabase (db_projects d) (db_narrative_documents d) (db_sequences d) (db_tracks d) (db_assets d)
    (db_source_streams d) (db_transcripts d) (db_transcript_segments d) (db_narrative_nodes d) (db_section_values d)
    (db_authored_text_values d) (db_source_excerpt_values d) (db_visual_intent_values d) (db_note_values d)
    (db_transcript_corrections d) (db_correction_segments d) (db_captions d) (db_caption_provenance d) (db_alignments d)
    (db_alignment_targets d) (db_clips d) (db_clip_link_groups d) (db_agent_runs d) (db_edit_proposals d)
    (db_edit_transactions d) (db_proposal_applications d) (db_edit_request_identities d) (db_agent_run_transactions d)
    (f (db_activity_heads d)) (db_activity_outbox d).
Definition set_activity_outbox (f : gmap string activity_row -> gmap string activity_row) (d : database) : database :=
  mkDatabase (db_projects d) (db_narrative_documents d) (db_sequences d) (db_tracks d) (db_assets d)
    (db_source_streams d) (db_transcripts d) (db_transcript_segments d) (db_narrative_nodes d) (db_section_values d)
    (db_authored_text_values d) (db_source_excerpt_values d) (db_visual_intent_values d) (db_note_values d)
    (db_transcript_corrections d) (db_correction_segments d) (db_captions d) (db_caption_provenance d) (db_alignments d)
    (db_alignment_targets d) (db_clips d) (db_clip_link_groups d) (db_agent_runs d) (db_edit_proposals d)
    (db_edit_transactions d) (db_proposal_applications d) (db_edit_request_identities d) (db_agent_run_transactions d)
    (db_activity_heads d) (f (db_activity_outbox d)).

(** ** Statements and transactions *)

Definition ST (S E A : Type) : Type := S -> outcome E (A * S).
#[export] Instance ST_ret {S E} : MRet (ST S E) := fun A a s => Ok (a, s).
#[export] Instance ST_bind {S E} : MBind (ST S E) := fun A B f m s =>
  match m s with Ok (a, s) => f a s | Fail e => Fail e | Panic => Panic end.

Definition Tx : Type -> Type := ST database repo_error.

Definition lifts {S A} (r : outcome repo_error A) : ST S repo_error A := fun s =>
  match r with Ok a => Ok (a, s) | Fail e => Fail e | Panic => Panic end.
Definition fails {S A} (e : repo_error) : ST S repo_error A := fun _ => Fail e.
Definition requires {S} (e : repo_error) (b : bool) : ST S repo_error unit := lifts (guard_or e b).
Definition queries {S A} (f : S -> A) : ST S repo_error A := fun s => Ok (f s, s).
Definition edits {S} (f : S -> S) : ST S repo_error unit := fun s => Ok (tt, f s).

(** A dereferenced pointer: nil panics *)
Definition pointee {S A} (p : option A) : ST S repo_error A := fun s => match p with Some a => Ok (a, s) | None => Panic end.

Fixpoint all_of {S A} (items : list A) (body : A -> ST S repo_error unit) : ST S repo_error unit :=
  match items with
  | [] => mret tt
  | a :: rest => _ ← body a; all_of rest body
  end.

(** What the engine refuses, by statement and the database it runs on *)
Class SQLite := { refuses : string -> database -> bool }.

Section statements.
Context `{SQLite}.

Definition sql_exec (statement : string) (f : database -> outcome repo_error database) : Tx unit := fun d =>
  if refuses statement d then Fail ErrStatement
  else match f d with Ok d' => Ok (tt, d') | Fail e => Fail e | Panic => Panic end.

(** [INSERT]: the primary key must be free. *)
Definition sql_insert {K A} `{Countable K} (table : string) (get : database -> gmap K A)
    (set : (gmap K A -> gmap K A) -> database -> database) (k : K) (row : A) : Tx unit :=
  sql_exec ("INSERT " +:+ table) (fun d => match get d !! k with Some _ => Fail ErrStatement | None => Ok (set (<[k := row]>) d) end).

(** [UPDATE ... WHERE id = k AND where]: the rows affected *)
Definition sql_update {K A} `{Countable K} (table : string) (get : database -> gmap K A)
    (set : (gmap K A -> gmap K A) -> database -> database) (k : K) (where_ : A -> bool) (f : A -> A) : Tx Z := fun d =>
  if refuses ("UPDATE " +:+ table) d then Fail ErrStatement
  else match get d !! k with
       | Some row => if where_ row then Ok (1, set (<[k := f row]>) d) else Ok (0, d)
       | None => Ok (0, d)
       end.

(** [UPDATE ... WHERE where] over a whole table *)
Definition sql_update_all {K A} `{Countable K} (table : string) (set : (gmap K A -> gmap K A) -> database -> database)
    (where_ : A -> bool) (f : A -> A) : Tx unit :=
  sql_exec ("UPDATE " +:+ table) (fun d => Ok (set (fmap (fun row => if where_ row then f row else row)) d)).

Definition requireOneEditRow (changed : Z) : Tx unit := requires repo_conflict (changed =? 1).

(** A transaction: what the body wrote is kept when the body succeeds and the
    commit does; otherwise the deferred rollback leaves the database as it was. *)
Definition transaction {A} (body : Tx A) (d : database) : outcome repo_error A * database :=
  match body d with
  | Ok (a, d') => if refuses "COMMIT" d' then (Fail ErrStatement, d) else (Ok a, d')
  | Fail e => (Fail e, d)
  | Panic => (Panic, d)
  end.
End statements.
