(* ===== verification/Projection.v ===== *)
(** What an edit transaction writes into the entity tables: the projection of
    normalized operations ([apps/api/repository/edit_projection_*.go]).

    Every entity is inserted when its change has no revision before it and
    updated at exactly that revision otherwise.  Narrative nodes keep their
    place among their live siblings as an index, which inserting, moving and
    withdrawing a node shifts. *)
From stdpp Require Import base list strings gmap sorting.
From Stdlib Require Import ZArith Lia.
From S2P Require Import Prelude GoText Exact Identity Canonical EditModel Timeline EditState EditNarrative EditDerive EditValidate.
From S2P Require Import EditNormalize Database.
Open Scope Z_scope.

(** The same code under three names: the keys of a range's start and end *)
Definition orderKeys (value : TimeRange) : outcome exact_error (string * string) :=
  start ← RationalOrderKey (tr_Start value);
  endValue ← End value;
  end_ ← RationalOrderKey endValue;
  Ok (start, end_).
Definition captionOrderKeys := orderKeys.
Definition clipOrderKeys := orderKeys.
Definition sourceOrderKeys := orderKeys.

Definition equalRepositoryRange (left right : TimeRange) : bool :=
  match RationalTime_Compare (tr_Start left) (tr_Start right), RationalTime_Compare (tr_Duration left) (tr_Duration right) with
  | Ok start, Ok duration => (start =? 0) && (duration =? 0)
  | _, _ => false
  end.

(** [changes[key]], the zero change for a key that is missing *)
Definition zero_change : EntityRevisionChange := mkChange "" "" None 0 false.
Definition change_at (changes : gmap string EntityRevisionChange) (kind : EditEntityKind) (id : string) : EntityRevisionChange :=
  default zero_change (changes !! entityKey kind id).

Record narrativeProjectionIdentity := mkIdentity {
  np_id : string; np_revision : Z; np_documentID : string; np_parentID : option string; np_afterNodeID : option string;
  np_kind : NarrativeNodeKind; np_tombstoned : bool }.

Definition node_kind (state : NarrativeNodeState) : NarrativeNodeKind :=
  match state with
  | NodeSection _ => NarrativeNodeSection | NodeAuthoredText _ => NarrativeNodeAuthoredText
  | NodeSourceExcerpt _ => NarrativeNodeSourceExcerpt | NodeVisualIntent _ => NarrativeNodeVisualIntent
  | NodeNote _ => NarrativeNodeNote
  end.

Definition node_document (state : NarrativeNodeState) : string :=
  match state with
  | NodeSection v => sec_DocumentID v | NodeAuthoredText v => txt_DocumentID v | NodeSourceExcerpt v => exc_DocumentID v
  | NodeVisualIntent v => vis_DocumentID v | NodeNote v => note_DocumentID v
  end.

Section projection.
Context `{Platform} `{SQLite} (projectID transactionID : string).

Definition language_ok (value : string) : bool := present (ParseCaptionLanguage value).

(** The checks of [narrativeProjectionState] on the payload *)
Definition node_payload_ok (state : NarrativeNodeState) : bool :=
  match state with
  | NodeSection _ => true
  | NodeAuthoredText v => AuthoredTextPurpose_Validate (txt_Purpose v) && language_ok (txt_Language v) && bool_decide (txt_Text v <> "")
  | NodeSourceExcerpt v =>
      language_ok (exc_Language v) && negb (bool_decide (ev_SegmentIDs (exc_Evidence v) = [])) &&
      (length (ev_SegmentIDs (exc_Evidence v)) <=? 256)%nat && (length (ev_CorrectionRevisions (exc_Evidence v)) <=? 256)%nat
  | NodeVisualIntent v =>
      VisualIntentPurpose_Validate (vis_Purpose v) && language_ok (vis_Language v) && bool_decide (vis_Description v <> "")
  | NodeNote v => language_ok (note_Language v) && bool_decide (note_Text v <> "")
  end.

Definition narrativeProjectionState (state : NarrativeNodeState) : outcome repo_error narrativeProjectionIdentity :=
  _ ← guard_or repo_invalid (node_payload_ok state);
  let result := mkIdentity (narrativeNodeID state) (narrativeNodeRevision state) (node_document state)
    (narrativeNodeParentPointer state) (narrativeNodeAfter state) (node_kind state) (narrativeNodeTombstoned state) in
  _ ← guard_or repo_invalid (negb (IsZero (np_id result) || (np_revision result <? 1) || IsZero (np_documentID result)));
  Ok result.

(** ** Siblings *)

Definition live_sibling (documentID parentID : string) (row : node_row) : bool :=
  bool_decide (nr_document_id row = documentID) && bool_decide (nr_parent_id row = Some parentID) && negb (nr_tombstoned row).

Definition narrativeInsertIndex (documentID parentID : string) (after : option string) : Tx Z :=
  match after with
  | None => mret 0
  | Some after =>
      row ← queries (fun d => db_narrative_nodes d !! after);
      match row with
      | Some row =>
          if bool_decide (nr_project_id row = projectID) && live_sibling documentID parentID row then mret (nr_order_index row + 1)
          else fails repo_conflict
      | None => fails repo_conflict
      end
  end.

Definition with_order (index : Z) (row : node_row) : node_row :=
  mkNodeRow (nr_project_id row) (nr_document_id row) (nr_parent_id row) (nr_revision row) (nr_kind row) index (nr_tombstoned row)
    (nr_last_transaction_id row).

Definition shiftNarrativeSiblings (documentID parentID : string) (from delta : Z) : Tx unit :=
  sql_update_all "narrative_nodes" set_narrative_nodes
    (fun row => live_sibling documentID parentID row && (from <=? nr_order_index row)) (fun row => with_order (nr_order_index row + delta) row).

Definition compactNarrativeSiblings (documentID parentID : string) (removed : Z) : Tx unit :=
  sql_update_all "narrative_nodes" set_narrative_nodes
    (fun row => live_sibling documentID parentID row && (removed <? nr_order_index row)) (fun row => with_order (nr_order_index row - 1) row).

(** ** Payloads of narrative nodes *)

Definition insertSourceExcerptPayload (state : SourceExcerptState) : Tx unit :=
  sql_insert "narrative_source_excerpt_values" db_source_excerpt_values set_source_excerpt_values (exc_ID state)
    (mkExcerptValue (exc_AssetID state) (exc_AcceptedFingerprint state) (exc_SourceRange state) (exc_Language state) (exc_EffectiveText state)
       (ev_ArtifactID (exc_Evidence state)) (ev_SourceStreamID (exc_Evidence state)) (ev_SegmentIDs (exc_Evidence state))
       (ev_CorrectionRevisions (exc_Evidence state))).

Definition insertNarrativePayload (state : NarrativeNodeState) : Tx unit :=
  match state with
  | NodeSection v =>
      sql_insert "narrative_section_values" db_section_values set_section_values (sec_ID v) (mkSectionValue (sec_Title v) (sec_Language v))
  | NodeAuthoredText v =>
      sql_insert "narrative_authored_text_values" db_authored_text_values set_authored_text_values (txt_ID v)
        (mkTextValue (txt_Purpose v) (txt_Language v) (txt_Text v))
  | NodeSourceExcerpt v => insertSourceExcerptPayload v
  | NodeVisualIntent v =>
      sql_insert "narrative_visual_intent_values" db_visual_intent_values set_visual_intent_values (vis_ID v)
        (mkIntentValue (vis_Purpose v) (vis_Language v) (vis_Description v))
  | NodeNote v =>
      sql_insert "narrative_note_values" db_note_values set_note_values (note_ID v) (mkNoteValue (note_Language v) (note_Text v))
  end.

Definition updateNarrativePayload (state : NarrativeNodeState) : Tx unit :=
  match state with
  | NodeSection v =>
      changed ← sql_update "narrative_section_values" db_section_values set_section_values (sec_ID v) (fun _ => true)
        (fun _ => mkSectionValue (sec_Title v) (sec_Language v));
      requireOneEditRow changed
  | NodeAuthoredText v =>
      changed ← sql_update "narrative_authored_text_values" db_authored_text_values set_authored_text_values (txt_ID v) (fun _ => true)
        (fun _ => mkTextValue (txt_Purpose v) (txt_Language v) (txt_Text v));
      requireOneEditRow changed
  | NodeSourceExcerpt _ => mret tt
  | NodeVisualIntent v =>
      changed ← sql_update "narrative_visual_intent_values" db_visual_intent_values set_visual_intent_values (vis_ID v) (fun _ => true)
        (fun _ => mkIntentValue (vis_Purpose v) (vis_Language v) (vis_Description v));
      requireOneEditRow changed
  | NodeNote v =>
      changed ← sql_update "narrative_note_values" db_note_values set_note_values (note_ID v) (fun _ => true)
        (fun _ => mkNoteValue (note_Language v) (note_Text v));
      requireOneEditRow changed
  end.

(** ** Narrative nodes *)

Definition node_at_revision (revision : Z) (row : node_row) : bool :=
  bool_decide (nr_project_id row = projectID) && (nr_revision row =? revision).

Definition applyNarrativeNode (state : NarrativeNodeState) (change : EntityRevisionChange) : Tx unit :=
  identity ← lifts (narrativeProjectionState state);
  _ ← requires repo_invalid (bool_decide (np_id identity = ch_ID change) && (np_revision identity =? ch_After change));
  match ch_Before change with
  | None =>
      match np_parentID identity with
      | None => fails repo_invalid
      | Some parentID =>
          _ ← requires repo_invalid (negb (np_tombstoned identity));
          index ← narrativeInsertIndex (np_documentID identity) parentID (np_afterNodeID identity);
          _ ← shiftNarrativeSiblings (np_documentID identity) parentID index 1;
          _ ← sql_insert "narrative_nodes" db_narrative_nodes set_narrative_nodes (np_id identity)
            (mkNodeRow projectID (np_documentID identity) (Some parentID) (np_revision identity) (np_kind identity) index false transactionID);
          insertNarrativePayload state
      end
  | Some before =>
      row ← queries (fun d => db_narrative_nodes d !! np_id identity);
      match row with
      | None => fails repo_conflict
      | Some old =>
          _ ← requires repo_conflict (node_at_revision before old);
          _ ← requires repo_invalid (bool_decide (nr_document_id old = np_documentID identity) && bool_decide (nr_kind old = np_kind identity) &&
                bool_decide (present (nr_parent_id old) = present (np_parentID identity)));
          match np_parentID identity with
          | None =>
              _ ← requires repo_invalid (negb (present (nr_parent_id old) || present (np_afterNodeID identity) || np_tombstoned identity));
              changed ← sql_update "narrative_nodes" db_narrative_nodes set_narrative_nodes (np_id identity) (node_at_revision before)
                (fun row => mkNodeRow (nr_project_id row) (nr_document_id row) (nr_parent_id row) (np_revision identity) (nr_kind row)
                   (nr_order_index row) (nr_tombstoned row) transactionID);
              _ ← requireOneEditRow changed;
              updateNarrativePayload state
          | Some parentID =>
              _ ← (if nr_tombstoned old then mret tt
                   else
                     _ ← sql_update "narrative_nodes" db_narrative_nodes set_narrative_nodes (np_id identity) (node_at_revision before)
                       (fun row => mkNodeRow (nr_project_id row) (nr_document_id row) (nr_parent_id row) (nr_revision row) (nr_kind row)
                          (nr_order_index row) true (nr_last_transaction_id row));
                     oldParentID ← lifts (or_fail repo_invalid (ParseID (default "" (nr_parent_id old))));
                     compactNarrativeSiblings (np_documentID identity) oldParentID (nr_order_index old));
              newOrder ← (if np_tombstoned identity then mret (nr_order_index old)
                          else
                            newOrder ← narrativeInsertIndex (np_documentID identity) parentID (np_afterNodeID identity);
                            _ ← shiftNarrativeSiblings (np_documentID identity) parentID newOrder 1;
                            mret newOrder);
              changed ← sql_update "narrative_nodes" db_narrative_nodes set_narrative_nodes (np_id identity) (node_at_revision before)
                (fun row => mkNodeRow (nr_project_id row) (nr_document_id row) (Some parentID) (np_revision identity) (nr_kind row) newOrder
                   (np_tombstoned identity) transactionID);
              _ ← requireOneEditRow changed;
              updateNarrativePayload state
          end
      end
  end.

(** ** Captions *)

(** The checks of [insertCaptionProvenance] *)
Definition caption_provenance_ok (state : CaptionState) : bool :=
  match prov_Kind (caption_Provenance state), prov_Derivation (caption_Provenance state) with
  | ProvenanceManual, None => true
  | ProvenanceTranscriptDerivation, Some value =>
      is_ok (CaptionDerivationPolicy_Validate (cd_Policy value)) &&
      forallb (fun id => negb (IsZero id)) [cd_SourceExcerptID value; cd_AssetID value; cd_ArtifactID value; cd_SourceStreamID value; cd_ClipID value] &&
      negb (bool_decide (cd_SegmentIDs value = [])) && (length (cd_SegmentIDs value) <=? 256)%nat &&
      (length (cd_CorrectionRevisions value) <=? 256)%nat && equalRepositoryRange (caption_Range state) (cd_DerivedRange value) &&
      bool_decide (caption_Language state = cd_DerivedLanguage value) && bool_decide (caption_Text state = cd_DerivedText value)
  | _, _ => false
  end.

Definition insertCaptionProvenance (state : CaptionState) : Tx unit :=
  _ ← requires repo_invalid (caption_provenance_ok state);
  sql_insert "caption_provenance" db_caption_provenance set_caption_provenance (caption_ID state) (caption_Provenance state).

Definition applyCaption (state : CaptionState) (change : EntityRevisionChange) : Tx unit :=
  '(startKey, endKey) ← lifts (or_fail repo_invalid (captionOrderKeys (caption_Range state)));
  match ch_Before change with
  | None =>
      _ ← sql_insert "captions" db_captions set_captions (caption_ID state)
        (mkCaptionRow projectID (caption_SequenceID state) (caption_TrackID state) (caption_Revision state) (caption_Range state) startKey endKey
           (caption_Language state) (caption_Text state) (caption_Tombstoned state) transactionID);
      insertCaptionProvenance state
  | Some before =>
      changed ← sql_update "captions" db_captions set_captions (caption_ID state)
        (fun row => bool_decide (ca_project_id row = projectID) && (ca_revision row =? before))
        (fun row => mkCaptionRow (ca_project_id row) (ca_sequence_id row) (ca_track_id row) (caption_Revision state) (caption_Range state)
           startKey endKey (caption_Language state) (caption_Text state) (caption_Tombstoned state) transactionID);
      requireOneEditRow changed
  end.

(** ** Alignments *)

Definition same_target_type (left right : AlignmentTarget) : bool :=
  match left, right with
  | TargetCaption _, TargetCaption _ | TargetClip _, TargetClip _ | TargetTimeline _, TargetTimeline _ => true
  | _, _ => false
  end.

Definition insertAlignmentTargets (state : AlignmentState) : Tx unit :=
  _ ← requires repo_invalid (negb (bool_decide (al_Targets state = [])) && (length (al_Targets state) <=? 64)%nat);
  _ ← requires repo_invalid (match al_Targets state with [] => true | first :: rest => forallb (same_target_type first) rest end);
  sql_insert "alignment_targets" db_alignment_targets set_alignment_targets (al_ID state) (al_Targets state).

Definition applyAlignment (state : AlignmentState) (change : EntityRevisionChange) : Tx unit :=
  let row := mkAlignmentRow projectID (al_NarrativeNodeID state) (al_NarrativeNodeRevision state) (al_SequenceID state) (al_Revision state)
    (al_Status state) transactionID in
  match ch_Before change with
  | None =>
      _ ← sql_insert "alignments" db_alignments set_alignments (al_ID state) row;
      insertAlignmentTargets state
  | Some before =>
      changed ← sql_update "alignments" db_alignments set_alignments (al_ID state)
        (fun row => bool_decide (ag_project_id row = projectID) && (ag_revision row =? before)) (fun _ => row);
      _ ← requireOneEditRow changed;
      _ ← sql_exec "DELETE alignment_targets" (fun d => Ok (set_alignment_targets (delete (al_ID state)) d));
      insertAlignmentTargets state
  end.

(** ** Clips and link groups *)

Definition encodedClipPlacement (placement : option ClipPlacement) : outcome repo_error (option ClipPlacement) :=
  match placement with
  | None => Ok None
  | Some value => _ ← or_fail repo_invalid (ClipPlacement_Validate value); Ok (Some value)
  end.

Definition applyClip (state : ClipState) (change : EntityRevisionChange) : Tx unit :=
  '(startKey, endKey) ← lifts (or_fail repo_invalid (clipOrderKeys (clip_TimelineRange state)));
  _ ← requires repo_invalid (negb (IsNegative (tr_Start (clip_TimelineRange state)) || negb (IsPositive (tr_Duration (clip_SourceRange state))) ||
        negb (IsPositive (tr_Duration (clip_TimelineRange state)))));
  equalDuration ← lifts (or_fail repo_invalid (RationalTime_Compare (tr_Duration (clip_SourceRange state)) (tr_Duration (clip_TimelineRange state))));
  _ ← requires repo_invalid (equalDuration =? 0);
  placement ← lifts (encodedClipPlacement (clip_Placement state));
  let row := mkClipRow projectID (clip_SequenceID state) (clip_TrackID state) (clip_AssetID state) (clip_SourceStreamID state) (clip_Revision state)
    (clip_SourceRange state) (clip_TimelineRange state) startKey endKey (clip_Enabled state) (clip_LinkGroupID state) placement
    (clip_Tombstoned state) transactionID in
  match ch_Before change with
  | None => sql_insert "clips" db_clips set_clips (clip_ID state) row
  | Some before =>
      changed ← sql_update "clips" db_clips set_clips (clip_ID state)
        (fun row => bool_decide (cl_project_id row = projectID) && (cl_revision row =? before)) (fun _ => row);
      requireOneEditRow changed
  end.

Definition applyLinkGroup (state : LinkGroupState) (change : EntityRevisionChange) : Tx unit :=
  match ch_Before change with
  | None =>
      sql_insert "clip_link_groups" db_clip_link_groups set_clip_link_groups (group_ID state)
        (mkGroupRow projectID (group_SequenceID state) (group_Revision state) (group_Tombstoned state) transactionID)
  | Some before =>
      changed ← sql_update "clip_link_groups" db_clip_link_groups set_clip_link_groups (group_ID state)
        (fun row => bool_decide (lg_project_id row = projectID) && (lg_revision row =? before))
        (fun row => mkGroupRow (lg_project_id row) (lg_sequence_id row) (group_Revision state) (group_Tombstoned state) transactionID);
      requireOneEditRow changed
  end.

(** ** Transcript corrections *)

Definition applyTranscriptCorrection (state : TranscriptCorrectionState) (change : EntityRevisionChange) : Tx unit :=
  '(startKey, endKey) ← lifts (or_fail repo_invalid (sourceOrderKeys (cor_SourceRange state)));
  _ ← requires repo_invalid (negb (bool_decide (cor_SegmentIDs state = [])) && (length (cor_SegmentIDs state) <=? 256)%nat);
  match ch_Before change with
  | None =>
      _ ← sql_insert "transcript_corrections" db_transcript_corrections set_transcript_corrections (cor_ID state)
        (mkCorrectionRow projectID (cor_AssetID state) (cor_ArtifactID state) (cor_Revision state) (cor_SourceRange state) startKey endKey
           (cor_ReplacementText state) (cor_Language state) (cor_Tombstoned state) transactionID);
      sql_insert "transcript_correction_segments" db_correction_segments set_correction_segments (cor_ID state) (cor_SegmentIDs state)
  | Some before =>
      changed ← sql_update "transcript_corrections" db_transcript_corrections set_transcript_corrections (cor_ID state)
        (fun row => bool_decide (co_project_id row = projectID) && (co_revision row =? before))
        (fun row => mkCorrectionRow (co_project_id row) (co_asset_id row) (co_artifact_id row) (cor_Revision state) (co_source_range row)
           (co_start_key row) (co_end_key row) (cor_ReplacementText state) (cor_Language state) (cor_Tombstoned state) transactionID);
      requireOneEditRow changed
  end.

(** ** Operations and aggregates *)

Definition applyNormalizedOperation (changes : gmap string EntityRevisionChange) (operation : NormalizedEditOperation) : Tx unit :=
  match operation with
  | PutNarrativeNode state =>
      _ ← requires repo_invalid (negb (IsZero (narrativeNodeID state)));
      applyNarrativeNode state (change_at changes EntityNarrativeNode (narrativeNodeID state))
  | PutCaption state => applyCaption state (change_at changes EntityCaption (caption_ID state))
  | PutAlignment state => applyAlignment state (change_at changes EntityAlignment (al_ID state))
  | PutClip state => applyClip state (change_at changes EntityClip (clip_ID state))
  | PutLinkGroup state => applyLinkGroup state (change_at changes EntityLinkGroup (group_ID state))
  | PutTranscriptCorrection state => applyTranscriptCorrection state (change_at changes EntityTranscriptCorrection (cor_ID state))
  end.

Definition head_update (table : string) (get : database -> gmap string head_row)
    (set : (gmap string head_row -> gmap string head_row) -> database -> database) (change : EntityRevisionChange) (before : Z) : Tx Z :=
  sql_update table get set (ch_ID change) (fun row => bool_decide (hd_project_id row = projectID) && (hd_revision row =? before))
    (fun row => mkHeadRow (hd_project_id row) (ch_After change)).

Definition applyAggregateRevision (change : EntityRevisionChange) : Tx unit :=
  match ch_Before change with
  | None => fails repo_invalid
  | Some before =>
      changed ←
        (if bool_decide (ch_Kind change = EntityNarrativeDocument) then
           head_update "narrative_documents" db_narrative_documents set_narrative_documents change before
         else if bool_decide (ch_Kind change = EntityNarrativeNode) then
           sql_update "narrative_nodes" db_narrative_nodes set_narrative_nodes (ch_ID change) (node_at_revision before)
             (fun row => mkNodeRow (nr_project_id row) (nr_document_id row) (nr_parent_id row) (ch_After change) (nr_kind row)
                (nr_order_index row) (nr_tombstoned row) (nr_last_transaction_id row))
         else if bool_decide (ch_Kind change = EntitySequence) then
           head_update "sequences" db_sequences set_sequences change before
         else if bool_decide (ch_Kind change = EntityTrack) then
           sql_update "tracks" db_tracks set_tracks (ch_ID change)
             (fun row => bool_decide (tk_project_id row = projectID) && (tk_revision row =? before))
             (fun row => mkTrackRow (tk_project_id row) (tk_sequence_id row) (ch_After change) (tk_type row))
         else fails repo_invalid);
      requireOneEditRow changed
  end.
End projection.
