(* ===== verification/EditLoad.v ===== *)
(** Loading what an edit is normalized against: the [ensure] and [load]
    functions of [apps/api/repository/edit_state*.go] and
    [edit_read_source_excerpt.go].

    A loader reads the database of the transaction and fills the maps of the
    [EditNormalizationState] it was handed; an entity that is already there is
    not read again.  [loading] is that state with the sets of mutated entities
    that [loadEditNormalizationState] collects. *)
From stdpp Require Import base list strings gmap sorting.
From Stdlib Require Import ZArith Lia.
From S2P Require Import Prelude GoText Exact Identity Canonical EditModel Timeline EditState EditClips EditNarrative EditDerive EditValidate.
From S2P Require Import EditNormalize Database Projection.
Open Scope Z_scope.

(** Assignments to one map of the state *)
Definition load_Sections (f : gmap string NarrativeSectionState -> gmap string NarrativeSectionState) (s : EditNormalizationState) : EditNormalizationState :=
  mkState (st_ProjectID s) (st_ProjectRevision s) (st_DocumentID s) (st_DocumentRevision s) (st_SequenceID s)
    (st_SequenceRevision s) (f (st_Sections s)) (st_Tracks s) (st_AuthoredTexts s) (st_SourceExcerpts s) (st_VisualIntents s)
    (st_Notes s) (st_SectionChildCounts s) (st_SourceExcerptEvidence s) (st_TranscriptArtifacts s)
    (st_TranscriptCorrections s) (st_Captions s) (st_Clips s) (st_LinkGroups s) (st_LinkGroupClips s) (st_SourceStreams s)
    (st_Alignments s) (st_NodeAlignments s) (st_CaptionAlignments s) (st_ClipAlignments s).
Definition load_Tracks (f : gmap string EditTrackState -> gmap string EditTrackState) (s : EditNormalizationState) : EditNormalizationState :=
  mkState (st_ProjectID s) (st_ProjectRevision s) (st_DocumentID s) (st_DocumentRevision s) (st_SequenceID s)
    (st_SequenceRevision s) (st_Sections s) (f (st_Tracks s)) (st_AuthoredTexts s) (st_SourceExcerpts s) (st_VisualIntents s)
    (st_Notes s) (st_SectionChildCounts s) (st_SourceExcerptEvidence s) (st_TranscriptArtifacts s)
    (st_TranscriptCorrections s) (st_Captions s) (st_Clips s) (st_LinkGroups s) (st_LinkGroupClips s) (st_SourceStreams s)
    (st_Alignments s) (st_NodeAlignments s) (st_CaptionAlignments s) (st_ClipAlignments s).
Definition load_AuthoredTexts (f : gmap string AuthoredTextState -> gmap string AuthoredTextState) (s : EditNormalizationState) : EditNormalizationState :=
  mkState (st_ProjectID s) (st_ProjectRevision s) (st_DocumentID s) (st_DocumentRevision s) (st_SequenceID s)
    (st_SequenceRevision s) (st_Sections s) (st_Tracks s) (f (st_AuthoredTexts s)) (st_SourceExcerpts s) (st_VisualIntents s)
    (st_Notes s) (st_SectionChildCounts s) (st_SourceExcerptEvidence s) (st_TranscriptArtifacts s)
    (st_TranscriptCorrections s) (st_Captions s) (st_Clips s) (st_LinkGroups s) (st_LinkGroupClips s) (st_SourceStreams s)
    (st_Alignments s) (st_NodeAlignments s) (st_CaptionAlignments s) (st_ClipAlignments s).
Definition load_SourceExcerpts (f : gmap string SourceExcerptState -> gmap string SourceExcerptState) (s : EditNormalizationState) : EditNormalizationState :=
  mkState (st_ProjectID s) (st_ProjectRevision s) (st_DocumentID s) (st_DocumentRevision s) (st_SequenceID s)
    (st_SequenceRevision s) (st_Sections s) (st_Tracks s) (st_AuthoredTexts s) (f (st_SourceExcerpts s)) (st_VisualIntents s)
    (st_Notes s) (st_SectionChildCounts s) (st_SourceExcerptEvidence s) (st_TranscriptArtifacts s)
    (st_TranscriptCorrections s) (st_Captions s) (st_Clips s) (st_LinkGroups s) (st_LinkGroupClips s) (st_SourceStreams s)
    (st_Alignments s) (st_NodeAlignments s) (st_CaptionAlignments s) (st_ClipAlignments s).
Definition load_VisualIntents (f : gmap string VisualIntentState -> gmap string VisualIntentState) (s : EditNormalizationState) : EditNormalizationState :=
  mkState (st_ProjectID s) (st_ProjectRevision s) (st_DocumentID s) (st_DocumentRevision s) (st_SequenceID s)
    (st_SequenceRevision s) (st_Sections s) (st_Tracks s) (st_AuthoredTexts s) (st_SourceExcerpts s) (f (st_VisualIntents s))
    (st_Notes s) (st_SectionChildCounts s) (st_SourceExcerptEvidence s) (st_TranscriptArtifacts s)
    (st_TranscriptCorrections s) (st_Captions s) (st_Clips s) (st_LinkGroups s) (st_LinkGroupClips s) (st_SourceStreams s)
    (st_Alignments s) (st_NodeAlignments s) (st_CaptionAlignments s) (st_ClipAlignments s).
Definition load_Notes (f : gmap string NoteState -> gmap string NoteState) (s : EditNormalizationState) : EditNormalizationState :=
  mkState (st_ProjectID s) (st_ProjectRevision s) (st_DocumentID s) (st_DocumentRevision s) (st_SequenceID s)
    (st_SequenceRevision s) (st_Sections s) (st_Tracks s) (st_AuthoredTexts s) (st_SourceExcerpts s) (st_VisualIntents s)
    (f (st_Notes s)) (st_SectionChildCounts s) (st_SourceExcerptEvidence s) (st_TranscriptArtifacts s)
    (st_TranscriptCorrections s) (st_Captions s) (st_Clips s) (st_LinkGroups s) (st_LinkGroupClips s) (st_SourceStreams s)
    (st_Alignments s) (st_NodeAlignments s) (st_CaptionAlignments s) (st_ClipAlignments s).
Definition load_SectionChildCounts (f : gmap string Z -> gmap string Z) (s : EditNormalizationState) : EditNormalizationState :=
  mkState (st_ProjectID s) (st_ProjectRevision s) (st_DocumentID s) (st_DocumentRevision s) (st_SequenceID s)
    (st_SequenceRevision s) (st_Sections s) (st_Tracks s) (st_AuthoredTexts s) (st_SourceExcerpts s) (st_VisualIntents s)
    (st_Notes s) (f (st_SectionChildCounts s)) (st_SourceExcerptEvidence s) (st_TranscriptArtifacts s)
    (st_TranscriptCorrections s) (st_Captions s) (st_Clips s) (st_LinkGroups s) (st_LinkGroupClips s) (st_SourceStreams s)
    (st_Alignments s) (st_NodeAlignments s) (st_CaptionAlignments s) (st_ClipAlignments s).
Definition load_SourceExcerptEvidence (f : gmap string SourceExcerptEvidenceStatus -> gmap string SourceExcerptEvidenceStatus) (s : EditNormalizationState) : EditNormalizationState :=
  mkState (st_ProjectID s) (st_ProjectRevision s) (st_DocumentID s) (st_DocumentRevision s) (st_SequenceID s)
    (st_SequenceRevision s) (st_Sections s) (st_Tracks s) (st_AuthoredTexts s) (st_SourceExcerpts s) (st_VisualIntents s)
    (st_Notes s) (st_SectionChildCounts s) (f (st_SourceExcerptEvidence s)) (st_TranscriptArtifacts s)
    (st_TranscriptCorrections s) (st_Captions s) (st_Clips s) (st_LinkGroups s) (st_LinkGroupClips s) (st_SourceStreams s)
    (st_Alignments s) (st_NodeAlignments s) (st_CaptionAlignments s) (st_ClipAlignments s).
Definition load_TranscriptArtifacts (f : gmap string EditTranscriptArtifactState -> gmap string EditTranscriptArtifactState) (s : EditNormalizationState) : EditNormalizationState :=
  mkState (st_ProjectID s) (st_ProjectRevision s) (st_DocumentID s) (st_DocumentRevision s) (st_SequenceID s)
    (st_SequenceRevision s) (st_Sections s) (st_Tracks s) (st_AuthoredTexts s) (st_SourceExcerpts s) (st_VisualIntents s)
    (st_Notes s) (st_SectionChildCounts s) (st_SourceExcerptEvidence s) (f (st_TranscriptArtifacts s))
    (st_TranscriptCorrections s) (st_Captions s) (st_Clips s) (st_LinkGroups s) (st_LinkGroupClips s) (st_SourceStreams s)
    (st_Alignments s) (st_NodeAlignments s) (st_CaptionAlignments s) (st_ClipAlignments s).
Definition load_TranscriptCorrections (f : gmap string TranscriptCorrectionState -> gmap string TranscriptCorrectionState) (s : EditNormalizationState) : EditNormalizationState :=
  mkState (st_ProjectID s) (st_ProjectRevision s) (st_DocumentID s) (st_DocumentRevision s) (st_SequenceID s)
    (st_SequenceRevision s) (st_Sections s) (st_Tracks s) (st_AuthoredTexts s) (st_SourceExcerpts s) (st_VisualIntents s)
    (st_Notes s) (st_SectionChildCounts s) (st_SourceExcerptEvidence s) (st_TranscriptArtifacts s)
    (f (st_TranscriptCorrections s)) (st_Captions s) (st_Clips s) (st_LinkGroups s) (st_LinkGroupClips s)
    (st_SourceStreams s) (st_Alignments s) (st_NodeAlignments s) (st_CaptionAlignments s) (st_ClipAlignments s).
Definition load_Captions (f : gmap string CaptionState -> gmap string CaptionState) (s : EditNormalizationState) : EditNormalizationState :=
  mkState (st_ProjectID s) (st_ProjectRevision s) (st_DocumentID s) (st_DocumentRevision s) (st_SequenceID s)
    (st_SequenceRevision s) (st_Sections s) (st_Tracks s) (st_AuthoredTexts s) (st_SourceExcerpts s) (st_VisualIntents s)
    (st_Notes s) (st_SectionChildCounts s) (st_SourceExcerptEvidence s) (st_TranscriptArtifacts s)
    (st_TranscriptCorrections s) (f (st_Captions s)) (st_Clips s) (st_LinkGroups s) (st_LinkGroupClips s)
    (st_SourceStreams s) (st_Alignments s) (st_NodeAlignments s) (st_CaptionAlignments s) (st_ClipAlignments s).
Definition load_Clips (f : gmap string ClipState -> gmap string ClipState) (s : EditNormalizationState) : EditNormalizationState :=
  mkState (st_ProjectID s) (st_ProjectRevision s) (st_DocumentID s) (st_DocumentRevision s) (st_SequenceID s)
    (st_SequenceRevision s) (st_Sections s) (st_Tracks s) (st_AuthoredTexts s) (st_SourceExcerpts s) (st_VisualIntents s)
    (st_Notes s) (st_SectionChildCounts s) (st_SourceExcerptEvidence s) (st_TranscriptArtifacts s)
    (st_TranscriptCorrections s) (st_Captions s) (f (st_Clips s)) (st_LinkGroups s) (st_LinkGroupClips s)
    (st_SourceStreams s) (st_Alignments s) (st_NodeAlignments s) (st_CaptionAlignments s) (st_ClipAlignments s).
Definition load_LinkGroups (f : gmap string LinkGroupState -> gmap string LinkGroupState) (s : EditNormalizationState) : EditNormalizationState :=
  mkState (st_ProjectID s) (st_ProjectRevision s) (st_DocumentID s) (st_DocumentRevision s) (st_SequenceID s)
    (st_SequenceRevision s) (st_Sections s) (st_Tracks s) (st_AuthoredTexts s) (st_SourceExcerpts s) (st_VisualIntents s)
    (st_Notes s) (st_SectionChildCounts s) (st_SourceExcerptEvidence s) (st_TranscriptArtifacts s)
    (st_TranscriptCorrections s) (st_Captions s) (st_Clips s) (f (st_LinkGroups s)) (st_LinkGroupClips s)
    (st_SourceStreams s) (st_Alignments s) (st_NodeAlignments s) (st_CaptionAlignments s) (st_ClipAlignments s).
Definition load_LinkGroupClips (f : gmap string (list string) -> gmap string (list string)) (s : EditNormalizationState) : EditNormalizationState :=
  mkState (st_ProjectID s) (st_ProjectRevision s) (st_DocumentID s) (st_DocumentRevision s) (st_SequenceID s)
    (st_SequenceRevision s) (st_Sections s) (st_Tracks s) (st_AuthoredTexts s) (st_SourceExcerpts s) (st_VisualIntents s)
    (st_Notes s) (st_SectionChildCounts s) (st_SourceExcerptEvidence s) (st_TranscriptArtifacts s)
    (st_TranscriptCorrections s) (st_Captions s) (st_Clips s) (st_LinkGroups s) (f (st_LinkGroupClips s))
    (st_SourceStreams s) (st_Alignments s) (st_NodeAlignments s) (st_CaptionAlignments s) (st_ClipAlignments s).
Definition load_SourceStreams (f : gmap string EditSourceStreamState -> gmap string EditSourceStreamState) (s : EditNormalizationState) : EditNormalizationState :=
  mkState (st_ProjectID s) (st_ProjectRevision s) (st_DocumentID s) (st_DocumentRevision s) (st_SequenceID s)
    (st_SequenceRevision s) (st_Sections s) (st_Tracks s) (st_AuthoredTexts s) (st_SourceExcerpts s) (st_VisualIntents s)
    (st_Notes s) (st_SectionChildCounts s) (st_SourceExcerptEvidence s) (st_TranscriptArtifacts s)
    (st_TranscriptCorrections s) (st_Captions s) (st_Clips s) (st_LinkGroups s) (st_LinkGroupClips s)
    (f (st_SourceStreams s)) (st_Alignments s) (st_NodeAlignments s) (st_CaptionAlignments s) (st_ClipAlignments s).
Definition load_Alignments (f : gmap string AlignmentState -> gmap string AlignmentState) (s : EditNormalizationState) : EditNormalizationState :=
  mkState (st_ProjectID s) (st_ProjectRevision s) (st_DocumentID s) (st_DocumentRevision s) (st_SequenceID s)
    (st_SequenceRevision s) (st_Sections s) (st_Tracks s) (st_AuthoredTexts s) (st_SourceExcerpts s) (st_VisualIntents s)
    (st_Notes s) (st_SectionChildCounts s) (st_SourceExcerptEvidence s) (st_TranscriptArtifacts s)
    (st_TranscriptCorrections s) (st_Captions s) (st_Clips s) (st_LinkGroups s) (st_LinkGroupClips s) (st_SourceStreams s)
    (f (st_Alignments s)) (st_NodeAlignments s) (st_CaptionAlignments s) (st_ClipAlignments s).
Definition load_NodeAlignments (f : gmap string (list string) -> gmap string (list string)) (s : EditNormalizationState) : EditNormalizationState :=
  mkState (st_ProjectID s) (st_ProjectRevision s) (st_DocumentID s) (st_DocumentRevision s) (st_SequenceID s)
    (st_SequenceRevision s) (st_Sections s) (st_Tracks s) (st_AuthoredTexts s) (st_SourceExcerpts s) (st_VisualIntents s)
    (st_Notes s) (st_SectionChildCounts s) (st_SourceExcerptEvidence s) (st_TranscriptArtifacts s)
    (st_TranscriptCorrections s) (st_Captions s) (st_Clips s) (st_LinkGroups s) (st_LinkGroupClips s) (st_SourceStreams s)
    (st_Alignments s) (f (st_NodeAlignments s)) (st_CaptionAlignments s) (st_ClipAlignments s).
Definition load_CaptionAlignments (f : gmap string (list string) -> gmap string (list string)) (s : EditNormalizationState) : EditNormalizationState :=
  mkState (st_ProjectID s) (st_ProjectRevision s) (st_DocumentID s) (st_DocumentRevision s) (st_SequenceID s)
    (st_SequenceRevision s) (st_Sections s) (st_Tracks s) (st_AuthoredTexts s) (st_SourceExcerpts s) (st_VisualIntents s)
    (st_Notes s) (st_SectionChildCounts s) (st_SourceExcerptEvidence s) (st_TranscriptArtifacts s)
    (st_TranscriptCorrections s) (st_Captions s) (st_Clips s) (st_LinkGroups s) (st_LinkGroupClips s) (st_SourceStreams s)
    (st_Alignments s) (st_NodeAlignments s) (f (st_CaptionAlignments s)) (st_ClipAlignments s).
Definition load_ClipAlignments (f : gmap string (list string) -> gmap string (list string)) (s : EditNormalizationState) : EditNormalizationState :=
  mkState (st_ProjectID s) (st_ProjectRevision s) (st_DocumentID s) (st_DocumentRevision s) (st_SequenceID s)
    (st_SequenceRevision s) (st_Sections s) (st_Tracks s) (st_AuthoredTexts s) (st_SourceExcerpts s) (st_VisualIntents s)
    (st_Notes s) (st_SectionChildCounts s) (st_SourceExcerptEvidence s) (st_TranscriptArtifacts s)
    (st_TranscriptCorrections s) (st_Captions s) (st_Clips s) (st_LinkGroups s) (st_LinkGroupClips s) (st_SourceStreams s)
    (st_Alignments s) (st_NodeAlignments s) (st_CaptionAlignments s) (f (st_ClipAlignments s)).

Record loading := mkLoading {
  ld_state : EditNormalizationState; ld_nodes : gset string; ld_captions : gset string; ld_clips : gset string }.

Definition Ld : Type -> Type := ST loading repo_error.

Definition st {A} (f : EditNormalizationState -> A) : Ld A := queries (fun l => f (ld_state l)).
Definition loads (f : EditNormalizationState -> EditNormalizationState) : Ld unit :=
  edits (fun l => mkLoading (f (ld_state l)) (ld_nodes l) (ld_captions l) (ld_clips l)).
Definition mutated_node (id : string) : Ld unit :=
  edits (fun l => mkLoading (ld_state l) ({[ id ]} ∪ ld_nodes l) (ld_captions l) (ld_clips l)).
Definition mutated_caption (id : string) : Ld unit :=
  edits (fun l => mkLoading (ld_state l) (ld_nodes l) ({[ id ]} ∪ ld_captions l) (ld_clips l)).
Definition mutated_clip (id : string) : Ld unit :=
  edits (fun l => mkLoading (ld_state l) (ld_nodes l) (ld_captions l) ({[ id ]} ∪ ld_clips l)).

(** [if _, exists := m[id]; exists { return nil }] *)
Definition unless_loaded {A} (f : EditNormalizationState -> gmap string A) (id : string) (body : Ld unit) : Ld unit :=
  m ← st f; match m !! id with Some _ => mret tt | None => body end.

(** A loop over rows that gives up at the row after the [limit]th *)
Fixpoint at_most {A} (limit : nat) (rows : list A) (body : A -> Ld unit) : Ld unit :=
  match rows with
  | [] => mret tt
  | row :: rest =>
      match limit with
      | O => fails repo_invalid
      | S limit => _ ← body row; at_most limit rest body
      end
  end.

(** [SELECT id FROM table WHERE where ORDER BY key, id LIMIT limit] *)
Definition select_ids {A} (table : gmap string A) (where_ : string -> A -> bool) (key : A -> string) (limit : nat) : list string :=
  take limit (fst <$> sort_by2 (fun e => key e.2) fst (filter (fun e => where_ e.1 e.2 = true) (map_to_list table))).

(** A value read into another of its type: [NewRationalTime] and
    [NewTimeRange] on the stored numbers.  The code has it under three names. *)
Definition stored_time (t : RationalTime) : outcome exact_error RationalTime := NewRationalTime (rt_Value t) (rt_Scale t).
Definition storedTimeRange (r : TimeRange) : outcome exact_error TimeRange :=
  start ← stored_time (tr_Start r); duration ← stored_time (tr_Duration r); NewTimeRange start duration.

(** [ids] that all parse *)
Fixpoint parsed_ids (ids : list string) : outcome identity_error (list string) :=
  match ids with [] => Ok [] | id :: rest => id ← ParseID id; rest ← parsed_ids rest; Ok (id :: rest) end.
Fixpoint parsed_refs (refs : list TranscriptCorrectionRevisionRef) : outcome repo_error (list TranscriptCorrectionRevisionRef) :=
  match refs with
  | [] => Ok []
  | ref :: rest =>
      id ← or_fail repo_invalid (ParseID (cref_ID ref));
      revision ← or_fail repo_invalid (NewRevision (cref_Revision ref));
      rest ← parsed_refs rest;
      Ok (mkCorrectionRef id revision :: rest)
  end.

(** ** Revisions *)

Definition revision_in {A} (table : gmap string A) (project : A -> string) (revision : A -> Z) (projectID id : string) : outcome repo_error Z :=
  match table !! id with
  | Some row => if bool_decide (project row = projectID) then or_fail ErrStored (NewRevision (revision row)) else Fail repo_invalid
  | None => Fail repo_invalid
  end.

Definition loadEditEntityRevision (d : database) (projectID : string) (kind : EditEntityKind) (id : string) : outcome repo_error Z :=
  if bool_decide (kind = EntityNarrativeDocument) then revision_in (db_narrative_documents d) hd_project_id hd_revision projectID id
  else if bool_decide (kind = EntitySequence) then revision_in (db_sequences d) hd_project_id hd_revision projectID id
  else if bool_decide (kind = EntityTrack) then revision_in (db_tracks d) tk_project_id tk_revision projectID id
  else if bool_decide (kind = EntityCaption) then revision_in (db_captions d) ca_project_id ca_revision projectID id
  else if bool_decide (kind = EntityAlignment) then revision_in (db_alignments d) ag_project_id ag_revision projectID id
  else if bool_decide (kind = EntityAsset) then revision_in (db_assets d) asr_project_id asr_revision projectID id
  else if bool_decide (kind = EntityClip) then revision_in (db_clips d) cl_project_id cl_revision projectID id
  else if bool_decide (kind = EntityLinkGroup) then revision_in (db_clip_link_groups d) lg_project_id lg_revision projectID id
  else if bool_decide (kind = EntityTranscriptCorrection) then
    revision_in (db_transcript_corrections d) co_project_id co_revision projectID id
  else if bool_decide (kind = EntityNarrativeNode) then revision_in (db_narrative_nodes d) nr_project_id nr_revision projectID id
  else Fail repo_invalid.

Section loaders.
Context `{Platform} (d : database).

Definition or_stored {E A} (r : outcome E A) : Ld A := lifts (or_fail ErrStored r).
Definition or_invalid_edit {E A} (r : outcome E A) : Ld A := lifts (or_fail repo_invalid r).
Definition language_or_invalid (value : string) : Ld string :=
  match ParseCaptionLanguage value with Some language => mret language | None => fails repo_invalid end.

(** [SELECT ... FROM table WHERE id = ? AND project_id = ?] of the state's
    project; no row is [ErrEditInvalid]. *)
Definition row_of {A} (table : gmap string A) (project : A -> string) (id : string) : Ld A :=
  projectID ← st st_ProjectID;
  match table !! id with
  | Some row => if bool_decide (project row = projectID) then mret row else fails repo_invalid
  | None => fails repo_invalid
  end.

(** A node of a kind joined with its payload *)
Definition node_of {V} (kind : NarrativeNodeKind) (values : gmap string V) (id : string) : Ld (node_row * V) :=
  row ← row_of (db_narrative_nodes d) nr_project_id id;
  _ ← requires repo_invalid (bool_decide (nr_kind row = kind));
  match values !! id with Some value => mret (row, value) | None => fails repo_invalid end.

(** ** Narrative nodes *)

Definition before_in_order (orderIndex : Z) (id : string) (other : string) (row : node_row) : bool :=
  (nr_order_index row <? orderIndex) || ((nr_order_index row =? orderIndex) && str_ltb other id).

(** [ORDER BY order_index DESC, id DESC LIMIT 1] *)
Definition last_in_order (rows : list (string * node_row)) : option string :=
  foldl (fun best e =>
    match best with
    | Some (id, row) => if before_in_order (nr_order_index e.2) e.1 id row then Some e else best
    | None => Some e
    end) None rows ≫= fun e => Some e.1.

Definition loadNarrativeAfter (documentID : string) (parentID : option string) (orderIndex : Z) (id : string) : Ld (option string) :=
  match parentID with
  | None => mret None
  | Some parentID =>
      match last_in_order (filter (fun e => live_sibling documentID parentID e.2 && before_in_order orderIndex id e.1 e.2 = true)
              (map_to_list (db_narrative_nodes d))) with
      | None => mret None
      | Some value => parsed ← or_stored (ParseID value); mret (Some parsed)
      end
  end.

Definition child_count (documentID parentID : string) : Z :=
  Z.of_nat (length (filter (fun e => live_sibling documentID parentID e.2 = true) (map_to_list (db_narrative_nodes d)))).

(** The recursion climbs to the root; every step loads one more section. *)
Fixpoint ensure_section (fuel : nat) (id : string) : Ld unit :=
  match fuel with
  | O => fun _ => Panic
  | S fuel =>
      unless_loaded st_Sections id (
        '(row, value) ← node_of NarrativeNodeSection (db_section_values d) id;
        let nodeID := parse_or_zero id in
        let documentID := parse_or_zero (nr_document_id row) in
        revision ← or_stored (NewRevision (nr_revision row));
        language ← language_or_invalid (sv_language value);
        parentID ← (match nr_parent_id row with
                    | None => mret None
                    | Some parent => parsed ← or_invalid_edit (ParseID parent); mret (Some parsed)
                    end);
        after ← loadNarrativeAfter documentID parentID (nr_order_index row) nodeID;
        _ ← loads (load_Sections (<[id := mkSection nodeID revision documentID parentID after (sv_title value) language (nr_tombstoned row)]>));
        _ ← loads (load_SectionChildCounts (<[id := child_count documentID nodeID]>));
        match parentID with
        | Some parentID => ensure_section fuel parentID
        | None => mret tt
        end)
  end.
Definition ensureSectionState (id : string) : Ld unit := ensure_section (S (size (db_narrative_nodes d))) id.

Definition ensureAuthoredTextState (id : string) : Ld unit :=
  unless_loaded st_AuthoredTexts id (
    '(row, value) ← node_of NarrativeNodeAuthoredText (db_authored_text_values d) id;
    let nodeID := parse_or_zero id in
    let documentID := parse_or_zero (nr_document_id row) in
    parent ← lifts (match nr_parent_id row with Some parent => Ok parent | None => Fail ErrStored end);
    let parentID := parse_or_zero parent in
    revision ← or_stored (NewRevision (nr_revision row));
    language ← language_or_invalid (tv_language value);
    _ ← requires repo_invalid (AuthoredTextPurpose_Validate (tv_purpose value) && bool_decide (tv_text value <> ""));
    after ← loadNarrativeAfter documentID (Some parentID) (nr_order_index row) nodeID;
    loads (load_AuthoredTexts (<[id := mkAuthoredText nodeID revision documentID parentID after (tv_purpose value) language (tv_text value)
      (nr_tombstoned row)]>))).

(** The identities of a node below the root, all of which must parse *)
Definition child_identity (id : string) (row : node_row) : Ld (string * string * string * Z) :=
  parent ← lifts (match nr_parent_id row with Some parent => Ok parent | None => Fail ErrStored end);
  nodeID ← or_invalid_edit (ParseID id);
  documentID ← or_invalid_edit (ParseID (nr_document_id row));
  parentID ← or_invalid_edit (ParseID parent);
  revision ← or_invalid_edit (NewRevision (nr_revision row));
  mret (nodeID, documentID, parentID, revision).

Definition ensureVisualIntentState (id : string) : Ld unit :=
  unless_loaded st_VisualIntents id (
    '(row, value) ← node_of NarrativeNodeVisualIntent (db_visual_intent_values d) id;
    '(nodeID, documentID, parentID, revision) ← child_identity id row;
    language ← language_or_invalid (iv_language value);
    _ ← requires repo_invalid (VisualIntentPurpose_Validate (iv_purpose value) && bool_decide (iv_description value <> ""));
    after ← loadNarrativeAfter documentID (Some parentID) (nr_order_index row) nodeID;
    loads (load_VisualIntents (<[id := mkVisualIntent nodeID revision documentID parentID after (iv_purpose value) language
      (iv_description value) (nr_tombstoned row)]>))).

Definition ensureNoteState (id : string) : Ld unit :=
  unless_loaded st_Notes id (
    '(row, value) ← node_of NarrativeNodeNote (db_note_values d) id;
    '(nodeID, documentID, parentID, revision) ← child_identity id row;
    language ← language_or_invalid (nv_language value);
    _ ← requires repo_invalid (bool_decide (nv_text value <> ""));
    after ← loadNarrativeAfter documentID (Some parentID) (nr_order_index row) nodeID;
    loads (load_Notes (<[id := mkNote nodeID revision documentID parentID after language (nv_text value) (nr_tombstoned row)]>))).

(** The rows of a list, at least one and at most 256 *)
Definition loadSourceExcerptSegmentIDs (ids : list string) : outcome repo_error (list string) :=
  _ ← guard_or repo_invalid ((length ids <=? 256)%nat && negb (bool_decide (ids = [])));
  or_fail repo_invalid (parsed_ids ids).
Definition loadTranscriptCorrectionSegmentIDs := loadSourceExcerptSegmentIDs.
Definition loadCaptionDerivationSegments := loadSourceExcerptSegmentIDs.

Definition loadSourceExcerptCorrectionRefs (refs : list TranscriptCorrectionRevisionRef)
    : outcome repo_error (list TranscriptCorrectionRevisionRef) :=
  _ ← guard_or repo_invalid (length refs <=? 256)%nat; parsed_refs refs.
Definition loadCaptionDerivationCorrections := loadSourceExcerptCorrectionRefs.

Definition ensureSourceExcerptState (id : string) : Ld unit :=
  unless_loaded st_SourceExcerpts id (
    '(row, value) ← node_of NarrativeNodeSourceExcerpt (db_source_excerpt_values d) id;
    '(nodeID, documentID, parentID, revision) ← child_identity id row;
    assetID ← or_invalid_edit (ParseID (ev_asset_id value));
    accepted ← or_invalid_edit (ParseDigest (ev_accepted_fingerprint value));
    rangeValue ← or_invalid_edit (storedTimeRange (ev_source_range value));
    language ← language_or_invalid (ev_language value);
    artifactID ← or_invalid_edit (ParseID (ev_transcript_artifact_id value));
    streamID ← or_invalid_edit (ParseID (ev_source_stream_id value));
    _ ← requires repo_invalid (bool_decide (ev_effective_text value <> ""));
    after ← loadNarrativeAfter documentID (Some parentID) (nr_order_index row) nodeID;
    segmentIDs ← lifts (loadSourceExcerptSegmentIDs (ev_segments value));
    correctionRefs ← lifts (loadSourceExcerptCorrectionRefs (ev_corrections value));
    loads (load_SourceExcerpts (<[id := mkExcerpt nodeID revision documentID parentID after assetID accepted rangeValue language
      (ev_effective_text value) (mkEvidence artifactID streamID segmentIDs correctionRefs) (nr_tombstoned row)]>))).

Definition ensureNarrativeNodeState (id : string) : Ld unit :=
  unless_loaded st_AuthoredTexts id (unless_loaded st_SourceExcerpts id (unless_loaded st_Sections id (
  unless_loaded st_VisualIntents id (unless_loaded st_Notes id (
    row ← row_of (db_narrative_nodes d) nr_project_id id;
    match nr_kind row with
    | NarrativeNodeSection => ensureSectionState id
    | NarrativeNodeAuthoredText => ensureAuthoredTextState id
    | NarrativeNodeSourceExcerpt => ensureSourceExcerptState id
    | NarrativeNodeVisualIntent => ensureVisualIntentState id
    | NarrativeNodeNote => ensureNoteState id
    end))))).

Definition normalizationNarrativeParent (s : EditNormalizationState) (id : string) : option string :=
  match st_Sections s !! id with
  | Some value => sec_ParentID value
  | None =>
  match st_AuthoredTexts s !! id with
  | Some value => Some (txt_ParentID value)
  | None =>
  match st_SourceExcerpts s !! id with
  | Some value => Some (exc_ParentID value)
  | None =>
  match st_VisualIntents s !! id with
  | Some value => Some (vis_ParentID value)
  | None => note_ParentID <$> st_Notes s !! id
  end end end end.

(** ** Captions *)

Definition loadCaptionProvenance (captionID : string) : outcome repo_error CaptionProvenance :=
  match db_caption_provenance d !! captionID with
  | None => Fail repo_invalid
  | Some provenance =>
      match prov_Kind provenance with
      | ProvenanceManual => Ok (mkProvenance ProvenanceManual None)
      | ProvenanceOther _ => Fail repo_invalid
      | ProvenanceTranscriptDerivation =>
          match prov_Derivation provenance with
          | None => Fail repo_invalid
          | Some v =>
              sourceExcerptID ← or_fail repo_invalid (ParseID (cd_SourceExcerptID v));
              assetID ← or_fail repo_invalid (ParseID (cd_AssetID v));
              fingerprint ← or_fail repo_invalid (ParseDigest (cd_AcceptedFingerprint v));
              artifactID ← or_fail repo_invalid (ParseID (cd_ArtifactID v));
              streamID ← or_fail repo_invalid (ParseID (cd_SourceStreamID v));
              clipID ← or_fail repo_invalid (ParseID (cd_ClipID v));
              sourceRevision ← or_fail repo_invalid (NewRevision (cd_SourceExcerptRevision v));
              clipRevision ← or_fail repo_invalid (NewRevision (cd_ClipRevision v));
              language ← (match ParseCaptionLanguage (cd_DerivedLanguage v) with Some language => Ok language | None => Fail repo_invalid end);
              clipSourceRange ← or_fail repo_invalid (storedTimeRange (cd_ClipSourceRange v));
              clipTimelineRange ← or_fail repo_invalid (storedTimeRange (cd_ClipTimelineRange v));
              evidenceRange ← or_fail repo_invalid (storedTimeRange (cd_EvidenceSourceRange v));
              derivedRange ← or_fail repo_invalid (storedTimeRange (cd_DerivedRange v));
              minimum ← or_fail repo_invalid (stored_time (cp_MinimumDuration (cd_Policy v)));
              maximum ← or_fail repo_invalid (stored_time (cp_MaximumDuration (cd_Policy v)));
              gap ← or_fail repo_invalid (stored_time (cp_MaximumGap (cd_Policy v)));
              _ ← guard_or repo_invalid (bool_decide (cd_DerivedText v <> ""));
              let policy := mkCaptionPolicy (cp_ID (cd_Policy v)) (cp_MaximumLines (cd_Policy v)) (cp_MaximumLineGraphemes (cd_Policy v))
                minimum maximum gap (cp_MaximumReadingRate (cd_Policy v)) (cp_BoundaryPolicy (cd_Policy v)) (cp_TimingPolicy (cd_Policy v))
                (cp_UnicodeSegmentationID (cd_Policy v)) in
              _ ← or_fail repo_invalid (CaptionDerivationPolicy_Validate policy);
              segments ← loadCaptionDerivationSegments (cd_SegmentIDs v);
              corrections ← loadCaptionDerivationCorrections (cd_CorrectionRevisions v);
              Ok (mkProvenance ProvenanceTranscriptDerivation (Some
                (mkDerivation sourceExcerptID sourceRevision assetID fingerprint artifactID streamID segments corrections clipID clipRevision
                   clipSourceRange clipTimelineRange evidenceRange policy derivedRange language (cd_DerivedText v))))
          end
      end
  end.

Definition loadCaptionState (id : string) : Ld CaptionState :=
  row ← row_of (db_captions d) ca_project_id id;
  revision ← or_stored (NewRevision (ca_revision row));
  rangeValue ← or_stored (storedTimeRange (ca_range row));
  language ← language_or_invalid (ca_language row);
  provenance ← lifts (loadCaptionProvenance (parse_or_zero id));
  mret (mkCaption (parse_or_zero id) revision (parse_or_zero (ca_sequence_id row)) (parse_or_zero (ca_track_id row)) rangeValue language
    (ca_text row) provenance None (ca_tombstoned row)).

Definition ensureCaptionState (id : string) : Ld unit :=
  unless_loaded st_Captions id (caption ← loadCaptionState id; loads (load_Captions (<[id := caption]>))).

Definition range_keys (range : TimeRange) : Ld (string * string) := or_invalid_edit (orderKeys range).

Definition loadCaptionOverlaps (sequenceID trackID : string) (range : TimeRange) (exclude : option string) : Ld unit :=
  '(startKey, endKey) ← range_keys range;
  at_most 512 (select_ids (db_captions d) (fun id row =>
      bool_decide (ca_sequence_id row = sequenceID) && bool_decide (ca_track_id row = trackID) && negb (ca_tombstoned row) &&
      bool_decide (id <> default "" exclude) && str_ltb (ca_start_key row) endKey && str_ltb startKey (ca_end_key row)) ca_start_key 513)
    (fun value => id ← or_stored (ParseID value); ensureCaptionState id).

(** ** Tracks and streams *)

Definition ensureTrackState (id : string) : Ld unit :=
  unless_loaded st_Tracks id (
    row ← row_of (db_tracks d) tk_project_id id;
    revision ← or_stored (NewRevision (tk_revision row));
    loads (load_Tracks (<[id := mkTrack (parse_or_zero id) (parse_or_zero (tk_sequence_id row)) revision (tk_type row)]>))).

Definition ensureSourceStreamState (assetID streamID : string) : Ld unit :=
  streams ← st st_SourceStreams;
  match streams !! streamID with
  | Some current => requires repo_invalid (bool_decide (stream_AssetID current = assetID))
  | None =>
      projectID ← st st_ProjectID;
      match db_source_streams d !! streamID, db_assets d !! assetID with
      | Some row, Some asset =>
          _ ← requires repo_invalid (bool_decide (sm_asset_id row = assetID) && bool_decide (asr_project_id asset = projectID) &&
                negb (asr_tombstoned asset) && bool_decide (asr_accepted_fingerprint asset = Some (sm_fingerprint row)));
          stream ← or_stored (ParseID streamID);
          asset_id ← or_stored (ParseID assetID);
          revision ← or_stored (NewRevision (asr_revision asset));
          match sm_descriptor row with
          | None => fails repo_invalid
          | Some descriptor => loads (load_SourceStreams (<[streamID := mkStream stream asset_id revision descriptor]>))
          end
      | _, _ => fails repo_invalid
      end
  end.

(** ** Clips and link groups *)

Definition decodedClipPlacement (value : option ClipPlacement) : outcome repo_error (option ClipPlacement) :=
  match value with
  | None => Ok None
  | Some placement => _ ← or_fail ErrStored (ClipPlacement_Validate placement); Ok (Some placement)
  end.

Definition loadClipState (id : string) : Ld ClipState :=
  row ← row_of (db_clips d) cl_project_id id;
  revision ← or_stored (NewRevision (cl_revision row));
  sourceRange ← or_stored (storedTimeRange (cl_source_range row));
  timelineRange ← or_stored (storedTimeRange (cl_timeline_range row));
  linkGroupID ← (match cl_link_group_id row with
                 | None => mret None
                 | Some group => parsed ← or_stored (ParseID group); mret (Some parsed)
                 end);
  placement ← lifts (decodedClipPlacement (cl_placement row));
  mret (mkClip (parse_or_zero id) revision (parse_or_zero (cl_sequence_id row)) (parse_or_zero (cl_track_id row))
    (parse_or_zero (cl_asset_id row)) (parse_or_zero (cl_source_stream_id row)) sourceRange timelineRange (cl_enabled row) linkGroupID
    placement (cl_tombstoned row)).

Definition ensureClipState (id : string) : Ld unit :=
  unless_loaded st_Clips id (clip ← loadClipState id; loads (load_Clips (<[id := clip]>))).

Definition loadLinkGroupState (id : string) : Ld LinkGroupState :=
  row ← row_of (db_clip_link_groups d) lg_project_id id;
  parsed ← or_stored (ParseID id);
  sequenceID ← or_stored (ParseID (lg_sequence_id row));
  revision ← or_stored (NewRevision (lg_revision row));
  mret (mkGroup parsed revision sequenceID (lg_tombstoned row)).

Definition ensureLinkGroupState (id : string) : Ld unit :=
  unless_loaded st_LinkGroups id (group ← loadLinkGroupState id; loads (load_LinkGroups (<[id := group]>))).

Definition group_member (projectID sequenceID group : string) (row : clip_row) : bool :=
  bool_decide (cl_project_id row = projectID) && bool_decide (cl_sequence_id row = sequenceID) &&
  bool_decide (cl_link_group_id row = Some group) && negb (cl_tombstoned row).

(** The members are collected after each was loaded. *)
Definition loadLinkGroupMembers (id : string) : Ld unit :=
  unless_loaded st_LinkGroupClips id (
    _ ← ensureLinkGroupState id;
    projectID ← st st_ProjectID;
    sequenceID ← st st_SequenceID;
    let members := select_ids (db_clips d) (fun _ => group_member projectID sequenceID id) (fun _ => "") 65 in
    _ ← at_most 64 members (fun value => member ← or_stored (ParseID value); ensureClipState member);
    loads (load_LinkGroupClips (<[id := members]>))).

Definition loadClipOverlaps (sequenceID trackID : string) (range : TimeRange) : Ld unit :=
  '(startKey, endKey) ← range_keys range;
  at_most 512 (select_ids (db_clips d) (fun _ row =>
      bool_decide (cl_sequence_id row = sequenceID) && bool_decide (cl_track_id row = trackID) && negb (cl_tombstoned row) &&
      str_ltb (cl_start_key row) endKey && str_ltb startKey (cl_end_key row)) cl_start_key 513)
    (fun value => id ← or_stored (ParseID value); ensureClipState id).

Definition ensureClipDependencies (clip : ClipState) : Ld unit :=
  _ ← ensureTrackState (clip_TrackID clip); ensureSourceStreamState (clip_AssetID clip) (clip_SourceStreamID clip).

(** ** Alignments *)

Definition parseAlignmentTarget (row : AlignmentTarget) : outcome repo_error AlignmentTarget :=
  match row with
  | TargetTimeline v =>
      range ← or_fail repo_invalid (storedTimeRange (tt_Range v));
      revision ← or_fail ErrStored (NewRevision (tt_SequenceRevision v));
      Ok (TargetTimeline (mkTimelineTarget revision range))
  | TargetCaption v =>
      range ← or_fail repo_invalid (storedTimeRange (ct_LocalRange v));
      revision ← or_fail ErrStored (NewRevision (ct_CaptionRevision v));
      id ← or_fail ErrStored (ParseID (ct_CaptionID v));
      Ok (TargetCaption (mkCaptionTarget id revision range))
  | TargetClip v =>
      range ← or_fail repo_invalid (storedTimeRange (kt_LocalRange v));
      revision ← or_fail ErrStored (NewRevision (kt_ClipRevision v));
      id ← or_fail ErrStored (ParseID (kt_ClipID v));
      Ok (TargetClip (mkClipTarget id revision range))
  end.

Fixpoint alignment_targets (targets rows : list AlignmentTarget) : outcome repo_error (list AlignmentTarget) :=
  match rows with
  | [] => Ok targets
  | row :: rest =>
      _ ← guard_or repo_invalid (length targets <? 64)%nat;
      target ← parseAlignmentTarget row;
      _ ← guard_or repo_invalid (match targets with [] => true | first :: _ => same_target_type first target end);
      alignment_targets (targets ++ [target]) rest
  end.

Definition loadAlignmentTargets (alignmentID : string) : outcome repo_error (list AlignmentTarget) :=
  targets ← alignment_targets [] (default [] (db_alignment_targets d !! alignmentID));
  _ ← guard_or repo_invalid (negb (bool_decide (targets = [])));
  Ok targets.

Definition ensureAlignmentState (id : string) : Ld unit :=
  unless_loaded st_Alignments id (
    row ← row_of (db_alignments d) ag_project_id id;
    revision ← or_stored (NewRevision (ag_revision row));
    nodeRevision ← or_stored (NewRevision (ag_narrative_node_revision row));
    targets ← lifts (loadAlignmentTargets (parse_or_zero id));
    loads (load_Alignments (<[id := mkAlignment (parse_or_zero id) revision (parse_or_zero (ag_narrative_node_id row)) nodeRevision
      (parse_or_zero (ag_sequence_id row)) targets (ag_status row)]>))).

(** One row per alignment, or per target of it that names the entity *)
Definition exact_alignments (projectID : string) (matches : string -> alignment_row -> nat) : list string :=
  take 2049 (sort_by id (concat (map (fun e : string * alignment_row =>
    if bool_decide (ag_project_id e.2 = projectID) && bool_decide (ag_status e.2 = AlignmentExact) then replicate (matches e.1 e.2) e.1 else [])
    (map_to_list (db_alignments d))))).

Definition names_caption (captionID : string) (target : AlignmentTarget) : bool :=
  match target with TargetCaption v => bool_decide (ct_CaptionID v = captionID) | _ => false end.
Definition names_clip (clipID : string) (target : AlignmentTarget) : bool :=
  match target with TargetClip v => bool_decide (kt_ClipID v = clipID) | _ => false end.
Definition naming_targets (names : AlignmentTarget -> bool) (alignmentID : string) : nat :=
  length (filter (fun t => names t = true) (default [] (db_alignment_targets d !! alignmentID))).

Definition loadExactAlignments (matches : string -> alignment_row -> nat)
    (get : EditNormalizationState -> gmap string (list string))
    (set : (gmap string (list string) -> gmap string (list string)) -> EditNormalizationState -> EditNormalizationState)
    (entityID : string) : Ld unit :=
  projectID ← st st_ProjectID;
  all_of (exact_alignments projectID matches) (fun value =>
    destination ← st get;
    _ ← requires repo_invalid (length (default [] (destination !! entityID)) <? 2048)%nat;
    id ← or_stored (ParseID value);
    _ ← loads (set (fun m => <[entityID := default [] (m !! entityID) ++ [id]]> m));
    ensureAlignmentState id).

Definition loadExactNodeAlignments (nodeID : string) : Ld unit :=
  loadExactAlignments (fun _ row => if bool_decide (ag_narrative_node_id row = nodeID) then 1%nat else 0%nat)
    st_NodeAlignments load_NodeAlignments nodeID.
Definition loadExactCaptionAlignments (captionID : string) : Ld unit :=
  loadExactAlignments (fun id _ => naming_targets (names_caption captionID) id) st_CaptionAlignments load_CaptionAlignments captionID.
Definition loadExactClipAlignments (clipID : string) : Ld unit :=
  loadExactAlignments (fun id _ => naming_targets (names_clip clipID) id) st_ClipAlignments load_ClipAlignments clipID.

(** ** Transcripts *)

Definition ensureTranscriptCorrectionState (id : string) : Ld unit :=
  unless_loaded st_TranscriptCorrections id (
    row ← row_of (db_transcript_corrections d) co_project_id id;
    parsedID ← or_invalid_edit (ParseID id);
    assetID ← or_invalid_edit (ParseID (co_asset_id row));
    artifactID ← or_invalid_edit (ParseID (co_artifact_id row));
    revision ← or_invalid_edit (NewRevision (co_revision row));
    rangeValue ← or_invalid_edit (storedTimeRange (co_source_range row));
    language ← language_or_invalid (co_language row);
    _ ← requires repo_invalid (bool_decide (co_replacement_text row <> ""));
    segmentIDs ← lifts (loadTranscriptCorrectionSegmentIDs (default [] (db_correction_segments d !! parsedID)));
    loads (load_TranscriptCorrections (<[id := mkCorrection parsedID revision assetID artifactID segmentIDs rangeValue
      (co_replacement_text row) language (co_tombstoned row)]>))).

Definition correction_overlaps (projectID artifactID language startKey endKey : string) : list string :=
  select_ids (db_transcript_corrections d) (fun _ row =>
    bool_decide (co_project_id row = projectID) && bool_decide (co_artifact_id row = artifactID) && bool_decide (co_language row = language) &&
    negb (co_tombstoned row) && str_ltb (co_start_key row) endKey && str_ltb startKey (co_end_key row)) co_start_key 257.

Definition loadTranscriptCorrectionOverlaps (artifactID language : string) (range : TimeRange) : Ld unit :=
  '(startKey, endKey) ← range_keys range;
  projectID ← st st_ProjectID;
  at_most 256 (correction_overlaps projectID artifactID language startKey endKey)
    (fun value => id ← or_invalid_edit (ParseID value); ensureTranscriptCorrectionState id).

Fixpoint transcript_tokens (rows : list TranscriptToken) : outcome repo_error (list TranscriptToken) :=
  match rows with
  | [] => Ok []
  | row :: rest =>
      range ← or_fail repo_invalid (storedTimeRange (tok_SourceRange row));
      _ ← guard_or repo_invalid (bool_decide (tok_Text row <> ""));
      tokens ← transcript_tokens rest;
      Ok (mkToken range (tok_Text row) :: tokens)
  end.

Definition MaximumTranscriptTokensPerSegment : Z := 2048.

Definition loadEditTranscriptTokens (rows : list TranscriptToken) : outcome repo_error (list TranscriptToken) :=
  _ ← guard_or repo_invalid (negb (bool_decide (rows = [])) && (Z.of_nat (length rows) <=? MaximumTranscriptTokensPerSegment));
  transcript_tokens rows.

Definition loadEditTranscriptSegment (artifactID id : string) : outcome repo_error EditTranscriptSegmentState :=
  match db_transcript_segments d !! id with
  | Some row =>
      _ ← guard_or repo_invalid (bool_decide (sg_artifact_id row = artifactID));
      parsedID ← or_fail repo_invalid (ParseID id);
      range ← or_fail repo_invalid (storedTimeRange (sg_range row));
      _ ← guard_or repo_invalid (bool_decide (sg_text row <> ""));
      tokens ← loadEditTranscriptTokens (sg_tokens row);
      Ok (mkSegment parsedID (sg_ordinal row) range (sg_text row) tokens)
  | None => Fail repo_invalid
  end.

Fixpoint transcript_segments (artifactID : string) (segments : gmap string EditTranscriptSegmentState) (ids : list string)
    : outcome repo_error (gmap string EditTranscriptSegmentState) :=
  match ids with
  | [] => Ok segments
  | id :: rest =>
      match segments !! id with
      | Some _ => transcript_segments artifactID segments rest
      | None => segment ← loadEditTranscriptSegment artifactID id; transcript_segments artifactID (<[id := segment]> segments) rest
      end
  end.

Definition transcript_artifact (projectID id : string) : outcome repo_error EditTranscriptArtifactState :=
  match db_transcripts d !! id with
  | Some row =>
      _ ← guard_or repo_invalid (bool_decide (ts_project_id row = projectID) && ts_ready row);
      parsedID ← or_fail repo_invalid (ParseID id);
      assetID ← or_fail repo_invalid (ParseID (ts_asset_id row));
      fingerprint ← or_fail repo_invalid (ParseDigest (ts_input_fingerprint row));
      streamID ← or_fail repo_invalid (ParseID (ts_source_stream_id row));
      language ← (match ParseCaptionLanguage (ts_detected_language row) with Some language => Ok language | None => Fail repo_invalid end);
      Ok (mkArtifact parsedID assetID fingerprint streamID language ∅)
  | None => Fail repo_invalid
  end.

Definition ensureEditTranscriptArtifact (id : string) (segmentIDs : list string) : Ld unit :=
  artifacts ← st st_TranscriptArtifacts;
  projectID ← st st_ProjectID;
  artifact ← lifts (match artifacts !! id with Some artifact => Ok artifact | None => transcript_artifact projectID id end);
  segments ← lifts (transcript_segments id (art_Segments artifact) segmentIDs);
  loads (load_TranscriptArtifacts (<[id := mkArtifact (art_ID artifact) (art_AssetID artifact) (art_Fingerprint artifact)
    (art_SourceStreamID artifact) (art_Language artifact) segments]>)).

(** ** The evidence of an excerpt *)

Definition evidence_available (projectID : string) (excerpt : SourceExcerptState) : bool :=
  match db_assets d !! exc_AssetID excerpt, db_transcripts d !! ev_ArtifactID (exc_Evidence excerpt) with
  | Some asset, Some artifact =>
      bool_decide (asr_project_id asset = projectID) && negb (asr_tombstoned asset) &&
      bool_decide (asr_accepted_fingerprint asset = Some (exc_AcceptedFingerprint excerpt)) &&
      bool_decide (ts_project_id artifact = asr_project_id asset) && bool_decide (ts_asset_id artifact = exc_AssetID excerpt) &&
      ts_ready artifact && bool_decide (ts_input_fingerprint artifact = exc_AcceptedFingerprint excerpt) &&
      bool_decide (ts_source_stream_id artifact = ev_SourceStreamID (exc_Evidence excerpt))
  | _, _ => false
  end.

(** The revisions of the corrections now over the excerpt; [None] past 256 *)
Fixpoint current_corrections (limit : nat) (ids : list string) : outcome repo_error (option (gmap string Z)) :=
  match ids with
  | [] => Ok (Some ∅)
  | id :: rest =>
      match limit with
      | O => Ok None
      | S limit =>
          revision ← or_fail repo_invalid (NewRevision (default 0 (co_revision <$> db_transcript_corrections d !! id)));
          others ← current_corrections limit rest;
          Ok (others ≫= fun m => Some (<[id := revision]> m))
      end
  end.

Definition sourceExcerptEvidenceStatus (projectID : string) (excerpt : SourceExcerptState)
    : outcome repo_error SourceExcerptEvidenceStatus :=
  if negb (evidence_available projectID excerpt) then Ok SourceExcerptEvidenceStale
  else
    '(startKey, endKey) ← or_fail repo_invalid (sourceOrderKeys (exc_SourceRange excerpt));
    current ← current_corrections 256 (correction_overlaps projectID (ev_ArtifactID (exc_Evidence excerpt)) (exc_Language excerpt) startKey endKey);
    let pinned := ev_CorrectionRevisions (exc_Evidence excerpt) in
    Ok (match current with
        | Some current =>
            if bool_decide (size current = length pinned) &&
               forallb (fun ref => default 0 (current !! cref_ID ref) =? cref_Revision ref) pinned
            then SourceExcerptEvidenceExact else SourceExcerptEvidenceStale
        | None => SourceExcerptEvidenceStale
        end).

Definition ensureSourceExcerptEvidenceStatus (excerpt : SourceExcerptState) : Ld unit :=
  projectID ← st st_ProjectID;
  status ← lifts (sourceExcerptEvidenceStatus projectID excerpt);
  loads (load_SourceExcerptEvidence (<[exc_ID excerpt := status]>)).
End loaders.
