(* ===== verification/EditLoadState.v ===== *)
(** The state a request is normalized against, loaded operation by operation:
    [loadEditNormalizationState] of [apps/api/repository/edit_state.go], the
    loaders of clip mutations ([edit_state_clip_mutations.go]) and the checks on
    who writes. *)
From stdpp Require Import base list strings gmap sorting.
From Stdlib Require Import ZArith Lia.
From S2P Require Import Prelude GoText Exact Identity Canonical EditModel Timeline EditState EditClips EditNarrative EditDerive EditValidate.
From S2P Require Import EditNormalize Database Projection EditLoad.
Open Scope Z_scope.

(** [ActorRef.IDString] *)
Definition IDString (actor : ActorRef) : string :=
  match actor_Kind actor with
  | ActorCreator => default "" (actor_CreatorID actor)
  | ActorAgent => default "" (actor_AgentID actor)
  | ActorOther _ => ""
  end.
Definition AgentActor (id : string) : ActorRef := mkActor ActorAgent None (Some id).

(** [application.ProposeEditRecord].  [pe_InputValid] is
    [json.Valid(record.InputCanonical)]: the bytes are only stored. *)
Record ProposeEditRecord := mkProposeRecord {
  pe_ProjectID : string; pe_SequenceID : string; pe_RunID : string; pe_TurnID : string; pe_Actor : ActorRef; pe_RequestID : string;
  pe_InputDigest : string; pe_InputValid : bool; pe_ProposalID : string; pe_ActivityEventID : string;
  pe_Allocation : list LocalAllocation; pe_Input : EditProposeInput; pe_CreatedAtIsZero : bool }.

(** ** Writers *)

Section writers.
Context (d : database).

Definition AgentRunActive : string := "active".
Definition AgentTurnActive : string := "active".
Definition ProjectActive : string := "active".

(** The run's agent, its status, and its current turn with the turn's status *)
Definition loadAgentRun (projectID runID : string) : outcome repo_error (ActorRef * string * string * string) :=
  match db_agent_runs d !! runID with
  | Some row =>
      _ ← guard_or ErrRunNotFound (bool_decide (rn_project_id row = projectID));
      _ ← or_fail ErrStored (ParseID runID);
      _ ← or_fail ErrStored (ParseID (rn_project_id row));
      actorID ← (match rn_actor_id row with Some actorID => Ok actorID | None => Fail ErrRunNotFound end);
      agent ← or_fail ErrStored (ParseID actorID);
      turn ← or_fail ErrStored (ParseID (rn_current_turn_id row));
      Ok (AgentActor agent, rn_status row, turn, rn_turn_status row)
  | None => Fail ErrRunNotFound
  end.

Definition sequence_exists (projectID sequenceID : string) : bool :=
  match db_sequences d !! sequenceID with Some row => bool_decide (hd_project_id row = projectID) | None => false end.

Definition validateEditWriter (projectID sequenceID runID turnID : string) (actor : ActorRef) : outcome repo_error unit :=
  _ ← guard_or repo_invalid (negb (IsZero projectID || IsZero sequenceID || IsZero runID || IsZero turnID) && ActorRef_Validate actor &&
        bool_decide (actor_Kind actor = ActorAgent));
  '(run_actor, status, turn, turn_status) ← loadAgentRun projectID runID;
  _ ← guard_or repo_conflict (bool_decide (IDString run_actor = IDString actor));
  _ ← guard_or ErrEditStaleTurn (bool_decide (status = AgentRunActive) && bool_decide (turn = turnID) && bool_decide (turn_status = AgentTurnActive));
  guard_or repo_invalid (sequence_exists projectID sequenceID).

Definition validateCreatorEditSequence (projectID sequenceID : string) : outcome repo_error unit :=
  _ ← guard_or repo_invalid (negb (IsZero projectID || IsZero sequenceID));
  guard_or repo_invalid (sequence_exists projectID sequenceID).

Definition validateEditNormalizationWriter (projectID sequenceID runID turnID : string) (actor : ActorRef) : outcome repo_error unit :=
  if bool_decide (actor_Kind actor = ActorAgent) then validateEditWriter projectID sequenceID runID turnID actor
  else
    _ ← guard_or repo_invalid (bool_decide (actor_Kind actor = ActorCreator) && ActorRef_Validate actor && IsZero runID && IsZero turnID);
    validateCreatorEditSequence projectID sequenceID.

Definition loadEditHeads (projectID sequenceID : string) : outcome repo_error EditNormalizationState :=
  match db_projects d !! projectID with
  | None => Fail ErrProjectNotFound
  | Some project =>
      match db_narrative_documents d !! pr_narrative_document_id project, db_sequences d !! sequenceID with
      | Some document, Some sequence =>
          _ ← guard_or ErrProjectNotFound (bool_decide (hd_project_id sequence = projectID));
          _ ← guard_or ErrProjectNotActive (bool_decide (pr_status project = ProjectActive));
          projectRev ← or_fail ErrStored (NewRevision (pr_revision project));
          documentRev ← or_fail ErrStored (NewRevision (hd_revision document));
          sequenceRev ← or_fail ErrStored (NewRevision (hd_revision sequence));
          Ok (mkState (parse_or_zero projectID) projectRev (parse_or_zero (pr_narrative_document_id project)) documentRev
                (parse_or_zero sequenceID) sequenceRev ∅ ∅ ∅ ∅ ∅ ∅ ∅ ∅ ∅ ∅ ∅ ∅ ∅ ∅ ∅ ∅ ∅ ∅ ∅)
      | _, _ => Fail ErrProjectNotFound
      end
  end.
End writers.

(** ** Clip mutations *)

Definition trimBoundaryDeltas (current next : TimeRange) : outcome repo_error (RationalTime * RationalTime) :=
  left ← or_fail repo_invalid (Subtract (tr_Start next) (tr_Start current));
  currentEnd ← or_fail repo_invalid (End current);
  nextEnd ← or_fail repo_invalid (End next);
  right ← or_fail repo_invalid (Subtract nextEnd currentEnd);
  Ok (left, right).

Definition rangeWithStoredBoundaryDeltas (current : TimeRange) (left right : RationalTime) : outcome repo_error TimeRange :=
  start ← or_fail repo_invalid (Add (tr_Start current) left);
  end_ ← or_fail repo_invalid (End current);
  end_ ← or_fail repo_invalid (Add end_ right);
  duration ← or_fail repo_invalid (Subtract end_ start);
  or_fail repo_invalid (NewTimeRange start duration).

Section operations.
Context `{Platform} (d : database).

Definition loaded_clip (id : string) : Ld ClipState := st (fun s => at_key zero_clip (st_Clips s) id).
Definition loaded_members (group : string) : Ld (list string) := st (fun s => at_key [] (st_LinkGroupClips s) group).

(** The members of the mutation: the clip, or its whole group in linked scope.
    A change of membership mutates every member of the group. *)
Definition mutation_members (operation : EditOperationInput) (seedID : string) (seed : ClipState) : Ld (list string) :=
  let membershipChange := bool_decide (op_Type operation = EditSplitClip) || bool_decide (op_Type operation = EditRemoveClip) in
  match op_Scope operation, clip_LinkGroupID seed with
  | Some scope, Some group =>
      if bool_decide (scope = ClipScopeLinked) || membershipChange then
        _ ← loadLinkGroupMembers d group;
        all ← loaded_members group;
        _ ← (if membershipChange then all_of all mutated_clip else mret tt);
        mret (if bool_decide (scope = ClipScopeLinked) then all else [seedID])
      else mret [seedID]
  | _, _ => mret [seedID]
  end.

Definition load_moved (operation : EditOperationInput) (seed : ClipState) (members : list string) : Ld unit :=
  trackID ← pointee (op_TrackID operation);
  _ ← ensureTrackState d trackID;
  start ← pointee (op_TimelineStart operation);
  delta ← or_invalid_edit (Subtract start (tr_Start (clip_TimelineRange seed)));
  all_of members (fun memberID =>
    current ← loaded_clip memberID;
    start ← or_invalid_edit (Add (tr_Start (clip_TimelineRange current)) delta);
    sequenceID ← st st_SequenceID;
    loadClipOverlaps d sequenceID (if bool_decide (clip_ID current = clip_ID seed) then trackID else clip_TrackID current)
      (mkRange start (tr_Duration (clip_TimelineRange current)))).

Definition load_trimmed (operation : EditOperationInput) (seed : ClipState) (members : list string) : Ld unit :=
  timelineRange ← pointee (op_TimelineRange operation);
  '(leftDelta, rightDelta) ← lifts (trimBoundaryDeltas (clip_TimelineRange seed) timelineRange);
  all_of members (fun memberID =>
    current ← loaded_clip memberID;
    candidate ← lifts (rangeWithStoredBoundaryDeltas (clip_TimelineRange current) leftDelta rightDelta);
    sequenceID ← st st_SequenceID;
    loadClipOverlaps d sequenceID (clip_TrackID current) candidate).

Definition loadClipMutationInput (operation : EditOperationInput) : Ld unit :=
  clip ← pointee (op_Clip operation);
  seedID ← or_invalid_edit (ParseID (ref_ID clip));
  _ ← ensureClipState d seedID;
  seed ← loaded_clip seedID;
  _ ← ensureClipDependencies d seed;
  members ← mutation_members operation seedID seed;
  _ ← all_of members (fun memberID =>
        _ ← ensureClipState d memberID;
        current ← loaded_clip memberID;
        _ ← ensureClipDependencies d current;
        mutated_clip memberID);
  match op_Type operation with
  | EditMoveClip => load_moved operation seed members
  | EditTrimClip => load_trimmed operation seed members
  | _ => mret tt
  end.

Definition loadLinkClipsInput (operation : EditOperationInput) : Ld unit :=
  all_of (op_Clips operation) (fun reference =>
    id ← or_invalid_edit (ParseID (ref_ID reference));
    _ ← ensureClipState d id;
    clip ← loaded_clip id;
    _ ← ensureClipDependencies d clip;
    mutated_clip id).

Definition loadUnlinkClipsInput (operation : EditOperationInput) : Ld unit :=
  group ← pointee (op_LinkGroup operation);
  id ← or_invalid_edit (ParseID (ref_ID group));
  _ ← loadLinkGroupMembers d id;
  members ← loaded_members id;
  all_of members (fun memberID =>
    clip ← loaded_clip memberID;
    _ ← ensureClipDependencies d clip;
    mutated_clip memberID).

Definition loadAlignmentRemapInput (operation : EditOperationInput) : Ld unit :=
  alignmentID ← pointee (op_AlignmentID operation);
  _ ← ensureAlignmentState d alignmentID;
  alignments ← st st_Alignments;
  _ ← all_of (match alignments !! alignmentID with Some current => al_Targets current | None => [] end) (fun target =>
        match target with
        | TargetClip v => ensureClipState d (kt_ClipID v)
        | TargetCaption v => ensureCaptionState d (ct_CaptionID v)
        | TargetTimeline _ => mret tt
        end);
  all_of (op_AlignmentTargets operation) (fun target =>
    _ ← (match ti_Clip target with
         | Some clip => if bool_decide (ref_ID clip <> "") then id ← or_invalid_edit (ParseID (ref_ID clip)); ensureClipState d id else mret tt
         | None => mret tt
         end);
    match ti_Caption target with
    | Some caption =>
        if bool_decide (ref_ID caption <> "") then id ← or_invalid_edit (ParseID (ref_ID caption)); ensureCaptionState d id else mret tt
    | None => mret tt
    end).

(** ** One operation of the request *)

(** [if reference != nil && reference.ID != "" { id, _ := Parse(reference.ID); ... }] *)
Definition when_named (reference : option EditReference) (body : string -> Ld unit) : Ld unit :=
  match reference with
  | Some reference => if bool_decide (ref_ID reference <> "") then body (parse_or_zero (ref_ID reference)) else mret tt
  | None => mret tt
  end.

Definition load_insertion (operation : EditOperationInput) : Ld unit :=
  parentID ← pointee (op_ParentID operation);
  _ ← ensureSectionState d parentID;
  when_named (op_After operation) (ensureNarrativeNodeState d).

(** The parent section of a loaded node that is moved or removed *)
Definition load_parent (nodeID : string) : Ld unit :=
  parent ← st (fun s => normalizationNarrativeParent s nodeID);
  match parent with
  | None => fails repo_invalid
  | Some parent => ensureSectionState d parent
  end.

Definition load_excerpt_evidence (operation : EditOperationInput) : Ld unit :=
  artifactID ← pointee (op_TranscriptArtifactID operation);
  _ ← ensureEditTranscriptArtifact d artifactID (op_TranscriptSegmentIDs operation);
  language ← pointee (op_Language operation);
  range ← pointee (op_SourceRange operation);
  loadTranscriptCorrectionOverlaps d artifactID language range.

Definition load_derived_captions (operation : EditOperationInput) (sequenceID : string) : Ld unit :=
  node ← pointee (op_NarrativeNode operation);
  nodeID ← or_invalid_edit (ParseID (ref_ID node));
  _ ← ensureSourceExcerptState d nodeID;
  excerpt ← st (fun s => at_key zero_excerpt (st_SourceExcerpts s) nodeID);
  _ ← ensureEditTranscriptArtifact d (ev_ArtifactID (exc_Evidence excerpt)) (ev_SegmentIDs (exc_Evidence excerpt));
  _ ← loadTranscriptCorrectionOverlaps d (ev_ArtifactID (exc_Evidence excerpt)) (exc_Language excerpt) (exc_SourceRange excerpt);
  _ ← ensureSourceStreamState d (exc_AssetID excerpt) (ev_SourceStreamID (exc_Evidence excerpt));
  clip ← pointee (op_Clip operation);
  clipID ← or_invalid_edit (ParseID (ref_ID clip));
  _ ← ensureClipState d clipID;
  trackID ← pointee (op_TrackID operation);
  _ ← ensureTrackState d trackID;
  all_of (op_DerivedCaptions operation) (fun output => loadCaptionOverlaps d sequenceID trackID (dc_TimelineRange output) None).

Definition lanes {A} (video audio : option A) : list A := option_list video ++ option_list audio.

Definition load_rough_cut (operation : EditOperationInput) (sequenceID : string) : Ld unit :=
  _ ← all_of (op_RoughCutItems operation) (fun item =>
        _ ← ensureSourceExcerptState d (item_SourceExcerptID item);
        excerpt ← st (fun s => at_key zero_excerpt (st_SourceExcerpts s) (item_SourceExcerptID item));
        _ ← ensureSourceExcerptEvidenceStatus d excerpt;
        all_of (lanes (item_Video item) (item_Audio item)) (fun lane =>
          _ ← ensureTrackState d (lane_TrackID lane);
          ensureSourceStreamState d (exc_AssetID excerpt) (lane_SourceStreamID lane)));
  all_of (op_DerivedRoughCut operation) (fun output =>
    all_of (lanes (rc_Video output) (rc_Audio output)) (fun lane =>
      loadClipOverlaps d sequenceID (lo_TrackID lane) (rc_TimelineRange output))).

Definition load_operation (sequenceID : string) (operation : EditOperationInput) : Ld unit :=
  match op_Type operation with
  | EditInsertSection | EditInsertAuthoredText | EditInsertVisualIntent | EditInsertNote => load_insertion operation
  | EditUpdateSection | EditUpdateAuthoredText | EditUpdateVisualIntent | EditUpdateNote =>
      nodeID ← pointee (op_NodeID operation);
      _ ← ensureNarrativeNodeState d nodeID;
      mutated_node nodeID
  | EditMoveNarrativeNode =>
      nodeID ← pointee (op_NodeID operation);
      _ ← ensureNarrativeNodeState d nodeID;
      _ ← load_parent nodeID;
      _ ← load_insertion operation;
      mutated_node nodeID
  | EditRemoveNarrativeNode =>
      nodeID ← pointee (op_NodeID operation);
      _ ← ensureNarrativeNodeState d nodeID;
      _ ← load_parent nodeID;
      mutated_node nodeID
  | EditAddCaption =>
      trackID ← pointee (op_TrackID operation);
      _ ← ensureTrackState d trackID;
      range ← pointee (op_Range operation);
      loadCaptionOverlaps d sequenceID trackID range None
  | EditUpdateCaption =>
      captionID ← pointee (op_CaptionID operation);
      _ ← ensureCaptionState d captionID;
      current ← st (fun s => at_key zero_caption (st_Captions s) captionID);
      _ ← ensureTrackState d (caption_TrackID current);
      range ← pointee (op_Range operation);
      _ ← loadCaptionOverlaps d sequenceID (caption_TrackID current) range (Some (caption_ID current));
      mutated_caption (caption_ID current)
  | EditRemoveCaption =>
      captionID ← pointee (op_CaptionID operation);
      _ ← ensureCaptionState d captionID;
      current ← st (fun s => at_key zero_caption (st_Captions s) captionID);
      _ ← ensureTrackState d (caption_TrackID current);
      mutated_caption (caption_ID current)
  | EditBindAlignment =>
      node ← pointee (op_NarrativeNode operation);
      _ ← when_named (Some node) (ensureNarrativeNodeState d);
      all_of (op_AlignmentTargets operation) (fun target =>
        _ ← when_named (ti_Caption target) (ensureCaptionState d);
        when_named (ti_Clip target) (ensureClipState d))
  | EditRemapAlignment => loadAlignmentRemapInput operation
  | EditMarkAlignmentStale | EditUnbindAlignment =>
      alignmentID ← pointee (op_AlignmentID operation); ensureAlignmentState d alignmentID
  | EditAddClip =>
      trackID ← pointee (op_TrackID operation);
      _ ← ensureTrackState d trackID;
      assetID ← pointee (op_AssetID operation);
      streamID ← pointee (op_SourceStreamID operation);
      _ ← ensureSourceStreamState d assetID streamID;
      range ← pointee (op_TimelineRange operation);
      _ ← loadClipOverlaps d sequenceID trackID range;
      when_named (op_LinkGroup operation) (loadLinkGroupMembers d)
  | EditMoveClip | EditTrimClip | EditSplitClip | EditRemoveClip => loadClipMutationInput operation
  | EditSetClipPlacement =>
      match op_Clip operation with
      | None => fails repo_invalid
      | Some clip =>
          clipID ← or_invalid_edit (ParseID (ref_ID clip));
          _ ← ensureClipState d clipID;
          current ← loaded_clip clipID;
          _ ← ensureTrackState d (clip_TrackID current);
          mutated_clip clipID
      end
  | EditLinkClips => loadLinkClipsInput operation
  | EditUnlinkClips => loadUnlinkClipsInput operation
  | EditAddTranscriptCorrection => load_excerpt_evidence operation
  | EditUpdateTranscriptCorrection =>
      correctionID ← pointee (op_TranscriptCorrectionID operation);
      _ ← ensureTranscriptCorrectionState d correctionID;
      corrections ← st st_TranscriptCorrections;
      language ← pointee (op_Language operation);
      match corrections !! correctionID with
      | Some current => loadTranscriptCorrectionOverlaps d (cor_ArtifactID current) language (cor_SourceRange current)
      | None => loadTranscriptCorrectionOverlaps d "" language zero_range
      end
  | EditRemoveTranscriptCorrection =>
      correctionID ← pointee (op_TranscriptCorrectionID operation); ensureTranscriptCorrectionState d correctionID
  | EditInsertSourceExcerpt =>
      _ ← load_insertion operation;
      load_excerpt_evidence operation
  | EditDeriveCaptions => load_derived_captions operation sequenceID
  | EditDeriveRoughCut => load_rough_cut operation sequenceID
  | EditOtherOperation _ => mret tt
  end.

Fixpoint check_preconditions (projectID : string) (items : list EntityPrecondition) : outcome repo_error unit :=
  match items with
  | [] => Ok tt
  | item :: rest =>
      revision ← loadEditEntityRevision d projectID (pre_Kind item) (pre_ID item);
      _ ← guard_or repo_conflict (revision =? pre_Revision item);
      check_preconditions projectID rest
  end.

(** The alignments that depend on what the request mutates *)
Definition load_dependents : Ld unit :=
  nodes ← queries ld_nodes;
  _ ← all_of (elements nodes) (loadExactNodeAlignments d);
  captions ← queries ld_captions;
  _ ← all_of (elements captions) (loadExactCaptionAlignments d);
  clips ← queries ld_clips;
  all_of (elements clips) (loadExactClipAlignments d).

Definition loadEditNormalizationState (record : ProposeEditRecord) : outcome repo_error EditNormalizationState :=
  _ ← validateEditNormalizationWriter d (pe_ProjectID record) (pe_SequenceID record) (pe_RunID record) (pe_TurnID record) (pe_Actor record);
  state ← loadEditHeads d (pe_ProjectID record) (pe_SequenceID record);
  _ ← check_preconditions (pe_ProjectID record) (pi_Preconditions (pe_Input record));
  '(_, loaded) ← (_ ← all_of (pi_Operations (pe_Input record)) (load_operation (pe_SequenceID record)); load_dependents)
    (mkLoading state ∅ ∅ ∅);
  Ok (ld_state loaded).
End operations.
