(* ===== verification/EditRepository.v ===== *)
(** The edit repository: proposing, applying, undoing and committing edits in
    database transactions ([apps/api/repository/edits.go], [edit_apply*.go],
    [edit_converge.go], [edit_undo*.go], [edit_creator.go], [edit_reads.go] and
    the activity log of [genesis.go]).

    Every command first looks up its request identity: a request that was
    answered before is answered again from the journal, without effect.
    Operations that put an asset or restore a project version come from other
    services and are no part of [NormalizedEditOperation]. *)
From stdpp Require Import base list strings gmap sorting.
From Stdlib Require Import ZArith Lia.
From S2P Require Import Prelude GoText Exact Identity Canonical EditModel Timeline EditState EditClips EditNarrative EditCaptions EditDerive EditValidate EditNormalize.
From S2P Require Import EditJournal Database Projection EditLoad EditLoadState.
Open Scope Z_scope.

(** What [encoding/json] makes of the anonymous structs that are digested.  It
    tells a nil slice from an empty one, which the lists of the model do not. *)
Class EditCodec := {
  proposal_payload : EditProposal -> option string -> jvalue;
  transaction_payload : EditTransaction -> string -> jvalue }.

Inductive ProposalStatus := ProposalOpen | ProposalApplied | ProposalStale | ProposalCancelled.
#[export] Instance ProposalStatus_eq_dec : EqDecision ProposalStatus.
Proof. solve_decision. Defined.

(** [domain.EditProposal] with the fields that are not the normalizer's *)
Record StoredProposal := mkStored {
  sp_proposal : EditProposal; sp_Digest : string; sp_Status : ProposalStatus; sp_AppliedTransactionID : option string }.

Record EditProposalResult := mkProposalResult { pr_Proposal : StoredProposal; pr_ActivityCursor : Z; pr_Replayed : bool }.
Record EditCommitResult := mkCommitResult {
  cr_Proposal : StoredProposal; cr_Transaction : EditTransaction; cr_ActivityCursor : Z; cr_Replayed : bool }.

Record ApplyEditRecord := mkApplyRecord {
  ar_ProjectID : string; ar_SequenceID : string; ar_RunID : string; ar_TurnID : string; ar_Actor : ActorRef; ar_ProposalID : string;
  ar_RequestID : string; ar_InputDigest : string; ar_InputValid : bool; ar_ApplicationID : string; ar_TransactionID : string;
  ar_ActivityEventID : string; ar_ProposalDigest : string; ar_OccurredAtIsZero : bool }.

(** [UndoEditRecord]; an [UndoCreatorEditRecord] has no run and turn. *)
Record UndoEditRecord := mkUndoRecord {
  ur_ProjectID : string; ur_SequenceID : string; ur_RunID : string; ur_TurnID : string; ur_Actor : ActorRef;
  ur_TargetTransactionID : string; ur_RequestID : string; ur_InputDigest : string; ur_InputValid : bool; ur_ProposalID : string;
  ur_ApplicationID : string; ur_TransactionID : string; ur_ActivityEventID : string; ur_Intent : string; ur_OccurredAtIsZero : bool }.

Record CommitCreatorEditRecord := mkCommitRecord {
  cc_ProjectID : string; cc_SequenceID : string; cc_Actor : ActorRef; cc_RequestID : string; cc_InputDigest : string;
  cc_InputValid : bool; cc_ProposalID : string; cc_ApplicationID : string; cc_TransactionID : string; cc_ActivityEventID : string;
  cc_Allocation : list LocalAllocation; cc_Input : EditProposeInput; cc_OccurredAtIsZero : bool }.

(** ** Reading the journal *)

Definition parseStoredActor (kind : ActorKind) (value : string) : outcome repo_error ActorRef :=
  match kind with
  | ActorCreator => id ← or_fail ErrStored (ParseID value); Ok (mkActor ActorCreator (Some id) None)
  | ActorAgent => id ← or_fail ErrStored (ParseID value); Ok (AgentActor id)
  | ActorOther _ => Fail ErrStored
  end.

Definition storedProposalStatus (value : proposal_status) : ProposalStatus :=
  match value with
  | StatusPending | StatusApprovalPending => ProposalOpen
  | StatusApplied => ProposalApplied
  | StatusStale => ProposalStale
  | StatusCancelled => ProposalCancelled
  end.

Definition nullable_id (value : option string) : outcome repo_error (option string) :=
  match value with None => Ok None | Some id => id ← or_fail ErrStored (ParseID id); Ok (Some id) end.

Definition loadEditProposal (d : database) (projectID proposalID : string) : outcome repo_error StoredProposal :=
  match db_edit_proposals d !! proposalID with
  | Some row =>
      let p := po_proposal row in
      _ ← guard_or ErrProposalNotFound (bool_decide (p_ProjectID p = projectID));
      request ← or_fail ErrStored (ParseRequestID (p_RequestID p));
      actor ← parseStoredActor (actor_Kind (p_Actor p)) (IDString (p_Actor p));
      revision ← or_fail ErrStored (NewRevision (p_BaseProjectRevision p));
      digest ← or_fail ErrStored (ParseDigest (po_digest row));
      sequence ← or_fail ErrStored (ParseID (p_SequenceID p));
      run ← nullable_id (p_RunID p);
      turn ← nullable_id (p_TurnID p);
      applied ← nullable_id (po_applied_transaction_id row);
      Ok (mkStored (mkProposal (parse_or_zero proposalID) (parse_or_zero (p_ProjectID p)) sequence run turn request actor (p_Intent p) revision
            (p_Preconditions p) (p_Allocation p) (p_Operations p) (p_InversePreview p) (p_Changes p))
          digest (storedProposalStatus (po_status row)) applied)
  | None => Fail ErrProposalNotFound
  end.

Definition loadEditTransaction (d : database) (projectID transactionID : string) : outcome repo_error EditTransaction :=
  match db_edit_transactions d !! transactionID with
  | Some t =>
      _ ← guard_or ErrTransactionNotFound (bool_decide (tx_ProjectID t = projectID));
      actor ← parseStoredActor (actor_Kind (tx_Actor t)) (IDString (tx_Actor t));
      revision ← or_fail ErrStored (NewRevision (tx_CommittedProjectRevision t));
      digest ← or_fail ErrStored (ParseDigest (tx_Digest t));
      undoes ← nullable_id (tx_UndoesTransactionID t);
      Ok (mkTransaction (parse_or_zero transactionID) (parse_or_zero (tx_ProposalID t)) (parse_or_zero (tx_ProjectID t)) actor (tx_Intent t)
            (tx_Operations t) (tx_InverseOperations t) (tx_Changes t) revision digest undoes)
  | None => Fail ErrTransactionNotFound
  end.

Definition request_of (actor : ActorRef) (requestID : string) : request_key :=
  (match actor_Kind actor with ActorCreator => "creator" | ActorAgent => "agent" | ActorOther text => text end, IDString actor, requestID).

Definition loadEditRequest (d : database) (actor : ActorRef) (requestID : string) : outcome repo_error storedEditRequest :=
  match db_edit_request_identities d !! request_of actor requestID with
  | Some row =>
      digest ← or_fail ErrStored (ParseDigest (sq_InputDigest row));
      projectID ← or_fail ErrStored (ParseID (sq_ProjectID row));
      proposalID ← or_fail ErrStored (ParseID (sq_ProposalID row));
      eventID ← or_fail ErrStored (ParseID (sq_ActivityEventID row));
      application ← nullable_id (sq_ApplicationID row);
      transaction ← nullable_id (sq_TransactionID row);
      Ok (mkStoredRequest (sq_Command row) digest projectID proposalID application transaction eventID)
  | None => Fail ErrNoRows
  end.

Definition activityCursorForEvent (d : database) (eventID : string) : outcome repo_error Z :=
  match db_activity_outbox d !! eventID with
  | Some row => or_fail ErrStored (NewCursor (ac_cursor row))
  | None => Fail ErrNoRows
  end.

Definition loadEditCommitReplay (d : database) (actor : ActorRef) (requestID commandName digest projectID : string)
    : outcome repo_error EditCommitResult :=
  stored ← loadEditRequest d actor requestID;
  transactionID ← (match sq_TransactionID stored with
    | Some transactionID =>
        _ ← guard_or ErrEditRequestReused (bool_decide (sq_Command stored = commandName) && bool_decide (sq_InputDigest stored = digest) &&
              bool_decide (sq_ProjectID stored = projectID));
        Ok transactionID
    | None => Fail ErrEditRequestReused
    end);
  proposal ← loadEditProposal d projectID (sq_ProposalID stored);
  transaction ← loadEditTransaction d projectID transactionID;
  cursor ← activityCursorForEvent d (sq_ActivityEventID stored);
  Ok (mkCommitResult proposal transaction cursor false).

(** ** Preparing a transaction *)

Fixpoint preconditions_hold (d : database) (projectID : string) (items : list EntityPrecondition) : outcome repo_error unit :=
  match items with
  | [] => Ok tt
  | item :: rest =>
      current ← or_fail repo_conflict (loadEditEntityRevision d projectID (pre_Kind item) (pre_ID item));
      _ ← guard_or repo_conflict (current =? pre_Revision item);
      preconditions_hold d projectID rest
  end.

Definition editEntityExists (d : database) (projectID : string) (kind : EditEntityKind) (id : string) : outcome repo_error bool :=
  match loadEditEntityRevision d projectID kind id with
  | Ok _ => Ok true
  | Fail e => if bool_decide (e = repo_invalid) then Ok false else Fail e
  | Panic => Panic
  end.

Fixpoint changes_hold (d : database) (projectID : string) (changes : list EntityRevisionChange) : outcome repo_error unit :=
  match changes with
  | [] => Ok tt
  | change :: rest =>
      _ ← (match ch_Before change with
           | None =>
               exists_ ← editEntityExists d projectID (ch_Kind change) (ch_ID change);
               guard_or repo_conflict (negb exists_)
           | Some before =>
               current ← or_fail repo_conflict (loadEditEntityRevision d projectID (ch_Kind change) (ch_ID change));
               guard_or repo_conflict (current =? before)
           end);
      changes_hold d projectID rest
  end.

Definition validateProposalPreconditions (d : database) (proposal : EditProposal) : outcome repo_error unit :=
  _ ← preconditions_hold d (p_ProjectID proposal) (p_Preconditions proposal);
  changes_hold d (p_ProjectID proposal) (p_Changes proposal).

Definition aggregate_head (d : database) (projectID : string) (kind : EditEntityKind) : outcome repo_error (string * Z) :=
  if bool_decide (kind = EntityNarrativeDocument) then
    match db_projects d !! projectID with
    | Some project =>
        match db_narrative_documents d !! pr_narrative_document_id project with
        | Some row => Ok (pr_narrative_document_id project, hd_revision row)
        | None => Fail ErrNoRows
        end
    | None => Fail ErrNoRows
    end
  else if bool_decide (kind = EntitySequence) then
    match db_projects d !! projectID with
    | Some project =>
        match db_sequences d !! pr_main_sequence_id project with
        | Some row => Ok (pr_main_sequence_id project, hd_revision row)
        | None => Fail ErrNoRows
        end
    | None => Fail ErrNoRows
    end
  else Fail repo_invalid.

Definition currentAggregateChange (d : database) (projectID : string) (kind : EditEntityKind) : outcome repo_error EntityRevisionChange :=
  '(id, value) ← aggregate_head d projectID kind;
  before ← or_fail ErrStored (NewRevision value);
  after ← or_fail ErrStored (Revision_Next before);
  Ok (mkChange kind id (Some before) after false).

Definition proposalChangesNarrative (operations : list NormalizedEditOperation) : bool :=
  existsb (fun o => match o with PutNarrativeNode _ => true | _ => false end) operations.
Definition proposalChangesSequence (operations : list NormalizedEditOperation) : bool :=
  existsb (fun o => match o with PutCaption _ | PutClip _ | PutLinkGroup _ => true | _ => false end) operations.

Definition sortEntityChanges (changes : list EntityRevisionChange) : list EntityRevisionChange := sort_by2 ch_Kind ch_ID changes.

Definition project_revision (d : database) (projectID : string) : outcome repo_error Z :=
  match db_projects d !! projectID with
  | Some row => or_fail ErrStored (NewRevision (pr_revision row))
  | None => Fail ErrNoRows
  end.

(** An aggregate change when the operations call for one *)
Definition aggregate_change_when (d : database) (projectID : string) (kind : EditEntityKind) (b : bool)
    : outcome repo_error (list EntityRevisionChange) :=
  if b then change ← currentAggregateChange d projectID kind; Ok [change] else Ok [].

Section repository.
Context `{Platform} `{SQLite} `{EditCodec}.

Definition prepareEditTransaction (d : database) (proposal : StoredProposal) (transactionID : string) (undoes : option string)
    : outcome repo_error EditTransaction :=
  let p := sp_proposal proposal in
  _ ← validateProposalPreconditions d p;
  projectRevision ← project_revision d (p_ProjectID p);
  nextProjectRevision ← or_fail ErrStored (Revision_Next projectRevision);
  narrative ← aggregate_change_when d (p_ProjectID p) EntityNarrativeDocument (proposalChangesNarrative (p_Operations p));
  sequence ← aggregate_change_when d (p_ProjectID p) EntitySequence (proposalChangesSequence (p_Operations p));
  let transaction digest := mkTransaction transactionID (p_ID p) (p_ProjectID p) (p_Actor p) (p_Intent p) (p_Operations p) (p_InversePreview p)
    (sortEntityChanges (p_Changes p ++ narrative ++ sequence)) nextProjectRevision digest undoes in
  '(_, digest) ← or_fail ErrStored (CanonicalDigest platform_sha256 "open-cut/edit-transaction" "open-cut/edit-transaction/v5"
    (transaction_payload (transaction "") (sp_Digest proposal)));
  Ok (transaction digest).

(** ** Applying a transaction *)

Definition change_index (changes : list EntityRevisionChange) : gmap string EntityRevisionChange :=
  foldl (fun m change => <[entityKey (ch_Kind change) (ch_ID change) := change]> m) ∅ changes.

Definition normalizedOperationEntityKeys (operations : list NormalizedEditOperation) : gset string :=
  list_to_set (map (fun o => entityKey (op_kind o) (op_id o)) operations).

Definition aggregate_kind (kind : EditEntityKind) : bool :=
  bool_decide (kind ∈ [EntityNarrativeDocument; EntityNarrativeNode; EntitySequence; EntityTrack]).

Definition persistAndApplyEditTransaction (transaction : EditTransaction) : Tx unit :=
  _ ← sql_insert "edit_transactions" db_edit_transactions set_edit_transactions (tx_ID transaction) transaction;
  let changeIndex := change_index (tx_Changes transaction) in
  _ ← all_of (tx_Operations transaction) (applyNormalizedOperation (tx_ProjectID transaction) (tx_ID transaction) changeIndex);
  let leafChanges := normalizedOperationEntityKeys (tx_Operations transaction) in
  _ ← all_of (tx_Changes transaction) (fun change =>
        if bool_decide (entityKey (ch_Kind change) (ch_ID change) ∈ leafChanges) then mret tt
        else if aggregate_kind (ch_Kind change) then applyAggregateRevision (tx_ProjectID transaction) change
        else mret tt);
  changed ← sql_update "projects" db_projects set_projects (tx_ProjectID transaction)
    (fun row => pr_revision row =? tx_CommittedProjectRevision transaction - 1)
    (fun row => mkProjectRow (tx_CommittedProjectRevision transaction) (pr_status row) (pr_narrative_document_id row) (pr_main_sequence_id row));
  requireOneEditRow changed.

Definition insertProposalApplication (id : string) (proposal : EditProposal) (actor : ActorRef) (requestID digest transactionID : string) : Tx unit :=
  sql_insert "proposal_applications" db_proposal_applications set_proposal_applications id
    (mkApplicationRow (p_ProjectID proposal) (p_ID proposal) actor requestID digest transactionID).

(** One event more in the log of a project *)
Definition appendActivity (scopeID eventID kind : string) (actor : ActorRef) (projectRevision : Z) (outcomeID : string) : Tx Z :=
  _ ← sql_exec "INSERT activity_heads" (fun d =>
        Ok (set_activity_heads (fun m => match m !! scopeID with Some _ => m | None => <[scopeID := 0]> m end) d));
  _ ← sql_exec "UPDATE activity_heads" (fun d => Ok (set_activity_heads (alter (fun cursor => cursor + 1) scopeID) d));
  cursorValue ← queries (fun d => default 0 (db_activity_heads d !! scopeID));
  cursor ← lifts (or_fail ErrStored (NewCursor cursorValue));
  _ ← sql_insert "activity_outbox" db_activity_outbox set_activity_outbox eventID
    (mkActivityRow scopeID cursor kind actor projectRevision outcomeID);
  mret cursor.

Definition appendEditCommittedActivity (transaction : EditTransaction) (eventID : string) : Tx Z :=
  appendActivity (tx_ProjectID transaction) eventID "edit.committed" (tx_Actor transaction) (tx_CommittedProjectRevision transaction)
    (tx_ID transaction).

Definition insertEditRequest (actor : ActorRef) (requestID command digest projectID proposalID : string) (applicationID transactionID : option string)
    (eventID : string) : Tx unit :=
  sql_insert "edit_request_identities" db_edit_request_identities set_edit_request_identities (request_of actor requestID)
    (mkStoredRequest command digest projectID proposalID applicationID transactionID eventID).

(** The statement of [ProposeEdit] and of [insertEditProposalRow] *)
Definition insertEditProposalRow (proposal : StoredProposal) (canonical : bytes) : Tx unit :=
  sql_insert "edit_proposals" db_edit_proposals set_edit_proposals (p_ID (sp_proposal proposal))
    (mkProposalRow (sp_proposal proposal) (sp_Digest proposal) canonical StatusPending None).

Definition with_status (status : proposal_status) (transactionID : option string) (row : proposal_row) : proposal_row :=
  mkProposalRow (po_proposal row) (po_digest row) (po_canonical row) status transactionID.

Definition markEditProposalApplied (proposalID transactionID : string) : Tx unit :=
  _ ← sql_update "edit_proposals" db_edit_proposals set_edit_proposals proposalID (fun row => bool_decide (po_status row = StatusPending))
    (with_status StatusApplied (Some transactionID));
  mret tt.

(** [UndoEdit] marks without asking for the status. *)
Definition mark_undo_applied (proposalID transactionID : string) : Tx unit :=
  _ ← sql_update "edit_proposals" db_edit_proposals set_edit_proposals proposalID (fun _ => true)
    (with_status StatusApplied (Some transactionID));
  mret tt.

Definition insert_run_transaction (runID transactionID : string) : Tx unit :=
  sql_insert "agent_run_transactions" db_agent_run_transactions set_agent_run_transactions transactionID runID.

(** A statement whose error is dropped *)
Definition attempt {A} (m : Tx A) : Tx unit := fun d =>
  match m d with Ok (_, d') => Ok (tt, d') | Fail _ => Ok (tt, d) | Panic => Panic end.

Definition reading {A} (f : database -> outcome repo_error A) : Tx A := fun d => lifts (f d) d.

(** [if found, err := lookup; err == nil {...} else if !errors.Is(err, sql.ErrNoRows) { return err }] *)
Definition unless_found {A B} (lookup : database -> outcome repo_error B) (found : B -> database -> outcome repo_error A) (body : Tx A) : Tx A := fun d =>
  match lookup d with
  | Ok b => reading (found b) d
  | Fail e => if bool_decide (e = ErrNoRows) then body d else Fail e
  | Panic => Panic
  end.

(** The lookup of a commit: what is missing anywhere in it counts as no request. *)
Definition unless_replayed (actor : ActorRef) (requestID command digest projectID : string) (body : Tx EditCommitResult) : Tx EditCommitResult :=
  unless_found (fun d => loadEditCommitReplay d actor requestID command digest projectID)
    (fun r _ => Ok (mkCommitResult (cr_Proposal r) (cr_Transaction r) (cr_ActivityCursor r) true)) body.

Definition applied (proposal : StoredProposal) (transactionID : string) : StoredProposal :=
  mkStored (sp_proposal proposal) (sp_Digest proposal) ProposalApplied (Some transactionID).

(** ** Propose *)

(** [NormalizeEditProposal] with the digest of the proposal *)
Definition normalized_proposal (input : NormalizeEditInput) : outcome repo_error (StoredProposal * bytes) :=
  proposal ← from_edit (NormalizeEditProposal input);
  '(canonical, digest) ← or_fail ErrStored (CanonicalDigest platform_sha256 "open-cut/edit-proposal" "open-cut/edit-proposal/v5"
    (proposal_payload proposal None));
  Ok (mkStored proposal digest ProposalOpen None, canonical).

Definition record_input (record : ProposeEditRecord) (state : EditNormalizationState) : NormalizeEditInput :=
  mkInput (pe_ProposalID record) (pe_ProjectID record) (pe_SequenceID record) (pe_RunID record) (pe_TurnID record) (pe_Actor record)
    (pe_Allocation record) (pe_Input record) (pe_CreatedAtIsZero record) state.

Definition valid_request (requestID digest : string) : bool := is_ok (ParseRequestID requestID) && is_ok (ParseDigest digest).

Definition validateProposeEditRecord (record : ProposeEditRecord) : outcome repo_error unit :=
  guard_or repo_invalid (forallb (fun id => negb (IsZero id))
      [pe_ProjectID record; pe_SequenceID record; pe_RunID record; pe_TurnID record; pe_ProposalID record; pe_ActivityEventID record] &&
    ActorRef_Validate (pe_Actor record) && bool_decide (actor_Kind (pe_Actor record) = ActorAgent) && pe_InputValid record &&
    negb (pe_CreatedAtIsZero record) && valid_request (pe_RequestID record) (pe_InputDigest record)).

Definition replayed_proposal (record : ProposeEditRecord) (existing : storedEditRequest) (d : database) : outcome repo_error EditProposalResult :=
  _ ← guard_or ErrEditRequestReused (bool_decide (sq_Command existing = "edit propose") &&
        bool_decide (sq_InputDigest existing = pe_InputDigest record) && bool_decide (sq_ProjectID existing = pe_ProjectID record));
  proposal ← loadEditProposal d (pe_ProjectID record) (sq_ProposalID existing);
  cursor ← activityCursorForEvent d (sq_ActivityEventID existing);
  Ok (mkProposalResult proposal cursor true).

Definition propose_body (record : ProposeEditRecord) : Tx EditProposalResult :=
  unless_found (fun d => loadEditRequest d (pe_Actor record) (pe_RequestID record)) (replayed_proposal record) (
    state ← reading (fun d => loadEditNormalizationState d record);
    '(proposal, canonical) ← lifts (normalized_proposal (record_input record state));
    _ ← insertEditProposalRow proposal canonical;
    cursor ← appendActivity (p_ProjectID (sp_proposal proposal)) (pe_ActivityEventID record) "edit.proposed" (pe_Actor record)
      (st_ProjectRevision state) (p_ID (sp_proposal proposal));
    _ ← insertEditRequest (pe_Actor record) (pe_RequestID record) "edit propose" (pe_InputDigest record) (pe_ProjectID record)
      (p_ID (sp_proposal proposal)) None None (pe_ActivityEventID record);
    mret (mkProposalResult proposal cursor false)).

(** A command: the record is checked before the transaction begins. *)
Definition command {A} (valid : outcome repo_error unit) (body : Tx A) (d : database) : outcome repo_error A * database :=
  match valid with Ok _ => transaction body d | Fail e => (Fail e, d) | Panic => (Panic, d) end.

Definition ProposeEdit (record : ProposeEditRecord) : database -> outcome repo_error EditProposalResult * database :=
  command (validateProposeEditRecord record) (propose_body record).

(** ** Apply *)

Definition validateApplyEditRecord (record : ApplyEditRecord) : outcome repo_error unit :=
  guard_or repo_invalid (forallb (fun id => negb (IsZero id))
      [ar_ProjectID record; ar_SequenceID record; ar_RunID record; ar_TurnID record; ar_ProposalID record; ar_ApplicationID record;
       ar_TransactionID record; ar_ActivityEventID record] &&
    ActorRef_Validate (ar_Actor record) && bool_decide (actor_Kind (ar_Actor record) = ActorAgent) && ar_InputValid record &&
    negb (ar_OccurredAtIsZero record) && valid_request (ar_RequestID record) (ar_InputDigest record)).

Definition convergeAppliedProposal (record : ApplyEditRecord) (proposal : StoredProposal) (appliedID : string) : Tx EditCommitResult :=
  let p := sp_proposal proposal in
  transaction ← reading (fun d => loadEditTransaction d (p_ProjectID p) appliedID);
  _ ← insertProposalApplication (ar_ApplicationID record) p (ar_Actor record) (ar_RequestID record) (ar_InputDigest record) (tx_ID transaction);
  currentRevision ← reading (fun d => match db_projects d !! p_ProjectID p with Some row => Ok (pr_revision row) | None => Fail ErrNoRows end);
  cursor ← appendActivity (p_ProjectID p) (ar_ActivityEventID record) "edit.apply-converged" (ar_Actor record) currentRevision (tx_ID transaction);
  _ ← insertEditRequest (ar_Actor record) (ar_RequestID record) "edit apply" (ar_InputDigest record) (ar_ProjectID record) (p_ID p)
    (Some (ar_ApplicationID record)) (Some (tx_ID transaction)) (ar_ActivityEventID record);
  mret (mkCommitResult proposal transaction cursor false).

(** The proposal belongs to this run and turn, and is the one that was reviewed. *)
Definition proposal_matches (record : ApplyEditRecord) (proposal : StoredProposal) : bool :=
  bool_decide (IDString (p_Actor (sp_proposal proposal)) = IDString (ar_Actor record)) &&
  bool_decide (p_RunID (sp_proposal proposal) = Some (ar_RunID record)) &&
  bool_decide (p_TurnID (sp_proposal proposal) = Some (ar_TurnID record)) &&
  bool_decide (sp_Digest proposal = ar_ProposalDigest record).

(** Preparing; a conflict marks the proposal stale before it is returned. *)
Definition prepare_or_mark_stale (record : ApplyEditRecord) (proposal : StoredProposal) : Tx EditTransaction := fun d =>
  match prepareEditTransaction d proposal (ar_TransactionID record) None with
  | Ok transaction => Ok (transaction, d)
  | Fail e =>
      (_ ← (if bool_decide (e = repo_conflict) then
              attempt (sql_update "edit_proposals" db_edit_proposals set_edit_proposals (p_ID (sp_proposal proposal)) (fun _ => true)
                (fun row => with_status StatusStale (po_applied_transaction_id row) row))
            else mret tt);
       fails e) d
  | Panic => Panic
  end.

(** What a commit records after the entities are written *)
Definition record_commit (actor : ActorRef) (requestID command digest projectID applicationID eventID : string) (mark : Tx unit)
    (proposal : StoredProposal) (transaction : EditTransaction) : Tx EditCommitResult :=
  _ ← insertProposalApplication applicationID (sp_proposal proposal) actor requestID digest (tx_ID transaction);
  _ ← mark;
  cursor ← appendEditCommittedActivity transaction eventID;
  _ ← insertEditRequest actor requestID command digest projectID (p_ID (sp_proposal proposal)) (Some applicationID) (Some (tx_ID transaction)) eventID;
  mret (mkCommitResult (applied proposal (tx_ID transaction)) transaction cursor false).

(** [ApplyEdit] past the lookup of its request *)
Definition apply_effect (record : ApplyEditRecord) : Tx EditCommitResult :=
  _ ← reading (fun d => validateEditWriter d (ar_ProjectID record) (ar_SequenceID record) (ar_RunID record) (ar_TurnID record) (ar_Actor record));
  proposal ← reading (fun d => loadEditProposal d (ar_ProjectID record) (ar_ProposalID record));
  _ ← requires repo_conflict (proposal_matches record proposal);
  match sp_Status proposal, sp_AppliedTransactionID proposal with
  | ProposalApplied, Some appliedID => convergeAppliedProposal record proposal appliedID
  | ProposalStale, _ => fails ErrProposalStale
  | ProposalOpen, _ =>
      transaction ← prepare_or_mark_stale record proposal;
      _ ← persistAndApplyEditTransaction transaction;
      record_commit (ar_Actor record) (ar_RequestID record) "edit apply" (ar_InputDigest record) (ar_ProjectID record)
        (ar_ApplicationID record) (ar_ActivityEventID record)
        (_ ← markEditProposalApplied (p_ID (sp_proposal proposal)) (tx_ID transaction);
         insert_run_transaction (ar_RunID record) (tx_ID transaction)) proposal transaction
  | _, _ => fails ErrProposalTerminal
  end.

Definition apply_body (record : ApplyEditRecord) : Tx EditCommitResult :=
  unless_replayed (ar_Actor record) (ar_RequestID record) "edit apply" (ar_InputDigest record) (ar_ProjectID record) (apply_effect record).

Definition ApplyEdit (record : ApplyEditRecord) : database -> outcome repo_error EditCommitResult * database :=
  command (validateApplyEditRecord record) (apply_body record).

(** ** Commit for the creator *)

Definition validateCommitCreatorEditRecord (record : CommitCreatorEditRecord) : outcome repo_error unit :=
  guard_or repo_invalid (forallb (fun id => negb (IsZero id))
      [cc_ProjectID record; cc_SequenceID record; cc_ProposalID record; cc_ApplicationID record; cc_TransactionID record; cc_ActivityEventID record] &&
    ActorRef_Validate (cc_Actor record) && bool_decide (actor_Kind (cc_Actor record) = ActorCreator) && cc_InputValid record &&
    negb (cc_OccurredAtIsZero record) && valid_request (cc_RequestID record) (cc_InputDigest record)).

Definition creatorEditCommitRequest : string := "creator edit commit".
Definition creatorEditUndoRequest : string := "creator edit undo".

Definition commit_proposal (record : CommitCreatorEditRecord) : ProposeEditRecord :=
  mkProposeRecord (cc_ProjectID record) (cc_SequenceID record) "" "" (cc_Actor record) (cc_RequestID record) "" false (cc_ProposalID record) ""
    (cc_Allocation record) (cc_Input record) (cc_OccurredAtIsZero record).

Definition commit_effect (record : CommitCreatorEditRecord) : Tx EditCommitResult :=
  state ← reading (fun d => loadEditNormalizationState d (commit_proposal record));
  '(proposal, canonical) ← lifts (normalized_proposal (record_input (commit_proposal record) state));
  _ ← insertEditProposalRow proposal canonical;
  transaction ← reading (fun d => prepareEditTransaction d proposal (cc_TransactionID record) None);
  _ ← persistAndApplyEditTransaction transaction;
  record_commit (cc_Actor record) (cc_RequestID record) creatorEditCommitRequest (cc_InputDigest record) (cc_ProjectID record)
    (cc_ApplicationID record) (cc_ActivityEventID record) (markEditProposalApplied (p_ID (sp_proposal proposal)) (tx_ID transaction))
    proposal transaction.

Definition commit_body (record : CommitCreatorEditRecord) : Tx EditCommitResult :=
  unless_replayed (cc_Actor record) (cc_RequestID record) creatorEditCommitRequest (cc_InputDigest record) (cc_ProjectID record) (commit_effect record).

Definition CommitCreatorEdit (record : CommitCreatorEditRecord) : database -> outcome repo_error EditCommitResult * database :=
  command (validateCommitCreatorEditRecord record) (commit_body record).
End repository.

(** * Undoing a committed transaction ([apps/api/repository/edit_undo*.go] and
    [UndoCreatorEdit]): the inverse operations of the target, rebased onto the
    current revisions, become a proposal that is applied at once. *)


(** The document and the sequence advance with every edit and do not count. *)
Definition document_or_sequence (kind : EditEntityKind) : bool :=
  bool_decide (kind = EntityNarrativeDocument) || bool_decide (kind = EntitySequence).

Section undo.
Context (d : database) (projectID : string).

Fixpoint validateUndoTargetCurrent (changes : list EntityRevisionChange) : outcome repo_error unit :=
  match changes with
  | [] => Ok tt
  | change :: rest =>
      _ ← (if document_or_sequence (ch_Kind change) then Ok tt
           else
             current ← or_fail repo_conflict (loadEditEntityRevision d projectID (ch_Kind change) (ch_ID change));
             guard_or repo_conflict (current =? ch_After change));
      validateUndoTargetCurrent rest
  end.

Definition normalizedOperationIdentity (operation : NormalizedEditOperation) : outcome repo_error (EditEntityKind * string) :=
  match operation with
  | PutNarrativeNode state => _ ← guard_or repo_invalid (negb (IsZero (narrativeNodeID state))); Ok (EntityNarrativeNode, narrativeNodeID state)
  | PutCaption state => Ok (EntityCaption, caption_ID state)
  | PutAlignment state => Ok (EntityAlignment, al_ID state)
  | PutClip state => Ok (EntityClip, clip_ID state)
  | PutLinkGroup state => Ok (EntityLinkGroup, group_ID state)
  | PutTranscriptCorrection state => Ok (EntityTranscriptCorrection, cor_ID state)
  end.

Definition normalizedOperationRevision (operation : NormalizedEditOperation) : Z := op_revision operation.
Definition normalizedOperationTombstoned (operation : NormalizedEditOperation) : bool := op_tombstoned operation.
Definition setNormalizedOperationRevision (operation : NormalizedEditOperation) (revision : Z) : NormalizedEditOperation :=
  at_revision revision operation.

Fixpoint operationRevisionMap (operations : list NormalizedEditOperation) (result : gmap string Z) : outcome repo_error (gmap string Z) :=
  match operations with
  | [] => Ok result
  | operation :: rest =>
      '(kind, id) ← normalizedOperationIdentity operation;
      revision ← or_fail repo_conflict (loadEditEntityRevision d projectID kind id);
      operationRevisionMap rest (<[entityKey kind id := revision]> result)
  end.

Definition revisionFromMapOrStore (kind : EditEntityKind) (id : string) (revisions : gmap string Z) : outcome repo_error Z :=
  match revisions !! entityKey kind id with
  | Some revision => Ok revision
  | None => or_fail repo_conflict (loadEditEntityRevision d projectID kind id)
  end.

(** The first loop of [rebaseOperationSet] *)
Fixpoint rebase_revisions (operations : list NormalizedEditOperation) (base final : gmap string Z)
    : outcome repo_error (list NormalizedEditOperation * gmap string Z) :=
  match operations with
  | [] => Ok ([], final)
  | operation :: rest =>
      '(kind, id) ← normalizedOperationIdentity operation;
      current ← (match base !! entityKey kind id with
                 | Some current => Ok current
                 | None => or_fail repo_conflict (loadEditEntityRevision d projectID kind id)
                 end);
      next ← or_fail ErrStored (Revision_Next current);
      '(result, final) ← rebase_revisions rest base (<[entityKey kind id := next]> final);
      Ok (setNormalizedOperationRevision operation next :: result, final)
  end.

Definition rebase_target (sequenceID : string) (sequenceChanged : bool) (final : gmap string Z) (target : AlignmentTarget)
    : outcome repo_error AlignmentTarget :=
  match target with
  | TargetCaption v =>
      revision ← revisionFromMapOrStore EntityCaption (ct_CaptionID v) final;
      Ok (TargetCaption (mkCaptionTarget (ct_CaptionID v) revision (ct_LocalRange v)))
  | TargetClip v =>
      revision ← revisionFromMapOrStore EntityClip (kt_ClipID v) final;
      Ok (TargetClip (mkClipTarget (kt_ClipID v) revision (kt_LocalRange v)))
  | TargetTimeline v =>
      revision ← loadEditEntityRevision d projectID EntitySequence sequenceID;
      revision ← (if sequenceChanged then or_fail ErrStored (Revision_Next revision) else Ok revision);
      Ok (TargetTimeline (mkTimelineTarget revision (tt_Range v)))
  end.

Fixpoint rebase_targets (sequenceID : string) (sequenceChanged : bool) (final : gmap string Z) (targets : list AlignmentTarget)
    : outcome repo_error (list AlignmentTarget) :=
  match targets with
  | [] => Ok []
  | target :: rest =>
      target ← rebase_target sequenceID sequenceChanged final target;
      rest ← rebase_targets sequenceID sequenceChanged final rest;
      Ok (target :: rest)
  end.

(** The second loop: exact alignments follow what they point at. *)
Fixpoint rebase_alignments (sequenceChanged : bool) (final : gmap string Z) (operations : list NormalizedEditOperation)
    : outcome repo_error (list NormalizedEditOperation) :=
  match operations with
  | [] => Ok []
  | operation :: rest =>
      operation ← (match operation with
        | PutAlignment v =>
            match al_Status v with
            | AlignmentExact =>
                nodeRevision ← revisionFromMapOrStore EntityNarrativeNode (al_NarrativeNodeID v) final;
                targets ← rebase_targets (al_SequenceID v) sequenceChanged final (al_Targets v);
                Ok (PutAlignment (mkAlignment (al_ID v) (al_Revision v) (al_NarrativeNodeID v) nodeRevision (al_SequenceID v) targets (al_Status v)))
            | _ => Ok operation
            end
        | _ => Ok operation
        end);
      rest ← rebase_alignments sequenceChanged final rest;
      Ok (operation :: rest)
  end.

Definition rebaseOperationSet (operations : list NormalizedEditOperation) (base : gmap string Z)
    : outcome repo_error (list NormalizedEditOperation * gmap string Z) :=
  '(result, final) ← rebase_revisions operations base base;
  result ← rebase_alignments (proposalChangesSequence operations) final result;
  Ok (result, final).

(** The changes of the operations, then those of the target that no operation makes *)
Fixpoint operation_changes (operations : list NormalizedEditOperation) : outcome repo_error (list EntityRevisionChange) :=
  match operations with
  | [] => Ok []
  | operation :: rest =>
      '(kind, id) ← normalizedOperationIdentity operation;
      current ← or_fail repo_conflict (loadEditEntityRevision d projectID kind id);
      others ← operation_changes rest;
      Ok (mkChange kind id (Some current) (normalizedOperationRevision operation) (normalizedOperationTombstoned operation) :: others)
  end.

Fixpoint remaining_changes (operationKeys : gset string) (targetChanges : list EntityRevisionChange)
    : outcome repo_error (list EntityRevisionChange) :=
  match targetChanges with
  | [] => Ok []
  | change :: rest =>
      if document_or_sequence (ch_Kind change) || bool_decide (entityKey (ch_Kind change) (ch_ID change) ∈ operationKeys)
      then remaining_changes operationKeys rest
      else
        current ← or_fail repo_conflict (loadEditEntityRevision d projectID (ch_Kind change) (ch_ID change));
        _ ← guard_or repo_conflict (current =? ch_After change);
        after ← or_fail ErrStored (Revision_Next current);
        others ← remaining_changes operationKeys rest;
        Ok (mkChange (ch_Kind change) (ch_ID change) (Some current) after false :: others)
  end.

Definition undoChanges (target : EditTransaction) (operations : list NormalizedEditOperation) : outcome repo_error (list EntityRevisionChange) :=
  changes ← operation_changes operations;
  remaining ← remaining_changes (normalizedOperationEntityKeys operations) (tx_Changes target);
  Ok (sortEntityChanges (changes ++ remaining)).
End undo.

(** The change as a precondition *)
Definition change_precondition (change : EntityRevisionChange) : option EntityPrecondition :=
  match ch_Before change with Some before => Some (mkPrecondition (ch_Kind change) (ch_ID change) before) | None => None end.

Section undo_commands.
Context `{Platform} `{SQLite} `{EditCodec}.

Definition buildUndoProposal (d : database) (record : UndoEditRecord) (target : EditTransaction) : outcome repo_error (StoredProposal * bytes) :=
  let projectID := ur_ProjectID record in
  current ← operationRevisionMap d projectID (tx_InverseOperations target) ∅;
  '(operations, finalRevisions) ← rebaseOperationSet d projectID (tx_InverseOperations target) current;
  '(inverse, _) ← rebaseOperationSet d projectID (tx_Operations target) finalRevisions;
  changes ← undoChanges d projectID target operations;
  projectRevision ← project_revision d projectID;
  let intent := if bool_decide (ur_Intent record = "") then "undo " +:+ tx_ID target else ur_Intent record in
  let proposal := mkProposal (ur_ProposalID record) projectID (ur_SequenceID record) (nonzero_id (ur_RunID record))
    (nonzero_id (ur_TurnID record)) (ur_RequestID record) (ur_Actor record) intent projectRevision (omap change_precondition changes) []
    operations inverse changes in
  '(canonical, digest) ← or_fail ErrStored (CanonicalDigest platform_sha256 "open-cut/edit-proposal" "open-cut/edit-proposal/v5"
    (proposal_payload proposal (Some (tx_ID target))));
  Ok (mkStored proposal digest ProposalOpen None, canonical).

Definition undo_ids (record : UndoEditRecord) : list string :=
  [ur_ProjectID record; ur_SequenceID record; ur_TargetTransactionID record; ur_ProposalID record; ur_ApplicationID record;
   ur_TransactionID record; ur_ActivityEventID record].

Definition validateUndoEditRecord (record : UndoEditRecord) : outcome repo_error unit :=
  guard_or repo_invalid (forallb (fun id => negb (IsZero id)) (undo_ids record ++ [ur_RunID record; ur_TurnID record]) &&
    ActorRef_Validate (ur_Actor record) && bool_decide (actor_Kind (ur_Actor record) = ActorAgent) && ur_InputValid record &&
    negb (ur_OccurredAtIsZero record) && valid_request (ur_RequestID record) (ur_InputDigest record)).

Definition validateUndoCreatorEditRecord (record : UndoEditRecord) : outcome repo_error unit :=
  guard_or repo_invalid (forallb (fun id => negb (IsZero id)) (undo_ids record) &&
    ActorRef_Validate (ur_Actor record) && bool_decide (actor_Kind (ur_Actor record) = ActorCreator) && ur_InputValid record &&
    negb (ur_OccurredAtIsZero record) && valid_request (ur_RequestID record) (ur_InputDigest record)).

(** What both undo commands do once the writer is accepted *)
Definition undo_target (record : UndoEditRecord) (command : string) (mark : string -> string -> Tx unit) : Tx EditCommitResult :=
  target ← reading (fun d => loadEditTransaction d (ur_ProjectID record) (ur_TargetTransactionID record));
  _ ← reading (fun d => validateUndoTargetCurrent d (ur_ProjectID record) (tx_Changes target));
  '(proposal, canonical) ← reading (fun d => buildUndoProposal d record target);
  _ ← insertEditProposalRow proposal canonical;
  transaction ← reading (fun d => prepareEditTransaction d proposal (ur_TransactionID record) (Some (ur_TargetTransactionID record)));
  _ ← persistAndApplyEditTransaction transaction;
  record_commit (ur_Actor record) (ur_RequestID record) command (ur_InputDigest record) (ur_ProjectID record) (ur_ApplicationID record)
    (ur_ActivityEventID record) (mark (p_ID (sp_proposal proposal)) (tx_ID transaction)) proposal transaction.

Definition undo_effect (record : UndoEditRecord) : Tx EditCommitResult :=
  _ ← reading (fun d => validateEditWriter d (ur_ProjectID record) (ur_SequenceID record) (ur_RunID record) (ur_TurnID record) (ur_Actor record));
  undo_target record "edit undo" (fun proposalID transactionID =>
    _ ← mark_undo_applied proposalID transactionID; insert_run_transaction (ur_RunID record) transactionID).

Definition undo_body (record : UndoEditRecord) : Tx EditCommitResult :=
  unless_replayed (ur_Actor record) (ur_RequestID record) "edit undo" (ur_InputDigest record) (ur_ProjectID record) (undo_effect record).

Definition UndoEdit (record : UndoEditRecord) : database -> outcome repo_error EditCommitResult * database :=
  command (validateUndoEditRecord record) (undo_body record).

(** The record of the creator's undo: no run and turn *)
Definition creator_undo (record : UndoEditRecord) : UndoEditRecord :=
  mkUndoRecord (ur_ProjectID record) (ur_SequenceID record) "" "" (ur_Actor record) (ur_TargetTransactionID record) (ur_RequestID record)
    (ur_InputDigest record) (ur_InputValid record) (ur_ProposalID record) (ur_ApplicationID record) (ur_TransactionID record)
    (ur_ActivityEventID record) (ur_Intent record) (ur_OccurredAtIsZero record).

Definition undo_creator_effect (record : UndoEditRecord) : Tx EditCommitResult :=
  _ ← reading (fun d => validateCreatorEditSequence d (ur_ProjectID record) (ur_SequenceID record));
  undo_target (creator_undo record) creatorEditUndoRequest markEditProposalApplied.

Definition undo_creator_body (record : UndoEditRecord) : Tx EditCommitResult :=
  unless_replayed (ur_Actor record) (ur_RequestID record) creatorEditUndoRequest (ur_InputDigest record) (ur_ProjectID record) (undo_creator_effect record).

Definition UndoCreatorEdit (record : UndoEditRecord) : database -> outcome repo_error EditCommitResult * database :=
  command (validateUndoCreatorEditRecord record) (undo_creator_body record).
End undo_commands.
