(* ===== verification/RepositorySample.v ===== *)
(** A small stored project and requests on it, for evaluating the repository. *)
From stdpp Require Import base list strings gmap sorting.
From Stdlib Require Import ZArith Lia.
From S2P Require Import Prelude GoText Exact Identity Canonical EditModel Timeline EditState EditClips EditNarrative EditDerive EditValidate.
From S2P Require Import EditNormalize EditJournal Database Projection EditLoad EditLoadState EditRepository.
Open Scope Z_scope.

(** An engine that refuses nothing, and structs that marshal to their intent *)
Definition sample_engine : SQLite := {| refuses := fun _ _ => false |}.
Definition sample_codec : EditCodec := {|
  proposal_payload := fun p _ => JString (p_Intent p); transaction_payload := fun t _ => JString (tx_Intent t) |}.

Definition sample_digest : string := "sha256:" +:+ "0000000000000000000000000000000000000000000000000000000000000000".

Definition key_of (t : RationalTime) : string := match RationalOrderKey t with Ok k => k | _ => "" end.

(** A clip of the sample stream in the database *)
Definition sample_clip_row (start duration : Z) : clip_row :=
  mkClipRow (sample_id "01") (sample_id "03") (sample_id "10") (sample_id "21") (sample_id "20") 1 (seconds start duration) (seconds start duration)
    (key_of (mkTime start 1)) (key_of (mkTime (start + duration) 1)) true None None false (sample_id "00").

Definition sample_node (kind : NarrativeNodeKind) (parent : option string) (index : Z) : node_row :=
  mkNodeRow (sample_id "01") (sample_id "02") parent 1 kind index false (sample_id "00").

(** A document whose opening section holds two lines, and a video track with
    three clips *)
Definition sample_database : database := {|
  db_projects := {[ sample_id "01" := mkProjectRow 7 "active" (sample_id "02") (sample_id "03") ]};
  db_narrative_documents := {[ sample_id "02" := mkHeadRow (sample_id "01") 3 ]};
  db_sequences := {[ sample_id "03" := mkHeadRow (sample_id "01") 5 ]};
  db_tracks := {[ sample_id "10" := mkTrackRow (sample_id "01") (sample_id "03") 4 TrackVideo;
                  sample_id "11" := mkTrackRow (sample_id "01") (sample_id "03") 2 TrackCaption ]};
  db_assets := {[ sample_id "21" := mkAssetRow (sample_id "01") 1 (Some "print") false ]};
  db_source_streams := {[ sample_id "20" := mkStreamRow (sample_id "21") "print" (Some (mkDescriptor MediaVideo None (Some (mkTime 60 1)))) ]};
  db_transcripts := ∅; db_transcript_segments := ∅;
  db_narrative_nodes := {[ sample_id "04" := sample_node NarrativeNodeSection None 0;
                           sample_id "50" := sample_node NarrativeNodeAuthoredText (Some (sample_id "04")) 0;
                           sample_id "51" := sample_node NarrativeNodeAuthoredText (Some (sample_id "04")) 1 ]};
  db_section_values := {[ sample_id "04" := mkSectionValue "Opening" "en" ]};
  db_authored_text_values := {[ sample_id "50" := mkTextValue AuthoredTextSpoken "en" "First"; 
                                sample_id "51" := mkTextValue AuthoredTextSpoken "en" "Second" ]};
  db_source_excerpt_values := ∅; db_visual_intent_values := ∅; db_note_values := ∅; db_transcript_corrections := ∅;
  db_correction_segments := ∅; db_captions := ∅; db_caption_provenance := ∅; db_alignments := ∅; db_alignment_targets := ∅;
  db_clips := {[ sample_id "30" := sample_clip_row 0 10; sample_id "31" := sample_clip_row 10 5; sample_id "32" := sample_clip_row 15 5 ]};
  db_clip_link_groups := ∅;
  db_agent_runs := {[ sample_id "07" := mkRunRow (sample_id "01") (Some (sample_id "09")) "active" (sample_id "08") "active" ]};
  db_edit_proposals := ∅; db_edit_transactions := ∅; db_proposal_applications := ∅; db_edit_request_identities := ∅;
  db_agent_run_transactions := ∅; db_activity_heads := ∅; db_activity_outbox := ∅ |}.

Definition sample_creator : ActorRef := mkActor ActorCreator (Some (sample_id "06")) None.
Definition sample_agent : ActorRef := mkActor ActorAgent None (Some (sample_id "09")).

(** The creator commits the request of [sample_input]. *)
Definition sample_commit (request : string) : CommitCreatorEditRecord :=
  mkCommitRecord (sample_id "01") (sample_id "03") sample_creator request sample_digest true (sample_id "60") (sample_id "61") (sample_id "62")
    (sample_id "63") (in_Allocation sample_input)
    (mkProposeInput request (pi_Intent (in_Input sample_input)) 7 (pi_Preconditions (in_Input sample_input)) (pi_Operations (in_Input sample_input))) false.

Definition sample_remove (tail : string) : EditOperationInput :=
  mkOperation EditRemoveNarrativeNode None (Some (sample_id tail)) None None None None None None None None None None None None None []
    None None None None None None None None None None None [] None None None [] None None [] []
    None None [] None None None [] [] None.

(** Take both lines out of the section, the first one first. *)
Definition sample_removals (order : list string) : CommitCreatorEditRecord :=
  mkCommitRecord (sample_id "01") (sample_id "03") sample_creator "remove" sample_digest true (sample_id "60") (sample_id "61") (sample_id "62")
    (sample_id "63") []
    (mkProposeInput "remove" "Remove two lines" 7
      [ mkPrecondition EntityNarrativeNode (sample_id "04") 1; mkPrecondition EntityNarrativeNode (sample_id "50") 1;
        mkPrecondition EntityNarrativeNode (sample_id "51") 1 ]
      (map sample_remove order)) false.

Definition sample_undo : UndoEditRecord :=
  mkUndoRecord (sample_id "01") (sample_id "03") "" "" sample_creator (sample_id "62") "undo" sample_digest true (sample_id "70") (sample_id "71")
    (sample_id "72") (sample_id "73") "" false.

(** The project after the creator committed [sample_commit] *)
Definition after_commit : database := (@CommitCreatorEdit sample_platform sample_engine sample_codec (sample_commit "request-1") sample_database).2.
Definition committed : option EditCommitResult :=
  match (@CommitCreatorEdit sample_platform sample_engine sample_codec (sample_commit "request-1") sample_database).1 with
  | Ok r => Some r
  | _ => None
  end.
(** ... and after the edit was undone *)
Definition after_undo : database := (@UndoCreatorEdit sample_platform sample_engine sample_codec sample_undo after_commit).2.
