(* ===== verification/RepositoryEffects.v ===== *)
(** Reasoning about database transactions: what a successful run of each
    statement tells ([txrun] takes a successful body apart), and relations
    between databases that every statement of a body respects ([keeps]). *)
From stdpp Require Import base list strings gmap sorting.
From Stdlib Require Import ZArith Lia.
From S2P Require Import Prelude GoText Exact Identity Canonical EditModel Timeline EditState EditClips EditNarrative EditDerive EditValidate.
From S2P Require Import EditNormalize EditJournal Database Projection EditLoad EditLoadState EditRepository.
Open Scope Z_scope.

Section runs.
Context {S A B : Type}.
Implicit Types (m : ST S repo_error A) (s : S).

Lemma st_bind_run m (k : A -> ST S repo_error B) s b s' :
  (m ≫= k) s = Ok (b, s') -> exists a s1, m s = Ok (a, s1) /\ k a s1 = Ok (b, s').
Proof.
  unfold mbind, ST_bind. destruct (m s) as [[a s1]| |] eqn:E; [|discriminate|discriminate]. intros Hk. by exists a, s1.
Qed.

Lemma st_ret_run (a : A) s a' s' : (mret a : ST S repo_error A) s = Ok (a', s') -> a' = a /\ s' = s.
Proof. intros [= -> ->]. done. Qed.

Lemma lifts_run (r : outcome repo_error A) s a s' : lifts r s = Ok (a, s') -> r = Ok a /\ s' = s.
Proof. unfold lifts. destruct r; [|discriminate|discriminate]. intros [= -> ->]. done. Qed.

Lemma queries_run (f : S -> A) s a s' : queries f s = Ok (a, s') -> a = f s /\ s' = s.
Proof. intros [= <- <-]. done. Qed.

Lemma pointee_run (p : option A) s a s' : pointee p s = Ok (a, s') -> p = Some a /\ s' = s.
Proof. unfold pointee. destruct p; [|discriminate]. intros [= -> ->]. done. Qed.

Lemma edits_run (f : S -> S) s u s' : edits f s = Ok (u, s') -> s' = f s.
Proof. intros [= _ <-]. done. Qed.
End runs.

Lemma requires_run {S} e b (s : S) u s' : requires (S := S) e b s = Ok (u, s') -> b = true /\ s' = s.
Proof. intros [Hg ->]%lifts_run. destruct u. by apply guard_or_ok in Hg. Qed.

Lemma reading_run {A} (f : database -> outcome repo_error A) d a d' : reading f d = Ok (a, d') -> f d = Ok a /\ d' = d.
Proof. apply lifts_run. Qed.

Section statements.
Context `{SQLite}.

Lemma sql_exec_run statement f d u d' : sql_exec statement f d = Ok (u, d') -> f d = Ok d'.
Proof. unfold sql_exec. destruct (refuses _ _), (f d) eqn:E; try discriminate. congruence. Qed.

Lemma sql_insert_run {K A} `{Countable K} table (get : database -> gmap K A) set k row d u d' :
  sql_insert table get set k row d = Ok (u, d') -> get d !! k = None /\ d' = set (<[k := row]>) d.
Proof. intros Hx%sql_exec_run. destruct (get d !! k) eqn:E; [discriminate|]. by injection Hx as <-. Qed.

Lemma sql_update_run {K A} `{Countable K} table (get : database -> gmap K A) set k where_ f d n d' :
  sql_update table get set k where_ f d = Ok (n, d') ->
  (n = 1 /\ exists row, get d !! k = Some row /\ where_ row = true /\ d' = set (<[k := f row]>) d) \/
  (n = 0 /\ d' = d /\ forall row, get d !! k = Some row -> where_ row = false).
Proof.
  unfold sql_update. destruct (refuses _ _); [discriminate|]. destruct (get d !! k) as [row|] eqn:E.
  - destruct (where_ row) eqn:W; intros [= <- <-]; [left|right].
    + split; [done|]. by exists row.
    + split; [done|]. split; [done|]. by intros ? [= <-].
  - intros [= <- <-]. right. done.
Qed.

Lemma requireOneEditRow_run n d u d' : requireOneEditRow n d = Ok (u, d') -> n = 1 /\ d' = d.
Proof. intros [Hn ->]%requires_run. by apply Z.eqb_eq in Hn. Qed.

(** An update of exactly one row *)
Lemma sql_update_one {K A} `{Countable K} table (get : database -> gmap K A) set k where_ f d u d' :
  (changed ← sql_update table get set k where_ f; requireOneEditRow changed) d = Ok (u, d') ->
  exists row, get d !! k = Some row /\ where_ row = true /\ d' = set (<[k := f row]>) d.
Proof.
  intros (n & d1 & Hu & [-> ->]%requireOneEditRow_run)%st_bind_run.
  by apply sql_update_run in Hu as [[_ Hu]|[? _]].
Qed.

Lemma sql_update_all_run {K A} `{Countable K} table (set : (gmap K A -> gmap K A) -> database -> database) where_ f d u d' :
  sql_update_all table set where_ f d = Ok (u, d') -> d' = set (fmap (fun row => if where_ row then f row else row)) d.
Proof. intros Hx%sql_exec_run. by injection Hx as <-. Qed.

Lemma unless_found_run {A B} (lookup : database -> outcome repo_error B) (found : B -> database -> outcome repo_error A) (body : Tx A) d a d' :
  unless_found lookup found body d = Ok (a, d') ->
  (exists b, lookup d = Ok b /\ found b d = Ok a /\ d' = d) \/ (lookup d = Fail ErrNoRows /\ body d = Ok (a, d')).
Proof.
  unfold unless_found. destruct (lookup d) as [b|e|]; [|case_bool_decide as He; [subst|]|]; try discriminate.
  - intros [Hf ->]%reading_run. left. by exists b.
  - intros Hb. by right.
Qed.

(** A command that succeeds ran its body and committed. *)
Lemma command_run {A} valid (body : Tx A) d a d' : command valid body d = (Ok a, d') ->
  valid = Ok tt /\ body d = Ok (a, d') /\ refuses "COMMIT" d' = false.
Proof.
  unfold command, transaction. destruct valid as [[]| |]; try discriminate. destruct (body d) as [[a1 d1]| |]; try discriminate.
  destruct (refuses "COMMIT" d1) eqn:E; [discriminate|]. by intros [= -> ->].
Qed.

(** A command that does not succeed leaves the database as it was. *)
Lemma command_rollback {A} valid (body : Tx A) d : is_ok (command valid body d).1 = false -> (command valid body d).2 = d.
Proof. unfold command, transaction. repeat case_match; cbn; done. Qed.
End statements.

(** Take a successful body apart, one effect at a time. *)
Ltac txrun1 :=
  match goal with
  | H : mbind (M := ST _ _) _ _ _ = Ok (_, _) |- _ =>
      let x := fresh "v" in let m := fresh "d" in let H1 := fresh "Hrun" in
      apply st_bind_run in H as (x & m & H1 & H);
      try match type of x with prod _ _ => destruct x | unit => destruct x end
  | H : mbind (M := Tx) _ _ _ = Ok (_, _) |- _ =>
      let x := fresh "v" in let m := fresh "d" in let H1 := fresh "Hrun" in
      apply st_bind_run in H as (x & m & H1 & H);
      try match type of x with prod _ _ => destruct x | unit => destruct x end
  | H : mbind (M := Ld) _ _ _ = Ok (_, _) |- _ =>
      let x := fresh "v" in let m := fresh "d" in let H1 := fresh "Hrun" in
      apply st_bind_run in H as (x & m & H1 & H);
      try match type of x with prod _ _ => destruct x | unit => destruct x end
  | H : mret _ _ = Ok (_, _) |- _ => apply st_ret_run in H as [? ?]; subst
  | H : reading _ _ = Ok (_, _) |- _ => apply reading_run in H as [? ?]; subst
  | H : requires _ _ _ = Ok (_, _) |- _ => apply requires_run in H as [? ?]; subst
  | H : lifts _ _ = Ok (_, _) |- _ => apply lifts_run in H as [? ?]; subst
  | H : queries _ _ = Ok (_, _) |- _ => apply queries_run in H as [? ?]; subst
  | H : pointee _ _ = Ok (_, _) |- _ => apply pointee_run in H as [? ?]; subst
  | H : edits _ _ = Ok (_, _) |- _ => apply edits_run in H; subst
  | H : fails _ _ = Ok (_, _) |- _ => discriminate H
  end.
Ltac txrun := repeat txrun1.

(** ** Relations every statement respects *)

Section keeps.
Context {S : Type} (R : relation S) `{!PreOrder R}.

Definition keeps {A} (m : ST S repo_error A) : Prop := forall s a s', m s = Ok (a, s') -> R s s'.

Lemma keeps_ret {A} (a : A) : keeps (mret a).
Proof. intros s a' s' [_ ->]%st_ret_run. reflexivity. Qed.
Lemma keeps_lifts {A} (r : outcome repo_error A) : keeps (lifts r).
Proof. intros s a' s' [_ ->]%lifts_run. reflexivity. Qed.
Lemma keeps_fails {A} e : keeps (fails (A := A) e).
Proof. intros s a' s' [=]. Qed.
Lemma keeps_requires e b : keeps (requires e b).
Proof. apply keeps_lifts. Qed.
Lemma keeps_queries {A} (f : S -> A) : keeps (queries f).
Proof. intros s a' s' [_ ->]%queries_run. reflexivity. Qed.
Lemma keeps_pointee {A} (p : option A) : keeps (pointee p).
Proof. intros s a' s' [_ ->]%pointee_run. reflexivity. Qed.
Lemma keeps_bind {A B} (m : ST S repo_error A) (k : A -> ST S repo_error B) : keeps m -> (forall a, keeps (k a)) -> keeps (m ≫= k).
Proof. intros Hm Hk s b s' (a & s1 & H1 & H2)%st_bind_run. transitivity s1; [by eapply Hm|by eapply Hk]. Qed.
Lemma keeps_all_of {A} (items : list A) (body : A -> ST S repo_error unit) : (forall a, a ∈ items -> keeps (body a)) -> keeps (all_of items body).
Proof.
  induction items as [|a rest IH]; intros Hb; [apply keeps_ret|].
  apply keeps_bind; [apply Hb; left|]. intros _. apply IH. intros x Hx. apply Hb. by right.
Qed.
End keeps.
Arguments keeps {S} R {A} m.

Section keeps_statements.
Context `{SQLite} (R : relation database) `{HR : !PreOrder R}.

Lemma keeps_reading {A} (f : database -> outcome repo_error A) : keeps R (reading f).
Proof. intros d a d' [_ ->]%reading_run. reflexivity. Qed.
Lemma keeps_exec statement (f : database -> outcome repo_error database) : (forall d d', f d = Ok d' -> R d d') -> keeps R (sql_exec statement f).
Proof. intros Hf d u d' Hx%sql_exec_run. by apply Hf. Qed.
Lemma keeps_insert {K A} `{Countable K} table (get : database -> gmap K A) set k row :
  (forall d, get d !! k = None -> R d (set (<[k := row]>) d)) -> keeps R (sql_insert table get set k row).
Proof. intros Hf d u d' [Hn ->]%sql_insert_run. by apply Hf. Qed.
Lemma keeps_update {K A} `{Countable K} table (get : database -> gmap K A) set k where_ f :
  (forall d row, get d !! k = Some row -> where_ row = true -> R d (set (<[k := f row]>) d)) -> keeps R (sql_update table get set k where_ f).
Proof.
  intros Hf d u d' [(_ & row & Hr & Hw & ->)|(_ & -> & _)]%sql_update_run; [by apply Hf|reflexivity].
Qed.
Lemma keeps_update_all {K A} `{Countable K} table (set : (gmap K A -> gmap K A) -> database -> database) (where_ : A -> bool) (f : A -> A) :
  (forall d, R d (set (fmap (fun row : A => if where_ row then f row else row)) d)) -> keeps R (sql_update_all table set where_ f).
Proof. intros Hf d u d' ->%sql_update_all_run. apply Hf. Qed.
Lemma keeps_unless_found {A B} lookup (found : B -> database -> outcome repo_error A) (body : Tx A) : keeps R body -> keeps R (unless_found lookup found body).
Proof. intros Hb d a d' [(b & _ & _ & ->)|[_ Hr]]%unless_found_run; [reflexivity|by eapply Hb]. Qed.
End keeps_statements.

(** The databases agree on a part. *)
Definition same_on {T} (f : database -> T) : relation database := fun d d' => f d' = f d.
#[export] Instance same_on_preorder {T} (f : database -> T) : PreOrder (same_on f).
Proof. split; [done|]. intros d1 d2 d3 H1 H2. unfold same_on in *. congruence. Qed.

(** Apply the rules of [keeps] until only statements on tables are left. *)
Ltac keeps1 :=
  match goal with
  | |- keeps _ (mbind _ _) => apply keeps_bind; [..|intros ?]
  | |- keeps _ (mret _) => apply keeps_ret
  | |- keeps _ (lifts _) => apply keeps_lifts
  | |- keeps _ (fails _) => apply keeps_fails
  | |- keeps _ (requires _ _) => apply keeps_requires
  | |- keeps _ (requireOneEditRow _) => apply keeps_requires
  | |- keeps _ (queries _) => apply keeps_queries
  | |- keeps _ (pointee _) => apply keeps_pointee
  | |- keeps _ (reading _) => apply keeps_reading
  | |- keeps _ (all_of _ _) => apply keeps_all_of; [..|intros ? ?]
  | |- keeps _ (sql_insert _ _ _ _ _) => apply keeps_insert; [..|intros ? ?]
  | |- keeps _ (sql_update _ _ _ _ _ _) => apply keeps_update; [..|intros ? ? ? ?]
  | |- keeps _ (sql_update_all _ _ _ _) => apply keeps_update_all; [..|intros ?]
  | |- keeps _ (sql_exec _ _) => apply keeps_exec; [..|intros ? ? ?]
  | |- keeps _ (unless_found _ _ _) => apply keeps_unless_found
  | |- keeps _ (match ?x with _ => _ end) => destruct x
  | |- PreOrder _ => exact _
  end.
Ltac keeps_tac := repeat keeps1.
