(* ===== verification/RepositoryJournal.v ===== *)
(** The journal of the edit repository: which tables the statements of a
    transaction write, that what is recorded stays recorded, and what a commit
    that succeeds leaves behind. *)
From stdpp Require Import base list strings gmap sorting.
From Stdlib Require Import ZArith Lia.
From S2P Require Import Prelude GoText Exact Identity Canonical EditModel Timeline EditState EditClips EditNarrative EditDerive EditValidate.
From S2P Require Import EditNormalize EditJournal Database Projection EditLoad EditLoadState EditRepository RepositoryEffects.
Open Scope Z_scope.

(** ** Frames *)

(** The tables that the projection of operations does not write *)
Definition journal_of (d : database) :=
  (db_projects d, db_edit_proposals d, db_edit_transactions d, db_proposal_applications d, db_edit_request_identities d,
   (db_agent_run_transactions d, db_activity_heads d, db_activity_outbox d, db_agent_runs d)).

(** The tables of the project's entities *)
Definition entities_of (d : database) :=
  (db_narrative_documents d, db_sequences d, db_tracks d, db_assets d, db_source_streams d,
   (db_transcripts d, db_transcript_segments d, db_narrative_nodes d, db_section_values d, db_authored_text_values d,
    db_source_excerpt_values d, db_visual_intent_values d, db_note_values d, db_transcript_corrections d, db_correction_segments d),
   (db_captions d, db_caption_provenance d, db_alignments d, db_alignment_targets d, db_clips d, db_clip_link_groups d)).

Section frames.
Context `{Platform} `{SQLite} `{EditCodec} (projectID transactionID : string).

Lemma insertNarrativePayload_frame state : keeps (same_on journal_of) (insertNarrativePayload state).
Proof. unfold insertNarrativePayload, insertSourceExcerptPayload. keeps_tac; reflexivity. Qed.
Lemma updateNarrativePayload_frame state : keeps (same_on journal_of) (updateNarrativePayload state).
Proof. unfold updateNarrativePayload. keeps_tac; reflexivity. Qed.

Lemma applyNarrativeNode_frame state change : keeps (same_on journal_of) (applyNarrativeNode projectID transactionID state change).
Proof.
  unfold applyNarrativeNode, narrativeInsertIndex, shiftNarrativeSiblings, compactNarrativeSiblings.
  keeps_tac; try reflexivity; auto using insertNarrativePayload_frame, updateNarrativePayload_frame.
Qed.

Lemma applyNormalizedOperation_frame changes operation :
  keeps (same_on journal_of) (applyNormalizedOperation projectID transactionID changes operation).
Proof.
  unfold applyNormalizedOperation, applyCaption, insertCaptionProvenance, applyAlignment, insertAlignmentTargets, applyClip, applyLinkGroup,
    applyTranscriptCorrection.
  keeps_tac; try reflexivity; [apply applyNarrativeNode_frame|..].
  match goal with E : Ok _ = Ok _ |- _ => injection E as <- end. reflexivity.
Qed.

Lemma applyAggregateRevision_frame change : keeps (same_on journal_of) (applyAggregateRevision projectID change).
Proof. unfold applyAggregateRevision, head_update. keeps_tac; reflexivity. Qed.

Lemma appendActivity_frame scopeID eventID kind actor revision outcomeID :
  keeps (same_on (fun d => (entities_of d, db_projects d, db_edit_proposals d, db_edit_transactions d, db_edit_request_identities d)))
    (appendActivity scopeID eventID kind actor revision outcomeID).
Proof.
  unfold appendActivity. keeps_tac; try reflexivity;
    match goal with E : Ok _ = Ok _ |- _ => injection E as <- end; reflexivity.
Qed.
End frames.

(** ** What is recorded stays recorded *)

(** Transactions, requests and events are only added; a proposal changes only
    its status. *)
Record extends (d d' : database) : Prop := mkExtends {
  ext_transactions : db_edit_transactions d ⊆ db_edit_transactions d';
  ext_requests : db_edit_request_identities d ⊆ db_edit_request_identities d';
  ext_outbox : db_activity_outbox d ⊆ db_activity_outbox d';
  ext_proposals : forall id row, db_edit_proposals d !! id = Some row ->
    exists status transactionID, db_edit_proposals d' !! id = Some (with_status status transactionID row) }.

#[export] Instance extends_preorder : PreOrder extends.
Proof.
  split.
  - intros d. split; [done..|]. intros id [] Hr. by eexists _, _.
  - intros d1 d2 d3 [T1 R1 O1 P1] [T2 R2 O2 P2]. split; [by etransitivity..|].
    intros id row Hr. destruct (P1 _ _ Hr) as (s & t & Hr'). destruct (P2 _ _ Hr') as (s' & t' & Hr''). by exists s', t'.
Qed.

Lemma extends_journal d d' : same_on journal_of d d' -> extends d d'.
Proof.
  intros [= _ Hp Ht _ Hr _ _ Ho _]. split; [by rewrite Ht|by rewrite Hr|by rewrite Ho|].
  intros id [] Hrow. eexists _, _. by rewrite Hp.
Qed.

Section growth.
Context `{Platform} `{SQLite} `{EditCodec}.

Lemma extends_insert_proposal d id row : db_edit_proposals d !! id = None -> extends d (set_edit_proposals (<[id := row]>) d).
Proof.
  intros Hn. split; [done..|]. cbn. intros id' [] Hr. rewrite lookup_insert_ne by congruence. by eauto.
Qed.

Lemma extends_mark d id row status transactionID : db_edit_proposals d !! id = Some row ->
  extends d (set_edit_proposals (<[id := with_status status transactionID row]>) d).
Proof.
  intros Hn. split; [done..|]. cbn. intros id' row' Hr. destruct (decide (id = id')) as [->|Hne].
  - rewrite lookup_insert_eq. simplify_eq. by eauto.
  - rewrite lookup_insert_ne by done. destruct row'. by eexists _, _.
Qed.

Lemma extends_insert_transaction d id t : db_edit_transactions d !! id = None -> extends d (set_edit_transactions (<[id := t]>) d).
Proof. intros Hn. split; [cbn; by apply insert_subseteq|done|done|]. intros ? [] ?. cbn. by eexists _, _. Qed.

Lemma extends_insert_request d k r : db_edit_request_identities d !! k = None -> extends d (set_edit_request_identities (<[k := r]>) d).
Proof. intros Hn. split; [done|cbn; by apply insert_subseteq|done|]. intros ? [] ?. cbn. by eexists _, _. Qed.

Lemma extends_insert_event d id row : db_activity_outbox d !! id = None -> extends d (set_activity_outbox (<[id := row]>) d).
Proof. intros Hn. split; [done|done|cbn; by apply insert_subseteq|]. intros ? [] ?. cbn. by eexists _, _. Qed.

Lemma extends_other d d' : db_edit_transactions d' = db_edit_transactions d -> db_edit_request_identities d' = db_edit_request_identities d ->
  db_activity_outbox d' = db_activity_outbox d -> db_edit_proposals d' = db_edit_proposals d -> extends d d'.
Proof. intros Ht Hr Ho Hp. split; [by rewrite ?Ht, ?Hr, ?Ho..|]. intros id [] Hrow. rewrite Hp. by eexists _, _. Qed.

End growth.

Ltac grow :=
  keeps_tac; try match goal with E : Ok _ = Ok _ |- _ => injection E as <- end;
  first [ by apply extends_insert_proposal | by apply extends_mark | by apply extends_insert_transaction | by apply extends_insert_request
        | by apply extends_insert_event | by apply extends_other | idtac ].

Section growing.
Context `{Platform} `{SQLite} `{EditCodec}.

Lemma persist_grows t : keeps extends (persistAndApplyEditTransaction t).
Proof.
  unfold persistAndApplyEditTransaction. grow.
  - intros d u d' Hr. apply extends_journal. by eapply applyNormalizedOperation_frame.
  - intros d u d' Hr. apply extends_journal. by eapply applyAggregateRevision_frame.
Qed.

Lemma appendActivity_grows scopeID eventID kind actor revision outcomeID :
  keeps extends (appendActivity scopeID eventID kind actor revision outcomeID).
Proof. unfold appendActivity. grow. Qed.

Lemma record_commit_grows actor requestID name digest projectID applicationID eventID mark proposal t :
  keeps extends mark -> keeps extends (record_commit actor requestID name digest projectID applicationID eventID mark proposal t).
Proof.
  intros Hm. unfold record_commit, insertProposalApplication, appendEditCommittedActivity, insertEditRequest. grow; auto using appendActivity_grows.
Qed.

Lemma mark_grows proposalID t : keeps extends (markEditProposalApplied proposalID t).
Proof. unfold markEditProposalApplied. grow. Qed.
Lemma mark_undo_grows proposalID t : keeps extends (mark_undo_applied proposalID t).
Proof. unfold mark_undo_applied. grow. Qed.
Lemma insert_proposal_grows proposal canonical : keeps extends (insertEditProposalRow proposal canonical).
Proof. unfold insertEditProposalRow. grow. Qed.
Lemma run_transaction_grows runID t : keeps extends (insert_run_transaction runID t).
Proof. unfold insert_run_transaction. grow. Qed.

Lemma prepare_keeps (R : relation database) `{!PreOrder R} record proposal : keeps R (prepare_or_mark_stale record proposal).
Proof.
  intros d t d' Hr. unfold prepare_or_mark_stale in Hr. destruct (prepareEditTransaction _ _ _ _); [by injection Hr as _ <-| |discriminate].
  txrun.
Qed.

Lemma undo_target_grows record name mark : (forall p t, keeps extends (mark p t)) -> keeps extends (undo_target record name mark).
Proof. intros Hm. unfold undo_target. keeps_tac; auto using insert_proposal_grows, persist_grows, record_commit_grows. Qed.
End growing.

(** ** Commands *)

Inductive commit_command :=
| ApplyCommand (record : ApplyEditRecord) | UndoCommand (record : UndoEditRecord)
| CommitCommand (record : CommitCreatorEditRecord) | UndoCreatorCommand (record : UndoEditRecord).

(** What identifies the request of a command *)
Definition cmd_actor (c : commit_command) : ActorRef :=
  match c with
  | ApplyCommand r => ar_Actor r | UndoCommand r | UndoCreatorCommand r => ur_Actor r | CommitCommand r => cc_Actor r
  end.
Definition cmd_request (c : commit_command) : string :=
  match c with
  | ApplyCommand r => ar_RequestID r | UndoCommand r | UndoCreatorCommand r => ur_RequestID r | CommitCommand r => cc_RequestID r
  end.
Definition cmd_name (c : commit_command) : string :=
  match c with
  | ApplyCommand _ => "edit apply" | UndoCommand _ => "edit undo" | CommitCommand _ => creatorEditCommitRequest
  | UndoCreatorCommand _ => creatorEditUndoRequest
  end.
Definition cmd_digest (c : commit_command) : string :=
  match c with
  | ApplyCommand r => ar_InputDigest r | UndoCommand r | UndoCreatorCommand r => ur_InputDigest r | CommitCommand r => cc_InputDigest r
  end.
Definition cmd_project (c : commit_command) : string :=
  match c with
  | ApplyCommand r => ar_ProjectID r | UndoCommand r | UndoCreatorCommand r => ur_ProjectID r | CommitCommand r => cc_ProjectID r
  end.

(** The fields of the records that the types of the code keep well formed *)
Definition cmd_ids (c : commit_command) : list string :=
  match c with
  | ApplyCommand r => [ar_ProjectID r; ar_SequenceID r; ar_ProposalID r; ar_ApplicationID r; ar_TransactionID r; ar_ActivityEventID r]
  | UndoCommand r => [ur_RunID r; ur_TurnID r; ur_ProjectID r; ur_SequenceID r; ur_TargetTransactionID r; ur_ProposalID r; ur_ApplicationID r;
      ur_TransactionID r; ur_ActivityEventID r]
  | UndoCreatorCommand r => [ur_ProjectID r; ur_SequenceID r; ur_TargetTransactionID r; ur_ProposalID r; ur_ApplicationID r;
      ur_TransactionID r; ur_ActivityEventID r]
  | CommitCommand r => [cc_ProjectID r; cc_SequenceID r; cc_ProposalID r; cc_ApplicationID r; cc_TransactionID r; cc_ActivityEventID r]
  end.

(** An identity is zero or parses; a revision fits in its column. *)
Definition id_typed (id : string) : Prop := IsZero id = true \/ ParseID id = Ok id.
Definition cmd_typed (c : commit_command) : Prop :=
  Forall id_typed (cmd_ids c) /\ id_typed (IDString (cmd_actor c)) /\
  match c with
  | CommitCommand r => pi_BaseProjectRevision (cc_Input r) <= MaxInt64 /\ pi_RequestID (cc_Input r) = cc_RequestID r
  | _ => True
  end.

Section commands.
Context `{Platform} `{SQLite} `{EditCodec}.

Definition cmd_valid (c : commit_command) : outcome repo_error unit :=
  match c with
  | ApplyCommand r => validateApplyEditRecord r | UndoCommand r => validateUndoEditRecord r
  | CommitCommand r => validateCommitCreatorEditRecord r | UndoCreatorCommand r => validateUndoCreatorEditRecord r
  end.
(** The command past the lookup of its request *)
Definition cmd_effect (c : commit_command) : Tx EditCommitResult :=
  match c with
  | ApplyCommand r => apply_effect r | UndoCommand r => undo_effect r
  | CommitCommand r => commit_effect r | UndoCreatorCommand r => undo_creator_effect r
  end.

Definition run_commit (c : commit_command) : database -> outcome repo_error EditCommitResult * database :=
  match c with
  | ApplyCommand r => ApplyEdit r | UndoCommand r => UndoEdit r
  | CommitCommand r => CommitCreatorEdit r | UndoCreatorCommand r => UndoCreatorEdit r
  end.

Lemma run_commit_eq c : run_commit c =
  command (cmd_valid c) (unless_replayed (cmd_actor c) (cmd_request c) (cmd_name c) (cmd_digest c) (cmd_project c) (cmd_effect c)).
Proof. by destruct c. Qed.

(** One call of the repository, with a record as its types allow it *)
Inductive step : relation database :=
| step_propose record d : step d (ProposeEdit record d).2
| step_commit c d : cmd_typed c -> step d (run_commit c d).2.

Lemma converge_grows record p appliedID : keeps extends (convergeAppliedProposal record p appliedID).
Proof. unfold convergeAppliedProposal, insertProposalApplication, insertEditRequest. grow. apply appendActivity_grows. Qed.

Lemma cmd_effect_grows c : keeps extends (cmd_effect c).
Proof.
  destruct c; cbn.
  - unfold apply_effect. keeps_tac; auto using converge_grows, persist_grows; [by apply prepare_keeps; exact _|].
    apply record_commit_grows. keeps_tac; auto using mark_grows, run_transaction_grows.
  - unfold undo_effect. keeps_tac. apply undo_target_grows. intros. keeps_tac; auto using mark_undo_grows, run_transaction_grows.
  - unfold commit_effect. keeps_tac; auto using insert_proposal_grows, persist_grows, record_commit_grows, mark_grows.
  - unfold undo_creator_effect. keeps_tac. apply undo_target_grows, mark_grows.
Qed.

Lemma command_keeps {A} (R : relation database) `{!PreOrder R} valid (body : Tx A) d : keeps R body -> R d (command valid body d).2.
Proof.
  intros Hb. unfold command, transaction. destruct valid; [|done|done]. destruct (body d) as [[a d']| |] eqn:E; [|done|done].
  destruct (refuses _ _); [done|]. by eapply Hb.
Qed.

(** Whatever the repository is asked to do, the journal only grows. *)
Lemma step_extends d d' : step d d' -> extends d d'.
Proof.
  destruct 1 as [record d|c d _].
  - unfold ProposeEdit. apply (command_keeps extends). unfold propose_body, insertEditRequest. grow; auto using insert_proposal_grows, appendActivity_grows.
  - rewrite run_commit_eq. apply (command_keeps extends). unfold unless_replayed. keeps_tac. apply cmd_effect_grows.
Qed.

Lemma steps_extend d d' : rtc step d d' -> extends d d'.
Proof. induction 1 as [|d1 d2 d3 Hs _ IH]; [done|]. etransitivity; [by apply step_extends|exact IH]. Qed.
End commands.
