(* ===== verification/RepositoryReplay.v ===== *)
(** Requests are answered once: a request that was committed is answered from
    the journal ever after. *)
From stdpp Require Import base list strings gmap sorting.
From Stdlib Require Import ZArith Lia.
From S2P Require Import Prelude GoText Exact Identity Canonical EditModel Timeline EditState EditClips EditNarrative EditDerive EditValidate.
From S2P Require Import EditNormalize EditJournal EditEffects Database Projection EditLoad EditLoadState EditRepository.
From S2P Require Import RepositoryEffects RepositoryJournal.
Open Scope Z_scope.

(** ** Reading is stable *)

Lemma ParseID_same v id : ParseID v = Ok id -> id = v /\ ParseID v = Ok v.
Proof. unfold ParseID. destruct (isUUIDv7 v); [|discriminate]. by intros [= <-]. Qed.
Lemma ParseRequestID_id v r : ParseRequestID v = Ok r -> r = v.
Proof. unfold ParseRequestID. destruct (negb _); [discriminate|]. by intros [= <-]. Qed.
Lemma ParseDigest_same v r : ParseDigest v = Ok r -> r = v.
Proof. unfold ParseDigest. repeat case_match; try discriminate. by intros [= <-]. Qed.
Lemma NewRevision_same v r : NewRevision v = Ok r -> r = v /\ v <= MaxInt64.
Proof. unfold NewRevision. destruct (Z.ltb_spec MaxInt64 v); [discriminate|]. intros [= <-]. by split; [|lia]. Qed.
Lemma NewRevision_ok v : v <= MaxInt64 -> NewRevision v = Ok v.
Proof. intros. unfold NewRevision. destruct (Z.ltb_spec MaxInt64 v); [lia|done]. Qed.
Lemma nullable_id_same v r : nullable_id v = Ok r -> r = v /\ forall id, v = Some id -> ParseID id = Ok id.
Proof.
  destruct v as [id|]; cbn; [|intros [= <-]; by split]. intros Hp. outcome_inv. apply ParseID_same in Hs as [-> Hp].
  by split; [|intros ? [= <-]].
Qed.
Lemma nullable_id_ok v : (forall id, v = Some id -> ParseID id = Ok id) -> nullable_id v = Ok v.
Proof. destruct v as [id|]; [|done]. intros Hp. cbn. by rewrite Hp. Qed.
Lemma parse_or_zero_ok id : ParseID id = Ok id -> parse_or_zero id = id.
Proof. intros Hp. unfold parse_or_zero. by rewrite Hp. Qed.

(** The proposals of a database at another moment: the same but for their status *)
Definition same_proposal (p p' : StoredProposal) : Prop := sp_proposal p' = sp_proposal p /\ sp_Digest p' = sp_Digest p.

(** Applied transactions that are recorded parse. *)
Definition applied_parse (d : database) : Prop :=
  forall id row t, db_edit_proposals d !! id = Some row -> po_applied_transaction_id row = Some t -> ParseID t = Ok t.

Lemma loadEditProposal_extends d d' projectID id p : extends d d' -> applied_parse d' -> loadEditProposal d projectID id = Ok p ->
  exists p', loadEditProposal d' projectID id = Ok p' /\ same_proposal p p'.
Proof.
  intros He Ha Hl. unfold loadEditProposal in *. destruct (db_edit_proposals d !! id) as [row|] eqn:Hrow; [|discriminate].
  destruct (ext_proposals _ _ He _ _ Hrow) as (status & t & Hrow'). rewrite Hrow'. cbn.
  assert (Hn : nullable_id t = Ok t) by (apply nullable_id_ok; intros x ->; by eapply Ha).
  outcome_inv. subst. rewrite Hs. cbn. rewrite Hs0. cbn. rewrite Hs1. cbn. rewrite Hs2. cbn. rewrite Hs3. cbn. rewrite Hs4. cbn.
  rewrite Hs5. cbn. rewrite Hs6. cbn. rewrite Hn. cbn. eexists. split; [reflexivity|]. by split.
Qed.

Lemma loadEditTransaction_extends d d' projectID id t : extends d d' -> loadEditTransaction d projectID id = Ok t ->
  loadEditTransaction d' projectID id = Ok t.
Proof.
  intros He Hl. unfold loadEditTransaction in *. destruct (db_edit_transactions d !! id) as [row|] eqn:Hrow; [|discriminate].
  by rewrite (lookup_weaken _ _ _ _ Hrow (ext_transactions _ _ He)).
Qed.

Lemma loadEditRequest_extends d d' actor request r : extends d d' -> loadEditRequest d actor request = Ok r -> loadEditRequest d' actor request = Ok r.
Proof.
  intros He Hl. unfold loadEditRequest in *. destruct (db_edit_request_identities d !! _) as [row|] eqn:Hrow; [|discriminate].
  by rewrite (lookup_weaken _ _ _ _ Hrow (ext_requests _ _ He)).
Qed.

Lemma activityCursorForEvent_extends d d' event c : extends d d' -> activityCursorForEvent d event = Ok c -> activityCursorForEvent d' event = Ok c.
Proof.
  intros He Hl. unfold activityCursorForEvent in *. destruct (db_activity_outbox d !! _) as [row|] eqn:Hrow; [|discriminate].
  by rewrite (lookup_weaken _ _ _ _ Hrow (ext_outbox _ _ He)).
Qed.

(** ** Answered requests *)

(** The journal holds the answer [r] to the request of [c]. *)
Definition answered (d : database) (c : commit_command) (r : EditCommitResult) : Prop :=
  exists r0, loadEditCommitReplay d (cmd_actor c) (cmd_request c) (cmd_name c) (cmd_digest c) (cmd_project c) = Ok r0 /\
    cr_Transaction r0 = cr_Transaction r /\ cr_ActivityCursor r0 = cr_ActivityCursor r /\ same_proposal (cr_Proposal r) (cr_Proposal r0).

Lemma replay_inv d actor request name digest project r : loadEditCommitReplay d actor request name digest project = Ok r ->
  exists stored transactionID, loadEditRequest d actor request = Ok stored /\ sq_TransactionID stored = Some transactionID /\
    sq_Command stored = name /\ sq_InputDigest stored = digest /\ sq_ProjectID stored = project /\
    loadEditProposal d project (sq_ProposalID stored) = Ok (cr_Proposal r) /\ loadEditTransaction d project transactionID = Ok (cr_Transaction r) /\
    activityCursorForEvent d (sq_ActivityEventID stored) = Ok (cr_ActivityCursor r) /\ cr_Replayed r = false.
Proof.
  unfold loadEditCommitReplay. intros Hl. outcome_inv. destruct (sq_TransactionID v) as [t|] eqn:Ht; [|discriminate]. outcome_inv.
  subst. bool_prop. by exists v, v0.
Qed.

Lemma replay_intro d actor request stored transactionID p t cursor : loadEditRequest d actor request = Ok stored ->
  sq_TransactionID stored = Some transactionID -> loadEditProposal d (sq_ProjectID stored) (sq_ProposalID stored) = Ok p ->
  loadEditTransaction d (sq_ProjectID stored) transactionID = Ok t -> activityCursorForEvent d (sq_ActivityEventID stored) = Ok cursor ->
  loadEditCommitReplay d actor request (sq_Command stored) (sq_InputDigest stored) (sq_ProjectID stored) = Ok (mkCommitResult p t cursor false).
Proof.
  intros Hr Ht Hp Htx Hc. unfold loadEditCommitReplay. rewrite Hr. cbn. rewrite Ht, !bool_decide_eq_true_2 by done. cbn.
  rewrite Hp. cbn. rewrite Htx. cbn. by rewrite Hc.
Qed.

Lemma answered_extends d d' c r : extends d d' -> applied_parse d' -> answered d c r -> answered d' c r.
Proof.
  intros He Ha (r0 & Hl & Ht & Hc & Hsp). apply replay_inv in Hl as (stored & tid & Hr & Htid & Hn & Hd & Hp & Hlp & Hlt & Hcur & _).
  destruct (loadEditProposal_extends _ _ _ _ _ He Ha Hlp) as (p' & Hlp' & Hsp').
  exists (mkCommitResult p' (cr_Transaction r0) (cr_ActivityCursor r0) false). split.
  - rewrite <- Hn, <- Hd, <- Hp. eapply replay_intro; [by eapply loadEditRequest_extends|exact Htid|by rewrite Hp|..].
    + rewrite Hp. by eapply loadEditTransaction_extends.
    + by eapply activityCursorForEvent_extends.
  - cbn. split; [done|]. split; [done|]. unfold same_proposal in *. destruct Hsp, Hsp'. split; congruence.
Qed.

(** ** What a commit leaves behind *)

(** SHA-256 sums are 32 bytes. *)
Definition sha256_sums `{Platform} : Prop :=
  forall b, length (platform_sha256 b) = 32%nat /\ Forall (fun x => 0 <= x < 256) (platform_sha256 b).

Lemma actor_stored actor : ActorRef_Validate actor = true -> ParseID (IDString actor) = Ok (IDString actor) ->
  parseStoredActor (actor_Kind actor) (IDString actor) = Ok actor.
Proof.
  destruct actor as [kind creator agent]. unfold ActorRef_Validate, IDString, pointer_is, absent. cbn.
  destruct kind; [| |discriminate]; destruct creator as [c|], agent as [a|]; cbn; try (rewrite ?andb_false_r; discriminate);
    intros _ Hp; by rewrite Hp.
Qed.

Lemma parseStoredActor_idem kind value actor : parseStoredActor kind value = Ok actor ->
  parseStoredActor (actor_Kind actor) (IDString actor) = Ok actor.
Proof.
  destruct kind; cbn; intros Hp; [..|discriminate]; outcome_inv; subst; cbn; apply ParseID_same in Hs as [-> Hp]; by rewrite Hp.
Qed.

(** A transaction that reads back as it was written *)
Definition transaction_reads (t : EditTransaction) : Prop :=
  parseStoredActor (actor_Kind (tx_Actor t)) (IDString (tx_Actor t)) = Ok (tx_Actor t) /\ tx_CommittedProjectRevision t <= MaxInt64 /\
  ParseDigest (tx_Digest t) = Ok (tx_Digest t) /\ (forall id, tx_UndoesTransactionID t = Some id -> ParseID id = Ok id) /\
  ParseID (tx_ID t) = Ok (tx_ID t) /\ ParseID (tx_ProposalID t) = Ok (tx_ProposalID t) /\ ParseID (tx_ProjectID t) = Ok (tx_ProjectID t).

Lemma transaction_read_back d t : db_edit_transactions d !! tx_ID t = Some t -> transaction_reads t ->
  loadEditTransaction d (tx_ProjectID t) (tx_ID t) = Ok t.
Proof.
  intros Hd (Ha & Hr & Hg & Hu & Hi & Hp & Hj). unfold loadEditTransaction. rewrite Hd, bool_decide_eq_true_2 by done. cbn. rewrite Ha. cbn.
  rewrite NewRevision_ok by done. cbn. rewrite Hg. cbn. rewrite nullable_id_ok by done. cbn. rewrite !parse_or_zero_ok by done.
  by destruct t.
Qed.

(** A proposal that reads back as it was written *)
Definition proposal_reads (p : StoredProposal) : Prop :=
  let q := sp_proposal p in
  ParseRequestID (p_RequestID q) = Ok (p_RequestID q) /\ parseStoredActor (actor_Kind (p_Actor q)) (IDString (p_Actor q)) = Ok (p_Actor q) /\
  p_BaseProjectRevision q <= MaxInt64 /\ ParseDigest (sp_Digest p) = Ok (sp_Digest p) /\ ParseID (p_SequenceID q) = Ok (p_SequenceID q) /\
  (forall id, p_RunID q = Some id -> ParseID id = Ok id) /\ (forall id, p_TurnID q = Some id -> ParseID id = Ok id) /\
  ParseID (p_ID q) = Ok (p_ID q) /\ ParseID (p_ProjectID q) = Ok (p_ProjectID q).

Lemma proposal_read_back d p canonical status : db_edit_proposals d !! p_ID (sp_proposal p) =
    Some (mkProposalRow (sp_proposal p) (sp_Digest p) canonical status None) -> proposal_reads p ->
  exists p', loadEditProposal d (p_ProjectID (sp_proposal p)) (p_ID (sp_proposal p)) = Ok p' /\ same_proposal p p'.
Proof.
  intros Hd (Hr & Ha & Hb & Hg & Hs & Hrun & Ht & Hi & Hj). unfold loadEditProposal. rewrite Hd. cbn. rewrite bool_decide_eq_true_2 by done. cbn.
  rewrite Hr. cbn. rewrite Ha. cbn. rewrite NewRevision_ok by done. cbn. rewrite Hg. cbn. rewrite Hs. cbn.
  rewrite !nullable_id_ok by done. cbn. rewrite !parse_or_zero_ok by done. eexists. split; [reflexivity|]. split; [|done]. cbn.
  by destruct (sp_proposal p).
Qed.

Section commits.
Context `{Platform} `{SQLite} `{EditCodec}.

Lemma prepare_run d p transactionID undoes t : prepareEditTransaction d p transactionID undoes = Ok t ->
  tx_ID t = transactionID /\ tx_ProposalID t = p_ID (sp_proposal p) /\ tx_ProjectID t = p_ProjectID (sp_proposal p) /\
  tx_Actor t = p_Actor (sp_proposal p) /\ tx_Operations t = p_Operations (sp_proposal p) /\
  tx_InverseOperations t = p_InversePreview (sp_proposal p) /\ tx_UndoesTransactionID t = undoes /\
  tx_CommittedProjectRevision t <= MaxInt64 /\ (sha256_sums -> ParseDigest (tx_Digest t) = Ok (tx_Digest t)).
Proof.
  unfold prepareEditTransaction. intros Hp. outcome_inv. destruct v4 as [canonical digest]. match goal with E : _ = t |- _ => subst t | E : Ok _ = Ok t |- _ => injection E as <- end. cbn.
  repeat (split; [done|]). split.
  - unfold Revision_Next in Hs1. by apply NewRevision_same in Hs1 as [-> ?].
  - intros Hsum. by apply (canonical_digest_parses _ _ _ _ Hsum) in Hs4 as [_ ?].
Qed.

Lemma prepare_reads d p transactionID undoes t : sha256_sums -> prepareEditTransaction d p transactionID undoes = Ok t -> proposal_reads p ->
  ParseID transactionID = Ok transactionID -> (forall id, undoes = Some id -> ParseID id = Ok id) -> transaction_reads t.
Proof.
  intros Hsum (E1 & E2 & E3 & E4 & _ & _ & E5 & E6 & E7)%prepare_run (_ & Ha & _ & _ & _ & _ & _ & Hi & Hj) Ht Hu.
  unfold transaction_reads. rewrite E1, E2, E3, E4, E5. auto 10.
Qed.

Lemma appendActivity_run scopeID eventID kind actor revision outcomeID d cursor d' :
  appendActivity scopeID eventID kind actor revision outcomeID d = Ok (cursor, d') ->
  cursor = default 0 (db_activity_heads d !! scopeID) + 1 /\ cursor <= MaxInt64 /\ db_activity_heads d' !! scopeID = Some cursor /\
  db_activity_outbox d' !! eventID = Some (mkActivityRow scopeID cursor kind actor revision outcomeID).
Proof.
  unfold appendActivity. intros Hr. txrun. apply sql_exec_run in Hrun, Hrun0. injection Hrun as <-. injection Hrun0 as <-.
  apply sql_insert_run in Hrun3 as [_ ->]. match goal with E : or_fail _ _ = Ok _ |- _ => apply or_fail_ok in E; rename E into Hc end.
  unfold NewCursor in Hc. destruct (Z.ltb_spec MaxInt64 (default 0 (db_activity_heads (set_activity_heads (alter (fun c => c + 1) scopeID)
    (set_activity_heads (fun m => match m !! scopeID with Some _ => m | None => <[scopeID := 0]> m end) d)) !! scopeID))) as [|Hm]; [discriminate|].
  injection Hc as <-. cbn in *. rewrite lookup_alter_eq in *.
  destruct (db_activity_heads d !! scopeID) as [n|] eqn:E; [rewrite E in *|rewrite lookup_insert_eq in *]; cbn in *;
    (split; [done|]); (split; [done|]); (split; [done|]); by rewrite lookup_insert_eq.
Qed.

Lemma record_commit_run actor request name digest project application event mark p t d r d' :
  keeps extends mark -> record_commit actor request name digest project application event mark p t d = Ok (r, d') ->
  extends d d' /\ cr_Proposal r = applied p (tx_ID t) /\ cr_Transaction r = t /\ cr_Replayed r = false /\
  db_edit_request_identities d' !! request_of actor request =
    Some (mkStoredRequest name digest project (p_ID (sp_proposal p)) (Some application) (Some (tx_ID t)) event) /\
  activityCursorForEvent d' event = Ok (cr_ActivityCursor r).
Proof.
  intros Hm Hr. pose proof (record_commit_grows _ _ _ _ _ _ _ _ _ _ Hm _ _ _ Hr) as He. split; [done|].
  unfold record_commit, insertEditRequest, appendEditCommittedActivity in Hr. txrun. apply sql_insert_run in Hrun2 as [_ ->].
  apply appendActivity_run in Hrun1 as (_ & Hmax & _ & Ho). cbn. rewrite lookup_insert_eq. repeat (split; [done|]).
  unfold activityCursorForEvent. cbn. rewrite Ho. unfold NewCursor. cbn. match goal with |- context [MaxInt64 <? ?x] => destruct (Z.ltb_spec MaxInt64 x) end; [lia|done].
Qed.

(** A request row answers its request with what the row refers to. *)
Lemma answered_intro c application event proposalID transactionID d d' r : extends d d' -> applied_parse d' ->
  db_edit_request_identities d' !! request_of (cmd_actor c) (cmd_request c) =
    Some (mkStoredRequest (cmd_name c) (cmd_digest c) (cmd_project c) proposalID (Some application) (Some transactionID) event) ->
  activityCursorForEvent d' event = Ok (cr_ActivityCursor r) -> ParseDigest (cmd_digest c) = Ok (cmd_digest c) ->
  Forall (fun id => ParseID id = Ok id) [cmd_project c; proposalID; application; transactionID; event] ->
  (exists p', loadEditProposal d (cmd_project c) proposalID = Ok p' /\ same_proposal (cr_Proposal r) p') ->
  loadEditTransaction d (cmd_project c) transactionID = Ok (cr_Transaction r) -> answered d' c r.
Proof.
  intros He Ha Hreq Hcur Hg Hids (p' & Hp & Hsp) Ht. rewrite !Forall_cons in Hids. destruct Hids as (I1 & I2 & I3 & I4 & I5 & _).
  destruct (loadEditProposal_extends _ _ _ _ _ He Ha Hp) as (p'' & Hp'' & Hsp'').
  pose (stored := mkStoredRequest (cmd_name c) (cmd_digest c) (cmd_project c) proposalID (Some application) (Some transactionID) event).
  assert (Hl : loadEditRequest d' (cmd_actor c) (cmd_request c) = Ok stored).
  { unfold loadEditRequest. rewrite Hreq. cbn. rewrite Hg. cbn. rewrite I1. cbn. rewrite I2. cbn. rewrite I5. cbn. rewrite I3. cbn. by rewrite I4. }
  exists (mkCommitResult p'' (cr_Transaction r) (cr_ActivityCursor r) false). split.
  - eapply (replay_intro _ _ _ stored); [exact Hl|reflexivity|exact Hp''|by eapply loadEditTransaction_extends|exact Hcur].
  - cbn. split; [done|]. split; [done|]. destruct Hsp, Hsp''. unfold same_proposal. split; congruence.
Qed.

(** A recorded commit answers its request. *)
Lemma recorded_answered c application event mark p t d r d' :
  record_commit (cmd_actor c) (cmd_request c) (cmd_name c) (cmd_digest c) (cmd_project c) application event mark p t d = Ok (r, d') ->
  keeps extends mark -> applied_parse d' -> ParseDigest (cmd_digest c) = Ok (cmd_digest c) ->
  Forall (fun id => ParseID id = Ok id) [cmd_project c; p_ID (sp_proposal p); application; tx_ID t; event] ->
  (exists p', loadEditProposal d (cmd_project c) (p_ID (sp_proposal p)) = Ok p' /\ same_proposal p p') ->
  loadEditTransaction d (cmd_project c) (tx_ID t) = Ok t -> answered d' c r.
Proof.
  intros Hr Hm Ha Hg Hids (p' & Hp & Hsp) Ht. apply record_commit_run in Hr as (He & Hrp & Hrt & _ & Hreq & Hcur); [|done].
  eapply answered_intro; [exact He|done|exact Hreq|exact Hcur|done|done|..]; [|by rewrite Hrt].
  exists p'. by rewrite Hrp.
Qed.

Lemma persist_run t d u d' : persistAndApplyEditTransaction t d = Ok (u, d') ->
  db_edit_transactions d !! tx_ID t = None /\ db_edit_transactions d' = <[tx_ID t := t]> (db_edit_transactions d) /\
  db_edit_proposals d' = db_edit_proposals d /\
  exists row, db_projects d !! tx_ProjectID t = Some row /\ pr_revision row = tx_CommittedProjectRevision t - 1 /\
    db_projects d' = <[tx_ProjectID t :=
      mkProjectRow (tx_CommittedProjectRevision t) (pr_status row) (pr_narrative_document_id row) (pr_main_sequence_id row)]> (db_projects d).
Proof.
  unfold persistAndApplyEditTransaction. intros Hr.
  apply st_bind_run in Hr as (u1 & d1 & [Hn ->]%sql_insert_run & Hr).
  apply st_bind_run in Hr as (u2 & d2 & Hops & Hr). apply st_bind_run in Hr as (u3 & d3 & Hch & Hr).
  assert (Hf : same_on journal_of (set_edit_transactions (<[tx_ID t := t]>) d) d3).
  { transitivity d2.
    - eapply keeps_all_of; [exact _| |exact Hops]. intros. apply applyNormalizedOperation_frame.
    - eapply keeps_all_of; [exact _| |exact Hch]. intros. cbn beta. keeps_tac; apply applyAggregateRevision_frame. }
  apply sql_update_one in Hr as (row & Hrow & Hrev & ->). injection Hf as Hpr Hpo Ht _ _ _ _ _ _. cbn in *.
  rewrite Ht, Hpo. rewrite Hpr in Hrow |- *. split; [done|]. split; [done|]. split; [done|]. exists row.
  apply Z.eqb_eq in Hrev. done.
Qed.

(** What is marked applied was applied by a transaction that parses. *)
Definition keeps_applied : relation database := fun d d' => applied_parse d -> applied_parse d'.
#[export] Instance keeps_applied_preorder : PreOrder keeps_applied.
Proof. split; [intros d Ha; exact Ha|]. intros d1 d2 d3 H12 H23 Ha. exact (H23 (H12 Ha)). Qed.

Lemma applied_same d d' : db_edit_proposals d' = db_edit_proposals d -> keeps_applied d d'.
Proof. intros E Ha id row t Hr. rewrite E in Hr. by eapply Ha. Qed.

Lemma applied_insert proposal canonical : keeps keeps_applied (insertEditProposalRow proposal canonical).
Proof.
  unfold insertEditProposalRow. keeps_tac. intros Ha id row t Hr Ht. cbn in Hr.
  apply lookup_insert_Some in Hr as [[_ <-]|[_ Hr]]; [discriminate Ht|by eapply Ha].
Qed.

Lemma applied_mark where_ proposalID t : ParseID t = Ok t ->
  keeps keeps_applied (sql_update "edit_proposals" db_edit_proposals set_edit_proposals proposalID where_ (with_status StatusApplied (Some t))).
Proof.
  intros Hp. keeps_tac. intros Ha id row' t' Hr Ht. cbn in Hr.
  apply lookup_insert_Some in Hr as [[_ <-]|[_ Hr]]; [by injection Ht as <-|by eapply Ha].
Qed.

Lemma record_commit_applied actor request name digest project application event mark p t :
  keeps keeps_applied mark -> keeps keeps_applied (record_commit actor request name digest project application event mark p t).
Proof.
  intros Hm. unfold record_commit, insertProposalApplication, appendEditCommittedActivity, insertEditRequest, appendActivity. keeps_tac;
    try match goal with E : Ok _ = Ok _ |- _ => injection E as <- end; try by apply applied_same. exact Hm.
Qed.
Lemma persist_applied t : keeps keeps_applied (persistAndApplyEditTransaction t).
Proof. intros d u d' (_ & _ & Hp & _)%persist_run. by apply applied_same. Qed.
End commits.
