(* ===== verification/RepositoryOnce.v ===== *)
(** Every committed request is answered the same way ever after, whatever
    happens in between, and nothing else may use its identity. *)
From stdpp Require Import base list strings gmap sorting.
From Stdlib Require Import ZArith Lia.
From S2P Require Import Prelude GoText Exact Identity Canonical EditModel Timeline EditState EditClips EditNarrative EditDerive EditValidate.
From S2P Require Import EditNormalize EditJournal EditEffects Database Projection EditLoad EditLoadState EditRepository.
From S2P Require Import RepositorySample RepositoryEffects RepositoryJournal RepositoryReplay.
Open Scope Z_scope.

Lemma typed_nonzero id : id_typed id -> IsZero id = false -> ParseID id = Ok id.
Proof. intros [Hz|Hp] Hn; [congruence|done]. Qed.

Lemma ids_parse ids : Forall id_typed ids -> forallb (fun id => negb (IsZero id)) ids = true -> Forall (fun id => ParseID id = Ok id) ids.
Proof.
  induction 1 as [|id ids Ht _ IH]; [done|]. cbn. intros [Hz Hr]%andb_true_iff. apply negb_true_iff in Hz.
  constructor; [by apply typed_nonzero|by apply IH].
Qed.

Lemma request_parse request digest : valid_request request digest = true -> ParseRequestID request = Ok request /\ ParseDigest digest = Ok digest.
Proof.
  unfold valid_request. intros [Hr Hd]%andb_true_iff. split.
  - destruct (ParseRequestID request) eqn:E; [|discriminate..]. by rewrite (ParseRequestID_id _ _ E) at 1.
  - destruct (ParseDigest digest) eqn:E; [|discriminate..]. by rewrite (ParseDigest_same _ _ E) at 1.
Qed.

Lemma actor_nonzero actor : ActorRef_Validate actor = true -> IsZero (IDString actor) = false.
Proof.
  destruct actor as [kind creator agent]. unfold ActorRef_Validate, IDString, pointer_is, absent. cbn.
  destruct kind; [| |discriminate]; destruct creator, agent; cbn; rewrite ?andb_false_r, ?andb_true_r; try discriminate;
    by intros ?%negb_true_iff.
Qed.

Lemma nonzero_id_parse id x : id_typed id -> nonzero_id id = Some x -> ParseID x = Ok x.
Proof. unfold nonzero_id. intros Ht. destruct (IsZero id) eqn:E; [discriminate|]. intros [= <-]. by apply typed_nonzero. Qed.

Section once.
Context `{Platform} `{SQLite} `{EditCodec}.

Lemma normalized_fields input p canonical : normalized_proposal input = Ok (p, canonical) ->
  let q := sp_proposal p in
  p_ID q = in_ProposalID input /\ p_ProjectID q = in_ProjectID input /\ p_SequenceID q = in_SequenceID input /\
  p_RunID q = nonzero_id (in_RunID input) /\ p_TurnID q = nonzero_id (in_TurnID input) /\ p_RequestID q = pi_RequestID (in_Input input) /\
  p_Actor q = in_Actor input /\ p_BaseProjectRevision q = pi_BaseProjectRevision (in_Input input) /\
  (sha256_sums -> ParseDigest (sp_Digest p) = Ok (sp_Digest p)).
Proof.
  unfold normalized_proposal, NormalizeEditProposal. intros Hn. outcome_inv. destruct v0 as [c digest]. outcome_inv. subst. cbn.
  destruct (validateNormalizationInput input); try discriminate. cbn in Hs.
  destruct (newEditNormalizer input) as [n0| |]; try discriminate. cbn in Hs. destruct (normalize n0) as [[? n]| |]; try discriminate.
  injection Hs as <-. cbn. repeat (split; [done|]). intros Hsum. by apply (canonical_digest_parses _ _ _ _ Hsum) in Hs0 as [_ ?].
Qed.

Lemma buildUndo_fields d record target p canonical : buildUndoProposal d record target = Ok (p, canonical) ->
  let q := sp_proposal p in
  p_ID q = ur_ProposalID record /\ p_ProjectID q = ur_ProjectID record /\ p_SequenceID q = ur_SequenceID record /\
  p_RunID q = nonzero_id (ur_RunID record) /\ p_TurnID q = nonzero_id (ur_TurnID record) /\ p_RequestID q = ur_RequestID record /\
  p_Actor q = ur_Actor record /\ p_BaseProjectRevision q <= MaxInt64 /\ (sha256_sums -> ParseDigest (sp_Digest p) = Ok (sp_Digest p)).
Proof.
  unfold buildUndoProposal. intros Hb. apply bind_ok in Hb as (current & _ & Hb). apply bind_ok in Hb as ([operations final] & _ & Hb).
  apply bind_ok in Hb as ([inverse ?] & _ & Hb). apply bind_ok in Hb as (changes & _ & Hb). apply bind_ok in Hb as (revision & Hrev & Hb).
  apply bind_ok in Hb as ([c digest] & Hd%or_fail_ok & [= <- <-]). cbn. repeat (split; [done|]). split.
  - unfold project_revision in Hrev. destruct (db_projects d !! _); [|discriminate]. apply or_fail_ok in Hrev.
    by apply NewRevision_same in Hrev as [-> ?].
  - intros Hsum. by apply (canonical_digest_parses _ _ _ _ Hsum) in Hd as [_ ?].
Qed.

Lemma loaded_reads d project id p : loadEditProposal d project id = Ok p -> ParseID id = Ok id -> ParseID project = Ok project ->
  proposal_reads p /\ p_ID (sp_proposal p) = id /\ p_ProjectID (sp_proposal p) = project.
Proof.
  unfold loadEditProposal. intros Hl Hi Hj. destruct (db_edit_proposals d !! id) as [row|]; [|discriminate]. outcome_inv. subst. cbn.
  bool_prop. subst. unfold proposal_reads. cbn. rewrite !parse_or_zero_ok by done.
  pose proof (parseStoredActor_idem _ _ _ Hs1). apply ParseID_same in Hs4 as [-> ?]. apply NewRevision_same in Hs2 as [-> ?].
  pose proof (ParseRequestID_id _ _ Hs0) as ->. pose proof (ParseDigest_same _ _ Hs3) as ->.
  apply nullable_id_same in Hs5 as [-> ?], Hs6 as [-> ?]. auto 15.
Qed.

(** From a proposal that is stored to the record of its commit *)
Lemma commit_tail c application event mark p transactionID undoes t d0 d1 u r d2 : sha256_sums -> applied_parse d0 ->
  prepareEditTransaction d0 p transactionID undoes = Ok t -> persistAndApplyEditTransaction t d0 = Ok (u, d1) ->
  record_commit (cmd_actor c) (cmd_request c) (cmd_name c) (cmd_digest c) (cmd_project c) application event mark p t d1 = Ok (r, d2) ->
  keeps extends mark -> keeps keeps_applied mark -> proposal_reads p -> p_ProjectID (sp_proposal p) = cmd_project c ->
  (exists p', loadEditProposal d0 (cmd_project c) (p_ID (sp_proposal p)) = Ok p' /\ same_proposal p p') ->
  ParseDigest (cmd_digest c) = Ok (cmd_digest c) -> Forall (fun id => ParseID id = Ok id) [application; transactionID; event] ->
  (forall id, undoes = Some id -> ParseID id = Ok id) -> applied_parse d2 /\ answered d2 c r.
Proof.
  intros Hsum Ha Hprep Hper Hrec He Hm Hreads Hproj (p' & Hlp & Hsp) Hdig Hids Hun. rewrite !Forall_cons in Hids. destruct Hids as (I1 & I2 & I3 & _).
  pose proof (prepare_reads _ _ _ _ _ Hsum Hprep Hreads I2 Hun) as Htr. pose proof (prepare_run _ _ _ _ _ Hprep) as (E1 & _ & E3 & _).
  pose proof (persist_grows _ _ _ _ Hper) as Hg. pose proof (persist_applied _ _ _ _ Hper Ha) as Ha1.
  assert (Ha2 : applied_parse d2) by (eapply record_commit_applied; [exact Hm|exact Hrec|exact Ha1]).
  split; [done|]. apply persist_run in Hper as (_ & Htx & _).
  eapply recorded_answered; [exact Hrec|exact He|exact Ha2|exact Hdig|..].
  - destruct Hreads as (_ & _ & _ & _ & _ & _ & _ & Hi & Hj). rewrite Hproj in Hj. rewrite E1. by repeat constructor.
  - destruct (loadEditProposal_extends _ _ _ _ _ Hg Ha1 Hlp) as (p'' & Hlp' & [Hs1 Hs2]). exists p''. split; [done|].
    destruct Hsp. split; congruence.
  - rewrite <- Hproj, <- E3. apply transaction_read_back; [|done]. rewrite Htx. apply lookup_insert_eq.
Qed.

Lemma mark_applied_keeps p t : ParseID t = Ok t -> keeps keeps_applied (markEditProposalApplied p t).
Proof. intros Hp. unfold markEditProposalApplied. apply keeps_bind; [exact _|by apply applied_mark|intros; by apply keeps_ret; exact _]. Qed.
Lemma mark_undo_keeps p t : ParseID t = Ok t -> keeps keeps_applied (mark_undo_applied p t).
Proof. intros Hp. unfold mark_undo_applied. apply keeps_bind; [exact _|by apply applied_mark|intros; by apply keeps_ret; exact _]. Qed.
Lemma run_transaction_keeps run t : keeps keeps_applied (insert_run_transaction run t).
Proof. unfold insert_run_transaction. keeps_tac. by apply applied_same. Qed.

(** The proposal of a commit, stored *)
Lemma inserted_loads p canonical d u d' : insertEditProposalRow p canonical d = Ok (u, d') -> proposal_reads p ->
  exists p', loadEditProposal d' (p_ProjectID (sp_proposal p)) (p_ID (sp_proposal p)) = Ok p' /\ same_proposal p p'.
Proof. intros [_ ->]%sql_insert_run Hr. eapply proposal_read_back; [|done]. cbn. by rewrite lookup_insert_eq. Qed.

Lemma actor_reads actor : ActorRef_Validate actor = true -> id_typed (IDString actor) ->
  parseStoredActor (actor_Kind actor) (IDString actor) = Ok actor.
Proof. intros Hv Ht. apply actor_stored; [done|]. by apply typed_nonzero, actor_nonzero. Qed.

Lemma commit_effect_answered record d r d' : let c := CommitCommand record in
  sha256_sums -> cmd_typed c -> cmd_valid c = Ok tt -> applied_parse d -> cmd_effect c d = Ok (r, d') -> applied_parse d' /\ answered d' c r.
Proof.
  cbn -[cmd_typed]. intros Hsum (Hids & Hactor & Hbase & Hreq) Hv%guard_or_ok Ha Hr. cbn in Hids, Hactor, Hbase, Hreq. bool_prop.
  match goal with E : forallb _ _ = true |- _ => pose proof (ids_parse _ Hids E) as Hp end. rewrite !Forall_cons in Hp.
  destruct Hp as (I1 & I2 & I3 & I4 & I5 & I6 & _).
  match goal with E : valid_request _ _ = true |- _ => apply request_parse in E as [Hrq Hdg] end.
  unfold commit_effect in Hr. txrun. rename s into p.
  match goal with E : normalized_proposal _ = Ok _ |- _ => apply normalized_fields in E as (F1 & F2 & F3 & F4 & F5 & F6 & F7 & F8 & F9) end.
  cbn in F1, F2, F3, F4, F5, F6, F7, F8.
  assert (Hreads : proposal_reads p).
  { unfold proposal_reads. rewrite F1, F2, F3, F4, F5, F6, F7, F8, Hreq.
    repeat (split; [first [by apply actor_reads|by auto|by intros ? ?%nonzero_id_parse; [|left]]|]). done. }
  match goal with E : insertEditProposalRow _ _ _ = Ok _ |- _ => pose proof (inserted_loads _ _ _ _ _ E Hreads) as Hl;
    apply applied_insert in E as Ha1; specialize (Ha1 Ha) end.
  rewrite F2 in Hl.
  match goal with E : prepareEditTransaction _ _ _ _ = Ok ?t |- _ => pose proof (prepare_run _ _ _ _ _ E) as (T1 & _) end.
  eapply (commit_tail (CommitCommand record)); [exact Hsum|exact Ha1|eassumption|eassumption|exact Hr|..]; cbn;
    [apply mark_grows|rewrite T1; by apply mark_applied_keeps|exact Hreads|exact F2|exact Hl|exact Hdg|by repeat constructor|done].
Qed.

(** What both undo commands share: [c] is the command of the record [record'] they run with. *)
Lemma undo_target_answered c record mark d r d' : sha256_sums -> applied_parse d ->
  cmd_actor c = ur_Actor record -> cmd_request c = ur_RequestID record -> cmd_digest c = ur_InputDigest record -> cmd_project c = ur_ProjectID record ->
  Forall (fun id => ParseID id = Ok id) (undo_ids record) -> id_typed (ur_RunID record) -> id_typed (ur_TurnID record) ->
  id_typed (IDString (ur_Actor record)) -> ActorRef_Validate (ur_Actor record) = true ->
  valid_request (ur_RequestID record) (ur_InputDigest record) = true ->
  (forall p t, keeps extends (mark p t)) -> (forall p t, ParseID t = Ok t -> keeps keeps_applied (mark p t)) ->
  undo_target record (cmd_name c) mark d = Ok (r, d') -> applied_parse d' /\ answered d' c r.
Proof.
  intros Hsum Ha C1 C2 C3 C4 Hids Hrun Hturn Hactor Hv Hq He Hm Hr. unfold undo_ids in Hids. rewrite !Forall_cons in Hids.
  destruct Hids as (I1 & I2 & I3 & I4 & I5 & I6 & I7 & _). apply request_parse in Hq as [Hrq Hdg]. unfold undo_target in Hr. txrun. rename s into p.
  match goal with E : buildUndoProposal _ _ _ = Ok _ |- _ => apply buildUndo_fields in E as (F1 & F2 & F3 & F4 & F5 & F6 & F7 & F8 & F9) end.
  assert (Hreads : proposal_reads p).
  { unfold proposal_reads. rewrite F1, F2, F3, F4, F5, F6, F7.
    repeat (split; [first [by apply actor_reads|by auto|by intros ? ?%nonzero_id_parse]|]). done. }
  match goal with E : insertEditProposalRow _ _ _ = Ok _ |- _ => pose proof (inserted_loads _ _ _ _ _ E Hreads) as Hl;
    apply applied_insert in E as Ha1; specialize (Ha1 Ha) end.
  rewrite F2 in Hl.
  match goal with E : prepareEditTransaction _ _ _ _ = Ok ?t |- _ => pose proof (prepare_run _ _ _ _ _ E) as (T1 & _) end.
  rewrite <- C1, <- C2, <- C3, <- C4 in Hr.
  eapply (commit_tail c); [exact Hsum|exact Ha1|eassumption|eassumption|exact Hr|..];
    [apply He|apply Hm; by rewrite T1|exact Hreads|by rewrite F2|by rewrite C4|by rewrite C3|by repeat constructor|by intros ? [= <-]].
Qed.

Lemma undo_effect_answered record d r d' : let c := UndoCommand record in
  sha256_sums -> cmd_typed c -> cmd_valid c = Ok tt -> applied_parse d -> cmd_effect c d = Ok (r, d') -> applied_parse d' /\ answered d' c r.
Proof.
  cbn -[cmd_typed undo_ids app forallb]. intros Hsum (Hids & Hactor & _) Hv%guard_or_ok Ha Hr. cbn in Hids, Hactor. bool_prop. rewrite !Forall_cons in Hids.
  destruct Hids as (J1 & J2 & Hids). assert (Hids' : Forall id_typed (undo_ids record)) by (unfold undo_ids; by rewrite !Forall_cons).
  unfold undo_effect in Hr. txrun.
  match goal with E : forallb _ (_ ++ _) = true |- _ => rewrite forallb_app in E; apply andb_true_iff in E as [E _];
    pose proof (ids_parse _ Hids' E) as Hp end.
  refine (undo_target_answered (UndoCommand record) record _ d r d' Hsum Ha eq_refl eq_refl eq_refl eq_refl Hp J1 J2 Hactor _ _ _ _ Hr); [done..| |].
  - intros. keeps_tac; [apply mark_undo_grows|apply run_transaction_grows].
  - intros. apply keeps_bind; [exact _|by apply mark_undo_keeps|intros; apply run_transaction_keeps].
Qed.

Lemma undo_creator_effect_answered record d r d' : let c := UndoCreatorCommand record in
  sha256_sums -> cmd_typed c -> cmd_valid c = Ok tt -> applied_parse d -> cmd_effect c d = Ok (r, d') -> applied_parse d' /\ answered d' c r.
Proof.
  cbn -[cmd_typed undo_ids app forallb]. intros Hsum (Hids & Hactor & _) Hv%guard_or_ok Ha Hr. cbn in Hids, Hactor. bool_prop.
  unfold undo_creator_effect in Hr. txrun.
  match goal with E : forallb _ (undo_ids _) = true |- _ => pose proof (ids_parse (undo_ids record) Hids E) as Hp end.
  refine (undo_target_answered (UndoCreatorCommand record) (creator_undo record) _ d r d' Hsum Ha eq_refl eq_refl eq_refl eq_refl Hp
    (or_introl eq_refl) (or_introl eq_refl) Hactor _ _ _ _ Hr); [done..| |].
  - intros. apply mark_grows.
  - intros. by apply mark_applied_keeps.
Qed.

Lemma loadEditTransaction_id d project id t : loadEditTransaction d project id = Ok t -> tx_ID t = parse_or_zero id.
Proof. unfold loadEditTransaction. destruct (db_edit_transactions d !! id); [|discriminate]. intros Hl. outcome_inv. by subst. Qed.

Lemma loaded_applied d project id p t : loadEditProposal d project id = Ok p -> sp_AppliedTransactionID p = Some t -> ParseID t = Ok t.
Proof.
  unfold loadEditProposal. destruct (db_edit_proposals d !! id); [|discriminate]. intros Hl. outcome_inv. subst. cbn. intros ->.
  match goal with E : nullable_id (po_applied_transaction_id _) = Ok _ |- _ => by apply nullable_id_same in E as [<- ?]; auto end.
Qed.

Lemma converge_applied record p appliedID : keeps keeps_applied (convergeAppliedProposal record p appliedID).
Proof.
  unfold convergeAppliedProposal, insertProposalApplication, insertEditRequest, appendActivity. keeps_tac;
    try match goal with E : Ok _ = Ok _ |- _ => injection E as <- end; by apply applied_same.
Qed.

(** Applying a proposal again finds the transaction that applied it. *)
Lemma converge_answered record p appliedID d r d' : let c := ApplyCommand record in
  applied_parse d -> ParseDigest (ar_InputDigest record) = Ok (ar_InputDigest record) ->
  Forall (fun id => ParseID id = Ok id) [ar_ProjectID record; ar_ProposalID record; ar_ApplicationID record; ar_ActivityEventID record; appliedID] ->
  loadEditProposal d (ar_ProjectID record) (ar_ProposalID record) = Ok p -> p_ID (sp_proposal p) = ar_ProposalID record ->
  p_ProjectID (sp_proposal p) = ar_ProjectID record -> convergeAppliedProposal record p appliedID d = Ok (r, d') ->
  applied_parse d' /\ answered d' c r.
Proof.
  intros c Ha Hdg Hids Hl Hpid Hproj Hr. rewrite !Forall_cons in Hids. destruct Hids as (I1 & I2 & I3 & I4 & I5 & _).
  pose proof (converge_grows _ _ _ _ _ _ Hr) as Hg. pose proof (converge_applied _ _ _ _ _ _ Hr Ha) as Ha'. split; [done|].
  unfold convergeAppliedProposal, insertEditRequest in Hr. txrun.
  match goal with E : loadEditTransaction _ _ _ = Ok _ |- _ => rename E into Htx end.
  pose proof (loadEditTransaction_id _ _ _ _ Htx) as Hid. rewrite parse_or_zero_ok in Hid by done.
  match goal with E : appendActivity _ _ _ _ _ _ _ = Ok _ |- _ => apply appendActivity_run in E as (_ & Hmax & _ & Hout) end.
  match goal with E : sql_insert "edit_request_identities" _ _ _ _ _ = Ok _ |- _ => apply sql_insert_run in E as [_ ->] end.
  eapply (answered_intro c (ar_ApplicationID record) (ar_ActivityEventID record) (p_ID (sp_proposal p)) (tx_ID v));
    [exact Hg|exact Ha'|cbn; by rewrite lookup_insert_eq| |exact Hdg|..].
  - cbn. unfold activityCursorForEvent. cbn. rewrite Hout. cbn. unfold NewCursor.
    match goal with |- context [MaxInt64 <? ?x] => destruct (Z.ltb_spec MaxInt64 x) end; [lia|done].
  - rewrite Hid, Hpid. by repeat constructor.
  - exists p. by rewrite Hpid.
  - rewrite Hid. cbn. by rewrite <- Hproj.
Qed.

Lemma apply_effect_answered record d r d' : let c := ApplyCommand record in
  sha256_sums -> cmd_typed c -> cmd_valid c = Ok tt -> applied_parse d -> cmd_effect c d = Ok (r, d') -> applied_parse d' /\ answered d' c r.
Proof.
  cbn -[cmd_typed forallb]. intros Hsum (Hids & Hactor & _) Hv%guard_or_ok Ha Hr. cbn in Hids, Hactor. bool_prop.
  match goal with E : forallb _ _ = true |- _ => rename E into Hnz end.
  match goal with E : valid_request _ _ = true |- _ => apply request_parse in E as [Hrq Hdg] end.
  assert (Forall (fun id => ParseID id = Ok id) (cmd_ids (ApplyCommand record))) as Hp.
  { apply ids_parse; [exact Hids|]. cbn in Hnz |- *. bool_prop. repeat match goal with E : IsZero _ = false |- _ => rewrite E; clear E end. done. }
  cbn in Hp. rewrite !Forall_cons in Hp. destruct Hp as (I1 & I2 & I3 & I4 & I5 & I6 & _).
  unfold apply_effect in Hr. txrun. match goal with E : loadEditProposal _ _ _ = Ok ?x |- _ => rename E into Hl, x into p end.
  destruct (loaded_reads _ _ _ _ Hl I3 I1) as (Hreads & Hpid & Hproj).
  destruct (sp_Status p) eqn:Hst; [|destruct (sp_AppliedTransactionID p) as [appliedID|] eqn:Hap|..]; txrun.
  - match goal with E : prepare_or_mark_stale _ _ _ = Ok _ |- _ => rename E into Hprep end. unfold prepare_or_mark_stale in Hprep.
    destruct (prepareEditTransaction _ _ _ _) as [t| |] eqn:E; [injection Hprep as <- <-|txrun|discriminate].
    pose proof (prepare_run _ _ _ _ _ E) as (T1 & _).
    eapply (commit_tail (ApplyCommand record)); [exact Hsum|exact Ha|exact E|eassumption|exact Hr|..]; cbn;
      [| |exact Hreads|exact Hproj|rewrite Hpid; by exists p|exact Hdg|by repeat constructor|done].
    + keeps_tac; [apply mark_grows|apply run_transaction_grows].
    + apply keeps_bind; [exact _|apply mark_applied_keeps; by rewrite T1|intros; apply run_transaction_keeps].
  - eapply converge_answered; [exact Ha|exact Hdg| |exact Hl|exact Hpid|exact Hproj|exact Hr].
    pose proof (loaded_applied _ _ _ _ _ Hl Hap). by repeat constructor.
Qed.

(** Whatever command succeeds, the journal answers its request from then on. *)
Lemma run_commit_answered c d r d' : sha256_sums -> cmd_typed c -> applied_parse d -> run_commit c d = (Ok r, d') ->
  applied_parse d' /\ answered d' c r.
Proof.
  intros Hsum Ht Ha Hr. rewrite run_commit_eq in Hr. apply command_run in Hr as (Hv & Hr & _).
  unfold unless_replayed in Hr. apply unless_found_run in Hr as [(r0 & Hl & [= <-] & ->)|[_ Hr]].
  - split; [done|]. exists r0. by repeat split.
  - destruct c; [by eapply apply_effect_answered|by eapply undo_effect_answered|by eapply commit_effect_answered|by eapply undo_creator_effect_answered].
Qed.

Lemma propose_applied record d : applied_parse d -> applied_parse (ProposeEdit record d).2.
Proof.
  unfold ProposeEdit. apply (command_keeps keeps_applied). unfold propose_body, insertEditRequest, appendActivity. keeps_tac;
    try match goal with E : Ok _ = Ok _ |- _ => injection E as <- end; try by apply applied_same. apply applied_insert.
Qed.

Lemma steps_applied d d' : sha256_sums -> rtc step d d' -> applied_parse d -> applied_parse d'.
Proof.
  intros Hsum. induction 1 as [|d1 d2 d3 Hs _ IH]; [done|]. intros Ha. apply IH. destruct Hs as [record d|c d Ht].
  - by apply propose_applied.
  - destruct (run_commit c d) as [[r| |] d'] eqn:E; cbn.
    + by eapply run_commit_answered.
    + assert (is_ok (run_commit c d).1 = false) as Hno by (by rewrite E). rewrite run_commit_eq in Hno, E.
      apply command_rollback in Hno. rewrite E in Hno. cbn in Hno. by subst.
    + assert (is_ok (run_commit c d).1 = false) as Hno by (by rewrite E). rewrite run_commit_eq in Hno, E.
      apply command_rollback in Hno. rewrite E in Hno. cbn in Hno. by subst.
Qed.

(** The same request: name, input and project *)
Definition same_request (c c' : commit_command) : Prop :=
  cmd_name c' = cmd_name c /\ cmd_digest c' = cmd_digest c /\ cmd_project c' = cmd_project c.

Lemma answered_replays d c c' r : answered d c r -> cmd_actor c' = cmd_actor c -> cmd_request c' = cmd_request c -> cmd_valid c' = Ok tt ->
  refuses "COMMIT" d = false ->
  (same_request c c' -> exists r', run_commit c' d = (Ok r', d) /\ cr_Replayed r' = true /\ cr_Transaction r' = cr_Transaction r /\
     cr_ActivityCursor r' = cr_ActivityCursor r /\ same_proposal (cr_Proposal r) (cr_Proposal r')) /\
  (~ same_request c c' -> run_commit c' d = (Fail ErrEditRequestReused, d)).
Proof.
  intros (r0 & Hl & Ht & Hc & Hsp) Ea Er Hv Hcom. rewrite run_commit_eq. unfold command, transaction, unless_replayed, unless_found.
  rewrite Hv, Ea, Er. split.
  - intros (E1 & E2 & E3). rewrite E1, E2, E3, Hl. unfold reading. cbn. rewrite Hcom. eexists. split; [reflexivity|]. by cbn.
  - intros Hno. apply replay_inv in Hl as (stored & tid & Hr & Htid & Hn & Hd & Hp & _). unfold loadEditCommitReplay. rewrite Hr. cbn. rewrite Htid.
    assert (bool_decide (sq_Command stored = cmd_name c') && bool_decide (sq_InputDigest stored = cmd_digest c') &&
      bool_decide (sq_ProjectID stored = cmd_project c') = false) as ->; [|done].
    apply not_true_is_false. intros ?. bool_prop. apply Hno. unfold same_request. split; [congruence|]. split; congruence.
Qed.

(** ** Proposals

    [ProposeEdit] keeps its requests in the table the commits use. *)

(** The fields of the record that the types of the code keep well formed *)
Definition propose_typed (record : ProposeEditRecord) : Prop :=
  Forall id_typed [pe_ProjectID record; pe_SequenceID record; pe_RunID record; pe_TurnID record; pe_ProposalID record; pe_ActivityEventID record] /\
  id_typed (IDString (pe_Actor record)) /\ pi_BaseProjectRevision (pe_Input record) <= MaxInt64 /\ pi_RequestID (pe_Input record) = pe_RequestID record.

(** The journal holds the answer [r] to the request of [record]. *)
Definition proposed (d : database) (record : ProposeEditRecord) (r : EditProposalResult) : Prop :=
  exists stored p, loadEditRequest d (pe_Actor record) (pe_RequestID record) = Ok stored /\
    sq_Command stored = "edit propose" /\ sq_InputDigest stored = pe_InputDigest record /\ sq_ProjectID stored = pe_ProjectID record /\
    loadEditProposal d (pe_ProjectID record) (sq_ProposalID stored) = Ok p /\ same_proposal (pr_Proposal r) p /\
    activityCursorForEvent d (sq_ActivityEventID stored) = Ok (pr_ActivityCursor r).

Lemma proposed_extends d d' record r : extends d d' -> applied_parse d' -> proposed d record r -> proposed d' record r.
Proof.
  intros He Ha (stored & p & Hl & K1 & K2 & K3 & Hp & [Hs1 Hs2] & Hc).
  destruct (loadEditProposal_extends _ _ _ _ _ He Ha Hp) as (p' & Hp' & [Hs1' Hs2']).
  exists stored, p'. split; [by eapply loadEditRequest_extends|]. do 4 (split; [done|]). split; [split; congruence|].
  by eapply activityCursorForEvent_extends.
Qed.

Lemma propose_effect_proposed record d r d' : sha256_sums -> propose_typed record -> applied_parse d -> ProposeEdit record d = (Ok r, d') ->
  applied_parse d' /\ proposed d' record r.
Proof.
  intros Hsum (Hids & Hactor & Hbase & Hreq) Ha Hr. pose proof (propose_applied record d Ha) as Ha'. rewrite Hr in Ha'. split; [done|]. cbn in Ha'.
  apply command_run in Hr as (Hv%guard_or_ok & Hr & _). cbn in Hids, Hactor. bool_prop.
  match goal with E : forallb _ _ = true |- _ => pose proof (ids_parse _ Hids E) as Hp end. rewrite !Forall_cons in Hp.
  destruct Hp as (I1 & I2 & I3 & I4 & I5 & I6 & _).
  match goal with E : valid_request _ _ = true |- _ => apply request_parse in E as [Hrq Hdg] end.
  unfold propose_body in Hr. apply unless_found_run in Hr as [(stored & Hl & Hr & ->)|[_ Hr]].
  { unfold replayed_proposal in Hr. outcome_inv. bool_prop. subst. cbn. exists stored, v0. by repeat split. }
  txrun.
  rename s into p.
  match goal with E : normalized_proposal _ = Ok _ |- _ => apply normalized_fields in E as (F1 & F2 & F3 & F4 & F5 & F6 & F7 & F8 & F9) end.
  cbn in F1, F2, F3, F4, F5, F6, F7, F8.
  assert (Hreads : proposal_reads p).
  { unfold proposal_reads. rewrite F1, F2, F3, F4, F5, F6, F7, F8, Hreq.
    repeat (split; [first [by apply actor_reads|by auto|by intros ? ?%nonzero_id_parse; [|right]]|]). done. }
  match goal with E : insertEditProposalRow _ _ _ = Ok _ |- _ => pose proof (inserted_loads _ _ _ _ _ E Hreads) as (p0 & Hp0 & Hs0) end.
  match goal with E : insertEditRequest _ _ _ _ _ _ _ _ _ _ = Ok _ |- _ => rename E into Hreqs end.
  match goal with E : appendActivity _ _ _ _ _ _ _ = Ok _ |- _ => pose proof (appendActivity_grows _ _ _ _ _ _ _ _ _ E) as He1;
    apply appendActivity_run in E as (_ & Hmax & _ & Hout) end.
  unfold insertEditRequest in Hreqs. apply sql_insert_run in Hreqs as [Hnone ->].
  destruct (loadEditProposal_extends d2 _ _ _ _ (transitivity He1 (extends_insert_request _ _ _ Hnone)) Ha' Hp0) as (p1 & Hp1 & Hs1).
  exists (mkStoredRequest "edit propose" (pe_InputDigest record) (pe_ProjectID record) (p_ID (sp_proposal p)) None None (pe_ActivityEventID record)), p1.
  split.
  { unfold loadEditRequest. cbn. rewrite lookup_insert_eq. cbn. rewrite Hdg. cbn. rewrite I1. cbn. rewrite F1, I5. cbn. by rewrite I6. }
  cbn. do 3 (split; [done|]). split; [by rewrite <- F2|]. split; [by destruct Hs0, Hs1; split; congruence|].
  unfold activityCursorForEvent. cbn. rewrite Hout. cbn. unfold NewCursor.
  match goal with |- context [MaxInt64 <? ?x] => destruct (Z.ltb_spec MaxInt64 x) end; [lia|done].
Qed.

(** ** Calls

    Every call that claims a request identity: a proposal or a commit *)

Inductive edit_call := Proposing (record : ProposeEditRecord) | Committing (c : commit_command).

Definition call_actor (e : edit_call) : ActorRef := match e with Proposing record => pe_Actor record | Committing c => cmd_actor c end.
Definition call_request (e : edit_call) : string := match e with Proposing record => pe_RequestID record | Committing c => cmd_request c end.
Definition call_name (e : edit_call) : string := match e with Proposing _ => "edit propose" | Committing c => cmd_name c end.
Definition call_digest (e : edit_call) : string := match e with Proposing record => pe_InputDigest record | Committing c => cmd_digest c end.
Definition call_project (e : edit_call) : string := match e with Proposing record => pe_ProjectID record | Committing c => cmd_project c end.
Definition call_typed (e : edit_call) : Prop := match e with Proposing record => propose_typed record | Committing c => cmd_typed c end.
Definition call_valid (e : edit_call) : outcome repo_error unit :=
  match e with Proposing record => validateProposeEditRecord record | Committing c => cmd_valid c end.

(** What a call answers: a proposal has no transaction. *)
Record call_answer := mkCallAnswer { an_Proposal : StoredProposal; an_Transaction : option EditTransaction; an_ActivityCursor : Z; an_Replayed : bool }.
Definition proposal_answer (r : EditProposalResult) : call_answer := mkCallAnswer (pr_Proposal r) None (pr_ActivityCursor r) (pr_Replayed r).
Definition commit_answer (r : EditCommitResult) : call_answer :=
  mkCallAnswer (cr_Proposal r) (Some (cr_Transaction r)) (cr_ActivityCursor r) (cr_Replayed r).
Definition map_answer {A B} (f : A -> B) (s : outcome repo_error A * database) : outcome repo_error B * database :=
  (match s.1 with Ok a => Ok (f a) | Fail e => Fail e | Panic => Panic end, s.2).
Definition run_call (e : edit_call) (d : database) : outcome repo_error call_answer * database :=
  match e with
  | Proposing record => map_answer proposal_answer (ProposeEdit record d)
  | Committing c => map_answer commit_answer (run_commit c d)
  end.

Definition same_call (e e' : edit_call) : Prop :=
  call_name e' = call_name e /\ call_digest e' = call_digest e /\ call_project e' = call_project e.

(** The journal answers the request of [e] with [a]. *)
Definition call_answered (d : database) (e : edit_call) (a : call_answer) : Prop :=
  match e with
  | Proposing record => exists r, a = proposal_answer r /\ proposed d record r
  | Committing c => exists r, a = commit_answer r /\ answered d c r
  end.

Lemma run_call_answered e d a d' : sha256_sums -> call_typed e -> applied_parse d -> run_call e d = (Ok a, d') ->
  applied_parse d' /\ call_answered d' e a.
Proof.
  intros Hsum Ht Ha Hr. destruct e as [record|c]; cbn in *.
  - destruct (ProposeEdit record d) as [[r| |] d1] eqn:E; [|discriminate..]. injection Hr as <- <-.
    destruct (propose_effect_proposed _ _ _ _ Hsum Ht Ha E). eauto.
  - destruct (run_commit c d) as [[r| |] d1] eqn:E; [|discriminate..]. injection Hr as <- <-.
    destruct (run_commit_answered _ _ _ _ Hsum Ht Ha E). eauto.
Qed.

Lemma call_answered_extends d d' e a : extends d d' -> applied_parse d' -> call_answered d e a -> call_answered d' e a.
Proof. intros He Ha. destruct e; intros (r & -> & Hr); exists r; (split; [done|]); eauto using proposed_extends, answered_extends. Qed.

(** Whatever claims the request of a commit again *)
Lemma commit_claimed d c e' r : answered d c r -> call_actor e' = cmd_actor c -> call_request e' = cmd_request c -> call_valid e' = Ok tt ->
  refuses "COMMIT" d = false -> ~ same_call (Committing c) e' -> run_call e' d = (Fail ErrEditRequestReused, d).
Proof.
  intros Hans Ea Er Hv Hcom Hno. destruct e' as [record|c']; cbn in *.
  - destruct Hans as (r0 & Hl & _). apply replay_inv in Hl as (stored & tid & Hr & _ & Hn & _). unfold ProposeEdit, command, transaction, propose_body,
      unless_found. rewrite Hv, Ea, Er, Hr. unfold reading, replayed_proposal. rewrite Hn. by destruct c.
  - destruct (answered_replays d c c' r Hans Ea Er Hv Hcom) as [_ Hreused]. by rewrite Hreused.
Qed.

(** Whatever claims the request of a proposal again *)
Lemma proposal_claimed d record e' r : proposed d record r -> call_actor e' = pe_Actor record -> call_request e' = pe_RequestID record ->
  call_valid e' = Ok tt -> refuses "COMMIT" d = false -> ~ same_call (Proposing record) e' -> run_call e' d = (Fail ErrEditRequestReused, d).
Proof.
  intros (stored & p & Hl & K1 & K2 & K3 & _) Ea Er Hv Hcom Hno. destruct e' as [record'|c']; cbn in *.
  - unfold ProposeEdit, command, transaction, propose_body, unless_found. rewrite Hv, Ea, Er, Hl. unfold reading, replayed_proposal.
    rewrite K1, K2, K3. assert (bool_decide (pe_InputDigest record = pe_InputDigest record') && bool_decide (pe_ProjectID record = pe_ProjectID record')
      = false) as Hb.
    { apply not_true_is_false. intros ?. bool_prop. apply Hno. by split. }
    by rewrite <- andb_assoc, Hb.
  - rewrite run_commit_eq. unfold command, transaction, unless_replayed, unless_found, loadEditCommitReplay. rewrite Hv, Ea, Er, Hl. cbn.
    rewrite K1. destruct (sq_TransactionID stored); [|done]. by destruct c'.
Qed.

Lemma proposal_replays d record record' r : proposed d record r -> pe_Actor record' = pe_Actor record -> pe_RequestID record' = pe_RequestID record ->
  validateProposeEditRecord record' = Ok tt -> refuses "COMMIT" d = false -> same_call (Proposing record) (Proposing record') ->
  exists r', ProposeEdit record' d = (Ok r', d) /\ pr_Replayed r' = true /\ pr_ActivityCursor r' = pr_ActivityCursor r /\
    same_proposal (pr_Proposal r) (pr_Proposal r').
Proof.
  intros (stored & p & Hl & K1 & K2 & K3 & Hp & Hs & Hc) Ea Er Hv Hcom (_ & E2 & E3). cbn in E2, E3.
  unfold ProposeEdit, command, transaction, propose_body, unless_found. rewrite Hv, Ea, Er, Hl. unfold reading, replayed_proposal.
  rewrite K1, K2, K3, E2, E3, !bool_decide_eq_true_2 by done. cbn. rewrite Hp. cbn. rewrite Hc. cbn. rewrite Hcom. by eexists.
Qed.

(** C12: A request happens once.  After a call that proposes, applies, undoes or
    commits an edit has succeeded, and however many other calls follow it, the
    same request is answered with the same proposal, the same transaction (none
    for a proposal) and the same place in the activity log, marked as replayed
    and without any effect on the database, whatever fresh identities the retry
    brings; and the request identity refuses every other proposal, command,
    input or project. *)
Theorem commits_happen_once (e e' : edit_call) d a d1 d2 :
  sha256_sums -> call_typed e -> applied_parse d -> run_call e d = (Ok a, d1) -> rtc step d1 d2 ->
  call_actor e' = call_actor e -> call_request e' = call_request e -> call_valid e' = Ok tt -> refuses "COMMIT" d2 = false ->
  (same_call e e' -> exists a', run_call e' d2 = (Ok a', d2) /\ an_Replayed a' = true /\ an_Transaction a' = an_Transaction a /\
     an_ActivityCursor a' = an_ActivityCursor a /\ same_proposal (an_Proposal a) (an_Proposal a')) /\
  (~ same_call e e' -> run_call e' d2 = (Fail ErrEditRequestReused, d2)).
Proof.
  intros Hsum Ht Ha Hr Hs Ea Er Hv Hcom. destruct (run_call_answered _ _ _ _ Hsum Ht Ha Hr) as [Ha1 Hans].
  apply (call_answered_extends d1 d2) in Hans; [|by apply steps_extend|by eapply steps_applied].
  destruct e as [record|c]; destruct Hans as (r & -> & Hans).
  - split; [|by apply (proposal_claimed d2 record e' r)]. destruct e' as [record'|c']; [|by intros [Hn _]; destruct c'].
    intros Hsame. destruct (proposal_replays _ _ _ _ Hans Ea Er Hv Hcom Hsame) as (r' & Hr' & K). exists (proposal_answer r'). cbn. rewrite Hr'. 
    by destruct K as (? & ? & ?).
  - split; [|by apply (commit_claimed d2 c e' r)]. destruct e' as [record'|c']; [by intros [Hn _]; destruct c|]. intros Hsame.
    destruct (answered_replays d2 c c' r Hans Ea Er Hv Hcom) as [Hrep _]. destruct (Hrep Hsame) as (r' & Hr' & K1 & K2 & K3 & K4).
    exists (commit_answer r'). cbn. rewrite Hr'. by rewrite K2.
Qed.
End once.

(** A retry of the commit with other fresh identities *)
Definition sample_retry : CommitCreatorEditRecord :=
  let c := sample_commit "request-1" in
  mkCommitRecord (cc_ProjectID c) (cc_SequenceID c) (cc_Actor c) (cc_RequestID c) (cc_InputDigest c) (cc_InputValid c) (sample_id "80")
    (sample_id "81") (sample_id "82") (sample_id "83") (cc_Allocation c) (cc_Input c) false.

Lemma sample_sums : @sha256_sums sample_platform.
Proof. intros b. split; [reflexivity|]. apply Forall_replicate. lia. Qed.

Lemma sample_parse tail : isUUIDv7 (sample_id tail) = true -> id_typed (sample_id tail).
Proof. intros Hu. right. unfold ParseID. by rewrite Hu. Qed.

Lemma sample_commit_typed : cmd_typed (CommitCommand (sample_commit "request-1")).
Proof.
  split; [|split; [|split]].
  - repeat constructor; right; vm_compute; reflexivity.
  - right. vm_compute. reflexivity.
  - vm_compute. discriminate.
  - reflexivity.
Qed.

Lemma sample_undo_typed : cmd_typed (UndoCreatorCommand sample_undo).
Proof.
  split; [|split; [|done]].
  - repeat constructor; right; vm_compute; reflexivity.
  - right. vm_compute. reflexivity.
Qed.

Lemma sample_commits : exists r, @run_commit sample_platform sample_engine sample_codec (CommitCommand (sample_commit "request-1")) sample_database =
  (Ok r, after_commit).
Proof.
  assert (is_ok (@run_commit sample_platform sample_engine sample_codec (CommitCommand (sample_commit "request-1")) sample_database).1 = true)
    as Hok by (vm_compute; reflexivity).
  unfold after_commit. cbn [run_commit] in *. destruct (CommitCreatorEdit _ _) as [[r| |] d]; [by exists r|discriminate..].
Qed.

(** Commit, undo, and retry the commit: the retry is answered, not run. *)
Lemma commits_happen_once_witness : exists a a',
  @run_call sample_platform sample_engine sample_codec (Committing (CommitCommand (sample_commit "request-1"))) sample_database = (Ok a, after_commit) /\
  @run_call sample_platform sample_engine sample_codec (Committing (CommitCommand sample_retry)) after_undo = (Ok a', after_undo) /\
  an_Transaction a' = an_Transaction a.
Proof.
  destruct sample_commits as [r Hr].
  assert (@run_call sample_platform sample_engine sample_codec (Committing (CommitCommand (sample_commit "request-1"))) sample_database =
    (Ok (commit_answer r), after_commit)) as Hc by (unfold run_call; rewrite Hr; reflexivity).
  destruct (@commits_happen_once sample_platform sample_engine sample_codec (Committing (CommitCommand (sample_commit "request-1")))
    (Committing (CommitCommand sample_retry)) sample_database (commit_answer r) after_commit after_undo sample_sums sample_commit_typed) as [Hs _].
  - intros id row t Hrow. discriminate Hrow.
  - exact Hc.
  - apply rtc_once. exact (step_commit (UndoCreatorCommand sample_undo) after_commit sample_undo_typed).
  - reflexivity.
  - reflexivity.
  - vm_compute. reflexivity.
  - reflexivity.
  - destruct Hs as (a' & Ha & _ & Ht & _).
    + repeat split; vm_compute; reflexivity.
    + exists (commit_answer r), a'. split; [exact Hc|]. split; [exact Ha|exact Ht].
Defined.
