(* ===== verification/RepositoryHistory.v ===== *)
(** What a commit does to the project: every command that changes anything
    prepares one transaction and applies it; the rest of its work is on the
    journal.  Applying a proposal that was applied already changes no entity. *)
From stdpp Require Import base list strings gmap sorting.
From Stdlib Require Import ZArith Lia.
From S2P Require Import Prelude GoText Exact Identity Canonical EditModel Timeline EditState EditClips EditNarrative EditDerive EditValidate EditNormalize.
From S2P Require Import EditJournal Database Projection EditLoad EditLoadState EditRepository RepositorySample RepositoryEffects RepositoryJournal RepositoryReplay RepositoryOnce.
Open Scope Z_scope.

(** The project as the transactions make it: entities, revisions and transactions *)
Definition project_of (d : database) := (entities_of d, db_projects d, db_edit_transactions d).

Definition cmd_transaction (c : commit_command) : string :=
  match c with
  | ApplyCommand r => ar_TransactionID r | UndoCommand r | UndoCreatorCommand r => ur_TransactionID r | CommitCommand r => cc_TransactionID r
  end.

Section effects.
Context `{Platform} `{SQLite} `{EditCodec}.

(** The work of a commit on the project *)
Inductive committed_by (c : commit_command) (d : database) (r : EditCommitResult) (d' : database) : Prop :=
| commit_converged : project_of d' = project_of d -> committed_by c d r d'
| commit_applied p undoes d0 d1 u : project_of d0 = project_of d ->
    prepareEditTransaction d0 p (cmd_transaction c) undoes = Ok (cr_Transaction r) ->
    persistAndApplyEditTransaction (cr_Transaction r) d0 = Ok (u, d1) -> project_of d' = project_of d1 -> committed_by c d r d'.

Ltac framed := keeps_tac; try match goal with E : Ok _ = Ok _ |- _ => injection E as <- end; try reflexivity.

Lemma mark_frame proposalID t : keeps (same_on project_of) (markEditProposalApplied proposalID t).
Proof. unfold markEditProposalApplied. framed. Qed.
Lemma mark_undo_frame proposalID t : keeps (same_on project_of) (mark_undo_applied proposalID t).
Proof. unfold mark_undo_applied. framed. Qed.
Lemma run_transaction_frame runID t : keeps (same_on project_of) (insert_run_transaction runID t).
Proof. unfold insert_run_transaction. framed. Qed.
Lemma insert_proposal_frame proposal canonical : keeps (same_on project_of) (insertEditProposalRow proposal canonical).
Proof. unfold insertEditProposalRow. framed. Qed.

Lemma record_commit_frame actor requestID name digest projectID applicationID eventID mark proposal t :
  keeps (same_on project_of) mark -> keeps (same_on project_of) (record_commit actor requestID name digest projectID applicationID eventID mark proposal t).
Proof.
  intros Hm. unfold record_commit, insertProposalApplication, appendEditCommittedActivity, insertEditRequest, appendActivity. framed. exact Hm.
Qed.
Lemma converge_frame record p appliedID : keeps (same_on project_of) (convergeAppliedProposal record p appliedID).
Proof. unfold convergeAppliedProposal, insertProposalApplication, insertEditRequest, appendActivity. framed. Qed.

Lemma record_commit_transaction actor requestID name digest projectID applicationID eventID mark proposal t d r d' :
  record_commit actor requestID name digest projectID applicationID eventID mark proposal t d = Ok (r, d') -> cr_Transaction r = t.
Proof. unfold record_commit. intros Hr. by txrun. Qed.

Lemma undo_target_commits c record name mark d r d' : cmd_transaction c = ur_TransactionID record ->
  (forall p t, keeps (same_on project_of) (mark p t)) -> undo_target record name mark d = Ok (r, d') -> committed_by c d r d'.
Proof.
  intros Hc Hm Hr. unfold undo_target in Hr. txrun. pose proof (record_commit_transaction _ _ _ _ _ _ _ _ _ _ _ _ _ Hr) as Ht.
  apply record_commit_frame in Hr; [|apply Hm]. match goal with E : insertEditProposalRow _ _ _ = Ok _ |- _ => apply insert_proposal_frame in E end.
  rewrite <- Hc in *. subst. by eapply commit_applied.
Qed.

Lemma cmd_effect_commits c d r d' : cmd_effect c d = Ok (r, d') -> committed_by c d r d'.
Proof.
  destruct c as [record|record|record|record]; cbn; intros Hr.
  - unfold apply_effect in Hr. txrun. destruct (sp_Status _); [|destruct (sp_AppliedTransactionID _)|..]; txrun.
    + pose proof (record_commit_transaction _ _ _ _ _ _ _ _ _ _ _ _ _ Hr) as Ht.
      apply record_commit_frame in Hr; [|keeps_tac; [apply mark_frame|apply run_transaction_frame]].
      match goal with E : prepare_or_mark_stale _ _ _ = Ok _ |- _ => rename E into Hprep; unfold prepare_or_mark_stale in Hprep end.
      destruct (prepareEditTransaction _ _ _ _) as [t| |] eqn:E; [injection Hprep as <- <-|txrun|discriminate].
      subst. by eapply commit_applied.
    + apply converge_frame in Hr. by apply commit_converged.
  - unfold undo_effect in Hr. txrun. eapply undo_target_commits; [|..|exact Hr]; [done|].
    intros. cbn beta. keeps_tac; [apply mark_undo_frame|apply run_transaction_frame].
  - unfold commit_effect in Hr. txrun. pose proof (record_commit_transaction _ _ _ _ _ _ _ _ _ _ _ _ _ Hr) as Ht.
    apply record_commit_frame in Hr; [|apply mark_frame]. match goal with E : insertEditProposalRow _ _ _ = Ok _ |- _ => apply insert_proposal_frame in E end.
    subst. by eapply commit_applied.
  - unfold undo_creator_effect in Hr. txrun. eapply undo_target_commits; [|..|exact Hr]; [done|]. apply mark_frame.
Qed.

(** A command that succeeds replays a recorded answer or commits. *)
Lemma run_commit_commits c d r d' : run_commit c d = (Ok r, d') ->
  (cr_Replayed r = true /\ d' = d) \/ committed_by c d r d'.
Proof.
  intros Hr. rewrite run_commit_eq in Hr. apply command_run in Hr as (_ & Hr & _). unfold unless_replayed in Hr.
  apply unless_found_run in Hr as [(r0 & _ & [= <-] & ->)|[_ Hr]]; [left; done|right; by apply cmd_effect_commits].
Qed.

(** ... and one that does not leaves the database as it was. *)
Lemma run_commit_fails c d : is_ok (run_commit c d).1 = false -> (run_commit c d).2 = d.
Proof. rewrite run_commit_eq. apply command_rollback. Qed.

Lemma propose_frame record d : project_of (ProposeEdit record d).2 = project_of d.
Proof.
  apply (command_keeps (same_on project_of)). unfold propose_body, insertEditRequest, appendActivity. framed. apply insert_proposal_frame.
Qed.

(** An invariant of the project that transactions keep is kept by every call. *)
Lemma project_invariant (I : database -> Prop) : (forall d d', project_of d' = project_of d -> I d -> I d') ->
  (forall p id undoes t d u d', prepareEditTransaction d p id undoes = Ok t -> persistAndApplyEditTransaction t d = Ok (u, d') -> I d -> I d') ->
  forall d d', rtc step d d' -> I d -> I d'.
Proof.
  intros Hsame Hp d d'. induction 1 as [|d1 d2 d3 Hs _ IH]; [done|]. intros Hi. apply IH. destruct Hs as [record d|c d _].
  - eapply Hsame; [apply propose_frame|exact Hi].
  - destruct (is_ok (run_commit c d).1) eqn:Hok; [|by rewrite run_commit_fails].
    destruct (run_commit c d) as [[r| |] d'] eqn:E; [|discriminate..]. cbn.
    apply run_commit_commits in E as [[_ ->]|[Hf|p undoes d0 d1 u E0 E1 E2 E3]]; [done|by eapply Hsame|].
    eapply Hsame; [exact E3|]. eapply Hp; [exact E1|exact E2|]. by eapply Hsame.
Qed.
End effects.

(** * The history of a project is linear: its revisions are the transactions
    committed on it, one each and in order, whatever sequence of calls the
    repository serves. *)


(** A transaction of the project that came in between the two databases *)
Definition came (d d' : database) (project id : string) (t : EditTransaction) : Prop :=
  db_edit_transactions d !! id = None /\ db_edit_transactions d' !! id = Some t /\ tx_ProjectID t = project.

(** From revision [r] to revision [r'] there is one transaction for each step. *)
Record advances (d d' : database) (project : string) (r r' : Z) : Prop := mkAdvances {
  adv_order : r <= r';
  adv_range : forall id t, came d d' project id t -> tx_ID t = id /\ r < tx_CommittedProjectRevision t <= r';
  adv_each : forall n, r < n <= r' -> exists id t, came d d' project id t /\ tx_CommittedProjectRevision t = n;
  adv_once : forall id t id' t', came d d' project id t -> came d d' project id' t' ->
    tx_CommittedProjectRevision t = tx_CommittedProjectRevision t' -> id = id' }.

Definition revision_of (d : database) (project : string) : option Z := pr_revision <$> db_projects d !! project.

(** Every project advances by its transactions; a project that is not there has none. *)
Record linear (d d' : database) : Prop := mkLinear {
  lin_kept : db_edit_transactions d ⊆ db_edit_transactions d';
  lin_there : forall project r, revision_of d project = Some r -> exists r', revision_of d' project = Some r' /\ advances d d' project r r';
  lin_absent : forall project, revision_of d project = None -> revision_of d' project = None /\ forall id t, ~ came d d' project id t }.

Lemma came_split d1 d2 d3 project id t : db_edit_transactions d1 ⊆ db_edit_transactions d2 -> db_edit_transactions d2 ⊆ db_edit_transactions d3 ->
  came d1 d3 project id t <-> came d1 d2 project id t \/ came d2 d3 project id t.
Proof.
  intros H12 H23. split.
  - intros (Hn & Hs & Hp). destruct (db_edit_transactions d2 !! id) as [t2|] eqn:E; [left|right; done].
    pose proof (lookup_weaken _ _ _ _ E H23). split; [done|]. split; [congruence|done].
  - intros [(Hn & Hs & Hp)|(Hn & Hs & Hp)]; (split; [|split]); try done; [by eapply lookup_weaken|by eapply lookup_weaken_None].
Qed.

Lemma advances_trans d1 d2 d3 project r1 r2 r3 : db_edit_transactions d1 ⊆ db_edit_transactions d2 ->
  db_edit_transactions d2 ⊆ db_edit_transactions d3 -> advances d1 d2 project r1 r2 -> advances d2 d3 project r2 r3 ->
  advances d1 d3 project r1 r3.
Proof.
  intros H12 H23 [O1 R1 E1 U1] [O2 R2 E2 U2]. split.
  - lia.
  - intros id t [Hc|Hc]%(came_split _ _ _ _ _ _ H12 H23); [apply R1 in Hc|apply R2 in Hc]; (split; [tauto|lia]).
  - intros n Hn. destruct (decide (n <= r2)) as [Hle|Hgt].
    + destruct (E1 n) as (id & t & Hc & Ht); [lia|]. exists id, t. split; [|done]. apply (came_split _ _ _ _ _ _ H12 H23). by left.
    + destruct (E2 n) as (id & t & Hc & Ht); [lia|]. exists id, t. split; [|done]. apply (came_split _ _ _ _ _ _ H12 H23). by right.
  - intros id t id' t' [Hc|Hc]%(came_split _ _ _ _ _ _ H12 H23) [Hc'|Hc']%(came_split _ _ _ _ _ _ H12 H23) Ht.
    + by eapply U1.
    + apply R1 in Hc. apply R2 in Hc'. lia.
    + apply R2 in Hc. apply R1 in Hc'. lia.
    + by eapply U2.
Qed.

#[export] Instance linear_preorder : PreOrder linear.
Proof.
  split.
  - intros d. split; [done| |].
    + intros project r Hr. exists r. split; [done|]. split; [lia|intros id t (Hn & Hs & _); congruence|lia|intros id t id' t' (Hn & Hs & _); congruence].
    + intros project Hr. split; [done|]. intros id t (Hn & Hs & _). congruence.
  - intros d1 d2 d3 [K12 T12 A12] [K23 T23 A23]. split; [by etransitivity| |].
    + intros project r1 Hr. destruct (T12 _ _ Hr) as (r2 & Hr2 & Ha). destruct (T23 _ _ Hr2) as (r3 & Hr3 & Ha'). exists r3.
      split; [done|]. by eapply advances_trans.
    + intros project Hr. destruct (A12 _ Hr) as [Hr2 Hn]. destruct (A23 _ Hr2) as [Hr3 Hn']. split; [done|].
      intros id t [Hc|Hc]%(came_split _ _ _ _ _ _ K12 K23); [by eapply Hn|by eapply Hn'].
Qed.

Lemma linear_same d d' : db_projects d' = db_projects d -> db_edit_transactions d' = db_edit_transactions d -> linear d d'.
Proof.
  intros Hp Ht. assert (Hn : forall project id t, ~ came d d' project id t) by (intros project id t (Hn & Hs & _); congruence).
  split; [by rewrite Ht| |].
  - intros project r Hr. exists r. unfold revision_of in *. rewrite Hp. split; [done|].
    split; [lia|intros id t Hc; by apply Hn in Hc|lia|intros id t id' t' Hc; by apply Hn in Hc].
  - intros project Hr. unfold revision_of in *. rewrite Hp. split; [done|apply Hn].
Qed.

(** One transaction more takes its project one revision further. *)
Lemma linear_one d d' t row row' : db_edit_transactions d !! tx_ID t = None -> db_edit_transactions d' = <[tx_ID t := t]> (db_edit_transactions d) ->
  db_projects d !! tx_ProjectID t = Some row -> pr_revision row = tx_CommittedProjectRevision t - 1 ->
  pr_revision row' = tx_CommittedProjectRevision t -> db_projects d' = <[tx_ProjectID t := row']> (db_projects d) -> linear d d'.
Proof.
  intros Hn Ht Hrow Hrev Hrev' Hp.
  assert (Hc : forall project id t', came d d' project id t' <-> project = tx_ProjectID t /\ id = tx_ID t /\ t' = t).
  { intros project id t'. unfold came. rewrite Ht, lookup_insert_Some. split.
    - intros (Hx & [[-> ->]|[Hne Hs]] & Hpr); [done|congruence].
    - intros (-> & -> & ->). split; [done|]. split; [by left|done]. }
  split.
  - rewrite Ht. by apply insert_subseteq.
  - intros project r Hr. unfold revision_of in *. rewrite Hp. destruct (decide (project = tx_ProjectID t)) as [->|Hne].
    + rewrite lookup_insert_eq. rewrite Hrow in Hr. cbn in Hr |- *. injection Hr as <-. exists (pr_revision row'). split; [done|]. split.
      * lia.
      * intros id t' (_ & -> & ->)%Hc. split; [done|lia].
      * intros n Hr. exists (tx_ID t), t. split; [by apply Hc|lia].
      * intros id t1 id' t2 (_ & -> & _)%Hc (_ & -> & _)%Hc. done.
    + rewrite lookup_insert_ne by done. exists r. split; [done|].
      split; [lia|intros id t' (? & _)%Hc; done|lia|intros id t1 id' t2 (? & _)%Hc; done].
  - intros project Hr. unfold revision_of in *. rewrite Hp. destruct (decide (project = tx_ProjectID t)) as [->|Hne].
    + by rewrite Hrow in Hr.
    + rewrite lookup_insert_ne by done. split; [done|]. intros id t' (? & _)%Hc. done.
Qed.

Ltac lin :=
  keeps_tac; try match goal with E : Ok _ = Ok _ |- _ => injection E as <- end; try by apply linear_same.

Section history.
Context `{Platform} `{SQLite} `{EditCodec}.

Lemma persist_linear t : keeps linear (persistAndApplyEditTransaction t).
Proof.
  intros d u d' (Hn & Ht & _ & row & Hrow & Hrev & Hp)%persist_run. by eapply linear_one; [..|exact Hp].
Qed.

Lemma appendActivity_linear scopeID eventID kind actor revision outcomeID :
  keeps linear (appendActivity scopeID eventID kind actor revision outcomeID).
Proof. unfold appendActivity. lin. Qed.

Lemma record_commit_linear actor requestID name digest projectID applicationID eventID mark proposal t :
  keeps linear mark -> keeps linear (record_commit actor requestID name digest projectID applicationID eventID mark proposal t).
Proof.
  intros Hm. unfold record_commit, insertProposalApplication, appendEditCommittedActivity, insertEditRequest. lin; auto using appendActivity_linear.
Qed.

Lemma mark_linear proposalID t : keeps linear (markEditProposalApplied proposalID t).
Proof. unfold markEditProposalApplied. lin. Qed.
Lemma mark_undo_linear proposalID t : keeps linear (mark_undo_applied proposalID t).
Proof. unfold mark_undo_applied. lin. Qed.
Lemma insert_proposal_linear proposal canonical : keeps linear (insertEditProposalRow proposal canonical).
Proof. unfold insertEditProposalRow. lin. Qed.
Lemma run_transaction_linear runID t : keeps linear (insert_run_transaction runID t).
Proof. unfold insert_run_transaction. lin. Qed.
Lemma converge_linear record p appliedID : keeps linear (convergeAppliedProposal record p appliedID).
Proof. unfold convergeAppliedProposal, insertProposalApplication, insertEditRequest. lin. apply appendActivity_linear. Qed.
Lemma undo_target_linear record name mark : (forall p t, keeps linear (mark p t)) -> keeps linear (undo_target record name mark).
Proof. intros Hm. unfold undo_target. keeps_tac; auto using insert_proposal_linear, persist_linear, record_commit_linear. Qed.

Lemma cmd_effect_linear c : keeps linear (cmd_effect c).
Proof.
  destruct c; cbn.
  - unfold apply_effect. keeps_tac; auto using converge_linear, persist_linear; [by apply prepare_keeps; exact _|].
    apply record_commit_linear. keeps_tac; auto using mark_linear, run_transaction_linear.
  - unfold undo_effect. keeps_tac. apply undo_target_linear. intros. keeps_tac; auto using mark_undo_linear, run_transaction_linear.
  - unfold commit_effect. keeps_tac; auto using insert_proposal_linear, persist_linear, record_commit_linear, mark_linear.
  - unfold undo_creator_effect. keeps_tac. apply undo_target_linear, mark_linear.
Qed.

Lemma step_linear d d' : step d d' -> linear d d'.
Proof.
  destruct 1 as [record d|c d _].
  - unfold ProposeEdit. apply (command_keeps linear). unfold propose_body, insertEditRequest.
    lin; auto using insert_proposal_linear, appendActivity_linear.
  - rewrite run_commit_eq. apply (command_keeps linear). unfold unless_replayed. keeps_tac. apply cmd_effect_linear.
Qed.

Lemma steps_linear d d' : rtc step d d' -> linear d d'.
Proof. induction 1 as [|d1 d2 d3 Hs _ IH]; [reflexivity|]. etransitivity; [by apply step_linear|exact IH]. Qed.

(** C13: the history of a project is linear.  Whatever calls the repository
    serves (proposals, applications, undos and the creator's commits, in any
    order, with any outcome, failing statements included), a project at
    revision [r] goes to a revision [r'] not below it; the transactions committed on it in between carry
    exactly the revisions [r + 1 .. r'], each once; and no recorded transaction
    changes or disappears. *)
Theorem history_is_linear d d' project r : rtc step d d' -> revision_of d project = Some r ->
  exists r', revision_of d' project = Some r' /\ db_edit_transactions d ⊆ db_edit_transactions d' /\ advances d d' project r r'.
Proof.
  intros [Hk Ht _]%steps_linear Hr. destruct (Ht _ _ Hr) as (r' & Hr' & Ha). by exists r'.
Qed.
End history.

(** Commit and undo: two revisions, two transactions. *)
Lemma history_is_linear_witness :
  revision_of after_undo (sample_id "01") = Some 9 /\ advances sample_database after_undo (sample_id "01") 7 9.
Proof.
  destruct (@history_is_linear sample_platform sample_engine sample_codec sample_database after_undo (sample_id "01") 7) as (r' & Hr' & _ & Ha).
  - eapply rtc_l; [exact (step_commit (CommitCommand (sample_commit "request-1")) sample_database sample_commit_typed)|].
    apply rtc_once. exact (step_commit (UndoCreatorCommand sample_undo) after_commit sample_undo_typed).
  - vm_compute. reflexivity.
  - assert (Some r' = Some 9) as [= ->] by (rewrite <- Hr'; vm_compute; reflexivity). split; [exact Hr'|exact Ha].
Defined.
