(* ===== verification/NarrativeOrder.v ===== *)
(** The order of narrative siblings: the index columns of [narrative_nodes]
    implement, for every document and parent, a list of children; writing a node
    ([applyNarrativeNode]) takes it out of the list it is in and puts it behind
    the sibling it names. *)
From stdpp Require Import base list strings gmap sorting.
From Stdlib Require Import ZArith Lia.
From S2P Require Import Prelude GoText Exact Identity Canonical EditModel Timeline EditState EditClips EditNarrative EditDerive EditValidate.
From S2P Require Import EditNormalize EditJournal Database Projection EditLoad EditLoadState EditRepository RepositorySample.
From S2P Require Import RepositoryEffects RepositoryJournal RepositoryReplay RepositoryOnce RepositoryHistory.
Open Scope Z_scope.

(** ** Lists of children *)

(** The live children of a parent in a document, in order *)
Definition children : Type := string -> string -> list string.

Definition without (id : string) (l : list string) : list string := filter (fun x => x <> id) l.

(** Behind [after], or first; there is no place behind a stranger. *)
Fixpoint insert_after (after : option string) (id : string) (l : list string) : option (list string) :=
  match after with
  | None => Some (id :: l)
  | Some a =>
      match l with
      | [] => None
      | x :: rest => if decide (x = a) then Some (x :: id :: rest) else cons x <$> insert_after (Some a) id rest
      end
  end.

(** Write a node: withdraw it, and place it unless it is tombstoned. *)
Definition put_child (ch : children) (state : NarrativeNodeState) : option children :=
  let id := narrativeNodeID state in
  let out : children := fun document parent => without id (ch document parent) in
  match narrativeNodeParentPointer state with
  | Some parent =>
      if narrativeNodeTombstoned state then Some out
      else
        l ← insert_after (narrativeNodeAfter state) id (out (node_document state) parent);
        Some (fun d p => if decide (d = node_document state /\ p = parent) then l else out d p)
  | None => Some out
  end.

Definition put_children (ch : children) (operation : NormalizedEditOperation) : option children :=
  match operation with PutNarrativeNode state => put_child ch state | _ => Some ch end.

Fixpoint put_all_children (ch : children) (operations : list NormalizedEditOperation) : option children :=
  match operations with
  | [] => Some ch
  | operation :: rest => ch ← put_children ch operation; put_all_children ch rest
  end.

(** ** Rows that implement them *)

Definition rank (nodes : gmap string node_row) (document parent id : string) : option Z :=
  row ← nodes !! id; if live_sibling document parent row then Some (nr_order_index row) else None.

Definition encodes (nodes : gmap string node_row) (ch : children) : Prop :=
  forall document parent id z, rank nodes document parent id = Some z <-> exists n, z = Z.of_nat n /\ ch document parent !! n = Some id.

Lemma encodes_ext nodes nodes' ch : (forall d p id, rank nodes' d p id = rank nodes d p id) -> encodes nodes ch -> encodes nodes' ch.
Proof. intros E He d p id z. by rewrite E. Qed.

Lemma encodes_NoDup nodes ch document parent : encodes nodes ch -> NoDup (ch document parent).
Proof.
  intros He. apply NoDup_alt. intros i j x Hi Hj.
  assert (rank nodes document parent x = Some (Z.of_nat i)) as Hri by (apply He; by exists i).
  assert (rank nodes document parent x = Some (Z.of_nat j)) as Hrj by (apply He; by exists j).
  rewrite Hri in Hrj. injection Hrj. lia.
Qed.

Lemma encodes_absent nodes ch document parent id : encodes nodes ch -> rank nodes document parent id = None -> id ∉ ch document parent.
Proof. intros He Hr [n Hn]%list_elem_of_lookup. assert (rank nodes document parent id = Some (Z.of_nat n)) by (apply He; by exists n). congruence. Qed.

Lemma without_absent id l : id ∉ l -> without id l = l.
Proof.
  unfold without. induction l as [|x l IH]; [done|]. intros [Hx Hl]%not_elem_of_cons. rewrite filter_cons_True by done. by rewrite IH.
Qed.

Lemma without_delete id l n : NoDup l -> l !! n = Some id -> without id l = delete n l.
Proof.
  revert n. unfold without. induction l as [|x l IH]; [done|]. intros n [Hx Hd]%NoDup_cons Hn. destruct n as [|n]; cbn in Hn.
  - injection Hn as ->. rewrite filter_cons_False by auto. by apply without_absent.
  - rewrite filter_cons_True; [cbn; by rewrite (IH n)|]. intros ->. apply Hx. by eapply list_elem_of_lookup_2.
Qed.

(** Where [insert_after] puts its element *)
Lemma insert_after_take a id l k : NoDup l -> l !! k = Some a -> insert_after (Some a) id l = Some (take (S k) l ++ id :: drop (S k) l).
Proof.
  revert k. induction l as [|x l IH]; [done|]. intros k [Hx Hd]%NoDup_cons Hk. cbn [insert_after]. destruct k as [|k]; cbn in Hk.
  - injection Hk as ->. rewrite decide_True by done. reflexivity.
  - rewrite decide_False; [by rewrite (IH k)|]. intros ->. apply Hx. by eapply list_elem_of_lookup_2.
Qed.

Lemma lookup_placed (l : list string) k id n : (k <= length l)%nat ->
  (take k l ++ id :: drop k l) !! n = if decide (n < k)%nat then l !! n else if decide (n = k) then Some id else l !! pred n.
Proof.
  intros Hk. destruct (decide (n < k)%nat) as [Hlt|Hge].
  - rewrite lookup_app_l by (rewrite length_take; lia). by rewrite lookup_take_lt by lia.
  - rewrite lookup_app_r by (rewrite length_take; lia). rewrite length_take, Nat.min_l by lia.
    destruct (decide (n = k)) as [->|Hne]; [by rewrite Nat.sub_diag|].
    destruct (n - k)%nat as [|m] eqn:E; [lia|]. change ((id :: drop k l) !! S m) with (drop k l !! m). rewrite lookup_drop. f_equal. lia.
Qed.

(** ** The statements on ranks *)

Lemma live_sibling_inj d p d' p' row : live_sibling d p row = true -> live_sibling d' p' row = true -> d = d' /\ p = p'.
Proof. unfold live_sibling. intros. bool_prop. split; congruence. Qed.

Lemma rank_insert nodes document parent id row id' :
  rank (<[id := row]> nodes) document parent id' =
  if decide (id = id') then (if live_sibling document parent row then Some (nr_order_index row) else None) else rank nodes document parent id'.
Proof. unfold rank. destruct (decide (id = id')) as [->|Hne]; [by rewrite lookup_insert_eq|by rewrite lookup_insert_ne]. Qed.

(** An update of the index of the live siblings at one place *)
Lemma rank_moved nodes document parent where_ (g : Z -> Z) d p id :
  rank ((fun row => if live_sibling document parent row && where_ (nr_order_index row) then with_order (g (nr_order_index row)) row else row) <$> nodes) d p id =
  (if decide (d = document /\ p = parent) then (fun z => if where_ z : bool then g z else z) <$> rank nodes d p id else rank nodes d p id).
Proof.
  unfold rank. rewrite lookup_fmap. destruct (nodes !! id) as [row|] eqn:E; cbn; [|by destruct (decide _)].
  destruct (live_sibling document parent row) eqn:El; cbn.
  - destruct (decide (d = document /\ p = parent)) as [[-> ->]|Hne].
    + rewrite El. cbn. destruct (where_ _); [|by rewrite El]. replace (live_sibling _ _ (with_order _ _)) with (live_sibling document parent row) by done.
      by rewrite El.
    + assert (live_sibling d p row = false) as Hf.
      { destruct (live_sibling d p row) eqn:E2; [|done]. by destruct Hne; apply (live_sibling_inj _ _ _ _ _ E2 El). }
      destruct (where_ _); [replace (live_sibling _ _ (with_order _ _)) with (live_sibling d p row) by done|]; by rewrite Hf.
  - destruct (decide (d = document /\ p = parent)) as [[-> ->]|Hne]; [|done]. by rewrite El.
Qed.

(** Taking a live child out closes the gap. *)
Lemma encodes_removed nodes ch document parent id old row : encodes nodes ch -> nodes !! id = Some old -> live_sibling document parent old = true ->
  nr_tombstoned row = true ->
  encodes ((fun r => if live_sibling document parent r && (nr_order_index old <? nr_order_index r) then with_order (nr_order_index r - 1) r else r)
             <$> <[id := row]> nodes) (fun d p => without id (ch d p)).
Proof.
  intros He Hold Hlive Hdead d p id' z.
  assert (rank nodes document parent id = Some (nr_order_index old)) as Hr by (unfold rank; rewrite Hold; cbn; by rewrite Hlive).
  apply He in Hr as Hn. destruct Hn as (n & Hz & Hn). rewrite (rank_moved _ _ _ (fun i => nr_order_index old <? i) (fun i => i - 1)), rank_insert.
  assert (forall d p, live_sibling d p row = false) as Hd by (intros; unfold live_sibling; rewrite Hdead; by rewrite andb_false_r).
  rewrite Hd. destruct (decide (d = document /\ p = parent)) as [[-> ->]|Hne].
  - rewrite (without_delete _ _ n) by (done || by eapply encodes_NoDup). destruct (decide (id = id')) as [<-|Hid].
    + split; [done|]. intros (m & _ & Hm). assert (exists k, ch document parent !! k = Some id /\ k <> n) as (k & Hk & Hkn).
      { destruct (decide (m < n)%nat); [rewrite list_lookup_delete_lt in Hm by lia; exists m; split; [done|lia]|].
        rewrite list_lookup_delete_ge in Hm by lia. exists (S m). split; [done|lia]. }
      exfalso. apply Hkn. eapply NoDup_lookup; [by eapply encodes_NoDup|done..].
    + split.
      * intros (y & Hy & Hyz)%fmap_Some. apply He in Hy as (m & -> & Hm). rewrite Hz in Hyz.
        assert (m <> n) by congruence. destruct (Z.ltb_spec (Z.of_nat n) (Z.of_nat m)).
        -- exists (pred m). split; [lia|]. rewrite list_lookup_delete_ge by lia. by replace (S (pred m)) with m by lia.
        -- exists m. split; [done|]. by rewrite list_lookup_delete_lt by lia.
      * intros (m & -> & Hm). apply fmap_Some. destruct (decide (m < n)%nat).
        -- rewrite list_lookup_delete_lt in Hm by lia. exists (Z.of_nat m). split; [apply He; by exists m|]. rewrite Hz.
           destruct (Z.ltb_spec (Z.of_nat n) (Z.of_nat m)); lia.
        -- rewrite list_lookup_delete_ge in Hm by lia. exists (Z.of_nat (S m)). split; [apply He; by exists (S m)|]. rewrite Hz.
           destruct (Z.ltb_spec (Z.of_nat n) (Z.of_nat (S m))); lia.
  - assert (rank nodes d p id = None) as Hnone.
    { unfold rank. rewrite Hold. cbn. destruct (live_sibling d p old) eqn:E; [|done]. by destruct Hne; apply (live_sibling_inj _ _ _ _ _ E Hlive). }
    rewrite without_absent by (by eapply encodes_absent). destruct (decide (id = id')) as [<-|Hid]; [rewrite <- Hnone|]; apply He.
Qed.

(** Placing a child that is nowhere opens a gap for it. *)
Lemma encodes_placed nodes ch document parent id row k : encodes nodes ch -> (forall d p, rank nodes d p id = None) ->
  (k <= length (ch document parent))%nat -> live_sibling document parent row = true -> nr_order_index row = Z.of_nat k ->
  encodes (<[id := row]> ((fun r => if live_sibling document parent r && (Z.of_nat k <=? nr_order_index r) then with_order (nr_order_index r + 1) r else r)
             <$> nodes))
    (fun d p => if decide (d = document /\ p = parent) then take k (ch document parent) ++ id :: drop k (ch document parent) else ch d p).
Proof.
  intros He Hnone Hk Hlive Hrow d p id' z. rewrite rank_insert, (rank_moved _ _ _ (fun i => Z.of_nat k <=? i) (fun i => i + 1)).
  destruct (decide (d = document /\ p = parent)) as [[-> ->]|Hne].
  - rewrite Hlive, Hrow. setoid_rewrite lookup_placed; [|done]. destruct (decide (id = id')) as [<-|Hid].
    + split; [intros [= <-]; exists k; split; [done|]; by rewrite decide_False, decide_True by lia|].
      intros (n & -> & Hn). assert (Hnot := encodes_absent _ _ _ _ _ He (Hnone document parent)).
      destruct (decide (n < k)%nat); [by apply list_elem_of_lookup_2 in Hn|]. destruct (decide (n = k)) as [->|]; [done|].
      by apply list_elem_of_lookup_2 in Hn.
    + split.
      * intros (y & Hy & ->)%fmap_Some. apply He in Hy as (m & -> & Hm). destruct (Z.leb_spec (Z.of_nat k) (Z.of_nat m)).
        -- exists (S m). split; [lia|]. rewrite decide_False, decide_False by lia. done.
        -- exists m. split; [done|]. by rewrite decide_True by lia.
      * intros (n & -> & Hn). apply fmap_Some. destruct (decide (n < k)%nat).
        -- exists (Z.of_nat n). split; [apply He; by exists n|]. destruct (Z.leb_spec (Z.of_nat k) (Z.of_nat n)); lia.
        -- destruct (decide (n = k)) as [->|]; [congruence|]. exists (Z.of_nat (pred n)). split; [apply He; by exists (pred n)|].
           destruct (Z.leb_spec (Z.of_nat k) (Z.of_nat (pred n))); lia.
  - assert (live_sibling d p row = false) as Hf.
    { destruct (live_sibling d p row) eqn:E2; [|done]. by destruct Hne; apply (live_sibling_inj _ _ _ _ _ E2 Hlive). }
    rewrite Hf. destruct (decide (id = id')) as [<-|Hid]; [rewrite <- (Hnone d p)|]; apply He.
Qed.

(** ** Reading the lists off the rows *)

Lemma fmap_sublist {A B} (f : A -> B) l l' : l `sublist_of` l' -> f <$> l `sublist_of` f <$> l'.
Proof. induction 1; cbn; by constructor. Qed.

Definition order_le (e e' : string * node_row) : Prop := nr_order_index e.2 <= nr_order_index e'.2.
#[export] Instance order_le_dec : RelDecision order_le.
Proof. intros e e'. unfold order_le. apply _. Defined.

Definition children_of (nodes : gmap string node_row) : children := fun document parent =>
  (merge_sort order_le (filter (fun e : string * node_row => live_sibling document parent e.2 = true) (map_to_list nodes))).*1.

(** Every live node is where its index says. *)
Definition ordered (nodes : gmap string node_row) : bool :=
  forallb (fun e : string * node_row =>
    nr_tombstoned e.2 || match nr_parent_id e.2 with
      | Some parent => (0 <=? nr_order_index e.2) &&
          bool_decide (children_of nodes (nr_document_id e.2) parent !! Z.to_nat (nr_order_index e.2) = Some e.1)
      | None => true
      end) (map_to_list nodes).

Lemma ordered_encodes nodes : ordered nodes = true -> encodes nodes (children_of nodes).
Proof.
  unfold ordered. intros Ho d p id z. rewrite forallb_forall in Ho.
  assert (forall id row, nodes !! id = Some row -> live_sibling d p row = true ->
    0 <= nr_order_index row /\ children_of nodes d p !! Z.to_nat (nr_order_index row) = Some id) as Hat.
  { intros i row Hi Hl. specialize (Ho (i, row)). unfold live_sibling in Hl. bool_prop. subst. cbn in Ho.
    destruct (nr_tombstoned row), (nr_parent_id row); try discriminate. simplify_eq. cbn in Ho.
    assert (((i, row) : string * node_row) ∈ map_to_list nodes) as Hin by (by apply elem_of_map_to_list).
    apply list_elem_of_In in Hin. apply Ho in Hin. bool_prop. done. }
  split.
  - unfold rank. intros (row & Hrow & Hz)%bind_Some. destruct (live_sibling d p row) eqn:E; [|discriminate]. injection Hz as <-.
    destruct (Hat _ _ Hrow E) as [Hn Hl]. exists (Z.to_nat (nr_order_index row)). split; [lia|done].
  - intros (n & -> & Hn). assert (exists row, nodes !! id = Some row /\ live_sibling d p row = true) as (row & Hrow & Hl).
    { apply list_elem_of_lookup_2 in Hn. unfold children_of in Hn. apply list_elem_of_fmap in Hn as ([i row] & -> & Hn).
      rewrite merge_sort_Permutation in Hn. apply list_elem_of_filter in Hn as [Hl Hin]. apply elem_of_map_to_list in Hin. by exists row. }
    destruct (Hat _ _ Hrow Hl) as [H0 Hl']. unfold rank. rewrite Hrow. cbn. rewrite Hl. f_equal.
    assert (NoDup (children_of nodes d p)) as Hnd.
    { unfold children_of. rewrite merge_sort_Permutation. apply (sublist_NoDup _ ((map_to_list nodes).*1)); [apply NoDup_fst_map_to_list|].
      apply fmap_sublist, sublist_filter. }
    pose proof (NoDup_lookup _ _ _ _ Hnd Hn Hl'). lia.
Qed.

(** ** Writing a node *)

Section writing.
Context `{Platform} `{SQLite} `{EditCodec} (projectID transactionID : string).

Lemma payload_insert_frame state : keeps (same_on db_narrative_nodes) (insertNarrativePayload state).
Proof. unfold insertNarrativePayload, insertSourceExcerptPayload. keeps_tac; reflexivity. Qed.
Lemma payload_update_frame state : keeps (same_on db_narrative_nodes) (updateNarrativePayload state).
Proof. unfold updateNarrativePayload. keeps_tac; reflexivity. Qed.

(** The index behind a sibling is a place in the list. *)
Lemma insert_index_run document parent after id ch d z d' : encodes (db_narrative_nodes d) ch ->
  narrativeInsertIndex projectID document parent after d = Ok (z, d') ->
  d' = d /\ exists k, z = Z.of_nat k /\ (k <= length (ch document parent))%nat /\
    insert_after after id (ch document parent) = Some (take k (ch document parent) ++ id :: drop k (ch document parent)).
Proof.
  intros He Hr. unfold narrativeInsertIndex in Hr. destruct after as [a|]; txrun.
  - destruct (db_narrative_nodes d !! a) as [row|] eqn:Ha; [|discriminate]. destruct (_ && _) eqn:E; [|discriminate]. txrun. bool_prop. split; [done|].
    destruct (proj1 (He document parent a (nr_order_index row))) as (n & Hz & Hn).
    { unfold rank. rewrite Ha. cbn. by match goal with E : live_sibling _ _ _ = true |- _ => rewrite E end. }
    exists (S n). split; [lia|]. split; [by apply lookup_lt_Some in Hn|]. apply insert_after_take; [by eapply encodes_NoDup|done].
  - split; [done|]. exists 0%nat. split; [done|]. split; [lia|]. cbn. by destruct (ch document parent).
Qed.

(** Placing a node that is nowhere: the index, the shift and the row *)
Lemma place_run ch state parent d z d1 d2 row : encodes (db_narrative_nodes d) ch ->
  (forall dd p, rank (db_narrative_nodes d) dd p (narrativeNodeID state) = None) ->
  narrativeInsertIndex projectID (node_document state) parent (narrativeNodeAfter state) d = Ok (z, d1) ->
  shiftNarrativeSiblings (node_document state) parent z 1 d1 = Ok (tt, d2) ->
  live_sibling (node_document state) parent row = true -> nr_order_index row = z ->
  exists l, insert_after (narrativeNodeAfter state) (narrativeNodeID state) (ch (node_document state) parent) = Some l /\
    encodes (<[narrativeNodeID state := row]> (db_narrative_nodes d2))
      (fun dd p => if decide (dd = node_document state /\ p = parent) then l else ch dd p).
Proof.
  intros He Hnone Hi Hs Hlive Hz. destruct (insert_index_run _ _ _ (narrativeNodeID state) _ _ _ _ He Hi) as (-> & k & -> & Hk & Hl).
  apply sql_update_all_run in Hs as ->. eexists. split; [exact Hl|]. cbn [db_narrative_nodes set_narrative_nodes].
  by apply encodes_placed.
Qed.

Lemma dead_rank nodes id row : nodes !! id = Some row -> nr_tombstoned row = true -> forall d p, rank nodes d p id = None.
Proof. intros Hr Hd d p. unfold rank. rewrite Hr. cbn. unfold live_sibling. by rewrite Hd, andb_false_r. Qed.

(** A row that is not live at its node's place changes nothing. *)
Lemma encodes_dead nodes ch id row : encodes nodes ch -> (forall d p, rank nodes d p id = None) -> (forall d p, live_sibling d p row = false) ->
  encodes (<[id := row]> nodes) ch.
Proof.
  intros He Hnone Hd. eapply encodes_ext; [|exact He]. intros d p id'. rewrite rank_insert, Hd. by destruct (decide (id = id')) as [<-|].
Qed.

Lemma tombstoned_dead row : nr_tombstoned row = true -> forall d p, live_sibling d p row = false.
Proof. intros Hd d p. unfold live_sibling. by rewrite Hd, andb_false_r. Qed.

Lemma encodes_out nodes ch id : encodes nodes ch -> (forall d p, rank nodes d p id = None) -> encodes nodes (fun d p => without id (ch d p)).
Proof. intros He Hnone d p id' z. rewrite without_absent; [apply He|]. by eapply encodes_absent. Qed.

(** Withdrawing: the first half of an update *)
Lemma withdraw_run ch document id old before d u d' : encodes (db_narrative_nodes d) ch -> db_narrative_nodes d !! id = Some old ->
  node_at_revision projectID before old = true -> nr_document_id old = document -> present (nr_parent_id old) = true ->
  (if nr_tombstoned old then mret tt
   else
     _ ← sql_update "narrative_nodes" db_narrative_nodes set_narrative_nodes id (node_at_revision projectID before)
       (fun row => mkNodeRow (nr_project_id row) (nr_document_id row) (nr_parent_id row) (nr_revision row) (nr_kind row)
          (nr_order_index row) true (nr_last_transaction_id row));
     oldParentID ← lifts (or_fail repo_invalid (ParseID (default "" (nr_parent_id old))));
     compactNarrativeSiblings document oldParentID (nr_order_index old)) d = Ok (u, d') ->
  encodes (db_narrative_nodes d') (fun dd p => without id (ch dd p)) /\
  exists row, db_narrative_nodes d' !! id = Some row /\ nr_document_id row = document /\ nr_tombstoned row = true.
Proof.
  intros He Hold Hat Hdoc Hpar Hr. destruct (nr_tombstoned old) eqn:Et; txrun.
  - split; [|by exists old]. apply encodes_out; [done|]. by eapply dead_rank.
  - apply sql_update_run in Hrun as [(_ & row & Hrow & _ & ->)|(_ & _ & Hn)]; [|by rewrite (Hn _ Hold) in Hat].
    rewrite Hold in Hrow. injection Hrow as <-. apply sql_update_all_run in Hr as ->.
    destruct (nr_parent_id old) as [parent|] eqn:Ep; [|discriminate]. cbn [default] in *.
    match goal with E : or_fail _ _ = Ok _ |- _ => apply or_fail_ok in E; apply ParseID_same in E as [-> _] end.
    cbn [db_narrative_nodes set_narrative_nodes]. split.
    + eapply encodes_removed; [done|exact Hold| |done]. unfold live_sibling. rewrite Ep, Et, !bool_decide_eq_true_2 by done. done.
    + rewrite lookup_fmap, lookup_insert_eq. cbn. unfold live_sibling. cbn. rewrite andb_false_r. cbn. by eexists.
Qed.

(** Finding the index and shifting keep the rows that are there, each in its document. *)
Lemma shifted_row document parent after z delta id d d1 d2 : narrativeInsertIndex projectID document parent after d = Ok (z, d1) ->
  shiftNarrativeSiblings document parent z delta d1 = Ok (tt, d2) ->
  db_narrative_nodes d2 !! id = (fun r => if live_sibling document parent r && (z <=? nr_order_index r) then with_order (nr_order_index r + delta) r else r)
    <$> db_narrative_nodes d !! id.
Proof.
  intros Hi Hs. apply sql_update_all_run in Hs as ->. cbn [db_narrative_nodes set_narrative_nodes]. rewrite lookup_fmap.
  unfold narrativeInsertIndex in Hi. destruct after; txrun; [|done]. repeat case_match; try discriminate. by txrun.
Qed.

(** Writing a node does to the lists what [put_child] does. *)
Lemma applyNarrativeNode_refines ch state change d u d' : encodes (db_narrative_nodes d) ch ->
  applyNarrativeNode projectID transactionID state change d = Ok (u, d') ->
  exists ch', put_child ch state = Some ch' /\ encodes (db_narrative_nodes d') ch'.
Proof.
  intros He Hr. unfold applyNarrativeNode in Hr. txrun.
  match goal with E : narrativeProjectionState _ = Ok _ |- _ => unfold narrativeProjectionState in E; outcome_inv; subst end.
  cbn [np_id np_documentID np_parentID np_afterNodeID np_tombstoned np_kind np_revision] in *. unfold put_child.
  destruct (ch_Before change) as [before|].
  - txrun. destruct (db_narrative_nodes d !! narrativeNodeID state) as [old|] eqn:Hold; [|discriminate]. txrun. bool_prop.
    destruct (narrativeNodeParentPointer state) as [parent|].
    + txrun.
      match goal with E : updateNarrativePayload _ _ = Ok _ |- _ => apply payload_update_frame in E; rewrite E end.
      apply requireOneEditRow_run in Hrun2 as [-> ->].
      eapply withdraw_run in Hrun as [He' (row & Hrow & Hdoc & Hdead)]; [|done..].
      pose proof (dead_rank _ _ _ Hrow Hdead) as Hnone.
      apply sql_update_run in Hrun1 as [(_ & row1 & Hrow1 & _ & ->)|[? _]]; [|done]. cbn [db_narrative_nodes set_narrative_nodes].
      destruct (narrativeNodeTombstoned state) eqn:Et; txrun.
      * eexists. split; [reflexivity|]. apply encodes_dead; [exact He'|exact Hnone|by apply tombstoned_dead].
      * rename Hrun into Hi, Hrun1 into Hsh.
        assert (nr_document_id row1 = node_document state) as Hdoc1.
        { rewrite (shifted_row _ _ _ _ _ _ _ _ _ Hi Hsh), Hrow in Hrow1. cbn in Hrow1. injection Hrow1 as <-. by case_match. }
        match goal with |- context [<[_ := ?r]> _] =>
          destruct (place_run _ state parent _ _ _ _ r He' Hnone Hi Hsh) as (l & Hl & Hen); [|reflexivity..|] end.
        { unfold live_sibling. cbn. by rewrite Hdoc1, !bool_decide_eq_true_2. }
        rewrite Hl. eexists. split; [reflexivity|exact Hen].
    + txrun. match goal with E : updateNarrativePayload _ _ = Ok _ |- _ => apply payload_update_frame in E; rewrite E end.
      apply requireOneEditRow_run in Hrun1 as [-> ->].
      apply sql_update_run in Hrun0 as [(_ & row1 & Hrow1 & _ & ->)|[? _]]; [|done]. cbn [db_narrative_nodes set_narrative_nodes].
      eexists. split; [reflexivity|]. rewrite Hold in Hrow1. injection Hrow1 as <-.
      destruct (nr_parent_id old) eqn:Ep; [done|].
      assert (forall dd p, rank (db_narrative_nodes d) dd p (narrativeNodeID state) = None) as Hnone.
      { intros dd p. unfold rank. rewrite Hold. cbn. unfold live_sibling. by rewrite Ep, (bool_decide_eq_false_2 (None = Some p)), andb_false_r. }
      apply encodes_dead; [by apply encodes_out|exact Hnone|]. intros dd p. unfold live_sibling. cbn.
      by rewrite (bool_decide_eq_false_2 (None = Some p)), andb_false_r.
  - destruct (narrativeNodeParentPointer state) as [parent|]; [|discriminate]. txrun.
    match goal with E : insertNarrativePayload _ _ = Ok _ |- _ => apply payload_insert_frame in E; rewrite E end.
    apply sql_insert_run in Hrun2 as [Hn ->].
    assert (forall dd p, rank (db_narrative_nodes d) dd p (narrativeNodeID state) = None) as Hnone.
    { intros dd p. unfold rank. rewrite (shifted_row _ _ _ _ _ _ _ _ _ Hrun0 Hrun1) in Hn. apply fmap_None in Hn. by rewrite Hn. }
    match goal with E : negb _ = true |- _ => apply negb_true_iff in E; rewrite E end. cbn [db_narrative_nodes set_narrative_nodes].
    pose proof (encodes_out _ _ _ He Hnone) as He'.
    match goal with |- context [<[_ := ?r]> _] =>
      destruct (place_run _ state parent _ _ _ _ r He' Hnone Hrun0 Hrun1) as (l & Hl & Hen); [|reflexivity..|] end.
    { unfold live_sibling. cbn. by rewrite !bool_decide_eq_true_2. }
    rewrite Hl. eexists. split; [reflexivity|exact Hen].
Qed.

Lemma operation_refines ch changes operation d u d' : encodes (db_narrative_nodes d) ch ->
  applyNormalizedOperation projectID transactionID changes operation d = Ok (u, d') ->
  exists ch', put_children ch operation = Some ch' /\ encodes (db_narrative_nodes d') ch'.
Proof.
  intros He Hr. destruct operation as [state|state|state|state|state|state]; [cbn in Hr; txrun; by eapply applyNarrativeNode_refines|..];
    (exists ch; split; [reflexivity|]);
    match type of Hr with ?m d = Ok _ => assert (keeps (same_on db_narrative_nodes) m) as Hk by
      (unfold applyNormalizedOperation, applyCaption, insertCaptionProvenance, applyAlignment, insertAlignmentTargets, applyClip, applyLinkGroup,
         applyTranscriptCorrection; keeps_tac; try match goal with E : Ok _ = Ok _ |- _ => injection E as <- end; reflexivity) end;
    by rewrite (Hk _ _ _ Hr).
Qed.

Lemma operations_refine changes operations : forall ch d u d', encodes (db_narrative_nodes d) ch ->
  all_of operations (applyNormalizedOperation projectID transactionID changes) d = Ok (u, d') ->
  exists ch', put_all_children ch operations = Some ch' /\ encodes (db_narrative_nodes d') ch'.
Proof.
  induction operations as [|operation rest IH]; intros ch d u d' He Hr; cbn in Hr.
  - txrun. by exists ch.
  - txrun. destruct (operation_refines _ _ _ _ _ _ He Hrun) as (ch1 & Hp & He1). destruct (IH _ _ _ _ He1 Hr) as (ch' & Hp' & He').
    exists ch'. cbn. by rewrite Hp.
Qed.

(** The ranks of the nodes are what they were. *)
Definition same_ranks : relation database := fun d d' => forall dd p id, rank (db_narrative_nodes d') dd p id = rank (db_narrative_nodes d) dd p id.
#[export] Instance same_ranks_preorder : PreOrder same_ranks.
Proof. split; [done|]. intros d1 d2 d3 H12 H23 dd p id. by rewrite H23, H12. Qed.

Lemma same_ranks_nodes d d' : db_narrative_nodes d' = db_narrative_nodes d -> same_ranks d d'.
Proof. intros E dd p id. by rewrite E. Qed.

Lemma aggregate_ranks change : keeps same_ranks (applyAggregateRevision projectID change).
Proof.
  unfold applyAggregateRevision, head_update. keeps_tac; try by apply same_ranks_nodes. intros dd p id. cbn. rewrite rank_insert.
  destruct (decide _) as [<-|]; [|done]. unfold rank. match goal with E : _ !! _ = Some _ |- _ => rewrite E end. done.
Qed.
End writing.

Section order.
Context `{Platform} `{SQLite} `{EditCodec}.

Lemma persist_refines ch t d u d' : encodes (db_narrative_nodes d) ch -> persistAndApplyEditTransaction t d = Ok (u, d') ->
  exists ch', put_all_children ch (tx_Operations t) = Some ch' /\ encodes (db_narrative_nodes d') ch'.
Proof.
  intros He Hr. unfold persistAndApplyEditTransaction in Hr. txrun. apply sql_insert_run in Hrun as [_ ->].
  eapply operations_refine in Hrun0 as (ch' & Hp & He'); [|exact He]. exists ch'. split; [done|].
  apply sql_update_run in Hrun2 as Hu. assert (same_ranks d1 d') as Hs.
  { transitivity d2; [eapply keeps_all_of; [exact _| |exact Hrun1]; intros; cbn beta; keeps_tac; apply aggregate_ranks|].
    apply requireOneEditRow_run in Hr as [_ ->]. destruct Hu as [(_ & row & _ & _ & ->)|(_ & -> & _)]; by apply same_ranks_nodes. }
  by eapply encodes_ext.
Qed.

Lemma project_nodes d d' : project_of d' = project_of d -> db_narrative_nodes d' = db_narrative_nodes d.
Proof. by intros [=]. Qed.
Lemma project_transactions d d' : project_of d' = project_of d -> db_edit_transactions d' = db_edit_transactions d.
Proof. by intros [=]. Qed.

(** C14: the rows of the narrative implement lists of children.  When the
    indices of the live nodes give every parent a list of children, a command
    that succeeds (an application, an undo or the creator's commit) leaves
    indices that again do: those of the lists in which each node the
    transaction writes, one after the other, was withdrawn and, unless
    tombstoned, put behind the sibling it names; or the lists are what they
    were, when the request was answered before or its proposal was applied before. *)
Theorem narrative_order_refined c d r d' ch : run_commit c d = (Ok r, d') -> encodes (db_narrative_nodes d) ch ->
  (db_edit_transactions d' = db_edit_transactions d /\ db_narrative_nodes d' = db_narrative_nodes d) \/
  (db_edit_transactions d' = <[tx_ID (cr_Transaction r) := cr_Transaction r]> (db_edit_transactions d) /\
   exists ch', put_all_children ch (tx_Operations (cr_Transaction r)) = Some ch' /\ encodes (db_narrative_nodes d') ch').
Proof.
  intros [[_ ->]|[Hf|p undoes d0 d1 u E0 _ E2 E3]]%run_commit_commits He; [by left|left; split; [by apply project_transactions|by apply project_nodes]|right].
  rewrite (project_nodes _ _ E3). rewrite <- (project_nodes _ _ E0) in He. split; [|by eapply persist_refines].
  apply persist_run in E2 as (_ & Ht & _). by rewrite (project_transactions _ _ E3), Ht, (project_transactions _ _ E0).
Qed.

(** siblings stay in order.  If the live children of every parent have the
    indices [0 .. k-1], each once, they still do after any sequence of calls of
    the repository, failed ones included. *)
Theorem siblings_stay_ordered d d' : rtc step d d' -> (exists ch, encodes (db_narrative_nodes d) ch) ->
  exists ch, encodes (db_narrative_nodes d') ch.
Proof.
  apply (project_invariant (fun d => exists ch, encodes (db_narrative_nodes d) ch)).
  - intros d1 d2 E [ch He]. exists ch. by rewrite (project_nodes _ _ E).
  - intros p id undoes t d1 u d2 _ Hp [ch He]. destruct (persist_refines _ _ _ _ _ He Hp) as (ch' & _ & He'). by exists ch'.
Qed.
End order.

(** The creator removes both lines of the section, the last one first. *)
Definition after_removals : database :=
  (@CommitCreatorEdit sample_platform sample_engine sample_codec (sample_removals ["51"; "50"]) sample_database).2.

Lemma narrative_order_refined_witness : exists r ch',
  @run_commit sample_platform sample_engine sample_codec (CommitCommand (sample_removals ["51"; "50"])) sample_database = (Ok r, after_removals) /\
  put_all_children (children_of (db_narrative_nodes sample_database)) (tx_Operations (cr_Transaction r)) = Some ch' /\
  encodes (db_narrative_nodes after_removals) ch'.
Proof.
  assert (exists r, @run_commit sample_platform sample_engine sample_codec (CommitCommand (sample_removals ["51"; "50"])) sample_database =
    (Ok r, after_removals)) as [r Hr].
  { assert (is_ok (@run_commit sample_platform sample_engine sample_codec (CommitCommand (sample_removals ["51"; "50"])) sample_database).1 = true)
      as Hok by (vm_compute; reflexivity).
    unfold after_removals. cbn [run_commit] in *. destruct (CommitCreatorEdit _ _) as [[r| |] d]; [by exists r|discriminate..]. }
  destruct (@narrative_order_refined sample_platform sample_engine sample_codec (CommitCommand (sample_removals ["51"; "50"])) sample_database r
    after_removals (children_of (db_narrative_nodes sample_database)) Hr) as [[Ht _]|(_ & ch' & Hp & He)].
  - apply ordered_encodes. vm_compute. reflexivity.
  - exfalso. apply (f_equal size) in Ht. revert Ht. vm_compute. discriminate.
  - exists r, ch'. split; [exact Hr|]. split; [exact Hp|exact He].
Defined.

Lemma siblings_stay_ordered_witness : exists ch, encodes (db_narrative_nodes after_undo) ch.
Proof.
  apply (@siblings_stay_ordered sample_platform sample_engine sample_codec sample_database after_undo).
  - eapply rtc_l; [exact (step_commit (CommitCommand (sample_commit "request-1")) sample_database sample_commit_typed)|].
    apply rtc_once. exact (step_commit (UndoCreatorCommand sample_undo) after_commit sample_undo_typed).
  - exists (children_of (db_narrative_nodes sample_database)). apply ordered_encodes. vm_compute. reflexivity.
Defined.
