(* ===== verification/RepositoryFindings.v ===== *)
(** Three ways in which the repository does not do what it means to. *)
From stdpp Require Import base list strings gmap sorting.
From Stdlib Require Import ZArith Lia.
From S2P Require Import Prelude GoText Exact Identity Canonical EditModel Timeline EditState EditClips EditNarrative EditDerive EditValidate.
From S2P Require Import EditNormalize EditJournal Database Projection EditLoad EditLoadState EditRepository RepositorySample.
From S2P Require Import RepositoryEffects RepositoryJournal RepositoryReplay RepositoryOnce RepositoryHistory.
Open Scope Z_scope.

(** ** No proposal goes stale *)

Definition none_stale (d : database) : Prop := forall id row, db_edit_proposals d !! id = Some row -> po_status row <> StatusStale.
Definition keeps_fresh : relation database := fun d d' => none_stale d -> none_stale d'.
#[export] Instance keeps_fresh_preorder : PreOrder keeps_fresh.
Proof. split; [intros d Hf; exact Hf|]. intros d1 d2 d3 H12 H23 Hf. exact (H23 (H12 Hf)). Qed.

Section stale.
Context `{Platform} `{SQLite} `{EditCodec}.

Lemma fresh_same d d' : db_edit_proposals d' = db_edit_proposals d -> keeps_fresh d d'.
Proof. intros E Hf id row Hr. rewrite E in Hr. by eapply Hf. Qed.

Lemma fresh_insert d id row : po_status row <> StatusStale -> keeps_fresh d (set_edit_proposals (<[id := row]>) d).
Proof. intros Hs Hf id' row' Hr. cbn in Hr. apply lookup_insert_Some in Hr as [[_ <-]|[_ Hr]]; [done|by eapply Hf]. Qed.

Ltac fresh_tac := keeps_tac; try match goal with E : Ok _ = Ok _ |- _ => injection E as <- end; try (by apply fresh_same); try (by apply fresh_insert).

Lemma persist_fresh t : keeps keeps_fresh (persistAndApplyEditTransaction t).
Proof. intros d u d' (_ & _ & Hp & _)%persist_run. by apply fresh_same. Qed.
Lemma record_commit_fresh actor requestID name digest projectID applicationID eventID mark proposal t :
  keeps keeps_fresh mark -> keeps keeps_fresh (record_commit actor requestID name digest projectID applicationID eventID mark proposal t).
Proof.
  intros Hm. unfold record_commit, insertProposalApplication, appendEditCommittedActivity, insertEditRequest, appendActivity. fresh_tac. exact Hm.
Qed.
Lemma undo_target_fresh record name mark : (forall p t, keeps keeps_fresh (mark p t)) -> keeps keeps_fresh (undo_target record name mark).
Proof. intros Hm. unfold undo_target, insertEditProposalRow. fresh_tac; auto using persist_fresh, record_commit_fresh. Qed.

Lemma cmd_effect_fresh c : keeps keeps_fresh (cmd_effect c).
Proof.
  destruct c; cbn.
  - unfold apply_effect, convergeAppliedProposal, insertProposalApplication, insertEditRequest, appendActivity.
    fresh_tac; auto using persist_fresh; [by apply prepare_keeps; exact _|].
    apply record_commit_fresh. unfold markEditProposalApplied, insert_run_transaction. fresh_tac.
  - unfold undo_effect. fresh_tac. apply undo_target_fresh. intros. unfold mark_undo_applied, insert_run_transaction. fresh_tac.
  - unfold commit_effect, insertEditProposalRow. fresh_tac; auto using persist_fresh. apply record_commit_fresh. unfold markEditProposalApplied. fresh_tac.
  - unfold undo_creator_effect. fresh_tac. apply undo_target_fresh. intros. unfold markEditProposalApplied. fresh_tac.
Qed.

(** [ApplyEdit] marks a proposal whose revisions moved on as stale and then
    returns the conflict, which rolls the mark back: in no sequence of calls
    does a proposal become stale, so a stale one is never reported as such. *)
Theorem no_proposal_goes_stale d d' : rtc step d d' -> none_stale d -> none_stale d'.
Proof.
  induction 1 as [|d1 d2 d3 Hs _ IH]; [done|]. intros Hf. apply IH. destruct Hs as [record d|c d _].
  - revert Hf. apply (command_keeps keeps_fresh). unfold propose_body, insertEditRequest, insertEditProposalRow, appendActivity. fresh_tac.
  - revert Hf. rewrite run_commit_eq. apply (command_keeps keeps_fresh). unfold unless_replayed. keeps_tac. apply cmd_effect_fresh.
Qed.
End stale.

(** ** Neighbours removed together *)

Definition sample_run (record : CommitCreatorEditRecord) := @CommitCreatorEdit sample_platform sample_engine sample_codec record sample_database.

(** Two adjacent lines are removed in one edit, the first one first.  The edit
    commits; nothing happens after it; and yet it cannot be undone: the inverse
    restores the second line behind the first, which is not back yet. *)
Theorem removed_neighbours_undo_conflicts :
  is_ok (sample_run (sample_removals ["50"; "51"])).1 = true /\
  (@UndoCreatorEdit sample_platform sample_engine sample_codec sample_undo (sample_run (sample_removals ["50"; "51"])).2).1 = Fail repo_conflict /\
  is_ok (sample_run (sample_removals ["51"; "50"])).1 = true /\
  is_ok (@UndoCreatorEdit sample_platform sample_engine sample_codec sample_undo (sample_run (sample_removals ["51"; "50"])).2).1 = true.
Proof. repeat split; vm_compute; reflexivity. Qed.

Definition sample_retext (tail text : string) : EditOperationInput :=
  mkOperation EditUpdateAuthoredText None (Some (sample_id tail)) None None None (Some text) None (Some AuthoredTextSpoken) None None None None
    (Some "en") None None [] None None None None None None None None None None None [] None None None [] None None [] []
    None None [] None None None [] [] None.

(** [operations] on the sample's two lines *)
Definition sample_lines (operations : list EditOperationInput) : CommitCreatorEditRecord :=
  mkCommitRecord (sample_id "01") (sample_id "03") sample_creator "lines" sample_digest true (sample_id "60") (sample_id "61") (sample_id "62")
    (sample_id "63") []
    (mkProposeInput "lines" "Edit two lines" 7
      [ mkPrecondition EntityNarrativeNode (sample_id "04") 1; mkPrecondition EntityNarrativeNode (sample_id "50") 1;
        mkPrecondition EntityNarrativeNode (sample_id "51") 1 ] operations) false.

(** Removing a line and rewording the next one: the normalizer accepts the edit,
    but it conflicts with itself when it is written, because the reworded line
    still names the removed one as its neighbour.  In the other order it works. *)
Theorem removed_neighbour_update_conflicts :
  (exists state, @loadEditNormalizationState sample_platform sample_database (commit_proposal (sample_lines [sample_remove "50"; sample_retext "51" "Third"])) = Ok state /\
     is_ok (@NormalizeEditProposal sample_platform (record_input (commit_proposal (sample_lines [sample_remove "50"; sample_retext "51" "Third"])) state)) = true) /\
  (sample_run (sample_lines [sample_remove "50"; sample_retext "51" "Third"])).1 = Fail repo_conflict /\
  is_ok (sample_run (sample_lines [sample_retext "51" "Third"; sample_remove "50"])).1 = true.
Proof.
  split; [|split; vm_compute; reflexivity].
  destruct (@loadEditNormalizationState _ _ _) as [state| |] eqn:E; [|vm_compute in E; discriminate..].
  exists state. split; [reflexivity|].
  assert (match @loadEditNormalizationState sample_platform sample_database (commit_proposal (sample_lines [sample_remove "50"; sample_retext "51" "Third"])) with
    | Ok state => is_ok (@NormalizeEditProposal sample_platform (record_input (commit_proposal (sample_lines [sample_remove "50"; sample_retext "51" "Third"])) state))
    | _ => false end = true) as Hn by (vm_compute; reflexivity).
  by rewrite E in Hn.
Qed.
