(* ===== verification/JSONText.v ===== *)
(** Which bytes are JSON: [json.Valid] of [encoding/json], the check that the
    repository makes on the canonical bytes it stores, and the proof that
    canonical bytes pass it. *)
From stdpp Require Import base list strings gmap sorting.
From Stdlib Require Import ZArith Lia Ascii.
From S2P Require Import Prelude GoText Exact Canonical.
Open Scope Z_scope.

(** ** The scanner of [encoding/json] *)

Definition is_ws (a : ascii) : bool := existsb (Z.eqb (byte_val a)) [32; 9; 10; 13].

Fixpoint skip_ws (l : bytes) : bytes :=
  match l with a :: rest => if is_ws a then skip_ws rest else l | [] => [] end.

Definition is_hex (a : ascii) : bool := is_lower_hex a || ((65 <=? byte_val a) && (byte_val a <=? 70)).

(** The rest of a string, after its opening quote: what follows the closing one *)
Fixpoint scan_string (l : bytes) : option bytes :=
  match l with
  | [] => None
  | a :: rest =>
      if byte_val a =? 34 then Some rest
      else if byte_val a =? 92 then
        match rest with
        | e :: rest =>
            if existsb (Z.eqb (byte_val e)) [98; 102; 110; 114; 116; 92; 47; 34] then scan_string rest
            else if byte_val e =? 117 then
              match rest with
              | h1 :: h2 :: h3 :: h4 :: rest => if is_hex h1 && is_hex h2 && is_hex h3 && is_hex h4 then scan_string rest else None
              | _ => None
              end
            else None
        | [] => None
        end
      else if byte_val a <? 32 then None
      else scan_string rest
  end.

Fixpoint skip_digits (l : bytes) : bytes :=
  match l with a :: rest => if is_digit a then skip_digits rest else l | [] => [] end.

Definition some_digits (l : bytes) : option bytes :=
  match l with a :: rest => if is_digit a then Some (skip_digits rest) else None | [] => None end.

Definition scan_exponent (l : bytes) : option bytes :=
  match l with
  | a :: rest =>
      if (byte_val a =? 101) || (byte_val a =? 69) then
        match rest with
        | s :: digits => if (byte_val s =? 43) || (byte_val s =? 45) then some_digits digits else some_digits rest
        | [] => None
        end
      else Some l
  | [] => Some l
  end.

Definition scan_fraction (l : bytes) : option bytes :=
  match l with
  | a :: rest => if byte_val a =? 46 then some_digits rest ≫= scan_exponent else scan_exponent l
  | [] => Some l
  end.

Definition scan_unsigned (l : bytes) : option bytes :=
  match l with
  | a :: rest => if byte_val a =? 48 then scan_fraction rest else if is_digit a then scan_fraction (skip_digits rest) else None
  | [] => None
  end.

Definition scan_number (l : bytes) : option bytes :=
  match l with a :: rest => if byte_val a =? 45 then scan_unsigned rest else scan_unsigned l | [] => None end.

Definition scan_literal (text : string) (l : bytes) : option bytes :=
  if bool_decide (take (length (bytes_of text)) l = bytes_of text) then Some (drop (length (bytes_of text)) l) else None.

Section containers.
Context (value : bytes -> option bytes).

(** The elements of an array, from the first on: there are at most as many as bytes. *)
Fixpoint scan_elements (fuel : nat) (l : bytes) : option bytes :=
  match fuel with
  | O => None
  | S fuel =>
      match value l with
      | None => None
      | Some rest =>
          match skip_ws rest with
          | a :: rest => if byte_val a =? 44 then scan_elements fuel rest else if byte_val a =? 93 then Some rest else None
          | [] => None
          end
      end
  end.

Fixpoint scan_members (fuel : nat) (l : bytes) : option bytes :=
  match fuel with
  | O => None
  | S fuel =>
      match skip_ws l with
      | q :: rest =>
          if negb (byte_val q =? 34) then None
          else match scan_string rest with
          | None => None
          | Some rest =>
              match skip_ws rest with
              | c :: rest =>
                  if negb (byte_val c =? 58) then None
                  else match value rest with
                  | None => None
                  | Some rest =>
                      match skip_ws rest with
                      | a :: rest => if byte_val a =? 44 then scan_members fuel rest else if byte_val a =? 125 then Some rest else None
                      | [] => None
                      end
                  end
              | [] => None
              end
          end
      | [] => None
      end
  end.
End containers.

(** A value nested at most [depth] deep *)
Fixpoint scan_value (depth : nat) (l : bytes) : option bytes :=
  match skip_ws l with
  | [] => None
  | a :: rest =>
      let inside (f : (bytes -> option bytes) -> option bytes) :=
        match depth with O => None | S depth => f (scan_value depth) end in
      if byte_val a =? 34 then scan_string rest
      else if byte_val a =? 91 then
        inside (fun value => match skip_ws rest with
          | b :: rest' => if byte_val b =? 93 then Some rest' else scan_elements value (length rest) rest
          | [] => None
          end)
      else if byte_val a =? 123 then
        inside (fun value => match skip_ws rest with
          | b :: rest' => if byte_val b =? 125 then Some rest' else scan_members value (length rest) rest
          | [] => None
          end)
      else if byte_val a =? 110 then scan_literal "null" (a :: rest)
      else if byte_val a =? 116 then scan_literal "true" (a :: rest)
      else if byte_val a =? 102 then scan_literal "false" (a :: rest)
      else scan_number (a :: rest)
  end.

Definition maxNestingDepth : nat := Z.to_nat 10000.

Definition json_Valid (l : bytes) : bool :=
  match scan_value maxNestingDepth l with Some rest => bool_decide (skip_ws rest = []) | None => false end.

(** ** Canonical bytes are JSON *)

Fixpoint jdepth (v : jvalue) : nat :=
  match v with
  | JArray items => S (foldr (fun v n => Nat.max (jdepth v) n) 0%nat items)
  | JObject entries => S (foldr (fun e n => Nat.max (jdepth e.2) n) 0%nat entries)
  | _ => 0%nat
  end.

(** What follows a value: the end, a comma or a closing bracket *)
Definition ends (r : bytes) : bool := match r with [] => true | a :: _ => existsb (Z.eqb (byte_val a)) [44; 93; 125] end.

Lemma skip_ws_not a l : is_ws a = false -> skip_ws (a :: l) = a :: l.
Proof. cbn. by intros ->. Qed.

Lemma scan_escape a l : scan_string (escape_byte a ++ l) = scan_string l.
Proof. destruct a as [[] [] [] [] [] [] [] []]; reflexivity. Qed.

Lemma scan_escapes b l : scan_string (concat (map escape_byte b) ++ quote :: l) = Some l.
Proof. induction b as [|a b IH]; [reflexivity|]. cbn [map concat]. by rewrite <- app_assoc, scan_escape. Qed.

Lemma scan_jcs s e l : appendJCSString [] s = Ok e -> exists b, e = quote :: b /\ scan_string (b ++ l) = Some l.
Proof.
  unfold appendJCSString. destruct (valid_utf8 s) eqn:Hv; [|discriminate]. cbn [negb app]. intros [= <-]. eexists. split; [reflexivity|].
  rewrite jcs_body_bytes by done. rewrite <- app_assoc. apply scan_escapes.
Qed.

Lemma skip_digits_all l r : forallb is_digit l = true -> match r with a :: _ => is_digit a | [] => false end = false -> skip_digits (l ++ r) = r.
Proof.
  intros Hl Hr. induction l as [|a l IH]; cbn in *; [destruct r; [done|]; cbn; by rewrite Hr|].
  apply andb_true_iff in Hl as [-> Hl]. by apply IH.
Qed.

Lemma ends_fraction r : ends r = true -> scan_fraction r = Some r.
Proof.
  destruct r as [|a r]; [done|]. unfold ends, existsb. rewrite !orb_true_iff, !Z.eqb_eq. unfold scan_fraction, scan_exponent.
  intros Ha. rewrite (proj2 (Z.eqb_neq _ 46)), (proj2 (Z.eqb_neq _ 101)), (proj2 (Z.eqb_neq _ 69)) by lia. done.
Qed.

Lemma ends_digit r : ends r = true -> match r with a :: _ => is_digit a | [] => false end = false.
Proof.
  destruct r as [|a r]; [done|]. unfold ends, existsb, is_digit. rewrite !orb_true_iff, !Z.eqb_eq. intros Ha. lia.
Qed.

Lemma eqb_byte a b : Ascii.eqb a b = (byte_val a =? byte_val b).
Proof.
  destruct (Ascii.eqb a b) eqn:E.
  - apply Ascii.eqb_eq in E as ->. by rewrite Z.eqb_refl.
  - symmetry. apply Z.eqb_neq. intros Hb%byte_val_inj. subst. by rewrite Ascii.eqb_refl in E.
Qed.

Lemma scan_positive a l r : is_digit a = true -> Ascii.eqb a "0" = false -> forallb is_digit l = true -> ends r = true ->
  scan_unsigned (a :: l ++ r) = Some r.
Proof.
  rewrite eqb_byte. change (byte_val "0"%char) with 48. intros Hd Hz Hl Hr. cbn [scan_unsigned]. rewrite Hz, Hd.
  rewrite skip_digits_all by eauto using ends_digit. by apply ends_fraction.
Qed.

Lemma scan_decimal text r : isCanonicalDecimal text true = true -> ends r = true -> scan_number (bytes_of text ++ r) = Some r.
Proof.
  unfold isCanonicalDecimal. destruct (bytes_of text) as [|a l] eqn:E; [discriminate|]. intros H Hr. case_bool_decide as Hz.
  { subst text. injection E as <- <-. cbn. by apply ends_fraction. }
  cbn [app scan_number]. change 45 with (byte_val "-"%char). rewrite <- eqb_byte. destruct (Ascii.eqb a "-") eqn:Em.
  - destruct l as [|b l]; [discriminate|]. cbn [negb orb] in H. destruct (Ascii.eqb b "0") eqn:Eb; [discriminate|].
    cbn [forallb] in H. apply andb_true_iff in H as [Hb Hl]. by apply scan_positive.
  - destruct (Ascii.eqb a "0") eqn:Ez; [discriminate|]. cbn [forallb] in H. apply andb_true_iff in H as [Ha Hl]. by apply scan_positive.
Qed.

(** The canonical bytes of a value are scanned to their end. *)
Definition scans (v : jvalue) : Prop :=
  forall d e r, canonical_value v = Ok e -> (jdepth v <= d)%nat -> ends r = true -> scan_value d (e ++ r) = Some r.

Lemma items_end vs t r : append_items false (map canonical_value vs) = Ok t -> exists a l, t ++ "]"%char :: r = a :: l /\
  is_ws a = false /\ ends (a :: l) = true.
Proof.
  destruct vs as [|v vs]; [intros [= <-]; cbn; eauto|]. intros (e & t' & _ & _ & ->)%append_items_cons. cbn. eauto.
Qed.

Lemma scan_items d vs : Forall scans vs -> forall v e t r fuel, scans v -> canonical_value v = Ok e ->
  append_items false (map canonical_value vs) = Ok t -> Forall (fun v => (jdepth v <= d)%nat) (v :: vs) -> (length vs < fuel)%nat ->
  scan_elements (scan_value d) fuel (e ++ t ++ "]"%char :: r) = Some r.
Proof.
  induction 1 as [|v' vs Hv' Hvs IH]; intros v e t r [|fuel] Hv He Ht Hd Hf; [lia| |lia|]; cbn [scan_elements];
    apply Forall_cons in Hd as [Hd1 Hd2]; pose proof (items_end _ _ r Ht) as (a & l & Ea & Hws & Hend);
    rewrite Ea, (Hv d e (a :: l)) by done; rewrite skip_ws_not by done.
  - injection Ht as <-. injection Ea as <- <-. reflexivity.
  - apply append_items_cons in Ht as (e' & t' & He' & Ht' & ->). injection Ea as <- <-. cbn [separator app].
    change (byte_val "," =? 44) with true. cbn match. cbn [app length] in *. rewrite <- app_assoc. apply (IH v'); try done; lia.
Qed.

Lemma entries_end es t r : append_entries false (map encode_entry es) = Ok t -> exists a l, t ++ "}"%char :: r = a :: l /\
  is_ws a = false /\ ends (a :: l) = true.
Proof.
  destruct es as [|[k v] es]; [intros [= <-]; cbn; eauto|]. intros (n & e & t' & _ & _ & _ & ->)%append_entries_cons. cbn. eauto.
Qed.

Lemma scan_entries d es : Forall (fun x => scans x.2) es -> forall v n k e t r fuel, scans v -> appendJCSString [] k = Ok n -> canonical_value v = Ok e ->
  append_entries false (map encode_entry es) = Ok t -> Forall (fun x => (jdepth x.2 <= d)%nat) ((k, v) :: es) -> (length es < fuel)%nat ->
  scan_members (scan_value d) fuel (n ++ ":"%char :: e ++ t ++ "}"%char :: r) = Some r.
Proof.
  induction 1 as [|[k' v'] es Hv' Hes IH]; intros v n k e t r [|fuel] Hv Hn He Ht Hd Hf; [lia| |lia|]; cbn [scan_members];
    apply Forall_cons in Hd as [Hd1 Hd2]; pose proof (entries_end _ _ r Ht) as (a & l & Ea & Hws & Hend);
    destruct (scan_jcs _ _ (":"%char :: e ++ a :: l) Hn) as (b & -> & Hs); rewrite Ea; cbn [app]; rewrite skip_ws_not by done;
    change (byte_val quote =? 34) with true; cbn match; cbn [negb]; rewrite Hs, skip_ws_not by done;
    change (byte_val ":" =? 58) with true; cbn match; cbn [negb]; rewrite (Hv d e (a :: l)) by done; rewrite skip_ws_not by done.
  - injection Ht as <-. injection Ea as <- <-. reflexivity.
  - apply append_entries_cons in Ht as (n' & e' & t' & Hn' & He' & Ht' & ->). injection Ea as <- <-. cbn [separator app].
    change (byte_val "," =? 44) with true. cbn match. cbn [app length] in *. rewrite <- app_assoc. cbn [app]. rewrite <- app_assoc.
    apply (IH v' _ k'); try done; lia.
Qed.

Lemma fold_depth {A} (f : A -> nat) l n : (foldr (fun x m => Nat.max (f x) m) 0 l <= n)%nat <-> Forall (fun x => (f x <= n)%nat) l.
Proof. induction l as [|x l IH]; cbn; [split; [constructor|lia]|]. rewrite Forall_cons, <- IH. lia. Qed.

Lemma lead_not_ws v c : lead v c = true -> is_ws c = false.
Proof.
  revert c. assert (Hall : forall c, negb (is_ws c) || negb (number_char c || existsb (Ascii.eqb c) ["n"; "t"; "f"; quote; "["; "{"]%char) = true)
    by (apply ascii_forall; vm_compute; reflexivity).
  intros c H. specialize (Hall c). apply orb_true_iff in Hall as [Hn|Hn]; [by apply negb_true_iff in Hn|].
  exfalso. apply negb_true_iff, orb_false_iff in Hn as [Hn He]. cbn in He. rewrite !orb_false_iff in He.
  destruct v as [|[]| | | |]; cbn in H; intuition congruence.
Qed.

Lemma scans_array items : Forall scans items -> scans (JArray items).
Proof.
  intros Hi d e r He Hd Hr. cbn [canonical_value] in He. outcome_inv. subst e. destruct d as [|d]; [cbn in Hd; lia|]. cbn [app scan_value].
  rewrite skip_ws_not by done. change (byte_val "[" =? 34) with false. change (byte_val "[" =? 91) with true. cbn match.
  cbn [jdepth] in Hd. apply le_S_n, fold_depth in Hd. rewrite <- app_assoc. cbn [app].
  destruct items as [|w items]; [injection Hs as <-; reflexivity|].
  apply append_items_cons in Hs as (e & t & He & Ht & ->). cbn [separator app]. rewrite <- app_assoc.
  destruct (canonical_value_lead _ _ He) as (c & l & -> & Hlead). cbn [app]. rewrite skip_ws_not by (exact (lead_not_ws _ _ Hlead)).
  assert (byte_val c =? 93 = false) as ->.
  { change 93 with (byte_val "]"%char). rewrite <- eqb_byte. apply Ascii.eqb_neq. exact (proj1 (lead_delimiters _ _ Hlead)). }
  apply Forall_cons in Hi as [Hv Hi]. rewrite app_comm_cons.
  apply (scan_items d items Hi w (c :: l) t r); try done. 
  assert (length items <= length t)%nat; [|cbn; rewrite !length_app; cbn; lia].
  clear -Ht. revert t Ht. induction items as [|w items IH]; intros t Ht; [cbn; lia|].
  apply append_items_cons in Ht as (e & t' & _ & Ht' & ->). apply IH in Ht'. cbn. rewrite length_app. lia.
Qed.

Lemma scans_object entries : Forall (fun x => scans x.2) entries -> scans (JObject entries).
Proof.
  intros Hi d e r He Hd Hr. apply canonical_object in He as (sorted & body & Hp & H & ->). destruct d as [|d]; [cbn in Hd; lia|].
  cbn [app scan_value].
  rewrite skip_ws_not by done. change (byte_val "{" =? 34) with false. change (byte_val "{" =? 91) with false.
  change (byte_val "{" =? 123) with true. cbn match.
  cbn [jdepth] in Hd. apply le_S_n, (fold_depth (fun x : string * jvalue => jdepth x.2)) in Hd.
  rewrite <- app_assoc. cbn [app]. rewrite Hp in Hi, Hd.
  destruct sorted as [|[k v] sorted]; [injection H as <-; reflexivity|].
  apply append_entries_cons in H as (n & e & t & Hn & He & Ht & ->). cbn [separator app]. rewrite <- app_assoc. cbn [app]. rewrite <- app_assoc.
  destruct (jcs_string_lead _ _ Hn) as (l & ->). cbn [app]. rewrite skip_ws_not by done.
  change (byte_val quote =? 125) with false. cbn match.
  apply Forall_cons in Hi as [Hv Hi]. rewrite app_comm_cons.
  apply (scan_entries d sorted Hi v (quote :: l) k e t r); try done.
  assert (length sorted <= length t)%nat; [|cbn; rewrite length_app; cbn; rewrite !length_app; cbn; lia].
  clear -Ht. revert t Ht. induction sorted as [|[k v] sorted IH]; intros t Ht; [cbn; lia|].
  apply append_entries_cons in Ht as (n & e & t' & _ & _ & Ht' & ->). apply IH in Ht'. cbn. rewrite length_app. cbn. rewrite length_app. lia.
Qed.

Lemma scans_all v : scans v.
Proof.
  induction v as [|b|s|text|items Hi|entries Hi] using jvalue_nested_ind.
  - intros d e r [= <-] _ Hr. destruct d; cbn -[scan_literal]; unfold scan_literal; cbn; reflexivity.
  - intros d e r [= <-] _ Hr. destruct d, b; reflexivity.
  - intros d e r He _ Hr. cbn [canonical_value] in He. destruct (negb _); [discriminate|].
    destruct (scan_jcs _ _ r He) as (b & -> & Hs). destruct d; cbn [scan_value app]; rewrite skip_ws_not by done; exact Hs.
  - intros d e r He _ Hr. cbn [canonical_value] in He. destruct (isCanonicalDecimal text true) eqn:Ec; [|discriminate]. cbn in He.
    pose proof (scan_decimal _ r Ec Hr) as Hs. pose proof (canonical_number_chars _ Ec) as Hn. injection He as <-.
    destruct (bytes_of text) as [|c l] eqn:Et; [unfold isCanonicalDecimal in Ec; by rewrite Et in Ec|].
    cbn in Hn. apply andb_true_iff in Hn as [Hn _]. cbn [app] in *.
    assert (Hc : forall b, (byte_val c =? byte_val b) = true -> number_char b = true) by (intros b Hb; rewrite <- eqb_byte in Hb; by apply Ascii.eqb_eq in Hb as ->).
    destruct d; cbn [scan_value]; (rewrite skip_ws_not by (by apply (lead_not_ws (JNumber text))));
      repeat match goal with |- context [byte_val c =? ?n] =>
        lazymatch n with 48 => fail | 45 => fail | _ =>
        let H := fresh in destruct (byte_val c =? n) eqn:H;
          [exfalso; change n with (byte_val (byte_of n)) in H; apply Hc in H; vm_compute in H; discriminate H|]; clear H end end; exact Hs.
  - by apply scans_array.
  - by apply scans_object.
Qed.

(** Canonical bytes of a value that is not nested too deep are JSON. *)
Lemma canonical_valid v e : canonical_value v = Ok e -> (jdepth v <= maxNestingDepth)%nat -> json_Valid e = true.
Proof.
  intros He Hd. unfold json_Valid. pose proof (scans_all v maxNestingDepth e [] He Hd eq_refl) as Hs. rewrite app_nil_r in Hs. rewrite Hs. reflexivity.
Qed.

Lemma envelope_valid domainName schema payload e : CanonicalEnvelope domainName schema payload = Ok e ->
  (jdepth payload < maxNestingDepth)%nat -> json_Valid e = true.
Proof.
  unfold CanonicalEnvelope, appendCanonicalValue. destruct (_ || _); [discriminate|]. intros H Hd. outcome_inv. subst e.
  apply canonical_valid in Hs; [done|]. change (S (Nat.max 0 (Nat.max (jdepth payload) (Nat.max 0 0))) <= maxNestingDepth)%nat. lia.
Qed.
