(* ===== verification/Authority.v ===== *)
(** Who calls: command invocations, invocation policies and authorities
    ([product/application/authority.go], [invocation_policy.go],
    [command_receipts.go]), the checks services make on them, and what every
    service needs from its environment: a clock, an identity generator and
    random bytes ([projects.go]). *)
From stdpp Require Import base list strings gmap.
From Stdlib Require Import ZArith Lia.
From S2P Require Import Prelude GoText Exact Identity Canonical EditModel Timeline EditState EditValidate.
Open Scope Z_scope.

(** ** Environment

    Instants are nanoseconds since the Unix epoch, in UTC. *)
Class World (W : Type) := {
  Now : W -> Z * W;
  NewID : Z -> W -> outcome identity_error string * W;
  read_random : W -> option (list Z) * W }.

(** [time.Time{}], the first instant of year 1 *)
Definition zero_time : Z := -62135596800 * 10 ^ 9.
Definition time_IsZero (at_ : Z) : bool := at_ =? zero_time.
Definition UnixMilli (at_ : Z) : Z := at_ / 10 ^ 6.

Section generator.
Context {W : Type} (uuid_String : list Z -> string) (read : W -> option (list Z) * W).

(** [UUIDv7IdentityGenerator.NewID]: sixteen bytes of the source are read only
    when the clock is in range. *)
Definition UUIDv7_NewID (at_ : Z) (w : W) : outcome identity_error string * W :=
  if (UnixMilli at_ <? 0) || (2 ^ 48 <=? UnixMilli at_) then (Fail ErrClockRange, w)
  else let '(entropy, w) := read w in (GenerateUUIDv7From uuid_String (UnixMilli at_) entropy, w).
End generator.

(** ** Invocations *)

Inductive CommandReceiptClass := CommandReceiptNone | CommandReceiptEvidence | CommandReceiptOutcome | CommandReceiptOther (text : string).
#[export] Instance CommandReceiptClass_eq_dec : EqDecision CommandReceiptClass.
Proof. solve_decision. Defined.

(** [application.InvocationContext], which is [command.Context] *)
Record InvocationContext := mkContext {
  ctx_ProjectID : option string; ctx_SequenceID : option string; ctx_RunID : option string; ctx_TurnID : option string }.
#[export] Instance InvocationContext_eq_dec : EqDecision InvocationContext.
Proof. solve_decision. Defined.

Definition is_zero_pointer (id : option string) : bool := match id with Some id => IsZero id | None => false end.

Definition InvocationContext_Validate (value : InvocationContext) : bool :=
  negb (is_zero_pointer (ctx_ProjectID value) || is_zero_pointer (ctx_SequenceID value) || is_zero_pointer (ctx_RunID value) ||
    is_zero_pointer (ctx_TurnID value) || (bool_decide (is_Some (ctx_TurnID value)) && bool_decide (ctx_RunID value = None))).

Record CommandInvocation := mkInvocation {
  inv_ID : string; inv_Command : string; inv_Fingerprint : string; inv_Class : CommandReceiptClass; inv_InputDigest : string;
  inv_RequestID : option string; inv_Context : InvocationContext }.

Definition CommandInvocation_Validate (value : CommandInvocation) : bool :=
  negb (IsZero (inv_ID value)) && negb (bool_decide (inv_Command value = "")) && (go_len (inv_Command value) <=? 128) &&
  negb (bool_decide (inv_Fingerprint value = "")) && negb (bool_decide (inv_InputDigest value = "")) &&
  InvocationContext_Validate (inv_Context value) &&
  (match inv_Class value with CommandReceiptOther _ => false | _ => true end) &&
  (match inv_RequestID value with Some request => is_ok (ParseRequestID request) | None => true end).

(** ** Policies *)

Inductive OutputMode := OutputJSON | OutputHuman | OutputOther (text : string).
#[export] Instance OutputMode_eq_dec : EqDecision OutputMode.
Proof. solve_decision. Defined.

Definition MinimumWaitMilliseconds : Z := 250.
Definition MaximumWaitMilliseconds : Z := 30000.
Definition DefaultWaitMilliseconds : Z := 10000.

Record InvocationPolicy := mkPolicy { pol_Output : OutputMode; pol_WaitMilliseconds : Z }.
#[export] Instance InvocationPolicy_eq_dec : EqDecision InvocationPolicy.
Proof. solve_decision. Defined.

Definition zero_policy : InvocationPolicy := mkPolicy (OutputOther "") 0.
Definition DefaultInvocationPolicy : InvocationPolicy := mkPolicy OutputJSON DefaultWaitMilliseconds.

Definition InvocationPolicy_Validate (policy : InvocationPolicy) : bool :=
  match pol_Output policy with OutputJSON | OutputHuman => true | OutputOther _ => false end &&
  (MinimumWaitMilliseconds <=? pol_WaitMilliseconds policy) && (pol_WaitMilliseconds policy <=? MaximumWaitMilliseconds).

Record InvocationPolicyOverride := mkOverride { ov_Output : option OutputMode; ov_WaitMilliseconds : option Z }.

(** [None] is [ErrInvalidInvocationPolicy]. *)
Definition InvocationPolicyOverride_Apply (override : InvocationPolicyOverride) (base : InvocationPolicy) : option InvocationPolicy :=
  if negb (InvocationPolicy_Validate base) then None
  else
    let result := mkPolicy (default (pol_Output base) (ov_Output override)) (default (pol_WaitMilliseconds base) (ov_WaitMilliseconds override)) in
    if negb (InvocationPolicy_Validate result) then None else Some result.

Record InvocationPolicySettings := mkSettings { set_Revision : Z; set_Policy : InvocationPolicy }.
Definition InvocationPolicySettings_Validate (settings : InvocationPolicySettings) : bool :=
  (1 <=? set_Revision settings) && InvocationPolicy_Validate (set_Policy settings).

Record InvocationPolicySnapshot := mkSnapshot { snap_SettingsRevision : Z; snap_Persisted : InvocationPolicy; snap_Effective : InvocationPolicy }.

Definition NewInvocationPolicySnapshot (settings : InvocationPolicySettings) (override : InvocationPolicyOverride) : option InvocationPolicySnapshot :=
  if negb (InvocationPolicySettings_Validate settings) then None
  else match InvocationPolicyOverride_Apply override (set_Policy settings) with
       | Some effective => Some (mkSnapshot (set_Revision settings) (set_Policy settings) effective)
       | None => None
       end.

Definition InvocationPolicySnapshot_Validate (snapshot : InvocationPolicySnapshot) : bool :=
  (1 <=? snap_SettingsRevision snapshot) && InvocationPolicy_Validate (snap_Persisted snapshot) && InvocationPolicy_Validate (snap_Effective snapshot).

(** ** Authorities *)

Inductive AuthoritySurface := AuthorityFirstPartyUI | AuthorityProductCLI | AuthorityOther (text : string).
#[export] Instance AuthoritySurface_eq_dec : EqDecision AuthoritySurface.
Proof. solve_decision. Defined.

Inductive authority_error := ErrAuthorityMissing | ErrAuthorityInvalid | ErrAuthorityScopeDenied.

Record Authority := mkAuthority {
  au_Surface : AuthoritySurface; au_InstallationID : string; au_GrantID : string; au_Actor : ActorRef; au_Policy : InvocationPolicy;
  au_Invocation : option CommandInvocation }.

Definition Authority_Validate (authority : Authority) : outcome authority_error unit :=
  _ ← guard_or ErrAuthorityInvalid (is_ok (ParseRequestID (au_InstallationID authority)));
  _ ← guard_or ErrAuthorityInvalid (ActorRef_Validate (au_Actor authority));
  _ ← guard_or ErrAuthorityInvalid (match au_Surface authority with
      | AuthorityFirstPartyUI =>
          bool_decide (au_GrantID authority = "") && bool_decide (actor_Kind (au_Actor authority) = ActorCreator) &&
          match au_Invocation authority with None => true | Some _ => false end
      | AuthorityProductCLI =>
          is_ok (ParseRequestID (au_GrantID authority)) && bool_decide (actor_Kind (au_Actor authority) = ActorAgent) &&
          match au_Invocation authority with Some invocation => CommandInvocation_Validate invocation | None => false end
      | AuthorityOther _ => false
      end);
  if bool_decide (au_Policy authority = zero_policy) then Ok tt else guard_or ErrAuthorityInvalid (InvocationPolicy_Validate (au_Policy authority)).

Definition EffectivePolicy (authority : Authority) : InvocationPolicy :=
  if bool_decide (au_Policy authority = zero_policy) then DefaultInvocationPolicy else au_Policy authority.

(** The authority a context carries.  [ContextWithAuthority] puts one in after
    validating it. *)
Definition context : Type := option Authority.

Definition ContextWithAuthority (ctx : context) (authority : Authority) : outcome authority_error context :=
  _ ← Authority_Validate authority; Ok (Some authority).

Definition AuthorityFromContext (ctx : context) : outcome authority_error Authority :=
  match ctx with
  | None => Fail ErrAuthorityMissing
  | Some authority => _ ← Authority_Validate authority; Ok authority
  end.

(** [editAuthority] of [edits.go] *)
Definition editAuthority (ctx : context) : outcome authority_error Authority :=
  authority ← AuthorityFromContext ctx;
  _ ← guard_or ErrAuthorityScopeDenied (bool_decide (au_Surface authority = AuthorityProductCLI) &&
        bool_decide (actor_Kind (au_Actor authority) = ActorAgent));
  Ok authority.

(** [creatorAuthority] of [media.go] *)
Definition creatorAuthority (ctx : context) : outcome authority_error Authority :=
  authority ← AuthorityFromContext ctx;
  _ ← guard_or ErrAuthorityScopeDenied (bool_decide (au_Surface authority = AuthorityFirstPartyUI) &&
        bool_decide (actor_Kind (au_Actor authority) = ActorCreator));
  Ok authority.

(** ** Facts *)

Lemma override_valid override base policy : InvocationPolicyOverride_Apply override base = Some policy -> InvocationPolicy_Validate policy = true.
Proof.
  unfold InvocationPolicyOverride_Apply. destruct (negb _); [discriminate|]. destruct (negb _) eqn:E; [discriminate|].
  intros [= <-]. by apply negb_false_iff in E.
Qed.

Lemma snapshot_valid settings override snapshot :
  NewInvocationPolicySnapshot settings override = Some snapshot -> InvocationPolicySnapshot_Validate snapshot = true.
Proof.
  unfold NewInvocationPolicySnapshot, InvocationPolicySettings_Validate. destruct (negb _) eqn:E; [discriminate|].
  destruct (InvocationPolicyOverride_Apply _ _) as [effective|] eqn:Ea; [|discriminate]. intros [= <-].
  apply negb_false_iff, andb_true_iff in E as [H1 H2]. unfold InvocationPolicySnapshot_Validate. cbn.
  rewrite H1, H2. cbn. by eapply override_valid.
Qed.

Lemma from_context_ok ctx authority : AuthorityFromContext ctx = Ok authority <-> ctx = Some authority /\ Authority_Validate authority = Ok tt.
Proof.
  unfold AuthorityFromContext. destruct ctx as [a|]; [|split; [discriminate|intros [? _]; discriminate]].
  destruct (Authority_Validate a) as [[]| |] eqn:E; cbn; split; try discriminate; try (intros [[= ->] Hv]; congruence).
  intros [= ->]. done.
Qed.
