(* ===== verification/EditService.v ===== *)
(** The edit service: [product/application/edits.go] and
    [edits_allocation.go].

    A method checks who calls and what is asked, mints the identities the
    request needs, digests the request and hands one record to the repository.
    [prepare_*] is a method up to that call. *)
From stdpp Require Import base list strings gmap sorting.
From Stdlib Require Import ZArith Lia.
From S2P Require Import Prelude GoText Exact Identity Canonical EditModel Timeline EditState EditClips EditNarrative EditDerive EditValidate.
From S2P Require Import EditNormalize EditJournal Database Projection EditLoad EditLoadState EditRepository.
From S2P Require Import JSONText Authority.
Open Scope Z_scope.

Inductive service_error :=
| SvcAuthority (e : authority_error) | SvcIdentity (e : identity_error) | SvcDigest (e : canonical_error) | SvcRepo (e : repo_error).

Definition svc_invalid : service_error := SvcRepo repo_invalid.

(** What [encoding/json] makes of an [EditProposeInput] *)
Class RequestCodec := { propose_payload : EditProposeInput -> outcome canonical_error jvalue }.

(** Computations that read the clock and mint identities *)
Definition Svc (W A : Type) : Type := W -> outcome service_error A * W.

#[export] Instance Svc_ret {W} : MRet (Svc W) := fun A a w => (Ok a, w).
#[export] Instance Svc_bind {W} : MBind (Svc W) := fun A B f m w =>
  match m w with
  | (Ok a, w) => f a w
  | (Fail e, w) => (Fail e, w)
  | (Panic, w) => (Panic, w)
  end.

Definition svc_lift {W E A} (wrap : E -> service_error) (r : outcome E A) : Svc W A := fun w =>
  (match r with Ok a => Ok a | Fail e => Fail (wrap e) | Panic => Panic end, w).
Definition svc_guard {W} (e : service_error) (b : bool) : Svc W unit := fun w => (guard_or e b, w).

Section service.
Context {W : Type} `{World W} `{Platform} `{SQLite} `{EditCodec} `{RequestCodec}.

Definition clock_Now : Svc W Z := fun w => let '(now, w) := Now w in (Ok now, w).
Definition svc_NewID (at_ : Z) : Svc W string := fun w =>
  let '(r, w) := NewID at_ w in (match r with Ok v => Ok v | Fail e => Fail (SvcIdentity e) | Panic => Panic end, w).
(** [NewID] followed by the parser of the identity's kind *)
Definition svc_parsed_id (at_ : Z) : Svc W string := value ← svc_NewID at_; svc_lift SvcIdentity (ParseID value).

(** ** Allocation *)

Definition newActivityEventID (at_ : Z) : Svc W string := svc_parsed_id at_.

(** The locals of one operation in the order [allocateProposal] meets them *)
Definition operation_locals (o : EditOperationInput) : list (string * EditEntityKind) :=
  option_list ((fun l => (l, createdKind (op_Type o))) <$> op_CreateAs o) ++
  omap (fun '(local, kind) => (fun l => (l, kind)) <$> local)
    ([(op_CreateLinkGroupAs o, EntityLinkGroup); (op_LeftLinkGroupAs o, EntityLinkGroup); (op_RightLinkGroupAs o, EntityLinkGroup)] ++
     concat (map (fun v => [(Some (so_LeftAs v), EntityClip); (Some (so_RightAs v), EntityClip)]) (op_SplitOutputs o))) ++
  concat (map (fun v => [(dc_CaptionAs v, EntityCaption); (dc_AlignmentAs v, EntityAlignment)]) (op_DerivedCaptions o)) ++
  concat (map (fun v => [(rc_AlignmentAs v, EntityAlignment)] ++
    option_list ((fun l => (lo_ClipAs l, EntityClip)) <$> rc_Video v) ++ option_list ((fun l => (lo_ClipAs l, EntityClip)) <$> rc_Audio v) ++
    option_list ((fun l => (l, EntityLinkGroup)) <$> rc_LinkGroupAs v)) (op_DerivedRoughCut o)).

Fixpoint allocate_locals (at_ : Z) (locals : list (string * EditEntityKind)) : Svc W (list LocalAllocation) :=
  match locals with
  | [] => mret []
  | (local, kind) :: rest =>
      value ← svc_NewID at_;
      allocation ← allocate_locals at_ rest;
      mret (mkAllocation local kind value :: allocation)
  end.

Definition allocateProposal (at_ : Z) (operations : list EditOperationInput) : Svc W (string * string * list LocalAllocation) :=
  proposalID ← svc_parsed_id at_;
  eventID ← newActivityEventID at_;
  allocation ← allocate_locals at_ (concat (map operation_locals operations));
  mret (proposalID, eventID, allocation).

Definition allocateApply (at_ : Z) : Svc W (string * string * string) :=
  applicationID ← svc_parsed_id at_;
  transactionID ← svc_parsed_id at_;
  eventID ← newActivityEventID at_;
  mret (applicationID, transactionID, eventID).

Definition allocateUndo (at_ : Z) : Svc W (string * string * string * string) :=
  proposalID ← svc_parsed_id at_;
  '(applicationID, transactionID, eventID) ← allocateApply at_;
  mret (proposalID, applicationID, transactionID, eventID).

(** ** Digests *)

Definition id_value (id : string) : outcome canonical_error jvalue :=
  or_fail ErrInvalidCanonicalPayload (text ← ID_MarshalText id; Ok (JString text)).
Definition digest_value (digest : string) : outcome canonical_error jvalue := text ← ParseDigest digest; Ok (JString text).

Definition omit_empty (key : string) (value : option (outcome canonical_error jvalue)) : outcome canonical_error (list (string * jvalue)) :=
  match value with None => Ok [] | Some value => value ← value; Ok [(key, value)] end.

Definition actor_value (actor : ActorRef) : outcome canonical_error jvalue :=
  creator ← omit_empty "creatorId" (id_value <$> actor_CreatorID actor);
  agent ← omit_empty "agentId" (id_value <$> actor_AgentID actor);
  Ok (JObject (("kind", JString (match actor_Kind actor with ActorCreator => "creator" | ActorAgent => "agent" | ActorOther text => json_text text end)) ::
    creator ++ agent)).

Definition editRequestDigest (commandName : string) (actor : ActorRef) (projectID sequenceID runID turnID : string) (input : outcome canonical_error jvalue)
    : outcome canonical_error (bytes * string) :=
  actor ← actor_value actor;
  project ← id_value projectID;
  run ← id_value runID;
  sequence ← id_value sequenceID;
  turn ← id_value turnID;
  input ← input;
  CanonicalDigest platform_sha256 ("open-cut/command-request/" +:+ commandName) "open-cut/edit-request/v5"
    (JObject [("actor", actor); ("projectId", project); ("runId", run); ("sequenceId", sequence); ("turnId", turn); ("input", input)]).

Definition creatorEditRequestDigest (operation : string) (actor : ActorRef) (projectID sequenceID : string) (input : outcome canonical_error jvalue)
    : outcome canonical_error (bytes * string) :=
  actor ← actor_value actor;
  project ← id_value projectID;
  sequence ← id_value sequenceID;
  input ← input;
  CanonicalDigest platform_sha256 ("open-cut/creator-edit-request/" +:+ operation) "open-cut/edit-request/v5"
    (JObject [("actor", actor); ("projectId", project); ("sequenceId", sequence); ("input", input)]).

Definition apply_payload (proposalID requestID proposalDigest : string) : outcome canonical_error jvalue :=
  id ← id_value proposalID;
  digest ← digest_value proposalDigest;
  Ok (JObject [("proposalId", id); ("input", JObject [("requestId", JString (json_text requestID)); ("proposalDigest", digest)])]).

Definition undo_payload (transactionID requestID intent : string) : outcome canonical_error jvalue :=
  id ← id_value transactionID;
  Ok (JObject [("transactionId", id); ("input", JObject (("requestId", JString (json_text requestID)) ::
    if bool_decide (intent = "") then [] else [("intent", JString (json_text intent))]))]).

(** ** Methods *)

Definition prepare_Propose (ctx : context) (projectID sequenceID runID turnID : string) (input : EditProposeInput) : Svc W ProposeEditRecord :=
  authority ← svc_lift SvcAuthority (editAuthority ctx);
  _ ← svc_lift (fun e => SvcRepo (RepoEdit e)) (validateEditProposeInput input);
  now ← clock_Now;
  '(proposalID, eventID, allocation) ← allocateProposal now (pi_Operations input);
  '(canonical, digest) ← svc_lift SvcDigest
    (editRequestDigest "edit propose" (au_Actor authority) projectID sequenceID runID turnID (propose_payload input));
  mret (mkProposeRecord projectID sequenceID runID turnID (au_Actor authority) (pi_RequestID input) digest (json_Valid canonical)
    proposalID eventID allocation input (time_IsZero now)).

Definition prepare_Apply (ctx : context) (projectID sequenceID runID turnID proposalID requestID proposalDigest : string) : Svc W ApplyEditRecord :=
  authority ← svc_lift SvcAuthority (editAuthority ctx);
  _ ← svc_guard svc_invalid (is_ok (ParseRequestID requestID));
  _ ← svc_guard svc_invalid (negb (IsZero proposalID));
  _ ← svc_guard svc_invalid (is_ok (ParseDigest proposalDigest));
  now ← clock_Now;
  '(applicationID, transactionID, eventID) ← allocateApply now;
  '(canonical, digest) ← svc_lift SvcDigest
    (editRequestDigest "edit apply" (au_Actor authority) projectID sequenceID runID turnID (apply_payload proposalID requestID proposalDigest));
  mret (mkApplyRecord projectID sequenceID runID turnID (au_Actor authority) proposalID requestID digest (json_Valid canonical)
    applicationID transactionID eventID proposalDigest (time_IsZero now)).

Definition prepare_Undo (ctx : context) (projectID sequenceID runID turnID target requestID intent : string) : Svc W UndoEditRecord :=
  authority ← svc_lift SvcAuthority (editAuthority ctx);
  _ ← svc_guard svc_invalid (negb (IsZero target) && validateEditIntent intent true);
  _ ← svc_guard svc_invalid (is_ok (ParseRequestID requestID));
  now ← clock_Now;
  '(proposalID, applicationID, transactionID, eventID) ← allocateUndo now;
  '(canonical, digest) ← svc_lift SvcDigest
    (editRequestDigest "edit undo" (au_Actor authority) projectID sequenceID runID turnID (undo_payload target requestID intent));
  mret (mkUndoRecord projectID sequenceID runID turnID (au_Actor authority) target requestID digest (json_Valid canonical)
    proposalID applicationID transactionID eventID intent (time_IsZero now)).

Definition prepare_CommitForCreator (ctx : context) (projectID sequenceID : string) (input : EditProposeInput) : Svc W CommitCreatorEditRecord :=
  authority ← svc_lift SvcAuthority (creatorAuthority ctx);
  _ ← svc_guard svc_invalid (negb (IsZero projectID || IsZero sequenceID) && is_ok (validateEditProposeInput input));
  now ← clock_Now;
  '(proposalID, _, allocation) ← allocateProposal now (pi_Operations input);
  '(applicationID, transactionID, eventID) ← allocateApply now;
  '(canonical, digest) ← svc_lift SvcDigest (creatorEditRequestDigest "commit" (au_Actor authority) projectID sequenceID (propose_payload input));
  mret (mkCommitRecord projectID sequenceID (au_Actor authority) (pi_RequestID input) digest (json_Valid canonical)
    proposalID applicationID transactionID eventID allocation input (time_IsZero now)).

Definition prepare_UndoForCreator (ctx : context) (projectID sequenceID target requestID intent : string) : Svc W UndoEditRecord :=
  authority ← svc_lift SvcAuthority (creatorAuthority ctx);
  _ ← svc_guard svc_invalid (negb (IsZero projectID || IsZero sequenceID || IsZero target) && validateEditIntent intent true);
  _ ← svc_guard svc_invalid (is_ok (ParseRequestID requestID));
  now ← clock_Now;
  '(proposalID, applicationID, transactionID, eventID) ← allocateUndo now;
  '(canonical, digest) ← svc_lift SvcDigest (creatorEditRequestDigest "undo" (au_Actor authority) projectID sequenceID (undo_payload target requestID intent));
  mret (mkUndoRecord projectID sequenceID "" "" (au_Actor authority) target requestID digest (json_Valid canonical)
    proposalID applicationID transactionID eventID intent (time_IsZero now)).

(** A method: its record, then the repository's answer *)
Definition method {R A} (prepare : Svc W R) (call : R -> database -> outcome repo_error A * database) (s : W * database)
    : outcome service_error A * (W * database) :=
  match prepare s.1 with
  | (Ok record, w) =>
      let '(answer, d) := call record s.2 in
      (match answer with Ok a => Ok a | Fail e => Fail (SvcRepo e) | Panic => Panic end, (w, d))
  | (Fail e, w) => (Fail e, (w, s.2))
  | (Panic, w) => (Panic, (w, s.2))
  end.

Definition Propose ctx projectID sequenceID runID turnID input := method (prepare_Propose ctx projectID sequenceID runID turnID input) ProposeEdit.
Definition Apply ctx projectID sequenceID runID turnID proposalID requestID proposalDigest :=
  method (prepare_Apply ctx projectID sequenceID runID turnID proposalID requestID proposalDigest) ApplyEdit.
Definition Undo ctx projectID sequenceID runID turnID target requestID intent :=
  method (prepare_Undo ctx projectID sequenceID runID turnID target requestID intent) UndoEdit.
Definition CommitForCreator ctx projectID sequenceID input := method (prepare_CommitForCreator ctx projectID sequenceID input) CommitCreatorEdit.
Definition UndoForCreator ctx projectID sequenceID target requestID intent :=
  method (prepare_UndoForCreator ctx projectID sequenceID target requestID intent) UndoCreatorEdit.
End service.
