(* ===== verification/EditServiceSound.v ===== *)
(** What the edit service hands to the repository, and its methods end to end. *)
From stdpp Require Import base list strings gmap sorting fin_maps.
From Stdlib Require Import ZArith Lia.
From S2P Require Import Prelude GoText Exact Identity Canonical EditModel Timeline EditState EditClips EditNarrative EditDerive EditValidate.
From S2P Require Import EditNormalize EditJournal EditEffects EditClipInvariant Database Projection EditLoad EditLoadState EditRepository.
From S2P Require Import RepositorySample RepositoryEffects RepositoryJournal RepositoryReplay RepositoryOnce RepositoryHistory JSONText Authority EditService.
Open Scope Z_scope.

(** ** The locals of a request *)

Lemma operation_locals_expected o : operation_locals o = expected_locals o.
Proof.
  unfold operation_locals, expected_locals. f_equal.
  assert (forall l : list ClipSplitOutputInput, omap (fun '(local, kind) => (fun l => (l, kind)) <$> local)
    (concat (map (fun v => [(Some (so_LeftAs v), EntityClip); (Some (so_RightAs v), EntityClip)]) l)) =
    concat (map (fun v => [(so_LeftAs v, EntityClip); (so_RightAs v, EntityClip)]) l)) as Hs.
  { induction l as [|v l IH]; [done|]. cbn. by rewrite <- IH. }
  rewrite omap_app, Hs. clear Hs.
  assert (map (fun v => [(rc_AlignmentAs v, EntityAlignment)] ++
    option_list ((fun l => (lo_ClipAs l, EntityClip)) <$> rc_Video v) ++ option_list ((fun l => (lo_ClipAs l, EntityClip)) <$> rc_Audio v) ++
    option_list ((fun l => (l, EntityLinkGroup)) <$> rc_LinkGroupAs v)) (op_DerivedRoughCut o) = map rough_cut_locals (op_DerivedRoughCut o)) as ->.
  { apply map_ext. intros v. unfold rough_cut_locals. by destruct (rc_Video v), (rc_Audio v). }
  destruct (op_CreateLinkGroupAs o), (op_LeftLinkGroupAs o), (op_RightLinkGroupAs o); cbn; by rewrite ?app_assoc.
Qed.

Definition names (locals : list (string * EditEntityKind)) : list string := map fst locals.

(** [locals] are new names beside [seen], which they extend to [seen']. *)
Definition fits (seen : gset string) (locals : list string) (seen' : gset string) : Prop :=
  NoDup locals /\ (forall x, x ∈ locals -> x ∉ seen) /\ seen' = seen ∪ list_to_set locals.

Lemma fits_app s l1 s1 l2 s2 : fits s l1 s1 -> fits s1 l2 s2 -> fits s (l1 ++ l2) s2.
Proof.
  intros (N1 & D1 & ->) (N2 & D2 & ->). split; [|split].
  - apply NoDup_app. split; [done|]. split; [|done]. intros x Hx Hx'. apply D2 in Hx'. set_solver.
  - intros x [Hx|Hx]%elem_of_app; [by apply D1|]. apply D2 in Hx. set_solver.
  - rewrite list_to_set_app_L. set_solver.
Qed.

Lemma fits_perm s l l' s' : l ≡ₚ l' -> fits s l s' -> fits s l' s'.
Proof.
  intros Hp (N & D & ->). split; [by rewrite <- Hp|]. split; [intros x Hx; apply D; by rewrite Hp|].
  by rewrite (list_to_set_perm_L _ _ Hp).
Qed.

Lemma create_local_ok checked created local kind c : create_local checked created local kind = Ok c ->
  created !! local = None /\ c = <[local := kind]> created.
Proof. unfold create_local. intros E. outcome_inv. subst. split; [by eapply bool_decide_eq_true|done]. Qed.

Lemma create_locals_fits checked locals : forall created created', create_locals checked created locals = Ok created' ->
  fits (dom created) (names locals) (dom created').
Proof.
  induction locals as [|[local kind] rest IH]; intros created created' E.
  - injection E as <-. split; [constructor|]. split; [by intros x ?%elem_of_nil|]. cbn. set_solver.
  - cbn in E. apply bind_ok in E as (c & [Hnew ->]%create_local_ok & E). apply IH in E.
    change (names ((local, kind) :: rest)) with ([local] ++ names rest). eapply fits_app; [|exact E].
    split; [apply NoDup_singleton|]. split.
    + intros x ->%list_elem_of_singleton. by apply not_elem_of_dom.
    + rewrite dom_insert_L. set_solver.
Qed.

Notation insert_all := (foldl (fun (m : gmap string EditEntityKind) '(k, v) => <[k := v]> m) ∅).

Lemma insert_all_map l : insert_all l = list_to_map (reverse l).
Proof.
  induction l as [|[k v] l IH] using rev_ind; [done|]. rewrite foldl_app, IH, reverse_app. reflexivity.
Qed.

Lemma insert_all_dom l : dom (insert_all l) = list_to_set (names l).
Proof. rewrite insert_all_map, dom_list_to_map_L. unfold names. apply set_eq. intros x. rewrite !elem_of_list_to_set. by rewrite !list_elem_of_fmap; setoid_rewrite elem_of_reverse. Qed.

(** The entries of a map literal with distinct names *)
Lemma literal_names l : NoDup (names l) -> names (map_literal l) ≡ₚ names l.
Proof.
  intros Hn. unfold map_literal. change (foldl _ ∅ l) with (insert_all l). rewrite insert_all_map. apply Permutation_map.
  rewrite map_to_list_to_map; [by rewrite reverse_Permutation|]. unfold names in Hn. by rewrite fmap_reverse, reverse_Permutation.
Qed.

Lemma list_to_set_size (l : list string) : (size (list_to_set l : gset string) = length l)%nat <-> NoDup l.
Proof.
  split; [|apply size_list_to_set]. induction l as [|x l IH]; [constructor|]. cbn. intros Hs.
  assert (size (list_to_set l : gset string) <= length l)%nat as Hle.
  { clear. induction l as [|x l IH]; [done|]. cbn. rewrite size_union_alt. pose proof (subseteq_size (list_to_set l ∖ {[x]} : gset string) (list_to_set l)).
    rewrite size_singleton. specialize (H ltac:(set_solver)). lia. }
  destruct (decide (x ∈ l)) as [Hx|Hx].
  - assert ({[x]} ∪ list_to_set l = (list_to_set l : gset string)) as E by set_solver. rewrite E in Hs. lia.
  - constructor; [done|]. apply IH. rewrite size_union in Hs by set_solver. rewrite size_singleton in Hs. lia.
Qed.

(** ** Requests that were validated *)

Lemma fits_concat {A} (f g : A -> list string) (l : list A) s s' : fits s (concat (map f l)) s' -> Forall (fun x => f x ≡ₚ g x) l ->
  fits s (concat (map g l)) s'.
Proof.
  intros Hf Hp. eapply fits_perm; [|exact Hf]. clear Hf. induction Hp as [|x l Hx _ IH]; [done|]. cbn. by rewrite Hx, IH.
Qed.

Lemma names_concat l : names (concat l) = concat (map names l).
Proof. unfold names. induction l as [|x l IH]; [done|]. cbn. by rewrite map_app, IH. Qed.

Definition outputs_distinct (o : EditOperationInput) : Prop :=
  Forall (fun v => NoDup (names (derived_caption_locals v))) (op_DerivedCaptions o) /\
  Forall (fun v => NoDup (names (rough_cut_locals v))) (op_DerivedRoughCut o).

Lemma literals_fit {A} (f : A -> list (string * EditEntityKind)) l s s' : Forall (fun v => NoDup (names (f v))) l ->
  fits s (names (concat (map (fun v => map_literal (f v)) l))) s' -> fits s (names (concat (map f l))) s'.
Proof.
  intros Hd. rewrite !names_concat, !map_map. intros Hf. eapply fits_concat; [exact Hf|].
  apply Forall_impl with (1 := Hd). intros v. apply literal_names.
Qed.

Lemma operation_created_fits o created created' : operation_created o created = Ok created' -> outputs_distinct o ->
  fits (dom created) (names (expected_locals o)) (dom created').
Proof.
  unfold operation_created, expected_locals. intros E [Hc Hr]. outcome_inv.
  repeat match goal with H : create_locals _ _ _ = Ok _ |- _ => apply create_locals_fits in H end.
  unfold names at 1. rewrite !map_app. repeat (eapply fits_app; [eassumption|]).
  - eapply fits_app; [by eapply literals_fit|by eapply literals_fit].
Qed.

Section validated.
Context `{Platform}.

Lemma collect_created_fits operations : forall created edges r, collect_created created edges operations = Ok r ->
  Forall outputs_distinct operations -> fits (dom created) (names (concat (map expected_locals operations))) (dom r.1).
Proof.
  induction operations as [|o operations IH]; intros created edges r E Hd.
  - injection E as <-. split; [constructor|]. split; [by intros x ?%elem_of_nil|]. cbn. set_solver.
  - cbn [collect_created] in E. apply bind_ok in E as (u & _ & E). apply bind_ok in E as (c & Hc & E). apply Forall_cons in Hd as [Ho Hd].
    apply IH in E; [|done]. cbn [map concat]. unfold names. rewrite map_app. eapply fits_app; [by eapply operation_created_fits|exact E].
Qed.

Lemma valid_captions_distinct o : validateEditOperation o = true ->
  Forall (fun v => NoDup (names (derived_caption_locals v))) (op_DerivedCaptions o).
Proof.
  assert (empty (op_DerivedCaptions o) = true -> Forall (fun v => NoDup (names (derived_caption_locals v))) (op_DerivedCaptions o)) as He
    by (by destruct (op_DerivedCaptions o)).
  assert (validDerivedCaptionOutputs (op_DerivedCaptions o) = true ->
    Forall (fun v => NoDup (names (derived_caption_locals v))) (op_DerivedCaptions o)) as Hv.
  { clear He. unfold validDerivedCaptionOutputs. intros Hd. apply andb_true_iff in Hd as [_ Hd].
    unfold distinct in Hd. apply bool_decide_eq_true in Hd. revert Hd. generalize (op_DerivedCaptions o). clear.
    induction l as [|v l IH]; [constructor|]. cbn. intros Hd. change (_ :: _ :: ?r) with ([dc_CaptionAs v; dc_AlignmentAs v] ++ r) in Hd.
    apply NoDup_app in Hd as (Hd & _ & Hl). constructor; [done|by apply IH]. }
  unfold validateEditOperation, validateRoughCutOperation, rough_cut_clear, validateClipMutationOperation, clip_mutation_clear,
    noNarrativeExternalFields, noTranscript.
  destruct (op_Type o); cbn [isClipMutationOperation writingOperation orb]; repeat case_bool_decide; try congruence;
    intros Ho; repeat (apply andb_true_iff in Ho as [Ho ?]); bool_prop; auto; discriminate.
Qed.
End validated.

(** ** Allocations *)

(** What a service expects of its environment: identities are well formed, and
    the clock never shows the zero time. *)
Class WorldLaws (W : Type) `{World W} := {
  mints_ids : forall at_ w v w', NewID at_ w = (Ok v, w') -> isUUIDv7 v = true;
  clock_runs : forall w, time_IsZero (Now w).1 = false }.

Definition entry_of (a : LocalAllocation) : string * EditEntityKind := (alloc_Local a, alloc_Kind a).

Section allocation.
Context {W : Type} `{WorldLaws W}.

Lemma svc_bind_ok {A B} (m : Svc W A) (f : A -> Svc W B) w b w' : (m ≫= f) w = (Ok b, w') -> exists a w1, m w = (Ok a, w1) /\ f a w1 = (Ok b, w').
Proof. unfold mbind, Svc_bind. destruct (m w) as [[a| |] w1]; [eauto|discriminate..]. Qed.

Lemma new_id_ok at_ w v w' : svc_NewID at_ w = (Ok v, w') -> isUUIDv7 v = true.
Proof. unfold svc_NewID. destruct (NewID at_ w) as [[x| |] w1] eqn:E; try discriminate. intros [= -> ->]. by eapply mints_ids. Qed.

Lemma parsed_id_ok at_ w v w' : svc_parsed_id at_ w = (Ok v, w') -> ParseID v = Ok v.
Proof.
  intros (x & w1 & Hx & E)%svc_bind_ok. unfold svc_lift in E. destruct (ParseID x) as [y| |] eqn:Ep; [|discriminate..]. injection E as -> ->.
  unfold ParseID in *. destruct (isUUIDv7 x) eqn:Eu; [|discriminate]. injection Ep as ->. by rewrite Eu.
Qed.

Lemma allocate_locals_ok at_ locals : forall w allocation w', allocate_locals at_ locals w = (Ok allocation, w') ->
  map entry_of allocation = locals /\ Forall (fun a => isUUIDv7 (alloc_ID a) = true) allocation.
Proof.
  induction locals as [|[local kind] rest IH]; intros w allocation w' E; cbn in E.
  - injection E as <- <-. done.
  - apply svc_bind_ok in E as (v & w1 & Hv & E). apply svc_bind_ok in E as (more & w2 & Hm & E). injection E as <- <-.
    apply IH in Hm as [<- Hm]. split; [done|]. constructor; [by eapply new_id_ok|done].
Qed.
End allocation.

Lemma valid_created_kind `{Platform} o l : validateEditOperation o = true -> op_CreateAs o = Some l -> known_kind (createdKind (op_Type o)) = true.
Proof.
  unfold validateEditOperation, validateRoughCutOperation, rough_cut_clear, validateClipMutationOperation, clip_mutation_clear.
  intros Ho Hc. rewrite Hc in Ho. revert Ho.
  destruct (op_Type o); cbn [isClipMutationOperation writingOperation orb absent present andb]; repeat case_bool_decide; try congruence;
    try (intros _; reflexivity); intros Ho; repeat (apply andb_true_iff in Ho as [Ho ?]); bool_prop; discriminate.
Qed.

Lemma expected_kinds_known `{Platform} o : validateEditOperation o = true -> Forall (fun x => known_kind x.2 = true) (expected_locals o).
Proof.
  intros Ho. unfold expected_locals. rewrite !Forall_app. split_and!.
  - destruct (op_CreateAs o) eqn:E; cbn; repeat constructor. by eapply valid_created_kind.
  - destruct (op_CreateLinkGroupAs o); repeat constructor.
  - destruct (op_LeftLinkGroupAs o), (op_RightLinkGroupAs o); repeat constructor.
  - induction (op_SplitOutputs o); cbn; repeat constructor. done.
  - induction (op_DerivedCaptions o); cbn; repeat constructor. done.
  - induction (op_DerivedRoughCut o) as [|v l IH]; cbn; repeat constructor. rewrite !Forall_app. split_and!; [| |done].
    + destruct (rc_Video v), (rc_Audio v); repeat constructor.
    + destruct (rc_LinkGroupAs v); repeat constructor.
Qed.

Lemma entity_id_ok kind v : known_kind kind = true -> isUUIDv7 v = true -> validateEntityID kind v = Ok tt.
Proof. unfold validateEntityID, ParseID. by intros -> ->. Qed.

(** An allocation of identities to these locals matches exactly when the locals
    are distinct. *)
Lemma allocation_matches allocation operations : map entry_of allocation = concat (map expected_locals operations) ->
  Forall (fun a => validateEntityID (alloc_Kind a) (alloc_ID a) = Ok tt) allocation ->
  validateAllocationMatchesOperations allocation operations = true <-> NoDup (names (concat (map expected_locals operations))).
Proof.
  intros Hm Hv. unfold validateAllocationMatchesOperations. set (locals := concat _) in *. change (foldl _ ∅ locals) with (insert_all locals).
  assert (size (insert_all locals) = length allocation <-> NoDup (names locals)) as Hsize.
  { assert (length (names locals) = length allocation) as El by (unfold names; by rewrite length_map, <- Hm, length_map).
    by rewrite <- size_dom, insert_all_dom, <- list_to_set_size, El. }
  rewrite andb_true_iff, Nat.eqb_eq. split; [intros [Hs _]; by apply Hsize|].
  intros Hn. split; [by apply Hsize|]. apply forallb_forall. intros a Ha%list_elem_of_In. apply andb_true_iff. split.
  - apply bool_decide_eq_true. assert (entry_of a ∈ locals) as Hin by (rewrite <- Hm; by apply list_elem_of_fmap_2).
    unfold at_key. rewrite insert_all_map, (elem_of_list_to_map_1 _ (alloc_Local a) (alloc_Kind a)); [done| |by rewrite elem_of_reverse].
    unfold names in Hn. by rewrite fmap_reverse, reverse_Permutation.
  - rewrite Forall_forall in Hv. by rewrite (Hv a Ha).
Qed.

Lemma allocation_map_ok allocation : forall m, Forall (fun a => validateEntityID (alloc_Kind a) (alloc_ID a) = Ok tt) allocation ->
  NoDup (map alloc_Local allocation) -> (forall a, a ∈ allocation -> m !! alloc_Local a = None) -> exists m', allocation_map m allocation = Ok m'.
Proof.
  induction allocation as [|a rest IH]; intros m Hv Hn Hf; [by eexists|]. cbn. apply Forall_cons in Hv as [Ha Hv]. apply NoDup_cons in Hn as [Hx Hn].
  rewrite Ha, (Hf a) by set_solver. cbn. apply IH; [done..|]. intros b Hb. rewrite lookup_insert_ne; [apply Hf; set_solver|].
  intros E. apply Hx. rewrite E. by apply list_elem_of_fmap_2.
Qed.

(** A validated request is refused over its local names exactly when some output
    of a rough cut gives one name to two of its entities. *)
Definition rough_cut_names_distinct (operations : list EditOperationInput) : Prop :=
  Forall (fun o => Forall (fun v => NoDup (names (rough_cut_locals v))) (op_DerivedRoughCut o)) operations.

Lemma validated_names `{Platform} input : validateEditProposeInput input = Ok tt ->
  NoDup (names (concat (map expected_locals (pi_Operations input)))) <-> rough_cut_names_distinct (pi_Operations input).
Proof.
  intros Hv. unfold validateEditProposeInput in Hv. apply bind_ok in Hv as (u1 & _ & Hv). apply bind_ok in Hv as (u2 & _ & Hv).
  apply bind_ok in Hv as ([created edges] & Hc & _). split.
  - intros Hn. unfold rough_cut_names_distinct. clear Hc. induction (pi_Operations input) as [|o l IH]; [constructor|].
    cbn in Hn. unfold names in Hn. rewrite map_app in Hn. apply NoDup_app in Hn as (Ho & _ & Hl). constructor; [|by apply IH].
    unfold expected_locals in Ho. rewrite !app_assoc, map_app in Ho. apply NoDup_app in Ho as (_ & _ & Ho). clear -Ho.
    induction (op_DerivedRoughCut o) as [|v l IH]; [constructor|]. cbn [map concat] in Ho. rewrite map_app in Ho.
    apply NoDup_app in Ho as (Hv & _ & Hl). constructor; [done|by apply IH].
  - intros Hd. pose proof (collect_created_valid _ _ _ _ Hc) as Hops.
    destruct (collect_created_fits _ _ _ _ Hc) as [Hn _]; [|done].
    apply Forall_forall. intros o Ho. split.
    + apply valid_captions_distinct. by eapply Forall_forall in Hops.
    + unfold rough_cut_names_distinct in Hd. rewrite Forall_forall in Hd. by apply Hd.
Qed.

(** ** Records *)

Definition durable (id : string) : Prop := ParseID id = Ok id.

Lemma durable_nonzero id : durable id -> IsZero id = false.
Proof. unfold durable, ParseID, IsZero. intros E. apply bool_decide_eq_false. intros ->. discriminate E. Qed.

Lemma id_value_ok id v : id_value id = Ok v -> durable id /\ v = JString id.
Proof.
  unfold id_value, ID_MarshalText, durable, ParseID. intros E. apply or_fail_ok in E. destruct (IsZero id); [discriminate|].
  destruct (isUUIDv7 id); [|discriminate]. injection E as <-. done.
Qed.

Lemma actor_value_ok actor v : ActorRef_Validate actor = true -> actor_value actor = Ok v -> durable (IDString actor) /\ (jdepth v <= 1)%nat.
Proof.
  unfold ActorRef_Validate, actor_value, IDString. destruct actor as [[] [c|] [a|]]; cbn -[id_value]; try discriminate; rewrite ?andb_false_r; try discriminate;
    intros _ E; apply bind_ok in E as (x & E & Hk); outcome_inv; repeat match goal with H : id_value _ = Ok _ |- _ => apply id_value_ok in H as [? ->] end;
    subst; cbn -[id_value]; (split; [done|cbn; lia]).
Qed.

(** What encoding/json makes of a request is nested a few levels deep. *)
Class RequestCodecLaws `{RequestCodec} := propose_depth : forall input v, propose_payload input = Ok v -> (jdepth v <= 100)%nat.

Section records.
Context {W : Type} `{WorldLaws W} `{Platform} `{SQLite} `{EditCodec} `{RequestCodecLaws}.

Lemma digest_ok domainName schema payload canonical digest : sha256_sums -> (jdepth payload <= 200)%nat ->
  CanonicalDigest platform_sha256 domainName schema payload = Ok (canonical, digest) -> json_Valid canonical = true /\ ParseDigest digest = Ok digest.
Proof.
  intros Hsum Hd E. apply canonical_digest_parses in E as [Hc Hp]; [|done]. split; [|done]. eapply envelope_valid; [exact Hc|].
  unfold maxNestingDepth. lia.
Qed.

Lemma edit_digest_ok name actor p s r t input c d : sha256_sums -> ActorRef_Validate actor = true ->
  (forall v, input = Ok v -> (jdepth v <= 100)%nat) -> editRequestDigest name actor p s r t input = Ok (c, d) ->
  (durable (IDString actor) /\ durable p /\ durable s /\ durable r /\ durable t) /\ json_Valid c = true /\ ParseDigest d = Ok d /\ is_ok input = true.
Proof.
  intros Hsum Ha Hin E. unfold editRequestDigest in E. outcome_inv.
  repeat match goal with H : id_value _ = Ok _ |- _ => apply id_value_ok in H as [? ->] end.
  apply actor_value_ok in Hs as [Hact Hdep]; [|done]. split; [done|]. match goal with H : CanonicalDigest _ _ _ _ = Ok _ |- _ => rename H into Hk end. apply digest_ok in Hk; [|done|].
  - split; [by apply Hk|]. split; [by apply Hk|]. match goal with H : input = Ok _ |- _ => by rewrite H end.
  - match goal with H : input = Ok _ |- _ => apply Hin in H end. cbn. lia.
Qed.

Lemma creator_digest_ok name actor p s input c d : sha256_sums -> ActorRef_Validate actor = true ->
  (forall v, input = Ok v -> (jdepth v <= 100)%nat) -> creatorEditRequestDigest name actor p s input = Ok (c, d) ->
  (durable (IDString actor) /\ durable p /\ durable s) /\ json_Valid c = true /\ ParseDigest d = Ok d /\ is_ok input = true.
Proof.
  intros Hsum Ha Hin E. unfold creatorEditRequestDigest in E. outcome_inv.
  repeat match goal with H : id_value _ = Ok _ |- _ => apply id_value_ok in H as [? ->] end.
  apply actor_value_ok in Hs as [Hact Hdep]; [|done]. split; [done|]. match goal with H : CanonicalDigest _ _ _ _ = Ok _ |- _ => rename H into Hk end. apply digest_ok in Hk; [|done|].
  - split; [by apply Hk|]. split; [by apply Hk|]. match goal with H : input = Ok _ |- _ => by rewrite H end.
  - match goal with H : input = Ok _ |- _ => apply Hin in H end. cbn. lia.
Qed.

Lemma apply_payload_ok id request digest v : apply_payload id request digest = Ok v -> durable id /\ (jdepth v <= 100)%nat.
Proof. unfold apply_payload. intros E. outcome_inv. apply id_value_ok in Hs as [? ->]. unfold digest_value in *. outcome_inv. subst. split; [done|]. cbn. lia. Qed.

Lemma undo_payload_ok id request intent v : undo_payload id request intent = Ok v -> durable id /\ (jdepth v <= 100)%nat.
Proof. unfold undo_payload. intros E. outcome_inv. apply id_value_ok in Hs as [? ->]. subst. split; [done|]. case_bool_decide; cbn; lia. Qed.

Lemma allocate_apply_ok at_ w a t e w' : allocateApply at_ w = (Ok (a, t, e), w') -> durable a /\ durable t /\ durable e.
Proof.
  unfold allocateApply, newActivityEventID. intros E. repeat (apply svc_bind_ok in E as (? & ? & ?%parsed_id_ok & E)). injection E as <- <- <- _. done.
Qed.

Lemma allocate_undo_ok at_ w p a t e w' : allocateUndo at_ w = (Ok (p, a, t, e), w') -> durable p /\ durable a /\ durable t /\ durable e.
Proof.
  unfold allocateUndo. intros E. apply svc_bind_ok in E as (? & ? & ?%parsed_id_ok & E). apply svc_bind_ok in E as ([[a0 t0] e0] & ? & E1 & E).
  apply allocate_apply_ok in E1. injection E as <- <- <- <- _. done.
Qed.

Lemma allocate_proposal_ok at_ operations w p e allocation w' : allocateProposal at_ operations w = (Ok (p, e, allocation), w') ->
  durable p /\ durable e /\ map entry_of allocation = concat (map expected_locals operations) /\
  Forall (fun a => isUUIDv7 (alloc_ID a) = true) allocation.
Proof.
  unfold allocateProposal, newActivityEventID. intros E. apply svc_bind_ok in E as (? & ? & ?%parsed_id_ok & E).
  apply svc_bind_ok in E as (? & ? & ?%parsed_id_ok & E). apply svc_bind_ok in E as (? & ? & [Hm Hu]%allocate_locals_ok & E).
  injection E as <- <- <- _. rewrite Hm. split_and!; try done. f_equal. apply map_ext. apply operation_locals_expected.
Qed.
End records.
