(* ===== verification/EditServiceCalls.v ===== *)
(** Every record the edit service hands to the repository is one the repository
    accepts, and a retried call commits once. *)
From stdpp Require Import base list strings gmap sorting fin_maps.
From Stdlib Require Import ZArith Lia.
From S2P Require Import Prelude GoText Exact Identity Canonical EditModel Timeline EditState EditClips EditNarrative EditDerive EditValidate.
From S2P Require Import EditNormalize EditJournal EditEffects EditClipInvariant Database Projection EditLoad EditLoadState EditRepository.
From S2P Require Import RepositorySample RepositoryEffects RepositoryJournal RepositoryReplay RepositoryOnce JSONText Authority EditService EditServiceSound.
Open Scope Z_scope.

(** What a call of a method leaves for the repository to do *)
Inductive handed {W} `{World W} `{Platform} `{RequestCodec} (w : W) : edit_call -> W -> Prop :=
| handed_propose ctx project sequence run turn input record w' :
    pi_BaseProjectRevision input <= MaxInt64 ->
    prepare_Propose ctx project sequence run turn input w = (Ok record, w') -> handed w (Proposing record) w'
| handed_apply ctx project sequence run turn proposal request digest record w' :
    prepare_Apply ctx project sequence run turn proposal request digest w = (Ok record, w') -> handed w (Committing (ApplyCommand record)) w'
| handed_undo ctx project sequence run turn target request intent record w' :
    prepare_Undo ctx project sequence run turn target request intent w = (Ok record, w') -> handed w (Committing (UndoCommand record)) w'
| handed_commit ctx project sequence input record w' :
    pi_BaseProjectRevision input <= MaxInt64 ->
    prepare_CommitForCreator ctx project sequence input w = (Ok record, w') -> handed w (Committing (CommitCommand record)) w'
| handed_undo_creator ctx project sequence target request intent record w' :
    prepare_UndoForCreator ctx project sequence target request intent w = (Ok record, w') -> handed w (Committing (UndoCreatorCommand record)) w'.

(** The identities a record allocates, and the operations they are for *)
Definition call_allocation (e : edit_call) : option (list LocalAllocation * list EditOperationInput) :=
  match e with
  | Proposing record => Some (pe_Allocation record, pi_Operations (pe_Input record))
  | Committing (CommitCommand record) => Some (cc_Allocation record, pi_Operations (cc_Input record))
  | Committing _ => None
  end.

Lemma edit_authority_ok ctx a : editAuthority ctx = Ok a -> ActorRef_Validate (au_Actor a) = true /\ actor_Kind (au_Actor a) = ActorAgent.
Proof.
  unfold editAuthority. intros E. apply bind_ok in E as (b & [_ Hv]%from_context_ok & E). outcome_inv. subst. unfold Authority_Validate in Hv.
  outcome_inv. bool_prop. done.
Qed.

Lemma creator_authority_ok ctx a : creatorAuthority ctx = Ok a -> ActorRef_Validate (au_Actor a) = true /\ actor_Kind (au_Actor a) = ActorCreator.
Proof.
  unfold creatorAuthority. intros E. apply bind_ok in E as (b & [_ Hv]%from_context_ok & E). outcome_inv. subst. unfold Authority_Validate in Hv.
  outcome_inv. bool_prop. done.
Qed.

Section calls.
Context {W : Type} `{WorldLaws W} `{Platform} `{SQLite} `{EditCodec} `{RequestCodecLaws}.

Lemma svc_lift_ok {E A} (wrap : E -> service_error) (r : outcome E A) (w : W) a w' : svc_lift wrap r w = (Ok a, w') -> r = Ok a /\ w' = w.
Proof. unfold svc_lift. destruct r; [|discriminate..]. by intros [= -> ->]. Qed.
Lemma svc_guard_ok e b (w : W) u w' : svc_guard e b w = (Ok u, w') -> b = true /\ w' = w.
Proof. unfold svc_guard, guard_or. destruct b; [|discriminate]. by intros [= _ ->]. Qed.
Lemma clock_ok (w : W) now w' : clock_Now w = (Ok now, w') -> time_IsZero now = false.
Proof. unfold clock_Now. pose proof (clock_runs w) as Hc. destruct (Now w) as [n w1]. by intros [= <- _]. Qed.

Lemma forall_typed ids : Forall durable ids -> Forall id_typed ids /\ forallb (fun id => negb (IsZero id)) ids = true.
Proof.
  induction 1 as [|id ids Hd _ [IH1 IH2]]; [done|]. split; [constructor; [by right|done]|]. cbn. by rewrite (durable_nonzero _ Hd), IH2.
Qed.

Lemma valid_request_ok request digest : is_ok (ParseRequestID request) = true -> ParseDigest digest = Ok digest -> valid_request request digest = true.
Proof. unfold valid_request. by intros -> ->. Qed.
End calls.

Ltac svc_run E :=
  repeat match type of E with
  | mbind _ _ _ = (Ok _, _) =>
      let a := fresh "x" in let w := fresh "w" in let Hr := fresh "Hr" in apply svc_bind_ok in E as (a & w & Hr & E);
      repeat match type of a with prod _ _ => destruct a as [a ?] end
  end;
  repeat match goal with
  | Hr : svc_lift _ _ _ = (Ok _, _) |- _ => apply svc_lift_ok in Hr as [Hr ->]
  | Hr : svc_guard _ _ _ = (Ok _, _) |- _ => apply svc_guard_ok in Hr as [Hr ->]
  | Hr : clock_Now _ = (Ok _, _) |- _ => apply clock_ok in Hr
  | Hr : editAuthority _ = Ok _ |- _ => apply edit_authority_ok in Hr as [? ?]
  | Hr : creatorAuthority _ = Ok _ |- _ => apply creator_authority_ok in Hr as [? ?]
  | Hr : allocateApply _ _ = (Ok _, _) |- _ => apply allocate_apply_ok in Hr as (? & ? & ?)
  | Hr : allocateUndo _ _ = (Ok _, _) |- _ => apply allocate_undo_ok in Hr as (? & ? & ? & ?)
  | Hr : allocateProposal _ _ _ = (Ok _, _) |- _ => apply allocate_proposal_ok in Hr as (? & ? & ? & ?)
  end; injection E as <- <-.

Ltac typed_ids :=
  match goal with |- context [forallb (fun id => negb (IsZero id)) ?l] =>
    let Ht := fresh in assert (forallb (fun id => negb (IsZero id)) l = true) as Ht by (apply forall_typed; repeat constructor; assumption);
    rewrite Ht; clear Ht end.

Section accepted.
Context {W : Type} `{WorldLaws W} `{Platform} `{SQLite} `{EditCodec} `{RequestCodecLaws}.

Lemma is_ok_ex {E A} (r : outcome E A) : is_ok r = true -> exists a, r = Ok a.
Proof. destruct r; [eauto|discriminate..]. Qed.

Lemma apply_accepted ctx project sequence run turn proposal request digest record w w' : sha256_sums ->
  prepare_Apply ctx project sequence run turn proposal request digest w = (Ok record, w') ->
  cmd_typed (ApplyCommand record) /\ validateApplyEditRecord record = Ok tt.
Proof.
  intros Hsum E. unfold prepare_Apply in E. svc_run E.
  match goal with Hd : editRequestDigest _ _ _ _ _ _ _ = Ok _ |- _ => apply edit_digest_ok in Hd as ((Ha & Hp & Hs & Hrn & Ht) & Hj & Hg & Hi) end;
    [|done..|intros v Hv; by destruct (apply_payload_ok _ _ _ _ Hv)].
  apply is_ok_ex in Hi as [v Hv]. apply apply_payload_ok in Hv as [Hpr _].
  split; [split; [|split; [by right|done]]; by apply forall_typed; repeat constructor|].
  unfold validateApplyEditRecord. cbn [ar_ProjectID ar_SequenceID ar_RunID ar_TurnID ar_ProposalID ar_ApplicationID ar_TransactionID ar_ActivityEventID
    ar_Actor ar_InputValid ar_OccurredAtIsZero ar_RequestID ar_InputDigest].
  typed_ids. rewrite valid_request_ok by done.
  match goal with Hv : ActorRef_Validate _ = true |- _ => rewrite Hv end. rewrite bool_decide_eq_true_2 by done.
  rewrite Hj. match goal with Hz : time_IsZero _ = false |- _ => rewrite Hz end. done.
Qed.

Lemma undo_accepted ctx project sequence run turn target request intent record w w' : sha256_sums ->
  prepare_Undo ctx project sequence run turn target request intent w = (Ok record, w') ->
  cmd_typed (UndoCommand record) /\ validateUndoEditRecord record = Ok tt.
Proof.
  intros Hsum E. unfold prepare_Undo in E. svc_run E.
  match goal with Hd : editRequestDigest _ _ _ _ _ _ _ = Ok _ |- _ => apply edit_digest_ok in Hd as ((Ha & Hp & Hs & Hrn & Ht) & Hj & Hg & Hi) end;
    [|done..|intros v Hv; by destruct (undo_payload_ok _ _ _ _ Hv)].
  apply is_ok_ex in Hi as [v Hv]. apply undo_payload_ok in Hv as [Hpr _].
  split; [split; [|split; [by right|done]]; by apply forall_typed; repeat constructor|].
  unfold validateUndoEditRecord, undo_ids. cbn [app ur_ProjectID ur_SequenceID ur_RunID ur_TurnID ur_TargetTransactionID ur_ProposalID ur_ApplicationID
    ur_TransactionID ur_ActivityEventID ur_Actor ur_InputValid ur_OccurredAtIsZero ur_RequestID ur_InputDigest].
  typed_ids. rewrite valid_request_ok by done.
  match goal with Hv : ActorRef_Validate _ = true |- _ => rewrite Hv end. rewrite bool_decide_eq_true_2 by done.
  rewrite Hj. match goal with Hz : time_IsZero _ = false |- _ => rewrite Hz end. done.
Qed.

Lemma undo_creator_accepted ctx project sequence target request intent record w w' : sha256_sums ->
  prepare_UndoForCreator ctx project sequence target request intent w = (Ok record, w') ->
  cmd_typed (UndoCreatorCommand record) /\ validateUndoCreatorEditRecord record = Ok tt.
Proof.
  intros Hsum E. unfold prepare_UndoForCreator in E. svc_run E.
  match goal with Hd : creatorEditRequestDigest _ _ _ _ _ = Ok _ |- _ => apply creator_digest_ok in Hd as ((Ha & Hp & Hs) & Hj & Hg & Hi) end;
    [|done..|intros v Hv; by destruct (undo_payload_ok _ _ _ _ Hv)].
  apply is_ok_ex in Hi as [v Hv]. apply undo_payload_ok in Hv as [Hpr _].
  split; [split; [|split; [by right|done]]; by apply forall_typed; repeat constructor|].
  unfold validateUndoCreatorEditRecord, undo_ids. cbn [app ur_ProjectID ur_SequenceID ur_TargetTransactionID ur_ProposalID ur_ApplicationID
    ur_TransactionID ur_ActivityEventID ur_Actor ur_InputValid ur_OccurredAtIsZero ur_RequestID ur_InputDigest].
  typed_ids. rewrite valid_request_ok by done.
  match goal with Hv : ActorRef_Validate _ = true |- _ => rewrite Hv end. rewrite bool_decide_eq_true_2 by done.
  rewrite Hj. match goal with Hz : time_IsZero _ = false |- _ => rewrite Hz end. done.
Qed.

Lemma validated_request input : validateEditProposeInput input = Ok tt -> is_ok (ParseRequestID (pi_RequestID input)) = true.
Proof. unfold validateEditProposeInput. intros E. apply bind_ok in E as (u & E & _). outcome_inv. bool_prop. done. Qed.

Lemma commit_accepted ctx project sequence input record w w' : sha256_sums -> pi_BaseProjectRevision input <= MaxInt64 ->
  prepare_CommitForCreator ctx project sequence input w = (Ok record, w') ->
  cmd_typed (CommitCommand record) /\ validateCommitCreatorEditRecord record = Ok tt /\ cc_Input record = input /\
  validateEditProposeInput input = Ok tt /\ map entry_of (cc_Allocation record) = concat (map expected_locals (pi_Operations input)) /\
  Forall (fun a => isUUIDv7 (alloc_ID a) = true) (cc_Allocation record).
Proof.
  intros Hsum Hrev E. unfold prepare_CommitForCreator in E. svc_run E.
  match goal with Hd : creatorEditRequestDigest _ _ _ _ _ = Ok _ |- _ => apply creator_digest_ok in Hd as ((Ha & Hp & Hs) & Hj & Hg & Hi) end;
    [|done..|exact (propose_depth input)].
  match goal with Hg : _ && is_ok (validateEditProposeInput _) = true |- _ => apply andb_true_iff in Hg as [_ Hg] end.
  match goal with Hg : is_ok (validateEditProposeInput _) = true |- _ => apply is_ok_ex in Hg as [[] Hval] end.
  split; [split; [|split; [by right|done]]; by apply forall_typed; repeat constructor|].
  split; [|done].
  unfold validateCommitCreatorEditRecord. cbn [cc_ProjectID cc_SequenceID cc_ProposalID cc_ApplicationID
    cc_TransactionID cc_ActivityEventID cc_Actor cc_InputValid cc_OccurredAtIsZero cc_RequestID cc_InputDigest].
  typed_ids. rewrite valid_request_ok by (done || by apply validated_request).
  match goal with Hv : ActorRef_Validate _ = true |- _ => rewrite Hv end. rewrite bool_decide_eq_true_2 by done.
  rewrite Hj. match goal with Hz : time_IsZero _ = false |- _ => rewrite Hz end. done.
Qed.

Lemma propose_accepted ctx project sequence run turn input record w w' : sha256_sums -> pi_BaseProjectRevision input <= MaxInt64 ->
  prepare_Propose ctx project sequence run turn input w = (Ok record, w') ->
  propose_typed record /\ validateProposeEditRecord record = Ok tt /\ pe_Input record = input /\
  validateEditProposeInput input = Ok tt /\ map entry_of (pe_Allocation record) = concat (map expected_locals (pi_Operations input)) /\
  Forall (fun a => isUUIDv7 (alloc_ID a) = true) (pe_Allocation record).
Proof.
  intros Hsum Hrev E. unfold prepare_Propose in E. svc_run E.
  match goal with Hd : editRequestDigest _ _ _ _ _ _ _ = Ok _ |- _ => apply edit_digest_ok in Hd as ((Ha & Hp & Hs & Hrn & Ht) & Hj & Hg & Hi) end;
    [|done..|exact (propose_depth input)].
  match goal with Hg : validateEditProposeInput _ = Ok ?u |- _ => destruct u; rename Hg into Hval end.
  split; [split; [|split; [by right|done]]; by apply forall_typed; repeat constructor|].
  split; [|done].
  unfold validateProposeEditRecord. cbn [pe_ProjectID pe_SequenceID pe_RunID pe_TurnID pe_ProposalID pe_ActivityEventID pe_Actor pe_InputValid
    pe_CreatedAtIsZero pe_RequestID pe_InputDigest].
  typed_ids. rewrite valid_request_ok by (done || by apply validated_request).
  match goal with Hv : ActorRef_Validate _ = true |- _ => rewrite Hv end. rewrite bool_decide_eq_true_2 by done.
  rewrite Hj. match goal with Hz : time_IsZero _ = false |- _ => rewrite Hz end. done.
Qed.

Lemma allocation_ids input allocation : validateEditProposeInput input = Ok tt ->
  map entry_of allocation = concat (map expected_locals (pi_Operations input)) -> Forall (fun a => isUUIDv7 (alloc_ID a) = true) allocation ->
  Forall (fun a => validateEntityID (alloc_Kind a) (alloc_ID a) = Ok tt) allocation.
Proof.
  intros Hval Hm Hu. assert (Forall (fun x => known_kind x.2 = true) (map entry_of allocation)) as Hk.
  { rewrite Hm. unfold validateEditProposeInput in Hval. outcome_inv. destruct v1 as [created edges]. outcome_inv.
    match goal with Hc : collect_created _ _ _ = Ok _ |- _ => apply collect_created_valid in Hc; rename Hc into Hops end. clear -Hops.
    induction Hops as [|o l Ho _ IH]; [constructor|]. cbn. apply Forall_app. split; [by apply expected_kinds_known|done]. }
  clear Hm. induction Hu as [|a l Ha _ IH]; [constructor|]. cbn in Hk. apply Forall_cons in Hk as [Hka Hk].
  constructor; [by apply entity_id_ok|by apply IH].
Qed.
End accepted.

Section theorems.
Context {W : Type} `{WorldLaws W} `{Platform} `{SQLite} `{EditCodec} `{RequestCodecLaws}.

Lemma allocated_accepted input allocation : validateEditProposeInput input = Ok tt ->
  map entry_of allocation = concat (map expected_locals (pi_Operations input)) -> Forall (fun a => isUUIDv7 (alloc_ID a) = true) allocation ->
  (validateAllocationMatchesOperations allocation (pi_Operations input) = true <-> rough_cut_names_distinct (pi_Operations input)) /\
  (rough_cut_names_distinct (pi_Operations input) -> is_ok (allocation_map ∅ allocation) = true).
Proof.
  intros Hval Hm Hu. pose proof (allocation_ids _ _ Hval Hm Hu) as Hids.
  rewrite (allocation_matches _ _ Hm Hids), (validated_names _ Hval). split; [done|]. intros Hd.
  destruct (allocation_map_ok allocation ∅ Hids) as [m ->]; [|by intros; apply lookup_empty|done].
  apply (validated_names _ Hval) in Hd. unfold names in Hd. by rewrite <- Hm, map_map in Hd.
Qed.

(** C15: Every record the edit service hands to the repository, to propose,
    apply, undo or commit an edit, is well typed and passes the repository's own
    validation of it: its identities parse, its digest and canonical bytes are
    well formed, its actor is of the kind the command is for.  The record of a
    proposal or a commit allocates a well-formed identity to each local name
    of the request, in order, and the normalizer accepts that allocation exactly
    when no output of a rough cut gives one name to two of its entities. *)
Theorem service_records_accepted (w : W) (e : edit_call) (w' : W) : sha256_sums -> handed w e w' ->
  call_typed e /\ call_valid e = Ok tt /\
  forall allocation operations, call_allocation e = Some (allocation, operations) ->
    map entry_of allocation = concat (map expected_locals operations) /\ Forall (fun a => isUUIDv7 (alloc_ID a) = true) allocation /\
    (validateAllocationMatchesOperations allocation operations = true <-> rough_cut_names_distinct operations) /\
    (rough_cut_names_distinct operations -> is_ok (allocation_map ∅ allocation) = true).
Proof.
  intros Hsum [ctx p s r t input record w1 Hrev E|ctx p s r t id q g record w1 E|ctx p s r t id q g record w1 E|ctx p s input record w1 Hrev E|
    ctx p s id q g record w1 E].
  - destruct (propose_accepted _ _ _ _ _ _ _ _ _ Hsum Hrev E) as (Ht & Hv & Hi & Hval & Hm & Hu). split; [done|]. split; [done|].
    intros ? ? [= <- <-]. rewrite Hi. by auto using allocated_accepted.
  - by destruct (apply_accepted _ _ _ _ _ _ _ _ _ _ _ Hsum E).
  - by destruct (undo_accepted _ _ _ _ _ _ _ _ _ _ _ Hsum E).
  - destruct (commit_accepted _ _ _ _ _ _ _ Hsum Hrev E) as (Ht & Hv & Hi & Hval & Hm & Hu). split; [done|]. split; [done|].
    intros ? ? [= <- <-]. rewrite Hi. by auto using allocated_accepted.
  - by destruct (undo_creator_accepted _ _ _ _ _ _ _ _ _ Hsum E).
Qed.

Lemma commit_prepared_same ctx p s input w w1 w' w1' r r' : prepare_CommitForCreator ctx p s input w = (Ok r, w1) ->
  prepare_CommitForCreator ctx p s input w' = (Ok r', w1') ->
  cc_Actor r' = cc_Actor r /\ cc_RequestID r' = cc_RequestID r /\ same_request (CommitCommand r) (CommitCommand r').
Proof.
  intros E E'. unfold prepare_CommitForCreator in E, E'.
  apply svc_bind_ok in E as (a & u & [Ha _]%svc_lift_ok & E), E' as (a' & u' & [Ha' _]%svc_lift_ok & E').
  rewrite Ha in Ha'. injection Ha' as <-.
  repeat (let x := fresh "x" in let v := fresh "v" in let Hr := fresh "Hr" in apply svc_bind_ok in E as (x & v & Hr & E); try destruct x as [[? ?] ?]; try destruct x as [? ?]).
  repeat (let x := fresh "x" in let v := fresh "v" in let Hr := fresh "Hr" in apply svc_bind_ok in E' as (x & v & Hr & E'); try destruct x as [[? ?] ?]; try destruct x as [? ?]).
  repeat match goal with Hd : svc_lift _ (creatorEditRequestDigest _ _ _ _ _) _ = _ |- _ => apply svc_lift_ok in Hd as [Hd _] end.
  injection E as <- _. injection E' as <- _. unfold same_request. cbn. repeat split. congruence.
Qed.

(** C16: A creator's edit that is sent twice is committed once.  After
    [CommitForCreator] has answered, and whatever other calls follow, the same
    call made again either cannot mint its identities, and changes nothing, or
    is answered with the transaction and the place in the activity log of the
    first answer, and changes nothing. *)
Theorem service_commit_retried (ctx : context) (projectID sequenceID : string) (input : EditProposeInput) (w w1 w2 : W) d d1 d2 r :
  sha256_sums -> pi_BaseProjectRevision input <= MaxInt64 -> applied_parse d ->
  CommitForCreator ctx projectID sequenceID input (w, d) = (Ok r, (w1, d1)) -> rtc step d1 d2 -> refuses "COMMIT" d2 = false ->
  let '(answer, (w3, d3)) := CommitForCreator ctx projectID sequenceID input (w2, d2) in
  d3 = d2 /\
  match prepare_CommitForCreator ctx projectID sequenceID input w2 with
  | (Ok _, _) => exists r', answer = Ok r' /\ cr_Replayed r' = true /\ cr_Transaction r' = cr_Transaction r /\
      cr_ActivityCursor r' = cr_ActivityCursor r /\ same_proposal (cr_Proposal r) (cr_Proposal r')
  | _ => is_ok answer = false
  end.
Proof.
  intros Hsum Hrev Ha E Hs Hcom. unfold CommitForCreator, method in *. cbn [fst snd] in *.
  destruct (prepare_CommitForCreator _ _ _ _ w) as [[record| |] w0] eqn:Hp; [|discriminate..].
  destruct (prepare_CommitForCreator _ _ _ _ w2) as [[record'| |] w3] eqn:Hp'; [|done..].
  destruct (commit_accepted _ _ _ _ _ _ _ Hsum Hrev Hp) as (Ht & _). destruct (commit_accepted _ _ _ _ _ _ _ Hsum Hrev Hp') as (_ & Hv' & _).
  destruct (commit_prepared_same _ _ _ _ _ _ _ _ _ _ Hp Hp') as (Ea & Eq & Hsame).
  destruct (CommitCreatorEdit record d) as [[r0| |] d0] eqn:Ec; [|discriminate..]. injection E as -> -> ->.
  destruct (run_commit_answered (CommitCommand record) d r d1 Hsum Ht Ha Ec) as [Ha1 Hans].
  destruct (answered_replays d2 (CommitCommand record) (CommitCommand record') r) as [Hrep _]; try done.
  { eapply answered_extends; [by apply steps_extend|by eapply steps_applied|exact Hans]. }
  destruct (Hrep Hsame) as (r' & Er & Hr'). change (run_commit (CommitCommand record') d2) with (CommitCreatorEdit record' d2) in Er.
  rewrite Er. split; [done|]. exists r'. done.
Qed.
End theorems.

(** ** A concrete environment: the product's generator on a counting source *)

Definition sample_bytes (n : Z) : option (list Z) * Z := (Some (replicate 16 (n mod 256)), n + 1).


Lemma generator_mints {W} uuid (read : W -> option (list Z) * W) at_ w v w' : UUIDv7_NewID uuid read at_ w = (Ok v, w') -> isUUIDv7 v = true.
Proof.
  unfold UUIDv7_NewID, GenerateUUIDv7From. destruct (_ || _); [discriminate|]. destruct (read w) as [[b|] w1]; [|discriminate].
  destruct (isUUIDv7 _) eqn:E; [|discriminate]. by intros [= <- _].
Qed.

Definition sample_time (n : Z) : Z * Z := (1700000000 * 10 ^ 9 + Z.abs n, n).
Definition sample_running : World Z := {|
  Now := sample_time; NewID := UUIDv7_NewID uuid_text sample_bytes; read_random := sample_bytes |}.

Lemma sample_laws : @WorldLaws Z sample_running.
Proof.
  split; [intros at_ w v w'; apply generator_mints|].
  intros n. unfold time_IsZero, zero_time. cbn. apply Z.eqb_neq. lia.
Qed.

Definition sample_request_codec : RequestCodec := {| propose_payload := fun input => Ok (JString (pi_Intent input)) |}.
Lemma sample_request_laws : @RequestCodecLaws sample_request_codec.
Proof. intros input v [= <-]. cbn. lia. Qed.

Definition sample_context : context := Some (mkAuthority AuthorityFirstPartyUI "installation" "" sample_creator zero_policy None).

Definition sample_prepared (w : Z) : outcome service_error CommitCreatorEditRecord * Z :=
  @prepare_CommitForCreator Z sample_running sample_platform sample_request_codec sample_context (sample_id "01") (sample_id "03")
    (cc_Input (sample_commit "request-1")) w.

Definition sample_record (w : Z) : CommitCreatorEditRecord :=
  match (sample_prepared w).1 with Ok record => record | _ => sample_commit "request-1" end.

Lemma sample_record_prepared w : is_ok (sample_prepared w).1 = true -> sample_prepared w = (Ok (sample_record w), (sample_prepared w).2).
Proof. unfold sample_record. destruct (sample_prepared w) as [[record| |] w']; [done|discriminate..]. Qed.

Lemma sample_revision : pi_BaseProjectRevision (cc_Input (sample_commit "request-1")) <= MaxInt64.
Proof. vm_compute. discriminate. Qed.

(** The same request as an agent's proposal, in a run *)
Definition sample_agent_context : context :=
  Some (mkAuthority AuthorityProductCLI "installation" "grant" (AgentActor (sample_id "90")) zero_policy
    (Some (mkInvocation (sample_id "91") "edit propose" "fingerprint" CommandReceiptOutcome "digest" None (mkContext None None None None)))).

Definition sample_proposing (w : Z) : outcome service_error ProposeEditRecord * Z :=
  @prepare_Propose Z sample_running sample_platform sample_request_codec sample_agent_context (sample_id "01") (sample_id "03") (sample_id "92")
    (sample_id "93") (cc_Input (sample_commit "request-1")) w.

Lemma service_records_accepted_witness : exists record,
  (sample_proposing 0).1 = Ok record /\ propose_typed record /\ validateProposeEditRecord record = Ok tt /\
  cmd_typed (CommitCommand (sample_record 0)) /\ length (cc_Allocation (sample_record 0)) = 4%nat.
Proof.
  assert (is_ok (sample_proposing 0).1 = true) as Hok by (vm_compute; reflexivity).
  destruct (sample_proposing 0) as [[record| |] w1] eqn:Ep; [|discriminate Hok..]. exists record. split; [reflexivity|].
  destruct (@service_records_accepted Z sample_running sample_laws sample_platform sample_request_codec sample_request_laws
    0 (Proposing record) w1 sample_sums) as (Hp & Hv & _).
  { apply (@handed_propose Z sample_running sample_platform sample_request_codec 0 sample_agent_context (sample_id "01") (sample_id "03")
      (sample_id "92") (sample_id "93") (cc_Input (sample_commit "request-1")) record w1 sample_revision Ep). }
  split; [exact Hp|]. split; [exact Hv|]. split; [|vm_compute; reflexivity].
  destruct (@service_records_accepted Z sample_running sample_laws sample_platform sample_request_codec sample_request_laws
    0 (Committing (CommitCommand (sample_record 0))) (sample_prepared 0).2 sample_sums) as [Ht _]; [|exact Ht].
  apply (@handed_commit Z sample_running sample_platform sample_request_codec 0 sample_context (sample_id "01") (sample_id "03")
    (cc_Input (sample_commit "request-1")) (sample_record 0) (sample_prepared 0).2 sample_revision).
  apply (sample_record_prepared 0). vm_compute. reflexivity.
Defined.

Definition sample_call (s : Z * database) : outcome service_error EditCommitResult * (Z * database) :=
  @CommitForCreator Z sample_running sample_platform sample_engine sample_codec sample_request_codec sample_context (sample_id "01") (sample_id "03")
    (cc_Input (sample_commit "request-1")) s.
Definition sample_committed : database := (sample_call (0, sample_database)).2.2.

(** The call is made, and made again with other identities at another time. *)
Lemma service_commit_retried_witness : exists r r',
  sample_call (0, sample_database) = (Ok r, ((sample_call (0, sample_database)).2.1, sample_committed)) /\
  (sample_call (100, sample_committed)).1 = Ok r' /\ (sample_call (100, sample_committed)).2.2 = sample_committed /\
  cr_Transaction r' = cr_Transaction r.
Proof.
  assert (exists r, sample_call (0, sample_database) = (Ok r, ((sample_call (0, sample_database)).2.1, sample_committed))) as [r Hr].
  { assert (is_ok (sample_call (0, sample_database)).1 = true) as Hok by (vm_compute; reflexivity).
    unfold sample_committed. destruct (sample_call (0, sample_database)) as [[r| |] [w1 d1]]; [by exists r|discriminate..]. }
  pose proof (@service_commit_retried Z sample_running sample_laws sample_platform sample_engine sample_codec sample_request_codec sample_request_laws
    sample_context (sample_id "01") (sample_id "03") (cc_Input (sample_commit "request-1")) 0 (sample_call (0, sample_database)).2.1 100
    sample_database sample_committed sample_committed r sample_sums sample_revision) as Honce.
  change (@CommitForCreator Z sample_running sample_platform sample_engine sample_codec sample_request_codec sample_context (sample_id "01")
    (sample_id "03") (cc_Input (sample_commit "request-1"))) with sample_call in Honce.
  specialize (Honce ltac:(intros id row t Hrow; discriminate Hrow) Hr (rtc_refl _ _) eq_refl).
  destruct (sample_call (100, sample_committed)) as [answer [w3 d3]]. destruct Honce as [Hd Hm].
  change (@prepare_CommitForCreator Z sample_running sample_platform sample_request_codec sample_context (sample_id "01")
    (sample_id "03") (cc_Input (sample_commit "request-1")) 100) with (sample_prepared 100) in Hm.
  rewrite (sample_record_prepared 100) in Hm by (vm_compute; reflexivity).
  destruct Hm as (r' & Ea & _ & Et & _). exists r, r'. split; [exact Hr|]. split; [exact Ea|]. split; [exact Hd|exact Et].
Defined.
