(* ===== verification/CommandRegistry.v ===== *)
(** The command registry ([product/command/registry.go]) and how a command's
    HTTP path names the project, sequence, run and turn it works on
    ([apps/api/service/cli_http_binding.go]). *)
From stdpp Require Import base list strings gmap sorting.
From Stdlib Require Import ZArith Lia Ascii.
From S2P Require Import Prelude GoText Exact Identity Canonical EditModel Timeline EditState EditValidate Project Authority.
Open Scope Z_scope.

(** ** Go's [strings] *)

(** [strings.Split(value, sep)] for a separator of one byte *)
Fixpoint split_bytes (sep : ascii) (l : bytes) : bytes * list bytes :=
  match l with
  | [] => ([], [])
  | a :: rest =>
      let '(first, more) := split_bytes sep rest in
      if Ascii.eqb a sep then ([], first :: more) else (a :: first, more)
  end.
Definition strings_Split (sep : ascii) (value : string) : list string :=
  let '(first, more) := split_bytes sep (bytes_of value) in string_of first :: map string_of more.

Fixpoint strings_Join (sep : string) (parts : list string) : string :=
  match parts with
  | [] => ""
  | [part] => part
  | part :: rest => part +:+ sep +:+ strings_Join sep rest
  end.

Definition strings_TrimPrefix (value prefix : string) : string :=
  if has_prefix value prefix then string_of (drop (length (bytes_of prefix)) (bytes_of value)) else value.

(** [strings.Fields]: the stretches between white space *)
Fixpoint field_runs (l : list (Z * bytes)) (current : bytes) : list bytes :=
  match l with
  | [] => if bool_decide (current = []) then [] else [current]
  | (r, chunk) :: rest =>
      if is_space r then (if bool_decide (current = []) then [] else [current]) ++ field_runs rest []
      else field_runs rest (current ++ chunk)
  end.
Definition strings_Fields (value : string) : list string := map string_of (field_runs (runes (bytes_of value)) []).

(** ** Descriptors *)

Inductive Mutability := ReadOnly | OperationalRead | Creative | Durable | MutabilityOther (text : string).
#[export] Instance Mutability_eq_dec : EqDecision Mutability.
Proof. solve_decision. Defined.

Inductive ApprovalPolicy := ApprovalNone | ApprovalExact | ApprovalOther (text : string).
#[export] Instance ApprovalPolicy_eq_dec : EqDecision ApprovalPolicy.
Proof. solve_decision. Defined.

Definition ScopeProjectRead : string := "project:read".
Definition ScopeActivityRead : string := "activity:read".
Definition ScopeRunRead : string := "run:read".
Definition ScopeRunWrite : string := "run:write".
Definition ScopeEditRead : string := "edit:read".
Definition ScopeEditWrite : string := "edit:write".
Definition ScopeAssetRead : string := "asset:read".
Definition ScopeProductRead : string := "product:read".
Definition ScopeExportRead : string := "export:read".
Definition ScopeExportWrite : string := "export:write".

Definition StatusSucceeded : string := "succeeded".
Definition StatusAccepted : string := "accepted".
Definition StatusConflict : string := "conflict".
Definition StatusStaleTurn : string := "stale-turn".
Definition StatusScopeUpgradeRequired : string := "scope-upgrade-required".
Definition StatusNotFound : string := "not-found".
Definition StatusUnavailable : string := "unavailable".
Definition StatusInvalid : string := "invalid".
Definition StatusFailed : string := "failed".

Record AppStateRequirements := mkState { as_Project : bool; as_Sequence : bool; as_Run : bool; as_Turn : bool }.

Record MutationLimits := mkLimits {
  ml_CanonicalBytes : Z; ml_Operations : Z; ml_LocalSymbols : Z; ml_Preconditions : Z; ml_ChangedEntities : Z; ml_TextFieldBytes : Z }.
Definition no_limits : MutationLimits := mkLimits 0 0 0 0 0 0.
Definition InitialMutationLimits : MutationLimits := mkLimits (2 ^ 20) 512 1024 2048 2048 (256 * 2 ^ 10).

(** A [reflect.Type] is the name of the type; the empty name is nil. *)
Record Descriptor := mkDescriptor {
  de_Path : list string; de_Summary : string; de_InputType : string; de_ResultType : string; de_Mutability : Mutability;
  de_AppState : AppStateRequirements; de_Statuses : list string; de_RequestIdentity : bool; de_Approval : ApprovalPolicy;
  de_Receipt : CommandReceiptClass; de_RequiredScope : string; de_Limits : MutationLimits }.

Definition commandKey (path : list string) : string := strings_Join " " path.

Definition validScope (scope : string) : bool :=
  existsb (fun s => bool_decide (scope = s))
    [ScopeProjectRead; ScopeActivityRead; ScopeRunRead; ScopeRunWrite; ScopeEditRead; ScopeEditWrite; ScopeAssetRead; ScopeProductRead;
     ScopeExportRead; ScopeExportWrite].

Inductive command_error := ErrDuplicateCommand | ErrInvalidCommand | ErrUnknownCommand | ErrSchema.

(** JSON schemas come from reflection over Go types, and the fingerprinted
    document is their [json.Marshal]. *)
Class Schemas := {
  schemaFor : string -> option jvalue;
  fingerprint_json : Descriptor -> jvalue -> jvalue -> option bytes }.

Definition Registry : Type := gmap string Descriptor.

Definition segment_ok (segment : string) : bool :=
  negb (bool_decide (segment = "")) &&
  negb (existsb (fun a => existsb (Z.eqb (byte_val a)) [32; 47; 9; 13; 10]) (bytes_of segment)).

Section registry.
Context `{Platform} `{Schemas}.

Definition Register (registry : Registry) (descriptor : Descriptor) : outcome command_error Registry :=
  _ ← guard_or ErrInvalidCommand ((2 <=? length (de_Path descriptor))%nat && negb (bool_decide (de_Summary descriptor = "")) &&
        negb (bool_decide (de_InputType descriptor = "")) && negb (bool_decide (de_ResultType descriptor = "")) &&
        negb (bool_decide (de_Mutability descriptor = MutabilityOther "")) && negb (bool_decide (de_Approval descriptor = ApprovalOther "")) &&
        negb (bool_decide (de_Receipt descriptor = CommandReceiptOther "")) && validScope (de_RequiredScope descriptor) &&
        negb (bool_decide (de_Statuses descriptor = [])));
  _ ← guard_or ErrInvalidCommand (forallb segment_ok (de_Path descriptor));
  _ ← guard_or ErrDuplicateCommand (bool_decide (registry !! commandKey (de_Path descriptor) = None));
  _ ← guard_or ErrSchema (bool_decide (is_Some (schemaFor (de_InputType descriptor))));
  _ ← guard_or ErrSchema (bool_decide (is_Some (schemaFor (de_ResultType descriptor))));
  Ok (<[commandKey (de_Path descriptor) := descriptor]> registry).

Fixpoint register_all (registry : Registry) (descriptors : list Descriptor) : outcome command_error Registry :=
  match descriptors with
  | [] => Ok registry
  | descriptor :: rest => registry ← Register registry descriptor; register_all registry rest
  end.
Definition NewRegistry (descriptors : list Descriptor) : outcome command_error Registry := register_all ∅ descriptors.

Definition Lookup (registry : Registry) (path : list string) : outcome command_error Descriptor :=
  match registry !! commandKey path with Some descriptor => Ok descriptor | None => Fail ErrUnknownCommand end.

Definition AgentScopes (registry : Registry) : list string :=
  sort_by id (elements (list_to_set (map (fun entry => de_RequiredScope entry.2) (map_to_list registry)) : gset string)).

Definition Fingerprint (registry : Registry) (path : list string) : outcome command_error string :=
  descriptor ← Lookup registry path;
  match schemaFor (de_InputType descriptor), schemaFor (de_ResultType descriptor) with
  | Some input, Some result =>
      match fingerprint_json descriptor input result with Some canonical => Ok (sha256_text canonical) | None => Fail ErrSchema end
  | _, _ => Fail ErrSchema
  end.

(** ** The initial registry *)

Definition editWriteDescriptor (subcommand summary input result : string) : Descriptor :=
  mkDescriptor ["edit"; subcommand] summary input result Creative (mkState true true true true)
    [StatusSucceeded; StatusScopeUpgradeRequired; StatusStaleTurn; StatusConflict; StatusInvalid; StatusNotFound; StatusUnavailable; StatusFailed]
    true ApprovalExact CommandReceiptOutcome ScopeEditWrite InitialMutationLimits.

Definition runTransitionDescriptor (subcommand summary input : string) : Descriptor :=
  mkDescriptor ["run"; subcommand] summary input "Result[RunData]" Durable (mkState true false true true)
    [StatusSucceeded; StatusScopeUpgradeRequired; StatusStaleTurn; StatusConflict; StatusInvalid; StatusNotFound; StatusUnavailable; StatusFailed]
    true ApprovalNone CommandReceiptOutcome ScopeRunWrite no_limits.

Definition exportDescriptor (subcommand summary input : string) (mutability : Mutability) (requestIdentity : bool) (scope : string) : Descriptor :=
  mkDescriptor ["export"; subcommand] summary input "Result[ExportData]" mutability (mkState true (bool_decide (subcommand = "start")) true true)
    [StatusSucceeded; StatusAccepted; StatusScopeUpgradeRequired; StatusStaleTurn; StatusConflict; StatusNotFound; StatusInvalid; StatusUnavailable;
     StatusFailed]
    requestIdentity ApprovalNone (if bool_decide (subcommand = "show") then CommandReceiptNone else CommandReceiptOutcome) scope no_limits.

Definition initial_descriptors : list Descriptor :=
  [
   mkDescriptor ["product"; "status"] "Show semantic product feature availability" "ProductStatusInput" "Result[ProductStatusData]" ReadOnly (mkState false false false false)
     [StatusSucceeded; StatusUnavailable; StatusFailed] false ApprovalNone CommandReceiptNone ScopeProductRead no_limits;
   mkDescriptor ["project"; "list"] "List bounded Project summaries" "ProjectListInput" "Result[ProjectListData]" ReadOnly (mkState false false false false)
     [StatusSucceeded; StatusUnavailable; StatusFailed] false ApprovalNone CommandReceiptNone ScopeProjectRead no_limits;
   mkDescriptor ["asset"; "list"] "List bounded Asset summaries for the current Project" "AssetListInput" "Result[AssetListData]" ReadOnly (mkState true false false false)
     [StatusSucceeded; StatusNotFound; StatusUnavailable; StatusFailed] false ApprovalNone CommandReceiptEvidence ScopeAssetRead no_limits;
   mkDescriptor ["asset"; "inspect"] "Inspect one Asset, its facts, artifacts, and durable jobs" "AssetInspectInput" "Result[AssetInspectData]" ReadOnly (mkState true false false false)
     [StatusSucceeded; StatusNotFound; StatusUnavailable; StatusFailed] false ApprovalNone CommandReceiptEvidence ScopeAssetRead no_limits;
   mkDescriptor ["asset"; "frames"] "Request bounded exact frames for one Asset SourceStream" "AssetFramesInput" "Result[AssetFramesData]" OperationalRead (mkState true false true true)
     [StatusSucceeded; StatusAccepted; StatusScopeUpgradeRequired; StatusStaleTurn; StatusNotFound; StatusInvalid; StatusUnavailable; StatusFailed] false ApprovalNone CommandReceiptEvidence ScopeAssetRead no_limits;
   mkDescriptor ["transcript"; "read"] "Read bounded original recognition from one transcript artifact" "TranscriptReadInput" "Result[TranscriptReadData]" ReadOnly (mkState true false false false)
     [StatusSucceeded; StatusNotFound; StatusInvalid; StatusUnavailable; StatusFailed] false ApprovalNone CommandReceiptEvidence ScopeAssetRead no_limits;
   mkDescriptor ["activity"; "list"] "List durable activity after a scoped cursor" "ActivityListInput" "Result[ActivityListData]" ReadOnly (mkState false false false false)
     [StatusSucceeded; StatusUnavailable; StatusFailed] false ApprovalNone CommandReceiptNone ScopeActivityRead no_limits;
   mkDescriptor ["project"; "show"] "Show one bounded Project overview" "ProjectShowInput" "Result[ProjectShowData]" ReadOnly (mkState true false false false)
     [StatusSucceeded; StatusNotFound; StatusUnavailable; StatusFailed] false ApprovalNone CommandReceiptEvidence ScopeProjectRead no_limits;
   mkDescriptor ["run"; "begin"] "Begin a durable standalone AgentRun and first writer turn" "RunBeginInput" "Result[RunData]" Durable (mkState true false false false)
     [StatusSucceeded; StatusScopeUpgradeRequired; StatusInvalid; StatusNotFound; StatusUnavailable; StatusFailed] true ApprovalNone CommandReceiptOutcome ScopeRunWrite no_limits;
   mkDescriptor ["run"; "show"] "Show one durable AgentRun and its current turn" "RunShowInput" "Result[RunData]" ReadOnly (mkState true false true false)
     [StatusSucceeded; StatusScopeUpgradeRequired; StatusNotFound; StatusUnavailable; StatusFailed] false ApprovalNone CommandReceiptNone ScopeRunRead no_limits;
   mkDescriptor ["run"; "wait"] "Wait a bounded interval for durable AgentRun activity" "RunWaitInput" "Result[RunData]" ReadOnly (mkState true false true false)
     [StatusSucceeded; StatusScopeUpgradeRequired; StatusNotFound; StatusUnavailable; StatusFailed] false ApprovalNone CommandReceiptNone ScopeRunRead no_limits;
   runTransitionDescriptor "resume" "Resume a durable AgentRun with a new writer-turn generation" "RunResumeInput";
   runTransitionDescriptor "complete" "Explicitly complete a durable AgentRun" "RunCompleteInput";
   runTransitionDescriptor "cancel" "Explicitly cancel a durable AgentRun without undoing committed work" "RunCancelInput";
   mkDescriptor ["narrative"; "show"] "Show one bounded restricted PaperEdit subtree" "NarrativeShowInput" "Result[NarrativeShowData]" ReadOnly (mkState true false false false)
     [StatusSucceeded; StatusNotFound; StatusInvalid; StatusUnavailable; StatusFailed] false ApprovalNone CommandReceiptEvidence ScopeEditRead no_limits;
   mkDescriptor ["sequence"; "show"] "Show one bounded Sequence time window" "SequenceShowInput" "Result[SequenceShowData]" ReadOnly (mkState true true false false)
     [StatusSucceeded; StatusNotFound; StatusInvalid; StatusUnavailable; StatusFailed] false ApprovalNone CommandReceiptEvidence ScopeEditRead no_limits;
   mkDescriptor ["sequence"; "frames"] "Inspect bounded exact frames of one committed Sequence revision" "SequenceFramesInput" "Result[SequenceFramesData]" OperationalRead (mkState true true true true)
     [StatusSucceeded; StatusAccepted; StatusScopeUpgradeRequired; StatusStaleTurn; StatusConflict; StatusNotFound; StatusInvalid; StatusUnavailable; StatusFailed] false ApprovalNone CommandReceiptEvidence ScopeEditRead no_limits;
   exportDescriptor "start" "Start one pinned full-quality Sequence export" "ExportStartInput" Durable true ScopeExportWrite;
   exportDescriptor "show" "Show one durable export lineage" "ExportShowInput" ReadOnly false ScopeExportRead;
   exportDescriptor "retry" "Retry one recoverable export lineage" "ExportRetryInput" Durable false ScopeExportWrite;
   exportDescriptor "cancel" "Cancel one active export lineage" "ExportCancelInput" Durable true ScopeExportWrite;
   mkDescriptor ["entity"; "show"] "Show one editable entity with its exact revision" "EntityShowInput" "Result[EntityShowData]" ReadOnly (mkState true false false false)
     [StatusSucceeded; StatusNotFound; StatusInvalid; StatusUnavailable; StatusFailed] false ApprovalNone CommandReceiptEvidence ScopeEditRead no_limits;
   mkDescriptor ["edit"; "show"] "Show one durable Edit Proposal" "EditShowInput" "Result[EditShowData]" ReadOnly (mkState true false false false)
     [StatusSucceeded; StatusNotFound; StatusInvalid; StatusUnavailable; StatusFailed] false ApprovalNone CommandReceiptEvidence ScopeEditRead no_limits;
   mkDescriptor ["edit"; "history"] "List bounded committed Edit history" "EditHistoryInput" "Result[EditHistoryData]" ReadOnly (mkState true false false false)
     [StatusSucceeded; StatusNotFound; StatusInvalid; StatusUnavailable; StatusFailed] false ApprovalNone CommandReceiptEvidence ScopeEditRead no_limits;
   mkDescriptor ["edit"; "derive-captions"] "Preview one deterministic SourceExcerpt-to-Clip caption operation" "CaptionDeriveInput" "Result[CaptionDeriveData]" ReadOnly (mkState true true false false)
     [StatusSucceeded; StatusNotFound; StatusInvalid; StatusUnavailable; StatusFailed] false ApprovalNone CommandReceiptEvidence ScopeEditRead no_limits;
   mkDescriptor ["edit"; "derive-rough-cut"] "Preview one deterministic PaperEdit-to-Sequence rough-cut operation" "RoughCutDeriveInput" "Result[RoughCutDeriveData]" ReadOnly (mkState true true false false)
     [StatusSucceeded; StatusNotFound; StatusConflict; StatusInvalid; StatusUnavailable; StatusFailed] false ApprovalNone CommandReceiptEvidence ScopeEditRead no_limits;
   editWriteDescriptor "propose" "Normalize and durably journal an Edit Proposal" "EditProposeInput" "Result[EditProposalData]";
   editWriteDescriptor "apply" "Atomically apply an exact Edit Proposal" "EditApplyInput" "Result[EditCommitData]";
   editWriteDescriptor "undo" "Commit the exact stored inverse of an Edit Transaction" "EditUndoInput" "Result[EditCommitData]"].

(** [InitialRegistry] panics when a descriptor is refused. *)
Definition InitialRegistry : outcome command_error Registry :=
  match NewRegistry initial_descriptors with Ok registry => Ok registry | _ => Panic end.
End registry.

(** * How a command's HTTP path names what it works on:
    [apps/api/service/cli_http_binding.go]. *)


Definition context_of (project : string) : InvocationContext := mkContext (Some project) None None None.
Definition parses (value : string) : bool := is_ok (ParseID value).

(** The second result of a Go function that reports whether it succeeded *)
Definition when {A} (b : bool) (a : A) : option A := if b then Some a else None.

Definition validEditEntityID (kind value : string) : bool :=
  existsb (fun k => bool_decide (kind = k)) ["narrative-node"; "transcript-correction"; "caption"; "alignment"; "clip"; "link-group"] && parses value.

Definition path_segments (path : string) : list string := strings_Split "/" (strings_TrimPrefix path "/").

Definition parseRunHTTPBinding (value : string) : option (string * string * string * string) :=
  match path_segments value with
  | v :: projects :: project :: runs :: rest =>
      if negb (bool_decide (v = "v1") && bool_decide (projects = "projects") && bool_decide (runs = "runs")) || negb (parses project) then None
      else match rest with
      | [] => Some (project, "", "", "begin")
      | run :: rest =>
          if negb (parses run) then None
          else match rest with
          | [] => Some (project, run, "", "show")
          | [wait] => when (bool_decide (wait = "wait")) (project, run, "", "wait")
          | [turns; turn; action] =>
              when (bool_decide (turns = "turns") && parses turn &&
                (bool_decide (action = "resume") || bool_decide (action = "complete") || bool_decide (action = "cancel"))) (project, run, turn, action)
          | _ => None
          end
      end
  | _ => None
  end.

Definition optional_id (value : string) : option string := if IsZero value then None else Some value.

Definition parseEditDerivationHTTPContext (rest : list string) (derivation project : string) : option InvocationContext :=
  match rest with
  | [sequences; sequence; edit; last] =>
      when (bool_decide (sequences = "sequences") && bool_decide (edit = "edit") && bool_decide (last = derivation) && parses sequence)
        (mkContext (Some project) (Some sequence) None None)
  | _ => None
  end.

Definition parseEditCommandHTTPContext (name : string) (rest : list string) (project : string) : option InvocationContext :=
  match rest with
  | sequences :: sequence :: runs :: run :: turns :: turn :: edit :: collection :: more =>
      if negb (bool_decide (sequences = "sequences") && bool_decide (runs = "runs") && bool_decide (turns = "turns") && bool_decide (edit = "edit") &&
          parses sequence && parses run && parses turn) then None
      else
        let result := mkContext (Some project) (Some sequence) (Some run) (Some turn) in
        if bool_decide (name = "edit propose") then when (bool_decide (more = []) && bool_decide (collection = "proposals")) result
        else if bool_decide (name = "edit apply") then
          match more with
          | [proposal; apply] => when (bool_decide (collection = "proposals") && bool_decide (apply = "apply") && parses proposal) result
          | _ => None
          end
        else if bool_decide (name = "edit undo") then
          match more with
          | [transaction; undo] => when (bool_decide (collection = "transactions") && bool_decide (undo = "undo") && parses transaction) result
          | _ => None
          end
        else None
  | _ => None
  end.

(** [/runs/{run}/turns/{turn}/{collection}/{id}/{last}] *)
Definition run_scoped (rest : list string) (collection last project : string) (sequence : string -> option string) : option InvocationContext :=
  match rest with
  | [runs; run; turns; turn; kind; id; final] =>
      when (bool_decide (runs = "runs") && bool_decide (turns = "turns") && bool_decide (kind = collection) && bool_decide (final = last) &&
        parses run && parses turn && parses id) (mkContext (Some project) (sequence id) (Some run) (Some turn))
  | _ => None
  end.

(** [rest] are the segments behind the project's. *)
Definition command_context (name value : string) (rest : list string) (project : string) : option InvocationContext :=
  let result := context_of project in
  let named text := bool_decide (name = text) in
  if named "project show" then when (bool_decide (rest = [])) result
  else if named "asset list" then when (bool_decide (rest = ["assets"])) result
  else if named "asset inspect" then
    match rest with [assets; asset] => when (bool_decide (assets = "assets") && parses asset) result | _ => None end
  else if named "transcript read" then
    match rest with
    | [assets; asset; transcript] => when (bool_decide (assets = "assets") && bool_decide (transcript = "transcript") && parses asset) result
    | _ => None
    end
  else if named "asset frames" then run_scoped rest "assets" "frames" project (fun _ => None)
  else if named "sequence frames" then run_scoped rest "sequences" "frames" project Some
  else if named "export start" then run_scoped rest "sequences" "exports" project Some
  else if named "export show" then
    match rest with
    | [runs; run; turns; turn; exports; job] =>
        when (bool_decide (runs = "runs") && bool_decide (turns = "turns") && bool_decide (exports = "exports") && parses run && parses turn && parses job)
          (mkContext (Some project) None (Some run) (Some turn))
    | _ => None
    end
  else if named "export retry" || named "export cancel" then run_scoped rest "exports" (strings_TrimPrefix name "export ") project (fun _ => None)
  else if named "run begin" || named "run show" || named "run wait" || named "run resume" || named "run complete" || named "run cancel" then
    match parseRunHTTPBinding value with
    | Some (bound, run, turn, action) =>
        when (bool_decide (bound = project) && bool_decide (action = strings_TrimPrefix name "run "))
          (mkContext (Some project) None (optional_id run) (optional_id turn))
    | None => None
    end
  else if named "narrative show" then
    match rest with
    | [narratives; document; subtree] => when (bool_decide (narratives = "narratives") && bool_decide (subtree = "subtree") && parses document) result
    | _ => None
    end
  else if named "sequence show" then
    match rest with
    | [sequences; sequence; window] =>
        when (bool_decide (sequences = "sequences") && bool_decide (window = "window") && parses sequence) (mkContext (Some project) (Some sequence) None None)
    | _ => None
    end
  else if named "entity show" then
    match rest with [entities; kind; id] => when (bool_decide (entities = "entities") && validEditEntityID kind id) result | _ => None end
  else if named "edit show" then
    match rest with
    | [edit; proposals; proposal] => when (bool_decide (edit = "edit") && bool_decide (proposals = "proposals") && parses proposal) result
    | _ => None
    end
  else if named "edit history" then when (bool_decide (rest = ["edit"; "transactions"])) result
  else if named "edit derive-captions" then parseEditDerivationHTTPContext rest "caption-derivation" project
  else if named "edit derive-rough-cut" then parseEditDerivationHTTPContext rest "rough-cut-derivation" project
  else if named "edit propose" || named "edit apply" || named "edit undo" then parseEditCommandHTTPContext name rest project
  else None.

(** [None] when the path is not one of the command. *)
Definition commandHTTPContext (name value : string) : option InvocationContext :=
  match path_segments value with
  | v :: projects :: project :: rest =>
      if negb (bool_decide (v = "v1") && bool_decide (projects = "projects")) || negb (parses project) then None
      else command_context name value rest project
  | _ => None
  end.

Definition validCLIHTTPBinding (path : list string) (requestPath : string) : bool :=
  let name := strings_Join " " path in
  if bool_decide (name = "product status") then bool_decide (requestPath = "/v1/product/status")
  else if bool_decide (name = "project list") then bool_decide (requestPath = "/v1/projects")
  else if bool_decide (name = "activity list") then bool_decide (requestPath = "/v1/activity")
  else bool_decide (is_Some (commandHTTPContext name requestPath)).

Definition ChallengeHTTPBinding (path : list string) (requestPath : string) : bool := validCLIHTTPBinding path requestPath.

(** Required and present, and the one the path names *)
Definition context_given (required : bool) (value : option string) : bool :=
  negb (required && match value with None => true | Some id => IsZero id end).
Definition context_bound (required : bool) (bound value : option string) : bool :=
  negb required || match bound with None => false | Some _ => bool_decide (bound = value) end.

Definition validCommandContext (descriptor : Descriptor) (value : InvocationContext) (requestPath : string) : bool :=
  let need := de_AppState descriptor in
  if negb (context_given (as_Project need) (ctx_ProjectID value) && context_given (as_Sequence need) (ctx_SequenceID value) &&
      context_given (as_Run need) (ctx_RunID value) && context_given (as_Turn need) (ctx_TurnID value)) then false
  else if as_Project need || as_Sequence need || as_Run need || as_Turn need then
    match commandHTTPContext (strings_Join " " (de_Path descriptor)) requestPath with
    | None => false
    | Some bound =>
        context_bound (as_Project need) (ctx_ProjectID bound) (ctx_ProjectID value) &&
        context_bound (as_Sequence need) (ctx_SequenceID bound) (ctx_SequenceID value) &&
        context_bound (as_Run need) (ctx_RunID bound) (ctx_RunID value) && context_bound (as_Turn need) (ctx_TurnID bound) (ctx_TurnID value)
    end
  else true.
