(* ===== verification/GoWire.v ===== *)
(** What the authorization service uses of Go's standard library: base64 texts
    ([encoding/base64]), query strings ([net/url]), [json.Marshal] of a value
    whose members are listed in order, and [time.RFC3339Nano] in UTC. *)
From stdpp Require Import base list strings gmap sorting.
From Stdlib Require Import ZArith Lia Ascii.
From S2P Require Import Prelude GoText Exact Identity Canonical Project Authority CommandRegistry.
Open Scope Z_scope.

(** ** base64 *)

Definition url_alphabet : bytes := bytes_of "ABCDEFGHIJKLMNOPQRSTUVWXYZabcdefghijklmnopqrstuvwxyz0123456789-_".
Definition std_alphabet : bytes := bytes_of "ABCDEFGHIJKLMNOPQRSTUVWXYZabcdefghijklmnopqrstuvwxyz0123456789+/".
Definition letter (alphabet : bytes) (v : Z) : ascii := default "A"%char (alphabet !! Z.to_nat v).

(** The six-bit values of groups of three bytes *)
Fixpoint sextets (l : list Z) : list Z :=
  match l with
  | a :: b :: c :: rest => a / 4 :: (a mod 4) * 16 + b / 16 :: (b mod 16) * 4 + c / 64 :: c mod 64 :: sextets rest
  | [a; b] => [a / 4; (a mod 4) * 16 + b / 16; (b mod 16) * 4]
  | [a] => [a / 4; (a mod 4) * 16]
  | [] => []
  end.

Definition padding (n : nat) : bytes := match (n mod 3)%nat with 1%nat => bytes_of "==" | 2%nat => bytes_of "=" | _ => [] end.

(** [base64.RawURLEncoding.EncodeToString] and [base64.StdEncoding.EncodeToString] *)
Definition base64_RawURL_Encode (l : bytes) : string := string_of (map (letter url_alphabet) (sextets (map byte_val l))).
Definition base64_Std_Encode (l : bytes) : string :=
  string_of (map (letter std_alphabet) (sextets (map byte_val l)) ++ padding (length l)).

Fixpoint position_from (i : Z) (alphabet : bytes) (a : ascii) : option Z :=
  match alphabet with [] => None | x :: rest => if Ascii.eqb x a then Some i else position_from (i + 1) rest a end.

(** Groups of four characters; a last one of two or three gives one or two
    bytes, whatever its unused bits. *)
Fixpoint unsextets (l : list Z) : option (list Z) :=
  match l with
  | a :: b :: c :: d :: rest => tail ← unsextets rest; Some (a * 4 + b / 16 :: (b mod 16) * 16 + c / 4 :: (c mod 4) * 64 + d :: tail)
  | [a; b; c] => Some [a * 4 + b / 16; (b mod 16) * 16 + c / 4]
  | [a; b] => Some [a * 4 + b / 16]
  | [_] => None
  | [] => Some []
  end.

(** [base64.RawURLEncoding.DecodeString]: line breaks are skipped. *)
Definition is_break (a : ascii) : bool := (byte_val a =? 10) || (byte_val a =? 13).
Definition base64_RawURL_Decode (text : string) : option bytes :=
  values ← mapM (position_from 0 url_alphabet) (List.filter (fun a => negb (is_break a)) (bytes_of text));
  result ← unsextets values; Some (map byte_of result).

(** ** Query strings *)

Definition hex_value (a : ascii) : option Z :=
  let v := byte_val a in
  if (48 <=? v) && (v <=? 57) then Some (v - 48)
  else if (97 <=? v) && (v <=? 102) then Some (v - 87)
  else if (65 <=? v) && (v <=? 70) then Some (v - 55)
  else None.
Definition upper_hex (d : Z) : ascii := if d <? 10 then byte_of (48 + d) else byte_of (55 + d).

(** [url.QueryUnescape] *)
Fixpoint query_unescape (l : bytes) : option bytes :=
  match l with
  | [] => Some []
  | a :: rest =>
      if byte_val a =? 37 then
        match rest with
        | h :: d :: rest => hi ← hex_value h; lo ← hex_value d; tail ← query_unescape rest; Some (byte_of (hi * 16 + lo) :: tail)
        | _ => None
        end
      else tail ← query_unescape rest; Some ((if byte_val a =? 43 then byte_of 32 else a) :: tail)
  end.

Definition is_plain (a : ascii) : bool := is_lower a || is_upper a || is_digit a || existsb (Z.eqb (byte_val a)) [45; 95; 46; 126].

(** [url.QueryEscape] *)
Definition escape_byte (a : ascii) : bytes :=
  if is_plain a then [a] else if byte_val a =? 32 then [byte_of 43]
  else [byte_of 37; upper_hex (byte_val a / 16); upper_hex (byte_val a mod 16)].
Definition query_escape (l : bytes) : bytes := concat (map escape_byte l).

(** [strings.Cut(part, "=")] *)
Fixpoint cut_equals (l : bytes) : bytes * bytes :=
  match l with
  | [] => ([], [])
  | a :: rest => if byte_val a =? 61 then ([], rest) else let '(first, second) := cut_equals rest in (a :: first, second)
  end.

(** One part between ampersands: nothing, an entry, or an error *)
Definition query_part (part : bytes) : option (option (string * string)) :=
  if existsb (fun a => byte_val a =? 59) part then None
  else if bool_decide (part = []) then Some None
  else
    let '(name, value) := cut_equals part in
    name ← query_unescape name; value ← query_unescape value; Some (Some (string_of name, string_of value)).

(** [url.ParseQuery]: every part is read even after an error, which is then
    returned in place of the values. *)
Definition add_value (values : gmap string (list string)) (entry : string * string) : gmap string (list string) :=
  <[entry.1 := default [] (values !! entry.1) ++ [entry.2]]> values.
Definition ParseQuery (query : string) : option (gmap string (list string)) :=
  entries ← mapM query_part (map bytes_of (strings_Split "&" query));
  Some (foldl add_value ∅ (omap id entries)).

Definition query_entry (name value : string) : bytes := query_escape (bytes_of name) ++ byte_of 61 :: query_escape (bytes_of value).
(** [Values.Encode]: sorted by name *)
Definition sorted_entries (values : gmap string (list string)) : list (string * string) :=
  concat (map (fun name => map (pair name) (default [] (values !! name))) (sort_by id (map fst (map_to_list values)))).
Definition Values_Encode (values : gmap string (list string)) : string :=
  strings_Join "&" (map (fun entry => string_of (query_entry entry.1 entry.2)) (sorted_entries values)).

(** ** json.Marshal *)

Definition marshal_rune (r : Z) : bytes :=
  if r =? 34 then [byte_of 92; byte_of 34]
  else if r =? 92 then bytes_of "\\"
  else if r =? 8 then bytes_of "\b"
  else if r =? 12 then bytes_of "\f"
  else if r =? 10 then bytes_of "\n"
  else if r =? 13 then bytes_of "\r"
  else if r =? 9 then bytes_of "\t"
  else if (r <? 32) || (r =? 60) || (r =? 62) || (r =? 38) then bytes_of "\u00" ++ [hex_digit (r / 16); hex_digit (r mod 16)]
  else if r =? 8232 then bytes_of "\u2028"
  else if r =? 8233 then bytes_of "\u2029"
  else encode_rune r.

(** A byte that is not part of a rune is written as an escape. *)
Definition marshal_chunk (c : Z * bytes) : bytes :=
  if (c.1 =? 65533) && (length c.2 =? 1)%nat then bytes_of "\ufffd" else marshal_rune c.1.
Definition marshal_string (s : string) : bytes := quote :: concat (map marshal_chunk (runes (bytes_of s))) ++ [quote].

Fixpoint commas (items : list bytes) : bytes :=
  match items with [] => [] | [item] => item | item :: rest => item ++ ","%char :: commas rest end.

Fixpoint json_Marshal (value : jvalue) : bytes :=
  match value with
  | JNull => bytes_of "null"
  | JBool b => bytes_of (if b then "true" else "false")
  | JString s => marshal_string s
  | JNumber text => bytes_of text
  | JArray items => "["%char :: commas (map json_Marshal items) ++ ["]"%char]
  | JObject entries => "{"%char :: commas (map (fun e => marshal_string e.1 ++ ":"%char :: json_Marshal e.2) entries) ++ ["}"%char]
  end.

(** A member with [omitempty] *)
Definition omitted {A} (name : string) (value : option A) (f : A -> jvalue) : list (string * jvalue) :=
  match value with Some a => [(name, f a)] | None => [] end.
Definition omit_text (name value : string) : list (string * jvalue) := if bool_decide (value = "") then [] else [(name, JString value)].

(** ** Instants *)

(** [d] digits *)
Fixpoint digits (d : nat) (n : Z) : bytes := match d with O => [] | S d => digits d (n / 10) ++ [digit_of (n mod 10)] end.

(** The civil date of a day counted from 1970-01-01 *)
Definition civil (day : Z) : Z * Z * Z :=
  let z := day + 719468 in
  let era := z / 146097 in
  let doe := z mod 146097 in
  let yoe := (doe - doe / 1460 + doe / 36524 - doe / 146096) / 365 in
  let doy := doe - (365 * yoe + yoe / 4 - yoe / 100) in
  let mp := (5 * doy + 2) / 153 in
  let month := if mp <? 10 then mp + 3 else mp - 9 in
  (yoe + era * 400 + (if month <=? 2 then 1 else 0), month, doy - (153 * mp + 2) / 5 + 1).

Definition year_text (year : Z) : bytes :=
  if year <? 0 then "-"%char :: digits 4 (- year) else if 9999 <? year then bytes_of (format_uint year) else digits 4 year.

Definition second_text (second : Z) : bytes :=
  let '(year, month, day) := civil (second / 86400) in
  let clock := second mod 86400 in
  year_text year ++ "-"%char :: digits 2 month ++ "-"%char :: digits 2 day ++ "T"%char ::
  digits 2 (clock / 3600) ++ ":"%char :: digits 2 (clock / 60 mod 60) ++ ":"%char :: digits 2 (clock mod 60).

(** The fraction loses its trailing zeros. *)
Fixpoint trim_zeros (l : bytes) : bytes :=
  match l with [] => [] | a :: rest => match trim_zeros rest with [] => if Ascii.eqb a "0" then [] else [a] | rest => a :: rest end end.
Definition fraction_text (nanos : Z) : bytes := match trim_zeros (digits 9 nanos) with [] => [] | rest => "."%char :: rest end.

(** [at.UTC().Format(time.RFC3339Nano)] *)
Definition FormatRFC3339Nano (at_ : Z) : string :=
  string_of (second_text (at_ / 10 ^ 9) ++ fraction_text (at_ mod 10 ^ 9) ++ ["Z"%char]).

(** ** Texts read back: base64 *)

Lemma sextets_ind (P : list Z -> Prop) : P [] -> (forall a, P [a]) -> (forall a b, P [a; b]) -> (forall a b c l, P l -> P (a :: b :: c :: l)) ->
  forall l, P l.
Proof. intros H0 H1 H2 H3. fix IH 1. intros [|a [|b [|c l]]]; [exact H0|apply H1|apply H2|apply H3, IH]. Qed.

Lemma unsextets_sextets l : Forall (fun v => 0 <= v < 256) l -> unsextets (sextets l) = Some l.
Proof.
  induction l as [|a|a b|a b c l IH] using sextets_ind; intros Hl; [done| | |];
    repeat match goal with Hx : Forall _ (_ :: _) |- _ => apply Forall_cons in Hx as [? Hx] end; cbn.
  - f_equal. f_equal. Z.to_euclidean_division_equations; lia.
  - f_equal. f_equal; [|f_equal]; Z.to_euclidean_division_equations; lia.
  - rewrite IH by done. cbn. f_equal. f_equal; [|f_equal; [|f_equal]]; Z.to_euclidean_division_equations; lia.
Qed.

Lemma sextets_range l : Forall (fun v => 0 <= v < 256) l -> Forall (fun v => 0 <= v < 64) (sextets l).
Proof.
  induction l as [|a|a b|a b c l IH] using sextets_ind; intros Hl; cbn; [constructor| | |];
    repeat match goal with Hx : Forall _ (_ :: _) |- _ => apply Forall_cons in Hx as [? Hx] end;
    repeat (apply Forall_cons; split; [Z.to_euclidean_division_equations; lia|]); auto.
Qed.

(** A letter stands at its place in the alphabet and is no line break. *)
Lemma letter_position v : 0 <= v < 64 -> position_from 0 url_alphabet (letter url_alphabet v) = Some v /\ is_break (letter url_alphabet v) = false.
Proof.
  intros Hv. assert (forallb (fun n => let v := Z.of_nat n in bool_decide (position_from 0 url_alphabet (letter url_alphabet v) = Some v) &&
    negb (is_break (letter url_alphabet v))) (seq 0 64) = true) as Hall by (by vm_compute).
  rewrite forallb_forall in Hall. specialize (Hall (Z.to_nat v)). rewrite in_seq in Hall. specialize (Hall ltac:(lia)). cbn zeta in Hall.
  rewrite Z2Nat.id in Hall by lia. apply andb_true_iff in Hall as [H1%bool_decide_eq_true H2%negb_true_iff]. done.
Qed.

Lemma byte_values l : Forall (fun v => 0 <= v < 256) (map byte_val l).
Proof. apply Forall_forall. intros v (a & -> & _)%list_elem_of_fmap. apply byte_val_range. Qed.

Lemma base64_roundtrip l : base64_RawURL_Decode (base64_RawURL_Encode l) = Some l.
Proof.
  unfold base64_RawURL_Decode, base64_RawURL_Encode. rewrite bytes_of_string_of. pose proof (sextets_range _ (byte_values l)) as Hr.
  assert (List.filter (fun a => negb (is_break a)) (map (letter url_alphabet) (sextets (map byte_val l))) = map (letter url_alphabet) (sextets (map byte_val l))
    /\ mapM (position_from 0 url_alphabet) (map (letter url_alphabet) (sextets (map byte_val l))) = Some (sextets (map byte_val l))) as [-> ->].
  { split; [|apply mapM_Some_2]; induction Hr as [|v rest Hv Hr IH]; cbn [map List.filter]; [done| |constructor|constructor; [|done]];
      destruct (letter_position v Hv) as [Hp Hb]; [|done]. rewrite Hb. cbn [negb]. by rewrite IH. }
  cbn. rewrite unsextets_sextets by apply byte_values. cbn. f_equal. rewrite map_map. rewrite <- (map_id l) at 2. apply map_ext. intros a. apply byte_of_val.
Qed.

(** ** Texts read back: queries *)

Lemma upper_hex_value d : 0 <= d < 16 -> hex_value (upper_hex d) = Some d.
Proof.
  intros Hd. assert (forallb (fun n => bool_decide (hex_value (upper_hex (Z.of_nat n)) = Some (Z.of_nat n))) (seq 0 16) = true) as Hall by (by vm_compute).
  rewrite forallb_forall in Hall. specialize (Hall (Z.to_nat d)). rewrite in_seq in Hall. specialize (Hall ltac:(lia)).
  rewrite Z2Nat.id in Hall by lia. by apply bool_decide_eq_true in Hall.
Qed.

Lemma plain_byte a : is_plain a = true -> (byte_val a =? 37) = false /\ (byte_val a =? 43) = false.
Proof. destruct a as [[] [] [] [] [] [] [] []]; vm_compute; intros; by split. Qed.

Lemma query_unescape_escape l : query_unescape (query_escape l) = Some l.
Proof.
  induction l as [|a l IH]; [done|]. unfold query_escape in *. cbn [map concat].
  assert (escape_byte a = if is_plain a then [a] else if byte_val a =? 32 then [byte_of 43]
    else [byte_of 37; upper_hex (byte_val a / 16); upper_hex (byte_val a mod 16)]) as -> by done. destruct (is_plain a) eqn:Ep.
  - destruct (plain_byte a Ep) as [H1 H2]. cbn [app query_unescape]. rewrite H1, H2. by rewrite IH.
  - destruct (byte_val a =? 32) eqn:Es; cbn [app query_unescape].
    + change (byte_val (byte_of 43) =? 37) with false. cbn iota. rewrite IH. cbn. apply Z.eqb_eq in Es. do 2 f_equal. rewrite <- (byte_of_val a), Es. done.
    + change (byte_val (byte_of 37) =? 37) with true. cbn iota. pose proof (byte_val_range a) as Hr.
      rewrite !upper_hex_value by (Z.to_euclidean_division_equations; lia). cbn. rewrite IH. cbn. do 2 f_equal.
      rewrite <- (byte_of_val a) at 3. f_equal. Z.to_euclidean_division_equations; lia.
Qed.

(** An escaped text has no separator. *)
Definition is_separator (a : ascii) : bool := existsb (Z.eqb (byte_val a)) [38; 59; 61].
Lemma escaped_clean l : forallb (fun a => negb (is_separator a)) (query_escape l) = true.
Proof.
  induction l as [|a l IH]; [done|]. unfold query_escape in *. cbn [map concat]. rewrite forallb_app, IH, andb_true_r.
  destruct a as [[] [] [] [] [] [] [] []]; by vm_compute.
Qed.

Lemma cut_equals_clean l rest : forallb (fun a => negb (is_separator a)) l = true -> cut_equals (l ++ byte_of 61 :: rest) = (l, rest).
Proof.
  induction l as [|a l IH]; cbn [app forallb cut_equals]; [done|]. intros [Ha Hl]%andb_true_iff. rewrite IH by done. destruct (byte_val a =? 61) eqn:E; [|done].
  unfold is_separator in Ha. cbn in Ha. by rewrite E, !orb_true_r in Ha.
Qed.

Lemma query_part_entry name value : query_part (query_entry name value) = Some (Some (name, value)).
Proof.
  unfold query_part, query_entry. pose proof (escaped_clean (bytes_of name)) as Hn. pose proof (escaped_clean (bytes_of value)) as Hv.
  assert (existsb (fun a => byte_val a =? 59) (query_escape (bytes_of name) ++ byte_of 61 :: query_escape (bytes_of value)) = false) as ->.
  { apply not_true_iff_false. rewrite existsb_exists. intros (a & Hi & Ha). rewrite forallb_forall in Hn, Hv. apply in_app_or in Hi as [Hi|[<-|Hi]]; [|done|].
    - apply Hn in Hi. unfold is_separator in Hi. cbn in Hi. by rewrite Ha, orb_true_r in Hi.
    - apply Hv in Hi. unfold is_separator in Hi. cbn in Hi. by rewrite Ha, orb_true_r in Hi. }
  rewrite bool_decide_eq_false_2 by (by destruct (query_escape (bytes_of name))). rewrite cut_equals_clean by done.
  rewrite !query_unescape_escape. cbn. by rewrite !string_of_bytes_of.
Qed.

(** Joining parts without the separator and splitting again *)
Lemma split_bytes_clean sep l rest : forallb (fun a => negb (Ascii.eqb a sep)) l = true ->
  split_bytes sep (l ++ sep :: rest) = (l, (split_bytes sep rest).1 :: (split_bytes sep rest).2).
Proof.
  induction l as [|a l IH]; cbn; intros Hl.
  - rewrite Ascii.eqb_refl. by destruct (split_bytes sep rest).
  - apply andb_true_iff in Hl as [Ha Hl]. rewrite IH by done. cbn. apply negb_true_iff in Ha. by rewrite Ha.
Qed.

Lemma split_bytes_last sep l : forallb (fun a => negb (Ascii.eqb a sep)) l = true -> split_bytes sep l = (l, []).
Proof. induction l as [|a l IH]; cbn; [done|]. intros [Ha%negb_true_iff Hl]%andb_true_iff. by rewrite IH, Ha. Qed.

Lemma split_join sep (parts : list bytes) : parts <> [] -> Forall (fun l => forallb (fun a => negb (Ascii.eqb a sep)) l = true) parts ->
  map bytes_of (strings_Split sep (strings_Join (string_of [sep]) (map string_of parts))) = parts.
Proof.
  intros Hne Hp. unfold strings_Split.
  assert (forall l rest, Forall (fun l => forallb (fun a => negb (Ascii.eqb a sep)) l = true) (l :: rest) ->
    split_bytes sep (bytes_of (strings_Join (string_of [sep]) (map string_of (l :: rest)))) = (l, rest)) as Hs.
  { intros l rest. revert l. induction rest as [|l' rest IH]; intros l Hl; apply Forall_cons in Hl as [Hl Hr].
    - cbn. rewrite bytes_of_string_of. by apply split_bytes_last.
    - cbn [map strings_Join] in *. rewrite !bytes_of_app, !bytes_of_string_of. cbn [app]. rewrite split_bytes_clean by done. by rewrite IH. }
  destruct parts as [|l rest]; [done|]. rewrite Hs by done. cbn [map]. rewrite bytes_of_string_of. f_equal. rewrite map_map.
  rewrite <- (map_id rest) at 2. apply map_ext. intros x. apply bytes_of_string_of.
Qed.

Lemma entry_clean name value : forallb (fun a => negb (Ascii.eqb a "&"%char)) (query_entry name value) = true.
Proof.
  unfold query_entry. rewrite forallb_app. cbn [forallb]. assert (forall l, forallb (fun a => negb (Ascii.eqb a "&"%char)) (query_escape l) = true) as He.
  { intros l. pose proof (escaped_clean l) as Hc. rewrite forallb_forall in Hc |- *. intros a Ha. apply Hc in Ha.
    destruct (Ascii.eqb_spec a "&"%char) as [->|]; [by vm_compute in Ha|done]. }
  by rewrite !He.
Qed.

(** ** Queries: grouping by name *)

Lemma add_values_lookup entries values k :
  foldl add_value values entries !! k =
  let found := map snd (List.filter (fun e : string * string => bool_decide (e.1 = k)) entries) in
  match found with [] => values !! k | _ => Some (default [] (values !! k) ++ found) end.
Proof.
  revert values. induction entries as [|[n v] entries IH]; intros values; [done|]. cbn [foldl List.filter fst]. rewrite IH. cbn zeta. unfold add_value. cbn [fst snd].
  case_bool_decide as E.
  - subst n. rewrite lookup_insert, decide_True by done. cbn [map snd]. destruct (map snd _); cbn; [done|]. by rewrite <- app_assoc.
  - rewrite lookup_insert_ne by done. done.
Qed.

Definition values_ok (values : gmap string (list string)) : Prop := forall k, values !! k <> Some [].

Lemma filter_group (k : string) names (values : gmap string (list string)) : NoDup names ->
  map snd (List.filter (fun e : string * string => bool_decide (e.1 = k)) (concat (map (fun n => map (pair n) (default [] (values !! n))) names))) =
  if bool_decide (k ∈ names) then default [] (values !! k) else [].
Proof.
  induction names as [|n names IH]; intros Hn; [done|]. apply NoDup_cons in Hn as [Hni Hn]. cbn [map concat]. rewrite List.filter_app, map_app, IH by done.
  assert (forall vs : list string, map snd (List.filter (fun e : string * string => bool_decide (e.1 = k)) (map (pair n) vs)) = if bool_decide (n = k) then vs else []) as Hg.
  { induction vs as [|v vs IHv]; [by destruct (bool_decide (n = k))|]. cbn [map List.filter fst]. destruct (bool_decide (n = k)) eqn:E; cbn; [by rewrite IHv|done]. }
  rewrite Hg. destruct (decide (n = k)) as [->|Hne].
  - rewrite (bool_decide_eq_true_2 (k = k)) by done. rewrite (bool_decide_eq_false_2 (k ∈ names)) by done.
    rewrite (bool_decide_eq_true_2 (k ∈ k :: names)) by set_solver. apply app_nil_r.
  - rewrite (bool_decide_eq_false_2 (n = k)) by done. cbn. destruct (decide (k ∈ names)).
    + rewrite (bool_decide_eq_true_2 (k ∈ names)), (bool_decide_eq_true_2 (k ∈ n :: names)) by set_solver. done.
    + rewrite (bool_decide_eq_false_2 (k ∈ names)), (bool_decide_eq_false_2 (k ∈ n :: names)) by set_solver. done.
Qed.

Lemma regroup values : values_ok values -> foldl add_value ∅ (sorted_entries values) = values.
Proof.
  intros Hok. apply map_eq. intros k. rewrite add_values_lookup. cbn zeta. unfold sorted_entries. rewrite filter_group.
  - rewrite lookup_empty. cbn [default from_option app]. destruct (values !! k) as [vs|] eqn:E.
    + rewrite bool_decide_eq_true_2.
      * cbn. destruct vs; [by destruct (Hok k)|done].
      * rewrite (sort_by_perm id). apply list_elem_of_fmap. exists (k, vs). split; [done|]. by apply elem_of_map_to_list.
    + by destruct (bool_decide _).
  - rewrite (sort_by_perm id). apply NoDup_fst_map_to_list.
Qed.

Lemma parsed_ok q values : ParseQuery q = Some values -> values_ok values.
Proof.
  unfold ParseQuery. destruct (mapM query_part _) as [entries|]; [|discriminate]. cbn. intros [= <-] k. rewrite add_values_lookup. cbn zeta.
  rewrite lookup_empty. destruct (map snd _); [done|]. by intros [= ?].
Qed.

Lemma parse_encode values : values_ok values -> ParseQuery (Values_Encode values) = Some values.
Proof.
  intros Hok. unfold ParseQuery, Values_Encode. destruct (sorted_entries values) as [|e es] eqn:Ee.
  - cbn. rewrite <- (regroup values Hok), Ee. done.
  - rewrite <- Ee, <- (map_map (fun entry => query_entry entry.1 entry.2) string_of).
    change (strings_Join "&") with (strings_Join (string_of ["&"%char])). rewrite (split_join "&"%char (map (fun entry => query_entry entry.1 entry.2) (sorted_entries values))).
    + rewrite (mapM_Some_2 _ _ (map Some (sorted_entries values))).
      * cbn. f_equal. rewrite <- (regroup values Hok) at 2. f_equal. clear. induction (sorted_entries values) as [|x l IH]; cbn; [done|]. by f_equal.
      * clear. induction (sorted_entries values) as [|[n v] l IH]; cbn [map]; constructor; [apply query_part_entry|done].
    + by rewrite Ee.
    + apply Forall_forall. intros x ([n v] & -> & _)%list_elem_of_fmap. apply entry_clean.
Qed.
