(* ===== verification/CliGrants.v ===== *)
(** CLI grants and scope upgrades: [product/application/authorization.go], and
    the authorization tables of the API's database with the operations on them
    ([apps/api/repository/authorization.go], [cli_authorization.go],
    [cli_scope_upgrade.go], [invocation_policy.go]).

    A scope list in a JSON column is the list: it was marshalled from one and is
    unmarshalled to it again.  An instant in a text column is the instant: no
    modelled statement compares them. *)
From stdpp Require Import base list strings gmap sorting.
From Stdlib Require Import ZArith Lia Ascii.
From S2P Require Import Prelude GoText Exact Identity Canonical EditModel Timeline EditState EditValidate Project Database Authority.
Open Scope Z_scope.

Inductive auth_error :=
| ErrCLIGrantNotFound | ErrCLIGrantNotPending | ErrCLIGrantNotActive | ErrCLIUpgradeNotFound | ErrCLIUpgradeNotPending | ErrCLIUpgradeInvalid
| ErrAuthInvalid | ErrAuthIdentity | ErrAuthStored | ErrAuthStatement.

(** ** Scopes *)

Definition scope_char (a : ascii) : bool := is_lower a || is_digit a || (byte_val a =? 45).
(** [[a-z][a-z0-9-]*] *)
Definition scope_word (l : bytes) : bool := match l with a :: rest => is_lower a && forallb scope_char rest | [] => false end.

(** [cliScopePattern]: a word, a colon and a word, which has no colon itself *)
Fixpoint split_colon (l : bytes) : option (bytes * bytes) :=
  match l with
  | [] => None
  | a :: rest => if byte_val a =? 58 then Some ([], rest) else '(first, second) ← split_colon rest; Some (a :: first, second)
  end.
Definition cliScopePattern (scope : string) : bool :=
  match split_colon (bytes_of scope) with Some (first, second) => scope_word first && scope_word second | None => false end.

(** Drop a scope equal to the last one kept. *)
Fixpoint dedupe (last : option string) (scopes : list string) : list string :=
  match scopes with
  | [] => []
  | scope :: rest => if bool_decide (last = Some scope) then dedupe last rest else scope :: dedupe (Some scope) rest
  end.

Definition NormalizeCLIScopes (scopes : list string) : outcome auth_error (list string) :=
  if (length scopes =? 0)%nat || (64 <? length scopes)%nat then Fail ErrCLIUpgradeInvalid
  else
    let sorted := sort_by id scopes in
    if forallb cliScopePattern sorted then Ok (dedupe None sorted) else Fail ErrCLIUpgradeInvalid.

(** The bytes [json.Marshal] writes: the scopes need no escapes. *)
Definition scopes_json (scopes : list string) : bytes :=
  lit "{'domain':'open-cut/cli-grant-scopes','payload':{'scopes':[" ++
  bytes_of (match scopes with
    | [] => ""
    | first :: rest => foldl (fun text scope => text +:+ "," +:+ string_of (quote :: bytes_of scope ++ [quote])) (string_of (quote :: bytes_of first ++ [quote])) rest
    end) ++
  lit "]},'schema':'open-cut/cli-grant-scopes/v1'}".

Definition CLIScopeDigest `{Platform} (scopes : list string) : outcome auth_error string :=
  normalized ← NormalizeCLIScopes scopes; Ok (sha256_text (scopes_json normalized)).

(** [slices.BinarySearch]: [n] bounds the number of halvings. *)
Fixpoint binary_search_from (n : nat) (l : list string) (target : string) (i j : nat) : nat :=
  match n with
  | O => i
  | S n =>
      if (i <? j)%nat then
        let h := Nat.div2 (i + j) in
        if str_ltb (default "" (l !! h)) target then binary_search_from n l target (S h) j else binary_search_from n l target i h
      else i
  end.
Definition BinarySearch (l : list string) (target : string) : bool :=
  let i := binary_search_from (length l) l target 0 (length l) in
  (i <? length l)%nat && bool_decide (l !! i = Some target).

Definition scopeSetContains (superset subset : list string) : bool := forallb (BinarySearch superset) subset.

(** ** Grants *)

Inductive CLIGrantStatus := CLIGrantPending | CLIGrantActive | CLIGrantDenied | CLIGrantRevoked | CLIGrantExpired | CLIGrantOther (text : string).
#[export] Instance CLIGrantStatus_eq_dec : EqDecision CLIGrantStatus.
Proof. solve_decision. Defined.

Record CLIGrant := mkGrant {
  cg_ID : string; cg_InstallationID : string; cg_AgentID : string; cg_PublicKey : string; cg_Fingerprint : string; cg_Scopes : list string;
  cg_Revision : Z; cg_ScopeDigest : string; cg_Status : CLIGrantStatus; cg_CreatedAt : Z; cg_ExpiresAt : Z; cg_DecidedAt : option Z;
  cg_RevokedAt : option Z }.

Inductive CLIGrantScopeUpgradeStatus := UpgradePending | UpgradeApproved | UpgradeDenied | UpgradeExpired | UpgradeSuperseded.
#[export] Instance CLIGrantScopeUpgradeStatus_eq_dec : EqDecision CLIGrantScopeUpgradeStatus.
Proof. solve_decision. Defined.

Record CLIGrantScopeUpgrade := mkUpgrade {
  up_ID : string; up_GrantID : string; up_FromRevision : Z; up_RequestedScopes : list string; up_RequestedScopeDigest : string;
  up_Status : CLIGrantScopeUpgradeStatus; up_CreatedAt : Z; up_ExpiresAt : Z; up_DecidedAt : option Z }.

Record PendingCLIGrant := mkPendingGrant {
  pg_ID : string; pg_InstallationID : string; pg_AgentID : string; pg_PublicKey : string; pg_Fingerprint : string; pg_Scopes : list string;
  pg_CreatedAt : Z; pg_ExpiresAt : Z }.
Record PendingCLIGrantScopeUpgrade := mkPendingUpgrade {
  pu_ID : string; pu_GrantID : string; pu_FromRevision : Z; pu_RequestedScopes : list string; pu_CreatedAt : Z; pu_ExpiresAt : Z }.

Record AuthorizationAudit := mkAudit {
  aa_ID : string; aa_InstallationID : string; aa_PrincipalKind : AuthoritySurface; aa_PrincipalID : string; aa_Action : string; aa_Outcome : string;
  aa_RequestDigest : string; aa_OccurredAt : Z }.

Definition validatePendingCLIGrant (pending : PendingCLIGrant) : outcome auth_error unit :=
  _ ← guard_or ErrAuthIdentity (is_ok (ParseID (pg_ID pending)));
  _ ← guard_or ErrAuthIdentity (is_ok (ParseRequestID (pg_InstallationID pending)));
  _ ← guard_or ErrAuthInvalid (negb (IsZero (pg_AgentID pending)) && negb (bool_decide (pg_PublicKey pending = "")) &&
        negb (bool_decide (pg_Fingerprint pending = "")) && negb (length (pg_Scopes pending) =? 0)%nat && (pg_CreatedAt pending <? pg_ExpiresAt pending));
  _ ← NormalizeCLIScopes (pg_Scopes pending);
  Ok tt.

Definition validatePendingCLIGrantScopeUpgrade (pending : PendingCLIGrantScopeUpgrade) : outcome auth_error (list string) :=
  _ ← guard_or ErrAuthIdentity (is_ok (ParseID (pu_ID pending)));
  _ ← guard_or ErrAuthIdentity (is_ok (ParseID (pu_GrantID pending)));
  _ ← guard_or ErrCLIUpgradeInvalid ((1 <=? pu_FromRevision pending) && (pu_CreatedAt pending <? pu_ExpiresAt pending));
  NormalizeCLIScopes (pu_RequestedScopes pending).

(** ** The tables *)

Record grant_row := mkGrantRow {
  gr_installation_id : string; gr_agent_id : string; gr_public_key : string; gr_public_key_fingerprint : string; gr_scopes_json : list string;
  gr_status : CLIGrantStatus; gr_created_at : Z; gr_expires_at : Z; gr_decided_at : option Z; gr_revoked_at : option Z; gr_revision : Z }.
Record upgrade_row := mkUpgradeRow {
  ur_grant_id : string; ur_from_revision : Z; ur_requested_scopes_json : list string; ur_status : CLIGrantScopeUpgradeStatus; ur_created_at : Z;
  ur_expires_at : Z; ur_decided_at : option Z }.

Record auth_tables := mkAuthTables {
  at_local_creators : option string; at_agent_principals : gset string; at_installation_grants : gmap string grant_row;
  at_scope_upgrades : gmap string upgrade_row; at_authorization_audit : gmap string AuthorizationAudit;
  at_cli_invocation_settings : option InvocationPolicySettings }.

Definition with_agents f t := mkAuthTables (at_local_creators t) (f (at_agent_principals t)) (at_installation_grants t) (at_scope_upgrades t)
  (at_authorization_audit t) (at_cli_invocation_settings t).
Definition with_grants f t := mkAuthTables (at_local_creators t) (at_agent_principals t) (f (at_installation_grants t)) (at_scope_upgrades t)
  (at_authorization_audit t) (at_cli_invocation_settings t).
Definition with_upgrades f t := mkAuthTables (at_local_creators t) (at_agent_principals t) (at_installation_grants t) (f (at_scope_upgrades t))
  (at_authorization_audit t) (at_cli_invocation_settings t).
Definition with_audit f t := mkAuthTables (at_local_creators t) (at_agent_principals t) (at_installation_grants t) (at_scope_upgrades t)
  (f (at_authorization_audit t)) (at_cli_invocation_settings t).
Definition with_creator c t := mkAuthTables c (at_agent_principals t) (at_installation_grants t) (at_scope_upgrades t)
  (at_authorization_audit t) (at_cli_invocation_settings t).

(** What the engine refuses, by statement and tables *)
Class AuthSQLite := { auth_refuses : string -> auth_tables -> bool }.

Definition AuthTx : Type -> Type := ST auth_tables auth_error.

Definition of_outcome {A} (r : outcome auth_error A) : AuthTx A := fun t =>
  match r with Ok a => Ok (a, t) | Fail e => Fail e | Panic => Panic end.

Section tables.
Context `{Platform} `{AuthSQLite}.

Definition statement (name : string) (f : auth_tables -> outcome auth_error auth_tables) : AuthTx unit := fun t =>
  if auth_refuses name t then Fail ErrAuthStatement
  else match f t with Ok t' => Ok (tt, t') | Fail e => Fail e | Panic => Panic end.

(** A query: its rows, or the engine's error *)
Definition query {A} (name : string) (f : auth_tables -> outcome auth_error A) (t : auth_tables) : outcome auth_error A :=
  if auth_refuses name t then Fail ErrAuthStatement else f t.
Definition reads_tables {A} (f : auth_tables -> outcome auth_error A) : AuthTx A := fun t => of_outcome (f t) t.

Definition auth_transaction {A} (body : AuthTx A) (t : auth_tables) : outcome auth_error A * auth_tables :=
  match body t with
  | Ok (a, t') => if auth_refuses "COMMIT" t' then (Fail ErrAuthStatement, t) else (Ok a, t')
  | Fail e => (Fail e, t)
  | Panic => (Panic, t)
  end.

(** ** Reading *)

Definition scanCLIGrant (id : string) (row : grant_row) : outcome auth_error CLIGrant :=
  agent ← or_fail ErrAuthStored (ParseID (gr_agent_id row));
  _ ← guard_or ErrCLIUpgradeInvalid (is_ok (NewRevision (gr_revision row)) && (1 <=? gr_revision row));
  scopes ← NormalizeCLIScopes (gr_scopes_json row);
  digest ← CLIScopeDigest scopes;
  Ok (mkGrant id (gr_installation_id row) agent (gr_public_key row) (gr_public_key_fingerprint row) scopes (gr_revision row) digest (gr_status row)
    (gr_created_at row) (gr_expires_at row) (gr_decided_at row) (gr_revoked_at row)).

Definition scan_by_id (id : string) : auth_tables -> outcome auth_error CLIGrant :=
  query "SELECT installation_grants" (fun t =>
    match at_installation_grants t !! id with Some row => scanCLIGrant id row | None => Fail ErrCLIGrantNotFound end).

Definition grants_of_key (installationID publicKey : string) (t : auth_tables) : list (string * grant_row) :=
  List.filter (fun entry => bool_decide (gr_installation_id entry.2 = installationID) && bool_decide (gr_public_key entry.2 = publicKey))
    (map_to_list (at_installation_grants t)).

(** The unique index leaves at most one row. *)
Definition FindCLIGrant (installationID publicKey : string) : auth_tables -> outcome auth_error CLIGrant :=
  query "SELECT installation_grants" (fun t =>
    match grants_of_key installationID publicKey t with
    | (id, row) :: _ => scanCLIGrant id row
    | [] => Fail ErrCLIGrantNotFound
    end).

Definition scanCLIGrantScopeUpgrade (id : string) (row : upgrade_row) : outcome auth_error CLIGrantScopeUpgrade :=
  _ ← guard_or ErrCLIUpgradeInvalid (is_ok (NewRevision (ur_from_revision row)) && (1 <=? ur_from_revision row));
  scopes ← NormalizeCLIScopes (ur_requested_scopes_json row);
  digest ← CLIScopeDigest scopes;
  Ok (mkUpgrade id (ur_grant_id row) (ur_from_revision row) scopes digest (ur_status row) (ur_created_at row) (ur_expires_at row) (ur_decided_at row)).

Definition pending_upgrades (grantID : string) (t : auth_tables) : list (string * upgrade_row) :=
  List.filter (fun entry => bool_decide (ur_grant_id entry.2 = grantID) && bool_decide (ur_status entry.2 = UpgradePending))
    (map_to_list (at_scope_upgrades t)).

Definition upgrade_by_id (id : string) : auth_tables -> outcome auth_error CLIGrantScopeUpgrade :=
  query "SELECT installation_grant_scope_upgrades" (fun t =>
    match at_scope_upgrades t !! id with Some row => scanCLIGrantScopeUpgrade id row | None => Fail ErrCLIUpgradeNotFound end).

Definition pending_upgrade_of (grantID : string) : auth_tables -> outcome auth_error CLIGrantScopeUpgrade :=
  query "SELECT installation_grant_scope_upgrades" (fun t =>
    match pending_upgrades grantID t with
    | (id, row) :: _ => scanCLIGrantScopeUpgrade id row
    | [] => Fail ErrCLIUpgradeNotFound
    end).

Definition LoadCLIInvocationPolicy : auth_tables -> outcome auth_error InvocationPolicySettings :=
  query "SELECT cli_invocation_settings" (fun t =>
    match at_cli_invocation_settings t with
    | None => Fail ErrAuthStatement
    | Some settings =>
        _ ← or_fail ErrAuthStored (NewRevision (set_Revision settings));
        _ ← guard_or ErrAuthInvalid (InvocationPolicySettings_Validate settings);
        Ok settings
    end).

(** ** Writing *)

(** [revision = revision + 1] in an INTEGER column of a STRICT table *)
Definition next_revision (row : grant_row) : outcome auth_error Z :=
  if gr_revision row =? MaxInt64 then Fail ErrAuthStatement else Ok (gr_revision row + 1).

Definition update_grant (name id : string) (f : grant_row -> outcome auth_error grant_row) : AuthTx unit :=
  statement ("UPDATE installation_grants " +:+ name) (fun t =>
    match at_installation_grants t !! id with
    | None => Ok t
    | Some row => row ← f row; Ok (with_grants (<[id := row]>) t)
    end).

Definition update_upgrades (name : string) (where_ : string -> upgrade_row -> bool) (f : upgrade_row -> upgrade_row) : AuthTx unit :=
  statement ("UPDATE installation_grant_scope_upgrades " +:+ name) (fun t =>
    Ok (with_upgrades (map_imap (fun id row => Some (if where_ id row then f row else row))) t)).

Definition with_upgrade_status (status : CLIGrantScopeUpgradeStatus) (at_ : Z) (row : upgrade_row) : upgrade_row :=
  mkUpgradeRow (ur_grant_id row) (ur_from_revision row) (ur_requested_scopes_json row) status (ur_created_at row) (ur_expires_at row) (Some at_).

Definition insert_agent (id : string) : AuthTx unit :=
  statement "INSERT agent_principals" (fun t =>
    if bool_decide (id ∈ at_agent_principals t) then Fail ErrAuthStatement else Ok (with_agents (fun agents => {[id]} ∪ agents) t)).

Definition insert_grant (id : string) (row : grant_row) : AuthTx unit :=
  statement "INSERT installation_grants" (fun t =>
    if bool_decide (is_Some (at_installation_grants t !! id)) || negb (bool_decide (grants_of_key (gr_installation_id row) (gr_public_key row) t = []))
    then Fail ErrAuthStatement else Ok (with_grants (<[id := row]>) t)).

Definition insert_upgrade (id : string) (row : upgrade_row) : AuthTx unit :=
  statement "INSERT installation_grant_scope_upgrades" (fun t =>
    if bool_decide (is_Some (at_scope_upgrades t !! id)) ||
       (bool_decide (ur_status row = UpgradePending) && negb (bool_decide (pending_upgrades (ur_grant_id row) t = [])))
    then Fail ErrAuthStatement else Ok (with_upgrades (<[id := row]>) t)).

Definition AppendAuthorizationAudit (record : AuthorizationAudit) (t : auth_tables) : outcome auth_error unit * auth_tables :=
  match (_ ← guard_or ErrAuthIdentity (is_ok (ParseID (aa_ID record)));
         _ ← guard_or ErrAuthIdentity (is_ok (ParseRequestID (aa_InstallationID record)));
         _ ← guard_or ErrAuthInvalid (bool_decide (aa_PrincipalKind record = AuthorityFirstPartyUI) || bool_decide (aa_PrincipalKind record = AuthorityProductCLI));
         _ ← guard_or ErrAuthInvalid (negb (bool_decide (aa_PrincipalID record = "")) && negb (bool_decide (aa_Action record = "")) &&
               negb (bool_decide (aa_Outcome record = "")));
         Ok tt) with
  | Ok _ =>
      match statement "INSERT authorization_audit" (fun t =>
        if bool_decide (is_Some (at_authorization_audit t !! aa_ID record)) then Fail ErrAuthStatement
        else Ok (with_audit (<[aa_ID record := record]>) t)) t with
      | Ok (_, t') => (Ok tt, t')
      | Fail e => (Fail e, t)
      | Panic => (Panic, t)
      end
  | Fail e => (Fail e, t)
  | Panic => (Panic, t)
  end.

Definition EnsureLocalCreator (candidate : string) (t : auth_tables) : outcome auth_error string * auth_tables :=
  if IsZero candidate then (Fail ErrAuthIdentity, t)
  else auth_transaction (
    stored ← reads_tables (query "SELECT local_creators" (fun t => Ok (at_local_creators t)));
    stored ← (match stored with
      | Some stored => mret stored
      | None => _ ← statement "INSERT local_creators" (fun t => Ok (with_creator (Some candidate) t)); mret candidate
      end);
    of_outcome (or_fail ErrAuthStored (ParseID stored))) t.
End tables.

(** * Scope lists: what [NormalizeCLIScopes] returns, and that the binary search on
    a normalized list decides membership. *)


Definition str_lt (l r : string) : Prop := str_ltb l r = true.

Lemma str_lt_irrefl s : ~ str_lt s s.
Proof. unfold str_lt, str_ltb. by rewrite bytes_ltb_irrefl. Qed.
Lemma str_lt_le l r : str_lt l r -> str_le l r.
Proof. apply str_ltb_antisym. Qed.
Lemma str_le_lt l r : str_le l r -> l <> r -> str_lt l r.
Proof. intros Hle Hne. unfold str_lt. destruct (str_ltb l r) eqn:E; [done|]. by destruct Hne; apply (anti_symm str_le). Qed.
#[export] Instance str_lt_trans : Transitive str_lt.
Proof. intros x y z. apply bytes_ltb_trans. Qed.

(** ** Dropping repeats of a sorted list *)

Lemma dedupe_elem l last x : x ∈ dedupe last l -> x ∈ l.
Proof. revert last. induction l as [|a l IH]; intros last; cbn; [done|]. case_bool_decide; set_solver. Qed.

Lemma dedupe_keeps l last x : x ∈ l -> last = Some x \/ x ∈ dedupe last l.
Proof.
  revert last. induction l as [|a l IH]; intros last; cbn; [set_solver|]. intros [->|Hx]%elem_of_cons; case_bool_decide as Hd.
  - by left.
  - right. set_solver.
  - by apply IH.
  - destruct (IH (Some a) Hx) as [[= ->]|Hi]; right; set_solver.
Qed.

Lemma dedupe_length l last : (length (dedupe last l) <= length l)%nat.
Proof. revert last. induction l as [|a l IH]; intros last; cbn; [lia|]. case_bool_decide; cbn; [specialize (IH last)|specialize (IH (Some a))]; lia. Qed.

Lemma dedupe_increasing l last : StronglySorted str_le l -> (forall x, last = Some x -> Forall (str_le x) l) ->
  StronglySorted str_lt (dedupe last l) /\ (forall x, last = Some x -> Forall (str_lt x) (dedupe last l)).
Proof.
  revert last. induction l as [|a l IH]; intros last Hs Hl; cbn; [split; [constructor|constructor]|]. inversion Hs as [|? ? Hs' Ha]; subst.
  case_bool_decide as Hd.
  - apply IH; [done|]. intros x ->. injection Hd as ->. done.
  - destruct (IH (Some a) Hs') as [H1 H2]; [intros x [= <-]; done|]. specialize (H2 a eq_refl). split; [by constructor|].
    intros x ->. specialize (Hl x eq_refl). inversion Hl as [|? ? Hxa _]; subst. assert (str_lt x a) as Hlt by (apply str_le_lt; congruence).
    constructor; [done|]. eapply Forall_impl; [exact H2|]. intros y Hy. by transitivity a.
Qed.

Lemma dedupe_increasing_id l last : StronglySorted str_lt l -> (forall x, last = Some x -> Forall (str_lt x) l) -> dedupe last l = l.
Proof.
  revert last. induction l as [|a l IH]; intros last Hs Hl; cbn; [done|]. inversion Hs as [|? ? Hs' Ha]; subst. rewrite bool_decide_eq_false_2.
  - f_equal. apply IH; [done|]. intros x [= <-]. done.
  - intros ->. specialize (Hl a eq_refl). inversion Hl. by apply (str_lt_irrefl a).
Qed.

Lemma sort_increasing_id l : StronglySorted str_lt l -> sort_by id l = l.
Proof.
  intros Hs. apply (StronglySorted_unique (key_le id)); [apply sort_by_sorted| |apply sort_by_perm].
  induction Hs as [|a l Hs IH Ha]; constructor; [done|]. eapply Forall_impl; [exact Ha|]. intros x. apply str_lt_le.
Qed.

(** ** Normalized lists *)

Definition normalized (scopes : list string) : Prop := StronglySorted str_lt scopes /\ Forall (fun s => cliScopePattern s = true) scopes.

Lemma normalize_shape scopes result : NormalizeCLIScopes scopes = Ok result ->
  normalized result /\ (forall s, s ∈ result <-> s ∈ scopes) /\ (0 < length result <= 64)%nat.
Proof.
  unfold NormalizeCLIScopes. destruct ((length scopes =? 0)%nat || (64 <? length scopes)%nat) eqn:El; [discriminate|].
  destruct (forallb cliScopePattern (sort_by id scopes)) eqn:Ef; [|discriminate]. intros [= <-].
  apply orb_false_iff in El as [El1%Nat.eqb_neq El2%Nat.ltb_ge].
  assert (forall s, s ∈ dedupe None (sort_by id scopes) <-> s ∈ scopes) as Hin.
  { intros s. pose proof (elem_of_Permutation_proper s _ _ (sort_by_perm id scopes)) as Hp. split; [intros Hs%dedupe_elem; by apply Hp|].
    intros Hs%Hp. by destruct (dedupe_keeps _ None _ Hs). }
  split; [split|split; [done|]].
  - apply (dedupe_increasing (sort_by id scopes) None); [apply (sort_by_sorted id)|discriminate].
  - apply Forall_forall. intros s Hs%dedupe_elem. rewrite forallb_forall in Ef. apply Ef. by apply list_elem_of_In.
  - pose proof (dedupe_length (sort_by id scopes) None) as Hl. rewrite (Permutation_length (sort_by_perm id scopes)) in Hl. split; [|lia].
    destruct scopes as [|s rest]; [done|]. destruct (dedupe None (sort_by id (s :: rest))) eqn:E; [|cbn; lia].
    specialize (Hin s). set_solver.
Qed.

Lemma normalized_fixed scopes : normalized scopes -> (0 < length scopes <= 64)%nat -> NormalizeCLIScopes scopes = Ok scopes.
Proof.
  intros [Hs Hp] [Hl1 Hl2]. unfold NormalizeCLIScopes. destruct ((length scopes =? 0)%nat || (64 <? length scopes)%nat) eqn:El.
  { apply orb_true_iff in El as [El|El]; [apply Nat.eqb_eq in El|apply Nat.ltb_lt in El]; lia. }
  rewrite sort_increasing_id by done. assert (forallb cliScopePattern scopes = true) as ->.
  { apply forallb_forall. intros s Hi. rewrite Forall_forall in Hp. apply Hp. by apply list_elem_of_In. }
  by rewrite dedupe_increasing_id.
Qed.

Lemma normalize_idempotent scopes result : NormalizeCLIScopes scopes = Ok result -> NormalizeCLIScopes result = Ok result.
Proof. intros (Hn & _ & Hl)%normalize_shape. by apply normalized_fixed. Qed.

(** ** Searching *)

Lemma sorted_lookup_lt l i j x y : StronglySorted str_lt l -> l !! i = Some x -> l !! j = Some y -> (i < j)%nat -> str_lt x y.
Proof.
  intros Hs. revert i j. induction Hs as [|a l Hs IH Ha]; intros i j Hi Hj Hij; [done|]. destruct j as [|j]; [lia|]. cbn in Hj.
  destruct i as [|i]; cbn in Hi; [injection Hi as <-|by apply (IH i j); [| |lia]].
  rewrite Forall_forall in Ha. apply Ha. by eapply list_elem_of_lookup_2.
Qed.

(** What the loop narrows down to: everything before it is smaller, nothing after it is *)
Lemma binary_search_spec n l target i j : StronglySorted str_lt l -> (j - i <= n)%nat -> (i <= j <= length l)%nat ->
  (forall k x, l !! k = Some x -> (k < i)%nat -> str_lt x target) -> (forall k x, l !! k = Some x -> (j <= k)%nat -> ~ str_lt x target) ->
  let r := binary_search_from n l target i j in
  (forall k x, l !! k = Some x -> (k < r)%nat -> str_lt x target) /\ (forall k x, l !! k = Some x -> (r <= k)%nat -> ~ str_lt x target).
Proof.
  intros Hs. revert i j. induction n as [|n IH]; intros i j Hn Hij Hlo Hhi; cbn [binary_search_from].
  - assert (i = j) as -> by lia. done.
  - destruct (i <? j)%nat eqn:E; [apply Nat.ltb_lt in E|apply Nat.ltb_ge in E; assert (i = j) as -> by lia; done].
    pose proof (Nat.div2_div (i + j)) as Hd. set (h := Nat.div2 (i + j)) in *.
    assert (i <= h < j)%nat as Hh. { rewrite Hd. split; [apply Nat.div_le_lower_bound|apply Nat.Div0.div_lt_upper_bound]; lia. }
    destruct (lookup_lt_is_Some_2 l h) as [v Hv]; [lia|]. rewrite Hv. cbn [from_option Datatypes.id].
    destruct (str_ltb v target) eqn:Et; apply IH; try lia; try done; intros k x Hk Hkh.
    + destruct (decide (k = h)) as [->|]; [congruence|]. transitivity v; [|done]. apply (sorted_lookup_lt l k h); [done..|lia].
    + intros Hx. destruct (decide (k = h)) as [->|]; [unfold str_lt in Hx; congruence|].
      assert (str_lt v x) as Hvx by (apply (sorted_lookup_lt l h k); [done..|lia]).
      assert (str_lt v target) as Hvt by (by transitivity x). unfold str_lt in Hvt. congruence.
Qed.

Lemma binary_search_elem l target : StronglySorted str_lt l -> BinarySearch l target = true <-> target ∈ l.
Proof.
  intros Hs. unfold BinarySearch. pose proof (binary_search_spec (length l) l target 0 (length l) Hs ltac:(lia) ltac:(lia)) as Hb.
  destruct Hb as [Hlo Hhi]; [lia| |]. { intros k x Hk Hle. apply lookup_lt_Some in Hk. lia. }
  set (i := binary_search_from _ _ _ _ _) in *. rewrite andb_true_iff, Nat.ltb_lt, bool_decide_eq_true. split.
  - intros [_ Hi]. by eapply list_elem_of_lookup_2.
  - intros (k & Hk)%list_elem_of_lookup_1.
    assert (~ (k < i)%nat) as H1 by (intros Hlt; apply (str_lt_irrefl target); by apply (Hlo k)).
    assert (~ (i < k)%nat) as H2.
    { intros Hlt. destruct (lookup_lt_is_Some_2 l i) as [v Hv]; [apply lookup_lt_Some in Hk; lia|].
      apply (Hhi i v Hv ltac:(lia)). apply (sorted_lookup_lt l i k); done. }
    assert (k = i) as <- by lia. split; [by eapply lookup_lt_Some|done].
Qed.

Lemma scope_set_contains superset subset : StronglySorted str_lt superset -> scopeSetContains superset subset = true <-> subset ⊆ superset.
Proof.
  intros Hs. unfold scopeSetContains. rewrite forallb_forall. split; intros Hx s Hi.
  - apply binary_search_elem; [done|]. apply Hx. by apply list_elem_of_In.
  - apply binary_search_elem; [done|]. apply Hx. by apply list_elem_of_In.
Qed.
