(* ===== verification/CliRepository.v ===== *)
(** Pairing, scope upgrades and revocation in the API's database:
    [apps/api/repository/cli_authorization.go] and [cli_scope_upgrade.go]. *)
From stdpp Require Import base list strings gmap sorting.
From Stdlib Require Import ZArith Lia Ascii.
From S2P Require Import Prelude GoText Exact Identity Canonical EditModel Timeline EditState EditValidate Project Database Authority CliGrants.
Open Scope Z_scope.

(** [value, _ = f()]: the zero value when the call fails *)
Definition revision_or_zero {E} (r : outcome E Z) : Z := match r with Ok revision => revision | _ => 0 end.
Definition text_or_empty {E} (r : outcome E string) : string := match r with Ok text => text | _ => "" end.

Section repository.
Context `{Platform} `{AuthSQLite}.

(** A pairing that lapsed is asked again. *)
Definition grant_lapsed (grant : CLIGrant) (at_ : Z) : bool :=
  bool_decide (cg_Status grant = CLIGrantExpired) || (bool_decide (cg_Status grant = CLIGrantPending) && negb (at_ <? cg_ExpiresAt grant)).

Definition pending_again (grant : CLIGrant) (pending : PendingCLIGrant) (scopes : list string) : CLIGrant :=
  mkGrant (cg_ID grant) (cg_InstallationID grant) (cg_AgentID grant) (cg_PublicKey grant) (cg_Fingerprint grant) scopes
    (revision_or_zero (Revision_Next (cg_Revision grant))) (text_or_empty (CLIScopeDigest scopes)) CLIGrantPending
    (pg_CreatedAt pending) (pg_ExpiresAt pending) None None.

Definition new_grant (pending : PendingCLIGrant) (scopes : list string) : CLIGrant :=
  mkGrant (pg_ID pending) (pg_InstallationID pending) (pg_AgentID pending) (pg_PublicKey pending) (pg_Fingerprint pending) scopes
    (revision_or_zero (NewRevision 1)) (text_or_empty (CLIScopeDigest scopes)) CLIGrantPending (pg_CreatedAt pending) (pg_ExpiresAt pending) None None.

Definition ensure_pending (pending : PendingCLIGrant) : AuthTx CLIGrant := fun t =>
  match FindCLIGrant (pg_InstallationID pending) (pg_PublicKey pending) t with
  | Ok stored =>
      if grant_lapsed stored (pg_CreatedAt pending) then
        (normalized ← of_outcome (NormalizeCLIScopes (pg_Scopes pending));
         _ ← update_grant "pending" (cg_ID stored) (fun row =>
               revision ← next_revision row;
               Ok (mkGrantRow (gr_installation_id row) (gr_agent_id row) (gr_public_key row) (gr_public_key_fingerprint row) normalized
                 CLIGrantPending (pg_CreatedAt pending) (pg_ExpiresAt pending) None None revision));
         mret (pending_again stored pending normalized)) t
      else Ok (stored, t)
  | Fail ErrCLIGrantNotFound =>
      (normalized ← of_outcome (NormalizeCLIScopes (pg_Scopes pending));
       _ ← insert_agent (pg_AgentID pending);
       _ ← insert_grant (pg_ID pending) (mkGrantRow (pg_InstallationID pending) (pg_AgentID pending) (pg_PublicKey pending) (pg_Fingerprint pending)
             normalized CLIGrantPending (pg_CreatedAt pending) (pg_ExpiresAt pending) None None 1);
       mret (new_grant pending normalized)) t
  | Fail e => Fail e
  | Panic => Panic
  end.

Definition EnsurePendingCLIGrant (pending : PendingCLIGrant) (t : auth_tables) : outcome auth_error CLIGrant * auth_tables :=
  match validatePendingCLIGrant pending with
  | Ok _ => auth_transaction (ensure_pending pending) t
  | Fail e => (Fail e, t)
  | Panic => (Panic, t)
  end.

Definition with_grant_status (status : CLIGrantStatus) (decided : option Z) (revoked : option Z) (grant : CLIGrant) : CLIGrant :=
  mkGrant (cg_ID grant) (cg_InstallationID grant) (cg_AgentID grant) (cg_PublicKey grant) (cg_Fingerprint grant) (cg_Scopes grant) (cg_Revision grant)
    (cg_ScopeDigest grant) status (cg_CreatedAt grant) (cg_ExpiresAt grant) decided revoked.

Definition with_row_status (status : CLIGrantStatus) (decided : option Z) (revoked : option Z) (row : grant_row) : grant_row :=
  mkGrantRow (gr_installation_id row) (gr_agent_id row) (gr_public_key row) (gr_public_key_fingerprint row) (gr_scopes_json row)
    status (gr_created_at row) (gr_expires_at row) decided revoked (gr_revision row).

(** [_, _ = tx.ExecContext(...); _ = tx.Commit()] *)
Definition best_effort (body : AuthTx unit) (t : auth_tables) : auth_tables := (auth_transaction body t).2.

Definition DecideCLIGrant (id : string) (approve : bool) (decidedAt : Z) (t : auth_tables) : outcome auth_error CLIGrant * auth_tables :=
  match scan_by_id id t with
  | Ok grant =>
      if negb (bool_decide (cg_Status grant = CLIGrantPending)) || negb (decidedAt <? cg_ExpiresAt grant) then
        (Fail ErrCLIGrantNotPending,
         if bool_decide (cg_Status grant = CLIGrantPending) then
           best_effort (update_grant "expired" id (fun row => Ok (with_row_status CLIGrantExpired (gr_decided_at row) (gr_revoked_at row) row))) t
         else t)
      else
        let status := if approve then CLIGrantActive else CLIGrantDenied in
        auth_transaction (
          _ ← update_grant "decided" id (fun row => Ok (with_row_status status (Some decidedAt) (gr_revoked_at row) row));
          mret (with_grant_status status (Some decidedAt) (cg_RevokedAt grant) grant)) t
  | Fail e => (Fail e, t)
  | Panic => (Panic, t)
  end.

Definition RevokeCLIGrant (id : string) (revokedAt : Z) : auth_tables -> outcome auth_error CLIGrant * auth_tables :=
  auth_transaction (
    grant ← reads_tables (scan_by_id id);
    _ ← of_outcome (guard_or ErrCLIGrantNotActive (bool_decide (cg_Status grant = CLIGrantActive)));
    _ ← update_grant "revoked" id (fun row => Ok (with_row_status CLIGrantRevoked (gr_decided_at row) (Some revokedAt) row));
    _ ← update_upgrades "of a revoked grant" (fun _ row => bool_decide (ur_grant_id row = id) && bool_decide (ur_status row = UpgradePending))
          (with_upgrade_status UpgradeExpired revokedAt);
    mret (with_grant_status CLIGrantRevoked (cg_DecidedAt grant) (Some revokedAt) grant)).

(** ** Scope upgrades *)

Definition upgrade_acceptable (pending : PendingCLIGrantScopeUpgrade) (normalized : list string) (grant : CLIGrant) : bool :=
  bool_decide (cg_Status grant = CLIGrantActive) && (cg_Revision grant =? pu_FromRevision pending) && scopeSetContains normalized (cg_Scopes grant) &&
  negb (length normalized <=? length (cg_Scopes grant))%nat.

Definition same_upgrade (pending : PendingCLIGrantScopeUpgrade) (normalized : list string) (existing : CLIGrantScopeUpgrade) : bool :=
  (pu_CreatedAt pending <? up_ExpiresAt existing) && (up_FromRevision existing =? pu_FromRevision pending) &&
  bool_decide (up_RequestedScopes existing = normalized).

Definition replaced_status (pending : PendingCLIGrantScopeUpgrade) (existing : CLIGrantScopeUpgrade) : CLIGrantScopeUpgradeStatus :=
  if negb (pu_CreatedAt pending <? up_ExpiresAt existing) then UpgradeExpired else UpgradeSuperseded.

Definition new_upgrade (pending : PendingCLIGrantScopeUpgrade) (normalized : list string) : CLIGrantScopeUpgrade :=
  mkUpgrade (pu_ID pending) (pu_GrantID pending) (pu_FromRevision pending) normalized (text_or_empty (CLIScopeDigest normalized)) UpgradePending
    (pu_CreatedAt pending) (pu_ExpiresAt pending) None.

Definition store_upgrade (pending : PendingCLIGrantScopeUpgrade) (normalized : list string) : AuthTx CLIGrantScopeUpgrade :=
  _ ← insert_upgrade (pu_ID pending) (mkUpgradeRow (pu_GrantID pending) (pu_FromRevision pending) normalized UpgradePending
        (pu_CreatedAt pending) (pu_ExpiresAt pending) None);
  mret (new_upgrade pending normalized).

Definition replace_pending (pending : PendingCLIGrantScopeUpgrade) (normalized : list string) : AuthTx CLIGrantScopeUpgrade := fun t =>
  match pending_upgrade_of (pu_GrantID pending) t with
  | Ok existing =>
      if same_upgrade pending normalized existing then Ok (existing, t)
      else (_ ← update_upgrades "replaced" (fun id row => bool_decide (id = up_ID existing) && bool_decide (ur_status row = UpgradePending))
              (with_upgrade_status (replaced_status pending existing) (pu_CreatedAt pending));
            store_upgrade pending normalized) t
  | Fail ErrCLIUpgradeNotFound => store_upgrade pending normalized t
  | Fail e => Fail e
  | Panic => Panic
  end.

Definition ensure_upgrade (pending : PendingCLIGrantScopeUpgrade) (normalized : list string) : AuthTx CLIGrantScopeUpgrade :=
  grant ← reads_tables (scan_by_id (pu_GrantID pending));
  _ ← of_outcome (guard_or ErrCLIUpgradeInvalid (upgrade_acceptable pending normalized grant));
  replace_pending pending normalized.

Definition EnsurePendingCLIGrantScopeUpgrade (pending : PendingCLIGrantScopeUpgrade) (t : auth_tables)
    : outcome auth_error CLIGrantScopeUpgrade * auth_tables :=
  match validatePendingCLIGrantScopeUpgrade pending with
  | Ok normalized => auth_transaction (ensure_upgrade pending normalized) t
  | Fail e => (Fail e, t)
  | Panic => (Panic, t)
  end.

Definition decided_upgrade (status : CLIGrantScopeUpgradeStatus) (at_ : Z) (upgrade : CLIGrantScopeUpgrade) : CLIGrantScopeUpgrade :=
  mkUpgrade (up_ID upgrade) (up_GrantID upgrade) (up_FromRevision upgrade) (up_RequestedScopes upgrade) (up_RequestedScopeDigest upgrade) status
    (up_CreatedAt upgrade) (up_ExpiresAt upgrade) (Some at_).

Definition upgraded_grant (upgrade : CLIGrantScopeUpgrade) (grant : CLIGrant) : CLIGrant :=
  mkGrant (cg_ID grant) (cg_InstallationID grant) (cg_AgentID grant) (cg_PublicKey grant) (cg_Fingerprint grant) (up_RequestedScopes upgrade)
    (revision_or_zero (Revision_Next (cg_Revision grant))) (up_RequestedScopeDigest upgrade) (cg_Status grant) (cg_CreatedAt grant) (cg_ExpiresAt grant)
    (cg_DecidedAt grant) (cg_RevokedAt grant).

Definition decide_upgrade (id : string) (approve : bool) (decidedAt : Z) (upgrade : CLIGrantScopeUpgrade)
    : AuthTx (CLIGrantScopeUpgrade * CLIGrant) :=
  grant ← reads_tables (scan_by_id (up_GrantID upgrade));
  _ ← of_outcome (guard_or ErrCLIUpgradeNotPending (bool_decide (cg_Status grant = CLIGrantActive) && (cg_Revision grant =? up_FromRevision upgrade)));
  _ ← (if approve then
         update_grant "upgraded" (cg_ID grant) (fun row =>
           if negb (gr_revision row =? cg_Revision grant) then Ok row
           else revision ← next_revision row;
             Ok (mkGrantRow (gr_installation_id row) (gr_agent_id row) (gr_public_key row) (gr_public_key_fingerprint row) (up_RequestedScopes upgrade)
               (gr_status row) (gr_created_at row) (gr_expires_at row) (gr_decided_at row) (gr_revoked_at row) revision))
       else mret tt);
  let status := if approve then UpgradeApproved else UpgradeDenied in
  _ ← update_upgrades "decided" (fun key row => bool_decide (key = id) && bool_decide (ur_status row = UpgradePending))
        (with_upgrade_status status decidedAt);
  mret (decided_upgrade status decidedAt upgrade, if approve then upgraded_grant upgrade grant else grant).

Definition DecideCLIGrantScopeUpgrade (id : string) (approve : bool) (decidedAt : Z) (t : auth_tables)
    : outcome auth_error (CLIGrantScopeUpgrade * CLIGrant) * auth_tables :=
  match upgrade_by_id id t with
  | Ok upgrade =>
      if negb (bool_decide (up_Status upgrade = UpgradePending)) || negb (decidedAt <? up_ExpiresAt upgrade) then
        (Fail ErrCLIUpgradeNotPending,
         if bool_decide (up_Status upgrade = UpgradePending) then
           best_effort (update_upgrades "expired" (fun key _ => bool_decide (key = id)) (with_upgrade_status UpgradeExpired decidedAt)) t
         else t)
      else auth_transaction (decide_upgrade id approve decidedAt upgrade) t
  | Fail e => (Fail e, t)
  | Panic => (Panic, t)
  end.
End repository.

(** * What the two authorization repositories promise the service: the interface
    [application.AuthorizationRepository] with an abstract book of grants and
    scope upgrades, and one function on the book per operation. *)


Record book := mkBook { bk_grants : gmap string CLIGrant; bk_upgrades : gmap string CLIGrantScopeUpgrade }.

Definition empty_book : book := mkBook ∅ ∅.
Definition put_grant (g : CLIGrant) (b : book) : book := mkBook (<[cg_ID g := g]> (bk_grants b)) (bk_upgrades b).
Definition put_upgrade (u : CLIGrantScopeUpgrade) (b : book) : book := mkBook (bk_grants b) (<[up_ID u := u]> (bk_upgrades b)).

Definition has_key (installationID publicKey : string) (g : CLIGrant) : bool :=
  bool_decide (cg_InstallationID g = installationID) && bool_decide (cg_PublicKey g = publicKey).
Definition is_pending_of (grantID : string) (u : CLIGrantScopeUpgrade) : bool :=
  bool_decide (up_GrantID u = grantID) && bool_decide (up_Status u = UpgradePending).

(** A map entry that satisfies a test: the first one found *)
Definition first_where {A} (test : A -> bool) (m : gmap string A) : option A := head (List.filter test (map snd (map_to_list m))).

Definition grant_of_key (installationID publicKey : string) (b : book) : option CLIGrant := first_where (has_key installationID publicKey) (bk_grants b).
Definition pending_of (grantID : string) (b : book) : option CLIGrantScopeUpgrade := first_where (is_pending_of grantID) (bk_upgrades b).

Section specification.
Context `{Platform}.

Definition spec_find (installationID publicKey : string) (b : book) : outcome auth_error CLIGrant :=
  match grant_of_key installationID publicKey b with Some g => Ok g | None => Fail ErrCLIGrantNotFound end.

Definition spec_ensure (pending : PendingCLIGrant) (b : book) : outcome auth_error CLIGrant * book :=
  match NormalizeCLIScopes (pg_Scopes pending) with
  | Ok scopes =>
      match grant_of_key (pg_InstallationID pending) (pg_PublicKey pending) b with
      | Some g =>
          if grant_lapsed g (pg_CreatedAt pending) then let g' := pending_again g pending scopes in (Ok g', put_grant g' b)
          else (Ok g, b)
      | None => let g := new_grant pending scopes in (Ok g, put_grant g b)
      end
  | Fail e => (Fail e, b)
  | Panic => (Panic, b)
  end.

Definition spec_decide (id : string) (approve : bool) (at_ : Z) (b : book) : outcome auth_error CLIGrant * book :=
  match bk_grants b !! id with
  | None => (Fail ErrCLIGrantNotFound, b)
  | Some g =>
      if negb (bool_decide (cg_Status g = CLIGrantPending)) then (Fail ErrCLIGrantNotPending, b)
      else if negb (at_ <? cg_ExpiresAt g) then
        (Fail ErrCLIGrantNotPending, put_grant (with_grant_status CLIGrantExpired (cg_DecidedAt g) (cg_RevokedAt g) g) b)
      else let g' := with_grant_status (if approve then CLIGrantActive else CLIGrantDenied) (Some at_) (cg_RevokedAt g) g in (Ok g', put_grant g' b)
  end.

Definition spec_revoke (id : string) (at_ : Z) (b : book) : outcome auth_error CLIGrant * book :=
  match bk_grants b !! id with
  | None => (Fail ErrCLIGrantNotFound, b)
  | Some g =>
      if negb (bool_decide (cg_Status g = CLIGrantActive)) then (Fail ErrCLIGrantNotActive, b)
      else
        let g' := with_grant_status CLIGrantRevoked (cg_DecidedAt g) (Some at_) g in
        let b' := put_grant g' b in
        (Ok g', match pending_of id b with Some u => put_upgrade (decided_upgrade UpgradeExpired at_ u) b' | None => b' end)
  end.

Definition spec_ensure_upgrade (pending : PendingCLIGrantScopeUpgrade) (b : book) : outcome auth_error CLIGrantScopeUpgrade * book :=
  match validatePendingCLIGrantScopeUpgrade pending with
  | Ok scopes =>
      match bk_grants b !! pu_GrantID pending with
      | None => (Fail ErrCLIGrantNotFound, b)
      | Some g =>
          if negb (upgrade_acceptable pending scopes g) then (Fail ErrCLIUpgradeInvalid, b)
          else
            let u' := new_upgrade pending scopes in
            match pending_of (pu_GrantID pending) b with
            | Some u =>
                if same_upgrade pending scopes u then (Ok u, b)
                else (Ok u', put_upgrade u' (put_upgrade (decided_upgrade (replaced_status pending u) (pu_CreatedAt pending) u) b))
            | None => (Ok u', put_upgrade u' b)
            end
      end
  | Fail e => (Fail e, b)
  | Panic => (Panic, b)
  end.

Definition spec_decide_upgrade (id : string) (approve : bool) (at_ : Z) (b : book) : outcome auth_error (CLIGrantScopeUpgrade * CLIGrant) * book :=
  match bk_upgrades b !! id with
  | None => (Fail ErrCLIUpgradeNotFound, b)
  | Some u =>
      if negb (bool_decide (up_Status u = UpgradePending)) then (Fail ErrCLIUpgradeNotPending, b)
      else if negb (at_ <? up_ExpiresAt u) then (Fail ErrCLIUpgradeNotPending, put_upgrade (decided_upgrade UpgradeExpired at_ u) b)
      else match bk_grants b !! up_GrantID u with
      | None => (Fail ErrCLIUpgradeNotPending, b)
      | Some g =>
          if negb (bool_decide (cg_Status g = CLIGrantActive) && (cg_Revision g =? up_FromRevision u)) then (Fail ErrCLIUpgradeNotPending, b)
          else
            let u' := decided_upgrade (if approve then UpgradeApproved else UpgradeDenied) at_ u in
            let g' := if approve then upgraded_grant u g else g in
            (Ok (u', g'), put_upgrade u' (put_grant g' b))
      end
  end.
End specification.

(** The implementation answered what the book answers and did what the book does. *)
Definition exactly {R A} (abs : R -> book) (ok : R -> Prop) (spec : book -> outcome auth_error A * book) (op : R -> outcome auth_error A * R) (r : R) : Prop :=
  let '(a, r') := op r in ok r' /\ (a, abs r') = spec (abs r).

(** The same, or it failed and changed nothing. *)
Definition refined {R A} (abs : R -> book) (ok : R -> Prop) (spec : book -> outcome auth_error A * book) (op : R -> outcome auth_error A * R) (r : R) : Prop :=
  let '(a, r') := op r in
  ok r' /\ ((a, abs r') = spec (abs r) \/ (is_ok a = false /\ abs r' = abs r)).

Lemma exactly_refined {R A} (abs : R -> book) (ok : R -> Prop) (spec : book -> outcome auth_error A * book) op r :
  exactly abs ok spec op r -> refined abs ok spec op r.
Proof. unfold exactly, refined. destruct (op r) as [a r']. intros [? ?]. by split; [|left]. Qed.

(** [application.AuthorizationRepository], its representation invariant and laws *)
Class AuthorizationRepository (R : Type) `{Platform} := {
  repo_FindCLIGrant : string -> string -> R -> outcome auth_error CLIGrant;
  repo_EnsurePendingCLIGrant : PendingCLIGrant -> R -> outcome auth_error CLIGrant * R;
  repo_DecideCLIGrant : string -> bool -> Z -> R -> outcome auth_error CLIGrant * R;
  repo_RevokeCLIGrant : string -> Z -> R -> outcome auth_error CLIGrant * R;
  repo_EnsurePendingUpgrade : PendingCLIGrantScopeUpgrade -> R -> outcome auth_error CLIGrantScopeUpgrade * R;
  repo_DecideUpgrade : string -> bool -> Z -> R -> outcome auth_error (CLIGrantScopeUpgrade * CLIGrant) * R;
  repo_LoadCLIInvocationPolicy : R -> outcome auth_error InvocationPolicySettings;
  repo_AppendAuthorizationAudit : AuthorizationAudit -> R -> outcome auth_error unit * R;
  repo_EnsureLocalCreator : string -> R -> outcome auth_error string * R }.

Class AuthorizationRepositoryLaws (R : Type) `{AuthorizationRepository R} := {
  repo_abs : R -> book;
  repo_ok : R -> Prop;
  find_law : forall i k r, repo_ok r -> is_ok (ParseRequestID i) = true -> repo_FindCLIGrant i k r = spec_find i k (repo_abs r) \/
    (repo_FindCLIGrant i k r = Fail ErrAuthStatement);
  ensure_law : forall p r, repo_ok r -> validatePendingCLIGrant p = Ok tt -> is_ok (ParseID (pg_AgentID p)) = true -> bk_grants (repo_abs r) !! pg_ID p = None ->
    refined repo_abs repo_ok (spec_ensure p) (repo_EnsurePendingCLIGrant p) r;
  ensure_active_law : forall p r g, repo_ok r -> is_ok (ParseRequestID (pg_InstallationID p)) = true -> (repo_EnsurePendingCLIGrant p r).1 = Ok g ->
    cg_Status g = CLIGrantActive -> grant_of_key (pg_InstallationID p) (pg_PublicKey p) (repo_abs r) = Some g;
  decide_law : forall id approve at_ r, repo_ok r -> refined repo_abs repo_ok (spec_decide id approve at_) (repo_DecideCLIGrant id approve at_) r;
  revoke_law : forall id at_ r, repo_ok r -> refined repo_abs repo_ok (spec_revoke id at_) (repo_RevokeCLIGrant id at_) r;
  ensure_upgrade_law : forall p r, repo_ok r -> bk_upgrades (repo_abs r) !! pu_ID p = None ->
    refined repo_abs repo_ok (spec_ensure_upgrade p) (repo_EnsurePendingUpgrade p) r;
  decide_upgrade_law : forall id approve at_ r, repo_ok r ->
    refined repo_abs repo_ok (spec_decide_upgrade id approve at_) (repo_DecideUpgrade id approve at_) r;
  audit_law : forall record r, repo_ok r -> let '(a, r') := repo_AppendAuthorizationAudit record r in repo_ok r' /\ repo_abs r' = repo_abs r;
  creator_law : forall candidate r, repo_ok r -> let '(a, r') := repo_EnsureLocalCreator candidate r in repo_ok r' /\ repo_abs r' = repo_abs r }.

(** ** Searching *)

(** Entries of a map that satisfy a test, when at most one does *)
Definition unique_where {A} (test : A -> bool) (m : gmap string A) : Prop :=
  forall i j x y, m !! i = Some x -> m !! j = Some y -> test x = true -> test y = true -> i = j.

Lemma first_where_some {A} (test : A -> bool) (m : gmap string A) x : first_where test m = Some x -> exists id, m !! id = Some x /\ test x = true.
Proof.
  unfold first_where. intros Hh. assert (In x (List.filter test (map snd (map_to_list m)))) as Hi.
  { destruct (List.filter _ _); [discriminate|]. injection Hh as ->. by left. }
  apply filter_In in Hi as [Hi Ht]. apply in_map_iff in Hi as ([id y] & <- & Hi). exists id. split; [|done].
  apply list_elem_of_In, elem_of_map_to_list in Hi. done.
Qed.

Lemma first_where_none {A} (test : A -> bool) (m : gmap string A) id x : first_where test m = None -> m !! id = Some x -> test x = false.
Proof.
  unfold first_where. intros Hh Hx. destruct (test x) eqn:Et; [|done]. exfalso.
  assert (In x (List.filter test (map snd (map_to_list m)))) as Hi.
  { apply filter_In. split; [|done]. apply in_map_iff. exists (id, x). split; [done|]. by apply list_elem_of_In, elem_of_map_to_list. }
  destruct (List.filter _ _); [destruct Hi|discriminate].
Qed.

Lemma first_where_unique {A} (test : A -> bool) (m : gmap string A) id x : unique_where test m -> m !! id = Some x -> test x = true ->
  first_where test m = Some x.
Proof.
  intros Hu Hx Ht. destruct (first_where test m) as [y|] eqn:E.
  - apply first_where_some in E as (j & Hy & Hty). rewrite (Hu id j x y) in Hx by done. congruence.
  - by rewrite (first_where_none _ _ _ _ E Hx) in Ht.
Qed.

Lemma first_where_absent {A} (test : A -> bool) (m : gmap string A) : (forall id x, m !! id = Some x -> test x = false) -> first_where test m = None.
Proof.
  intros Hn. destruct (first_where test m) as [y|] eqn:E; [|done]. apply first_where_some in E as (j & Hy & Hty). by rewrite (Hn j y Hy) in Hty.
Qed.
