(* ===== verification/CliMemory.v ===== *)
(** The in-memory authorization repository
    ([apps/api/repository/cli_authorization_memory.go], the memory half of
    [cli_scope_upgrade.go], [invocation_policy.go] and [project.go]) and the
    proof that it keeps the book. *)
From stdpp Require Import base list strings gmap sorting fin_maps.
From Stdlib Require Import ZArith Lia Ascii.
From S2P Require Import Prelude GoText Exact Identity Canonical EditModel Timeline EditState EditValidate Project Database Authority CliGrants CliRepository.
Open Scope Z_scope.

(** The fields of [MemoryProjects] that authorization uses *)
Record MemoryProjects := mkMemory {
  mm_grants : gmap string CLIGrant; mm_grantKeys : gmap string string; mm_grantUpgrades : gmap string CLIGrantScopeUpgrade;
  mm_pendingUpgrades : gmap string string; mm_creator : string; mm_authorizationAudit : list AuthorizationAudit;
  mm_invocationPolicy : InvocationPolicySettings }.

Definition with_mm_grants grants keys m := mkMemory grants keys (mm_grantUpgrades m) (mm_pendingUpgrades m) (mm_creator m) (mm_authorizationAudit m)
  (mm_invocationPolicy m).
Definition with_mm_upgrades upgrades pending m := mkMemory (mm_grants m) (mm_grantKeys m) upgrades pending (mm_creator m) (mm_authorizationAudit m)
  (mm_invocationPolicy m).

Definition NewMemoryProjects : MemoryProjects := mkMemory ∅ ∅ ∅ ∅ "" [] (mkSettings 1 DefaultInvocationPolicy).

(** [installationID + "\x00" + publicKey] *)
Definition nul : ascii := byte_of 0.
Definition grant_key_text (installationID publicKey : string) : string := string_of (bytes_of installationID ++ nul :: bytes_of publicKey).

Section memory.
Context `{Platform}.

Definition Memory_FindCLIGrant (installationID publicKey : string) (m : MemoryProjects) : outcome auth_error CLIGrant :=
  match mm_grants m !! default "" (mm_grantKeys m !! grant_key_text installationID publicKey) with
  | Some grant => Ok grant
  | None => Fail ErrCLIGrantNotFound
  end.

Definition zero_grant : CLIGrant := mkGrant "" "" "" "" "" [] 0 "" (CLIGrantOther "") zero_time zero_time None None.
Definition zero_upgrade : CLIGrantScopeUpgrade := mkUpgrade "" "" 0 [] "" UpgradePending zero_time zero_time None.

Definition Memory_EnsurePendingCLIGrant (pending : PendingCLIGrant) (m : MemoryProjects) : outcome auth_error CLIGrant * MemoryProjects :=
  let key := grant_key_text (pg_InstallationID pending) (pg_PublicKey pending) in
  let id := default "" (mm_grantKeys m !! key) in
  if negb (bool_decide (id = "")) then
    let grant := default zero_grant (mm_grants m !! id) in
    if grant_lapsed grant (pg_CreatedAt pending) then
      let scopes := match NormalizeCLIScopes (pg_Scopes pending) with Ok scopes => scopes | _ => [] end in
      let grant := pending_again grant pending scopes in
      (Ok grant, with_mm_grants (<[id := grant]> (mm_grants m)) (mm_grantKeys m) m)
    else (Ok grant, m)
  else
    match NormalizeCLIScopes (pg_Scopes pending) with
    | Ok scopes =>
        let grant := new_grant pending scopes in
        (Ok grant, with_mm_grants (<[cg_ID grant := grant]> (mm_grants m)) (<[key := cg_ID grant]> (mm_grantKeys m)) m)
    | Fail e => (Fail e, m)
    | Panic => (Panic, m)
    end.

Definition Memory_DecideCLIGrant (id : string) (approve : bool) (decidedAt : Z) (m : MemoryProjects) : outcome auth_error CLIGrant * MemoryProjects :=
  match mm_grants m !! id with
  | None => (Fail ErrCLIGrantNotFound, m)
  | Some grant =>
      if negb (bool_decide (cg_Status grant = CLIGrantPending)) || negb (decidedAt <? cg_ExpiresAt grant) then
        (Fail ErrCLIGrantNotPending,
         if bool_decide (cg_Status grant = CLIGrantPending) then
           with_mm_grants (<[id := with_grant_status CLIGrantExpired (cg_DecidedAt grant) (cg_RevokedAt grant) grant]> (mm_grants m)) (mm_grantKeys m) m
         else m)
      else
        let grant := with_grant_status (if approve then CLIGrantActive else CLIGrantDenied) (Some decidedAt) (cg_RevokedAt grant) grant in
        (Ok grant, with_mm_grants (<[id := grant]> (mm_grants m)) (mm_grantKeys m) m)
  end.

Definition Memory_RevokeCLIGrant (id : string) (revokedAt : Z) (m : MemoryProjects) : outcome auth_error CLIGrant * MemoryProjects :=
  match mm_grants m !! id with
  | None => (Fail ErrCLIGrantNotFound, m)
  | Some grant =>
      if negb (bool_decide (cg_Status grant = CLIGrantActive)) then (Fail ErrCLIGrantNotActive, m)
      else
        let grant := with_grant_status CLIGrantRevoked (cg_DecidedAt grant) (Some revokedAt) grant in
        let m := with_mm_grants (<[id := grant]> (mm_grants m)) (mm_grantKeys m) m in
        let upgradeID := default "" (mm_pendingUpgrades m !! id) in
        (Ok grant,
         if negb (bool_decide (upgradeID = "")) then
           let upgrade := default zero_upgrade (mm_grantUpgrades m !! upgradeID) in
           with_mm_upgrades (<[upgradeID := decided_upgrade UpgradeExpired revokedAt upgrade]> (mm_grantUpgrades m)) (delete id (mm_pendingUpgrades m)) m
         else m)
  end.

Definition Memory_EnsurePendingUpgrade (pending : PendingCLIGrantScopeUpgrade) (m : MemoryProjects)
    : outcome auth_error CLIGrantScopeUpgrade * MemoryProjects :=
  match validatePendingCLIGrantScopeUpgrade pending with
  | Ok normalized =>
      match mm_grants m !! pu_GrantID pending with
      | None => (Fail ErrCLIGrantNotFound, m)
      | Some grant =>
          if negb (upgrade_acceptable pending normalized grant) then (Fail ErrCLIUpgradeInvalid, m)
          else
            let upgrade := new_upgrade pending normalized in
            let store upgrades pendings :=
              (Ok upgrade : outcome auth_error CLIGrantScopeUpgrade,
               with_mm_upgrades (<[up_ID upgrade := upgrade]> upgrades) (<[cg_ID grant := up_ID upgrade]> pendings) m) in
            let currentID := default "" (mm_pendingUpgrades m !! cg_ID grant) in
            if negb (bool_decide (currentID = "")) then
              let current := default zero_upgrade (mm_grantUpgrades m !! currentID) in
              if same_upgrade pending normalized current then (Ok current, m)
              else store (<[currentID := decided_upgrade (replaced_status pending current) (pu_CreatedAt pending) current]> (mm_grantUpgrades m))
                     (delete (cg_ID grant) (mm_pendingUpgrades m))
            else store (mm_grantUpgrades m) (mm_pendingUpgrades m)
      end
  | Fail e => (Fail e, m)
  | Panic => (Panic, m)
  end.

Definition Memory_DecideUpgrade (id : string) (approve : bool) (decidedAt : Z) (m : MemoryProjects)
    : outcome auth_error (CLIGrantScopeUpgrade * CLIGrant) * MemoryProjects :=
  match mm_grantUpgrades m !! id with
  | None => (Fail ErrCLIUpgradeNotFound, m)
  | Some upgrade =>
      if negb (bool_decide (up_Status upgrade = UpgradePending)) || negb (decidedAt <? up_ExpiresAt upgrade) then
        (Fail ErrCLIUpgradeNotPending,
         if bool_decide (up_Status upgrade = UpgradePending) then
           with_mm_upgrades (<[id := decided_upgrade UpgradeExpired decidedAt upgrade]> (mm_grantUpgrades m))
             (delete (up_GrantID upgrade) (mm_pendingUpgrades m)) m
         else m)
      else
        match mm_grants m !! up_GrantID upgrade with
        | None => (Fail ErrCLIUpgradeNotPending, m)
        | Some grant =>
            if negb (bool_decide (cg_Status grant = CLIGrantActive) && (cg_Revision grant =? up_FromRevision upgrade)) then (Fail ErrCLIUpgradeNotPending, m)
            else
              let decided := decided_upgrade (if approve then UpgradeApproved else UpgradeDenied) decidedAt upgrade in
              let granted := if approve then upgraded_grant upgrade grant else grant in
              let m := if approve then with_mm_grants (<[cg_ID granted := granted]> (mm_grants m)) (mm_grantKeys m) m else m in
              (Ok (decided, granted),
               with_mm_upgrades (<[id := decided]> (mm_grantUpgrades m)) (delete (up_GrantID upgrade) (mm_pendingUpgrades m)) m)
        end
  end.

Definition Memory_LoadCLIInvocationPolicy (m : MemoryProjects) : outcome auth_error InvocationPolicySettings := Ok (mm_invocationPolicy m).

Definition Memory_AppendAuthorizationAudit (record : AuthorizationAudit) (m : MemoryProjects) : outcome auth_error unit * MemoryProjects :=
  (Ok tt, mkMemory (mm_grants m) (mm_grantKeys m) (mm_grantUpgrades m) (mm_pendingUpgrades m) (mm_creator m)
    (mm_authorizationAudit m ++ [record]) (mm_invocationPolicy m)).

Definition Memory_EnsureLocalCreator (candidate : string) (m : MemoryProjects) : outcome auth_error string * MemoryProjects :=
  if IsZero candidate then (Fail ErrAuthIdentity, m)
  else
    let m := if IsZero (mm_creator m) then mkMemory (mm_grants m) (mm_grantKeys m) (mm_grantUpgrades m) (mm_pendingUpgrades m) candidate
      (mm_authorizationAudit m) (mm_invocationPolicy m) else m in
    (Ok (mm_creator m), m).
End memory.

#[export] Instance memory_repository `{Platform} : AuthorizationRepository MemoryProjects := {|
  repo_FindCLIGrant := Memory_FindCLIGrant; repo_EnsurePendingCLIGrant := Memory_EnsurePendingCLIGrant;
  repo_DecideCLIGrant := Memory_DecideCLIGrant; repo_RevokeCLIGrant := Memory_RevokeCLIGrant;
  repo_EnsurePendingUpgrade := Memory_EnsurePendingUpgrade; repo_DecideUpgrade := Memory_DecideUpgrade;
  repo_LoadCLIInvocationPolicy := Memory_LoadCLIInvocationPolicy; repo_AppendAuthorizationAudit := Memory_AppendAuthorizationAudit;
  repo_EnsureLocalCreator := Memory_EnsureLocalCreator |}.

(** * The in-memory repository keeps the book: its two indices agree with the
    grants and upgrades they point to. *)


Definition no_nul (s : string) : bool := forallb (fun a => negb (Ascii.eqb a nul)) (bytes_of s).

Lemma grant_key_inj i k i' k' : no_nul i = true -> no_nul i' = true -> grant_key_text i k = grant_key_text i' k' -> i = i' /\ k = k'.
Proof.
  intros Hi Hi' E. unfold grant_key_text in E. apply (f_equal bytes_of) in E. rewrite !bytes_of_string_of in E.
  destruct (span_unique (fun a => negb (Ascii.eqb a nul)) (bytes_of i) (bytes_of i') (nul :: bytes_of k) (nul :: bytes_of k')) as [H1 H2]; try done.
  split; [by apply bytes_of_inj|]. apply (f_equal tail) in H2. by apply bytes_of_inj.
Qed.

Lemma request_id_no_nul i : is_ok (ParseRequestID i) = true -> no_nul i = true.
Proof.
  unfold ParseRequestID, no_nul. destruct (request_id_matches i) eqn:E; [|discriminate]. intros _. unfold request_id_matches in E.
  destruct (bytes_of i) as [|a l]; [done|].
  assert (Hc : forall c, (is_lower c || is_upper c || is_digit c || contains_rune "._:-" (byte_val c)) = true -> negb (Ascii.eqb c nul) = true).
  { intros c Hc. destruct (Ascii.eqb c nul) eqn:En; [|done]. apply Ascii.eqb_eq in En as ->. vm_compute in Hc. discriminate. }
  bool_prop. cbn. apply andb_true_iff. split.
  - apply Hc. by rewrite H.
  - apply forallb_forall. intros c Hin. apply Hc. rewrite forallb_forall in H1. by apply H1.
Qed.

Definition key_of_grant (g : CLIGrant) : string := grant_key_text (cg_InstallationID g) (cg_PublicKey g).

Record mm_ok (m : MemoryProjects) : Prop := mkMemoryOk {
  mo_ids : forall id g, mm_grants m !! id = Some g -> cg_ID g = id /\ id <> "" /\ no_nul (cg_InstallationID g) = true;
  mo_keys : forall id g, mm_grants m !! id = Some g -> mm_grantKeys m !! key_of_grant g = Some id;
  mo_index : forall k id, mm_grantKeys m !! k = Some id -> exists g, mm_grants m !! id = Some g /\ key_of_grant g = k;
  mo_upgrade_ids : forall id u, mm_grantUpgrades m !! id = Some u -> up_ID u = id /\ id <> "";
  mo_pending : forall id u, mm_grantUpgrades m !! id = Some u -> up_Status u = UpgradePending -> mm_pendingUpgrades m !! up_GrantID u = Some id;
  mo_pending_index : forall g id, mm_pendingUpgrades m !! g = Some id ->
    exists u, mm_grantUpgrades m !! id = Some u /\ up_GrantID u = g /\ up_Status u = UpgradePending }.

Definition mm_book (m : MemoryProjects) : book := mkBook (mm_grants m) (mm_grantUpgrades m).

Lemma has_key_true i k g : has_key i k g = true <-> cg_InstallationID g = i /\ cg_PublicKey g = k.
Proof. unfold has_key. by rewrite andb_true_iff, !bool_decide_eq_true. Qed.
Lemma is_pending_true g u : is_pending_of g u = true <-> up_GrantID u = g /\ up_Status u = UpgradePending.
Proof. unfold is_pending_of. by rewrite andb_true_iff, !bool_decide_eq_true. Qed.

Lemma mm_keys_unique m i k : mm_ok m -> unique_where (has_key i k) (mm_grants m).
Proof.
  intros Ho a b x y Hx Hy [Ex Kx]%has_key_true [Ey Ky]%has_key_true. apply (mo_keys _ Ho) in Hx, Hy.
  unfold key_of_grant in *. rewrite Ex, Kx in Hx. rewrite Ey, Ky in Hy. congruence.
Qed.

Lemma mm_grant_of_key m i k : mm_ok m -> no_nul i = true ->
  grant_of_key i k (mm_book m) = id ← mm_grantKeys m !! grant_key_text i k; mm_grants m !! id.
Proof.
  intros Ho Hi. unfold grant_of_key, mm_book. cbn [bk_grants]. destruct (mm_grantKeys m !! grant_key_text i k) as [id|] eqn:E; cbn.
  - destruct (mo_index _ Ho _ _ E) as (g & Hg & Hk). rewrite Hg. destruct (mo_ids _ Ho _ _ Hg) as (_ & _ & Hn).
    apply grant_key_inj in Hk as [Hk1 Hk2]; [|done..]. eapply first_where_unique; [by apply mm_keys_unique|exact Hg|]. by apply has_key_true.
  - apply first_where_absent. intros id g Hg. destruct (has_key i k g) eqn:Hk; [|done]. apply has_key_true in Hk as [H1 H2].
    apply (mo_keys _ Ho) in Hg. unfold key_of_grant in Hg. rewrite H1, H2 in Hg. congruence.
Qed.

Lemma mm_pending_of m g : mm_ok m -> pending_of g (mm_book m) = id ← mm_pendingUpgrades m !! g; mm_grantUpgrades m !! id.
Proof.
  intros Ho. unfold pending_of, mm_book. cbn [bk_upgrades]. destruct (mm_pendingUpgrades m !! g) as [id|] eqn:E; cbn.
  - destruct (mo_pending_index _ Ho _ _ E) as (u & Hu & Hg & Hp). rewrite Hu. eapply first_where_unique; [|exact Hu|by apply is_pending_true].
    intros a b x y Hx Hy [Ex Px]%is_pending_true [Ey Py]%is_pending_true. apply (mo_pending _ Ho) in Hx, Hy; [|done..]. congruence.
  - apply first_where_absent. intros id u Hu. destruct (is_pending_of g u) eqn:Hk; [|done]. apply is_pending_true in Hk as [H1 H2].
    apply (mo_pending _ Ho) in Hu; [|done]. congruence.
Qed.

(** Replacing a grant by one of the same identity and key *)
Lemma mm_ok_replace m id g g' : mm_ok m -> mm_grants m !! id = Some g -> cg_ID g' = id -> cg_InstallationID g' = cg_InstallationID g ->
  cg_PublicKey g' = cg_PublicKey g -> mm_ok (with_mm_grants (<[id := g']> (mm_grants m)) (mm_grantKeys m) m).
Proof.
  intros Ho Hg Hid Hi Hk. assert (key_of_grant g' = key_of_grant g) as Ek by (unfold key_of_grant; by rewrite Hi, Hk).
  split; cbn; try apply Ho.
  - intros j x [[<- <-]|[_ Hx]]%lookup_insert_Some; [|by apply Ho]. destruct (mo_ids _ Ho _ _ Hg) as (_ & Hne & Hn). by rewrite Hi.
  - intros j x [[<- <-]|[_ Hx]]%lookup_insert_Some; [rewrite Ek|]; by apply Ho.
  - intros k j Hj. destruct (mo_index _ Ho _ _ Hj) as (x & Hx & <-). destruct (decide (id = j)) as [->|Hne].
    + exists g'. rewrite lookup_insert. split; [by rewrite decide_True by done|congruence].
    + exists x. by rewrite lookup_insert_ne.
Qed.

(** A grant under a new identity and key *)
Lemma mm_ok_add m g : mm_ok m -> mm_grants m !! cg_ID g = None -> mm_grantKeys m !! key_of_grant g = None -> cg_ID g <> "" ->
  no_nul (cg_InstallationID g) = true -> mm_ok (with_mm_grants (<[cg_ID g := g]> (mm_grants m)) (<[key_of_grant g := cg_ID g]> (mm_grantKeys m)) m).
Proof.
  intros Ho Hfresh Hkey Hne Hn. split; cbn; try apply Ho.
  - intros j x [[<- <-]|[_ Hx]]%lookup_insert_Some; [done|by apply Ho].
  - intros j x [[<- <-]|[Hj Hx]]%lookup_insert_Some; [by rewrite lookup_insert, decide_True by done|].
    pose proof (mo_keys _ Ho _ _ Hx) as Hk. rewrite lookup_insert_ne; [done|]. intros E. rewrite <- E in Hk. congruence.
  - intros k j [[<- <-]|[Hk Hj]]%lookup_insert_Some; [exists g; by rewrite lookup_insert, decide_True by done|].
    destruct (mo_index _ Ho _ _ Hj) as (x & Hx & <-). exists x. rewrite lookup_insert_ne; [done|]. intros E. rewrite <- E in Hx. congruence.
Qed.

(** An upgrade that is pending no more *)
Lemma mm_ok_settle m id u u' : mm_ok m -> mm_grantUpgrades m !! id = Some u -> up_Status u = UpgradePending -> up_ID u' = id ->
  up_Status u' <> UpgradePending ->
  mm_ok (with_mm_upgrades (<[id := u']> (mm_grantUpgrades m)) (delete (up_GrantID u) (mm_pendingUpgrades m)) m).
Proof.
  intros Ho Hu Hp Hid Hs. pose proof (mo_pending _ Ho _ _ Hu Hp) as Hidx. split; cbn; try apply Ho.
  - intros j x [[<- <-]|[_ Hx]]%lookup_insert_Some; [split; [done|by eapply (mo_upgrade_ids _ Ho)]|by apply Ho].
  - intros j x [[<- <-]|[Hj Hx]]%lookup_insert_Some Hst; [done|]. pose proof (mo_pending _ Ho _ _ Hx Hst) as Hk.
    rewrite lookup_delete_ne; [done|]. intros E. rewrite <- E in Hk. congruence.
  - intros g j [Hg Hj]%lookup_delete_Some. destruct (mo_pending_index _ Ho _ _ Hj) as (x & Hx & Hxg & Hxs). exists x.
    rewrite lookup_insert_ne; [done|]. intros <-. congruence.
Qed.

Lemma mm_ok_propose m u : mm_ok m -> mm_grantUpgrades m !! up_ID u = None -> mm_pendingUpgrades m !! up_GrantID u = None -> up_ID u <> "" ->
  up_Status u = UpgradePending ->
  mm_ok (with_mm_upgrades (<[up_ID u := u]> (mm_grantUpgrades m)) (<[up_GrantID u := up_ID u]> (mm_pendingUpgrades m)) m).
Proof.
  intros Ho Hfresh Hnone Hne Hs. split; cbn; try apply Ho.
  - intros j x [[<- <-]|[_ Hx]]%lookup_insert_Some; [done|by apply Ho].
  - intros j x [[<- <-]|[Hj Hx]]%lookup_insert_Some Hst; [by rewrite lookup_insert, decide_True by done|].
    pose proof (mo_pending _ Ho _ _ Hx Hst) as Hk. rewrite lookup_insert_ne; [done|]. intros E. rewrite <- E in Hk. congruence.
  - intros g j [[<- <-]|[Hg Hj]]%lookup_insert_Some; [exists u; by rewrite lookup_insert, decide_True by done|].
    destruct (mo_pending_index _ Ho _ _ Hj) as (x & Hx & Hxg & Hxs). exists x. rewrite lookup_insert_ne; [done|]. intros E. rewrite <- E in Hx. congruence.
Qed.

(** ** The laws *)

Lemma parsed_id_nonempty s : is_ok (ParseID s) = true -> s <> "".
Proof. intros Hp ->. by vm_compute in Hp. Qed.

Section laws.
Context `{Platform}.

Lemma mm_find m i k : mm_ok m -> no_nul i = true -> Memory_FindCLIGrant i k m = spec_find i k (mm_book m).
Proof.
  intros Ho Hn. unfold Memory_FindCLIGrant, spec_find. rewrite mm_grant_of_key by done.
  destruct (mm_grantKeys m !! grant_key_text i k) as [id|] eqn:E; cbn; [done|].
  destruct (mm_grants m !! "") as [g|] eqn:Eg; [|done]. by destruct (mo_ids _ Ho _ _ Eg) as (_ & ? & _).
Qed.

Lemma mm_ensure m p : mm_ok m -> validatePendingCLIGrant p = Ok tt -> mm_grants m !! pg_ID p = None ->
  exactly mm_book mm_ok (spec_ensure p) (Memory_EnsurePendingCLIGrant p) m.
Proof.
  intros Ho Hv Hf. unfold validatePendingCLIGrant in Hv. outcome_inv.
  pose proof (request_id_no_nul _ ltac:(eassumption)) as Hn. pose proof (parsed_id_nonempty _ ltac:(eassumption)) as Hid.
  unfold exactly, Memory_EnsurePendingCLIGrant, spec_ensure. rewrite mm_grant_of_key by done.
  destruct (NormalizeCLIScopes (pg_Scopes p)) as [scopes| |] eqn:En; try discriminate.
  destruct (mm_grantKeys m !! grant_key_text (pg_InstallationID p) (pg_PublicKey p)) as [id|] eqn:Ek; cbn [from_option Datatypes.id mbind option_bind].
  - destruct (mo_index _ Ho _ _ Ek) as (g & Hg & Hk). destruct (mo_ids _ Ho _ _ Hg) as (Hgi & Hne & _).
    rewrite bool_decide_eq_false_2 by done. cbn [negb]. rewrite Hg. cbn [from_option Datatypes.id].
    destruct (grant_lapsed g (pg_CreatedAt p)); [|by split]. split; [by eapply mm_ok_replace|]. unfold put_grant. by cbn; rewrite Hgi.
  - rewrite bool_decide_eq_true_2 by done. cbn [negb]. split; [|done].
    apply (mm_ok_add m (new_grant p scopes)); done.
Qed.

Lemma mm_ensure_active m p g : mm_ok m -> no_nul (pg_InstallationID p) = true -> (Memory_EnsurePendingCLIGrant p m).1 = Ok g ->
  cg_Status g = CLIGrantActive -> grant_of_key (pg_InstallationID p) (pg_PublicKey p) (mm_book m) = Some g.
Proof.
  intros Ho Hn He Ha. unfold Memory_EnsurePendingCLIGrant in He. rewrite mm_grant_of_key by done.
  destruct (mm_grantKeys m !! grant_key_text (pg_InstallationID p) (pg_PublicKey p)) as [id|] eqn:Ek; cbn [from_option Datatypes.id mbind option_bind] in *.
  - destruct (mo_index _ Ho _ _ Ek) as (x & Hx & _). destruct (mo_ids _ Ho _ _ Hx) as (_ & Hne & _).
    rewrite bool_decide_eq_false_2 in He by done. cbn [negb] in He. rewrite Hx in He |- *. cbn [from_option Datatypes.id] in He.
    destruct (grant_lapsed x _); injection He as <-; [discriminate|done].
  - rewrite bool_decide_eq_true_2 in He by done. cbn [negb] in He.
    destruct (NormalizeCLIScopes (pg_Scopes p)); [|discriminate..]. by injection He as <-.
Qed.

Lemma mm_decide m id approve at_ : mm_ok m -> exactly mm_book mm_ok (spec_decide id approve at_) (Memory_DecideCLIGrant id approve at_) m.
Proof.
  intros Ho. unfold exactly, Memory_DecideCLIGrant, spec_decide. cbn [mm_book bk_grants]. destruct (mm_grants m !! id) as [g|] eqn:Hg; [|by split].
  destruct (mo_ids _ Ho _ _ Hg) as (Hgi & _ & _). unfold put_grant. cbn.
  destruct (bool_decide (cg_Status g = CLIGrantPending)); cbn; [|by split].
  destruct (at_ <? cg_ExpiresAt g); cbn; rewrite Hgi; (split; [by eapply mm_ok_replace|done]).
Qed.

Lemma mm_revoke m id at_ : mm_ok m -> exactly mm_book mm_ok (spec_revoke id at_) (Memory_RevokeCLIGrant id at_) m.
Proof.
  intros Ho. unfold exactly, Memory_RevokeCLIGrant, spec_revoke. cbn [mm_book bk_grants]. destruct (mm_grants m !! id) as [g|] eqn:Hg; [|by split].
  destruct (mo_ids _ Ho _ _ Hg) as (Hgi & _ & _). destruct (bool_decide (cg_Status g = CLIGrantActive)); cbn [negb]; [|by split].
  rewrite (mm_pending_of m id Ho). unfold put_grant, put_upgrade. cbn -[lookup insert delete]. rewrite Hgi.
  pose proof (mm_ok_replace m id g (with_grant_status CLIGrantRevoked (cg_DecidedAt g) (Some at_) g) Ho Hg Hgi eq_refl eq_refl) as Ho'.
  destruct (mm_pendingUpgrades m !! id) as [uid|] eqn:Eu; cbn -[lookup insert delete].
  - destruct (mo_pending_index _ Ho _ _ Eu) as (u & Hu & Hug & Hus). destruct (mo_upgrade_ids _ Ho _ _ Hu) as [Hui Hune].
    rewrite bool_decide_eq_false_2 by done. cbn [negb]. rewrite Hu. cbn [from_option Datatypes.id]. split; [|by rewrite <- Hui].
    pose proof (mm_ok_settle _ uid u (decided_upgrade UpgradeExpired at_ u) Ho' Hu Hus Hui ltac:(done)) as Hfin. by rewrite Hug in Hfin.
  - by split.
Qed.

Lemma mm_ensure_upgrade m p : mm_ok m -> mm_grantUpgrades m !! pu_ID p = None ->
  exactly mm_book mm_ok (spec_ensure_upgrade p) (Memory_EnsurePendingUpgrade p) m.
Proof.
  intros Ho Hf. unfold exactly, Memory_EnsurePendingUpgrade, spec_ensure_upgrade.
  destruct (validatePendingCLIGrantScopeUpgrade p) as [scopes|e|] eqn:Ev; [|by split..].
  assert (pu_ID p <> "") as Hid. { unfold validatePendingCLIGrantScopeUpgrade in Ev. outcome_inv. by apply parsed_id_nonempty. }
  cbn [mm_book bk_grants]. destruct (mm_grants m !! pu_GrantID p) as [g|] eqn:Hg; [|by split].
  destruct (mo_ids _ Ho _ _ Hg) as (Hgi & _ & _). destruct (upgrade_acceptable p scopes g); cbn [negb]; [|by split].
  rewrite (mm_pending_of m _ Ho), Hgi. destruct (mm_pendingUpgrades m !! pu_GrantID p) as [uid|] eqn:Eu; cbn [from_option Datatypes.id mbind option_bind].
  - destruct (mo_pending_index _ Ho _ _ Eu) as (u & Hu & Hug & Hus). destruct (mo_upgrade_ids _ Ho _ _ Hu) as [Hui Hune].
    rewrite bool_decide_eq_false_2 by done. cbn [negb]. rewrite Hu. cbn [from_option Datatypes.id]. destruct (same_upgrade p scopes u); [by split|].
    unfold put_upgrade. cbn -[lookup insert delete]. split; [|by rewrite <- Hui].
    assert (mm_ok (with_mm_upgrades (<[uid := decided_upgrade (replaced_status p u) (pu_CreatedAt p) u]> (mm_grantUpgrades m))
      (delete (up_GrantID u) (mm_pendingUpgrades m)) m)) as Ho'.
    { apply mm_ok_settle; try done. cbn. unfold replaced_status. by destruct (negb _). }
    rewrite Hug in Ho'.
    apply (mm_ok_propose _ (new_upgrade p scopes) Ho'); cbn; try done.
    + rewrite lookup_insert_ne; [done|]. intros ->. congruence.
    + by rewrite lookup_delete, decide_True by done.
  - rewrite bool_decide_eq_true_2 by done. cbn [negb]. split; [|done]. by apply (mm_ok_propose m (new_upgrade p scopes)).
Qed.

Lemma mm_decide_upgrade m id approve at_ : mm_ok m ->
  exactly mm_book mm_ok (spec_decide_upgrade id approve at_) (Memory_DecideUpgrade id approve at_) m.
Proof.
  intros Ho. unfold exactly, Memory_DecideUpgrade, spec_decide_upgrade. cbn [mm_book bk_upgrades bk_grants].
  destruct (mm_grantUpgrades m !! id) as [u|] eqn:Hu; [|by split]. destruct (mo_upgrade_ids _ Ho _ _ Hu) as [Hui Hune].
  unfold put_upgrade, put_grant. cbn -[lookup insert delete].
  destruct (bool_decide_reflect (up_Status u = UpgradePending)) as [Hs|Hs]; cbn [negb orb]; [|by split].
  destruct (at_ <? up_ExpiresAt u); cbn [negb]; [|split; [by apply mm_ok_settle|by rewrite Hui]].
  destruct (mm_grants m !! up_GrantID u) as [g|] eqn:Hg; [|by split]. destruct (mo_ids _ Ho _ _ Hg) as (Hgi & _ & _).
  destruct (bool_decide (cg_Status g = CLIGrantActive) && (cg_Revision g =? up_FromRevision u)); cbn [negb]; [|by split].
  destruct approve; cbn -[lookup insert delete]; rewrite Hui, Hgi.
  - split; [|done].
    pose proof (mm_ok_replace m _ g (upgraded_grant u g) Ho Hg Hgi eq_refl eq_refl) as Ho'. by apply (mm_ok_settle _ id u _ Ho').
  - split; [by apply mm_ok_settle|]. rewrite (insert_id (mm_grants m)) by exact Hg. done.
Qed.
End laws.

#[export] Instance memory_laws `{Platform} : AuthorizationRepositoryLaws MemoryProjects.
Proof.
  refine {| repo_abs := mm_book; repo_ok := mm_ok |}.
  - intros i k m Ho Hi. left. by apply mm_find, request_id_no_nul.
  - intros p m Ho Hv _ Hf. by apply exactly_refined, mm_ensure.
  - intros p m g Ho Hi. by apply mm_ensure_active, request_id_no_nul.
  - intros id approve at_ m Ho. by apply exactly_refined, mm_decide.
  - intros id at_ m Ho. by apply exactly_refined, mm_revoke.
  - intros p m Ho Hf. by apply exactly_refined, mm_ensure_upgrade.
  - intros id approve at_ m Ho. by apply exactly_refined, mm_decide_upgrade.
  - intros record m [? ? ? ? ? ?]. cbn. split; [by split|done].
  - intros candidate m Ho. cbn. unfold Memory_EnsureLocalCreator. destruct (IsZero candidate); [done|].
    destruct (IsZero (mm_creator m)); [|done]. destruct Ho. by split; [split|].
Defined.

Lemma memory_starts_ok : mm_ok NewMemoryProjects.
Proof. split; cbn; intros *; rewrite lookup_empty; discriminate. Qed.
