(* ===== verification/CliTables.v ===== *)
(** The authorization tables keep the book: every row reads back as the grant or
    upgrade that was written, one grant has a key, and one upgrade of a grant is
    pending. *)
From stdpp Require Import base list strings gmap sorting fin_maps.
From Stdlib Require Import ZArith Lia Ascii.
From S2P Require Import Prelude GoText Exact Identity Canonical EditModel Timeline EditState EditValidate Project Database Authority CliGrants CliRepository.
From S2P Require Import CliMemory.
Open Scope Z_scope.

Section tables_book.
Context `{Platform} `{AuthSQLite}.

Definition row_grant (id : string) (row : grant_row) : CLIGrant :=
  mkGrant id (gr_installation_id row) (gr_agent_id row) (gr_public_key row) (gr_public_key_fingerprint row) (gr_scopes_json row) (gr_revision row)
    (text_or_empty (CLIScopeDigest (gr_scopes_json row))) (gr_status row) (gr_created_at row) (gr_expires_at row) (gr_decided_at row) (gr_revoked_at row).
Definition row_upgrade (id : string) (row : upgrade_row) : CLIGrantScopeUpgrade :=
  mkUpgrade id (ur_grant_id row) (ur_from_revision row) (ur_requested_scopes_json row) (text_or_empty (CLIScopeDigest (ur_requested_scopes_json row)))
    (ur_status row) (ur_created_at row) (ur_expires_at row) (ur_decided_at row).

Definition revision_ok (r : Z) : Prop := 1 <= r <= MaxInt64.
Definition grant_row_ok (row : grant_row) : Prop :=
  is_ok (ParseID (gr_agent_id row)) = true /\ revision_ok (gr_revision row) /\ NormalizeCLIScopes (gr_scopes_json row) = Ok (gr_scopes_json row).
Definition upgrade_row_ok (row : upgrade_row) : Prop :=
  revision_ok (ur_from_revision row) /\ NormalizeCLIScopes (ur_requested_scopes_json row) = Ok (ur_requested_scopes_json row).

Definition row_has_key (installationID publicKey : string) (row : grant_row) : bool :=
  bool_decide (gr_installation_id row = installationID) && bool_decide (gr_public_key row = publicKey).
Definition row_is_pending (grantID : string) (row : upgrade_row) : bool :=
  bool_decide (ur_grant_id row = grantID) && bool_decide (ur_status row = UpgradePending).

Record tables_ok (t : auth_tables) : Prop := mkTablesOk {
  to_grants : forall id row, at_installation_grants t !! id = Some row -> grant_row_ok row;
  to_upgrades : forall id row, at_scope_upgrades t !! id = Some row -> upgrade_row_ok row;
  to_keys : forall i k, unique_where (row_has_key i k) (at_installation_grants t);
  to_pending : forall g, unique_where (row_is_pending g) (at_scope_upgrades t);
  to_refs : forall id row, at_scope_upgrades t !! id = Some row -> is_Some (at_installation_grants t !! ur_grant_id row) }.

Definition tables_book (t : auth_tables) : book :=
  mkBook (map_imap (fun id row => Some (row_grant id row)) (at_installation_grants t))
    (map_imap (fun id row => Some (row_upgrade id row)) (at_scope_upgrades t)).

(** ** Reading back *)

Lemma revision_ok_new r : revision_ok r -> is_ok (NewRevision r) && (1 <=? r) = true.
Proof. unfold revision_ok, NewRevision. intros [H1 H2]. destruct (MaxInt64 <? r) eqn:E; [apply Z.ltb_lt in E; lia|]. cbn. by apply Z.leb_le. Qed.

Lemma digest_fixed scopes : NormalizeCLIScopes scopes = Ok scopes -> CLIScopeDigest scopes = Ok (text_or_empty (CLIScopeDigest scopes)).
Proof. unfold CLIScopeDigest. intros ->. done. Qed.

Lemma scan_grant_ok id row : grant_row_ok row -> scanCLIGrant id row = Ok (row_grant id row).
Proof.
  intros (Ha & Hr & Hn). unfold scanCLIGrant. unfold ParseID in *. destruct (negb (isUUIDv7 (gr_agent_id row))); [discriminate|]. cbn -[CLIScopeDigest].
  unfold guard_or. rewrite revision_ok_new by done. cbn -[CLIScopeDigest]. rewrite Hn. cbn -[CLIScopeDigest]. rewrite digest_fixed by done. done.
Qed.

Lemma scan_upgrade_ok id row : upgrade_row_ok row -> scanCLIGrantScopeUpgrade id row = Ok (row_upgrade id row).
Proof.
  intros (Hr & Hn). unfold scanCLIGrantScopeUpgrade, guard_or. rewrite revision_ok_new by done. cbn -[CLIScopeDigest]. rewrite Hn. cbn -[CLIScopeDigest].
  rewrite digest_fixed by done. done.
Qed.

Lemma book_grant t id : bk_grants (tables_book t) !! id = row_grant id <$> (at_installation_grants t !! id).
Proof. cbn. rewrite map_lookup_imap. by destruct (at_installation_grants t !! id). Qed.
Lemma book_upgrade t id : bk_upgrades (tables_book t) !! id = row_upgrade id <$> (at_scope_upgrades t !! id).
Proof. cbn. rewrite map_lookup_imap. by destruct (at_scope_upgrades t !! id). Qed.

(** A query over the rows that keeps at most one of them finds the entry of the book. *)
Lemma filtered_first {A} (test : A -> bool) (m : gmap string A) : unique_where test m ->
  match List.filter (fun e : string * A => test e.2) (map_to_list m) with
  | (id, row) :: _ => m !! id = Some row /\ test row = true
  | [] => forall id row, m !! id = Some row -> test row = false
  end.
Proof.
  intros Hu. destruct (List.filter _ _) as [|[id row] rest] eqn:E.
  - intros id row Hi. destruct (test row) eqn:Et; [|done]. exfalso.
    assert (In (id, row) (List.filter (fun e : string * A => test e.2) (map_to_list m))) as Hin.
    { apply filter_In. split; [|done]. by apply list_elem_of_In, elem_of_map_to_list. }
    by rewrite E in Hin.
  - assert (In (id, row) (List.filter (fun e : string * A => test e.2) (map_to_list m))) as Hin by (rewrite E; by left).
    apply filter_In in Hin as [Hin Ht]. split; [|done]. by apply list_elem_of_In, elem_of_map_to_list in Hin.
Qed.

Lemma tables_grant_of_key t i k : tables_ok t ->
  match grants_of_key i k t with
  | (id, row) :: _ => at_installation_grants t !! id = Some row /\ row_has_key i k row = true /\ grant_of_key i k (tables_book t) = Some (row_grant id row)
  | [] => (forall id row, at_installation_grants t !! id = Some row -> row_has_key i k row = false) /\ grant_of_key i k (tables_book t) = None
  end.
Proof.
  intros Ho. pose proof (filtered_first (row_has_key i k) _ (to_keys _ Ho i k)) as Hf. unfold grants_of_key. fold (row_has_key i k) in *.
  change (List.filter _ _) with (List.filter (fun e : string * grant_row => row_has_key i k e.2) (map_to_list (at_installation_grants t))).
  destruct (List.filter _ _) as [|[id row] rest].
  - split; [done|]. apply first_where_absent. intros id g. rewrite book_grant. intros (row & Hg & ->)%fmap_Some. by apply (Hf id row).
  - destruct Hf as [Hf Ht]. split; [done|]. split; [done|]. apply (first_where_unique _ _ id); [|by rewrite book_grant, Hf|done].
    intros a b x y. rewrite !book_grant. intros (rx & Hx & ->)%fmap_Some (ry & Hy & ->)%fmap_Some. by apply (to_keys _ Ho i k).
Qed.

Lemma tables_pending_of t g : tables_ok t ->
  match pending_upgrades g t with
  | (id, row) :: _ => at_scope_upgrades t !! id = Some row /\ row_is_pending g row = true /\ pending_of g (tables_book t) = Some (row_upgrade id row)
  | [] => (forall id row, at_scope_upgrades t !! id = Some row -> row_is_pending g row = false) /\ pending_of g (tables_book t) = None
  end.
Proof.
  intros Ho. pose proof (filtered_first (row_is_pending g) _ (to_pending _ Ho g)) as Hf. unfold pending_upgrades.
  change (List.filter _ _) with (List.filter (fun e : string * upgrade_row => row_is_pending g e.2) (map_to_list (at_scope_upgrades t))).
  destruct (List.filter _ _) as [|[id row] rest].
  - split; [done|]. apply first_where_absent. intros id u. rewrite book_upgrade. intros (row & Hg & ->)%fmap_Some. by apply (Hf id row).
  - destruct Hf as [Hf Ht]. split; [done|]. split; [done|]. apply (first_where_unique _ _ id); [|by rewrite book_upgrade, Hf|done].
    intros a b x y. rewrite !book_upgrade. intros (rx & Hx & ->)%fmap_Some (ry & Hy & ->)%fmap_Some. by apply (to_pending _ Ho g).
Qed.

(** ** Writing *)

Lemma unique_replace {A} (test : A -> bool) (m : gmap string A) id row row' : unique_where test m -> m !! id = Some row ->
  (test row' = true -> test row = true) -> unique_where test (<[id := row']> m).
Proof.
  intros Hu Hr Ht i j x y [[<- <-]|[Hi Hx]]%lookup_insert_Some [[<- <-]|[Hj Hy]]%lookup_insert_Some Hxt Hyt; [done| | |by eapply Hu].
  - apply (Hu id j row y); auto.
  - apply (Hu i id x row); auto.
Qed.

Lemma unique_add {A} (test : A -> bool) (m : gmap string A) id row : unique_where test m ->
  (test row = true -> forall j x, m !! j = Some x -> test x = false) -> unique_where test (<[id := row]> m).
Proof.
  intros Hu Hn i j x y [[<- <-]|[Hi Hx]]%lookup_insert_Some [[<- <-]|[Hj Hy]]%lookup_insert_Some Hxt Hyt; [done| | |by eapply Hu].
  - by rewrite (Hn Hxt j y Hy) in Hyt.
  - by rewrite (Hn Hyt i x Hx) in Hxt.
Qed.

Lemma book_put_grant t id row : tables_book (with_grants (<[id := row]>) t) = put_grant (row_grant id row) (tables_book t).
Proof. unfold tables_book, put_grant. cbn. by rewrite map_imap_insert. Qed.
Lemma book_put_upgrade t id row : tables_book (with_upgrades (<[id := row]>) t) = put_upgrade (row_upgrade id row) (tables_book t).
Proof. unfold tables_book, put_upgrade. cbn. by rewrite map_imap_insert. Qed.

Lemma tables_ok_grant t id row row' : tables_ok t -> at_installation_grants t !! id = Some row -> grant_row_ok row' ->
  gr_installation_id row' = gr_installation_id row -> gr_public_key row' = gr_public_key row -> tables_ok (with_grants (<[id := row']>) t).
Proof.
  intros Ho Hr Hok Hi Hk. split; cbn; try apply Ho.
  - intros j x [[<- <-]|[_ Hx]]%lookup_insert_Some; [done|]. by eapply to_grants.
  - intros i k. eapply unique_replace; [apply Ho|exact Hr|]. unfold row_has_key. by rewrite Hi, Hk.
  - intros j x Hx. apply lookup_insert_is_Some'. right. by eapply to_refs.
Qed.

Lemma tables_ok_add_grant t id row : tables_ok t -> grant_row_ok row ->
  (forall j x, at_installation_grants t !! j = Some x -> row_has_key (gr_installation_id row) (gr_public_key row) x = false) ->
  tables_ok (with_grants (<[id := row]>) t).
Proof.
  intros Ho Hok Hn. split; cbn; try apply Ho.
  - intros j x [[<- <-]|[_ Hx]]%lookup_insert_Some; [done|]. by eapply to_grants.
  - intros i k. apply unique_add; [apply Ho|]. intros Ht j x Hx. apply (Hn _ _) in Hx. unfold row_has_key in *.
    apply andb_true_iff in Ht as [<-%bool_decide_eq_true <-%bool_decide_eq_true]. done.
  - intros j x Hx. apply lookup_insert_is_Some'. right. by eapply to_refs.
Qed.

Lemma tables_ok_upgrade t id row row' : tables_ok t -> at_scope_upgrades t !! id = Some row -> upgrade_row_ok row' ->
  ur_grant_id row' = ur_grant_id row -> ur_status row' <> UpgradePending -> tables_ok (with_upgrades (<[id := row']>) t).
Proof.
  intros Ho Hr Hok Hg Hs. split; cbn; try apply Ho.
  - intros j x [[<- <-]|[_ Hx]]%lookup_insert_Some; [done|]. by eapply to_upgrades.
  - intros g. eapply unique_replace; [apply Ho|exact Hr|]. unfold row_is_pending. rewrite (bool_decide_eq_false_2 (ur_status row' = _)) by done.
    by rewrite andb_false_r.
  - intros j x [[<- <-]|[_ Hx]]%lookup_insert_Some; [rewrite Hg|]; by eapply to_refs.
Qed.

Lemma tables_ok_add_upgrade t id row : tables_ok t -> upgrade_row_ok row -> is_Some (at_installation_grants t !! ur_grant_id row) ->
  (forall j x, at_scope_upgrades t !! j = Some x -> row_is_pending (ur_grant_id row) x = false) -> tables_ok (with_upgrades (<[id := row]>) t).
Proof.
  intros Ho Hok Hg Hn. split; cbn; try apply Ho.
  - intros j x [[<- <-]|[_ Hx]]%lookup_insert_Some; [done|]. by eapply to_upgrades.
  - intros g. apply unique_add; [apply Ho|]. intros Ht j x Hx. apply (Hn _ _) in Hx. unfold row_is_pending in *.
    apply andb_true_iff in Ht as [<-%bool_decide_eq_true _]. done.
  - intros j x [[<- <-]|[_ Hx]]%lookup_insert_Some; [done|]. by eapply to_refs.
Qed.

(** An UPDATE whose condition selects one row, or none *)
Lemma update_one (where_ : string -> upgrade_row -> bool) f t id row : at_scope_upgrades t !! id = Some row ->
  (forall j x, at_scope_upgrades t !! j = Some x -> where_ j x = bool_decide (j = id)) ->
  with_upgrades (map_imap (fun id row => Some (if where_ id row then f row else row))) t = with_upgrades (<[id := f row]>) t.
Proof.
  intros Hr Hw. unfold with_upgrades. f_equal. apply map_eq. intros j. rewrite map_lookup_imap. destruct (decide (id = j)) as [->|Hne].
  - rewrite Hr, lookup_insert, decide_True by done. cbn. rewrite (Hw j row Hr). by rewrite bool_decide_eq_true_2.
  - rewrite lookup_insert_ne by done. destruct (at_scope_upgrades t !! j) as [x|] eqn:E; [|done]. cbn. rewrite (Hw j x E).
    by rewrite bool_decide_eq_false_2 by done.
Qed.

Lemma update_none (where_ : string -> upgrade_row -> bool) f t : (forall j x, at_scope_upgrades t !! j = Some x -> where_ j x = false) ->
  with_upgrades (map_imap (fun id row => Some (if where_ id row then f row else row))) t = t.
Proof.
  intros Hw. destruct t as [c a g u au s]. unfold with_upgrades. cbn in *. f_equal. apply map_eq. intros j. rewrite map_lookup_imap.
  destruct (u !! j) as [x|] eqn:E; [|done]. cbn. by rewrite (Hw j x E).
Qed.

(** ** Running statements *)

Lemma auth_bind_ok {A B} (m : AuthTx A) (f : A -> AuthTx B) t b t'' : (m ≫= f) t = Ok (b, t'') -> exists a t', m t = Ok (a, t') /\ f a t' = Ok (b, t'').
Proof. unfold mbind, ST_bind. destruct (m t) as [[a t']| |]; [|discriminate..]. eauto. Qed.

Lemma of_outcome_ok {A} (r : outcome auth_error A) t a t' : of_outcome r t = Ok (a, t') -> r = Ok a /\ t' = t.
Proof. unfold of_outcome. destruct r; try discriminate. by intros [= -> ->]. Qed.

Lemma reads_ok {A} (f : auth_tables -> outcome auth_error A) t a t' : reads_tables f t = Ok (a, t') -> f t = Ok a /\ t' = t.
Proof. apply of_outcome_ok. Qed.

Lemma statement_ok name f t u t' : statement name f t = Ok (u, t') -> f t = Ok t'.
Proof. unfold statement. destruct (auth_refuses name t); [discriminate|]. destruct (f t) as [x| |]; try discriminate. by intros [= _ ->]. Qed.

Lemma update_grant_ok name id f t u t' row : at_installation_grants t !! id = Some row -> update_grant name id f t = Ok (u, t') ->
  exists row', f row = Ok row' /\ t' = with_grants (<[id := row']>) t.
Proof. unfold update_grant. intros Hr Hs%statement_ok. rewrite Hr in Hs. outcome_inv. subst. eauto. Qed.

Lemma update_upgrades_ok name where_ f t u t' : update_upgrades name where_ f t = Ok (u, t') ->
  t' = with_upgrades (map_imap (fun id row => Some (if where_ id row then f row else row))) t.
Proof. unfold update_upgrades. intros Hs%statement_ok. by injection Hs. Qed.

Lemma scan_by_id_ok t id g : tables_ok t -> scan_by_id id t = Ok g -> exists row, at_installation_grants t !! id = Some row /\ g = row_grant id row.
Proof.
  intros Ho. unfold scan_by_id, query. destruct (auth_refuses _ t); [discriminate|]. destruct (at_installation_grants t !! id) as [row|] eqn:E; [|discriminate].
  rewrite scan_grant_ok by (by eapply to_grants). intros [= <-]. eauto.
Qed.

Lemma transaction_refines {A} (x : outcome auth_error A * book) (body : AuthTx A) t : tables_ok t ->
  (forall a t', body t = Ok (a, t') -> tables_ok t' /\ (Ok a, tables_book t') = x) ->
  let '(a, t') := auth_transaction body t in tables_ok t' /\ ((a, tables_book t') = x \/ (is_ok a = false /\ tables_book t' = tables_book t)).
Proof.
  intros Ho Hb. unfold auth_transaction. destruct (body t) as [[a t']|e|] eqn:E; [|by split; [|right]..].
  destruct (auth_refuses "COMMIT" t'); [by split; [|right]|]. destruct (Hb a t' eq_refl) as [H1 H2]. by split; [|left].
Qed.
End tables_book.

(** * The laws of the authorization repository, proved of the tables. *)


#[export] Instance tables_repository `{Platform} `{AuthSQLite} : AuthorizationRepository auth_tables := {|
  repo_FindCLIGrant := FindCLIGrant; repo_EnsurePendingCLIGrant := EnsurePendingCLIGrant;
  repo_DecideCLIGrant := DecideCLIGrant; repo_RevokeCLIGrant := RevokeCLIGrant;
  repo_EnsurePendingUpgrade := EnsurePendingCLIGrantScopeUpgrade; repo_DecideUpgrade := DecideCLIGrantScopeUpgrade;
  repo_LoadCLIInvocationPolicy := LoadCLIInvocationPolicy; repo_AppendAuthorizationAudit := AppendAuthorizationAudit;
  repo_EnsureLocalCreator := EnsureLocalCreator |}.

(** Take a successful body apart. *)
Ltac auth_run :=
  repeat match goal with
  | Hx : mbind _ _ _ = Ok (_, _) |- _ =>
      let a := fresh "v" in let t := fresh "t" in let H1 := fresh "Hs" in apply auth_bind_ok in Hx as (a & t & H1 & Hx)
  | Hx : mret _ _ = Ok (_, _) |- _ => injection Hx as <- <-
  | Hx : of_outcome _ _ = Ok (_, _) |- _ => apply of_outcome_ok in Hx as [Hx ->]
  | Hx : reads_tables _ _ = Ok (_, _) |- _ => apply reads_ok in Hx as [Hx ->]
  | Hx : guard_or _ _ = Ok ?x |- _ => destruct x; apply guard_or_ok in Hx
  end.

Section laws.
Context `{Platform} `{AuthSQLite}.

Lemma next_revision_ok row r : grant_row_ok row -> next_revision row = Ok r ->
  r = gr_revision row + 1 /\ revision_ok r /\ revision_or_zero (Revision_Next (gr_revision row)) = r.
Proof.
  intros (_ & [H1 H2] & _). unfold next_revision. destruct (gr_revision row =? MaxInt64) eqn:E; [discriminate|]. apply Z.eqb_neq in E. intros [= <-].
  unfold Revision_Next, NewRevision, revision_ok, to_uint64. unfold MaxInt64 in *. rewrite Z.mod_small by lia.
  destruct (9223372036854775807 <? gr_revision row + 1) eqn:El; [apply Z.ltb_lt in El; lia|]. cbn. lia.
Qed.

Lemma find_refines t i k : tables_ok t -> FindCLIGrant i k t = spec_find i k (tables_book t) \/ FindCLIGrant i k t = Fail ErrAuthStatement.
Proof.
  intros Ho. unfold FindCLIGrant, query. destruct (auth_refuses _ t); [by right|]. left. unfold spec_find.
  pose proof (tables_grant_of_key t i k Ho) as Hk. destruct (grants_of_key i k t) as [|[id row] rest].
  - destruct Hk as [_ ->]. done.
  - destruct Hk as (Hr & _ & ->). by apply scan_grant_ok; eapply to_grants.
Qed.

Lemma validate_scopes p : validatePendingCLIGrant p = Ok tt -> exists scopes, NormalizeCLIScopes (pg_Scopes p) = Ok scopes.
Proof. unfold validatePendingCLIGrant. intros Hv. outcome_inv. eauto. Qed.

Lemma ensure_refines t p : tables_ok t -> validatePendingCLIGrant p = Ok tt -> is_ok (ParseID (pg_AgentID p)) = true ->
  refined tables_book tables_ok (spec_ensure p) (EnsurePendingCLIGrant p) t.
Proof.
  intros Ho Hv Ha. unfold EnsurePendingCLIGrant, refined. rewrite Hv. apply transaction_refines; [done|]. intros a t'. unfold ensure_pending, spec_ensure.
  pose proof (tables_grant_of_key t (pg_InstallationID p) (pg_PublicKey p) Ho) as Hk. unfold FindCLIGrant, query.
  destruct (auth_refuses _ t); [discriminate|]. destruct (grants_of_key _ _ t) as [|[id row] rest] eqn:Eg.
  - destruct Hk as [Hn ->]. intros Hrun. auth_run. rewrite Hs. apply normalize_idempotent in Hs.
    apply statement_ok in Hs0, Hs1. destruct (bool_decide _); [discriminate|]. injection Hs0 as <-.
    destruct (_ || _); [discriminate|]. injection Hs1 as <-. split; [|f_equal; exact (book_put_grant _ _ _)].
    apply tables_ok_add_grant; [by split; cbn; apply Ho| |done]. split; [done|]. by split; [vm_compute|].
  - destruct Hk as (Hr & _ & ->). pose proof (to_grants _ Ho _ _ Hr) as Hok. rewrite scan_grant_ok by done.
    destruct (validate_scopes _ Hv) as [scopes Hsc]. rewrite Hsc. destruct (grant_lapsed _ _); [|by intros [= <- <-]].
    intros Hrun. auth_run. injection Hs as <-. apply (update_grant_ok _ _ _ _ _ _ row) in Hs0 as (row' & Hrow & ->); [|done]. outcome_inv. subst row'.
    destruct (next_revision_ok row v ltac:(done) ltac:(done)) as (-> & Hrev & Hnext). split.
    + eapply tables_ok_grant; [done|exact Hr| |done..]. destruct Hok as (H1 & _ & _). split; [done|]. split; [done|]. by eapply normalize_idempotent.
    + rewrite book_put_grant. unfold pending_again. cbn. by rewrite Hnext.
Qed.

Lemma ensure_active t p g : tables_ok t -> (EnsurePendingCLIGrant p t).1 = Ok g -> cg_Status g = CLIGrantActive ->
  grant_of_key (pg_InstallationID p) (pg_PublicKey p) (tables_book t) = Some g.
Proof.
  intros Ho He Ha. unfold EnsurePendingCLIGrant, auth_transaction in He. destruct (validatePendingCLIGrant p); [|discriminate..].
  destruct (ensure_pending p t) as [[x t']| |] eqn:Er; [|discriminate..]. destruct (auth_refuses "COMMIT" t'); [discriminate|]. injection He as ->.
  unfold ensure_pending, FindCLIGrant, query in Er. destruct (auth_refuses _ t); [discriminate|].
  pose proof (tables_grant_of_key t (pg_InstallationID p) (pg_PublicKey p) Ho) as Hk.
  destruct (grants_of_key _ _ t) as [|[id row] rest]; [auth_run; discriminate|]. destruct Hk as (Hr & _ & ->).
  rewrite scan_grant_ok in Er by (by eapply to_grants). destruct (grant_lapsed _ _); [auth_run; discriminate|]. by injection Er as <-.
Qed.

Lemma with_status_ok status decided revoked row : grant_row_ok row -> grant_row_ok (with_row_status status decided revoked row).
Proof. done. Qed.

(** One statement, its failure ignored *)
Lemma best_effort_cases (body : AuthTx unit) t : best_effort body t = t \/ exists t', body t = Ok (tt, t') /\ best_effort body t = t'.
Proof.
  unfold best_effort, auth_transaction. destruct (body t) as [[[] t']| |]; [|by left..]. destruct (auth_refuses "COMMIT" t'); [by left|].
  right. by exists t'.
Qed.

Lemma decide_refines t id approve at_ : tables_ok t -> refined tables_book tables_ok (spec_decide id approve at_) (DecideCLIGrant id approve at_) t.
Proof.
  intros Ho. unfold refined, DecideCLIGrant. destruct (scan_by_id id t) as [g|e|] eqn:Eg; [|by split; [|right]..].
  apply (scan_by_id_ok _ _ _ Ho) in Eg as (row & Hr & ->). pose proof (to_grants _ Ho _ _ Hr) as Hok.
  unfold spec_decide. rewrite book_grant, Hr. cbn [fmap option_fmap option_map].
  destruct (bool_decide (cg_Status (row_grant id row) = CLIGrantPending)); cbn [negb orb]; [|by split; [|left]].
  destruct (at_ <? cg_ExpiresAt (row_grant id row)); cbn [negb].
  - apply transaction_refines; [done|]. intros a t' Hrun. auth_run.
    apply (update_grant_ok _ _ _ _ _ _ row) in Hs as (row' & [= <-] & ->); [|done]. split; [by eapply tables_ok_grant; [| |by apply with_status_ok|..]|].
    by rewrite book_put_grant.
  - match goal with |- context [best_effort ?body t] => destruct (best_effort_cases body t) as [Hb|(t' & Hrun & Hb)] end; rewrite Hb;
      [by split; [|right]|].
    apply (update_grant_ok _ _ _ _ _ _ row) in Hrun as (row' & [= <-] & ->); [|done]. split; [by eapply tables_ok_grant; [| |by apply with_status_ok|..]|].
    left. by rewrite book_put_grant.
Qed.

Lemma settled_ok status at_ row : upgrade_row_ok row -> upgrade_row_ok (with_upgrade_status status at_ row).
Proof. done. Qed.

Lemma revoke_refines t id at_ : tables_ok t -> refined tables_book tables_ok (spec_revoke id at_) (RevokeCLIGrant id at_) t.
Proof.
  intros Ho. apply transaction_refines; [done|]. intros a t' Hrun. auth_run.
  apply (scan_by_id_ok _ _ _ Ho) in Hs as (row & Hr & ->).
  unfold spec_revoke. rewrite book_grant, Hr. cbn [fmap option_fmap option_map]. rewrite Hs0. cbn [negb].
  apply (update_grant_ok _ _ _ _ _ _ row) in Hs1 as (row' & [= <-] & ->); [|done]. apply update_upgrades_ok in Hs2 as ->.
  assert (tables_ok (with_grants (<[id := with_row_status CLIGrantRevoked (gr_decided_at row) (Some at_) row]>) t)) as Ho'.
  { eapply tables_ok_grant; [done|exact Hr|apply with_status_ok; by eapply to_grants|done..]. }
  pose proof (tables_pending_of t id Ho) as Hp. destruct (pending_upgrades id t) as [|[uid urow] rest].
  - destruct Hp as [Hn ->]. rewrite update_none by exact Hn. split; [done|]. by rewrite book_put_grant.
  - destruct Hp as (Hu & Ht & ->). rewrite (update_one _ _ (with_grants _ t) uid urow Hu).
    + split; [|by rewrite book_put_upgrade, book_put_grant].
      eapply tables_ok_upgrade; [done|exact Hu|apply settled_ok; by eapply to_upgrades|done..].
    + intros j x Hx. fold (row_is_pending id x). destruct (row_is_pending id x) eqn:Ex.
      * symmetry. apply bool_decide_eq_true. by apply (to_pending _ Ho id j uid x urow).
      * symmetry. apply bool_decide_eq_false. intros ->. cbn in Hx. congruence.
Qed.

Lemma upgrade_by_id_ok t id u : tables_ok t -> upgrade_by_id id t = Ok u -> exists row, at_scope_upgrades t !! id = Some row /\ u = row_upgrade id row.
Proof.
  intros Ho. unfold upgrade_by_id, query. destruct (auth_refuses _ t); [discriminate|]. destruct (at_scope_upgrades t !! id) as [row|] eqn:E; [|discriminate].
  rewrite scan_upgrade_ok by (by eapply to_upgrades). intros [= <-]. eauto.
Qed.

(** Inserting a pending upgrade *)
Lemma store_upgrade_ok p scopes t a t' : tables_ok t -> is_Some (at_installation_grants t !! pu_GrantID p) -> revision_ok (pu_FromRevision p) -> NormalizeCLIScopes scopes = Ok scopes ->
  (forall j x, at_scope_upgrades t !! j = Some x -> row_is_pending (pu_GrantID p) x = false) -> store_upgrade p scopes t = Ok (a, t') ->
  a = new_upgrade p scopes /\ tables_ok t' /\ tables_book t' = put_upgrade (new_upgrade p scopes) (tables_book t).
Proof.
  intros Ho Hg Hr Hn Hp Hrun. unfold store_upgrade in Hrun. auth_run. apply statement_ok in Hs. destruct (_ || _); [discriminate|]. injection Hs as <-.
  split; [done|]. split; [by apply tables_ok_add_upgrade|]. by rewrite book_put_upgrade.
Qed.

Lemma ensure_upgrade_refines t p : tables_ok t ->
  refined tables_book tables_ok (spec_ensure_upgrade p) (EnsurePendingCLIGrantScopeUpgrade p) t.
Proof.
  intros Ho. unfold refined, EnsurePendingCLIGrantScopeUpgrade, spec_ensure_upgrade.
  destruct (validatePendingCLIGrantScopeUpgrade p) as [scopes|e|] eqn:Ev; [|by split; [|left]..].
  assert (1 <= pu_FromRevision p /\ NormalizeCLIScopes scopes = Ok scopes) as [Hfrom Hn].
  { unfold validatePendingCLIGrantScopeUpgrade in Ev. outcome_inv. bool_prop. split; [lia|by eapply normalize_idempotent]. }
  apply transaction_refines; [done|]. intros a t' Hrun. unfold ensure_upgrade in Hrun. auth_run. apply (scan_by_id_ok _ _ _ Ho) in Hs as (row & Hr & ->).
  pose proof (to_grants _ Ho _ _ Hr) as (_ & Hrev & _).
  rewrite book_grant, Hr. cbn [fmap option_fmap option_map]. rewrite Hs0. cbn [negb].
  assert (revision_ok (pu_FromRevision p)) as Hrp. { unfold upgrade_acceptable in Hs0. bool_prop. cbn in *. congruence. }
  pose proof (tables_pending_of t (pu_GrantID p) Ho) as Hp. unfold replace_pending, pending_upgrade_of, query in Hrun.
  destruct (auth_refuses _ t); [discriminate|]. destruct (pending_upgrades (pu_GrantID p) t) as [|[uid urow] rest].
  - destruct Hp as [Hnone ->]. apply store_upgrade_ok in Hrun as (-> & Hok & ->); by rewrite ?Hr.
  - destruct Hp as (Hu & Ht & ->). pose proof (to_upgrades _ Ho _ _ Hu) as Huok. rewrite scan_upgrade_ok in Hrun by done.
    destruct (same_upgrade p scopes (row_upgrade uid urow)); [by injection Hrun as <- <-|]. auth_run. apply update_upgrades_ok in Hs as ->.
    set (status := replaced_status p (row_upgrade uid urow)) in *. assert (status <> UpgradePending) as Hst. { unfold status, replaced_status. by destruct (negb _). }
    rewrite (update_one _ _ _ uid urow Hu) in Hrun.
    + apply store_upgrade_ok in Hrun as (-> & Hok & ->); [|by eapply tables_ok_upgrade|by cbn; rewrite Hr|done..|].
      * split; [done|]. by rewrite book_put_upgrade.
      * cbn. intros j x [[<- <-]|[Hj Hx]]%lookup_insert_Some.
        { unfold row_is_pending. cbn. by rewrite (bool_decide_eq_false_2 (status = _)), andb_false_r. }
        destruct (row_is_pending (pu_GrantID p) x) eqn:Ex; [|done]. by destruct Hj; apply (to_pending _ Ho (pu_GrantID p) uid j urow x).
    + intros j x Hx. cbn. case_bool_decide as Ej; [|done]. subst j. cbn. apply bool_decide_eq_true. unfold row_is_pending in Ht. bool_prop. congruence.
Qed.

Lemma decide_upgrade_refines t id approve at_ : tables_ok t ->
  refined tables_book tables_ok (spec_decide_upgrade id approve at_) (DecideCLIGrantScopeUpgrade id approve at_) t.
Proof.
  intros Ho. unfold refined, DecideCLIGrantScopeUpgrade, spec_decide_upgrade. destruct (upgrade_by_id id t) as [u|e|] eqn:Eu; [|by split; [|right]..].
  apply (upgrade_by_id_ok _ _ _ Ho) in Eu as (urow & Hu & ->). pose proof (to_upgrades _ Ho _ _ Hu) as Huok.
  rewrite book_upgrade, Hu. cbn [fmap option_fmap option_map].
  destruct (bool_decide_reflect (up_Status (row_upgrade id urow) = UpgradePending)) as [Hp|Hp]; cbn [negb orb]; [|by split; [|left]].
  destruct (at_ <? up_ExpiresAt (row_upgrade id urow)); cbn [negb].
  - apply transaction_refines; [done|]. intros a t' Hrun. unfold decide_upgrade in Hrun. auth_run.
    apply (scan_by_id_ok _ _ _ Ho) in Hs as (row & Hr & ->). pose proof (to_grants _ Ho _ _ Hr) as Hok.
    rewrite book_grant, Hr. cbn [fmap option_fmap option_map]. rewrite Hs0. cbn [negb]. apply update_upgrades_ok in Hs2 as ->.
    assert (tables_ok t2 /\ at_scope_upgrades t2 = at_scope_upgrades t /\
      tables_book t2 = put_grant (if approve then upgraded_grant (row_upgrade id urow) (row_grant (up_GrantID (row_upgrade id urow)) row)
        else row_grant (up_GrantID (row_upgrade id urow)) row) (tables_book t)) as (Ho2 & Hsame & Hbook).
    { destruct approve.
      - apply (update_grant_ok _ _ _ _ _ _ row) in Hs1 as (row' & Hrow & ->); [|done]. rewrite Z.eqb_refl in Hrow. cbn [negb] in Hrow. outcome_inv. subst row'.
        destruct (next_revision_ok row v ltac:(done) ltac:(done)) as (-> & Hrev & Hnext). split; [|split; [done|]].
        + eapply tables_ok_grant; [done|exact Hr| |done..]. destruct Hok as (H1 & _ & _). destruct Huok as (_ & H2). by split; [|split].
        + rewrite book_put_grant. unfold upgraded_grant. cbn. by rewrite Hnext.
      - injection Hs1 as _ <-. split; [done|split; [done|]]. unfold put_grant. cbn [cg_ID row_grant].
        rewrite (insert_id (bk_grants (tables_book t))); [done|]. by rewrite book_grant, Hr. }
    rewrite <- Hsame in Hu. rewrite (update_one _ _ t2 id urow Hu).
    + split; [eapply tables_ok_upgrade; [done|exact Hu|by apply settled_ok|done|by destruct approve]|]. by rewrite book_put_upgrade, Hbook.
    + intros j x Hx. destruct (bool_decide_reflect (j = id)) as [->|Ej]; [|done]. cbn. apply bool_decide_eq_true. cbn in Hp. congruence.
  - match goal with |- context [best_effort ?body t] => destruct (best_effort_cases body t) as [Hb|(t' & Hrun & Hb)] end; rewrite Hb;
      [by split; [|right]|]. apply update_upgrades_ok in Hrun as ->. rewrite (update_one _ _ t id urow Hu) by done.
    split; [by eapply tables_ok_upgrade; [|exact Hu|apply settled_ok|..]|]. left. by rewrite book_put_upgrade.
Qed.

Lemma audit_keeps record t : tables_ok t -> let '(a, t') := AppendAuthorizationAudit record t in tables_ok t' /\ tables_book t' = tables_book t.
Proof.
  intros Ho. unfold AppendAuthorizationAudit. destruct (mbind _ _); [|done..].
  match goal with |- context [statement ?n ?f t] => destruct (statement n f t) as [[u t']| |] eqn:E end; [|done..].
  apply statement_ok in E. destruct (bool_decide _); [discriminate|]. injection E as <-. split; [by split; cbn; apply Ho|done].
Qed.

Lemma creator_keeps candidate t : tables_ok t -> let '(a, t') := EnsureLocalCreator candidate t in tables_ok t' /\ tables_book t' = tables_book t.
Proof.
  intros Ho. unfold EnsureLocalCreator. destruct (IsZero candidate); [done|]. unfold auth_transaction.
  match goal with |- context [match ?b t with _ => _ end] => destruct (b t) as [[a t']| |] eqn:E end; [|done..].
  destruct (auth_refuses "COMMIT" t'); [done|]. auth_run. destruct v as [c|]; auth_run; [done|].
  apply statement_ok in Hs1. injection Hs1 as <-. split; [by split; cbn; apply Ho|done].
Qed.
End laws.

(** ** An engine that refuses no statement: nothing but the schema can refuse a
    call, when an identity is taken or a revision is exhausted. *)

Section obedient.
Context `{Platform} `{AuthSQLite}.
Hypothesis obeys : forall name t, auth_refuses name t = false.

(** A refinement that fails only where the book does is exact. *)
Lemma refined_exactly {R A} abs ok (spec : book -> outcome auth_error A * book) op (r : R) : refined abs ok spec op r ->
  (is_ok (op r).1 = false -> abs (op r).2 = abs r -> spec (abs r) = ((op r).1, abs r)) -> exactly abs ok spec op r.
Proof.
  unfold refined, exactly. destruct (op r) as [a r']. cbn. intros [Hok [E|[Hf E]]] Hs; (split; [done|]); [done|]. rewrite (Hs Hf E). by rewrite E.
Qed.

Lemma query_obeyed {A} name (f : auth_tables -> outcome auth_error A) t : query name f t = f t.
Proof. unfold query. by rewrite obeys. Qed.
Lemma statement_obeyed name f t : statement name f t = match f t with Ok t' => Ok (tt, t') | Fail e => Fail e | Panic => Panic end.
Proof. unfold statement. by rewrite obeys. Qed.
Lemma transaction_obeyed {A} (body : AuthTx A) t :
  auth_transaction body t = match body t with Ok (a, t') => (Ok a, t') | Fail e => (Fail e, t) | Panic => (Panic, t) end.
Proof. unfold auth_transaction. destruct (body t) as [[a t']| |]; [by rewrite obeys|done..]. Qed.

Lemma scan_obeyed t id : tables_ok t ->
  scan_by_id id t = match bk_grants (tables_book t) !! id with Some g => Ok g | None => Fail ErrCLIGrantNotFound end.
Proof.
  intros Ho. unfold scan_by_id. rewrite query_obeyed, book_grant. destruct (at_installation_grants t !! id) as [row|] eqn:E; [|done].
  apply scan_grant_ok. by eapply to_grants.
Qed.

Lemma update_grant_obeyed name id f t row row' : at_installation_grants t !! id = Some row -> f row = Ok row' ->
  update_grant name id f t = Ok (tt, with_grants (<[id := row']>) t).
Proof. intros Hr Hf. unfold update_grant. rewrite statement_obeyed, Hr, Hf. done. Qed.
Lemma update_upgrades_obeyed name where_ f t :
  update_upgrades name where_ f t = Ok (tt, with_upgrades (map_imap (fun id row => Some (if where_ id row then f row else row))) t).
Proof. unfold update_upgrades. by rewrite statement_obeyed. Qed.

Lemma scanned_row t id g : tables_ok t -> bk_grants (tables_book t) !! id = Some g ->
  exists row, at_installation_grants t !! id = Some row /\ g = row_grant id row.
Proof. intros Ho. rewrite book_grant. destruct (at_installation_grants t !! id) as [row|]; [|discriminate]. intros [= <-]. eauto. Qed.

Lemma next_revision_obeyed row : gr_revision row < MaxInt64 -> next_revision row = Ok (gr_revision row + 1).
Proof. intros Hr. unfold next_revision. destruct (Z.eqb_spec (gr_revision row) MaxInt64); [lia|done]. Qed.

(** The revisions of grants are not exhausted. *)
Definition revisions_left (t : auth_tables) : Prop := forall id row, at_installation_grants t !! id = Some row -> gr_revision row < MaxInt64.

Lemma ensure_exact t p : tables_ok t -> validatePendingCLIGrant p = Ok tt -> is_ok (ParseID (pg_AgentID p)) = true ->
  at_installation_grants t !! pg_ID p = None -> pg_AgentID p ∉ at_agent_principals t -> revisions_left t ->
  exactly tables_book tables_ok (spec_ensure p) (EnsurePendingCLIGrant p) t.
Proof.
  intros Ho Hv Ha Hid Hag Hrev. apply refined_exactly; [by apply ensure_refines|]. intros Hf _. exfalso. revert Hf.
  unfold EnsurePendingCLIGrant. rewrite Hv, transaction_obeyed. unfold ensure_pending, FindCLIGrant. rewrite query_obeyed.
  destruct (validate_scopes _ Hv) as [scopes Hsc]. rewrite Hsc.
  pose proof (tables_grant_of_key t (pg_InstallationID p) (pg_PublicKey p) Ho) as Hk.
  destruct (grants_of_key (pg_InstallationID p) (pg_PublicKey p) t) as [|[id row] rest] eqn:Eg.
  - unfold mbind, ST_bind, of_outcome, insert_agent. rewrite statement_obeyed, bool_decide_eq_false_2 by done. cbn -[grants_of_key].
    unfold insert_grant. rewrite statement_obeyed. cbn -[grants_of_key]. rewrite Hid.
    change (grants_of_key (pg_InstallationID p) (pg_PublicKey p) (with_agents _ t)) with (grants_of_key (pg_InstallationID p) (pg_PublicKey p) t).
    rewrite Eg. done.
  - destruct Hk as (Hr & _ & _). rewrite scan_grant_ok by (by eapply to_grants). destruct (grant_lapsed _ _); [|done].
    unfold mbind, ST_bind, of_outcome. cbn [cg_ID row_grant]. erewrite update_grant_obeyed; [done|exact Hr|].
    rewrite next_revision_obeyed by (by eapply Hrev). done.
Qed.

Lemma decide_exact t id approve at_ : tables_ok t -> exactly tables_book tables_ok (spec_decide id approve at_) (DecideCLIGrant id approve at_) t.
Proof.
  intros Ho. apply refined_exactly; [by apply decide_refines|]. unfold DecideCLIGrant, spec_decide. rewrite scan_obeyed by done.
  destruct (bk_grants (tables_book t) !! id) as [g|] eqn:Eg; [|done]. destruct (scanned_row _ _ _ Ho Eg) as (row & Hr & ->).
  destruct (bool_decide (cg_Status (row_grant id row) = CLIGrantPending)); cbn [negb orb]; [|done].
  destruct (at_ <? cg_ExpiresAt (row_grant id row)); cbn [negb].
  - rewrite transaction_obeyed. unfold mbind, ST_bind. by erewrite update_grant_obeyed.
  - cbn [fst snd]. intros _. unfold best_effort. rewrite transaction_obeyed. erewrite update_grant_obeyed by done. cbn [fst snd].
    rewrite book_put_grant. intros E. f_equal. exact E.
Qed.

Lemma revoke_exact t id at_ : tables_ok t -> exactly tables_book tables_ok (spec_revoke id at_) (RevokeCLIGrant id at_) t.
Proof.
  intros Ho. apply refined_exactly; [by apply revoke_refines|]. unfold RevokeCLIGrant, spec_revoke. rewrite transaction_obeyed.
  unfold mbind, ST_bind, reads_tables, of_outcome. rewrite scan_obeyed by done.
  destruct (bk_grants (tables_book t) !! id) as [g|] eqn:Eg; [|done]. destruct (scanned_row _ _ _ Ho Eg) as (row & Hr & ->).
  destruct (bool_decide (cg_Status (row_grant id row) = CLIGrantActive)); cbn [negb guard_or]; [|done].
  erewrite update_grant_obeyed by done. by rewrite update_upgrades_obeyed.
Qed.

Lemma store_upgrade_obeyed p scopes t : at_scope_upgrades t !! pu_ID p = None -> pending_upgrades (pu_GrantID p) t = [] ->
  is_ok (store_upgrade p scopes t) = true.
Proof.
  intros Hn Hp. unfold store_upgrade, insert_upgrade, mbind, ST_bind. rewrite statement_obeyed. cbn -[pending_upgrades]. rewrite Hn, Hp. done.
Qed.

Lemma no_pending_upgrades t g : (forall id row, at_scope_upgrades t !! id = Some row -> row_is_pending g row = false) -> pending_upgrades g t = [].
Proof.
  intros Hn. unfold pending_upgrades. destruct (List.filter _ _) as [|[id row] rest] eqn:E; [done|].
  assert (In (id, row) ((id, row) :: rest)) as Hi by (by left). rewrite <- E in Hi. apply filter_In in Hi as [Hi Ht].
  apply list_elem_of_In, elem_of_map_to_list in Hi. specialize (Hn _ _ Hi). unfold row_is_pending in Hn. cbn in Ht. congruence.
Qed.

Lemma ensure_upgrade_exact t p : tables_ok t -> at_scope_upgrades t !! pu_ID p = None ->
  exactly tables_book tables_ok (spec_ensure_upgrade p) (EnsurePendingCLIGrantScopeUpgrade p) t.
Proof.
  intros Ho Hn. apply refined_exactly; [by apply ensure_upgrade_refines|]. unfold EnsurePendingCLIGrantScopeUpgrade, spec_ensure_upgrade.
  destruct (validatePendingCLIGrantScopeUpgrade p) as [scopes|e|] eqn:Ev; [|done..]. rewrite transaction_obeyed. unfold ensure_upgrade.
  unfold mbind, ST_bind, reads_tables, of_outcome. rewrite scan_obeyed by done.
  destruct (bk_grants (tables_book t) !! pu_GrantID p) as [g|] eqn:Eg; [|done].
  destruct (upgrade_acceptable p scopes g); cbn [negb guard_or]; [|done]. intros Hf _. exfalso. revert Hf.
  unfold replace_pending, pending_upgrade_of. rewrite query_obeyed. pose proof (tables_pending_of t (pu_GrantID p) Ho) as Hp.
  destruct (pending_upgrades (pu_GrantID p) t) as [|[uid urow] rest] eqn:Ep.
  - pose proof (store_upgrade_obeyed p scopes t Hn Ep) as Hs. by destruct (store_upgrade p scopes t) as [[a t']| |].
  - destruct Hp as (Hu & Ht & _). rewrite scan_upgrade_ok by (by eapply to_upgrades). destruct (same_upgrade _ _ _); [done|].
    unfold mbind, ST_bind. rewrite update_upgrades_obeyed. cbn [up_ID row_upgrade].
    match goal with |- context [store_upgrade p scopes ?t1] => set (t1' := t1) end.
    assert (is_ok (store_upgrade p scopes t1') = true) as Hs; [|by destruct (store_upgrade p scopes t1') as [[a t']| |]].
    apply store_upgrade_obeyed; [unfold t1'; cbn; by rewrite map_lookup_imap, Hn|]. apply no_pending_upgrades. unfold t1'. cbn. intros j x.
    rewrite map_lookup_imap. intros (x0 & Hx0 & Hx)%bind_Some. injection Hx as <-. destruct (row_is_pending (pu_GrantID p) x0) eqn:Ex.
    + assert (j = uid) as -> by (by apply (to_pending _ Ho (pu_GrantID p) j uid x0 urow)). rewrite bool_decide_eq_true_2 by done.
      unfold row_is_pending in Ex. apply andb_true_iff in Ex as [_ ->]. unfold row_is_pending. cbn.
      rewrite (bool_decide_eq_false_2 (replaced_status _ _ = _)); [by rewrite andb_false_r|]. unfold replaced_status. by destruct (negb _).
    + destruct (_ && _) eqn:Ew; [|done]. apply andb_true_iff in Ew as [->%bool_decide_eq_true _]. congruence.
Qed.

Lemma decide_upgrade_exact t id approve at_ : tables_ok t -> revisions_left t ->
  exactly tables_book tables_ok (spec_decide_upgrade id approve at_) (DecideCLIGrantScopeUpgrade id approve at_) t.
Proof.
  intros Ho Hrev. apply refined_exactly; [by apply decide_upgrade_refines|]. unfold DecideCLIGrantScopeUpgrade, spec_decide_upgrade, upgrade_by_id.
  rewrite query_obeyed, book_upgrade. destruct (at_scope_upgrades t !! id) as [urow|] eqn:Hu; [|done]. cbn [fmap option_fmap option_map].
  rewrite scan_upgrade_ok by (by eapply to_upgrades). destruct (bool_decide (up_Status (row_upgrade id urow) = UpgradePending)); cbn [negb orb]; [|done].
  destruct (at_ <? up_ExpiresAt (row_upgrade id urow)); cbn [negb].
  - rewrite transaction_obeyed. unfold decide_upgrade. unfold mbind, ST_bind, reads_tables, of_outcome. rewrite scan_obeyed by done.
    destruct (to_refs _ Ho _ _ Hu) as [row Hr]. rewrite book_grant. cbn [up_GrantID row_upgrade]. rewrite Hr. cbn [fmap option_fmap option_map].
    destruct (bool_decide (cg_Status (row_grant _ row) = CLIGrantActive) && _) eqn:Ea; cbn [negb guard_or]; [|done]. intros Hf _. exfalso. revert Hf.
    unfold mbind, ST_bind. destruct approve.
    + erewrite update_grant_obeyed; [|exact Hr|cbn [cg_Revision row_grant]; rewrite Z.eqb_refl; cbn [negb]; rewrite next_revision_obeyed by (by eapply Hrev); reflexivity].
      by rewrite update_upgrades_obeyed.
    + unfold mret, ST_ret. by rewrite update_upgrades_obeyed.
  - cbn [fst snd]. intros _. unfold best_effort. rewrite transaction_obeyed, update_upgrades_obeyed. cbn [fst snd].
    rewrite (update_one _ _ t id urow Hu) by done. rewrite book_put_upgrade. intros E. f_equal. exact E.
Qed.
End obedient.

#[export] Instance tables_laws `{Platform} `{AuthSQLite} : AuthorizationRepositoryLaws auth_tables.
Proof.
  refine {| repo_abs := tables_book; repo_ok := tables_ok |}.
  - intros i k t Ho _. by apply find_refines.
  - intros p t Ho Hv Ha _. by apply ensure_refines.
  - intros p t g Ho _. by apply ensure_active.
  - intros id approve at_ t Ho. by apply decide_refines.
  - intros id at_ t Ho. by apply revoke_refines.
  - intros p t Ho _. by apply ensure_upgrade_refines.
  - intros id approve at_ t Ho. by apply decide_upgrade_refines.
  - intros record t Ho. by apply audit_keeps.
  - intros candidate t Ho. by apply creator_keeps.
Defined.
