(* ===== verification/CliHistory.v ===== *)
(** Authority over time: every sequence of calls on an authorization repository
    follows the book, and the scopes a paired client holds are the ones the
    creator approved last.  Proved against the interface, so of both
    repositories. *)
From stdpp Require Import base list strings gmap sorting fin_maps.
From Stdlib Require Import ZArith Lia Ascii.
From S2P Require Import Prelude GoText Exact Identity Canonical EditModel Timeline EditState EditValidate Project Database Authority.
From S2P Require Import EditNormalize CliGrants CliRepository CliMemory CliTables.
Open Scope Z_scope.

Inductive auth_call :=
| CallEnsure (pending : PendingCLIGrant)
| CallDecide (id : string) (approve : bool) (at_ : Z)
| CallRevoke (id : string) (at_ : Z)
| CallEnsureUpgrade (pending : PendingCLIGrantScopeUpgrade)
| CallDecideUpgrade (id : string) (approve : bool) (at_ : Z)
| CallAudit (record : AuthorizationAudit)
| CallCreator (candidate : string).

(** The creator's approvals, the last one first: which grant, which scopes *)
Definition approvals : Type := list (string * list string).
Definition approved (id : string) (log : approvals) : option (list string) := snd <$> List.find (fun entry => bool_decide (entry.1 = id)) log.

Definition log_grant (approve : bool) (result : outcome auth_error CLIGrant) (log : approvals) : approvals :=
  match result with Ok g => if approve then (cg_ID g, cg_Scopes g) :: log else log | _ => log end.

Definition granted_of (result : outcome auth_error (CLIGrantScopeUpgrade * CLIGrant)) : outcome auth_error CLIGrant :=
  match result with Ok (_, g) => Ok g | Fail e => Fail e | Panic => Panic end.

Section history.
Context {R : Type} `{AuthorizationRepositoryLaws R}.

Definition run_call (c : auth_call) (s : approvals * R) : approvals * R :=
  let '(log, r) := s in
  match c with
  | CallEnsure pending => (log, (repo_EnsurePendingCLIGrant pending r).2)
  | CallDecide id approve at_ => let '(result, r') := repo_DecideCLIGrant id approve at_ r in (log_grant approve result log, r')
  | CallRevoke id at_ => (log, (repo_RevokeCLIGrant id at_ r).2)
  | CallEnsureUpgrade pending => (log, (repo_EnsurePendingUpgrade pending r).2)
  | CallDecideUpgrade id approve at_ =>
      let '(result, r') := repo_DecideUpgrade id approve at_ r in (log_grant approve (granted_of result) log, r')
  | CallAudit record => (log, (repo_AppendAuthorizationAudit record r).2)
  | CallCreator candidate => (log, (repo_EnsureLocalCreator candidate r).2)
  end.

(** What the service passes: a validated request under an identity just minted *)
Definition call_admissible (c : auth_call) (r : R) : Prop :=
  match c with
  | CallEnsure p => validatePendingCLIGrant p = Ok tt /\ is_ok (ParseID (pg_AgentID p)) = true /\ bk_grants (repo_abs r) !! pg_ID p = None
  | CallEnsureUpgrade p => bk_upgrades (repo_abs r) !! pu_ID p = None
  | _ => True
  end.

Fixpoint run_calls (calls : list auth_call) (s : approvals * R) : approvals * R :=
  match calls with [] => s | c :: rest => run_calls rest (run_call c s) end.
Fixpoint calls_admissible (calls : list auth_call) (s : approvals * R) : Prop :=
  match calls with [] => True | c :: rest => call_admissible c s.2 /\ calls_admissible rest (run_call c s) end.

(** ** The book's own transitions *)

Definition spec_call (c : auth_call) (s : approvals * book) : approvals * book :=
  let '(log, b) := s in
  match c with
  | CallEnsure pending => (log, (spec_ensure pending b).2)
  | CallDecide id approve at_ => let '(result, b') := spec_decide id approve at_ b in (log_grant approve result log, b')
  | CallRevoke id at_ => (log, (spec_revoke id at_ b).2)
  | CallEnsureUpgrade pending => (log, (spec_ensure_upgrade pending b).2)
  | CallDecideUpgrade id approve at_ =>
      let '(result, b') := spec_decide_upgrade id approve at_ b in (log_grant approve (granted_of result) log, b')
  | CallAudit _ | CallCreator _ => (log, b)
  end.

Definition abs_state (s : approvals * R) : approvals * book := (s.1, repo_abs s.2).

Lemma run_call_refines c s : repo_ok s.2 -> call_admissible c s.2 ->
  repo_ok (run_call c s).2 /\ (abs_state (run_call c s) = spec_call c (abs_state s) \/ abs_state (run_call c s) = abs_state s).
Proof.
  destruct s as [log r]. cbn [fst snd]. intros Ho Ha. unfold abs_state. cbn [fst snd]. destruct c as [p|id ap at_|id at_|p|id ap at_|rec|cand]; cbn in Ha |- *.
  - destruct Ha as (Hv & Hag & Hf). pose proof (ensure_law p r Ho Hv Hag Hf) as Hl. unfold refined in Hl.
    destruct (repo_EnsurePendingCLIGrant p r) as [a r']. destruct Hl as [Hok [Heq|[_ Heq]]]; (split; [done|]); cbn; rewrite ?Heq; [left; by rewrite <- Heq|by right].
  - pose proof (decide_law id ap at_ r Ho) as Hl. unfold refined in Hl. destruct (repo_DecideCLIGrant id ap at_ r) as [a r'].
    destruct Hl as [Hok [Heq|[Hf Heq]]]; (split; [done|]); cbn; [left; by rewrite <- Heq|right]. destruct a; [discriminate|cbn; by rewrite Heq..].
  - pose proof (revoke_law id at_ r Ho) as Hl. unfold refined in Hl. destruct (repo_RevokeCLIGrant id at_ r) as [a r'].
    destruct Hl as [Hok [Heq|[Hf Heq]]]; (split; [done|]); cbn; rewrite ?Heq; [left; by rewrite <- Heq|by right].
  - pose proof (ensure_upgrade_law p r Ho Ha) as Hl. unfold refined in Hl. destruct (repo_EnsurePendingUpgrade p r) as [a r'].
    destruct Hl as [Hok [Heq|[Hf Heq]]]; (split; [done|]); cbn; rewrite ?Heq; [left; by rewrite <- Heq|by right].
  - pose proof (decide_upgrade_law id ap at_ r Ho) as Hl. unfold refined in Hl. destruct (repo_DecideUpgrade id ap at_ r) as [a r'].
    destruct Hl as [Hok [Heq|[Hf Heq]]]; (split; [done|]); cbn; [left; by rewrite <- Heq|right]. destruct a; [discriminate|cbn; by rewrite Heq..].
  - pose proof (audit_law rec r Ho) as Hl. destruct (repo_AppendAuthorizationAudit rec r) as [a r']. cbn. destruct Hl as [? ->]. by split; [|left].
  - pose proof (creator_law cand r Ho) as Hl. destruct (repo_EnsureLocalCreator cand r) as [a r']. cbn. destruct Hl as [? ->]. by split; [|left].
Qed.

(** *** Answers

    What a call on the book answers.  Audit records and the local creator are not
    in the book. *)

Inductive auth_answer :=
| AnswerGrant (result : outcome auth_error CLIGrant)
| AnswerUpgrade (result : outcome auth_error CLIGrantScopeUpgrade)
| AnswerDecision (result : outcome auth_error (CLIGrantScopeUpgrade * CLIGrant))
| AnswerAside.

Definition failed (a : auth_answer) : bool :=
  match a with
  | AnswerGrant result => negb (is_ok result) | AnswerUpgrade result => negb (is_ok result) | AnswerDecision result => negb (is_ok result)
  | AnswerAside => false
  end.

Definition answering {A S} (wrap : A -> auth_answer) (result : A * S) : auth_answer * S := (wrap result.1, result.2).

Definition answer_call (c : auth_call) (r : R) : auth_answer * R :=
  match c with
  | CallEnsure pending => answering AnswerGrant (repo_EnsurePendingCLIGrant pending r)
  | CallDecide id approve at_ => answering AnswerGrant (repo_DecideCLIGrant id approve at_ r)
  | CallRevoke id at_ => answering AnswerGrant (repo_RevokeCLIGrant id at_ r)
  | CallEnsureUpgrade pending => answering AnswerUpgrade (repo_EnsurePendingUpgrade pending r)
  | CallDecideUpgrade id approve at_ => answering AnswerDecision (repo_DecideUpgrade id approve at_ r)
  | CallAudit record => answering (fun _ => AnswerAside) (repo_AppendAuthorizationAudit record r)
  | CallCreator candidate => answering (fun _ => AnswerAside) (repo_EnsureLocalCreator candidate r)
  end.

Definition spec_answer (c : auth_call) (b : book) : auth_answer * book :=
  match c with
  | CallEnsure pending => answering AnswerGrant (spec_ensure pending b)
  | CallDecide id approve at_ => answering AnswerGrant (spec_decide id approve at_ b)
  | CallRevoke id at_ => answering AnswerGrant (spec_revoke id at_ b)
  | CallEnsureUpgrade pending => answering AnswerUpgrade (spec_ensure_upgrade pending b)
  | CallDecideUpgrade id approve at_ => answering AnswerDecision (spec_decide_upgrade id approve at_ b)
  | CallAudit _ | CallCreator _ => (AnswerAside, b)
  end.

(** A sequence of calls with their answers *)
Fixpoint answers {S} (call : auth_call -> S -> auth_answer * S) (calls : list auth_call) (s : S) : list auth_answer * S :=
  match calls with
  | [] => ([], s)
  | c :: rest => let '(a, s) := call c s in let '(more, s) := answers call rest s in (a :: more, s)
  end.

(** The book answers every call, but for those that report a failure and have no
    effect on it. *)
Inductive book_answers : book -> list auth_call -> list auth_answer -> book -> Prop :=
| book_answers_nil b : book_answers b [] [] b
| book_answers_call b c a b1 rest more b' : spec_answer c b = (a, b1) -> book_answers b1 rest more b' -> book_answers b (c :: rest) (a :: more) b'
| book_answers_failed b c a rest more b' : failed a = true -> book_answers b rest more b' -> book_answers b (c :: rest) (a :: more) b'.

Lemma refined_answer {A} (wrap : outcome auth_error A -> auth_answer) spec op r : (forall a, failed (wrap a) = negb (is_ok a)) ->
  refined repo_abs repo_ok spec op r -> repo_ok (op r).2 /\
  (answering wrap (spec (repo_abs r)) = (wrap (op r).1, repo_abs (op r).2) \/ failed (wrap (op r).1) = true /\ repo_abs (op r).2 = repo_abs r).
Proof.
  intros Hw Hr. unfold refined in Hr. destruct (op r) as [a r']. cbn. destruct Hr as [Hok [E|[Hf E]]]; (split; [done|]); [left|right].
  - by rewrite <- E.
  - by rewrite Hw, Hf.
Qed.

Lemma answer_call_refines c r : repo_ok r -> call_admissible c r -> let '(a, r') := answer_call c r in
  repo_ok r' /\ (spec_answer c (repo_abs r) = (a, repo_abs r') \/ failed a = true /\ repo_abs r' = repo_abs r).
Proof.
  intros Ho Ha. destruct c as [p|id ap at_|id at_|p|id ap at_|rec|cand]; cbn in Ha |- *.
  - destruct Ha as (Hv & Hag & Hf). by apply (refined_answer AnswerGrant), ensure_law.
  - by apply (refined_answer AnswerGrant), decide_law.
  - by apply (refined_answer AnswerGrant), revoke_law.
  - by apply (refined_answer AnswerUpgrade), ensure_upgrade_law.
  - by apply (refined_answer AnswerDecision), decide_upgrade_law.
  - pose proof (audit_law rec r Ho) as Hl. destruct (repo_AppendAuthorizationAudit rec r) as [a r']. cbn. destruct Hl as [? ->]. by split; [|left].
  - pose proof (creator_law cand r Ho) as Hl. destruct (repo_EnsureLocalCreator cand r) as [a r']. cbn. destruct Hl as [? ->]. by split; [|left].
Qed.

(** Every call of a sequence satisfies [P] where it is made. *)
Fixpoint each_call (P : auth_call -> R -> Prop) (calls : list auth_call) (r : R) : Prop :=
  match calls with [] => True | c :: rest => P c r /\ each_call P rest (answer_call c r).2 end.

Lemma answers_refine calls r : repo_ok r -> each_call call_admissible calls r ->
  let '(more, r') := answers answer_call calls r in repo_ok r' /\ book_answers (repo_abs r) calls more (repo_abs r').
Proof.
  revert r. induction calls as [|c rest IH]; intros r Ho Ha; cbn; [split; [done|constructor]|]. destruct Ha as [Ha Hrest].
  pose proof (answer_call_refines c r Ho Ha) as Hs. destruct (answer_call c r) as [a r1]. destruct Hs as [Hok Hs]. specialize (IH r1 Hok Hrest).
  destruct (answers answer_call rest r1) as [more r']. destruct IH as [Hfin Hrun]. split; [done|].
  destruct Hs as [E|[Hf E]]; [by eapply book_answers_call|apply book_answers_failed; [done|]]. by rewrite <- E.
Qed.

(** Where every call is exact, the whole sequence is. *)
Lemma answers_exact (P : auth_call -> R -> Prop) calls r :
  (forall c r, repo_ok r -> P c r -> let '(a, r') := answer_call c r in repo_ok r' /\ spec_answer c (repo_abs r) = (a, repo_abs r')) ->
  repo_ok r -> each_call P calls r ->
  let '(more, r') := answers answer_call calls r in repo_ok r' /\ answers spec_answer calls (repo_abs r) = (more, repo_abs r').
Proof.
  intros Hex. revert r. induction calls as [|c rest IH]; intros r Ho Ha; cbn; [done|]. destruct Ha as [Ha Hrest].
  pose proof (Hex c r Ho Ha) as Hs. destruct (answer_call c r) as [a r1]. destruct Hs as [Hok ->]. specialize (IH r1 Hok Hrest).
  destruct (answers answer_call rest r1) as [more r']. destruct IH as [Hfin ->]. done.
Qed.
End history.

(** ** What the book keeps: a grant that was ever active holds the scopes approved last *)

Definition was_active (g : CLIGrant) : bool := bool_decide (cg_Status g = CLIGrantActive) || bool_decide (cg_Status g = CLIGrantRevoked).

Record log_sound (s : approvals * book) : Prop := mkLogSound {
  ls_ids : forall id g, bk_grants s.2 !! id = Some g -> cg_ID g = id;
  ls_scopes : forall id g, bk_grants s.2 !! id = Some g -> was_active g = true -> approved id s.1 = Some (cg_Scopes g) }.

Lemma approved_cons id x scopes log : approved id ((x, scopes) :: log) = if bool_decide (x = id) then Some scopes else approved id log.
Proof. unfold approved. cbn. by case_bool_decide. Qed.

(** One entry changed, the log extended for it at most *)
Lemma log_sound_put log log' b g : log_sound (log, b) -> (forall id, id <> cg_ID g -> approved id log' = approved id log) ->
  (was_active g = true -> approved (cg_ID g) log' = Some (cg_Scopes g)) -> log_sound (log', put_grant g b).
Proof.
  intros [Hi Hs] Hother Hg. split; cbn -[approved].
  - intros id x [[<- <-]|[_ Hx]]%lookup_insert_Some; [done|by apply Hi].
  - intros id x [[<- <-]|[Hne Hx]]%lookup_insert_Some Ha; [by apply Hg|]. rewrite Hother by done. by apply Hs.
Qed.

Lemma log_sound_upgrades log b b' : log_sound (log, b) -> bk_grants b' = bk_grants b -> log_sound (log, b').
Proof. intros [Hi Hs] E. split; cbn -[approved]; rewrite E; done. Qed.

Section soundness.
Context `{Platform}.

Lemma spec_call_sound c s : log_sound s -> log_sound (spec_call c s).
Proof.
  destruct s as [log b]. intros Hs. destruct c as [p|id ap at_|id at_|p|id ap at_|rec|cand]; cbn; [| | | | |done..].
  - unfold spec_ensure. destruct (NormalizeCLIScopes (pg_Scopes p)); [|done..]. destruct (grant_of_key _ _ b) as [g|]; [|by apply (log_sound_put log)].
    destruct (grant_lapsed _ _); [|done]. by apply (log_sound_put log).
  - unfold spec_decide. destruct (bk_grants b !! id) as [g|] eqn:Eg; [|done]. destruct (bool_decide (cg_Status g = _)); cbn; [|done].
    destruct (at_ <? cg_ExpiresAt g); cbn; [|by apply (log_sound_put log)]. destruct ap; cbn; [|by apply (log_sound_put log)].
    apply (log_sound_put log); [done| |]; cbn -[approved]; intros; rewrite approved_cons; [by rewrite bool_decide_eq_false_2 by congruence|by rewrite bool_decide_eq_true_2].
  - unfold spec_revoke. destruct (bk_grants b !! id) as [g|] eqn:Eg; [|done].
    destruct (bool_decide_reflect (cg_Status g = CLIGrantActive)) as [Ha|]; cbn; [|done]. pose proof (ls_ids _ Hs _ _ Eg) as Hid.
    assert (log_sound (log, put_grant (with_grant_status CLIGrantRevoked (cg_DecidedAt g) (Some at_) g) b)) as Hp.
    { apply (log_sound_put log); [done|done|]. intros _. cbn -[approved]. rewrite Hid. apply (ls_scopes _ Hs _ _ Eg). unfold was_active. by rewrite Ha. }
    destruct (pending_of id b); [|done]. by eapply log_sound_upgrades.
  - unfold spec_ensure_upgrade. destruct (validatePendingCLIGrantScopeUpgrade p) as [scopes| |]; [|done..]. destruct (bk_grants b !! pu_GrantID p); [|done].
    destruct (negb _); [done|]. destruct (pending_of _ b); [destruct (same_upgrade _ _ _); [done|]|]; by eapply log_sound_upgrades.
  - unfold spec_decide_upgrade. destruct (bk_upgrades b !! id) as [u|] eqn:Eu; [|done]. destruct (negb _); [done|].
    destruct (negb _); [by eapply log_sound_upgrades|]. destruct (bk_grants b !! up_GrantID u) as [g|] eqn:Eg; [|done].
    destruct (negb _); [done|]. pose proof (ls_ids _ Hs _ _ Eg) as Hid. destruct ap; cbn.
    + apply (log_sound_upgrades _ (put_grant (upgraded_grant u g) b)); [|done]. apply (log_sound_put log); [done| |]; cbn -[approved]; intros; rewrite approved_cons;
        [by rewrite bool_decide_eq_false_2 by congruence|by rewrite bool_decide_eq_true_2].
    + apply (log_sound_upgrades _ (put_grant g b)); [|done]. apply (log_sound_put log); [done|done|]. rewrite Hid. intros Hw. by apply (ls_scopes _ Hs).
Qed.

Lemma empty_log_sound : log_sound ([], empty_book).
Proof. split; cbn; intros id g; rewrite lookup_empty; discriminate. Qed.

End soundness.

(** ** For every repository behind the interface *)

Lemma run_calls_sound {R} `{AuthorizationRepositoryLaws R} calls (s : approvals * R) : repo_ok s.2 -> calls_admissible calls s -> log_sound (abs_state s) ->
  repo_ok (run_calls calls s).2 /\ log_sound (abs_state (run_calls calls s)).
Proof.
  revert s. induction calls as [|c rest IH]; intros s Ho Ha Hs; [done|]. destruct Ha as [Ha Hrest]. destruct (run_call_refines c s Ho Ha) as [Hok Hstep].
  apply IH; [done..|]. destruct Hstep as [-> | ->]; [by apply spec_call_sound|done].
Qed.

(** C21: Whatever calls a repository serves, in whatever order, starting without grants: a client whose grant is found active, or revoked after
    having been active, holds exactly the scopes of the creator's last successful approval for it, be it the pairing or a scope upgrade. *)
Theorem scopes_as_approved {R} `{AuthorizationRepositoryLaws R} calls (r : R) installation key g :
  repo_ok r -> repo_abs r = empty_book -> calls_admissible calls ([], r) -> is_ok (ParseRequestID installation) = true ->
  repo_FindCLIGrant installation key (run_calls calls ([], r)).2 = Ok g -> was_active g = true ->
  approved (cg_ID g) (run_calls calls ([], r)).1 = Some (cg_Scopes g).
Proof.
  intros Ho He Ha Hi Hf Hw. destruct (run_calls_sound calls ([], r) Ho Ha) as [Hok Hs].
  { unfold abs_state. cbn [fst snd]. rewrite He. apply empty_log_sound. }
  destruct (find_law installation key _ Hok Hi) as [E|E]; rewrite E in Hf; [|discriminate].
  unfold spec_find in Hf. destruct (grant_of_key _ _ _) as [g'|] eqn:Eg; [|discriminate]. injection Hf as ->.
  apply first_where_some in Eg as (id & Hg & _). rewrite (ls_ids _ Hs id g Hg). by apply (ls_scopes _ Hs id g).
Qed.

(** What the schema of the tables asks of a call: the agent identity is not taken,
    and a revision that is to be raised is not the largest. *)
Definition call_served `{Platform} `{AuthSQLite} (c : auth_call) (t : auth_tables) : Prop :=
  call_admissible c t /\ revisions_left t /\ match c with CallEnsure p => pg_AgentID p ∉ at_agent_principals t | _ => True end.

Lemma exact_answer {R A} (abs : R -> book) ok (wrap : outcome auth_error A -> auth_answer) spec op r : exactly abs ok spec op r ->
  ok (op r).2 /\ answering wrap (spec (abs r)) = (wrap (op r).1, abs (op r).2).
Proof. unfold exactly. destruct (op r) as [a r']. intros [Hok E]. split; [done|]. by rewrite <- E. Qed.

Lemma memory_exact `{Platform} c (m : MemoryProjects) : mm_ok m -> call_admissible c m ->
  let '(a, m') := answer_call c m in mm_ok m' /\ spec_answer c (mm_book m) = (a, mm_book m').
Proof.
  intros Ho Ha. destruct c as [p|id ap at_|id at_|p|id ap at_|rec|cand]; cbn in Ha |- *.
  - destruct Ha as (Hv & Hag & Hf). by apply (exact_answer mm_book mm_ok AnswerGrant), mm_ensure.
  - by apply (exact_answer mm_book mm_ok AnswerGrant), mm_decide.
  - by apply (exact_answer mm_book mm_ok AnswerGrant), mm_revoke.
  - by apply (exact_answer mm_book mm_ok AnswerUpgrade), mm_ensure_upgrade.
  - by apply (exact_answer mm_book mm_ok AnswerDecision), mm_decide_upgrade.
  - pose proof (audit_law (AuthorizationRepositoryLaws := memory_laws) rec m Ho) as Hl. cbn in Hl. destruct Hl as [Hok E]. split; [exact Hok|]. by f_equal.
  - pose proof (creator_law (AuthorizationRepositoryLaws := memory_laws) cand m Ho) as Hl. cbn in Hl. destruct (Memory_EnsureLocalCreator cand m) as [a m']. destruct Hl as [Hok E].
    split; [exact Hok|]. cbn. by rewrite E.
Qed.

Lemma tables_exact `{Platform} `{AuthSQLite} c (t : auth_tables) : (forall name t, auth_refuses name t = false) -> tables_ok t -> call_served c t ->
  let '(a, t') := answer_call c t in tables_ok t' /\ spec_answer c (tables_book t) = (a, tables_book t').
Proof.
  intros Hobeys Ho (Ha & Hrev & Hc). destruct c as [p|id ap at_|id at_|p|id ap at_|rec|cand]; cbn in Ha |- *.
  - destruct Ha as (Hv & Hag & Hf). apply (exact_answer tables_book tables_ok AnswerGrant), ensure_exact; try done.
    change (bk_grants (tables_book t) !! pg_ID p = None) in Hf. rewrite book_grant in Hf. by destruct (at_installation_grants t !! pg_ID p).
  - by apply (exact_answer tables_book tables_ok AnswerGrant), decide_exact.
  - by apply (exact_answer tables_book tables_ok AnswerGrant), revoke_exact.
  - apply (exact_answer tables_book tables_ok AnswerUpgrade), ensure_upgrade_exact; try done. 
    change (bk_upgrades (tables_book t) !! pu_ID p = None) in Ha. rewrite book_upgrade in Ha. by destruct (at_scope_upgrades t !! pu_ID p).
  - by apply (exact_answer tables_book tables_ok AnswerDecision), decide_upgrade_exact.
  - pose proof (audit_law (AuthorizationRepositoryLaws := tables_laws) rec t Ho) as Hl. cbn in Hl. destruct (AppendAuthorizationAudit rec t) as [a t']. cbn in Hl |- *. by destruct Hl as [? ->].
  - pose proof (creator_law (AuthorizationRepositoryLaws := tables_laws) cand t Ho) as Hl. cbn in Hl. destruct (EnsureLocalCreator cand t) as [a t']. cbn in Hl |- *. by destruct Hl as [? ->].
Qed.

(** C22: The database and the in-memory repository implement one abstract book of grants and upgrades.  Over every sequence of admissible calls the
    in-memory repository gives exactly the answers the book gives and ends with what the book ends with.  So do the tables when the engine refuses no
    statement, no agent identity is taken and no revision is exhausted; whatever the engine refuses, each of their calls either answers and acts as the
    book does, or reports a failure and leaves the book as it was. *)
Theorem repositories_keep_the_book `{Platform} `{AuthSQLite} calls m t :
  mm_ok m -> tables_ok t -> each_call call_admissible calls m -> each_call call_admissible calls t ->
  (let '(given, m') := answers answer_call calls m in mm_ok m' /\ answers spec_answer calls (mm_book m) = (given, mm_book m')) /\
  (let '(given, t') := answers answer_call calls t in tables_ok t' /\ book_answers (tables_book t) calls given (tables_book t') /\
    ((forall name t, auth_refuses name t = false) -> each_call call_served calls t ->
       answers spec_answer calls (tables_book t) = (given, tables_book t'))).
Proof.
  intros Hm Ht Ham Hat. split.
  - exact (answers_exact call_admissible calls m memory_exact Hm Ham).
  - pose proof (answers_refine calls t Ht Hat) as Hr.
    assert ((forall name t, auth_refuses name t = false) -> each_call call_served calls t -> answers spec_answer calls (tables_book t) =
      ((answers answer_call calls t).1, tables_book (answers answer_call calls t).2)) as He.
    { intros Hobeys Hs. pose proof (answers_exact call_served calls t (fun c t => tables_exact c t Hobeys) Ht Hs) as He.
      destruct (answers answer_call calls t) as [given t']. by destruct He. }
    destruct (answers answer_call calls t) as [given t']. destruct Hr as [Hok Hr]. done.
Qed.

(** ** A pairing *)

#[local] Existing Instance sample_platform.
Definition obedient : AuthSQLite := {| auth_refuses := fun _ _ => false |}.
#[local] Existing Instance obedient.

Definition empty_tables : auth_tables := mkAuthTables None ∅ ∅ ∅ ∅ None.
Definition sample_pending : PendingCLIGrant :=
  mkPendingGrant "01890000-0000-7000-8000-000000000001" "installation" "01890000-0000-7000-8000-000000000002" "key" "sha256:key"
    ["edit:write"; "edit:read"] 1000 2000.
Definition pairing : list auth_call := [CallEnsure sample_pending; CallDecide (pg_ID sample_pending) true 1500].

Lemma empty_tables_ok : tables_ok empty_tables.
Proof. split; cbn; [intros *; rewrite lookup_empty; discriminate..|intros * i j x y; rewrite lookup_empty; discriminate| |]; intros *; [intros i j x y|]; rewrite lookup_empty; discriminate. Qed.

Lemma pairing_admissible_memory : calls_admissible pairing ([], NewMemoryProjects).
Proof. split; [|done]. split; [by vm_compute|]. by split; [vm_compute|]. Qed.
Lemma pairing_admissible_tables : calls_admissible pairing ([], empty_tables).
Proof. split; [|done]. split; [by vm_compute|]. by split; [vm_compute|]. Qed.

Definition paired_grant : CLIGrant :=
  match Memory_FindCLIGrant "installation" "key" (run_calls pairing ([], NewMemoryProjects)).2 with Ok g => g | _ => zero_grant end.

Lemma scopes_as_approved_witness : cg_Scopes paired_grant = ["edit:read"; "edit:write"] /\
  approved (cg_ID paired_grant) (run_calls pairing ([], NewMemoryProjects)).1 = Some (cg_Scopes paired_grant).
Proof.
  split; [by vm_compute|]. apply (scopes_as_approved pairing NewMemoryProjects "installation" "key" paired_grant).
  - exact memory_starts_ok.
  - reflexivity.
  - exact pairing_admissible_memory.
  - by vm_compute.
  - by vm_compute.
  - by vm_compute.
Defined.

Lemma revisions_left_check t : forallb (fun entry => gr_revision entry.2 <? MaxInt64) (map_to_list (at_installation_grants t)) = true -> revisions_left t.
Proof.
  intros E id row Hr. rewrite forallb_forall in E. apply Z.ltb_lt, (E (id, row)), list_elem_of_In, elem_of_map_to_list, Hr.
Qed.

Lemma pairing_served : each_call call_served pairing empty_tables.
Proof.
  split; [|split; [|done]].
  - split; [by repeat split; vm_compute|]. split; [by apply revisions_left_check|]. cbn. apply not_elem_of_empty.
  - split; [done|]. split; [|done]. apply revisions_left_check. vm_compute. reflexivity.
Qed.

(** A pairing on both repositories: the same answers, the book's *)
Lemma repositories_keep_the_book_witness : exists given m t,
  answers answer_call pairing NewMemoryProjects = (given, m) /\ answers answer_call pairing empty_tables = (given, t) /\
  answers spec_answer pairing empty_book = (given, mm_book m) /\ tables_book t = mm_book m.
Proof.
  destruct (repositories_keep_the_book pairing NewMemoryProjects empty_tables memory_starts_ok empty_tables_ok) as [Hm Ht].
  - split; [by repeat split; vm_compute|]. done.
  - split; [by repeat split; vm_compute|]. done.
  - exists (answers answer_call pairing NewMemoryProjects).1, (answers answer_call pairing NewMemoryProjects).2, (answers answer_call pairing empty_tables).2.
    revert Hm Ht. generalize (answers answer_call pairing NewMemoryProjects) (answers answer_call pairing empty_tables).
    intros [given m] [given' t] [_ Hm] (_ & _ & Ht). specialize (Ht (fun _ _ => eq_refl) pairing_served). cbn [fst snd].
    assert ((given, mm_book m) = (given', tables_book t)) as E by exact (eq_trans (eq_sym Hm) Ht). apply pair_equal_spec in E as [-> Eb].
    split; [reflexivity|]. split; [reflexivity|]. split; [exact Hm|]. by rewrite Eb.
Defined.
