(* ===== verification/CliService.v ===== *)
(** The service that authorizes command line clients:
    [apps/api/service/cli_authorization.go], with the wire types of
    [product/authwire].

    A method is a program of atomic actions on the state the requests share: the
    challenges, the repository, the clock.  Other requests may act between any
    two of them, so a run of a method is stated against an arbitrary relation of
    interference.  What a method does while it holds the mutex is one action. *)
From stdpp Require Import base list strings gmap sorting relations.
From Stdlib Require Import ZArith Lia Ascii.
From S2P Require Import Prelude GoText Exact Identity Canonical EditModel Timeline EditState EditValidate Project Database Authority GoWire.
From S2P Require Import EditLoadState CommandRegistry CliGrants CliRepository.
Open Scope Z_scope.

(** ** Programs of atomic actions *)

Inductive prog (S A : Type) : Type :=
| Ret (a : A)
| Act (B : Type) (f : S -> B * S) (k : B -> prog S A).
Arguments Ret {S A} a.
Arguments Act {S A B} f k.

Fixpoint prog_bind {S A B} (p : prog S A) (k : A -> prog S B) : prog S B :=
  match p with Ret a => k a | Act f rest => Act f (fun b => prog_bind (rest b) k) end.

(** Without interference *)
Fixpoint run {S A} (p : prog S A) (s : S) : A * S :=
  match p with Ret a => (a, s) | Act f k => let '(b, s) := f s in run (k b) s end.

(** With interference [env] before every action and after the last *)
Fixpoint runs {S A} (env : S -> S -> Prop) (p : prog S A) (s : S) (a : A) (s' : S) : Prop :=
  match p with
  | Ret x => a = x /\ rtc env s s'
  | Act f k => exists s1, rtc env s s1 /\ runs env (k (f s1).1) (f s1).2 a s'
  end.

Lemma run_runs {S A} env (p : prog S A) s : runs env p s (run p s).1 (run p s).2.
Proof.
  revert s. induction p as [a|B f k IH]; intros s; cbn; [done|]. exists s. split; [done|]. specialize (IH (f s).1 (f s).2). by destruct (f s) as [b s'].
Qed.

Lemma runs_bind {S A B} env (p : prog S A) (k : A -> prog S B) s b s' :
  runs env (prog_bind p k) s b s' -> exists a s1, runs env p s a s1 /\ runs env (k a) s1 b s'.
Proof.
  revert s. induction p as [x|C f g IH]; intros s; cbn.
  - intros Hr. exists x, s. done.
  - intros (s1 & He & Hr). destruct (IH _ _ Hr) as (a & s2 & H1 & H2). exists a, s2. split; [|done]. by exists s1.
Qed.

Lemma runs_env_before {S A} env (p : prog S A) s0 s a s' : rtc env s0 s -> runs env p s a s' -> runs env p s0 a s'.
Proof. intros He. destruct p; cbn; [intros [-> Hr]; split; [done|]|intros (s1 & Hr & Hk); exists s1; split; [|done]]; by etrans. Qed.

(** ** Wire types *)

Definition CLIChallengeSchema : string := "open-cut/cli-challenge/v3".
Definition CLIRole : string := "product-cli".
Definition CommandSchemaVersion : string := "open-cut/command/v1".
Definition a_second : Z := 10 ^ 9.
Definition CLIChallengeTTL : Z := 30 * a_second.
Definition CLIPairingTTL : Z := 10 * 60 * a_second.
Definition CLIScopeUpgradeTTL : Z := 10 * 60 * a_second.
Definition cliChallengeLimit : nat := 256.

Record CLIChallengeConfig := mkConfig {
  cf_InstallationID : string; cf_InstallationGeneration : Z; cf_CellGeneration : Z; cf_PublicKey : bytes }.

Record CLIChallengeRequest := mkChallengeRequest {
  rq_ClientInstance : string; rq_Command : string; rq_CommandFingerprint : string; rq_Method : string; rq_Path : string; rq_Query : string;
  rq_BodyDigest : string; rq_RequestID : string; rq_Context : InvocationContext; rq_PolicyOverride : InvocationPolicyOverride }.

Record CLIChallengeResult := mkChallenge {
  ch_Schema : string; ch_InvocationID : string; ch_GrantID : string; ch_GrantRevision : option Z; ch_GrantScopeDigest : string; ch_Nonce : string;
  ch_ExpiresAt : Z; ch_InstallationID : string; ch_InstallationGeneration : Z; ch_CellGeneration : Z; ch_APIInstanceID : string;
  ch_ClientInstance : string; ch_Command : string; ch_CommandFingerprint : string; ch_RequiredScope : string; ch_Method : string; ch_Path : string;
  ch_Query : string; ch_BodyDigest : string; ch_InputDigest : string; ch_RequestID : string; ch_Receipt : CommandReceiptClass;
  ch_Context : InvocationContext; ch_Policy : InvocationPolicySnapshot; ch_Role : string; ch_SigningPayload : string }.

Record cliChallenge := mkCliChallenge { cc_result : CLIChallengeResult; cc_canonical : bytes }.

Record AuthorizationRequest := mkAuthorizationRequest {
  ar_Method : string; ar_Route : string; ar_Path : string; ar_Query : string; ar_BodyDigest : string; ar_Command : string;
  ar_CommandFingerprint : string; ar_RequiredScope : string; ar_UISession : string; ar_CLIGrant : string; ar_CLIChallenge : string;
  ar_CLISignature : string }.

Inductive cli_error :=
| ErrUnauthorized | ErrCLIChallengeInvalid | ErrCLIChallengeExpired | ErrCLIRateLimited | ErrCLIGrantDenied | ErrCLIGrantRevoked
| ErrCLIGrantAuthorityChanged | CLIPairingRequired (grant : CLIGrant) | CLIScopeUpgradeRequired (upgrade : CLIGrantScopeUpgrade)
| ErrRepository (e : auth_error) | ErrIdentity (e : identity_error) | ErrRandom | ErrMarshal | ErrRunBinding (text : string).

(** ** Texts that are signed and digested *)

Definition receipt_text (class : CommandReceiptClass) : string :=
  match class with
  | CommandReceiptNone => "none" | CommandReceiptEvidence => "evidence" | CommandReceiptOutcome => "outcome" | CommandReceiptOther text => text
  end.
Definition output_text (mode : OutputMode) : string := match mode with OutputJSON => "json" | OutputHuman => "human" | OutputOther text => text end.

(** [None]: the identity or digest refuses to be marshalled. *)
Definition id_json (id : string) : option jvalue := if is_ok (ID_MarshalText id) then Some (JString id) else None.
Definition digest_json (digest : string) : option jvalue := if is_ok (ParseDigest digest) then Some (JString digest) else None.
Definition member_json (name : string) (id : option string) : option (list (string * jvalue)) :=
  match id with None => Some [] | Some id => value ← id_json id; Some [(name, value)] end.
Definition context_json (value : InvocationContext) : option jvalue :=
  project ← member_json "projectId" (ctx_ProjectID value); sequence ← member_json "sequenceId" (ctx_SequenceID value);
  run ← member_json "runId" (ctx_RunID value); turn ← member_json "turnId" (ctx_TurnID value);
  Some (JObject (project ++ sequence ++ run ++ turn)).
Definition policy_json (policy : InvocationPolicy) : jvalue :=
  JObject [("output", JString (output_text (pol_Output policy))); ("waitMilliseconds", JNumber (format_uint (pol_WaitMilliseconds policy)))].
Definition snapshot_json (snapshot : InvocationPolicySnapshot) : jvalue :=
  JObject [("settingsRevision", JString (Revision_String (snap_SettingsRevision snapshot))); ("persisted", policy_json (snap_Persisted snapshot));
           ("effective", policy_json (snap_Effective snapshot))].

Definition canonicalCLIChallenge (c : CLIChallengeResult) : option bytes :=
  invocation ← id_json (ch_InvocationID c); input ← digest_json (ch_InputDigest c); ctx ← context_json (ch_Context c);
  Some (json_Marshal (JObject (
    [("apiInstanceId", JString (ch_APIInstanceID c)); ("invocationId", invocation); ("bodyDigest", JString (ch_BodyDigest c)); ("inputDigest", input);
     ("cellGeneration", JNumber (format_uint (ch_CellGeneration c))); ("clientInstance", JString (ch_ClientInstance c));
     ("command", JString (ch_Command c)); ("commandFingerprint", JString (ch_CommandFingerprint c)); ("context", ctx);
     ("expiresAt", JString (FormatRFC3339Nano (ch_ExpiresAt c))); ("grantId", JString (ch_GrantID c))] ++
    omitted "grantRevision" (ch_GrantRevision c) (fun revision => JString (Revision_String revision)) ++
    omit_text "grantScopeDigest" (ch_GrantScopeDigest c) ++
    [("installationGeneration", JNumber (format_uint (ch_InstallationGeneration c))); ("installationId", JString (ch_InstallationID c));
     ("method", JString (ch_Method c)); ("nonce", JString (ch_Nonce c)); ("path", JString (ch_Path c)); ("policy", snapshot_json (ch_Policy c));
     ("receipt", JString (receipt_text (ch_Receipt c)))] ++
    omit_text "requestId" (ch_RequestID c) ++
    [("query", JString (ch_Query c)); ("requiredScope", JString (ch_RequiredScope c)); ("role", JString (ch_Role c)); ("schema", JString (ch_Schema c))]))).

Section texts.
Context `{Platform}.

(** [digestBytes] *)
Definition digestBytes (value : bytes) : string := sha256_text value.

Definition cliInvocationDigest (request : CLIChallengeRequest) (query : string) : option string :=
  ctx ← context_json (rq_Context request);
  let canonical := json_Marshal (JObject (
    [("bodyDigest", JString (rq_BodyDigest request)); ("command", JString (rq_Command request));
     ("commandFingerprint", JString (rq_CommandFingerprint request)); ("context", ctx); ("method", JString (rq_Method request));
     ("path", JString (rq_Path request)); ("query", JString query)] ++ omit_text "requestId" (rq_RequestID request))) in
  match ParseDigest (digestBytes canonical) with Ok digest => Some digest | _ => None end.

(** [authwire.NoBodyDigest]: it panics for a command that is not registered. *)
Definition NoBodyDigest (commandName : string) : string :=
  digestBytes (json_Marshal (JObject [("domain", JString ("open-cut/command-body/" +:+ commandName)); ("payload", JNull);
    ("schema", JString CommandSchemaVersion)])).
End texts.

Definition canonicalQuery (raw : string) : option string := values ← ParseQuery raw; Some (Values_Encode values).

Definition optionalRequestID (value : string) : option string :=
  if bool_decide (value = "") then None else if is_ok (ParseRequestID value) then Some value else None.

(** Two queries have one canonical text exactly when they give the same values. *)
Lemma canonical_query_values q q' c : canonicalQuery q = Some c -> canonicalQuery q' = Some c <-> ParseQuery q' = ParseQuery q.
Proof.
  unfold canonicalQuery. destruct (ParseQuery q) as [v|] eqn:E; [|discriminate]. cbn. intros [= <-]. split.
  - destruct (ParseQuery q') as [v'|] eqn:E'; [|discriminate]. cbn. intros [= Heq]. f_equal.
    pose proof (parse_encode v (parsed_ok _ _ E)) as H1. pose proof (parse_encode v' (parsed_ok _ _ E')) as H2. rewrite Heq in H2. congruence.
  - by intros ->.
Qed.

Lemma canonical_query_fixed q c : canonicalQuery q = Some c -> canonicalQuery c = Some c.
Proof.
  unfold canonicalQuery. destruct (ParseQuery q) as [v|] eqn:E; [|discriminate]. cbn. intros [= <-]. by rewrite (parse_encode v (parsed_ok _ _ E)).
Qed.

(** ** What the service calls *)

Class Signatures := { ed25519_Verified : bytes -> bytes -> bytes -> bool }.
Definition SignatureSize : nat := 64.
Definition PublicKeySize : nat := 32.

Inductive binding_error := ErrAgentBridgeNotFound | ErrAgentBridgeOther (text : string).
(** [application.AgentRunBindingRepository] *)
Class AgentRunBinding (B : Type) := {
  AssociateAgentRunPairing : string -> string -> string -> Z -> Z -> B -> outcome binding_error unit * B;
  BindAuthorizedAgentRun : string -> string -> string -> string -> Z -> string -> Z -> B -> outcome binding_error unit * B }.

(** ** The service *)

(** [runBinder] may be nil. *)
Record CLIAuthorizationService := mkService {
  sv_config : CLIChallengeConfig; sv_runBinder : bool; sv_registry : Registry; sv_apiInstance : string; sv_publicKey : string;
  sv_fingerprint : string; sv_allScopes : list string }.

(** What requests share *)
Record shared (R B W : Type) := mkShared {
  sh_challenges : gmap string cliChallenge; sh_lastIssued : gmap string Z; sh_repository : R; sh_binder : B; sh_world : W }.
Arguments mkShared {R B W}.
Arguments sh_challenges {R B W}.
Arguments sh_lastIssued {R B W}.
Arguments sh_repository {R B W}.
Arguments sh_binder {R B W}.
Arguments sh_world {R B W}.

(** A method that may fail *)
Definition Call (S A : Type) : Type := prog S (outcome cli_error A).
#[export] Instance Call_ret {S} : MRet (Call S) := fun A a => Ret (Ok a).
#[export] Instance Call_bind {S} : MBind (Call S) := fun A B f p =>
  prog_bind p (fun r => match r with Ok a => f a | Fail e => Ret (Fail e) | Panic => Ret Panic end).

Definition failing {S A} (e : cli_error) : Call S A := Ret (Fail e).
Definition checking {S} (e : cli_error) (b : bool) : Call S unit := if b then mret tt else failing e.
Definition unless_missing {S A} (e : cli_error) (value : option A) : Call S A := match value with Some a => mret a | None => failing e end.

Section service.
Context {R B W : Type} `{AuthorizationRepository R} `{AgentRunBinding B} `{World W} `{Schemas} `{Signatures}.
Notation S := (shared R B W).

Definition on_world {A} (f : W -> A * W) (s : S) : A * S :=
  let '(a, w) := f (sh_world s) in (a, mkShared (sh_challenges s) (sh_lastIssued s) (sh_repository s) (sh_binder s) w).
Definition on_repository {A} (f : R -> A * R) (s : S) : A * S :=
  let '(a, r) := f (sh_repository s) in (a, mkShared (sh_challenges s) (sh_lastIssued s) r (sh_binder s) (sh_world s)).
Definition on_binder {A} (f : B -> A * B) (s : S) : A * S :=
  let '(a, b) := f (sh_binder s) in (a, mkShared (sh_challenges s) (sh_lastIssued s) (sh_repository s) b (sh_world s)).
Definition with_challenges (f : gmap string cliChallenge -> gmap string cliChallenge) (s : S) : S :=
  mkShared (f (sh_challenges s)) (sh_lastIssued s) (sh_repository s) (sh_binder s) (sh_world s).

Definition repo_result {A} (r : outcome auth_error A) : outcome cli_error A :=
  match r with Ok a => Ok a | Fail e => Fail (ErrRepository e) | Panic => Panic end.
Definition identity_result (r : outcome identity_error string) : outcome cli_error string :=
  match r with Ok a => Ok a | Fail e => Fail (ErrIdentity e) | Panic => Panic end.

Definition now_UTC : Call S Z := Act (on_world Now) (fun at_ => Ret (Ok at_)).
Definition new_id (at_ : Z) : Call S string := Act (on_world (NewID at_)) (fun r => Ret (identity_result r)).
Definition parsed (value : string) : Call S string := Ret (identity_result (ParseID value)).
Definition repository_call {A} (f : R -> outcome auth_error A * R) : Call S A := Act (on_repository f) (fun r => Ret (repo_result r)).
Definition repository_read {A} (f : R -> outcome auth_error A) : Call S A := repository_call (fun r => (f r, r)).
Definition binder_call (f : B -> outcome binding_error unit * B) : Call S unit :=
  Act (on_binder f) (fun r => Ret (match r with
    | Ok _ | Fail ErrAgentBridgeNotFound => Ok tt
    | Fail (ErrAgentBridgeOther text) => Fail (ErrRunBinding text)
    | Panic => Panic
    end)).

Definition NewCLIAuthorizationService (config : CLIChallengeConfig) (runBinder : bool) : Call S CLIAuthorizationService :=
  _ ← checking ErrUnauthorized (is_ok (ParseRequestID (cf_InstallationID config)) && (1 <=? cf_InstallationGeneration config) &&
        (length (cf_PublicKey config) =? PublicKeySize)%nat);
  at_ ← now_UTC;
  instance ← new_id at_;
  _ ← parsed instance;
  registry ← (Ret (match InitialRegistry with Ok registry => Ok registry | _ => Panic end) : Call S Registry);
  mret (mkService config runBinder registry instance (base64_Std_Encode (cf_PublicKey config)) (digestBytes (cf_PublicKey config)) (AgentScopes registry)).

Definition live (at_ : Z) (entry : string * cliChallenge) : Prop := at_ < ch_ExpiresAt (cc_result entry.2).
#[local] Instance live_dec at_ entry : Decision (live at_ entry) := decide (at_ < ch_ExpiresAt (cc_result entry.2)).
Definition cleanupLocked (at_ : Z) (challenges : gmap string cliChallenge) : gmap string cliChallenge := filter (live at_) challenges.

Variable svc : CLIAuthorizationService.

Definition audit (principalID action result requestDigest : string) : Call S unit :=
  at_ ← now_UTC;
  value ← new_id at_;
  repository_call (repo_AppendAuthorizationAudit (mkAudit value (cf_InstallationID (sv_config svc)) AuthorityProductCLI principalID action result
    requestDigest at_)).

(** [_ = service.audit(...)] *)
Definition audit_ignored (principalID action result requestDigest : string) : Call S unit :=
  prog_bind (audit principalID action result requestDigest) (fun r => Ret (match r with Panic => Panic | _ => Ok tt end)).

(** *** Challenges *)

Definition http_MethodGet : string := "GET".
Definition http_MethodPost : string := "POST".
Definition expected_method (descriptor : Descriptor) (commandName : string) : string :=
  if bool_decide (de_Mutability descriptor = ReadOnly) && negb (bool_decide (commandName = "edit derive-rough-cut")) then http_MethodGet else http_MethodPost.

(** The checks before the challenge is made, and what they find *)
Definition check_request (request : CLIChallengeRequest) : outcome cli_error (Descriptor * string) :=
  _ ← guard_or ErrCLIChallengeInvalid (is_ok (ParseRequestID (rq_ClientInstance request)));
  let path := strings_Fields (rq_Command request) in
  _ ← guard_or ErrCLIChallengeInvalid ((length path =? 2)%nat && bool_decide (strings_Join " " path = rq_Command request));
  descriptor ← or_fail ErrCLIChallengeInvalid (Lookup (sv_registry svc) path);
  let method := expected_method descriptor (rq_Command request) in
  let bodyDigestValid := is_ok (ParseDigest (rq_BodyDigest request)) &&
    (bool_decide (method = http_MethodPost) || bool_decide (rq_BodyDigest request = NoBodyDigest (rq_Command request))) in
  let requestIdentityValid :=
    if de_RequestIdentity descriptor then is_ok (ParseRequestID (rq_RequestID request)) else bool_decide (rq_RequestID request = "") in
  _ ← guard_or ErrCLIChallengeInvalid (match Fingerprint (sv_registry svc) path with
        | Ok fingerprint => bool_decide (fingerprint = rq_CommandFingerprint request)
        | _ => false
        end);
  _ ← guard_or ErrCLIChallengeInvalid (bodyDigestValid && requestIdentityValid &&
        Bool.eqb (de_RequestIdentity descriptor) (negb (bool_decide (rq_RequestID request = ""))) && bool_decide (rq_Method request = method) &&
        validCLIHTTPBinding path (rq_Path request) && validCommandContext descriptor (rq_Context request) (rq_Path request));
  match canonicalQuery (rq_Query request) with
  | Some query => _ ← guard_or ErrCLIChallengeInvalid (bool_decide (query = rq_Query request)); Ok (descriptor, query)
  | None => Fail ErrCLIChallengeInvalid
  end.

(** [randomToken(service.random, "")] *)
Definition randomToken (prefix : string) (w : W) : outcome cli_error string * W :=
  let '(value, w) := read_random w in
  (match value with Some value => Ok (prefix +:+ base64_RawURL_Encode (map byte_of value)) | None => Fail ErrRandom end, w).

Definition named_grant (found : outcome auth_error CLIGrant) : outcome cli_error (string * option Z * string) :=
  match found with
  | Ok grant => Ok (cg_ID grant, Some (cg_Revision grant), cg_ScopeDigest grant)
  | Fail ErrCLIGrantNotFound => Ok ("", None, "")
  | Fail e => Fail (ErrRepository e)
  | Panic => Panic
  end.

Definition challenge_of (request : CLIChallengeRequest) (descriptor : Descriptor) (query inputDigest invocationID nonce : string)
    (policy : InvocationPolicySnapshot) (at_ : Z) (grant : string * option Z * string) : CLIChallengeResult :=
  let '(grantID, revision, scopeDigest) := grant in
  mkChallenge CLIChallengeSchema invocationID grantID revision scopeDigest nonce (at_ + CLIChallengeTTL) (cf_InstallationID (sv_config svc))
    (cf_InstallationGeneration (sv_config svc)) (cf_CellGeneration (sv_config svc)) (sv_apiInstance svc) (rq_ClientInstance request)
    (rq_Command request) (rq_CommandFingerprint request) (de_RequiredScope descriptor) (rq_Method request) (rq_Path request) query
    (rq_BodyDigest request) inputDigest (rq_RequestID request) (de_Receipt descriptor) (rq_Context request) policy CLIRole "".

Definition with_payload (c : CLIChallengeResult) (payload : string) : CLIChallengeResult :=
  mkChallenge (ch_Schema c) (ch_InvocationID c) (ch_GrantID c) (ch_GrantRevision c) (ch_GrantScopeDigest c) (ch_Nonce c) (ch_ExpiresAt c)
    (ch_InstallationID c) (ch_InstallationGeneration c) (ch_CellGeneration c) (ch_APIInstanceID c) (ch_ClientInstance c) (ch_Command c)
    (ch_CommandFingerprint c) (ch_RequiredScope c) (ch_Method c) (ch_Path c) (ch_Query c) (ch_BodyDigest c) (ch_InputDigest c) (ch_RequestID c)
    (ch_Receipt c) (ch_Context c) (ch_Policy c) (ch_Role c) payload.

(** The values drawn under the mutex: nonce, invocation, grant *)
Definition draw (request : CLIChallengeRequest) (query : string) (at_ : Z) (r : R) (w : W)
    : outcome cli_error (string * string * string * (string * option Z * string)) * W :=
  let '(nonce, w) := randomToken "" w in
  match nonce with
  | Ok nonce =>
      let '(value, w) := NewID at_ w in
      (invocation ← identity_result value;
       invocation ← identity_result (ParseID invocation);
       match cliInvocationDigest request query with
       | Some inputDigest =>
           grant ← named_grant (repo_FindCLIGrant (cf_InstallationID (sv_config svc)) (sv_publicKey svc) r);
           Ok (nonce, invocation, inputDigest, grant)
       | None => Fail ErrMarshal
       end, w)
  | Fail e => (Fail e, w)
  | Panic => (Panic, w)
  end.

(** From [service.mu.Lock()] to the return *)
Definition issue (request : CLIChallengeRequest) (descriptor : Descriptor) (query : string) (policy : InvocationPolicySnapshot) (at_ : Z) (s : S)
    : outcome cli_error CLIChallengeResult * S :=
  let challenges := cleanupLocked at_ (sh_challenges s) in
  let s := mkShared challenges (sh_lastIssued s) (sh_repository s) (sh_binder s) (sh_world s) in
  let previous := default zero_time (sh_lastIssued s !! rq_ClientInstance request) in
  if negb (time_IsZero previous) && (at_ - previous <? 250 * 10 ^ 6) then (Fail ErrCLIRateLimited, s)
  else if (cliChallengeLimit <=? size challenges)%nat then (Fail ErrCLIRateLimited, s)
  else
    let '(drawn, w) := draw request query at_ (sh_repository s) (sh_world s) in
    let s := mkShared challenges (sh_lastIssued s) (sh_repository s) (sh_binder s) w in
    match drawn with
    | Ok (nonce, invocation, inputDigest, grant) =>
        let result := challenge_of request descriptor query inputDigest invocation nonce policy at_ grant in
        match canonicalCLIChallenge result with
        | Some canonical =>
            let result := with_payload result (base64_RawURL_Encode canonical) in
            (Ok result, mkShared (<[nonce := mkCliChallenge result canonical]> challenges) (<[rq_ClientInstance request := at_]> (sh_lastIssued s))
              (sh_repository s) (sh_binder s) w)
        | None => (Fail ErrMarshal, s)
        end
    | Fail e => (Fail e, s)
    | Panic => (Panic, s)
    end.

Definition ChallengeCLI (request : CLIChallengeRequest) : Call S CLIChallengeResult :=
  found ← (Ret (check_request request) : Call S (Descriptor * string));
  settings ← repository_read repo_LoadCLIInvocationPolicy;
  policy ← unless_missing ErrCLIChallengeInvalid (NewInvocationPolicySnapshot settings (rq_PolicyOverride request));
  at_ ← now_UTC;
  Act (issue request found.1 found.2 policy at_) Ret.

(** *** Pairing and upgrades *)

Definition createPendingGrant (at_ : Z) : Call S CLIGrant :=
  grantValue ← new_id at_;
  agentValue ← new_id at_;
  agent ← parsed agentValue;
  repository_call (repo_EnsurePendingCLIGrant (mkPendingGrant grantValue (cf_InstallationID (sv_config svc)) agent (sv_publicKey svc) (sv_fingerprint svc)
    (sv_allScopes svc) at_ (at_ + CLIPairingTTL))).

Definition createPendingScopeUpgrade (grant : CLIGrant) (requiredScope : string) (at_ : Z) : Call S CLIGrantScopeUpgrade :=
  value ← new_id at_;
  normalized ← (Ret (repo_result (NormalizeCLIScopes (cg_Scopes grant ++ [requiredScope]))) : Call S (list string));
  repository_call (repo_EnsurePendingUpgrade (mkPendingUpgrade value (cg_ID grant) (cg_Revision grant) normalized at_ (at_ + CLIScopeUpgradeTTL))).

Definition associateAgentRunPairing (ctx : InvocationContext) (grant : CLIGrant) (at_ : Z) : Call S unit :=
  match ctx_RunID ctx, ctx_TurnID ctx with
  | Some run, Some turn =>
      if sv_runBinder svc then binder_call (AssociateAgentRunPairing run turn (cg_ID grant) (cg_Revision grant) at_) else mret tt
  | _, _ => mret tt
  end.

Definition bindAuthorizedAgentRun (ctx : InvocationContext) (grant : CLIGrant) (at_ : Z) : Call S unit :=
  match ctx_RunID ctx, ctx_TurnID ctx with
  | Some run, Some turn =>
      if sv_runBinder svc then
        value ← new_id at_;
        eventID ← parsed value;
        binder_call (BindAuthorizedAgentRun run turn (cg_AgentID grant) (cg_ID grant) (cg_Revision grant) eventID at_)
      else mret tt
  | _, _ => mret tt
  end.

(** *** Authorization *)

(** Between [Lock] and [Unlock]: a challenge is taken out of the map. *)
Definition take_challenge (nonce : string) (at_ : Z) (s : S) : option cliChallenge * S :=
  (sh_challenges s !! nonce, with_challenges (fun challenges => cleanupLocked at_ (delete nonce challenges)) s).

Definition request_matches (request : AuthorizationRequest) (c : CLIChallengeResult) : bool :=
  match canonicalQuery (ar_Query request) with
  | Some query =>
      bool_decide (query = ch_Query c) && bool_decide (ar_Method request = ch_Method c) && bool_decide (ar_Path request = ch_Path c) &&
      bool_decide (ar_Command request = ch_Command c) && bool_decide (ar_CommandFingerprint request = ch_CommandFingerprint c) &&
      bool_decide (ar_RequiredScope request = ch_RequiredScope c) && bool_decide (ar_BodyDigest request = ch_BodyDigest c) &&
      bool_decide (ar_CLIGrant request = ch_GrantID c)
  | None => false
  end.

Definition signature_valid (request : AuthorizationRequest) (canonical : bytes) : bool :=
  match base64_RawURL_Decode (ar_CLISignature request) with
  | Some signature => (length signature =? SignatureSize)%nat && ed25519_Verified (cf_PublicKey (sv_config svc)) canonical signature
  | None => false
  end.

(** The grant, created when the client has none: [true] when it was created *)
Definition find_or_create (at_ : Z) : Call S (CLIGrant * bool) :=
  prog_bind (repository_read (repo_FindCLIGrant (cf_InstallationID (sv_config svc)) (sv_publicKey svc))) (fun r =>
    match r with
    | Fail (ErrRepository ErrCLIGrantNotFound) => grant ← createPendingGrant at_; (mret (grant, true) : Call S (CLIGrant * bool))
    | Ok grant => mret (grant, false) : Call S (CLIGrant * bool)
    | Fail e => failing e
    | Panic => Ret Panic
    end).

Definition authority_unchanged (c : CLIChallengeResult) (grant : CLIGrant) (created : bool) : bool :=
  if bool_decide (ch_GrantID c = "") then created
  else match ch_GrantRevision c with
       | Some revision => (cg_Revision grant =? revision) && bool_decide (cg_ScopeDigest grant = ch_GrantScopeDigest c)
       | None => false
       end.

Definition granted_authority (c : CLIChallengeResult) (grant : CLIGrant) : Authority :=
  mkAuthority AuthorityProductCLI (cf_InstallationID (sv_config svc)) (cg_ID grant) (AgentActor (cg_AgentID grant)) (snap_Effective (ch_Policy c))
    (Some (mkInvocation (ch_InvocationID c) (ch_Command c) (ch_CommandFingerprint c) (ch_Receipt c) (ch_InputDigest c)
      (optionalRequestID (ch_RequestID c)) (ch_Context c))).

(** [switch grant.Status] and what follows it *)
Definition decide_status (request : AuthorizationRequest) (challenge : cliChallenge) (grant : CLIGrant) (at_ : Z) : Call S Authority :=
  let c := cc_result challenge in
  let action := "cli-command:" +:+ ar_Command request in
  let digest := digestBytes (cc_canonical challenge) in
  match cg_Status grant with
  | CLIGrantPending =>
      _ ← associateAgentRunPairing (ch_Context c) grant at_;
      _ ← audit_ignored (cg_ID grant) action "pairing-required" digest;
      failing (CLIPairingRequired grant)
  | CLIGrantDenied => failing ErrCLIGrantDenied
  | CLIGrantRevoked => failing ErrCLIGrantRevoked
  | CLIGrantExpired => failing (CLIPairingRequired grant)
  | CLIGrantOther _ => failing ErrUnauthorized
  | CLIGrantActive =>
      if negb (bool_decide (ar_RequiredScope request ∈ cg_Scopes grant)) then
        upgrade ← createPendingScopeUpgrade grant (ar_RequiredScope request) at_;
        _ ← audit_ignored (cg_ID grant) ("cli-scope-upgrade:" +:+ ar_Command request) "scope-upgrade-required" digest;
        failing (CLIScopeUpgradeRequired upgrade)
      else
        _ ← bindAuthorizedAgentRun (ch_Context c) grant at_;
        prog_bind (audit (cg_ID grant) action "authorized" digest) (fun r =>
          match r with Ok _ => mret (granted_authority c grant) : Call S Authority | Fail _ => failing ErrUnauthorized | Panic => Ret Panic end)
  end.

(** After the challenge was taken *)
Definition authorize_challenge (request : AuthorizationRequest) (challenge : cliChallenge) (at_ : Z) : Call S Authority :=
  let c := cc_result challenge in
  _ ← checking ErrCLIChallengeExpired (at_ <? ch_ExpiresAt c);
  _ ← checking ErrUnauthorized (request_matches request c);
  if negb (signature_valid request (cc_canonical challenge)) then
    _ ← audit_ignored "unpaired" ("cli-command:" +:+ ar_Command request) "denied" (digestBytes (cc_canonical challenge));
    failing ErrUnauthorized
  else
    found ← find_or_create at_;
    _ ← checking ErrUnauthorized (bool_decide (ar_CLIGrant request = "") || bool_decide (ar_CLIGrant request = cg_ID found.1));
    grant ← (if bool_decide (cg_Status found.1 = CLIGrantPending) && negb (at_ <? cg_ExpiresAt found.1) then createPendingGrant at_ else mret found.1);
    _ ← checking ErrCLIGrantAuthorityChanged (authority_unchanged c grant found.2);
    decide_status request challenge grant at_.

Definition request_complete (request : AuthorizationRequest) : bool :=
  bool_decide (ar_UISession request = "") && negb (bool_decide (ar_CLIChallenge request = "")) && negb (bool_decide (ar_CLISignature request = "")) &&
  negb (bool_decide (ar_Command request = "")) && negb (bool_decide (ar_CommandFingerprint request = "")) &&
  negb (bool_decide (ar_RequiredScope request = "")).

Definition Authorize (request : AuthorizationRequest) : Call S Authority :=
  _ ← checking ErrUnauthorized (request_complete request);
  at_ ← now_UTC;
  Act (take_challenge (ar_CLIChallenge request) at_) (fun challenge =>
    match challenge with Some challenge => authorize_challenge request challenge at_ | None => failing ErrCLIChallengeInvalid end).

(** *** The creator's decisions *)

(** Calls on behalf of a context *)
Definition requireCreatorAuthority (ctx : context) : outcome cli_error Authority :=
  match AuthorityFromContext ctx with
  | Ok authority => if bool_decide (au_Surface authority = AuthorityFirstPartyUI) then Ok authority else Fail ErrUnauthorized
  | Fail _ => Fail ErrUnauthorized
  | Panic => Panic
  end.

Definition decision_text (approve : bool) : string := if approve then "approved" else "denied".

Definition Service_DecideCLIGrant (ctx : context) (id : string) (approve : bool) : Call S CLIGrant :=
  authority ← (Ret (requireCreatorAuthority ctx) : Call S Authority);
  at_ ← now_UTC;
  grant ← repository_call (repo_DecideCLIGrant id approve at_);
  _ ← audit (IDString (au_Actor authority)) ("cli-pairing.decide:" +:+ id) (decision_text approve) "";
  mret grant.

Definition Service_RevokeCLIGrant (ctx : context) (id : string) : Call S CLIGrant :=
  authority ← (Ret (requireCreatorAuthority ctx) : Call S Authority);
  at_ ← now_UTC;
  grant ← repository_call (repo_RevokeCLIGrant id at_);
  _ ← audit (IDString (au_Actor authority)) ("cli-pairing.revoke:" +:+ id) "revoked" "";
  mret grant.

Definition Service_DecideCLIGrantScopeUpgrade (ctx : context) (id : string) (approve : bool) : Call S (CLIGrantScopeUpgrade * CLIGrant) :=
  authority ← (Ret (requireCreatorAuthority ctx) : Call S Authority);
  at_ ← now_UTC;
  decided ← repository_call (repo_DecideUpgrade id approve at_);
  _ ← audit (IDString (au_Actor authority)) ("cli-scope-upgrade.decide:" +:+ id) (decision_text approve) (up_RequestedScopeDigest decided.1);
  mret decided.
End service.
