(* ===== verification/CliSafety.v ===== *)
(** What the authorization service guarantees while other requests interfere:
    who is authorized and for what, that a challenge serves once, and that a
    revoked or denied client stays out. *)
From stdpp Require Import base list strings gmap sorting relations fin_maps.
From Stdlib Require Import ZArith Lia Ascii.
From S2P Require Import Prelude GoText Exact Identity Canonical EditModel Timeline EditState EditValidate EditNormalize Project Database Authority GoWire.
From S2P Require Import EditLoadState EditServiceCalls CommandRegistry CliGrants CliRepository CliMemory CliTables CliHistory CliService.
Open Scope Z_scope.

(** ** Programs that keep a predicate *)

(** Every action keeps [P], whichever state satisfying [P] it starts in. *)
Fixpoint always {S A} (P : S -> Prop) (p : prog S A) : Prop :=
  match p with Ret _ => True | Act f k => forall s, P s -> P (f s).2 /\ always P (k (f s).1) end.

Lemma always_bind {S A B} (P : S -> Prop) (p : prog S A) (k : A -> prog S B) :
  always P p -> (forall a, always P (k a)) -> always P (prog_bind p k).
Proof. intros Hp Hk. induction p as [a|C f g IH]; cbn in *; [apply Hk|]. intros s Hs. destruct (Hp s Hs) as [H1 H2]. auto. Qed.

(** Every action keeps [P], and the result satisfies [Q]. *)
Fixpoint ensures {S A} (P : S -> Prop) (Q : A -> Prop) (p : prog S A) : Prop :=
  match p with Ret a => Q a | Act f k => forall s, P s -> P (f s).2 /\ ensures P Q (k (f s).1) end.

Lemma ensures_bind {S A B} (P : S -> Prop) Q T (p : prog S A) (k : A -> prog S B) :
  ensures P Q p -> (forall a, Q a -> ensures P T (k a)) -> ensures P T (prog_bind p k).
Proof. intros Hp Hk. induction p as [a|C f g IH]; cbn in *; [by apply Hk|]. intros s Hs. destruct (Hp s Hs) as [H1 H2]. auto. Qed.

Lemma ensures_always {S A} (P : S -> Prop) Q (p : prog S A) : ensures P Q p -> always P p.
Proof. induction p as [a|C f g IH]; cbn; [done|]. intros Hp s Hs. destruct (Hp s Hs) as [H1 H2]. auto. Qed.

Definition stable {S} (env : S -> S -> Prop) (P : S -> Prop) : Prop := forall s s', env s s' -> P s -> P s'.

Lemma stable_rtc {S} (env : S -> S -> Prop) P s s' : stable env P -> rtc env s s' -> P s -> P s'.
Proof. intros Hst Hr. induction Hr; eauto. Qed.

Lemma runs_keeps {S A} env (P : S -> Prop) (p : prog S A) s a s' : stable env P -> always P p -> runs env p s a s' -> P s -> P s'.
Proof.
  intros Hst. revert s. induction p as [x|B f k IH]; intros s Ha Hr Hs; cbn in Ha, Hr.
  - destruct Hr as [_ Hr]. by eapply stable_rtc.
  - destruct Hr as (s1 & He & Hr). destruct (Ha s1) as [H1 H2]; [by eapply stable_rtc|]. by eapply IH.
Qed.

(** A call that returned a value, step by step *)
Lemma call_bind {S A B} env (p : Call S A) (k : A -> Call S B) s b s' :
  runs env (p ≫= k) s (Ok b) s' -> exists a s1, runs env p s (Ok a) s1 /\ runs env (k a) s1 (Ok b) s'.
Proof.
  intros Hr. apply runs_bind in Hr as ([a|e|] & s1 & H1 & H2); [by exists a, s1|by destruct H2..].
Qed.
Lemma call_checking {S} env e b (s : S) u s' : runs env (checking e b) s (Ok u) s' -> b = true /\ rtc env s s'.
Proof. destruct b; cbn; intros [? ?]; [done|discriminate]. Qed.
Lemma call_failing {S A} env e (s : S) (a : A) s' : ~ runs env (failing e) s (Ok a) s'.
Proof. intros [? _]. discriminate. Qed.
Lemma call_returning {S A} env (x : outcome cli_error A) (s : S) a s' : runs env (Ret x) s (Ok a) s' -> x = Ok a /\ rtc env s s'.
Proof. intros [-> ?]. done. Qed.

(** ** Grants that are settled *)

Record book_ok (b : book) : Prop := mkBookOk {
  bo_ids : forall id g, bk_grants b !! id = Some g -> cg_ID g = id;
  bo_keys : forall i k, unique_where (has_key i k) (bk_grants b) }.

Lemma has_key_spec i k g : has_key i k g = true <-> cg_InstallationID g = i /\ cg_PublicKey g = k.
Proof. apply has_key_true. Qed.

Lemma book_ok_replace b g g' : book_ok b -> bk_grants b !! cg_ID g' = Some g -> cg_InstallationID g' = cg_InstallationID g ->
  cg_PublicKey g' = cg_PublicKey g -> book_ok (put_grant g' b).
Proof.
  intros [Hi Hk] Hg H1 H2. split; cbn.
  - intros id x [[<- <-]|[_ Hx]]%lookup_insert_Some; [done|by apply Hi].
  - intros i k. eapply unique_replace; [apply Hk|exact Hg|]. unfold has_key. by rewrite H1, H2.
Qed.

Lemma book_ok_add b g : book_ok b -> grant_of_key (cg_InstallationID g) (cg_PublicKey g) b = None -> book_ok (put_grant g b).
Proof.
  intros [Hi Hk] Hn. split; cbn.
  - intros id x [[<- <-]|[_ Hx]]%lookup_insert_Some; [done|by apply Hi].
  - intros i k. apply unique_add; [apply Hk|]. intros [<- <-]%has_key_spec j x Hx. by eapply first_where_none.
Qed.

Lemma book_ok_upgrades b b' : book_ok b -> bk_grants b' = bk_grants b -> book_ok b'.
Proof. intros [Hi Hk] E. split; rewrite E; done. Qed.

Section settled.
Context `{Platform}.

Lemma spec_call_book_ok c log b : book_ok b -> book_ok (spec_call c (log, b)).2.
Proof.
  intros Ho. destruct c as [p|id ap at_|id at_|p|id ap at_|rec|cand]; cbn; [| | | | |done..].
  - unfold spec_ensure. destruct (NormalizeCLIScopes (pg_Scopes p)); [|done..]. destruct (grant_of_key _ _ b) as [g|] eqn:Eg; [|by apply book_ok_add].
    destruct (grant_lapsed _ _); [|done]. apply first_where_some in Eg as (id & Hg & _). cbn.
    apply (book_ok_replace b g); [done|cbn; by rewrite (bo_ids _ Ho _ _ Hg)|done..].
  - unfold spec_decide. destruct (bk_grants b !! id) as [g|] eqn:Hg; [|done]. pose proof (bo_ids _ Ho _ _ Hg) as Hid.
    destruct (negb _); [done|]. destruct (negb _); cbn; apply (book_ok_replace b g); try done; cbn; by rewrite Hid.
  - unfold spec_revoke. destruct (bk_grants b !! id) as [g|] eqn:Hg; [|done]. pose proof (bo_ids _ Ho _ _ Hg) as Hid. destruct (negb _); [done|]. cbn.
    assert (book_ok (put_grant (with_grant_status CLIGrantRevoked (cg_DecidedAt g) (Some at_) g) b)) as Hp
      by (apply (book_ok_replace b g); try done; cbn; by rewrite Hid).
    destruct (pending_of id b); [|done]. by eapply book_ok_upgrades.
  - unfold spec_ensure_upgrade. destruct (validatePendingCLIGrantScopeUpgrade p) as [scopes| |]; [|done..]. destruct (bk_grants b !! pu_GrantID p); [|done].
    destruct (negb _); [done|]. destruct (pending_of _ b); [destruct (same_upgrade _ _ _); [done|]|]; by eapply book_ok_upgrades.
  - unfold spec_decide_upgrade. destruct (bk_upgrades b !! id) as [u|]; [|done]. destruct (negb _); [done|].
    destruct (negb _); [by eapply book_ok_upgrades|]. destruct (bk_grants b !! up_GrantID u) as [g|] eqn:Hg; [|done]. destruct (negb _); [done|]. cbn.
    pose proof (bo_ids _ Ho _ _ Hg) as Hid. apply (book_ok_upgrades (put_grant (if ap then upgraded_grant u g else g) b)); [|done]. apply (book_ok_replace b g); destruct ap; try done; cbn; by rewrite Hid.
Qed.

(** A grant stays where it is, and keeps its key. *)
Definition same_client (g g' : CLIGrant) : Prop := cg_InstallationID g' = cg_InstallationID g /\ cg_PublicKey g' = cg_PublicKey g.
Definition still (id : string) (g : CLIGrant) (b : book) : Prop := exists g', bk_grants b !! id = Some g' /\ same_client g g'.

Lemma still_put b id g x x' : book_ok b -> bk_grants b !! id = Some g -> bk_grants b !! cg_ID x' = Some x -> same_client x x' -> still id g (put_grant x' b).
Proof.
  intros Ho Hg Hx Hs. unfold still, put_grant. cbn. destruct (decide (cg_ID x' = id)) as [<-|Hne].
  - rewrite Hg in Hx. injection Hx as <-. exists x'. by rewrite lookup_insert_eq.
  - exists g. by rewrite lookup_insert_ne.
Qed.

Lemma still_same b id g : bk_grants b !! id = Some g -> still id g b.
Proof. intros Hg. by exists g. Qed.

Lemma spec_call_still c log b id g : book_ok b -> bk_grants b !! id = Some g ->
  match c with CallEnsure p => bk_grants b !! pg_ID p = None | _ => True end -> still id g (spec_call c (log, b)).2.
Proof.
  intros Ho Hg Hfresh. destruct c as [p|i ap at_|i at_|p|i ap at_|rec|cand]; cbn -[lookup]; [| | | | |by apply still_same..].
  - unfold spec_ensure. destruct (NormalizeCLIScopes (pg_Scopes p)); [|by apply still_same..].
    destruct (grant_of_key _ _ b) as [x|] eqn:Ex; cbn [snd].
    + apply first_where_some in Ex as (j & Hj & _). destruct (grant_lapsed x _); [|by apply still_same].
      apply (still_put b id g x); [done..| |done]. cbn. by rewrite (bo_ids _ Ho _ _ Hj).
    + exists g. split; [|done]. cbn. rewrite lookup_insert_ne; [done|]. intros E. cbn in E. congruence.
  - unfold spec_decide. destruct (bk_grants b !! i) as [x|] eqn:Hx; [|by apply still_same]. destruct (negb _); [by apply still_same|].
    destruct (negb _); cbn [snd]; (apply (still_put b id g x); [done..| |done]); cbn; by rewrite (bo_ids _ Ho _ _ Hx).
  - unfold spec_revoke. destruct (bk_grants b !! i) as [x|] eqn:Hx; [|by apply still_same]. destruct (negb _); [by apply still_same|]. cbn [snd].
    assert (still id g (put_grant (with_grant_status CLIGrantRevoked (cg_DecidedAt x) (Some at_) x) b)) as Hs
      by (apply (still_put b id g x); [done..| |done]; cbn; by rewrite (bo_ids _ Ho _ _ Hx)).
    by destruct (pending_of i b).
  - unfold spec_ensure_upgrade. destruct (validatePendingCLIGrantScopeUpgrade p) as [scopes| |]; [|by apply still_same..].
    destruct (bk_grants b !! pu_GrantID p); [|by apply still_same]. destruct (negb _); [by apply still_same|].
    destruct (pending_of _ b); [destruct (same_upgrade _ _ _)|]; by apply still_same.
  - unfold spec_decide_upgrade. destruct (bk_upgrades b !! i) as [u|]; [|by apply still_same]. destruct (negb _); [by apply still_same|].
    destruct (negb _); [by apply still_same|]. destruct (bk_grants b !! up_GrantID u) as [x|] eqn:Hx; [|by apply still_same].
    destruct (negb _); [by apply still_same|]. cbn [snd].
    destruct (still_put b id g x (if ap then upgraded_grant u x else x) Ho Hg) as (g' & Hg' & Hs);
      [destruct ap; cbn; by rewrite (bo_ids _ Ho _ _ Hx)|by destruct ap|]. by exists g'.
Qed.

(** Nothing happens to a grant that was denied or revoked; one that expired waits
    for its client to ask again. *)
Definition settled (g : CLIGrant) : bool :=
  bool_decide (cg_Status g = CLIGrantDenied) || bool_decide (cg_Status g = CLIGrantRevoked) || bool_decide (cg_Status g = CLIGrantExpired).
Definition final (g : CLIGrant) : bool := settled g && negb (bool_decide (cg_Status g = CLIGrantExpired)).

Definition asks_again (c : auth_call) (g : CLIGrant) : bool :=
  match c with CallEnsure p => has_key (pg_InstallationID p) (pg_PublicKey p) g | _ => false end.

Lemma put_other b g g' id : bk_grants b !! id = Some g -> cg_ID g' <> id -> bk_grants (put_grant g' b) !! id = Some g.
Proof. intros Hg Hne. cbn. by rewrite lookup_insert_ne. Qed.

Lemma settled_not g : settled g = true -> cg_Status g <> CLIGrantPending /\ cg_Status g <> CLIGrantActive.
Proof. unfold settled. intros Hs. destruct (cg_Status g); try done. Qed.

Lemma spec_call_settled c log b id g : book_ok b -> bk_grants b !! id = Some g -> settled g = true ->
  (asks_again c g = true -> final g = true) ->
  match c with CallEnsure p => bk_grants b !! pg_ID p = None | _ => True end ->
  bk_grants (spec_call c (log, b)).2 !! id = Some g.
Proof.
  intros Ho Hg Hs Hask Hfresh. destruct (settled_not g Hs) as [Hnp Hna]. pose proof (bo_ids _ Ho _ _ Hg) as Hid.
  destruct c as [p|i ap at_|i at_|p|i ap at_|rec|cand]; cbn -[lookup]; [| | | | |done..].
  - unfold spec_ensure. destruct (NormalizeCLIScopes (pg_Scopes p)); [|done..].
    destruct (grant_of_key _ _ b) as [x|] eqn:Ex; [|apply put_other; [done|cbn; congruence]].
    apply first_where_some in Ex as (j & Hj & Hk). destruct (grant_lapsed x _) eqn:El; [|done]. cbn [snd]. apply put_other; [done|]. cbn.
    rewrite (bo_ids _ Ho _ _ Hj). intros ->. rewrite Hg in Hj. injection Hj as <-.
    specialize (Hask Hk). unfold final in Hask. apply andb_true_iff in Hask as [_ Hne%negb_true_iff].
    unfold grant_lapsed in El. rewrite Hne in El. cbn in El. apply andb_true_iff in El as [El%bool_decide_eq_true _]. done.
  - unfold spec_decide. destruct (bk_grants b !! i) as [x|] eqn:Hx; [|done].
    destruct (bool_decide_reflect (cg_Status x = CLIGrantPending)) as [Hp|]; cbn [negb]; [|done]. pose proof (bo_ids _ Ho _ _ Hx) as Hxi.
    assert (i <> id) as Hne by congruence. destruct (negb _); cbn [snd]; apply put_other; try done; cbn; congruence.
  - unfold spec_revoke. destruct (bk_grants b !! i) as [x|] eqn:Hx; [|done].
    destruct (bool_decide_reflect (cg_Status x = CLIGrantActive)) as [Hp|]; cbn [negb]; [|done]. pose proof (bo_ids _ Ho _ _ Hx) as Hxi.
    assert (i <> id) as Hne by congruence. cbn [snd]. destruct (pending_of i b); apply put_other; try done; cbn; congruence.
  - unfold spec_ensure_upgrade. destruct (validatePendingCLIGrantScopeUpgrade p) as [scopes| |]; [|done..]. destruct (bk_grants b !! pu_GrantID p); [|done].
    destruct (negb _); [done|]. destruct (pending_of _ b); [destruct (same_upgrade _ _ _)|]; done.
  - unfold spec_decide_upgrade. destruct (bk_upgrades b !! i) as [u|]; [|done]. destruct (negb _); [done|]. destruct (negb _); [done|].
    destruct (bk_grants b !! up_GrantID u) as [x|] eqn:Hx; [|done]. destruct (negb _) eqn:Ea; [done|].
    apply negb_false_iff, andb_true_iff in Ea as [Ha%bool_decide_eq_true _]. pose proof (bo_ids _ Ho _ _ Hx) as Hxi.
    assert (up_GrantID u <> id) as Hne by congruence. destruct ap; cbn [snd]; apply put_other; try done; cbn; congruence.
Qed.
End settled.

(** ** The service under interference *)

Section safety.
Context {R B W : Type} `{AuthorizationRepositoryLaws R} `{AgentRunBinding B} `{World W} `{Schemas} `{Signatures}.
Notation S := (shared R B W).
Variable svc : CLIAuthorizationService.
Notation installation := (cf_InstallationID (sv_config svc)).
Notation key := (sv_publicKey svc).

(** A challenge as [ChallengeCLI] makes them *)
Definition issued (nonce : string) (challenge : cliChallenge) : Prop :=
  exists request descriptor query settings policy at_ inputDigest invocation grant,
    check_request svc request = Ok (descriptor, query) /\ NewInvocationPolicySnapshot settings (rq_PolicyOverride request) = Some policy /\
    cliInvocationDigest request query = Some inputDigest /\ is_ok (ParseID invocation) = true /\
    let c := challenge_of svc request descriptor query inputDigest invocation nonce policy at_ grant in
    canonicalCLIChallenge c = Some (cc_canonical challenge) /\ cc_result challenge = with_payload c (base64_RawURL_Encode (cc_canonical challenge)).

(** What the map of challenges holds *)
Definition held_map (m : gmap string cliChallenge) : Prop := map_Forall issued m /\ (size m <= cliChallengeLimit)%nat.
Definition held (s : S) : Prop := held_map (sh_challenges s).

(** Other requests reach the repository through its operations. *)
Definition repo_step (r r' : R) : Prop := exists c, call_admissible c r /\ r' = (run_call c ([], r)).2.
Definition others (env : S -> S -> Prop) : Prop := forall s s', env s s' -> rtc repo_step (sh_repository s) (sh_repository s').
(** What operations make of a repository, whoever calls them *)
Definition reaches : R -> R -> Prop := rtc (fun r r' => exists c, r' = (run_call c ([], r)).2).

Lemma others_rtc env s s' : others env -> rtc env s s' -> rtc repo_step (sh_repository s) (sh_repository s').
Proof. intros Ho Hr. induction Hr; [done|]. etrans; [by apply Ho|done]. Qed.

(** *** Actions that leave something alone *)

Definition of_challenges (P : gmap string cliChallenge -> Prop) (s : S) : Prop := P (sh_challenges s).
Definition of_repository (P : R -> Prop) (s : S) : Prop := P (sh_repository s).

Lemma on_world_same {A} (f : W -> A * W) (s : S) :
  sh_challenges (on_world f s).2 = sh_challenges s /\ sh_repository (on_world f s).2 = sh_repository s.
Proof. unfold on_world. by destruct (f (sh_world s)). Qed.
Lemma on_repository_same {A} (f : R -> A * R) (s : S) :
  sh_challenges (on_repository f s).2 = sh_challenges s /\ on_repository f s = ((f (sh_repository s)).1, (on_repository f s).2) /\
  sh_repository (on_repository f s).2 = (f (sh_repository s)).2.
Proof. unfold on_repository. by destruct (f (sh_repository s)). Qed.
Lemma on_binder_same {A} (f : B -> A * B) (s : S) :
  sh_challenges (on_binder f s).2 = sh_challenges s /\ sh_repository (on_binder f s).2 = sh_repository s.
Proof. unfold on_binder. by destruct (f (sh_binder s)). Qed.

(** *** Programs that never touch the challenges *)

Section challenges.
Variable P : gmap string cliChallenge -> Prop.
Notation kept := (always (of_challenges P)).

Lemma kept_bind {A C} (p : Call S A) (k : A -> Call S C) : kept p -> (forall a, kept (k a)) -> kept (p ≫= k).
Proof. intros Hp Hk. apply always_bind; [done|]. intros [a|e|]; [apply Hk|exact I..]. Qed.
Lemma kept_ret {A} (x : outcome cli_error A) : kept (Ret x).
Proof. exact I. Qed.
Lemma kept_now : kept now_UTC.
Proof. intros s Hs. split; [|exact I]. unfold of_challenges. by rewrite (proj1 (on_world_same _ s)). Qed.
Lemma kept_new_id at_ : kept (new_id at_).
Proof. intros s Hs. split; [|exact I]. unfold of_challenges. by rewrite (proj1 (on_world_same _ s)). Qed.
Lemma kept_repository {A} (f : R -> outcome auth_error A * R) : kept (repository_call f).
Proof. intros s Hs. split; [|exact I]. unfold of_challenges. by rewrite (proj1 (on_repository_same _ s)). Qed.
Lemma kept_binder (f : B -> outcome binding_error unit * B) : kept (binder_call f).
Proof. intros s Hs. split; [|exact I]. unfold of_challenges. by rewrite (proj1 (on_binder_same _ s)). Qed.
Lemma kept_checking e b : kept (checking e b).
Proof. by destruct b. Qed.
Lemma kept_failing {A} e : kept (failing e : Call S A).
Proof. exact I. Qed.
Lemma kept_audit a b c d : kept (audit svc a b c d).
Proof. apply kept_bind; [apply kept_now|]. intros at_. apply kept_bind; [apply kept_new_id|]. intros v. apply kept_repository. Qed.
Lemma kept_audit_ignored a b c d : kept (audit_ignored svc a b c d).
Proof. apply always_bind; [apply kept_audit|]. intros r. exact I. Qed.
Lemma kept_create at_ : kept (createPendingGrant svc at_).
Proof. apply kept_bind; [apply kept_new_id|]. intros v. apply kept_bind; [apply kept_new_id|]. intros w. apply kept_bind; [exact I|]. intros a. apply kept_repository. Qed.
Lemma kept_upgrade g scope at_ : kept (createPendingScopeUpgrade g scope at_).
Proof. apply kept_bind; [apply kept_new_id|]. intros v. apply kept_bind; [exact I|]. intros n. apply kept_repository. Qed.
Lemma kept_associate ctx g at_ : kept (associateAgentRunPairing svc ctx g at_).
Proof. unfold associateAgentRunPairing. repeat case_match; try exact I. apply kept_binder. Qed.
Lemma kept_bind_run ctx g at_ : kept (bindAuthorizedAgentRun svc ctx g at_).
Proof.
  unfold bindAuthorizedAgentRun. repeat case_match; try exact I. apply kept_bind; [apply kept_new_id|]. intros v. apply kept_bind; [exact I|].
  intros e. apply kept_binder.
Qed.

Lemma kept_decide_status request challenge g at_ : kept (decide_status svc request challenge g at_).
Proof.
  unfold decide_status. destruct (cg_Status g); try exact I.
  - apply kept_bind; [apply kept_associate|]. intros _. apply kept_bind; [apply kept_audit_ignored|]. intros _. exact I.
  - destruct (negb _).
    + apply kept_bind; [apply kept_upgrade|]. intros u. apply kept_bind; [apply kept_audit_ignored|]. intros _. exact I.
    + apply kept_bind; [apply kept_bind_run|]. intros _. apply always_bind; [apply kept_audit|]. by intros [|e|].
Qed.

Lemma kept_authorize_challenge request challenge at_ : kept (authorize_challenge svc request challenge at_).
Proof.
  unfold authorize_challenge. apply kept_bind; [apply kept_checking|]. intros _. apply kept_bind; [apply kept_checking|]. intros _. destruct (negb _).
  - apply kept_bind; [apply kept_audit_ignored|]. intros _. exact I.
  - apply kept_bind.
    + apply always_bind; [apply kept_repository|]. intros [g|e|]; try exact I. destruct e; try exact I. destruct e; try exact I.
      apply kept_bind; [apply kept_create|]. intros g. exact I.
    + intros found. apply kept_bind; [apply kept_checking|]. intros _. apply kept_bind.
      * destruct (_ && _); [apply kept_create|exact I].
      * intros g. apply kept_bind; [apply kept_checking|]. intros _. apply kept_decide_status.
Qed.
End challenges.

(** *** The map of challenges *)

Lemma cleanup_held at_ m : held_map m -> held_map (cleanupLocked at_ m).
Proof.
  intros [Hi Hs]. split.
  - intros n c [Hc _]%map_lookup_filter_Some. by apply (Hi n c).
  - etrans; [|exact Hs]. apply map_subseteq_size, map_filter_subseteq.
Qed.

Lemma take_held nonce at_ s : held s -> held (take_challenge nonce at_ s).2.
Proof.
  intros [Hi Hs]. apply cleanup_held. split; [by apply map_Forall_delete|]. etrans; [|exact Hs]. apply map_subseteq_size, delete_subseteq.
Qed.

Lemma draw_spec request query at_ r w nonce invocation inputDigest grant w' :
  draw svc request query at_ r w = (Ok (nonce, invocation, inputDigest, grant), w') ->
  cliInvocationDigest request query = Some inputDigest /\ is_ok (ParseID invocation) = true.
Proof.
  unfold draw. destruct (randomToken "" w) as [[n|e|] w1]; try discriminate. destruct (NewID at_ w1) as [v w2]. destruct v as [v|e|]; cbn; try discriminate.
  destruct (ParseID v) as [v'|e|] eqn:Ep; cbn; try discriminate. destruct (cliInvocationDigest request query) as [d|]; try discriminate.
  destruct (named_grant _) as [g|e|]; cbn; try discriminate. intros [= -> -> -> -> _]. split; [done|].
  unfold ParseID in Ep |- *. destruct (negb (isUUIDv7 v)) eqn:Ev; [discriminate|]. injection Ep as <-. by rewrite Ev.
Qed.

Lemma issue_held request descriptor query settings policy at_ s : check_request svc request = Ok (descriptor, query) ->
  NewInvocationPolicySnapshot settings (rq_PolicyOverride request) = Some policy -> held s -> held (issue svc request descriptor query policy at_ s).2.
Proof.
  intros Hc Hp Hs. apply (cleanup_held at_) in Hs. unfold issue. destruct (negb _ && _); [exact Hs|].
  destruct (cliChallengeLimit <=? _)%nat eqn:El; [exact Hs|]. cbn -[draw cliChallengeLimit].
  destruct (draw svc request query at_ _ _) as [[[[[nonce invocation] inputDigest] grant]|e|] w] eqn:Ed; [|exact Hs..].
  destruct (canonicalCLIChallenge _) as [canonical|] eqn:Ec; [|exact Hs]. destruct (draw_spec _ _ _ _ _ _ _ _ _ _ Ed) as [Hd Hv].
  destruct Hs as [Hi Hsize]. split; cbn -[cliChallengeLimit].
  - apply map_Forall_insert_2; [|done]. exists request, descriptor, query, settings, policy, at_, inputDigest, invocation, grant. done.
  - apply Nat.leb_gt in El. rewrite map_size_insert. case_match; unfold Datatypes.id; lia.
Qed.

Lemma challenge_keeps_held request : always held (ChallengeCLI svc request).
Proof.
  unfold ChallengeCLI. destruct (check_request svc request) as [[descriptor query]|e|] eqn:Ec; [|exact I..].
  match goal with |- always ?P (mbind ?k _) => change (always P (k (descriptor, query))) end. cbn beta.
  change held with (of_challenges held_map).
  apply kept_bind; [apply kept_repository|]. intros settings.
  destruct (NewInvocationPolicySnapshot settings _) as [policy|] eqn:Ep; [|exact I].
  match goal with |- always ?P (mbind ?k _) => change (always P (k policy)) end. cbn beta. apply kept_bind; [apply kept_now|].
  intros at_ s Hs. split; [|exact I]. by eapply issue_held.
Qed.

Lemma authorize_keeps_held request : always held (Authorize svc request).
Proof.
  change held with (of_challenges held_map).
  apply kept_bind; [apply kept_checking|]. intros _. apply kept_bind; [apply kept_now|]. intros at_ s Hs. split; [by apply take_held|].
  destruct (take_challenge _ _ s).1; [apply kept_authorize_challenge|exact I].
Qed.

(** *** One use *)

Definition absent (nonce : string) (s : S) : Prop := sh_challenges s !! nonce = None.

Lemma take_absent nonce at_ s n : n = nonce \/ absent n s -> absent n (take_challenge nonce at_ s).2.
Proof.
  intros Hn. unfold absent, take_challenge, with_challenges, cleanupLocked. cbn. apply map_lookup_filter_None. left.
  destruct Hn as [->|Hn]; [by rewrite lookup_delete, decide_True|]. destruct (decide (nonce = n)) as [->|]; [by rewrite lookup_delete, decide_True|].
  by rewrite lookup_delete_ne.
Qed.

(** The parts of an authorization: the instant, what was taken, the rest *)
Lemma authorize_runs env request s res s' : runs env (Authorize svc request) s res s' -> request_complete request = true ->
  exists at_ s1, rtc env s s1 /\ exists s2, rtc env (on_world Now s1).2 s2 /\ at_ = (on_world Now s1).1 /\
    runs env (match sh_challenges s2 !! ar_CLIChallenge request with
              | Some challenge => authorize_challenge svc request challenge at_
              | None => failing ErrCLIChallengeInvalid
              end) (take_challenge (ar_CLIChallenge request) at_ s2).2 res s'.
Proof.
  unfold Authorize. intros Hr Hc. rewrite Hc in Hr. cbn -[authorize_challenge take_challenge] in Hr. destruct Hr as (s1 & He & s2 & He2 & Hr).
  exists (on_world Now s1).1, s1. split; [done|]. exists s2. split; [done|]. split; [done|]. exact Hr.
Qed.


Lemma absent_after_take env request challenge at_ s res s' nonce : stable env (absent nonce) -> absent nonce s ->
  runs env (authorize_challenge svc request challenge at_) s res s' -> absent nonce s'.
Proof.
  intros Hst Ha Hr. exact (runs_keeps env (absent nonce) _ s res s' Hst (kept_authorize_challenge (fun m => m !! nonce = None) request challenge at_) Hr Ha).
Qed.

Lemma complete_absent env request (s : S) res s' : stable env (absent (ar_CLIChallenge request)) -> runs env (Authorize svc request) s res s' ->
  request_complete request = true -> absent (ar_CLIChallenge request) s'.
Proof.
  intros Hst Hr Hc. destruct (authorize_runs env request s _ s' Hr Hc) as (at_ & s1 & He1 & s2 & He2 & Hat & Hrest).
  assert (absent (ar_CLIChallenge request) (take_challenge (ar_CLIChallenge request) at_ s2).2) as Ha by (apply take_absent; by left).
  destruct (sh_challenges s2 !! ar_CLIChallenge request) as [challenge|]; [by eapply absent_after_take|]. destruct Hrest as [_ Hrest]. by eapply stable_rtc.
Qed.

Lemma absent_refused env request (s : S) res s' : stable env (absent (ar_CLIChallenge request)) -> runs env (Authorize svc request) s res s' ->
  absent (ar_CLIChallenge request) s -> is_ok res = false.
Proof.
  intros Hst Hr Ha. destruct (request_complete request) eqn:Hc; [|unfold Authorize in Hr; rewrite Hc in Hr; by destruct Hr as [-> _]].
  destruct (authorize_runs env request s _ s' Hr Hc) as (at_ & s1 & He1 & s2 & He2 & Hat & Hrest).
  assert (absent (ar_CLIChallenge request) s2) as Hs2.
  { eapply stable_rtc; [exact Hst|exact He2|]. unfold absent. rewrite (proj1 (on_world_same Now s1)). exact (stable_rtc env (absent _) _ _ Hst He1 Ha). }
  unfold absent in Hs2. rewrite Hs2 in Hrest. by destruct Hrest as [-> _].
Qed.

(** *** Who is authorized *)

(** The answer to a request to pair this client *)
Definition paired (r : R) (grant : CLIGrant) : Prop :=
  exists pending, pg_InstallationID pending = installation /\ pg_PublicKey pending = key /\ (repo_EnsurePendingCLIGrant pending r).1 = Ok grant.

Lemma others_reach env s s' : others env -> rtc env s s' -> reaches (sh_repository s) (sh_repository s').
Proof.
  intros Ho Hr. apply others_rtc in Hr; [|done]. induction Hr as [|r r1 r2 (c & _ & E) _ IH]; [constructor|]. eapply rtc_l; [|exact IH]. by exists c.
Qed.

Lemma repository_call_runs {A} env (f : R -> outcome auth_error A * R) (s : S) a s' : runs env (repository_call f) s (Ok a) s' ->
  exists s1 s2, rtc env s s1 /\ (f (sh_repository s1)).1 = Ok a /\ sh_repository s2 = (f (sh_repository s1)).2 /\ rtc env s2 s'.
Proof.
  intros (s1 & He & Hr & He'). destruct (on_repository_same f s1) as (_ & E & Er). rewrite E in Hr. cbn in Hr.
  exists s1, (on_repository f s1).2. split; [done|]. split; [|split; [exact Er|]].
  - destruct (f (sh_repository s1)).1; cbn in Hr; congruence.
  - by rewrite E in He'.
Qed.

Lemma new_id_reaches env at_ (s : S) a s' : others env -> runs env (new_id at_) s a s' -> reaches (sh_repository s) (sh_repository s').
Proof.
  intros Ho (s1 & He & _ & He'). unfold reaches. etrans; [by apply (others_reach env)|]. rewrite <- (proj2 (on_world_same (NewID at_) s1)).
  by apply (others_reach env).
Qed.

(** Others do not disturb the book. *)
Definition sound_repository (r : R) : Prop := repo_ok r /\ book_ok (repo_abs r).

Lemma repo_step_sound r r' : rtc repo_step r r' -> sound_repository r -> sound_repository r'.
Proof.
  intros Hr. induction Hr as [|r r1 r2 (c & Hc & ->) _ IH]; [done|]. intros [Ho Hb]. apply IH.
  destruct (run_call_refines c ([], r) Ho Hc) as [Hok Hs]. split; [done|]. unfold abs_state in Hs. cbn [fst snd] in Hs.
  destruct Hs as [E|E]; apply (f_equal snd) in E; cbn [snd] in E; rewrite E; [by apply spec_call_book_ok|done].
Qed.

(** The client keeps its grant. *)
Lemma repo_step_key r r' g : rtc repo_step r r' -> sound_repository r -> grant_of_key installation key (repo_abs r) = Some g ->
  exists g', grant_of_key installation key (repo_abs r') = Some g' /\ cg_ID g' = cg_ID g.
Proof.
  intros Hr. revert g. induction Hr as [|r r1 r2 Hstep Hrest IH]; [by eauto|]. intros g Hs Hg.
  pose proof (repo_step_sound _ _ (rtc_once _ _ Hstep) Hs) as Hs1. destruct Hstep as (c & Hc & ->). destruct Hs as [Ho Hb].
  apply first_where_some in Hg as (id & Hg & Hk).
  assert (still id g (repo_abs (run_call c ([], r)).2)) as (g' & Hg' & Hi & Hp).
  { destruct (run_call_refines c ([], r) Ho Hc) as [_ E]. unfold abs_state in E. cbn [fst snd] in E.
    destruct E as [E|E]; apply (f_equal snd) in E; cbn [snd] in E; rewrite E; [|by apply still_same].
    apply spec_call_still; [done..|]. destruct c; try done. by destruct Hc as (_ & _ & Hc). }
  destruct (IH g' Hs1) as (g2 & Hg2 & Hid).
  { apply (first_where_unique _ _ id); [apply (bo_keys _ (proj2 Hs1))|done|]. apply has_key_spec in Hk as [K1 K2]. apply has_key_spec. by rewrite Hi, Hp. }
  exists g2. split; [done|]. rewrite Hid, (bo_ids _ (proj2 Hs1) _ _ Hg'). symmetry. by apply (bo_ids _ Hb).
Qed.

Lemma new_id_others env at_ (s : S) a s' : others env -> runs env (new_id at_) s a s' -> rtc repo_step (sh_repository s) (sh_repository s').
Proof.
  intros Ho (s1 & He & _ & He'). etrans; [by apply (others_rtc env)|]. rewrite <- (proj2 (on_world_same (NewID at_) s1)). by apply (others_rtc env).
Qed.

(** Asking to pair: up to the call nothing but what others do *)
Lemma create_paired env at_ (s : S) grant s' : others env -> runs env (createPendingGrant svc at_) s (Ok grant) s' ->
  exists r, rtc repo_step (sh_repository s) r /\ paired r grant /\ reaches r (sh_repository s').
Proof.
  intros Ho Hr. unfold createPendingGrant in Hr. apply call_bind in Hr as (v & s1 & Hn1 & Hr). apply call_bind in Hr as (w & s2 & Hn2 & Hr).
  apply call_bind in Hr as (agent & s3 & Hp & Hr). apply call_returning in Hp as [_ Hp]. apply repository_call_runs in Hr as (s4 & s5 & He & Hg & Hs5 & He').
  exists (sh_repository s4). apply (new_id_others env) in Hn1, Hn2; [|done..]. split; [|split].
  - etrans; [exact Hn1|]. etrans; [exact Hn2|]. apply (others_rtc env); [done|]. by etrans.
  - eexists. split; [|split; [|exact Hg]]; done.
  - eapply rtc_l; [|apply (others_reach env s5); done]. rewrite Hs5. eexists (CallEnsure _). done.
Qed.

Lemma step_reaches r r' : rtc repo_step r r' -> reaches r r'.
Proof. intros Hr. induction Hr as [|r r1 r2 (c & _ & E) _ IH]; [constructor|]. eapply rtc_l; [|exact IH]. by exists c. Qed.

(** What the search for the grant found: the grant, or none, and the answer to
    a request to pair *)
Lemma found_or_created env at_ (s : S) grant created s' : others env -> runs env (find_or_create svc at_) s (Ok (grant, created)) s' ->
  exists r0, rtc repo_step (sh_repository s) r0 /\
    (created = false /\ repo_FindCLIGrant installation key r0 = Ok grant /\ rtc repo_step r0 (sh_repository s') \/
     created = true /\ repo_FindCLIGrant installation key r0 = Fail ErrCLIGrantNotFound /\
       exists r, reaches r0 r /\ paired r grant /\ reaches r (sh_repository s')).
Proof.
  intros Ho Hr. unfold find_or_create in Hr. apply runs_bind in Hr as (x & s1 & Hx & Hr). unfold repository_read, repository_call in Hx.
  destruct Hx as (s0 & He & -> & He'). destruct (on_repository_same (fun r => (repo_FindCLIGrant installation key r, r)) s0) as (_ & E & Er).
  rewrite E in Hr. cbn [fst] in Hr. rewrite E in He'. cbn [snd] in He'.
  exists (sh_repository s0). split; [by apply (others_rtc env)|].
  assert (rtc repo_step (sh_repository s0) (sh_repository s1)) as Hm' by (apply (others_rtc env) in He'; [by rewrite Er in He'|done]).
  destruct (repo_FindCLIGrant installation key (sh_repository s0)) as [g|e|] eqn:Ef; cbn [repo_result] in Hr.
  - destruct Hr as [[= -> ->] Hr]. left. split; [done|]. split; [done|]. etrans; [exact Hm'|]. by apply (others_rtc env).
  - destruct e; try (by destruct Hr). apply call_bind in Hr as (g & s2 & Hc & Hr). destruct Hr as [[= -> ->] Hr]. right. split; [done|]. split; [done|].
    destruct (create_paired env at_ s1 g s2 Ho Hc) as (r & Hr1 & Hr2 & Hr3). exists r. unfold reaches in *.
    split; [etrans; [by apply step_reaches|by apply step_reaches]|]. split; [done|]. etrans; [exact Hr3|]. by apply (others_reach env).
  - by destruct Hr.
Qed.

Lemma decide_active env request challenge grant at_ (s : S) authority s' :
  runs env (decide_status svc request challenge grant at_) s (Ok authority) s' ->
  cg_Status grant = CLIGrantActive /\ ar_RequiredScope request ∈ cg_Scopes grant /\ authority = granted_authority svc (cc_result challenge) grant.
Proof.
  intros Hr. unfold decide_status in Hr. destruct (cg_Status grant); try (by destruct Hr).
  - apply call_bind in Hr as (? & ? & _ & Hr). apply call_bind in Hr as (? & ? & _ & Hr). by destruct Hr.
  - destruct (bool_decide_reflect (ar_RequiredScope request ∈ cg_Scopes grant)) as [Hin|]; cbn [negb] in Hr.
    + apply call_bind in Hr as (? & ? & _ & Hr). apply runs_bind in Hr as ([y|e|] & ? & _ & Hr); [|by destruct Hr..]. by destruct Hr as [[= ->] _].
    + apply call_bind in Hr as (? & ? & _ & Hr). apply call_bind in Hr as (? & ? & _ & Hr). by destruct Hr.
Qed.

(** The grant the challenge names: the client had it at [r0], when it was looked up, and has it at [r], active with the scope, the revision and the
    scopes of the challenge. *)
Definition named_active (c : CLIChallengeResult) (r0 r : R) (grant : CLIGrant) : Prop :=
  (exists found, repo_FindCLIGrant installation key r0 = Ok found /\ cg_ID found = ch_GrantID c) /\ rtc repo_step r0 r /\
  grant_of_key installation key (repo_abs r) = Some grant /\ cg_ID grant = ch_GrantID c /\ ch_GrantRevision c = Some (cg_Revision grant) /\
  ch_GrantScopeDigest c = cg_ScopeDigest grant.

(** The client had no grant at [r0], and the request to pair that this call made at [r] was answered with one the creator has approved since. *)
Definition paired_meanwhile (c : CLIChallengeResult) (r0 r : R) (grant : CLIGrant) : Prop :=
  repo_FindCLIGrant installation key r0 = Fail ErrCLIGrantNotFound /\ reaches r0 r /\ paired r grant /\
  (ch_GrantID c = "" \/ exists r1 first, reaches r0 r1 /\ paired r1 first /\ cg_ID first = ch_GrantID c /\
     ch_GrantRevision c = Some (cg_Revision grant) /\ ch_GrantScopeDigest c = cg_ScopeDigest grant).

Lemma paired_active r grant : is_ok (ParseRequestID installation) = true -> sound_repository r -> paired r grant -> cg_Status grant = CLIGrantActive ->
  grant_of_key installation key (repo_abs r) = Some grant.
Proof. intros Hi [Ho _] (p & Ei & Ek & Hp) Ha. rewrite <- Ei in Hi |- *. rewrite <- Ek. by apply ensure_active_law. Qed.

(** What an authorization that succeeds went through *)
Lemma authorize_challenge_spec env request challenge at_ (s : S) authority s' : others env -> is_ok (ParseRequestID installation) = true ->
  sound_repository (sh_repository s) -> runs env (authorize_challenge svc request challenge at_) s (Ok authority) s' ->
  let c := cc_result challenge in
  at_ < ch_ExpiresAt c /\ request_matches request c = true /\ signature_valid svc request (cc_canonical challenge) = true /\
  exists r0 r grant, rtc repo_step (sh_repository s) r0 /\ cg_Status grant = CLIGrantActive /\ ar_RequiredScope request ∈ cg_Scopes grant /\
    (named_active c r0 r grant \/ paired_meanwhile c r0 r grant) /\ authority = granted_authority svc c grant.
Proof.
  intros Ho Hi Hsound Hr. unfold authorize_challenge in Hr. apply call_bind in Hr as (u1 & s1 & [Ht%Z.ltb_lt He1]%call_checking & Hr).
  apply call_bind in Hr as (u2 & s2 & [Hq He2]%call_checking & Hr). split; [done|]. split; [done|].
  destruct (signature_valid svc request (cc_canonical challenge)) eqn:Es; cbn [negb] in Hr.
  2: { apply call_bind in Hr as (? & ? & _ & Hr). by destruct Hr. }
  split; [done|]. apply call_bind in Hr as ([g created] & s3 & Hf & Hr). cbn [fst snd] in Hr.
  destruct (found_or_created env at_ s2 g created s3 Ho Hf) as (r0 & Hr0 & Hfound).
  apply call_bind in Hr as (u3 & s4 & [Hid He3]%call_checking & Hr). apply call_bind in Hr as (grant & s5 & Hg & Hr).
  apply call_bind in Hr as (u4 & s6 & [Hu He4]%call_checking & Hr). apply decide_active in Hr as (Ha & Hin & ->).
  assert (ar_CLIGrant request = ch_GrantID (cc_result challenge)) as Hmatch.
  { unfold request_matches in Hq. destruct (canonicalQuery _); [|discriminate]. by bool_prop. }
  assert (rtc repo_step (sh_repository s) r0) as Hm by (etrans; [apply (others_rtc env _ s2); [done|by etrans]|done]).
  pose proof (repo_step_sound _ _ Hm Hsound) as Hsound0. apply (others_rtc env) in He3; [|done].
  assert (ch_GrantID (cc_result challenge) = "" /\ created = true \/ ch_GrantID (cc_result challenge) = cg_ID g /\
    ch_GrantRevision (cc_result challenge) = Some (cg_Revision grant) /\ ch_GrantScopeDigest (cc_result challenge) = cg_ScopeDigest grant) as Hnamed.
  { rewrite Hmatch in Hid. unfold authority_unchanged in Hu. destruct (bool_decide_reflect (ch_GrantID (cc_result challenge) = "")) as [E|E]; [by left|].
    cbn in Hid. apply bool_decide_eq_true in Hid. destruct (ch_GrantRevision _) as [rev|]; [|done].
    apply andb_true_iff in Hu as [Hrev%Z.eqb_eq Hd%bool_decide_eq_true]. right. by rewrite Hrev, Hd. }
  destruct Hfound as [(-> & Hfind & Hr3)|(-> & Hfind & r1 & Hr1 & Hp1 & Hr3)].
  - destruct Hnamed as [[_ ?]|(Hgid & Hrev & Hdig)]; [done|].
    assert (grant_of_key installation key (repo_abs r0) = Some g) as Hg0.
    { destruct (find_law installation key r0 (proj1 Hsound0) Hi) as [E|E]; rewrite E in Hfind; [|discriminate]. unfold spec_find in Hfind.
      destruct (grant_of_key _ _ _); [|discriminate]. by injection Hfind as ->. }
    assert (exists r, rtc repo_step r0 r /\ grant_of_key installation key (repo_abs r) = Some grant) as (r & Hr0r & Hgr).
    { destruct (bool_decide (cg_Status g = CLIGrantPending) && negb (at_ <? cg_ExpiresAt g)).
      - destruct (create_paired env at_ s4 grant s5 Ho Hg) as (r & Hc1 & Hc2 & _). exists r.
        assert (rtc repo_step r0 r) as Hr0r by (etrans; [exact Hr3|]; by etrans). split; [done|].
        apply paired_active; [done| |done..]. by eapply repo_step_sound.
      - apply call_returning in Hg as [[= ->] _]. exists r0. by split. }
    destruct (repo_step_key r0 r g Hr0r Hsound0 Hg0) as (g' & Hg' & Heq). rewrite Hgr in Hg'. injection Hg' as <-.
    exists r0, r, grant. split; [done|]. split; [done|]. split; [done|]. split; [|done]. left. split; [by exists g|]. split; [done|]. split; [done|].
    by rewrite Heq, Hgid.
  - apply step_reaches in He3. unfold reaches in *.
    assert (exists r, reaches r0 r /\ paired r grant) as (r & Hr0r & Hp).
    { destruct (bool_decide (cg_Status g = CLIGrantPending) && negb (at_ <? cg_ExpiresAt g)).
      - destruct (create_paired env at_ s4 grant s5 Ho Hg) as (r & Hc1%step_reaches & Hc2 & _). exists r. unfold reaches in *. split; [|done].
        etrans; [exact Hr1|]. etrans; [exact Hr3|]. by etrans.
      - apply call_returning in Hg as [[= ->] _]. by exists r1. }
    exists r0, r, grant. split; [done|]. split; [done|]. split; [done|]. split; [|done]. right. split; [done|]. split; [done|]. split; [done|].
    destruct Hnamed as [[? _]|(Hgid & Hrev & Hdig)]; [by left|right]. by exists r1, g.
Qed.

(** The state in which a request read the clock *)
Definition read_clock env (s : S) (at_ : Z) : Prop := exists s1, rtc env s s1 /\ at_ = (Now (sh_world s1)).1.

(** C17: Whatever other requests do meanwhile, a command line request is authorized only with a challenge this service issued and had not used: at the
    instant the request read from the clock it had not expired, it was issued for the same method, path, query, body, command and scope, and it
    carries a valid signature of the installation's key.  The grant is active and contains the scope; it is the client's grant in the repository, the
    one the challenge names, with the revision and the scopes the challenge names, except that a client that had no grant when it was looked up
    may have been paired and approved during the call.  The authority says exactly that.  As long as others do not put the same challenge back, it was
    there before the call and is gone after it, so that it authorizes nothing again. *)
Theorem authorization_sound env request (s : S) authority s' : others env -> stable env held -> held s ->
  is_ok (ParseRequestID installation) = true -> sound_repository (sh_repository s) -> runs env (Authorize svc request) s (Ok authority) s' ->
  (exists at_ challenge r0 r grant, let c := cc_result challenge in
    read_clock env s at_ /\ issued (ar_CLIChallenge request) challenge /\ at_ < ch_ExpiresAt c /\ request_matches request c = true /\
    signature_valid svc request (cc_canonical challenge) = true /\ rtc repo_step (sh_repository s) r0 /\
    cg_Status grant = CLIGrantActive /\ ar_RequiredScope request ∈ cg_Scopes grant /\
    (named_active c r0 r grant \/ paired_meanwhile c r0 r grant) /\ authority = granted_authority svc c grant) /\
  (stable env (absent (ar_CLIChallenge request)) -> ~ absent (ar_CLIChallenge request) s /\ absent (ar_CLIChallenge request) s').
Proof.
  intros Ho Hst Hs Hi Hsound Hr. destruct (request_complete request) eqn:Hc; [|unfold Authorize in Hr; rewrite Hc in Hr; by destruct Hr].
  split.
  2: { intros Hab. split; [intros Ha; by apply (absent_refused env request s (Ok authority) s' Hab Hr) in Ha|by eapply complete_absent]. }
  destruct (authorize_runs env request s _ s' Hr Hc) as (at_ & s1 & He1 & s2 & He2 & Hat & Hrest).
  assert (held s2) as Hs2.
  { eapply stable_rtc; [exact Hst|exact He2|]. unfold held. rewrite (proj1 (on_world_same Now s1)). exact (stable_rtc env held _ _ Hst He1 Hs). }
  assert (rtc repo_step (sh_repository s) (sh_repository s2)) as Hm.
  { etrans; [by apply (others_rtc env s s1)|]. rewrite <- (proj2 (on_world_same Now s1)). by apply (others_rtc env _ s2). }
  destruct (sh_challenges s2 !! ar_CLIChallenge request) as [challenge|] eqn:Ec; [|by destruct Hrest].
  apply authorize_challenge_spec in Hrest as (Ht & Hq & Hsig & r0 & r & grant & Hr0 & Ha & Hin & Hgrant & ->); [|done..|exact (repo_step_sound _ _ Hm Hsound)].
  exists at_, challenge, r0, r, grant. split.
  { exists s1. split; [done|]. rewrite Hat. unfold on_world. by destruct (Now (sh_world s1)). }
  split; [by apply (proj1 Hs2)|]. do 3 (split; [done|]). split; [by etrans|]. done.
Qed.

(** A challenge serves at most once, even for requests that run at the same time: a request that is complete leaves its challenge unusable, whatever
    its outcome, and a request whose challenge was used before, or was never issued, is refused. *)
Theorem challenge_serves_once env request (s : S) res s' : stable env (absent (ar_CLIChallenge request)) ->
  runs env (Authorize svc request) s res s' ->
  (request_complete request = true -> absent (ar_CLIChallenge request) s') /\ (absent (ar_CLIChallenge request) s -> is_ok res = false).
Proof. intros Hst Hr. split; [intros Hc; by eapply complete_absent|by eapply absent_refused]. Qed.

(** *** Clients that stay out *)

(** The client's grant is [g], and nothing but asking again can change it. *)
Definition has_settled (g : CLIGrant) (r : R) : Prop :=
  repo_ok r /\ book_ok (repo_abs r) /\ bk_grants (repo_abs r) !! cg_ID g = Some g /\ has_key installation key g = true /\ settled g = true.

Lemma settled_found g r : is_ok (ParseRequestID installation) = true -> has_settled g r ->
  repo_FindCLIGrant installation key r = Ok g \/ repo_FindCLIGrant installation key r = Fail ErrAuthStatement.
Proof.
  intros Hi (Hok & Hbk & Hg & Hk & _). destruct (find_law installation key r Hok Hi) as [-> | ->]; [left|by right]. unfold spec_find, grant_of_key.
  rewrite (first_where_unique (has_key installation key) _ (cg_ID g) g); [done| |done..]. apply (bo_keys _ Hbk).
Qed.

Lemma settled_call c g r : call_admissible c r -> (asks_again c g = true -> final g = true) -> has_settled g r -> has_settled g (run_call c ([], r)).2.
Proof.
  intros Hc Hask (Hok & Hbk & Hg & Hk & Hs). destruct (run_call_refines c ([], r) Hok Hc) as [Hok' [E|E]].
  - apply (f_equal snd) in E. cbn [abs_state snd] in E. split; [done|]. rewrite E. split; [by apply spec_call_book_ok|]. split; [|done].
    apply spec_call_settled; [done..|]. destruct c; try done. by destruct Hc as (_ & _ & Hc).
  - apply (f_equal snd) in E. cbn [abs_state snd] in E. split; [done|]. by rewrite E.
Qed.

Lemma final_stable env g : others env -> final g = true -> stable env (of_repository (has_settled g)).
Proof.
  intros Ho Hf s s' He Hs. apply Ho in He. unfold of_repository in *. induction He as [|r r1 r2 (c & Hc & ->) _ IH]; [done|]. apply IH. by apply settled_call.
Qed.

Lemma settled_refused env g request challenge at_ (s : S) authority s' : is_ok (ParseRequestID installation) = true ->
  stable env (of_repository (has_settled g)) -> of_repository (has_settled g) s ->
  ~ runs env (authorize_challenge svc request challenge at_) s (Ok authority) s'.
Proof.
  intros Hi Hst Hs Hr. unfold authorize_challenge in Hr. apply call_bind in Hr as (u1 & s1 & [_ He1]%call_checking & Hr).
  apply call_bind in Hr as (u2 & s2 & [_ He2]%call_checking & Hr). destruct (negb _).
  { apply call_bind in Hr as (? & ? & _ & Hr). by destruct Hr. }
  apply call_bind in Hr as ([x created] & s3 & Hf & Hr). unfold find_or_create in Hf. apply runs_bind in Hf as (y & s4 & Hy & Hf).
  destruct Hy as (s0 & He & -> & He').
  destruct (on_repository_same (fun r => (repo_FindCLIGrant installation key r, r)) s0) as (_ & E & _). rewrite E in Hf. cbn [fst] in Hf.
  assert (of_repository (has_settled g) s0) as Hs0. { eapply stable_rtc; [exact Hst| |exact Hs]. etrans; [exact He1|]. by etrans. }
  destruct (settled_found g _ Hi Hs0) as [Ef|Ef]; rewrite Ef in Hf; cbn in Hf; [|by destruct Hf]. destruct Hf as [[= -> ->] _]. cbn [fst snd] in Hr.
  destruct Hs as (_ & _ & _ & _ & Hset). destruct (settled_not g Hset) as [Hnp Hna].
  apply call_bind in Hr as (u3 & s5 & _ & Hr). rewrite (bool_decide_eq_false_2 (cg_Status g = CLIGrantPending)) in Hr by done. cbn [andb] in Hr.
  apply call_bind in Hr as (grant & s6 & Hg & Hr). apply call_returning in Hg as [[= <-] _].
  apply call_bind in Hr as (u4 & s7 & _ & Hr). apply decide_active in Hr as (Ha & _). done.
Qed.

(** C18: A client that the creator denied or revoked stays out: no request that starts after the decision is authorized, whatever calls other requests
    make on the repository in the meantime. *)
Theorem revoked_stay_out env g request (s : S) authority s' : others env -> is_ok (ParseRequestID installation) = true -> final g = true ->
  has_settled g (sh_repository s) -> ~ runs env (Authorize svc request) s (Ok authority) s'.
Proof.
  intros Ho Hi Hf Hs Hr. destruct (request_complete request) eqn:Hc; [|unfold Authorize in Hr; rewrite Hc in Hr; by destruct Hr].
  pose proof (final_stable env g Ho Hf) as Hst. destruct (authorize_runs env request s _ s' Hr Hc) as (at_ & s1 & He1 & s2 & He2 & Hat & Hrest).
  destruct (sh_challenges s2 !! ar_CLIChallenge request) as [challenge|]; [|by destruct Hrest].
  eapply (settled_refused env g request challenge at_ _ _ _ Hi Hst); [|exact Hrest].
  assert (of_repository (has_settled g) s2) as Hs2; [|exact Hs2]. eapply stable_rtc; [exact Hst|exact He2|]. unfold of_repository.
  rewrite (proj2 (on_world_same Now s1)). exact (stable_rtc env (of_repository (has_settled g)) _ _ Hst He1 Hs).
Qed.

(** *** Clients that are locked out *)

Section stuck.
Variable g : CLIGrant.
Hypothesis Hinst : is_ok (ParseRequestID installation) = true.
Hypothesis Hexp : cg_Status g = CLIGrantExpired.
Notation P := (of_repository (has_settled g)).
Notation stays := (ensures P).
Definition any {A} : outcome cli_error A -> Prop := fun _ => True.

Lemma stays_bind {A C} (p : Call S A) (k : A -> Call S C) : stays any p -> (forall a, stays any (k a)) -> stays any (p ≫= k).
Proof. intros Hp Hk. eapply ensures_bind; [exact Hp|]. by intros [a|e|] _; [apply Hk| |]. Qed.
Lemma stays_now : stays any now_UTC.
Proof. intros s Hs. split; [|done]. unfold of_repository. by rewrite (proj2 (on_world_same _ s)). Qed.
Lemma stays_new_id at_ : stays any (new_id at_).
Proof. intros s Hs. split; [|done]. unfold of_repository. by rewrite (proj2 (on_world_same _ s)). Qed.
Lemma stays_binder (f : B -> outcome binding_error unit * B) : stays any (binder_call f).
Proof. intros s Hs. split; [|done]. unfold of_repository. by rewrite (proj2 (on_binder_same _ s)). Qed.

(** A call of the repository that is no request to pair *)
Lemma stays_call {A} (f : R -> outcome auth_error A * R) c : (forall r, call_admissible c r) -> asks_again c g = false ->
  (forall r, (f r).2 = (run_call c ([], r)).2) -> stays any (repository_call f).
Proof.
  intros Hc Ha Hf s Hs. split; [|done]. unfold of_repository. destruct (on_repository_same f s) as (_ & _ & ->). rewrite Hf.
  apply settled_call; [done|by rewrite Ha|done].
Qed.
Lemma stays_read {A} (f : R -> outcome auth_error A) : stays any (repository_read f).
Proof. intros s Hs. split; [|done]. unfold of_repository. by destruct (on_repository_same (fun r => (f r, r)) s) as (_ & _ & ->). Qed.
Lemma stays_checking e b : stays any (checking e b).
Proof. by destruct b. Qed.
Lemma stays_audit a b c d : stays any (audit svc a b c d).
Proof.
  apply stays_bind; [apply stays_now|]. intros at_. apply stays_bind; [apply stays_new_id|]. intros v. by eapply (stays_call _ (CallAudit _)).
Qed.
Lemma stays_audit_ignored a b c d : stays any (audit_ignored svc a b c d).
Proof. eapply ensures_bind; [apply stays_audit|]. done. Qed.

Lemma stays_authorize request : ensures P (fun res => is_ok res = false) (Authorize svc request).
Proof.
  unfold Authorize. eapply ensures_bind; [apply stays_checking|]. intros [u|e|] _; [|done..]. eapply ensures_bind; [apply stays_now|]. intros [at_|e|] _; [|done..].
  intros s Hs. split; [exact Hs|]. destruct (take_challenge _ _ s).1 as [challenge|]; [|done]. unfold authorize_challenge.
  eapply ensures_bind; [apply stays_checking|]. intros [v|e|] _; [|done..]. eapply ensures_bind; [apply stays_checking|]. intros [w|e|] _; [|done..]. destruct (negb _).
  { eapply ensures_bind; [apply stays_audit_ignored|]. by intros [x|e|] _. }
  eapply (ensures_bind _ (fun r => r = Ok (g, false) \/ is_ok r = false)).
  - unfold find_or_create. eapply (ensures_bind _ (fun r => r = Ok g \/ r = Fail (ErrRepository ErrAuthStatement))).
    + intros s1 Hs1. destruct (on_repository_same (fun r => (repo_FindCLIGrant installation key r, r)) s1) as (_ & E & Er). rewrite E. cbn [fst].
      split; [cbn [snd]; unfold of_repository; by rewrite Er|]. destruct (settled_found g _ Hinst Hs1) as [-> | ->]; [by left|by right].
    + intros r [-> | ->]; [by left|by right].
  - intros r [-> |Hr]; [|destruct r; [discriminate|done..]]. cbn [fst snd].
    eapply ensures_bind; [apply stays_checking|]. intros [x|e|] _; [|done..]. rewrite (bool_decide_eq_false_2 (cg_Status g = CLIGrantPending)) by congruence. cbn [andb].
    match goal with |- context [mbind ?k (mret g)] => change (mbind k (mret g)) with (k g) end. cbn beta.
    eapply ensures_bind; [apply stays_checking|]. intros [y|e|] _; [|done..]. unfold decide_status. by rewrite Hexp.
Qed.

Lemma stays_challenge request : stays any (ChallengeCLI svc request).
Proof.
  unfold ChallengeCLI. apply stays_bind; [done|]. intros found. apply stays_bind; [apply stays_read|]. intros settings. apply stays_bind.
  { by destruct (NewInvocationPolicySnapshot _ _). }
  intros policy. apply stays_bind; [apply stays_now|]. intros at_ s Hs. split; [|done]. unfold of_repository, issue.
  repeat (case_match; try exact Hs); simplify_eq; exact Hs.
Qed.

Lemma stays_decide ctx id approve : stays any (Service_DecideCLIGrant svc ctx id approve).
Proof.
  apply stays_bind; [done|]. intros authority. apply stays_bind; [apply stays_now|]. intros at_. apply stays_bind.
  - apply (stays_call _ (CallDecide id approve at_)); try done. intros r. cbn. by destruct (repo_DecideCLIGrant id approve at_ r).
  - intros x. apply stays_bind; [apply stays_audit|done].
Qed.
Lemma stays_revoke ctx id : stays any (Service_RevokeCLIGrant svc ctx id).
Proof.
  apply stays_bind; [done|]. intros authority. apply stays_bind; [apply stays_now|]. intros at_. apply stays_bind.
  - by apply (stays_call _ (CallRevoke id at_)).
  - intros x. apply stays_bind; [apply stays_audit|done].
Qed.
Lemma stays_decide_upgrade ctx id approve : stays any (Service_DecideCLIGrantScopeUpgrade svc ctx id approve).
Proof.
  apply stays_bind; [done|]. intros authority. apply stays_bind; [apply stays_now|]. intros at_. apply stays_bind.
  - apply (stays_call _ (CallDecideUpgrade id approve at_)); try done. intros r. cbn. by destruct (repo_DecideUpgrade id approve at_ r).
  - intros x. apply stays_bind; [apply stays_audit|done].
Qed.
End stuck.

(** The methods a client and the creator can call *)
Inductive method_of : forall A, Call S A -> Prop :=
| MethodChallenge request : method_of _ (ChallengeCLI svc request)
| MethodAuthorize request : method_of _ (Authorize svc request)
| MethodDecide ctx id approve : method_of _ (Service_DecideCLIGrant svc ctx id approve)
| MethodRevoke ctx id : method_of _ (Service_RevokeCLIGrant svc ctx id)
| MethodDecideUpgrade ctx id approve : method_of _ (Service_DecideCLIGrantScopeUpgrade svc ctx id approve).

(** C19: A pairing that expired while the creator decided can never be completed: once the grant of a client is marked expired, every action of every
    method leaves it so, however the calls interleave, and no request of the client is authorized again.  [EnsurePendingCLIGrant] would renew such a
    grant, but [Authorize] only calls it for grants that are missing or still pending. *)
Theorem expired_pairing_is_stuck g : is_ok (ParseRequestID installation) = true -> cg_Status g = CLIGrantExpired ->
  (forall A (p : Call S A), method_of A p -> always (of_repository (has_settled g)) p) /\
  (forall env request (s : S) authority s', stable env (of_repository (has_settled g)) -> has_settled g (sh_repository s) ->
     ~ runs env (Authorize svc request) s (Ok authority) s').
Proof.
  intros Hi He. split.
  - intros A p Hm. destruct Hm; eapply ensures_always; [by apply stays_challenge|by apply stays_authorize|by apply stays_decide|by apply stays_revoke|
      by apply stays_decide_upgrade].
  - intros env request s authority s' Hst Hs Hr. destruct (request_complete request) eqn:Hc; [|unfold Authorize in Hr; rewrite Hc in Hr; by destruct Hr].
    destruct (authorize_runs env request s _ s' Hr Hc) as (at_ & s1 & He1 & s2 & He2 & Hat & Hrest).
    destruct (sh_challenges s2 !! ar_CLIChallenge request) as [challenge|]; [|by destruct Hrest].
    eapply (settled_refused env g request challenge at_ _ _ _ Hi Hst); [|exact Hrest].
    assert (of_repository (has_settled g) s2) as Hs2; [|exact Hs2]. eapply stable_rtc; [exact Hst|exact He2|]. unfold of_repository.
    rewrite (proj2 (on_world_same Now s1)). exact (stable_rtc env (of_repository (has_settled g)) _ _ Hst He1 Hs).
Qed.
End safety.

(** ** A client at work *)

#[local] Existing Instance sample_platform.
#[local] Existing Instance sample_running.
Definition sample_schemas : Schemas := {| schemaFor := fun _ => Some JNull; fingerprint_json := fun _ _ _ => Some [] |}.
#[local] Existing Instance sample_schemas.
(** A signature is the beginning of what it signs. *)
Definition sample_signatures : Signatures := {| ed25519_Verified := fun _ message signature => bool_decide (signature = firstn 64 message) |}.
#[local] Existing Instance sample_signatures.
Definition no_runs : AgentRunBinding unit := {|
  AssociateAgentRunPairing := fun _ _ _ _ _ b => (Ok tt, b); BindAuthorizedAgentRun := fun _ _ _ _ _ _ _ b => (Ok tt, b) |}.
#[local] Existing Instance no_runs.

Definition sample_registry : Registry := match InitialRegistry with Ok registry => registry | _ => ∅ end.
Definition sample_service : CLIAuthorizationService :=
  mkService (mkConfig "installation" 1 1 (replicate 32 "k"%char)) false sample_registry (sample_id "aa") "key" "sha256:key" (AgentScopes sample_registry).

Notation client_state := (shared MemoryProjects unit Z).

Definition paired_client (status : CLIGrantStatus) : CLIGrant :=
  mkGrant (sample_id "01") "installation" (sample_id "02") "key" "sha256:key" ["product:read"] 1
    (text_or_empty (CLIScopeDigest ["product:read"])) status 1000 2000 (Some 1500) None.
Definition memory_of (g : CLIGrant) : MemoryProjects :=
  with_mm_grants {[cg_ID g := g]} {[grant_key_text (cg_InstallationID g) (cg_PublicKey g) := cg_ID g]} NewMemoryProjects.
Definition start (g : CLIGrant) : client_state := mkShared ∅ ∅ (memory_of g) tt 0.

Definition status_request : CLIChallengeRequest :=
  mkChallengeRequest "client-1" "product status" (sha256_text []) "GET" "/v1/product/status" "" (NoBodyDigest "product status") ""
    (mkContext None None None None) (mkOverride None None).
Definition challenged : client_state := (run (ChallengeCLI sample_service status_request) (start (paired_client CLIGrantActive))).2.
Definition given : cliChallenge := default (mkCliChallenge (challenge_of sample_service status_request (mkDescriptor [] "" "" "" ReadOnly (mkState false false false false) [] false
  ApprovalNone CommandReceiptNone "" no_limits) "" "" "" "" (mkSnapshot 0 zero_policy zero_policy) 0 ("", None, "")) []) (head (map snd (map_to_list (sh_challenges challenged)))).
Definition signed_request : AuthorizationRequest :=
  mkAuthorizationRequest "GET" "/v1/product/status" "/v1/product/status" "" (NoBodyDigest "product status") "product status" (sha256_text [])
    "product:read" "" (sample_id "01") (ch_Nonce (cc_result given)) (base64_RawURL_Encode (firstn 64 (cc_canonical given))).
Definition alone : client_state -> client_state -> Prop := fun _ _ => False.

Lemma alone_stable P : stable alone P.
Proof. by intros s s' []. Qed.
Lemma alone_others : others alone.
Proof. by intros s s' []. Qed.

Lemma memory_of_ok g : cg_ID g <> "" -> no_nul (cg_InstallationID g) = true -> mm_ok (memory_of g).
Proof.
  intros Hid Hn. split; cbn; intros *.
  - intros [<- <-]%lookup_singleton_Some. done.
  - intros [<- <-]%lookup_singleton_Some. apply lookup_singleton_Some. done.
  - intros [<- <-]%lookup_singleton_Some. exists g. split; [by apply lookup_singleton_Some|done].
  - rewrite lookup_empty. discriminate.
  - rewrite lookup_empty. discriminate.
  - rewrite lookup_empty. discriminate.
Qed.

Lemma memory_of_settled g : cg_ID g <> "" -> cg_InstallationID g = "installation" -> cg_PublicKey g = "key" -> settled g = true ->
  has_settled sample_service g (memory_of g).
Proof.
  intros Hid Hi Hk Hs. split; [apply memory_of_ok; [done|by rewrite Hi]|]. split; [split; cbn|].
  - intros id x [<- <-]%lookup_singleton_Some. done.
  - intros i k a b x y [<- _]%lookup_singleton_Some [<- _]%lookup_singleton_Some. done.
  - split; [by apply lookup_singleton_Some|]. split; [|done]. by apply has_key_true.
Qed.

Lemma challenged_held : held sample_service challenged.
Proof.
  eapply (runs_keeps alone (held sample_service) (ChallengeCLI sample_service status_request)).
  - apply alone_stable.
  - apply challenge_keeps_held.
  - apply run_runs.
  - split; [apply map_Forall_empty|]. cbn. rewrite map_size_empty. unfold cliChallengeLimit. lia.
Qed.

Definition answered : outcome cli_error Authority * client_state := run (Authorize sample_service signed_request) challenged.

Lemma memory_of_sound g : cg_ID g <> "" -> no_nul (cg_InstallationID g) = true -> sound_repository (memory_of g).
Proof.
  intros Hid Hn. split; [by apply memory_of_ok|]. split; cbn.
  - intros id x [<- <-]%lookup_singleton_Some. done.
  - intros i k a b x y [<- _]%lookup_singleton_Some [<- _]%lookup_singleton_Some. done.
Qed.

Lemma authorization_sound_witness : exists authority, answered.1 = Ok authority /\ au_GrantID authority = sample_id "01" /\
  absent (ar_CLIChallenge signed_request) answered.2.
Proof.
  assert (exists authority, answered.1 = Ok authority /\ au_GrantID authority = sample_id "01") as (authority & Ha & Hid).
  { destruct answered.1 as [authority|e|] eqn:E; vm_compute in E; [|discriminate..]. exists authority. split; [done|]. by injection E as <-. }
  exists authority. split; [done|]. pose proof (run_runs alone (Authorize sample_service signed_request) challenged) as Hr. change (run _ challenged) with answered in Hr.
  rewrite Ha in Hr.
  destruct (authorization_sound sample_service alone signed_request challenged authority answered.2 alone_others (alone_stable _) challenged_held)
    as [(at_ & challenge & r0 & r & grant & _ & _ & _ & _ & _ & _ & _ & _ & Hgrant & Hau) Hused].
  - by vm_compute.
  - assert (sh_repository challenged = memory_of (paired_client CLIGrantActive)) as E by (vm_compute; reflexivity). rewrite E.
    exact (memory_of_sound (paired_client CLIGrantActive) ltac:(vm_compute; discriminate) ltac:(vm_compute; reflexivity)).
  - exact Hr.
  - split; [exact Hid|]. apply Hused, alone_stable.
Defined.

Lemma challenge_serves_once_witness : is_ok answered.1 = true /\ absent (ar_CLIChallenge signed_request) answered.2 /\
  is_ok (run (Authorize sample_service signed_request) answered.2).1 = false.
Proof.
  split; [by vm_compute|].
  destruct (challenge_serves_once sample_service alone signed_request challenged answered.1 answered.2 (alone_stable _) (run_runs _ _ _)) as [H1 _].
  assert (absent (ar_CLIChallenge signed_request) answered.2) as Ha by (apply H1; by vm_compute). split; [done|].
  by apply (challenge_serves_once sample_service alone signed_request answered.2 _ (run (Authorize sample_service signed_request) answered.2).2
    (alone_stable _) (run_runs _ _ _)).
Defined.

Lemma revoked_stay_out_witness : final (paired_client CLIGrantRevoked) = true /\
  forall authority s', ~ runs alone (Authorize sample_service signed_request) (start (paired_client CLIGrantRevoked)) (Ok authority) s'.
Proof.
  split; [by vm_compute|]. intros authority s'.
  apply (revoked_stay_out sample_service alone (paired_client CLIGrantRevoked) signed_request (start (paired_client CLIGrantRevoked)) authority s' alone_others).
  - by vm_compute.
  - by vm_compute.
  - by apply memory_of_settled.
Defined.

Lemma expired_pairing_is_stuck_witness : has_settled sample_service (paired_client CLIGrantExpired) (memory_of (paired_client CLIGrantExpired)) /\
  forall authority s', ~ runs alone (Authorize sample_service signed_request) (start (paired_client CLIGrantExpired)) (Ok authority) s'.
Proof.
  assert (has_settled sample_service (paired_client CLIGrantExpired) (memory_of (paired_client CLIGrantExpired))) as Hs by (by apply memory_of_settled).
  split; [done|]. intros authority s'.
  destruct (expired_pairing_is_stuck (B := unit) (W := Z) sample_service (paired_client CLIGrantExpired)) as [_ Hr]; [by vm_compute|done|].
  apply (Hr alone signed_request (start (paired_client CLIGrantExpired)) authority s'); [apply alone_stable|exact Hs].
Defined.
