(* ===== verification/UISession.v ===== *)
(** Sessions of the first-party interface: [apps/api/service/ui_session.go] and
    [ui_session_binding.go], and the authorizer that joins them with command line
    clients ([CombinedAuthorizer] of [cli_authorization.go]).  Methods are
    programs of atomic actions, as in [CliService]. *)
From stdpp Require Import base list strings gmap sorting relations fin_maps.
From Stdlib Require Import ZArith Lia Ascii.
From S2P Require Import Prelude GoText Exact Identity Canonical EditModel Timeline EditState EditValidate EditNormalize Project Database Authority GoWire.
From S2P Require Import EditServiceCalls CommandRegistry CliGrants CliRepository CliMemory CliService CliSafety.
Open Scope Z_scope.

Definition UIChallengeSchema : string := "open-cut/ui-challenge/v1".
Definition UISessionSchema : string := "open-cut/ui-session/v1".
Definition UIRole : string := "first-party-ui".
Definition UIChallengeTTL : Z := 30 * a_second.
Definition UISessionTTL : Z := 10 * 60 * a_second.
Definition challengeLimit : nat := 256.
Definition sessionLimit : nat := 1024.

Record UISessionConfig := mkUIConfig {
  uc_InstallationID : string; uc_InstallationGeneration : Z; uc_CellGeneration : Z; uc_PublicKey : bytes; uc_AllowedOrigins : list string;
  uc_AllowDevelopmentOrigin : bool }.
Record UIChallengeRequest := mkUIRequest { ur_ClientInstance : string; ur_Origin : string }.
Record UIChallengeResult := mkUIChallengeResult {
  uch_Schema : string; uch_Nonce : string; uch_ExpiresAt : Z; uch_InstallationID : string; uch_InstallationGeneration : Z; uch_CellGeneration : Z;
  uch_APIInstanceID : string; uch_ClientInstance : string; uch_Origin : string; uch_Role : string; uch_SigningPayload : string }.
Record UISessionRequest := mkSessionRequest { sr_Nonce : string; sr_Signature : string }.
Record UISessionResult := mkSessionResult { sn_Schema : string; sn_Session : string; sn_ExpiresAt : Z }.
Record uiChallenge := mkUIChallenge { uic_result : UIChallengeResult; uic_canonical : bytes; uic_issuedAt : Z }.
Record uiSession := mkUISession { us_expiresAt : Z; us_clientInstance : string; us_origin : string }.
Record uiSessionBinding := mkBinding {
  ub_sessionHash : string; ub_clientInstance : string; ub_origin : string; ub_expiresAt : Z; ub_apiInstance : string }.
Record uiLeaseBinding := mkLeaseBinding { lb_clientInstance : string; lb_origin : string; lb_apiInstance : string }.

Inductive ui_error :=
| UIUnauthorized | ErrUIChallengeInvalid | ErrUIChallengeExpired | ErrUIOriginDenied | ErrUIRateLimited | UIDependency | UIFailed (e : cli_error).

(** [url.Parse] of an origin: its parts *)
Record origin_url := mkURL {
  url_Scheme : string; url_Host : string; url_Port : string; url_HasUser : bool; url_Hostname : string; url_Path : string; url_RawQuery : string; url_Fragment : string }.
Class URLParser := { url_Parse : string -> option origin_url }.

Record UISessionService := mkUIService { ui_config : UISessionConfig; ui_creator : string; ui_apiInstance : string }.

(** What requests share *)
Record ui_shared (R W : Type) := mkUIShared {
  us_challenges : gmap string uiChallenge; us_challengeKey : gmap string string; us_lastIssued : gmap string Z; us_sessions : gmap string uiSession;
  us_repository : R; us_world : W }.
Arguments mkUIShared {R W}.
Arguments us_challenges {R W}.
Arguments us_challengeKey {R W}.
Arguments us_lastIssued {R W}.
Arguments us_sessions {R W}.
Arguments us_repository {R W}.
Arguments us_world {R W}.

Definition UICall (S A : Type) : Type := prog S (outcome ui_error A).
#[export] Instance UICall_ret {S} : MRet (UICall S) := fun A a => Ret (Ok a).
#[export] Instance UICall_bind {S} : MBind (UICall S) := fun A B f p =>
  prog_bind p (fun r => match r with Ok a => f a | Fail e => Ret (Fail e) | Panic => Ret Panic end).
Definition ui_checking {S} (e : ui_error) (b : bool) : UICall S unit := if b then mret tt else Ret (Fail e).

Definition canonicalUIChallenge (c : UIChallengeResult) : bytes :=
  json_Marshal (JObject [
    ("apiInstanceId", JString (uch_APIInstanceID c)); ("cellGeneration", JNumber (format_uint (uch_CellGeneration c)));
    ("clientInstance", JString (uch_ClientInstance c)); ("expiresAt", JString (FormatRFC3339Nano (uch_ExpiresAt c)));
    ("installationGeneration", JNumber (format_uint (uch_InstallationGeneration c))); ("installationId", JString (uch_InstallationID c));
    ("nonce", JString (uch_Nonce c)); ("origin", JString (uch_Origin c)); ("role", JString (uch_Role c)); ("schema", JString (uch_Schema c))]).

Definition CreatorActor (id : string) : ActorRef := mkActor ActorCreator (Some id) None.
Definition strings_TrimSuffix (value suffix : string) : string :=
  let v := bytes_of value in let f := bytes_of suffix in
  if bool_decide (length f <= length v)%nat && bool_decide (drop (length v - length f) v = f) then string_of (take (length v - length f) v) else value.

(** [clientInstance + "\x00" + origin] *)
Definition origin_key (clientInstance origin : string) : string := string_of (bytes_of clientInstance ++ byte_of 0 :: bytes_of origin).

Section ui.
Context {R W : Type} `{AuthorizationRepository R} `{World W} `{Signatures} `{URLParser}.
Notation S := (ui_shared R W).

Definition tokenHash (token : string) : string := string_of (hex_encode (platform_sha256 (bytes_of token))).

Definition ui_world {A} (f : W -> A * W) (s : S) : A * S :=
  let '(a, w) := f (us_world s) in
  (a, mkUIShared (us_challenges s) (us_challengeKey s) (us_lastIssued s) (us_sessions s) (us_repository s) w).
Definition ui_repository {A} (f : R -> A * R) (s : S) : A * S :=
  let '(a, r) := f (us_repository s) in
  (a, mkUIShared (us_challenges s) (us_challengeKey s) (us_lastIssued s) (us_sessions s) r (us_world s)).

Definition ui_result {A} (r : outcome cli_error A) : outcome ui_error A := match r with Ok a => Ok a | Fail e => Fail (UIFailed e) | Panic => Panic end.
Definition ui_now : UICall S Z := Act (ui_world Now) (fun at_ => Ret (Ok at_)).
Definition ui_new_id (at_ : Z) : UICall S string := Act (ui_world (NewID at_)) (fun r => Ret (ui_result (identity_result r))).
Definition ui_parsed (value : string) : UICall S string := Ret (ui_result (identity_result (ParseID value))).
Definition ui_repository_call {A} (f : R -> outcome auth_error A * R) : UICall S A := Act (ui_repository f) (fun r => Ret (ui_result (repo_result r))).

Definition NewUISessionService (config : UISessionConfig) : UICall S UISessionService :=
  _ ← ui_checking UIDependency (is_ok (ParseRequestID (uc_InstallationID config)) && (1 <=? uc_InstallationGeneration config) &&
        (length (uc_PublicKey config) =? PublicKeySize)%nat);
  _ ← ui_checking UIDependency (negb (bool_decide (uc_AllowedOrigins config = [])) || uc_AllowDevelopmentOrigin config);
  at_ ← ui_now;
  creatorValue ← ui_new_id at_;
  candidate ← ui_parsed creatorValue;
  creator ← ui_repository_call (repo_EnsureLocalCreator candidate);
  instance ← ui_new_id at_;
  _ ← ui_parsed instance;
  mret (mkUIService config creator instance).

Definition live_challenge (at_ : Z) (entry : string * uiChallenge) : Prop := at_ < uch_ExpiresAt (uic_result entry.2).
#[local] Instance live_challenge_dec at_ entry : Decision (live_challenge at_ entry) := decide (at_ < uch_ExpiresAt (uic_result entry.2)).
Definition live_session (at_ : Z) (entry : string * uiSession) : Prop := at_ < us_expiresAt entry.2.
#[local] Instance live_session_dec at_ entry : Decision (live_session at_ entry) := decide (at_ < us_expiresAt entry.2).

(** The keys of the challenges that are dropped are dropped too. *)
Definition challenge_key (c : uiChallenge) : string := origin_key (uch_ClientInstance (uic_result c)) (uch_Origin (uic_result c)).
Definition dropped_keys (at_ : Z) (challenges : gmap string uiChallenge) : list string :=
  map (fun entry => challenge_key entry.2) (map_to_list (filter (fun entry => ~ live_challenge at_ entry) challenges)).
Definition ui_cleanupLocked (at_ : Z) (s : S) : S :=
  mkUIShared (filter (live_challenge at_) (us_challenges s)) (foldr delete (us_challengeKey s) (dropped_keys at_ (us_challenges s))) (us_lastIssued s)
    (filter (live_session at_) (us_sessions s)) (us_repository s) (us_world s).

Variable svc : UISessionService.

Definition ui_audit (principalID action result requestDigest : string) : UICall S unit :=
  at_ ← ui_now;
  value ← ui_new_id at_;
  _ ← ui_parsed value;
  ui_repository_call (repo_AppendAuthorizationAudit (mkAudit value (uc_InstallationID (ui_config svc)) AuthorityFirstPartyUI principalID action result
    requestDigest at_)).
Definition ui_audit_ignored (principalID action result requestDigest : string) : UICall S unit :=
  prog_bind (ui_audit principalID action result requestDigest) (fun r => Ret (match r with Panic => Panic | _ => Ok tt end)).

Definition acceptOrigin (value : string) : outcome ui_error string :=
  if bool_decide (value ∈ uc_AllowedOrigins (ui_config svc)) then Ok value
  else if negb (uc_AllowDevelopmentOrigin (ui_config svc)) then Fail ErrUIOriginDenied
  else match url_Parse value with
  | Some u =>
      if bool_decide (url_Scheme u = "http") && negb (bool_decide (url_Port u = "")) && negb (url_HasUser u) &&
         (bool_decide (url_Hostname u = "127.0.0.1") || bool_decide (url_Hostname u = "::1")) &&
         (bool_decide (url_Path u = "") || bool_decide (url_Path u = "/")) && bool_decide (url_RawQuery u = "") && bool_decide (url_Fragment u = "")
      then Ok (strings_TrimSuffix value "/") else Fail ErrUIOriginDenied
  | None => Fail ErrUIOriginDenied
  end.

Definition ui_challenge_of (request : UIChallengeRequest) (origin nonce : string) (at_ : Z) : UIChallengeResult :=
  mkUIChallengeResult UIChallengeSchema nonce (at_ + UIChallengeTTL) (uc_InstallationID (ui_config svc)) (uc_InstallationGeneration (ui_config svc))
    (uc_CellGeneration (ui_config svc)) (ui_apiInstance svc) (ur_ClientInstance request) origin UIRole "".
Definition with_ui_payload (c : UIChallengeResult) (payload : string) : UIChallengeResult :=
  mkUIChallengeResult (uch_Schema c) (uch_Nonce c) (uch_ExpiresAt c) (uch_InstallationID c) (uch_InstallationGeneration c) (uch_CellGeneration c)
    (uch_APIInstanceID c) (uch_ClientInstance c) (uch_Origin c) (uch_Role c) payload.

(** From [service.mu.Lock()] to the return *)
Definition ui_issue (request : UIChallengeRequest) (origin : string) (at_ : Z) (s : S) : outcome ui_error UIChallengeResult * S :=
  let k := origin_key (ur_ClientInstance request) origin in
  let s := ui_cleanupLocked at_ s in
  let previous := default zero_time (us_lastIssued s !! k) in
  if negb (time_IsZero previous) && (at_ - previous <? 250 * 10 ^ 6) then (Fail ErrUIRateLimited, s)
  else if (challengeLimit <=? size (us_challenges s))%nat then (Fail ErrUIRateLimited, s)
  else
    let earlier := default "" (us_challengeKey s !! k) in
    let challenges := if bool_decide (earlier = "") then us_challenges s else delete earlier (us_challenges s) in
    let '(nonce, w) := randomToken "" (us_world s) in
    match nonce with
    | Ok nonce =>
        let result := ui_challenge_of request origin nonce at_ in
        let canonical := canonicalUIChallenge result in
        let result := with_ui_payload result (base64_RawURL_Encode canonical) in
        (Ok result, mkUIShared (<[nonce := mkUIChallenge result canonical at_]> challenges) (<[k := nonce]> (us_challengeKey s))
          (<[k := at_]> (us_lastIssued s)) (us_sessions s) (us_repository s) w)
    | Fail e => (Fail (UIFailed e), mkUIShared challenges (us_challengeKey s) (us_lastIssued s) (us_sessions s) (us_repository s) w)
    | Panic => (Panic, mkUIShared challenges (us_challengeKey s) (us_lastIssued s) (us_sessions s) (us_repository s) w)
    end.

Definition ChallengeUI (request : UIChallengeRequest) : UICall S UIChallengeResult :=
  _ ← ui_checking ErrUIChallengeInvalid (is_ok (ParseRequestID (ur_ClientInstance request)));
  origin ← (Ret (acceptOrigin (ur_Origin request)) : UICall S string);
  at_ ← ui_now;
  Act (ui_issue request origin at_) Ret.

Definition ui_take (nonce : string) (at_ : Z) (s : S) : option uiChallenge * S :=
  let taken := us_challenges s !! nonce in
  (taken, ui_cleanupLocked at_ (match taken with
    | Some c => mkUIShared (delete nonce (us_challenges s)) (delete (challenge_key c) (us_challengeKey s)) (us_lastIssued s) (us_sessions s)
        (us_repository s) (us_world s)
    | None => s
    end)).

Definition ui_signature_valid (request : UISessionRequest) (canonical : bytes) : bool :=
  match base64_RawURL_Decode (sr_Signature request) with
  | Some signature => (length signature =? SignatureSize)%nat && ed25519_Verified (uc_PublicKey (ui_config svc)) canonical signature
  | None => false
  end.

(** The second locked section of [ExchangeUI] *)
Definition ui_open (at_ : Z) (hash : string) (session : uiSession) (s : S) : outcome ui_error unit * S :=
  let s := ui_cleanupLocked at_ s in
  if (sessionLimit <=? size (us_sessions s))%nat then (Fail ErrUIRateLimited, s)
  else (Ok tt, mkUIShared (us_challenges s) (us_challengeKey s) (us_lastIssued s) (<[hash := session]> (us_sessions s)) (us_repository s) (us_world s)).

Definition exchange_challenge (request : UISessionRequest) (challenge : uiChallenge) (at_ : Z) : UICall S UISessionResult :=
  let c := uic_result challenge in
  let digest := digestBytes (uic_canonical challenge) in
  _ ← ui_checking ErrUIChallengeExpired (at_ <? uch_ExpiresAt c);
  if negb (ui_signature_valid request (uic_canonical challenge)) then
    _ ← ui_audit_ignored (uch_ClientInstance c) "ui-session.exchange" "denied" digest;
    (Ret (Fail UIUnauthorized) : UICall S UISessionResult)
  else
    token ← Act (ui_world (randomToken "oc_ui_")) (fun r => Ret (ui_result r));
    _ ← ui_audit (uch_ClientInstance c) "ui-session.exchange" "issued" digest;
    _ ← Act (ui_open at_ (tokenHash token) (mkUISession (at_ + UISessionTTL) (uch_ClientInstance c) (uch_Origin c))) Ret;
    mret (mkSessionResult UISessionSchema token (at_ + UISessionTTL)).

Definition ExchangeUI (request : UISessionRequest) : UICall S UISessionResult :=
  at_ ← ui_now;
  Act (ui_take (sr_Nonce request) at_) (fun challenge =>
    match challenge with Some challenge => exchange_challenge request challenge at_ | None => Ret (Fail ErrUIChallengeInvalid) end).

Definition session_at (token : string) (at_ : Z) (s : S) : option uiSession * S :=
  let s := ui_cleanupLocked at_ s in (us_sessions s !! tokenHash token, s).

Definition UI_Authorize (request : AuthorizationRequest) : UICall S Authority :=
  _ ← ui_checking UIUnauthorized (negb (bool_decide (ar_UISession request = "")) && bool_decide (ar_CLIGrant request = "") &&
        bool_decide (ar_CLIChallenge request = "") && bool_decide (ar_CLISignature request = "") && negb (bool_decide (ar_Method request = "")) &&
        negb (bool_decide (ar_Route request = "")));
  at_ ← ui_now;
  Act (session_at (ar_UISession request) at_) (fun session =>
    match session with
    | Some session =>
        if negb (at_ <? us_expiresAt session) then Ret (Fail UIUnauthorized)
        else
          let digest := digestBytes (bytes_of (ar_Method request +:+ string_of [byte_of 10] +:+ ar_Route request)) in
          prog_bind (ui_audit (us_clientInstance session) ("http:" +:+ ar_Method request +:+ ":" +:+ ar_Route request) "authorized" digest) (fun r =>
            match r with
            | Ok _ => Ret (Ok (mkAuthority AuthorityFirstPartyUI (uc_InstallationID (ui_config svc)) "" (CreatorActor (ui_creator svc)) zero_policy None))
            | Fail _ => Ret (Fail UIUnauthorized)
            | Panic => Ret Panic
            end)
    | None => Ret (Fail UIUnauthorized)
    end).

(** A nil context aside *)
Definition BindUISession (token : string) : UICall S uiSessionBinding :=
  _ ← ui_checking UIUnauthorized (negb (bool_decide (token = "")));
  at_ ← ui_now;
  Act (session_at token at_) (fun session =>
    match session with
    | Some session =>
        if negb (at_ <? us_expiresAt session) then Ret (Fail UIUnauthorized)
        else Ret (Ok (mkBinding (tokenHash token) (us_clientInstance session) (us_origin session) (us_expiresAt session) (ui_apiInstance svc)))
    | None => Ret (Fail UIUnauthorized)
    end).
End ui.

Definition uiSessionBindingFromContext (bound : option uiSessionBinding) : outcome ui_error uiSessionBinding :=
  match bound with
  | Some b =>
      if bool_decide (ub_sessionHash b = "") || bool_decide (ub_clientInstance b = "") || bool_decide (ub_origin b = "") ||
         time_IsZero (ub_expiresAt b) || bool_decide (ub_apiInstance b = "") then Fail UIUnauthorized else Ok b
  | None => Fail UIUnauthorized
  end.
Definition leaseBinding (b : uiSessionBinding) : uiLeaseBinding := mkLeaseBinding (ub_clientInstance b) (ub_origin b) (ub_apiInstance b).
Definition lease_matches (lease : uiLeaseBinding) (b : uiSessionBinding) : bool :=
  bool_decide (lb_clientInstance lease = ub_clientInstance b) && bool_decide (lb_origin lease = ub_origin b) &&
  bool_decide (lb_apiInstance lease = ub_apiInstance b).

(** ** What sessions rest on *)

Section sessions.
Context {R W : Type} `{AuthorizationRepository R} `{World W} `{Signatures} `{URLParser}.
Notation S := (ui_shared R W).
Variable svc : UISessionService.

(** A challenge as [ChallengeUI] makes them *)
Definition ui_issued (nonce : string) (challenge : uiChallenge) : Prop :=
  exists request origin at_, is_ok (ParseRequestID (ur_ClientInstance request)) = true /\ acceptOrigin svc (ur_Origin request) = Ok origin /\
    let c := ui_challenge_of svc request origin nonce at_ in
    uic_canonical challenge = canonicalUIChallenge c /\ uic_result challenge = with_ui_payload c (base64_RawURL_Encode (uic_canonical challenge)).

(** A session as [ExchangeUI] opens them: for a challenge of this service, in time and signed *)
Definition ui_opened (hash : string) (session : uiSession) : Prop :=
  exists request challenge at_ token, ui_issued (sr_Nonce request) challenge /\ at_ < uch_ExpiresAt (uic_result challenge) /\
    ui_signature_valid svc request (uic_canonical challenge) = true /\ hash = tokenHash token /\
    session = mkUISession (at_ + UISessionTTL) (uch_ClientInstance (uic_result challenge)) (uch_Origin (uic_result challenge)).

Definition ui_maps (challenges : gmap string uiChallenge) (sessions : gmap string uiSession) : Prop :=
  map_Forall ui_issued challenges /\ (size challenges <= challengeLimit)%nat /\ map_Forall ui_opened sessions /\ (size sessions <= sessionLimit)%nat.
Definition ui_held (s : S) : Prop := ui_maps (us_challenges s) (us_sessions s).

Lemma ui_maps_filter (P : string * uiChallenge -> Prop) (Q : string * uiSession -> Prop) `{forall x, Decision (P x)} `{forall x, Decision (Q x)} c n :
  ui_maps c n -> ui_maps (filter P c) (filter Q n).
Proof.
  intros (Hc1 & Hc2 & Hs1 & Hs2). split; [|split; [|split]].
  - intros k x [Hx _]%map_lookup_filter_Some. by apply (Hc1 k x).
  - etrans; [|exact Hc2]. apply map_subseteq_size, map_filter_subseteq.
  - intros k x [Hx _]%map_lookup_filter_Some. by apply (Hs1 k x).
  - etrans; [|exact Hs2]. apply map_subseteq_size, map_filter_subseteq.
Qed.

Lemma ui_maps_delete c n k : ui_maps c n -> ui_maps (delete k c) n.
Proof.
  intros (Hc1 & Hc2 & Hs1 & Hs2). split; [by apply map_Forall_delete|]. split; [|done]. etrans; [|exact Hc2]. apply map_subseteq_size, delete_subseteq.
Qed.

Lemma cleanup_ui_held at_ (s : S) : ui_held s -> ui_held (ui_cleanupLocked at_ s).
Proof. apply ui_maps_filter. Qed.

Lemma ui_world_same {A} (f : W -> A * W) (s : S) : us_challenges (ui_world f s).2 = us_challenges s /\ us_sessions (ui_world f s).2 = us_sessions s.
Proof. unfold ui_world. by destruct (f (us_world s)). Qed.
Lemma ui_repository_same {A} (f : R -> A * R) (s : S) :
  us_challenges (ui_repository f s).2 = us_challenges s /\ us_sessions (ui_repository f s).2 = us_sessions s.
Proof. unfold ui_repository. by destruct (f (us_repository s)). Qed.

Notation kept := (always ui_held).

Lemma ui_kept_bind {A C} (p : UICall S A) (k : A -> UICall S C) : kept p -> (forall a, kept (k a)) -> kept (p ≫= k).
Proof. intros Hp Hk. apply always_bind; [done|]. intros [a|e|]; [apply Hk|exact I..]. Qed.
Lemma ui_kept_world {A C} (f : W -> A * W) (k : A -> UICall S C) : (forall a, kept (k a)) -> kept (Act (ui_world f) k).
Proof. intros Hk s Hs. split; [|apply Hk]. unfold ui_held. destruct (ui_world_same f s) as [-> ->]. exact Hs. Qed.
Lemma ui_kept_repository {A} (f : R -> outcome auth_error A * R) : kept (ui_repository_call f).
Proof. intros s Hs. split; [|exact I]. unfold ui_held. destruct (ui_repository_same f s) as [-> ->]. exact Hs. Qed.
Lemma ui_kept_audit a b c d : kept (ui_audit svc a b c d).
Proof.
  apply ui_kept_bind; [by apply ui_kept_world|]. intros at_. apply ui_kept_bind; [by apply ui_kept_world|]. intros v. apply ui_kept_bind; [exact I|].
  intros _. apply ui_kept_repository.
Qed.

Lemma ui_issue_held request origin at_ (s : S) : is_ok (ParseRequestID (ur_ClientInstance request)) = true -> acceptOrigin svc (ur_Origin request) = Ok origin ->
  ui_held s -> ui_held (ui_issue svc request origin at_ s).2.
Proof.
  intros Hc Ho Hs. apply (cleanup_ui_held at_) in Hs. unfold ui_issue. destruct (negb _ && _); [exact Hs|].
  destruct (challengeLimit <=? _)%nat eqn:El; [exact Hs|]. apply Nat.leb_gt in El.
  set (earlier := default "" _). set (rest := if bool_decide (earlier = "") then _ else _).
  assert (ui_maps rest (us_sessions (ui_cleanupLocked at_ s)) /\ (size rest < challengeLimit)%nat) as [Hr Hlt].
  { unfold rest. destruct (bool_decide (earlier = "")); [done|]. split; [by apply ui_maps_delete|]. eapply Nat.le_lt_trans; [|exact El].
    apply map_subseteq_size, delete_subseteq. }
  destruct (randomToken "" _) as [[nonce|e|] w]; [|exact Hr..]. destruct Hr as (Hc1 & Hc2 & Hs1 & Hs2). split; [|split; [|done]].
  - apply map_Forall_insert_2; [|done]. by exists request, origin, at_.
  - cbn [us_challenges snd]. rewrite map_size_insert. case_match; unfold Datatypes.id; lia.
Qed.

Lemma challenge_ui_held request : kept (ChallengeUI svc request).
Proof.
  unfold ChallengeUI. destruct (is_ok (ParseRequestID (ur_ClientInstance request))) eqn:Ec; [|exact I].
  destruct (acceptOrigin svc (ur_Origin request)) as [origin|e|] eqn:Eo; [|exact I..].
  apply (ui_kept_world Now). intros at_ s Hs. split; [|exact I]. by apply ui_issue_held.
Qed.

Lemma ui_take_held nonce at_ (s : S) : ui_held s -> ui_held (ui_take nonce at_ s).2.
Proof. intros Hs. unfold ui_take. cbn [snd]. apply cleanup_ui_held. destruct (us_challenges s !! nonce); [|done]. by apply ui_maps_delete. Qed.

Lemma ui_open_held at_ hash session (s : S) : ui_opened hash session -> ui_held s -> ui_held (ui_open at_ hash session s).2.
Proof.
  intros Ho Hs. apply (cleanup_ui_held at_) in Hs. unfold ui_open. destruct (sessionLimit <=? _)%nat eqn:El; [exact Hs|]. apply Nat.leb_gt in El.
  destruct Hs as (Hc1 & Hc2 & Hs1 & Hs2). split; [done|]. split; [done|]. split; [by apply map_Forall_insert_2|]. cbn [us_sessions snd]. rewrite map_size_insert.
  case_match; unfold Datatypes.id; lia.
Qed.

Lemma exchange_held request challenge at_ : ui_issued (sr_Nonce request) challenge -> kept (exchange_challenge svc request challenge at_).
Proof.
  intros Hi. unfold exchange_challenge. destruct (at_ <? uch_ExpiresAt (uic_result challenge)) eqn:Et; [|exact I]. apply Z.ltb_lt in Et.
  change (kept (if negb (ui_signature_valid svc request (uic_canonical challenge)) then
      _ ← ui_audit_ignored svc (uch_ClientInstance (uic_result challenge)) "ui-session.exchange" "denied" (digestBytes (uic_canonical challenge));
      (Ret (Fail UIUnauthorized) : UICall S UISessionResult)
    else
      token ← Act (ui_world (randomToken "oc_ui_")) (fun r => Ret (ui_result r));
      _ ← ui_audit svc (uch_ClientInstance (uic_result challenge)) "ui-session.exchange" "issued" (digestBytes (uic_canonical challenge));
      _ ← Act (ui_open at_ (tokenHash token) (mkUISession (at_ + UISessionTTL) (uch_ClientInstance (uic_result challenge))
        (uch_Origin (uic_result challenge)))) Ret;
      mret (mkSessionResult UISessionSchema token (at_ + UISessionTTL)))).
  destruct (ui_signature_valid svc request (uic_canonical challenge)) eqn:Es; cbn [negb].
  - apply ui_kept_bind; [by apply ui_kept_world|]. intros token. apply ui_kept_bind; [apply ui_kept_audit|]. intros _. apply ui_kept_bind; [|done].
    intros s Hs. split; [|exact I]. apply ui_open_held; [|done]. by exists request, challenge, at_, token.
  - apply ui_kept_bind; [|done]. apply always_bind; [apply ui_kept_audit|done].
Qed.

Lemma exchange_ui_held request : kept (ExchangeUI svc request).
Proof.
  unfold ExchangeUI. apply (ui_kept_world Now). intros at_ s Hs. split; [by apply ui_take_held|]. cbn [fst ui_take].
  destruct (us_challenges s !! sr_Nonce request) as [challenge|] eqn:E; [|exact I]. apply exchange_held. by apply (proj1 Hs).
Qed.

Lemma session_at_held token at_ (s : S) : ui_held s -> ui_held (session_at token at_ s).2.
Proof. apply cleanup_ui_held. Qed.

Lemma ui_authorize_held request : kept (UI_Authorize svc request).
Proof.
  unfold UI_Authorize. destruct (_ && _) ; [|exact I]. apply (ui_kept_world Now). intros at_ s Hs. split; [by apply session_at_held|].
  destruct (session_at _ _ s).1 as [session|]; [|exact I]. destruct (negb _); [exact I|]. apply always_bind; [apply ui_kept_audit|]. by intros [|e|].
Qed.
Lemma bind_ui_held token : kept (BindUISession svc token).
Proof.
  unfold BindUISession. destruct (bool_decide (token = "")); [exact I|]. apply (ui_kept_world Now). intros at_ s Hs. split; [by apply session_at_held|].
  by repeat case_match.
Qed.

(** The methods of the service *)
Inductive ui_method_of : forall A, UICall S A -> Prop :=
| UIMethodChallenge request : ui_method_of _ (ChallengeUI svc request)
| UIMethodExchange request : ui_method_of _ (ExchangeUI svc request)
| UIMethodAuthorize request : ui_method_of _ (UI_Authorize svc request)
| UIMethodBind token : ui_method_of _ (BindUISession svc token).

Definition creator_authority : Authority :=
  mkAuthority AuthorityFirstPartyUI (uc_InstallationID (ui_config svc)) "" (CreatorActor (ui_creator svc)) zero_policy None.

(** What a request that looks up [token] goes through: at [s1] it reads the clock, at [s2] it finds the session, which is not over at that instant. *)
Definition session_found env (s : S) (token : string) (session : uiSession) : Prop :=
  exists s1 s2, rtc env s s1 /\ rtc env (ui_world Now s1).2 s2 /\ us_sessions s2 !! tokenHash token = Some session /\
    (Now (us_world s1)).1 < us_expiresAt session /\ ui_opened (tokenHash token) session.

Lemma lookup_found {A} env (s : S) token (k : Z -> uiSession -> UICall S A) a s' : stable env ui_held -> ui_held s ->
  runs env (Act (ui_world Now) (fun at_ => Act (session_at token at_) (fun session =>
    match session with
    | Some session => if negb (at_ <? us_expiresAt session) then Ret (Fail UIUnauthorized) else k at_ session
    | None => Ret (Fail UIUnauthorized)
    end))) s (Ok a) s' ->
  exists session at_ s3, session_found env s token session /\ runs env (k at_ session) s3 (Ok a) s'.
Proof.
  intros Hst Hs (s1 & He1 & s2 & He2 & Hr). assert ((ui_world Now s1).1 = (Now (us_world s1)).1) as Eat by (unfold ui_world; by destruct (Now (us_world s1))).
  set (at_ := (ui_world Now s1).1) in *.
  assert (ui_held s2) as Hs2.
  { eapply stable_rtc; [exact Hst|exact He2|]. unfold ui_held. destruct (ui_world_same Now s1) as [-> ->]. exact (stable_rtc env ui_held _ _ Hst He1 Hs). }
  unfold session_at in Hr. cbn [fst snd] in Hr.
  destruct (us_sessions (ui_cleanupLocked at_ s2) !! tokenHash token) as [session|] eqn:Es; [|by destruct Hr].
  destruct (at_ <? us_expiresAt session) eqn:Et; cbn [negb] in Hr; [|by destruct Hr]. apply Z.ltb_lt in Et.
  apply map_lookup_filter_Some in Es as [Es _]. exists session, at_, (ui_cleanupLocked at_ s2). split; [|done].
  exists s1, s2. split; [done|]. split; [done|]. split; [done|]. split; [by rewrite <- Eat|]. destruct Hs2 as (_ & _ & Ho & _). by apply (Ho _ session).
Qed.

(** C20: The creator's authority rests on a signed session, whatever other requests do meanwhile: every method keeps at most 256 challenges of accepted
    origins and at most 1024 sessions, each opened with a challenge of this service, in time and with a valid signature.  A request gets the
    authority only with the token of such a session that the service holds when it looks it up and that is not over, less than ten minutes after it
    was opened, at the instant the request has read from the clock; and a binding names the client and the origin of such a session. *)
Theorem interface_sessions_sound :
  (forall A (p : UICall S A), ui_method_of A p -> kept p) /\
  (forall env request (s : S) authority s', stable env ui_held -> ui_held s -> runs env (UI_Authorize svc request) s (Ok authority) s' ->
     (exists session, session_found env s (ar_UISession request) session) /\ ar_CLIGrant request = "" /\ ar_CLIChallenge request = "" /\
     ar_CLISignature request = "" /\ authority = creator_authority) /\
  (forall env token (s : S) binding s', stable env ui_held -> ui_held s -> runs env (BindUISession svc token) s (Ok binding) s' ->
     exists session, session_found env s token session /\
       binding = mkBinding (tokenHash token) (us_clientInstance session) (us_origin session) (us_expiresAt session) (ui_apiInstance svc)).
Proof.
  split; [|split].
  - intros A p Hm. destruct Hm; [apply challenge_ui_held|apply exchange_ui_held|apply ui_authorize_held|apply bind_ui_held].
  - intros env request s authority s' Hst Hs Hr. unfold UI_Authorize in Hr.
    match type of Hr with context [ui_checking _ ?b] => destruct b eqn:Ec end; [|by destruct Hr].
    eapply (lookup_found env s) in Hr as (session & at_ & s3 & Hf & Hr); [|done..].
    apply runs_bind in Hr as ([u|e|] & s4 & _ & Hr); [|by destruct Hr..]. destruct Hr as [[= ->] _]. split; [by exists session|]. by bool_prop.
  - intros env token s binding s' Hst Hs Hr. unfold BindUISession in Hr. destruct (bool_decide (token = "")); [by destruct Hr|].
    eapply (lookup_found env s token (fun _ session => Ret (Ok (mkBinding _ _ _ _ _)))) in Hr as (session & at_ & s3 & Hf & Hr); [|done..].
    destruct Hr as [[= ->] _]. by exists session.
Qed.
End sessions.

(** ** A session *)

#[local] Existing Instance sample_platform.
#[local] Existing Instance sample_running.
#[local] Existing Instance sample_signatures.
Definition no_urls : URLParser := {| url_Parse := fun _ => None |}.
#[local] Existing Instance no_urls.

Definition sample_ui : UISessionService :=
  mkUIService (mkUIConfig "installation" 1 1 (replicate 32 "k"%char) ["app://open-cut"] false) (sample_id "0c") (sample_id "aa").
Definition ui_start : ui_shared MemoryProjects Z := mkUIShared ∅ ∅ ∅ ∅ NewMemoryProjects 0.
Definition ui_challenged := run (ChallengeUI sample_ui (mkUIRequest "window-1" "app://open-cut")) ui_start.
Definition ui_given : UIChallengeResult :=
  match ui_challenged.1 with Ok c => c | _ => ui_challenge_of sample_ui (mkUIRequest "" "") "" "" 0 end.
Definition ui_exchanged := run (ExchangeUI sample_ui (mkSessionRequest (uch_Nonce ui_given)
  (base64_RawURL_Encode (firstn 64 (default [] (base64_RawURL_Decode (uch_SigningPayload ui_given))))))) ui_challenged.2.
Definition ui_request : AuthorizationRequest :=
  mkAuthorizationRequest "GET" "/v1/projects" "/v1/projects" "" "" "" "" "" (match ui_exchanged.1 with Ok r => sn_Session r | _ => "" end) "" "" "".
Definition ui_alone : ui_shared MemoryProjects Z -> ui_shared MemoryProjects Z -> Prop := fun _ _ => False.

Lemma ui_maps_empty service : ui_maps service ∅ ∅.
Proof.
  split; [apply map_Forall_empty|]. split; [|split; [apply map_Forall_empty|]]; rewrite map_size_empty; exact (Nat.le_0_l _).
Qed.

Lemma ui_start_held : ui_held sample_ui ui_start.
Proof. exact (ui_maps_empty sample_ui). Qed.

Lemma interface_sessions_sound_witness : exists session, ui_opened sample_ui (tokenHash (ar_UISession ui_request)) session /\
  (run (UI_Authorize sample_ui ui_request) ui_exchanged.2).1 = Ok (creator_authority sample_ui).
Proof.
  assert ((run (UI_Authorize sample_ui ui_request) ui_exchanged.2).1 = Ok (creator_authority sample_ui)) as Ha by (by vm_compute).
  destruct (interface_sessions_sound (R := MemoryProjects) (W := Z) sample_ui) as (Hkept & Hauth & _).
  assert (stable ui_alone (ui_held sample_ui)) as Hst by (by intros s s' []).
  assert (ui_held sample_ui ui_exchanged.2) as Hx.
  { eapply (runs_keeps ui_alone); [exact Hst|apply Hkept; constructor|apply run_runs|].
    eapply (runs_keeps ui_alone); [exact Hst|apply Hkept; constructor|apply run_runs|exact ui_start_held]. }
  pose proof (run_runs ui_alone (UI_Authorize sample_ui ui_request) ui_exchanged.2) as Hr. rewrite Ha in Hr.
  destruct (Hauth ui_alone ui_request ui_exchanged.2 _ _ Hst Hx Hr) as [(session & s1 & s2 & _ & _ & _ & _ & Ho) _]. exists session. exact (conj Ho Ha).
Defined.
