(* ===== verification/WorkJobs.v ===== *)
(** Durable work: the jobs, attempts and leases of the API's database, and the
    jobs that acquire product resources
    ([apps/api/repository/work_jobs.go], [work_job_recovery.go],
    [product_resources.go], [product_resource_work.go],
    [product_resource_storage.go], [product/application/product_resources.go],
    [work_scheduler.go]).

    An instant in a text column is the instant; where SQL compares two of them it
    compares the texts [formatInstant] writes.  The column [attempt_policy] has one
    value.  Columns that the modelled code writes and never reads (parameters,
    owners, payloads of activity) are left out. *)
From stdpp Require Import base list strings gmap sorting relations.
From Stdlib Require Import ZArith Lia Ascii.
From S2P Require Import Prelude GoText Exact Identity Canonical EditModel Timeline EditState EditValidate Project Database Authority GoWire.
From S2P Require Import EditLoadState EditService CommandRegistry CliGrants CliRepository CliService UISession.
Open Scope Z_scope.

(** ** Values *)

Inductive work_job_state := JobBlocked | JobQueued | JobRunning | JobSucceeded | JobFailed | JobCancelled.
#[export] Instance work_job_state_eq_dec : EqDecision work_job_state.
Proof. solve_decision. Defined.
Inductive attempt_state := AttemptLeased | AttemptRunning | AttemptPublishing | AttemptSucceeded | AttemptFailed | AttemptAbandoned.
#[export] Instance attempt_state_eq_dec : EqDecision attempt_state.
Proof. solve_decision. Defined.
Inductive priority_class := PriorityInteractive | PriorityForeground | PriorityBackground.
#[export] Instance priority_class_eq_dec : EqDecision priority_class.
Proof. solve_decision. Defined.
Inductive resource_state := ResourceReady | ResourceInvalid.
#[export] Instance resource_state_eq_dec : EqDecision resource_state.
Proof. solve_decision. Defined.

Definition MediaJobIdentify : string := "identify".
Definition MediaJobProbe : string := "probe".
Definition MediaJobFrameSet : string := "frame-sample-set".
Definition MediaJobProxy : string := "proxy".
Definition MediaJobRenderInput : string := "render-input".
Definition MediaJobTranscript : string := "transcript".
Definition WorkJobSequencePreview : string := "sequence-preview".
Definition WorkJobSequenceFrames : string := "sequence-frame-set".
Definition WorkJobSequenceExport : string := "sequence-export".
Definition WorkJobResourceAcquire : string := "resource-acquire".

Definition ProductResourceCatalogEntrySchema : string := "open-cut/product-resource-catalog-entry/v1".
Definition ProductResourceAcquireSchema : string := "open-cut/product-resource-acquire/v1".
Definition ProductResourceDownloaderV1 : string := "product-resource-downloader/v1".
Definition MaximumProductResourceBytes : Z := 16 * 2 ^ 30.
Definition ProductResourceTranscriptionModel : string := "transcription-model".
Definition ProductResourceRetentionOffline : string := "offline".

Inductive work_error :=
| ErrNoWork | ErrWorkLeaseLost | ErrWorkInvalid | ErrProductResourceInvalid | ErrProductResourceLeaseLost | ErrWorkRequestReused
| ErrWorkNoRows | ErrWorkStored | ErrWorkStatement | ErrWorkFile.
#[export] Instance work_error_eq_dec : EqDecision work_error.
Proof. solve_decision. Defined.

Record ProductResourceCatalogEntry := mkEntry {
  en_Name : string; en_Kind : string; en_Version : string; en_Profile : string; en_Origin : string; en_ByteSize : Z; en_SHA256 : string;
  en_Retention : string; en_EntryDigest : string; en_Canonical : bytes }.
Record ProductResourceRegistration := mkRegistration { reg_Name : string; reg_Profile : string; reg_EntryDigest : string }.
Record WorkExecutorRegistration := mkExecutor { we_Kind : string; we_Version : string; we_Target : string }.
Record ProductResourceJobClaim := mkResourceClaim { rc_InstallationID : string; rc_Entry : ProductResourceCatalogEntry }.
(** [wc_Resource] of the five payloads of a claim *)
Record WorkJobClaim := mkClaim {
  wc_JobID : string; wc_AttemptID : string; wc_Kind : string; wc_ExecutorVersion : string; wc_ExecutorTarget : string; wc_Generation : Z;
  wc_LeaseOwner : string; wc_LeaseExpiresAt : Z; wc_Resource : option ProductResourceJobClaim }.
Record ClaimWorkJobInput := mkClaimInput {
  ci_AttemptID : string; ci_Executors : list WorkExecutorRegistration; ci_Resources : list ProductResourceRegistration; ci_LeaseOwner : string;
  ci_Now : Z; ci_LeaseDuration : Z }.

(** The pattern [^[a-z][a-z0-9.-]{0,127}$] *)
Definition ValidProductResourceName (value : string) : bool :=
  match bytes_of value with
  | [] => false
  | a :: rest => is_lower a && forallb (fun c => is_lower c || is_digit c || contains_rune ".-" (byte_val c)) rest && (length rest <=? 127)%nat
  end.

Fixpoint registrations_valid (previous : string) (registrations : list ProductResourceRegistration) : bool :=
  match registrations with
  | [] => true
  | r :: rest =>
      ValidProductResourceName (reg_Name r) && str_ltb previous (reg_Name r) && negb (bool_decide (reg_Profile r = "")) &&
      (go_len (reg_Profile r) <=? 128) && is_ok (ParseDigest (reg_EntryDigest r)) && registrations_valid (reg_Name r) rest
  end.
Definition ValidateProductResourceRegistrations (registrations : list ProductResourceRegistration) : bool :=
  (length registrations <=? 128)%nat && registrations_valid "" registrations.

(** [value.UTC().Format(time.RFC3339Nano)] *)
Definition formatInstant (value : Z) : string := FormatRFC3339Nano value.
(** [left < right] between two text columns *)
Definition instant_before (left right : Z) : bool := str_ltb (formatInstant left) (formatInstant right).

(** ** The tables *)

Record job_row := mkJobRow {
  wj_installation_id : option string; wj_kind : string; wj_state : work_job_state; wj_priority_class : priority_class; wj_logical_key : string;
  wj_producer_version : string; wj_progress_basis_points : Z; wj_cancellation_requested : bool; wj_created_at : Z; wj_updated_at : Z;
  wj_terminal_error_code : option string }.
Record attempt_row := mkAttemptRow {
  wa_job_id : string; wa_generation : Z; wa_state : attempt_state; wa_lease_owner : string; wa_lease_expires_at : Z; wa_heartbeat_at : Z;
  wa_ended_at : option Z; wa_executor_version : string; wa_diagnostics : string }.
Record detail_row := mkDetailRow {
  rd_catalog_entry_id : string; rd_resource_kind : string; rd_resource_version : string; rd_resource_profile : string; rd_entry_digest : string;
  rd_entry_json : bytes; rd_origin : string; rd_expected_byte_size : Z; rd_expected_content_digest : string; rd_retention : string;
  rd_result_resource_id : option string }.
Record resource_row := mkResourceRow {
  rr_installation_id : string; rr_catalog_entry_id : string; rr_kind : string; rr_version : string; rr_profile : string; rr_entry_digest : string;
  rr_content_digest : string; rr_state : resource_state; rr_byte_size : Z; rr_byte_reference : string; rr_retention : string;
  rr_producer_job_id : string; rr_created_at : Z }.
Record resource_request_row := mkResourceRequestRow { rq_input_digest : string; rq_job_id : string; rq_activity_event_id : string }.

(** A prerequisite: the job, the kind, the kind and the identity of the reference *)
Definition prerequisite : Type := string * string * string * string.

(** [wt_media_jobs] is the asset of a media job, [wt_assets] the grant of an asset,
    [wt_source_grants] the installation of a grant; [wt_heads] counts the events of
    an installation and [wt_outbox] holds the cursor of an event. *)
Record work_tables := mkWorkTables {
  wt_jobs : gmap string job_row; wt_attempts : gmap string attempt_row; wt_prerequisites : gset prerequisite;
  wt_details : gmap string detail_row; wt_resources : gmap string resource_row; wt_requests : gmap (string * string) resource_request_row;
  wt_material_leases : gmap string string; wt_media_jobs : gmap string string; wt_assets : gmap string string; wt_source_grants : gmap string string;
  wt_heads : gmap string Z; wt_outbox : gmap string Z }.

Definition with_jobs f t := mkWorkTables (f (wt_jobs t)) (wt_attempts t) (wt_prerequisites t) (wt_details t) (wt_resources t) (wt_requests t)
  (wt_material_leases t) (wt_media_jobs t) (wt_assets t) (wt_source_grants t) (wt_heads t) (wt_outbox t).
Definition with_attempts f t := mkWorkTables (wt_jobs t) (f (wt_attempts t)) (wt_prerequisites t) (wt_details t) (wt_resources t) (wt_requests t)
  (wt_material_leases t) (wt_media_jobs t) (wt_assets t) (wt_source_grants t) (wt_heads t) (wt_outbox t).
Definition with_prerequisites f t := mkWorkTables (wt_jobs t) (wt_attempts t) (f (wt_prerequisites t)) (wt_details t) (wt_resources t) (wt_requests t)
  (wt_material_leases t) (wt_media_jobs t) (wt_assets t) (wt_source_grants t) (wt_heads t) (wt_outbox t).
Definition with_details f t := mkWorkTables (wt_jobs t) (wt_attempts t) (wt_prerequisites t) (f (wt_details t)) (wt_resources t) (wt_requests t)
  (wt_material_leases t) (wt_media_jobs t) (wt_assets t) (wt_source_grants t) (wt_heads t) (wt_outbox t).
Definition with_resources f t := mkWorkTables (wt_jobs t) (wt_attempts t) (wt_prerequisites t) (wt_details t) (f (wt_resources t)) (wt_requests t)
  (wt_material_leases t) (wt_media_jobs t) (wt_assets t) (wt_source_grants t) (wt_heads t) (wt_outbox t).
Definition with_requests f t := mkWorkTables (wt_jobs t) (wt_attempts t) (wt_prerequisites t) (wt_details t) (wt_resources t) (f (wt_requests t))
  (wt_material_leases t) (wt_media_jobs t) (wt_assets t) (wt_source_grants t) (wt_heads t) (wt_outbox t).
Definition with_material_leases f t := mkWorkTables (wt_jobs t) (wt_attempts t) (wt_prerequisites t) (wt_details t) (wt_resources t) (wt_requests t)
  (f (wt_material_leases t)) (wt_media_jobs t) (wt_assets t) (wt_source_grants t) (wt_heads t) (wt_outbox t).
Definition with_activity heads outbox t := mkWorkTables (wt_jobs t) (wt_attempts t) (wt_prerequisites t) (wt_details t) (wt_resources t) (wt_requests t)
  (wt_material_leases t) (wt_media_jobs t) (wt_assets t) (wt_source_grants t) heads outbox.

Definition job_live (job : job_row) : bool := match wj_state job with JobBlocked | JobQueued | JobRunning => true | _ => false end.
Definition job_waiting (job : job_row) : bool := match wj_state job with JobBlocked | JobQueued => true | _ => false end.
Definition attempt_live (a : attempt_row) : bool := match wa_state a with AttemptLeased | AttemptRunning | AttemptPublishing => true | _ => false end.

Definition with_job_state (state : work_job_state) (progress : Z) (at_ : Z) (code : option string) (job : job_row) : job_row :=
  mkJobRow (wj_installation_id job) (wj_kind job) state (wj_priority_class job) (wj_logical_key job) (wj_producer_version job) progress
    (wj_cancellation_requested job) (wj_created_at job) at_ code.
Definition with_attempt_state (state : attempt_state) (expires heartbeat : Z) (ended : option Z) (diagnostics : string) (a : attempt_row) : attempt_row :=
  mkAttemptRow (wa_job_id a) (wa_generation a) state (wa_lease_owner a) expires heartbeat ended (wa_executor_version a) diagnostics.

(** ** Rows of a table *)

Definition any_row {A} (test : string -> A -> bool) (m : gmap string A) : bool := existsb (fun e => test e.1 e.2) (map_to_list m).
(** The row a unique index leaves *)
Definition find_row {A} (test : string -> A -> bool) (m : gmap string A) : option (string * A) :=
  head (List.filter (fun e => test e.1 e.2) (map_to_list m)).
Definition update_rows {A} (where_ : string -> A -> bool) (f : string -> A -> A) (m : gmap string A) : gmap string A :=
  map_imap (fun id row => Some (if where_ id row then f id row else row)) m.

Definition attempts_of (job : string) (t : work_tables) : list attempt_row :=
  List.filter (fun a => bool_decide (wa_job_id a = job)) (map snd (map_to_list (wt_attempts t))).
(** [COALESCE(MAX(generation), 0)] *)
Definition max_generation (job : string) (t : work_tables) : Z := foldr Z.max 0 (map wa_generation (attempts_of job t)).
Definition has_live_attempt (job : string) (t : work_tables) : bool := existsb attempt_live (attempts_of job t).
Definition has_prerequisite (job : string) (t : work_tables) : bool := existsb (fun p : prerequisite => bool_decide (p.1.1.1 = job)) (elements (wt_prerequisites t)).

(** The first row of [rows] in the order [before] *)
Fixpoint first_row {A} (before : A -> A -> bool) (rows : list A) : option A :=
  match rows with
  | [] => None
  | row :: rest => match first_row before rest with Some best => Some (if before best row then best else row) | None => Some row end
  end.
(** [ORDER BY created_at DESC, id DESC] *)
Definition newer (left right : string * job_row) : bool :=
  instant_before (wj_created_at right.2) (wj_created_at left.2) ||
  (bool_decide (formatInstant (wj_created_at left.2) = formatInstant (wj_created_at right.2)) && str_ltb right.1 left.1).

(** ** Statements and transactions *)

Class WorkSQLite := { work_refuses : string -> work_tables -> bool }.
Definition WorkTx : Type -> Type := ST work_tables work_error.

Definition work_lift {A} (r : outcome work_error A) : WorkTx A := fun t => match r with Ok a => Ok (a, t) | Fail e => Fail e | Panic => Panic end.
Definition work_guard (e : work_error) (b : bool) : WorkTx unit := work_lift (guard_or e b).

Section statements.
Context `{WorkSQLite}.

(** [None]: a constraint is violated. *)
Definition work_write {A} (name : string) (f : work_tables -> option (A * work_tables)) : WorkTx A := fun t =>
  if work_refuses name t then Fail ErrWorkStatement else match f t with Some r => Ok r | None => Fail ErrWorkStatement end.
Definition work_exec (name : string) (f : work_tables -> work_tables) : WorkTx unit := work_write name (fun t => Some (tt, f t)).
Definition work_read {A} (name : string) (f : work_tables -> A) : WorkTx A := work_write name (fun t => Some (f t, t)).
Definition work_transaction {A} (body : WorkTx A) (t : work_tables) : outcome work_error A * work_tables :=
  match body t with
  | Ok (a, t') => if work_refuses "COMMIT" t' then (Fail ErrWorkStatement, t) else (Ok a, t')
  | Fail e => (Fail e, t)
  | Panic => (Panic, t)
  end.

(** An update of one row by its identity: whether it changed *)
Definition update_job (name id : string) (where_ : job_row -> bool) (f : job_row -> job_row) : WorkTx bool :=
  work_write ("UPDATE work_jobs " +:+ name) (fun t => Some (match wt_jobs t !! id with
    | Some row => if where_ row then (true, with_jobs (<[id := f row]>) t) else (false, t)
    | None => (false, t)
    end)).
Definition update_attempt (name id : string) (where_ : attempt_row -> bool) (f : attempt_row -> attempt_row) : WorkTx bool :=
  work_write ("UPDATE work_job_attempts " +:+ name) (fun t => Some (match wt_attempts t !! id with
    | Some row => if where_ row then (true, with_attempts (<[id := f row]>) t) else (false, t)
    | None => (false, t)
    end)).

Definition insert_job (id : string) (row : job_row) : WorkTx unit :=
  work_write "INSERT work_jobs" (fun t =>
    if bool_decide (is_Some (wt_jobs t !! id)) ||
       (job_live row && any_row (fun _ other => job_live other && bool_decide (wj_logical_key other = wj_logical_key row)) (wt_jobs t))
    then None else Some (tt, with_jobs (<[id := row]>) t)).
Definition insert_attempt (id : string) (row : attempt_row) : WorkTx unit :=
  work_write "INSERT work_job_attempts" (fun t =>
    if bool_decide (is_Some (wt_attempts t !! id)) ||
       any_row (fun _ other => bool_decide (wa_job_id other = wa_job_id row) &&
         ((wa_generation other =? wa_generation row) || (attempt_live other && attempt_live row))) (wt_attempts t)
    then None else Some (tt, with_attempts (<[id := row]>) t)).
Definition insert_detail (id : string) (row : detail_row) : WorkTx unit :=
  work_write "INSERT resource_job_details" (fun t =>
    if bool_decide (is_Some (wt_details t !! id)) then None else Some (tt, with_details (<[id := row]>) t)).
Definition same_resource (installationID name digest : string) (row : resource_row) : bool :=
  bool_decide (rr_installation_id row = installationID) && bool_decide (rr_catalog_entry_id row = name) && bool_decide (rr_entry_digest row = digest).
Definition insert_resource (id : string) (row : resource_row) : WorkTx unit :=
  work_write "INSERT product_resources" (fun t =>
    if bool_decide (is_Some (wt_resources t !! id)) ||
       any_row (fun _ other => same_resource (rr_installation_id row) (rr_catalog_entry_id row) (rr_entry_digest row) other ||
         bool_decide (rr_byte_reference other = rr_byte_reference row) || bool_decide (rr_producer_job_id other = rr_producer_job_id row)) (wt_resources t)
    then None else Some (tt, with_resources (<[id := row]>) t)).

(** [appendActivity] in the scope of an installation; the receipt of a command is
    only for projects. *)
Definition append_activity (installationID eventID : string) : WorkTx Z :=
  cursor ← work_write "UPDATE activity_heads" (fun t =>
    let cursor := default 0 (wt_heads t !! installationID) + 1 in
    Some (cursor, with_activity (<[installationID := cursor]> (wt_heads t)) (wt_outbox t) t));
  cursor ← work_lift (or_fail ErrWorkStored (NewCursor cursor));
  _ ← work_write "INSERT activity_outbox" (fun t =>
    match wt_outbox t !! eventID with
    | Some _ => None
    | None => Some (tt, with_activity (wt_heads t) (<[eventID := cursor]> (wt_outbox t)) t)
    end);
  mret cursor.
End statements.

Section jobs.
Context `{Platform} `{WorkSQLite} `{URLParser}.

(** ** Catalog entries *)

Definition catalog_json (entry : ProductResourceCatalogEntry) : jvalue :=
  JObject [("name", JString (json_text (en_Name entry))); ("kind", JString (json_text (en_Kind entry)));
    ("version", JString (json_text (en_Version entry))); ("profile", JString (json_text (en_Profile entry)));
    ("origin", JString (json_text (en_Origin entry))); ("byteSize", JString (UInt64_String (en_ByteSize entry)));
    ("sha256", JString (en_SHA256 entry)); ("retention", JString (json_text (en_Retention entry)))].

Definition CanonicalProductResourceCatalogEntry (entry : ProductResourceCatalogEntry) : outcome work_error (bytes * string) :=
  match url_Parse (en_Origin entry) with
  | None => Fail ErrProductResourceInvalid
  | Some parsed =>
      _ ← guard_or ErrProductResourceInvalid (ValidProductResourceName (en_Name entry) &&
            bool_decide (en_Kind entry = ProductResourceTranscriptionModel) &&
            negb (bool_decide (en_Version entry = "")) && (go_len (en_Version entry) <=? 128) &&
            negb (bool_decide (en_Profile entry = "")) && (go_len (en_Profile entry) <=? 128) &&
            bool_decide (url_Scheme parsed = "https") && negb (bool_decide (url_Host parsed = "")) && negb (url_HasUser parsed) &&
            bool_decide (url_Fragment parsed = "") && negb (en_ByteSize entry =? 0) && (en_ByteSize entry <=? MaximumProductResourceBytes) &&
            bool_decide (en_Retention entry = ProductResourceRetentionOffline));
      _ ← guard_or ErrProductResourceInvalid (is_ok (ParseDigest (en_SHA256 entry)));
      or_fail ErrWorkStored (CanonicalDigest platform_sha256 "open-cut/product-resource-catalog-entry" ProductResourceCatalogEntrySchema (catalog_json entry))
  end.

Definition NewProductResourceCatalogEntry (name kind version profile origin : string) (byteSize : Z) (sha256 retention : string)
    : outcome work_error ProductResourceCatalogEntry :=
  '(canonical, digest) ← CanonicalProductResourceCatalogEntry (mkEntry name kind version profile origin byteSize sha256 retention "" []);
  Ok (mkEntry name kind version profile origin byteSize sha256 retention digest canonical).

Fixpoint catalog_valid (previous : string) (entries : list ProductResourceCatalogEntry) : bool :=
  match entries with
  | [] => true
  | entry :: rest =>
      match CanonicalProductResourceCatalogEntry entry with
      | Ok (canonical, digest) =>
          str_ltb previous (en_Name entry) && bool_decide (digest = en_EntryDigest entry) && bool_decide (canonical = en_Canonical entry) &&
          catalog_valid (en_Name entry) rest
      | _ => false
      end
  end.
Definition ValidateProductResourceCatalog (entries : list ProductResourceCatalogEntry) : bool :=
  (length entries <=? 128)%nat && catalog_valid "" entries.

Definition RuntimeRegistrations (entries : list ProductResourceCatalogEntry) : list ProductResourceRegistration :=
  map (fun entry => mkRegistration (en_Name entry) (en_Profile entry) (en_EntryDigest entry)) entries.

(** ** Executors *)

(** The longest version of a kind, and whether it has a target *)
Definition executor_limits (kind : string) : option (Z * bool) :=
  if bool_decide (kind ∈ [MediaJobIdentify; MediaJobProbe; MediaJobFrameSet; MediaJobProxy]) then Some (256, false)
  else if bool_decide (kind ∈ [MediaJobTranscript; MediaJobRenderInput]) then Some (1024, true)
  else if bool_decide (kind ∈ [WorkJobSequencePreview; WorkJobSequenceFrames; WorkJobSequenceExport]) then Some (1024, false)
  else if bool_decide (kind = WorkJobResourceAcquire) then Some (256, false) else None.

Fixpoint executors_valid (seen : list string) (executors : list WorkExecutorRegistration) : bool :=
  match executors with
  | [] => true
  | e :: rest =>
      match executor_limits (we_Kind e) with
      | None => false
      | Some (longest, targeted) =>
          (if targeted then negb (bool_decide (we_Target e = "")) && (go_len (we_Target e) <=? 128) else bool_decide (we_Target e = "")) &&
          negb (bool_decide (we_Version e = "")) && (go_len (we_Version e) <=? longest) && negb (bool_decide (we_Kind e ∈ seen)) &&
          executors_valid (we_Kind e :: seen) rest
      end
  end.
Definition validateWorkExecutorRegistrations (executors : list WorkExecutorRegistration) : bool :=
  negb (length executors =? 0)%nat && (length executors <=? 16)%nat && executors_valid [] executors.

(** The registrations of the six kinds of media jobs *)
Definition mediaExecutorRegistrations (executors : list WorkExecutorRegistration) : outcome work_error (list WorkExecutorRegistration) :=
  if validateWorkExecutorRegistrations executors then
    Ok (List.filter (fun e => bool_decide (we_Kind e ∈
      [MediaJobIdentify; MediaJobProbe; MediaJobFrameSet; MediaJobProxy; MediaJobRenderInput; MediaJobTranscript])) executors)
  else Fail ErrWorkInvalid.

Definition executor_version (kind : string) (executors : list WorkExecutorRegistration) : string :=
  match List.find (fun e => bool_decide (we_Kind e = kind)) executors with Some e => we_Version e | None => "" end.
Definition productResourceExecutorVersion : list WorkExecutorRegistration -> string := executor_version WorkJobResourceAcquire.

(** [ORDER BY priority, created_at, id] *)
Definition priority_rank (p : priority_class) : Z := match p with PriorityInteractive => 0 | PriorityForeground => 1 | PriorityBackground => 2 end.
Definition claims_before (left right : string * job_row) : bool :=
  let l := left.2 in let r := right.2 in
  (priority_rank (wj_priority_class l) <? priority_rank (wj_priority_class r)) ||
  ((priority_rank (wj_priority_class l) =? priority_rank (wj_priority_class r)) &&
   (instant_before (wj_created_at l) (wj_created_at r) ||
    (bool_decide (formatInstant (wj_created_at l) = formatInstant (wj_created_at r)) && str_ltb left.1 right.1))).
Definition claimable (executors : list WorkExecutorRegistration) (e : string * job_row) : bool :=
  bool_decide (wj_state e.2 = JobQueued) && negb (wj_cancellation_requested e.2) && bool_decide (wj_kind e.2 ∈ map we_Kind executors).
Definition nextClaimableWorkJob (executors : list WorkExecutorRegistration) : WorkTx (string * string) :=
  _ ← work_guard ErrWorkInvalid (validateWorkExecutorRegistrations executors);
  row ← work_read "SELECT work_jobs" (fun t => first_row claims_before (List.filter (claimable executors) (map_to_list (wt_jobs t))));
  match row with
  | None => work_lift (Fail ErrWorkNoRows)
  | Some (id, job) => jobID ← work_lift (or_fail ErrWorkInvalid (ParseID id)); mret (jobID, wj_kind job)
  end.

(** ** Leases *)

(** [state IN ('leased', 'running', 'publishing') AND lease_expires_at <= ?] *)
Definition lease_over (now_ : Z) (a : attempt_row) : bool := attempt_live a && negb (instant_before now_ (wa_lease_expires_at a)).

Definition attempt_limit : Z := 3.
Definition recovered_job (now_ : Z) (generations : Z) (job : job_row) : job_row :=
  let exhausted := attempt_limit <=? generations in
  with_job_state (if wj_cancellation_requested job then JobCancelled else if exhausted then JobFailed else JobQueued) (wj_progress_basis_points job) now_
    (if negb (wj_cancellation_requested job) && exhausted then Some "attempt-limit-exceeded" else None) job.

Definition attempt_over (now_ : Z) (t : work_tables) (id : string) : bool :=
  match wt_attempts t !! id with Some a => lease_over now_ a | None => false end.
Definition recoverExpiredWorkAttempts (now_ : Z) : WorkTx unit :=
  _ ← work_exec "DELETE render_material_leases" (fun t =>
        with_material_leases (filter (fun lease => attempt_over now_ t lease.2 = false)) t);
  _ ← work_exec "UPDATE work_job_attempts" (fun t =>
        with_attempts (update_rows (fun _ a => lease_over now_ a) (fun _ a =>
          with_attempt_state AttemptAbandoned (wa_lease_expires_at a) (wa_heartbeat_at a) (Some now_) "lease-expired" a)) t);
  work_exec "UPDATE work_jobs" (fun t =>
    with_jobs (update_rows (fun id job => bool_decide (wj_state job = JobRunning) && negb (has_live_attempt id t))
      (fun id => recovered_job now_ (max_generation id t))) t).

Definition RenewWorkJobLease (claim : WorkJobClaim) (now_ duration : Z) : WorkTx unit :=
  _ ← work_guard ErrWorkLeaseLost (negb (IsZero (wc_JobID claim) || IsZero (wc_AttemptID claim) || bool_decide (wc_LeaseOwner claim = "") ||
        time_IsZero now_ || (duration <? 3 * a_second) || (10 * 60 * a_second <? duration)));
  changed ← update_attempt "renewed" (wc_AttemptID claim) (fun a =>
        bool_decide (wa_job_id a = wc_JobID claim) && (wa_generation a =? wc_Generation claim) && bool_decide (wa_lease_owner a = wc_LeaseOwner claim) &&
        bool_decide (wa_state a = AttemptRunning) && instant_before now_ (wa_lease_expires_at a))
      (fun a => with_attempt_state (wa_state a) (now_ + duration) now_ (wa_ended_at a) (wa_diagnostics a) a);
  work_guard ErrWorkLeaseLost changed.

(** ** Jobs that acquire resources *)

Definition resource_waiting (t : work_tables) : list (string * job_row * detail_row) :=
  omap (fun e => match wt_details t !! e.1 with
    | Some detail => if bool_decide (wj_kind e.2 = WorkJobResourceAcquire) && job_waiting e.2 then Some (e.1, e.2, detail) else None
    | None => None
    end) (map_to_list (wt_jobs t)).

(** [active[name]] *)
Definition active_registration (resources : list ProductResourceRegistration) (name : string) : option ProductResourceRegistration :=
  last (List.filter (fun r => bool_decide (reg_Name r = name)) resources).
Definition registration_current (resources : list ProductResourceRegistration) (detail : detail_row) : bool :=
  match active_registration resources (rd_catalog_entry_id detail) with
  | Some r => bool_decide (reg_Profile r = rd_resource_profile detail) && bool_decide (reg_EntryDigest r = rd_entry_digest detail)
  | None => false
  end.

Definition executor_required (id : string) : prerequisite := (id, "executor-required", "capability", "work-executor/resource-acquire").
Definition settled_state (id : string) (t : work_tables) : work_job_state := if has_prerequisite id t then JobBlocked else JobQueued.

Definition reconcile_candidate (executorVersion : string) (resources : list ProductResourceRegistration) (now_ : Z)
    (candidate : string * job_row * detail_row) : WorkTx unit :=
  let '(id, job, detail) := candidate in
  if negb (registration_current resources detail) then
    _ ← update_job "unavailable" id job_waiting (fun job =>
          with_job_state JobFailed (wj_progress_basis_points job) now_ (Some "resource-catalog-entry-unavailable") job);
    mret tt
  else
    _ ← work_exec "DELETE work_job_prerequisites" (fun t => with_prerequisites (filter (fun p : prerequisite => p.1.1.1 <> id)) t);
    _ ← (if bool_decide (executorVersion = "") || negb (bool_decide (wj_producer_version job = executorVersion)) then
          work_write "INSERT work_job_prerequisites" (fun t =>
            if bool_decide (executor_required id ∈ wt_prerequisites t) then None
            else Some (tt, with_prerequisites (fun ps => {[executor_required id]} ∪ ps) t))
        else mret tt);
    work_exec "UPDATE work_jobs reconciled" (fun t =>
      with_jobs (update_rows (fun other row => bool_decide (other = id) && job_waiting row)
        (fun _ row => with_job_state (settled_state id t) (wj_progress_basis_points row) now_ None row)) t).

Fixpoint work_each {A} (items : list A) (body : A -> WorkTx unit) : WorkTx unit :=
  match items with [] => mret tt | item :: rest => _ ← body item; work_each rest body end.

Definition reconcileProductResourceJobs (executorVersion : string) (resources : list ProductResourceRegistration) (now_ : Z) : WorkTx unit :=
  _ ← work_guard ErrProductResourceInvalid (ValidateProductResourceRegistrations resources);
  candidates ← work_read "SELECT resource jobs" resource_waiting;
  work_each candidates (reconcile_candidate executorVersion resources now_).

(** The last statement of [reconcileMediaPrerequisites]: it has no condition on the
    kind, so it also sets the jobs that wait to acquire a resource. *)
Definition requeue_waiting (now_ : Z) : WorkTx unit :=
  work_exec "UPDATE work_jobs waiting" (fun t =>
    with_jobs (update_rows (fun _ row => job_waiting row)
      (fun id row => with_job_state (settled_state id t) (wj_progress_basis_points row) now_ (wj_terminal_error_code row) row)) t).

Definition activeProductResourceEntry (registrations : list ProductResourceRegistration) (entry : ProductResourceCatalogEntry) : bool :=
  existsb (fun r => bool_decide (reg_Name r = en_Name entry) && bool_decide (reg_Profile r = en_Profile entry) &&
    bool_decide (reg_EntryDigest r = en_EntryDigest entry)) registrations.

(** The row a claim selects, with the next generation *)
Definition claimed_row (id executorVersion : string) (t : work_tables) : option (job_row * detail_row * Z) :=
  job ← wt_jobs t !! id; detail ← wt_details t !! id;
  if bool_decide (wj_kind job = WorkJobResourceAcquire) && bool_decide (wj_state job = JobQueued) && negb (wj_cancellation_requested job) &&
     bool_decide (wj_producer_version job = executorVersion)
  then Some (job, detail, max_generation id t + 1) else None.

(** The entry a job was made for, checked against what was stored *)
Definition claimed_entry (resources : list ProductResourceRegistration) (detail : detail_row) : outcome work_error ProductResourceCatalogEntry :=
  size ← or_fail ErrProductResourceInvalid (NewUInt64 (rd_expected_byte_size detail));
  digest ← or_fail ErrProductResourceInvalid (ParseDigest (rd_expected_content_digest detail));
  entry ← or_fail ErrProductResourceInvalid (NewProductResourceCatalogEntry (rd_catalog_entry_id detail) (rd_resource_kind detail)
    (rd_resource_version detail) (rd_resource_profile detail) (rd_origin detail) size digest ProductResourceRetentionOffline);
  _ ← guard_or ErrProductResourceInvalid (bool_decide (en_EntryDigest entry = rd_entry_digest detail) &&
    bool_decide (en_Canonical entry = rd_entry_json detail) && activeProductResourceEntry resources entry);
  Ok entry.

Definition new_attempt (input : ClaimWorkJobInput) (id executorVersion : string) (generation : Z) : attempt_row :=
  mkAttemptRow id generation AttemptRunning (ci_LeaseOwner input) (ci_Now input + ci_LeaseDuration input) (ci_Now input) None executorVersion "{}".

Definition claim_body (input : ClaimWorkJobInput) (id executorVersion : string) : WorkTx WorkJobClaim :=
  selected ← work_read "SELECT resource job" (claimed_row id executorVersion);
  match selected with
  | None => work_lift (Fail ErrNoWork)
  | Some (job, detail, generation) =>
      match wj_installation_id job with
      | None => work_lift (Fail ErrWorkStored)
      | Some installationID =>
          entry ← work_lift (claimed_entry (ci_Resources input) detail);
          _ ← insert_attempt (ci_AttemptID input) (new_attempt input id executorVersion generation);
          changed ← update_job "claimed" id (fun job => bool_decide (wj_state job = JobQueued) && negb (wj_cancellation_requested job))
            (fun job => with_job_state JobRunning (wj_progress_basis_points job) (ci_Now input) (wj_terminal_error_code job) job);
          _ ← work_guard ErrNoWork changed;
          mret (mkClaim id (ci_AttemptID input) WorkJobResourceAcquire executorVersion "" generation (ci_LeaseOwner input)
            (ci_Now input + ci_LeaseDuration input) (Some (mkResourceClaim installationID entry)))
      end
  end.
Definition claimProductResourceJob (input : ClaimWorkJobInput) (id executorVersion : string) (t : work_tables) : outcome work_error WorkJobClaim * work_tables :=
  if IsZero id || bool_decide (executorVersion = "") || negb (ValidateProductResourceRegistrations (ci_Resources input)) then (Fail ErrNoWork, t)
  else work_transaction (claim_body input id executorVersion) t.
End jobs.

(** ** Requests *)

Inductive ProductResourceState :=
| ProductResourceNotAcquired | ProductResourceQueued | ProductResourceAcquiring | ProductResourceReady | ProductResourceFailed | ProductResourceCancelled.

Record ProductResourceView := mkView {
  pv_Name : string; pv_Kind : string; pv_Version : string; pv_Profile : string; pv_ByteSize : Z; pv_State : ProductResourceState;
  pv_ResourceID : option string; pv_JobID : option string; pv_ProgressBasisPoints : Z; pv_FailureCode : string; pv_UpdatedAt : option Z }.
Record RequestProductResourceRecord := mkResourceRequest {
  rp_InstallationID : string; rp_Actor : ActorRef; rp_RequestID : string; rp_RequestDigest : string; rp_RequestCanonical : bytes;
  rp_Entry : ProductResourceCatalogEntry; rp_JobID : string; rp_ActivityEventID : string; rp_RequestedAt : Z }.
Record RequestProductResourceOutcome := mkRequestOutcome { ro_View : ProductResourceView; ro_ActivityCursor : Z; ro_Replayed : bool }.

Section requests.
Context `{Platform} `{WorkSQLite} `{URLParser}.

(** The canonical text of a request; the digest marshals only when it is one. *)
Definition acquire_digest (entry : ProductResourceCatalogEntry) : outcome work_error (bytes * string) :=
  _ ← or_fail ErrProductResourceInvalid (ParseDigest (en_EntryDigest entry));
  or_fail ErrProductResourceInvalid (CanonicalDigest platform_sha256 "open-cut/product-resource-acquire" ProductResourceAcquireSchema
    (JObject [("name", JString (json_text (en_Name entry))); ("entryDigest", JString (en_EntryDigest entry))])).

Definition validateProductResourceRequest (record : RequestProductResourceRecord) : outcome work_error unit :=
  _ ← or_fail ErrProductResourceInvalid (ParseRequestID (rp_InstallationID record));
  _ ← guard_or ErrProductResourceInvalid (ActorRef_Validate (rp_Actor record) && bool_decide (actor_Kind (rp_Actor record) = ActorCreator) &&
        negb (IsZero (rp_JobID record)) && negb (IsZero (rp_ActivityEventID record)) && negb (time_IsZero (rp_RequestedAt record)) &&
        negb (length (rp_RequestCanonical record) =? 0)%nat);
  _ ← or_fail ErrProductResourceInvalid (ParseRequestID (rp_RequestID record));
  '(canonical, digest) ← acquire_digest (rp_Entry record);
  _ ← guard_or ErrProductResourceInvalid (bool_decide (digest = rp_RequestDigest record) && bool_decide (canonical = rp_RequestCanonical record));
  '(canonical, digest) ← or_fail ErrProductResourceInvalid (CanonicalProductResourceCatalogEntry (rp_Entry record));
  guard_or ErrProductResourceInvalid (bool_decide (digest = en_EntryDigest (rp_Entry record)) && bool_decide (canonical = en_Canonical (rp_Entry record))).

(** The jobs made for an entry *)
Definition jobs_of_entry (installationID : string) (entry : ProductResourceCatalogEntry) (t : work_tables) : list (string * job_row) :=
  List.filter (fun e => bool_decide (wj_installation_id e.2 = Some installationID) &&
    match wt_details t !! e.1 with
    | Some detail => bool_decide (rd_catalog_entry_id detail = en_Name entry) && bool_decide (rd_entry_digest detail = en_EntryDigest entry)
    | None => false
    end) (map_to_list (wt_jobs t)).
Definition resource_of_entry (installationID : string) (entry : ProductResourceCatalogEntry) (t : work_tables) : option (string * resource_row) :=
  find_row (fun _ row => same_resource installationID (en_Name entry) (en_EntryDigest entry) row) (wt_resources t).

(** [None]: no rows *)
Definition findCurrentProductResourceJob (installationID : string) (entry : ProductResourceCatalogEntry) : WorkTx (option string) :=
  ready ← work_read "SELECT product_resources" (fun t =>
    find_row (fun _ row => same_resource installationID (en_Name entry) (en_EntryDigest entry) row && bool_decide (rr_state row = ResourceReady))
      (wt_resources t));
  match ready with
  | Some (_, row) => id ← work_lift (or_fail ErrWorkStored (ParseID (rr_producer_job_id row))); mret (Some id)
  | None =>
      live ← work_read "SELECT work_jobs" (fun t => first_row newer (List.filter (fun e => job_live e.2) (jobs_of_entry installationID entry t)));
      match live with
      | Some (id, _) => id ← work_lift (or_fail ErrWorkStored (ParseID id)); mret (Some id)
      | None => mret None
      end
  end.

Definition resource_logical_key (installationID digest : string) : string := "product-resource/" +:+ installationID +:+ "/" +:+ digest.
Definition new_resource_job (record : RequestProductResourceRecord) : job_row :=
  mkJobRow (Some (rp_InstallationID record)) WorkJobResourceAcquire JobQueued PriorityForeground
    (resource_logical_key (rp_InstallationID record) (en_EntryDigest (rp_Entry record))) ProductResourceDownloaderV1 0 false
    (rp_RequestedAt record) (rp_RequestedAt record) None.
Definition new_resource_detail (entry : ProductResourceCatalogEntry) : detail_row :=
  mkDetailRow (en_Name entry) (en_Kind entry) (en_Version entry) (en_Profile entry) (en_EntryDigest entry) (en_Canonical entry) (en_Origin entry)
    (en_ByteSize entry) (en_SHA256 entry) (en_Retention entry) None.
Definition insertProductResourceJob (record : RequestProductResourceRecord) : WorkTx unit :=
  _ ← insert_job (rp_JobID record) (new_resource_job record);
  _ ← insert_detail (rp_JobID record) (new_resource_detail (rp_Entry record));
  work_exec "INSERT work_job_owners" id.

(** What the view shows of a job, with the resource when it is ready *)
Record shown_job := mkShown { sj_resource : string; sj_job : string; sj_state : work_job_state; sj_progress : Z; sj_failure : option string; sj_updated : Z }.
Definition shown_of (resource : string) (e : string * job_row) : shown_job :=
  mkShown resource e.1 (wj_state e.2) (wj_progress_basis_points e.2) (wj_terminal_error_code e.2) (wj_updated_at e.2).
Definition shown_row (installationID : string) (entry : ProductResourceCatalogEntry) (t : work_tables) : option shown_job :=
  match (e ← resource_of_entry installationID entry t; job ← wt_jobs t !! rr_producer_job_id e.2; Some (e, (rr_producer_job_id e.2, job))) with
  | Some ((id, row), job) =>
      if bool_decide (rr_state row = ResourceReady) then Some (shown_of id job)
      else let shown := shown_of "" job in
        Some (mkShown "" (sj_job shown) JobFailed (sj_progress shown) (Some "resource-integrity-invalid") (sj_updated shown))
  | None => shown_of "" <$> first_row newer (jobs_of_entry installationID entry t)
  end.

Definition entry_view (entry : ProductResourceCatalogEntry) (state : ProductResourceState) (resource : option string) (shown : shown_job) : ProductResourceView :=
  mkView (en_Name entry) (en_Kind entry) (en_Version entry) (en_Profile entry) (en_ByteSize entry) state resource (Some (sj_job shown))
    (sj_progress shown) (default "" (sj_failure shown)) (Some (sj_updated shown)).

Definition loadProductResourceView (installationID : string) (entry : ProductResourceCatalogEntry) : WorkTx ProductResourceView :=
  shown ← work_read "SELECT resource view" (shown_row installationID entry);
  match shown with
  | None => mret (mkView (en_Name entry) (en_Kind entry) (en_Version entry) (en_Profile entry) (en_ByteSize entry) ProductResourceNotAcquired None None 0 "" None)
  | Some shown =>
      _ ← work_lift (or_fail ErrWorkStored (ParseID (sj_job shown)));
      match sj_state shown with
      | JobBlocked | JobQueued => mret (entry_view entry ProductResourceQueued None shown)
      | JobRunning => mret (entry_view entry ProductResourceAcquiring None shown)
      | JobFailed => mret (entry_view entry ProductResourceFailed None shown)
      | JobCancelled => mret (entry_view entry ProductResourceCancelled None shown)
      | JobSucceeded =>
          _ ← work_guard ErrProductResourceInvalid (negb (bool_decide (sj_resource shown = "")));
          id ← work_lift (or_fail ErrWorkStored (ParseID (sj_resource shown)));
          mret (entry_view entry ProductResourceReady (Some id) shown)
      end
  end.

Definition ListProductResources (installationID : string) (entries : list ProductResourceCatalogEntry) (t : work_tables)
    : outcome work_error (list ProductResourceView) * work_tables :=
  if negb (is_ok (ParseRequestID installationID)) || negb (ValidateProductResourceCatalog entries) then (Fail ErrProductResourceInvalid, t)
  else work_transaction (foldr (fun entry rest => view ← loadProductResourceView installationID entry; views ← rest; mret (view :: views)) (mret []) entries) t.

Definition request_body (record : RequestProductResourceRecord) : WorkTx RequestProductResourceOutcome :=
  stored ← work_read "SELECT product_resource_requests" (fun t => wt_requests t !! (rp_InstallationID record, rp_RequestID record));
  match stored with
  | Some row =>
      _ ← work_guard ErrWorkRequestReused (bool_decide (rq_input_digest row = rp_RequestDigest record));
      view ← loadProductResourceView (rp_InstallationID record) (rp_Entry record);
      _ ← work_guard ErrProductResourceInvalid (bool_decide (pv_JobID view = Some (rq_job_id row)));
      cursor ← work_read "SELECT activity_outbox" (fun t => wt_outbox t !! rq_activity_event_id row);
      match cursor with
      | None => work_lift (Fail ErrWorkNoRows)
      | Some cursor => cursor ← work_lift (or_fail ErrWorkStored (NewCursor cursor)); mret (mkRequestOutcome view cursor true)
      end
  | None =>
      found ← findCurrentProductResourceJob (rp_InstallationID record) (rp_Entry record);
      jobID ← (match found with Some id => mret id | None => _ ← insertProductResourceJob record; mret (rp_JobID record) end);
      _ ← work_write "INSERT product_resource_requests" (fun t =>
            match wt_requests t !! (rp_InstallationID record, rp_RequestID record) with
            | Some _ => None
            | None => Some (tt, with_requests (<[(rp_InstallationID record, rp_RequestID record) :=
                mkResourceRequestRow (rp_RequestDigest record) jobID (rp_ActivityEventID record)]>) t)
            end);
      cursor ← append_activity (rp_InstallationID record) (rp_ActivityEventID record);
      view ← loadProductResourceView (rp_InstallationID record) (rp_Entry record);
      _ ← work_guard ErrProductResourceInvalid (bool_decide (pv_JobID view = Some jobID));
      mret (mkRequestOutcome view cursor false)
  end.
Definition RequestProductResource (record : RequestProductResourceRecord) (t : work_tables) : outcome work_error RequestProductResourceOutcome * work_tables :=
  match validateProductResourceRequest record with
  | Ok _ => work_transaction (request_body record) t
  | Fail e => (Fail e, t)
  | Panic => (Panic, t)
  end.
End requests.

(** ** Finishing an attempt *)

Record CompleteProductResourceInput := mkCompletion {
  cp_Claim : WorkJobClaim; cp_ResourceID : string; cp_ByteSize : Z; cp_SHA256 : string; cp_Workspace : option bytes; cp_EventID : string;
  cp_CompletedAt : Z }.
Record FailProductResourceInput := mkFailure { fp_Claim : WorkJobClaim; fp_Code : string; fp_EventID : string; fp_FailedAt : Z }.

Section finishing.
Context `{Platform} `{WorkSQLite}.

(** The rows a claim is checked against *)
Definition attempt_rows (claim : WorkJobClaim) (resource : ProductResourceJobClaim) (t : work_tables) : option (job_row * attempt_row) :=
  job ← wt_jobs t !! wc_JobID claim; attempt ← wt_attempts t !! wc_AttemptID claim; detail ← wt_details t !! wc_JobID claim;
  if bool_decide (wa_job_id attempt = wc_JobID claim) && bool_decide (wj_kind job = WorkJobResourceAcquire) &&
     bool_decide (rd_catalog_entry_id detail = en_Name (rc_Entry resource)) && bool_decide (rd_entry_digest detail = en_EntryDigest (rc_Entry resource))
  then Some (job, attempt) else None.

Definition lease_held (claim : WorkJobClaim) (resource : ProductResourceJobClaim) (now_ : Z) (job : job_row) (attempt : attempt_row) : bool :=
  bool_decide (wj_state job = JobRunning) && bool_decide (wa_state attempt = AttemptRunning) &&
  bool_decide (wj_producer_version job = wc_ExecutorVersion claim) && bool_decide (wj_installation_id job = Some (rc_InstallationID resource)) &&
  bool_decide (wa_lease_owner attempt = wc_LeaseOwner claim) && (wa_generation attempt =? wc_Generation claim) && (now_ <? wa_lease_expires_at attempt).

Definition verifyProductResourceAttempt (claim : WorkJobClaim) (now_ : Z) : WorkTx unit :=
  match wc_Resource claim with
  | None => work_lift (Fail ErrProductResourceLeaseLost)
  | Some resource =>
      _ ← work_guard ErrProductResourceLeaseLost (negb (IsZero (wc_JobID claim)) && negb (IsZero (wc_AttemptID claim)) &&
            bool_decide (wc_Kind claim = WorkJobResourceAcquire));
      rows ← work_read "SELECT resource attempt" (attempt_rows claim resource);
      match rows with
      | None => work_lift (Fail ErrWorkNoRows)
      | Some (job, attempt) =>
          _ ← work_guard ErrWorkStored (bool_decide (is_Some (wj_installation_id job)));
          work_guard ErrProductResourceLeaseLost (lease_held claim resource now_ job attempt)
      end
  end.

Definition completeProductResourceAttempt (claim : WorkJobClaim) (at_ : Z) : WorkTx unit :=
  changed ← update_job "succeeded" (wc_JobID claim) (fun job => bool_decide (wj_state job = JobRunning)) (with_job_state JobSucceeded 10000 at_ None);
  _ ← work_guard ErrProductResourceLeaseLost changed;
  changed ← update_attempt "succeeded" (wc_AttemptID claim) (fun a => bool_decide (wa_state a = AttemptRunning))
        (fun a => with_attempt_state AttemptSucceeded (wa_lease_expires_at a) at_ (Some at_) "{}" a);
  work_guard ErrProductResourceLeaseLost changed.

(** A media job of the installation *)
Definition media_job_of (installationID : string) (t : work_tables) (id : string) : bool :=
  match (asset ← wt_media_jobs t !! id; grant ← wt_assets t !! asset; wt_source_grants t !! grant) with
  | Some installation => bool_decide (installation = installationID)
  | None => false
  end.
Definition satisfyProductResourcePrerequisites (resource : ProductResourceJobClaim) (at_ : Z) : WorkTx unit :=
  _ ← work_exec "DELETE work_job_prerequisites satisfied" (fun t =>
        with_prerequisites (filter (fun p : prerequisite => ~ (p.1.1.2 = "model-required" /\ p.1.2 = "resource" /\ p.2 = en_Name (rc_Entry resource) /\
          media_job_of (rc_InstallationID resource) t p.1.1.1 = true))) t);
  work_exec "UPDATE work_jobs satisfied" (fun t =>
    with_jobs (update_rows (fun id job => job_waiting job && media_job_of (rc_InstallationID resource) t id)
      (fun id job => with_job_state (settled_state id t) (wj_progress_basis_points job) at_ (wj_terminal_error_code job) job)) t).

Definition new_resource (claim : WorkJobClaim) (resource : ProductResourceJobClaim) (id : string) (at_ : Z) : resource_row :=
  let entry := rc_Entry resource in
  mkResourceRow (rc_InstallationID resource) (en_Name entry) (en_Kind entry) (en_Version entry) (en_Profile entry) (en_EntryDigest entry) (en_SHA256 entry)
    ResourceReady (en_ByteSize entry) ("resource:product/" +:+ id) (en_Retention entry) (wc_JobID claim) at_.
Definition ready_again (job : string) (at_ : Z) (row : resource_row) : resource_row :=
  mkResourceRow (rr_installation_id row) (rr_catalog_entry_id row) (rr_kind row) (rr_version row) (rr_profile row) (rr_entry_digest row)
    (rr_content_digest row) ResourceReady (rr_byte_size row) (rr_byte_reference row) (rr_retention row) job at_.
Definition invalidated (row : resource_row) : resource_row :=
  mkResourceRow (rr_installation_id row) (rr_catalog_entry_id row) (rr_kind row) (rr_version row) (rr_profile row) (rr_entry_digest row)
    (rr_content_digest row) ResourceInvalid (rr_byte_size row) (rr_byte_reference row) (rr_retention row) (rr_producer_job_id row) (rr_created_at row).

(** [state = 'ready'] again, for the row of this entry; the producer is unique. *)
Definition update_resource (claim : WorkJobClaim) (resource : ProductResourceJobClaim) (id : string) (at_ : Z) : WorkTx bool :=
  let entry := rc_Entry resource in
  work_write "UPDATE product_resources" (fun t =>
    match wt_resources t !! id with
    | Some row =>
        if bool_decide (rr_state row = ResourceInvalid) && same_resource (rc_InstallationID resource) (en_Name entry) (en_EntryDigest entry) row &&
           bool_decide (rr_content_digest row = en_SHA256 entry) && (rr_byte_size row =? en_ByteSize entry)
        then if any_row (fun other row => negb (bool_decide (other = id)) && bool_decide (rr_producer_job_id row = wc_JobID claim)) (wt_resources t)
          then None else Some (true, with_resources (<[id := ready_again (wc_JobID claim) at_ row]>) t)
        else Some (false, t)
    | None => Some (false, t)
    end).

(** The transaction of [CompleteProductResource] *)
Definition complete_body (claim : WorkJobClaim) (resource : ProductResourceJobClaim) (id : string) (rematerializing : bool) (eventID : string) (at_ : Z)
    : WorkTx unit :=
  _ ← verifyProductResourceAttempt claim at_;
  _ ← (if rematerializing then changed ← update_resource claim resource id at_; work_guard ErrProductResourceLeaseLost changed
       else insert_resource id (new_resource claim resource id at_));
  changed ← work_write "UPDATE resource_job_details" (fun t => Some (match wt_details t !! wc_JobID claim with
        | Some row =>
            if bool_decide (rd_result_resource_id row = None) then
              (true, with_details (<[wc_JobID claim := mkDetailRow (rd_catalog_entry_id row) (rd_resource_kind row) (rd_resource_version row)
                (rd_resource_profile row) (rd_entry_digest row) (rd_entry_json row) (rd_origin row) (rd_expected_byte_size row)
                (rd_expected_content_digest row) (rd_retention row) (Some id)]>) t)
            else (false, t)
        | None => (false, t)
        end));
  _ ← work_guard ErrProductResourceLeaseLost changed;
  _ ← completeProductResourceAttempt claim at_;
  _ ← satisfyProductResourcePrerequisites resource at_;
  _ ← append_activity (rc_InstallationID resource) eventID;
  mret tt.

Definition fail_body (input : FailProductResourceInput) (resource : ProductResourceJobClaim) : WorkTx unit :=
  let claim := fp_Claim input in
  let at_ := fp_FailedAt input in
  _ ← verifyProductResourceAttempt claim at_;
  _ ← update_attempt "failed" (wc_AttemptID claim) (fun a => bool_decide (wa_state a = AttemptRunning))
        (fun a => with_attempt_state AttemptFailed (wa_lease_expires_at a) at_ (Some at_) (fp_Code input) a);
  _ ← update_job "failed" (wc_JobID claim) (fun job => bool_decide (wj_state job = JobRunning))
        (fun job => with_job_state JobFailed (wj_progress_basis_points job) at_ (Some (fp_Code input)) job);
  _ ← append_activity (rc_InstallationID resource) (fp_EventID input);
  mret tt.
Definition FailProductResource (input : FailProductResourceInput) (t : work_tables) : outcome work_error unit * work_tables :=
  match wc_Resource (fp_Claim input) with
  | Some resource =>
      if IsZero (fp_EventID input) || time_IsZero (fp_FailedAt input) || bool_decide (fp_Code input = "") || (64 <? go_len (fp_Code input))
      then (Fail ErrProductResourceInvalid, t) else work_transaction (fail_body input resource) t
  | None => (Fail ErrProductResourceInvalid, t)
  end.
End finishing.

(** ** The disk *)

Inductive leaf := LeafFile (content : bytes) | LeafDirectory | LeafOther.
Inductive tree := TreeDirectory (entries : gmap string leaf) | TreeOther.
(** The directories below [work/product-resource-publication] and [resources/product] *)
Record disk := mkDisk { dk_staging : gmap string tree; dk_resources : gmap string tree }.
Definition with_staging f d := mkDisk (f (dk_staging d)) (dk_resources d).
Definition with_published f d := mkDisk (dk_staging d) (f (dk_resources d)).

Class WorkDisk := { disk_refuses : string -> disk -> bool }.

Record work_state := mkWorkState { ws_tables : work_tables; ws_disk : disk }.
Definition WorkCall (A : Type) : Type := prog work_state (outcome work_error A).
#[export] Instance WorkCall_ret : MRet WorkCall := fun A a => Ret (Ok a).
#[export] Instance WorkCall_bind : MBind WorkCall := fun A B f p =>
  prog_bind p (fun r => match r with Ok a => f a | Fail e => Ret (Fail e) | Panic => Ret Panic end).
Definition call_lift {A} (r : outcome work_error A) : WorkCall A := Ret r.
Definition work_finally {A} (cleanup : prog work_state unit) (p : WorkCall A) : WorkCall A := prog_bind p (fun r => prog_bind cleanup (fun _ => Ret r)).

Section storage.
Context `{Platform} `{WorkSQLite} `{WorkDisk}.

(** A call that only touches the tables *)
Definition on_tables {A} (f : work_tables -> A * work_tables) (s : work_state) : A * work_state :=
  let '(a, t) := f (ws_tables s) in (a, mkWorkState t (ws_disk s)).
Definition table_call {A} (f : work_tables -> outcome work_error A * work_tables) : WorkCall A := Act (on_tables f) Ret.
(** A statement outside any transaction *)
Definition autocommit {A} (body : WorkTx A) (t : work_tables) : outcome work_error A * work_tables :=
  match body t with Ok (a, t') => (Ok a, t') | Fail e => (Fail e, t) | Panic => (Panic, t) end.

(** A call of the file system: refused, or done *)
Definition on_disk {A} (name : string) (f : disk -> option (A * disk)) (s : work_state) : outcome work_error A * work_state :=
  if disk_refuses name (ws_disk s) then (Fail ErrWorkFile, s)
  else match f (ws_disk s) with Some (a, d) => (Ok a, mkWorkState (ws_tables s) d) | None => (Fail ErrWorkFile, s) end.
Definition disk_call {A} (name : string) (f : disk -> option (A * disk)) : WorkCall A := Act (on_disk name f) Ret.
Definition disk_touch (name : string) (f : disk -> disk) : WorkCall unit := disk_call name (fun d => Some (tt, f d)).
(** [_ = os.RemoveAll(...)] *)
Definition disk_quietly (name : string) (f : disk -> disk) : prog work_state unit := Act (on_disk name (fun d => Some (tt, f d))) (fun _ => Ret tt).
Definition disk_done (name : string) (f : disk -> disk) : WorkCall bool := Act (on_disk name (fun d => Some (tt, f d))) (fun r => Ret (Ok (is_ok r))).

Definition content_name : string := "content.bin".
Definition staged_file (stage : string) (content : bytes) (d : disk) : disk :=
  with_staging (<[stage := TreeDirectory {[content_name := LeafFile content]}]>) d.

(** [io.LimitReader(inputFile, int64(size)+1)] *)
Definition limited (size : Z) (data : bytes) : bytes := firstn (Z.to_nat (to_int64 (to_int64 size + 1))) data.

Definition stage_content (stage : string) (size : Z) (digest : string) (data : bytes) : WorkCall unit :=
  _ ← disk_touch "OpenFile" (staged_file stage []);
  _ ← disk_touch "Open" id;
  copied ← disk_done "Copy" (staged_file stage (limited size data));
  closed ← disk_done "Close" id;
  synced ← disk_done "Sync" id;
  call_lift (guard_or ErrProductResourceInvalid (copied && closed && synced && (Z.of_nat (length (limited size data)) =? to_int64 size) &&
    bool_decide (sha256_text (limited size data) = digest))).

Definition publishProductResourceFile (input : CompleteProductResourceInput) (data : bytes) (resourceID : string) : WorkCall unit :=
  let stage := wc_AttemptID (cp_Claim input) +:+ "-" +:+ resourceID in
  _ ← disk_touch "MkdirAll" id;
  _ ← disk_touch "MkdirAll" id;
  _ ← disk_call "Mkdir" (fun d => match dk_staging d !! stage with
        | Some _ => None
        | None => Some (tt, with_staging (<[stage := TreeDirectory ∅]>) d)
        end);
  work_finally (disk_quietly "RemoveAll stage" (with_staging (delete stage))) (
    _ ← stage_content stage (cp_ByteSize input) (cp_SHA256 input) data;
    _ ← disk_touch "SyncDirectory stage" id;
    _ ← disk_call "Lstat" (fun d => match dk_resources d !! resourceID with Some _ => None | None => Some (tt, d) end);
    _ ← disk_call "Rename" (fun d => match dk_staging d !! stage, dk_resources d !! resourceID with
          | Some staged, None => Some (tt, mkDisk (delete stage (dk_staging d)) (<[resourceID := staged]> (dk_resources d)))
          | _, _ => None
          end);
    disk_touch "SyncDirectory resources" id).

Definition validateProductResourceCompletion (input : CompleteProductResourceInput) : outcome work_error (ProductResourceJobClaim * bytes) :=
  match wc_Resource (cp_Claim input), cp_Workspace input with
  | Some resource, Some data =>
      _ ← guard_or ErrProductResourceInvalid (bool_decide (wc_Kind (cp_Claim input) = WorkJobResourceAcquire) && negb (IsZero (cp_ResourceID input)) &&
            negb (IsZero (cp_EventID input)) && negb (time_IsZero (cp_CompletedAt input)) && (cp_ByteSize input =? en_ByteSize (rc_Entry resource)) &&
            bool_decide (cp_SHA256 input = en_SHA256 (rc_Entry resource)));
      _ ← or_fail ErrProductResourceInvalid (ParseRequestID (rc_InstallationID resource));
      Ok (resource, data)
  | _, _ => Fail ErrProductResourceInvalid
  end.

(** The row to publish under: its identity, and whether it is there *)
Definition publish_target (input : CompleteProductResourceInput) (existing : option (string * resource_row)) : outcome work_error (string * bool) :=
  match existing with
  | None => Ok (cp_ResourceID input, false)
  | Some (id, row) =>
      if bool_decide (rr_state row = ResourceInvalid) then id ← or_fail ErrWorkStored (ParseID id); Ok (id, true) else Fail ErrProductResourceInvalid
  end.

Definition complete_commit (input : CompleteProductResourceInput) (resource : ProductResourceJobClaim) (id : string) (rematerializing : bool) : WorkCall unit :=
  Act (on_tables (work_transaction (complete_body (cp_Claim input) resource id rematerializing (cp_EventID input) (cp_CompletedAt input)))) (fun r =>
    match r with
    | Ok _ => Ret (Ok tt)
    | failed => prog_bind (disk_quietly "RemoveAll resource" (with_published (delete id))) (fun _ => Ret failed)
    end).

Definition CompleteProductResource (input : CompleteProductResourceInput) : WorkCall unit :=
  '(resource, data) ← call_lift (validateProductResourceCompletion input);
  existing ← table_call (autocommit (work_read "SELECT product_resources" (resource_of_entry (rc_InstallationID resource) (rc_Entry resource))));
  '(id, rematerializing) ← call_lift (publish_target input existing);
  _ ← publishProductResourceFile input data id;
  complete_commit input resource id rematerializing.

(** ** Storage at startup *)

(** Not for a root that cannot be read, holds anything but the file, or a file of another size *)
Definition verifyProductResourceStructure (id : string) (size : Z) (d : disk) : bool :=
  negb (disk_refuses "Lstat" d) && negb (disk_refuses "ReadDir" d) &&
  match dk_resources d !! id with
  | Some (TreeDirectory entries) =>
      match map_to_list entries with
      | [(name, LeafFile content)] => bool_decide (name = content_name) && (Z.of_nat (length content) =? size)
      | _ => false
      end
  | _ => false
  end.

Definition stored_valid (id : string) (row : resource_row) : bool :=
  is_ok (ParseID id) && negb (rr_byte_size row =? 0) && bool_decide (rr_byte_reference row = "resource:product/" +:+ id) &&
  is_ok (ParseDigest (rr_content_digest row)).
Definition loadStoredProductResources : WorkTx (list (string * resource_row)) :=
  rows ← work_read "SELECT product_resources" (fun t => map_to_list (wt_resources t));
  _ ← work_guard ErrWorkStored (forallb (fun e => stored_valid e.1 e.2) rows);
  mret rows.

Fixpoint call_each {A} (items : list A) (body : A -> WorkCall unit) : WorkCall unit :=
  match items with [] => mret tt | item :: rest => _ ← body item; call_each rest body end.

Definition remove_orphan (records : list (string * resource_row)) (name : string) : WorkCall unit :=
  if is_ok (ParseID name) && negb (bool_decide (name ∈ map fst records)) then disk_touch "RemoveAll" (with_published (delete name)) else mret tt.
Definition invalidate_resource (id : string) : WorkTx unit :=
  work_exec "UPDATE product_resources" (fun t =>
    with_resources (update_rows (fun other row => bool_decide (other = id) && bool_decide (rr_state row = ResourceReady)) (fun _ => invalidated)) t).
Definition reconcile_record (record : string * resource_row) : WorkCall unit :=
  let '(id, row) := record in
  if bool_decide (rr_state row = ResourceInvalid) then disk_touch "RemoveAll" (with_published (delete id))
  else
    sound ← Act (fun s => (verifyProductResourceStructure id (rr_byte_size row) (ws_disk s), s)) (fun b => Ret (Ok b));
    if sound : bool then mret tt
    else
      _ ← disk_touch "RemoveAll" (with_published (delete id));
      table_call (autocommit (invalidate_resource id)).

Definition ReconcileProductResourceStorage : WorkCall unit :=
  _ ← disk_touch "RemoveAll staging" (with_staging (fun _ => ∅));
  _ ← disk_touch "MkdirAll" id;
  records ← table_call (autocommit loadStoredProductResources);
  entries ← disk_call "ReadDir" (fun d => Some (map fst (map_to_list (dk_resources d)), d));
  _ ← call_each entries (remove_orphan records);
  _ ← call_each records reconcile_record;
  disk_touch "SyncDirectory resources" id.
End storage.
