(* ===== verification/WorkInvariant.v ===== *)
(** What the job tables keep, whatever calls are made and whatever the jobs of
    other kinds do beside them: leases are exclusive, and an acquired resource is
    tied to the job that acquired it. *)
From stdpp Require Import base list strings gmap sorting relations fin_maps.
From Stdlib Require Import ZArith Lia Ascii.
From S2P Require Import Prelude GoText Exact Identity Canonical EditModel Timeline EditState EditValidate EditNormalize Project Database Authority GoWire.
From S2P Require Import EditLoadState EditService CommandRegistry CliGrants CliRepository CliService CliSafety UISession WorkJobs.
Open Scope Z_scope.

(** ** Rows *)

Lemma any_row_false {A} (test : string -> A -> bool) m k v : any_row test m = false -> m !! k = Some v -> test k v = false.
Proof.
  unfold any_row. intros Ha Hk. destruct (test k v) eqn:Et; [|done]. rewrite <- Ha. symmetry. apply existsb_exists.
  exists (k, v). split; [|done]. by apply list_elem_of_In, elem_of_map_to_list.
Qed.

Lemma find_row_some {A} (test : string -> A -> bool) m k v : find_row test m = Some (k, v) -> m !! k = Some v /\ test k v = true.
Proof.
  unfold find_row. intros Hf. assert ((k, v) ∈ List.filter (fun e => test e.1 e.2) (map_to_list m)) as Hin.
  { destruct (List.filter _ _) as [|e l]; [done|]. injection Hf as ->. by left. }
  apply list_elem_of_In, filter_In in Hin as [Hin Ht]. split; [|done]. by apply elem_of_map_to_list, list_elem_of_In.
Qed.
Lemma find_row_none {A} (test : string -> A -> bool) m k v : find_row test m = None -> m !! k = Some v -> test k v = false.
Proof.
  unfold find_row. intros Hf Hk. destruct (test k v) eqn:Et; [|done].
  assert (In (k, v) (List.filter (fun e => test e.1 e.2) (map_to_list m))) as Hin.
  { apply filter_In. split; [|done]. by apply list_elem_of_In, elem_of_map_to_list. }
  by destruct (List.filter _ _).
Qed.

Lemma update_rows_lookup {A} (where_ : string -> A -> bool) f m k :
  update_rows where_ f m !! k = (fun row => if where_ k row then f k row else row) <$> m !! k.
Proof. unfold update_rows. rewrite map_lookup_imap. by destruct (m !! k). Qed.

Lemma first_row_none {A} (before : A -> A -> bool) rows : first_row before rows = None -> rows = [].
Proof. destruct rows as [|row rest]; [done|]. cbn. by destruct (first_row before rest). Qed.

Lemma attempts_of_elem job t a : a ∈ attempts_of job t <-> exists id, wt_attempts t !! id = Some a /\ wa_job_id a = job.
Proof.
  unfold attempts_of. rewrite list_elem_of_In, filter_In, <- list_elem_of_In, bool_decide_eq_true. split.
  - intros [((id & a') & -> & Hin)%list_elem_of_fmap Hj]. exists id. split; [|done]. by apply elem_of_map_to_list in Hin.
  - intros (id & Hid & Hj). split; [|done]. apply list_elem_of_fmap. exists (id, a). split; [done|]. by apply elem_of_map_to_list.
Qed.

Lemma has_live_attempt_spec job t : has_live_attempt job t = true <-> exists id a, wt_attempts t !! id = Some a /\ wa_job_id a = job /\ attempt_live a = true.
Proof.
  unfold has_live_attempt. rewrite existsb_exists. split.
  - intros (a & (id & Hid & Hj)%list_elem_of_In%attempts_of_elem & Hl). by exists id, a.
  - intros (id & a & Hid & Hj & Hl). exists a. split; [|done]. apply list_elem_of_In, attempts_of_elem. by exists id.
Qed.

Lemma foldr_max_spec l : 0 <= foldr Z.max 0 l /\ (forall x, x ∈ l -> x <= foldr Z.max 0 l) /\ (foldr Z.max 0 l = 0 \/ foldr Z.max 0 l ∈ l).
Proof.
  induction l as [|x l (H0 & Hle & Hin)]; cbn; [split_and!; [lia|set_solver|by left]|]. split_and!.
  - lia.
  - intros y [->|Hy]%elem_of_cons; [lia|]. specialize (Hle y Hy). lia.
  - destruct (Z.max_spec x (foldr Z.max 0 l)) as [[_ ->]|[_ ->]]; [destruct Hin; [by left|right; by right]|right; by left].
Qed.

Lemma max_generation_spec job t : 0 <= max_generation job t /\
  (forall id a, wt_attempts t !! id = Some a -> wa_job_id a = job -> wa_generation a <= max_generation job t) /\
  (max_generation job t = 0 \/ exists id a, wt_attempts t !! id = Some a /\ wa_job_id a = job /\ wa_generation a = max_generation job t).
Proof.
  unfold max_generation. destruct (foldr_max_spec (map wa_generation (attempts_of job t))) as (H0 & Hle & Hin). split_and!; [done| |].
  - intros id a Ha Hj. apply Hle, list_elem_of_fmap. exists a. split; [done|]. apply attempts_of_elem. by exists id.
  - destruct Hin as [|(a & Hg & (id & Hid & Hj)%attempts_of_elem)%list_elem_of_fmap]; [by left|right]. by exists id, a.
Qed.

(** ** Calls that succeeded, step by step *)

Lemma work_bind_ok {A B} (m : WorkTx A) (k : A -> WorkTx B) t b t' : (m ≫= k) t = Ok (b, t') -> exists a t1, m t = Ok (a, t1) /\ k a t1 = Ok (b, t').
Proof. unfold mbind, ST_bind. destruct (m t) as [[a t1]|e|]; [|done..]. intros Hk. by exists a, t1. Qed.
Lemma work_ret_ok {A} (a b : A) (t t' : work_tables) : (mret a : WorkTx A) t = Ok (b, t') -> b = a /\ t' = t.
Proof. by intros [= -> ->]. Qed.
Lemma work_lift_ok {A} (r : outcome work_error A) t a t' : work_lift r t = Ok (a, t') -> r = Ok a /\ t' = t.
Proof. unfold work_lift. destruct r; [|done..]. by intros [= -> ->]. Qed.
Lemma work_guard_ok e b t u t' : work_guard e b t = Ok (u, t') -> b = true /\ t' = t.
Proof. unfold work_guard. intros [Hb ->]%work_lift_ok. by destruct b. Qed.

Section effects.
Context `{WorkSQLite}.
Lemma work_write_ok {A} name (f : work_tables -> option (A * work_tables)) t r : work_write name f t = Ok r -> f t = Some r.
Proof. unfold work_write. destruct (work_refuses name t); [done|]. destruct (f t); [|done]. by intros [= ->]. Qed.
Lemma work_exec_ok name f t u t' : work_exec name f t = Ok (u, t') -> t' = f t.
Proof. unfold work_exec. intros [= _ ->]%work_write_ok. done. Qed.
Lemma work_read_ok {A} name (f : work_tables -> A) t a t' : work_read name f t = Ok (a, t') -> a = f t /\ t' = t.
Proof. unfold work_read. by intros [= -> ->]%work_write_ok. Qed.
Lemma update_job_ok name id where_ f t b t' : update_job name id where_ f t = Ok (b, t') ->
  (exists row, b = true /\ wt_jobs t !! id = Some row /\ where_ row = true /\ t' = with_jobs (<[id := f row]>) t) \/
  (b = false /\ t' = t /\ forall row, wt_jobs t !! id = Some row -> where_ row = false).
Proof.
  unfold update_job. intros Hw%work_write_ok. destruct (wt_jobs t !! id) as [row|] eqn:E; [destruct (where_ row) eqn:Ew|]; injection Hw as <- <-.
  - left. by exists row.
  - right. split_and!; [done..|]. by intros ? [= <-].
  - right. by split_and!.
Qed.
Lemma update_attempt_ok name id where_ f t b t' : update_attempt name id where_ f t = Ok (b, t') ->
  (exists row, b = true /\ wt_attempts t !! id = Some row /\ where_ row = true /\ t' = with_attempts (<[id := f row]>) t) \/
  (b = false /\ t' = t /\ forall row, wt_attempts t !! id = Some row -> where_ row = false).
Proof.
  unfold update_attempt. intros Hw%work_write_ok. destruct (wt_attempts t !! id) as [row|] eqn:E; [destruct (where_ row) eqn:Ew|]; injection Hw as <- <-.
  - left. by exists row.
  - right. split_and!; [done..|]. by intros ? [= <-].
  - right. by split_and!.
Qed.

(** Activity touches neither jobs nor resources. *)
Definition same_work (t t' : work_tables) : Prop :=
  wt_jobs t' = wt_jobs t /\ wt_attempts t' = wt_attempts t /\ wt_details t' = wt_details t /\ wt_resources t' = wt_resources t.
Lemma append_activity_same installationID eventID t c t' : append_activity installationID eventID t = Ok (c, t') ->
  same_work t t' /\ wt_requests t' = wt_requests t.
Proof.
  unfold append_activity. intros (c1 & t1 & [= <- <-]%work_write_ok & (c2 & t2 & [_ ->]%work_lift_ok & (u & t3 & Hw%work_write_ok & [-> ->]%work_ret_ok)%work_bind_ok)%work_bind_ok)%work_bind_ok.
  cbn in Hw. destruct (wt_outbox t !! eventID); [done|]. injection Hw as _ <-. by split_and!.
Qed.
End effects.

(** Open a call that succeeded. *)
Ltac tx_open :=
  repeat match goal with
  | Hx : (_ ≫= _) _ = Ok (_, _) |- _ => apply work_bind_ok in Hx as (? & ? & ? & Hx)
  | Hx : mret _ _ = Ok (_, _) |- _ => apply work_ret_ok in Hx as [? ?]; subst
  | Hx : work_guard _ _ _ = Ok _ |- _ => apply work_guard_ok in Hx as [? ?]; subst
  | Hx : work_lift _ _ = Ok (_, _) |- _ => apply work_lift_ok in Hx as [? ?]; subst
  | Hx : work_read _ _ _ = Ok (_, _) |- _ => apply work_read_ok in Hx as [? ?]; subst
  | Hx : work_exec _ _ _ = Ok (_, _) |- _ => apply work_exec_ok in Hx; subst
  end.

(** ** Steps *)

(** What a job is for *)
Definition same_job (job job' : job_row) : Prop :=
  wj_kind job' = wj_kind job /\ wj_installation_id job' = wj_installation_id job /\ wj_logical_key job' = wj_logical_key job.
(** A waiting job keeps waiting or fails. *)
Definition settles (job job' : job_row) : Prop :=
  job' = job \/ (same_job job job' /\ job_waiting job = true /\ (job_waiting job' = true \/ wj_state job' = JobFailed)).
Definition jobs_settled (t t' : work_tables) : Prop :=
  wt_attempts t' = wt_attempts t /\ wt_details t' = wt_details t /\ wt_resources t' = wt_resources t /\ wt_requests t' = wt_requests t /\
  forall id, option_Forall2 settles (wt_jobs t !! id) (wt_jobs t' !! id).

(** A row of [product_resources] may become invalid. *)
Definition invalidates (row row' : resource_row) : Prop := row' = row \/ (rr_state row = ResourceReady /\ row' = invalidated row).

(** A live job stays live. *)
Definition lives_on (t t' : work_tables) : Prop := forall id job, wt_jobs t !! id = Some job -> job_live job = true ->
  exists job', wt_jobs t' !! id = Some job' /\ job_live job' = true.

(** What the code for jobs of other kinds does, but for the one statement without a
    condition on the kind, [requeue_waiting]: by kind, by job or by the details of a
    job it leaves alone the jobs that acquire resources, their attempts and their
    details, and may find a resource to be invalid.  An attempt is one of a stored
    job. *)
Definition resource_job (t : work_tables) (id : string) : Prop := exists job, wt_jobs t !! id = Some job /\ wj_kind job = WorkJobResourceAcquire.
Definition beside (t t' : work_tables) : Prop :=
  (forall id job, wj_kind job = WorkJobResourceAcquire -> (wt_jobs t !! id = Some job <-> wt_jobs t' !! id = Some job)) /\
  (forall id a, resource_job t (wa_job_id a) -> (wt_attempts t !! id = Some a <-> wt_attempts t' !! id = Some a)) /\
  (forall id a, wt_attempts t' !! id = Some a -> is_Some (wt_jobs t' !! wa_job_id a)) /\
  wt_details t' = wt_details t /\ wt_requests t' = wt_requests t /\
  (forall id, option_Forall2 invalidates (wt_resources t !! id) (wt_resources t' !! id)).

Section steps.
Context `{Platform} `{WorkSQLite} `{URLParser}.

Inductive work_step (t t' : work_tables) : Prop :=
| StepRecover now_ : recoverExpiredWorkAttempts now_ t = Ok (tt, t') -> work_step t t'
| StepReconcile version resources now_ : reconcileProductResourceJobs version resources now_ t = Ok (tt, t') -> work_step t t'
| StepRequest record outcome : request_body record t = Ok (outcome, t') -> work_step t t'
| StepClaim input id version claim : claim_body input id version t = Ok (claim, t') -> work_step t t'
| StepRenew claim now_ duration : RenewWorkJobLease claim now_ duration t = Ok (tt, t') -> work_step t t'
| StepComplete claim resource id rematerializing eventID at_ :
    wc_Resource claim = Some resource -> complete_body claim resource id rematerializing eventID at_ t = Ok (tt, t') -> work_step t t'
| StepFail input resource : wc_Resource (fp_Claim input) = Some resource -> fail_body input resource t = Ok (tt, t') -> work_step t t'
| StepInvalidate id : invalidate_resource id t = Ok (tt, t') -> work_step t t'
| StepRequeue now_ : requeue_waiting now_ t = Ok (tt, t') -> work_step t t'
| StepOthers : beside t t' -> work_step t t'.

Definition no_work : work_tables := mkWorkTables ∅ ∅ ∅ ∅ ∅ ∅ ∅ ∅ ∅ ∅ ∅ ∅.
Definition work_reachable : work_tables -> Prop := rtc work_step no_work.

(** ** Effects of the calls *)

#[global] Instance settles_preorder : PreOrder settles.
Proof.
  split; [by left|]. intros j1 j2 j3 [->|(S12 & W1 & W2)] [->|(S23 & W2' & W3)]; [by left|by right|by right|right].
  destruct S12 as (?&?&?), S23 as (?&?&?). split_and!; [|done..]. split_and!; congruence.
Qed.
Lemma jobs_settled_refl t : jobs_settled t t.
Proof. split_and!; [done..|]. intros id. destruct (wt_jobs t !! id); constructor. by left. Qed.
Lemma jobs_settled_trans t1 t2 t3 : jobs_settled t1 t2 -> jobs_settled t2 t3 -> jobs_settled t1 t3.
Proof.
  intros (?&?&?&?&Hj) (?&?&?&?&Hj'). split_and!; [congruence..|]. intros id. specialize (Hj id). specialize (Hj' id).
  inversion Hj as [j1 j2 H12 E1 E2|E1 E2]; rewrite <- E2 in Hj'; inversion Hj' as [j2' j3 H23|]; subst; constructor. by etrans.
Qed.
(** Rows of waiting jobs are updated. *)
Lemma update_rows_settled t where_ f :
  (forall id job, where_ id job = true -> settles job (f id job)) -> jobs_settled t (with_jobs (update_rows where_ f) t).
Proof.
  intros Hf. split_and!; [done..|]. intros id. cbn. rewrite update_rows_lookup. destruct (wt_jobs t !! id) as [job|]; constructor.
  destruct (where_ id job) eqn:E; [by apply Hf|by left].
Qed.
Lemma prerequisites_settled t f : jobs_settled t (with_prerequisites f t).
Proof. apply (jobs_settled_refl t). Qed.
Lemma with_job_state_same state progress at_ code job : same_job job (with_job_state state progress at_ code job).
Proof. by split_and!. Qed.
Lemma settled_state_waiting id t progress at_ code job : job_waiting (with_job_state (settled_state id t) progress at_ code job) = true.
Proof. unfold job_waiting, settled_state. cbn. by destruct (has_prerequisite id t). Qed.
Lemma settled_state_settles id t progress at_ code job : job_waiting job = true -> settles job (with_job_state (settled_state id t) progress at_ code job).
Proof. intros Hw. right. split_and!; [apply with_job_state_same|done|]. left. apply settled_state_waiting. Qed.
Lemma waiting_live job : job_waiting job = true -> job_live job = true.
Proof. unfold job_waiting, job_live. by destruct (wj_state job). Qed.
(** Rows of waiting jobs that keep waiting *)
Lemma update_rows_live t where_ f : (forall id job, where_ id job = true -> job_live (f id job) = true) -> lives_on t (with_jobs (update_rows where_ f) t).
Proof.
  intros Hf id job Hj Hl. cbn. rewrite update_rows_lookup, Hj. eexists. split; [done|]. destruct (where_ id job) eqn:E; [by apply Hf|done].
Qed.
Lemma lives_on_trans t1 t2 t3 : lives_on t1 t2 -> lives_on t2 t3 -> lives_on t1 t3.
Proof. intros H12 H23 id job Hj Hl. destruct (H12 id job Hj Hl) as (job2 & Hj2 & Hl2). by apply (H23 id job2). Qed.
Lemma lives_on_same t t' : wt_jobs t' = wt_jobs t -> lives_on t t'.
Proof. intros E id job Hj Hl. exists job. by rewrite E. Qed.

Lemma requeue_settled now_ t t' : requeue_waiting now_ t = Ok (tt, t') -> jobs_settled t t' /\ lives_on t t'.
Proof.
  unfold requeue_waiting. intros ->%work_exec_ok. split; [apply update_rows_settled; intros id job; apply settled_state_settles|].
  apply update_rows_live. intros id job _. apply waiting_live, settled_state_waiting.
Qed.

Lemma reconcile_candidate_settled version resources now_ candidate t t' : reconcile_candidate version resources now_ candidate t = Ok (tt, t') -> jobs_settled t t'.
Proof.
  destruct candidate as [[id job] detail]. unfold reconcile_candidate. destruct (negb (registration_current resources detail)); intros Hr.
  - tx_open. match goal with Hu : update_job _ _ _ _ _ = _ |- _ => apply update_job_ok in Hu as [(row & -> & Hrow & Hw & ->)|(-> & -> & _)] end;
      [|apply jobs_settled_refl]. split_and!; [done..|]. intros k. cbn. destruct (decide (k = id)) as [->|Hne].
    + rewrite Hrow, lookup_insert_eq. constructor. right. split_and!; [apply with_job_state_same|done|by right].
    + rewrite lookup_insert_ne by done. destruct (wt_jobs t !! k); constructor. by left.
  - destruct (_ || _); tx_open; repeat match goal with Hw : work_write _ _ _ = Ok _ |- _ => apply work_write_ok in Hw end;
      [case_bool_decide; [done|]; simplify_eq|];
      (eapply jobs_settled_trans; [|apply update_rows_settled; intros k row [_ Hw]%andb_true_iff; by apply settled_state_settles]);
      repeat (eapply jobs_settled_trans; [|apply prerequisites_settled]); apply jobs_settled_refl.
Qed.
Lemma work_each_settled version resources now_ candidates t t' :
  work_each candidates (reconcile_candidate version resources now_) t = Ok (tt, t') -> jobs_settled t t'.
Proof.
  revert t. induction candidates as [|c rest IH]; intros t Hr; cbn in Hr; [tx_open; apply jobs_settled_refl|].
  apply work_bind_ok in Hr as ([] & t1 & Hc & Hr). eapply jobs_settled_trans; [by eapply reconcile_candidate_settled|by apply IH].
Qed.
Lemma reconcile_settled version resources now_ t t' : reconcileProductResourceJobs version resources now_ t = Ok (tt, t') -> jobs_settled t t'.
Proof. unfold reconcileProductResourceJobs. intros Hr. tx_open. by eapply work_each_settled. Qed.
Lemma satisfy_settled resource at_ t t' : satisfyProductResourcePrerequisites resource at_ t = Ok (tt, t') -> jobs_settled t t' /\ lives_on t t'.
Proof.
  unfold satisfyProductResourcePrerequisites. intros Hs. tx_open. split.
  - eapply jobs_settled_trans; [apply prerequisites_settled|]. apply update_rows_settled. intros id job [Hw _]%andb_true_iff. by apply settled_state_settles.
  - eapply lives_on_trans; [|apply update_rows_live; intros id job _; apply waiting_live, settled_state_waiting]. by apply lives_on_same.
Qed.

Definition running_job (at_ : Z) (job : job_row) : job_row := with_job_state JobRunning (wj_progress_basis_points job) at_ (wj_terminal_error_code job) job.

Lemma claim_effect input id version t claim t' : claim_body input id version t = Ok (claim, t') ->
  exists job detail installationID entry, wt_jobs t !! id = Some job /\ wt_details t !! id = Some detail /\ wj_kind job = WorkJobResourceAcquire /\
    wj_state job = JobQueued /\ wj_installation_id job = Some installationID /\ claimed_entry (ci_Resources input) detail = Ok entry /\
    wt_attempts t !! ci_AttemptID input = None /\
    claim = mkClaim id (ci_AttemptID input) WorkJobResourceAcquire version "" (max_generation id t + 1) (ci_LeaseOwner input)
      (ci_Now input + ci_LeaseDuration input) (Some (mkResourceClaim installationID entry)) /\
    t' = with_jobs (<[id := running_job (ci_Now input) job]>)
      (with_attempts (<[ci_AttemptID input := new_attempt input id version (max_generation id t + 1)]>) t).
Proof.
  unfold claim_body. intros Hc. apply work_bind_ok in Hc as (selected & t0 & [-> ->]%work_read_ok & Hc).
  destruct (claimed_row id version t) as [[[job detail] generation]|] eqn:Es; [|by apply work_lift_ok in Hc as [? _]].
  unfold claimed_row in Es. destruct (wt_jobs t !! id) as [job0|] eqn:Ej; [|done]. cbn in Es. destruct (wt_details t !! id) as [detail0|] eqn:Ed; [|done].
  cbn in Es. destruct (_ && _) eqn:Ec in Es; [|done]. injection Es as -> -> <-. bool_prop.
  destruct (wj_installation_id job) as [installationID|] eqn:Ei; [|by apply work_lift_ok in Hc as [? _]].
  apply work_bind_ok in Hc as (entry & t0 & [He ->]%work_lift_ok & Hc). apply work_bind_ok in Hc as (u & t1 & Hi%work_write_ok & Hc).
  destruct (_ || _) eqn:En in Hi; [done|]. injection Hi as _ <-. apply orb_false_iff in En as [En _]. apply bool_decide_eq_false in En.
  apply work_bind_ok in Hc as (changed & t2 & [(row & -> & Hrow & _ & ->)|(-> & _ & _)]%update_job_ok & Hc); tx_open; [|done].
  cbn in Hrow. rewrite Ej in Hrow. injection Hrow as <-. exists job, detail, installationID, entry. split_and!; try done.
  by apply eq_None_not_Some.
Qed.

Lemma renew_effect claim now_ duration t t' : RenewWorkJobLease claim now_ duration t = Ok (tt, t') ->
  exists a, wt_attempts t !! wc_AttemptID claim = Some a /\ wa_job_id a = wc_JobID claim /\ wa_generation a = wc_Generation claim /\
    wa_lease_owner a = wc_LeaseOwner claim /\ wa_state a = AttemptRunning /\ instant_before now_ (wa_lease_expires_at a) = true /\
    3 * a_second <= duration <= 10 * 60 * a_second /\
    t' = with_attempts (<[wc_AttemptID claim := with_attempt_state AttemptRunning (now_ + duration) now_ (wa_ended_at a) (wa_diagnostics a) a]>) t.
Proof.
  unfold RenewWorkJobLease. intros Hr. apply work_bind_ok in Hr as (u & t1 & [Hg ->]%work_guard_ok & Hr).
  apply work_bind_ok in Hr as (changed & t2 & [(a & -> & Ha & Hw & ->)|(-> & _ & _)]%update_attempt_ok & Hr); tx_open; [|done].
  apply negb_true_iff in Hg. repeat (apply orb_false_iff in Hg as [Hg ?]). bool_prop. exists a. split_and!; try done; try lia.
  match goal with Hs : wa_state a = _ |- _ => by rewrite Hs end.
Qed.

(** The claim is that of the attempt that holds the lease of its job. *)
Record lease_holder (claim : WorkJobClaim) (resource : ProductResourceJobClaim) (at_ : Z) (t : work_tables) (job : job_row) (attempt : attempt_row)
    (detail : detail_row) : Prop := mkHolder {
  lh_job : wt_jobs t !! wc_JobID claim = Some job; lh_attempt : wt_attempts t !! wc_AttemptID claim = Some attempt;
  lh_detail : wt_details t !! wc_JobID claim = Some detail; lh_of : wa_job_id attempt = wc_JobID claim; lh_kind : wj_kind job = WorkJobResourceAcquire;
  lh_name : rd_catalog_entry_id detail = en_Name (rc_Entry resource); lh_digest : rd_entry_digest detail = en_EntryDigest (rc_Entry resource);
  lh_running : wj_state job = JobRunning; lh_live : wa_state attempt = AttemptRunning; lh_installation : wj_installation_id job = Some (rc_InstallationID resource);
  lh_owner : wa_lease_owner attempt = wc_LeaseOwner claim; lh_generation : wa_generation attempt = wc_Generation claim;
  lh_unexpired : at_ < wa_lease_expires_at attempt }.

Lemma verify_effect claim resource at_ t u t' : wc_Resource claim = Some resource -> verifyProductResourceAttempt claim at_ t = Ok (u, t') ->
  t' = t /\ exists job attempt detail, lease_holder claim resource at_ t job attempt detail.
Proof.
  intros Hres. unfold verifyProductResourceAttempt. rewrite Hres. intros Hv. apply work_bind_ok in Hv as (u1 & t1 & [_ ->]%work_guard_ok & Hv).
  apply work_bind_ok in Hv as (rows & t2 & [-> ->]%work_read_ok & Hv).
  destruct (attempt_rows claim resource t) as [[job attempt]|] eqn:Er; [|by apply work_lift_ok in Hv as [? _]].
  apply work_bind_ok in Hv as (u2 & t2 & [_ ->]%work_guard_ok & Hv). apply work_guard_ok in Hv as [Hh ->]. split; [done|].
  unfold attempt_rows in Er. destruct (wt_jobs t !! _) as [job0|] eqn:Ej; [|done]. cbn in Er. destruct (wt_attempts t !! _) as [attempt0|] eqn:Ea; [|done].
  cbn in Er. destruct (wt_details t !! _) as [detail|] eqn:Ed; [|done]. cbn in Er. destruct (_ && _) eqn:Ec in Er; [|done]. injection Er as -> ->.
  unfold lease_held in Hh. bool_prop. exists job, attempt, detail. by split.
Qed.

Definition finished_attempt (state : attempt_state) (at_ : Z) (diagnostics : string) (a : attempt_row) : attempt_row :=
  with_attempt_state state (wa_lease_expires_at a) at_ (Some at_) diagnostics a.

Lemma fail_effect input resource t t' : wc_Resource (fp_Claim input) = Some resource -> fail_body input resource t = Ok (tt, t') ->
  exists job attempt detail, lease_holder (fp_Claim input) resource (fp_FailedAt input) t job attempt detail /\
    wt_jobs t' = <[wc_JobID (fp_Claim input) := with_job_state JobFailed (wj_progress_basis_points job) (fp_FailedAt input) (Some (fp_Code input)) job]> (wt_jobs t) /\
    wt_attempts t' = <[wc_AttemptID (fp_Claim input) := finished_attempt AttemptFailed (fp_FailedAt input) (fp_Code input) attempt]> (wt_attempts t) /\
    wt_details t' = wt_details t /\ wt_resources t' = wt_resources t /\ wt_requests t' = wt_requests t.
Proof.
  intros Hres Hf. unfold fail_body in Hf. apply work_bind_ok in Hf as (u & t0 & Hv & Hf). apply (verify_effect _ resource) in Hv as [-> (job & attempt & detail & Hh)]; [|done].
  apply work_bind_ok in Hf as (b & t1 & Hu1 & Hf). apply work_bind_ok in Hf as (b' & t2 & Hu2 & Hf). apply work_bind_ok in Hf as (c & t3 & Ha & Hf). tx_open.
  apply append_activity_same in Ha as [(Ej & Ea & Ed & Er) Eq]. destruct Hh as [Hj Ha Hd Ho Hk Hn Hdg Hr Hl Hi How Hg Hx]. exists job, attempt, detail.
  apply update_attempt_ok in Hu1 as [(a & -> & Hrow & _ & ->)|(-> & _ & Hno)]; [|specialize (Hno _ Ha); rewrite Hl in Hno; by case_bool_decide].
  apply update_job_ok in Hu2 as [(j & -> & Hrow' & _ & ->)|(-> & _ & Hno)]; [|specialize (Hno _ Hj); rewrite Hr in Hno; by case_bool_decide].
  cbn in *. simplify_eq. split_and!; [by split|exact Ej|exact Ea|done..].
Qed.

Definition done_detail (id : string) (row : detail_row) : detail_row :=
  mkDetailRow (rd_catalog_entry_id row) (rd_resource_kind row) (rd_resource_version row) (rd_resource_profile row) (rd_entry_digest row)
    (rd_entry_json row) (rd_origin row) (rd_expected_byte_size row) (rd_expected_content_digest row) (rd_retention row) (Some id).

(** The row a completion writes: a new one, or an invalid one made ready again *)
Definition published (claim : WorkJobClaim) (resource : ProductResourceJobClaim) (id : string) (at_ : Z) (t : work_tables) (rematerializing : bool)
    (row : resource_row) : Prop :=
  if rematerializing then
    exists old, wt_resources t !! id = Some old /\ rr_state old = ResourceInvalid /\
      same_resource (rc_InstallationID resource) (en_Name (rc_Entry resource)) (en_EntryDigest (rc_Entry resource)) old = true /\
      rr_content_digest old = en_SHA256 (rc_Entry resource) /\ rr_byte_size old = en_ByteSize (rc_Entry resource) /\ row = ready_again (wc_JobID claim) at_ old
  else
    row = new_resource claim resource id at_ /\ wt_resources t !! id = None /\
    forall other old, wt_resources t !! other = Some old ->
      same_resource (rc_InstallationID resource) (en_Name (rc_Entry resource)) (en_EntryDigest (rc_Entry resource)) old = false /\
      rr_producer_job_id old <> wc_JobID claim.

Lemma publish_row_effect claim resource id (rematerializing : bool) at_ t u t' :
  (if rematerializing then (changed ← update_resource claim resource id at_; work_guard ErrProductResourceLeaseLost changed) : WorkTx unit
   else insert_resource id (new_resource claim resource id at_)) t = Ok (u, t') ->
  exists row, published claim resource id at_ t rematerializing row /\ t' = with_resources (<[id := row]>) t.
Proof.
  destruct rematerializing.
  - intros (changed & t1 & Hu%work_write_ok & [-> ->]%work_guard_ok)%work_bind_ok. destruct (wt_resources t !! id) as [old|] eqn:E; [|done].
    destruct (_ && _) eqn:Ec in Hu; [|done]. destruct (any_row _ _) in Hu; [done|]. injection Hu as <-. bool_prop.
    exists (ready_again (wc_JobID claim) at_ old). split; [|done]. exists old. split_and!; done.
  - intros Hi%work_write_ok. destruct (_ || _) eqn:Ec in Hi; [done|]. injection Hi as _ <-. apply orb_false_iff in Ec as [Ei Ea].
    exists (new_resource claim resource id at_). split; [|done]. apply bool_decide_eq_false in Ei. split_and!; [done|by apply eq_None_not_Some|].
    intros other old Ho. pose proof (any_row_false _ _ _ _ Ea Ho) as Hf. apply orb_false_iff in Hf as [Hf Hp]. apply orb_false_iff in Hf as [Hs _].
    split; [exact Hs|]. by apply bool_decide_eq_false in Hp.
Qed.

Lemma complete_effect claim resource id rematerializing eventID at_ t t' : wc_Resource claim = Some resource ->
  complete_body claim resource id rematerializing eventID at_ t = Ok (tt, t') ->
  exists job attempt detail row t1, lease_holder claim resource at_ t job attempt detail /\ published claim resource id at_ t rematerializing row /\
    wt_jobs t1 = <[wc_JobID claim := with_job_state JobSucceeded 10000 at_ None job]> (wt_jobs t) /\
    wt_attempts t1 = <[wc_AttemptID claim := finished_attempt AttemptSucceeded at_ "{}" attempt]> (wt_attempts t) /\
    wt_details t1 = <[wc_JobID claim := done_detail id detail]> (wt_details t) /\ wt_resources t1 = <[id := row]> (wt_resources t) /\
    wt_requests t1 = wt_requests t /\ exists t2, jobs_settled t1 t2 /\ same_work t2 t' /\ wt_requests t' = wt_requests t2 /\ lives_on t1 t2.
Proof.
  intros Hres Hc. unfold complete_body in Hc. apply work_bind_ok in Hc as (u & t0 & Hv & Hc).
  apply (verify_effect _ resource) in Hv as [-> (job & attempt & detail & Hh)]; [|done].
  apply work_bind_ok in Hc as (u1 & t1 & (row & Hp & ->)%publish_row_effect & Hc).
  apply work_bind_ok in Hc as (changed & t2 & Hd%work_write_ok & Hc). apply work_bind_ok in Hc as (u2 & t3 & [-> ->]%work_guard_ok & Hc).
  pose proof Hh as [Hj Ha Hd0 _ _ _ _ Hr Hl _ _ _ _]. cbn in Hd. rewrite Hd0 in Hd. case_bool_decide; [|done]. injection Hd as <-.
  apply work_bind_ok in Hc as (u3 & t4 & Hf & Hc). apply work_bind_ok in Hc as ([] & t5 & Hs & Hc). apply work_bind_ok in Hc as (c & t6 & Hact & Hc). tx_open.
  apply satisfy_settled in Hs as [Hs Hlo]. apply append_activity_same in Hact as [Hact Hq].
  unfold completeProductResourceAttempt in Hf. apply work_bind_ok in Hf as (b1 & t7 & Hu1 & Hf). apply work_bind_ok in Hf as (u4 & t8 & [-> ->]%work_guard_ok & Hf).
  apply work_bind_ok in Hf as (b2 & t9 & Hu2 & Hf). apply work_guard_ok in Hf as [-> ->].
  apply update_job_ok in Hu1 as [(j & _ & Hrow & _ & ->)|(? & _)]; [|done]. apply update_attempt_ok in Hu2 as [(a & _ & Hrow' & _ & ->)|(? & _)]; [|done].
  cbn in Hrow, Hrow'. rewrite Hj in Hrow. rewrite Ha in Hrow'. injection Hrow as <-. injection Hrow' as <-. exists job, attempt, detail, row. eexists. split_and!; [done|done|..|exists t5; by split_and!]; done.
Qed.

Lemma first_row_elem {A} (before : A -> A -> bool) rows row : first_row before rows = Some row -> row ∈ rows.
Proof.
  revert row. induction rows as [|x rest IH]; intros row; cbn; [done|]. destruct (first_row before rest) as [best|] eqn:E; [|intros [= ->]; by left].
  destruct (before best x); intros [= <-]; [right; by apply IH|by left].
Qed.

(** A job is current when its resource is ready or when it is live. *)
Definition entry_current (installationID : string) (entry : ProductResourceCatalogEntry) (t : work_tables) : Prop :=
  (exists id row, wt_resources t !! id = Some row /\ same_resource installationID (en_Name entry) (en_EntryDigest entry) row = true /\ rr_state row = ResourceReady) \/
  (exists e, e ∈ jobs_of_entry installationID entry t /\ job_live e.2 = true).

Lemma find_current_effect installationID entry t found t' : findCurrentProductResourceJob installationID entry t = Ok (found, t') ->
  t' = t /\ (is_Some found <-> entry_current installationID entry t).
Proof.
  unfold findCurrentProductResourceJob, entry_current. intros (ready & t0 & [-> ->]%work_read_ok & Hf)%work_bind_ok. destruct (find_row _ _) as [[id row]|] eqn:Er.
  { tx_open. apply find_row_some in Er as [Hid Hs]. bool_prop. split; [done|]. split; [intros _|done]. left. by exists id, row. }
  assert (~ exists id row, wt_resources t !! id = Some row /\ same_resource installationID (en_Name entry) (en_EntryDigest entry) row = true /\ rr_state row = ResourceReady) as Hno.
  { intros (id & row & Hid & Hs & Hr). pose proof (find_row_none _ _ _ _ Er Hid) as Hn. cbn in Hn. rewrite Hs, Hr in Hn. by rewrite bool_decide_true in Hn. }
  apply work_bind_ok in Hf as (live & t1 & [-> ->]%work_read_ok & Hf). destruct (first_row _ _) as [[id row]|] eqn:El; tx_open; (split; [done|]).
  - split; [intros _|done]. right. exists (id, row). by apply first_row_elem, list_elem_of_In, filter_In in El as [Hin%list_elem_of_In Hl].
  - split; [by intros [? ?]|]. intros [?|(e & He & Hl)]; [done|]. apply first_row_none in El. assert (In e []) as []. rewrite <- El. apply filter_In.
    split; [by apply list_elem_of_In|done].
Qed.
Lemma load_view_effect installationID entry t view t' : loadProductResourceView installationID entry t = Ok (view, t') ->
  t' = t /\ pv_JobID view = sj_job <$> shown_row installationID entry t.
Proof.
  unfold loadProductResourceView. intros (shown & t0 & [-> ->]%work_read_ok & Hl)%work_bind_ok. destruct (shown_row installationID entry t) as [shown|]; [|by tx_open].
  apply work_bind_ok in Hl as (u & t1 & [_ ->]%work_lift_ok & Hl). destruct (sj_state shown); tx_open; by split.
Qed.

(** A request that makes a job *)
Definition job_made (record : RequestProductResourceRecord) (t t' : work_tables) : Prop :=
  wt_jobs t !! rp_JobID record = None /\ wt_details t !! rp_JobID record = None /\
  (forall id job, wt_jobs t !! id = Some job -> job_live job = true -> wj_logical_key job <> wj_logical_key (new_resource_job record)) /\
  ~ entry_current (rp_InstallationID record) (rp_Entry record) t /\
  wt_jobs t' = <[rp_JobID record := new_resource_job record]> (wt_jobs t) /\
  wt_details t' = <[rp_JobID record := new_resource_detail (rp_Entry record)]> (wt_details t) /\
  wt_attempts t' = wt_attempts t /\ wt_resources t' = wt_resources t /\
  (sj_job <$> shown_row (rp_InstallationID record) (rp_Entry record) t') = Some (rp_JobID record).

Lemma insert_job_effect record t u t' : insertProductResourceJob record t = Ok (u, t') ->
  wt_jobs t !! rp_JobID record = None /\ wt_details t !! rp_JobID record = None /\
  (forall id job, wt_jobs t !! id = Some job -> job_live job = true -> wj_logical_key job <> wj_logical_key (new_resource_job record)) /\
  t' = with_details (<[rp_JobID record := new_resource_detail (rp_Entry record)]>) (with_jobs (<[rp_JobID record := new_resource_job record]>) t).
Proof.
  unfold insertProductResourceJob. intros (u1 & t1 & Hi%work_write_ok & (u2 & t2 & Hd%work_write_ok & Ho%work_exec_ok)%work_bind_ok)%work_bind_ok.
  destruct (_ || _) eqn:Ei in Hi; [done|]. injection Hi as _ <-. case_bool_decide as Ed; [done|]. injection Hd as _ <-. cbn in *.
  apply orb_false_iff in Ei as [Ej Ea]. apply bool_decide_eq_false in Ej. split_and!; [by apply eq_None_not_Some..| |by rewrite Ho].
  intros id job Hid Hl. pose proof (any_row_false _ _ _ _ Ea Hid) as Hf. cbn in Hf. rewrite Hl in Hf. by apply bool_decide_eq_false in Hf.
Qed.

Lemma request_effect record t outcome t' : request_body record t = Ok (outcome, t') ->
  (same_work t t' /\ (is_Some (wt_requests t !! (rp_InstallationID record, rp_RequestID record)) \/ entry_current (rp_InstallationID record) (rp_Entry record) t)) \/
  job_made record t t'.
Proof.
  unfold request_body. intros (stored & t0 & [-> ->]%work_read_ok & Hr)%work_bind_ok. destruct (wt_requests t !! _) as [row|].
  { left. apply work_bind_ok in Hr as (u & t1 & [_ ->]%work_guard_ok & Hr). apply work_bind_ok in Hr as (view & t2 & [-> _]%load_view_effect & Hr).
    apply work_bind_ok in Hr as (u1 & t3 & [_ ->]%work_guard_ok & Hr). apply work_bind_ok in Hr as (cursor & t3 & [-> ->]%work_read_ok & Hr).
    destruct (wt_outbox t !! _); tx_open; [|done]. split; [by split_and!|by left]. }
  apply work_bind_ok in Hr as (found & t1 & [-> Hfound]%find_current_effect & Hr). apply work_bind_ok in Hr as (jobID & t2 & Hj & Hr).
  apply work_bind_ok in Hr as (u & t3 & Hw%work_write_ok & Hr). apply work_bind_ok in Hr as (cursor & t4 & Ha & Hr).
  apply work_bind_ok in Hr as (view & t5 & [-> Hv]%load_view_effect & Hr). apply work_bind_ok in Hr as (u1 & t6 & [Hg ->]%work_guard_ok & Hr). tx_open.
  destruct (wt_requests t2 !! _); [done|]. injection Hw as _ <-. apply append_activity_same in Ha as [(Ej & Ea & Ed & Er) _]. cbn in Ej, Ea, Ed, Er.
  destruct found as [id|]; tx_open; [left; split; [by split_and!|right; by apply Hfound]|]. right. apply bool_decide_eq_true in Hg. rewrite Hv in Hg.
  match goal with Hi : insertProductResourceJob _ _ = _ |- _ => apply insert_job_effect in Hi as (H1' & H2' & H3' & ->) end.
  split_and!; try done. intros [? ?]%Hfound. done.
Qed.

Lemma invalidate_effect id t t' : invalidate_resource id t = Ok (tt, t') ->
  wt_jobs t' = wt_jobs t /\ wt_attempts t' = wt_attempts t /\ wt_details t' = wt_details t /\ wt_requests t' = wt_requests t /\
  forall other, option_Forall2 invalidates (wt_resources t !! other) (wt_resources t' !! other).
Proof.
  unfold invalidate_resource. intros ->%work_exec_ok. split_and!; [done..|]. intros other. cbn. rewrite update_rows_lookup.
  destruct (wt_resources t !! other) as [row|]; constructor. destruct (_ && _) eqn:E; [right|by left]. bool_prop. done.
Qed.

(** ** Leases *)

Record leases_ok (t : work_tables) : Prop := mkLeasesOk {
  lo_known : forall i a, wt_attempts t !! i = Some a -> is_Some (wt_jobs t !! wa_job_id a);
  lo_single : forall i j a b, resource_job t (wa_job_id a) -> wt_attempts t !! i = Some a -> wt_attempts t !! j = Some b ->
    wa_job_id a = wa_job_id b -> attempt_live a = true -> attempt_live b = true -> i = j;
  lo_generations : forall i j a b, resource_job t (wa_job_id a) -> wt_attempts t !! i = Some a -> wt_attempts t !! j = Some b ->
    wa_job_id a = wa_job_id b -> wa_generation a = wa_generation b -> i = j;
  lo_range : forall i a, resource_job t (wa_job_id a) -> wt_attempts t !! i = Some a -> 1 <= wa_generation a <= attempt_limit;
  lo_latest : forall i j a b, resource_job t (wa_job_id a) -> wt_attempts t !! i = Some a -> wt_attempts t !! j = Some b ->
    wa_job_id a = wa_job_id b -> attempt_live a = true -> wa_generation b <= wa_generation a;
  lo_running : forall k job, wt_jobs t !! k = Some job -> wj_kind job = WorkJobResourceAcquire ->
    (wj_state job = JobRunning <-> exists i a, wt_attempts t !! i = Some a /\ wa_job_id a = k /\ attempt_live a = true);
  lo_waiting : forall k job i a, wt_jobs t !! k = Some job -> wj_kind job = WorkJobResourceAcquire -> job_waiting job = true ->
    wt_attempts t !! i = Some a -> wa_job_id a = k -> wa_generation a < attempt_limit }.

(** An attempt stays that of its job and does not come back to life. *)
Definition attempt_moves (a a' : attempt_row) : Prop :=
  wa_job_id a' = wa_job_id a /\ wa_generation a' = wa_generation a /\ (attempt_live a' = true -> attempt_live a = true).
Definition attempts_move (t t' : work_tables) : Prop := forall i, option_Forall2 attempt_moves (wt_attempts t !! i) (wt_attempts t' !! i).
Definition kinds_kept (t t' : work_tables) : Prop := forall k, option_Forall2 (fun j j' => wj_kind j' = wj_kind j) (wt_jobs t !! k) (wt_jobs t' !! k).

Lemma moved_back t t' i a' : attempts_move t t' -> wt_attempts t' !! i = Some a' -> exists a, wt_attempts t !! i = Some a /\ attempt_moves a a'.
Proof. intros Hm Ha. specialize (Hm i). rewrite Ha in Hm. inversion Hm as [a ? Hx|]; subst. by exists a. Qed.
Lemma kept_back t t' k job' : kinds_kept t t' -> wt_jobs t' !! k = Some job' -> exists job, wt_jobs t !! k = Some job /\ wj_kind job' = wj_kind job.
Proof. intros Hk Hj. specialize (Hk k). rewrite Hj in Hk. inversion Hk as [job ? Hx|]; subst. by exists job. Qed.
Lemma kept_resource_job t t' k : kinds_kept t t' -> resource_job t' k -> resource_job t k.
Proof. intros Hk (job' & Hj & Hkind). destruct (kept_back _ _ _ _ Hk Hj) as (job & ? & ?). exists job. split; [done|congruence]. Qed.

(** The attempts move; what is left is how the states of jobs follow. *)
Lemma leases_moved t t' : leases_ok t -> attempts_move t t' -> kinds_kept t t' ->
  (forall k job, wt_jobs t' !! k = Some job -> wj_kind job = WorkJobResourceAcquire ->
    (wj_state job = JobRunning <-> exists i a, wt_attempts t' !! i = Some a /\ wa_job_id a = k /\ attempt_live a = true)) ->
  (forall k job i a, wt_jobs t' !! k = Some job -> wj_kind job = WorkJobResourceAcquire -> job_waiting job = true ->
    wt_attempts t' !! i = Some a -> wa_job_id a = k -> wa_generation a < attempt_limit) -> leases_ok t'.
Proof.
  intros Hl Hm Hk Hr Hw. split; [..|done|done].
  - intros i a' (a & Ha & Hj & _)%(moved_back _ _ _ _ Hm). rewrite Hj. destruct (lo_known t Hl i a Ha) as [job Hjob]. specialize (Hk (wa_job_id a)).
    rewrite Hjob in Hk. inversion Hk; subst. by eexists.
  - intros i j a' b' Hres (a & Ha & Hja & Hga & Hla)%(moved_back _ _ _ _ Hm) (b & Hb & Hjb & Hgb & Hlb)%(moved_back _ _ _ _ Hm) Hab H1' H2'.
    apply (lo_single t Hl i j a b); [rewrite <- Hja; by apply (kept_resource_job t t')|done|done|congruence|auto|auto].
  - intros i j a' b' Hres (a & Ha & Hja & Hga & Hla)%(moved_back _ _ _ _ Hm) (b & Hb & Hjb & Hgb & Hlb)%(moved_back _ _ _ _ Hm) Hab Hg.
    apply (lo_generations t Hl i j a b); [rewrite <- Hja; by apply (kept_resource_job t t')|congruence..].
  - intros i a' Hres (a & Ha & Hja & Hga & Hla)%(moved_back _ _ _ _ Hm). rewrite Hga. apply (lo_range t Hl i a); [|done]. rewrite <- Hja.
    by apply (kept_resource_job t t').
  - intros i j a' b' Hres (a & Ha & Hja & Hga & Hla)%(moved_back _ _ _ _ Hm) (b & Hb & Hjb & Hgb & Hlb)%(moved_back _ _ _ _ Hm) Hab H1'. rewrite Hga, Hgb.
    apply (lo_latest t Hl i j a b); [rewrite <- Hja; by apply (kept_resource_job t t')|done|done|congruence|auto].
Qed.

Lemma attempts_move_same t t' : wt_attempts t' = wt_attempts t -> attempts_move t t'.
Proof. intros E i. rewrite E. destruct (wt_attempts t !! i); constructor. by split_and!. Qed.
Lemma attempts_move_insert t t' id a a' : wt_attempts t !! id = Some a -> attempt_moves a a' -> wt_attempts t' = <[id := a']> (wt_attempts t) -> attempts_move t t'.
Proof.
  intros Ha Hm E i. rewrite E. destruct (decide (i = id)) as [->|Hne]; [rewrite Ha, lookup_insert_eq; by constructor|].
  rewrite lookup_insert_ne by done. destruct (wt_attempts t !! i); constructor. by split_and!.
Qed.
Lemma kinds_kept_same t t' : wt_jobs t' = wt_jobs t -> kinds_kept t t'.
Proof. intros E k. rewrite E. destruct (wt_jobs t !! k); by constructor. Qed.
Lemma kinds_kept_insert t t' id job job' : wt_jobs t !! id = Some job -> wj_kind job' = wj_kind job -> wt_jobs t' = <[id := job']> (wt_jobs t) -> kinds_kept t t'.
Proof.
  intros Hj Hk E k. rewrite E. destruct (decide (k = id)) as [->|Hne]; [rewrite Hj, lookup_insert_eq; by constructor|].
  rewrite lookup_insert_ne by done. destruct (wt_jobs t !! k); by constructor.
Qed.

Lemma leases_same t t' : same_work t t' -> leases_ok t -> leases_ok t'.
Proof.
  intros (Ej & Ea & _ & _) Hl. apply (leases_moved t); [done|by apply attempts_move_same|by apply kinds_kept_same| |]; rewrite Ej, Ea; apply Hl.
Qed.

Lemma leases_settled t t' : jobs_settled t t' -> leases_ok t -> leases_ok t'.
Proof.
  intros (Ea & _ & _ & _ & Hj) Hl.
  assert (forall k job', wt_jobs t' !! k = Some job' -> exists job, wt_jobs t !! k = Some job /\ settles job job') as Hback.
  { intros k job' Hjob'. specialize (Hj k). rewrite Hjob' in Hj. inversion Hj as [job ? Hs|]; subst. by exists job. }
  apply (leases_moved t); [done|by apply attempts_move_same| | |].
  - intros k. destruct (Hj k) as [j j' [->|((Hk & _) & _)]|]; by constructor.
  - intros k job' (job & Hjob & [->|((Hk & _) & Hw & Hw')])%Hback Hkind; rewrite Ea; [by apply (lo_running t Hl)|].
    rewrite <- (lo_running t Hl k job); [|done|congruence]. unfold job_waiting in Hw, Hw'.
    destruct (wj_state job), (wj_state job'), Hw'; try done.
  - intros k job' i a (job & Hjob & Hs)%Hback Hkind Hw. rewrite Ea. destruct Hs as [->|((Hk & _) & Hw0 & _)]; [exact (lo_waiting t Hl k job i a Hjob Hkind Hw)|].
    apply (lo_waiting t Hl k job i a); [done|congruence|done].
Qed.

(** The holder of a lease ends its attempt and its job. *)
Lemma leases_finished claim resource at_ t t' job attempt detail job' attempt' :
  lease_holder claim resource at_ t job attempt detail -> wj_kind job' = wj_kind job -> job_live job' = false ->
  attempt_live attempt' = false -> wa_job_id attempt' = wa_job_id attempt -> wa_generation attempt' = wa_generation attempt ->
  wt_jobs t' = <[wc_JobID claim := job']> (wt_jobs t) -> wt_attempts t' = <[wc_AttemptID claim := attempt']> (wt_attempts t) -> leases_ok t -> leases_ok t'.
Proof.
  intros [Hj Ha Hd Ho Hk Hn Hdg Hr Hlv Hi How Hg Hx] Hkind Hdead Hend Ejob Egen Ej Ea Hl. set (k := wc_JobID claim) in *.
  assert (attempt_live attempt = true) as Hlive by (unfold attempt_live; by rewrite Hlv).
  assert (resource_job t k) as Hres by (by exists job).
  apply (leases_moved t); [done|apply (attempts_move_insert t t' (wc_AttemptID claim) attempt attempt'); [done| |done]|
    apply (kinds_kept_insert t t' k job job'); done| |].
  - split_and!; [done..|]. by rewrite Hend.
  - intros k' j' Hj' Hk'. rewrite Ej in Hj'. rewrite Ea. destruct (decide (k' = k)) as [->|Hne].
    + rewrite lookup_insert_eq in Hj'. injection Hj' as <-. split; [unfold job_live in Hdead; by destruct (wj_state job')|].
      intros (i & a & Hia & Hja & Hlva). exfalso. destruct (decide (i = wc_AttemptID claim)) as [->|Hni].
      * rewrite lookup_insert_eq in Hia. injection Hia as <-. congruence.
      * rewrite lookup_insert_ne in Hia by done. apply Hni. apply (lo_single t Hl i (wc_AttemptID claim) a attempt); [by rewrite Hja|done|done|congruence|done|done].
    + rewrite lookup_insert_ne in Hj' by done. rewrite (lo_running t Hl k' j' Hj' Hk'). split; intros (i & a & Hia & Hja & Hlva); exists i, a.
      * split; [|done]. rewrite lookup_insert_ne; [done|]. intros <-. congruence.
      * split; [|done]. destruct (decide (i = wc_AttemptID claim)) as [->|Hni]; [rewrite lookup_insert_eq in Hia; injection Hia as <-; congruence|].
        by rewrite lookup_insert_ne in Hia.
  - intros k' j' i a Hj' Hk' Hw Hia Hja. rewrite Ej in Hj'. rewrite Ea in Hia. destruct (decide (k' = k)) as [->|Hne].
    + rewrite lookup_insert_eq in Hj'. injection Hj' as <-. unfold job_live in Hdead. unfold job_waiting in Hw. by destruct (wj_state job').
    + rewrite lookup_insert_ne in Hj' by done. destruct (decide (i = wc_AttemptID claim)) as [->|Hni].
      * rewrite lookup_insert_eq in Hia. injection Hia as <-. congruence.
      * rewrite lookup_insert_ne in Hia by done. by apply (lo_waiting t Hl k' j' i a).
Qed.

Lemma leases_complete claim resource id rematerializing eventID at_ t t' : wc_Resource claim = Some resource ->
  complete_body claim resource id rematerializing eventID at_ t = Ok (tt, t') -> leases_ok t -> leases_ok t'.
Proof.
  intros Hres (job & attempt & detail & row & t1 & Hh & _ & Ej & Ea & _ & _ & _ & t2 & Hs & Hsame & _)%(complete_effect _ _ _ _ _ _ _ _ Hres) Hl.
  apply (leases_same t2); [done|]. apply (leases_settled t1); [done|]. eapply (leases_finished claim resource at_ t t1 job attempt detail); [exact Hh|..|exact Ej|exact Ea|exact Hl]; done.
Qed.
Lemma leases_fail input resource t t' : wc_Resource (fp_Claim input) = Some resource -> fail_body input resource t = Ok (tt, t') -> leases_ok t -> leases_ok t'.
Proof.
  intros Hres (job & attempt & detail & Hh & Ej & Ea & _ & _ & _)%(fail_effect _ _ _ _ Hres) Hl.
  eapply (leases_finished _ _ _ t t' job attempt detail); [exact Hh|..|exact Ej|exact Ea|exact Hl]; done.
Qed.

Lemma leases_renew claim now_ duration t t' : RenewWorkJobLease claim now_ duration t = Ok (tt, t') -> leases_ok t -> leases_ok t'.
Proof.
  intros (a & Ha & Hj & Hg & Ho & Hs & _ & _ & ->)%renew_effect Hl. set (a' := with_attempt_state AttemptRunning _ _ _ _ a).
  assert (attempt_live a = true) as Hlive by (unfold attempt_live; by rewrite Hs).
  assert (attempts_move t (with_attempts (<[wc_AttemptID claim := a']>) t)) as Hm by (by apply (attempts_move_insert t _ (wc_AttemptID claim) a a')).
  apply (leases_moved t); [done|done|by apply kinds_kept_same| |].
  - intros k job Hjob Hk. rewrite (lo_running t Hl k job Hjob Hk). cbn. split; intros (i & b & Hib & Hjb & Hlb).
    + destruct (decide (i = wc_AttemptID claim)) as [->|Hne]; [|exists i, b; by rewrite lookup_insert_ne].
      exists (wc_AttemptID claim), a'. rewrite lookup_insert_eq. split_and!; [done| |done]. cbn. congruence.
    + destruct (moved_back _ _ _ _ Hm Hib) as (b0 & Hb0 & Hj0 & _ & Hl0). exists i, b0. split_and!; [done|congruence|auto].
  - intros k job i b Hjob Hk Hw Hib Hjb. destruct (moved_back _ _ _ _ Hm Hib) as (b0 & Hb0 & Hj0 & -> & _). apply (lo_waiting t Hl k job i b0); [done..|congruence].
Qed.




Definition abandoned (now_ : Z) (a : attempt_row) : attempt_row :=
  with_attempt_state AttemptAbandoned (wa_lease_expires_at a) (wa_heartbeat_at a) (Some now_) "lease-expired" a.

(** Recovery abandons the attempts whose lease is over, then takes back the running
    jobs that have no attempt left. *)
Lemma recover_effect now_ t t' : recoverExpiredWorkAttempts now_ t = Ok (tt, t') ->
  wt_details t' = wt_details t /\ wt_resources t' = wt_resources t /\ wt_requests t' = wt_requests t /\
  (forall i, wt_attempts t' !! i = (fun a => if lease_over now_ a then abandoned now_ a else a) <$> wt_attempts t !! i) /\
  (forall k, wt_jobs t' !! k = (fun job => if bool_decide (wj_state job = JobRunning) && negb (has_live_attempt k t')
     then recovered_job now_ (max_generation k t') job else job) <$> wt_jobs t !! k).
Proof.
  unfold recoverExpiredWorkAttempts. intros Hr. apply work_bind_ok in Hr as (u & t1 & ->%work_exec_ok & Hr).
  apply work_bind_ok in Hr as (u2 & t2 & ->%work_exec_ok & ->%work_exec_ok). split_and!; [done..| |].
  - intros i. cbn. by rewrite update_rows_lookup.
  - intros k. cbn. by rewrite update_rows_lookup.
Qed.

Lemma abandoned_moves now_ t t' :
  (forall i, wt_attempts t' !! i = (fun a => if lease_over now_ a then abandoned now_ a else a) <$> wt_attempts t !! i) -> attempts_move t t'.
Proof. intros Ha i. rewrite Ha. destruct (wt_attempts t !! i) as [a|]; constructor. by destruct (lease_over now_ a). Qed.

Lemma recovered_state now_ generations job : wj_state (recovered_job now_ generations job) <> JobRunning.
Proof. unfold recovered_job. cbn. by repeat case_match. Qed.

Lemma leases_recover now_ t t' : recoverExpiredWorkAttempts now_ t = Ok (tt, t') -> leases_ok t -> leases_ok t'.
Proof.
  intros (_ & _ & _ & Ha & Hj)%recover_effect Hl. pose proof (abandoned_moves _ _ _ Ha) as Hm.
  assert (kinds_kept t t') as Hk. { intros k. rewrite Hj. destruct (wt_jobs t !! k) as [job|]; constructor. by destruct (_ && _). }
  assert (forall k job', wt_jobs t' !! k = Some job' -> exists job, wt_jobs t !! k = Some job /\
    job' = if bool_decide (wj_state job = JobRunning) && negb (has_live_attempt k t') then recovered_job now_ (max_generation k t') job else job) as Hback.
  { intros k job' Hjob'. rewrite Hj in Hjob'. destruct (wt_jobs t !! k) as [job|]; [|done]. injection Hjob' as <-. by exists job. }
  apply (leases_moved t); [done..| |].
  - intros k job' (job & Hjob & ->)%Hback Hkind. rewrite <- (has_live_attempt_spec k t').
    assert (wj_kind job = WorkJobResourceAcquire) as Hkind0 by (by destruct (_ && _) in Hkind).
    pose proof (lo_running t Hl k job Hjob Hkind0) as Hrun. destruct (has_live_attempt k t') eqn:El.
    + rewrite andb_false_r. split; [done|]. intros _. apply Hrun. apply has_live_attempt_spec in El as (i & a' & Hia & Hja & Hla).
      destruct (moved_back _ _ _ _ Hm Hia) as (a & Ha0 & Hja0 & _ & Hla0). exists i, a. split_and!; [done|congruence|auto].
    + rewrite andb_true_r. split; [|done]. case_bool_decide as Hs; [intros Hr; by apply recovered_state in Hr|done].
  - intros k job' i a' (job & Hjob & ->)%Hback Hkind Hw Hia Hja. destruct (moved_back _ _ _ _ Hm Hia) as (a & Ha0 & Hja0 & Hg & _). rewrite Hg.
    assert (wj_kind job = WorkJobResourceAcquire) as Hkind0 by (by destruct (_ && _) in Hkind). destruct (_ && _) eqn:E in Hw; [|apply (lo_waiting t Hl k job i a); [done..|congruence]].
    destruct (max_generation_spec k t') as (_ & Hmax & _). specialize (Hmax i a' Hia Hja). rewrite Hg in Hmax.
    unfold recovered_job, job_waiting in Hw. cbn in Hw. destruct (wj_cancellation_requested job); [done|].
    destruct (attempt_limit <=? max_generation k t') eqn:Em; [done|]. apply Z.leb_gt in Em. lia.
Qed.

(** A queued job has no attempt under way and generations left. *)
Lemma queued_room t id job : leases_ok t -> wt_jobs t !! id = Some job -> wj_kind job = WorkJobResourceAcquire -> wj_state job = JobQueued ->
  (forall i a, wt_attempts t !! i = Some a -> wa_job_id a = id -> attempt_live a = false) /\ max_generation id t < attempt_limit.
Proof.
  intros Hl Hj Hk Hs. split.
  - intros i a Hia Hja. destruct (attempt_live a) eqn:E; [|done]. assert (wj_state job = JobRunning) as Hr; [|congruence].
    apply (lo_running t Hl id job Hj Hk). by exists i, a.
  - destruct (max_generation_spec id t) as (_ & _ & [->|(i & a & Hia & Hja & <-)]); [done|]. apply (lo_waiting t Hl id job i a); try done.
    unfold job_waiting. by rewrite Hs.
Qed.

Lemma leases_claim input id version t claim t' : claim_body input id version t = Ok (claim, t') -> leases_ok t -> leases_ok t'.
Proof.
  intros (job & detail & inst & entry & Hj & Hd & Hk & Hs & Hi & He & Hnew & -> & ->)%claim_effect Hl. set (fresh := new_attempt _ _ _ _).
  destruct (queued_room t id job Hl Hj Hk Hs) as (Hnone & Hlim). destruct (max_generation_spec id t) as (Hm0 & Hmax & _).
  assert (forall k, resource_job (with_jobs (<[id := running_job (ci_Now input) job]>) (with_attempts (<[ci_AttemptID input := fresh]>) t)) k -> resource_job t k) as Hres.
  { intros k. apply kept_resource_job. by apply (kinds_kept_insert t _ id job (running_job (ci_Now input) job)). }
  assert (forall i a, (<[ci_AttemptID input := fresh]> (wt_attempts t)) !! i = Some a -> (i = ci_AttemptID input /\ a = fresh) \/ (i <> ci_AttemptID input /\ wt_attempts t !! i = Some a)) as Hcase.
  { intros i a Hia. destruct (decide (i = ci_AttemptID input)) as [->|Hne]; [left; rewrite lookup_insert_eq in Hia; by injection Hia as <-|right; by rewrite lookup_insert_ne in Hia]. }
  split; cbn [wt_jobs wt_attempts with_jobs with_attempts].
  - intros i a Hia. rewrite lookup_insert_is_Some'. apply Hcase in Hia as [[-> ->]|[_ Hia]]; [by left|right; by apply (lo_known t Hl i)].
  - intros i j a b Hr%Hres [[-> ->]|[Hi' Hia]]%Hcase [[-> ->]|[Hj' Hjb]]%Hcase Hab Hla Hlb; [done|cbn in Hab; by rewrite (Hnone j b) in Hlb|cbn in Hab; by rewrite (Hnone i a) in Hla|].
    by apply (lo_single t Hl i j a b).
  - intros i j a b Hr%Hres [[-> ->]|[Hi' Hia]]%Hcase [[-> ->]|[Hj' Hjb]]%Hcase Hab Hg; cbn in Hab, Hg; [done| | |by apply (lo_generations t Hl i j a b)].
    + specialize (Hmax j b Hjb (eq_sym Hab)). lia.
    + specialize (Hmax i a Hia Hab). lia.
  - intros i a Hr%Hres [[-> ->]|[Hi' Hia]]%Hcase; [cbn; lia|by apply (lo_range t Hl i a)].
  - intros i j a b Hr%Hres [[-> ->]|[Hi' Hia]]%Hcase [[-> ->]|[Hj' Hjb]]%Hcase Hab Hla; cbn in Hab; [done| |cbn in Hab; by rewrite (Hnone i a) in Hla|by apply (lo_latest t Hl i j a b)].
    specialize (Hmax j b Hjb (eq_sym Hab)). cbn. lia.
  - intros k job' Hjob' Hkind. destruct (decide (k = id)) as [->|Hne].
    + rewrite lookup_insert_eq in Hjob'. injection Hjob' as <-. split; [|done]. intros _. exists (ci_AttemptID input), fresh. by rewrite lookup_insert_eq.
    + rewrite lookup_insert_ne in Hjob' by done. rewrite (lo_running t Hl k job' Hjob' Hkind). split; intros (i & a & Hia & Hja & Hla); exists i, a.
      * split; [|done]. rewrite lookup_insert_ne; [done|]. intros <-. congruence.
      * apply Hcase in Hia as [[-> ->]|[_ Hia]]; [by cbn in Hja|done].
  - intros k job' i a Hjob' Hkind Hw [[-> ->]|[_ Hia]]%Hcase Hja; (destruct (decide (k = id)) as [->|Hne]; [rewrite lookup_insert_eq in Hjob'; by injection Hjob' as <-|]).
    + by cbn in Hja.
    + rewrite lookup_insert_ne in Hjob' by done. by apply (lo_waiting t Hl k job' i a).
Qed.



Lemma leases_made record t t' : job_made record t t' -> leases_ok t -> leases_ok t'.
Proof.
  intros (Hnew & _ & _ & _ & Ej & _ & Ea & _) Hl. set (k0 := rp_JobID record) in *.
  assert (forall i a, wt_attempts t !! i = Some a -> wa_job_id a <> k0) as Hother.
  { intros i a Hia Hj. destruct (lo_known t Hl i a Hia) as [job Hjob]. congruence. }
  assert (forall k, k <> k0 -> wt_jobs t' !! k = wt_jobs t !! k) as Hsame by (intros k Hk; rewrite Ej; by apply lookup_insert_ne).
  assert (forall i a, wt_attempts t !! i = Some a -> resource_job t' (wa_job_id a) -> resource_job t (wa_job_id a)) as Hres.
  { intros i a Hia (job & Hjob & Hk). exists job. by rewrite Hsame in Hjob by (by apply (Hother i)). }
  split; rewrite Ea.
  - intros i a Hia. rewrite Hsame by (by apply (Hother i)). by apply (lo_known t Hl i).
  - intros i j a b Hr Hia. apply (lo_single t Hl); eauto.
  - intros i j a b Hr Hia. apply (lo_generations t Hl); eauto.
  - intros i a Hr Hia. apply (lo_range t Hl i); eauto.
  - intros i j a b Hr Hia. apply (lo_latest t Hl i j); eauto.
  - intros k job Hjob Hk. destruct (decide (k = k0)) as [->|Hne]; [|rewrite Hsame in Hjob by done; exact (lo_running t Hl k job Hjob Hk)].
    rewrite Ej, lookup_insert_eq in Hjob. injection Hjob as <-. split; [done|]. intros (i & a & Hia & Hja & _). by destruct (Hother i a Hia).
  - intros k job i a Hjob Hk Hw Hia Hja. rewrite Hsame in Hjob by (subst k; by apply (Hother i)). by apply (lo_waiting t Hl k job i a).
Qed.

Lemma beside_resource_job t t' k : beside t t' -> (resource_job t' k <-> resource_job t k).
Proof. intros [Hj _]. split; intros (job & Hjob & Hk); exists job; (split; [|done]); by apply (Hj k job Hk). Qed.

Lemma leases_beside t t' : beside t t' -> leases_ok t -> leases_ok t'.
Proof.
  intros Hb Hl. pose proof (fun k => beside_resource_job t t' k Hb) as Hres. destruct Hb as (Hj & Ha & Hknown & _).
  assert (forall i a, wt_attempts t' !! i = Some a -> resource_job t' (wa_job_id a) -> wt_attempts t !! i = Some a) as Hback.
  { intros i a Hia Hr%Hres. by apply Ha. }
  split; [exact Hknown|..].
  - intros i j a b Hr Hia Hjb Hab. assert (resource_job t' (wa_job_id b)) by (by rewrite <- Hab). apply (lo_single t Hl); [by apply Hres|auto..].
  - intros i j a b Hr Hia Hjb Hab. assert (resource_job t' (wa_job_id b)) by (by rewrite <- Hab). apply (lo_generations t Hl); [by apply Hres|auto..].
  - intros i a Hr Hia. apply (lo_range t Hl i); [by apply Hres|auto].
  - intros i j a b Hr Hia Hjb Hab. assert (resource_job t' (wa_job_id b)) by (by rewrite <- Hab). apply (lo_latest t Hl i j); [by apply Hres|auto..].
  - intros k job Hjob Hk. assert (resource_job t' k) as Hr by (by exists job). apply (Hj k job Hk) in Hjob.
    rewrite (lo_running t Hl k job Hjob Hk). split; intros (i & a & Hia & Hja & Hla); exists i, a; (split; [|done]).
    + apply Ha; [|done]. rewrite Hja. by apply Hres.
    + apply Hback; [done|]. by rewrite Hja.
  - intros k job i a Hjob Hk Hw Hia Hja. assert (resource_job t' k) as Hr by (by exists job). apply (Hj k job Hk) in Hjob.
    apply (lo_waiting t Hl k job i a); [done..| |done]. apply Hback; [done|]. by rewrite Hja.
Qed.

Lemma leases_step t t' : work_step t t' -> leases_ok t -> leases_ok t'.
Proof.
  intros [now_ Hs|version resources now_ Hs|record outcome Hs|input id version claim Hs|claim now_ duration Hs|claim resource id b eventID at_ Hres Hs|input resource Hres Hs|id Hs|now_ Hs|Hs].
  - by apply (leases_recover now_).
  - by apply leases_settled, (reconcile_settled version resources now_).
  - apply request_effect in Hs as [[Hs _]|Hs]; [by apply leases_same|by apply (leases_made record)].
  - by apply (leases_claim input id version t claim).
  - by apply (leases_renew claim now_ duration).
  - by apply (leases_complete claim resource id b eventID at_).
  - by apply (leases_fail input resource).
  - apply invalidate_effect in Hs as (Ej & Ea & _). intros Hl.
    apply (leases_moved t); [done|by apply attempts_move_same|by apply kinds_kept_same| |]; rewrite Ej, Ea; apply Hl.
  - by apply leases_settled, (requeue_settled now_).
  - by apply leases_beside.
Qed.

Lemma no_work_leases : leases_ok no_work.
Proof. split; intros; by rewrite ?lookup_empty in *; try done; match goal with Hx : ∅ !! _ = Some _ |- _ => by rewrite lookup_empty in Hx end. Qed.
Lemma reachable_leases t : work_reachable t -> leases_ok t.
Proof. apply (rtc_ind_r leases_ok); [exact no_work_leases|]. intros x y _ Hs. by apply leases_step. Qed.

(** A finished job keeps its row. *)
Lemma finished_step t t' k job : work_step t t' -> wt_jobs t !! k = Some job -> wj_kind job = WorkJobResourceAcquire -> job_live job = false ->
  wt_jobs t' !! k = Some job.
Proof.
  intros Hstep Hj Hk Hd.
  assert (forall t1 t2, wt_jobs t1 !! k = Some job -> jobs_settled t1 t2 -> wt_jobs t2 !! k = Some job) as Hsettled.
  { intros t1 t2 H1' (_ & _ & _ & _ & Hs). specialize (Hs k). rewrite H1' in Hs. inversion Hs as [? job2 Hx E1 E2|]; subst. symmetry.
    destruct Hx as [->|(_ & Hw & _)]; [done|]. unfold job_live in Hd. unfold job_waiting in Hw. by destruct (wj_state job). }
  assert (forall id (row row' : job_row), wt_jobs t !! id = Some row -> job_live row = true -> <[id := row']> (wt_jobs t) !! k = Some job) as Hinsert.
  { intros id row row' Hrow Hlive. rewrite lookup_insert_ne; [done|]. intros ->. congruence. }
  destruct Hstep as [now_ Hs|version resources now_ Hs|record outcome Hs|input id version claim Hs|claim now_ duration Hs|claim resource id b eventID at_ Hres Hs|input resource Hres Hs|id Hs|now_ Hs|[Hs _]].
  - apply recover_effect in Hs as (_ & _ & _ & _ & ->). rewrite Hj. cbn. unfold job_live in Hd. by destruct (wj_state job).
  - eapply Hsettled; [done|by eapply reconcile_settled].
  - apply request_effect in Hs as [[(-> & _) _]|(Hnew & _ & _ & _ & -> & _)]; [done|]. rewrite lookup_insert_ne; [done|]. intros <-. congruence.
  - apply claim_effect in Hs as (row & _ & _ & _ & Hrow & _ & _ & Hq & _ & _ & _ & _ & ->). apply (Hinsert _ row); [done|]. unfold job_live. by rewrite Hq.
  - apply renew_effect in Hs as (a & _ & _ & _ & _ & _ & _ & _ & ->). done.
  - apply complete_effect in Hs as (row & a & d & r & t1 & Hh & _ & Ej & _ & _ & _ & _ & t2 & Hs & (-> & _) & _); [|done].
    eapply Hsettled; [|exact Hs]. rewrite Ej. apply (Hinsert _ row); [apply Hh|]. unfold job_live. by rewrite (lh_running _ _ _ _ _ _ _ Hh).
  - apply fail_effect in Hs as (row & a & d & Hh & -> & _); [|done]. apply (Hinsert _ row); [apply Hh|]. unfold job_live. by rewrite (lh_running _ _ _ _ _ _ _ Hh).
  - apply invalidate_effect in Hs as (-> & _). done.
  - eapply Hsettled; [done|by eapply requeue_settled].
  - by apply (Hs k job Hk).
Qed.
Lemma finished_forever t t' k job : rtc work_step t t' -> wt_jobs t !! k = Some job -> wj_kind job = WorkJobResourceAcquire -> job_live job = false ->
  wt_jobs t' !! k = Some job.
Proof. intros Hr Hj Hk Hd. induction Hr as [|t t1 t2 Hs Hr IH]; [done|]. apply IH. by eapply finished_step. Qed.

(** A claim ends its attempt and its job, with success or not. *)
Inductive finishes (claim : WorkJobClaim) (at_ : Z) (t t' : work_tables) : Prop :=
| FinishComplete resource id rematerializing eventID : wc_Resource claim = Some resource ->
    complete_body claim resource id rematerializing eventID at_ t = Ok (tt, t') -> finishes claim at_ t t'
| FinishFail input resource : fp_Claim input = claim -> fp_FailedAt input = at_ -> wc_Resource claim = Some resource ->
    fail_body input resource t = Ok (tt, t') -> finishes claim at_ t t'.

Lemma finishes_effect claim at_ t t' : finishes claim at_ t t' ->
  work_step t t' /\ exists resource job attempt detail, lease_holder claim resource at_ t job attempt detail /\
    exists job', wt_jobs t' !! wc_JobID claim = Some job' /\ wj_kind job' = WorkJobResourceAcquire /\ job_live job' = false.
Proof.
  intros [resource id b eventID Hres Hs|input resource <- <- Hres Hs].
  - split; [by eapply StepComplete|]. apply complete_effect in Hs as (job & a & d & r & t1 & Hh & _ & Ej & _ & _ & _ & _ & t2 & (_ & _ & _ & _ & Hs) & (-> & _) & _); [|done].
    exists resource, job, a, d. split; [done|]. specialize (Hs (wc_JobID claim)). rewrite Ej, lookup_insert_eq in Hs. inversion Hs as [? job2 Hx E1 E2|]; subst.
    exists job2. destruct Hx as [->|(_ & Hw & _)]; [|done]. split_and!; [done| |done]. cbn. apply Hh.
  - split; [by eapply StepFail|]. apply fail_effect in Hs as (job & a & d & Hh & -> & _); [|done]. exists resource, job, a, d. split; [done|].
    eexists. split; [apply lookup_insert_eq|]. split; [apply Hh|done].
Qed.

(** Who ends a job: the holder of its lease, a recovery after its last lease ran out,
    or a reconciliation that finds its entry gone from the catalog while it waits *)
Inductive ends_job (k : string) (t t' : work_tables) : Prop :=
| EndByHolder claim at_ : wc_JobID claim = k -> finishes claim at_ t t' -> ends_job k t t'
| EndByRecovery now_ job i a : recoverExpiredWorkAttempts now_ t = Ok (tt, t') -> wt_jobs t !! k = Some job ->
    wt_attempts t !! i = Some a -> wa_job_id a = k -> lease_over now_ a = true ->
    wj_cancellation_requested job = true \/ wa_generation a = attempt_limit -> ends_job k t t'
| EndByReconciliation version resources now_ job detail : reconcileProductResourceJobs version resources now_ t = Ok (tt, t') ->
    wt_jobs t !! k = Some job -> job_waiting job = true -> wt_details t !! k = Some detail -> registration_current resources detail = false ->
    ends_job k t t'.

(** Within a step, a live job has a row, and [P] when the row is no longer live. *)
Definition ends_only (P : Prop) (t' : work_tables) (k : string) : Prop := exists job', wt_jobs t' !! k = Some job' /\ (job_live job' = false -> P).

Lemma ends_only_live P t t' k job : lives_on t t' -> wt_jobs t !! k = Some job -> job_live job = true -> ends_only P t' k.
Proof. intros Hlo Hj Hl. destruct (Hlo k job Hj Hl) as (job' & Hj' & Hl'). exists job'. split; [done|]. by rewrite Hl'. Qed.
Lemma ends_only_insert P t t' id row k job : wt_jobs t' = <[id := row]> (wt_jobs t) -> wt_jobs t !! k = Some job -> job_live job = true ->
  (id = k -> job_live row = true \/ P) -> ends_only P t' k.
Proof.
  intros E Hj Hl HP. unfold ends_only. rewrite E. destruct (decide (id = k)) as [->|Hne].
  - exists row. rewrite lookup_insert_eq. split; [done|]. destruct (HP eq_refl) as [->|HP']; [done|]. by intros _.
  - exists job. rewrite lookup_insert_ne by done. split; [done|]. by rewrite Hl.
Qed.

(** Reconciliation ends the jobs whose entry is gone. *)
Lemma reconcile_candidate_ends version resources now_ id row detail t t' k job :
  reconcile_candidate version resources now_ (id, row, detail) t = Ok (tt, t') -> wt_jobs t !! k = Some job -> job_live job = true ->
  ends_only (id = k /\ registration_current resources detail = false) t' k.
Proof.
  intros Hr Hj Hl. unfold reconcile_candidate in Hr. destruct (registration_current resources detail) eqn:Ec; cbn [negb] in Hr.
  - apply (ends_only_live _ t t' k job); [|done..].
    destruct (_ || _); tx_open; repeat match goal with Hw : work_write _ _ _ = Ok _ |- _ => apply work_write_ok in Hw end;
      [case_bool_decide; [done|]; simplify_eq|]; (eapply lives_on_trans; [|apply update_rows_live; intros; apply waiting_live, settled_state_waiting]);
      by apply lives_on_same.
  - tx_open. match goal with Hu : update_job _ _ _ _ _ = _ |- _ => apply update_job_ok in Hu as [(stored & -> & _ & _ & ->)|(-> & -> & _)] end.
    + eapply (ends_only_insert _ t); [done..|]. intros <-. by right.
    + by apply (ends_only_live _ t t k job); [apply lives_on_same|..].
Qed.
Lemma reconcile_each_ends version resources now_ candidates t t' k job :
  work_each candidates (reconcile_candidate version resources now_) t = Ok (tt, t') -> wt_jobs t !! k = Some job -> job_live job = true ->
  ends_only (exists c, c ∈ candidates /\ c.1.1 = k /\ registration_current resources c.2 = false) t' k.
Proof.
  revert t job. induction candidates as [|[[id row] detail] rest IH]; intros t job Hr Hj Hl; cbn in Hr.
  - tx_open. by apply (ends_only_live _ t t k job); [apply lives_on_same|..].
  - apply work_bind_ok in Hr as ([] & t1 & Hc & Hr). destruct (reconcile_candidate_ends _ _ _ _ _ _ _ _ k job Hc Hj Hl) as (job1 & Hj1 & Hend).
    destruct (job_live job1) eqn:Hl1.
    + destruct (IH t1 job1 Hr Hj1 Hl1) as (job' & Hj' & Hend'). exists job'. split; [done|]. intros Hd. destruct (Hend' Hd) as (c & Hin & Hc').
      exists c. split; [by right|done].
    + destruct (Hend eq_refl) as [-> Hcur].
      assert (exists job', wt_jobs t' !! k = Some job') as (job' & Hj').
      { destruct (work_each_settled _ _ _ _ _ _ Hr) as (_ & _ & _ & _ & Hs). specialize (Hs k). rewrite Hj1 in Hs. inversion Hs; subst. by eexists. }
      exists job'. split; [done|]. intros _. exists (k, row, detail). by split; [left|].
Qed.
Lemma reconcile_ends version resources now_ t t' k job : reconcileProductResourceJobs version resources now_ t = Ok (tt, t') ->
  wt_jobs t !! k = Some job -> job_live job = true -> ends_only (ends_job k t t') t' k.
Proof.
  intros Hr Hj Hl. pose proof Hr as Hr'. unfold reconcileProductResourceJobs in Hr'. tx_open.
  destruct (reconcile_each_ends _ _ _ _ _ _ k job Hr' Hj Hl) as (job' & Hj' & Hend). exists job'. split; [done|].
  intros ([[id row] detail] & Hin & Hid & Hc)%Hend. cbn in Hid, Hc. subst id. unfold resource_waiting in Hin.
  apply list_elem_of_omap in Hin as ([id row0] & Hin & Hsome). apply elem_of_map_to_list in Hin. cbn in Hsome.
  destruct (wt_details t !! id) as [d|] eqn:Ed; [|done]. destruct (_ && _) eqn:Ew in Hsome; [|done]. injection Hsome as -> -> ->. bool_prop.
  by apply (EndByReconciliation _ _ _ version resources now_ row detail).
Qed.

(** Recovery ends the jobs whose lease is over and which have no attempt left. *)
Lemma recover_ends now_ t t' k job : leases_ok t -> recoverExpiredWorkAttempts now_ t = Ok (tt, t') ->
  wt_jobs t !! k = Some job -> wj_kind job = WorkJobResourceAcquire -> job_live job = true -> ends_only (ends_job k t t') t' k.
Proof.
  intros Hl Hr Hj Hk Hlive. pose proof Hr as (_ & _ & _ & Ha & Hjobs)%recover_effect. unfold ends_only. rewrite Hjobs, Hj. cbn. eexists. split; [done|].
  destruct (bool_decide (wj_state job = JobRunning) && negb (has_live_attempt k t')) eqn:E; [|by rewrite Hlive].
  apply andb_true_iff in E as [Hrun%bool_decide_eq_true Hno%negb_true_iff]. intros Hend.
  destruct (proj1 (lo_running t Hl k job Hj Hk) Hrun) as (i & a & Hia & Hja & Hla).
  assert (resource_job t (wa_job_id a)) as Hres by (rewrite Hja; by exists job).
  assert (lease_over now_ a = true) as Hover.
  { destruct (lease_over now_ a) eqn:Eo; [done|]. rewrite <- Hno. apply has_live_attempt_spec. exists i, a. by rewrite Ha, Hia; cbn; rewrite Eo. }
  apply (EndByRecovery _ _ _ now_ job i a); [done..|].
  unfold recovered_job, job_live in Hend. cbn in Hend. destruct (wj_cancellation_requested job); [by left|right].
  destruct (attempt_limit <=? max_generation k t') eqn:Em; [|done]. apply Z.leb_le in Em.
  destruct (lo_range t Hl i a Hres Hia) as [_ Hle]. destruct (max_generation_spec k t') as (_ & _ & [Hz|(j & b' & Hjb & Hkb & Hg)]); [unfold attempt_limit in *; lia|].
  destruct (moved_back _ _ _ _ (abandoned_moves _ _ _ Ha) Hjb) as (b & Hb & Hjb0 & Hgb & _).
  assert (wa_generation b <= wa_generation a) by (apply (lo_latest t Hl i j a b); [done..|congruence|done]). lia.
Qed.

Lemma step_ends t t' k job : leases_ok t -> work_step t t' -> wt_jobs t !! k = Some job -> wj_kind job = WorkJobResourceAcquire -> job_live job = true ->
  ends_only (ends_job k t t') t' k.
Proof.
  intros Hl Hstep Hj Hk Hlive.
  destruct Hstep as [now_ Hs|version resources now_ Hs|record outcome Hs|input id version claim Hs|claim now_ duration Hs|claim resource id b eventID at_ Hres Hs|input resource Hres Hs|id Hs|now_ Hs|[Hs _]].
  - by apply (recover_ends now_ t t' k job).
  - by apply (reconcile_ends version resources now_ t t' k job).
  - apply request_effect in Hs as [[(Ej & _) _]|(Hnew & _ & _ & _ & Ej & _)].
    + by apply (ends_only_live _ t t' k job); [apply lives_on_same|..].
    + eapply (ends_only_insert _ t); [exact Ej|done|done|]. intros <-. congruence.
  - apply claim_effect in Hs as (row & detail & inst & entry & _ & _ & _ & _ & _ & _ & _ & _ & ->). eapply (ends_only_insert _ t); [done..|]. by left.
  - apply renew_effect in Hs as (a & _ & _ & _ & _ & _ & _ & _ & ->). by apply (ends_only_live _ t _ k job); [apply lives_on_same|..].
  - pose proof Hs as (row & a & d & r & t1 & _ & _ & Ej & _ & _ & _ & _ & t2 & _ & (Ej' & _) & _ & Hlo)%(complete_effect _ _ _ _ _ _ _ _ Hres).
    destruct (decide (wc_JobID claim = k)) as [E|Hne].
    + destruct (finishes_effect claim at_ t t') as (_ & _ & _ & _ & _ & _ & job' & Hj' & _); [by eapply FinishComplete|]. rewrite E in Hj'.
      exists job'. split; [done|]. intros _. apply (EndByHolder _ _ _ claim at_ E). by eapply FinishComplete.
    + unfold ends_only. rewrite Ej'. apply (ends_only_live _ t1 t2 k job); [done| |done]. by rewrite Ej, lookup_insert_ne.
  - pose proof Hs as (row & a & d & _ & Ej & _)%(fail_effect _ _ _ _ Hres). eapply (ends_only_insert _ t); [exact Ej|done|done|].
    intros E. right. apply (EndByHolder _ _ _ (fp_Claim input) (fp_FailedAt input) E). by eapply FinishFail.
  - apply invalidate_effect in Hs as (Ej & _). by apply (ends_only_live _ t t' k job); [apply lives_on_same|..].
  - by apply (ends_only_live _ t t' k job); [apply (requeue_settled now_)|..].
  - exists job. split; [by apply (Hs k job Hk)|]. by rewrite Hlive.
Qed.

(** A finished job is not ended again. *)
Lemma finished_inert t k job : leases_ok t -> wt_jobs t !! k = Some job -> wj_kind job = WorkJobResourceAcquire -> job_live job = false ->
  has_live_attempt k t = false /\ forall claim at_ t', wc_JobID claim = k -> ~ finishes claim at_ t t'.
Proof.
  intros Hl Hj Hk Hd. assert (wj_state job <> JobRunning) as Hnr by (unfold job_live in Hd; by destruct (wj_state job)). split.
  - destruct (has_live_attempt k t) eqn:E; [|done]. destruct Hnr. apply (lo_running t Hl k job Hj Hk). by apply has_live_attempt_spec.
  - intros claim at_ t' He (_ & ? & j3 & ? & ? & [Hj3 _ _ _ _ _ _ Hr3 _ _ _ _ _] & _)%finishes_effect. rewrite He in Hj3. congruence.
Qed.

(** C23: Leases are exclusive.  In any sequence of recoveries, reconciliations, requests, claims, renewals, completions, failures and invalidations,
    beside whatever the code for jobs of other kinds does, a job that acquires a resource has at most one live attempt, its attempts have different
    generations between 1 and 3, and it is running exactly while an attempt is live.  A completion or failure that is accepted comes from the attempt
    that holds the lease: before it ran out, as the owner that claimed it and with the latest generation; and it ends the job.  Besides, a job is ended
    only by a recovery that finds the lease of its live attempt over, when its cancellation was requested or the attempt is its third, and by a
    reconciliation that finds its entry missing from the catalog while the job waits.  A job that has ended, however it did, keeps its row for good:
    it has no live attempt and no claim ends it again. *)
Theorem leases_exclusive t : work_reachable t ->
  (forall k job, wt_jobs t !! k = Some job -> wj_kind job = WorkJobResourceAcquire ->
     (wj_state job = JobRunning <-> has_live_attempt k t = true) /\
     forall i j a b, wt_attempts t !! i = Some a -> wt_attempts t !! j = Some b -> wa_job_id a = k -> wa_job_id b = k ->
       1 <= wa_generation a <= 3 /\ (wa_generation a = wa_generation b -> i = j) /\ (attempt_live a = true -> attempt_live b = true -> i = j)) /\
  (forall claim at_ t', finishes claim at_ t t' ->
     (exists a, wt_attempts t !! wc_AttemptID claim = Some a /\ wa_job_id a = wc_JobID claim /\ wa_lease_owner a = wc_LeaseOwner claim /\
        wa_generation a = wc_Generation claim /\ at_ < wa_lease_expires_at a /\ max_generation (wc_JobID claim) t = wc_Generation claim) /\
     exists job', wt_jobs t' !! wc_JobID claim = Some job' /\ wj_kind job' = WorkJobResourceAcquire /\ job_live job' = false) /\
  (forall k job t', wt_jobs t !! k = Some job -> wj_kind job = WorkJobResourceAcquire -> job_live job = true -> work_step t t' ->
     exists job', wt_jobs t' !! k = Some job' /\ (job_live job' = false -> ends_job k t t')) /\
  (forall k job t', wt_jobs t !! k = Some job -> wj_kind job = WorkJobResourceAcquire -> job_live job = false -> rtc work_step t t' ->
     wt_jobs t' !! k = Some job /\ has_live_attempt k t' = false /\ forall claim at_ t'', wc_JobID claim = k -> ~ finishes claim at_ t' t'').
Proof.
  intros Hreach. pose proof (reachable_leases t Hreach) as Hl. split_and!.
  - intros k job Hj Hk. rewrite has_live_attempt_spec. split; [exact (lo_running t Hl k job Hj Hk)|]. intros i j a b Ha Hb Hka Hkb.
    assert (resource_job t (wa_job_id a)) as Hr by (rewrite Hka; by exists job). assert (wa_job_id a = wa_job_id b) as Hab by congruence. split_and!.
    + by apply (lo_range t Hl i a).
    + by apply (lo_range t Hl i a).
    + by apply (lo_generations t Hl).
    + by apply (lo_single t Hl).
  - intros claim at_ t' (Hstep & resource & job & a & d & Hh & Hended)%finishes_effect. split; [|exact Hended].
    destruct Hh as [Hj Ha Hd Ho Hk Hn Hdg Hr Hlv Hi How Hg Hx].
    exists a. split_and!; [done..|]. destruct (max_generation_spec (wc_JobID claim) t) as (_ & Hmax & Hat). apply Z.le_antisymm; [|rewrite <- Hg; by apply (Hmax (wc_AttemptID claim))].
    assert (resource_job t (wa_job_id a)) as Hres by (rewrite Ho; by exists job).
    destruct Hat as [->|(i & b & Hb & Hkb & <-)]; [destruct (lo_range t Hl _ a Hres Ha); lia|]. rewrite <- Hg.
    apply (lo_latest t Hl (wc_AttemptID claim) i a b); [done..|congruence|]. unfold attempt_live. by rewrite Hlv.
  - intros k job t' Hj Hk Hlive Hs. by apply (step_ends t t' k job).
  - intros k job t' Hj Hk Hd Hr. pose proof (finished_forever t t' k job Hr Hj Hk Hd) as Hj'. split; [done|].
    apply (finished_inert t' k job); [|done..]. apply reachable_leases. unfold work_reachable in *. by apply (transitivity (y := t)).
Qed.

(** ** Resources and the jobs that acquired them *)

Record catalog_ok (t : work_tables) : Prop := mkCatalogOk {
  co_detail : forall k job, wt_jobs t !! k = Some job -> wj_kind job = WorkJobResourceAcquire ->
    exists detail installationID, wt_details t !! k = Some detail /\ wj_installation_id job = Some installationID /\
      wj_logical_key job = resource_logical_key installationID (rd_entry_digest detail);
  co_details : forall k detail, wt_details t !! k = Some detail -> resource_job t k;
  co_live : forall k k' job job', wt_jobs t !! k = Some job -> wt_jobs t !! k' = Some job' -> wj_kind job = WorkJobResourceAcquire ->
    wj_kind job' = WorkJobResourceAcquire -> job_live job = true -> job_live job' = true -> wj_logical_key job = wj_logical_key job' -> k = k';
  co_producer : forall id row, wt_resources t !! id = Some row ->
    exists job, wt_jobs t !! rr_producer_job_id row = Some job /\ wj_kind job = WorkJobResourceAcquire /\ wj_state job = JobSucceeded;
  co_retired : forall id row k job detail, wt_resources t !! id = Some row -> wt_jobs t !! k = Some job -> wt_details t !! k = Some detail ->
    wj_kind job = WorkJobResourceAcquire -> wj_installation_id job = Some (rr_installation_id row) ->
    rd_catalog_entry_id detail = rr_catalog_entry_id row -> rd_entry_digest detail = rr_entry_digest row -> job_live job = false;
  co_unique : forall id id' row row', wt_resources t !! id = Some row -> wt_resources t !! id' = Some row' ->
    rr_installation_id row = rr_installation_id row' -> rr_catalog_entry_id row = rr_catalog_entry_id row' -> rr_entry_digest row = rr_entry_digest row' ->
    id = id' }.

(** A job stays for what it is, does not come back to life, and keeps its success. *)
Definition job_goes (job job' : job_row) : Prop :=
  same_job job job' /\ (job_live job' = true -> job_live job = true) /\ (wj_state job = JobSucceeded -> wj_state job' = JobSucceeded).
Definition jobs_go (t t' : work_tables) : Prop := forall k, option_Forall2 job_goes (wt_jobs t !! k) (wt_jobs t' !! k).

Lemma gone_back t t' k job' : jobs_go t t' -> wt_jobs t' !! k = Some job' -> exists job, wt_jobs t !! k = Some job /\ job_goes job job'.
Proof. intros Hg Hj. specialize (Hg k). rewrite Hj in Hg. inversion Hg as [job ? Hx|]; subst. by exists job. Qed.

Lemma catalog_jobs t t' : jobs_go t t' -> wt_details t' = wt_details t -> wt_resources t' = wt_resources t -> catalog_ok t -> catalog_ok t'.
Proof.
  intros Hg Ed Er Hc. split; rewrite ?Ed, ?Er.
  - intros k job' (job & Hj & (Hk & Hi & Hlk) & _)%(gone_back _ _ _ _ Hg) Hkind. rewrite Hi, Hlk. apply (co_detail t Hc k job Hj). congruence.
  - intros k detail (job & Hj & Hk)%(co_details t Hc). specialize (Hg k). rewrite Hj in Hg. inversion Hg as [? job' ((Hk' & _) & _) E1 E2|]; subst.
    exists job'. split; [done|congruence].
  - intros k k' j j' (j0 & Hj0 & (Hk0 & _ & Hl0) & Hlive0 & _)%(gone_back _ _ _ _ Hg) (j1 & Hj1 & (Hk1 & _ & Hl1) & Hlive1 & _)%(gone_back _ _ _ _ Hg) Hk Hk' HL HL' HK.
    apply (co_live t Hc k k' j0 j1); [done|done|congruence|congruence|auto|auto|congruence].
  - intros id row (job & Hj & Hk & Hs)%(co_producer t Hc). specialize (Hg (rr_producer_job_id row)). rewrite Hj in Hg. inversion Hg as [? job' (Hsame & _ & Hs') E1 E2|]; subst.
    exists job'. split_and!; [done| |auto]. destruct Hsame as (-> & _). done.
  - intros id row k job' detail Hrow (job & Hj & (Hk & Hi & _) & Hlive & _)%(gone_back _ _ _ _ Hg) Hd Hkind Hinst Hn Hdg.
    destruct (job_live job') eqn:E; [|done]. rewrite <- (Hlive eq_refl). apply (co_retired t Hc id row k job detail); congruence.
  - apply Hc.
Qed.

Lemma jobs_go_same t t' : wt_jobs t' = wt_jobs t -> jobs_go t t'.
Proof. intros E k. rewrite E. destruct (wt_jobs t !! k); constructor. by split_and!. Qed.
Lemma jobs_go_insert t t' id job job' : wt_jobs t !! id = Some job -> job_goes job job' -> wt_jobs t' = <[id := job']> (wt_jobs t) -> jobs_go t t'.
Proof.
  intros Hj Hg E k. rewrite E. destruct (decide (k = id)) as [->|Hne]; [rewrite Hj, lookup_insert_eq; by constructor|].
  rewrite lookup_insert_ne by done. destruct (wt_jobs t !! k); constructor. by split_and!.
Qed.

Lemma catalog_settled t t' : jobs_settled t t' -> catalog_ok t -> catalog_ok t'.
Proof.
  intros (_ & Ed & Er & _ & Hs). apply catalog_jobs; [|done..]. intros k. destruct (Hs k) as [j j' Hx|]; constructor.
  destruct Hx as [->|(Hsame & Hw & Hw')]; [by split_and!|]. unfold job_waiting in Hw. split_and!; [done|..]; unfold job_live; by destruct (wj_state j).
Qed.
Lemma catalog_recover now_ t t' : recoverExpiredWorkAttempts now_ t = Ok (tt, t') -> catalog_ok t -> catalog_ok t'.
Proof.
  intros (Ed & Er & _ & _ & Hj)%recover_effect. apply catalog_jobs; [|done..]. intros k. rewrite Hj. destruct (wt_jobs t !! k) as [job|]; constructor.
  destruct (_ && _) eqn:E; [|by split_and!]. bool_prop. split; [by split_and!|]. unfold job_live.
  match goal with Hs : wj_state job = JobRunning |- _ => rewrite Hs end. done.
Qed.

(** A job is made only for an entry that has no resource: the view would show the
    job of the resource. *)
Lemma made_no_row record t t' id row : job_made record t t' -> catalog_ok t -> wt_resources t !! id = Some row ->
  same_resource (rp_InstallationID record) (en_Name (rp_Entry record)) (en_EntryDigest (rp_Entry record)) row = true -> False.
Proof.
  intros (Hnew & _ & _ & Hcur & Ej & _ & _ & Er & Hshown) Hc Hid Hs. unfold shown_row, resource_of_entry in Hshown. rewrite Er in Hshown.
  destruct (find_row _ (wt_resources t)) as [[id1 row1]|] eqn:Ef; [|pose proof (find_row_none _ _ _ _ Ef Hid) as Hn; cbn in Hn; congruence].
  apply find_row_some in Ef as [Hid1 Hs1]. destruct (co_producer t Hc id1 row1 Hid1) as (job & Hj & _). cbn in Hshown.
  rewrite Ej, lookup_insert_ne in Hshown by congruence. rewrite Hj in Hshown. cbn in Hshown. destruct (rr_state row1) eqn:Est.
  - destruct Hcur. left. by exists id1, row1.
  - rewrite bool_decide_false in Hshown by done. cbn in Hshown. congruence.
Qed.

Lemma catalog_made record t t' : job_made record t t' -> catalog_ok t -> catalog_ok t'.
Proof.
  intros Hmade Hc. pose proof (fun id row => made_no_row record t t' id row Hmade Hc) as Hnone. destruct Hmade as (Hnew & Hdnew & Hkey & _ & Ej & Ed & _ & Er & _).
  set (k0 := rp_JobID record) in *. set (job0 := new_resource_job record) in *.
  assert (forall k job, wt_jobs t' !! k = Some job -> (k = k0 /\ job = job0) \/ (k <> k0 /\ wt_jobs t !! k = Some job)) as Hcase.
  { intros k job. rewrite Ej. destruct (decide (k = k0)) as [->|Hne]; [rewrite lookup_insert_eq; intros [= <-]; by left|rewrite lookup_insert_ne by done; by right]. }
  split; rewrite ?Er.
  - intros k job [[-> ->]|[Hne Hj]]%Hcase Hkind; rewrite Ed; [|rewrite lookup_insert_ne by done; by apply (co_detail t Hc)].
    exists (new_resource_detail (rp_Entry record)), (rp_InstallationID record). by rewrite lookup_insert_eq.
  - intros k detail. rewrite Ed. destruct (decide (k = k0)) as [->|Hne]; [intros _; exists job0; by rewrite Ej, lookup_insert_eq|].
    rewrite lookup_insert_ne by done. intros (job & Hj & Hk)%(co_details t Hc). exists job. by rewrite Ej, lookup_insert_ne.
  - intros k k' j j' [[-> ->]|[Hne Hj]]%Hcase [[-> ->]|[Hne' Hj']]%Hcase Hk Hk' HL HL' HK; [done| | |by apply (co_live t Hc k k' j j')].
    + by destruct (Hkey k' j' Hj' HL').
    + by destruct (Hkey k j Hj HL).
  - intros id row (job & Hj & Hx)%(co_producer t Hc). exists job. split; [|done]. rewrite Ej, lookup_insert_ne; [done|]. congruence.
  - intros id row k job detail Hrow [[-> ->]|[Hne Hj]]%Hcase Hd Hkind Hi Hn Hdg; rewrite Ed in Hd.
    + rewrite lookup_insert_eq in Hd. injection Hd as <-. cbn in Hi, Hn, Hdg. injection Hi as Hi. destruct (Hnone id row Hrow). unfold same_resource.
      rewrite !bool_decide_true by congruence. done.
    + rewrite lookup_insert_ne in Hd by done. by apply (co_retired t Hc id row k job detail).
  - apply Hc.
Qed.


Lemma same_resource_spec installationID name digest row :
  same_resource installationID name digest row = true <-> rr_installation_id row = installationID /\ rr_catalog_entry_id row = name /\ rr_entry_digest row = digest.
Proof. unfold same_resource. rewrite !andb_true_iff, !bool_decide_eq_true. tauto. Qed.

(** A resource that is there keeps its entry from being acquired again. *)
Lemma never_rematerialized claim resource id at_ t job attempt detail row : catalog_ok t -> lease_holder claim resource at_ t job attempt detail ->
  ~ published claim resource id at_ t true row.
Proof.
  intros Hc [Hj Ha Hd Ho Hk Hn Hdg Hr Hlv Hi How Hg Hx] (old & Hold & _ & (E1 & E2 & E3)%same_resource_spec & _).
  assert (job_live job = false) as Hf by (apply (co_retired t Hc id old (wc_JobID claim) job detail); congruence). unfold job_live in Hf. by rewrite Hr in Hf.
Qed.

Lemma catalog_published claim resource id at_ t t1 job attempt detail row : lease_holder claim resource at_ t job attempt detail ->
  published claim resource id at_ t false row ->
  wt_jobs t1 = <[wc_JobID claim := with_job_state JobSucceeded 10000 at_ None job]> (wt_jobs t) ->
  wt_details t1 = <[wc_JobID claim := done_detail id detail]> (wt_details t) -> wt_resources t1 = <[id := row]> (wt_resources t) -> catalog_ok t -> catalog_ok t1.
Proof.
  intros [Hj Ha Hd Ho Hk Hn Hdg Hr Hlv Hi How Hg Hx] (-> & Hfree & Hothers) Ej Ed Er Hc. set (k := wc_JobID claim) in *. set (job1 := with_job_state _ _ _ _ job) in *.
  assert (job_live job = true) as Hlive by (unfold job_live; by rewrite Hr).
  assert (forall k' j, wt_jobs t1 !! k' = Some j -> (k' = k /\ j = job1) \/ (k' <> k /\ wt_jobs t !! k' = Some j)) as Hcase.
  { intros k' j. rewrite Ej. destruct (decide (k' = k)) as [->|Hne]; [rewrite lookup_insert_eq; intros [= <-]; by left|rewrite lookup_insert_ne by done; by right]. }
  assert (forall r x, wt_resources t1 !! r = Some x -> (r = id /\ x = new_resource claim resource id at_) \/ (r <> id /\ wt_resources t !! r = Some x)) as Hrow.
  { intros r x. rewrite Er. destruct (decide (r = id)) as [->|Hne]; [rewrite lookup_insert_eq; intros [= <-]; by left|rewrite lookup_insert_ne by done; by right]. }
  split.
  - intros k' j [[-> ->]|[Hne Hj']]%Hcase Hkind; rewrite Ed; [rewrite lookup_insert_eq|rewrite lookup_insert_ne by done; by apply (co_detail t Hc)].
    destruct (co_detail t Hc k job Hj Hk) as (d & inst & Hd' & Hi' & Hlk). assert (d = detail) as -> by congruence. by exists (done_detail id detail), inst.
  - intros k' d. rewrite Ed. destruct (decide (k' = k)) as [->|Hne]; [intros _; exists job1; by rewrite Ej, lookup_insert_eq|].
    rewrite lookup_insert_ne by done. intros (j & Hj' & Hk')%(co_details t Hc). exists j. by rewrite Ej, lookup_insert_ne.
  - intros k1 k2 j1 j2 [[-> ->]|[Hne Hj1]]%Hcase [[-> ->]|[Hne' Hj2]]%Hcase; [done..|]. by apply (co_live t Hc).
  - intros r x [[-> ->]|[Hne Hx']]%Hrow; [exists job1; cbn; rewrite Ej; by rewrite lookup_insert_eq|].
    destruct (co_producer t Hc r x Hx') as (j & Hj' & Hk' & Hs). exists j. split; [|done]. rewrite Ej, lookup_insert_ne; [done|]. intros E. rewrite <- E in Hj'. congruence.
  - intros r x k' j d [[-> ->]|[Hne Hx']]%Hrow [[-> ->]|[Hne' Hj']]%Hcase Hd' Hkind Hinst Hname Hdig; [done| |done|]; rewrite Ed, lookup_insert_ne in Hd' by done;
      [|by apply (co_retired t Hc r x k' j d)]. cbn in Hinst, Hname, Hdig. destruct (job_live j) eqn:El; [|done]. destruct Hne'.
    destruct (co_detail t Hc k job Hj Hk) as (d0 & i0 & Hd0 & Hi0 & Hk0). destruct (co_detail t Hc k' j Hj' Hkind) as (d1 & i1 & Hd1 & Hi1 & Hk1).
    apply (co_live t Hc k' k j job); try done. rewrite Hk0, Hk1. congruence.
  - intros r r' x x' [[-> ->]|[Hne Hx']]%Hrow [[-> ->]|[Hne' Hx'']]%Hrow E1 E2 E3; [done| | |by apply (co_unique t Hc r r' x x')];
      [destruct (Hothers r' x' Hx'') as [Hs _]|destruct (Hothers r x Hx') as [Hs _]];
      (rewrite (proj2 (same_resource_spec _ _ _ _)) in Hs; [done|]); cbn in E1, E2, E3; split_and!; congruence.
Qed.

Lemma catalog_complete claim resource id b eventID at_ t t' : wc_Resource claim = Some resource ->
  complete_body claim resource id b eventID at_ t = Ok (tt, t') -> catalog_ok t -> catalog_ok t'.
Proof.
  intros Hres (job & a & d & row & t1 & Hh & Hp & Ej & _ & Ed & Er & _ & t2 & Hs & (Ej' & _ & Ed' & Er') & _)%(complete_effect _ _ _ _ _ _ _ _ Hres) Hc.
  destruct b; [by destruct (never_rematerialized claim resource id at_ t job a d row Hc Hh)|].
  apply (catalog_jobs t2); [by apply jobs_go_same|done|done|]. apply (catalog_settled t1); [done|]. by apply (catalog_published claim resource id at_ t t1 job a d row).
Qed.

(** Rows of resources that may have become invalid, beside the same jobs *)
Lemma catalog_resources t t' : (forall id job, wj_kind job = WorkJobResourceAcquire -> (wt_jobs t !! id = Some job <-> wt_jobs t' !! id = Some job)) ->
  wt_details t' = wt_details t -> (forall id, option_Forall2 invalidates (wt_resources t !! id) (wt_resources t' !! id)) -> catalog_ok t -> catalog_ok t'.
Proof.
  intros Hj Ed Hr Hc. assert (forall id row', wt_resources t' !! id = Some row' -> exists row, wt_resources t !! id = Some row /\
    rr_installation_id row' = rr_installation_id row /\ rr_catalog_entry_id row' = rr_catalog_entry_id row /\ rr_entry_digest row' = rr_entry_digest row /\
    rr_producer_job_id row' = rr_producer_job_id row) as Hback.
  { intros id row' Hrow'. specialize (Hr id). rewrite Hrow' in Hr. inversion Hr as [row ? Hx E1 E2|]; subst. exists row. by destruct Hx as [->|[_ ->]]. }
  split; rewrite ?Ed.
  - intros k job Hjob Hk. apply (co_detail t Hc); [by apply Hj|done].
  - intros k detail (job & Hjob & Hk)%(co_details t Hc). exists job. split; [by apply Hj|done].
  - intros k k' j j' Hk Hk' Hj1 Hj2. apply (co_live t Hc); [by apply Hj|by apply Hj|done|done].
  - intros id row' (row & Hrow & _ & _ & _ & ->)%Hback. destruct (co_producer t Hc id row Hrow) as (job & Hjob & Hk & Hs). exists job. split; [by apply Hj|done].
  - intros id row' k job detail (row & Hrow & -> & -> & -> & _)%Hback Hjob Hd Hk. apply (co_retired t Hc id row k job detail); [done|by apply Hj|done|done].
  - intros id id' r r' (row & Hrow & -> & -> & -> & _)%Hback (row' & Hrow' & -> & -> & -> & _)%Hback. by apply (co_unique t Hc).
Qed.

Lemma catalog_step t t' : work_step t t' -> catalog_ok t -> catalog_ok t'.
Proof.
  intros [now_ Hs|version resources now_ Hs|record outcome Hs|input id version claim Hs|claim now_ duration Hs|claim resource id b eventID at_ Hres Hs|input resource Hres Hs|id Hs|now_ Hs|Hs].
  - by apply (catalog_recover now_).
  - by apply catalog_settled, (reconcile_settled version resources now_).
  - apply request_effect in Hs as [[(Ej & _ & Ed & Er) _]|Hs]; [apply catalog_jobs; [by apply jobs_go_same|done..]|by apply (catalog_made record)].
  - apply claim_effect in Hs as (job & detail & inst & entry & Hj & Hd & Hk & Hq & _ & _ & _ & _ & ->). apply catalog_jobs; [|done..].
    apply (jobs_go_insert t _ id job (running_job (ci_Now input) job)); [done| |done]. split; [by split_and!|]. unfold job_live. by rewrite Hq.
  - apply renew_effect in Hs as (a & _ & _ & _ & _ & _ & _ & _ & ->). apply catalog_jobs; [by apply jobs_go_same|done..].
  - by apply (catalog_complete claim resource id b eventID at_).
  - apply fail_effect in Hs as (job & a & d & Hh & Ej & _ & Ed & Er & _); [|done]. apply catalog_jobs; [|done..].
    eapply (jobs_go_insert t _ _ job); [apply Hh| |exact Ej]. split; [by split_and!|]. by rewrite (lh_running _ _ _ _ _ _ _ Hh).
  - apply invalidate_effect in Hs as (Ej & _ & Ed & _ & Hr). apply catalog_resources; [|done..]. by rewrite Ej.
  - by apply catalog_settled, (requeue_settled now_).
  - destruct Hs as (Hj & _ & _ & Ed & _ & Hr). by apply catalog_resources.
Qed.
Lemma reachable_catalog t : work_reachable t -> catalog_ok t.
Proof.
  apply (rtc_ind_r catalog_ok); [|intros x y _ Hs; by apply catalog_step].
  split; cbn; intros; simplify_map_eq.
Qed.

Lemma invalid_step t t' id row : catalog_ok t -> work_step t t' -> wt_resources t !! id = Some row -> rr_state row = ResourceInvalid ->
  wt_resources t' !! id = Some row.
Proof.
  intros Hc Hstep Hrow Hi.
  assert (forall t1, (forall id, option_Forall2 invalidates (wt_resources t !! id) (wt_resources t1 !! id)) -> wt_resources t1 !! id = Some row) as Hinv.
  { intros t1 Hr. specialize (Hr id). rewrite Hrow in Hr. inversion Hr as [? row1 Hx E1 E2|]; subst. destruct Hx as [->|[Hready _]]; [done|congruence]. }
  destruct Hstep as [now_ Hs|version resources now_ Hs|record outcome Hs|input id1 version claim Hs|claim now_ duration Hs|claim resource id1 b eventID at_ Hres Hs|input resource Hres Hs|id1 Hs|now_ Hs|Hs].
  - by apply recover_effect in Hs as (_ & -> & _).
  - by apply reconcile_settled in Hs as (_ & _ & -> & _).
  - apply request_effect in Hs as [[(_ & _ & _ & ->) _]|(_ & _ & _ & _ & _ & _ & _ & -> & _)]; done.
  - by apply claim_effect in Hs as (job & detail & inst & entry & _ & _ & _ & _ & _ & _ & _ & _ & ->).
  - by apply renew_effect in Hs as (a & _ & _ & _ & _ & _ & _ & _ & ->).
  - apply complete_effect in Hs as (job & a & d & row1 & t1 & Hh & Hp & _ & _ & _ & Er & _ & t2 & (_ & _ & Er2 & _) & (_ & _ & _ & Er3) & _); [|done].
    destruct b; [by destruct (never_rematerialized claim resource id1 at_ t job a d row1 Hc Hh)|]. destruct Hp as (_ & Hfree & _).
    rewrite Er3, Er2, Er, lookup_insert_ne; [done|congruence].
  - by apply fail_effect in Hs as (job & a & d & _ & _ & _ & _ & -> & _).
  - apply invalidate_effect in Hs as (_ & _ & _ & _ & Hr). by apply Hinv.
  - by apply requeue_settled in Hs as [(_ & _ & -> & _) _].
  - destruct Hs as (_ & _ & _ & _ & _ & Hr). by apply Hinv.
Qed.

(** A call that succeeded committed its body. *)
Lemma work_transaction_ok {A} (body : WorkTx A) t a t' : work_transaction body t = (Ok a, t') -> body t = Ok (a, t').
Proof. unfold work_transaction. destruct (body t) as [[a1 t1]|e|]; [|done..]. destruct (work_refuses "COMMIT" t1); [done|]. by intros [= -> ->]. Qed.

(** Asking for a resource that is invalid *)
Lemma invalid_shown t id row installationID entry : catalog_ok t -> wt_resources t !! id = Some row -> rr_state row = ResourceInvalid ->
  same_resource installationID (en_Name entry) (en_EntryDigest entry) row = true ->
  exists shown, shown_row installationID entry t = Some shown /\ sj_job shown = rr_producer_job_id row /\ sj_state shown = JobFailed.
Proof.
  intros Hc Hrow Hi Hs. unfold shown_row, resource_of_entry. destruct (find_row _ (wt_resources t)) as [[id1 row1]|] eqn:Ef;
    [|pose proof (find_row_none _ _ _ _ Ef Hrow) as Hn; cbn in Hn; congruence].
  apply find_row_some in Ef as [Hrow1 Hs1]. apply same_resource_spec in Hs as (E1 & E2 & E3). apply same_resource_spec in Hs1 as (F1 & F2 & F3).
  assert (id1 = id) as -> by (apply (co_unique t Hc id1 id row1 row); congruence). assert (row1 = row) as -> by congruence.
  destruct (co_producer t Hc id row Hrow) as (job & Hj & _). cbn. rewrite Hj. cbn. rewrite Hi, bool_decide_false by done. by eexists.
Qed.

(** Nothing is current for its entry, and no job is made. *)
Lemma not_current t id row installationID entry : catalog_ok t -> wt_resources t !! id = Some row -> rr_state row = ResourceInvalid ->
  same_resource installationID (en_Name entry) (en_EntryDigest entry) row = true -> ~ entry_current installationID entry t.
Proof.
  intros Hc Hrow Hi (E1 & E2 & E3)%same_resource_spec [(id1 & row1 & Hrow1 & (F1 & F2 & F3)%same_resource_spec & Hr)|([k job] & Hin & Hl)].
  - assert (id1 = id) as -> by (apply (co_unique t Hc id1 id row1 row); congruence). congruence.
  - unfold jobs_of_entry in Hin. apply list_elem_of_In, filter_In in Hin as [Hin%list_elem_of_In%elem_of_map_to_list Ht]. cbn in *.
    destruct (wt_details t !! k) as [detail|] eqn:Ed; [|by rewrite andb_false_r in Ht]. bool_prop. destruct (co_details t Hc k detail Ed) as (job1 & Hj1 & Hk1).
    assert (job1 = job) as -> by congruence. rewrite (co_retired t Hc id row k job detail) in Hl; congruence.
Qed.

(** C25: A resource found to be invalid is lost for good.  Once its row is invalid, no sequence of calls ever changes it, although a completion has a
    branch that makes such rows ready again; and asking for it fails, unless it replays an earlier request, which then shows the failure: the new
    job that a request makes is refused because the view shows the job that acquired the resource before. *)
Theorem invalid_resource_stuck t id row : work_reachable t -> wt_resources t !! id = Some row -> rr_state row = ResourceInvalid ->
  forall t', rtc work_step t t' -> wt_resources t' !! id = Some row /\
    forall record result t'', RequestProductResource record t' = (Ok result, t'') ->
      same_resource (rp_InstallationID record) (en_Name (rp_Entry record)) (en_EntryDigest (rp_Entry record)) row = true ->
      ro_Replayed result = true /\ pv_State (ro_View result) = ProductResourceFailed.
Proof.
  intros Hreach Hrow Hi t' Hr.
  assert (wt_resources t' !! id = Some row /\ catalog_ok t') as [Hrow' Hc'].
  { pose proof (reachable_catalog t Hreach) as Hc. clear Hreach. induction Hr as [|t t1 t2 Hs Hr IH]; [done|]. apply IH; [by eapply invalid_step|by eapply catalog_step]. }
  split; [done|]. intros record result t'' Hq Hs. unfold RequestProductResource in Hq. destruct (validateProductResourceRequest record); [|done..].
  apply work_transaction_ok in Hq. pose proof Hq as Hb. unfold request_body in Hb. apply work_bind_ok in Hb as (stored & t0 & [-> ->]%work_read_ok & Hb).
  destruct (invalid_shown t' id row _ _ Hc' Hrow' Hi Hs) as (shown & Hshown & Hjob & Hstate). destruct (wt_requests t' !! _) as [req|] eqn:Ereq.
  - apply work_bind_ok in Hb as (u & t1 & [_ ->]%work_guard_ok & Hb). apply work_bind_ok in Hb as (view & t2 & Hv & Hb).
    assert (t2 = t' /\ pv_State view = ProductResourceFailed) as [-> Hf].
    { unfold loadProductResourceView in Hv. apply work_bind_ok in Hv as (sh & t3 & [-> ->]%work_read_ok & Hv). rewrite Hshown in Hv.
      apply work_bind_ok in Hv as (u1 & t3 & [_ ->]%work_lift_ok & Hv). rewrite Hstate in Hv. by tx_open. }
    apply work_bind_ok in Hb as (u1 & t3 & [_ ->]%work_guard_ok & Hb). apply work_bind_ok in Hb as (cursor & t3 & [-> ->]%work_read_ok & Hb).
    destruct (wt_outbox t' !! _); [|by apply work_lift_ok in Hb as [? _]]. tx_open. done.
  - exfalso. clear Hb. destruct (request_effect _ _ _ _ Hq) as [[_ [[? Hreq]|Hcur]]|Hmade]; [|by eapply not_current|by eapply made_no_row].
    congruence.
Qed.



End steps.

(** ** A resource acquired, then found to be invalid *)

#[local] Existing Instance sample_platform.
Definition calm_sql : WorkSQLite := {| work_refuses := fun _ _ => false |}.
Definition https_urls : URLParser := {| url_Parse := fun _ => Some (mkURL "https" "models.example" "" false "models.example" "/model" "" "") |}.
#[local] Existing Instance calm_sql.
#[local] Existing Instance https_urls.

Definition sample_model : bytes := bytes_of "weights".
Definition sample_entry : ProductResourceCatalogEntry :=
  match NewProductResourceCatalogEntry "whisper" ProductResourceTranscriptionModel "1" "base" "https://models.example/model" 7 (sha256_text sample_model) "offline" with
  | Ok entry => entry
  | _ => mkEntry "" "" "" "" "" 0 "" "" "" []
  end.
Definition sample_request (number : string) : RequestProductResourceRecord :=
  let '(canonical, digest) := match acquire_digest sample_entry with Ok r => r | _ => ([], "") end in
  mkResourceRequest "installation" (CreatorActor (sample_id "0c")) ("request-" +:+ number) digest canonical sample_entry
    (sample_id ("a" +:+ number)) (sample_id ("b" +:+ number)) (1000 * a_second).
Definition sample_claim_input : ClaimWorkJobInput :=
  mkClaimInput (sample_id "c1") [mkExecutor WorkJobResourceAcquire ProductResourceDownloaderV1 ""] (RuntimeRegistrations [sample_entry]) "owner"
    (1001 * a_second) (30 * a_second).

Definition reached {A} (r : outcome work_error (A * work_tables)) : work_tables := match r with Ok (_, t) => t | _ => no_work end.
Definition sample_requested : work_tables := reached (request_body (sample_request "1") no_work).
Definition sample_claimed : outcome work_error (WorkJobClaim * work_tables) := claim_body sample_claim_input (sample_id "a1") ProductResourceDownloaderV1 sample_requested.
Definition sample_claim : WorkJobClaim := match sample_claimed with Ok (claim, _) => claim | _ => mkClaim "" "" "" "" "" 0 "" 0 None end.
Definition sample_running_work : work_tables := reached sample_claimed.
Definition sample_resource : ProductResourceJobClaim := mkResourceClaim "installation" sample_entry.
Definition sample_acquired : work_tables := reached (complete_body sample_claim sample_resource (sample_id "d1") false (sample_id "e1") (1002 * a_second) sample_running_work).
Definition sample_invalidated : work_tables := reached (invalidate_resource (sample_id "d1") sample_acquired).

Lemma sample_finishes : finishes sample_claim (1002 * a_second) sample_running_work sample_acquired.
Proof. apply (FinishComplete _ _ _ _ sample_resource (sample_id "d1") false (sample_id "e1")); vm_compute; reflexivity. Qed.
Lemma sample_running_reachable : work_reachable sample_running_work.
Proof.
  apply (rtc_l _ _ sample_requested); [eapply (StepRequest _ _ (sample_request "1")); vm_compute; reflexivity|].
  apply rtc_once. eapply (StepClaim _ _ sample_claim_input (sample_id "a1") ProductResourceDownloaderV1). vm_compute. reflexivity.
Qed.
Lemma sample_acquired_reachable : work_reachable sample_acquired.
Proof. apply (rtc_r _ sample_running_work); [exact sample_running_reachable|apply (finishes_effect _ _ _ _ sample_finishes)]. Qed.
Lemma sample_invalidated_reachable : work_reachable sample_invalidated.
Proof.
  apply (rtc_r _ sample_acquired); [exact sample_acquired_reachable|].
  apply (StepInvalidate _ _ (sample_id "d1")). vm_compute. reflexivity.
Qed.

Lemma leases_exclusive_witness : has_live_attempt (sample_id "a1") sample_running_work = true /\
  (exists a, wt_attempts sample_running_work !! sample_id "c1" = Some a /\ 1002 * a_second < wa_lease_expires_at a) /\
  forall claim at_ t, wc_JobID claim = sample_id "a1" -> ~ finishes claim at_ sample_acquired t.
Proof.
  destruct (leases_exclusive sample_running_work sample_running_reachable) as (_ & Hf & _). split; [vm_compute; reflexivity|].
  destruct (Hf _ _ _ sample_finishes) as [(a & Ha & _ & _ & _ & Hx & _) (job & Hj & Hk & Hd)]. split; [exists a; split; [exact Ha|exact Hx]|].
  destruct (leases_exclusive sample_acquired sample_acquired_reachable) as (_ & _ & _ & Hended).
  destruct (Hended _ job sample_acquired Hj Hk Hd (rtc_refl _ _)) as (_ & _ & Hnone).
  intros claim at_ t E. apply Hnone. rewrite E. vm_compute. reflexivity.
Defined.

Lemma invalid_resource_stuck_witness : (RequestProductResource (sample_request "2") sample_invalidated).1 = Fail ErrProductResourceInvalid /\
  forall t, rtc work_step sample_invalidated t -> exists row, wt_resources t !! sample_id "d1" = Some row /\ rr_state row = ResourceInvalid.
Proof.
  split; [vm_compute; reflexivity|]. intros t Ht.
  assert (exists row, wt_resources sample_invalidated !! sample_id "d1" = Some row /\ rr_state row = ResourceInvalid) as (row & Hrow & Hi)
    by (eexists; split; vm_compute; reflexivity).
  exists row. split; [|exact Hi]. apply (invalid_resource_stuck sample_invalidated (sample_id "d1") row sample_invalidated_reachable Hrow Hi t Ht).
Defined.
