(* ===== verification/WorkStorage.v ===== *)
(** The texts that leases are compared by, and the files of the resources: what is
    ready is on the disk, and what startup makes of a disk. *)
From stdpp Require Import base list strings gmap sorting relations fin_maps.
From Stdlib Require Import ZArith Lia Ascii.
From S2P Require Import Prelude GoText Exact Identity Canonical EditModel Timeline EditState EditValidate EditNormalize Project Database Authority GoWire.
From S2P Require Import EditLoadState EditService CommandRegistry CliGrants CliRepository CliService CliSafety UISession WorkJobs WorkInvariant.
Open Scope Z_scope.

(** ** Dates *)

(** The first day of a year that starts in March, in an era of four hundred *)
Definition year_start (yoe : Z) : Z := 365 * yoe + yoe / 4 - yoe / 100.
Definition leap_days (doe : Z) : Z := doe - doe / 1460 + doe / 36524 - doe / 146096.
Definition year_of_era (doe : Z) : Z := leap_days doe / 365.

Lemma leap_days_step doe : 0 <= doe -> leap_days doe <= leap_days (doe + 1).
Proof. unfold leap_days. intros. Z.to_euclidean_division_equations. lia. Qed.
Lemma year_of_era_mono a b : 0 <= a <= b -> year_of_era a <= year_of_era b.
Proof.
  intros [Ha Hb]. apply Z.div_le_mono; [lia|]. pattern b. apply Zlt_lower_bound_ind with (z := a); [|done]. clear b Hb. intros x IH Hx.
  destruct (decide (x = a)) as [->|Hne]; [lia|]. transitivity (leap_days (x - 1)); [apply IH; lia|].
  replace x with (x - 1 + 1) at 2 by lia. apply leap_days_step. lia.
Qed.

(** The year of a day is the one whose days contain it. *)
Lemma year_ends y : 0 <= y < 400 -> year_of_era (year_start y) = y /\ year_of_era (year_start (y + 1) - 1) = y.
Proof.
  intros Hy. assert (forallb (fun n => let y := Z.of_nat n in (year_of_era (year_start y) =? y) && (year_of_era (year_start (y + 1) - 1) =? y)) (seq 0 400) = true)
    as Hall by (by vm_compute).
  rewrite forallb_forall in Hall. specialize (Hall (Z.to_nat y)). rewrite in_seq, Z2Nat.id in Hall by lia. specialize (Hall ltac:(lia)). cbn zeta in Hall. bool_prop. done.
Qed.
Lemma year_start_step y : 0 <= y -> year_start y + 365 <= year_start (y + 1) <= year_start y + 366.
Proof. unfold year_start. intros. Z.to_euclidean_division_equations. lia. Qed.

Lemma year_of_era_spec doe : 0 <= doe < 146097 -> 0 <= year_of_era doe < 400 /\ 0 <= doe - year_start (year_of_era doe) <= 365.
Proof.
  intros Hd. assert (0 <= year_of_era doe < 400) as Hy.
  { pose proof (year_of_era_mono 0 doe ltac:(lia)) as H0. pose proof (year_of_era_mono doe 146096 ltac:(lia)) as H1.
    change (year_of_era 0) with 0 in H0. change (year_of_era 146096) with 399 in H1. lia. }
  split; [done|]. set (y := year_of_era doe) in *. pose proof (year_start_step y ltac:(lia)) as Hs.
  assert (year_start y <= doe) as Hlo.
  { apply Z.nlt_ge. intros Hlt. destruct (decide (y = 0)) as [E|Hne]; [rewrite E in Hlt; change (year_start 0) with 0 in Hlt; lia|].
    pose proof (year_of_era_mono doe (year_start y - 1) ltac:(lia)) as Hm. destruct (year_ends (y - 1) ltac:(lia)) as [_ He].
    replace (y - 1 + 1) with y in He by lia. fold y in Hm. lia. }
  destruct (decide (y = 399)) as [E|Hne]; [rewrite E in *; change (year_start 399) with 145731 in *; lia|].
  assert (doe < year_start (y + 1)) as Hhi; [|lia]. apply Z.nle_gt. intros Hge.
  pose proof (year_of_era_mono (year_start (y + 1)) doe ltac:(unfold year_start in *; Z.to_euclidean_division_equations; lia)) as Hm.
  destruct (year_ends (y + 1) ltac:(lia)) as [He _]. fold y in Hm. lia.
Qed.

(** Months from March, and the days of a month *)
Definition month_of_year (doy : Z) : Z := (5 * doy + 2) / 153.
Definition day_of_month (doy : Z) : Z := doy - (153 * month_of_year doy + 2) / 5 + 1.

Lemma month_spec doy : 0 <= doy <= 365 -> 0 <= month_of_year doy <= 11 /\ 1 <= day_of_month doy <= 31.
Proof. unfold day_of_month, month_of_year. intros. Z.to_euclidean_division_equations. lia. Qed.
Lemma month_lex a b : 0 <= a < b -> b <= 365 ->
  month_of_year a <= month_of_year b /\ (month_of_year a = month_of_year b -> day_of_month a < day_of_month b).
Proof. unfold day_of_month, month_of_year. intros. split; [apply Z.div_le_mono; lia|]. intros ->. lia. Qed.

(** A date as the months since year 0 and the day of the month *)
Definition era_of (day : Z) : Z := (day + 719468) / 146097.
Definition day_of_era (day : Z) : Z := (day + 719468) mod 146097.
Definition day_of_year (day : Z) : Z := day_of_era day - year_start (year_of_era (day_of_era day)).
Definition months_of (day : Z) : Z := 12 * (400 * era_of day + year_of_era (day_of_era day)) + month_of_year (day_of_year day) + 2.
Definition month_day (day : Z) : Z := day_of_month (day_of_year day).

Lemma day_parts day : 0 <= day_of_era day < 146097 /\ 0 <= year_of_era (day_of_era day) < 400 /\ 0 <= day_of_year day <= 365.
Proof.
  assert (0 <= day_of_era day < 146097) as Hd by (unfold day_of_era; apply Z.mod_pos_bound; lia). split; [done|]. by apply year_of_era_spec.
Qed.

Lemma civil_months day : exists year month, civil day = (year, month, month_day day) /\ 1 <= month <= 12 /\ months_of day = 12 * year + (month - 1).
Proof.
  destruct (day_parts day) as (_ & _ & Hy). destruct (month_spec _ Hy) as [Hm _]. unfold months_of. fold (month_day day).
  exists (year_of_era (day_of_era day) + era_of day * 400 + (if (if month_of_year (day_of_year day) <? 10 then month_of_year (day_of_year day) + 3
    else month_of_year (day_of_year day) - 9) <=? 2 then 1 else 0)), (if month_of_year (day_of_year day) <? 10 then month_of_year (day_of_year day) + 3 else month_of_year (day_of_year day) - 9).
  split; [reflexivity|]. destruct (Z.ltb_spec (month_of_year (day_of_year day)) 10); destruct (Z.leb_spec (month_of_year (day_of_year day) + 3) 2);
    destruct (Z.leb_spec (month_of_year (day_of_year day) - 9) 2); lia.
Qed.

(** Dates follow the days. *)
Lemma months_lex a b : a < b -> months_of a <= months_of b /\ (months_of a = months_of b -> month_day a < month_day b).
Proof.
  intros Hab. destruct (day_parts a) as (Hda & Hya & Hoa), (day_parts b) as (Hdb & Hyb & Hob). destruct (month_spec _ Hoa) as [Hma _], (month_spec _ Hob) as [Hmb _].
  assert (era_of a < era_of b \/ (era_of a = era_of b /\ day_of_era a < day_of_era b)) as [He|[He Hd]].
  { unfold era_of, day_of_era. Z.to_euclidean_division_equations. lia. }
  - unfold months_of. lia.
  - pose proof (year_of_era_mono (day_of_era a) (day_of_era b) ltac:(lia)) as Hy.
    destruct (decide (year_of_era (day_of_era a) = year_of_era (day_of_era b))) as [E|Hne]; [|unfold months_of; lia].
    assert (day_of_year a < day_of_year b) as Hdy by (unfold day_of_year; rewrite E; lia).
    destruct (month_lex (day_of_year a) (day_of_year b) ltac:(lia) ltac:(lia)) as [H1 H2]. unfold months_of, month_day. rewrite He, E. split; [lia|]. intros. apply H2. lia.
Qed.

(** ** Texts of instants *)

Lemma length_digits d n : length (digits d n) = d.
Proof. revert n. induction d as [|d IH]; intros n; [done|]. cbn [digits]. rewrite length_app, IH. cbn. lia. Qed.

Lemma digits_ltb d n m u v : 0 <= n < m -> m < 10 ^ Z.of_nat d -> bytes_ltb (digits d n ++ u) (digits d m ++ v) = true.
Proof.
  revert n m u v. induction d as [|d IH]; intros n m u v Hnm Hm; [cbn in Hm; lia|]. cbn [digits]. rewrite <- !(assoc_L (++)).
  rewrite Nat2Z.inj_succ, Z.pow_succ_r in Hm by lia. assert (n / 10 <= m / 10) as Hle by (apply Z.div_le_mono; lia).
  destruct (decide (n / 10 = m / 10)) as [E|Hne].
  - rewrite E, bytes_ltb_app by done. apply orb_true_iff. right. rewrite bool_decide_true by done. cbn [app bytes_ltb andb]. unfold digit_of.
    assert (n mod 10 < m mod 10) as Hlt by (Z.to_euclidean_division_equations; lia). pose proof (Z.mod_pos_bound n 10 ltac:(lia)). pose proof (Z.mod_pos_bound m 10 ltac:(lia)).
    rewrite !byte_val_of by lia. by rewrite (proj2 (Z.ltb_lt _ _)) by lia.
  - apply IH; [split; [apply Z.div_pos; lia|lia]|]. apply Z.div_lt_upper_bound; lia.
Qed.

(** A field, a separator and the rest *)
Lemma field_ltb d n m c u v : 0 <= n <= m -> m < 10 ^ Z.of_nat d -> (n = m -> bytes_ltb u v = true) -> bytes_ltb (digits d n ++ c :: u) (digits d m ++ c :: v) = true.
Proof.
  intros Hnm Hm Huv. destruct (decide (n = m)) as [->|Hne]; [|apply digits_ltb; lia]. rewrite bytes_ltb_app by done. apply orb_true_iff. right.
  rewrite bool_decide_true by done. cbn [andb bytes_ltb]. rewrite Z.ltb_irrefl. by apply Huv.
Qed.

(** The first second of the year 10000 *)
Definition year_10000 : Z := 253402300800.

Lemma second_text_ltb s1 s2 u v : 0 <= s1 < s2 -> s2 < year_10000 -> bytes_ltb (second_text s1 ++ u) (second_text s2 ++ v) = true.
Proof.
  intros Hs Hlim. unfold second_text.
  destruct (civil_months (s1 / 86400)) as (y1 & m1 & E1 & Hm1 & Hk1), (civil_months (s2 / 86400)) as (y2 & m2 & E2 & Hm2 & Hk2). rewrite E1, E2.
  destruct (day_parts (s1 / 86400)) as (_ & _ & Ho1), (day_parts (s2 / 86400)) as (_ & _ & Ho2).
  destruct (month_spec _ Ho1) as [_ Hd1], (month_spec _ Ho2) as [_ Hd2]. fold (month_day (s1 / 86400)) in Hd1. fold (month_day (s2 / 86400)) in Hd2.
  assert (forall day, 0 <= day -> 1970 * 12 <= months_of day) as Hlow.
  { intros day Hday. destruct (decide (day = 0)) as [->|]; [by vm_compute|]. change (1970 * 12) with (months_of 0). by apply months_lex; lia. }
  assert (forall day, day < year_10000 / 86400 -> months_of day < 10000 * 12) as Hhigh.
  { intros day Hday. change (10000 * 12) with (months_of (year_10000 / 86400 - 1) + 1). destruct (decide (day = year_10000 / 86400 - 1)) as [->|]; [lia|].
    destruct (months_lex day (year_10000 / 86400 - 1)); lia. }
  assert (0 <= s1 / 86400 <= s2 / 86400) as [Hday0 Hday] by (split; [apply Z.div_pos; lia|apply Z.div_le_mono; lia]).
  assert (s2 / 86400 < year_10000 / 86400) as Hday2 by (apply Z.div_lt_upper_bound; [lia|]; change (86400 * (year_10000 / 86400)) with year_10000; lia).
  pose proof (Hlow _ Hday0). pose proof (Hlow (s2 / 86400) ltac:(lia)). pose proof (Hhigh (s1 / 86400) ltac:(lia)). pose proof (Hhigh _ Hday2).
  assert (months_of (s1 / 86400) <= months_of (s2 / 86400) /\ (months_of (s1 / 86400) = months_of (s2 / 86400) -> month_day (s1 / 86400) <= month_day (s2 / 86400)) /\
    (months_of (s1 / 86400) = months_of (s2 / 86400) -> month_day (s1 / 86400) = month_day (s2 / 86400) -> s1 / 86400 = s2 / 86400)) as (Hlex1 & Hlex2 & Hlex3).
  { destruct (decide (s1 / 86400 = s2 / 86400)) as [->|Hne]; [lia|]. destruct (months_lex (s1 / 86400) (s2 / 86400)); lia. }
  unfold year_text. rewrite !(proj2 (Z.ltb_ge _ 0)), !(proj2 (Z.ltb_ge 9999 _)) by lia. repeat (rewrite <- !(assoc_L (++)); cbn [app]).
  apply field_ltb; [lia|cbn; lia|intros Ey]. apply field_ltb; [lia|cbn; lia|intros Em]. apply field_ltb; [lia|cbn; lia|intros Ed].
  assert (s1 / 86400 = s2 / 86400) as Esame by (apply Hlex3; lia). pose proof (Z.mod_pos_bound s1 86400 ltac:(lia)). pose proof (Z.mod_pos_bound s2 86400 ltac:(lia)).
  assert (s1 mod 86400 < s2 mod 86400) as Hclock by (Z.to_euclidean_division_equations; lia).
  apply field_ltb; [Z.to_euclidean_division_equations; lia|cbn; Z.to_euclidean_division_equations; lia|intros Eh].
  apply field_ltb; [Z.to_euclidean_division_equations; lia|cbn; Z.to_euclidean_division_equations; lia|intros Emin].
  apply digits_ltb; [Z.to_euclidean_division_equations; lia|cbn; Z.to_euclidean_division_equations; lia].
Qed.

(** An instant of this millennium and the next ones *)
Definition representable (at_ : Z) : Prop := 0 <= at_ < year_10000 * a_second.

Lemma instant_before_seconds a b : representable a -> representable b -> a / a_second < b / a_second ->
  instant_before a b = true /\ instant_before b a = false.
Proof.
  intros [Ha _] [Hb Hlim] Hab. assert (instant_before a b = true) as Ht.
  { unfold instant_before, str_ltb, formatInstant, FormatRFC3339Nano. rewrite !bytes_of_string_of. apply second_text_ltb; [split; [apply Z.div_pos; lia|exact Hab]|].
    apply Z.div_lt_upper_bound; [done|]. unfold a_second in Hlim. rewrite Z.mul_comm. exact Hlim. }
  split; [done|]. by apply str_ltb_antisym in Ht.
Qed.

(** C26: Leases are kept to the second.  Recovery abandons every attempt whose lease ended in an earlier second and keeps every one whose lease ends in
    a later one; a renewal succeeds only for a lease that ends in this second or later.  Within a second the texts decide, whose fractions have lost
    their zeros: a lease that is over may be kept and renewed, and one that lasts may be taken. *)
Theorem leases_kept_to_the_second `{WorkSQLite} :
  (forall now_ t t' i a, recoverExpiredWorkAttempts now_ t = Ok (tt, t') -> wt_attempts t !! i = Some a -> attempt_live a = true ->
     representable now_ -> representable (wa_lease_expires_at a) ->
     (wa_lease_expires_at a / a_second < now_ / a_second -> wt_attempts t' !! i = Some (abandoned now_ a)) /\
     (now_ / a_second < wa_lease_expires_at a / a_second -> wt_attempts t' !! i = Some a)) /\
  (forall claim now_ duration t t', RenewWorkJobLease claim now_ duration t = Ok (tt, t') ->
     exists a a', wt_attempts t !! wc_AttemptID claim = Some a /\ wt_attempts t' !! wc_AttemptID claim = Some a' /\ wa_lease_expires_at a' = now_ + duration /\
       (representable now_ -> representable (wa_lease_expires_at a) -> now_ / a_second <= wa_lease_expires_at a / a_second)) /\
  (exists now_ a, wa_lease_expires_at a < now_ /\ attempt_live a = true /\ lease_over now_ a = false) /\
  (exists now_ a, now_ < wa_lease_expires_at a /\ lease_over now_ a = true).
Proof.
  split_and!.
  - intros now_ t t' i a (_ & _ & _ & Ha & _)%recover_effect Hi Hl Hn He. rewrite Ha, Hi. cbn. unfold lease_over. rewrite Hl. split; intros Hs.
    + destruct (instant_before_seconds _ _ He Hn Hs) as [_ ->]. done.
    + destruct (instant_before_seconds _ _ Hn He Hs) as [-> _]. done.
  - intros claim now_ duration t t' (a & Ha & _ & _ & _ & _ & Hb & _ & ->)%renew_effect. exists a. eexists. split_and!; [done|apply lookup_insert_eq|done|].
    intros Hn He. apply Z.nlt_ge. intros Hs. destruct (instant_before_seconds _ _ He Hn Hs) as [_ Hf]. congruence.
  - exists (10 * a_second + a_second / 2), (mkAttemptRow "" 1 AttemptRunning "" (10 * a_second) 0 None "" ""). split_and!; [by vm_compute..].
  - exists (10 * a_second), (mkAttemptRow "" 1 AttemptRunning "" (10 * a_second + a_second / 2) 0 None "" ""). split_and!; [by vm_compute..].
Qed.

Definition recovered_work (now_ : Z) : work_tables := reached (@recoverExpiredWorkAttempts calm_sql now_ sample_running_work).
Definition sample_attempt : attempt_row := mkAttemptRow (sample_id "a1") 1 AttemptRunning "owner" (1031 * a_second) (1001 * a_second) None ProductResourceDownloaderV1 "{}".

Lemma leases_kept_to_the_second_witness :
  wt_attempts (recovered_work (1032 * a_second)) !! sample_id "c1" = Some (abandoned (1032 * a_second) sample_attempt) /\
  wt_attempts (recovered_work (1030 * a_second)) !! sample_id "c1" = Some sample_attempt.
Proof.
  destruct (@leases_kept_to_the_second calm_sql) as [Hrecover _].
  assert (wt_attempts sample_running_work !! sample_id "c1" = Some sample_attempt) as Ha by (vm_compute; reflexivity).
  assert (forall n, (0 <=? n) && (n <? year_10000 * a_second) = true -> representable n) as Hrep
    by (intros n Hn; apply andb_true_iff in Hn as [H1%Z.leb_le H2%Z.ltb_lt]; exact (conj H1 H2)).
  assert (representable (wa_lease_expires_at sample_attempt)) as He by (apply Hrep; vm_compute; reflexivity).
  assert (@recoverExpiredWorkAttempts calm_sql (1032 * a_second) sample_running_work = Ok (tt, recovered_work (1032 * a_second))) as Hlate by (vm_compute; reflexivity).
  assert (@recoverExpiredWorkAttempts calm_sql (1030 * a_second) sample_running_work = Ok (tt, recovered_work (1030 * a_second))) as Hearly by (vm_compute; reflexivity).
  assert (representable (1032 * a_second)) as Rlate by (apply Hrep; vm_compute; reflexivity).
  assert (representable (1030 * a_second)) as Rearly by (apply Hrep; vm_compute; reflexivity). split.
  - apply (proj1 (Hrecover _ _ _ _ _ Hlate Ha eq_refl Rlate He)). vm_compute. reflexivity.
  - apply (proj2 (Hrecover _ _ _ _ _ Hearly Ha eq_refl Rearly He)). vm_compute. reflexivity.
Defined.

(** ** Programs under interference, at whatever moment they stop *)

Section guarding.
Context {S : Type} (env : S -> S -> Prop) (inv : S -> Prop).

(** The states a program is seen in *)
Fixpoint visited {A} (p : prog S A) (s s' : S) : Prop :=
  rtc env s s' \/ match p with Ret _ => False | Act f k => exists s1, rtc env s s1 /\ visited (k (f s1).1) (f s1).2 s' end.

(** Every action keeps the invariant, and the result satisfies [Q]. *)
Fixpoint guarded {A} (Q : A -> S -> Prop) (p : prog S A) (s : S) : Prop :=
  match p with
  | Ret a => inv s /\ Q a s
  | Act f k => forall s1, rtc env s s1 -> inv (f s1).2 /\ guarded Q (k (f s1).1) (f s1).2
  end.
Definition triple {A} (P : S -> Prop) (p : prog S A) (Q : A -> S -> Prop) : Prop := forall s, inv s -> P s -> guarded Q p s.
Definition kept_by_env (P : S -> Prop) : Prop := forall s s', rtc env s s' -> inv s -> P s -> P s'.
Hypothesis inv_kept : forall s s', rtc env s s' -> inv s -> inv s'.

Lemma guarded_ret {A} (P : S -> Prop) (a : A) Q : (forall s, P s -> Q a s) -> triple P (Ret a) Q.
Proof. intros HQ s Hi HP. split; auto. Qed.
Lemma triple_act {A B} P (R : B -> S -> Prop) (f : S -> B * S) (k : B -> prog S A) Q : kept_by_env P ->
  (forall s, inv s -> P s -> inv (f s).2 /\ R (f s).1 (f s).2) -> (forall b, triple (R b) (k b) Q) -> triple P (Act f k) Q.
Proof.
  intros HP Hf Hk s Hi HPs s1 He. pose proof (inv_kept _ _ He Hi) as Hi1. destruct (Hf s1 Hi1 (HP _ _ He Hi HPs)) as [H1 H2]. split; [done|]. by apply Hk.
Qed.
Lemma guarded_bind {A B} (R : A -> S -> Prop) (Q : B -> S -> Prop) (p : prog S A) (k : A -> prog S B) s :
  (forall a, triple (R a) (k a) Q) -> guarded R p s -> guarded Q (prog_bind p k) s.
Proof.
  intros Hk. revert s. induction p as [a|C f g IH]; intros s; cbn; [intros [Hi HR]; by apply Hk|]. intros Hg s1 He. destruct (Hg s1 He) as [H1 H2]. split; [done|]. by apply IH.
Qed.
Lemma guarded_seq {A B} P (R : A -> S -> Prop) (p : prog S A) (k : A -> prog S B) Q : triple P p R -> (forall a, triple (R a) (k a) Q) -> triple P (prog_bind p k) Q.
Proof. intros Hp Hk s Hi HP. eapply guarded_bind; [exact Hk|by apply Hp]. Qed.
Lemma guarded_weaken {A} (P P' : S -> Prop) (p : prog S A) (Q Q' : A -> S -> Prop) :
  triple P p Q -> (forall s, inv s -> P' s -> P s) -> (forall a s, Q a s -> Q' a s) -> triple P' p Q'.
Proof.
  intros Hp HP HQ s Hi Hs. specialize (Hp s Hi (HP s Hi Hs)). clear Hi Hs. revert s Hp. induction p as [a|C f g IH]; intros s; cbn; [intros [Hi Ha]; auto|].
  intros Hg s1 He. destruct (Hg s1 He) as [H1 H2]. auto.
Qed.

Lemma runs_visited {A} (p : prog S A) s a s' : runs env p s a s' -> visited p s s'.
Proof.
  revert s. induction p as [x|C f g IH]; intros s; cbn; [intros [_ He]; by left|]. intros (s1 & He & Hr). right. exists s1. split; [done|]. by apply IH.
Qed.
Lemma triple_visited {A} P (p : prog S A) Q s s' : triple P p Q -> inv s -> P s -> visited p s s' -> inv s'.
Proof.
  intros Hp Hi HP. specialize (Hp s Hi HP). clear HP. revert s Hi Hp. induction p as [a|C f g IH]; intros s Hi Hg; cbn; [intros [He|[]]; by eapply inv_kept|].
  intros [He|(s1 & He & Hv)]; [by eapply inv_kept|]. destruct (Hg s1 He) as [H1 H2]. by eapply IH.
Qed.
Lemma triple_runs {A} P (p : prog S A) Q s a s' : (forall a, kept_by_env (Q a)) -> triple P p Q -> inv s -> P s -> runs env p s a s' -> Q a s'.
Proof.
  intros HQ Hp Hi HP. specialize (Hp s Hi HP). clear HP. revert s Hi Hp. induction p as [x|C f g IH]; intros s Hi Hg; cbn.
  - intros [-> He]. destruct Hg as [_ Hq]. by eapply HQ.
  - intros (s1 & He & Hr). destruct (Hg s1 He) as [H1 H2]. by eapply IH.
Qed.
End guarding.
Arguments triple_act {S env inv} _ {A B P} R {f k Q}.
Arguments guarded_seq {S env inv A B P} R {p k Q}.

(** ** Publishing *)

Section publishing.
Context `{Platform} `{WorkSQLite} `{URLParser} `{WorkDisk}.

Definition holds_content (id : string) (content : bytes) (d : disk) : Prop :=
  dk_resources d !! id = Some (TreeDirectory {[content_name := LeafFile content]}).
(** A ready resource is on the disk, whole and as its digest says. *)
Definition stored_sound (s : work_state) : Prop :=
  forall id row, wt_resources (ws_tables s) !! id = Some row -> rr_state row = ResourceReady ->
    exists content, holds_content id content (ws_disk s) /\ Z.of_nat (length content) = rr_byte_size row /\ sha256_text content = rr_content_digest row.

(** What others do while [artifactLifecycleMu] is held: resources only become
    invalid, and nobody touches the files. *)
Definition lifecycle_held (s s' : work_state) : Prop :=
  ws_disk s' = ws_disk s /\ forall id, option_Forall2 invalidates (wt_resources (ws_tables s) !! id) (wt_resources (ws_tables s') !! id).

Lemma invalidates_trans row1 row2 row3 : invalidates row1 row2 -> invalidates row2 row3 -> invalidates row1 row3.
Proof. intros [->|[H1' ->]] [->|[H2' ->]]; [by left|by right|by right|done]. Qed.
Lemma lifecycle_rtc s s' : rtc lifecycle_held s s' -> lifecycle_held s s'.
Proof.
  induction 1 as [s|s1 s2 s3 [Hd Hr] _ [Hd' Hr']]; [split; [done|]; intros id; destruct (wt_resources (ws_tables s) !! id); constructor; by left|].
  split; [congruence|]. intros id. specialize (Hr id). specialize (Hr' id). inversion Hr as [r1 r2 H12 E1 E2|E1 E2]; rewrite <- E2 in Hr'; inversion Hr' as [? r3 H23|]; subst;
    constructor. by eapply invalidates_trans.
Qed.

Lemma stored_sound_kept s s' : rtc lifecycle_held s s' -> stored_sound s -> stored_sound s'.
Proof.
  intros [Hd Hr]%lifecycle_rtc Hs id row' Hrow' Hready. specialize (Hr id). rewrite Hrow' in Hr. inversion Hr as [row ? Hx E1 E2|]; subst.
  destruct Hx as [->|[_ ->]]; [|done]. rewrite Hd. by apply Hs.
Qed.

Definition not_ready (id : string) (s : work_state) : Prop := forall row, wt_resources (ws_tables s) !! id = Some row -> rr_state row = ResourceInvalid.
Definition staged (stage : string) (content : bytes) (s : work_state) : Prop :=
  dk_staging (ws_disk s) !! stage = Some (TreeDirectory {[content_name := LeafFile content]}).
Definition placed (id : string) (content : bytes) (s : work_state) : Prop := holds_content id content (ws_disk s) /\ not_ready id s.

Notation env_kept := (kept_by_env lifecycle_held stored_sound).
Notation sound_triple := (triple lifecycle_held stored_sound).

Lemma not_ready_env id : env_kept (not_ready id).
Proof.
  intros s s' [_ Hr]%lifecycle_rtc _ Hn row' Hrow'. specialize (Hr id). rewrite Hrow' in Hr. inversion Hr as [row ? Hx E1 E2|]; subst.
  destruct Hx as [->|[_ ->]]; [by apply Hn|done].
Qed.
Lemma disk_env (P : disk -> Prop) : env_kept (fun s => P (ws_disk s)).
Proof. intros s s' [Hd _]%lifecycle_rtc _ HP. by rewrite Hd. Qed.
Lemma staged_env stage content : env_kept (staged stage content).
Proof. apply (disk_env (fun d => dk_staging d !! stage = Some (TreeDirectory {[content_name := LeafFile content]}))). Qed.
Lemma placed_env id content : env_kept (placed id content).
Proof. intros s s' He Hi [H1' H2']. split; [by apply (disk_env (holds_content id content) s)|by apply (not_ready_env id s)]. Qed.

(** The directory of a resource that is not ready can go. *)
Lemma sound_delete id s : stored_sound s -> not_ready id s -> stored_sound (mkWorkState (ws_tables s) (with_published (delete id) (ws_disk s))).
Proof.
  intros Hs Hn other row Hrow Hready. cbn in *. destruct (Hs other row Hrow Hready) as (c & Hc & Hx). exists c. split; [|done].
  unfold holds_content in *. cbn. rewrite lookup_delete_ne; [done|]. intros <-. specialize (Hn row Hrow). congruence.
Qed.
(** The invariant only looks at the published files. *)
Lemma sound_staging f s : stored_sound s -> stored_sound (mkWorkState (ws_tables s) (with_staging f (ws_disk s))).
Proof. done. Qed.

Lemma on_disk_cases {A} name (f : disk -> option (A * disk)) s : let r := on_disk name f s in
  (r = (Fail ErrWorkFile, s)) \/ exists a d, f (ws_disk s) = Some (a, d) /\ r = (Ok a, mkWorkState (ws_tables s) d).
Proof. unfold on_disk. cbn. destruct (disk_refuses name (ws_disk s)); [by left|]. destruct (f (ws_disk s)) as [[a d]|]; [right; by exists a, d|by left]. Qed.

(** The rest of a call runs only when this one succeeded. *)
Lemma call_act {A B} P (R : A -> work_state -> Prop) name (f : disk -> option (A * disk)) (k : A -> WorkCall B) Q : env_kept P ->
  (forall s a d, stored_sound s -> P s -> f (ws_disk s) = Some (a, d) ->
     stored_sound (mkWorkState (ws_tables s) d) /\ R a (mkWorkState (ws_tables s) d)) ->
  (forall s, P s -> Q (Fail ErrWorkFile) s) -> (forall a, sound_triple (R a) (k a) Q) -> sound_triple P (disk_call name f ≫= k) Q.
Proof.
  intros HP Hf HQ Hk. unfold disk_call, mbind, WorkCall_bind. cbn [prog_bind].
  apply (triple_act stored_sound_kept (fun r s => match r with Ok a => R a s | Fail e => e = ErrWorkFile /\ P s | Panic => False end)); [done| |].
  - intros s Hi Hs. destruct (on_disk_cases name f s) as [-> | (a & d & Hd & ->)]; [by cbn|]. cbn. by apply Hf.
  - intros [a|e|]; [apply Hk|apply guarded_ret; intros s [-> Hs]; by apply HQ|by apply guarded_ret].
Qed.

Lemma done_act {B} P (R : bool -> work_state -> Prop) name (f : disk -> disk) (k : bool -> WorkCall B) Q : env_kept P ->
  (forall s, stored_sound s -> P s -> stored_sound (mkWorkState (ws_tables s) (f (ws_disk s))) /\ R true (mkWorkState (ws_tables s) (f (ws_disk s)))) ->
  (forall s, P s -> R false s) -> (forall b, sound_triple (R b) (k b) Q) -> sound_triple P (disk_done name f ≫= k) Q.
Proof.
  intros HP Hf HR Hk. unfold disk_done, mbind, WorkCall_bind. cbn [prog_bind].
  apply (triple_act stored_sound_kept (fun r s => R (is_ok r) s)); [done| |intros r; apply Hk].
  intros s Hi Hs. destruct (on_disk_cases name (fun d => Some (tt, f d)) s) as [-> | (a & d & [= <- <-] & ->)]; cbn; [by auto|by apply Hf].
Qed.
Lemma quiet_act {B} P (R : work_state -> Prop) name (f : disk -> disk) (k : unit -> prog work_state B) Q : env_kept P ->
  (forall s, stored_sound s -> P s -> stored_sound (mkWorkState (ws_tables s) (f (ws_disk s))) /\ R (mkWorkState (ws_tables s) (f (ws_disk s)))) ->
  (forall s, P s -> R s) -> (forall u, sound_triple R (k u) Q) -> sound_triple P (prog_bind (disk_quietly name f) k) Q.
Proof.
  intros HP Hf HR Hk. unfold disk_quietly. cbn [prog_bind]. apply (triple_act stored_sound_kept (fun _ s => R s)); [done| |intros _; apply Hk].
  intros s Hi Hs. destruct (on_disk_cases name (fun d => Some (tt, f d)) s) as [-> | (a & d & [= <- <-] & ->)]; cbn; [by auto|by apply Hf].
Qed.

(** Content of the size and digest that were announced *)
Definition as_announced (size : Z) (digest : string) (content : bytes) : Prop := Z.of_nat (length content) = to_int64 size /\ sha256_text content = digest.

Lemma stage_triple stage size digest data : sound_triple (fun _ => True) (stage_content stage size digest data)
  (fun r s => match r with Ok _ => staged stage (limited size data) s /\ as_announced size digest (limited size data) | _ => True end).
Proof.
  set (content := limited size data). assert (forall s, stored_sound s -> staged stage content (mkWorkState (ws_tables s) (staged_file stage content (ws_disk s)))) as Hfile.
  { intros s _. apply lookup_insert_eq. }
  unfold stage_content. fold content. apply (call_act _ (fun _ _ => True)); [done|by intros s a d Hs _ [= _ <-]|done|intros _].
  apply (call_act _ (fun _ _ => True)); [done|by intros s a d Hs _ [= _ <-]|done|intros _].
  apply (done_act _ (fun b s => b = true -> staged stage content s)); [done|by intros s Hs _; auto|done|intros copied].
  assert (env_kept (fun s => copied = true -> staged stage content s)) as Henv by (intros s s' He Hi HP Hc; exact (staged_env stage content s s' He Hi (HP Hc))).
  apply (done_act _ (fun _ s => copied = true -> staged stage content s)); [done|by intros [t d]|done|intros closed].
  apply (done_act _ (fun _ s => copied = true -> staged stage content s)); [done|by intros [t d]|done|intros synced].
  apply guarded_ret. intros s Hs. unfold call_lift, guard_or. destruct (_ && _) eqn:E; [|done]. bool_prop. split; [by apply Hs|]. by split.
Qed.

Lemma publish_triple input data id : sound_triple (fun _ => True) (publishProductResourceFile input data id)
  (fun r s => match r with Ok _ => placed id (limited (cp_ByteSize input) data) s /\ as_announced (cp_ByteSize input) (cp_SHA256 input) (limited (cp_ByteSize input) data) | _ => True end).
Proof.
  set (content := limited (cp_ByteSize input) data). set (announced := as_announced (cp_ByteSize input) (cp_SHA256 input) content).
  unfold publishProductResourceFile. set (stage := wc_AttemptID (cp_Claim input) +:+ "-" +:+ id).
  apply (call_act _ (fun _ _ => True)); [done|by intros [t d0] a d Hs _ [= _ <-]|done|intros _].
  apply (call_act _ (fun _ _ => True)); [done|by intros [t d0] a d Hs _ [= _ <-]|done|intros _].
  apply (call_act _ (fun _ _ => True)); [done|intros [t d0] a d Hs _ Hd; cbn in Hd; destruct (dk_staging d0 !! stage); by simplify_eq|done|intros _].
  set (R := fun (r : outcome work_error unit) s => match r with Ok _ => placed id content s /\ announced | _ => True end).
  unfold work_finally. apply (guarded_seq R); [|].
  2:{ intros r. apply (quiet_act _ (R r)); [|by intros s Hs Hr; destruct r|done|intros _; by apply guarded_ret].
      intros s s' He Hi. destruct r; [|done..]. intros [Hp Ha]. split; [by apply (placed_env id content s)|done]. }
  assert (env_kept (fun s => staged stage content s /\ announced)) as Henv
    by (intros s s' He Hi [HP Ha]; split; [exact (staged_env stage content s s' He Hi HP)|done]).
  apply (guarded_seq (fun r s => match r with Ok _ => staged stage content s /\ announced | _ => True end)); [apply stage_triple|].
  intros [u|e|]; [|by apply guarded_ret..].
  apply (call_act _ (fun _ s => staged stage content s /\ announced)); [done|by intros [t d0] a d Hs Hp [= _ <-]|done|intros _].
  apply (call_act _ (fun _ s => staged stage content s /\ announced)); [done|intros [t d0] a d Hs Hp Hd; cbn in Hd; destruct (dk_resources d0 !! id); by simplify_eq|done|intros _].
  apply (call_act _ (fun _ s => placed id content s /\ announced)); [done| |done|intros _].
  - intros [t d0] a d Hs [Hp Ha] Hd. unfold staged in Hp. cbn in Hd, Hp. rewrite Hp in Hd. destruct (dk_resources d0 !! id) eqn:Efree; [done|]. injection Hd as _ <-. cbn.
    assert (not_ready id (mkWorkState t d0)) as Hn.
    { intros row Hrow. destruct (rr_state row) eqn:Er; [|done]. destruct (Hs id row Hrow Er) as (c & Hc & _). unfold holds_content in Hc. cbn in Hc. congruence. }
    split; [|split; [split; [by apply lookup_insert_eq|exact Hn]|done]]. intros other row Hrow Hready. destruct (Hs other row Hrow Hready) as (c & Hc & Hx). exists c. split; [|done].
    unfold holds_content in *. cbn in *. rewrite lookup_insert_ne; [done|]. intros <-. congruence.
  - unfold disk_touch, disk_call. apply (triple_act stored_sound_kept R); [| |intros r; apply guarded_ret; auto].
    + intros s s' He Hi [Hp Ha]. split; [by apply (placed_env id content s)|done].
    + intros [t d0] Hs Hp. destruct (on_disk_cases "SyncDirectory resources" (fun d => Some (tt, Datatypes.id d)) (mkWorkState t d0)) as [-> | (a & d & [= <- <-] & ->)]; done.
Qed.



Lemma validate_effect input resource data : validateProductResourceCompletion input = Ok (resource, data) ->
  wc_Resource (cp_Claim input) = Some resource /\ cp_Workspace input = Some data /\ cp_ByteSize input = en_ByteSize (rc_Entry resource) /\
  cp_SHA256 input = en_SHA256 (rc_Entry resource).
Proof.
  unfold validateProductResourceCompletion. destruct (wc_Resource (cp_Claim input)) as [r|]; [|done]. destruct (cp_Workspace input) as [x|]; [|done].
  intros (u & Hg & (v & _ & [= -> ->])%bind_ok)%bind_ok. unfold guard_or in Hg. destruct (_ && _) eqn:E in Hg; [|done]. bool_prop. done.
Qed.

(** A size that was counted is the size. *)
Lemma counted_size (content : bytes) size : 0 <= size < 2 ^ 64 -> Z.of_nat (length content) = to_int64 size -> Z.of_nat (length content) = size.
Proof. unfold to_int64. intros Hs Hl. destruct (decide (size < 2 ^ 63)); Z.to_euclidean_division_equations; lia. Qed.

(** The row of a completed claim *)
Definition acquired (claim : WorkJobClaim) (id : string) (s : work_state) : Prop :=
  exists row, wt_resources (ws_tables s) !! id = Some row /\ rr_producer_job_id row = wc_JobID claim.
Lemma acquired_env claim id : env_kept (acquired claim id).
Proof.
  intros s s' [_ Hr]%lifecycle_rtc _ (row & Hrow & Hp). specialize (Hr id). rewrite Hrow in Hr. inversion Hr as [? row' Hx E1 E2|]; subst.
  exists row'. split; [done|]. by destruct Hx as [->|[_ ->]].
Qed.

Lemma complete_row claim resource id b eventID at_ t t' : wc_Resource claim = Some resource -> complete_body claim resource id b eventID at_ t = Ok (tt, t') ->
  exists row, wt_resources t' = <[id := row]> (wt_resources t) /\ rr_byte_size row = en_ByteSize (rc_Entry resource) /\
    rr_content_digest row = en_SHA256 (rc_Entry resource) /\ rr_producer_job_id row = wc_JobID claim.
Proof.
  intros Hres (job & a & d & row & t1 & Hh & Hp & _ & _ & _ & Er & _ & t2 & (_ & _ & Er2 & _) & (_ & _ & _ & Er3) & _)%(complete_effect _ _ _ _ _ _ _ _ Hres).
  exists row. split; [congruence|]. destruct b; [|by destruct Hp as (-> & _)]. destruct Hp as (old & _ & _ & _ & Hd & Hs & ->). done.
Qed.

Lemma commit_triple input resource data id b : validateProductResourceCompletion input = Ok (resource, data) -> 0 <= cp_ByteSize input < 2 ^ 64 ->
  let content := limited (cp_ByteSize input) data in
  sound_triple (fun s => placed id content s /\ as_announced (cp_ByteSize input) (cp_SHA256 input) content) (complete_commit input resource id b)
    (fun r s => match r with Ok _ => acquired (cp_Claim input) id s | _ => True end).
Proof.
  intros (Hres & _ & Hsize & Hsha)%validate_effect Htyped content. unfold complete_commit.
  apply (triple_act stored_sound_kept (fun r s => match r with Ok _ => acquired (cp_Claim input) id s | _ => not_ready id s end)).
  - intros s s' He Hi [Hp Ha]. split; [by apply (placed_env id content s)|done].
  - intros [t d] Hs [[Hc Hn] [Hlen Hdig]]. unfold on_tables, work_transaction. cbn [ws_tables ws_disk].
    destruct (complete_body _ _ _ _ _ _ t) as [[[] t']|e|] eqn:Eb; [|by cbn..]. destruct (work_refuses "COMMIT" t'); [by cbn|]. cbn.
    destruct (complete_row _ _ _ _ _ _ _ _ Hres Eb) as (row & Er & Hrs & Hrd & Hrp). split.
    + intros other x Hx Hready. cbn in Hx. rewrite Er in Hx. destruct (decide (other = id)) as [->|Hne].
      * rewrite lookup_insert_eq in Hx. injection Hx as <-. exists content. split; [done|]. rewrite Hrs, Hrd, <- Hsize, <- Hsha. split; [by apply counted_size|done].
      * rewrite lookup_insert_ne in Hx by done. by apply (Hs other x).
    + exists row. cbn. by rewrite Er, lookup_insert_eq.
  - intros [u|e|]; [by apply guarded_ret| |].
    all: apply (quiet_act _ (fun _ => True)); [apply not_ready_env| |done|intros _; by apply guarded_ret].
    all: intros s Hs Hn; split; [by apply sound_delete|done].
Qed.

Lemma complete_triple input : 0 <= cp_ByteSize input < 2 ^ 64 -> sound_triple (fun _ => True) (CompleteProductResource input)
  (fun r s => match r with Ok _ => exists id, acquired (cp_Claim input) id s | _ => True end).
Proof.
  intros Htyped. unfold CompleteProductResource. destruct (validateProductResourceCompletion input) as [[resource data]|e|] eqn:Ev; [|by apply guarded_ret..].
  cbn [mbind WorkCall_bind prog_bind call_lift table_call].
  apply (triple_act stored_sound_kept (fun _ _ => True)); [done| |].
  { intros [t d] Hs _. unfold on_tables, autocommit, work_read, work_write. cbn. by destruct (work_refuses _ t). }
  intros [existing|e|]; [|by apply guarded_ret..]. cbn [prog_bind]. destruct (publish_target input existing) as [[id b]|e|]; [|by apply guarded_ret..].
  apply (guarded_seq _ (publish_triple input data id)). intros [u|e|]; [|by apply guarded_ret..].
  eapply guarded_weaken; [by eapply (commit_triple input resource data id b)|by intros s _ Hp|]. intros [u'|e|] s; [|done..]. intros Ha. by exists id.
Qed.


Lemma step_resources t t' : work_step t t' ->
  (forall id, option_Forall2 invalidates (wt_resources t !! id) (wt_resources t' !! id)) \/
  exists claim resource id b eventID at_, wc_Resource claim = Some resource /\ complete_body claim resource id b eventID at_ t = Ok (tt, t').
Proof.
  assert (forall t2, wt_resources t2 = wt_resources t -> forall id, option_Forall2 invalidates (wt_resources t !! id) (wt_resources t2 !! id)) as Hsame.
  { intros t2 -> id. destruct (wt_resources t !! id); constructor. by left. }
  intros [now_ Hs|version resources now_ Hs|record outcome Hs|input id version claim Hs|claim now_ duration Hs|claim resource id b eventID at_ Hres Hs|input resource Hres Hs|id Hs|now_ Hs|Hs].
  - left. apply Hsame. by apply recover_effect in Hs as (_ & -> & _).
  - left. apply Hsame. by apply reconcile_settled in Hs as (_ & _ & -> & _).
  - left. apply Hsame. apply request_effect in Hs as [[(_ & _ & _ & ->) _]|(_ & _ & _ & _ & _ & _ & _ & -> & _)]; done.
  - left. apply Hsame. by apply claim_effect in Hs as (job & detail & inst & entry & _ & _ & _ & _ & _ & _ & _ & _ & ->).
  - left. apply Hsame. by apply renew_effect in Hs as (a & _ & _ & _ & _ & _ & _ & _ & ->).
  - right. by exists claim, resource, id, b, eventID, at_.
  - left. apply Hsame. by apply fail_effect in Hs as (job & a & d & _ & _ & _ & _ & -> & _).
  - left. by apply invalidate_effect in Hs as (_ & _ & _ & _ & Hr).
  - left. apply Hsame. by apply requeue_settled in Hs as [(_ & _ & -> & _) _].
  - left. by destruct Hs as (_ & _ & _ & _ & _ & Hr).
Qed.

(** ** Startup *)


(** A directory with one file, of this size *)
Definition sized_directory (size : Z) (dir : tree) : Prop :=
  exists content, dir = TreeDirectory {[content_name := LeafFile content]} /\ Z.of_nat (length content) = size.
Lemma verify_structure_complete id size d dir : dk_resources d !! id = Some dir -> sized_directory size dir -> disk_refuses "Lstat" d = false -> disk_refuses "ReadDir" d = false ->
  verifyProductResourceStructure id size d = true.
Proof.
  intros Hd (content & -> & Hl) H1' H2'. unfold verifyProductResourceStructure. rewrite H1', H2', Hd, map_to_list_singleton. cbn. rewrite bool_decide_true by done. cbn. by apply Z.eqb_eq.
Qed.


(** Metadata can be read. *)
Definition readable : Prop := forall d, disk_refuses "Lstat" d = false /\ disk_refuses "ReadDir" d = false.





(** ** Startup and the files *)

(** A row that was read, which may have become invalid since *)
Definition recorded (s : work_state) (e : string * resource_row) : Prop := exists row, wt_resources (ws_tables s) !! e.1 = Some row /\ invalidates e.2 row.
(** The records are the rows. *)
Definition records_of (records : list (string * resource_row)) (s : work_state) : Prop :=
  Forall (recorded s) records /\ forall id, is_Some (wt_resources (ws_tables s) !! id) -> id ∈ map fst records.

Lemma records_of_env records : env_kept (records_of records).
Proof.
  intros s s' [_ Hr]%lifecycle_rtc _ [Hrec Honly]. split.
  - eapply Forall_impl; [exact Hrec|]. intros e (row & Hrow & Hi). specialize (Hr e.1). rewrite Hrow in Hr. inversion Hr as [? row' Hx E1 E2|]; subst.
    exists row'. split; [done|]. by eapply invalidates_trans.
  - intros id [row' Hrow']. apply Honly. specialize (Hr id). rewrite Hrow' in Hr. inversion Hr; subst. by eexists.
Qed.
Lemma both_env (P Q : work_state -> Prop) : env_kept P -> env_kept Q -> env_kept (fun s => P s /\ Q s).
Proof. intros HP HQ s s' He Hi [H1' H2']. split; [by apply (HP s)|by apply (HQ s)]. Qed.

(** Calls whose result is passed on, and calls for each item *)
Lemma touch_triple P name f : env_kept P ->
  (forall s, stored_sound s -> P s -> stored_sound (mkWorkState (ws_tables s) (f (ws_disk s))) /\ P (mkWorkState (ws_tables s) (f (ws_disk s)))) ->
  sound_triple P (disk_touch name f) (fun _ => P).
Proof.
  intros HP Hf. unfold disk_touch, disk_call. apply (triple_act stored_sound_kept (fun _ => P)); [done| |intros r; apply guarded_ret; auto].
  intros s Hi Hs. destruct (on_disk_cases name (fun d => Some (tt, f d)) s) as [-> | (a & d & [= <- <-] & ->)]; cbn; [done|by apply Hf].
Qed.
Lemma table_triple {A} P (R : A -> work_state -> Prop) (body : WorkTx A) : env_kept P ->
  (forall s a t, stored_sound s -> P s -> body (ws_tables s) = Ok (a, t) -> stored_sound (mkWorkState t (ws_disk s)) /\ R a (mkWorkState t (ws_disk s))) ->
  sound_triple P (table_call (autocommit body)) (fun r s => match r with Ok a => R a s | _ => True end).
Proof.
  intros HP Hb. unfold table_call. apply (triple_act stored_sound_kept (fun r s => match r with Ok a => R a s | _ => True end)); [done| |by intros r; apply guarded_ret].
  intros s Hi Hs. unfold on_tables, autocommit. destruct (body (ws_tables s)) as [[a t]|e|] eqn:E; cbn; [by apply Hb|by destruct s..].
Qed.
Lemma then_triple {A B} P (R : A -> work_state -> Prop) (m : WorkCall A) (k : A -> WorkCall B) :
  sound_triple P m (fun r s => match r with Ok a => R a s | _ => True end) -> (forall a, sound_triple (R a) (k a) (fun _ _ => True)) ->
  sound_triple P (m ≫= k) (fun _ _ => True).
Proof. intros Hm Hk. unfold mbind, WorkCall_bind. eapply guarded_seq; [exact Hm|]. intros [a|e|]; [apply Hk|by apply guarded_ret..]. Qed.
Lemma each_triple {A} P (items : list A) (body : A -> WorkCall unit) : Forall (fun item => sound_triple P (body item) (fun r s => match r with Ok _ => P s | _ => True end)) items ->
  sound_triple P (call_each items body) (fun r s => match r with Ok _ => P s | _ => True end).
Proof.
  induction 1 as [|item rest Hitem _ IH]; cbn [call_each]; [by apply guarded_ret|]. unfold mbind, WorkCall_bind.
  eapply guarded_seq; [exact Hitem|]. intros [u|e|]; [exact IH|by apply guarded_ret..].
Qed.
Lemma passed_on P (m : WorkCall unit) : sound_triple P m (fun _ => P) -> sound_triple P m (fun r s => match r with Ok _ => P s | _ => True end).
Proof. intros Hm. eapply guarded_weaken; [exact Hm|done|]. intros [u|e|] s Hs; done. Qed.

Lemma orphan_triple records name : sound_triple (records_of records) (remove_orphan records name) (fun r s => match r with Ok _ => records_of records s | _ => True end).
Proof.
  unfold remove_orphan. destruct (is_ok (ParseID name) && negb (bool_decide (name ∈ map fst records))) eqn:E; [|by apply guarded_ret].
  apply andb_true_iff in E as [_ Hno%negb_true_iff%bool_decide_eq_false]. apply passed_on, touch_triple; [apply records_of_env|].
  intros s Hs Hr. split; [|exact Hr]. apply sound_delete; [done|]. intros row Hrow. destruct Hno. apply Hr. by exists row.
Qed.

(** Where directories can be read, only what is not ready is removed. *)
Lemma unready_record records s id row : readable -> stored_sound s -> records_of records s -> (id, row) ∈ records ->
  verifyProductResourceStructure id (rr_byte_size row) (ws_disk s) = false -> not_ready id s.
Proof.
  intros Hread Hs [Hrec _] Hin Hv row' Hrow'. rewrite Forall_forall in Hrec. destruct (Hrec _ Hin) as (stored & Hst & Hi). cbn in *.
  assert (stored = row') as -> by congruence. destruct (rr_state row') eqn:Er; [|done]. destruct Hi as [->|[_ ->]]; [|done].
  destruct (Hs id row Hrow' Er) as (content & Hc & Hlen & _). destruct (Hread (ws_disk s)) as [R1 R2].
  rewrite (verify_structure_complete id (rr_byte_size row) (ws_disk s) (TreeDirectory {[content_name := LeafFile content]})) in Hv; [done|exact Hc| |done|done].
  by exists content.
Qed.
Lemma record_triple records e : readable -> e ∈ records ->
  sound_triple (records_of records) (reconcile_record e) (fun r s => match r with Ok _ => records_of records s | _ => True end).
Proof.
  intros Hread Hin. destruct e as [id row]. unfold reconcile_record. case_bool_decide as Hst.
  - apply passed_on, touch_triple; [apply records_of_env|]. intros s Hs Hr. split; [|exact Hr]. apply sound_delete; [done|]. intros row' Hrow'.
    destruct Hr as [Hrec _]. rewrite Forall_forall in Hrec. destruct (Hrec _ Hin) as (stored & Hx & [->|[Hready _]]); cbn in *; congruence.
  - unfold mbind at 1, WorkCall_bind at 1. cbn [prog_bind].
    apply (triple_act stored_sound_kept (fun (b : bool) s => records_of records s /\ (b = false -> not_ready id s))); [apply records_of_env| |].
    { intros s Hs Hr. cbn. split; [done|]. split; [done|]. by apply (unready_record records s id row). }
    intros [|]; [apply guarded_ret; intros s [Hr _]; exact Hr|]. unfold mbind, WorkCall_bind.
    apply (guarded_seq (fun _ s => records_of records s /\ not_ready id s)).
    + eapply guarded_weaken; [apply (touch_triple (fun s => records_of records s /\ not_ready id s))|by intros s _ [Hr Hn]; split; [|apply Hn]|done].
      * apply both_env; [apply records_of_env|apply not_ready_env].
      * intros s Hs [Hr Hn]. split; [by apply sound_delete|done].
    + intros [u|err|]; [|by apply guarded_ret..]. apply (table_triple _ (fun _ => records_of records)); [apply both_env; [apply records_of_env|apply not_ready_env]|].
      intros s [] t Hs [Hr _] (_ & _ & _ & _ & Hi)%invalidate_effect.
      assert (rtc lifecycle_held s (mkWorkState t (ws_disk s))) as He by (apply rtc_once; by split).
      split; [exact (stored_sound_kept _ _ He Hs)|exact (records_of_env records _ _ He Hs Hr)].
Qed.

Lemma reconcile_triple : readable -> sound_triple (fun _ => True) ReconcileProductResourceStorage (fun _ _ => True).
Proof.
  intros Hread. unfold ReconcileProductResourceStorage.
  apply (then_triple _ (fun _ _ => True)); [apply passed_on, touch_triple; done|intros _].
  apply (then_triple _ (fun _ _ => True)); [apply passed_on, touch_triple; [done|by intros [t d]]|intros _].
  apply (then_triple _ records_of); [apply table_triple; [done|]|intros records].
  { intros [t0 d] records t Hs _ Hl. unfold loadStoredProductResources in Hl. cbn in Hl.
    apply work_bind_ok in Hl as (rows & t1 & [-> ->]%work_read_ok & Hl). apply work_bind_ok in Hl as (u & t2 & [_ ->]%work_guard_ok & [-> ->]%work_ret_ok).
    split; [exact Hs|]. split.
    - apply Forall_forall. intros [id row] Hin%elem_of_map_to_list. exists row. split; [exact Hin|by left].
    - cbn. intros id [row Hrow]. apply list_elem_of_fmap. exists (id, row). by rewrite elem_of_map_to_list. }
  apply (call_act _ (fun _ => records_of records)); [apply records_of_env|by intros [t d0] a d Hs Hr [= _ <-]|done|intros names].
  apply (then_triple _ (fun _ => records_of records)); [apply each_triple, Forall_forall; intros name _; apply orphan_triple|intros _].
  apply (then_triple _ (fun _ => records_of records)); [apply each_triple, Forall_forall; intros e He; by apply record_triple|intros _].
  eapply guarded_weaken; [apply (touch_triple (records_of records)); [apply records_of_env|by intros [t d]]|done|done].
Qed.

(** What happens to the rows and files of the resources: a completion, which runs to
    its end or stops anywhere; a startup where directories can be read; any other
    change of the tables. *)
Inductive storage_step (s s' : work_state) : Prop :=
| StoreComplete input : 0 <= cp_ByteSize input < 2 ^ 64 -> visited lifecycle_held (CompleteProductResource input) s s' -> storage_step s s'
| StoreStartup : readable -> visited lifecycle_held ReconcileProductResourceStorage s s' -> storage_step s s'
| StoreOther t : work_step (ws_tables s) t ->
    (forall claim resource id b eventID at_, wc_Resource claim = Some resource -> complete_body claim resource id b eventID at_ (ws_tables s) <> Ok (tt, t)) ->
    s' = mkWorkState t (ws_disk s) -> storage_step s s'.

Lemma storage_sound s s' : storage_step s s' -> stored_sound s -> stored_sound s'.
Proof.
  intros [input Htyped Hv|Hread Hv|t Hstep Hno ->] Hs.
  - exact (triple_visited _ _ stored_sound_kept _ _ _ _ _ (complete_triple input Htyped) Hs I Hv).
  - exact (triple_visited _ _ stored_sound_kept _ _ _ _ _ (reconcile_triple Hread) Hs I Hv).
  - apply step_resources in Hstep as [Hr|(claim & resource & id & b & eventID & at_ & Hres & Hc)]; [|by destruct (Hno claim resource id b eventID at_ Hres)].
    eapply stored_sound_kept; [|exact Hs]. apply rtc_once. by split.
Qed.

(** C24: A resource is ready only when it is there.  Through any sequence of completions, of startups that can read the directories, and of the other calls
    on the tables - each completion and startup run to its end or stopped anywhere, whatever file system calls that change files and whatever statements fail,
    and whatever other requests do meanwhile - every ready resource has its directory with one file of the recorded size and digest, if this was so at the
    beginning.  A completion that returns leaves the row of its job.  (A startup that cannot read a directory removes it before it marks the row:
    [unreadable_resource_removed].) *)
Theorem ready_resources_on_disk s : stored_sound s ->
  (forall s', rtc storage_step s s' -> stored_sound s') /\
  (forall input s', 0 <= cp_ByteSize input < 2 ^ 64 -> runs lifecycle_held (CompleteProductResource input) s (Ok tt) s' ->
     exists id row, wt_resources (ws_tables s') !! id = Some row /\ rr_producer_job_id row = wc_JobID (cp_Claim input)).
Proof.
  intros Hs. split.
  - intros s' Hr. induction Hr as [|s1 s2 s3 H12 _ IH]; [done|]. apply IH. by eapply storage_sound.
  - intros input s' Htyped Hr. refine (_ (triple_runs _ _ _ _ _ s (Ok tt) s' _ (complete_triple input Htyped) Hs I Hr)); [by intros [id Hx]; exists id|].
    intros [u|e|]; [|done..]. intros s1 s2 He Hi [id Hx]. exists id. by eapply acquired_env.
Qed.

End publishing.

(** ** The sample resource on a disk *)

#[local] Existing Instance sample_platform.
#[local] Existing Instance calm_sql.
#[local] Existing Instance https_urls.
Definition calm_disk : WorkDisk := {| disk_refuses := fun _ _ => false |}.
#[local] Existing Instance calm_disk.

Definition sample_completion : CompleteProductResourceInput :=
  mkCompletion sample_claim (sample_id "d1") 7 (sha256_text sample_model) (Some sample_model) (sample_id "e1") (1002 * a_second).
Definition sample_before : work_state := mkWorkState sample_running_work (mkDisk ∅ ∅).
Definition sample_after : work_state := (run (CompleteProductResource sample_completion) sample_before).2.

Lemma sample_before_sound : stored_sound sample_before.
Proof.
  intros id row Hrow. assert (wt_resources (ws_tables sample_before) = ∅) as E by (vm_compute; reflexivity). rewrite E, lookup_empty in Hrow. discriminate Hrow.
Qed.

(** The sample is acquired, then the program starts again. *)
Lemma ready_resources_on_disk_witness : stored_sound (run ReconcileProductResourceStorage sample_after).2 /\
  (rr_state <$> wt_resources (ws_tables (run ReconcileProductResourceStorage sample_after).2) !! sample_id "d1") = Some ResourceReady /\
  exists id row, wt_resources (ws_tables sample_after) !! id = Some row /\ rr_producer_job_id row = wc_JobID sample_claim.
Proof.
  destruct (ready_resources_on_disk sample_before sample_before_sound) as [Hlife Hrun].
  pose proof (run_runs lifecycle_held (CompleteProductResource sample_completion) sample_before) as Hr.
  pose proof (run_runs lifecycle_held ReconcileProductResourceStorage sample_after) as Hr2.
  split; [|split; [vm_compute; reflexivity|]].
  - apply Hlife. apply (rtc_l _ _ sample_after); [|apply rtc_once].
    + apply (StoreComplete _ _ sample_completion); [split; vm_compute; done|exact (runs_visited _ _ _ _ _ Hr)].
    + apply StoreStartup; [intros d; exact (conj eq_refl eq_refl)|exact (runs_visited _ _ _ _ _ Hr2)].
  - assert ((run (CompleteProductResource sample_completion) sample_before).1 = Ok tt) as Eok by (vm_compute; reflexivity). rewrite Eok in Hr.
    apply (Hrun sample_completion); [split; vm_compute; done|exact Hr].
Defined.


(** A startup that cannot read the directory of a ready resource removes it, whatever
    it holds; and when the statement that marks the row then fails, the row stays
    ready with nothing on the disk. *)
Example unreadable_resource_removed :
  let blind := {| disk_refuses := fun name _ => bool_decide (name = "Lstat") |} in
  let locked := {| work_refuses := fun name _ => bool_decide (name = "UPDATE product_resources") |} in
  let (r, s) := run (@ReconcileProductResourceStorage locked blind) sample_after in
  is_ok r = false /\ (rr_state <$> wt_resources (ws_tables s) !! sample_id "d1") = Some ResourceReady /\ dk_resources (ws_disk s) = ∅ /\
  is_Some (dk_resources (ws_disk sample_after) !! sample_id "d1").
Proof. vm_compute. split; [reflexivity|]. split; [reflexivity|]. split; [reflexivity|]. by eexists. Qed.
